(* ===== verification/_CoqProject ===== *)
-Q . S2P
Prelude.v
Utils.v
Bytes.v
Bitset.v
Rlp.v
Merkle.v
Data.v
Json.v
JsonVal.v
ReqState.v
Request.v
ReqFrame.v
ReqSafety.v
ReqProgress.v
Serialize.v
Nano.v
NanoSafety.v
ReqNew.v
Btc.v
BtcMerkle.v
BtcTx.v
BtcPreBip34.v
BtcTarget.v
BtcVerify.v
BtcFinality.v
BtcSafety.v
NodeData.v
NodeCache.v
NodeList.v
NodePick.v
NodeBoot.v
NodeConfig.v
NodeRegistry.v
NodeSelect.v
NodeInv.v
NodeSafety.v
AccountProof.v
NodeProof.v
BasicAccount.v
AccountSafety.v
BasicTx.v
TxSafety.v
Trie.v
TrieSpec.v
TrieNode.v
TrieStore.v
TrieInsert.v
TrieBuild.v
BasicBlock.v
BlockSafety.v
BasicLog.v
LogSafety.v
BasicEth.v
EthSafety.v
Big.v
EvmState.v
EvmStack.v
EvmMem.v
EvmAccounts.v
Opcodes.v
Precompiled.v
Evm.v
EvmOps.v
EvmMachine.v
