(* ===== verification/Prelude.v ===== *)
(** * Verification of the Incubed (in3) C client: bytes, RLP, proofs, requests, nodes, receipts, Bitcoin and the EVM

    Incubed verifies the answers of untrusted Ethereum nodes on the client.  Its core is written in
    C under [src/c/src]: byte and data utilities ([core/util]), the execution of requests, which
    hands the answers of the nodes to the verifiers ([core/client]), the selection of the nodes that
    are asked ([nodeselect/full]), the nano verifier with the RLP
    decoder, Merkle Patricia proofs and signatures of block headers ([verifier/eth1/nano]), the basic
    verifier of accounts, transactions, blocks and logs ([verifier/eth1/basic]), the
    verifier of Bitcoin headers and transactions ([verifier/btc]), and an EVM ([verifier/eth1/evm])
    that re-executes [eth_call] on verified state.  This library translates these parts into Rocq
    functions and proves what they compute, where they agree with the specification of the chain
    and where they do not.

    ** How C is modelled

    - Machine integers are [Z] with the wrap-around written out ([u8], [u32], [u64], [i32] below);
      bytes are [Z] in [0, 256), blocks of memory lists of bytes ([bytes_ok]).
    - A fresh block has unspecified content: class [Allocator]; the theorems hold for all instances.
      Undefined behaviour (accesses outside a block, NULL, uninitialised variables) is [None] of an
      option type, or [Undef] where a function also has error codes ([EvmState.res]: a value, an
      error with the state changed so far, undefined, or out of fuel).
    - Pointers into a buffer that is only read (rlp.c, merkle.c) are addresses in a total memory
      ([Rlp.slice]), so that reads behind a buffer are visible as such.
    - Code outside the repository's own sources is a parameter: the hash function ([Keccak]), the
      multi-precision library with the laws of exact arithmetic ([Big.MpInt]), the double SHA-256
      ([Btc.Sha256]), the recovery of keys
      from signatures ([Nano.Ecdsa]), the cryptography of the precompiled contracts
      ([Precompiled.PreCrypto]) and the EVM's view of the chain ([EvmAccounts.EvmEnv]).

    ** Files

    - [Prelude]: integers, big-endian numbers ([be_val], [be_bytes]), [memcpy], [memcmp], tactics
      and the hint database [in3].
    - [Utils]: core/util/utils.c and the inline functions of utils.h (hex, numbers, strings,
      [b256_add], [tokenize]).
    - [Bytes]: core/util/bytes.c.  [bytes_builder_t] refines a list: the representation predicate
      is [bb_rep].
    - [Bitset]: core/util/bitset.c, inline words and heap blocks.
    - [Rlp]: nano/rlp.c.  Encoder on the byte builder, decoder on memory with its length
      arithmetic, against the yellow paper's encoding ([rlp_string], [rlp_list]).
    - [Merkle]: nano/merkle.c.  [check_node] and [trie_verify_proof] against an inductive type of
      tries with their encoding: soundness and completeness of inclusion proofs; exclusion proofs
      prove nothing.
    - [Data]: core/util/data.c.  Token arrays, their navigation and the binary format, against JSON
      values as an inductive type.
    - [Json]: the JSON parser of core/util/data.c on the characters of a text.  Parsing what a
      printer writes for a value gives its tokens; the parser ends on every text.
    - [JsonVal]: the conversions of data.c ([d_string], [d_bytes], [d_long]) and lookups on values,
      with the proof that they are those of the token array.
    - [ReqState]: the records of core/client/request.h and plugin.h, the cache entries of scache.c,
      error reporting and the dispatch of plugin actions (request.c, client_init.c).  A plugin is a
      parameter: its actions are functions on the state.
    - [Request]: core/client/execute.c, [in3_req_execute] with everything it calls: attempts,
      parsing, payment hooks, verification, the state of a chain of requests.  Freed memory is
      [Freed], and touching it undefined.
    - [ReqFrame]: properties of steps that every function of [Request] has if the plugins have them.
    - [ReqSafety]: a request only succeeds with responses the verifier accepted, over any history of
      executions and transport steps, given plugins that keep their contract ([plugin_contract]: reports
      leave the answer alone, a verifier that accepts has checked what it claims, a payment that waits
      does not make a bulk look verified); two ways into undefined behaviour.
    - [ReqProgress]: an execution ends, if the plugins add requests only from a budget; what
      [in3_req_state] tells.
    - [Serialize]: nano/serialize.c.  Accounts, transactions, block headers and receipts are written
      as RLP lists of their fields; the bytes of a receipt determine its fields.
    - [Nano]: nano/signature.c, blockheader.c, txreceipt.c and eth_nano.c, without POA: the cache of
      verified hashes, signatures of block headers, the proof of a receipt, and the plugin.
    - [NanoSafety]: the plugin keeps the contract of [ReqSafety]; a request for a receipt succeeds
      only with a proved receipt, which is the one of the chain if a signer is honest.
    - [ReqNew]: core/client/request.c and execute.c, creating a request and finding a required one.
    - [Btc]: verifier/btc/btc_serialize.c and btc_merkle.c, numbers in the order of Bitcoin, block
      fields and targets, Merkle trees; the parser of transactions of btc_types.c.
    - [BtcMerkle]: roots and proofs of Merkle trees against an inductive tree.  [BtcTx]:
      transactions in the format of the network are parsed to their parts and their id.
    - [BtcPreBip34]: the table of pre_bip34.h.  [BtcTarget]: btc_target.c, the known targets and the
      request for a proof of others.  [BtcVerify]: btc.c, headers, finality, transactions, blocks,
      proofs of targets and the dispatch of the plugin.
    - [BtcFinality]: the value of targets, the bounds of a new one, and the headers that
      [btc_check_finality] accepts, as a relation.  [BtcSafety]: what is known of an accepted
      transaction.
    - [NodeData]: nodeselect/full/nodelist.h with the weights and checks of nodelist.c; class
      [NodeWorld] is the state of the plugin inside the world of the requests, with clock and random
      numbers.  [NodeCache]: cache.c, lists in the cache and back.  [NodeList]: updates of nodelist and
      whitelist with the requests they need, and picking, of nodelist.c.  [NodePick]: weights, intervals
      and candidates.  [NodeBoot]: the tables of nodeselect_def_cfg.h (build without staging).
      [NodeConfig]: configuration and boot nodes, [NodeSelect]: the actions of the plugin, both of
      nodeselect_def.c.  [NodeRegistry]: registry.c, nodelists against the registry contract.
    - [NodeInv]: the shape of the lists is kept by every action.  [NodeSafety]: the nodes that are
      picked, blacklisting, refused updates, boot nodes and reports of missing signatures.  [NodeProof]:
      the nodes of a verified list are those of the contract; a complete list need not be complete.
    - [AccountProof]: accounts and storage values below the state root of a header, for the two users of
      such proofs.  [BasicAccount]: basic/eth_account.c, answers about accounts.  [AccountSafety]: an
      answer that is accepted is that of the chain, except for accounts that look absent: their balance
      can be made up.
    - [BasicTx]: basic/eth_getTransaction.c, and putting a signature into a transaction of
      basic/sign_tx.c.  [TxSafety]: what is verified is what was signed; an accepted transaction is
      the one of the chain; transactions of the newer types cannot be signed.
    - [Trie]: basic/trie.c, building a trie of nodes that refer to each other by their hashes, in place.
      [TrieSpec]: the trie of keys and values as a function, [TrieNode]: the nodes of trie.c as encodings
      of its nodes, [TrieStore]: the store of nodes and what a step leaves of it, [TrieInsert]: one value,
      [TrieBuild]: all of them; the root that is computed is that of the trie, and where it is not.
    - [BasicBlock]: basic/eth_getBlock.c, blocks and numbers of transactions.  [BlockSafety]: an accepted
      block is that of the chain; an accepted number of transactions may be too large.
    - [BasicLog]: basic/eth_getLog.c, logs and the filter of a request.  [LogSafety]:
      accepted logs are those of the chain and match the filter.
    - [BasicEth]: the verifier of basic/eth_basic.c, which chooses by the method, and the options and
      the table of filters of filter.c.  [EthSafety]: what an
      accepted result shows, method by method.
    - [Big]: evm/big.c, 256 bit arithmetic on byte strings of up to 32 bytes.
    - [EvmState]: evm/evm.h, the frame [evm_t] and the monad of its operations.  [EvmStack]:
      the stack functions of evm.c (words with a length byte in one buffer) refine a bounded list
      of words.  [EvmMem]: evm/evm_mem.c refines an array of bytes and charges for it.
    - [EvmAccounts]: evm/accounts.c on a [world], the running frame in front of its parents:
      lookup of accounts and storage, transfer of value, merging of a sub-call.
    - [Opcodes]: evm/opcodes.c, one definition per instruction.  [Precompiled]: precompiled.c.
    - [Evm]: dispatch, run loop, gas and calls of evm.c, gas.c, gas.h and call.c, in the build with
      EVM_GAS.
    - [EvmOps]: what the instructions do to the words on the stack, against the yellow paper.
    - [EvmMachine]: an abstract machine (program counter, gas, stack of numbers) and the proof that
      [evm_run] on a frame behaves as it does.

    ** What the theorems assume

    The authenticity theorems (claims on receipts, accounts, transactions, blocks, logs and nodelists)
    start from a verifier that returned IN3_OK.  They assume that the plugins keep their contract, that
    the client asks for proofs, that the request asks for signatures and each set of signers the client
    asks has an honest one, that nothing in the response collides, by its hash, with the chain, and
    that the tries of the chain have no node of less than 32 bytes: the verifier of Merkle proofs is not
    sound for embedded nodes ([Merkle.embedded_leaf_forged]).  Without signatures [nano_request_sound] and
    [basic_verifier_sound] still say that the result was proved below the header of the response.
    Values of 32 bytes are excluded, since a reference of a node could be taken for them.  A result
    null is accepted without proof.

    ** Fuel

    [Bytes.grow_bsize] doubles a size at most 64 times, enough for every 64 bit size.
    [Rlp.rlp_decode] gets one round per byte, enough while the position advances; that it may not
    is a theorem.  [Merkle.check_node] recurses on what is left of MERKLE_DEPTH_MAX, which the code
    counts itself.  The walks of [Data] have one round per token or byte, enough for every input.
    [Json.parse_json] recurses at most to DATA_DEPTH_MAX, which the code counts, and its loops have
    one round per character ([parse_json_total]).  [ReqState.log_fuel] bounds reports of errors from
    within a report; [Request.in3_req_execute] takes one unit of fuel per call, and
    [ReqProgress.rounds] are enough ([execute_terminates]).
    [Btc.parse_ins] and [parse_outs] have one round per byte, and each item has more than one;
    [Btc.create_parent_hashes] and [merkle_walk] one per hash and byte, [BtcVerify.finality_loop] one
    per byte of the headers, of which it takes 80.
    [Trie.handle_node] has one level for each nibble of the key that is left ([trie_root_spec]).
    [NodeData.pick_loop] has the bound of the code, ten rounds per node; a request of the node selection runs
    with the rounds of [in3_req_execute].
    [NodeRegistry.random_loop] has fuel for the search for indexes, which need not end; for seeds
    without a common divisor the limit of nodes is enough ([partial_list_indexes]).
    [Evm.evm_run] has fuel for nesting and instructions; the code's own bounds are
    2^32 instructions per frame and the gas.

    ** What is not modelled

    In core/client: the payload of requests, sending, configuration and freeing of requests.
    Authority chains (POA, chainspec.c, vhist.c); of the basic verifier the changes of a filter
    ([filter_get_changes]), the handlers that prepare and send transactions (eth_basic.c, sign_tx.c);
    of node selection the
    list shared by clients, mutexes and printing of the configuration; of Bitcoin the
    creation of addresses, scripts and signed transactions (btc_address.c, btc_script.c, btc_sign.c);
    IPFS and Solana, signers, payment, transports, command line and bindings; third-party code.  In
    the modelled files: printing, tracing, freeing of memory other than responses, and the JSON
    receipt of [evm_call].  The extension order is: preparing and sending
    transactions, Bitcoin scripts, string builder. *)
From stdpp Require Export base option list numbers list_numbers.
From Stdlib Require Export ZArith Lia.

#[global] Open Scope Z_scope.

(** ** Machine integers

    An unsigned C integer of width [w] is a [Z] in [0 .. 2^w-1]; every operation that can leave
    the range is followed by the wrap the compiler performs. *)
Definition u8 (z : Z) : Z := z mod 2 ^ 8.
Definition u16 (z : Z) : Z := z mod 2 ^ 16.
Definition u32 (z : Z) : Z := z mod 2 ^ 32.
Definition u64 (z : Z) : Z := z mod 2 ^ 64.
(** Conversion to a signed 32 / 64 bit two's complement integer. *)
Definition i32 (z : Z) : Z := (z + 2 ^ 31) mod 2 ^ 32 - 2 ^ 31.
Definition i64 (z : Z) : Z := (z + 2 ^ 63) mod 2 ^ 64 - 2 ^ 63.

Definition is_byte (b : Z) : Prop := 0 <= b < 256.
Abbreviation bytes_ok := (Forall is_byte).

#[global] Instance is_byte_dec b : Decision (is_byte b).
Proof. unfold is_byte. apply _. Defined.

Abbreviation zlen l := (Z.of_nat (length l)).

Create HintDb in3.
Create Rewrite HintDb in3.

Lemma u8_byte z : is_byte (u8 z).
Proof. apply Z.mod_pos_bound. lia. Qed.
Lemma u8_small z : is_byte z -> u8 z = z.
Proof. intros. apply Z.mod_small. done. Qed.
Lemma u32_range z : 0 <= u32 z < 2 ^ 32.
Proof. apply Z.mod_pos_bound. lia. Qed.
Lemma u32_small z : 0 <= z < 2 ^ 32 -> u32 z = z.
Proof. apply Z.mod_small. Qed.
Lemma u64_range z : 0 <= u64 z < 2 ^ 64.
Proof. apply Z.mod_pos_bound. lia. Qed.
Lemma u64_small z : 0 <= z < 2 ^ 64 -> u64 z = z.
Proof. apply Z.mod_small. Qed.
Lemma i32_small z : - 2 ^ 31 <= z < 2 ^ 31 -> i32 z = z.
Proof. intros. unfold i32. rewrite Z.mod_small; lia. Qed.
Lemma i32_range z : - 2 ^ 31 <= i32 z < 2 ^ 31.
Proof. unfold i32. pose proof (Z.mod_pos_bound (z + 2^31) (2^32)). lia. Qed.
Lemma i64_small z : - 2 ^ 63 <= z < 2 ^ 63 -> i64 z = z.
Proof. intros. unfold i64. rewrite Z.mod_small; lia. Qed.

#[export] Hint Resolve u8_byte u32_range u64_range i32_range : in3.

(** [land x 0xFF] keeps the low byte. *)
Lemma land_255 z : Z.land z 255 = z mod 256.
Proof. change 255 with (Z.ones 8). by rewrite Z.land_ones. Qed.

Lemma byte_shiftr_bound b n : is_byte b -> 0 <= n -> is_byte (Z.shiftr b n).
Proof.
  intros [H1 H2] Hn. unfold is_byte. rewrite Z.shiftr_div_pow2 by lia. split.
  - apply Z.div_pos; lia.
  - apply Z.div_lt_upper_bound; [lia|]. nia.
Qed.

(** Bit operations stay within a width. *)
Lemma lt_pow2_testbit n x : 0 <= n -> 0 <= x ->
  (forall i, n <= i -> Z.testbit x i = false) -> x < 2 ^ n.
Proof.
  intros Hn Hx H. destruct (Z.eq_dec x 0) as [->|Hx0]; [lia|].
  apply Z.log2_lt_pow2; [lia|]. destruct (Z.lt_ge_cases (Z.log2 x) n) as [|Hge]; [done|].
  specialize (H (Z.log2 x) Hge). rewrite Z.bit_log2 in H by lia. done.
Qed.
Lemma testbit_small x n i : 0 <= x < 2 ^ n -> 0 <= n <= i -> Z.testbit x i = false.
Proof.
  intros Hx Hi. rewrite <- (Z.mod_small x (2 ^ n)) by lia. apply Z.mod_pow2_bits_high. lia.
Qed.
Lemma bitop_bound (op : Z -> Z -> Z) (f : bool -> bool -> bool) n x y :
  (forall a b i, Z.testbit (op a b) i = f (Z.testbit a i) (Z.testbit b i)) ->
  (forall a b, 0 <= a -> 0 <= b -> 0 <= op a b) -> f false false = false -> 0 <= n ->
  0 <= x < 2 ^ n -> 0 <= y < 2 ^ n -> 0 <= op x y < 2 ^ n.
Proof.
  intros Hop Hpos Hf Hn Hx Hy. split; [apply Hpos; lia|]. apply lt_pow2_testbit; [lia|apply Hpos; lia|].
  intros i Hi. rewrite Hop, (testbit_small x n i), (testbit_small y n i) by lia. done.
Qed.
Lemma lor_bound n x y : 0 <= n -> 0 <= x < 2 ^ n -> 0 <= y < 2 ^ n -> 0 <= Z.lor x y < 2 ^ n.
Proof. apply (bitop_bound Z.lor orb); auto using Z.lor_spec. intros. by apply Z.lor_nonneg. Qed.
Lemma land_bound n x y : 0 <= n -> 0 <= x < 2 ^ n -> 0 <= y < 2 ^ n -> 0 <= Z.land x y < 2 ^ n.
Proof. apply (bitop_bound Z.land andb); auto using Z.land_spec. intros. apply Z.land_nonneg. by left. Qed.
Lemma lxor_bound n x y : 0 <= n -> 0 <= x < 2 ^ n -> 0 <= y < 2 ^ n -> 0 <= Z.lxor x y < 2 ^ n.
Proof. apply (bitop_bound Z.lxor xorb); auto using Z.lxor_spec. intros. apply Z.lxor_nonneg. lia. Qed.

(** Or-ing a value below [2^n] into a multiple of [2^n] is adding it. *)
Lemma land_mul_pow2_small a b n : 0 <= n -> 0 <= b < 2 ^ n -> Z.land (a * 2 ^ n) b = 0.
Proof.
  intros Hn Hb. apply Z.bits_inj'. intros i Hi. rewrite Z.land_spec, Z.bits_0.
  destruct (Z.lt_ge_cases i n).
  - rewrite Z.mul_pow2_bits_low by lia. done.
  - rewrite (testbit_small b n i) by lia. apply andb_false_r.
Qed.
Lemma lor_mul_add a b n : 0 <= n -> 0 <= b < 2 ^ n -> Z.lor (a * 2 ^ n) b = a * 2 ^ n + b.
Proof. intros. symmetry. apply Z.add_nocarry_lor. by apply land_mul_pow2_small. Qed.
Lemma lor_add_mul a b n : 0 <= n -> 0 <= b < 2 ^ n -> Z.lor b (a * 2 ^ n) = a * 2 ^ n + b.
Proof. intros. rewrite Z.lor_comm. by apply lor_mul_add. Qed.

Lemma length_snoc {A} (l : list A) x : length (l ++ [x]) = S (length l).
Proof. rewrite length_app. simpl. lia. Qed.

(** ** Big-endian values

    The number a big-endian byte string denotes, and the [n] byte big-endian representation of
    a number (its low [8*n] bits). *)
Definition be_val (l : list Z) : Z := fold_left (fun acc b => acc * 256 + b) l 0.

Fixpoint be_bytes (n : nat) (v : Z) : list Z :=
  match n with
  | O => []
  | S k => be_bytes k (v / 256) ++ [v mod 256]
  end.

Lemma be_val_nil : be_val [] = 0.
Proof. done. Qed.
Lemma be_val_snoc l b : be_val (l ++ [b]) = be_val l * 256 + b.
Proof. unfold be_val. by rewrite fold_left_app. Qed.
Lemma pow256_S n : 256 ^ Z.of_nat (S n) = 256 * 256 ^ Z.of_nat n.
Proof. rewrite Nat2Z.inj_succ, Z.pow_succ_r; lia. Qed.
Lemma pow256_pos n : 0 < 256 ^ Z.of_nat n.
Proof. apply Z.pow_pos_nonneg; lia. Qed.
Lemma pow256_pow2 n : 256 ^ Z.of_nat n = 2 ^ (8 * Z.of_nat n).
Proof. change 256 with (2 ^ 8). rewrite <- Z.pow_mul_r by lia. done. Qed.

Lemma pow256_add n m : 256 ^ Z.of_nat (n + m) = 256 ^ Z.of_nat n * 256 ^ Z.of_nat m.
Proof. rewrite Nat2Z.inj_add, Z.pow_add_r; lia. Qed.
Lemma pow256_split n k : (k <= n)%nat -> 256 ^ Z.of_nat n = 256 ^ Z.of_nat k * 256 ^ Z.of_nat (n - k).
Proof. intros. rewrite <- pow256_add. do 2 f_equal. lia. Qed.
Lemma mod_mul_split lo hi b c : 0 <= lo < b -> 0 < c -> (lo + hi * b) mod (b * c) = lo + b * (hi mod c).
Proof.
  intros Hlo Hc. rewrite Z.rem_mul_r by lia. rewrite Z_mod_plus_full, Z.div_add by lia.
  rewrite Z.mod_small, Z.div_small by lia. f_equal.
Qed.

Lemma be_val_app l1 l2 : be_val (l1 ++ l2) = be_val l1 * 256 ^ zlen l2 + be_val l2.
Proof.
  induction l2 as [|b l2 IH] using rev_ind; simpl.
  - rewrite app_nil_r, be_val_nil. lia.
  - rewrite app_assoc, !be_val_snoc, IH, length_snoc, pow256_S. lia.
Qed.
Lemma be_val_cons b l : be_val (b :: l) = b * 256 ^ zlen l + be_val l.
Proof. change (b :: l) with ([b] ++ l). rewrite be_val_app. done. Qed.
Lemma be_val_single b : be_val [b] = b.
Proof. unfold be_val. simpl. lia. Qed.
Lemma be_val_bound l : bytes_ok l -> 0 <= be_val l < 256 ^ zlen l.
Proof.
  induction l as [|b l IH] using rev_ind; intros Hl; [done|].
  apply Forall_app in Hl as [Hl Hb]. apply Forall_inv in Hb. specialize (IH Hl). unfold is_byte in Hb.
  rewrite be_val_snoc, length_snoc, pow256_S. nia.
Qed.
Lemma be_val_zeros n l : be_val (replicate n 0 ++ l) = be_val l.
Proof. induction n as [|n IH]; simpl; [done|]. rewrite be_val_cons, IH. lia. Qed.
Lemma be_val_replicate0 n : be_val (replicate n 0) = 0.
Proof. rewrite <- (app_nil_r (replicate n 0)), be_val_zeros. done. Qed.

(** Or-ing the next byte below an accumulated big-endian prefix. *)
Lemma lor_be_step v d n : is_byte d ->
  Z.lor (v * 256 ^ Z.of_nat (S n)) (d * 256 ^ Z.of_nat n) = (v * 256 + d) * 256 ^ Z.of_nat n.
Proof.
  intros [H1 H2]. pose proof (pow256_pos n). rewrite (pow256_pow2 (S n)), lor_mul_add; [|lia|].
  - rewrite <- pow256_pow2, pow256_S. lia.
  - rewrite <- pow256_pow2, pow256_S. nia.
Qed.
Lemma be_val_pos l : bytes_ok l -> 0 <= be_val l.
Proof. intros. by apply be_val_bound. Qed.
Lemma be_val_le_app l1 l2 : bytes_ok l1 -> bytes_ok l2 -> be_val l1 * 256 ^ zlen l2 <= be_val (l1 ++ l2).
Proof. intros _ H2. rewrite be_val_app. pose proof (be_val_pos l2 H2). lia. Qed.

Lemma length_be_bytes n v : length (be_bytes n v) = n.
Proof. revert v. induction n as [|n IH]; intros v; simpl; [done|]. rewrite length_app, IH. simpl. lia. Qed.
Lemma be_bytes_ok n v : bytes_ok (be_bytes n v).
Proof.
  revert v. induction n as [|n IH]; intros v; simpl; [constructor|].
  apply Forall_app. split; [done|]. constructor; [|constructor]. apply Z.mod_pos_bound. lia.
Qed.
Lemma be_val_be_bytes n v : be_val (be_bytes n v) = v mod 256 ^ Z.of_nat n.
Proof.
  revert v. induction n as [|n IH]; intros v; [by rewrite Z.mod_1_r|].
  change (be_bytes (S n) v) with (be_bytes n (v / 256) ++ [v mod 256]).
  rewrite be_val_snoc, IH, pow256_S. pose proof (pow256_pos n).
  rewrite Z.rem_mul_r by lia. lia.
Qed.
Lemma be_bytes_be_val l : bytes_ok l -> be_bytes (length l) (be_val l) = l.
Proof.
  induction l as [|b l IH] using rev_ind; intros Hl; [done|].
  apply Forall_app in Hl as [Hl Hb]. apply Forall_inv in Hb. unfold is_byte in Hb.
  rewrite length_snoc, be_val_snoc. simpl.
  rewrite Z.div_add_l by lia. rewrite (Z.div_small b) by lia. rewrite Z.add_0_r, IH by done.
  rewrite Z.add_comm, Z_mod_plus_full, Z.mod_small by lia. done.
Qed.
Lemma be_val_inj l1 l2 : bytes_ok l1 -> bytes_ok l2 -> length l1 = length l2 ->
  be_val l1 = be_val l2 -> l1 = l2.
Proof. intros H1 H2 Hl Hv. rewrite <- (be_bytes_be_val l1), <- (be_bytes_be_val l2), Hl, Hv by done. done. Qed.
Lemma be_bytes_mod n v : be_bytes n (v mod 256 ^ Z.of_nat n) = be_bytes n v.
Proof.
  apply be_val_inj; auto using be_bytes_ok; [by rewrite !length_be_bytes|].
  rewrite !be_val_be_bytes. apply Z.mod_mod. pose proof (pow256_pos n). lia.
Qed.

#[export] Hint Rewrite be_val_nil be_val_snoc be_val_single length_be_bytes be_val_replicate0 : in3.
#[export] Hint Resolve be_bytes_ok : in3.

(** ** C arrays

    [rd l i] is the C expression [l[i]]; it is used where the index is inside the array (a read
    past the end of a C string reads its terminator, 0). *)
Definition rd (l : list Z) (i : Z) : Z := if i <? 0 then 0 else nth (Z.to_nat i) l 0.

Lemma rd_nat l i : rd l (Z.of_nat i) = nth i l 0.
Proof. unfold rd. destruct (Z.ltb_spec (Z.of_nat i) 0); [lia|]. by rewrite Nat2Z.id. Qed.
Lemma nth_ok l i : bytes_ok l -> is_byte (nth i l 0).
Proof.
  intros H. destruct (Nat.lt_ge_cases i (length l)) as [Hi|Hi].
  - apply Forall_nth; [done|done].
  - rewrite nth_overflow by done. done.
Qed.
Lemma rd_ok l i : bytes_ok l -> is_byte (rd l i).
Proof. intros. unfold rd. case_match; [done|]. by apply nth_ok. Qed.
#[export] Hint Resolve nth_ok rd_ok : in3.

(** [memcpy(dst + off, src, len(src))]: [None] when the write leaves the destination buffer. *)
Definition memcpy_at (dst : list Z) (off : nat) (src : list Z) : option (list Z) :=
  if (off + length src <=? length dst)%nat
  then Some (take off dst ++ src ++ drop (off + length src) dst)
  else None.

Lemma memcpy_at_Some dst off src : (off + length src <= length dst)%nat ->
  memcpy_at dst off src = Some (take off dst ++ src ++ drop (off + length src) dst).
Proof. intros H. unfold memcpy_at. by rewrite (proj2 (Nat.leb_le _ _) H). Qed.
Lemma memcpy_at_length dst off src d : memcpy_at dst off src = Some d -> length d = length dst.
Proof.
  unfold memcpy_at. destruct (Nat.leb_spec (off + length src) (length dst)) as [H|]; [|done].
  intros [= <-]. rewrite !length_app, length_take, length_drop. lia.
Qed.
Lemma memcpy_at_take dst off src d : memcpy_at dst off src = Some d ->
  take (off + length src) d = take off dst ++ src.
Proof.
  unfold memcpy_at. destruct (Nat.leb_spec (off + length src) (length dst)) as [H|]; [|done].
  intros [= <-]. rewrite app_assoc. apply take_app_length'. rewrite length_app, length_take. lia.
Qed.

(** [memcmp] on two blocks of the same length: the sign of the first difference. *)
Fixpoint memcmp (a b : list Z) : Z :=
  match a, b with
  | x :: a', y :: b' => if x =? y then memcmp a' b' else if x <? y then -1 else 1
  | _, _ => 0
  end.

Lemma memcmp_spec a b : bytes_ok a -> bytes_ok b -> length a = length b ->
  memcmp a b = Z.sgn (be_val a - be_val b).
Proof.
  revert b. induction a as [|x a IH]; intros [|y b] Ha Hb Hl; simplify_eq/=; [done|].
  inversion_clear Ha as [|? ? Hx Ha']. inversion_clear Hb as [|? ? Hy Hb'].
  rewrite !be_val_cons. pose proof (be_val_bound a Ha'). pose proof (be_val_bound b Hb').
  unfold is_byte in *. assert (length b = length a) as Hl' by lia. rewrite Hl' in *.
  pose proof (pow256_pos (length a)).
  destruct (Z.eqb_spec x y) as [->|]; [rewrite IH by auto; f_equal; lia|].
  destruct (Z.ltb_spec x y); symmetry.
  - apply Z.sgn_neg. nia.
  - apply Z.sgn_pos. nia.
Qed.
Lemma memcmp_0 a b : length a = length b -> memcmp a b = 0 <-> a = b.
Proof.
  revert b. induction a as [|x a IH]; intros [|y b] Hl; simplify_eq/=; [done|].
  destruct (Z.eqb_spec x y) as [->|].
  - rewrite IH by lia. split; [by intros ->|by intros [=]].
  - split; [by case_match|]. by intros [=].
Qed.

Lemma memcmp_eq a b : length a = length b -> (memcmp a b =? 0) = bool_decide (a = b).
Proof.
  intros Hl. pose proof (memcmp_0 a b Hl) as E. case_bool_decide as Hab; [apply Z.eqb_eq|apply Z.eqb_neq]; tauto.
Qed.

(** ** The allocator

    [malloc n] is the unspecified content of a fresh block of [n] bytes.  Every theorem about
    code that allocates holds for all allocators, so nothing it states depends on the content
    of uninitialised memory. *)
Class Allocator := {
  malloc : nat -> list Z;
  malloc_length : forall n, length (malloc n) = n;
  malloc_ok : forall n, bytes_ok (malloc n)
}.

(** [realloc d n]: the old content is kept, the new bytes are unspecified. *)
Definition realloc `{Allocator} (d : list Z) (n : nat) : list Z := take n d ++ drop (length d) (malloc n).

Lemma realloc_length `{Allocator} d n : length (realloc d n) = n.
Proof. unfold realloc. rewrite length_app, length_take, length_drop, malloc_length. lia. Qed.
Lemma realloc_ok `{Allocator} d n : bytes_ok d -> bytes_ok (realloc d n).
Proof. intros. unfold realloc. apply Forall_app. auto using Forall_take, Forall_drop, malloc_ok. Qed.
Lemma realloc_take `{Allocator} d n k : (k <= length d)%nat -> (k <= n)%nat -> take k (realloc d n) = take k d.
Proof.
  intros. unfold realloc. rewrite take_app_le by (rewrite length_take; lia).
  rewrite take_take. f_equal. lia.
Qed.

(** An allocator that hands out blocks of 0xA5, used to run the code on concrete inputs. *)
#[export] Instance debug_allocator : Allocator.
Proof.
  refine {| malloc n := replicate n 165 |}.
  - intros. apply length_replicate.
  - intros. apply Forall_replicate. done.
Defined.

(** ** Hashing

    The hash function of the crypto library, a parameter of the model. *)
Class Keccak := {
  keccak : list Z -> list Z;
  keccak_length : forall l, length (keccak l) = 32%nat;
  keccak_ok : forall l, bytes_ok (keccak l)
}.

(** ** Operations with state and errors

    A C function that works on a state and returns a negative error code: it ends with a value,
    with an error (the state changes made so far stay), in undefined behaviour, or the model ran
    out of fuel. *)
Inductive res (S A : Type) : Type := Ok (a : A) (s : S) | Err (e : Z) (s : S) | Undef | NoFuel.
Arguments Ok {S A} a s.
Arguments Err {S A} e s.
Arguments Undef {S A}.
Arguments NoFuel {S A}.
Definition M (S A : Type) : Type := S -> res S A.

#[global] Instance M_ret {S} : MRet (M S) := fun A a s => Ok a s.
#[global] Instance M_bind {S} : MBind (M S) := fun A B k m s =>
  match m s with Ok a s' => k a s' | Err e s' => Err e s' | Undef => Undef | NoFuel => NoFuel end.

Definition fail {S A} (e : Z) : M S A := fun s => Err e s.
Definition undef {S A} : M S A := fun _ => Undef.
Definition gets {S A} (f : S -> A) : M S A := fun s => Ok (f s) s.
Definition modify {S} (f : S -> S) : M S unit := fun s => Ok tt (f s).
(** A step that is undefined behaviour where it is [None]. *)
Definition defined {S A} (o : option A) : M S A := match o with Some a => mret a | None => undef end.
(** Run [m]; an error is replaced by [e]: the callers that return their own code. *)
Definition or_fail {S A} (m : M S A) (e : Z) : M S A := fun s =>
  match m s with Err _ s' => Err e s' | r => r end.
(** Run [m]; hand its error code to the caller instead of leaving. *)
Definition try {S A} (m : M S A) : M S (Z + A) := fun s =>
  match m s with Ok a s' => Ok (inr a) s' | Err e s' => Ok (inl e) s' | Undef => Undef | NoFuel => NoFuel end.

Lemma bind_ok {S A B} (m : M S A) (k : A -> M S B) s a s' : m s = Ok a s' -> (m ≫= k) s = k a s'.
Proof. intros E. unfold mbind, M_bind. by rewrite E. Qed.
Lemma bind_defined {S A B} (o : option A) (k : A -> M S B) a s : o = Some a -> (defined o ≫= k) s = k a s.
Proof. by intros ->. Qed.

(** ** Return codes (core/util/error.h) *)
Definition IN3_OK : Z := 0.
Definition IN3_EUNKNOWN : Z := -1.
Definition IN3_ENOMEM : Z := -2.
Definition IN3_ENOTSUP : Z := -3.
Definition IN3_EINVAL : Z := -4.
Definition IN3_EFIND : Z := -5.

(** ** Tactics *)

(** Turn the boolean comparisons of hypotheses and goal into propositions. *)
Ltac bool_cases :=
  repeat match goal with
  | H : context [Z.ltb ?x ?y] |- _ => destruct (Z.ltb_spec x y)
  | H : context [Z.leb ?x ?y] |- _ => destruct (Z.leb_spec x y)
  | H : context [Z.eqb ?x ?y] |- _ => destruct (Z.eqb_spec x y)
  | H : context [Nat.eqb ?x ?y] |- _ => destruct (Nat.eqb_spec x y)
  | H : context [Nat.leb ?x ?y] |- _ => destruct (Nat.leb_spec x y)
  | H : context [Nat.ltb ?x ?y] |- _ => destruct (Nat.ltb_spec x y)
  | |- context [Z.ltb ?x ?y] => destruct (Z.ltb_spec x y)
  | |- context [Z.leb ?x ?y] => destruct (Z.leb_spec x y)
  | |- context [Z.eqb ?x ?y] => destruct (Z.eqb_spec x y)
  | |- context [Nat.eqb ?x ?y] => destruct (Nat.eqb_spec x y)
  | |- context [Nat.leb ?x ?y] => destruct (Nat.leb_spec x y)
  | |- context [Nat.ltb ?x ?y] => destruct (Nat.ltb_spec x y)
  end; cbn [negb andb orb] in *; try lia; try done; try congruence.

(** Prove a closed decidable proposition by evaluating it. *)
Ltac decide_now := apply (bool_decide_unpack _); vm_compute; exact I.
