(* ===== verification/Utils.v ===== *)
(** * core/util/utils.c and the inline helpers of utils.h

    Integer / byte-string conversions, hexadecimal text, number parsing and the small string
    routines.  A [char*] is the list of the character codes before its terminator; reading past
    them reads the terminator 0.  Output buffers are passed in and returned. *)
From S2P Require Import Prelude.

Definition MAX_UINT64 : Z := 2 ^ 64 - 1.

(** ** Words and integers *)

(** The macro [optimize_len]: drop leading zero bytes down to length one. *)
Fixpoint optimize_len (a : list Z) : list Z :=
  match a with
  | x :: ((_ :: _) as t) => if x =? 0 then optimize_len t else a
  | _ => a
  end.

(** [uint256_set]: right-align [src] in a 32 byte word. *)
Definition uint256_set (src : list Z) (dst : list Z) : option (list Z) :=
  dst' ← (if (length src <? 32)%nat
           then memcpy_at dst 0 (replicate (32 - length src) 0) else Some dst);
  memcpy_at dst' (32 - length src) src.

(** The loop [for (i = n-1; i >= 0; i--, val >>= 8) dst[i] = val & 0xFF]. *)
Fixpoint store_be (n : nat) (val : Z) (dst : list Z) : list Z :=
  match n with
  | O => dst
  | S i => store_be i (Z.shiftr val 8) (<[i := Z.land val 255]> dst)
  end.
Definition long_to_bytes (val : Z) (dst : list Z) : list Z := store_be 8 val dst.
Definition int_to_bytes (val : Z) (dst : list Z) : list Z := store_be 4 val dst.

Fixpoint bytes_to_long_loop (n : nat) (i : Z) (len : Z) (data : list Z) (res : Z) : Z :=
  match n with
  | O => res
  | S n' =>
      let d := rd data i in
      let res := if d =? 0 then res else Z.lor res (u64 (Z.shiftl d ((len - i - 1) * 8))) in
      bytes_to_long_loop n' (i + 1) len data res
  end.
Definition bytes_to_long (data : list Z) (len : Z) : Z :=
  let '(data, len) := if 8 <? len then (drop (Z.to_nat (len - 8)) data, 8) else (data, len) in
  bytes_to_long_loop (Z.to_nat len) 0 len data 0.

Definition bytes_to_int (data : option (list Z)) (len : Z) : Z :=
  match data with
  | None => 0
  | Some d =>
      if len =? 0 then 0
      else if len =? 1 then rd d 0
      else if len =? 2 then Z.lor (Z.shiftl (rd d 0) 8) (rd d 1)
      else if len =? 3 then Z.lor (Z.lor (Z.shiftl (rd d 0) 16) (Z.shiftl (rd d 1) 8)) (rd d 2)
      else Z.lor (Z.lor (Z.lor (Z.shiftl (rd d 0) 24) (Z.shiftl (rd d 1) 16)) (Z.shiftl (rd d 2) 8)) (rd d 3)
  end.

Fixpoint min_bytes_len_loop (n : nat) (i val : Z) : Z :=
  match n with
  | O => 8
  | S n' => if val =? 0 then i else min_bytes_len_loop n' (i + 1) (Z.shiftr val 8)
  end.
Definition min_bytes_len (val : Z) : Z := min_bytes_len_loop 8 0 val.

Fixpoint memiszero (ptr : list Z) : bool :=
  match ptr with
  | [] => true
  | x :: t => if negb (x =? 0) then false else memiszero t
  end.

(** [b256_add]: add [b] into the 32 byte word [a].  The first loop runs over the bytes of [b]
    ([k] of them left), the second propagates the carry ([pa] bytes of [a] left of it). *)
Fixpoint b256_add_loop (k : nat) (pa : nat) (b : list Z) (a : list Z) (carry : Z) : list Z * nat * Z :=
  match k with
  | O => (a, pa, carry)
  | S pb =>
      let c := carry + (nth (pa - 1) a 0 + nth pb b 0) in
      b256_add_loop pb (pa - 1) b (<[(pa - 1)%nat := Z.land c 255]> a) (Z.shiftr c 8)
  end.
Fixpoint b256_carry_loop (pa : nat) (a : list Z) (carry : Z) : list Z :=
  match pa with
  | O => a
  | S p =>
      if carry =? 0 then a
      else let c := carry + nth p a 0 in
           b256_carry_loop p (<[p := Z.land c 255]> a) (Z.shiftr c 8)
  end.
Definition b256_add (a b : list Z) : option (list Z) :=
  let b := optimize_len b in
  if ((length b =? 0) || (32 <? length b))%nat then None
  else let '(a, pa, carry) := b256_add_loop (length b) 32 b a 0 in
       Some (b256_carry_loop pa a carry).

(** ** Hexadecimal text *)
Definition hexchar_to_int (c : Z) : Z :=
  if (48 <=? c) && (c <=? 57) then c - 48
  else if (97 <=? c) && (c <=? 102) then c - 97 + 10
  else if (65 <=? c) && (c <=? 70) then c - 65 + 10
  else 255.

Fixpoint hex_loop (fuel : nat) (buf : list Z) (len i : Z) (j : nat) (out : list Z) : list Z :=
  match fuel with
  | O => out
  | S f =>
      if i <? len
      then hex_loop f buf len (i + 2) (S j)
             (<[j := u8 (Z.lor (Z.shiftl (hexchar_to_int (rd buf i)) 4) (hexchar_to_int (rd buf (i + 1))))]> out)
      else out
  end.
(** [hex_to_bytes buf len out outbuf_size]: the return value and the output buffer. *)
Definition hex_to_bytes (buf : option (list Z)) (len : Z) (out : list Z) (outbuf_size : Z) : Z * list Z :=
  match buf with
  | None => (if len =? 0 then 0 else -1, out)
  | Some buf =>
      if len <? -1 then (-1, out)
      else
        let len := if len =? -1 then zlen buf else len in
        let '(buf, len) := if (rd buf 0 =? 48) && (rd buf 1 =? 120) then (drop 2 buf, len - 2) else (buf, len) in
        if len =? 0 then (0, out)
        else
          let bytes_len := Z.quot (len + 1) 2 in
          if outbuf_size <? bytes_len then (-1, out)
          else
            let '(out, i, j) :=
              if negb (Z.land len 1 =? 0) then (<[0%nat := hexchar_to_int (rd buf 0)]> out, 1, 1%nat)
              else (out, 0, 0%nat) in
            (bytes_len, hex_loop (Z.to_nat len) buf len i j out)
  end.

Definition hex_digits : list Z := [48; 49; 50; 51; 52; 53; 54; 55; 56; 57; 97; 98; 99; 100; 101; 102].
Fixpoint bytes_to_hex_loop (buffer : list Z) : list Z :=
  match buffer with
  | [] => []
  | x :: t => rd hex_digits (Z.land (Z.shiftr x 4) 15) :: rd hex_digits (Z.land x 15) :: bytes_to_hex_loop t
  end.
(** [bytes_to_hex]: the return value and the string left in [out]. *)
Definition bytes_to_hex (buffer : list Z) : Z * list Z := (zlen buffer * 2, bytes_to_hex_loop buffer).

Definition bytes_to_hex_string (prefix : option (list Z)) (b : list Z) (postfix : option (list Z)) : list Z :=
  default [] prefix ++ snd (bytes_to_hex b) ++ default [] postfix.

(** [hex_to_new_bytes]: the content of the newly allocated [bytes_t]. *)
Definition hex_to_new_bytes `{Allocator} (buf : list Z) (len : Z) : list Z :=
  let n := Z.quot (len + 1) 2 in
  snd (hex_to_bytes (Some buf) len (malloc (Z.to_nat n)) n).

(** ** Numbers in text *)

(** [atoi]: leading white space, an optional sign, then decimal digits. *)
Definition is_space (c : Z) : bool := (c =? 32) || ((9 <=? c) && (c <=? 13)).
Definition is_digit (c : Z) : bool := (48 <=? c) && (c <=? 57).
Fixpoint atoi_digits (s : list Z) (acc : Z) : Z :=
  match s with
  | c :: t => if is_digit c then atoi_digits t (acc * 10 + (c - 48)) else acc
  | [] => acc
  end.
Fixpoint atoi (s : list Z) : Z :=
  match s with
  | c :: t =>
      if is_space c then atoi t
      else if c =? 45 then - atoi_digits t 0
      else if c =? 43 then atoi_digits t 0
      else atoi_digits s 0
  | [] => 0
  end.

Fixpoint char_to_long_hex (n : nat) (i l : Z) (a : list Z) (val : Z) : option Z :=
  match n with
  | O => Some val
  | S n' =>
      if i >? 1 then
        let sh := 4 * (l - 1 - i) in
        if 64 <=? sh then None
        else char_to_long_hex n' (i - 1) l a
               (u64 (Z.lor val (u64 (Z.shiftl (hexchar_to_int (rd a i)) sh))))
      else Some val
  end.
(** [char_to_long]: [None] when a hexadecimal number is longer than 16 digits, where the C shift
    is undefined. *)
Definition char_to_long (a : option (list Z)) (l : Z) : option Z :=
  match a with
  | None => Some MAX_UINT64
  | Some a =>
      if l <? -1 then Some MAX_UINT64
      else
        let l := if l =? -1 then zlen a else l in
        if (rd a 0 =? 48) && (rd a 1 =? 120) then char_to_long_hex (Z.to_nat l) (l - 1) l a 0
        else if l <? 12 then Some (u64 (i32 (atoi (take (Z.to_nat l) a))))
        else Some MAX_UINT64
  end.

(** First pass of [parse_float_val]: the exponent text and the digits before the point. *)
Fixpoint float_scan (s : list Z) (neg exp_found frac : bool) (val major : Z) : bool * bool * Z * Z :=
  match s with
  | [] => (neg, exp_found, val, major)
  | c :: t =>
      if c =? 45 then float_scan t true exp_found frac val major
      else if c =? 46 then float_scan t neg exp_found true val major
      else if (c =? 101) || (c =? 69) then float_scan t neg true frac val major
      else if exp_found then float_scan t neg exp_found frac (i64 (val * 10 + (c - 48))) major
      else if negb frac then float_scan t neg exp_found frac val (major + 1)
      else float_scan t neg exp_found frac val major
  end.
(** Second pass: take [expo] digits. *)
Fixpoint float_digits (s : list Z) (neg : bool) (val expo : Z) : bool * Z * Z :=
  match s with
  | [] => (neg, val, expo)
  | c :: t =>
      if expo >? 0 then
        if c =? 45 then float_digits t true val expo
        else if (c =? 101) || (c =? 69) then (neg, val, expo)
        else if negb (c =? 46) then float_digits t neg (i64 (val * 10 + (c - 48))) (expo - 1)
        else float_digits t neg val expo
      else (neg, val, expo)
  end.
Fixpoint mul10 (n : nat) (val : Z) : Z :=
  match n with O => val | S n' => mul10 n' (i64 (val * 10)) end.
Definition parse_float_val (data : list Z) (expo : Z) : Z :=
  let '(neg, exp_found, val, major) := float_scan data false false false 0 0 in
  let expo := if exp_found then i32 (expo + i32 (if neg then 0 - val else val)) else expo in
  let expo := i32 (expo + major) in
  let '(neg, val, expo) := float_digits data false 0 expo in
  let val := if neg then i64 (0 - val) else val in
  mul10 (Z.to_nat expo) val.

(** ** String routines *)
Fixpoint starts_with (h n : list Z) : bool :=
  match h, n with
  | _, [] => true
  | x :: h', y :: n' => if x =? y then starts_with h' n' else false
  | [], _ :: _ => false
  end.
(** libc's [strstr], as an offset. *)
Fixpoint strstr (h n : list Z) : option nat :=
  if starts_with h n then Some 0%nat
  else match h with [] => None | _ :: t => S <$> strstr t n end.

(** [str_find]: the loop stops at the terminator of the haystack, before the needle is tried. *)
Fixpoint str_find_loop (h n : list Z) : option nat :=
  match h with
  | [] => None
  | _ :: t => if starts_with h n then Some 0%nat else S <$> str_find_loop t n
  end.
Definition str_find (haystack needle : option (list Z)) : option nat :=
  match haystack, needle with
  | Some h, Some n => str_find_loop h n
  | _, _ => None
  end.

Fixpoint count_occ_loop (fuel : nat) (ins rep : list Z) : nat :=
  match fuel with
  | O => O
  | S f => match strstr ins rep with
           | Some k => S (count_occ_loop f (drop (k + length rep) ins) rep)
           | None => O
           end
  end.
Fixpoint replace_loop (count : nat) (orig rep wth : list Z) : list Z :=
  match count with
  | O => orig
  | S c => match strstr orig rep with
           | Some k => take k orig ++ wth ++ replace_loop c (drop (k + length rep) orig) rep wth
           | None => orig
           end
  end.
(** [str_replace]: the size of the allocated block and the string written into it. *)
Definition str_replace (orig rep wth : option (list Z)) : option (Z * list Z) :=
  match orig, rep with
  | Some orig, Some rep =>
      if (length rep =? 0)%nat then None
      else
        let wth := default [] wth in
        let count := count_occ_loop (S (length orig)) orig rep in
        Some (zlen orig + (zlen wth - zlen rep) * Z.of_nat count + 1, replace_loop count orig rep wth)
  | _, _ => None
  end.

Definition str_replace_pos (orig : option (list Z)) (pos len : nat) (rep : list Z) : option (list Z) :=
  orig ← orig;
  if (length orig <? pos)%nat then None else Some (take pos orig ++ rep ++ drop (pos + len) orig).

(** [str_remove_html] works in place: [i] is read, [dst] written. *)
Fixpoint html_loop (n i : nat) (data : list Z) (dst : nat) (html : bool) : list Z * nat :=
  match n with
  | O => (data, dst)
  | S n' =>
      let c := nth i data 0 in
      if c =? 60 then html_loop n' (S i) data dst true
      else if c =? 62 then html_loop n' (S i) data dst false
      else if (c =? 10) || (c =? 9) || (c =? 13) || (c =? 32) then
        if negb (dst =? 0)%nat && negb (nth (dst - 1) data 0 =? 32)
        then html_loop n' (S i) (<[dst := 32]> data) (S dst) html
        else html_loop n' (S i) data dst html
      else if negb html then html_loop n' (S i) (<[dst := c]> data) (S dst) html
      else html_loop n' (S i) data dst html
  end.
Definition str_remove_html (data : list Z) : list Z :=
  let '(d, dst) := html_loop (length data) 0 data 0 false in take dst d.

(** [tokenize str del]: the number of tokens and the buffer up to the final terminator, with a
    0 where a group of delimiters was. *)
Definition is_del (del : list Z) (c : Z) : bool := existsb (Z.eqb c) del.
Fixpoint skip_del (del s : list Z) : list Z :=
  match s with
  | c :: t => if is_del del c then skip_del del t else s
  | [] => []
  end.
Fixpoint tokenize_loop (fuel : nat) (del str : list Z) (c : Z) (at_start : bool) : Z * list Z :=
  match fuel, str with
  | O, _ | _, [] => (if at_start then c else c + 1, [])
  | S f, x :: t =>
      if is_del del x
      then let '(c', out) := tokenize_loop f del (skip_del del t) (c + 1) true in (c', 0 :: out)
      else let '(c', out) := tokenize_loop f del t c false in (c', x :: out)
  end.
Definition tokenize (str del : list Z) : Z * list Z := tokenize_loop (length str) del str 0 true.

(** ** Lemmas: words and integers *)
Lemma optimize_len_cons x y t :
  optimize_len (x :: y :: t) = if x =? 0 then optimize_len (y :: t) else x :: y :: t.
Proof. done. Qed.
Lemma optimize_len_val a : be_val (optimize_len a) = be_val a.
Proof.
  induction a as [|x [|y t] IH]; [done|done|]. rewrite optimize_len_cons.
  destruct (Z.eqb_spec x 0) as [->|]; [|done]. rewrite IH, (be_val_cons 0). lia.
Qed.
Lemma optimize_len_length a : (length (optimize_len a) <= length a)%nat.
Proof.
  induction a as [|x [|y t] IH]; [done|done|]. rewrite optimize_len_cons.
  case_match; [|done]. simpl in *. lia.
Qed.
Lemma optimize_len_ok a : bytes_ok a -> bytes_ok (optimize_len a).
Proof.
  induction a as [|x [|y t] IH]; [done|done|]. rewrite optimize_len_cons. intros H.
  case_match; [|done]. apply IH. by inversion H.
Qed.
Lemma optimize_len_nonempty a : a <> [] -> optimize_len a <> [].
Proof.
  induction a as [|x [|y t] IH]; [done|done|]. rewrite optimize_len_cons. intros _.
  case_match; [|done]. by apply IH.
Qed.
(** The result has one byte or starts with a non-zero byte. *)
Lemma optimize_len_head a :
  (length (optimize_len a) <= 1)%nat \/ exists x t, optimize_len a = x :: t /\ x <> 0.
Proof.
  induction a as [|x [|y t] IH]; [left; simpl; lia|left; simpl; lia|]. rewrite optimize_len_cons.
  destruct (Z.eqb_spec x 0); [apply IH|]. right. eauto.
Qed.
Lemma optimize_len_suffix a : exists n, a = replicate n 0 ++ optimize_len a.
Proof.
  induction a as [|x [|y t] IH]; [by exists 0%nat|by exists 0%nat|]. rewrite optimize_len_cons.
  destruct (Z.eqb_spec x 0) as [->|]; [|by exists 0%nat].
  destruct IH as [n IH]. exists (S n). simpl. by f_equal.
Qed.
(** Its length is the least that holds the value. *)
Lemma optimize_len_minimal a n : bytes_ok a -> (1 <= n)%nat -> be_val a < 256 ^ Z.of_nat n ->
  (length (optimize_len a) <= n)%nat.
Proof.
  intros Ha Hn Hv. destruct (optimize_len_head a) as [H|(x & t & H & Hx)]; [lia|].
  pose proof (optimize_len_ok a Ha) as Hok. rewrite H in *.
  rewrite <- optimize_len_val, H, be_val_cons in Hv. inversion_clear Hok as [|? ? Hb Ht].
  pose proof (be_val_bound t Ht). unfold is_byte in Hb.
  destruct (Nat.le_gt_cases (length (x :: t)) n) as [|Hgt]; [done|]. simpl in Hgt.
  assert (256 ^ Z.of_nat n <= 256 ^ zlen t) by (apply Z.pow_le_mono_r; lia). nia.
Qed.
#[export] Hint Resolve optimize_len_ok optimize_len_nonempty : in3.
#[export] Hint Rewrite optimize_len_val : in3.

Lemma uint256_set_spec src dst : (length src <= 32)%nat -> length dst = 32%nat ->
  uint256_set src dst = Some (replicate (32 - length src) 0 ++ src).
Proof.
  intros Hs Hd. unfold uint256_set.
  destruct (Nat.ltb_spec (length src) 32).
  - rewrite memcpy_at_Some by (rewrite length_replicate; lia). simpl.
    rewrite length_replicate, memcpy_at_Some by (rewrite length_app, length_replicate, length_drop; lia).
    rewrite take_app_length' by (rewrite length_replicate; lia).
    rewrite (drop_ge (_ ++ _)) by (rewrite length_app, length_replicate, length_drop; lia).
    by rewrite app_nil_r.
  - assert (length src = 32%nat) as Hl by lia. simpl. rewrite memcpy_at_Some by lia.
    rewrite Hl. simpl. rewrite drop_ge by lia. by rewrite app_nil_r.
Qed.

Lemma store_be_spec n val dst : (n <= length dst)%nat -> store_be n val dst = be_bytes n val ++ drop n dst.
Proof.
  revert val dst. induction n as [|n IH]; intros val dst Hn; [done|]. cbn [store_be be_bytes].
  rewrite IH by (rewrite length_insert; lia). rewrite land_255, Z.shiftr_div_pow2 by lia.
  change (2 ^ 8) with 256. rewrite <- app_assoc. f_equal.
  rewrite insert_take_drop by lia. rewrite drop_app_ge by (rewrite length_take; lia).
  rewrite length_take, Nat.min_l, Nat.sub_diag by lia. done.
Qed.
Lemma long_to_bytes_spec val dst : length dst = 8%nat -> long_to_bytes val dst = be_bytes 8 val.
Proof. intros H. unfold long_to_bytes. rewrite store_be_spec, drop_ge, app_nil_r by lia. done. Qed.
Lemma int_to_bytes_spec val dst : length dst = 4%nat -> int_to_bytes val dst = be_bytes 4 val.
Proof. intros H. unfold int_to_bytes. rewrite store_be_spec, drop_ge, app_nil_r by lia. done. Qed.

Lemma bytes_to_long_loop_spec suf : forall pre, bytes_ok pre -> bytes_ok suf -> (length (pre ++ suf) <= 8)%nat ->
  bytes_to_long_loop (length suf) (zlen pre) (zlen (pre ++ suf)) (pre ++ suf) (be_val pre * 256 ^ zlen suf)
  = be_val (pre ++ suf).
Proof.
  induction suf as [|d suf IH]; intros pre Hpre Hok Hlen.
  { simpl. rewrite app_nil_r. lia. }
  inversion_clear Hok as [|? ? Hd Hsuf]. cbn [length bytes_to_long_loop]. rewrite rd_nat, nth_middle.
  assert (zlen (pre ++ d :: suf) - zlen pre - 1 = zlen suf) as -> by (rewrite length_app; simpl; lia).
  rewrite Z.shiftl_mul_pow2, (Z.mul_comm (zlen suf)), <- pow256_pow2 by lia.
  assert (bytes_ok (pre ++ [d])) as Hpd by (apply Forall_app; auto).
  assert ((pre ++ [d]) ++ suf = pre ++ d :: suf) as Happ by (rewrite <- app_assoc; done).
  assert (0 <= d * 256 ^ zlen suf < 2 ^ 64) as Hr.
  { pose proof (pow256_pos (length suf)). unfold is_byte in Hd. split; [nia|].
    assert (256 ^ zlen (d :: suf) <= 256 ^ 8) by (apply Z.pow_le_mono_r; rewrite length_app in Hlen; simpl in *; lia).
    cbn [length] in *. rewrite pow256_S in *. change (2 ^ 64) with (256 ^ 8). nia. }
  rewrite u64_small by done. rewrite <- Happ in *. rewrite <- (IH (pre ++ [d])) by auto.
  rewrite length_snoc, be_val_snoc. f_equal; [lia|].
  rewrite <- lor_be_step by done. destruct (Z.eqb_spec d 0) as [->|]; [|done].
  by rewrite Z.mul_0_l, Z.lor_0_r.
Qed.
(** [bytes_to_long] is the big-endian value of the last (at most) eight bytes. *)
Lemma bytes_to_long_spec data : bytes_ok data ->
  bytes_to_long data (zlen data) = be_val (drop (length data - 8) data).
Proof.
  intros Hok. unfold bytes_to_long.
  assert (forall d, bytes_ok d -> (length d <= 8)%nat ->
    bytes_to_long_loop (Z.to_nat (zlen d)) 0 (zlen d) d 0 = be_val d) as Hloop.
  { intros d Hd Hl. rewrite Nat2Z.id. by apply (bytes_to_long_loop_spec d []). }
  destruct (Z.ltb_spec 8 (zlen data)) as [Hgt|Hle].
  - replace (Z.to_nat (zlen data - 8)) with (length data - 8)%nat by lia.
    assert (zlen (drop (length data - 8) data) = 8) as Hl by (rewrite length_drop; lia).
    rewrite <- Hl at 1 2. rewrite Hloop; auto using Forall_drop. lia.
  - rewrite Hloop by (auto || lia). replace (length data - 8)%nat with 0%nat by lia. by rewrite drop_0.
Qed.

(** [bytes_to_int] on one to four bytes. *)
Lemma bytes_to_int_spec d : bytes_ok d -> (1 <= length d <= 4)%nat -> bytes_to_int (Some d) (zlen d) = be_val d.
Proof.
  intros Hok Hl. destruct d as [|a [|b [|c [|e [|]]]]]; simpl in Hl; try lia;
    rewrite !Forall_cons in Hok; destruct_and!; unfold is_byte in *.
  - done.
  - change (bytes_to_int _ _) with (Z.lor (Z.shiftl a 8) b). rewrite !Z.shiftl_mul_pow2, lor_mul_add by lia.
    unfold be_val. simpl. lia.
  - change (bytes_to_int _ _) with (Z.lor (Z.lor (Z.shiftl a 16) (Z.shiftl b 8)) c).
    rewrite !Z.shiftl_mul_pow2, (lor_mul_add a) by lia.
    replace (a * 2 ^ 16 + b * 2 ^ 8) with ((a * 256 + b) * 2 ^ 8) by lia.
    rewrite lor_mul_add by lia. unfold be_val. simpl. lia.
  - change (bytes_to_int _ _)
      with (Z.lor (Z.lor (Z.lor (Z.shiftl a 24) (Z.shiftl b 16)) (Z.shiftl c 8)) e).
    rewrite !Z.shiftl_mul_pow2, (lor_mul_add a) by lia.
    replace (a * 2 ^ 24 + b * 2 ^ 16) with ((a * 256 + b) * 2 ^ 16) by lia.
    rewrite (lor_mul_add (a * 256 + b)) by lia.
    replace ((a * 256 + b) * 2 ^ 16 + c * 2 ^ 8) with (((a * 256 + b) * 256 + c) * 2 ^ 8) by lia.
    rewrite lor_mul_add by lia. unfold be_val. simpl. lia.
Qed.

(** Splitting the last element off a block of known length. *)
Lemma split_last (m : list Z) k : length m = S k -> exists m0 x, m = m0 ++ [x] /\ length m0 = k.
Proof.
  intros H. destruct m as [|y m] using rev_ind; [done|]. exists m, y. split; [done|].
  rewrite length_snoc in H. lia.
Qed.

Lemma insert_block (h m t : list Z) x y : <[length (h ++ m) := y]> (h ++ (m ++ [x]) ++ t) = h ++ m ++ y :: t.
Proof. rewrite !app_assoc, <- !app_assoc. rewrite (app_assoc h m), insert_app_r_alt by lia.
  rewrite Nat.sub_diag. simpl. by rewrite <- app_assoc. Qed.
Lemma nth_block (h m t : list Z) x : nth (length (h ++ m)) (h ++ (m ++ [x]) ++ t) 0 = x.
Proof. rewrite <- app_assoc, app_assoc. rewrite app_nth2, Nat.sub_diag by lia. done. Qed.

Lemma b256_add_loop_spec k : forall b h m t carry, bytes_ok b -> bytes_ok m -> length m = k ->
  (k <= length b)%nat -> 0 <= carry <= 1 ->
  exists m' c', b256_add_loop k (length h + k) b (h ++ m ++ t) carry = (h ++ m' ++ t, length h, c') /\
    bytes_ok m' /\ length m' = k /\ 0 <= c' <= 1 /\
    be_val m' + c' * 256 ^ Z.of_nat k = be_val m + be_val (take k b) + carry.
Proof.
  induction k as [|k IH]; intros b h m t carry Hb Hm Hlen Hk Hc.
  { destruct m; [|done]. exists [], carry. rewrite Nat.add_0_r, take_0, be_val_nil. repeat split; try done; lia. }
  destruct (split_last m k Hlen) as (m0 & x & -> & Hl0). apply Forall_app in Hm as [Hm0 Hx].
  apply Forall_inv in Hx. pose proof (nth_ok b k Hb) as Hy. unfold is_byte in Hx, Hy. cbn [b256_add_loop].
  replace (length h + S k - 1)%nat with (length (h ++ m0)) by (rewrite length_app; lia).
  rewrite nth_block. set (c := carry + (x + nth k b 0)) in *. rewrite land_255, Z.shiftr_div_pow2 by lia.
  change (2 ^ 8) with 256. rewrite insert_block. rewrite length_app, Hl0.
  assert (0 <= c / 256 <= 1).
  { split; [apply Z.div_pos; lia|]. assert (c / 256 < 2) by (apply Z.div_lt_upper_bound; lia). lia. }
  destruct (IH b h m0 (c mod 256 :: t) (c / 256)) as (m' & c' & Heq & Hok & Hl' & Hc' & Hv); auto; try lia.
  exists (m' ++ [c mod 256]), c'. rewrite Heq, <- app_assoc. split; [done|]. split.
  { apply Forall_app. split; [done|]. constructor; [apply Z.mod_pos_bound; lia|done]. }
  split; [by rewrite length_snoc, Hl'|]. split; [done|].
  rewrite (take_S_r b k (nth k b 0)).
  2:{ rewrite nth_lookup. destruct (lookup_lt_is_Some_2 b k) as [z Hz]; [lia|]. by rewrite Hz. }
  rewrite !be_val_snoc, pow256_S. pose proof (Z.div_mod c 256). lia.
Qed.

Lemma b256_carry_loop_spec p : forall m t carry, bytes_ok m -> length m = p -> 0 <= carry <= 1 ->
  exists m', b256_carry_loop p (m ++ t) carry = m' ++ t /\ bytes_ok m' /\ length m' = p /\
    be_val m' = (be_val m + carry) mod 256 ^ Z.of_nat p.
Proof.
  induction p as [|p IH]; intros m t carry Hm Hlen Hc.
  { destruct m; [|done]. exists []. rewrite Z.mod_1_r. done. }
  cbn [b256_carry_loop]. destruct (Z.eqb_spec carry 0) as [->|Hc0].
  { exists m. pose proof (be_val_bound m Hm). rewrite Hlen in *. rewrite Z.add_0_r, Z.mod_small by done. done. }
  assert (carry = 1) as -> by lia.
  destruct (split_last m p Hlen) as (m0 & x & -> & Hl0). apply Forall_app in Hm as [Hm0 Hx].
  apply Forall_inv in Hx. unfold is_byte in Hx. subst p.
  pose proof (nth_block [] m0 t x) as Hnth. pose proof (insert_block [] m0 t x) as Hins. simpl in Hnth, Hins.
  rewrite Hnth, Hins, land_255, Z.shiftr_div_pow2 by lia. change (2 ^ 8) with 256.
  assert (0 <= (1 + x) / 256 <= 1).
  { split; [apply Z.div_pos; lia|]. assert ((1 + x) / 256 < 2) by (apply Z.div_lt_upper_bound; lia). lia. }
  destruct (IH m0 ((1 + x) mod 256 :: t) ((1 + x) / 256)) as (m' & Heq & Hok & Hl' & Hv); auto.
  exists (m' ++ [(1 + x) mod 256]). rewrite Heq, <- app_assoc. split; [done|]. split.
  { apply Forall_app. split; [done|]. constructor; [apply Z.mod_pos_bound; lia|done]. }
  split; [by rewrite !length_snoc, Hl'|].
  rewrite !be_val_snoc, Hv, pow256_S. pose proof (pow256_pos (length m0)).
  rewrite Z.rem_mul_r by lia.
  replace (be_val m0 * 256 + x + 1) with (1 + x + be_val m0 * 256) by lia.
  rewrite Z_mod_plus_full, Z.div_add by lia. rewrite (Z.add_comm ((1 + x) / 256)). lia.
Qed.

(** [b256_add] adds modulo 2^256, for every operand of 1 to 32 significant bytes. *)
Lemma b256_add_spec a b : bytes_ok a -> bytes_ok b -> length a = 32%nat -> b <> [] ->
  be_val b < 2 ^ 256 ->
  exists r, b256_add a b = Some r /\ length r = 32%nat /\ bytes_ok r /\
    be_val r = (be_val a + be_val b) mod 2 ^ 256.
Proof.
  intros Ha Hb Hla Hne Hv. unfold b256_add. rewrite <- (optimize_len_val b) in *.
  assert (1 <= length (optimize_len b) <= 32)%nat as Hl.
  { split; [|apply optimize_len_minimal; try done; [lia|rewrite <- optimize_len_val; done]].
    pose proof (optimize_len_nonempty b Hne). destruct (optimize_len b); [done|]. simpl. lia. }
  assert (bytes_ok (optimize_len b)) as Hob by auto with in3.
  set (b' := optimize_len b) in *. set (k := length b') in *.
  replace ((k =? 0)%nat || (32 <? k)%nat) with false
    by (symmetry; apply orb_false_iff; split; [apply Nat.eqb_neq|apply Nat.ltb_ge]; lia).
  destruct (b256_add_loop_spec k b' (take (32 - k) a) (drop (32 - k) a) [] 0) as (m & c & Heq & Hm & Hlm & Hc & Hval);
    auto using Forall_drop; [rewrite length_drop; lia|lia|].
  rewrite app_nil_r, take_drop, length_take, Nat.min_l in Heq by lia.
  replace (32 - k + k)%nat with 32%nat in Heq by lia. rewrite Heq, app_nil_r.
  destruct (b256_carry_loop_spec (32 - k) (take (32 - k) a) m c) as (h & Hh & Hhok & Hlh & Hhv);
    auto using Forall_take; [rewrite length_take; lia|].
  exists (h ++ m). split; [by rewrite Hh|]. split; [rewrite length_app; lia|]. split; [by apply Forall_app|].
  rewrite be_val_app, Hhv, Hlm. unfold k in Hval. rewrite firstn_all in Hval. fold k in Hval.
  assert (be_val a = be_val (take (32 - k) a) * 256 ^ Z.of_nat k + be_val (drop (32 - k) a)) as ->.
  { rewrite <- (take_drop (32 - k) a) at 1. rewrite be_val_app, length_drop. do 3 f_equal. lia. }
  pose proof (be_val_bound m Hm) as Hmb. rewrite Hlm in Hmb.
  change (2 ^ 256) with (256 ^ Z.of_nat 32). rewrite (pow256_split 32 k) by lia. pose proof (pow256_pos (32 - k)).
  replace (be_val (take (32 - k) a) * 256 ^ Z.of_nat k + be_val (drop (32 - k) a) + be_val b')
    with (be_val m + (be_val (take (32 - k) a) + c) * 256 ^ Z.of_nat k) by lia.
  rewrite mod_mul_split by lia. lia.
Qed.

(** ** Lemmas: hexadecimal text *)
Lemma nibble_cases (P : Z -> Prop) :
  Forall P [0; 1; 2; 3; 4; 5; 6; 7; 8; 9; 10; 11; 12; 13; 14; 15] -> forall n, 0 <= n < 16 -> P n.
Proof.
  intros H n Hn. rewrite Forall_forall in H. apply H.
  apply list_elem_of_In. simpl. lia.
Qed.
Lemma hexchar_digit n : 0 <= n < 16 -> hexchar_to_int (rd hex_digits n) = n.
Proof. revert n. apply nibble_cases. repeat constructor. Qed.
Lemma hex_digit_not_x n : 0 <= n < 16 -> rd hex_digits n <> 120.
Proof. revert n. apply nibble_cases. repeat constructor; vm_compute; discriminate. Qed.

Lemma nibble_hi x : is_byte x -> 0 <= Z.land (Z.shiftr x 4) 15 < 16 /\ Z.land (Z.shiftr x 4) 15 = x / 16.
Proof.
  intros [H1 H2]. change 15 with (Z.ones 4). rewrite Z.land_ones, Z.shiftr_div_pow2 by lia.
  change (2 ^ 4) with 16. rewrite Z.mod_small; [|split; [apply Z.div_pos|apply Z.div_lt_upper_bound]; lia].
  split; [|done]. split; [apply Z.div_pos|apply Z.div_lt_upper_bound]; lia.
Qed.
Lemma nibble_lo x : 0 <= Z.land x 15 < 16 /\ Z.land x 15 = x mod 16.
Proof. change 15 with (Z.ones 4). rewrite Z.land_ones by lia. split; [apply Z.mod_pos_bound|]; done. Qed.
Lemma nibbles_join h l : 0 <= h < 16 -> 0 <= l < 16 -> u8 (Z.lor (Z.shiftl h 4) l) = h * 16 + l.
Proof.
  intros. rewrite Z.shiftl_mul_pow2 by lia. rewrite lor_mul_add by lia. apply u8_small. unfold is_byte. lia.
Qed.

Lemma bytes_to_hex_loop_app a b : bytes_to_hex_loop (a ++ b) = bytes_to_hex_loop a ++ bytes_to_hex_loop b.
Proof. induction a as [|x a IH]; simpl; [done|]. by rewrite IH. Qed.
Lemma bytes_to_hex_loop_length b : length (bytes_to_hex_loop b) = (2 * length b)%nat.
Proof. induction b as [|x b IH]; simpl; [done|]. rewrite IH. lia. Qed.

Lemma hex_loop_length : forall fu buf len i j out, length (hex_loop fu buf len i j out) = length out.
Proof. induction fu as [|fu IH]; intros buf len i j out; cbn [hex_loop]; [done|]. case_match; [|done]. by rewrite IH, length_insert. Qed.
Lemma hex_loop_spec fuel suf : forall p out o1 o2, bytes_ok suf -> (length suf <= fuel)%nat ->
  out = o1 ++ o2 -> length o1 = length p -> (length suf <= length o2)%nat ->
  hex_loop fuel (bytes_to_hex_loop (p ++ suf)) (2 * zlen (p ++ suf)) (2 * zlen p) (length p) out
  = o1 ++ suf ++ drop (length suf) o2.
Proof.
  revert suf. induction fuel as [|fuel IH]; intros [|x suf] p out o1 o2 Hok Hf -> Hl1 Hl2; simpl in Hf; try lia.
  - by rewrite drop_0.
  - cbn [hex_loop]. rewrite (proj2 (Z.ltb_ge _ _)) by (rewrite app_nil_r; lia). simpl. by rewrite drop_0.
  - inversion_clear Hok as [|? ? Hx Hsuf]. cbn [hex_loop].
    rewrite (proj2 (Z.ltb_lt _ _)) by (rewrite length_app; simpl; lia).
    assert (forall k, rd (bytes_to_hex_loop (p ++ x :: suf)) (2 * zlen p + Z.of_nat k)
            = nth k (bytes_to_hex_loop (x :: suf)) 0) as Hrd.
    { intros k. replace (2 * zlen p + Z.of_nat k) with (Z.of_nat (2 * length p + k)) by lia.
      rewrite rd_nat, bytes_to_hex_loop_app.
      rewrite <- bytes_to_hex_loop_length. apply app_nth2_plus. }
    pose proof (Hrd 0%nat) as H0. pose proof (Hrd 1%nat) as H1. rewrite Z.add_0_r in H0.
    change (Z.of_nat 1) with 1 in H1. rewrite H0, H1. cbn [nth bytes_to_hex_loop].
    destruct (nibble_hi x Hx) as [Hh Hhv]. destruct (nibble_lo x) as [Hlo Hlv].
    rewrite !hexchar_digit, nibbles_join by done. rewrite Hhv, Hlv.
    replace (x / 16 * 16 + x mod 16) with x by (pose proof (Z.div_mod x 16); lia).
    destruct o2 as [|y o2]; [simpl in Hl2; lia|].
    replace (p ++ x :: suf) with ((p ++ [x]) ++ suf) by (rewrite <- app_assoc; done).
    replace (2 * zlen p + 2) with (2 * zlen (p ++ [x])) by (rewrite length_snoc; lia).
    rewrite <- (length_snoc p x). rewrite (IH suf (p ++ [x]) _ (o1 ++ [x]) o2); simpl in Hl2; try done; try lia.
    + simpl. by rewrite <- app_assoc.
    + rewrite insert_app_r_alt by lia. rewrite Hl1, Nat.sub_diag. simpl. by rewrite <- app_assoc.
    + rewrite !length_snoc. lia.
Qed.

(** Hexadecimal text as [bytes_to_hex] writes it, with or without the [0x] prefix, decodes to
    the bytes it was made from; the rest of the output buffer is untouched. *)
Lemma hex_roundtrip_gen (prefix : bool) b out : bytes_ok b -> (length b <= length out)%nat ->
  hex_to_bytes (Some ((if prefix then [48; 120] else []) ++ snd (bytes_to_hex b))) (-1) out (zlen out)
  = (zlen b, b ++ drop (length b) out).
Proof.
  intros Hok Hl. unfold hex_to_bytes. change (-1 <? -1) with false. change (-1 =? -1) with true. cbv iota.
  cbn [snd bytes_to_hex]. set (h := bytes_to_hex_loop b).
  assert (zlen h = 2 * zlen b) as Hh by (unfold h; rewrite bytes_to_hex_loop_length; lia).
  assert ((rd h 0 =? 48) && (rd h 1 =? 120) = false) as Hnx.
  { unfold h. destruct b as [|x b]; [done|]. apply andb_false_iff. right. apply Z.eqb_neq.
    cbn. apply hex_digit_not_x. apply nibble_lo. }
  assert (forall k, zlen h = k -> (let '(buf, len) := (h, k) in
      if len =? 0 then (0, out) else let bytes_len := (len + 1) `quot` 2 in
      if zlen out <? bytes_len then (-1, out) else
      let '(out, i, j) := if negb (Z.land len 1 =? 0)
        then (<[0%nat := hexchar_to_int (rd buf 0)]> out, 1, 1%nat) else (out, 0, 0%nat) in
      (bytes_len, hex_loop (Z.to_nat len) buf len i j out)) = (zlen b, b ++ drop (length b) out)) as Hgo.
  { intros k <-. rewrite Hh. destruct (Z.eqb_spec (2 * zlen b) 0).
    { destruct b; [|cbn [length] in *; lia]. by rewrite drop_0. }
    assert ((2 * zlen b + 1) `quot` 2 = zlen b) as Hq.
    { rewrite Z.quot_div_nonneg by lia. rewrite Z.mul_comm, Z.div_add_l by lia. change (1 / 2) with 0. lia. }
    cbv zeta. rewrite Hq. rewrite (proj2 (Z.ltb_ge _ _)) by lia.
    assert (Z.land (2 * zlen b) 1 = 0) as ->.
    { change 1 with (Z.ones 1). rewrite Z.land_ones by lia. rewrite Z.mul_comm. apply Z.mod_mul. lia. }
    cbn. f_equal. apply (hex_loop_spec _ b [] out [] out); auto; lia. }
  destruct prefix; cbn [app].
  - change ((rd (48 :: 120 :: h) 0 =? 48) && (rd (48 :: 120 :: h) 1 =? 120)) with true. cbv iota.
    change (drop 2 (48 :: 120 :: h)) with h. apply Hgo. simpl. lia.
  - rewrite Hnx. by apply Hgo.
Qed.
