(* ===== verification/Bytes.v ===== *)
(** * core/util/bytes.c: byte strings and the growing byte builder

    [bytes_t] is a data pointer ([None] = NULL) with a length, [bytes_builder_t] a block of
    [bsize] bytes of which the first [len] are the content.  An operation returns [None] where
    the C code would leave its buffers, pass a block to [realloc] that was not allocated, or
    loop for ever. *)
From S2P Require Import Prelude Utils.

(** ** Byte strings *)
Record bytes_t := mk_bytes { b_data : option (list Z); b_len : Z }.

(** A [bytes_t] over exactly these bytes. *)
Definition bytes (l : list Z) : bytes_t := mk_bytes (Some l) (zlen l).
Definition NULL_BYTES : bytes_t := mk_bytes None 0.

Section Alloc.
Context `{Allocator}.

(** The first [n] bytes at offset [off] of a block. *)
Definition read_at (d : list Z) (off n : nat) : option (list Z) :=
  if (off + n <=? length d)%nat then Some (take n (drop off d)) else None.

Definition b_new (data : option (list Z)) (len : nat) : option bytes_t :=
  match data with
  | Some d => c ← read_at d 0 len; Some (bytes c)
  | None => Some (bytes (replicate len 0))
  end.
Definition b_get_len (b : bytes_t) : Z := b_len b.
Definition b_get_data (b : bytes_t) : option (list Z) := b_data b.

(** [b_cmp]: 1 for equal; two NULL pointers, or one, compare equal as well. *)
Definition b_cmp (a b : option bytes_t) : bool :=
  match a, b with
  | Some a, Some b =>
      if (b_len a =? 0) && (b_len b =? 0) then true
      else match b_data a, b_data b with
           | Some da, Some db =>
               (b_len a =? b_len b)
               && (memcmp (take (Z.to_nat (b_len a)) da) (take (Z.to_nat (b_len a)) db) =? 0)
           | _, _ => false
           end
  | _, _ => true
  end.
Definition bytes_cmp (a b : bytes_t) : bool := b_cmp (Some a) (Some b).

Definition b_compare (a b : list Z) : Z :=
  if (length a =? length b)%nat then memcmp a b else i32 (i32 (zlen a) - i32 (zlen b)).

(** [b_concat]: the loop copies every argument into itself ([b.data + len]) and never writes the
    allocated block. *)
Fixpoint b_concat_loop (bs : list (list Z)) (len : nat) : option unit :=
  match bs with
  | [] => Some tt
  | b :: t => _ ← memcpy_at b len b; b_concat_loop t (len + length b)
  end.
Definition b_concat (bs : list (list Z)) : option (list Z) :=
  let out := malloc (sum_list_with length bs) in
  _ ← b_concat_loop bs 0; Some out.

Definition b_dup (a : option bytes_t) : option (option bytes_t) :=
  match a with
  | None => Some None
  | Some a => d ← b_data a; c ← read_at d 0 (Z.to_nat (b_len a)); Some (Some (bytes c))
  end.
Definition b_dup2 (a : bytes_t) : option (option bytes_t) :=
  match b_data a with
  | None => Some None
  | Some d => c ← read_at d 0 (Z.to_nat (b_len a)); Some (Some (bytes c))
  end.
Definition bytes_dup (a : bytes_t) : option bytes_t :=
  d ← b_data a; c ← read_at d 0 (Z.to_nat (b_len a)); Some (bytes c).
Definition cloned_bytes (a : bytes_t) : option bytes_t :=
  d ← b_data a; c ← read_at d 0 (Z.to_nat (b_len a)); Some (bytes c).

(** Readers: the value and the new position. *)
Definition b_read_byte (b : list Z) (pos : nat) : option (Z * nat) :=
  c ← read_at b pos 1; Some (rd c 0, (pos + 1)%nat).
Definition b_read_int (b : list Z) (pos : nat) : option (Z * nat) :=
  c ← read_at b pos 4; Some (bytes_to_int (Some c) 4, (pos + 4)%nat).
Definition b_read_long (b : list Z) (pos : nat) : option (Z * nat) :=
  c ← read_at b pos 8; Some (bytes_to_long c 8, (pos + 8)%nat).
(** [strlen] of the text at the start of a block; [None] when it is not terminated. *)
Fixpoint strlen (d : list Z) : option nat :=
  match d with [] => None | c :: t => if c =? 0 then Some 0%nat else S <$> strlen t end.
Definition b_new_chars (b : list Z) (pos : nat) : option (list Z * nat) :=
  l ← strlen (drop pos b); c ← read_at b pos l; Some (c, (pos + l + 1)%nat).
Definition b_new_fixed_bytes (b : list Z) (pos len : nat) : option (bytes_t * nat) :=
  c ← read_at b pos len; Some (bytes c, (pos + len)%nat).

(** ** The byte builder

    [bb_heap] tells whether the block was allocated, so that [realloc] may be called on it. *)
Record bytes_builder_t := mk_bb {
  bb_bsize : Z;
  bb_data : option (list Z);
  bb_len : Z;
  bb_heap : bool
}.

Definition bb_newl (l : nat) : bytes_builder_t := mk_bb (Z.of_nat l) (Some (malloc l)) 0 true.
Definition bb_new : bytes_builder_t := bb_newl 32.
(** [bytes_builder_t bb = {0}]. *)
Definition bb_null : bytes_builder_t := mk_bb 0 None 0 true.

(** [while (bb->b.len + len >= bb->bsize) bb->bsize <<= 1], in 64 bit arithmetic.  After 64
    rounds the size is 0 for ever, so [None] is a loop that does not end. *)
Fixpoint grow_bsize (fuel : nat) (need bsize : Z) : option Z :=
  if need <? bsize then Some bsize
  else match fuel with
       | O => None
       | S f => grow_bsize f need (u64 (Z.shiftl bsize 1))
       end.
#[global] Arguments grow_bsize : simpl never.
Definition bb_check_size (bb : bytes_builder_t) (len : Z) : option bytes_builder_t :=
  if (len =? 0) || (u64 (bb_len bb + len) <? bb_bsize bb) then Some bb
  else match bb_data bb with
       | None => Some (mk_bb len (Some (malloc (Z.to_nat len))) (bb_len bb) true)
       | Some d =>
           bs ← grow_bsize 64 (u64 (bb_len bb + len)) (bb_bsize bb);
           if bb_heap bb then Some (mk_bb bs (Some (realloc d (Z.to_nat bs))) (bb_len bb) true)
           else None
       end.

(** Write [src] at the end of the content and add [n] to the length. *)
Definition bb_put (bb : bytes_builder_t) (src : list Z) (n : Z) : option bytes_builder_t :=
  d ← bb_data bb; d' ← memcpy_at d (Z.to_nat (bb_len bb)) src;
  Some (mk_bb (bb_bsize bb) (Some d') (u32 (bb_len bb + n)) (bb_heap bb)).

Definition bb_write_chars (bb : bytes_builder_t) (c : list Z) : option bytes_builder_t :=
  bb ← bb_check_size bb (zlen c + 1); bb_put bb (c ++ [0]) (zlen c + 1).
Definition bb_write_fixed_bytes (bb : bytes_builder_t) (src : list Z) : option bytes_builder_t :=
  if (length src =? 0)%nat then Some bb
  else bb ← bb_check_size bb (zlen src); bb_put bb src (zlen src).
(** With nothing to write, [memcpy] of no bytes leaves a builder without a block as it is. *)
Definition bb_write_raw_bytes (bb : bytes_builder_t) (ptr : list Z) : option bytes_builder_t :=
  bb ← bb_check_size bb (zlen ptr);
  if (length ptr =? 0)%nat then Some bb else bb_put bb ptr (zlen ptr).
Definition bb_write_int (bb : bytes_builder_t) (val : Z) : option bytes_builder_t :=
  bb ← bb_check_size bb 4; bb_put bb (int_to_bytes val (replicate 4 0)) 4.
Definition bb_write_long (bb : bytes_builder_t) (val : Z) : option bytes_builder_t :=
  bb ← bb_check_size bb 8; bb_put bb (long_to_bytes val (replicate 8 0)) 8.
Definition bb_write_byte (bb : bytes_builder_t) (val : Z) : option bytes_builder_t :=
  bb ← bb_check_size bb 1; bb_put bb [u8 val] 1.

(** [for (i = 0; i < len; i++) data[s + len - i - 1] = (val >> (i << 3)) & 0xFF]. *)
Fixpoint long_be_loop (n i : nat) (s len : nat) (val : Z) (d : list Z) : option (list Z) :=
  match n with
  | O => Some d
  | S n' =>
      if 64 <=? Z.of_nat i * 8 then None
      else d' ← memcpy_at d (s + len - i - 1) [Z.land (Z.shiftr val (Z.shiftl (Z.of_nat i) 3)) 255];
           long_be_loop n' (S i) s len val d'
  end.
Definition bb_write_long_be (bb : bytes_builder_t) (val : Z) (len : nat) : option bytes_builder_t :=
  bb ← bb_check_size bb (Z.of_nat len);
  d ← bb_data bb;
  d' ← long_be_loop len 0 (Z.to_nat (bb_len bb)) len val d;
  Some (mk_bb (bb_bsize bb) (Some d') (u32 (bb_len bb + Z.of_nat len)) (bb_heap bb)).

(** [bb_move_to_bytes]: the content, handed to the caller. *)
Definition bb_move_to_bytes (bb : bytes_builder_t) : bytes_t := mk_bytes (bb_data bb) (bb_len bb).
Definition bb_clear (bb : bytes_builder_t) : bytes_builder_t :=
  mk_bb (bb_bsize bb) (bb_data bb) 0 (bb_heap bb).

(** [bb_replace]: the size argument [data_len - delete_len] is converted to [size_t]. *)
Definition bb_replace (bb : bytes_builder_t) (offset delete_len : nat) (data : list Z) : option bytes_builder_t :=
  if (delete_len =? 0)%nat && (length data =? 0)%nat then Some bb
  else
    bb ← bb_check_size bb (u64 (zlen data - Z.of_nat delete_len));
    d ← bb_data bb;
    let cnt := Z.to_nat (u32 (bb_len bb - Z.of_nat offset - Z.of_nat delete_len)) in
    tail ← read_at d (offset + delete_len) cnt;
    d ← memcpy_at d (offset + length data) tail;
    d ← (if (length data =? 0)%nat then Some d else memcpy_at d offset data);
    Some (mk_bb (bb_bsize bb) (Some d) (u32 (bb_len bb + zlen data - Z.of_nat delete_len)) (bb_heap bb)).

End Alloc.

(** ** The builder as a list: representation

    [bb_rep bb c]: the builder owns its block, the block is as large as [bsize] says and the
    content is [c].  [2^33] bounds [bsize]: lengths are 32 bit and the size at most doubles past
    the need. *)
Definition bb_rep (bb : bytes_builder_t) (c : list Z) : Prop :=
  bb_len bb = zlen c /\
  match bb_data bb with
  | None => c = [] /\ bb_bsize bb = 0
  | Some d => bb_heap bb = true /\ zlen d = bb_bsize bb /\ 0 < bb_bsize bb <= 2 ^ 33 /\
              (length c <= length d)%nat /\ take (length c) d = c
  end.

Section AllocLemmas.
Context `{Allocator}.

Lemma read_at_length d off n x : read_at d off n = Some x -> length x = n.
Proof. unfold read_at. destruct (Nat.leb_spec (off + n) (length d)); [|done]. intros E. assert (x = take n (drop off d)) as -> by congruence. rewrite length_take, length_drop. lia. Qed.
Lemma read_at_all (l : list Z) : read_at l 0 (length l) = Some l.
Proof. unfold read_at. rewrite Nat.leb_refl, drop_0, firstn_all. done. Qed.

Lemma bb_newl_rep l : (0 < l)%nat -> Z.of_nat l <= 2 ^ 33 -> bb_rep (bb_newl l) [].
Proof. intros Hl Hm. unfold bb_rep, bb_newl. simpl. rewrite malloc_length. repeat split; lia. Qed.
Lemma bb_new_rep : bb_rep bb_new [].
Proof. apply bb_newl_rep; lia. Qed.
Lemma bb_null_rep : bb_rep bb_null [].
Proof. done. Qed.
Lemma bb_clear_rep bb c : bb_rep bb c -> bb_rep (bb_clear bb) [].
Proof.
  intros [Hlen Hd]. split; [done|]. simpl. destruct (bb_data bb) as [d|]; [|tauto].
  destruct Hd as (? & ? & ? & ? & ?). repeat split; try done; simpl; lia.
Qed.

(** The doubling loop ends, above the need and within twice of it. *)
Lemma grow_bsize_spec fuel : forall need bsize, 0 <= need < 2 ^ 32 -> 0 < bsize <= 2 ^ 33 ->
  need < bsize * 2 ^ Z.of_nat fuel ->
  exists bs, grow_bsize fuel need bsize = Some bs /\ need < bs <= 2 ^ 33 /\ bsize <= bs.
Proof.
  induction fuel as [|fuel IH]; intros need bsize Hn Hb Hf; unfold grow_bsize; fold grow_bsize;
    destruct (Z.ltb_spec need bsize); try (exists bsize; repeat split; [done|lia..]).
  { simpl in Hf. lia. }
  rewrite Z.shiftl_mul_pow2, u64_small by lia.
  destruct (IH need (bsize * 2 ^ 1)) as (bs & -> & ? & ?); [lia|lia| |].
  - rewrite Nat2Z.inj_succ, Z.pow_succ_r in Hf by lia. lia.
  - exists bs. repeat split; lia.
Qed.

(** [bb_check_size] keeps the content and makes room for [n] more bytes. *)
Lemma bb_check_size_rep bb c n : bb_rep bb c -> 0 <= n -> zlen c + n < 2 ^ 32 ->
  exists bb', bb_check_size bb n = Some bb' /\ bb_rep bb' c /\ bb_len bb' = bb_len bb /\
    (n = 0 \/ exists d, bb_data bb' = Some d /\ zlen c + n <= zlen d).
Proof.
  intros [Hlen Hd] Hn Hc. unfold bb_check_size. rewrite Hlen, u64_small by lia.
  destruct (Z.eqb_spec n 0) as [->|Hn0]; simpl.
  { exists bb. repeat split; auto. }
  destruct (Z.ltb_spec (zlen c + n) (bb_bsize bb)) as [Hlt|Hge].
  { exists bb. repeat split; auto. right. destruct (bb_data bb) as [d|]; [|destruct Hd; lia].
    exists d. destruct Hd as (? & ? & ?). split; [done|]. lia. }
  destruct (bb_data bb) as [d|].
  - destruct Hd as (Hheap & Hsz & Hb & Hcd & Ht).
    destruct (grow_bsize_spec 64 (zlen c + n) (bb_bsize bb)) as (bs & Hbs & Hr & Hle); [lia|lia| |].
    { assert (2 ^ 32 <= 2 ^ Z.of_nat 64) by (apply Z.pow_le_mono_r; lia). nia. }
    rewrite Hbs, Hheap. simpl. eexists. split; [done|]. repeat split; simpl; try done; try lia.
    + rewrite realloc_length. lia.
    + rewrite realloc_length. lia.
    + rewrite realloc_take by lia. done.
    + right. eexists. split; [done|]. rewrite realloc_length. lia.
  - destruct Hd as [-> Hz]. eexists. split; [done|]. repeat split; simpl in *; rewrite ?malloc_length; try done; try lia.
    right. eexists. split; [done|]. rewrite malloc_length. lia.
Qed.

Lemma bb_put_rep bb c src d : bb_rep bb c -> bb_data bb = Some d -> zlen c + zlen src <= zlen d ->
  zlen c + zlen src < 2 ^ 32 ->
  exists bb', bb_put bb src (zlen src) = Some bb' /\ bb_rep bb' (c ++ src).
Proof.
  intros [Hlen Hd] Hdata Hroom Hmax. rewrite Hdata in Hd. destruct Hd as (Hheap & Hsz & Hb & Hcd & Ht).
  unfold bb_put. rewrite Hdata, Hlen, Nat2Z.id. simpl.
  destruct (memcpy_at d (length c) src) as [d'|] eqn:Hm.
  2:{ unfold memcpy_at in Hm. destruct (Nat.leb_spec (length c + length src) (length d)); [done|lia]. }
  simpl. eexists. split; [done|]. split; simpl.
  - rewrite u32_small, length_app by lia. lia.
  - rewrite (memcpy_at_length _ _ _ _ Hm). repeat split; try done; try lia; rewrite length_app.
    + lia.
    + rewrite (memcpy_at_take _ _ _ _ Hm), Ht. done.
Qed.

(** The pattern all writers share: make room, then write. *)
Lemma bb_append bb c src : bb_rep bb c -> zlen c + zlen src < 2 ^ 32 -> src <> [] ->
  exists bb', (bb' ← bb_check_size bb (zlen src); bb_put bb' src (zlen src)) = Some bb' /\ bb_rep bb' (c ++ src).
Proof.
  intros Hrep Hmax Hne.
  destruct (bb_check_size_rep bb c (zlen src)) as (bb1 & -> & Hrep1 & _ & [H0|(d & Hd & Hroom)]);
    [done|lia|lia| |].
  - destruct src; [done|simpl in H0; lia].
  - simpl. by apply (bb_put_rep bb1 c src d).
Qed.

(** Every writer appends to the content, whatever the sizes of the block were. *)
Lemma bb_write_byte_rep bb c v : bb_rep bb c -> zlen c + 1 < 2 ^ 32 ->
  exists bb', bb_write_byte bb v = Some bb' /\ bb_rep bb' (c ++ [u8 v]).
Proof. intros. by apply (bb_append bb c [u8 v]). Qed.
Lemma bb_write_fixed_bytes_rep bb c src : bb_rep bb c -> zlen c + zlen src < 2 ^ 32 ->
  exists bb', bb_write_fixed_bytes bb src = Some bb' /\ bb_rep bb' (c ++ src).
Proof.
  intros. unfold bb_write_fixed_bytes. destruct src as [|x src].
  - exists bb. by rewrite app_nil_r.
  - by apply (bb_append bb c (x :: src)).
Qed.
Lemma bb_write_raw_bytes_rep bb c src : bb_rep bb c -> zlen c + zlen src < 2 ^ 32 ->
  exists bb', bb_write_raw_bytes bb src = Some bb' /\ bb_rep bb' (c ++ src).
Proof.
  intros. unfold bb_write_raw_bytes. destruct src as [|x src].
  - exists bb. rewrite app_nil_r. done.
  - by apply (bb_append bb c (x :: src)).
Qed.
Lemma bb_write_chars_rep bb c s : bb_rep bb c -> zlen c + zlen s + 1 < 2 ^ 32 ->
  exists bb', bb_write_chars bb s = Some bb' /\ bb_rep bb' (c ++ s ++ [0]).
Proof.
  intros. unfold bb_write_chars. replace (zlen s + 1) with (zlen (s ++ [0])) by (rewrite length_snoc; lia).
  apply bb_append; [done|rewrite length_snoc; lia|by destruct s].
Qed.
Lemma bb_write_int_rep bb c v : bb_rep bb c -> zlen c + 4 < 2 ^ 32 ->
  exists bb', bb_write_int bb v = Some bb' /\ bb_rep bb' (c ++ be_bytes 4 v).
Proof. intros. unfold bb_write_int. rewrite int_to_bytes_spec by done. by apply (bb_append bb c (be_bytes 4 v)). Qed.
Lemma bb_write_long_rep bb c v : bb_rep bb c -> zlen c + 8 < 2 ^ 32 ->
  exists bb', bb_write_long bb v = Some bb' /\ bb_rep bb' (c ++ be_bytes 8 v).
Proof. intros. unfold bb_write_long. rewrite long_to_bytes_spec by done. by apply (bb_append bb c (be_bytes 8 v)). Qed.

Lemma long_be_loop_spec n : forall i s len val d, (i + n = len)%nat -> (len <= 8)%nat -> 0 <= val ->
  (s + len <= length d)%nat ->
  long_be_loop n i s len val d
  = Some (take s d ++ be_bytes n (val / 256 ^ Z.of_nat i) ++ drop (s + n) d).
Proof.
  induction n as [|n IH]; intros i s len val d Hi Hl Hv Hd; cbn [long_be_loop].
  { simpl. by rewrite Nat.add_0_r, take_drop. }
  destruct (Z.leb_spec 64 (Z.of_nat i * 8)); [lia|].
  replace (s + len - i - 1)%nat with (s + n)%nat by lia.
  rewrite memcpy_at_Some by (simpl; lia). simpl. rewrite land_255, Z.shiftl_mul_pow2, Z.shiftr_div_pow2 by lia.
  rewrite (IH (S i) s len val); [|lia|lia|lia|rewrite !length_app, length_take, length_cons, length_drop; simpl; lia].
  f_equal. rewrite take_app_le by (rewrite length_take; lia). rewrite take_take, Nat.min_l by lia. f_equal.
  rewrite <- app_assoc. f_equal.
  - f_equal. rewrite pow256_S, (Z.mul_comm 256). pose proof (pow256_pos i).
    symmetry. apply Z.div_div; lia.
  - rewrite drop_app_ge by (rewrite length_take; lia). rewrite length_take, Nat.min_l by lia.
    rewrite Nat.sub_diag, drop_0. simpl. f_equal; [|f_equal; lia].
    f_equal. f_equal. rewrite pow256_pow2. f_equal. lia.
Qed.
Lemma bb_write_long_be_rep bb c v len : bb_rep bb c -> zlen c + Z.of_nat len < 2 ^ 32 -> (1 <= len <= 8)%nat ->
  0 <= v -> exists bb', bb_write_long_be bb v len = Some bb' /\ bb_rep bb' (c ++ be_bytes len v).
Proof.
  intros Hrep Hmax Hlen Hv. unfold bb_write_long_be.
  destruct (bb_check_size_rep bb c (Z.of_nat len)) as (bb1 & -> & Hrep1 & _ & [H0|(d & Hd & Hroom)]); [done|lia|lia|lia|].
  simpl. rewrite Hd. destruct (bb_put_rep bb1 c (be_bytes len v) d) as (bb2 & Hput & Hrep2);
    [done|done|rewrite length_be_bytes; lia|rewrite length_be_bytes; lia|].
  exists bb2. split; [|done]. rewrite <- Hput. unfold bb_put. rewrite Hd. simpl.
  destruct Hrep1 as [Hl1 _]. rewrite Hl1, Nat2Z.id, long_be_loop_spec by lia. simpl.
  rewrite memcpy_at_Some by (rewrite length_be_bytes; lia). simpl. rewrite length_be_bytes.
  change (256 ^ 0) with 1. rewrite Z.div_1_r. done.
Qed.

(** The size argument of [bb_replace] may be negative before its conversion to [size_t]. *)
Lemma bb_check_size_delta bb c delta : bb_rep bb c -> 0 <= zlen c + delta < 2 ^ 32 -> c <> [] \/ 0 < delta ->
  exists bb1 d, bb_check_size bb (u64 delta) = Some bb1 /\ bb_rep bb1 c /\ bb_data bb1 = Some d /\
    zlen c + delta <= zlen d.
Proof.
  intros Hrep Hr Hne. destruct (Z.lt_ge_cases 0 delta) as [Hpos|Hneg].
  - rewrite u64_small by lia.
    destruct (bb_check_size_rep bb c delta) as (bb1 & -> & Hrep1 & _ & [H0|(d & Hd & Hroom)]); [done|lia|lia|lia|].
    exists bb1, d. auto.
  - destruct (Hrep) as [Hlen Hd]. destruct (bb_data bb) as [d|] eqn:Hdata.
    2:{ destruct Hd as [-> _]. destruct Hne; [done|lia]. }
    destruct Hd as (Hheap & Hsz & Hb & Hcd & Ht). exists bb, d. split; [|split; [done|split; [done|lia]]].
    unfold bb_check_size. destruct (Z.eq_dec delta 0) as [->|]; [done|].
    assert (u64 (bb_len bb + u64 delta) = bb_len bb + delta) as ->.
    { unfold u64. rewrite Zplus_mod_idemp_r. apply Z.mod_small. lia. }
    rewrite (proj2 (Z.ltb_lt _ (bb_bsize bb))) by lia. by rewrite orb_true_r.
Qed.

Lemma memcpy_splice (d tail data : list Z) off : (off + length data + length tail <= length d)%nat ->
  exists d1 d2, memcpy_at d (off + length data) tail = Some d1 /\
    (if (length data =? 0)%nat then Some d1 else memcpy_at d1 off data) = Some d2 /\
    length d2 = length d /\ take (off + length data + length tail) d2 = take off d ++ data ++ tail.
Proof.
  intros Hl. rewrite memcpy_at_Some by lia. eexists _, (take off d ++ data ++ tail ++ drop (off + length data + length tail) d).
  split; [done|]. assert (length (take off d) = off) as Hoff by (rewrite length_take; lia). split; [|split].
  - destruct (Nat.eqb_spec (length data) 0) as [H0|].
    { destruct data; [|done]. simpl. rewrite Nat.add_0_r. done. }
    rewrite memcpy_at_Some by (rewrite !length_app, length_take, length_drop; lia). do 2 f_equal.
    { rewrite take_app_le, take_take by (rewrite length_take; lia). f_equal. lia. }
    f_equal. rewrite drop_app_ge by (rewrite length_take; lia). rewrite length_take, Nat.min_l, Nat.sub_diag by lia. done.
  - rewrite !length_app, length_drop. lia.
  - rewrite !app_assoc, take_app_length'; [by rewrite <- app_assoc|]. rewrite !length_app. lia.
Qed.

(** [bb_replace] splices [data] over [delete_len] bytes at [offset]. *)
Lemma bb_replace_rep bb c offset delete_len data : bb_rep bb c ->
  (offset + delete_len <= length c)%nat -> zlen c + zlen data < 2 ^ 32 ->
  exists bb', bb_replace bb offset delete_len data = Some bb' /\
    bb_rep bb' (take offset c ++ data ++ drop (offset + delete_len) c).
Proof.
  intros Hrep Hoff Hmax. unfold bb_replace.
  destruct (andb _ _) eqn:Hboth.
  { apply andb_true_iff in Hboth as [Hd0 Hl0]. apply Nat.eqb_eq in Hd0, Hl0. destruct data; [|done].
    exists bb. rewrite Hd0, Nat.add_0_r. simpl. by rewrite take_drop. }
  assert (delete_len <> 0 \/ length data <> 0)%nat as Hne.
  { apply andb_false_iff in Hboth as [Hb|Hb]; apply Nat.eqb_neq in Hb; auto. }
  destruct (bb_check_size_delta bb c (zlen data - Z.of_nat delete_len)) as (bb1 & d & -> & [Hlen Hrep1] & Hd & Hroom);
    [done|lia| |].
  { destruct (decide (c = [])) as [->|]; [right; simpl in *; lia|by left]. }
  rewrite Hd in Hrep1. destruct Hrep1 as (Hheap & Hsz & Hb & Hcd & Ht). cbn [mbind option_bind]. rewrite Hd, Hlen.
  cbn [mbind option_bind]. rewrite (u32_small (zlen c - Z.of_nat offset - Z.of_nat delete_len)) by lia.
  assert (read_at d (offset + delete_len) (Z.to_nat (zlen c - Z.of_nat offset - Z.of_nat delete_len))
          = Some (drop (offset + delete_len) c)) as ->.
  { unfold read_at. rewrite (proj2 (Nat.leb_le _ _)) by lia. f_equal. rewrite <- Ht at 2. rewrite skipn_firstn_comm.
    f_equal. lia. }
  cbn [mbind option_bind].
  destruct (memcpy_splice d (drop (offset + delete_len) c) data offset) as (d1 & d2 & -> & Hd2 & Hl2 & Ht2);
    [rewrite length_drop; lia|].
  cbn [mbind option_bind]. rewrite Hd2. simpl. eexists. split; [done|].
  assert (length (take offset c ++ data ++ drop (offset + delete_len) c)
          = (offset + length data + length (drop (offset + delete_len) c))%nat) as Hlc.
  { rewrite !length_app, length_take. lia. }
  split; simpl; rewrite Hlc; rewrite length_drop in *; [rewrite u32_small; lia|].
  rewrite Hl2, Ht2. repeat split; try done; try lia.
  f_equal. rewrite <- Ht, take_take. f_equal. lia.
Qed.

(** [bb_move_to_bytes] hands out exactly the content. *)
Lemma bb_move_to_bytes_rep bb c : bb_rep bb c -> c <> [] ->
  b_len (bb_move_to_bytes bb) = zlen c /\
  exists d, b_data (bb_move_to_bytes bb) = Some d /\ read_at d 0 (length c) = Some c.
Proof.
  intros [Hlen Hd] Hne. split; [done|]. simpl. destruct (bb_data bb) as [d|]; [|tauto].
  destruct Hd as (_ & _ & _ & Hcd & Ht). exists d. split; [done|].
  unfold read_at. rewrite (proj2 (Nat.leb_le _ _)) by lia. by rewrite drop_0, Ht.
Qed.

(** ** Byte strings *)

(** Equality of two non-NULL byte strings is decided by [b_cmp]. *)
Lemma bytes_cmp_spec a b : bytes_cmp (bytes a) (bytes b) = true <-> a = b.
Proof.
  unfold bytes_cmp, b_cmp, bytes. cbn [b_len b_data].
  destruct (Z.eqb_spec (zlen a) 0), (Z.eqb_spec (zlen b) 0); simpl.
  1: destruct a, b; simpl in *; try done; lia.
  all: destruct (Z.eqb_spec (zlen a) (zlen b)) as [Hl|Hl]; simpl;
    [|split; [done|intros ->; done]].
  all: assert (length a = length b) as Hl' by lia; rewrite Nat2Z.id, firstn_all, Hl', firstn_all, Z.eqb_eq;
    by apply memcmp_0.
Qed.

(** A value written by the builder is read back by the matching reader. *)
Lemma b_read_int_at c v rest : 0 <= v < 2 ^ 32 ->
  b_read_int (c ++ be_bytes 4 v ++ rest) (length c) = Some (v, (length c + 4)%nat).
Proof.
  intros Hv. unfold b_read_int, read_at. rewrite (proj2 (Nat.leb_le _ _)) by (rewrite !length_app, length_be_bytes; lia).
  rewrite drop_app_length, take_app_length' by (by rewrite length_be_bytes). cbn [mbind option_bind].
  pose proof (bytes_to_int_spec (be_bytes 4 v) (be_bytes_ok 4 v)) as Hs. rewrite length_be_bytes in Hs.
  change (Z.of_nat 4) with 4 in Hs. rewrite Hs, be_val_be_bytes, Z.mod_small by lia. done.
Qed.
Lemma b_read_long_at c v rest : 0 <= v < 2 ^ 64 ->
  b_read_long (c ++ be_bytes 8 v ++ rest) (length c) = Some (v, (length c + 8)%nat).
Proof.
  intros Hv. unfold b_read_long, read_at. rewrite (proj2 (Nat.leb_le _ _)) by (rewrite !length_app, length_be_bytes; lia).
  rewrite drop_app_length, take_app_length' by (by rewrite length_be_bytes). cbn [mbind option_bind].
  pose proof (bytes_to_long_spec (be_bytes 8 v) (be_bytes_ok 8 v)) as Hs. rewrite length_be_bytes in Hs.
  change (Z.of_nat 8) with 8 in Hs. rewrite Hs, drop_0, be_val_be_bytes, Z.mod_small by lia. done.
Qed.
Lemma strlen_app s rest : Forall (fun c => c <> 0) s -> strlen (s ++ 0 :: rest) = Some (length s).
Proof.
  induction s as [|c s IH]; [done|]. intros Hs. inversion_clear Hs as [|? ? Hc Hs']. simpl.
  rewrite (proj2 (Z.eqb_neq _ _) Hc), IH by done. done.
Qed.
Lemma b_new_chars_at c s rest : Forall (fun c => c <> 0) s ->
  b_new_chars (c ++ s ++ 0 :: rest) (length c) = Some (s, (length c + length s + 1)%nat).
Proof.
  intros Hs. unfold b_new_chars, read_at. rewrite drop_app_length, strlen_app by done. cbn [mbind option_bind].
  rewrite (proj2 (Nat.leb_le _ _)) by (rewrite !length_app; simpl; lia). rewrite take_app_length. done.
Qed.
End AllocLemmas.

(** ** The builder refines a list

    A program over the builder and what it does to the content.  [abs_op] is [None] outside of
    the operation's contract: a content of 2^32 bytes or more, a [bb_write_long_be] of no or more
    than eight bytes, a replaced range that is not inside the content. *)
Inductive bb_op :=
  | WriteByte (v : Z)
  | WriteFixed (src : list Z)
  | WriteRaw (src : list Z)
  | WriteChars (s : list Z)
  | WriteInt (v : Z)
  | WriteLong (v : Z)
  | WriteLongBe (v : Z) (len : nat)
  | Replace (offset delete_len : nat) (data : list Z)
  | Clear.

Definition exec_op `{Allocator} (bb : bytes_builder_t) (op : bb_op) : option bytes_builder_t :=
  match op with
  | WriteByte v => bb_write_byte bb v
  | WriteFixed src => bb_write_fixed_bytes bb src
  | WriteRaw src => bb_write_raw_bytes bb src
  | WriteChars s => bb_write_chars bb s
  | WriteInt v => bb_write_int bb v
  | WriteLong v => bb_write_long bb v
  | WriteLongBe v len => bb_write_long_be bb v len
  | Replace offset delete_len data => bb_replace bb offset delete_len data
  | Clear => Some (bb_clear bb)
  end.

Definition abs_append (c l : list Z) : option (list Z) :=
  if zlen c + zlen l <? 2 ^ 32 then Some (c ++ l) else None.
Definition abs_op (c : list Z) (op : bb_op) : option (list Z) :=
  match op with
  | WriteByte v => abs_append c [u8 v]
  | WriteFixed src | WriteRaw src => abs_append c src
  | WriteChars s => abs_append c (s ++ [0])
  | WriteInt v => abs_append c (be_bytes 4 v)
  | WriteLong v => abs_append c (be_bytes 8 v)
  | WriteLongBe v len =>
      if (1 <=? len)%nat && (len <=? 8)%nat && (0 <=? v) then abs_append c (be_bytes len v) else None
  | Replace offset delete_len data =>
      if (offset + delete_len <=? length c)%nat && (zlen c + zlen data <? 2 ^ 32)
      then Some (take offset c ++ data ++ drop (offset + delete_len) c) else None
  | Clear => Some []
  end.

Fixpoint run {S Op} (step : S -> Op -> option S) (s : S) (ops : list Op) : option S :=
  match ops with
  | [] => Some s
  | op :: t => s' ← step s op; run step s' t
  end.

Lemma abs_append_Some c l c' : abs_append c l = Some c' -> c' = c ++ l /\ zlen c + zlen l < 2 ^ 32.
Proof. unfold abs_append. destruct (Z.ltb_spec (zlen c + zlen l) (2 ^ 32)); [|done]. by intros [= <-]. Qed.

Lemma exec_op_refines `{Allocator} bb c op c' : bb_rep bb c -> abs_op c op = Some c' ->
  exists bb', exec_op bb op = Some bb' /\ bb_rep bb' c'.
Proof.
  intros Hrep Habs. destruct op; cbn [abs_op exec_op] in *.
  1-6: apply abs_append_Some in Habs as [-> Hmax]; rewrite ?length_app, ?length_be_bytes in Hmax; simpl in Hmax.
  - apply bb_write_byte_rep; [done|lia].
  - by apply bb_write_fixed_bytes_rep.
  - by apply bb_write_raw_bytes_rep.
  - apply bb_write_chars_rep; [done|lia].
  - apply bb_write_int_rep; [done|lia].
  - apply bb_write_long_rep; [done|lia].
  - destruct (andb _ _) eqn:Hg; [|done]. apply andb_true_iff in Hg as [Hg Hv]. apply andb_true_iff in Hg as [H1 H8].
    apply Nat.leb_le in H1, H8. apply Z.leb_le in Hv.
    apply abs_append_Some in Habs as [-> Hmax]. rewrite length_be_bytes in Hmax. apply bb_write_long_be_rep; [done|lia..].
  - destruct (andb _ _) eqn:Hg; [|done]. apply andb_true_iff in Hg as [Ho Hm]. apply Nat.leb_le in Ho.
    apply Z.ltb_lt in Hm. simplify_eq. by apply bb_replace_rep.
  - simplify_eq. eexists. split; [done|]. by eapply bb_clear_rep.
Qed.

(** C24. The byte builder refines a plain list: running any sequence of writes, replacements and
    resets on a fresh builder of any positive initial size stays inside the allocated block,
    terminates, and leaves exactly the content the same sequence builds as a list, whatever
    uninitialised memory holds. *)
Theorem bb_refines_list (A : Allocator) (l : nat) (ops : list bb_op) (c : list Z)
  (Hl : (0 < l)%nat) (Hmax : Z.of_nat l <= 2 ^ 33) (Hops : run abs_op [] ops = Some c) :
  exists bb, run exec_op (bb_newl l) ops = Some bb /\ bb_rep bb c.
Proof.
  assert (forall ops bb c0, bb_rep bb c0 -> run abs_op c0 ops = Some c ->
    exists bb', run exec_op bb ops = Some bb' /\ bb_rep bb' c) as Hrun.
  { clear. induction ops as [|op ops IH]; intros bb c0 Hrep Hr; cbn [run] in *.
    - simplify_eq. eauto.
    - destruct (abs_op c0 op) as [c1|] eqn:E; [|done]. destruct (exec_op_refines bb c0 op c1 Hrep E) as (bb1 & -> & Hrep1).
      by apply (IH bb1 c1). }
  apply (Hrun ops (bb_newl l) []); [by apply bb_newl_rep|done].
Qed.

Lemma bb_refines_list_witness :
  run abs_op [] [WriteInt 258; WriteChars [104; 105]; Replace 1 2 [7; 7; 7]; WriteLongBe 513 2]
    = Some [0; 7; 7; 7; 2; 104; 105; 0; 2; 1] /\
  exists bb, run exec_op (bb_newl 1) [WriteInt 258; WriteChars [104; 105]; Replace 1 2 [7; 7; 7]; WriteLongBe 513 2]
    = Some bb /\ bb_rep bb [0; 7; 7; 7; 2; 104; 105; 0; 2; 1].
Proof. split; [vm_compute; reflexivity|]. apply bb_refines_list; [lia|lia|vm_compute; reflexivity]. Defined.

(** [b_concat] is broken: with one argument it returns a fresh block whose content does not
    depend on the argument, and with two non-empty arguments it writes past the end of the
    second one. *)
Theorem b_concat_never_copies (A : Allocator) (a b : list Z) :
  b_concat [a] = Some (malloc (length a)) /\ (a <> [] -> b <> [] -> b_concat [a; b] = None).
Proof.
  unfold b_concat. cbn [b_concat_loop sum_list_with]. rewrite memcpy_at_Some by lia. cbn [mbind option_bind].
  split; [f_equal; f_equal; lia|]. intros Ha Hb.
  assert (memcpy_at b (0 + length a) b = None) as ->; [|done].
  unfold memcpy_at. destruct (Nat.leb_spec (0 + length a + length b) (length b)); [|done].
  destruct a; [done|]. simpl in *. lia.
Qed.
