(* ===== verification/Bitset.v ===== *)
(** * core/util/bitset.c: a set of bit positions, inline up to 64 bits and on the heap beyond

    The union of the struct is an inductive type: [Inline b] while [len] is at most [BS_MAX],
    [OnHeap p] above (the macro [IS_ON_HEAP]).  Allocation is assumed to succeed, so the
    [IN3_ENOMEM] returns do not occur. *)
From S2P Require Import Prelude.

Definition BS_MAX : Z := 64.

Inductive bs_bits := Inline (b : Z) | OnHeap (p : list Z).
Record bitset_t := mk_bs { bits : bs_bits; bs_len : Z }.

(** [bs_op_t]; any other value takes the [default] branch of the switches. *)
Definition BS_SET : Z := 0.
Definition BS_CLEAR : Z := 1.
Definition BS_TOGGLE : Z := 2.

Definition BIT_SET (a b : Z) : Z := Z.lor a (Z.shiftl 1 b).
Definition BIT_CLEAR (a b : Z) : Z := Z.land a (Z.lnot (Z.shiftl 1 b)).
Definition BIT_FLIP (a b : Z) : Z := Z.lxor a (Z.shiftl 1 b).
Definition BIT_CHECK (a b : Z) : bool := negb (Z.land a (Z.shiftl 1 b) =? 0).

Definition ALIGN_UP8 (a : Z) : Z := (a + 8 - 1) / 8 * 8.

Section Alloc.
Context `{Allocator}.

(** [bs_growp] on the block [p] of a bitset of [len] bits: the block and the new length. *)
Definition bs_growp (p : list Z) (len pos : Z) : list Z * Z :=
  if pos <? len then (p, len)
  else
    let nl := ALIGN_UP8 (pos + 1) / 8 in
    let ol := len / 8 in
    let p_ := realloc p (Z.to_nat nl) in
    (take (Z.to_nat ol) p_ ++ replicate (Z.to_nat (nl - ol)) 0, nl * 8).

(** The loop that copies the inline bits into the block. *)
Fixpoint copy_bits (n : nat) (i : nat) (cpy : Z) (p : list Z) : list Z :=
  match n with
  | O => p
  | S n' =>
      let d := (i / 8)%nat in
      let r := Z.of_nat i mod 8 in
      let v := nth d p 0 in
      copy_bits n' (S i) cpy
        (<[d := u8 (if BIT_CHECK cpy (Z.of_nat i) then BIT_SET v r else BIT_CLEAR v r)]> p)
  end.

Definition bit_op (op : Z) (a b : Z) : option Z :=
  if op =? BS_SET then Some (BIT_SET a b)
  else if op =? BS_CLEAR then Some (BIT_CLEAR a b)
  else if op =? BS_TOGGLE then Some (BIT_FLIP a b)
  else None.

(** The first part of [bs_modify]: positions from [BS_MAX] on need a heap block. *)
Definition bs_grow (bs : bitset_t) (pos : Z) : bitset_t :=
  if BS_MAX <=? pos then
    match bits bs with
    | OnHeap p => let '(p, len) := bs_growp p (bs_len bs) pos in mk_bs (OnHeap p) len
    | Inline cpy =>
        let '(p, len) := bs_growp [] (bs_len bs) pos in
        mk_bs (OnHeap (copy_bits 64 0 cpy p)) len
    end
  else bs.
Definition bs_modify (bs : bitset_t) (pos op : Z) : Z * bitset_t :=
  let bs := bs_grow bs pos in
  match bits bs with
  | OnHeap p =>
      let d := Z.to_nat (pos / 8) in
      match bit_op op (nth d p 0) (pos mod 8) with
      | Some v => (IN3_OK, mk_bs (OnHeap (<[d := u8 v]> p)) (bs_len bs))
      | None => (IN3_ENOTSUP, bs)
      end
  | Inline b =>
      match bit_op op b pos with
      | Some v => (IN3_OK, mk_bs (Inline (u64 v)) (bs_len bs))
      | None => (IN3_ENOTSUP, bs)
      end
  end.
Definition bs_set (bs : bitset_t) (pos : Z) : bitset_t := snd (bs_modify bs pos BS_SET).

Definition bs_new (len : Z) : bitset_t :=
  if BS_MAX <? len then mk_bs (OnHeap (replicate (Z.to_nat (Z.max (ALIGN_UP8 len / 8) 1)) 0)) (ALIGN_UP8 len)
  else mk_bs (Inline 0) BS_MAX.

Definition bs_isset (bs : bitset_t) (pos : Z) : bool :=
  if bs_len bs <=? pos then false
  else match bits bs with
       | OnHeap p => BIT_CHECK (nth (Z.to_nat (pos / 8)) p 0) (pos mod 8)
       | Inline b => BIT_CHECK b pos
       end.

Definition bs_isempty (bs : bitset_t) : bool :=
  match bits bs with
  | OnHeap p => forallb (fun x => x =? 0) (take (Z.to_nat (bs_len bs / 8)) p)
  | Inline b => b =? 0
  end.

Definition bs_clone (bs : bitset_t) : bitset_t :=
  match bits bs with
  | OnHeap p => mk_bs (OnHeap (take (Z.to_nat (bs_len bs / 8)) p)) (bs_len bs)
  | Inline b => mk_bs (Inline b) (bs_len bs)
  end.

Fixpoint from_ull_loop (n j : nat) (u : Z) (bs : bitset_t) : bitset_t :=
  match n with
  | O => bs
  | S n' => from_ull_loop n' (S j) u (if BIT_CHECK u (Z.of_nat j) then bs_set bs (Z.of_nat j) else bs)
  end.
Definition bs_from_ull (u l : Z) : bitset_t := from_ull_loop 64 0 u (bs_new l).

End Alloc.

(** ** Bits *)
Lemma BIT_CHECK_testbit a b : 0 <= b -> BIT_CHECK a b = Z.testbit a b.
Proof.
  intros Hb. unfold BIT_CHECK. rewrite Z.shiftl_1_l.
  assert (Z.land a (2 ^ b) = if Z.testbit a b then 2 ^ b else 0) as ->.
  { apply Z.bits_inj'. intros i Hi. rewrite Z.land_spec, Z.pow2_bits_eqb by done.
    destruct (Z.eqb_spec b i) as [->|Hne].
    - rewrite andb_true_r. destruct (Z.testbit a i) eqn:E; [by rewrite Z.pow2_bits_true|by rewrite Z.bits_0].
    - rewrite andb_false_r. destruct (Z.testbit a b); [by rewrite Z.pow2_bits_false|by rewrite Z.bits_0]. }
  pose proof (Z.pow_pos_nonneg 2 b). destruct (Z.testbit a b); [|done].
  rewrite (proj2 (Z.eqb_neq _ _)); [done|lia].
Qed.

(** What the three operations do to one bit. *)
Definition bit_after (op : Z) (old : bool) : bool :=
  if op =? BS_SET then true else if op =? BS_CLEAR then false else negb old.
Definition known_op (op : Z) : bool := (op =? BS_SET) || (op =? BS_CLEAR) || (op =? BS_TOGGLE).

Lemma bit_op_testbit op a b v i : bit_op op a b = Some v -> 0 <= b -> 0 <= i ->
  Z.testbit v i = if i =? b then bit_after op (Z.testbit a b) else Z.testbit a i.
Proof.
  unfold bit_op, bit_after. intros Hop Hb Hi.
  destruct (op =? BS_SET); [|destruct (op =? BS_CLEAR); [|destruct (op =? BS_TOGGLE); [|done]]]; simplify_eq.
  - unfold BIT_SET. rewrite Z.lor_spec, Z.shiftl_1_l, Z.pow2_bits_eqb, Z.eqb_sym by done.
    destruct (Z.eqb_spec i b); [by rewrite orb_true_r|by rewrite orb_false_r].
  - unfold BIT_CLEAR. rewrite Z.land_spec, Z.lnot_spec, Z.shiftl_1_l, Z.pow2_bits_eqb, Z.eqb_sym by done.
    destruct (Z.eqb_spec i b); simpl; [by rewrite andb_false_r|by rewrite andb_true_r].
  - unfold BIT_FLIP. rewrite Z.lxor_spec, Z.shiftl_1_l, Z.pow2_bits_eqb, Z.eqb_sym by done.
    destruct (Z.eqb_spec i b) as [->|]; [by destruct (Z.testbit a b)|by rewrite xorb_false_r].
Qed.
Lemma bit_op_known op a b : known_op op = true -> exists v, bit_op op a b = Some v.
Proof. unfold known_op, bit_op. destruct (op =? BS_SET), (op =? BS_CLEAR), (op =? BS_TOGGLE); eauto. done. Qed.
Lemma bit_op_unknown op a b : known_op op = false -> bit_op op a b = None.
Proof. unfold known_op, bit_op. by destruct (op =? BS_SET), (op =? BS_CLEAR), (op =? BS_TOGGLE). Qed.
Lemma u8_testbit v i : 0 <= i < 8 -> Z.testbit (u8 v) i = Z.testbit v i.
Proof. intros. unfold u8. apply Z.mod_pow2_bits_low. lia. Qed.
Lemma u64_testbit v i : 0 <= i < 64 -> Z.testbit (u64 v) i = Z.testbit v i.
Proof. intros. unfold u64. apply Z.mod_pow2_bits_low. lia. Qed.

(** ** Invariant *)
Definition bs_wf (bs : bitset_t) : Prop :=
  match bits bs with
  | Inline b => bs_len bs = BS_MAX /\ 0 <= b < 2 ^ 64
  | OnHeap p => BS_MAX < bs_len bs /\ bs_len bs = 8 * zlen p /\ bytes_ok p
  end.

(** The bit at [i] of a block. *)
Definition pbit (p : list Z) (i : Z) : bool := Z.testbit (nth (Z.to_nat (i / 8)) p 0) (i mod 8).

Lemma pbit_insert p d v i : (d < length p)%nat -> 0 <= i ->
  pbit (<[d := v]> p) i = if (Z.to_nat (i / 8) =? d)%nat then Z.testbit v (i mod 8) else pbit p i.
Proof.
  intros Hd Hi. unfold pbit. rewrite !nth_lookup. destruct (Nat.eqb_spec (Z.to_nat (i / 8)) d) as [->|Hne].
  - by rewrite list_lookup_insert_eq.
  - by rewrite list_lookup_insert_ne.
Qed.

Lemma bs_isset_wf bs i : bs_wf bs -> 0 <= i ->
  bs_isset bs i = match bits bs with Inline b => Z.testbit b i | OnHeap p => pbit p i end.
Proof.
  intros Hwf Hi. unfold bs_isset, bs_wf in *. pose proof (Z.mod_pos_bound i 8).
  destruct (bits bs) as [b|p].
  - destruct Hwf as [Hl Hb]. unfold BS_MAX in *. destruct (Z.leb_spec (bs_len bs) i).
    + symmetry. apply (testbit_small b 64); lia.
    + by apply BIT_CHECK_testbit.
  - destruct Hwf as (_ & Hl & Hok). destruct (Z.leb_spec (bs_len bs) i).
    + unfold pbit. rewrite nth_overflow, Z.bits_0; [done|].
      assert (zlen p <= i / 8) by (apply Z.div_le_lower_bound; lia). lia.
    + apply BIT_CHECK_testbit. lia.
Qed.

Section AllocLemmas.
Context `{Allocator}.

Lemma align_up8 pos : 0 <= pos -> ALIGN_UP8 (pos + 1) / 8 = pos / 8 + 1.
Proof.
  intros. unfold ALIGN_UP8. rewrite Z.div_mul by lia.
  replace (pos + 1 + 8 - 1) with (pos + 1 * 8) by lia. by rewrite Z.div_add by lia.
Qed.

(** Growing keeps the first [len/8] bytes and adds zeros up to a block that holds [pos]. *)
Lemma bs_growp_spec p len pos : len mod 8 = 0 -> 0 <= len <= pos -> zlen p <= len / 8 ->
  exists p', bs_growp p len pos = (p', 8 * zlen p') /\ pos < 8 * zlen p' /\ (bytes_ok p -> bytes_ok p') /\
    take (length p) p' = p /\ drop (Z.to_nat (len / 8)) p' = replicate (length p' - Z.to_nat (len / 8)) 0.
Proof.
  intros Hm Hlen Hp. unfold bs_growp. destruct (Z.ltb_spec pos len); [lia|].
  rewrite align_up8 by lia. set (ol := len / 8) in *. set (nl := pos / 8 + 1).
  assert (ol < nl) by (assert (ol <= pos / 8) by (apply Z.div_le_mono; lia); lia).
  assert (0 <= ol) by (apply Z.div_pos; lia).
  set (h := take (Z.to_nat ol) (realloc p (Z.to_nat nl))).
  assert (length h = Z.to_nat ol) as Hh by (unfold h; rewrite length_take, realloc_length; lia).
  exists (h ++ replicate (Z.to_nat (nl - ol)) 0).
  assert (length (h ++ replicate (Z.to_nat (nl - ol)) 0) = Z.to_nat nl) as Hl
    by (rewrite length_app, length_replicate; lia).
  rewrite Hl. repeat split.
  - f_equal. lia.
  - pose proof (Z.div_mod pos 8). pose proof (Z.mod_pos_bound pos 8). unfold nl. lia.
  - intros Hok. apply Forall_app. split; [|by apply Forall_replicate].
    apply Forall_take. by apply realloc_ok.
  - rewrite take_app_le by lia. unfold h. rewrite take_take, Nat.min_l by lia.
    rewrite realloc_take by lia. apply firstn_all.
  - rewrite <- Hh at 1. rewrite drop_app_length. f_equal. lia.
Qed.

Lemma pbit_app_l p q i : 0 <= i < 8 * zlen p -> pbit (p ++ q) i = pbit p i.
Proof.
  intros Hi. unfold pbit. rewrite app_nth1; [done|].
  assert (i / 8 < zlen p) by (apply Z.div_lt_upper_bound; lia).
  assert (0 <= i / 8) by (apply Z.div_pos; lia). lia.
Qed.
Lemma pbit_high p i : 8 * zlen p <= i -> pbit p i = false.
Proof.
  intros Hi. unfold pbit. rewrite nth_overflow, Z.bits_0; [done|].
  assert (zlen p <= i / 8) by (apply Z.div_le_lower_bound; lia). lia.
Qed.
Lemma pbit_zeros p n i : 0 <= i -> pbit (p ++ replicate n 0) i = pbit p i.
Proof.
  intros Hi. destruct (Z.lt_ge_cases i (8 * zlen p)); [by apply pbit_app_l|].
  rewrite (pbit_high p) by lia. unfold pbit.
  assert (zlen p <= i / 8) by (apply Z.div_le_lower_bound; lia).
  rewrite app_nth2 by lia. rewrite nth_lookup. destruct (replicate n 0 !! _) eqn:E; simpl.
  - apply lookup_replicate in E as [-> _]. apply Z.bits_0.
  - apply Z.bits_0.
Qed.

Lemma copy_bits_length n i cpy p : length (copy_bits n i cpy p) = length p.
Proof. revert i p. induction n as [|n IH]; intros i p; simpl; [done|]. by rewrite IH, length_insert. Qed.
Lemma copy_bits_ok n i cpy p : bytes_ok p -> bytes_ok (copy_bits n i cpy p).
Proof.
  revert i p. induction n as [|n IH]; intros i p Hp; simpl; [done|]. apply IH.
  apply Forall_insert; [done|]. apply u8_byte.
Qed.
Lemma same_byte_bit a b : 0 <= a -> 0 <= b -> (Z.to_nat (a / 8) =? Z.to_nat (b / 8))%nat = true ->
  (a mod 8 =? b mod 8) = (a =? b).
Proof.
  intros Ha Hb Hd. apply Nat.eqb_eq in Hd.
  assert (0 <= a / 8) by (apply Z.div_pos; lia). assert (0 <= b / 8) by (apply Z.div_pos; lia).
  pose proof (Z.div_mod a 8). pose proof (Z.div_mod b 8).
  destruct (Z.eqb_spec a b) as [->|]; [apply Z.eqb_refl|]. apply Z.eqb_neq. lia.
Qed.
Lemma pbit_update p pos v old op : 0 <= pos -> (Z.to_nat (pos / 8) < length p)%nat ->
  bit_op op (nth (Z.to_nat (pos / 8)) p 0) (pos mod 8) = Some v -> old = pbit p pos -> forall i, 0 <= i ->
  pbit (<[Z.to_nat (pos / 8) := u8 v]> p) i = if i =? pos then bit_after op old else pbit p i.
Proof.
  intros Hpos Hlen Hv -> i Hi. pose proof (Z.mod_pos_bound i 8). pose proof (Z.mod_pos_bound pos 8).
  rewrite pbit_insert by done. destruct (Nat.eqb_spec (Z.to_nat (i / 8)) (Z.to_nat (pos / 8))) as [Hd|Hd].
  - rewrite u8_testbit by lia. rewrite (bit_op_testbit _ _ _ _ _ Hv) by lia.
    rewrite same_byte_bit by (try lia; by apply Nat.eqb_eq). unfold pbit. rewrite Hd. done.
  - destruct (Z.eqb_spec i pos) as [->|]; [done|done].
Qed.
Lemma copy_bits_pbit n : forall i cpy p, (i + n <= 8 * length p)%nat -> forall q, 0 <= q ->
  pbit (copy_bits n i cpy p) q
  = if (Z.of_nat i <=? q) && (q <? Z.of_nat (i + n)) then Z.testbit cpy q else pbit p q.
Proof.
  induction n as [|n IH]; intros i cpy p Hl q Hq; cbn [copy_bits].
  { destruct (Z.leb_spec (Z.of_nat i) q), (Z.ltb_spec q (Z.of_nat (i + 0))); try done. lia. }
  assert (i / 8 < length p)%nat as Hd by (apply Nat.Div0.div_lt_upper_bound; lia).
  rewrite IH by (rewrite ?length_insert; lia).
  set (op := if BIT_CHECK cpy (Z.of_nat i) then BS_SET else BS_CLEAR).
  assert (Z.to_nat (Z.of_nat i / 8) = (i / 8)%nat) as Hdiv by (change 8 with (Z.of_nat 8); rewrite <- Nat2Z.inj_div; lia).
  assert (bit_op op (nth (Z.to_nat (Z.of_nat i / 8)) p 0) (Z.of_nat i mod 8)
    = Some (if BIT_CHECK cpy (Z.of_nat i) then BIT_SET (nth (i / 8) p 0) (Z.of_nat i mod 8)
            else BIT_CLEAR (nth (i / 8) p 0) (Z.of_nat i mod 8))) as Hop.
  { rewrite Hdiv. unfold op. by destruct (BIT_CHECK cpy (Z.of_nat i)). }
  pose proof (pbit_update p (Z.of_nat i) _ _ op ltac:(lia) ltac:(lia) Hop eq_refl q Hq) as Hup.
  rewrite Hdiv in Hup. rewrite Hup.
  assert (bit_after op (pbit p (Z.of_nat i)) = Z.testbit cpy (Z.of_nat i)) as ->.
  { unfold op. rewrite BIT_CHECK_testbit by lia. by destruct (Z.testbit cpy (Z.of_nat i)). }
  destruct (Z.leb_spec (Z.of_nat (S i)) q), (Z.ltb_spec q (Z.of_nat (S i + n))), (Z.leb_spec (Z.of_nat i) q),
    (Z.ltb_spec q (Z.of_nat (i + S n))), (Z.eqb_spec q (Z.of_nat i)) as [->|]; simpl; try done; lia.
Qed.

(** The growing step: well-formed, holds the position, same set. *)
Lemma bs_grow_spec bs pos : bs_wf bs -> 0 <= pos ->
  bs_wf (bs_grow bs pos) /\ pos < bs_len (bs_grow bs pos) /\
  forall q, 0 <= q -> bs_isset (bs_grow bs pos) q = bs_isset bs q.
Proof.
  intros Hwf Hpos. assert (forall bs', bs_wf bs' /\ pos < bs_len bs' /\ (forall q, 0 <= q ->
      match bits bs' with Inline b => Z.testbit b q | OnHeap p => pbit p q end
      = match bits bs with Inline b => Z.testbit b q | OnHeap p => pbit p q end) ->
    bs_wf bs' /\ pos < bs_len bs' /\ forall q, 0 <= q -> bs_isset bs' q = bs_isset bs q) as Hgo.
  { intros bs' (Hw & Hp & Hq). split; [done|split; [done|]]. intros q Hq0. rewrite !bs_isset_wf by done. auto. }
  apply Hgo. unfold bs_grow. pose proof Hwf as Hwf'. unfold bs_wf in Hwf. unfold BS_MAX in *.
  destruct (bits bs) as [b|p] eqn:Hbits; destruct (Z.leb_spec 64 pos) as [Hp|Hp].
  - destruct Hwf as [Hl Hb]. rewrite Hl.
    destruct (bs_growp_spec [] 64 pos) as (p' & -> & Hpos' & Hok & _ & Hz); [done|lia|by simpl|].
    cbn [bits bs_len]. unfold bs_wf. cbn [bits bs_len]. rewrite copy_bits_length.
    repeat split; [unfold BS_MAX; lia| by apply copy_bits_ok, Hok |done|].
    intros q Hq. rewrite copy_bits_pbit by lia.
    destruct (Z.leb_spec (Z.of_nat 0) q), (Z.ltb_spec q (Z.of_nat (0 + 64))); simpl; try done; try lia.
    rewrite (testbit_small b 64 q) by lia. rewrite <- (take_drop 8 p').
    change (Z.to_nat (64 / 8)) with 8%nat in Hz. rewrite Hz, pbit_zeros by done. apply pbit_high.
    rewrite length_take. lia.
  - destruct Hwf as [Hl Hb]. rewrite Hbits. split; [done|split; [lia|done]].
  - destruct Hwf as (Hmax & Hl & Hok). destruct (Z.lt_ge_cases pos (bs_len bs)).
    { unfold bs_growp. rewrite (proj2 (Z.ltb_lt _ _)) by done. cbn [bits bs_len].
      split; [|done]. unfold bs_wf, BS_MAX. cbn. auto. }
    destruct (bs_growp_spec p (bs_len bs) pos) as (p' & -> & Hpos' & Hok' & Ht & Hz).
    { rewrite Hl, Z.mul_comm. apply Z.mod_mul. lia. }
    { lia. }
    { rewrite Hl, Z.mul_comm, Z.div_mul by lia. done. }
    cbn [bits bs_len]. split; [|split; [done|]].
    + unfold bs_wf, BS_MAX. cbn. split; [lia|]. split; [done|]. by apply Hok'.
    + intros q Hq. rewrite <- (take_drop (length p) p'), Ht.
      replace (Z.to_nat (bs_len bs / 8)) with (length p) in Hz by (rewrite Hl, Z.mul_comm, Z.div_mul by lia; lia).
      rewrite Hz. by apply pbit_zeros.
  - rewrite Hbits. destruct Hwf as (Hmax & Hl & Hok). split; [done|split; [lia|done]].
Qed.
End AllocLemmas.

Lemma bs_clone_wf bs : bs_wf bs -> bs_clone bs = bs.
Proof.
  unfold bs_wf, bs_clone. destruct bs as [[b|p] l]; cbn; [done|]. intros (_ & Hl & _).
  f_equal. f_equal. apply take_ge. rewrite Hl, Z.mul_comm, Z.div_mul; lia.
Qed.
Lemma byte_zero_bits x : is_byte x -> (forall i, 0 <= i < 8 -> Z.testbit x i = false) -> x = 0.
Proof.
  intros Hx H. apply Z.bits_inj'. intros i Hi. rewrite Z.bits_0.
  destruct (Z.lt_ge_cases i 8); [apply H; lia|]. apply (testbit_small x 8); [done|lia].
Qed.
Lemma bs_isempty_wf bs : bs_wf bs -> bs_isempty bs = true <-> forall q, 0 <= q -> bs_isset bs q = false.
Proof.
  intros Hwf. assert (bs_isempty bs = true <-> forall q, 0 <= q ->
    match bits bs with Inline b => Z.testbit b q | OnHeap p => pbit p q end = false) as ->.
  2:{ split; intros Hall q Hq; [rewrite bs_isset_wf by done; auto|rewrite <- bs_isset_wf by done; auto]. }
  unfold bs_isempty, bs_wf in *. destruct (bits bs) as [b|p].
  - rewrite Z.eqb_eq. split; [intros -> q _; apply Z.bits_0|]. intros H. apply Z.bits_inj'.
    intros i Hi. rewrite Z.bits_0. auto.
  - destruct Hwf as (_ & Hl & Hok). rewrite take_ge by (rewrite Hl, Z.mul_comm, Z.div_mul; lia).
    rewrite forallb_forall. split.
    + intros H q Hq. unfold pbit. destruct (Nat.lt_ge_cases (Z.to_nat (q / 8)) (length p)) as [Hlt|Hge].
      * specialize (H _ (nth_In p 0 Hlt)). apply Z.eqb_eq in H. rewrite H. apply Z.bits_0.
      * rewrite nth_overflow by done. apply Z.bits_0.
    + intros H x Hx. apply Z.eqb_eq. apply In_nth with (d := 0) in Hx as (n & Hn & <-).
      apply byte_zero_bits; [by apply nth_ok|]. intros i Hi. specialize (H (8 * Z.of_nat n + i) ltac:(lia)).
      unfold pbit in H. replace (8 * Z.of_nat n + i) with (i + Z.of_nat n * 8) in H by lia.
      rewrite Z.div_add, Z_mod_plus_full, (Z.mod_small i), (Z.div_small i), Z.add_0_l, Nat2Z.id in H by lia. done.
Qed.

Lemma bs_new_wf len : 0 <= len -> bs_wf (bs_new len) /\ forall q, 0 <= q -> bs_isset (bs_new len) q = false.
Proof.
  intros Hlen. assert (bs_wf (bs_new len)) as Hwf.
  { unfold bs_new, bs_wf, BS_MAX. destruct (Z.ltb_spec 64 len); cbn; [|done].
    assert (ALIGN_UP8 len / 8 * 8 = ALIGN_UP8 len) as Ha by (unfold ALIGN_UP8; rewrite Z.div_mul; lia).
    assert (len <= ALIGN_UP8 len).
    { unfold ALIGN_UP8. pose proof (Z.div_mod (len + 8 - 1) 8). pose proof (Z.mod_pos_bound (len + 8 - 1) 8). lia. }
    rewrite length_replicate. split; [lia|]. split; [|by apply Forall_replicate]. lia. }
  split; [done|]. intros q Hq. rewrite bs_isset_wf by done. unfold bs_new.
  destruct (BS_MAX <? len); cbn; [|apply Z.bits_0].
  change (replicate (Z.to_nat ((ALIGN_UP8 len / 8) `max` 1)) 0) with ([] ++ replicate (Z.to_nat ((ALIGN_UP8 len / 8) `max` 1)) 0). rewrite pbit_zeros by done. apply pbit_high. simpl. lia.
Qed.

Lemma bs_modify_correct `{Allocator} bs pos op : bs_wf bs -> 0 <= pos -> known_op op = true ->
  fst (bs_modify bs pos op) = IN3_OK /\ bs_wf (snd (bs_modify bs pos op)) /\
  forall q, 0 <= q -> bs_isset (snd (bs_modify bs pos op)) q
    = if q =? pos then bit_after op (bs_isset bs pos) else bs_isset bs q.
Proof.
  intros Hwf Hpos Hop. unfold bs_modify. destruct (bs_grow_spec bs pos Hwf Hpos) as (Hwf1 & Hlen & Hsame).
  rewrite <- (Hsame pos) by done. set (bs1 := bs_grow bs pos) in *.
  assert (forall q, 0 <= q -> (if q =? pos then bit_after op (bs_isset bs1 pos) else bs_isset bs q)
     = (if q =? pos then bit_after op (bs_isset bs1 pos) else bs_isset bs1 q)) as Heq
    by (intros q Hq; by rewrite (Hsame q)).
  rewrite bs_isset_wf in * by done. pose proof Hwf1 as Hwf2. unfold bs_wf in Hwf2. unfold BS_MAX in Hwf2.
  destruct (bits bs1) as [b|p] eqn:Hb.
  - destruct Hwf2 as [Hl Hr]. destruct (bit_op_known op b pos Hop) as [v Hv]. rewrite Hv. cbn [fst snd].
    assert (bs_wf (mk_bs (Inline (u64 v)) (bs_len bs1))) as Hw by (split; [done|apply u64_range]).
    split; [done|]. split; [done|]. intros q Hq. rewrite Heq, !bs_isset_wf by done. cbn [bits]. rewrite Hb.
    destruct (Z.lt_ge_cases q 64).
    + rewrite u64_testbit by lia. apply (bit_op_testbit _ _ _ _ _ Hv); lia.
    + rewrite (testbit_small (u64 v) 64 q (u64_range v)), (testbit_small b 64 q Hr) by lia.
      destruct (Z.eqb_spec q pos); [lia|done].
  - destruct Hwf2 as (Hmax & Hl & Hok). destruct (bit_op_known op (nth (Z.to_nat (pos / 8)) p 0) (pos mod 8) Hop) as [v Hv].
    rewrite Hv. cbn [fst snd].
    assert (bs_wf (mk_bs (OnHeap (<[Z.to_nat (pos / 8):=u8 v]> p)) (bs_len bs1))) as Hw.
    { unfold bs_wf, BS_MAX. cbn. rewrite length_insert. split; [done|]. split; [done|].
      apply Forall_insert; [done|apply u8_byte]. }
    split; [done|]. split; [done|]. intros q Hq. rewrite Heq, !bs_isset_wf by done. cbn [bits]. rewrite Hb.
    apply (pbit_update p pos v _ op); try done.
    assert (pos / 8 < zlen p) by (apply Z.div_lt_upper_bound; lia). assert (0 <= pos / 8) by (apply Z.div_pos; lia). lia.
Qed.

(** C40. [bs_modify] on a well-formed bitset: a known operation returns [IN3_OK], keeps the
    representation invariant (also when the set moves from the inline word to the heap or the
    heap block grows) and changes exactly the bit at [pos]: set, cleared or toggled. An unknown
    operation returns [IN3_ENOTSUP] and changes no bit. *)
Theorem bs_modify_spec (A : Allocator) (bs : bitset_t) (pos op : Z) (Hwf : bs_wf bs) (Hpos : 0 <= pos) :
  bs_wf (snd (bs_modify bs pos op)) /\
  fst (bs_modify bs pos op) = (if known_op op then IN3_OK else IN3_ENOTSUP) /\
  forall q, 0 <= q -> bs_isset (snd (bs_modify bs pos op)) q
    = if (q =? pos) && known_op op then bit_after op (bs_isset bs pos) else bs_isset bs q.
Proof.
  destruct (known_op op) eqn:Hop.
  - destruct (bs_modify_correct bs pos op Hwf Hpos Hop) as (? & ? & Hq). split; [done|]. split; [done|].
    intros q Hq0. rewrite andb_true_r. by apply Hq.
  - unfold bs_modify. destruct (bs_grow_spec bs pos Hwf Hpos) as (Hwf1 & _ & Hsame).
    destruct (bits (bs_grow bs pos)); rewrite bit_op_unknown by done; cbn [fst snd];
      (split; [done|]; split; [done|]; intros q Hq; rewrite andb_false_r; by apply Hsame).
Qed.

Lemma bs_modify_spec_witness :
  bs_wf (bs_new 10) /\ bs_wf (snd (bs_modify (bs_new 10) 100 BS_SET)) /\
  bs_isset (snd (bs_modify (bs_new 10) 100 BS_SET)) 100 = true.
Proof.
  assert (bs_wf (bs_new 10)) as Hwf by (apply bs_new_wf; lia).
  destruct (bs_modify_spec debug_allocator (bs_new 10) 100 BS_SET Hwf ltac:(lia)) as (H1 & _ & H2).
  split; [exact Hwf|]. split; [exact H1|]. rewrite (H2 100) by lia. reflexivity.
Defined.

Lemma from_ull_loop_spec `{Allocator} n : forall j u bs, bs_wf bs ->
  bs_wf (from_ull_loop n j u bs) /\
  forall q, 0 <= q -> bs_isset (from_ull_loop n j u bs) q
    = bs_isset bs q || ((Z.of_nat j <=? q) && (q <? Z.of_nat (j + n)) && Z.testbit u q).
Proof.
  induction n as [|n IH]; intros j u bs Hwf; cbn [from_ull_loop].
  { split; [done|]. intros q Hq. replace (j + 0)%nat with j by lia.
    destruct (Z.leb_spec (Z.of_nat j) q), (Z.ltb_spec q (Z.of_nat j)); try lia; by rewrite orb_false_r. }
  assert (bs_wf (if BIT_CHECK u (Z.of_nat j) then bs_set bs (Z.of_nat j) else bs) /\
    forall q, 0 <= q -> bs_isset (if BIT_CHECK u (Z.of_nat j) then bs_set bs (Z.of_nat j) else bs) q
      = bs_isset bs q || ((q =? Z.of_nat j) && Z.testbit u q)) as [Hwf1 Hq1].
  { rewrite BIT_CHECK_testbit by lia. destruct (Z.testbit u (Z.of_nat j)) eqn:E.
    - destruct (bs_modify_correct bs (Z.of_nat j) BS_SET Hwf ltac:(lia) eq_refl) as (_ & Hw & Hs). split; [done|].
      intros q Hq. unfold bs_set. rewrite Hs by done. destruct (Z.eqb_spec q (Z.of_nat j)) as [->|].
      + rewrite E. simpl. by rewrite orb_true_r.
      + simpl. by rewrite orb_false_r.
    - split; [done|]. intros q Hq. destruct (Z.eqb_spec q (Z.of_nat j)) as [->|]; [rewrite E|]; by rewrite orb_false_r. }
  destruct (IH (S j) u _ Hwf1) as [Hw Hq]. split; [done|]. intros q Hq0. rewrite Hq, Hq1 by done.
  rewrite <- orb_assoc. f_equal.
  destruct (Z.testbit u q); rewrite ?andb_true_r, ?andb_false_r; [|done].
  destruct (Z.eqb_spec q (Z.of_nat j)), (Z.leb_spec (Z.of_nat (S j)) q), (Z.ltb_spec q (Z.of_nat (S j + n))),
    (Z.leb_spec (Z.of_nat j) q), (Z.ltb_spec q (Z.of_nat (j + S n))); simpl; try done; lia.
Qed.

(** [bs_from_ull u l] is the set of the bits of the 64 bit word [u], for every requested
    length; it is empty for [bs_isempty] exactly when [u] is 0, and [bs_clone] copies it. *)
Theorem bs_from_ull_spec (A : Allocator) (u l : Z) (Hu : 0 <= u < 2 ^ 64) (Hl : 0 <= l) :
  bs_wf (bs_from_ull u l) /\
  (forall q, 0 <= q -> bs_isset (bs_from_ull u l) q = Z.testbit u q) /\
  (bs_isempty (bs_from_ull u l) = true <-> u = 0) /\
  bs_clone (bs_from_ull u l) = bs_from_ull u l.
Proof.
  destruct (bs_new_wf l Hl) as [Hwn Hqn]. destruct (from_ull_loop_spec 64 0 u (bs_new l) Hwn) as [Hw Hq].
  unfold bs_from_ull. remember (from_ull_loop 64 0 u (bs_new l)) as r eqn:Hr. clear Hr.
  assert (forall q, 0 <= q -> bs_isset r q = Z.testbit u q) as Hbits.
  { intros q Hq0. rewrite Hq, Hqn, orb_false_l by done.
    destruct (Z.leb_spec (Z.of_nat 0) q), (Z.ltb_spec q (Z.of_nat (0 + 64))); try lia; [done|].
    symmetry. apply (testbit_small u 64); lia. }
  split; [done|]. split; [done|]. split; [|by apply bs_clone_wf].
  rewrite bs_isempty_wf by done. split.
  - intros H. apply Z.bits_inj'. intros i Hi. rewrite <- Hbits, Z.bits_0 by done. auto.
  - intros -> q Hq0. rewrite Hbits by done. apply Z.bits_0.
Qed.

Lemma bs_from_ull_spec_witness :
  (forall q, 0 <= q -> bs_isset (bs_from_ull 5 100) q = Z.testbit 5 q) /\
  bs_clone (bs_from_ull 5 100) = bs_from_ull 5 100.
Proof.
  destruct (bs_from_ull_spec debug_allocator 5 100 ltac:(lia) ltac:(lia)) as (_ & H1 & _ & H2).
  split; [exact H1|exact H2].
Defined.
