(* ===== verification/Rlp.v ===== *)
(** * verifier/eth1/nano/rlp.c: the recursive length prefix encoding

    The encoder appends to a byte builder; the decoder works on a slice of memory and hands out
    slices of it.  Memory is a total function from 64 bit addresses to bytes, so a read past a
    buffer reads whatever is there. *)
From S2P Require Import Prelude Utils Bytes.

(** ** Slices: a [bytes_t] as an address and a length *)
Record slice := mk_slice { s_data : Z; s_len : Z }.
Abbreviation memory := (Z -> Z).

(** The bytes of [l] are in memory at address [a]. *)
Definition mem_at (m : memory) (a : Z) (l : list Z) : Prop :=
  forall i, (i < length l)%nat -> m (a + Z.of_nat i) = nth i l 0.
(** The memory that holds [l] at address 0 and zeros behind it. *)
Definition mem_of (l : list Z) : memory := fun a => rd l a.
Definition slice_in (d b : slice) : Prop :=
  s_data b <= s_data d /\ s_data d + s_len d <= s_data b + s_len b.

(** What a decoder call does: return, run into a shift that C leaves undefined, or still run. *)
Inductive rlp_result :=
  | RDone (ret : Z) (dst : option slice)
  | RUndef
  | RFuel.

(** [ref d b l s r] sets [d] and then checks that it lies in [b]; with [alias] the two pointers
    are the same, so that [b] is already overwritten when it is compared with. *)
Definition ref (alias : bool) (b : slice) (l s r : Z) : rlp_result :=
  let d := mk_slice s (u32 l) in
  let b := if alias then d else b in
  let e := u64 (s + l) in
  RDone (if (s_data b <=? s) && (s_data b <=? e) && (e <=? s_data b + s_len b) then r else -1) (Some d).

(** [for (l = 0, n = 0; n < k; n++) l |= data[n] << (8 * (k - n - 1))]: the byte is an [int]
    when it is shifted, and converted to [size_t] afterwards. *)
Fixpoint long_len (cnt : nat) (n k : Z) (m : memory) (a : Z) (l : Z) : option Z :=
  match cnt with
  | O => Some l
  | S c =>
      let sh := 8 * (k - n - 1) in
      if 32 <=? sh then None
      else long_len c (n + 1) k m a (Z.lor l (u64 (i32 (Z.shiftl (m (a + n)) sh))))
  end.

Fixpoint rlp_loop (fuel : nat) (m : memory) (alias : bool) (b : slice) (index i p : Z) : rlp_result :=
  match fuel with
  | O => RFuel
  | S f =>
      if i <? s_len b then
        let data := s_data b in
        let c := m (data + i) in
        let hit := i32 p =? index in
        if c <? 0x80 then
          if hit then ref alias b 1 (data + i) 1
          else rlp_loop f m alias b index (u64 (i + 1)) (p + 1)
        else if c <? 0xb8 then
          if hit then ref alias b (c - 0x80) (data + i + 1) 1
          else rlp_loop f m alias b index (u64 (i + (c - 0x80) + 1)) (p + 1)
        else if c <? 0xc0 then
          match long_len (Z.to_nat (c - 0xb7)) 0 (c - 0xb7) m (data + i + 1) 0 with
          | None => RUndef
          | Some l =>
              if hit then ref alias b l (data + i + c - 0xb7 + 1) 1
              else rlp_loop f m alias b index (u64 (i + (l + c - 0xb7) + 1)) (p + 1)
          end
        else if c <? 0xf8 then
          let l := c - 0xc0 in
          if hit then ref alias b l (data + i + 1) 2
          else rlp_loop f m alias b index (u64 (i + l + 1)) (p + 1)
        else
          match long_len (Z.to_nat (c - 0xf7)) 0 (c - 0xf7) m (data + i + 1) 0 with
          | None => RUndef
          | Some l =>
              if hit then ref alias b l (data + i + c - 0xf7 + 1) 2
              else rlp_loop f m alias b index (u64 (i + (l + c - 0xf7) + 1)) (p + 1)
          end
      else
        RDone (if index <? 0 then (if i =? s_len b then i32 p else -3)
               else if s_len b <? i then -1 else 0) None
  end.

(** One round per byte is enough as long as the position advances. *)
Definition rlp_decode (m : memory) (alias : bool) (b : slice) (index : Z) : rlp_result :=
  rlp_loop (S (Z.to_nat (s_len b))) m alias b index 0 0.

(** [rlp_decode_in_list b index dst]; [alias] when the caller passes the same pointer twice.  The
    second decoding always reads and writes [dst]. *)
Definition rlp_decode_in_list (m : memory) (alias : bool) (b : slice) (index : Z) : rlp_result :=
  match rlp_decode m alias b 0 with
  | RDone r dst =>
      if negb (r =? 2) then RDone 0 dst
      else match dst with Some d => rlp_decode m true d index | None => RUndef end
  | r => r
  end.

Definition rlp_decode_len (m : memory) (b : slice) : rlp_result := rlp_decode m false b (-1).

(** ** The encoder *)
Section Alloc.
Context `{Allocator}.

Definition rlp_add_length (bb : bytes_builder_t) (len offset : Z) : option bytes_builder_t :=
  if len <? 56 then bb_write_byte bb (offset + len)
  else if len <? 0x100 then bb ← bb_write_byte bb (offset + 55 + 1); bb_write_byte bb len
  else if len <? 0x10000 then bb ← bb_write_byte bb (offset + 55 + 2); bb_write_long_be bb len 2
  else if len <? 0x1000000 then bb ← bb_write_byte bb (offset + 55 + 3); bb_write_long_be bb len 3
  else bb ← bb_write_byte bb (offset + 55 + 4); bb_write_long_be bb len 4.

Definition rlp_encode_item (bb : bytes_builder_t) (val : list Z) : option bytes_builder_t :=
  bb ← (if (length val =? 1)%nat && (rd val 0 <? 0x80) then Some bb
        else if zlen val <? 56 then bb_write_byte bb (zlen val + 0x80)
        else rlp_add_length bb (zlen val) 0x80);
  bb_write_fixed_bytes bb val.

Definition rlp_encode_list (bb : bytes_builder_t) (val : list Z) : option bytes_builder_t :=
  bb ← rlp_add_length bb (zlen val) 0xc0;
  bb_write_fixed_bytes bb val.

(** [uint8_t d[4]; bytes_builder_t ll = {.bsize = 4, .b = {.len = 0, .data = d}}]: a builder
    over a block on the stack, which must not be reallocated. *)
Definition stack_builder : bytes_builder_t := mk_bb 4 (Some (malloc 4)) 0 false.
Definition bb_content (bb : bytes_builder_t) : option (list Z) :=
  d ← bb_data bb; read_at d 0 (Z.to_nat (bb_len bb)).

Definition rlp_encode_to_list (bb : bytes_builder_t) : option bytes_builder_t :=
  ll ← rlp_add_length stack_builder (bb_len bb) 0xc0;
  d ← bb_content ll;
  bb_replace bb 0 0 d.

Definition rlp_encode_to_item (bb : bytes_builder_t) : option bytes_builder_t :=
  if (bb_len bb =? 1) && (rd (default [] (bb_data bb)) 0 <? 0x80) then Some bb
  else
    ll ← (if bb_len bb <? 56 then bb_write_byte stack_builder (bb_len bb + 0x80)
          else rlp_add_length stack_builder (bb_len bb) 0x80);
    d ← bb_content ll;
    bb_replace bb 0 0 d.
End Alloc.

(** ** Specification: the RLP encoding of the yellow paper *)
Definition len_bytes (n : Z) : nat :=
  if n <? 0x100 then 1 else if n <? 0x10000 then 2 else if n <? 0x1000000 then 3 else 4.
Definition rlp_header (offset n : Z) : list Z :=
  if n <? 56 then [offset + n]
  else (offset + 55 + Z.of_nat (len_bytes n)) :: be_bytes (len_bytes n) n.
Definition rlp_string (l : list Z) : list Z :=
  match l with
  | [x] => if x <? 0x80 then [x] else 0x81 :: l
  | _ => rlp_header 0x80 (zlen l) ++ l
  end.
Definition rlp_list (payload : list Z) : list Z := rlp_header 0xc0 (zlen payload) ++ payload.

(** An item of an encoded sequence: a byte string, or a list given by its encoded payload. *)
Inductive rlp_item := Str (l : list Z) | Lst (payload : list Z).
Definition item_bytes (it : rlp_item) : list Z := match it with Str l | Lst l => l end.
Definition item_kind (it : rlp_item) : Z := match it with Str _ => 1 | Lst _ => 2 end.
Definition enc_item (it : rlp_item) : list Z :=
  match it with Str l => rlp_string l | Lst p => rlp_list p end.
Definition enc_items (its : list rlp_item) : list Z := concat (map enc_item its).

(** ** Lemmas: encoder *)
Lemma len_bytes_spec n : 0 <= n < 2 ^ 32 -> (1 <= len_bytes n <= 4)%nat /\ n < 256 ^ Z.of_nat (len_bytes n).
Proof. unfold len_bytes. intros. bool_cases. Qed.
Lemma rlp_header_length offset n : (1 <= length (rlp_header offset n) <= 5)%nat.
Proof.
  unfold rlp_header, len_bytes. bool_cases; cbn [length]; rewrite ?length_be_bytes; lia.
Qed.

Section AllocLemmas.
Context `{Allocator}.

Lemma rlp_add_length_rep bb c len offset : bb_rep bb c -> zlen c + 5 < 2 ^ 32 -> 0 <= len < 2 ^ 32 ->
  0 <= offset <= 0xc0 ->
  exists bb', rlp_add_length bb len offset = Some bb' /\ bb_rep bb' (c ++ rlp_header offset len).
Proof.
  intros Hrep Hc Hlen Hoff. unfold rlp_add_length, rlp_header, len_bytes.
  assert (forall k v, (1 <= k <= 4)%nat -> 0 <= v ->
    exists bb', (bb1 ← bb_write_byte bb (offset + 55 + Z.of_nat k); bb_write_long_be bb1 v k) = Some bb' /\
      bb_rep bb' (c ++ (offset + 55 + Z.of_nat k) :: be_bytes k v)) as Hlong.
  { intros k v Hk Hv. destruct (bb_write_byte_rep bb c (offset + 55 + Z.of_nat k)) as (bb1 & -> & Hr1); [done|lia|].
    rewrite u8_small in Hr1 by (unfold is_byte; lia). simpl.
    destruct (bb_write_long_be_rep bb1 _ v k Hr1) as (bb2 & -> & Hr2); try lia; [rewrite length_snoc; lia|].
    exists bb2. split; [done|]. by rewrite <- app_assoc in Hr2. }
  destruct (Z.ltb_spec len 56).
  { destruct (bb_write_byte_rep bb c (offset + len)) as (bb1 & -> & Hr1); [done|lia|].
    rewrite u8_small in Hr1 by (unfold is_byte; lia). eauto. }
  destruct (Z.ltb_spec len 0x100).
  { destruct (bb_write_byte_rep bb c (offset + 55 + 1)) as (bb1 & -> & Hr1); [done|lia|].
    rewrite u8_small in Hr1 by (unfold is_byte; lia). simpl.
    destruct (bb_write_byte_rep bb1 _ len Hr1) as (bb2 & -> & Hr2); [rewrite length_snoc; lia|].
    exists bb2. split; [done|]. by rewrite <- app_assoc in Hr2. }
  destruct (Z.ltb_spec len 0x10000); [apply (Hlong 2%nat len); lia|].
  destruct (Z.ltb_spec len 0x1000000); [apply (Hlong 3%nat len); lia|apply (Hlong 4%nat len); lia].
Qed.

Lemma rlp_encode_list_rep bb c val : bb_rep bb c -> zlen c + 5 + zlen val < 2 ^ 32 ->
  exists bb', rlp_encode_list bb val = Some bb' /\ bb_rep bb' (c ++ rlp_list val).
Proof.
  intros Hrep Hmax. unfold rlp_encode_list, rlp_list.
  destruct (rlp_add_length_rep bb c (zlen val) 0xc0) as (bb1 & -> & Hr1); [done|lia|lia|lia|]. simpl.
  pose proof (rlp_header_length 0xc0 (zlen val)).
  destruct (bb_write_fixed_bytes_rep bb1 _ val Hr1) as (bb2 & -> & Hr2); [rewrite length_app; lia|].
  exists bb2. by rewrite <- app_assoc in Hr2.
Qed.

Lemma rlp_string_unfold val : rlp_string val =
  (if (length val =? 1)%nat && (rd val 0 <? 0x80) then [] else rlp_header 0x80 (zlen val)) ++ val.
Proof.
  destruct val as [|x [|y t]]; [done| |done]. simpl. change (rd [x] 0) with x.
  destruct (x <? 128); done.
Qed.
Lemma rlp_encode_item_rep bb c val : bb_rep bb c -> zlen c + 5 + zlen val < 2 ^ 32 ->
  exists bb', rlp_encode_item bb val = Some bb' /\ bb_rep bb' (c ++ rlp_string val).
Proof.
  intros Hrep Hmax. unfold rlp_encode_item. rewrite rlp_string_unfold.
  assert (forall bb1 h, (length h <= 5)%nat -> bb_rep bb1 (c ++ h) ->
    exists bb', bb_write_fixed_bytes bb1 val = Some bb' /\ bb_rep bb' (c ++ h ++ val)) as Hfin.
  { intros bb1 h Hh Hr1. rewrite app_assoc. apply bb_write_fixed_bytes_rep; [done|]. rewrite length_app. lia. }
  destruct (_ && _); [by apply (Hfin bb []); [simpl; lia|rewrite app_nil_r]|].
  pose proof (rlp_header_length 0x80 (zlen val)).
  destruct (rlp_add_length_rep bb c (zlen val) 0x80) as (bb1 & Hadd & Hr1); [done|lia|lia|lia|].
  assert ((if zlen val <? 56 then bb_write_byte bb (zlen val + 0x80) else rlp_add_length bb (zlen val) 0x80)
          = Some bb1) as ->.
  { rewrite <- Hadd. unfold rlp_add_length. destruct (zlen val <? 56); [|done]. f_equal. lia. }
  simpl. apply Hfin; [lia|done].
Qed.

(** The stack builder holds headers of up to three bytes and must not grow. *)
Definition stack_rep (bb : bytes_builder_t) (c : list Z) : Prop :=
  bb_len bb = zlen c /\ bb_bsize bb = 4 /\ bb_heap bb = false /\
  exists d, bb_data bb = Some d /\ length d = 4%nat /\ take (length c) d = c /\ (length c <= 4)%nat.
Lemma stack_put bb c src : stack_rep bb c -> src <> [] -> (length c + length src < 4)%nat ->
  exists bb', (bb ← bb_check_size bb (zlen src); bb_put bb src (zlen src)) = Some bb' /\ stack_rep bb' (c ++ src).
Proof.
  intros (Hlen & Hsz & Hheap & d & Hd & Hld & Ht & Hc) Hne Hl. unfold bb_check_size. rewrite Hlen, Hsz, u64_small by lia.
  rewrite (proj2 (Z.ltb_lt _ 4)) by lia. rewrite orb_true_r. simpl. unfold bb_put. rewrite Hd, Hlen, Nat2Z.id. simpl.
  destruct (memcpy_at d (length c) src) as [d'|] eqn:Hm.
  2:{ unfold memcpy_at in Hm. destruct (Nat.leb_spec (length c + length src) (length d)); [done|lia]. }
  simpl. eexists. split; [done|]. split; [simpl; rewrite u32_small, length_app by lia; lia|].
  split; [done|]. split; [done|]. exists d'. split; [done|]. split; [by rewrite (memcpy_at_length _ _ _ _ Hm)|].
  rewrite length_app. split; [|lia]. by rewrite (memcpy_at_take _ _ _ _ Hm), Ht.
Qed.
Lemma stack_builder_rep : stack_rep stack_builder [].
Proof. repeat split. exists (malloc 4). rewrite malloc_length. repeat split; simpl; lia. Qed.
Lemma stack_write_byte bb c v : stack_rep bb c -> (length c < 3)%nat -> is_byte v ->
  exists bb', bb_write_byte bb v = Some bb' /\ stack_rep bb' (c ++ [v]).
Proof. intros Hr Hc Hv. unfold bb_write_byte. rewrite u8_small by done. apply (stack_put bb c [v]); [done|done|simpl; lia]. Qed.
Lemma stack_content bb c : stack_rep bb c -> bb_content bb = Some c.
Proof.
  intros (Hlen & _ & _ & d & Hd & Hld & Ht & Hc). unfold bb_content, read_at. rewrite Hd, Hlen, Nat2Z.id. simpl.
  rewrite (proj2 (Nat.leb_le _ _)) by lia. by rewrite drop_0, Ht.
Qed.
Lemma stack_write_long_be bb v : stack_rep bb [v] -> forall w, 0 <= w ->
  exists bb', bb_write_long_be bb w 2 = Some bb' /\ stack_rep bb' (v :: be_bytes 2 w).
Proof.
  intros Hr w Hw. destruct (stack_put bb [v] (be_bytes 2 w) Hr) as (bb' & Hput & Hr'); [by destruct w|simpl; lia|].
  exists bb'. split; [|done]. rewrite <- Hput. change (zlen (be_bytes 2 w)) with 2. unfold bb_write_long_be.
  change (Z.of_nat 2) with 2. destruct Hr as (Hlen & Hsz & Hheap & d & Hd & Hld & Ht & Hc).
  unfold bb_check_size. rewrite Hlen, Hsz. change (u64 (zlen [v] + 2) <? 4) with true. cbn [orb mbind option_bind].
  change (2 =? 0) with false. cbn [orb mbind option_bind]. unfold bb_put. rewrite Hd, Hlen. cbn [mbind option_bind].
  rewrite Nat2Z.id, long_be_loop_spec by (simpl; lia). rewrite memcpy_at_Some by (simpl; lia).
  cbn [mbind option_bind]. rewrite Z.div_1_r. done.
Qed.
(** Up to 65535 bytes the header fits the four byte block on the stack. *)
Lemma rlp_add_length_stack len offset : 0 <= len < 0x10000 -> 0 <= offset <= 0xc0 ->
  exists ll, rlp_add_length stack_builder len offset = Some ll /\ bb_content ll = Some (rlp_header offset len).
Proof.
  intros Hlen Hoff. unfold rlp_add_length, rlp_header, len_bytes. pose proof stack_builder_rep as R0.
  destruct (Z.ltb_spec len 56).
  { destruct (stack_write_byte _ _ (offset + len) R0) as (b1 & -> & R1); [simpl; lia|unfold is_byte; lia|].
    exists b1. split; [done|]. by apply stack_content. }
  destruct (Z.ltb_spec len 0x100).
  { destruct (stack_write_byte _ _ (offset + 55 + 1) R0) as (b1 & -> & R1); [simpl; lia|unfold is_byte; lia|].
    destruct (stack_write_byte _ _ len R1) as (b2 & Hb2 & R2); [simpl; lia|unfold is_byte; lia|].
    exists b2. split; [exact Hb2|]. rewrite (stack_content _ _ R2). cbn. do 2 f_equal. rewrite Z.mod_small by lia. done. }
  rewrite (proj2 (Z.ltb_lt len 0x10000)) by lia.
  destruct (stack_write_byte _ _ (offset + 55 + 2) R0) as (b1 & -> & R1); [simpl; lia|unfold is_byte; lia|].
  destruct (stack_write_long_be _ _ R1 len) as (b2 & Hb2 & R2); [lia|].
  exists b2. split; [exact Hb2|]. by rewrite (stack_content _ _ R2).
Qed.
Lemma rlp_encode_to_list_rep bb c : bb_rep bb c -> zlen c < 0x10000 ->
  exists bb', rlp_encode_to_list bb = Some bb' /\ bb_rep bb' (rlp_list c).
Proof.
  intros Hrep Hc. unfold rlp_encode_to_list. pose proof Hrep as [Hlen _]. rewrite Hlen.
  destruct (rlp_add_length_stack (zlen c) 0xc0) as (ll & -> & Hll); [lia|lia|]. cbn [mbind option_bind]. rewrite Hll.
  pose proof (rlp_header_length 0xc0 (zlen c)).
  destruct (bb_replace_rep bb c 0 0 (rlp_header 0xc0 (zlen c))) as (bb' & Hbb & Hr'); [done|lia|lia|].
  exists bb'. done.
Qed.
Lemma rlp_encode_to_item_rep bb c : bb_rep bb c -> zlen c < 0x10000 -> c <> [] ->
  exists bb', rlp_encode_to_item bb = Some bb' /\ bb_rep bb' (rlp_string c).
Proof.
  intros Hrep Hc Hne. unfold rlp_encode_to_item. pose proof Hrep as [Hlen Hd]. rewrite Hlen, rlp_string_unfold.
  assert ((zlen c =? 1) = (length c =? 1)%nat) as -> by (destruct (Nat.eqb_spec (length c) 1), (Z.eqb_spec (zlen c) 1); (done || lia)).
  assert (rd (default [] (bb_data bb)) 0 = rd c 0) as ->.
  { destruct (bb_data bb) as [d|]; [|destruct Hd; done]. destruct Hd as (_ & _ & _ & _ & Ht). cbn.
    destruct c as [|x c]; [done|]. destruct d as [|y d]; [done|]. by injection Ht as -> _. }
  destruct (_ && _); [by exists bb|].
  destruct (rlp_add_length_stack (zlen c) 0x80) as (ll & Hll & Hc'); [lia|lia|].
  assert ((if zlen c <? 56 then bb_write_byte stack_builder (zlen c + 128)
           else rlp_add_length stack_builder (zlen c) 128) = Some ll) as ->.
  { rewrite <- Hll. unfold rlp_add_length. destruct (zlen c <? 56); [|done]. f_equal. lia. }
  cbn [mbind option_bind]. rewrite Hc'. pose proof (rlp_header_length 0x80 (zlen c)).
  destruct (bb_replace_rep bb c 0 0 (rlp_header 0x80 (zlen c))) as (bb' & Hbb & Hr'); [done|lia|lia|].
  exists bb'. done.
Qed.
End AllocLemmas.

(** ** Lemmas: decoder *)
Lemma mem_at_app m a l1 l2 : mem_at m a (l1 ++ l2) <-> mem_at m a l1 /\ mem_at m (a + zlen l1) l2.
Proof.
  unfold mem_at. split.
  - intros H. split; intros i Hi.
    + rewrite H by (rewrite length_app; lia). by rewrite app_nth1.
    + specialize (H (length l1 + i)%nat). rewrite length_app, app_nth2_plus in H.
      replace (a + zlen l1 + Z.of_nat i) with (a + Z.of_nat (length l1 + i)) by lia. apply H. lia.
  - intros [H1 H2] i Hi. rewrite length_app in Hi. destruct (Nat.lt_ge_cases i (length l1)).
    + rewrite app_nth1 by done. auto.
    + rewrite app_nth2 by done. rewrite <- H2 by lia. f_equal. lia.
Qed.
Lemma mem_at_cons m a x l : mem_at m a (x :: l) <-> m a = x /\ mem_at m (a + 1) l.
Proof.
  change (x :: l) with ([x] ++ l). rewrite mem_at_app. change (zlen [x]) with 1.
  unfold mem_at at 1. split; intros [H1 H2]; (split; [|done]).
  - specialize (H1 0%nat). rewrite Z.add_0_r in H1. apply H1. simpl. lia.
  - intros [|i] Hi; [|simpl in Hi; lia]. by rewrite Z.add_0_r.
Qed.
Lemma mem_at_mem_of l : mem_at (mem_of l) 0 l.
Proof. intros i Hi. unfold mem_of. rewrite Z.add_0_l. apply rd_nat. Qed.

Lemma long_len_spec m a suf : forall pre, bytes_ok pre -> bytes_ok suf -> (length (pre ++ suf) <= 4)%nat ->
  mem_at m a (pre ++ suf) -> be_val (pre ++ suf) < 2 ^ 31 ->
  long_len (length suf) (zlen pre) (zlen (pre ++ suf)) m a (be_val pre * 256 ^ zlen suf) = Some (be_val (pre ++ suf)).
Proof.
  induction suf as [|d suf IH]; intros pre Hpre Hok Hlen Hm Hv.
  { simpl. rewrite app_nil_r. f_equal. lia. }
  inversion_clear Hok as [|? ? Hd Hsuf]. cbn [length long_len].
  assert (zlen (pre ++ d :: suf) - zlen pre - 1 = zlen suf) as -> by (rewrite length_app; simpl; lia).
  destruct (Z.leb_spec 32 (8 * zlen suf)) as [Hbig|_]; [rewrite length_app in Hlen; simpl in Hlen; lia|].
  assert (m (a + zlen pre) = d) as ->.
  { rewrite Hm by (rewrite length_app; simpl; lia). apply nth_middle. }
  rewrite Z.shiftl_mul_pow2, <- pow256_pow2 by lia.
  assert (bytes_ok (pre ++ [d])) as Hpd by (apply Forall_app; auto).
  assert ((pre ++ [d]) ++ suf = pre ++ d :: suf) as Happ by (rewrite <- app_assoc; done).
  assert (0 <= d * 256 ^ zlen suf < 2 ^ 31) as Hr.
  { rewrite <- Happ, be_val_app, be_val_snoc in Hv. pose proof (be_val_pos pre Hpre). pose proof (be_val_pos suf Hsuf).
    pose proof (pow256_pos (length suf)). unfold is_byte in Hd. nia. }
  rewrite i32_small, u64_small, lor_be_step by (done || lia). rewrite <- Happ in *.
  rewrite <- (IH (pre ++ [d])) by auto. rewrite length_snoc, be_val_snoc. f_equal. lia.
Qed.

Lemma long_len_header m a n : 0 <= n < 2 ^ 31 -> mem_at m a (be_bytes (len_bytes n) n) ->
  long_len (len_bytes n) 0 (Z.of_nat (len_bytes n)) m a 0 = Some n.
Proof.
  intros Hn Hm. destruct (len_bytes_spec n) as [Hl Hb]; [lia|].
  assert (be_val (be_bytes (len_bytes n) n) = n) as Hv by (rewrite be_val_be_bytes; apply Z.mod_small; lia).
  pose proof (long_len_spec m a (be_bytes (len_bytes n) n) []) as H. rewrite app_nil_l, length_be_bytes, Hv in H.
  apply H; auto using be_bytes_ok; lia.
Qed.

(** What the loop does at an encoded item. *)
Definition item_ok (it : rlp_item) : Prop := bytes_ok (item_bytes it) /\ zlen (item_bytes it) < 2 ^ 31.
Definition header_len (it : rlp_item) : Z := zlen (enc_item it) - zlen (item_bytes it).

Section Loop.
Context (m : memory) (alias : bool) (b : slice) (index : Z).
Hypothesis Haddr : 0 <= s_data b.
Hypothesis Hend : s_data b + s_len b < 2 ^ 64.

(** The shared shape of a step: [c] is the header byte and [l] the length it announces. *)
Lemma ref_inside l s r : s_data b <= s -> 0 <= l < 2 ^ 32 -> s + l <= s_data b + s_len b ->
  ref alias b l s r = RDone r (Some (mk_slice s l)).
Proof.
  intros Hs Hl He. unfold ref. rewrite u32_small, u64_small by lia.
  destruct alias; cbn [s_data s_len]; rewrite !(proj2 (Z.leb_le _ _)) by lia; done.
Qed.

Lemma header_cases it : item_ok it ->
  (exists x, it = Str [x] /\ 0 <= x < 0x80) \/
  (zlen (item_bytes it) < 56 /\ header_len it = 1 /\
   enc_item it = ((if item_kind it =? 1 then 0x80 else 0xc0) + zlen (item_bytes it)) :: item_bytes it) \/
  (56 <= zlen (item_bytes it) /\ header_len it = 1 + Z.of_nat (len_bytes (zlen (item_bytes it))) /\
   enc_item it = ((if item_kind it =? 1 then 0xb7 else 0xf7) + Z.of_nat (len_bytes (zlen (item_bytes it))))
     :: be_bytes (len_bytes (zlen (item_bytes it))) (zlen (item_bytes it)) ++ item_bytes it).
Proof.
  intros [Hok Hlen]. unfold header_len. destruct it as [l|l]; cbn [enc_item item_bytes item_kind] in *.
  - rewrite rlp_string_unfold. destruct (_ && _) eqn:Hs.
    + left. apply andb_true_iff in Hs as [Hl Hx]. apply Nat.eqb_eq in Hl. apply Z.ltb_lt in Hx.
      destruct l as [|x [|]]; try done. change (rd [x] 0) with x in Hx. exists x. split; [done|].
      apply Forall_inv in Hok. unfold is_byte in Hok. lia.
    + right. unfold rlp_header. destruct (Z.ltb_spec (zlen l) 56); [left|right]; (split; [done|]).
      * simpl. split; [lia|done].
      * rewrite length_app. cbn [length app]. rewrite length_be_bytes. split; [lia|done].
  - right. unfold rlp_list, rlp_header. destruct (Z.ltb_spec (zlen l) 56); [left|right]; (split; [done|]).
    + simpl. split; [lia|done].
    + rewrite length_app. cbn [length app]. rewrite length_be_bytes. split; [lia|done].
Qed.

Lemma rlp_loop_item f it i p : item_ok it -> mem_at m (s_data b + i) (enc_item it) -> 0 <= i ->
  i + zlen (enc_item it) <= s_len b ->
  rlp_loop (S f) m alias b index i p =
    if i32 p =? index
    then RDone (item_kind it) (Some (mk_slice (s_data b + i + header_len it) (zlen (item_bytes it))))
    else rlp_loop f m alias b index (i + zlen (enc_item it)) (p + 1).
Proof.
  intros Hit Hm Hi Hfit. cbn [rlp_loop].
  assert (0 < zlen (enc_item it)) as Hpos.
  { destruct (header_cases it Hit) as [(x & -> & Hx)|[(_ & _ & ->)|(_ & _ & ->)]]; simpl; try lia.
    destruct (x <? 128); simpl; lia. }
  rewrite (proj2 (Z.ltb_lt i (s_len b))) by lia. pose proof Hit as [Hok Hlen].
  destruct (header_cases it Hit) as [(x & -> & Hx)|[(Hs & Hh & He)|(Hs & Hh & He)]].
  - cbn [enc_item rlp_string] in *. rewrite (proj2 (Z.ltb_lt x 0x80)) in * by lia.
    apply mem_at_cons in Hm as [-> _]. rewrite (proj2 (Z.ltb_lt x 0x80)) by lia.
    assert (header_len (Str [x]) = 0) as -> by (unfold header_len; simpl; rewrite (proj2 (Z.ltb_lt x 0x80)) by lia; done).
    change (zlen [x]) with 1 in *. change (zlen (item_bytes (Str [x]))) with 1. cbn [item_kind].
    destruct (i32 p =? index); [rewrite ref_inside by lia; do 3 f_equal; lia|]. rewrite u64_small by lia. done.
  - rewrite He in Hm. apply mem_at_cons in Hm as [-> _]. rewrite He in Hfit. cbn [length] in Hfit.
    rewrite Hh, He. cbn [length]. destruct it as [l|l]; cbn [item_kind item_bytes] in *.
    + change (1 =? 1) with true. cbv iota. rewrite (proj2 (Z.ltb_ge _ 0x80)), (proj2 (Z.ltb_lt _ 0xb8)) by lia.
      replace (0x80 + zlen l - 0x80) with (zlen l) by lia.
      destruct (i32 p =? index); [by rewrite ref_inside by lia|]. rewrite u64_small by lia. f_equal. lia.
    + change (2 =? 1) with false. cbv iota.
      rewrite (proj2 (Z.ltb_ge _ 0x80)), (proj2 (Z.ltb_ge _ 0xb8)), (proj2 (Z.ltb_ge _ 0xc0)), (proj2 (Z.ltb_lt _ 0xf8)) by lia.
      replace (0xc0 + zlen l - 0xc0) with (zlen l) by lia.
      destruct (i32 p =? index); [by rewrite ref_inside by lia|]. rewrite u64_small by lia. f_equal. lia.
  - rewrite He in Hm. apply mem_at_cons in Hm as [-> Hm]. apply mem_at_app in Hm as [Hm _].
    apply long_len_header in Hm; [|lia]. destruct (len_bytes_spec (zlen (item_bytes it))) as [Hl _]; [lia|].
    rewrite He in Hfit. cbn [length] in Hfit. rewrite length_app, length_be_bytes in Hfit.
    rewrite Hh, He. cbn [length]. rewrite length_app, length_be_bytes.
    set (k := len_bytes (zlen (item_bytes it))) in *.
    destruct it as [l|l]; cbn [item_kind item_bytes] in *.
    + change (1 =? 1) with true. cbv iota.
      rewrite (proj2 (Z.ltb_ge _ 0x80)), (proj2 (Z.ltb_ge _ 0xb8)), (proj2 (Z.ltb_lt _ 0xc0)) by lia.
      replace (0xb7 + Z.of_nat k - 0xb7) with (Z.of_nat k) by lia. rewrite Nat2Z.id, Hm.
      destruct (i32 p =? index); [rewrite ref_inside by lia; do 3 f_equal; lia|]. rewrite u64_small by lia. f_equal. lia.
    + change (2 =? 1) with false. cbv iota.
      rewrite (proj2 (Z.ltb_ge _ 0x80)), (proj2 (Z.ltb_ge _ 0xb8)), (proj2 (Z.ltb_ge _ 0xc0)), (proj2 (Z.ltb_ge _ 0xf8)) by lia.
      replace (0xf7 + Z.of_nat k - 0xf7) with (Z.of_nat k) by lia. rewrite Nat2Z.id, Hm.
      destruct (i32 p =? index); [rewrite ref_inside by lia; do 3 f_equal; lia|]. rewrite u64_small by lia. f_equal. lia.
Qed.
End Loop.

Section Items.
Context (m : memory) (alias : bool) (b : slice).
Hypothesis Haddr : 0 <= s_data b.
Hypothesis Hend : s_data b + s_len b < 2 ^ 64.

Lemma enc_item_pos it : item_ok it -> 0 < zlen (enc_item it).
Proof.
  intros Hit. destruct (header_cases it Hit) as [(x & -> & Hx)|[(_ & _ & ->)|(_ & _ & ->)]]; simpl; try lia.
  destruct (x <? 128); simpl; lia.
Qed.
Lemma enc_items_length its : Forall item_ok its -> zlen its <= zlen (enc_items its).
Proof.
  induction 1 as [|it its Hit _ IH]; [done|]. change (enc_items (it :: its)) with (enc_item it ++ enc_items its).
  rewrite length_app. cbn [length]. pose proof (enc_item_pos it Hit). lia.
Qed.
Lemma mem_at_item_bytes it a : item_ok it -> mem_at m a (enc_item it) -> mem_at m (a + header_len it) (item_bytes it).
Proof.
  intros Hit Hm. assert (exists h, enc_item it = h ++ item_bytes it) as [h Hh].
  { destruct it as [l|l]; cbn [enc_item item_bytes]; [rewrite rlp_string_unfold|unfold rlp_list]; eauto. }
  unfold header_len. rewrite Hh in *. apply mem_at_app in Hm as [_ Hm]. rewrite length_app.
  replace (a + (Z.of_nat (length h + length (item_bytes it)) - zlen (item_bytes it))) with (a + zlen h) by lia. done.
Qed.

Lemma rlp_loop_hit suf : forall f i p n it, Forall item_ok suf -> mem_at m (s_data b + i) (enc_items suf) ->
  i + zlen (enc_items suf) <= s_len b -> 0 <= i -> (length suf < f)%nat -> 0 <= p -> p + zlen suf < 2 ^ 31 ->
  suf !! n = Some it ->
  exists d, rlp_loop f m alias b (p + Z.of_nat n) i p = RDone (item_kind it) (Some d) /\
    s_len d = zlen (item_bytes it) /\ mem_at m (s_data d) (item_bytes it) /\ slice_in d b /\ s_data d + s_len d = s_data b + i + zlen (enc_items (take (S n) suf)).
Proof.
  induction suf as [|x suf IH]; intros f i p n it Hok Hm Hlen Hi Hf Hp Hpm Hn; [done|].
  inversion_clear Hok as [|? ? Hx Hsuf]. change (enc_items (x :: suf)) with (enc_item x ++ enc_items suf) in *.
  apply mem_at_app in Hm as [Hmx Hms]. rewrite length_app in Hlen. pose proof (enc_item_pos x Hx).
  destruct f as [|f]; [lia|]. rewrite (rlp_loop_item m alias b _ Haddr Hend f x) by (done || lia).
  cbn [length] in *. rewrite i32_small by lia. destruct n as [|n].
  - injection Hn as ->. rewrite Z.add_0_r, Z.eqb_refl. eexists. split; [done|]. cbn [s_len s_data].
    split; [done|]. split; [by apply mem_at_item_bytes|]. split; [split|]; cbn [s_len s_data]; unfold header_len.
    + destruct it as [l|l]; cbn [enc_item item_bytes]; [rewrite rlp_string_unfold|unfold rlp_list]; rewrite length_app; lia.
    + lia.
    + cbn [take]. rewrite take_0. unfold enc_items. cbn [map concat]. rewrite app_nil_r. lia.
  - rewrite (proj2 (Z.eqb_neq _ _)) by lia. replace (p + Z.of_nat (S n)) with (p + 1 + Z.of_nat n) by lia.
    destruct (IH f (i + zlen (enc_item x)) (p + 1) n it) as (d & Hd & D1 & D2 & D3 & D4); auto; try lia; [by rewrite Z.add_assoc|].
    exists d. split_and!; try done. rewrite D4. change (enc_items (take (S (S n)) (x :: suf))) with (enc_item x ++ enc_items (take (S n) suf)). rewrite length_app. lia.
Qed.
Lemma rlp_loop_miss suf : forall f i p index, Forall item_ok suf -> mem_at m (s_data b + i) (enc_items suf) ->
  i + zlen (enc_items suf) = s_len b -> 0 <= i -> (length suf < f)%nat -> 0 <= p -> p + zlen suf < 2 ^ 31 ->
  index < p \/ p + zlen suf <= index ->
  rlp_loop f m alias b index i p = RDone (if index <? 0 then p + zlen suf else 0) None.
Proof.
  induction suf as [|x suf IH]; intros f i p index Hok Hm Hlen Hi Hf Hp Hpm Hn.
  - destruct f as [|f]; [simpl in Hf; lia|]. cbn [rlp_loop]. change (zlen (enc_items [])) with 0 in Hlen.
    rewrite (proj2 (Z.ltb_ge i (s_len b))), (proj2 (Z.eqb_eq i (s_len b))), (proj2 (Z.ltb_ge (s_len b) i)) by lia.
    rewrite i32_small by (simpl in *; lia). simpl. by rewrite Z.add_0_r.
  - inversion_clear Hok as [|? ? Hx Hsuf]. change (enc_items (x :: suf)) with (enc_item x ++ enc_items suf) in *.
    apply mem_at_app in Hm as [Hmx Hms]. rewrite length_app in Hlen. pose proof (enc_item_pos x Hx).
    destruct f as [|f]; [lia|]. rewrite (rlp_loop_item m alias b _ Haddr Hend f x) by (done || lia).
    cbn [length] in *. rewrite i32_small by lia. rewrite (proj2 (Z.eqb_neq _ _)) by lia.
    rewrite (IH f) by (auto; try lia; by rewrite Z.add_assoc). f_equal. destruct (index <? 0); lia.
Qed.
End Items.

(** Decoding an encoded sequence: an item inside, and the number of items. *)
Lemma decode_item_end (m : memory) (alias : bool) (b : slice) (its : list rlp_item) n it :
  Forall item_ok its -> mem_at m (s_data b) (enc_items its) -> s_len b = zlen (enc_items its) -> 0 <= s_data b ->
  s_data b + s_len b < 2 ^ 64 -> zlen its < 2 ^ 31 -> its !! n = Some it ->
  exists d, rlp_decode m alias b (Z.of_nat n) = RDone (item_kind it) (Some d) /\
    s_len d = zlen (item_bytes it) /\ mem_at m (s_data d) (item_bytes it) /\ slice_in d b /\ s_data d + s_len d = s_data b + zlen (enc_items (take (S n) its)).
Proof.
  intros Hok Hmem Hlen Haddr Hend Hcnt Hn. pose proof (enc_items_length its Hok) as Hcl. rewrite <- (Z.add_0_r (s_data b)) in Hmem.
  destruct (rlp_loop_hit m alias b Haddr Hend its (S (Z.to_nat (s_len b))) 0 0 n it) as (d & Hd & D); try done; try lia. exists d. split; [exact Hd|]. by rewrite Z.add_0_r in D.
Qed.
Lemma decode_item (m : memory) (alias : bool) (b : slice) (its : list rlp_item) n it :
  Forall item_ok its -> mem_at m (s_data b) (enc_items its) -> s_len b = zlen (enc_items its) -> 0 <= s_data b ->
  s_data b + s_len b < 2 ^ 64 -> zlen its < 2 ^ 31 -> its !! n = Some it ->
  exists d, rlp_decode m alias b (Z.of_nat n) = RDone (item_kind it) (Some d) /\
    s_len d = zlen (item_bytes it) /\ mem_at m (s_data d) (item_bytes it) /\ slice_in d b.
Proof. intros. edestruct (decode_item_end m alias b its n it) as (d & ? & ? & ? & ? & _); eauto 10. Qed.
Lemma decode_count (m : memory) (b : slice) (its : list rlp_item) :
  Forall item_ok its -> mem_at m (s_data b) (enc_items its) -> s_len b = zlen (enc_items its) -> 0 <= s_data b ->
  s_data b + s_len b < 2 ^ 64 -> zlen its < 2 ^ 31 -> rlp_decode_len m b = RDone (zlen its) None.
Proof.
  intros Hok Hmem Hlen Haddr Hend Hcnt. pose proof (enc_items_length its Hok) as Hcl. rewrite <- (Z.add_0_r (s_data b)) in Hmem.
  unfold rlp_decode_len, rlp_decode. rewrite (rlp_loop_miss m false b Haddr Hend its) by (auto; lia). done.
Qed.

(** C21. Decoding inverts encoding: on memory that holds the encodings of a sequence of strings
    and lists (each below 2^31 bytes), [rlp_decode] at index [n] returns the kind of the [n]-th
    item (1 string, 2 list) and a slice inside the buffer that holds exactly its bytes, 0 beyond
    the last item, and [rlp_decode_len] returns the number of items; also when the destination
    is the decoded [bytes_t] itself. *)
Theorem rlp_decode_encoded (m : memory) (alias : bool) (b : slice) (its : list rlp_item)
  (Hok : Forall item_ok its) (Hmem : mem_at m (s_data b) (enc_items its))
  (Hlen : s_len b = zlen (enc_items its)) (Haddr : 0 <= s_data b) (Hend : s_data b + s_len b < 2 ^ 64)
  (Hcnt : zlen its < 2 ^ 31) :
  (forall n it, its !! n = Some it ->
     exists d, rlp_decode m alias b (Z.of_nat n) = RDone (item_kind it) (Some d) /\
       s_len d = zlen (item_bytes it) /\ mem_at m (s_data d) (item_bytes it) /\ slice_in d b) /\
  (forall index, zlen its <= index -> rlp_decode m alias b index = RDone 0 None) /\
  rlp_decode_len m b = RDone (zlen its) None.
Proof.
  split; [|split].
  - intros n it. by apply decode_item.
  - intros index Hi. pose proof (enc_items_length its Hok) as Hcl. rewrite <- (Z.add_0_r (s_data b)) in Hmem.
    unfold rlp_decode. rewrite (rlp_loop_miss m alias b Haddr Hend its) by (auto; lia). destruct (Z.ltb_spec index 0); [lia|done].
  - by apply decode_count.
Qed.

Lemma rlp_decode_encoded_witness :
  rlp_decode_len (mem_of (enc_items [Str [5]; Lst [0x80; 1]; Str (replicate 60 7)]))
    (mk_slice 0 (zlen (enc_items [Str [5]; Lst [0x80; 1]; Str (replicate 60 7)]))) = RDone 3 None.
Proof.
  apply (rlp_decode_encoded (mem_of (enc_items [Str [5]; Lst [0x80; 1]; Str (replicate 60 7)])) false
    (mk_slice 0 (zlen (enc_items [Str [5]; Lst [0x80; 1]; Str (replicate 60 7)])))
    [Str [5]; Lst [0x80; 1]; Str (replicate 60 7)]);
    [|apply mem_at_mem_of|reflexivity|simpl; lia|vm_compute; reflexivity|simpl; lia].
  repeat constructor; simpl; try lia.
Defined.

(** ** What the decoder does on arbitrary input *)





(** The two ways out of the bounds check: a four byte length with the top bit set is sign
    extended, passes the check and is reported as an item of almost 4 GB; and
    [rlp_decode_in_list], which decodes [dst] into [dst], reports list elements that reach past
    the end of the input. *)
Theorem rlp_decode_escapes (a : Z) (Ha : 0 <= a < 2 ^ 62) :
  rlp_decode (fun x => rd [0xbb; 0xff; 0xff; 0xff; 0xfb] (x - a)) false (mk_slice a 5) 0
    = RDone 1 (Some (mk_slice (a + 5) (2 ^ 32 - 5))) /\
  rlp_decode_in_list (fun x => rd [0xc1; 0x83] (x - a)) false (mk_slice a 2) 0
    = RDone 1 (Some (mk_slice (a + 2) 3)).
Proof.
  split.
  - unfold rlp_decode. cbn [s_len rlp_loop s_data Z.to_nat]. change (0 <? 5) with true. cbv iota zeta.
    replace (a + 0 - a) with 0 by lia. change (rd [187; 255; 255; 255; 251] 0) with 187. cbn [Z.ltb Z.compare Pos.compare Pos.compare_cont].
    change (Z.to_nat (187 - 183)) with 4%nat. cbn [long_len].
    repeat match goal with |- context [rd ?l (a + 0 + 1 + ?n - a)] =>
      replace (a + 0 + 1 + n - a) with (1 + n) by lia end.
    match goal with |- context [match ?t with Some _ => _ | None => _ end] =>
      let v := eval vm_compute in t in change t with v end.
    cbv iota. change (i32 0 =? 0) with true. cbv iota. unfold ref. cbn [s_data s_len].
    replace (a + 0 + 187 - 183 + 1) with (a + 5) by lia. change (u32 18446744073709551611) with (2 ^ 32 - 5).
    assert (u64 (a + 5 + 18446744073709551611) = a) as ->.
    { unfold u64. replace (a + 5 + 18446744073709551611) with (a + 1 * 2 ^ 64) by lia.
      rewrite Z_mod_plus_full, Z.mod_small; lia. }
    rewrite !(proj2 (Z.leb_le _ _)) by lia. done.
  - unfold rlp_decode_in_list, rlp_decode. cbn [s_len rlp_loop s_data Z.to_nat].
    change (0 <? 2) with true. cbv iota zeta. replace (a + 0 - a) with 0 by lia.
    change (rd [193; 131] 0) with 193. cbn [Z.ltb Z.compare Pos.compare Pos.compare_cont].
    change (i32 0 =? 0) with true. cbv iota. change (193 - 192) with 1. unfold ref at 1. cbn [s_data s_len].
    change (u32 1) with 1. rewrite !u64_small by lia. rewrite !(proj2 (Z.leb_le _ _)) by lia. cbn [andb negb Z.eqb Pos.eqb].
    change (Z.to_nat 1) with 1%nat. cbn [rlp_loop s_len s_data]. change (0 <? 1) with true. cbv iota zeta.
    replace (a + 0 + 1 + 0 - a) with 1 by lia. change (rd [193; 131] 1) with 131.
    cbn [Z.ltb Z.compare Pos.compare Pos.compare_cont]. change (i32 0 =? 0) with true. cbv iota. change (131 - 128) with 3.
    unfold ref. cbn [s_data s_len]. change (u32 3) with 3. rewrite u64_small by lia.
    rewrite !(proj2 (Z.leb_le _ _)) by lia. cbn [andb]. do 3 f_equal. lia.
Qed.

Lemma rlp_decode_escapes_witness :
  rlp_decode_in_list (fun x => rd [0xc1; 0x83] (x - 4096)) false (mk_slice 4096 2) 0
    = RDone 1 (Some (mk_slice (4096 + 2) 3)).
Proof. apply (rlp_decode_escapes 4096). lia. Defined.

(** The same header makes [rlp_decode_len] run in place: its length takes the position back
    to where it was, so after any number of rounds below 2^32 the loop is still running on a
    five byte input. *)
Theorem rlp_decode_len_runs_on (m : memory) (b : slice) (fuel : nat)
  (Hb : s_len b = 5) (Hm : mem_at m (s_data b) [0xbb; 0xff; 0xff; 0xff; 0xfb]) (Hf : Z.of_nat fuel < 2 ^ 32) :
  rlp_loop fuel m false b (-1) 0 0 = RFuel.
Proof.
  assert (forall fuel p, 0 <= p -> p + Z.of_nat fuel < 2 ^ 32 -> rlp_loop fuel m false b (-1) 0 p = RFuel) as Hgo.
  2:{ apply Hgo; lia. }
  clear fuel Hf. induction fuel as [|fuel IH]; intros p Hp Hmax; [done|]. cbn [rlp_loop]. rewrite Hb.
  change (0 <? 5) with true. cbv iota zeta. apply mem_at_cons in Hm as [Hc Hm]. rewrite Z.add_0_r, Hc.
  change (187 <? 0x80) with false. change (187 <? 0xb8) with false. change (187 <? 0xc0) with true. cbv iota.
  assert (long_len (Z.to_nat (187 - 183)) 0 (187 - 183) m (s_data b + 1) 0 = Some 18446744073709551611) as ->.
  { change (Z.to_nat (187 - 183)) with 4%nat. change (187 - 183) with 4. cbn [long_len].
    rewrite !mem_at_cons in Hm. destruct Hm as (H0 & H1 & H2 & H3 & _).
    replace (s_data b + 1 + (0 + 1)) with (s_data b + 1 + 1) by lia.
    rewrite Z.add_0_r, H0, H1. replace (s_data b + 1 + (0 + 1 + 1)) with (s_data b + 1 + 1 + 1) by lia.
    replace (s_data b + 1 + (0 + 1 + 1 + 1)) with (s_data b + 1 + 1 + 1 + 1) by lia. rewrite H2, H3. reflexivity. }
  assert ((i32 p =? -1) = false) as ->.
  { apply Z.eqb_neq. unfold i32. intros Hi. assert ((p + 2 ^ 31) mod 2 ^ 32 = 2 ^ 31 - 1) as He by lia.
    pose proof (Z.div_mod (p + 2 ^ 31) (2 ^ 32) ltac:(lia)) as Hdm. rewrite He in Hdm.
    assert (p = 2 ^ 32 * ((p + 2 ^ 31) / 2 ^ 32) - 1) by lia. nia. }
  change (u64 (0 + (18446744073709551611 + 187 - 183) + 1)) with 0. apply IH; lia.
Qed.

Lemma rlp_decode_len_runs_on_witness :
  rlp_loop 1000 (mem_of [0xbb; 0xff; 0xff; 0xff; 0xfb]) false (mk_slice 0 5) (-1) 0 0 = RFuel.
Proof. apply rlp_decode_len_runs_on; [reflexivity|apply mem_at_mem_of|vm_compute; reflexivity]. Defined.

(** [rlp_encode_to_list] wraps the content of a builder into a list header for up to 65535
    bytes; from 65536 bytes on it writes a fourth header byte into a four byte stack buffer and
    reallocates it, which is undefined. *)
Theorem rlp_encode_to_list_spec (A : Allocator) (bb : bytes_builder_t) (c : list Z)
  (Hrep : bb_rep bb c) (Hc : zlen c < 2 ^ 32) :
  (zlen c < 0x10000 -> exists bb', rlp_encode_to_list bb = Some bb' /\ bb_rep bb' (rlp_list c)) /\
  (0x10000 <= zlen c -> rlp_encode_to_list bb = None).
Proof.
  split; [by apply rlp_encode_to_list_rep|]. intros Hbig. unfold rlp_encode_to_list. destruct Hrep as [-> _].
  unfold rlp_add_length. rewrite (proj2 (Z.ltb_ge _ 56)), (proj2 (Z.ltb_ge _ 0x100)), (proj2 (Z.ltb_ge _ 0x10000)) by lia.
  assert (forall v w n, (3 <= n <= 4)%nat -> is_byte v ->
    (bb1 ← bb_write_byte stack_builder v; bb_write_long_be bb1 w n) = None) as Hnone.
  { intros v w n Hn Hv. destruct (stack_write_byte _ _ v stack_builder_rep) as (b1 & -> & (Hl & Hs & Hh & d & Hd & _)); [simpl; lia|done|].
    cbn [mbind option_bind]. unfold bb_write_long_be, bb_check_size. rewrite Hl, Hs, Hd, Hh. change (zlen ([] ++ [v])) with 1.
    rewrite u64_small by lia. rewrite (proj2 (Z.eqb_neq _ 0)), (proj2 (Z.ltb_ge _ 4)) by lia. cbn [orb].
    by destruct (grow_bsize _ _ _). }
  destruct (zlen c <? 0x1000000).
  - change (0xc0 + 55 + 3) with 250. by rewrite (Hnone 250 (zlen c) 3%nat) by (done || lia).
  - change (0xc0 + 55 + 4) with 251. by rewrite (Hnone 251 (zlen c) 4%nat) by (done || lia).
Qed.

Lemma rlp_encode_to_list_spec_witness :
  exists bb', rlp_encode_to_list (bb_newl 8) = Some bb' /\ bb_rep bb' (rlp_list []).
Proof. apply (rlp_encode_to_list_spec debug_allocator (bb_newl 8) []); [apply bb_newl_rep; lia|simpl; lia|simpl; lia]. Defined.

(** The encoders produce RLP: starting from any builder, [rlp_encode_item] appends the
    encoding of a string and [rlp_encode_list] the encoding of a list with the given payload, so
    that (with [rlp_decode_encoded]) the items are read back. *)
Theorem rlp_encode_appends (A : Allocator) (bb : bytes_builder_t) (c : list Z) (it : rlp_item)
  (Hrep : bb_rep bb c) (Hmax : zlen c + 5 + zlen (item_bytes it) < 2 ^ 32) :
  exists bb', (match it with Str l => rlp_encode_item bb l | Lst p => rlp_encode_list bb p end) = Some bb' /\
    bb_rep bb' (c ++ enc_item it).
Proof. destruct it as [l|l]; [by apply rlp_encode_item_rep|by apply rlp_encode_list_rep]. Qed.

Lemma rlp_encode_appends_witness :
  exists bb', rlp_encode_item (bb_newl 1) [0x90; 2] = Some bb' /\ bb_rep bb' ([] ++ [0x82; 0x90; 2]).
Proof. apply (rlp_encode_appends debug_allocator (bb_newl 1) [] (Str [0x90; 2])); [apply bb_newl_rep; lia|simpl; lia]. Defined.
