(* ===== verification/Merkle.v ===== *)
(** * verifier/eth1/nano/merkle.c: verifying Merkle Patricia proofs

    A proof is the list of the encoded nodes from the root to a value; every node must hash to what
    its predecessor announced.  Nodes are slices of memory, as for the decoder of rlp.c, and the
    walk keeps pointers into them.  The theorems relate the verifier to tries as an inductive type
    with their encoding: a proof accepted for a value means that the trie holds it, and the nodes
    on the path to a value are an accepted proof. *)
From S2P Require Import Prelude Utils Bytes Rlp.

Definition MERKLE_DEPTH_MAX : nat := 64.

(** The bytes a slice denotes. *)
Definition mem_read (m : memory) (s : slice) : list Z :=
  map (fun i => m (s_data s + Z.of_nat i)) (seq 0 (Z.to_nat (s_len s))).

(** ** Nibble paths: arrays closed by 0xFF; reading behind the end is undefined *)
Fixpoint nibble_len (a : list Z) : option nat :=
  match a with
  | [] => None
  | x :: a' => if x =? 0xFF then Some 0%nat else n ← nibble_len a'; Some (S n)
  end.
Fixpoint trie_matching_nibbles (a b : list Z) : option nat :=
  match a with
  | [] => None
  | x :: a' =>
      if x =? 0xFF then Some 0%nat
      else match b with
           | [] => None
           | y :: b' => if (y =? 0xFF) || negb (x =? y) then Some 0%nat else n ← trie_matching_nibbles a' b'; Some (S n)
           end
  end.
(** [n] is the array up to [j]; the prefix nibble of the first byte tells whether its second one
    belongs to the path. *)
Fixpoint path_loop (path n : list Z) (first use_prefix : bool) : list Z :=
  match path with
  | [] => n ++ [0xFF]
  | b :: path' =>
      let n := n ++ [Z.shiftr b 4; Z.land b 0x0F] in
      let n := if first && use_prefix then (if negb (Z.land (rd n 0) 1 =? 0) then [rd n 1] else []) else n in
      path_loop path' n false use_prefix
  end.
Definition trie_path_to_nibbles (path : list Z) (use_prefix : bool) : list Z := path_loop path [] true use_prefix.

(** ** The walk through the nodes *)

(** [expectedValue]: NULL (the key must not exist), to be filled in, or given. *)
Inductive expected_t := EAbsent | EAny | EValue (v : list Z).
(** What [check_node] changes; [w_left] is what is left of [MERKLE_DEPTH_MAX]. *)
Record walk := mk_walk { w_key : list Z; w_last : option slice; w_hash : list Z; w_left : nat }.

(** The return value and [*dst] of [rlp_decode], when it returns. *)
Definition dec (m : memory) (alias : bool) (b : slice) (index : Z) : option (Z * option slice) :=
  match rlp_decode m alias b index with RDone r d => Some (r, d) | _ => None end.

Section Verify.
Context `{Keccak} (m : memory).

(** [None] stands for undefined behaviour: uninitialised [node] or [val], the key read behind its
    end, and the access behind the variable [key] for an embedded node in an extension. *)
Fixpoint check_node (depth_left : nat) (raw : slice) (key : list Z) (expected : expected_t) (is_last : bool)
    (last : option slice) (next_hash : list Z) : option (bool * walk) :=
  let absent := match expected with EAbsent => true | _ => false end in
  match depth_left with
  | O => Some (false, mk_walk key last next_hash O)
  | S rest_ =>
      '(_, node) ← dec m false raw 0;
      node ← node;
      '(n, _) ← dec m false node (-1);
      if n =? 17 then
        k ← key !! 0%nat;
        if k =? 0xFF then
          if negb is_last then Some (false, mk_walk key last next_hash rest_)
          else
            '(r, v) ← dec m true node 16;
            if negb (r =? 1) then Some (false, mk_walk key last next_hash rest_)
            else v ← v; Some (true, mk_walk key (Some v) next_hash rest_)
        else
          '(r, val) ← dec m false node k;
          val ← val;
          if r =? 2 then
            '(_, prev) ← dec m true node (k - 1);
            let node := default node prev in
            let key := tail key in
            let data := s_data node + s_len node in
            k1 ← key !! 1%nat;
            check_node rest_ (mk_slice data (u32 (s_data val + s_len val - data))) key expected (k1 =? 0xFF) last next_hash
          else
            Some (true, mk_walk (tail key) last (if s_len val =? 32 then mem_read m val else replicate 32 0) rest_)
      else if n =? 2 then
        '(r, val) ← dec m false node 0;
        if negb (r =? 1) then Some (false, mk_walk key last next_hash rest_)
        else
          val ← val;
          let path_nibbles := trie_path_to_nibbles (mem_read m val) true in
          matching ← trie_matching_nibbles path_nibbles key;
          node_path_len ← nibble_len path_nibbles;
          let is_leaf := negb (Z.land (m (s_data val)) 32 =? 0) in
          if negb (node_path_len =? matching)%nat then Some (absent && is_last, mk_walk key last next_hash rest_)
          else
            let key := drop node_path_len key in
            '(r, val') ← dec m false node 1;
            let val := default val val' in
            if r =? 2 then None
            else
              k ← key !! 0%nat;
              if (if k =? 0xFF then negb is_last || (absent && is_leaf) else is_leaf && negb absent)
              then Some (false, mk_walk key last next_hash rest_)
              else
                hash ← memcpy_at next_hash 0 (take 32 (mem_read m val));
                Some (true, mk_walk key (Some val) hash rest_)
      else Some (absent && is_last, mk_walk key last next_hash rest_)
  end.

(** The loop over the proof. *)
Fixpoint verify_loop (proof : list slice) (expected : expected_t) (w : walk) : option (bool * walk) :=
  match proof with
  | [] => Some (true, w)
  | p :: rest =>
      if negb (memcmp (w_hash w) (keccak (mem_read m p)) =? 0) then Some (false, w)
      else
        match check_node (w_left w) p (w_key w) expected (match rest with [] => true | _ => false end) (w_last w) (w_hash w) with
        | Some (true, w) => verify_loop rest expected w
        | r => r
        end
  end.

(** The result and, where the caller left the value open, the value found. *)
Definition trie_verify_proof (rootHash path : list Z) (proof : list slice) (expected : expected_t) : option (bool * option slice) :=
  root ← read_at rootHash 0 32;
  match verify_loop proof expected (mk_walk (trie_path_to_nibbles path false) None root MERKLE_DEPTH_MAX) with
  | None => None
  | Some (res, w) =>
      match expected with
      | EAbsent => Some (res, None)
      | EAny => Some (res, if res then w_last w else None)
      | EValue v =>
          Some (res && match w_last w with
                       | Some s => b_cmp (Some (bytes v)) (Some (bytes (mem_read m s)))
                       | None => false
                       end, None)
      end
  end.
End Verify.

(** ** Specification: tries and their encoding *)

(** Hex prefix encoding of a nibble path: two nibbles per byte, in front the parity and whether the
    node is a leaf. *)
Fixpoint pack (ns : list Z) : list Z :=
  match ns with x :: y :: t => (x * 16 + y) :: pack t | _ => [] end.
Definition hex_prefix (ns : list Z) (leaf : bool) : list Z :=
  let f := if leaf then 32 else 0 in
  match ns with
  | x :: t => if Nat.even (length ns) then f :: pack ns else (f + 16 + x) :: pack t
  | [] => [f]
  end.

Inductive trie := Empty | Leaf (path v : list Z) | Ext (path : list Z) (child : trie) | Branch (children : list trie) (v : list Z).

Definition nibbleb (x : Z) : bool := (0 <=? x) && (x <? 16).
Definition byteb (x : Z) : bool := (0 <=? x) && (x <? 256).
Definition is_empty (t : trie) : bool := match t with Empty => true | _ => false end.

Section Trie.
Context `{Keccak}.

(** A child is referred to by its hash, or stands for itself where it is shorter than one. *)
Definition child_ref (empty : bool) (items : list rlp_item) : rlp_item :=
  if empty then Str []
  else if (length (rlp_list (enc_items items)) <? 32)%nat then Lst (enc_items items)
  else Str (keccak (rlp_list (enc_items items))).
Fixpoint node_items (t : trie) : list rlp_item :=
  match t with
  | Empty => []
  | Leaf p v => [Str (hex_prefix p true); Str v]
  | Ext p c => [Str (hex_prefix p false); child_ref (is_empty c) (node_items c)]
  | Branch cs v => map (fun c => child_ref (is_empty c) (node_items c)) cs ++ [Str v]
  end.
Definition node_enc (t : trie) : list Z := if is_empty t then [0x80] else rlp_list (enc_items (node_items t)).

(** The encodings of all nodes. *)
Fixpoint nodes (t : trie) : list (list Z) :=
  match t with
  | Empty => []
  | Leaf _ _ => [node_enc t]
  | Ext _ c => node_enc t :: nodes c
  | Branch cs _ => node_enc t :: concat (map nodes cs)
  end.

(** Well-formed tries whose nodes below the root are all referred to by hash. *)
Definition hashed (t : trie) : bool := (32 <=? length (node_enc t))%nat && negb (is_empty t).
Fixpoint trie_ok (t : trie) : bool :=
  (zlen (node_enc t) <? 2 ^ 31) &&
  match t with
  | Empty => false
  | Leaf p v => forallb nibbleb p && forallb byteb v
  | Ext p c => forallb nibbleb p && hashed c && trie_ok c
  | Branch cs v => (length cs =? 16)%nat && forallb byteb v && forallb (fun c => is_empty c || (hashed c && trie_ok c)) cs
  end.

(** The value of a key. *)
Inductive has_value : trie -> list Z -> list Z -> Prop :=
  | value_leaf p v : has_value (Leaf p v) p v
  | value_ext p c k v : has_value c k v -> has_value (Ext p c) (p ++ k) v
  | value_child cs w n c k v : cs !! Z.to_nat n = Some c -> 0 <= n -> has_value c k v -> has_value (Branch cs w) (n :: k) v
  | value_here cs v : v <> [] -> has_value (Branch cs v) [] v.
(** The nodes on the way to it; the verifier wants a path to go on behind an extension. *)
Inductive on_path : trie -> list Z -> list Z -> list trie -> Prop :=
  | path_leaf p v : on_path (Leaf p v) p v [Leaf p v]
  | path_ext p c k v ns : k <> [] -> on_path c k v ns -> on_path (Ext p c) (p ++ k) v (Ext p c :: ns)
  | path_child cs w n c k v ns : cs !! Z.to_nat n = Some c -> 0 <= n -> on_path c k v ns ->
      on_path (Branch cs w) (n :: k) v (Branch cs w :: ns)
  | path_value cs v : v <> [] -> on_path (Branch cs v) [] v [Branch cs v].
End Trie.

(** ** Nibble paths *)
Lemma nibbleb_true x : nibbleb x = true <-> 0 <= x < 16.
Proof. unfold nibbleb. lia. Qed.
Definition nibs (path : list Z) : list Z := concat (map (fun b => [Z.shiftr b 4; Z.land b 0x0F]) path).
Lemma path_loop_nibs path : forall n u, path_loop path n false u = n ++ nibs path ++ [0xFF].
Proof.
  induction path as [|b path IH]; intros n u; [done|]. cbn [path_loop andb]. rewrite IH. unfold nibs. cbn [map concat].
  by rewrite <- !app_assoc.
Qed.
Lemma byte_nibbles x y : 0 <= x < 16 -> 0 <= y < 16 -> Z.shiftr (x * 16 + y) 4 = x /\ Z.land (x * 16 + y) 0x0F = y.
Proof.
  intros Hx Hy. change 0x0F with (Z.ones 4). rewrite Z.land_ones, Z.shiftr_div_pow2 by lia. change (2 ^ 4) with 16. split.
  - symmetry. apply Z.div_unique with y; lia.
  - symmetry. apply Z.mod_unique with x; lia.
Qed.
Lemma nibs_pack n : forall ns, (length ns <= n)%nat -> forallb nibbleb ns = true -> Nat.even (length ns) = true -> nibs (pack ns) = ns.
Proof.
  induction n as [|n IH]; intros ns Hl Hn He; destruct ns as [|x [|y t]]; try done; cbn [length] in Hl; [lia|].
  cbn [forallb] in Hn. apply andb_prop in Hn as [Hx Hn]. apply andb_prop in Hn as [Hy Hn].
  apply nibbleb_true in Hx, Hy. destruct (byte_nibbles x y Hx Hy) as [E1 E2].
  unfold nibs in *. cbn [pack map concat]. rewrite E1, E2, (IH t); [done|lia|done|done].
Qed.
Lemma nibs_hex_prefix ns leaf : forallb nibbleb ns = true ->
  trie_path_to_nibbles (hex_prefix ns leaf) true = ns ++ [0xFF] /\
  negb (Z.land (rd (hex_prefix ns leaf) 0) 32 =? 0) = leaf /\ hex_prefix ns leaf <> [].
Proof.
  intros Hn. unfold trie_path_to_nibbles, hex_prefix. destruct ns as [|x t]; [by destruct leaf|].
  destruct (Nat.even (length (x :: t))) eqn:He.
  - cbn [path_loop]. rewrite path_loop_nibs, (nibs_pack (length (x :: t))) by done. by destruct leaf.
  - cbn [forallb] in Hn. apply andb_prop in Hn as [Hx Hn]. apply nibbleb_true in Hx.
    assert (Nat.even (length t) = true) as Ht by (cbn [length] in He; rewrite Nat.even_succ, <- Nat.negb_even in He; by destruct (Nat.even (length t))).
    cbn [path_loop]. rewrite path_loop_nibs, (nibs_pack (length t)) by done.
    assert (x = 0 \/ x = 1 \/ x = 2 \/ x = 3 \/ x = 4 \/ x = 5 \/ x = 6 \/ x = 7 \/ x = 8 \/ x = 9 \/ x = 10 \/ x = 11 \/ x = 12 \/ x = 13 \/ x = 14 \/ x = 15) as Hc by lia.
    destruct leaf; repeat (destruct Hc as [-> | Hc]; [done|]); by rewrite Hc.
Qed.
Lemma nibble_len_spec p : forallb nibbleb p = true -> nibble_len (p ++ [0xFF]) = Some (length p).
Proof.
  induction p as [|x p IH]; [done|]. cbn [forallb app nibble_len length]. intros [Hx%nibbleb_true Hp]%andb_prop.
  rewrite (proj2 (Z.eqb_neq x 0xFF)), IH by (done || lia). done.
Qed.
Lemma matching_spec p : forall k, forallb nibbleb p = true -> forallb nibbleb k = true ->
  exists n, trie_matching_nibbles (p ++ [0xFF]) (k ++ [0xFF]) = Some n /\ ((n = length p) <-> p `prefix_of` k).
Proof.
  induction p as [|x p IH]; intros k Hp Hk.
  { exists 0%nat. split; [done|]. split; [intros _; apply prefix_nil|done]. }
  cbn [forallb] in Hp. apply andb_prop in Hp as [Hx%nibbleb_true Hp]. cbn [app trie_matching_nibbles].
  rewrite (proj2 (Z.eqb_neq x 0xFF)) by lia. destruct k as [|y k]; cbn [app].
  { exists 0%nat. split; [done|]. split; [done|]. by intros [? ?]. }
  cbn [forallb] in Hk. apply andb_prop in Hk as [Hy%nibbleb_true Hk]. rewrite (proj2 (Z.eqb_neq y 0xFF)) by lia. cbn [orb].
  destruct (Z.eqb_spec x y) as [->|Hne]; cbn [negb].
  - destruct (IH k Hp Hk) as (n & -> & Hn). exists (S n). split; [done|]. cbn [length]. split.
    + intros [= E]. apply prefix_cons. tauto.
    + intros E%prefix_cons_inv_2. f_equal. tauto.
  - exists 0%nat. split; [done|]. split; [done|]. intros E. by apply prefix_cons_inv_1 in E.
Qed.

(** ** What the decoder finds in an encoded node *)
Lemma length_mem_read m s : length (mem_read m s) = Z.to_nat (s_len s).
Proof. unfold mem_read. by rewrite length_map, length_seq. Qed.
Lemma mem_read_at m s l : 0 <= s_len s -> (mem_read m s = l <-> s_len s = zlen l /\ mem_at m (s_data s) l).
Proof.
  intros Hs. unfold mem_at. split.
  - intros <-. rewrite length_mem_read. split; [lia|]. intros i Hi. unfold mem_read.
    rewrite (nth_indep _ 0 (m (s_data s + Z.of_nat 0))) by (rewrite length_map, length_seq; lia).
    rewrite (map_nth (fun i => m (s_data s + Z.of_nat i))), seq_nth by lia. done.
  - intros [Hl Hm]. apply (nth_ext _ _ 0 0); [rewrite length_mem_read; lia|]. intros i Hi. rewrite length_mem_read in Hi.
    rewrite <- Hm by lia. unfold mem_read. rewrite (nth_indep _ 0 (m (s_data s + Z.of_nat 0))) by (rewrite length_map, length_seq; lia).
    rewrite (map_nth (fun i => m (s_data s + Z.of_nat i))), seq_nth by lia. done.
Qed.

Lemma enc_item_longer it : zlen (item_bytes it) <= zlen (enc_item it).
Proof. destruct it as [l|l]; cbn [enc_item item_bytes]; [rewrite rlp_string_unfold|unfold rlp_list]; rewrite length_app; lia. Qed.
Lemma enc_items_longer its it : In it its -> zlen (item_bytes it) <= zlen (enc_items its).
Proof.
  induction its as [|x its IH]; [done|]. change (enc_items (x :: its)) with (enc_item x ++ enc_items its). rewrite length_app.
  intros [-> | Hin]; [pose proof (enc_item_longer it); lia|]. specialize (IH Hin). lia.
Qed.
Lemma enc_item_bytes_ok it : bytes_ok (item_bytes it) -> zlen (item_bytes it) < 2 ^ 31 -> bytes_ok (enc_item it).
Proof.
  intros Hb Hl. assert (forall off, 0 <= off <= 0xc0 -> bytes_ok (rlp_header off (zlen (item_bytes it)))) as Hh.
  { intros off Ho. unfold rlp_header. destruct (Z.ltb_spec (zlen (item_bytes it)) 56).
    - constructor; [|constructor]. unfold is_byte. lia.
    - destruct (len_bytes_spec (zlen (item_bytes it))) as [? _]; [lia|]. constructor; [unfold is_byte; lia|apply be_bytes_ok]. }
  destruct it as [l|l]; cbn [enc_item item_bytes] in *.
  - rewrite rlp_string_unfold. apply Forall_app. split; [|done]. case_match; [constructor|apply Hh; lia].
  - unfold rlp_list. apply Forall_app. split; [apply Hh; lia|done].
Qed.
Lemma enc_items_bytes_ok its : Forall item_ok its -> bytes_ok (enc_items its).
Proof.
  induction 1 as [|it its [Hb Hl] _ IH]; [constructor|]. change (enc_items (it :: its)) with (enc_item it ++ enc_items its).
  apply Forall_app. split; [by apply enc_item_bytes_ok|done].
Qed.

(** A slice that lies in the address space. *)
Definition placed (s : slice) : Prop := 0 <= s_data s /\ 0 <= s_len s /\ s_data s + s_len s < 2 ^ 62.

Section Decode.
Context (m : memory) (its : list rlp_item) (Hok : Forall item_ok its) (Hlen : zlen (enc_items its) < 2 ^ 31).

Lemma items_count : zlen its < 2 ^ 31.
Proof. pose proof (enc_items_length its Hok). lia. Qed.
Lemma dec_list raw : placed raw -> mem_read m raw = rlp_list (enc_items its) ->
  exists node, dec m false raw 0 = Some (2, Some node) /\ mem_read m node = enc_items its /\ placed node.
Proof.
  intros (P1 & P2 & P3) Hr. apply mem_read_at in Hr as [L1 M1]; [|done].
  assert (enc_items [Lst (enc_items its)] = rlp_list (enc_items its)) as E by (unfold enc_items at 1; cbn [map concat]; apply app_nil_r).
  destruct (decode_item m false raw [Lst (enc_items its)] 0 (Lst (enc_items its))) as (d & Hd & D1 & D2 & D3); rewrite ?E; try done; try lia.
  - constructor; [|constructor]. split; [by apply enc_items_bytes_ok|done].
  - exists d. unfold dec. change 0 with (Z.of_nat 0). rewrite Hd. split; [done|]. cbn [item_bytes] in *. destruct D3. split.
    + apply mem_read_at; [lia|done].
    + split; lia.
Qed.
Lemma dec_count node : placed node -> mem_read m node = enc_items its -> dec m false node (-1) = Some (zlen its, None).
Proof.
  intros (P1 & P2 & P3) Hr. apply mem_read_at in Hr as [L1 M1]; [|done]. pose proof items_count.
  unfold dec. change (rlp_decode m false node (-1)) with (rlp_decode_len m node). by rewrite (decode_count m node its) by (done || lia).
Qed.
Lemma dec_nth_end node alias n it : placed node -> mem_read m node = enc_items its -> its !! n = Some it ->
  exists d, dec m alias node (Z.of_nat n) = Some (item_kind it, Some d) /\ mem_read m d = item_bytes it /\ placed d /\ s_data d + s_len d = s_data node + zlen (enc_items (take (S n) its)).
Proof.
  intros (P1 & P2 & P3) Hr Hn. apply mem_read_at in Hr as [L1 M1]; [|done]. pose proof items_count.
  destruct (decode_item_end m alias node its n it) as (d & Hd & D1 & D2 & D3 & D4); [done|done|done|lia|lia|lia|done|].
  exists d. unfold dec. rewrite Hd. split; [done|]. destruct D3. split; [apply mem_read_at; [lia|done]|]. split; [split; lia|done].
Qed.
Lemma dec_nth node alias n it : placed node -> mem_read m node = enc_items its -> its !! n = Some it ->
  exists d, dec m alias node (Z.of_nat n) = Some (item_kind it, Some d) /\ mem_read m d = item_bytes it /\ placed d.
Proof. intros Hp Hr Hn. destruct (dec_nth_end node alias n it Hp Hr Hn) as (d & ? & ? & ? & _). eauto. Qed.
Lemma dec_none node alias index : placed node -> mem_read m node = enc_items its -> zlen its <= index -> dec m alias node index = Some (0, None).
Proof.
  intros (P1 & P2 & P3) Hr Hn. apply mem_read_at in Hr as [L1 M1]; [|done]. pose proof items_count. pose proof (enc_items_length its Hok). unfold dec, rlp_decode.
  rewrite (rlp_loop_miss m alias node P1 ltac:(lia) its _ 0 0 index); [|done|by rewrite Z.add_0_r|lia..]. rewrite (proj2 (Z.ltb_ge index 0)) by lia. done.
Qed.
Lemma dec_in_list raw n it : placed raw -> mem_read m raw = rlp_list (enc_items its) -> its !! n = Some it ->
  exists d, rlp_decode_in_list m false raw (Z.of_nat n) = RDone (item_kind it) (Some d) /\ mem_read m d = item_bytes it /\ placed d.
Proof.
  intros Hp Hr Hn. destruct (dec_list raw Hp Hr) as (node & Ed & Rn & Pn). destruct (dec_nth node true n it Pn Rn Hn) as (d & En & Rd & Pd). exists d. split; [|done].
  unfold rlp_decode_in_list. unfold dec in Ed, En. destruct (rlp_decode m false raw 0) as [r o| |]; [|done..]. injection Ed as -> ->. cbn [negb Z.eqb Pos.eqb]. destruct (rlp_decode m true node (Z.of_nat n)) as [r o| |]; [|done..]. by injection En as -> ->.
Qed.
End Decode.

(** ** One node *)
Section Steps.
Context `{Keccak} (m : memory) (expected : expected_t) (Hexp : expected <> EAbsent).

Lemma bytes_okb l : forallb byteb l = true -> bytes_ok l.
Proof. intros H1. apply Forall_forall. intros x Hx. rewrite forallb_forall in H1. apply list_elem_of_In in Hx. specialize (H1 x Hx). unfold byteb, is_byte in *. lia. Qed.
Lemma pack_ok n : forall ns, (length ns <= n)%nat -> forallb nibbleb ns = true -> bytes_ok (pack ns).
Proof.
  induction n as [|n IH]; intros ns Hl Hn; destruct ns as [|x [|y t]]; [constructor|constructor| |constructor|constructor|]; cbn [length] in Hl; [lia|].
  cbn [forallb] in Hn. apply andb_prop in Hn as [Hx%nibbleb_true Hn]. apply andb_prop in Hn as [Hy%nibbleb_true Hn].
  cbn [pack]. constructor; [unfold is_byte; lia|]. apply IH; [lia|done].
Qed.
Lemma hex_prefix_ok ns leaf : forallb nibbleb ns = true -> bytes_ok (hex_prefix ns leaf).
Proof.
  intros Hn. unfold hex_prefix. destruct ns as [|x t]; [destruct leaf; repeat constructor; done|].
  pose proof Hn as Hn'. cbn [forallb] in Hn'. apply andb_prop in Hn' as [Hx%nibbleb_true Ht].
  case_match; constructor; [by destruct leaf|by eapply pack_ok|destruct leaf; unfold is_byte; lia|by eapply pack_ok].
Qed.

Lemma child_ref_hashed c : hashed c = true -> child_ref (is_empty c) (node_items c) = Str (keccak (node_enc c)).
Proof.
  unfold hashed, node_enc, child_ref. destruct (is_empty c); [cbn [negb]; by rewrite andb_false_r|]. intros [Hl _]%andb_prop.
  apply Nat.leb_le in Hl. by rewrite (proj2 (Nat.ltb_ge _ _)).
Qed.
Lemma enc_items_lt t : trie_ok t = true -> zlen (enc_items (node_items t)) < 2 ^ 31 /\ is_empty t = false.
Proof.
  intros Ht. assert (is_empty t = false) as He by (destruct t; [cbn in Ht; by rewrite ?andb_false_r in Ht|done|done|done]). split; [|done].
  assert ((zlen (node_enc t) <? 2 ^ 31) = true) as Hl by (by destruct t; cbn [trie_ok] in Ht; apply andb_prop in Ht as [? _]).
  apply Z.ltb_lt in Hl. unfold node_enc in Hl. rewrite He in Hl. unfold rlp_list in Hl. rewrite length_app in Hl. lia.
Qed.
Lemma node_items_ok t : trie_ok t = true -> Forall item_ok (node_items t).
Proof.
  intros Ht. destruct (enc_items_lt t Ht) as [Hl _]. apply Forall_forall. intros it Hin. apply list_elem_of_In in Hin. split.
  2: { pose proof (enc_items_longer _ _ Hin). lia. }
  assert (forall c, is_empty c || (hashed c && trie_ok c) = true -> bytes_ok (item_bytes (child_ref (is_empty c) (node_items c)))) as Hc.
  { intros c Hc. destruct (is_empty c) eqn:E; [constructor|]. cbn [orb] in Hc. apply andb_prop in Hc as [Hc _].
    rewrite <- E, child_ref_hashed by done. apply keccak_ok. }
  destruct t as [|p v|p c|cs v]; cbn [node_items trie_ok] in *; apply andb_prop in Ht as [_ Ht]; [done| | |].
  - apply andb_prop in Ht as [Hp Hv]. destruct Hin as [<- | [<- | []]]; [by apply hex_prefix_ok|by apply bytes_okb].
  - apply andb_prop in Ht as [Ht Ho]. apply andb_prop in Ht as [Hp Hh].
    destruct Hin as [<- | [<- | []]]; [by apply hex_prefix_ok|]. apply Hc. rewrite Hh, Ho. apply orb_true_r.
  - apply andb_prop in Ht as [Ht Hcs]. apply andb_prop in Ht as [_ Hv]. apply in_app_or in Hin as [Hin|[<- | []]]; [|by apply bytes_okb].
    apply in_map_iff in Hin as (c & <- & Hin). rewrite forallb_forall in Hcs. by apply Hc, Hcs.
Qed.

(** The decoded list and its length, for every node. *)
Lemma dec_node t raw : trie_ok t = true -> placed raw -> mem_read m raw = node_enc t ->
  exists node, dec m false raw 0 = Some (2, Some node) /\ dec m false node (-1) = Some (zlen (node_items t), None) /\
    forall alias n it, node_items t !! n = Some it ->
      exists d, dec m alias node (Z.of_nat n) = Some (item_kind it, Some d) /\ mem_read m d = item_bytes it /\ placed d.
Proof.
  intros Ht Hp Hr. destruct (enc_items_lt t Ht) as [Hl He]. pose proof (node_items_ok t Ht) as Hok. unfold node_enc in Hr. rewrite He in Hr.
  destruct (dec_list m _ Hok Hl raw Hp Hr) as (node & D1 & R1 & P1). exists node. split; [done|]. split.
  - by apply dec_count.
  - intros alias n it. by apply (dec_nth m _ Hok Hl).
Qed.
Lemma mem_head s l x : mem_read m s = x :: l -> m (s_data s) = x.
Proof.
  intros E. pose proof (f_equal length E) as El. rewrite length_mem_read in El. cbn [length] in El.
  apply mem_read_at in E as [_ E]; [|lia]. apply mem_at_cons in E. tauto.
Qed.

Lemma prefix_split p k : forallb nibbleb k = true -> p `prefix_of` k ->
  exists k', k = p ++ k' /\ forallb nibbleb k' = true /\ drop (length p) (k ++ [0xFF]) = k' ++ [0xFF].
Proof.
  intros Hk [k' ->]. exists k'. rewrite forallb_app in Hk. apply andb_prop in Hk as [_ Hk]. split; [done|]. split; [done|].
  by rewrite <- app_assoc, drop_app_length.
Qed.
Lemma present : match expected with EAbsent => true | _ => false end = false.
Proof. by destruct expected. Qed.

(** A slice with this content. *)
Definition reads (s : slice) (l : list Z) : Prop := placed s /\ mem_read m s = l.
(** The common part of leaf and extension: the path is compared, then the second item is read. *)
Lemma check_short t p leaf it raw left_ k (is_last : bool) last h :
  trie_ok t = true -> node_items t = [Str (hex_prefix p leaf); Str it] -> forallb nibbleb p = true -> forallb nibbleb k = true ->
  placed raw -> mem_read m raw = node_enc t -> length h = 32%nat ->
  (~ p `prefix_of` k -> exists w, check_node m (S left_) raw (k ++ [0xFF]) expected is_last last h = Some (false, w)) /\
  (forall k', k = p ++ k' ->
     if (if decide (k' = []) then is_last else negb leaf)
     then exists s, reads s it /\
       check_node m (S left_) raw (k ++ [0xFF]) expected is_last last h =
         Some (true, mk_walk (k' ++ [0xFF]) (Some s) (take 32 it ++ drop (length (take 32 it)) h) left_)
     else exists w, check_node m (S left_) raw (k ++ [0xFF]) expected is_last last h = Some (false, w)).
Proof.
  intros Ht Hi Hp Hk Hpl Hr Hh. destruct (dec_node t raw Ht Hpl Hr) as (node & D0 & Dn & Dit). rewrite Hi in Dn, Dit.
  destruct (Dit false 0%nat _ eq_refl) as (s0 & D1 & R1 & P1). destruct (Dit false 1%nat _ eq_refl) as (s1 & D2 & R2 & P2).
  cbn [item_kind item_bytes] in *. destruct (nibs_hex_prefix p leaf Hp) as (N1 & N2 & N3).
  destruct (matching_spec p k Hp Hk) as (n & Hm & Hn). pose proof (nibble_len_spec p Hp) as Hl. pose proof present as Hpr.
  assert (negb (Z.land (m (s_data s0)) 32 =? 0) = leaf) as Hleaf.
  { rewrite <- N2. destruct (hex_prefix p leaf) as [|x l]; [done|]. by rewrite (mem_head s0 _ _ R1). }
  cbn [check_node]. rewrite D0. cbn [mbind option_bind]. rewrite Dn. cbn [mbind option_bind]. change (zlen [Str (hex_prefix p leaf); Str it] =? 17) with false.
  change (zlen [Str (hex_prefix p leaf); Str it] =? 2) with true. cbv iota.
  change (dec m false node 0) with (dec m false node (Z.of_nat 0)). change (dec m false node 1) with (dec m false node (Z.of_nat 1)).
  rewrite D1. cbn [mbind option_bind Z.eqb Pos.eqb negb]. rewrite R1, N1, Hm. cbn [mbind option_bind]. rewrite Hl. cbn [mbind option_bind].
  rewrite Hpr, D2, Hleaf. cbn [andb negb mbind option_bind Z.eqb Pos.eqb default]. unfold id. split.
  - intros Hnp. rewrite (proj2 (Nat.eqb_neq (length p) n)) by (intros E; apply Hnp, Hn; done). by eexists.
  - intros k' ->. rewrite (proj2 (Nat.eqb_eq (length p) n)) by (symmetry; apply Hn; by exists k'). cbn [negb].
    rewrite forallb_app in Hk. apply andb_prop in Hk as [_ Hk]. rewrite <- app_assoc, drop_app_length.
    assert (memcpy_at h 0 (take 32 (mem_read m s1)) = Some (take 32 it ++ drop (length (take 32 it)) h)) as Hc.
    { rewrite R2, memcpy_at_Some by (rewrite length_take; lia). done. }
    destruct k' as [|x k']; cbn [app list_lookup_total lookup list_lookup mbind option_bind].
    + change (255 =? 255) with true. cbv iota. rewrite orb_false_r. rewrite decide_True by done. destruct is_last; cbn [negb]; [|by eexists].
      rewrite Hc. exists s1. split; [by split|done].
    + cbn [forallb] in Hk. apply andb_prop in Hk as [Hx%nibbleb_true Hk]. rewrite (proj2 (Z.eqb_neq x 0xFF)) by lia. rewrite andb_true_r.
      rewrite decide_False by done. destruct leaf; cbn [negb]; [by eexists|]. rewrite Hc. exists s1. split; [by split|done].
Qed.

(** A branch: the child of the next nibble, or the value. *)
Lemma check_branch cs v raw left_ k (is_last : bool) last h :
  trie_ok (Branch cs v) = true -> forallb nibbleb k = true -> placed raw -> mem_read m raw = node_enc (Branch cs v) ->
  match k with
  | [] => if is_last then exists s, reads s v /\
            check_node m (S left_) raw (k ++ [0xFF]) expected is_last last h = Some (true, mk_walk (k ++ [0xFF]) (Some s) h left_)
          else exists w, check_node m (S left_) raw (k ++ [0xFF]) expected is_last last h = Some (false, w)
  | x :: k' => exists c, cs !! Z.to_nat x = Some c /\ (is_empty c = true \/ (hashed c = true /\ trie_ok c = true)) /\
      check_node m (S left_) raw (k ++ [0xFF]) expected is_last last h =
        Some (true, mk_walk (k' ++ [0xFF]) last (if is_empty c then replicate 32 0 else keccak (node_enc c)) left_)
  end.
Proof.
  intros Ht Hk Hpl Hr. destruct (dec_node _ raw Ht Hpl Hr) as (node & D0 & Dn & Dit). cbn [node_items] in Dn, Dit.
  cbn [trie_ok] in Ht. apply andb_prop in Ht as [_ Ht]. apply andb_prop in Ht as [Ht Hcs]. apply andb_prop in Ht as [Hl16 Hv].
  apply Nat.eqb_eq in Hl16. rewrite forallb_forall in Hcs.
  assert (zlen (map (fun c => child_ref (is_empty c) (node_items c)) cs ++ [Str v]) = 17) as E17 by (rewrite length_app, length_map, Hl16; done).
  rewrite E17 in Dn. destruct k as [|x k'].
  - cbn [check_node]. rewrite D0. cbn [mbind option_bind]. rewrite Dn. cbn [mbind option_bind Z.eqb Pos.eqb app]. cbn [lookup list_lookup mbind option_bind Z.eqb Pos.eqb].
    destruct is_last; cbn [negb]; [|by eexists].
    destruct (Dit true 16%nat (Str v)) as (s & D1 & R1 & P1).
    { rewrite lookup_app_r by (rewrite length_map; lia). by rewrite length_map, Hl16. }
    change (Z.of_nat 16) with 16 in D1. rewrite D1. cbn [item_kind mbind option_bind Z.eqb Pos.eqb negb]. exists s. split; [by split|done].
  - cbn [forallb] in Hk. apply andb_prop in Hk as [Hx%nibbleb_true Hk].
    destruct (lookup_lt_is_Some_2 cs (Z.to_nat x)) as [c Hc]; [lia|]. exists c. split; [done|].
    assert (is_empty c || (hashed c && trie_ok c) = true) as Hcok by (apply Hcs, list_elem_of_In; by eapply list_elem_of_lookup_2).
    split. { apply orb_prop in Hcok as [?|[? ?]%andb_prop]; auto. }
    destruct (Dit false (Z.to_nat x) (child_ref (is_empty c) (node_items c))) as (s & D1 & R1 & P1).
    { rewrite lookup_app_l by (rewrite length_map; lia). rewrite list_lookup_fmap, Hc. done. }
    rewrite Z2Nat.id in D1 by lia. cbn [check_node]. rewrite D0. cbn [mbind option_bind]. rewrite Dn. cbn [mbind option_bind Z.eqb Pos.eqb app lookup list_lookup tail].
    rewrite (proj2 (Z.eqb_neq x 0xFF)) by lia. rewrite D1. cbn [mbind option_bind]. destruct P1 as (_ & P1 & _).
    pose proof (f_equal length R1) as El. rewrite length_mem_read in El.
    destruct (is_empty c) eqn:Ee.
    + cbn [child_ref item_kind item_bytes length] in *. cbn [Z.eqb Pos.eqb]. rewrite (proj2 (Z.eqb_neq (s_len s) 32)) by lia. done.
    + cbn [orb] in Hcok. apply andb_prop in Hcok as [Hh _]. assert (child_ref false (node_items c) = Str (keccak (node_enc c))) as Ec by (rewrite <- Ee; by apply child_ref_hashed).
      rewrite Ec in *.
      cbn [item_kind item_bytes Z.eqb Pos.eqb] in *. rewrite keccak_length in El. rewrite (proj2 (Z.eqb_eq (s_len s) 32)) by lia. by rewrite R1.
Qed.
Lemma check_leaf p v raw left_ k is_last last h :
  trie_ok (Leaf p v) = true -> forallb nibbleb k = true -> placed raw -> mem_read m raw = node_enc (Leaf p v) -> length h = 32%nat ->
  if decide (k = p) then
    if (is_last : bool) then exists s h', reads s v /\
      check_node m (S left_) raw (k ++ [0xFF]) expected is_last last h = Some (true, mk_walk [0xFF] (Some s) h' left_)
    else exists w, check_node m (S left_) raw (k ++ [0xFF]) expected is_last last h = Some (false, w)
  else exists w, check_node m (S left_) raw (k ++ [0xFF]) expected is_last last h = Some (false, w).
Proof.
  intros Ht Hk Hpl Hr Hh. assert (forallb nibbleb p = true) as Hp by (cbn [trie_ok] in Ht; apply andb_prop in Ht as [_ Ht]; by apply andb_prop in Ht as [? _]).
  destruct (check_short _ p true v raw left_ k is_last last h Ht eq_refl Hp Hk Hpl Hr Hh) as [H1 H2].
  destruct (decide (p `prefix_of` k)) as [[k' ->]|Hn]; [|rewrite decide_False by (by intros ->); by apply H1].
  specialize (H2 k' eq_refl). destruct k' as [|x k'].
  - rewrite app_nil_r in *. rewrite decide_True by done. rewrite decide_True in H2 by done. destruct is_last; [|done].
    destruct H2 as (s & R1 & H2). exists s. by eexists.
  - rewrite decide_False in H2 by done. rewrite decide_False; [done|]. intros E. apply (f_equal length) in E. rewrite length_app in E. cbn [length] in E. lia.
Qed.
Lemma check_ext p c raw left_ k is_last last h :
  trie_ok (Ext p c) = true -> forallb nibbleb k = true -> placed raw -> mem_read m raw = node_enc (Ext p c) -> length h = 32%nat ->
  (~ p `prefix_of` k -> exists w, check_node m (S left_) raw (k ++ [0xFF]) expected is_last last h = Some (false, w)) /\
  (forall k', k = p ++ k' ->
     if (if decide (k' = []) then is_last else true)
     then exists s, reads s (keccak (node_enc c)) /\
       check_node m (S left_) raw (k ++ [0xFF]) expected is_last last h = Some (true, mk_walk (k' ++ [0xFF]) (Some s) (keccak (node_enc c)) left_)
     else exists w, check_node m (S left_) raw (k ++ [0xFF]) expected is_last last h = Some (false, w)).
Proof.
  intros Ht Hk Hpl Hr Hh. pose proof Ht as Ht'. cbn [trie_ok] in Ht'. apply andb_prop in Ht' as [_ Ht']. apply andb_prop in Ht' as [Ht' _].
  apply andb_prop in Ht' as [Hp Hc]. pose proof (keccak_length (node_enc c)) as Hkl.
  assert (take 32 (keccak (node_enc c)) ++ drop (length (take 32 (keccak (node_enc c)))) h = keccak (node_enc c)) as Eh.
  { rewrite length_take, Hkl, Nat.min_id, drop_ge, app_nil_r by lia. apply take_ge. lia. }
  destruct (check_short _ p false (keccak (node_enc c)) raw left_ k is_last last h Ht) as [H1 H2]; try done.
  { cbn [node_items]. by rewrite child_ref_hashed. }
  rewrite Eh in H2. done.
Qed.

(** ** The whole proof *)

(** The hash of [b] is neither the zeros that stand for an empty child nor that of another node. *)
Definition no_collision (t : trie) (b : list Z) : Prop :=
  keccak b <> replicate 32 0 /\ forall e, In e (nodes t) -> keccak b = keccak e -> b = e.
Lemma node_enc_in t : is_empty t = false -> In (node_enc t) (nodes t).
Proof. destruct t; [done| | |]; intros _; by left. Qed.
Lemma no_collision_ext p c b : no_collision (Ext p c) b -> no_collision c b.
Proof. intros [H1 H2]. split; [done|]. intros e He. apply H2. by right. Qed.
Lemma no_collision_branch cs v n c b : cs !! n = Some c -> no_collision (Branch cs v) b -> no_collision c b.
Proof.
  intros Hc [H1 H2]. split; [done|]. intros e He. apply H2. right. apply in_concat. exists (nodes c). split; [|done].
  apply in_map, list_elem_of_In. by eapply list_elem_of_lookup_2.
Qed.

(** What a last value can be: the value of the key, or a reference met on the way. *)
Definition last_ok (t : trie) (k : list Z) (last : option slice) : Prop :=
  match last with
  | None => True
  | Some s => length (mem_read m s) = 32%nat \/ mem_read m s = [] \/ (has_value t k (mem_read m s) /\ placed s)
  end.
Definition last_ref (last : option slice) : Prop := match last with None => True | Some s => length (mem_read m s) = 32%nat end.
Lemma last_ref_ok t k last : last_ref last -> last_ok t k last.
Proof. destruct last; [by left|done]. Qed.

Lemma verify_loop_sound proof : forall t k w w',
  trie_ok t = true -> forallb nibbleb k = true -> w_key w = k ++ [0xFF] -> w_hash w = keccak (node_enc t) -> last_ref (w_last w) ->
  Forall placed proof -> Forall (fun p => no_collision t (mem_read m p)) proof ->
  verify_loop m proof expected w = Some (true, w') -> last_ok t k (w_last w').
Proof.
  induction proof as [|p rest IH]; intros t k w w' Ht Hk Hwk Hwh Hl Hpl Hnc Hv; [simplify_eq/=; by apply last_ref_ok|].
  inversion_clear Hpl as [|? ? Hp Hpl']. inversion_clear Hnc as [|? ? Hc Hnc']. cbn [verify_loop] in Hv.
  rewrite Hwh, memcmp_eq in Hv by (by rewrite !keccak_length). case_bool_decide as Hh; [|done]. cbn [negb] in Hv.
  destruct (enc_items_lt t Ht) as [_ He]. assert (mem_read m p = node_enc t) as Hr by (destruct Hc as [_ Hc]; apply Hc; [by apply node_enc_in|done]).
  destruct (w_left w) as [|left_]; [done|]. rewrite Hwk in Hv. pose proof (keccak_length (node_enc t)) as Hkl.
  set (is_last := match rest with [] => true | _ => false end) in *. destruct t as [|q v|q c|cs v]; [done| | |].
  - pose proof (check_leaf q v p left_ k is_last (w_last w) (keccak (node_enc (Leaf q v))) Ht Hk Hp Hr Hkl) as Hn.
    destruct (decide (k = q)) as [->|]; [|destruct Hn as [? Hn]; rewrite Hn in Hv; done].
    destruct is_last eqn:El; [|destruct Hn as [? Hn]; rewrite Hn in Hv; done].
    destruct Hn as (s & h' & [P1 R1] & Hn). rewrite Hn in Hv. destruct rest; [|done]. injection Hv as <-. cbn [w_last last_ok].
    right. right. split; [rewrite R1; constructor|done].
  - destruct (check_ext q c p left_ k is_last (w_last w) (keccak (node_enc (Ext q c))) Ht Hk Hp Hr Hkl) as [H1 H2].
    destruct (decide (q `prefix_of` k)) as [[k' ->]|Hn]; [|destruct (H1 Hn) as [? Hn']; rewrite Hn' in Hv; done].
    specialize (H2 k' eq_refl). destruct (if decide (k' = []) then is_last else true); [|destruct H2 as [? Hn']; rewrite Hn' in Hv; done].
    destruct H2 as (s & [P1 R1] & Hn). rewrite Hn in Hv. cbn [trie_ok] in Ht. apply andb_prop in Ht as [_ Ht]. apply andb_prop in Ht as [_ Htc].
    rewrite forallb_app in Hk. apply andb_prop in Hk as [_ Hk].
    apply (IH c k') in Hv; [|done|done|done|done| |done|].
    + destruct (w_last w') as [s'|]; [|done]. cbn [last_ok] in *. destruct Hv as [?|[?|[? ?]]]; [by left|by (right; left)|]. right. right. split; [by constructor|done].
    + cbn [w_last last_ref]. rewrite R1. apply keccak_length.
    + eapply Forall_impl; [done|]. intros ?. apply no_collision_ext.
  - pose proof (check_branch cs v p left_ k is_last (w_last w) (keccak (node_enc (Branch cs v))) Ht Hk Hp Hr) as Hn. destruct k as [|x k'].
    + destruct is_last eqn:El; [|destruct Hn as [? Hn]; rewrite Hn in Hv; done]. destruct Hn as (s & [P1 R1] & Hn). rewrite Hn in Hv.
      destruct rest; [|done]. injection Hv as <-. cbn [w_last last_ok]. rewrite R1. right.
      destruct (decide (v = [])); [by left|right; split; [by constructor|done]].
    + destruct Hn as (c & Hcs & Hc' & Hn). rewrite Hn in Hv. destruct (is_empty c) eqn:Ee.
      * destruct rest as [|q rest]; [cbn in Hv; simplify_eq; by apply last_ref_ok|]. inversion_clear Hnc' as [|? ? [Hz _] _].
        cbn [verify_loop w_hash] in Hv. rewrite memcmp_eq in Hv by (by rewrite keccak_length). case_bool_decide as Hz'; [|done]. by rewrite Hz' in Hz.
      * destruct Hc' as [?|[_ Htc]]; [congruence|]. cbn [forallb] in Hk. apply andb_prop in Hk as [Hx%nibbleb_true Hk].
        apply (IH c k') in Hv; [|done|done|done|done|done|done|].
        -- destruct (w_last w') as [s'|]; [|done]. cbn [last_ok] in *. destruct Hv as [?|[?|[? ?]]]; [by left|by (right; left)|]. right. right.
           split; [by apply value_child with c; [|lia|]|done].
        -- eapply Forall_impl; [done|]. intros ?. by eapply no_collision_branch.
Qed.

(** The slices [proof] hold the encodings of the nodes [ns]. *)
Definition proof_of (proof : list slice) (ns : list trie) : Prop := Forall2 (fun p n => placed p /\ mem_read m p = node_enc n) proof ns.

Lemma on_path_head t k v ns : on_path t k v ns -> exists ns', ns = t :: ns'.
Proof. inversion 1; eauto. Qed.
Lemma verify_loop_complete t k v ns : on_path t k v ns -> forall proof w, trie_ok t = true -> forallb nibbleb k = true ->
  proof_of proof ns -> w_key w = k ++ [0xFF] -> w_hash w = keccak (node_enc t) -> (length ns <= w_left w)%nat ->
  exists w' s, verify_loop m proof expected w = Some (true, w') /\ w_last w' = Some s /\ mem_read m s = v.
Proof.
  induction 1 as [q v|q c k v ns Hk0 Hp IH|cs u x c k v ns Hc Hx Hp IH|cs v Hv0]; intros proof w Ht Hk Hpr Hwk Hwh Hl;
    inversion_clear Hpr as [|p ? rest ? [Hpl Hr] Hpr']; cbn [verify_loop]; rewrite Hwh, Hwk, memcmp_eq by (by rewrite !keccak_length);
    rewrite bool_decide_eq_true_2 by (by rewrite Hr); cbn [negb]; destruct (w_left w) as [|left_]; cbn [length] in Hl; try lia.
  - inversion_clear Hpr'. pose proof (check_leaf q v p left_ q true (w_last w) (keccak (node_enc (Leaf q v))) Ht Hk Hpl Hr (keccak_length _)) as Hn.
    rewrite decide_True in Hn by done. destruct Hn as (s & h' & [_ R1] & Hn). rewrite Hn. eexists _, s. done.
  - destruct (check_ext q c p left_ (q ++ k) (match rest with [] => true | _ => false end) (w_last w) (keccak (node_enc (Ext q c))) Ht Hk Hpl Hr (keccak_length _)) as [_ H2].
    specialize (H2 k eq_refl). rewrite decide_False in H2 by done. destruct H2 as (s & [_ R1] & Hn). rewrite Hn.
    cbn [trie_ok] in Ht. apply andb_prop in Ht as [_ Ht]. apply andb_prop in Ht as [_ Htc]. rewrite forallb_app in Hk. apply andb_prop in Hk as [_ Hk].
    apply IH; try done. cbn [w_left]. lia.
  - pose proof (check_branch cs u p left_ (x :: k) (match rest with [] => true | _ => false end) (w_last w) (keccak (node_enc (Branch cs u))) Ht Hk Hpl Hr) as Hn.
    destruct Hn as (c' & Hc' & Hok & Hn). rewrite Hn. replace c' with c in * by congruence.
    destruct (is_empty c) eqn:Ee. { destruct c; [inversion Hp|done|done|done]. }
    destruct Hok as [?|[_ Htc]]; [congruence|]. cbn [forallb] in Hk. apply andb_prop in Hk as [_ Hk]. apply IH; try done. cbn [w_left]. lia.
  - inversion_clear Hpr'. pose proof (check_branch cs v p left_ [] true (w_last w) (keccak (node_enc (Branch cs v))) Ht Hk Hpl Hr) as Hn.
    destruct Hn as (s & [_ R1] & Hn). rewrite Hn. eexists _, s. done.
Qed.
End Steps.

Lemma nibs_ok path : bytes_ok path -> forallb nibbleb (nibs path) = true.
Proof.
  induction 1 as [|b path Hb _ IH]; [done|]. unfold nibs in *. cbn [map concat app forallb]. rewrite IH, andb_true_r.
  apply andb_true_intro. unfold is_byte in Hb. change 0x0F with (Z.ones 4). rewrite Z.land_ones, Z.shiftr_div_pow2 by lia. change (2 ^ 4) with 16.
  split; apply nibbleb_true; [split; [apply Z.div_pos; lia|apply Z.div_lt_upper_bound; lia]|apply Z.mod_pos_bound; lia].
Qed.
Lemma path_plain path : trie_path_to_nibbles path false = nibs path ++ [0xFF].
Proof. unfold trie_path_to_nibbles. destruct path as [|b path]; [done|]. cbn [path_loop andb]. by rewrite path_loop_nibs. Qed.
Lemma b_cmp_bytes a b : b_cmp (Some (bytes a)) (Some (bytes b)) = bool_decide (a = b).
Proof.
  unfold b_cmp, bytes. cbn [b_len b_data]. destruct (Z.eqb_spec (zlen a) 0) as [Ea|Ea], (Z.eqb_spec (zlen b) 0) as [Eb|Eb]; cbn [andb].
  1: { destruct a, b; [done|cbn [length] in *; lia..]. }
  all: destruct (Z.eqb_spec (zlen a) (zlen b)) as [E|E]; cbn [andb]; [|symmetry; apply bool_decide_eq_false_2; congruence].
  all: rewrite !take_ge by lia; apply memcmp_eq; lia.
Qed.

Section Theorems.
Context `{Keccak} (m : memory).

(** The value an accepted proof is for: the given one, or the one filled in. *)
Lemma proof_sound t path proof ex r v : trie_ok t = true -> bytes_ok path ->
  Forall placed proof -> Forall (fun p => no_collision t (mem_read m p)) proof -> v <> [] -> length v <> 32%nat ->
  trie_verify_proof m (keccak (node_enc t)) path proof ex = Some (true, r) ->
  ex = EValue v \/ ex = EAny /\ (exists s, r = Some s /\ mem_read m s = v) -> has_value t (nibs path) v.
Proof.
  intros Ht Hp Hpl Hnc Hv0 Hv32. unfold trie_verify_proof, read_at. rewrite keccak_length, drop_0, take_ge by (rewrite keccak_length; lia). cbn [Nat.leb Nat.add mbind option_bind].
  rewrite path_plain. set (w := mk_walk _ None _ _). pose proof (nibs_ok path Hp) as Hk. intros Hv Hex.
  assert (ex <> EAbsent) as Hne by (by destruct Hex as [->|[-> _]]). destruct (verify_loop m proof ex w) as [[ok w']|] eqn:E; [|done].
  assert (ok = true -> last_ok m t (nibs path) (w_last w')) as Hs by (intros ->; by apply (verify_loop_sound m ex Hne proof t (nibs path) w w')). destruct Hex as [->|[-> (s & -> & <-)]].
  - injection Hv as Hok _. apply andb_prop in Hok as [Hok Hb]. specialize (Hs Hok). revert Hb Hs. destruct (w_last w') as [s|]; [|done]. intros Hb Hs. change (b_cmp (Some (bytes v)) (Some (bytes (mem_read m s))) = true) in Hb. rewrite b_cmp_bytes in Hb. apply bool_decide_eq_true in Hb. cbn [last_ok] in Hs. subst v. tauto.
  - injection Hv as -> Hw. rewrite Hw in Hs. specialize (Hs eq_refl). cbn [last_ok] in Hs. tauto.
Qed.

(** A value that was filled in lies in memory. *)
Lemma proof_found t path proof s : trie_ok t = true -> bytes_ok path -> Forall placed proof -> Forall (fun p => no_collision t (mem_read m p)) proof -> mem_read m s <> [] -> length (mem_read m s) <> 32%nat ->
  trie_verify_proof m (keccak (node_enc t)) path proof EAny = Some (true, Some s) -> has_value t (nibs path) (mem_read m s) /\ placed s.
Proof.
  intros Ht Hp Hpl Hnc Hv0 Hv32. unfold trie_verify_proof, read_at. rewrite keccak_length, drop_0, take_ge by (rewrite keccak_length; lia). cbn [Nat.leb Nat.add mbind option_bind]. rewrite path_plain. set (w := mk_walk _ None _ _).
  destruct (verify_loop m proof EAny w) as [[ok w']|] eqn:E; [|done]. intros [= -> Hw]. pose proof (verify_loop_sound m EAny ltac:(done) proof t (nibs path) w w' Ht (nibs_ok path Hp) eq_refl eq_refl I Hpl Hnc E) as Hs. rewrite Hw in Hs. cbn [last_ok] in Hs. tauto.
Qed.

(** C1. Inclusion proofs are sound for tries in which every node below the root is referred to by its
    hash, that is, has an encoding of at least 32 bytes: when the hash function has no collision
    between the proof and the nodes of the trie below the given root, a proof is accepted for a value
    (given or filled in) only if the trie holds that value for the key.  Excluded are the values of 32
    bytes, because the proof may stop at an extension node, whose reference to its child is then taken
    for the value, and the empty one.  For embedded nodes (less than 32 bytes) it does not hold: see
    [embedded_leaf_forged]. *)
Theorem trie_proof_sound t path proof v : trie_ok t = true -> bytes_ok path ->
  Forall placed proof -> Forall (fun p => no_collision t (mem_read m p)) proof -> v <> [] -> length v <> 32%nat ->
  (trie_verify_proof m (keccak (node_enc t)) path proof (EValue v) = Some (true, None) -> has_value t (nibs path) v) /\
  (forall s, trie_verify_proof m (keccak (node_enc t)) path proof EAny = Some (true, Some s) -> mem_read m s = v -> has_value t (nibs path) v).
Proof. intros Ht Hp Hpl Hnc Hv0 Hv32. split; [|intros s]; intros E; intros; (eapply proof_sound; [done..|exact E|]); eauto. Qed.

(** C38. Inclusion proofs are complete: the encodings of the nodes on the path to a value, at most
    MERKLE_DEPTH_MAX, are an accepted proof of it, and the one from which it is read when the
    caller leaves it open.  This is for tries in which every node below the root is referred to by its
    hash (an encoding of at least 32 bytes; proofs with embedded nodes may be refused or run into
    undefined behaviour) and for keys that do not end at the child of an extension. *)
Theorem trie_proof_complete t path v ns proof : trie_ok t = true -> bytes_ok path -> on_path t (nibs path) v ns ->
  proof_of m proof ns -> (length ns <= MERKLE_DEPTH_MAX)%nat ->
  trie_verify_proof m (keccak (node_enc t)) path proof (EValue v) = Some (true, None) /\
  exists s, trie_verify_proof m (keccak (node_enc t)) path proof EAny = Some (true, Some s) /\ mem_read m s = v.
Proof.
  intros Ht Hp Hon Hpr Hl. unfold trie_verify_proof, read_at. rewrite keccak_length, drop_0, take_ge by (rewrite keccak_length; lia). cbn [Nat.leb Nat.add mbind option_bind].
  rewrite path_plain. set (w := mk_walk _ None _ _). pose proof (nibs_ok path Hp) as Hk.
  assert (forall ex, ex <> EAbsent -> exists w' s, verify_loop m proof ex w = Some (true, w') /\ w_last w' = Some s /\ mem_read m s = v) as Hc.
  { intros ex Hex. by apply (verify_loop_complete m ex Hex t (nibs path) v ns). }
  split.
  - destruct (Hc (EValue v)) as (w' & s & -> & -> & ->); [done|]. cbn [andb]. by rewrite b_cmp_bytes, bool_decide_eq_true_2.
  - destruct (Hc EAny) as (w' & s & -> & -> & R1); [done|]. by exists s.
Qed.

(** Absence is not proved: asked whether a key does not exist (expectedValue NULL), the
    verifier accepts the empty proof for every root and key, and it accepts the root node alone
    whenever that is a branch, also for keys the trie holds. *)
Theorem trie_absence_unproved path :
  (forall root, (32 <= length root)%nat -> trie_verify_proof m root path [] EAbsent = Some (true, None)) /\
  (forall cs v raw, trie_ok (Branch cs v) = true -> bytes_ok path -> path <> [] -> placed raw -> mem_read m raw = node_enc (Branch cs v) ->
     trie_verify_proof m (keccak (node_enc (Branch cs v))) path [raw] EAbsent = Some (true, None)).
Proof.
  split.
  - intros root Hr. unfold trie_verify_proof, read_at. by rewrite (proj2 (Nat.leb_le (0 + 32) (length root))) by lia.
  - intros cs v raw Ht Hp Hne Hpl Hr. unfold trie_verify_proof, read_at. rewrite keccak_length, drop_0, take_ge by (rewrite keccak_length; lia).
    cbn [Nat.leb Nat.add mbind option_bind]. rewrite path_plain. pose proof (nibs_ok path Hp) as Hk. cbn [verify_loop w_hash w_left w_key w_last].
    rewrite memcmp_eq, Hr, bool_decide_eq_true_2 by (by rewrite ?keccak_length). cbn [negb]. unfold MERKLE_DEPTH_MAX.
    pose proof (check_branch m EAbsent cs v raw 63 (nibs path) true None (keccak (node_enc (Branch cs v))) Ht Hk Hpl Hr) as Hn.
    destruct path as [|b path]; [done|]. unfold nibs in *. cbn [map concat app] in *. destruct Hn as (c & _ & _ & Hn). rewrite Hn. done.
Qed.
End Theorems.

(** ** Concrete proofs *)

(** A polynomial checksum in place of the hash. *)
#[local] Instance checksum : Keccak.
Proof.
  refine {| keccak l := be_bytes 32 (fold_left (fun acc b => (acc * 257 + b + 1) mod 2 ^ 256) l 1) |}.
  - intros. apply length_be_bytes.
  - intros. apply be_bytes_ok.
Defined.
Definition sample_trie : trie := Branch ([Empty; Leaf [2] (replicate 40 7)] ++ replicate 14 Empty) [].
Definition sample_nodes : list trie := [sample_trie; Leaf [2] (replicate 40 7)].
Definition sample_mem : memory := mem_of (concat (map node_enc sample_nodes)).
Definition sample_proof : list slice :=
  [mk_slice 0 (zlen (node_enc sample_trie)); mk_slice (zlen (node_enc sample_trie)) (zlen (node_enc (Leaf [2] (replicate 40 7))))].

Lemma sample_path : on_path sample_trie (nibs [0x12]) (replicate 40 7) sample_nodes.
Proof. apply path_child with (Leaf [2] (replicate 40 7)); [reflexivity|discriminate|apply path_leaf]. Defined.
Lemma sample_placed : proof_of sample_mem sample_proof sample_nodes.
Proof.
  repeat constructor; try (vm_compute; reflexivity); vm_compute; discriminate.
Defined.
Lemma sample_no_collision : Forall (fun p => no_collision sample_trie (mem_read sample_mem p)) sample_proof.
Proof.
  assert (Forall (fun p => keccak (mem_read sample_mem p) <> replicate 32 0 /\
            Forall (fun e => keccak (mem_read sample_mem p) = keccak e -> mem_read sample_mem p = e) (nodes sample_trie)) sample_proof) as Hd by decide_now.
  eapply Forall_impl; [exact Hd|]. intros p [H1 H2]. split; [exact H1|]. intros e He. exact (proj1 (List.Forall_forall _ _) H2 e He).
Defined.

Lemma trie_proof_sound_witness : has_value sample_trie (nibs [0x12]) (replicate 40 7).
Proof.
  apply (trie_proof_sound sample_mem sample_trie [0x12] sample_proof (replicate 40 7)); [reflexivity|decide_now| |apply sample_no_collision|discriminate|discriminate|].
  - repeat constructor; vm_compute; (reflexivity || discriminate).
  - vm_compute. reflexivity.
Defined.
Lemma trie_proof_complete_witness :
  trie_verify_proof sample_mem (keccak (node_enc sample_trie)) [0x12] sample_proof (EValue (replicate 40 7)) = Some (true, None).
Proof.
  apply (trie_proof_complete sample_mem sample_trie [0x12] (replicate 40 7) sample_nodes sample_proof);
    [reflexivity|decide_now|exact sample_path|exact sample_placed|vm_compute; lia].
Defined.
Lemma trie_absence_unproved_witness :
  trie_verify_proof sample_mem (keccak (node_enc sample_trie)) [0x12] [] EAbsent = Some (true, None) /\
  trie_verify_proof sample_mem (keccak (node_enc sample_trie)) [0x12] [mk_slice 0 (zlen (node_enc sample_trie))] EAbsent = Some (true, None).
Proof.
  destruct (trie_absence_unproved sample_mem [0x12]) as [H1 H2]. split.
  - apply H1. vm_compute. lia.
  - apply H2; [reflexivity|decide_now|discriminate| |vm_compute; reflexivity]. repeat constructor; vm_compute; (reflexivity || discriminate).
Defined.

(** Why the nodes have to be referred to by hash: for a leaf that is embedded in the first slot of a
    branch the verifier looks behind the branch, in bytes no hash was taken of.  Whatever leaf is
    found there has its value accepted for the key (here 40 times 9 in place of 7). *)
Definition embedded_trie : trie := Branch (Leaf [2] [7] :: replicate 15 Empty) [].
Definition forged_mem : memory := mem_of (node_enc embedded_trie ++ node_enc (Leaf [2] (replicate 40 9))).
Example embedded_leaf_forged :
  trie_ok embedded_trie = false /\
  trie_verify_proof forged_mem (keccak (node_enc embedded_trie)) [0x02] [mk_slice 0 (zlen (node_enc embedded_trie))] (EValue (replicate 40 9)) = Some (true, None).
Proof. split; [vm_compute; reflexivity|lazy; reflexivity]. Qed.
