(* ===== verification/Data.v ===== *)
(** * core/util/data.c: tokens and their binary format

    JSON values are kept as an array of tokens in depth-first order; a container is followed by its
    children.  A pointer to a token is modelled by the array from there on.  The file holds the
    navigation ([d_token_size], [d_get], ...), the construction of token arrays, the writer and the
    reader of the binary format, and relates them to values as an inductive type. *)
From S2P Require Import Prelude Utils Bytes.

Definition JSON_MAX_ALLOWED_TOKENS : Z := 1000000.
Definition T_BYTES : Z := 0.
Definition T_STRING : Z := 1.
Definition T_ARRAY : Z := 2.
Definition T_OBJECT : Z := 3.
Definition T_BOOLEAN : Z := 4.
Definition T_INTEGER : Z := 5.
Definition T_NULL : Z := 6.
Definition TOKEN_STATE_ALLOCATED : Z := 1.

(** ** Tokens *)

(** [t_data] is what lies at [item->data]; the type is in the upper four bits of [t_len]. *)
Record d_token_t := mk_token { t_data : option (list Z); t_len : Z; t_key : Z; t_state : Z }.
Definition d_type (t : d_token_t) : Z := Z.shiftr (Z.land (t_len t) 0xF0000000) 28.
Definition d_len (t : d_token_t) : Z := Z.land (t_len t) 0xFFFFFFF.
Definition is_container (t : d_token_t) : bool := (d_type t =? T_ARRAY) || (d_type t =? T_OBJECT).

(** ** Navigation; [None] is a read behind the end of the array *)

(** [for (i = 0; i < n; i++) c += size(item + c)]. *)
Fixpoint size_loop (fuel : nat) (size : list d_token_t -> option nat) (l : list d_token_t) (i n : Z) (c : nat) : option nat :=
  if i <? n then
    match fuel with
    | O => None
    | S f => s ← size (drop c l); size_loop f size l (i + 1) n (c + s)
    end
  else Some c.
Fixpoint token_size (fuel : nat) (l : list d_token_t) : option nat :=
  match fuel, l with
  | S f, t :: _ => if is_container t then size_loop f (token_size f) l 0 (d_len t) 1 else Some 1%nat
  | _, _ => None
  end.
(** Every token takes a round, so the length of the array is enough. *)
Definition d_token_size (l : list d_token_t) : option nat := token_size (S (length l)) l.
Definition d_next (l : list d_token_t) : option (list d_token_t) := s ← d_token_size l; Some (drop s l).

(** The loops over children; [hit] decides by index and token. *)
Fixpoint find_loop (fuel : nat) (hit : Z -> d_token_t -> bool) (i n : Z) (l : list d_token_t) : option (option (list d_token_t)) :=
  if i <? n then
    match fuel, l with
    | S f, t :: _ => if hit i t then Some (Some l) else l ← d_next l; find_loop f hit (i + 1) n l
    | _, _ => None
    end
  else Some None.
(** [Some None] is the NULL pointer. *)
Definition d_get (item : list d_token_t) (key : Z) : option (option (list d_token_t)) :=
  match item with
  | [] => None
  | t :: l => if d_type t =? T_OBJECT then find_loop (S (length l)) (fun _ t => t_key t =? key) 0 (d_len t) l else Some None
  end.
Definition d_get_at (item : list d_token_t) (index : Z) : option (option (list d_token_t)) :=
  match item with
  | [] => None
  | t :: l => if d_type t =? T_ARRAY then find_loop (S (length l)) (fun i _ => i =? index) 0 (d_len t) l else Some None
  end.
Fixpoint get_or_loop (fuel : nat) (key key2 i n : Z) (s : option (list d_token_t)) (l : list d_token_t) : option (option (list d_token_t)) :=
  if i <? n then
    match fuel, l with
    | S f, t :: _ =>
        if t_key t =? key then Some (Some l)
        else l' ← d_next l; get_or_loop f key key2 (i + 1) n (if t_key t =? key2 then Some l else s) l'
    | _, _ => None
    end
  else Some s.
Definition d_get_or (item : list d_token_t) (key key2 : Z) : option (option (list d_token_t)) :=
  match item with
  | [] => None
  | t :: l => get_or_loop (S (length l)) key key2 0 (d_len t) None l
  end.

(** ** The writer *)
Section Write.
Context `{Allocator}.

Definition write_head (bb : bytes_builder_t) (type len : Z) : option bytes_builder_t :=
  bb ← bb_write_byte bb (Z.lor (Z.shiftl type 5) (if len <? 28 then len else min_bytes_len len + 27));
  if 27 <? len then bb_write_long_be bb len (Z.to_nat (min_bytes_len len)) else Some bb.
Definition write_token_count (bb : bytes_builder_t) (len : Z) : option bytes_builder_t := write_head bb T_NULL len.

(** The loops over the children; [keys] writes the key in front of each. *)
Fixpoint write_loop (fuel : nat) (write : bytes_builder_t -> list d_token_t -> option bytes_builder_t) (keys : bool)
    (bb : bytes_builder_t) (i len : Z) (c : list d_token_t) : option bytes_builder_t :=
  if i <? len then
    match fuel, c with
    | S f, t :: _ =>
        bb ← (if keys then bb_write_long_be bb (t_key t) 2 else Some bb);
        bb ← write bb c;
        c ← d_next c;
        write_loop f write keys bb (i + 1) len c
    | _, _ => None
    end
  else Some bb.
Fixpoint write_token (fuel : nat) (bb : bytes_builder_t) (l : list d_token_t) : option bytes_builder_t :=
  match fuel, l with
  | S f, t :: rest =>
      let len := d_len t in
      bb ← write_head bb (d_type t) len;
      if d_type t =? T_ARRAY then write_loop f (write_token f) false bb 0 len rest
      else if d_type t =? T_BYTES then d ← (if len =? 0 then Some [] else d ← t_data t; read_at d 0 (Z.to_nat len)); bb_write_raw_bytes bb d
      else if d_type t =? T_OBJECT then write_loop f (write_token f) true bb 0 len rest
      else if d_type t =? T_STRING then
        d ← (if len =? 0 then Some [] else d ← t_data t; read_at d 0 (Z.to_nat len));
        bb ← bb_write_raw_bytes bb d;
        bb_write_byte bb 0
      else Some bb
  | _, _ => None
  end.
Definition d_serialize_binary (bb : bytes_builder_t) (t : list d_token_t) : option bytes_builder_t :=
  s ← d_token_size t;
  bb ← write_token_count bb (Z.of_nat s);
  write_token (S (length t)) bb t.
End Write.

(** ** Building token arrays and the reader *)

(** [jp->len] is the number of tokens; [allocated] the size of the block they are in. *)
Record json_ctx_t := mk_ctx { result : list d_token_t; allocated : Z }.

Definition next_item (jp : json_ctx_t) (type len : Z) : json_ctx_t :=
  let n := zlen (result jp) in
  let a := if allocated jp =? 0 then 10 else if allocated jp <=? n then 2 * allocated jp else allocated jp in
  mk_ctx (result jp ++ [mk_token None (u32 (Z.lor (Z.shiftl type 28) len)) 0 0]) a.
Definition set_token (i : nat) (f : d_token_t -> d_token_t) (jp : json_ctx_t) : json_ctx_t := mk_ctx (alter f i (result jp)) (allocated jp).
Definition set_key (k : Z) (t : d_token_t) : d_token_t := mk_token (t_data t) (t_len t) k (t_state t).
Definition set_data (d : list Z) (t : d_token_t) : d_token_t := mk_token (Some d) (t_len t) (t_key t) (t_state t).

Definition json_create : json_ctx_t := mk_ctx [] 0.
Definition json_create_null (jp : json_ctx_t) : json_ctx_t := next_item jp T_NULL 0.
Definition json_create_bool (jp : json_ctx_t) (value : bool) : json_ctx_t := next_item jp T_BOOLEAN (if value then 1 else 0).
(** The last token gets its own copy of the data. *)
Definition own_data (jp : json_ctx_t) (d : list Z) : json_ctx_t :=
  set_token (length (result jp) - 1) (fun t => mk_token (Some d) (t_len t) (t_key t) TOKEN_STATE_ALLOCATED) jp.
Definition json_create_int (jp : json_ctx_t) (value : Z) : json_ctx_t :=
  if 0xF0000000 <? value then
    let p := optimize_len (long_to_bytes value (replicate 8 0)) in own_data (next_item jp T_BYTES (zlen p)) p
  else next_item jp T_INTEGER value.
Definition json_create_string (jp : json_ctx_t) (value : list Z) : json_ctx_t := own_data (next_item jp T_STRING (zlen value)) (value ++ [0]).
Definition json_create_bytes (jp : json_ctx_t) (value : list Z) : json_ctx_t := own_data (next_item jp T_BYTES (zlen value)) value.
Definition json_create_object (jp : json_ctx_t) : json_ctx_t * Z := (next_item jp T_OBJECT 0, zlen (result jp)).
Definition json_create_array (jp : json_ctx_t) : json_ctx_t * Z := (next_item jp T_ARRAY 0, zlen (result jp)).
Definition inc_len (t : d_token_t) : d_token_t := mk_token (t_data t) (u32 (t_len t + 1)) (t_key t) (t_state t).
(** [value] is the index of the token. *)
Definition json_object_add_prop (jp : json_ctx_t) (ob_index : nat) (key : Z) (value : nat) : json_ctx_t :=
  set_token value (set_key key) (set_token ob_index inc_len jp).
Definition json_array_add_value (jp : json_ctx_t) (ob_index value : nat) : json_ctx_t :=
  match result jp !! ob_index with
  | Some o => set_token ob_index inc_len (set_token value (set_key (u16 (t_len o))) jp)
  | None => jp
  end.

Section Read.
Context (d : list Z).

(** The number behind the first byte, in 1 to 4 bytes. *)
Definition read_len (len p : Z) : Z :=
  if len =? 28 then rd d p
  else if len =? 29 then Z.lor (Z.shiftl (rd d p) 8) (rd d (p + 1))
  else if len =? 30 then Z.lor (Z.lor (Z.shiftl (rd d p) 16) (Z.shiftl (rd d (p + 1)) 8)) (rd d (p + 2))
  else if len =? 31 then
    u32 (Z.lor (Z.lor (Z.lor (Z.shiftl (rd d p) 24) (Z.shiftl (rd d (p + 1)) 16)) (Z.shiftl (rd d (p + 2)) 8)) (rd d (p + 3)))
  else len.

(** [jp->result[ll].key = k]: when no token was added the write hits the block behind the last
    token, or lies outside of it. *)
Definition assign_key (ll : nat) (k : Z) : M (json_ctx_t * Z) unit := fun '(jp, p) =>
  if (ll <? length (result jp))%nat then Ok tt (set_token ll (set_key k) jp, p)
  else if Z.of_nat ll <? allocated jp then Ok tt (jp, p) else Undef.

(** The loops of [read_token] over the elements of an array and the properties of an object. *)
Fixpoint read_array (fuel : nat) (read : M (json_ctx_t * Z) unit) (i len : Z) : M (json_ctx_t * Z) unit :=
  if i <? len then
    match fuel with
    | O => fun _ => NoFuel
    | S f =>
        ll ← gets (fun s => length (result s.1));
        _ ← read;
        _ ← assign_key ll (u16 i);
        read_array f read (i + 1) len
    end
  else mret tt.
Fixpoint read_object (fuel : nat) (read : M (json_ctx_t * Z) unit) (i len : Z) : M (json_ctx_t * Z) unit :=
  if i <? len then
    match fuel with
    | O => fun _ => NoFuel
    | S f =>
        p ← gets snd;
        if zlen d <=? p + 2 then fail (-3)
        else
          let key := Z.lor (Z.shiftl (rd d p) 8) (rd d (p + 1)) in
          _ ← modify (fun s => (s.1, p + 2));
          ll ← gets (fun s => length (result s.1));
          _ ← read;
          _ ← assign_key ll key;
          read_object f read (i + 1) len
    end
  else mret tt.

(** [0xC0 | n]: the number of tokens, for the allocation. *)
Definition read_count (len p : Z) (jp : json_ctx_t) : res (json_ctx_t * Z) unit :=
  if JSON_MAX_ALLOWED_TOKENS <? len then Err (-4) (jp, p)
  else Ok tt (mk_ctx (result jp) (if allocated jp =? 0 then len else Z.max (allocated jp) len), p).
(** A boolean above 1 refers to an earlier token; the test lets the index of the next, not yet
    written token through, and the block may move while the token is copied. *)
Definition read_reference (len p : Z) (jp : json_ctx_t) : res (json_ctx_t * Z) unit :=
  let idx := len - 2 in
  if zlen (result jp) <? idx then Err (-1) (jp, p)
  else match result jp !! Z.to_nat idx with
       | None => Undef
       | Some t =>
           if T_ARRAY <=? d_type t then Err (-1) (jp, p)
           else if allocated jp <=? zlen (result jp) then Undef
           else Ok tt (mk_ctx (result jp ++ [t]) (allocated jp), p)
       end.

(** What follows the type and the number; [array] and [object] read the children. *)
Definition read_body (array object : Z -> M (json_ctx_t * Z) unit) (type len : Z) : M (json_ctx_t * Z) unit := fun '(jp, p) =>
  let max := zlen d in
  if (type =? T_NULL) && (0 <? len) then read_count len p jp
  else if (type =? T_BOOLEAN) && (1 <? len) then read_reference len p jp
  else
    let t := length (result jp) in
    let jp := next_item jp type len in
    if type =? T_ARRAY then array len (jp, p)
    else if type =? T_OBJECT then object len (jp, p)
    else if type =? T_STRING then
      let jp := set_token t (set_data (drop (Z.to_nat p) d)) jp in
      if (max <? p + 1 + len) || negb (rd d (p + len) =? 0) then Err (-4) (jp, p + 1)
      else Ok tt (jp, p + 1 + len)
    else if type =? T_BYTES then
      let jp := set_token t (set_data (drop (Z.to_nat p) d)) jp in
      if max <? p + len then Err (-3) (jp, p + len) else Ok tt (jp, p + len)
    else Ok tt (jp, p).
Fixpoint read_token (fuel : nat) : M (json_ctx_t * Z) unit :=
  match fuel with
  | O => fun _ => NoFuel
  | S f => fun '(jp, p) =>
      let max := zlen d in
      if max <=? p then Err (-3) (jp, p)
      else
        let type := Z.shiftr (rd d p) 5 in
        let len := Z.land (rd d p) 0x1F in
        let l := if 27 <? len then len - 27 else 0 in
        let p := p + 1 in
        if max <? p + l then Err (-3) (jp, p)
        else read_body (read_array f (read_token f) 0) (read_object f (read_token f) 0) type (read_len len p) (jp, p + l)
  end.

Fixpoint binary_loop (fuel : nat) : M (json_ctx_t * Z) unit :=
  match fuel with
  | O => fun _ => NoFuel
  | S f =>
      p ← gets snd;
      if p <? zlen d then _ ← read_token (S (length d)); binary_loop f else mret tt
  end.
(** [None] is the NULL pointer; an error frees everything. *)
Definition parse_binary : res unit (option json_ctx_t) :=
  match binary_loop (S (length d)) (json_create, 0) with
  | Ok _ (jp, _) => Ok (Some (mk_ctx (result jp) 0)) tt
  | Err _ _ => Ok None tt
  | Undef => Undef
  | NoFuel => NoFuel
  end.
End Read.

(** ** Specification: values, their tokens and their binary form *)
Inductive jval :=
  | JBytes (l : list Z) | JString (l : list Z) | JArray (vs : list jval) | JObject (kvs : list (Z * jval))
  | JBool (b : bool) | JInt (n : Z) | JNull.

Section Induction.
Context (P : jval -> Prop).
Context (HB : forall l, P (JBytes l)) (HS : forall l, P (JString l)) (HA : forall vs, Forall P vs -> P (JArray vs)).
Context (HO : forall kvs, Forall (fun kv => P kv.2) kvs -> P (JObject kvs)).
Context (Hb : forall b, P (JBool b)) (Hi : forall n, P (JInt n)) (Hn : P JNull).
Fixpoint jval_induction (v : jval) : P v :=
  match v with
  | JBytes l => HB l | JString l => HS l | JBool b => Hb b | JInt n => Hi n | JNull => Hn
  | JArray vs => HA vs ((fix go vs : Forall P vs := match vs with [] => List.Forall_nil _ | v :: t => List.Forall_cons _ _ _ (jval_induction v) (go t) end) vs)
  | JObject kvs => HO kvs ((fix go kvs : Forall (fun kv => P kv.2) kvs :=
      match kvs with [] => List.Forall_nil _ | kv :: t => List.Forall_cons _ _ _ (jval_induction kv.2) (go t) end) kvs)
  end.
End Induction.

Definition token (type len : Z) (data : option (list Z)) (k : Z) : d_token_t := mk_token data (type * 2 ^ 28 + len) k 0.
(** The keys of the elements of an array are their indices. *)
Fixpoint indexed (i : Z) (vs : list jval) : list (Z * jval) := match vs with [] => [] | v :: t => (u16 i, v) :: indexed (i + 1) t end.

(** The token array of a value with key [k]. *)
Fixpoint flat (k : Z) (v : jval) : list d_token_t :=
  match v with
  | JBytes l => [token T_BYTES (zlen l) (Some l) k]
  | JString l => [token T_STRING (zlen l) (Some (l ++ [0])) k]
  | JArray vs => token T_ARRAY (zlen vs) None k ::
      (fix go i vs := match vs with [] => [] | v :: t => flat (u16 i) v ++ go (i + 1) t end) 0 vs
  | JObject kvs => token T_OBJECT (zlen kvs) None k :: concat (map (fun kv => flat kv.1 kv.2) kvs)
  | JBool b => [token T_BOOLEAN (if b then 1 else 0) None k]
  | JInt n => [token T_INTEGER n None k]
  | JNull => [token T_NULL 0 None k]
  end.
Definition flats (kvs : list (Z * jval)) : list d_token_t := concat (map (fun kv => flat kv.1 kv.2) kvs).

Definition head (type len : Z) : list Z :=
  if len <? 28 then [type * 32 + len]
  else (type * 32 + (min_bytes_len len + 27)) :: be_bytes (Z.to_nat (min_bytes_len len)) len.
Fixpoint bin (v : jval) : list Z :=
  match v with
  | JBytes l => head T_BYTES (zlen l) ++ l
  | JString l => head T_STRING (zlen l) ++ l ++ [0]
  | JArray vs => head T_ARRAY (zlen vs) ++ concat (map bin vs)
  | JObject kvs => head T_OBJECT (zlen kvs) ++ concat (map (fun kv => be_bytes 2 kv.1 ++ bin kv.2) kvs)
  | JBool b => head T_BOOLEAN (if b then 1 else 0)
  | JInt n => head T_INTEGER n
  | JNull => head T_NULL 0
  end.
Definition binary (v : jval) : list Z := head T_NULL (zlen (flat 0 v)) ++ bin v.

(** Values that fit: bytes, 16 bit keys, lengths and integers of 28 bits. *)
Definition byteb (x : Z) : bool := (0 <=? x) && (x <? 256).
Fixpoint jval_ok (v : jval) : bool :=
  match v with
  | JBytes l | JString l => forallb byteb l && (zlen l <? 2 ^ 28)
  | JArray vs => (zlen vs <? 2 ^ 28) && forallb jval_ok vs
  | JObject kvs => (zlen kvs <? 2 ^ 28) && forallb (fun kv => (0 <=? kv.1) && (kv.1 <? 2 ^ 16) && jval_ok kv.2) kvs
  | JInt n => (0 <=? n) && (n <? 2 ^ 28)
  | _ => true
  end.

(** ** Lemmas: tokens *)
Lemma token_type ty len data k : 0 <= ty < 16 -> 0 <= len < 2 ^ 28 -> d_type (token ty len data k) = ty /\ d_len (token ty len data k) = len.
Proof.
  intros Ht Hl. unfold d_type, d_len, token. cbn [t_len]. split.
  - change 0xF0000000 with (Z.ones 4 * 2 ^ 28). rewrite Z.shiftr_land, (Z.shiftr_div_pow2 (Z.ones 4 * 2 ^ 28)), Z.div_mul by lia.
    rewrite Z.shiftr_div_pow2, Z.div_add_l, (Z.div_small len), Z.add_0_r, Z.land_ones by lia. apply Z.mod_small. lia.
  - change 0xFFFFFFF with (Z.ones 28). rewrite Z.land_ones by lia. symmetry. apply Z.mod_unique with ty; lia.
Qed.
Lemma new_token ty len : 0 <= ty < 16 -> 0 <= len < 2 ^ 28 -> u32 (Z.lor (Z.shiftl ty 28) len) = ty * 2 ^ 28 + len.
Proof. intros Ht Hl. rewrite Z.shiftl_mul_pow2, lor_mul_add by lia. apply u32_small. lia. Qed.
Lemma flat_array k vs : flat k (JArray vs) = token T_ARRAY (zlen vs) None k :: flats (indexed 0 vs).
Proof.
  cbn [flat]. f_equal. unfold flats. generalize 0 as i. induction vs as [|v t IH]; intros i; [done|]. cbn [indexed map concat fst snd]. by rewrite IH.
Qed.
Lemma flat_object k kvs : flat k (JObject kvs) = token T_OBJECT (zlen kvs) None k :: flats kvs.
Proof. done. Qed.
Lemma flats_cons k v t : flats ((k, v) :: t) = flat k v ++ flats t.
Proof. done. Qed.
Lemma flat_nonempty k v : exists t l, flat k v = t :: l /\ t_key t = k /\ forall k', flat k' v = set_key k' t :: l.
Proof. destruct v; eexists _, _; done. Qed.
Lemma flats_length kvs : (length kvs <= length (flats kvs))%nat.
Proof.
  induction kvs as [|[k v] t IH]; [done|]. rewrite flats_cons, length_app. destruct (flat_nonempty k v) as (x & l & -> & _). cbn [length]. lia.
Qed.
Lemma length_indexed vs : forall i, length (indexed i vs) = length vs.
Proof. induction vs as [|v t IH]; intros i; [done|]. cbn [indexed length]. by rewrite IH. Qed.

(** A property of all values holds for the children of a container. *)
Lemma indexed_Forall (P : jval -> Prop) vs : Forall P vs -> forall i, Forall (fun kv => P kv.2) (indexed i vs).
Proof. induction 1 as [|v t Hv _ IH]; intros i; cbn [indexed]; constructor; [done|apply IH]. Qed.
Lemma jval_ok_array vs : jval_ok (JArray vs) = true -> zlen vs < 2 ^ 28 /\ Forall (fun v => jval_ok v = true) vs.
Proof. cbn [jval_ok]. intros [Hl Hf]%andb_prop. split; [lia|]. apply Forall_forall. intros v Hv. rewrite forallb_forall in Hf. by apply Hf, list_elem_of_In. Qed.
Lemma jval_ok_object kvs : jval_ok (JObject kvs) = true ->
  zlen kvs < 2 ^ 28 /\ Forall (fun kv => 0 <= kv.1 < 2 ^ 16 /\ jval_ok kv.2 = true) kvs.
Proof.
  cbn [jval_ok]. intros [Hl Hf]%andb_prop. split; [lia|]. apply Forall_forall. intros kv Hv. rewrite forallb_forall in Hf.
  apply list_elem_of_In, Hf in Hv. apply andb_prop in Hv as [Hk Hv]. split; [lia|done].
Qed.

(** ** Navigation on the tokens of a value *)
Lemma Forall_combine {A} (P Q R : A -> Prop) l : Forall P l -> Forall Q l -> (forall x, P x -> Q x -> R x) -> Forall R l.
Proof. intros HP HQ HR. rewrite Forall_forall in *. auto. Qed.
Lemma size_loop_flats size l : forall kvs f i n c rest,
  Forall (fun kv => forall k rest, size (flat k kv.2 ++ rest) = Some (length (flat k kv.2))) kvs ->
  drop c l = flats kvs ++ rest -> n = i + zlen kvs -> (length kvs <= f)%nat ->
  size_loop f size l i n c = Some (c + length (flats kvs))%nat.
Proof.
  induction kvs as [|[k v] t IH]; intros f i n c rest Hs Hd -> Hf; cbn [length] in *.
  - destruct f; cbn [size_loop]; rewrite (proj2 (Z.ltb_ge i (i + Z.of_nat 0))) by lia; f_equal; cbn; lia.
  - destruct f as [|f]; [lia|]. cbn [size_loop]. rewrite (proj2 (Z.ltb_lt i _)) by lia. inversion_clear Hs as [|? ? Hv Hs'].
    rewrite flats_cons, <- app_assoc in Hd. rewrite Hd, Hv. cbn [mbind option_bind].
    rewrite (IH f (i + 1) _ (c + length (flat k v))%nat rest); [rewrite flats_cons, length_app; f_equal; lia|done| |lia|lia].
    rewrite <- drop_drop, Hd. by rewrite drop_app_length.
Qed.
#[local] Ltac leaf := match goal with Hf : (_ <= ?fuel)%nat |- _ => destruct fuel as [|f]; [cbn in Hf; lia|]; cbn [flat app token_size] end.
Lemma token_size_flat v : forall fuel k rest, jval_ok v = true -> (length (flat k v) <= fuel)%nat ->
  token_size fuel (flat k v ++ rest) = Some (length (flat k v)).
Proof.
  assert (forall ty kvs fuel k rest, is_container (token ty (zlen kvs) None k) = true -> 0 <= ty < 16 -> zlen kvs < 2 ^ 28 ->
    Forall (fun kv => forall fuel k rest, (length (flat k kv.2) <= fuel)%nat -> token_size fuel (flat k kv.2 ++ rest) = Some (length (flat k kv.2))) kvs ->
    (length (token ty (zlen kvs) None k :: flats kvs) <= fuel)%nat ->
    token_size fuel ((token ty (zlen kvs) None k :: flats kvs) ++ rest) = Some (length (token ty (zlen kvs) None k :: flats kvs))) as Hc.
  { intros ty kvs fuel k rest Hct Hty Hl Hf Hfu. destruct fuel as [|f]; cbn [length] in Hfu; [lia|]. cbn [app token_size]. rewrite Hct.
    rewrite (proj2 (token_type ty (zlen kvs) None k Hty ltac:(lia))). pose proof (flats_length kvs).
    rewrite (size_loop_flats _ _ kvs f 0 (zlen kvs) 1 rest); [done| |done|lia|lia].
    clear -Hf Hfu. revert Hfu. induction Hf as [|[k' v] t Hv _ IH]; intros Hfu; constructor; rewrite flats_cons, length_app in Hfu.
    - intros k2 rest2. apply Hv. destruct (flat_nonempty k' v) as (x & y & E1 & _ & E2). cbn [snd]. rewrite E2. rewrite E1 in Hfu. cbn [length] in *. lia.
    - apply IH. lia. }
  induction v as [l|l|vs IH|kvs IH|b|n| ] using jval_induction; intros fuel k rest Hok Hfu.
  - leaf. cbn [jval_ok] in Hok. apply andb_prop in Hok as [_ Hl%Z.ltb_lt]. unfold is_container. by rewrite (proj1 (token_type T_BYTES (zlen l) (Some l) k ltac:(done) ltac:(lia))).
  - leaf. cbn [jval_ok] in Hok. apply andb_prop in Hok as [_ Hl%Z.ltb_lt]. unfold is_container.
    by rewrite (proj1 (token_type T_STRING (zlen l) (Some (l ++ [0])) k ltac:(done) ltac:(lia))).
  - apply jval_ok_array in Hok as [Hl Hok]. rewrite flat_array in *. rewrite <- (length_indexed vs 0) in *. apply Hc; [|done|done| |done].
    + unfold is_container. by rewrite (proj1 (token_type T_ARRAY (zlen (indexed 0 vs)) None k ltac:(done) ltac:(lia))).
    + refine (indexed_Forall (fun v => forall fuel k rest, (length (flat k v) <= fuel)%nat -> token_size fuel (flat k v ++ rest) = Some (length (flat k v))) vs _ 0). apply (Forall_combine _ _ _ _ IH Hok). intros v Hv1 Hv2 f2 k2 r2. by apply Hv1.
  - apply jval_ok_object in Hok as [Hl Hok]. rewrite flat_object in *. apply Hc; [|done|done| |done].
    + unfold is_container. by rewrite (proj1 (token_type T_OBJECT (zlen kvs) None k ltac:(done) ltac:(lia))).
    + apply (Forall_combine _ _ _ _ IH Hok). intros v Hv1 [_ Hv2] f2 k2 r2. by apply Hv1.
  - leaf. by destruct b.
  - leaf. cbn [jval_ok] in Hok. unfold is_container. by rewrite (proj1 (token_type T_INTEGER n None k ltac:(done) ltac:(lia))).
  - by leaf.
Qed.
Lemma d_next_flat v k rest : jval_ok v = true -> d_next (flat k v ++ rest) = Some rest.
Proof.
  intros Hok. unfold d_next, d_token_size. rewrite token_size_flat by (done || (rewrite length_app; lia)). cbn [mbind option_bind]. by rewrite drop_app_length.
Qed.
Definition kvs_ok (kvs : list (Z * jval)) : Prop := Forall (fun kv => jval_ok kv.2 = true) kvs.

(** The first child the loop stops at, by index and key. *)
Lemma find_loop_flats (h : Z -> Z -> bool) : forall kvs f i rest, kvs_ok kvs -> (length kvs <= f)%nat ->
  (exists j kv rest', kvs !! j = Some kv /\ h (i + Z.of_nat j) kv.1 = true /\
     (forall j' kv', (j' < j)%nat -> kvs !! j' = Some kv' -> h (i + Z.of_nat j') kv'.1 = false) /\
     find_loop f (fun i t => h i (t_key t)) i (i + zlen kvs) (flats kvs ++ rest) = Some (Some (flat kv.1 kv.2 ++ rest'))) \/
  ((forall j kv, kvs !! j = Some kv -> h (i + Z.of_nat j) kv.1 = false) /\
     find_loop f (fun i t => h i (t_key t)) i (i + zlen kvs) (flats kvs ++ rest) = Some None).
Proof.
  induction kvs as [|[k v] t IH]; intros f i rest Hok Hf.
  - right. split; [done|]. destruct f; cbn [find_loop length]; by rewrite (proj2 (Z.ltb_ge i (i + Z.of_nat 0))) by lia.
  - inversion_clear Hok as [|? ? Hv Hok']. cbn [snd] in Hv. destruct f as [|f]; cbn [length] in Hf; [lia|].
    rewrite flats_cons, <- app_assoc. destruct (flat_nonempty k v) as (x & l & E & Ek & _).
    cbn [find_loop length]. rewrite (proj2 (Z.ltb_lt i _)) by lia. rewrite E. cbn [app]. rewrite Ek. destruct (h i k) eqn:Eh.
    + left. exists 0%nat, (k, v), (flats t ++ rest). split; [done|]. split; [cbn [fst]; by rewrite Z.add_0_r|]. split; [lia|]. cbn [fst snd]. by rewrite E.
    + rewrite app_comm_cons, <- E, d_next_flat by done. cbn [mbind option_bind].
      replace (i + Z.of_nat (S (length t))) with (i + 1 + zlen t) by lia.
      assert (forall j, i + Z.of_nat (S j) = i + 1 + Z.of_nat j) as Ei by lia.
      destruct (IH f (i + 1) rest Hok' ltac:(lia)) as [(j & kv & rest' & H1 & H2 & H3 & H4)|[H1 H2]].
      * left. exists (S j), kv, rest'. split; [done|]. split; [by rewrite Ei|]. split; [|done]. intros [|j'] kv' Hj Hl.
        -- cbn in Hl. simplify_eq. cbn [fst]. by rewrite Z.add_0_r.
        -- rewrite Ei. apply H3; [lia|done].
      * right. split; [|done]. intros [|j] kv Hl; [cbn in Hl; simplify_eq; cbn [fst]; by rewrite Z.add_0_r|]. rewrite Ei. by apply H1.
Qed.
Lemma lookup_indexed vs : forall i j, indexed i vs !! j = (fun v => (u16 (i + Z.of_nat j), v)) <$> vs !! j.
Proof.
  induction vs as [|v t IH]; intros i j; [done|]. destruct j as [|j]; cbn [indexed].
  - cbn. by rewrite Z.add_0_r.
  - cbn [lookup list_lookup]. rewrite IH. replace (i + 1 + Z.of_nat j) with (i + Z.of_nat (S j)) by lia. done.
Qed.
Lemma indexed_ok vs i : Forall (fun v => jval_ok v = true) vs -> kvs_ok (indexed i vs).
Proof. intros Hf. by apply (indexed_Forall (fun v => jval_ok v = true)). Qed.

(** Navigation on the token array of a value, wherever it lies in a larger array. *)
Lemma d_get_flat v k rest key : jval_ok v = true -> 0 <= key ->
  d_next (flat k v ++ rest) = Some rest /\
  match v with
  | JObject kvs =>
      match find (fun kv => kv.1 =? key) kvs with
      | Some kv => exists rest', d_get (flat k v ++ rest) key = Some (Some (flat kv.1 kv.2 ++ rest'))
      | None => d_get (flat k v ++ rest) key = Some None
      end
  | _ => d_get (flat k v ++ rest) key = Some None
  end /\
  match v with
  | JArray vs =>
      match vs !! Z.to_nat key with
      | Some x => exists rest', d_get_at (flat k v ++ rest) key = Some (Some (flat (u16 key) x ++ rest'))
      | None => d_get_at (flat k v ++ rest) key = Some None
      end
  | _ => d_get_at (flat k v ++ rest) key = Some None
  end.
Proof.
  intros Hok Hkey. split; [by apply d_next_flat|].
  assert (forall ty len data tl, 0 <= ty < 16 -> 0 <= len < 2 ^ 28 ->
    (ty <> T_OBJECT -> d_get (token ty len data k :: tl) key = Some None) /\ (ty <> T_ARRAY -> d_get_at (token ty len data k :: tl) key = Some None)) as Hno.
  { intros ty len data tl Hty Hl. cbn [d_get d_get_at]. rewrite (proj1 (token_type ty len data k Hty Hl)).
    split; intros Hne; by rewrite (proj2 (Z.eqb_neq _ _)) by done. }
  destruct v as [l|l|vs|kvs|b|n| ].
  - cbn [jval_ok] in Hok. apply andb_prop in Hok as [_ Hl%Z.ltb_lt]. split; apply Hno; done || lia.
  - cbn [jval_ok] in Hok. apply andb_prop in Hok as [_ Hl%Z.ltb_lt]. split; apply Hno; done || lia.
  - apply jval_ok_array in Hok as [Hl Hok]. split; [apply Hno; [done|lia|done]|]. rewrite flat_array. cbn [app d_get_at].
    destruct (token_type T_ARRAY (zlen vs) None k) as [-> ->]; [done|lia|]. cbn [Z.eqb Pos.eqb T_ARRAY].
    pose proof (flats_length (indexed 0 vs)) as Hfl. rewrite length_indexed in Hfl.
    destruct (find_loop_flats (fun i _ => i =? key) (indexed 0 vs) (S (length (flats (indexed 0 vs) ++ rest))) 0 rest) as [(j & kv & rest' & H1 & H2 & H3 & H4)|[H1 H2]];
      [by apply indexed_ok|rewrite length_indexed, length_app; lia| |].
    + rewrite length_indexed in H4. rewrite Z.add_0_l in H4. rewrite H4. rewrite lookup_indexed in H1. apply Z.eqb_eq in H2. rewrite !Z.add_0_l in *.
      replace (Z.to_nat key) with j by lia. destruct (vs !! j) as [x|]; [|done]. cbn in H1. simplify_eq. cbn [fst snd]. exists rest'. done.
    + rewrite length_indexed, Z.add_0_l in H2. rewrite H2. destruct (vs !! Z.to_nat key) as [x|] eqn:Ex; [|done].
      specialize (H1 (Z.to_nat key) (u16 (0 + Z.of_nat (Z.to_nat key)), x)). rewrite lookup_indexed, Ex in H1. specialize (H1 eq_refl). apply Z.eqb_neq in H1. lia.
  - apply jval_ok_object in Hok as [Hl Hok]. split; [|apply Hno; [done|lia|done]]. rewrite flat_object. cbn [app d_get].
    destruct (token_type T_OBJECT (zlen kvs) None k) as [-> ->]; [done|lia|]. cbn [Z.eqb Pos.eqb T_OBJECT].
    pose proof (flats_length kvs) as Hfl.
    destruct (find_loop_flats (fun _ x => x =? key) kvs (S (length (flats kvs ++ rest))) 0 rest) as [(j & kv & rest' & H1 & H2 & H3 & H4)|[H1 H2]];
      [eapply Forall_impl; [exact Hok|by intros ? [_ ?]]|rewrite length_app; lia| |].
    + rewrite Z.add_0_l in H4. rewrite H4. assert (find (fun kv => kv.1 =? key) kvs = Some kv) as ->; [|by exists rest'].
      clear -H1 H2 H3. revert j H1 H3. induction kvs as [|kv' t IH]; intros j H1 H3; [done|]. cbn [find]. destruct j as [|j].
      * cbn in H1. simplify_eq. by rewrite H2.
      * rewrite (H3 0%nat kv') by (done || lia). apply (IH j); [done|]. intros j' kv2 Hj Hl. apply (H3 (S j')); [lia|done].
    + rewrite Z.add_0_l in H2. rewrite H2. assert (find (fun kv => kv.1 =? key) kvs = None) as ->; [|done].
      clear -H1. induction kvs as [|kv' t IH]; [done|]. cbn [find]. rewrite (H1 0%nat kv') by done. apply IH. intros j kv Hl. by apply (H1 (S j)).
  - split; by apply Hno; destruct b.
  - cbn [jval_ok] in Hok. split; apply Hno; done || lia.
  - split; by apply Hno.
Qed.

(** Navigation: on the token array of a value, wherever it lies in a larger array, [d_get]
    returns the tokens of the first property with the key and NULL if there is none or the value
    is no object; [d_get_at] the tokens of the element at the index and NULL beyond or if it is no
    array; [d_next] skips exactly the tokens of the value. *)
Theorem d_get_spec v k rest key : jval_ok v = true -> 0 <= key ->
  d_next (flat k v ++ rest) = Some rest /\
  match v with
  | JObject kvs =>
      match find (fun kv => kv.1 =? key) kvs with
      | Some kv => exists rest', d_get (flat k v ++ rest) key = Some (Some (flat kv.1 kv.2 ++ rest'))
      | None => d_get (flat k v ++ rest) key = Some None
      end
  | _ => d_get (flat k v ++ rest) key = Some None
  end /\
  match v with
  | JArray vs =>
      match vs !! Z.to_nat key with
      | Some x => exists rest', d_get_at (flat k v ++ rest) key = Some (Some (flat (u16 key) x ++ rest'))
      | None => d_get_at (flat k v ++ rest) key = Some None
      end
  | _ => d_get_at (flat k v ++ rest) key = Some None
  end.
Proof. apply d_get_flat. Qed.

(** ** The writer *)
Lemma min_bytes_len_cases len : 28 <= len < 2 ^ 28 ->
  (min_bytes_len len = 1 \/ min_bytes_len len = 2 \/ min_bytes_len len = 3 \/ min_bytes_len len = 4) /\ len < 256 ^ min_bytes_len len.
Proof.
  intros Hl. unfold min_bytes_len. cbn [min_bytes_len_loop]. rewrite !Z.shiftr_shiftr by lia. cbn [Z.add Pos.add].
  assert (forall k, 0 < k -> Z.shiftr len k = len / 2 ^ k) as Hs by (intros; apply Z.shiftr_div_pow2; lia). rewrite !Hs by lia.
  rewrite (proj2 (Z.eqb_neq len 0)) by lia.
  destruct (Z.eqb_spec (len / 2 ^ 8) 0) as [E|E]; [split; [tauto|]; change (0 + 1) with 1; apply Z.div_small_iff in E; lia|].
  destruct (Z.eqb_spec (len / 2 ^ (8 + 8)) 0) as [E2|E2]; [split; [tauto|]; change (256 ^ (0 + 1 + 1)) with (2 ^ 16); apply Z.div_small_iff in E2; lia|].
  destruct (Z.eqb_spec (len / 2 ^ (8 + 8 + 8)) 0) as [E3|E3]; [split; [tauto|]; change (256 ^ (0 + 1 + 1 + 1)) with (2 ^ 24); apply Z.div_small_iff in E3; lia|].
  rewrite (Z.div_small len (2 ^ (8 + 8 + 8 + 8))) by lia. cbn [Z.eqb]. split; [tauto|]. change (256 ^ (0 + 1 + 1 + 1 + 1)) with (2 ^ 32). lia.
Qed.
Lemma head_length type len : 0 <= len < 2 ^ 28 -> (1 <= length (head type len) <= 5)%nat.
Proof.
  intros Hl. unfold head. destruct (Z.ltb_spec len 28); [cbn; lia|]. destruct (min_bytes_len_cases len) as [Hc _]; [lia|].
  cbn [length]. rewrite length_be_bytes. lia.
Qed.

Section Writer.
Context `{Allocator}.

Lemma write_head_rep bb c type len : bb_rep bb c -> zlen c + zlen (head type len) < 2 ^ 32 -> 0 <= type < 8 -> 0 <= len < 2 ^ 28 ->
  exists bb', write_head bb type len = Some bb' /\ bb_rep bb' (c ++ head type len).
Proof.
  intros Hr Hc Ht Hl. unfold write_head, head in *. rewrite Z.shiftl_mul_pow2 by lia. change (2 ^ 5) with 32.
  destruct (Z.ltb_spec len 28) as [L|L].
  - rewrite (proj2 (Z.ltb_ge 27 len)) by lia. change 32 with (2 ^ 5). rewrite lor_mul_add by lia. cbn [length] in Hc.
    destruct (bb_write_byte_rep bb c (type * 2 ^ 5 + len) Hr) as (b1 & -> & R1); [lia|]. exists b1. split; [done|].
    rewrite u8_small in R1 by (unfold is_byte; lia). done.
  - rewrite (proj2 (Z.ltb_lt 27 len)) by lia. destruct (min_bytes_len_cases len) as [Hm _]; [lia|]. set (n := min_bytes_len len) in *.
    change 32 with (2 ^ 5). rewrite lor_mul_add by lia. cbn [length] in Hc. rewrite length_be_bytes in Hc.
    destruct (bb_write_byte_rep bb c (type * 2 ^ 5 + (n + 27)) Hr) as (b1 & -> & R1); [lia|]. cbn [mbind option_bind].
    rewrite u8_small in R1 by (unfold is_byte; lia).
    destruct (bb_write_long_be_rep b1 _ len (Z.to_nat n) R1) as (b2 & -> & R2); [rewrite length_app; cbn [length]; lia|lia|lia|].
    exists b2. split; [done|]. by rewrite <- app_assoc in R2.
Qed.

Definition children (keys : bool) (kvs : list (Z * jval)) : list Z :=
  concat (map (fun kv => (if keys then be_bytes 2 kv.1 else []) ++ bin kv.2) kvs).
Lemma children_cons keys k v t : children keys ((k, v) :: t) = ((if keys then be_bytes 2 k else []) ++ bin v) ++ children keys t.
Proof. done. Qed.
Lemma bin_array vs i : concat (map bin vs) = children false (indexed i vs).
Proof. revert i. induction vs as [|v t IH]; intros i; [done|]. cbn [indexed map concat]. by rewrite children_cons, (IH (i + 1)). Qed.

(** What [write] does to one value, with the tokens of that value in front. *)
Definition writes (write : bytes_builder_t -> list d_token_t -> option bytes_builder_t) (v : jval) : Prop :=
  forall bb c k rest, bb_rep bb c -> zlen c + zlen (bin v) < 2 ^ 32 ->
    exists bb', write bb (flat k v ++ rest) = Some bb' /\ bb_rep bb' (c ++ bin v).

Lemma write_loop_flats write keys : forall kvs f bb c i rest, Forall (fun kv => 0 <= kv.1 /\ jval_ok kv.2 = true /\ writes write kv.2) kvs ->
  (length kvs <= f)%nat -> bb_rep bb c -> zlen c + zlen (children keys kvs) < 2 ^ 32 ->
  exists bb', write_loop f write keys bb i (i + zlen kvs) (flats kvs ++ rest) = Some bb' /\ bb_rep bb' (c ++ children keys kvs).
Proof.
  induction kvs as [|[k v] t IH]; intros f bb c i rest Hk Hf Hr Hc.
  - exists bb. rewrite app_nil_r. split; [|done]. destruct f; cbn [write_loop length]; by rewrite (proj2 (Z.ltb_ge i (i + Z.of_nat 0))) by lia.
  - inversion_clear Hk as [|? ? (K1 & K2 & K3) Hk']. cbn [fst snd] in *. destruct f as [|f]; cbn [length] in Hf; [lia|].
    rewrite flats_cons, <- app_assoc. destruct (flat_nonempty k v) as (tk & tl & E & Ek & _). rewrite children_cons in *. rewrite !length_app in Hc.
    cbn [write_loop length]. rewrite (proj2 (Z.ltb_lt i _)) by lia. rewrite E. cbn [app]. rewrite Ek.
    assert (exists b1, (if keys then bb_write_long_be bb k 2 else Some bb) = Some b1 /\ bb_rep b1 (c ++ (if keys then be_bytes 2 k else []))) as (b1 & -> & R1).
    { destruct keys; [rewrite length_be_bytes in Hc; apply bb_write_long_be_rep; lia || done|]. exists bb. by rewrite app_nil_r. }
    cbn [mbind option_bind]. rewrite app_comm_cons, <- E.
    destruct (K3 b1 _ k (flats t ++ rest) R1) as (b2 & -> & R2); [rewrite length_app; lia|]. cbn [mbind option_bind].
    rewrite d_next_flat by done. cbn [mbind option_bind]. replace (i + Z.of_nat (S (length t))) with (i + 1 + zlen t) by lia.
    destruct (IH f b2 _ (i + 1) rest Hk' ltac:(lia) R2) as (b3 & P3 & R3); [rewrite !length_app; lia|].
    exists b3. split; [done|]. by rewrite !app_assoc in *.
Qed.

Lemma writes_flat v : forall fuel, jval_ok v = true -> (length (flat 0 v) <= fuel)%nat -> writes (write_token fuel) v.
Proof.
  assert (forall k v, length (flat k v) = length (flat 0 v)) as Hl0.
  { intros k v'. destruct (flat_nonempty k v') as (t & l & -> & _ & E2). by rewrite (E2 0). }
  assert (forall kvs f, Forall (fun kv => 0 <= kv.1 /\ jval_ok kv.2 = true /\
      forall fuel, (length (flat 0 kv.2) <= fuel)%nat -> writes (write_token fuel) kv.2) kvs -> (length (flats kvs) <= f)%nat ->
    Forall (fun kv => 0 <= kv.1 /\ jval_ok kv.2 = true /\ writes (write_token f) kv.2) kvs) as Hmono.
  { intros kvs f Hk. revert f. induction Hk as [|[k v'] t (K1 & K2 & K3) _ IH]; intros f Hf; constructor; rewrite flats_cons, length_app in Hf; cbn [fst snd] in *.
    - split; [done|]. split; [done|]. apply K3. rewrite Hl0 in Hf. lia.
    - apply IH. lia. }
  induction v as [l|l|vs IH|kvs IH|b|n| ] using jval_induction; intros fuel Hok Hfu bb c k rest Hr Hc;
    (destruct fuel as [|f]; [cbn in Hfu; lia|]); cbn [bin] in *; rewrite ?length_app in Hc.
  - cbn [jval_ok] in Hok. apply andb_prop in Hok as [_ Hl%Z.ltb_lt]. cbn [flat app write_token].
    destruct (token_type T_BYTES (zlen l) (Some l) k) as [-> ->]; [done|lia|]. pose proof (head_length T_BYTES (zlen l) ltac:(lia)).
    destruct (write_head_rep bb c T_BYTES (zlen l) Hr) as (b1 & -> & R1); [lia|done|lia|]. cbn [mbind option_bind Z.eqb T_BYTES T_ARRAY].
    assert ((if zlen l =? 0 then Some [] else d ← t_data (token T_BYTES (zlen l) (Some l) k); read_at d 0 (Z.to_nat (zlen l))) = Some l) as ->.
    { unfold read_at. cbn. rewrite Nat2Z.id, drop_0, Nat.leb_refl, firstn_all. destruct l; done. }
    cbn [mbind option_bind]. destruct (bb_write_raw_bytes_rep b1 _ l R1) as (b2 & -> & R2); [rewrite length_app; lia|]. exists b2. split; [done|]. by rewrite app_assoc.
  - cbn [jval_ok] in Hok. apply andb_prop in Hok as [_ Hl%Z.ltb_lt]. cbn [flat app write_token].
    destruct (token_type T_STRING (zlen l) (Some (l ++ [0])) k) as [-> ->]; [done|lia|]. pose proof (head_length T_STRING (zlen l) ltac:(lia)).
    destruct (write_head_rep bb c T_STRING (zlen l) Hr) as (b1 & -> & R1); [lia|done|lia|]. cbn [mbind option_bind Z.eqb T_BYTES T_ARRAY T_OBJECT T_STRING Pos.eqb].
    assert ((if zlen l =? 0 then Some [] else d ← t_data (token T_STRING (zlen l) (Some (l ++ [0])) k); read_at d 0 (Z.to_nat (zlen l))) = Some l) as ->.
    { unfold read_at. cbn. rewrite Nat2Z.id, drop_0, length_app, take_app_length. destruct l; [done|]. by rewrite (proj2 (Nat.leb_le _ _)) by lia. }
    cbn [mbind option_bind length] in *. destruct (bb_write_raw_bytes_rep b1 _ l R1) as (b2 & -> & R2); [rewrite length_app; lia|]. cbn [mbind option_bind].
    destruct (bb_write_byte_rep b2 _ 0 R2) as (b3 & -> & R3); [rewrite !length_app; lia|]. exists b3. split; [done|]. by rewrite <- !app_assoc in *.
  - apply jval_ok_array in Hok as [Hl Hok]. rewrite flat_array in *. cbn [length app write_token] in *.
    destruct (token_type T_ARRAY (zlen vs) None k) as [-> ->]; [done|lia|]. pose proof (head_length T_ARRAY (zlen vs) ltac:(lia)).
    destruct (write_head_rep bb c T_ARRAY (zlen vs) Hr) as (b1 & -> & R1); [lia|done|lia|]. cbn [mbind option_bind Z.eqb Pos.eqb T_ARRAY].
    rewrite (bin_array vs 0) in *. pose proof (flats_length (indexed 0 vs)) as Hfl.
    destruct (write_loop_flats (write_token f) false (indexed 0 vs) f b1 (c ++ head T_ARRAY (zlen vs)) 0 rest) as (b2 & P2 & R2); [|lia|done|rewrite length_app; lia|].
    + apply Hmono; [|lia]. apply Forall_forall. intros kv (j & Hj)%list_elem_of_lookup_1. rewrite lookup_indexed in Hj. destruct (vs !! j) as [v|] eqn:Ev; [|done].
      injection Hj as <-. cbn [fst snd]. rewrite Forall_lookup in IH, Hok. split; [apply Z.mod_pos_bound; lia|].
      split; [by eapply Hok|]. intros fuel. eapply IH; [exact Ev|by eapply Hok].
    + rewrite Z.add_0_l, length_indexed in P2. exists b2. split; [done|]. by rewrite app_assoc.
  - apply jval_ok_object in Hok as [Hl Hok]. rewrite flat_object in *. cbn [length app write_token] in *.
    destruct (token_type T_OBJECT (zlen kvs) None k) as [-> ->]; [done|lia|]. pose proof (head_length T_OBJECT (zlen kvs) ltac:(lia)).
    destruct (write_head_rep bb c T_OBJECT (zlen kvs) Hr) as (b1 & -> & R1); [lia|done|lia|]. cbn [mbind option_bind Z.eqb Pos.eqb T_ARRAY T_OBJECT T_BYTES].
    pose proof (flats_length kvs). change (concat (map (fun kv => be_bytes 2 kv.1 ++ bin kv.2) kvs)) with (children true kvs) in *.
    destruct (write_loop_flats (write_token f) true kvs f b1 (c ++ head T_OBJECT (zlen kvs)) 0 rest) as (b2 & P2 & R2); [|lia|done|rewrite length_app; lia|].
    + apply Hmono; [|lia]. apply (Forall_combine _ _ _ _ IH Hok). intros kv Hv [Hk Hv2]. split; [lia|]. split; [done|]. intros fuel. by apply Hv.
    + rewrite Z.add_0_l in P2. exists b2. split; [done|]. by rewrite app_assoc.
  - assert (0 <= (if b then 1 else 0) < 2 ^ 28) as Hb by (by destruct b). cbn [flat app write_token].
    destruct (token_type T_BOOLEAN (if b then 1 else 0) None k) as [-> ->]; [done|done|].
    destruct (write_head_rep bb c T_BOOLEAN (if b then 1 else 0) Hr) as (b1 & -> & R1); [lia|done|done|]. by exists b1.
  - cbn [jval_ok] in Hok. cbn [flat app write_token]. destruct (token_type T_INTEGER n None k) as [-> ->]; [done|lia|].
    destruct (write_head_rep bb c T_INTEGER n Hr) as (b1 & -> & R1); [lia|done|lia|]. by exists b1.
  - cbn [flat app write_token]. destruct (token_type T_NULL 0 None k) as [-> ->]; [done|done|].
    destruct (write_head_rep bb c T_NULL 0 Hr) as (b1 & -> & R1); [lia|done|done|]. by exists b1.
Qed.
Lemma serialize_rep bb v k rest : jval_ok v = true -> bb_rep bb [] -> zlen (flat 0 v) < 2 ^ 28 -> zlen (binary v) < 2 ^ 32 ->
  exists bb', d_serialize_binary bb (flat k v ++ rest) = Some bb' /\ bb_rep bb' (binary v).
Proof.
  intros Hok Hr Hn Hb. unfold d_serialize_binary, d_token_size, binary in *. rewrite length_app in Hb.
  assert (length (flat k v) = length (flat 0 v)) as El by (destruct (flat_nonempty k v) as (t & l & -> & _ & E2); by rewrite (E2 0)).
  rewrite token_size_flat by (done || (rewrite length_app; lia)). cbn [mbind option_bind]. rewrite El. unfold write_token_count.
  destruct (write_head_rep bb [] T_NULL (zlen (flat 0 v)) Hr) as (b1 & -> & R1); [cbn [length]; lia|done|lia|]. cbn [mbind option_bind app].
  apply (writes_flat v); [done|rewrite length_app; lia|done|lia].
Qed.
End Writer.

(** ** The reader *)
Lemma rd_mid pre l post i : (i < length l)%nat -> rd (pre ++ l ++ post) (zlen pre + Z.of_nat i) = nth i l 0.
Proof.
  intros Hi. replace (zlen pre + Z.of_nat i) with (Z.of_nat (length pre + i)) by lia. rewrite rd_nat, app_nth2_plus. by apply app_nth1.
Qed.
#[local] Ltac pows := change (256 ^ Z.of_nat 0) with 1 in *; change (256 ^ Z.of_nat 1) with 256 in *; change (256 ^ Z.of_nat 2) with (2 ^ 16) in *; change (256 ^ Z.of_nat 3) with (2 ^ 24) in *.
(** The bytes of a number, put together again. *)
Lemma read_len_bytes d p bs : bytes_ok bs -> (forall i, (i < length bs)%nat -> rd d (p + Z.of_nat i) = nth i bs 0) ->
  (1 <= length bs <= 4)%nat -> be_val bs < 2 ^ 32 -> read_len d (zlen bs + 27) p = be_val bs.
Proof.
  intros Hb Hr Hl Hv. pose proof (Hr 0%nat) as E0. pose proof (Hr 1%nat) as E1. pose proof (Hr 2%nat) as E2. pose proof (Hr 3%nat) as E3. rewrite Z.add_0_r in E0.
  assert (forall x, is_byte x -> 0 <= x < 2 ^ 8) as Hbyte by (unfold is_byte; lia).
  destruct bs as [|b0 [|b1 [|b2 [|b3 [|b4 t]]]]]; cbn [length] in Hl; try lia; cbn [length nth] in *; unfold read_len;
    [change (Z.of_nat 1 + 27) with 28|change (Z.of_nat 2 + 27) with 29|change (Z.of_nat 3 + 27) with 30|change (Z.of_nat 4 + 27) with 31]; cbn [Z.eqb Pos.eqb].
  - rewrite E0 by lia. by rewrite be_val_single.
  - change (p + 1) with (p + Z.of_nat 1). rewrite E0, E1 by lia. inversion_clear Hb as [|? ? B0 Hb']. inversion_clear Hb' as [|? ? B1 _].
    rewrite Z.shiftl_mul_pow2, lor_mul_add by (lia || auto). rewrite be_val_cons, be_val_single. cbn [length]. pows. lia.
  - change (p + 1) with (p + Z.of_nat 1). change (p + 2) with (p + Z.of_nat 2). rewrite E0, E1, E2 by lia.
    inversion_clear Hb as [|? ? B0 Hb']. inversion_clear Hb' as [|? ? B1 Hb'']. inversion_clear Hb'' as [|? ? B2 _].
    unfold is_byte in B0, B1, B2. rewrite !Z.shiftl_mul_pow2, (lor_mul_add b0 (b1 * 2 ^ 8) 16) by lia.
    replace (b0 * 2 ^ 16 + b1 * 2 ^ 8) with ((b0 * 2 ^ 8 + b1) * 2 ^ 8) by lia. rewrite lor_mul_add, !be_val_cons, be_val_nil by lia. cbn [length]. pows. lia.
  - change (p + 1) with (p + Z.of_nat 1). change (p + 2) with (p + Z.of_nat 2). change (p + 3) with (p + Z.of_nat 3). rewrite E0, E1, E2, E3 by lia.
    inversion_clear Hb as [|? ? B0 Hb']. inversion_clear Hb' as [|? ? B1 Hb'']. inversion_clear Hb'' as [|? ? B2 Hb3]. inversion_clear Hb3 as [|? ? B3 _].
    unfold is_byte in B0, B1, B2, B3. rewrite !be_val_cons, be_val_nil in *. cbn [length] in *. pows.
    rewrite !Z.shiftl_mul_pow2, (lor_mul_add b0 (b1 * 2 ^ 16) 24) by lia.
    replace (b0 * 2 ^ 24 + b1 * 2 ^ 16) with ((b0 * 2 ^ 8 + b1) * 2 ^ 16) by lia. rewrite (lor_mul_add _ (b2 * 2 ^ 8) 16) by lia.
    replace ((b0 * 2 ^ 8 + b1) * 2 ^ 16 + b2 * 2 ^ 8) with (((b0 * 2 ^ 8 + b1) * 2 ^ 8 + b2) * 2 ^ 8) by lia. rewrite lor_mul_add by lia.
    rewrite u32_small by lia. lia.
Qed.

Lemma read_token_head d pre type len post f jp : d = pre ++ head type len ++ post -> 0 <= type < 8 -> 0 <= len < 2 ^ 28 ->
  read_token d (S f) (jp, zlen pre) =
    read_body d (read_array f (read_token d f) 0) (read_object d f (read_token d f) 0) type len (jp, zlen pre + zlen (head type len)).
Proof.
  intros Hd Ht Hl. pose proof (head_length type len Hl) as Hh. cbn [read_token]. assert (zlen d = zlen pre + zlen (head type len) + zlen post) as Ez by (rewrite Hd, !length_app; lia).
  rewrite (proj2 (Z.leb_gt (zlen d) (zlen pre))) by lia.
  assert (forall i, (i < length (head type len))%nat -> rd d (zlen pre + Z.of_nat i) = nth i (head type len) 0) as Hrd by (intros; rewrite Hd; by apply rd_mid).
  pose proof (Hrd 0%nat ltac:(lia)) as H0. rewrite Z.add_0_r in H0. rewrite H0.
  assert (forall low, 0 <= low < 32 -> Z.shiftr (type * 32 + low) 5 = type /\ Z.land (type * 32 + low) 0x1F = low) as Hsplit.
  { intros low Hlow. change 0x1F with (Z.ones 5). rewrite Z.land_ones, Z.shiftr_div_pow2 by lia. change (2 ^ 5) with 32. split.
    - symmetry. apply Z.div_unique with low; lia.
    - symmetry. apply Z.mod_unique with type; lia. }
  unfold head in *. destruct (Z.ltb_spec len 28) as [L|L]; cbn [nth length] in *.
  - destruct (Hsplit len ltac:(lia)) as [-> ->]. rewrite (proj2 (Z.ltb_ge 27 len)), Z.add_0_r by lia.
    rewrite (proj2 (Z.ltb_ge (zlen d) (zlen pre + 1))) by lia. assert (read_len d len (zlen pre + 1) = len) as -> by (unfold read_len; bool_cases). done.
  - destruct (min_bytes_len_cases len) as [Hm Hb]; [lia|]. set (n := min_bytes_len len) in *. rewrite length_be_bytes in *.
    destruct (Hsplit (n + 27) ltac:(lia)) as [-> ->]. rewrite (proj2 (Z.ltb_lt 27 (n + 27))) by lia. replace (n + 27 - 27) with n by lia.
    rewrite (proj2 (Z.ltb_ge (zlen d) (zlen pre + 1 + n))) by lia.
    assert (be_val (be_bytes (Z.to_nat n) len) = len) as Ev by (rewrite be_val_be_bytes; apply Z.mod_small; replace (Z.of_nat (Z.to_nat n)) with n by lia; lia).
    pose proof (read_len_bytes d (zlen pre + 1) (be_bytes (Z.to_nat n) len)) as Hrl. rewrite Ev, length_be_bytes in Hrl. replace (Z.of_nat (Z.to_nat n)) with n in Hrl by lia.
    rewrite Hrl; [f_equal; f_equal; lia|auto with in3| |lia|lia].
    intros i Hi. specialize (Hrd (S i) ltac:(lia)). cbn [nth] in Hrd. rewrite <- Hrd. f_equal. lia.
Qed.

(** Two tokens that say the same: the data counts up to the length. *)
Definition payload (t : d_token_t) : list Z :=
  if (d_type t =? T_BYTES) || (d_type t =? T_STRING) then take (Z.to_nat (d_len t)) (default [] (t_data t)) else [].
Definition token_eq (a b : d_token_t) : Prop := t_len a = t_len b /\ t_key a = t_key b /\ t_state a = t_state b /\ payload a = payload b.
Lemma token_eq_set_key k a b : token_eq a b -> token_eq (set_key k a) (set_key k b).
Proof. intros (H1 & _ & H3 & H4). done. Qed.

(** What [read] does to the binary form of [v]. *)
Definition reads (d : list Z) (read : M (json_ctx_t * Z) unit) (v : jval) : Prop :=
  forall pre post jp, d = pre ++ bin v ++ post ->
    exists jp' toks, read (jp, zlen pre) = Ok tt (jp', zlen pre + zlen (bin v)) /\ result jp' = result jp ++ toks /\ Forall2 token_eq toks (flat 0 v).

Lemma bin_nonempty v : jval_ok v = true -> (1 <= length (bin v))%nat.
Proof.
  intros Hok. assert (forall ty len, 0 <= len < 2 ^ 28 -> (1 <= length (head ty len))%nat) as Hh by (intros ty len Hl; pose proof (head_length ty len Hl); lia).
  destruct v as [l|l|vs|kvs|b|n| ]; cbn [bin]; rewrite ?length_app.
  - cbn [jval_ok] in Hok. pose proof (Hh T_BYTES (zlen l)). lia.
  - cbn [jval_ok] in Hok. pose proof (Hh T_STRING (zlen l)). lia.
  - apply jval_ok_array in Hok as [Hl _]. pose proof (Hh T_ARRAY (zlen vs)). lia.
  - apply jval_ok_object in Hok as [Hl _]. pose proof (Hh T_OBJECT (zlen kvs)). lia.
  - apply Hh. by destruct b.
  - cbn [jval_ok] in Hok. apply Hh. lia.
  - by apply Hh.
Qed.
Lemma children_length keys kvs : kvs_ok kvs -> (length kvs <= length (children keys kvs))%nat.
Proof.
  induction 1 as [|[k v] t Hv _ IH]; [cbn; lia|]. rewrite children_cons, !length_app. pose proof (bin_nonempty v Hv). cbn [length]. lia.
Qed.

(** A token read behind those of [jp] gets its key. *)
Lemma assign_key_new jp jp' toks v k p : result jp' = result jp ++ toks -> Forall2 token_eq toks (flat 0 v) ->
  exists toks', assign_key (length (result jp)) k (jp', p) = Ok tt (mk_ctx (result jp ++ toks') (allocated jp'), p) /\ Forall2 token_eq toks' (flat k v).
Proof.
  intros Hr Ht. destruct (flat_nonempty 0 v) as (t & l & E & _ & Ek). rewrite E in Ht. inversion Ht as [|t' ? toks1 ? Ht1 Ht2]; subst.
  exists (set_key k t' :: toks1). split.
  - unfold assign_key. rewrite Hr, length_app. cbn [length]. rewrite (proj2 (Nat.ltb_lt _ _)) by lia. unfold set_token. rewrite Hr.
    do 3 f_equal. rewrite <- (Nat.add_0_r (length (result jp))), alter_app_r. done.
  - rewrite (Ek k). constructor; [by apply token_eq_set_key|done].
Qed.

Lemma read_array_children d read : forall vs f i pre post jp, Forall (fun v => jval_ok v = true /\ reads d read v) vs -> (length vs <= f)%nat ->
  d = pre ++ concat (map bin vs) ++ post ->
  exists jp' toks, read_array f read i (i + zlen vs) (jp, zlen pre) = Ok tt (jp', zlen pre + zlen (concat (map bin vs))) /\
    result jp' = result jp ++ toks /\ Forall2 token_eq toks (flats (indexed i vs)).
Proof.
  induction vs as [|v t IH]; intros f i pre post jp Hv Hf Hd.
  - exists jp, []. split; [|split; [by rewrite app_nil_r|constructor]].
    destruct f; cbn [read_array length]; rewrite (proj2 (Z.ltb_ge i (i + Z.of_nat 0))) by lia; unfold mret, M_ret; cbn; do 2 f_equal; lia.
  - inversion_clear Hv as [|? ? [Ho Hr] Hv']. destruct f as [|f]; cbn [length] in Hf; [lia|]. cbn [map concat] in Hd. rewrite <- app_assoc in Hd.
    destruct (Hr pre (concat (map bin t) ++ post) jp Hd) as (jp1 & toks1 & P1 & R1 & T1).
    destruct (assign_key_new jp jp1 toks1 v (u16 i) (zlen pre + zlen (bin v)) R1 T1) as (toks1' & P2 & T2).
    destruct (IH f (i + 1) (pre ++ bin v) post (mk_ctx (result jp ++ toks1') (allocated jp1)) Hv' ltac:(lia)) as (jp2 & toks2 & P3 & R3 & T3); [by rewrite <- app_assoc|].
    exists jp2, (toks1' ++ toks2). cbn [read_array length]. rewrite (proj2 (Z.ltb_lt i _)) by lia. split; [|split].
    + unfold mbind, M_bind, gets. cbn [fst]. rewrite P1, P2. rewrite length_app in P3. replace (i + Z.of_nat (S (length t))) with (i + 1 + zlen t) by lia.
      replace (zlen pre + zlen (bin v)) with (Z.of_nat (length pre + length (bin v))) by lia. rewrite P3. cbn [map concat]. rewrite length_app. do 2 f_equal. lia.
    + rewrite R3. cbn [result]. by rewrite app_assoc.
    + cbn [indexed]. rewrite flats_cons. by apply Forall2_app.
Qed.
Lemma read_object_children d read : forall kvs f i pre post jp, Forall (fun kv => 0 <= kv.1 < 2 ^ 16 /\ jval_ok kv.2 = true /\ reads d read kv.2) kvs ->
  (length kvs <= f)%nat -> d = pre ++ children true kvs ++ post ->
  exists jp' toks, read_object d f read i (i + zlen kvs) (jp, zlen pre) = Ok tt (jp', zlen pre + zlen (children true kvs)) /\
    result jp' = result jp ++ toks /\ Forall2 token_eq toks (flats kvs).
Proof.
  induction kvs as [|[k v] t IH]; intros f i pre post jp Hv Hf Hd.
  - exists jp, []. split; [|split; [by rewrite app_nil_r|constructor]].
    destruct f; cbn [read_object length]; rewrite (proj2 (Z.ltb_ge i (i + Z.of_nat 0))) by lia; unfold mret, M_ret; cbn; do 2 f_equal; lia.
  - inversion_clear Hv as [|? ? (Hk & Ho & Hr) Hv']. cbn [fst snd] in *. destruct f as [|f]; cbn [length] in Hf; [lia|]. rewrite children_cons, <- !app_assoc in Hd.
    assert (d = (pre ++ be_bytes 2 k) ++ bin v ++ children true t ++ post) as Hd1 by (rewrite Hd; by rewrite <- !app_assoc).
    assert (length (pre ++ be_bytes 2 k) = length pre + 2)%nat as El by (rewrite length_app, length_be_bytes; lia).
    destruct (Hr _ _ jp Hd1) as (jp1 & toks1 & P1 & R1 & T1). pose proof (bin_nonempty v Ho) as Hne.
    assert (zlen pre + 2 < zlen d) as Hlt by (rewrite Hd, !length_app, length_be_bytes; lia).
    destruct (assign_key_new jp jp1 toks1 v k (zlen (pre ++ be_bytes 2 k) + zlen (bin v)) R1 T1) as (toks1' & P2 & T2).
    destruct (IH f (i + 1) ((pre ++ be_bytes 2 k) ++ bin v) post (mk_ctx (result jp ++ toks1') (allocated jp1)) Hv' ltac:(lia)) as (jp2 & toks2 & P3 & R3 & T3);
      [by rewrite <- app_assoc|].
    assert (Z.lor (Z.shiftl (rd d (zlen pre)) 8) (rd d (zlen pre + 1)) = k) as Ek.
    { pose proof (rd_mid pre (be_bytes 2 k) (bin v ++ children true t ++ post) 0) as E0. pose proof (rd_mid pre (be_bytes 2 k) (bin v ++ children true t ++ post) 1) as E1.
      rewrite <- Hd, length_be_bytes, ?Z.add_0_r in *. change (Z.of_nat 1) with 1 in E1. rewrite E0, E1 by lia. cbn [be_bytes app nth].
      pose proof (Z.mod_pos_bound k 256 ltac:(lia)). rewrite Z.shiftl_mul_pow2, lor_mul_add by lia. change (2 ^ 8) with 256.
      rewrite (Z.mod_small (k / 256)) by (split; [apply Z.div_pos; lia|apply Z.div_lt_upper_bound; lia]). pose proof (Z.div_mod k 256). lia. }
    exists jp2, (toks1' ++ toks2). cbn [read_object length]. rewrite (proj2 (Z.ltb_lt i _)) by lia. split; [|split].
    + unfold mbind, M_bind, gets, modify. cbn [fst snd]. rewrite (proj2 (Z.leb_gt (zlen d) (zlen pre + 2))) by lia. rewrite Ek.
      replace (zlen pre + 2) with (zlen (pre ++ be_bytes 2 k)) by lia. cbn [fst]. rewrite P1, P2. replace (i + Z.of_nat (S (length t))) with (i + 1 + zlen t) by lia.
      rewrite (length_app _ (bin v)) in P3. replace (zlen (pre ++ be_bytes 2 k) + zlen (bin v)) with (Z.of_nat (length (pre ++ be_bytes 2 k) + length (bin v))) by lia.
      rewrite P3. rewrite children_cons, !length_app, length_be_bytes. do 2 f_equal. lia.
    + rewrite R3. cbn [result]. by rewrite app_assoc.
    + rewrite flats_cons. by apply Forall2_app.
Qed.

Lemma next_item_result jp type len : 0 <= type < 16 -> 0 <= len < 2 ^ 28 -> result (next_item jp type len) = result jp ++ [token type len None 0].
Proof. intros Ht Hl. unfold next_item. cbn [result]. by rewrite new_token. Qed.
(** The last token gets its data. *)
Lemma set_last_data jp type len data : 0 <= type < 16 -> 0 <= len < 2 ^ 28 ->
  result (set_token (length (result jp)) (set_data data) (next_item jp type len)) = result jp ++ [token type len (Some data) 0].
Proof.
  intros Ht Hl. unfold set_token. cbn [result]. rewrite next_item_result by done. rewrite <- (Nat.add_0_r (length (result jp))), alter_app_r. done.
Qed.
Lemma payload_prefix type len l post post' k : type = T_BYTES \/ type = T_STRING -> len = zlen l -> len < 2 ^ 28 ->
  payload (token type len (Some (l ++ post)) k) = payload (token type len (Some (l ++ post')) k).
Proof.
  intros Ht -> Hl. unfold payload. assert (forall p, d_type (token type (zlen l) (Some p) k) = type /\ d_len (token type (zlen l) (Some p) k) = zlen l) as Htt.
  { intros p. apply token_type; [destruct Ht as [-> | ->]; done|lia]. }
  destruct (Htt (l ++ post)) as [-> ->], (Htt (l ++ post')) as [-> ->]. cbn [token t_data default]. case_match; [|done]. rewrite Nat2Z.id. cbn. unfold id.
  by rewrite !take_app_length.
Qed.

Lemma reads_bin d v : forall f, jval_ok v = true -> (length (bin v) <= f)%nat -> reads d (read_token d f) v.
Proof.
  assert (forall type len f pre post jp, d = pre ++ head type len ++ post -> 0 <= len < 2 ^ 28 -> (length (head type len) <= f)%nat ->
    (type = T_BOOLEAN /\ len <= 1) \/ type = T_INTEGER \/ (type = T_NULL /\ len = 0) ->
    exists jp' toks, read_token d f (jp, zlen pre) = Ok tt (jp', zlen pre + zlen (head type len)) /\ result jp' = result jp ++ toks /\
      Forall2 token_eq toks [token type len None 0]) as Hleaf.
  { intros type len f pre post jp Hd Hl Hf Ht. pose proof (head_length type len Hl). destruct f as [|f]; [lia|].
    rewrite (read_token_head d pre type len post f jp Hd) by (destruct Ht as [[-> ?]|[-> |[-> ?]]]; (done || lia)).
    exists (next_item jp type len), [token type len None 0]. split; [|split; [apply next_item_result; [destruct Ht as [[-> ?]|[-> |[-> ?]]]; done|done]|by repeat constructor]].
    unfold read_body. destruct Ht as [[-> ?]|[-> |[-> ->]]]; cbn [Z.eqb Pos.eqb T_BOOLEAN T_INTEGER T_NULL T_ARRAY T_OBJECT T_STRING T_BYTES andb]; [|done|done].
    by rewrite (proj2 (Z.ltb_ge 1 len)) by lia. }
  induction v as [l|l|vs IH|kvs IH|b|n| ] using jval_induction; intros f Hok Hf pre post jp Hd; cbn [bin] in *.
  - cbn [jval_ok] in Hok. apply andb_prop in Hok as [_ Hl%Z.ltb_lt]. pose proof (head_length T_BYTES (zlen l) ltac:(lia)) as Hh. rewrite length_app in Hf.
    destruct f as [|f]; [lia|]. rewrite <- app_assoc in Hd. rewrite (read_token_head d pre T_BYTES (zlen l) (l ++ post) f jp Hd) by (done || lia).
    assert (drop (Z.to_nat (zlen pre + zlen (head T_BYTES (zlen l)))) d = l ++ post) as Edrop.
    { rewrite Hd, app_assoc. replace (Z.to_nat _) with (length (pre ++ head T_BYTES (zlen l))) by (rewrite length_app; lia). by rewrite drop_app_length. }
    unfold read_body. cbn [Z.eqb andb T_BYTES T_NULL T_BOOLEAN T_ARRAY T_OBJECT T_STRING]. rewrite Edrop.
    exists (set_token (length (result jp)) (set_data (l ++ post)) (next_item jp T_BYTES (zlen l))), [token T_BYTES (zlen l) (Some (l ++ post)) 0].
    split; [|split; [apply set_last_data; [done|lia]|]].
    + rewrite (proj2 (Z.ltb_ge (zlen d) _)) by (rewrite Hd, !length_app; lia). rewrite length_app. do 2 f_equal. lia.
    + constructor; [|constructor]. split; [done|]. split; [done|]. split; [done|]. rewrite (payload_prefix T_BYTES (zlen l) l post []) by (auto || lia). by rewrite app_nil_r.
  - cbn [jval_ok] in Hok. apply andb_prop in Hok as [_ Hl%Z.ltb_lt]. pose proof (head_length T_STRING (zlen l) ltac:(lia)) as Hh. rewrite !length_app in Hf. cbn [length] in Hf.
    destruct f as [|f]; [lia|]. rewrite <- !app_assoc in Hd. rewrite (read_token_head d pre T_STRING (zlen l) (l ++ [0] ++ post) f jp Hd) by (done || lia).
    assert (d = (pre ++ head T_STRING (zlen l)) ++ l ++ [0] ++ post) as Hd1 by (by rewrite Hd, <- app_assoc).
    assert (drop (Z.to_nat (zlen pre + zlen (head T_STRING (zlen l)))) d = l ++ [0] ++ post) as Edrop.
    { rewrite Hd1. replace (Z.to_nat _) with (length (pre ++ head T_STRING (zlen l))) by (rewrite length_app; lia). by rewrite drop_app_length. }
    assert (rd d (zlen pre + zlen (head T_STRING (zlen l)) + zlen l) = 0) as Ez.
    { pose proof (rd_mid ((pre ++ head T_STRING (zlen l)) ++ l) [0] post 0) as E. rewrite <- !app_assoc, Z.add_0_r, !length_app in E. rewrite Hd.
      replace (zlen pre + zlen (head T_STRING (zlen l)) + zlen l) with (Z.of_nat (length pre + (length (head T_STRING (zlen l)) + length l))) by lia. apply E. cbn. lia. }
    unfold read_body. cbn [Z.eqb Pos.eqb andb T_BYTES T_NULL T_BOOLEAN T_ARRAY T_OBJECT T_STRING]. rewrite Edrop, Ez.
    exists (set_token (length (result jp)) (set_data (l ++ [0] ++ post)) (next_item jp T_STRING (zlen l))), [token T_STRING (zlen l) (Some (l ++ [0] ++ post)) 0].
    split; [|split; [apply set_last_data; [done|lia]|]].
    + rewrite (proj2 (Z.ltb_ge (zlen d) _)) by (rewrite Hd, !length_app; cbn [length]; lia). cbn [orb negb Z.eqb]. rewrite !length_app. cbn [length]. do 2 f_equal. lia.
    + constructor; [|constructor]. split; [done|]. split; [done|]. split; [done|]. apply payload_prefix; [auto|done|lia].
  - apply jval_ok_array in Hok as [Hl Hok]. pose proof (head_length T_ARRAY (zlen vs) ltac:(lia)) as Hh. rewrite length_app in Hf.
    destruct f as [|f]; [lia|]. rewrite <- app_assoc in Hd. rewrite (read_token_head d pre T_ARRAY (zlen vs) (concat (map bin vs) ++ post) f jp Hd) by (done || lia).
    unfold read_body. cbn [Z.eqb Pos.eqb andb T_NULL T_BOOLEAN T_ARRAY].
    assert (forall v, v ∈ vs -> (length (bin v) <= length (concat (map bin vs)))%nat) as Hle.
    { clear. intros v Hv. induction vs as [|x t IH]; [by apply elem_of_nil in Hv|]. cbn [map concat]. rewrite length_app. apply elem_of_cons in Hv as [-> | Hv]; [lia|]. specialize (IH Hv). lia. }
    destruct (read_array_children d (read_token d f) vs f 0 (pre ++ head T_ARRAY (zlen vs)) post (next_item jp T_ARRAY (zlen vs))) as (jp' & toks & P1 & R1 & T1).
    + apply Forall_forall. intros v Hv. rewrite Forall_forall in IH, Hok. split; [by apply Hok|]. apply IH; [done|by apply Hok|]. specialize (Hle v Hv). lia.
    + pose proof (children_length false (indexed 0 vs) (indexed_ok vs 0 Hok)) as Hcl. rewrite length_indexed, <- bin_array in Hcl. lia.
    + by rewrite <- app_assoc.
    + exists jp', (token T_ARRAY (zlen vs) None 0 :: toks). split; [|split].
      * rewrite Z.add_0_l, length_app in P1. replace (zlen pre + zlen (head T_ARRAY (zlen vs))) with (Z.of_nat (length pre + length (head T_ARRAY (zlen vs)))) by lia.
        rewrite P1. rewrite length_app. do 2 f_equal. lia.
      * rewrite R1, next_item_result by (done || lia). by rewrite <- app_assoc.
      * rewrite flat_array. by constructor.
  - apply jval_ok_object in Hok as [Hl Hok]. pose proof (head_length T_OBJECT (zlen kvs) ltac:(lia)) as Hh. rewrite length_app in Hf.
    change (concat (map (fun kv => be_bytes 2 kv.1 ++ bin kv.2) kvs)) with (children true kvs) in *.
    destruct f as [|f]; [lia|]. rewrite <- app_assoc in Hd. rewrite (read_token_head d pre T_OBJECT (zlen kvs) (children true kvs ++ post) f jp Hd) by (done || lia).
    unfold read_body. cbn [Z.eqb Pos.eqb andb T_NULL T_BOOLEAN T_ARRAY T_OBJECT].
    assert (forall kv, kv ∈ kvs -> (length (bin kv.2) <= length (children true kvs))%nat) as Hle.
    { clear. intros kv Hv. induction kvs as [|[k x] t IH]; [by apply elem_of_nil in Hv|]. rewrite children_cons, !length_app. apply elem_of_cons in Hv as [-> | Hv]; [cbn [snd]; lia|].
      specialize (IH Hv). lia. }
    destruct (read_object_children d (read_token d f) kvs f 0 (pre ++ head T_OBJECT (zlen kvs)) post (next_item jp T_OBJECT (zlen kvs))) as (jp' & toks & P1 & R1 & T1).
    + apply Forall_forall. intros kv Hv. rewrite Forall_forall in IH, Hok. destruct (Hok kv Hv) as [Hk Ho]. split; [done|]. split; [done|]. apply IH; [done|done|]. specialize (Hle kv Hv). lia.
    + pose proof (children_length true kvs) as Hcl. apply Nat.le_trans with (length (children true kvs)); [apply Hcl; eapply Forall_impl; [exact Hok|by intros ? [_ ?]]|lia].
    + by rewrite <- app_assoc.
    + exists jp', (token T_OBJECT (zlen kvs) None 0 :: toks). split; [|split].
      * rewrite Z.add_0_l, length_app in P1. replace (zlen pre + zlen (head T_OBJECT (zlen kvs))) with (Z.of_nat (length pre + length (head T_OBJECT (zlen kvs)))) by lia.
        rewrite P1. rewrite length_app. do 2 f_equal. lia.
      * rewrite R1, next_item_result by (done || lia). by rewrite <- app_assoc.
      * rewrite flat_object. by constructor.
  - apply (Hleaf T_BOOLEAN (if b then 1 else 0) f pre post jp Hd); [by destruct b|done|left; by destruct b].
  - cbn [jval_ok] in Hok. apply (Hleaf T_INTEGER n f pre post jp Hd); [lia|done|auto].
  - apply (Hleaf T_NULL 0 f pre post jp Hd); [done|done|auto].
Qed.

(** C26. Round trip of the binary format: serialising the tokens of any value that fits (at most
    1000000 tokens) writes its binary form, and parsing that gives back the same tokens (types,
    lengths, keys and data), for any builder and whatever follows the tokens in their array. *)
Theorem binary_roundtrip (A : Allocator) bb v k rest : jval_ok v = true -> bb_rep bb [] ->
  zlen (flat 0 v) <= JSON_MAX_ALLOWED_TOKENS -> zlen (binary v) < 2 ^ 32 ->
  exists bb' jp, d_serialize_binary bb (flat k v ++ rest) = Some bb' /\ bb_rep bb' (binary v) /\
    parse_binary (binary v) = Ok (Some jp) tt /\ Forall2 token_eq (result jp) (flat 0 v).
Proof.
  intros Hok Hr Hn Hb. unfold JSON_MAX_ALLOWED_TOKENS in Hn. destruct (serialize_rep bb v k rest Hok Hr) as (bb' & P1 & R1); [lia|done|].
  assert (0 < zlen (flat 0 v)) as Hpos by (destruct (flat_nonempty 0 v) as (? & ? & -> & _); cbn [length]; lia).
  set (d := binary v). set (n := zlen (flat 0 v)) in *. pose proof (head_length T_NULL n ltac:(lia)) as Hh.
  assert (length d = length (head T_NULL n) + length (bin v))%nat as Ld by (subst d; unfold binary; by rewrite length_app).
  pose proof (bin_nonempty v Hok) as Hne.
  assert (read_token d (S (length d)) (json_create, 0) = Ok tt (mk_ctx [] n, zlen (head T_NULL n))) as Hc.
  { change (json_create, 0) with (json_create, zlen (@nil Z)). rewrite (read_token_head d [] T_NULL n (bin v) (length d) json_create) by (done || lia). unfold read_body, read_count. cbn [Z.eqb Pos.eqb T_NULL andb].
    rewrite (proj2 (Z.ltb_lt 0 n)), (proj2 (Z.ltb_ge JSON_MAX_ALLOWED_TOKENS n)) by (unfold JSON_MAX_ALLOWED_TOKENS; lia). cbn. done. }
  destruct (reads_bin d v (S (length d)) Hok ltac:(lia) (head T_NULL n) [] (mk_ctx [] n)) as (jp & toks & P2 & R2 & T2); [by rewrite app_nil_r|].
  exists bb', (mk_ctx (result jp) 0). split; [done|]. split; [done|]. split; [|cbn [result]; by rewrite R2].
  unfold parse_binary. destruct (length d) as [|[|f]] eqn:El; [lia|lia|]. cbn [binary_loop]. unfold mbind, M_bind, gets. cbn [snd].
  rewrite (proj2 (Z.ltb_lt 0 (zlen d))) by lia. rewrite El, Hc. cbn [snd]. rewrite (proj2 (Z.ltb_lt (zlen (head T_NULL n)) _)) by lia. rewrite P2. cbn [snd].
  rewrite (proj2 (Z.ltb_ge (zlen (head T_NULL n) + zlen (bin v)) _)) by lia. done.
Qed.

(** ** Termination on arbitrary input *)
Section Bounded.
Context (d : list Z) (Hbytes : bytes_ok d).

(** Enough rounds for what is left from [p] on. *)
Definition enough (f : nat) (p : Z) : Prop := Z.max 0 (zlen d - p) < Z.of_nat f.
(** [read] ends and, if it succeeds, has consumed something. *)
Definition consumes (f : nat) (read : M (json_ctx_t * Z) unit) : Prop :=
  forall jp p, 0 <= p -> enough f p -> match read (jp, p) with
  | Ok _ (_, p') => p < zlen d /\ p < p'
  | NoFuel => False
  | _ => True
  end.
Lemma read_len_nonneg len p : 0 <= len -> 0 <= read_len d len p.
Proof.
  intros Hl. assert (forall i, 0 <= rd d i) as Hr by (intros i; pose proof (rd_ok d i Hbytes) as [? _]; done).
  assert (forall x k, 0 <= x -> 0 <= Z.shiftl x k) as Hs by (intros; by apply Z.shiftl_nonneg).
  unfold read_len. bool_cases; try apply u32_range; rewrite ?Z.lor_nonneg; auto.
Qed.
Lemma read_array_bounded read g i len : consumes g read -> forall f jp p, 0 <= p -> enough f p -> (f <= g)%nat ->
  match read_array f read i len (jp, p) with Ok _ (_, p') => p <= p' | NoFuel => False | _ => True end.
Proof.
  intros Hc f. revert i. induction f as [|f IH]; intros i jp p Hp He Hf; [unfold enough in He; lia|]. cbn [read_array].
  destruct (i <? len); [|unfold mret, M_ret; lia]. unfold mbind, M_bind, gets. specialize (Hc jp p Hp). unfold enough in *.
  destruct (read (jp, p)) as [[] [jp' p']|c s| |]; [|done|done|apply Hc; lia]. destruct (Hc ltac:(lia)) as [Hlt Hlt'].
  unfold assign_key. cbn [fst]. destruct (_ <? _)%nat; [|destruct (_ <? _); [|done]].
  - specialize (IH (i + 1) (set_token (length (result jp)) (set_key (u16 i)) jp') p' ltac:(lia) ltac:(lia) ltac:(lia)).
    destruct (read_array _ _ _ _ _) as [? [? ?]|? ?| |]; try done. lia.
  - specialize (IH (i + 1) jp' p' ltac:(lia) ltac:(lia) ltac:(lia)). destruct (read_array _ _ _ _ _) as [? [? ?]|? ?| |]; try done. lia.
Qed.
Lemma read_object_bounded read g i len : consumes g read -> forall f jp p, 0 <= p -> enough f p -> (f <= g)%nat ->
  match read_object d f read i len (jp, p) with Ok _ (_, p') => p <= p' | NoFuel => False | _ => True end.
Proof.
  intros Hc f. revert i. induction f as [|f IH]; intros i jp p Hp He Hf; [unfold enough in He; lia|]. cbn [read_object].
  destruct (i <? len); [|unfold mret, M_ret; lia]. unfold mbind, M_bind, gets. cbn [snd].
  destruct (Z.leb_spec (zlen d) (p + 2)) as [L|L]; [done|]. unfold modify. cbn [fst]. specialize (Hc jp (p + 2) ltac:(lia)). unfold enough in *.
  destruct (read (jp, p + 2)) as [[] [jp' p']|c s| |]; [|done|done|apply Hc; lia]. destruct (Hc ltac:(lia)) as [Hlt Hlt'].
  unfold assign_key. destruct (_ <? _)%nat; [|destruct (_ <? _); [|done]].
  - match goal with |- context [read_object _ _ _ _ _ (?j, p')] => specialize (IH (i + 1) j p' ltac:(lia) ltac:(lia) ltac:(lia)) end.
    destruct (read_object _ _ _ _ _ _) as [? [? ?]|? ?| |]; try done. lia.
  - specialize (IH (i + 1) jp' p' ltac:(lia) ltac:(lia) ltac:(lia)). destruct (read_object _ _ _ _ _ _) as [? [? ?]|? ?| |]; try done. lia.
Qed.
Lemma read_token_consumes f : consumes f (read_token d f).
Proof.
  induction f as [|f IH]; intros jp p Hp He; [unfold enough in He; lia|]. cbn [read_token].
  destruct (Z.leb_spec (zlen d) p) as [L|L]; [done|]. pose proof (rd_ok d p Hbytes) as Hb.
  assert (0 <= Z.land (rd d p) 0x1F) as Hlow by (apply Z.land_nonneg; right; lia).
  set (low := Z.land (rd d p) 0x1F) in *. set (l := if 27 <? low then low - 27 else 0). assert (0 <= l) as Hl0 by (subst l; bool_cases).
  destruct (Z.ltb_spec (zlen d) (p + 1 + l)) as [L2|L2]; [done|]. pose proof (read_len_nonneg low (p + 1) Hlow) as Hlen.
  set (len := read_len d low (p + 1)) in *. unfold read_body, enough in *.
  destruct ((_ =? T_NULL) && _); [unfold read_count; destruct (JSON_MAX_ALLOWED_TOKENS <? len); [done|]; cbn; lia|].
  destruct ((_ =? T_BOOLEAN) && _).
  { unfold read_reference. destruct (zlen (result jp) <? len - 2); [done|]. destruct (result jp !! _) as [t|]; [|done]. destruct (T_ARRAY <=? d_type t); [done|].
    destruct (allocated jp <=? zlen (result jp)); [done|]. lia. }
  destruct (_ =? T_ARRAY).
  { match goal with |- context [read_array f _ 0 len (?j, _)] => pose proof (read_array_bounded _ f 0 len IH f j (p + 1 + l) ltac:(lia)) as Ha end.
    unfold enough in Ha. specialize (Ha ltac:(lia) ltac:(lia)). destruct (read_array _ _ _ _ _) as [? [? ?]|? ?| |]; try done. lia. }
  destruct (_ =? T_OBJECT).
  { match goal with |- context [read_object d f _ 0 len (?j, _)] => pose proof (read_object_bounded _ f 0 len IH f j (p + 1 + l) ltac:(lia)) as Ha end.
    unfold enough in Ha. specialize (Ha ltac:(lia) ltac:(lia)). destruct (read_object _ _ _ _ _ _) as [? [? ?]|? ?| |]; try done. lia. }
  destruct (_ =? T_STRING); [destruct (_ || _); [done|lia]|]. destruct (_ =? T_BYTES); [|lia]. destruct (zlen d <? p + 1 + l + len); [done|lia].
Qed.
End Bounded.

Lemma parse_binary_ends d : bytes_ok d -> parse_binary d <> NoFuel.
Proof.
  intros Hb. unfold parse_binary. assert (forall f jp p, 0 <= p -> enough d f p -> binary_loop d f (jp, p) <> NoFuel) as Hloop.
  { induction f as [|f IH]; intros jp p Hp He; unfold enough in *; [lia|]. cbn [binary_loop]. unfold mbind, M_bind, gets. cbn [snd].
    destruct (Z.ltb_spec p (zlen d)) as [L|L]; [|done]. pose proof (read_token_consumes d Hb (S (length d)) jp p Hp) as Hc. unfold enough in Hc. specialize (Hc ltac:(lia)).
    destruct (read_token d (S (length d)) (jp, p)) as [[] [jp' p']|? ?| |]; [|done|done|done]. apply IH; lia. }
  specialize (Hloop (S (length d)) json_create 0 ltac:(lia)). unfold enough in Hloop. specialize (Hloop ltac:(lia)).
  destruct (binary_loop d (S (length d)) (json_create, 0)) as [? [? ?]|? ?| |]; done.
Qed.

(** Parsing terminates: on every input of bytes the reader of the binary format returns a
    context or NULL, or runs into an undefined access; it never loops. *)
Theorem parse_binary_terminates d : bytes_ok d -> parse_binary d <> NoFuel.
Proof. apply parse_binary_ends. Qed.

(** Integers keep their value in a token only below 2^28: [json_create_int] makes an integer
    token of any value up to 0xF0000000, and from 2^28 on the value runs into the type bits. *)
Theorem json_create_int_types jp value : 0 <= value < 2 ^ 64 ->
  let t := default (mk_token None 0 0 0) (last (result (json_create_int jp value))) in
  (value < 2 ^ 28 -> d_type t = T_INTEGER /\ d_len t = value) /\
  (0xF0000000 < value -> d_type t = T_BYTES /\ payload t = optimize_len (be_bytes 8 value)) /\
  (value = 2 ^ 29 -> d_type t = 7 /\ d_len t = 0).
Proof.
  intros Hv t. subst t. unfold json_create_int. split; [|split].
  - intros Hs. rewrite (proj2 (Z.ltb_ge 0xF0000000 value)) by lia. rewrite next_item_result, last_snoc by (done || lia). cbn [default]. unfold id. apply token_type; [done|lia].
  - intros Hs. rewrite (proj2 (Z.ltb_lt 0xF0000000 value)) by lia. rewrite long_to_bytes_spec by (rewrite length_replicate; reflexivity).
    set (p := optimize_len (be_bytes 8 value)). pose proof (optimize_len_length (be_bytes 8 value)) as Hl. rewrite length_be_bytes in Hl. fold p in Hl.
    unfold own_data, set_token. cbn [result]. rewrite next_item_result by (done || lia). rewrite length_app. cbn [length].
    replace (length (result jp) + 1 - 1)%nat with (length (result jp) + 0)%nat by lia. rewrite alter_app_r. cbn [alter list_alter]. rewrite last_snoc. cbn [default]. unfold id.
    change (mk_token (Some p) (t_len (token T_BYTES (zlen p) None 0)) (t_key (token T_BYTES (zlen p) None 0)) TOKEN_STATE_ALLOCATED)
      with (mk_token (Some p) (T_BYTES * 2 ^ 28 + zlen p) 0 TOKEN_STATE_ALLOCATED).
    destruct (token_type T_BYTES (zlen p) (Some p) 0) as [E1 E2]; [done|lia|]. unfold payload, d_type, d_len in *. cbn [t_len t_data token] in *. rewrite E1, E2.
    split; [done|]. cbn. rewrite Nat2Z.id. apply firstn_all.
  - intros ->. change (0xF0000000 <? 2 ^ 29) with false. cbv iota. unfold next_item. cbn [result]. rewrite last_snoc. cbn [default]. unfold id. done.
Qed.

(** ** Concrete values *)
Definition sample_value : jval := JObject [(1, JString [104; 105]); (2, JArray [JInt 5; JBytes (replicate 30 7); JNull]); (3, JBool true)].

Lemma d_get_spec_witness : exists rest', d_get (flat 0 sample_value ++ []) 2 = Some (Some (flat 2 (JArray [JInt 5; JBytes (replicate 30 7); JNull]) ++ rest')).
Proof. apply (d_get_spec sample_value 0 [] 2); [reflexivity|lia]. Defined.
Lemma binary_roundtrip_witness :
  exists bb' jp, d_serialize_binary bb_new (flat 0 sample_value ++ []) = Some bb' /\ bb_rep bb' (binary sample_value) /\
    parse_binary (binary sample_value) = Ok (Some jp) tt /\ Forall2 token_eq (result jp) (flat 0 sample_value).
Proof. apply (binary_roundtrip debug_allocator bb_new sample_value 0 []); [reflexivity|apply bb_new_rep|vm_compute; discriminate|vm_compute; reflexivity]. Defined.
Lemma parse_binary_terminates_witness : parse_binary [0x5F; 0xFF; 0xFF; 0xFF; 0xFF; 1] <> NoFuel.
Proof. apply parse_binary_terminates. decide_now. Defined.
Lemma json_create_int_types_witness :
  d_type (default (mk_token None 0 0 0) (last (result (json_create_int json_create (2 ^ 29))))) = 7.
Proof. apply (json_create_int_types json_create (2 ^ 29)); [lia|reflexivity]. Defined.
