(* ===== verification/Json.v ===== *)
(** * core/util/data.c: the JSON parser

    [parse_json] walks over a NUL terminated text and fills an array of tokens.  The model keeps
    the text (the parser overwrites single quotes in it), the position, the tokens and the depth;
    reading behind the terminator is undefined behaviour.  The file holds the parser, a printer
    for JSON values as its specification, the round trip of the two, and termination on every
    input. *)
From S2P Require Import Prelude Utils Bytes Data.
From stdpp Require Import strings.
#[local] Open Scope Z_scope.

Definition JSON_INIT_TOKENS : Z := 10.
Definition DATA_DEPTH_MAX : Z := 11.
Definition JSON_E_END_OF_STRING : Z := -1.
Definition JSON_E_INVALID_CHAR : Z := -2.
Definition JSON_E_MAX_DEPTH : Z := -3.
Definition JSON_E_NUMBER_TOO_LONG : Z := -4.
Definition TOKEN_STATE_CONVERTED : Z := 2.

(** The bytes of a string literal. *)
Definition str (s : string) : list Z := map (fun c => Z.of_nat (Ascii.nat_of_ascii c)) (String.list_ascii_of_string s).

(** ** Keys of properties *)

(** A [char] of the platform is signed. *)
Definition schar (c : Z) : Z := if c <? 128 then c else c - 256.
Fixpoint keyn_loop (c : list Z) (val : Z) : Z :=
  match c with
  | [] => val
  | x :: t => if x =? 0 then val else keyn_loop t (u16 (Z.lxor val (Z.lor (schar x) (Z.shiftl val 7))))
  end.
Definition keyn (c : list Z) (len : nat) : Z := keyn_loop (take len c) 0.
Definition key (c : string) : Z := keyn (str c) (String.length c).

(** ** The parser *)

(** Where the data of a token lies: nowhere, in the text, or in a block of its own. *)
Inductive tok_data := DNull | DText (off : nat) | DOwn (l : list Z).
Record ptoken := mk_ptoken { p_data : tok_data; p_len : Z; p_key : Z; p_state : Z }.
Record parser := mk_parser { text : list Z; pos : nat; toks : list ptoken; p_allocated : Z; depth : Z }.
Definition set_pos (c : nat) (s : parser) : parser := mk_parser (text s) c (toks s) (p_allocated s) (depth s).
Definition set_text (t : list Z) (s : parser) : parser := mk_parser t (pos s) (toks s) (p_allocated s) (depth s).
Definition set_toks (ts : list ptoken) (s : parser) : parser := mk_parser (text s) (pos s) ts (p_allocated s) (depth s).
Definition add_depth (d : Z) (s : parser) : parser := mk_parser (text s) (pos s) (toks s) (p_allocated s) (depth s + d).

(** The character at an index of the text; the terminator lies behind the last one. *)
Definition char_at (i : nat) : M parser Z := fun s => defined ((text s ++ [0]) !! i) s.
(** [*(jp->c++)] *)
Definition getc : M parser Z := i ← gets pos; c ← char_at i; modify (set_pos (S i)) ;; mret c.

Definition is_ws (c : Z) : bool := (c =? 32) || (c =? 10) || (c =? 13) || (c =? 9).
Fixpoint skip_ws (fuel : nat) : M parser Z :=
  match fuel with
  | O => fun _ => NoFuel
  | S f => c ← getc; if is_ws c then skip_ws f else mret c
  end.
(** One round per character of the text and its terminator. *)
Definition next_char : M parser Z := fun s => skip_ws (S (length (text s))) s.

Definition inc_item (t : ptoken) : ptoken := mk_ptoken (p_data t) (u32 (p_len t + 1)) (p_key t) (p_state t).
(** [if (parent >= 0) jp->result[parent].len++] *)
Definition bump (parent : option nat) (ts : list ptoken) : list ptoken := match parent with Some p => alter inc_item p ts | None => ts end.
Definition parsed_next_item (type key : Z) (parent : option nat) : M parser nat := fun s =>
  let allocated := if p_allocated s <? zlen (toks s) + 1 then p_allocated s * 2 else p_allocated s in
  let ts := toks s ++ [mk_ptoken DNull (type * 2 ^ 28) (u16 key) 0] in
  Ok (length (toks s)) (mk_parser (text s) (pos s) (bump parent ts) allocated (depth s)).
Definition set_item (item : nat) (f : ptoken -> ptoken) : M parser unit := modify (fun s => set_toks (alter f item (toks s)) s).

(** The loop of [parse_key]: the position of the closing quote. *)
Fixpoint key_loop (fuel : nat) : M parser unit :=
  match fuel with
  | O => fun _ => NoFuel
  | S f =>
      c ← getc;
      if c =? 0 then fail JSON_E_INVALID_CHAR
      else if c =? 34 then mret tt
      else if c =? 92 then modify (fun s => set_pos (S (pos s)) s) ;; key_loop f
      else key_loop f
  end.
Definition parse_key : M parser Z :=
  start ← gets pos;
  fuel ← gets (fun s => S (length (text s)));
  key_loop fuel ;;
  stop ← gets pos;
  r ← gets (fun s => keyn (drop start (text s)) (stop - start - 1));
  c ← next_char;
  if c =? 58 then mret r else fail JSON_E_INVALID_CHAR.

(** *** Numbers *)
Definition ends_number (c : Z) : bool := is_ws c || (c =? 125) || (c =? 93) || (c =? 44) || (c =? 0).
Definition is_e (c : Z) : bool := (c =? 69) || (c =? 101).
(** [while (digit || '-' || (!has_e && (E or e) && (has_e = true))) i++] *)
Fixpoint float_end (fuel c i : nat) (has_e : bool) : M parser nat :=
  match fuel with
  | O => fun _ => NoFuel
  | S f =>
      x ← char_at (c + i);
      if is_digit x || (x =? 45) then float_end f c (S i) has_e
      else if negb has_e && is_e x then float_end f c (S i) true
      else mret i
  end.
Definition set_number (value : Z) (t : ptoken) : ptoken :=
  if Z.land value 0xfffffffff0000000 =? 0 then mk_ptoken (p_data t) (Z.lor (p_len t) value) (p_key t) (p_state t)
  else let p := optimize_len (be_bytes 8 value) in
       mk_ptoken (DOwn p) (zlen p) (p_key t) (Z.lor TOKEN_STATE_CONVERTED TOKEN_STATE_ALLOCATED).
Definition set_float (chars : list Z) (t : ptoken) : ptoken :=
  mk_ptoken (DOwn (chars ++ [0])) (Z.lor (T_STRING * 2 ^ 28) (zlen chars)) (p_key t) (Z.lor TOKEN_STATE_CONVERTED TOKEN_STATE_ALLOCATED).
(** The loop over the characters: [n] is what is left of the 21 rounds. *)
Fixpoint number_loop (n c i : nat) (value : Z) (item : nat) : M parser unit :=
  match n with
  | O => fail JSON_E_NUMBER_TOO_LONG
  | S n' =>
      x ← char_at (c + i);
      if is_digit x then number_loop n' c (S i) (u64 (value * 10 + (x - 48))) item
      else if (x =? 46) || (x =? 45) || (x =? 43) || is_e x then
        fuel ← gets (fun s => S (length (text s)));
        i ← float_end fuel c (S i) (is_e x);
        y ← char_at (c + i);
        modify (set_pos (c + i)) ;;
        if ends_number y
        then chars ← gets (fun s => take i (drop c (text s))); set_item item (set_float chars)
        else fail JSON_E_INVALID_CHAR
      else
        modify (set_pos (c + i)) ;;
        if ends_number x then set_item item (set_number value) else fail JSON_E_INVALID_CHAR
  end.
Definition parse_number (item : nat) : M parser unit :=
  c ← gets (fun s => pos s - 1)%nat; modify (set_pos c) ;; number_loop 21 c 0 0 item.

(** *** Strings *)

(** The copy of an escaped string without the backslashes. *)
Fixpoint unescape (l : nat) (x : list Z) : list Z :=
  match l, x with
  | S n, c :: t => if c =? 92 then match t with y :: t' => y :: unescape n t' | [] => [] end else c :: unescape n t
  | _, _ => []
  end.
Definition set_string (d : tok_data) (len : Z) (copied : bool) (t : ptoken) : ptoken :=
  mk_ptoken d (Z.lor (u32 len) (T_STRING * 2 ^ 28)) (p_key t) (if copied then Z.lor TOKEN_STATE_ALLOCATED TOKEN_STATE_CONVERTED else p_state t).
(** The end of [parse_string]: [start] is the position behind the opening quote, [stop] behind the
    closing one. *)
Definition string_token (start stop escape : nat) (item : nat) : M parser unit := fun s =>
  let l := (stop - start - 1)%nat in
  let src := drop start (text s) in
  if (l =? 6)%nat && (rd src 0 =? 92) && (rd src 1 =? 117) then
    let v := u8 (Z.lor (Z.shiftl (hexchar_to_int (rd src 4)) 4) (hexchar_to_int (rd src 5))) in
    set_item item (fun t => mk_ptoken (DOwn [v]) 1 (p_key t) (Z.lor TOKEN_STATE_CONVERTED TOKEN_STATE_ALLOCATED)) s
  else
    let txt := if rd (text s) (Z.of_nat start - 1) =? 39 then <[(stop - 1)%nat := 34]> (<[(start - 1)%nat := 34]> (text s)) else text s in
    let l' := (l - escape)%nat in
    set_item item
      (if (escape =? 0)%nat then set_string (DText start) (Z.of_nat l') false
       else set_string (DOwn (unescape l' src ++ [0])) (Z.of_nat l') true)
      (set_text txt s).
Fixpoint string_loop (fuel start escape item : nat) : M parser unit :=
  match fuel with
  | O => fun _ => NoFuel
  | S f =>
      c ← getc;
      if c =? 0 then fail JSON_E_END_OF_STRING
      else if (c =? 39) || (c =? 34) then
        open ← char_at (start - 1);
        if open =? c then stop ← gets pos; string_token start stop escape item
        else string_loop f start escape item
      else if c =? 92 then modify (fun s => set_pos (S (pos s)) s) ;; string_loop f start (S escape) item
      else string_loop f start escape item
  end.
Definition parse_string (item : nat) : M parser unit :=
  start ← gets pos; fuel ← gets (fun s => S (length (text s))); string_loop fuel start 0 item.

(** *** Values *)
Section Containers.
Context (parse : option nat -> Z -> M parser unit).
(** The two [while] loops of [parse_object]; every round reads a character. *)
Fixpoint object_loop (fuel p_index : nat) : M parser unit :=
  match fuel with
  | O => fun _ => NoFuel
  | S f =>
      c ← next_char;
      if c =? 34 then
        k ← parse_key;
        parse (Some p_index) k ;;
        d ← next_char;
        if d =? 44 then object_loop f p_index
        else if d =? 125 then modify (add_depth (-1))
        else fail JSON_E_INVALID_CHAR
      else if c =? 125 then modify (add_depth (-1))
      else fail JSON_E_INVALID_CHAR
  end.
Fixpoint array_loop (fuel p_index : nat) : M parser unit :=
  match fuel with
  | O => fun _ => NoFuel
  | S f =>
      n ← gets (fun s => Z.land (default 0 (p_len <$> toks s !! p_index)) 0xFFFFFF);
      parse (Some p_index) n ;;
      d ← next_char;
      if d =? 44 then array_loop f p_index
      else if d =? 93 then modify (add_depth (-1))
      else fail JSON_E_INVALID_CHAR
  end.
End Containers.

(** [strncmp(jp->c, w, len(w)) == 0] *)
Definition looking_at (w : list Z) (s : parser) : bool := bool_decide (take (length w) (drop (pos s) (text s)) = w).
Definition skip (n : nat) : M parser unit := modify (fun s => set_pos (pos s + n) s).
Definition set_src (off : nat) (t : ptoken) : ptoken := mk_ptoken (DText off) (p_len t) (p_key t) (p_state t).
Definition add_len (n : Z) (t : ptoken) : ptoken := mk_ptoken (p_data t) (Z.lor (p_len t) n) (p_key t) (p_state t).

(** One call of [parse_object], its recursive calls given by [parse]. *)
Definition parse_value (parse : option nat -> Z -> M parser unit) (parent : option nat) (key : Z) : M parser unit :=
  dep ← gets depth;
  if DATA_DEPTH_MAX <? dep then fail JSON_E_MAX_DEPTH else
  c ← next_char;
  rounds ← gets (fun s => S (length (text s)));
  if c =? 0 then fail JSON_E_END_OF_STRING
  else if c =? 123 then (* { *)
    modify (add_depth 1) ;;
    item ← parsed_next_item T_OBJECT key parent;
    src ← gets pos;
    set_item item (set_src (src - 1)) ;;
    object_loop parse rounds item
  else if c =? 91 then (* [ *)
    modify (add_depth 1) ;;
    item ← parsed_next_item T_ARRAY key parent;
    src ← gets pos;
    set_item item (set_src (src - 1)) ;;
    d ← next_char;
    if d =? 93 then modify (add_depth (-1))
    else modify (fun s => set_pos (pos s - 1) s) ;; array_loop parse rounds item
  else if (c =? 34) || (c =? 39) then parsed_next_item T_STRING key parent ≫= parse_string
  else if c =? 116 then
    b ← gets (looking_at (str "rue"));
    if (b : bool) then item ← parsed_next_item T_BOOLEAN key parent; set_item item (add_len 1) ;; skip 3
    else fail JSON_E_INVALID_CHAR
  else if c =? 102 then
    b ← gets (looking_at (str "alse"));
    if (b : bool) then parsed_next_item T_BOOLEAN key parent ;; skip 4 else fail JSON_E_INVALID_CHAR
  else if c =? 110 then
    b ← gets (looking_at (str "ull"));
    if (b : bool) then parsed_next_item T_NULL key parent ;; skip 3 else fail JSON_E_INVALID_CHAR
  else if is_digit c || (c =? 43) || (c =? 45) then parsed_next_item T_INTEGER key parent ≫= parse_number
  else fail JSON_E_INVALID_CHAR.
Fixpoint parse_object (fuel : nat) (parent : option nat) (key : Z) : M parser unit :=
  match fuel with
  | O => fun _ => NoFuel
  | S f => parse_value (parse_object f) parent key
  end.

(** The token as it lies in memory: a pointer into the text shows the text from there on. *)
Definition resolve (txt : list Z) (t : ptoken) : d_token_t :=
  mk_token (match p_data t with DNull => None | DText off => Some (drop off txt ++ [0]) | DOwn l => Some l end) (p_len t) (p_key t) (p_state t).
(** Nesting is bounded by DATA_DEPTH_MAX, so is the recursion. *)
Definition parse_fuel : nat := 13.
Definition parse_json (js : list Z) : res unit (option json_ctx_t) :=
  match parse_object parse_fuel None 0 (mk_parser js 0 [] JSON_INIT_TOKENS 0) with
  | Ok _ s => Ok (Some (mk_ctx (map (resolve (text s)) (toks s)) (p_allocated s))) tt
  | Err _ _ => Ok None tt
  | Undef => Undef
  | NoFuel => NoFuel
  end.

(** The message for a text that does not parse: what is wrong and where. *)
Definition json_messages : list (list Z) :=
  [str "premature end of json-string"; str "Unexpected character"; str "Reached max depth for parsing json"; str "Number too long to parse"].
Definition parse_json_error (js : list Z) : res unit (option (list Z)) :=
  match parse_object parse_fuel None 0 (mk_parser js 0 [] JSON_INIT_TOKENS 0) with
  | Err res p =>
      if res <? JSON_E_NUMBER_TOO_LONG then Ok None tt
      else
        let l := Z.of_nat (pos p) - 1 in
        let len := zlen js in
        let s := Z.max (l - 30) 0 in
        Ok (Some (str "Error parsing json : " ++ nth (Z.to_nat (-1 - res)) json_messages [] ++ [10] ++
                  take (Z.to_nat (Z.min (l - s + 30) (len - s))) (drop (Z.to_nat s) (text p)) ++ [10] ++
                  replicate (Z.to_nat (Z.min 30 l)) 45 ++ [94])) tt
  | Ok _ _ => Ok None tt
  | Undef => Undef
  | NoFuel => NoFuel
  end.

(** ** Specification: JSON values, their text and their tokens *)
Inductive json :=
  | JS_str (l : list Z) | JS_num (n : Z) | JS_bool (b : bool) | JS_null
  | JS_arr (vs : list json) | JS_obj (kvs : list (list Z * json)).

Section Induction.
Context (P : json -> Prop).
Context (HS : forall l, P (JS_str l)) (HN : forall n, P (JS_num n)) (HB : forall b, P (JS_bool b)) (H0 : P JS_null).
Context (HA : forall vs, Forall P vs -> P (JS_arr vs)) (HO : forall kvs, Forall (fun kv => P kv.2) kvs -> P (JS_obj kvs)).
Fixpoint json_induction (v : json) : P v :=
  match v with
  | JS_str l => HS l | JS_num n => HN n | JS_bool b => HB b | JS_null => H0
  | JS_arr vs => HA vs ((fix go vs : Forall P vs := match vs with [] => List.Forall_nil _ | v :: t => List.Forall_cons _ _ _ (json_induction v) (go t) end) vs)
  | JS_obj kvs => HO kvs ((fix go kvs : Forall (fun kv => P kv.2) kvs :=
      match kvs with [] => List.Forall_nil _ | kv :: t => List.Forall_cons _ _ _ (json_induction kv.2) (go t) end) kvs)
  end.
End Induction.

Fixpoint escape (l : list Z) : list Z :=
  match l with [] => [] | x :: t => if (x =? 34) || (x =? 92) then 92 :: x :: escape t else x :: escape t end.
Fixpoint digits (fuel : nat) (n : Z) : list Z :=
  match fuel with
  | O => []
  | S f => if n <? 10 then [48 + n] else digits f (n / 10) ++ [48 + n mod 10]
  end.
Fixpoint join (ls : list (list Z)) : list Z :=
  match ls with [] => [] | [l] => l | l :: t => l ++ 44 :: join t end.
Fixpoint print (v : json) : list Z :=
  match v with
  | JS_str l => 34 :: escape l ++ [34]
  | JS_num n => digits 20 n
  | JS_bool b => str (if b then "true" else "false")
  | JS_null => str "null"
  | JS_arr vs => 91 :: join (map print vs) ++ [93]
  | JS_obj kvs => 123 :: join (map (fun kv => 34 :: kv.1 ++ 34 :: 58 :: print kv.2) kvs) ++ [125]
  end.

(** Numbers of more than 28 bits are kept as bytes, names of properties as hashes. *)
Fixpoint to_jval (v : json) : jval :=
  match v with
  | JS_str l => JString l
  | JS_num n => if n <? 2 ^ 28 then JInt n else JBytes (optimize_len (be_bytes 8 n))
  | JS_bool b => JBool b
  | JS_null => JNull
  | JS_arr vs => JArray (map to_jval vs)
  | JS_obj kvs => JObject (map (fun kv => (keyn kv.1 (length kv.1), to_jval kv.2)) kvs)
  end.

Definition plain (x : Z) : bool := (0 <? x) && (x <? 256) && negb (x =? 34) && negb (x =? 92).
(** Strings without NUL, names without quotes and backslashes, 64 bit numbers. *)
Fixpoint json_ok (v : json) : bool :=
  match v with
  | JS_str l => forallb (fun x => (0 <? x) && (x <? 256)) l && (zlen l <? 2 ^ 28)
  | JS_num n => (0 <=? n) && (n <? 2 ^ 64)
  | JS_bool _ | JS_null => true
  | JS_arr vs => forallb json_ok vs && (zlen vs <? 2 ^ 28)
  | JS_obj kvs => forallb (fun kv => forallb plain kv.1 && json_ok kv.2) kvs && (zlen kvs <? 2 ^ 28)
  end.
(** The number of containers around the innermost value. *)
Fixpoint nesting (v : json) : Z :=
  match v with
  | JS_arr vs => 1 + fold_right Z.max 0 (map nesting vs)
  | JS_obj kvs => 1 + fold_right Z.max 0 (map (fun kv => nesting kv.2) kvs)
  | _ => 0
  end.

(** Tokens that say the same, wherever their data lies. *)
Definition same_token (a b : d_token_t) : Prop := t_len a = t_len b /\ t_key a = t_key b /\ payload a = payload b.

(** ** Reading the text *)
Lemma drop_cons {A} (t : list A) p x r : drop p t = x :: r -> t !! p = Some x /\ drop (S p) t = r.
Proof.
  intros E. split.
  - rewrite <- (Nat.add_0_r p), <- lookup_drop, E. done.
  - change (S p) with (1 + p)%nat. rewrite Nat.add_comm, <- drop_drop, E. done.
Qed.
Lemma drop_app_next {A} (t l r : list A) p : drop p t = l ++ r -> drop (p + length l) t = r.
Proof. intros E. rewrite <- drop_drop, E. apply drop_app_length. Qed.
Lemma text_char t p r : drop p t = r -> (p <= length t)%nat -> (t ++ [0]) !! p = Some (hd 0 r).
Proof.
  intros E Hp. destruct r as [|x r]; cbn [hd].
  - assert (p = length t) as ->. { apply (f_equal length) in E. rewrite length_drop in E. cbn in E. lia. } by apply list_lookup_middle.
  - apply drop_cons in E as [E _]. apply lookup_app_Some. by left.
Qed.
Lemma drop_le {A} (t : list A) p x r : drop p t = x :: r -> (p < length t)%nat.
Proof. intros E. apply (f_equal length) in E. rewrite length_drop in E. cbn in E. lia. Qed.


Section Steps.
Context (t : list Z).
Implicit Types (ts : list ptoken) (al d : Z) (p : nat).

Lemma char_at_ok p q ts al d x r : drop p t = x :: r -> char_at p (mk_parser t q ts al d) = Ok x (mk_parser t q ts al d).
Proof. intros E. unfold char_at. cbn [text]. pose proof (drop_le _ _ _ _ E). by rewrite (text_char t p _ E) by lia. Qed.
Lemma getc_ok p ts al d x r : drop p t = x :: r -> getc (mk_parser t p ts al d) = Ok x (mk_parser t (S p) ts al d).
Proof. intros E. unfold getc. erewrite bind_ok by done. cbn [pos]. erewrite bind_ok by (eapply char_at_ok; done). done. Qed.
Lemma next_char_ok p ts al d x r : drop p t = x :: r -> is_ws x = false -> next_char (mk_parser t p ts al d) = Ok x (mk_parser t (S p) ts al d).
Proof. intros E Hw. unfold next_char. cbn [text skip_ws]. erewrite bind_ok by (eapply getc_ok; done). by rewrite Hw. Qed.

(** Keys. *)
Lemma key_loop_ok : forall name f p ts al d r, forallb plain name = true -> (length name < f)%nat -> drop p t = name ++ 34 :: r ->
  key_loop f (mk_parser t p ts al d) = Ok tt (mk_parser t (p + length name + 1) ts al d).
Proof.
  induction name as [|x name IH]; intros f p ts al d r Hp Hf E; (destruct f as [|f]; [cbn in Hf; lia|]); cbn [key_loop].
  - cbn [app] in E. erewrite bind_ok by (eapply getc_ok; done). cbn. do 2 f_equal. lia.
  - cbn [forallb] in Hp. apply andb_prop in Hp as [Hx Hp]. unfold plain in Hx. cbn [app] in E. erewrite bind_ok by (eapply getc_ok; done).
    destruct (Z.eqb_spec x 0); [lia|]. destruct (Z.eqb_spec x 34); [lia|]. destruct (Z.eqb_spec x 92); [lia|].
    apply drop_cons in E as [_ E]. cbn [length] in Hf |- *. rewrite (IH f (S p) ts al d r) by (done || lia). do 2 f_equal. lia.
Qed.
Lemma parse_key_ok name p ts al d r : forallb plain name = true -> drop p t = name ++ 34 :: 58 :: r ->
  parse_key (mk_parser t p ts al d) = Ok (keyn name (length name)) (mk_parser t (p + length name + 2) ts al d).
Proof.
  intros Hn E. unfold parse_key. erewrite bind_ok by done. erewrite bind_ok by done. cbn [pos text].
  assert (length name < S (length t))%nat. { pose proof (f_equal length E) as L. rewrite length_drop, length_app in L. lia. }
  erewrite bind_ok by (eapply key_loop_ok; done). erewrite bind_ok by done. erewrite bind_ok by done. cbn [pos text].
  erewrite bind_ok by (eapply next_char_ok; [replace (p + length name + 1)%nat with (p + length (name ++ [34%Z]))%nat by (rewrite length_app; cbn; lia);
    apply drop_app_next; rewrite <- app_assoc; exact E|done]).
  cbn. unfold mret, M_ret. f_equal; [|f_equal; lia]. rewrite E. unfold keyn. replace (p + length name + 1 - p - 1)%nat with (length name) by lia.
  by rewrite firstn_all, take_app_length.
Qed.

(** Numbers. *)
Definition dec_val (ds : list Z) (v : Z) : Z := fold_left (fun acc x => u64 (acc * 10 + (x - 48))) ds v.
Lemma number_loop_ok : forall ds n c i val item ts al d q r,
  forallb is_digit ds = true -> (length ds < n)%nat -> drop (c + i) t = ds ++ r -> (c + i <= length t)%nat -> ends_number (hd 0 r) = true ->
  number_loop n c i val item (mk_parser t q ts al d) =
    set_item item (set_number (dec_val ds val)) (mk_parser t (c + i + length ds) ts al d).
Proof.
  induction ds as [|x ds IH]; intros n c i val item ts al d q r Hd Hn E Hl Hr; (destruct n as [|n]; [cbn in Hn; lia|]); cbn [number_loop].
  - cbn [app] in E. erewrite bind_ok by (unfold char_at; cbn [text]; rewrite (text_char t (c + i) r E) by done; done).
    assert (is_digit (hd 0 r) = false /\ (hd 0 r =? 46) || (hd 0 r =? 45) || (hd 0 r =? 43) || is_e (hd 0 r) = false) as [-> ->].
    { revert Hr. generalize (hd 0 r). intros x. unfold ends_number, is_ws, is_digit, is_e. split; lia. }
    erewrite bind_ok by done. rewrite Hr. cbn [length dec_val fold_left]. rewrite Nat.add_0_r. done.
  - cbn [forallb] in Hd. apply andb_prop in Hd as [Hx Hd]. cbn [app] in E. erewrite bind_ok by (eapply char_at_ok; done). rewrite Hx.
    pose proof (drop_le _ _ _ _ E) as Hlt. apply drop_cons in E as [_ E]. cbn [length] in *.
    replace (c + i + S (length ds))%nat with (c + S i + length ds)%nat by lia. apply (IH n c (S i) _ item ts al d q r); try done; try lia.
    by replace (c + S i)%nat with (S (c + i)) by lia.
Qed.
End Steps.

(** ** Texts of values *)
Lemma digits_spec : forall f n, 0 <= n < 10 ^ Z.of_nat f -> n < 2 ^ 64 ->
  forallb is_digit (digits f n) = true /\ (length (digits f n) <= f)%nat /\ dec_val (digits f n) 0 = n /\ ((0 < f)%nat -> (0 < length (digits f n))%nat).
Proof.
  induction f as [|f IH]; intros n Hn H64; [cbn in Hn |- *; unfold dec_val; cbn; split_and!; try done; lia|]. cbn [digits].
  destruct (Z.ltb_spec n 10).
  - unfold dec_val. cbn. unfold is_digit. split_and!; try lia. rewrite u64_small by lia. lia.
  - assert (0 <= n / 10 < 10 ^ Z.of_nat f) as Hd. { rewrite Nat2Z.inj_succ, Z.pow_succ_r in Hn by lia. split; [apply Z.div_pos; lia|apply Z.div_lt_upper_bound; lia]. }
    pose proof (Z.div_mod n 10 ltac:(lia)). pose proof (Z.mod_pos_bound n 10 ltac:(lia)).
    destruct (IH (n / 10) Hd) as (D1 & D2 & D3 & _); [lia|]. rewrite forallb_app, length_app. unfold dec_val. rewrite fold_left_app. fold (dec_val (digits f (n / 10)) 0). rewrite D1, D3.
    cbn. unfold is_digit. split_and!; try lia. rewrite u64_small by lia. lia.
Qed.
Lemma number_text n : 0 <= n < 2 ^ 64 ->
  forallb is_digit (digits 20 n) = true /\ (length (digits 20 n) < 21)%nat /\ dec_val (digits 20 n) 0 = n /\ exists x l, digits 20 n = x :: l /\ is_digit x = true.
Proof.
  intros Hn. destruct (digits_spec 20 n) as (H1 & H2 & H3 & H4); [change (10 ^ Z.of_nat 20) with (10 ^ 20); lia|lia|].
  split_and!; [done|lia|done|]. destruct (digits 20 n) as [|x l]; [cbn in H4; lia|]. exists x, l. split; [done|]. cbn [forallb] in H1. by apply andb_prop in H1 as [H1 _].
Qed.

Lemma land_high v : 0 <= v < 2 ^ 64 -> (Z.land v 0xfffffffff0000000 =? 0) = (v <? 2 ^ 28).
Proof.
  intros Hv. change 0xfffffffff0000000 with (Z.ones 36 * 2 ^ 28).
  assert (forall i, 0 <= i -> Z.testbit (Z.ones 36 * 2 ^ 28) i = (28 <=? i) && (i <? 64)) as Hm.
  { intros i Hi. destruct (Z.leb_spec 28 i).
    - rewrite Z.mul_pow2_bits by lia. rewrite Z.testbit_ones_nonneg by lia. cbn [andb]. destruct (Z.ltb_spec (i - 28) 36), (Z.ltb_spec i 64); lia.
    - by rewrite Z.mul_pow2_bits_low by lia. }
  destruct (Z.ltb_spec v (2 ^ 28)) as [Hs|Hs].
  - apply Z.eqb_eq. apply Z.bits_inj'. intros i Hi. rewrite Z.land_spec, Hm, Z.bits_0 by lia. destruct (Z.leb_spec 28 i); [|by rewrite andb_false_r].
    by rewrite (testbit_small v 28 i) by lia.
  - apply Z.eqb_neq. intros E. assert (28 <= Z.log2 v < 64). { split; [apply Z.log2_le_pow2; lia|apply Z.log2_lt_pow2; lia]. }
    assert (Z.testbit (Z.land v (Z.ones 36 * 2 ^ 28)) (Z.log2 v) = true) as Hb; [|by rewrite E, Z.bits_0 in Hb].
    rewrite Z.land_spec, Hm, Z.bit_log2 by lia. lia.
Qed.

Definition special (x : Z) : bool := (x =? 34) || (x =? 92).
Definition specials (l : list Z) : nat := length (List.filter special l).
Lemma escape_length l : length (escape l) = (length l + specials l)%nat.
Proof. induction l as [|x l IH]; [done|]. unfold specials in *. cbn [escape length List.filter]. fold (special x). destruct (special x); cbn [length]; lia. Qed.
Lemma escape_plain l : specials l = O -> escape l = l.
Proof.
  induction l as [|x l IH]; [done|]. unfold specials. cbn [List.filter escape]. fold (special x). destruct (special x); [done|]. intros H. by rewrite IH.
Qed.
Lemma unescape_escape l r : unescape (length l) (escape l ++ r) = l.
Proof.
  induction l as [|x l IH]; [done|]. cbn [length escape]. fold (special x). destruct (special x) eqn:E.
  - cbn. by rewrite IH.
  - cbn [app unescape]. unfold special in E. destruct (Z.eqb_spec x 92); [lia|]. by rewrite IH.
Qed.

Section Strings.
Context (t : list Z).
(** The loop runs over an escaped text to its closing quote. *)
Lemma string_loop_ok : forall l f start p n item ts al d r,
  forallb (fun x => (0 <? x) && (x <? 256)) l = true -> (length (escape l) < f)%nat -> drop p t = escape l ++ 34 :: r ->
  (start - 1 < length t)%nat -> t !! (start - 1)%nat = Some 34 ->
  string_loop f start n item (mk_parser t p ts al d) =
    string_token start (p + length (escape l) + 1) (n + specials l) item (mk_parser t (p + length (escape l) + 1) ts al d).
Proof.
  induction l as [|x l IH]; intros f start p n item ts al d r Hl Hf E Hs Ho; (destruct f as [|f]; [cbn in Hf; lia|]).
  - cbn [escape app] in E. cbn [string_loop]. erewrite bind_ok by (eapply getc_ok; done). cbn [Z.eqb Pos.eqb orb].
    erewrite bind_ok by (unfold char_at; cbn [text]; rewrite lookup_app_l by done; rewrite Ho; done). cbn [Z.eqb Pos.eqb].
    erewrite bind_ok by done. cbn [pos]. unfold specials. cbn [escape length List.filter]. rewrite !Nat.add_0_r. by rewrite Nat.add_1_r.
  - cbn [forallb] in Hl. apply andb_prop in Hl as [Hx Hl]. cbn [string_loop escape] in *. fold (special x) in *. unfold specials. cbn [List.filter].
    destruct (special x) eqn:Ex; unfold special in Ex; cbn [app length] in *.
    + erewrite bind_ok by (eapply getc_ok; done). cbn [Z.eqb Pos.eqb orb]. erewrite bind_ok by done. cbn [pos set_pos text toks p_allocated depth].
      apply drop_cons in E as [_ E]. apply drop_cons in E as [_ E]. unfold set_pos. cbn [pos text toks p_allocated depth]. rewrite (IH f start _ (S n) item ts al d r) by (done || lia). fold (specials l).
      replace (S (S p) + length (escape l) + 1)%nat with (p + S (S (length (escape l))) + 1)%nat by lia. by replace (S n + specials l)%nat with (n + S (specials l))%nat by lia.
    + erewrite bind_ok by (eapply getc_ok; done). apply drop_cons in E as [_ E]. destruct (Z.eqb_spec x 0); [lia|]. destruct (Z.eqb_spec x 34); [lia|]. destruct (Z.eqb_spec x 92); [lia|].
      rewrite orb_false_r. assert ((if x =? 39 then open ← char_at (start - 1); if open =? x then stop ← gets pos; string_token start stop n item else string_loop f start n item
        else string_loop f start n item) (mk_parser t (S p) ts al d) = string_loop f start n item (mk_parser t (S p) ts al d)) as ->.
      { destruct (Z.eqb_spec x 39) as [->|]; [|done]. erewrite bind_ok by (unfold char_at; cbn [text]; rewrite lookup_app_l by done; rewrite Ho; done). done. }
      rewrite (IH f start _ n item ts al d r) by (done || lia). fold (specials l). by replace (S p + length (escape l) + 1)%nat with (p + S (length (escape l)) + 1)%nat by lia.
Qed.
End Strings.

(** ** Tokens of values *)
Definition new_toks (t : list Z) : list ptoken -> list d_token_t -> Prop := Forall2 (fun a b => same_token (resolve t a) b).
Definition parent_in (parent : option nat) (ts : list ptoken) : Prop := match parent with Some p => (p < length ts)%nat | None => True end.

Lemma same_token_intro t a ty len data k : 0 <= ty < 16 -> 0 <= len < 2 ^ 28 -> p_len a = ty * 2 ^ 28 + len -> p_key a = k ->
  (ty = T_BYTES \/ ty = T_STRING -> take (Z.to_nat len) (default [] (t_data (resolve t a))) = take (Z.to_nat len) (default [] data)) ->
  same_token (resolve t a) (token ty len data k).
Proof.
  intros Hty Hlen El Ek Hd. unfold same_token. split; [exact El|]. split; [exact Ek|]. unfold payload.
  assert (d_type (resolve t a) = ty /\ d_len (resolve t a) = len) as [-> ->].
  { destruct (token_type ty len data k Hty Hlen) as [E1 E2]. unfold d_type, d_len, resolve, token in *. cbn [t_len] in *. by rewrite El. }
  destruct (token_type ty len data k Hty Hlen) as [-> ->]. unfold token. cbn [t_data].
  destruct (Z.eqb_spec ty T_BYTES); [cbn [orb]; auto|]. destruct (Z.eqb_spec ty T_STRING); [cbn [orb]; auto|done].
Qed.

Lemma alter_middle {A} (f : A -> A) l x r : alter f (length l) (l ++ x :: r) = l ++ f x :: r.
Proof. induction l as [|y l IH]; [done|]. cbn. f_equal. exact IH. Qed.
Lemma bump_snoc parent ts x : parent_in parent ts -> bump parent (ts ++ [x]) = bump parent ts ++ [x].
Proof.
  destruct parent as [p|]; [|done]. cbn. revert p. induction ts as [|y ts IH]; intros p Hp; [cbn in Hp; lia|]. destruct p as [|p]; [done|].
  cbn. f_equal. apply IH. cbn in Hp. lia.
Qed.
Lemma bump_length parent ts : length (bump parent ts) = length ts.
Proof. destruct parent; [apply length_alter|done]. Qed.

Section Items.
Context (t : list Z).
Lemma next_item_ok type k parent p ts al d : parent_in parent ts -> exists al',
  parsed_next_item type k parent (mk_parser t p ts al d) =
    Ok (length (bump parent ts)) (mk_parser t p (bump parent ts ++ [mk_ptoken DNull (type * 2 ^ 28) (u16 k) 0]) al' d).
Proof. intros Hp. eexists. unfold parsed_next_item. cbn [toks text pos depth p_allocated]. by rewrite bump_snoc, bump_length by done. Qed.
Lemma set_item_ok f ts x r p al d : set_item (length ts) f (mk_parser t p (ts ++ x :: r) al d) = Ok tt (mk_parser t p (ts ++ f x :: r) al d).
Proof. unfold set_item, modify, set_toks. cbn [toks text pos depth p_allocated]. by rewrite alter_middle. Qed.

(** A string token made from the text between two quotes. *)
Lemma string_token_ok l p ts d0 al k r : forallb (fun x => (0 <? x) && (x <? 256)) l = true -> zlen l < 2 ^ 28 -> drop p t = escape l ++ 34 :: r -> (0 < p)%nat ->
  t !! (p - 1)%nat = Some 34 -> exists new,
  string_token p (p + length (escape l) + 1) (specials l) (length ts) (mk_parser t (p + length (escape l) + 1) (ts ++ [mk_ptoken DNull (T_STRING * 2 ^ 28) k 0]) al d0) =
    Ok tt (mk_parser t (p + length (escape l) + 1) (ts ++ [new]) al d0) /\ same_token (resolve t new) (token T_STRING (zlen l) (Some (l ++ [0])) k).
Proof.
  intros Hl Hz E Hp Ho. unfold string_token. cbn [text]. rewrite E. replace (p + length (escape l) + 1 - p - 1)%nat with (length (escape l)) by lia.
  assert ((length (escape l) =? 6)%nat && (rd (escape l ++ 34 :: r) 0 =? 92) && (rd (escape l ++ 34 :: r) 1 =? 117) = false) as ->.
  { destruct l as [|x l]; [done|]. cbn [escape]. fold (special x). destruct (special x) eqn:Ex; unfold special in Ex; cbn [app].
    - change (rd (92 :: x :: escape l ++ 34 :: r) 1) with x. destruct (Z.eqb_spec x 117); [lia|]. apply andb_false_r.
    - change (rd (x :: escape l ++ 34 :: r) 0) with x. destruct (Z.eqb_spec x 92); [lia|]. by rewrite andb_false_r. }
  assert (rd t (Z.of_nat p - 1) = 34) as Hq. { replace (Z.of_nat p - 1) with (Z.of_nat (p - 1)) by lia. rewrite rd_nat. by apply nth_lookup_Some. }
  rewrite Hq. cbn [Z.eqb Pos.eqb]. replace (length (escape l) - specials l)%nat with (length l) by (rewrite escape_length; lia).
  assert (Z.lor (u32 (zlen l)) (T_STRING * 2 ^ 28) = T_STRING * 2 ^ 28 + zlen l) as Hlen. { rewrite u32_small by lia. apply lor_add_mul; lia. }
  unfold set_text. cbn [text pos toks p_allocated depth].
  destruct (Nat.eqb_spec (specials l) 0) as [H0|H0]; rewrite set_item_ok; eexists; (split; [done|]);
    (apply same_token_intro; [done|lia|done|done|]); intros _; rewrite Nat2Z.id; cbn -[take drop unescape].
  - rewrite E, (escape_plain l H0), <- app_assoc, !take_app_length. done.
  - by rewrite unescape_escape, !take_app_length.
Qed.

Lemma parse_string_ok l p ts d al k r : forallb (fun x => (0 <? x) && (x <? 256)) l = true -> zlen l < 2 ^ 28 -> drop p t = 34 :: escape l ++ 34 :: r -> exists new,
  parse_string (length ts) (mk_parser t (S p) (ts ++ [mk_ptoken DNull (T_STRING * 2 ^ 28) k 0]) al d) =
    Ok tt (mk_parser t (p + length (34 :: escape l ++ [34])) (ts ++ [new]) al d) /\ same_token (resolve t new) (token T_STRING (zlen l) (Some (l ++ [0])) k).
Proof.
  intros Hl Hz E. pose proof (drop_le _ _ _ _ E). apply drop_cons in E as [Ho E]. pose proof (f_equal length E) as L. rewrite length_drop, length_app in L. cbn [length] in L.
  unfold parse_string. erewrite bind_ok by done. erewrite bind_ok by done. cbn [pos text].
  replace (S p - 1)%nat with p in * by lia.
  rewrite (string_loop_ok t l (S (length t)) (S p) (S p) 0 (length ts) _ al d r) by (done || lia || (by replace (S p - 1)%nat with p by lia)).
  rewrite Nat.add_0_l. destruct (string_token_ok l (S p) ts d al k r) as (new & -> & Hn); try done; [lia|by replace (S p - 1)%nat with p by lia|].
  exists new. split; [|done]. do 2 f_equal. cbn [length]. rewrite length_app. cbn [length]. lia.
Qed.

(** A number token. *)
Lemma parse_number_ok n p ts d al k r : 0 <= n < 2 ^ 64 -> drop p t = digits 20 n ++ r -> ends_number (hd 0 r) = true -> exists new,
  parse_number (length ts) (mk_parser t (S p) (ts ++ [mk_ptoken DNull (T_INTEGER * 2 ^ 28) k 0]) al d) =
    Ok tt (mk_parser t (p + length (digits 20 n)) (ts ++ [new]) al d) /\ new_toks t [new] (flat k (to_jval (JS_num n))).
Proof.
  intros Hn E Hr. destruct (number_text n Hn) as (D1 & D2 & D3 & x & l & D4 & _).
  assert (p < length t)%nat as Hlt. { rewrite D4 in E. by apply drop_le in E. }
  unfold parse_number. erewrite bind_ok by done. cbn [pos]. replace (S p - 1)%nat with p by lia. erewrite bind_ok by done. unfold set_pos. cbn [text toks p_allocated depth].
  rewrite (number_loop_ok t (digits 20 n) 21 p 0 0 (length ts) _ al d p r); [|done|done|by rewrite Nat.add_0_r|lia|done].
  rewrite D3, Nat.add_0_r, set_item_ok. eexists. split; [done|]. unfold set_number. rewrite (land_high n Hn). cbn [to_jval].
  destruct (Z.ltb_spec n (2 ^ 28)); cbn [flat]; (constructor; [|constructor]); (apply same_token_intro; [done| |cbn [p_len p_key p_state p_data]|done|]).
  - lia.
  - apply lor_mul_add; lia.
  - by intros [|].
  - pose proof (optimize_len_length (be_bytes 8 n)) as Hl. rewrite length_be_bytes in Hl. lia.
  - change T_BYTES with 0. lia.
  - done.
Qed.
End Items.

(** ** The parser reads back what the printer writes *)
Definition ends (r : list Z) : Prop := ends_number (hd 0 r) = true.
Definition parses (f : nat) (v : json) : Prop := forall t p ts al d parent k r,
  drop p t = print v ++ r -> ends r -> d + nesting v <= DATA_DEPTH_MAX -> parent_in parent ts -> exists al' new,
  parse_object f parent k (mk_parser t p ts al d) = Ok tt (mk_parser t (p + length (print v)) (bump parent ts ++ new) al' d) /\
  new_toks t new (flat (u16 k) (to_jval v)).

(** The first steps of [parse_object], up to the dispatch on the character. *)
Lemma dispatch t p ts al d x r : drop p t = x :: r -> is_ws x = false -> d <= DATA_DEPTH_MAX -> forall A (k : Z -> nat -> M parser A),
  (dep ← gets depth; if DATA_DEPTH_MAX <? dep then fail JSON_E_MAX_DEPTH else c ← next_char; rounds ← gets (fun s => S (length (text s))); k c rounds) (mk_parser t p ts al d)
  = k x (S (length t)) (mk_parser t (S p) ts al d).
Proof.
  intros E Hw Hd A k. erewrite bind_ok by done. cbn [depth]. rewrite (proj2 (Z.ltb_ge _ _) Hd). erewrite bind_ok by (eapply next_char_ok; done). by erewrite bind_ok by done.
Qed.
Lemma parses_word f v : match v with JS_bool _ | JS_null => parses (S f) v | _ => True end.
Proof.
  assert (forall w t p x r, drop p t = x :: w ++ r -> forall ts al d, looking_at w (mk_parser t (S p) ts al d) = true) as Hlook.
  { intros w t p x r E ts al d. apply drop_cons in E as [_ E]. unfold looking_at. cbn [pos text]. rewrite E, take_app_length. by apply bool_decide_true. }
  destruct v as [l|n|b| |vs|kvs]; try done; intros t p ts al d parent k r E Hr Hd Hp; cbn [nesting] in Hd.
  - destruct b; destruct (next_item_ok t T_BOOLEAN k parent (S p) ts al d Hp) as (al' & En); cbn [parse_object]; unfold parse_value; change (print (JS_bool true)) with (116 :: str "rue") in *;
      change (print (JS_bool false)) with (102 :: str "alse") in *; cbn [app] in E; rewrite (dispatch _ _ _ _ _ _ _ E) by (done || lia); cbn [Z.eqb Pos.eqb orb];
      erewrite bind_ok by done; rewrite (Hlook _ _ _ _ _ E); erewrite bind_ok by exact En.
    + erewrite bind_ok by apply set_item_ok. eexists al', _. split; [unfold skip, modify, set_pos; cbn [pos text toks p_allocated depth]; do 2 f_equal; cbn; lia|].
      constructor; [|constructor]. by apply same_token_intro; try by intros [|].
    + eexists al', _. split; [unfold skip, modify, set_pos; cbn [pos text toks p_allocated depth]; do 2 f_equal; cbn; lia|].
      constructor; [|constructor]. by apply same_token_intro; try by intros [|].
  - destruct (next_item_ok t T_NULL k parent (S p) ts al d Hp) as (al' & En); cbn [parse_object]; unfold parse_value; change (print JS_null) with (110 :: str "ull") in *. cbn [app] in E.
    rewrite (dispatch _ _ _ _ _ _ _ E) by (done || lia); cbn [Z.eqb Pos.eqb orb].
    erewrite bind_ok by done; rewrite (Hlook _ _ _ _ _ E); erewrite bind_ok by exact En.
    eexists al', _. split; [unfold skip, modify, set_pos; cbn [pos text toks p_allocated depth]; do 2 f_equal; cbn; lia|].
    constructor; [|constructor]. by apply same_token_intro; try by intros [|].
Qed.
Lemma parses_str f l : json_ok (JS_str l) = true -> parses (S f) (JS_str l).
Proof.
  intros Hok t p ts al d parent k r E Hr Hd Hp. cbn [json_ok nesting] in *. apply andb_prop in Hok as [Hl Hz].
  destruct (next_item_ok t T_STRING k parent (S p) ts al d Hp) as (al' & En). cbn [print] in E. rewrite <- app_comm_cons, <- app_assoc in E. cbn [app] in E.
  cbn [parse_object]. unfold parse_value. rewrite (dispatch _ _ _ _ _ _ _ E) by (done || lia). cbn [Z.eqb Pos.eqb orb]. erewrite bind_ok by exact En.
  destruct (parse_string_ok t l p (bump parent ts) d al' (u16 k) r) as (new & -> & Hn); [done|lia|done|].
  exists al', [new]. split; [done|]. by constructor.
Qed.
Lemma parses_num f n : json_ok (JS_num n) = true -> parses (S f) (JS_num n).
Proof.
  intros Hok t p ts al d parent k r E Hr Hd Hp. cbn [json_ok nesting] in *.
  destruct (next_item_ok t T_INTEGER k parent (S p) ts al d Hp) as (al' & En). cbn [print] in E. destruct (number_text n ltac:(lia)) as (_ & _ & _ & x & l & D & Hx).
  pose proof E as E'. rewrite D, <- app_comm_cons in E'. assert (48 <= x <= 57) as Hxr by (unfold is_digit in Hx; lia).
  cbn [parse_object]. unfold parse_value. rewrite (dispatch _ _ _ _ _ _ _ E') by (unfold is_ws; lia).
  rewrite Hx. cbn [orb]. repeat (match goal with |- context [if x =? ?y then _ else _] => destruct (Z.eqb_spec x y); [lia|] | |- context [(x =? ?y) || _] => destruct (Z.eqb_spec x y); [lia|] end; cbn [orb]).
  erewrite bind_ok by exact En.
  destruct (parse_number_ok t n p (bump parent ts) d al' (u16 k) r) as (new & -> & Hn); [lia|done|done|]. by exists al', [new].
Qed.

Lemma keyn_loop_range c : forall v, 0 <= v < 2 ^ 16 -> 0 <= keyn_loop c v < 2 ^ 16.
Proof. induction c as [|x c IH]; intros v Hv; cbn [keyn_loop]; [done|]. case_match; [done|]. apply IH. apply Z.mod_pos_bound. lia. Qed.
Lemma keyn_u16 c n : u16 (keyn c n) = keyn c n.
Proof. apply Z.mod_small. by apply keyn_loop_range. Qed.

Lemma print_head v : json_ok v = true -> exists x l, print v = x :: l /\ is_ws x = false /\ x <> 93.
Proof.
  intros Hok. destruct v as [l|n|b| |vs|kvs]; cbn [print]; try by eexists _, _.
  - cbn [json_ok] in Hok. destruct (number_text n ltac:(lia)) as (_ & _ & _ & x & l & -> & Hx). exists x, l. unfold is_digit, is_ws in *. split; [done|]. lia.
  - destruct b; by eexists _, _.
Qed.
(** The container token after [n] more children. *)
Definition grown (it : ptoken) (n : Z) : ptoken := mk_ptoken (p_data it) (p_len it + n) (p_key it) (p_state it).
Lemma bump_middle ts it dn n : p_len it + 1 < 2 ^ 32 -> 0 <= p_len it -> bump (Some (length ts)) (ts ++ it :: dn) ++ n = ts ++ grown it 1 :: dn ++ n.
Proof. intros Hl H0. cbn [bump]. rewrite alter_middle, <- app_assoc. cbn [app]. unfold inc_item, grown. by rewrite u32_small by lia. Qed.
Lemma parent_middle ts (it : ptoken) dn : parent_in (Some (length ts)) (ts ++ it :: dn).
Proof. cbn. rewrite length_app. cbn. lia. Qed.
Lemma element_key i : 0 <= i < 2 ^ 28 -> u16 (Z.land (T_ARRAY * 2 ^ 28 + i) 0xFFFFFF) = u16 i.
Proof.
  intros Hi. change 0xFFFFFF with (Z.ones 24). rewrite Z.land_ones by lia. unfold u16. rewrite Z.mod_mod_divide by (by exists (2 ^ 8)).
  change (T_ARRAY * 2 ^ 28) with (2 ^ 13 * 2 ^ 16). rewrite Z.add_comm. apply Z_mod_plus_full.
Qed.
Lemma grown_grown it n m : grown (grown it n) m = grown it (n + m).
Proof. unfold grown. cbn. by rewrite Z.add_assoc. Qed.

Section Loops.
Context (f : nat) (t : list Z).
Lemma array_loop_ok : forall vs p i it ts dn al d n r,
  vs <> [] -> Forall (fun v => json_ok v = true) vs -> Forall (parses f) vs -> Forall (fun v => d + nesting v <= DATA_DEPTH_MAX) vs ->
  p_len it = T_ARRAY * 2 ^ 28 + i -> 0 <= i -> i + zlen vs < 2 ^ 28 -> (length vs <= n)%nat ->
  drop p t = join (map print vs) ++ 93 :: r -> exists al' new,
  array_loop (parse_object f) n (length ts) (mk_parser t p (ts ++ it :: dn) al d) =
    Ok tt (mk_parser t (p + length (join (map print vs)) + 1) (ts ++ grown it (zlen vs) :: dn ++ new) al' (d - 1)) /\
  new_toks t new (flats (indexed i (map to_jval vs))).
Proof.
  induction vs as [|v vs IH]; intros p i it ts dn al d n r Hne Hok Hps Hnest Hit Hi Hlen Hn E; [done|]. destruct n as [|n]; [cbn in Hn; lia|].
  inversion Hok as [|? ? Hv Hok']; subst. inversion Hps as [|? ? Hpv Hps']; subst. inversion Hnest as [|? ? Hnv Hnest']; subst. clear Hok Hps Hnest.
  cbn [length] in Hlen, Hn. cbn [array_loop]. erewrite bind_ok by done. cbn [toks]. rewrite list_lookup_middle by done. cbn [fmap option_fmap option_map default from_option]. rewrite Hit.
  set (rest := match vs with [] => 93 :: r | _ => 44 :: join (map print vs) ++ 93 :: r end).
  assert (drop p t = print v ++ rest) as E'. { rewrite E. subst rest. destruct vs; cbn [map join]; [done|]. by rewrite <- app_assoc. }
  destruct (Hpv t p (ts ++ it :: dn) al d (Some (length ts)) (Z.land (T_ARRAY * 2 ^ 28 + i) 0xFFFFFF) rest E') as (al1 & new1 & Hrun & Hnew1); [by subst rest; destruct vs|done|apply parent_middle|].
  erewrite bind_ok by exact Hrun. rewrite bump_middle by (rewrite Hit; unfold T_ARRAY; lia). rewrite element_key in Hnew1 by lia.
  apply drop_app_next in E'. cbn [map]. change (indexed i (to_jval v :: map to_jval vs)) with ((u16 i, to_jval v) :: indexed (i + 1) (map to_jval vs)). rewrite flats_cons.
  destruct vs as [|v2 vs]; subst rest.
  - erewrite bind_ok by (eapply next_char_ok; [exact E'|done]). cbn [Z.eqb Pos.eqb]. exists al1, new1. cbn [map indexed join]. rewrite app_nil_r. split; [|done].
    unfold modify, add_depth. cbn [text pos toks p_allocated depth]. do 2 f_equal. lia.
  - erewrite bind_ok by (eapply next_char_ok; [exact E'|done]). cbn [Z.eqb Pos.eqb]. apply drop_cons in E' as [_ E'].
    edestruct (IH (S (p + length (print v))) (i + 1) (grown it 1) ts (dn ++ new1) al1 d n r) as (al2 & new2 & -> & Hnew2); try done.
    + unfold grown. cbn [p_len]. lia.
    + lia.
    + lia.
    + lia.
    + exists al2, (new1 ++ new2). split; [|by apply Forall2_app]. rewrite grown_grown, <- app_assoc. cbn [length] in *. 
      do 2 f_equal; [cbn [map join length]; rewrite length_app; cbn [length]; lia|]. do 3 f_equal. lia.
Qed.

Definition member (kv : list Z * json) : list Z := 34 :: kv.1 ++ 34 :: 58 :: print kv.2.
Lemma object_loop_ok : forall kvs p i it ts dn al d n r,
  Forall (fun kv => forallb plain kv.1 && json_ok kv.2 = true) kvs -> Forall (fun kv => parses f kv.2) kvs -> Forall (fun kv => d + nesting kv.2 <= DATA_DEPTH_MAX) kvs ->
  p_len it = T_OBJECT * 2 ^ 28 + i -> 0 <= i -> i + zlen kvs < 2 ^ 28 -> (length kvs < n)%nat ->
  drop p t = join (map member kvs) ++ 125 :: r -> exists al' new,
  object_loop (parse_object f) n (length ts) (mk_parser t p (ts ++ it :: dn) al d) =
    Ok tt (mk_parser t (p + length (join (map member kvs)) + 1) (ts ++ grown it (zlen kvs) :: dn ++ new) al' (d - 1)) /\
  new_toks t new (flats (map (fun kv => (keyn kv.1 (length kv.1), to_jval kv.2)) kvs)).
Proof.
  induction kvs as [|[name v] kvs IH]; intros p i it ts dn al d n r Hok Hps Hnest Hit Hi Hlen Hn E; (destruct n as [|n]; [cbn in Hn; lia|]); cbn [object_loop].
  - cbn [map join app] in E. erewrite bind_ok by (eapply next_char_ok; [exact E|done]). cbn [Z.eqb Pos.eqb]. exists al, []. rewrite app_nil_r. split; [|constructor].
    unfold modify, add_depth. cbn [text pos toks p_allocated depth length map join]. f_equal. f_equal; [lia|]. do 2 f_equal. destruct it. unfold grown. cbn. f_equal. lia.
  - inversion Hok as [|? ? Hv Hok']; subst. inversion Hps as [|? ? Hpv Hps']; subst. inversion Hnest as [|? ? Hnv Hnest']; subst. clear Hok Hps Hnest. cbn [fst snd] in *. apply andb_prop in Hv as [Hnm Hv].
    cbn [length] in Hlen, Hn.
    set (rest := match kvs with [] => 125 :: r | _ => 44 :: join (map member kvs) ++ 125 :: r end).
    assert (drop p t = 34 :: name ++ 34 :: 58 :: print v ++ rest) as E'. { rewrite E. subst rest. destruct kvs; cbn [map join]; change (member (name, v)) with (34 :: name ++ 34 :: 58 :: print v); repeat (rewrite <- app_assoc || cbn [app]); done. }
    erewrite bind_ok by (eapply next_char_ok; [exact E'|done]). cbn [Z.eqb Pos.eqb]. apply drop_cons in E' as [_ E'].
    erewrite bind_ok by (eapply parse_key_ok; [exact Hnm|exact E']).
    assert (drop (S p + length name + 2) t = print v ++ rest) as E2.
    { replace (S p + length name + 2)%nat with (S p + length (name ++ [34%Z; 58%Z]))%nat by (rewrite length_app; cbn; lia). apply drop_app_next. rewrite <- app_assoc. exact E'. }
    destruct (Hpv t (S p + length name + 2)%nat (ts ++ it :: dn) al d (Some (length ts)) (keyn name (length name)) rest E2) as (al1 & new1 & Hrun & Hnew1); [by subst rest; destruct kvs|done|apply parent_middle|].
    erewrite bind_ok by exact Hrun. rewrite bump_middle by (rewrite Hit; unfold T_OBJECT; lia). rewrite keyn_u16 in Hnew1. apply drop_app_next in E2.
    cbn [map fst snd]. rewrite flats_cons. destruct kvs as [|kv2 kvs]; subst rest.
    + erewrite bind_ok by (eapply next_char_ok; [exact E2|done]). cbn [Z.eqb Pos.eqb]. exists al1, new1. cbn [map]. rewrite app_nil_r. split; [|done].
      unfold modify, add_depth. cbn [text pos toks p_allocated depth]. do 2 f_equal. cbn [join]. unfold member. cbn [length fst snd]. rewrite length_app. cbn [length]. lia.
    + erewrite bind_ok by (eapply next_char_ok; [exact E2|done]). cbn [Z.eqb Pos.eqb]. apply drop_cons in E2 as [_ E2].
      edestruct (IH (S (S p + length name + 2 + length (print v))) (i + 1) (grown it 1) ts (dn ++ new1) al1 d n r) as (al2 & new2 & -> & Hnew2); try done.
      * unfold grown. cbn [p_len]. lia.
      * lia.
      * lia.
      * lia.
      * exists al2, (new1 ++ new2). split; [|by apply Forall2_app]. rewrite grown_grown, <- app_assoc. cbn [length] in *.
        do 2 f_equal; [change (member (name, v)) with (34 :: name ++ 34 :: 58 :: print v); change (join ((34 :: name ++ 34 :: 58 :: print v) :: map member (kv2 :: kvs))) with ((34 :: name ++ 34 :: 58 :: print v) ++ 44 :: join (map member (kv2 :: kvs)));
          rewrite length_app; cbn [length]; rewrite length_app; cbn [length]; lia|]. do 3 f_equal. lia.
Qed.
End Loops.

Lemma nesting_max {A} (g : A -> Z) (l : list A) x n : x ∈ l -> fold_right Z.max 0 (map g l) <= n -> g x <= n.
Proof. induction l as [|y l IH]; [by intros ?%elem_of_nil|]. intros [->|Hx]%elem_of_cons Hn; cbn in Hn; [lia|]. apply IH; [done|lia]. Qed.
Lemma nesting_pos v : 0 <= nesting v.
Proof.
  assert (forall l, 0 <= fold_right Z.max 0 l) as H by (induction l; cbn; lia).
  destruct v as [l|n|b| |vs|kvs]; cbn [nesting]; try lia; match goal with |- context [fold_right Z.max 0 ?x] => pose proof (H x) end; lia.
Qed.
Lemma join_length ls : Forall (fun l => l <> []) ls -> (length ls <= length (join ls))%nat.
Proof.
  induction 1 as [|l ls Hl _ IH]; [done|]. destruct l as [|x l]; [done|]. destruct ls; cbn [join length app] in *; [lia|]. rewrite length_app. cbn [length]. lia.
Qed.

(** The new container token and its place. *)
Lemma container_open t p ts al d parent k ty (loop : nat -> M parser unit) : parent_in parent ts -> exists al',
  (modify (add_depth 1) ;; item ← parsed_next_item ty k parent; src ← gets pos; set_item item (set_src (src - 1)) ;; loop item) (mk_parser t p ts al d) =
  loop (length (bump parent ts)) (mk_parser t p (bump parent ts ++ [mk_ptoken (DText (p - 1)) (ty * 2 ^ 28) (u16 k) 0]) al' (d + 1)).
Proof.
  intros Hp. destruct (next_item_ok t ty k parent p ts al (d + 1) Hp) as (al' & En). exists al'.
  erewrite bind_ok by done. unfold add_depth. cbn [text pos toks p_allocated depth]. erewrite bind_ok by exact En. erewrite bind_ok by done. cbn [pos]. by erewrite bind_ok by apply set_item_ok.
Qed.
Lemma container_token t off ty n k it : 0 <= ty < 16 -> ty <> T_BYTES -> ty <> T_STRING -> 0 <= n < 2 ^ 28 ->
  it = mk_ptoken (DText off) (ty * 2 ^ 28) k 0 -> same_token (resolve t (grown it n)) (token ty n None k).
Proof. intros Hty H1 H2 Hn ->. apply same_token_intro; [done|done|done|done|]. by intros [|]. Qed.

Lemma parses_arr f vs : json_ok (JS_arr vs) = true -> Forall (parses f) vs -> parses (S f) (JS_arr vs).
Proof.
  intros Hok IH t p ts al d parent k r E Hr Hd Hp. cbn [json_ok] in Hok. apply andb_prop in Hok as [Hok Hlen]. rewrite forallb_forall in Hok.
  pose proof (nesting_pos (JS_arr vs)) as Hpos. cbn [nesting] in Hd, Hpos. change (print (JS_arr vs)) with (91 :: join (map print vs) ++ [93]) in *.
  cbn [app] in E. rewrite <- app_assoc in E. cbn [app] in E. cbn [parse_object]. unfold parse_value. rewrite (dispatch _ _ _ _ _ _ _ E) by (done || lia). cbn [Z.eqb Pos.eqb orb].
  edestruct (container_open t (S p) ts al d parent k T_ARRAY) as (al1 & ->); [done|]. cbn beta. apply drop_cons in E as [_ E].
  destruct vs as [|v vs].
  - cbn [map join app] in E. erewrite bind_ok by (eapply next_char_ok; [exact E|done]). cbn [Z.eqb Pos.eqb]. eexists al1, [_]. split.
    + unfold modify, add_depth. cbn [text pos toks p_allocated depth]. do 2 f_equal; [cbn; lia|lia].
    + cbn [to_jval map]. rewrite flat_array. constructor; [|constructor]. by apply same_token_intro; try by intros [|].
  - destruct (print_head v) as (x & l & Hx & Hws & Hx93); [apply Hok; by left|].
    assert (exists l', drop (S p) t = x :: l') as [l' Ex]. { rewrite E. cbn [map]. destruct vs; cbn [map join]; rewrite Hx; by eexists. }
    erewrite bind_ok by (eapply next_char_ok; [exact Ex|done]). destruct (Z.eqb_spec x 93); [done|]. erewrite bind_ok by done. unfold set_pos at 1. cbn [text pos toks p_allocated depth].
    replace (S (S p) - 1)%nat with (S p) by lia.
    destruct (array_loop_ok f t (v :: vs) (S p) 0 (mk_ptoken (DText (S p - 1)) (T_ARRAY * 2 ^ 28) (u16 k) 0) (bump parent ts) [] al1 (d + 1) (S (length t)) r) as (al2 & new & -> & Hnew); try done.
    + apply Forall_forall. intros w Hw. apply Hok. by apply list_elem_of_In.
    + apply Forall_forall. intros w Hw. pose proof (nesting_max nesting (v :: vs) w (DATA_DEPTH_MAX - d - 1) Hw). lia.
    + lia.
    + pose proof (f_equal length E) as L. rewrite length_drop, length_app in L. pose proof (join_length (map print (v :: vs))) as J. rewrite length_map in J.
      assert ((length (v :: vs) <= length (join (map print (v :: vs))))%nat); [|lia]. apply J. apply Forall_forall. intros y (w & -> & Hw)%list_elem_of_fmap.
      destruct (print_head w) as (? & ? & -> & _); [|done]. apply Hok. by apply list_elem_of_In.
    + eexists al2, (_ :: new). split.
      * do 2 f_equal; [cbn [length]; rewrite length_app; cbn [length]; lia|lia].
      * cbn [to_jval]. rewrite flat_array. rewrite length_map. constructor; [|done]. eapply container_token; try done. lia.
Qed.
Lemma parses_obj f kvs : json_ok (JS_obj kvs) = true -> Forall (fun kv => parses f kv.2) kvs -> parses (S f) (JS_obj kvs).
Proof.
  intros Hok IH t p ts al d parent k r E Hr Hd Hp. cbn [json_ok] in Hok. apply andb_prop in Hok as [Hok Hlen]. rewrite forallb_forall in Hok.
  pose proof (nesting_pos (JS_obj kvs)) as Hpos. cbn [nesting] in Hd, Hpos. change (print (JS_obj kvs)) with (123 :: join (map member kvs) ++ [125]) in *.
  cbn [app] in E. rewrite <- app_assoc in E. cbn [app] in E. cbn [parse_object]. unfold parse_value. rewrite (dispatch _ _ _ _ _ _ _ E) by (done || lia). cbn [Z.eqb Pos.eqb orb].
  edestruct (container_open t (S p) ts al d parent k T_OBJECT) as (al1 & ->); [done|]. cbn beta. apply drop_cons in E as [_ E].
  destruct (object_loop_ok f t kvs (S p) 0 (mk_ptoken (DText (S p - 1)) (T_OBJECT * 2 ^ 28) (u16 k) 0) (bump parent ts) [] al1 (d + 1) (S (length t)) r) as (al2 & new & -> & Hnew); try done.
  - apply Forall_forall. intros w Hw. apply Hok. by apply list_elem_of_In.
  - apply Forall_forall. intros w Hw. pose proof (nesting_max (fun kv => nesting kv.2) kvs w (DATA_DEPTH_MAX - d - 1) Hw) as Hm. cbn beta in Hm. lia.
  - lia.
  - pose proof (f_equal length E) as L. rewrite length_drop, length_app in L. pose proof (join_length (map member kvs)) as J. rewrite length_map in J.
    assert ((length kvs <= length (join (map member kvs)))%nat); [|lia]. apply J. apply Forall_forall. by intros y (w & -> & Hw)%list_elem_of_fmap.
  - eexists al2, (_ :: new). split.
    + do 2 f_equal; [cbn [length]; rewrite length_app; cbn [length]; lia|lia].
    + cbn [to_jval]. rewrite flat_object. rewrite length_map. constructor; [|done]. eapply container_token; try done. lia.
Qed.

Lemma parses_all v : forall f, json_ok v = true -> nesting v <= Z.of_nat f -> parses (S f) v.
Proof.
  induction v as [l|n|b| |vs IH|kvs IH] using json_induction; intros f Hok Hf.
  - by apply parses_str.
  - by apply parses_num.
  - exact (parses_word f (JS_bool b)).
  - exact (parses_word f JS_null).
  - apply parses_arr; [done|]. cbn [json_ok nesting] in *. apply andb_prop in Hok as [Hok _]. rewrite forallb_forall in Hok. rewrite Forall_forall in IH |- *.
    intros w Hw. destruct f as [|f]; [pose proof (nesting_max nesting vs w (-1) Hw); pose proof (nesting_pos w); lia|].
    apply IH; [done|apply Hok; by apply list_elem_of_In|]. apply (nesting_max nesting vs w _ Hw). lia.
  - apply parses_obj; [done|]. cbn [json_ok nesting] in *. apply andb_prop in Hok as [Hok _]. rewrite forallb_forall in Hok. rewrite Forall_forall in IH |- *.
    intros w Hw. destruct f as [|f]; [pose proof (nesting_max (fun kv => nesting kv.2) kvs w (-1) Hw); pose proof (nesting_pos w.2); lia|].
    apply list_elem_of_In in Hw as Hin. specialize (Hok _ Hin). apply andb_prop in Hok as [_ Hok]. apply IH; [done|done|]. apply (nesting_max (fun kv => nesting kv.2) kvs w _ Hw). lia.
Qed.

Lemma json_text_tokens v r : json_ok v = true -> nesting v <= DATA_DEPTH_MAX -> ends r ->
  exists ctx, parse_json (print v ++ r) = Ok (Some ctx) tt /\ Forall2 same_token (result ctx) (flat 0 (to_jval v)).
Proof.
  intros Hok Hn Hr. destruct (parses_all v 12 Hok ltac:(unfold DATA_DEPTH_MAX in Hn; lia) (print v ++ r) 0%nat [] JSON_INIT_TOKENS 0 None 0 r) as (al & new & E & Hnew); [done|done|lia|done|].
  unfold parse_json, parse_fuel. rewrite E. eexists. split; [done|]. cbn [result text toks bump app]. by apply Forall2_fmap_l.
Qed.

(** C30. Round trip of the JSON parser: for every value with strings free of NUL, property names free
    of quotes and backslashes, 64 bit numbers, less than 2^28 children and at most 11 levels of
    nesting, parsing its text succeeds, whatever follows it behind a separator, and yields the tokens
    of the value: types, lengths, hashed keys and data, escapes removed. *)
Theorem json_roundtrip v r : json_ok v = true -> nesting v <= DATA_DEPTH_MAX -> ends r ->
  exists ctx, parse_json (print v ++ r) = Ok (Some ctx) tt /\ Forall2 same_token (result ctx) (flat 0 (to_jval v)).
Proof. apply json_text_tokens. Qed.

(** ** Every input: the parser terminates, and stays inside the text unless it ends with a backslash *)
Section Total.
Context (G : Prop) (N : nat).
(** [m] ends with a result in [Q] or an error; undefined behaviour only without [G]. *)
Definition runs {A} (m : M parser A) (s : parser) (Q : A -> parser -> Prop) : Prop :=
  match m s with Ok a s' => Q a s' | Err _ _ => True | Undef => ~ G | NoFuel => False end.
Lemma runs_bind {A B} (m : M parser A) (k : A -> M parser B) s Q R : runs m s Q -> (forall a s', Q a s' -> runs (k a) s' R) -> runs (m ≫= k) s R.
Proof. unfold runs, mbind, M_bind. intros H1 H2. destruct (m s); [by apply H2|done..]. Qed.
Lemma runs_mono {A} (m : M parser A) s (Q R : A -> parser -> Prop) : runs m s Q -> (forall a s', Q a s' -> R a s') -> runs m s R.
Proof. unfold runs. intros H1 H2. destruct (m s); [by apply H2|done..]. Qed.
Lemma runs_gets {A B} (f : parser -> A) (k : A -> M parser B) s R : runs (k (f s)) s R -> runs (gets f ≫= k) s R.
Proof. done. Qed.
Lemma runs_modify {B} (f : parser -> parser) (k : unit -> M parser B) s R : runs (k tt) (f s) R -> runs (modify f ≫= k) s R.
Proof. done. Qed.

Record inv (s : parser) : Prop := { inv_len : length (text s) = N; inv_last : G -> text s !! (N - 1)%nat <> Some 92 }.
Definition within (s : parser) : Prop := inv s /\ (G -> (pos s <= N)%nat).
(** Progress: at least one character of the text is read, the depth is as before. *)
Definition past (s s' : parser) : Prop := within s' /\ (pos s < pos s')%nat /\ (pos s < N)%nat /\ depth s' = depth s.

Lemma getc_runs s : within s -> runs getc s (fun c s' =>
  s' = set_pos (S (pos s)) s /\ (pos s <= N)%nat /\ (text s ++ [0]) !! pos s = Some c /\ (c <> 0 -> (pos s < N)%nat)).
Proof.
  intros [[Hl _] Hp]. unfold runs, getc, gets, mbind, M_bind, char_at, modify. destruct ((text s ++ [0]) !! pos s) as [c|] eqn:E; cbn.
  - assert (pos s < length (text s ++ [0%Z]))%nat by (apply lookup_lt_is_Some; by eexists). rewrite length_app in *. cbn in *. split_and!; [done|lia|done|].
    intros Hc. destruct (decide (pos s = N)) as [He|]; [|lia]. rewrite He, <- Hl, list_lookup_middle in E by done. congruence.
  - apply lookup_ge_None in E. rewrite length_app in E. cbn in E. intros HG. specialize (Hp HG). lia.
Qed.
Lemma skip_ws_runs : forall f s, within s -> (N - pos s < f)%nat -> runs (skip_ws f) s (fun c s' =>
  inv s' /\ text s' = text s /\ toks s' = toks s /\ depth s' = depth s /\ (pos s < pos s')%nat /\ (pos s' <= S N)%nat /\ (text s ++ [0]) !! (pos s' - 1)%nat = Some c /\ (c <> 0 -> (pos s' <= N)%nat)).
Proof.
  induction f as [|f IH]; intros s Hs Hf; [lia|]. cbn [skip_ws]. eapply runs_bind; [by apply getc_runs|]. intros c s' (-> & Hp & Hc & Hnz). destruct (is_ws c) eqn:Ew.
  - assert (c <> 0) as Hc0 by (by intros ->). specialize (Hnz Hc0). eapply runs_mono; [apply IH|].
    + destruct Hs as [[? ?] ?]. split; [by split|]. cbn. lia.
    + cbn [pos set_pos]. lia.
    + cbn [pos set_pos text toks depth]. intros c' s' (? & ? & ? & ? & ? & ? & ? & ?). split_and!; auto. lia.
  - unfold runs. cbn. destruct Hs as [[? ?] ?]. split_and!; try done; try lia. by rewrite Nat.sub_0_r.
Qed.
Lemma next_char_runs s : within s -> runs next_char s (fun c s' =>
  inv s' /\ text s' = text s /\ toks s' = toks s /\ depth s' = depth s /\ (pos s < pos s')%nat /\ (pos s' <= S N)%nat /\ (text s ++ [0]) !! (pos s' - 1)%nat = Some c /\ (c <> 0 -> (pos s' <= N)%nat)).
Proof. intros Hs. apply (skip_ws_runs (S (length (text s))) s Hs). rewrite (inv_len _ (proj1 Hs)). lia. Qed.

(** A backslash inside the text hides one more character of it. *)
Lemma hidden_char s c : within s -> (text s ++ [0]) !! pos s = Some c -> (pos s < N)%nat -> c = 92 -> G -> (S (S (pos s)) <= N)%nat.
Proof.
  intros [[Hl Hb] _] Hc Hp -> HG. specialize (Hb HG). rewrite lookup_app_l in Hc by lia. destruct (decide (pos s = N - 1)%nat) as [He|]; [by rewrite <- He in Hb|lia].
Qed.
Lemma key_loop_runs : forall f s, within s -> (N - pos s < f)%nat -> runs (key_loop f) s (fun _ s' => past s s').
Proof.
  induction f as [|f IH]; intros s Hs Hf; [lia|]. cbn [key_loop]. eapply runs_bind; [by apply getc_runs|]. intros c s' (-> & Hp & Hc & Hnz).
  destruct (Z.eqb_spec c 0); [done|]. specialize (Hnz n). pose proof Hs as [[Hl Hb] _].
  destruct (Z.eqb_spec c 34); [unfold runs; cbn; unfold past, within; cbn; split_and!; try done; lia|].
  destruct (Z.eqb_spec c 92) as [E92|].
  - apply runs_modify. eapply runs_mono; [apply IH|].
    + split; [by split|]. cbn. by apply (hidden_char s c).
    + cbn. lia.
    + intros _ s' (? & ? & ? & ?). cbn in *. split_and!; try done; lia.
  - eapply runs_mono; [apply IH|].
    + split; [by split|]. cbn. lia.
    + cbn. lia.
    + intros _ s' (? & ? & ? & ?). cbn in *. split_and!; try done; lia.
Qed.
Lemma parse_key_runs s : within s -> runs parse_key s (fun _ s' => past s s').
Proof.
  intros Hs. unfold parse_key. do 2 apply runs_gets.
  eapply runs_bind; [apply key_loop_runs; [done|rewrite (inv_len _ (proj1 Hs)); lia]|]. intros _ s' (Hw & Hp & HN & Hd).
  do 2 apply runs_gets.
  eapply runs_bind; [by apply next_char_runs|]. intros c s2 (Hi & Ht & _ & Hd2 & Hp2 & _ & _ & Hnz). destruct (Z.eqb_spec c 58); [|done].
  unfold runs. cbn. split_and!; [split; [done|]; intros _; apply Hnz; lia|lia|lia|lia].
Qed.

(** Numbers: every character before the end is none of the text's last ones. *)
Lemma char_at_runs s i : inv s -> (i <= N)%nat -> runs (char_at i) s (fun c s' => s' = s /\ (text s ++ [0]) !! i = Some c /\ (c <> 0 -> (i < N)%nat)).
Proof.
  intros [Hl _] Hi. unfold runs, char_at. destruct ((text s ++ [0]) !! i) as [c|] eqn:E; cbn.
  - split_and!; [done|done|]. intros Hc. destruct (decide (i = N)) as [->|]; [|lia]. rewrite <- Hl, list_lookup_middle in E by done. congruence.
  - apply lookup_ge_None in E. rewrite length_app in E. cbn in E. lia.
Qed.
Lemma float_end_runs : forall f s c i e, inv s -> (c + i <= N)%nat -> (N - (c + i) < f)%nat -> runs (float_end f c i e) s (fun j s' => s' = s /\ (i <= j)%nat /\ (c + j <= N)%nat).
Proof.
  induction f as [|f IH]; intros s c i e Hs Hi Hf; [lia|]. cbn [float_end]. eapply runs_bind; [by apply char_at_runs|]. intros x ? (-> & Hx & Hnz).
  destruct (is_digit x || (x =? 45)) eqn:E1.
  - assert (x <> 0) as H0 by (intros ->; by cbn in E1). specialize (Hnz H0). eapply runs_mono; [apply IH; [done|lia|lia]|]. intros j ? (-> & ? & ?). split_and!; [done|lia|lia].
  - destruct (negb e && is_e x) eqn:E2; [|by split_and!].
    assert (x <> 0) as H0 by (intros ->; unfold is_e in E2; cbn in E2; by rewrite andb_false_r in E2). specialize (Hnz H0).
    eapply runs_mono; [apply IH; [done|lia|lia]|]. intros j ? (-> & ? & ?). split_and!; [done|lia|lia].
Qed.
Lemma set_item_runs item f s Q : (forall ts, Q tt (set_toks ts s)) -> runs (set_item item f) s Q.
Proof. intros H. apply H. Qed.
(** The position moves behind the number. *)
Definition moved (c : nat) (s s' : parser) : Prop := inv s' /\ (c < pos s' <= N)%nat /\ depth s' = depth s.
Lemma number_loop_runs : forall n c i v item s, inv s -> (c + i <= N)%nat ->
  ((0 < i)%nat \/ exists x, (text s ++ [0]) !! c = Some x /\ (is_digit x = true \/ x = 43 \/ x = 45)) ->
  runs (number_loop n c i v item) s (fun _ s' => moved c s s').
Proof.
  induction n as [|n IH]; intros c i v item s Hs Hi Hpos; [done|]. cbn [number_loop]. eapply runs_bind; [by apply char_at_runs|]. intros x ? (-> & Hx & Hnz).
  destruct (is_digit x) eqn:E1.
  - assert (x <> 0) as H0 by (by intros ->). specialize (Hnz H0). apply IH; [done|lia|left; lia].
  - destruct ((x =? 46) || (x =? 45) || (x =? 43) || is_e x) eqn:E2.
    + assert (x <> 0) as H0 by (by intros ->). specialize (Hnz H0). apply runs_gets.
      eapply runs_bind; [apply (float_end_runs (S (length (text s)))); [done|lia|rewrite (inv_len _ Hs); lia]|]. intros j ? (-> & Hj & HjN).
      eapply runs_bind; [by apply char_at_runs|]. intros y ? (-> & _ & _). apply runs_modify. destruct (ends_number y); [|done]. apply runs_gets. apply set_item_runs. intros ts.
      destruct Hs as [? ?]. split_and!; [by split|cbn; lia|cbn; lia|done].
    + apply runs_modify. destruct (ends_number x); [|done]. apply set_item_runs. intros ts. destruct Hs as [? ?]. split_and!; [by split| |cbn; lia|done].
      cbn. destruct Hpos as [|(x' & Hx' & Hd)]; [lia|]. destruct i as [|i]; [|lia]. rewrite Nat.add_0_r in Hx. rewrite Hx in Hx'. simplify_eq. exfalso.
      destruct Hd as [Hd|[->| ->]]; [congruence|by cbn in E2|by cbn in E2].
Qed.

(** Strings. *)
Lemma string_token_runs start stop esc item s : inv s -> (pos s <= N)%nat -> runs (string_token start stop esc item) s (fun _ s' => inv s' /\ pos s' = pos s /\ depth s' = depth s).
Proof.
  intros [Hl Hb] Hp. unfold runs, string_token, set_item, modify. cbv zeta.
  match goal with |- context [if ?b && ?c then _ else _] => destruct (b && c) end; cbn [pos set_toks set_text depth text]; (split_and!; [|done|done]); [by split|].
  split; cbn [pos set_toks set_text depth text]; destruct (rd (text s) (Z.of_nat start - 1) =? 39); rewrite ?length_insert; auto. intros HG. specialize (Hb HG).
  destruct (decide (N - 1 = stop - 1)%nat) as [He|Hne1].
  - rewrite He. intros E. apply list_lookup_insert_Some in E as [[_ [E _]]|[? _]]; [done|done].
  - rewrite list_lookup_insert_ne by done. destruct (decide (N - 1 = start - 1)%nat) as [He|Hne2]; [|by rewrite list_lookup_insert_ne].
    rewrite He. intros E. apply list_lookup_insert_Some in E as [[_ [E _]]|[? _]]; done.
Qed.
Lemma string_loop_runs : forall f start esc item s, within s -> (N - pos s < f)%nat -> (start - 1 <= N)%nat ->
  runs (string_loop f start esc item) s (fun _ s' => past s s').
Proof.
  induction f as [|f IH]; intros start esc item s Hs Hf Hst; [lia|]. cbn [string_loop]. eapply runs_bind; [by apply getc_runs|]. intros c ? (-> & Hp & Hc & Hnz).
  destruct (Z.eqb_spec c 0); [done|]. specialize (Hnz n). pose proof Hs as [[Hl Hb] _].
  assert (inv (set_pos (S (pos s)) s)) as Hi by (by split).
  assert (forall e, runs (string_loop f start e item) (set_pos (S (pos s)) s) (fun _ s' => past s s')) as Hnext.
  { intros e. eapply runs_mono; [apply IH; [split; [done|cbn; lia]|cbn; lia|done]|]. intros _ s' (? & ? & ? & ?). cbn in *. split_and!; try done; lia. }
  destruct ((c =? 39) || (c =? 34)).
  - eapply runs_bind; [by apply char_at_runs|]. intros o ? (-> & _). destruct (o =? c); [|apply Hnext]. apply runs_gets.
    eapply runs_mono; [apply string_token_runs; [done|cbn; lia]|]. intros _ s' (Hi' & Hp' & Hd'). cbn in *. split_and!; [split; [done|lia]|lia|lia|done].
  - destruct (Z.eqb_spec c 92) as [E92|]; [|apply Hnext]. apply runs_modify. eapply runs_mono; [apply IH|].
    + split; [by split|]. cbn. by apply (hidden_char s c).
    + cbn. lia.
    + done.
    + intros _ s' (? & ? & ? & ?). cbn in *. split_and!; try done; lia.
Qed.

(** Containers. *)
Definition same_place (s s' : parser) : Prop := text s' = text s /\ pos s' = pos s /\ depth s' = depth s.
Lemma same_place_inv s s' : same_place s s' -> inv s -> inv s'.
Proof. intros (Ht & _ & _) [? ?]. split; by rewrite Ht. Qed.
Lemma same_place_within s s' : same_place s s' -> within s -> within s'.
Proof. intros Hp [Hi Hw]. split; [by apply (same_place_inv s)|]. by destruct Hp as (_ & -> & _). Qed.
Lemma next_item_runs ty k parent s : runs (parsed_next_item ty k parent) s (fun _ s' => same_place s s').
Proof. done. Qed.
Lemma set_item_place item f s : runs (set_item item f) s (fun _ s' => same_place s s').
Proof. done. Qed.

Section Loops.
Context (parse : option nat -> Z -> M parser unit) (d : Z).
Context (Hparse : forall parent k s, within s -> depth s = d -> runs (parse parent k) s (fun _ s' => past s s')).
Definition left_one (s s' : parser) : Prop := within s' /\ (pos s < pos s')%nat /\ (pos s < N)%nat /\ depth s' = depth s - 1.
Lemma object_loop_runs : forall f idx s, within s -> depth s = d -> (N - pos s < f)%nat -> runs (object_loop parse f idx) s (fun _ s' => left_one s s').
Proof.
  induction f as [|f IH]; intros idx s Hs Hd Hf; [lia|]. cbn [object_loop]. eapply runs_bind; [by apply next_char_runs|]. intros c s1 (Hi1 & _ & _ & Hd1 & Hp1 & _ & _ & Hnz1).
  destruct (Z.eqb_spec c 34) as [->|].
  - specialize (Hnz1 ltac:(done)). eapply runs_bind; [apply parse_key_runs; split; [done|lia]|]. intros k s2 (Hw2 & Hp2 & _ & Hd2).
    eapply runs_bind; [apply Hparse; [done|lia]|]. intros _ s3 (Hw3 & Hp3 & _ & Hd3).
    eapply runs_bind; [by apply next_char_runs|]. intros c' s4 (Hi4 & _ & _ & Hd4 & Hp4 & _ & _ & Hnz4).
    destruct (Z.eqb_spec c' 44) as [->|].
    + specialize (Hnz4 ltac:(done)). eapply runs_mono; [apply IH; [split; [done|lia]|lia|lia]|]. intros _ s5 (? & ? & ? & ?). split_and!; [done|lia|lia|lia].
    + destruct (Z.eqb_spec c' 125) as [->|]; [|done]. specialize (Hnz4 ltac:(done)). unfold runs, modify, left_one. cbn. destruct Hi4. split_and!; [split; [by split|cbn; lia]|lia|lia|lia].
  - destruct (Z.eqb_spec c 125) as [->|]; [|done]. specialize (Hnz1 ltac:(done)). unfold runs, modify, left_one. cbn. destruct Hi1. split_and!; [split; [by split|cbn; lia]|lia|lia|lia].
Qed.
Lemma array_loop_runs : forall f idx s, within s -> depth s = d -> (N - pos s < f)%nat -> runs (array_loop parse f idx) s (fun _ s' => left_one s s').
Proof.
  induction f as [|f IH]; intros idx s Hs Hd Hf; [lia|]. cbn [array_loop]. apply runs_gets.
  eapply runs_bind; [by apply Hparse|]. intros _ s1 (Hw1 & Hp1 & HN1 & Hd1). eapply runs_bind; [by apply next_char_runs|]. intros c s2 (Hi2 & _ & _ & Hd2 & Hp2 & _ & _ & Hnz2).
  destruct (Z.eqb_spec c 44) as [->|].
  - specialize (Hnz2 ltac:(done)). eapply runs_mono; [apply IH; [split; [done|lia]|lia|lia]|]. intros _ s5 (? & ? & ? & ?). split_and!; [done|lia|lia|lia].
  - destruct (Z.eqb_spec c 93) as [->|]; [|done]. specialize (Hnz2 ltac:(done)). unfold runs, modify, left_one. cbn. destruct Hi2. split_and!; [split; [by split|cbn; lia]|lia|lia|lia].
Qed.
End Loops.

Lemma skip_word w s s0 (m : M parser unit) : inv s -> (pos s0 < pos s <= N)%nat -> depth s = depth s0 ->
  runs m s (fun _ s' => text s' = text s /\ depth s' = depth s /\ pos s' = (pos s + length w)%nat) ->
  runs (b ← gets (looking_at w); if (b : bool) then m else fail JSON_E_INVALID_CHAR) s (fun _ s' => past s0 s').
Proof.
  intros Hi Hp Hd Hm. apply runs_gets. destruct (looking_at w s) eqn:E; [|done]. unfold looking_at in E. apply bool_decide_eq_true in E.
  assert (length w <= N - pos s)%nat as Hl. { apply (f_equal length) in E. rewrite length_take, length_drop, (inv_len _ Hi) in E. lia. }
  eapply runs_mono; [exact Hm|]. intros _ s2 (Ht2 & Hd2 & Hp2). destruct Hi. split_and!; [split; [split; by rewrite Ht2|lia]|lia|lia|lia].
Qed.
Lemma parse_object_runs : forall f parent k s, within s -> DATA_DEPTH_MAX < Z.of_nat f + depth s -> runs (parse_object (S f) parent k) s (fun _ s' => past s s').
Proof.
  induction f as [|f IH]; intros parent k s Hs Hf.
  { cbn [parse_object]. unfold parse_value. apply runs_gets. rewrite (proj2 (Z.ltb_lt DATA_DEPTH_MAX (depth s))) by lia. done. }
  change (parse_object (S (S f)) parent k) with (parse_value (parse_object (S f)) parent k). unfold parse_value.
  apply runs_gets. destruct (Z.ltb_spec DATA_DEPTH_MAX (depth s)) as [|Hd]; [done|].
  eapply runs_bind; [by apply next_char_runs|]. intros c s1 (Hi1 & Ht1 & _ & Hd1 & Hp1 & _ & Hc1 & Hnz1). apply runs_gets. destruct (Z.eqb_spec c 0) as [|Hc0]; [done|]. specialize (Hnz1 Hc0).
  assert (within s1) as Hw1 by (split; [done|lia]).
  assert (forall (g : nat -> M parser unit) ty, (forall i s', same_place (add_depth 1 s1) s' -> runs (g i) s' (fun _ s'' => left_one s' s'')) ->
    runs (modify (add_depth 1) ;; item ← parsed_next_item ty k parent; src ← gets pos; set_item item (set_src (src - 1)) ;; g item) s1 (fun _ s' => past s s')) as Hcont.
  { intros g ty Hg. apply runs_modify. eapply runs_bind; [apply next_item_runs|]. intros i s2 H2. apply runs_gets. eapply runs_bind; [apply set_item_place|]. intros [] s3 H3.
    assert (same_place (add_depth 1 s1) s3) as H13. { destruct H2 as (? & ? & ?), H3 as (? & ? & ?). split_and!; congruence. }
    eapply runs_mono; [by apply Hg|]. intros _ s4 (Hw4 & Hp4 & HN4 & Hd4). destruct H13 as (_ & Hp3 & Hd3). cbn in Hp3, Hd3. split_and!; [done|lia|lia|lia]. }
  destruct (Z.eqb_spec c 123).
  { apply Hcont. intros i s' Hs'. pose proof (same_place_within _ _ Hs') as Hw. destruct Hs' as (Ht' & Hp' & Hd'). cbn in Hp', Hd', Ht'.
    apply (object_loop_runs (parse_object (S f)) (depth s')); [|apply Hw; split; [by destruct Hi1|cbn; lia]|done|rewrite (inv_len _ Hi1); lia].
    intros parent' k' s2 Hw2 Hd2. apply IH; [done|lia]. }
  destruct (Z.eqb_spec c 91).
  { apply Hcont. intros i s' Hs'. assert (within s') as Hw by (apply (same_place_within _ _ Hs'); split; [by destruct Hi1|cbn; lia]). destruct Hs' as (Ht' & Hp' & Hd'). cbn in Hp', Hd', Ht'.
    eapply runs_bind; [by apply next_char_runs|]. intros c2 s2 (Hi2 & Ht2 & _ & Hd2 & Hp2 & HN2 & Hc2 & Hnz2). destruct (Z.eqb_spec c2 93) as [->|].
    - specialize (Hnz2 ltac:(done)). unfold runs, modify, left_one. cbn. destruct Hi2. split_and!; [split; [by split|cbn; lia]|lia|lia|lia].
    - apply runs_modify. eapply runs_mono; [apply (array_loop_runs (parse_object (S f)) (depth s')); [|split; [by destruct Hi2|cbn; lia]|cbn; lia|rewrite (inv_len _ Hi1); cbn; lia]|].
      + intros parent' k' s3 Hw3 Hd3. apply IH; [done|lia].
      + intros _ s3 (Hw3 & Hp3 & HN3 & Hd3). cbn in *. split_and!; [done|lia|lia|lia]. }
  destruct ((c =? 34) || (c =? 39)).
  { eapply runs_bind; [apply next_item_runs|]. intros i s2 H2. unfold parse_string. do 2 apply runs_gets. pose proof (same_place_within _ _ H2 Hw1) as Hw2. destruct H2 as (Ht2 & Hp2 & Hd2).
    eapply runs_mono; [apply string_loop_runs; [done|rewrite (inv_len _ (proj1 Hw2)); lia|lia]|]. intros _ s3 (Hw3 & Hp3 & HN3 & Hd3). split_and!; [done|lia|lia|lia]. }
  destruct (Z.eqb_spec c 116); [by apply (skip_word (str "rue")); [|lia| |]|].
  destruct (Z.eqb_spec c 102); [by apply (skip_word (str "alse")); [|lia| |]|].
  destruct (Z.eqb_spec c 110); [by apply (skip_word (str "ull")); [|lia| |]|].
  destruct (is_digit c || (c =? 43) || (c =? 45)) eqn:Ec; [|done].
  eapply runs_bind; [apply next_item_runs|]. intros i s2 H2. unfold parse_number. apply runs_gets. apply runs_modify. pose proof (same_place_within _ _ H2 Hw1) as [[? ?] _]. destruct H2 as (Ht2 & Hp2 & Hd2).
  eapply runs_mono; [apply number_loop_runs; [by split|lia|]|].
  - right. exists c. cbn [text set_pos]. rewrite Ht2, Ht1, Hp2. split; [done|]. destruct (is_digit c); [by left|]. lia.
  - intros _ s3 (Hi3 & Hp3 & Hd3). cbn [depth set_pos] in Hd3. split_and!; [split; [done|lia]|lia|lia|lia].
Qed.
End Total.

Lemma parse_runs js (G : Prop) : (G -> last js <> Some 92) -> runs G (parse_object parse_fuel None 0) (mk_parser js 0 [] JSON_INIT_TOKENS 0) (fun _ _ => True).
Proof.
  intros HG. eapply runs_mono; [|done]. apply (parse_object_runs G (length js) 12); [|done]. split; [split; [done|]|cbn; lia]. cbn. intros g. specialize (HG g). rewrite last_lookup in HG.
  by replace (length js - 1)%nat with (pred (length js)) by lia.
Qed.
Lemma parse_json_ends js : parse_json js <> NoFuel /\ parse_json_error js <> NoFuel.
Proof. pose proof (parse_runs js False ltac:(done)) as Hr. unfold runs, parse_json, parse_json_error in *. destruct (parse_object _ _ _ _) as [| e p| |]; try done. by destruct (e <? _). Qed.

(** C31. The JSON parser returns on every text, and reads nothing behind its terminator if the text
    does not end with a backslash.  (If it does, the backslash may hide the terminator: the text of
    the two characters quote and backslash makes the parser read behind its end.) *)
Theorem parse_json_total js :
  parse_json js <> NoFuel /\ (last js <> Some 92 -> parse_json js <> Undef) /\ parse_json [34; 92] = Undef.
Proof.
  split; [apply parse_json_ends|]. split; [|done]. intros Hl. pose proof (parse_runs js True ltac:(auto)) as Hr. unfold runs, parse_json in *. by destruct (parse_object _ _ _ _).
Qed.

(** A value with every kind of token, used to run the parser. *)
Definition sample_json : json :=
  JS_obj [(str "id", JS_num 7); (str "result", JS_arr [JS_str (34 :: str "0x12\"); JS_bool true; JS_null; JS_num (2 ^ 64 - 1)]); (str "e", JS_obj [])].
Lemma json_roundtrip_witness : exists ctx, parse_json (print sample_json ++ str ", 1") = Ok (Some ctx) tt /\ Forall2 same_token (result ctx) (flat 0 (to_jval sample_json)).
Proof. apply (json_roundtrip sample_json (str ", 1")); [vm_compute; reflexivity|vm_compute; discriminate|vm_compute; reflexivity]. Defined.
Lemma parse_json_total_witness : parse_json (print sample_json) <> Undef.
Proof. apply (proj1 (proj2 (parse_json_total (print sample_json)))). vm_compute. discriminate. Defined.
