(* ===== verification/JsonVal.v ===== *)
(** * core/util/data.c: tokens as values

    The code above the token arrays (requests, verifiers) looks at tokens through [d_get], [d_type]
    and the conversions [d_string], [d_bytes], [d_int], [d_long].  This file holds these functions on
    values ([Data.jval], an absent token being [None]), the value of a parsed token array, and the
    proof that both views agree.  The conversions keep their result in the token; the values below
    are what they return. *)
From S2P Require Import Prelude Utils Bytes Data Json.
From stdpp Require Import strings.
#[local] Open Scope Z_scope.

(** The text of a container from its start to the end of the document, which a value does not keep
    (NULL where the document was binary). *)
Class SourceText := source_text : jval -> option (list Z).

(** ** Navigation *)
Definition jtype (t : option jval) : Z :=
  match t with
  | Some (JBytes _) => T_BYTES | Some (JString _) => T_STRING | Some (JArray _) => T_ARRAY | Some (JObject _) => T_OBJECT
  | Some (JBool _) => T_BOOLEAN | Some (JInt _) => T_INTEGER | Some JNull | None => T_NULL
  end.
Definition jget (t : option jval) (key : Z) : option jval :=
  match t with Some (JObject kvs) => snd <$> find (fun kv => kv.1 =? key) kvs | _ => None end.
Definition jget_at (t : option jval) (index : nat) : option jval :=
  match t with Some (JArray vs) => vs !! index | _ => None end.

(** ** Conversions *)

(** The characters of a C string. *)
Fixpoint cstr (l : list Z) : list Z := match l with [] => [] | x :: t => if x =? 0 then [] else x :: cstr t end.
Definition d_string `{SourceText} (t : option jval) : option (list Z) :=
  match t with
  | Some (JString l) => Some l
  | Some (JBytes l) => Some (bytes_to_hex_string (Some (str "0x")) l None)
  | Some (JBool b) => Some (str (if b then "true" else "false"))
  | Some (JInt n) => Some (digits 20 n)
  | Some (JArray _ as v) | Some (JObject _ as v) => source_text v
  | Some JNull | None => None
  end.
Definition d_get_string `{SourceText} (t : option jval) (key : Z) : option (list Z) := d_string (jget t key).

Definition is_hex_char (c : Z) : bool := is_digit c || ((97 <=? c) && (c <=? 102)) || ((65 <=? c) && (c <=? 70)).
Definition has_0x (l : list Z) : bool := (rd l 0 =? 48) && (rd l 1 =? 120).
Definition int_bytes (val : Z) : list Z :=
  let n := if negb (Z.land val 0xFF000000 =? 0) then 4%nat else if negb (Z.land val 0xFF0000 =? 0) then 3%nat else if negb (Z.land val 0xFF00 =? 0) then 2%nat else 1%nat in
  be_bytes n val.
Definition d_bytes (t : option jval) : option (list Z) :=
  match t with
  | Some (JBytes l) => Some l
  | Some (JString l) =>
      if (1 <? zlen l) && has_0x l && forallb is_hex_char (drop 2 l) then
        if zlen l =? 2 then Some []
        else
          let size := if zlen l <? 10 then 4 else Z.quot (zlen l - 1) 2 in
          let '(n, out) := hex_to_bytes (Some l) (zlen l) (replicate (Z.to_nat size) 0) size in
          Some (take (Z.to_nat n) out)
      else Some l
  | Some (JInt n) => Some (int_bytes n)
  | Some (JBool b) => Some (int_bytes (if b then 1 else 0))
  | _ => None
  end.
(** [strtoull] with base 10: the largest value on overflow. *)
Definition strtoull (l : list Z) : Z :=
  let v := atoi l in if Z.abs v <? 2 ^ 64 then u64 v else 2 ^ 64 - 1.
Definition d_long (t : option jval) : Z :=
  match t with
  | Some (JInt n) => n
  | Some (JBytes l) => bytes_to_long l (zlen l)
  | Some (JString l) => if has_0x l then let b := default [] (d_bytes t) in bytes_to_long b (zlen b) else strtoull l
  | _ => 0
  end.
Definition d_int (t : option jval) : Z :=
  match t with
  | Some (JInt n) => n
  | Some (JBool b) => if b then 1 else 0
  | Some (JBytes l) => if zlen l =? 0 then 0 else i32 (bytes_to_int (Some l) (Z.min 4 (zlen l)))
  | Some (JString l) =>
      if has_0x l then let b := default [] (d_bytes t) in i32 (bytes_to_int (Some b) (Z.min 4 (zlen b))) else i32 (atoi l)
  | _ => 0
  end.

(** ** Conversion in place

    [d_bytes] replaces a hexadecimal string by its bytes, or by a number if it is short, and
    [d_bytesl] fills the bytes up from the left.  What a token holds after such a call is [norm] and
    [d_getl]; the functions above are what the first call returns. *)
Definition is_hex (l : list Z) : bool := (1 <? zlen l) && has_0x l && forallb is_hex_char (drop 2 l).
Definition norm (v : jval) : jval :=
  match v with
  | JString l =>
      if is_hex l then
        if zlen l =? 2 then JBytes []
        else
          let b := default [] (d_bytes (Some v)) in
          if zlen l <? 10 then JInt (bytes_to_int (Some b) (zlen b)) else JBytes b
      else v
  | _ => v
  end.
Definition d_is_bytes (v : jval) : bool :=
  match v with JString l => has_0x l | JBytes _ | JInt _ => true | _ => false end.
Definition fill_left (n : nat) (l : list Z) : list Z := replicate (n - length l) 0 ++ l.
Definition pad_token (minl : nat) (v : jval) : jval :=
  match norm v with
  | JBytes l => if (length l <? minl)%nat && (4 <? minl)%nat then JBytes (fill_left minl l) else JBytes l
  | v' => v'
  end.
Definition d_getl (t : option jval) (key : Z) (minl : nat) : option jval := pad_token minl <$> jget t key.
(** The bytes, filled up or cut. *)
Definition d_bytesl (t : option jval) (len : nat) : option (list Z) :=
  b ← d_bytes t;
  Some (match norm <$> t with
        | Some (JBytes _) => if (length b <? len)%nat && (4 <? len)%nat then fill_left len b else take len b
        | _ => take len b
        end).
Definition d_get_byteskl (t : option jval) (key : Z) (minl : nat) : option (list Z) := d_bytesl (jget t key) minl.
Definition jget_or (t : option jval) (k1 k2 : Z) : option (option jval) :=
  match t with
  | None | Some JNull | Some (JString []) | Some (JBytes []) | Some (JBool false) | Some (JInt 0) => Some None
  | Some (JObject kvs) =>
      Some (match find (fun kv => kv.1 =? k1) kvs with Some kv => Some kv.2 | None => snd <$> find (fun kv => kv.1 =? k2) (rev kvs) end)
  | Some (JArray []) => Some None
  | _ => None
  end.
Definition jlen (t : option jval) : Z :=
  match t with
  | Some (JBytes l) | Some (JString l) => zlen l
  | Some (JArray l) => zlen l
  | Some (JObject l) => zlen l
  | Some (JInt n) => n
  | Some (JBool b) => if b then 1 else 0
  | _ => 0
  end.
(** The tokens of a loop from [d_get_at(t, 0)] by [d_next] up to [d_len(t)]: NULL if [t] is no array. *)
Definition items_of (t : option jval) : list (option jval) :=
  match t with Some (JArray vs) => map Some vs | _ => replicate (Z.to_nat (jlen t)) None end.
(** The tokens of [d_iter]; those behind a token that is no container are not its own. *)
Definition d_iter (t : option jval) : option (list jval) :=
  match t with
  | Some (JArray vs) => Some vs
  | Some (JObject kvs) => Some (map snd kvs)
  | _ => if jlen t =? 0 then Some [] else None
  end.
(** The tokens are taken for [bytes_t]: only those of type T_BYTES are. *)
Definition d_create_bytes_vec (arr : option jval) : option (option (list (list Z))) :=
  match arr with
  | None => Some None
  | Some _ => vs ← d_iter arr; l ← mapM (fun v => match norm v with JBytes l => Some l | _ => None end) vs; Some (Some l)
  end.

(** ** Comparison *)
Fixpoint d_eq_to (a : jval) (b : option jval) : bool :=
  match b with
  | None => false
  | Some b =>
      let a' := norm a in
      let b' := norm b in
      match a', b' with
      | JBytes l, JInt n | JInt n, JBytes l => (zlen l <? 5) && (d_int (Some (JBytes l)) =? n)
      | JBytes l, JBytes k => bool_decide (l = k)
      | JString l, JString k => (zlen l =? zlen k) && bool_decide (cstr l = cstr k)
      | JInt n, JInt m => n =? m
      | JBool x, JBool y => Bool.eqb x y
      | JNull, JNull => true
      | _, _ =>
          match a, b with
          | JArray vs, JArray ws => (zlen vs =? zlen ws) && (fix go vs ws := match vs, ws with v :: vs', w :: ws' => d_eq_to v (Some w) && go vs' ws' | _, _ => true end) vs ws
          | JObject kvs, JObject _ => (jlen (Some a) =? jlen (Some b)) && (fix go kvs := match kvs with (k, v) :: kvs' => d_eq_to v (jget (Some b) k) && go kvs' | [] => true end) kvs
          | _, _ => false
          end
      end
  end.
Definition d_eq (a b : option jval) : bool := match a with None => false | Some a => d_eq_to a b end.

(** ** The value of a token array *)
Section Values.
Context (value : list d_token_t -> option (jval * list d_token_t)).
Fixpoint values (n : nat) (l : list d_token_t) : option (list (Z * jval) * list d_token_t) :=
  match n, l with
  | O, _ => Some ([], l)
  | S n', t :: _ => '(v, r) ← value l; '(vs, r') ← values n' r; Some ((t_key t, v) :: vs, r')
  | S _, [] => None
  end.
End Values.
Fixpoint value_of (fuel : nat) (l : list d_token_t) : option (jval * list d_token_t) :=
  match fuel, l with
  | S f, t :: r =>
      let ty := d_type t in
      if ty =? T_BYTES then Some (JBytes (payload t), r)
      else if ty =? T_STRING then Some (JString (payload t), r)
      else if ty =? T_ARRAY then '(kvs, r') ← values (value_of f) (Z.to_nat (d_len t)) r; Some (JArray (map snd kvs), r')
      else if ty =? T_OBJECT then '(kvs, r') ← values (value_of f) (Z.to_nat (d_len t)) r; Some (JObject kvs, r')
      else if ty =? T_BOOLEAN then Some (JBool (negb (d_len t =? 0)), r)
      else if ty =? T_INTEGER then Some (JInt (d_len t), r)
      else Some (JNull, r)
  | _, _ => None
  end.
(** The value of the first token of a parsed document. *)
Definition doc_value (ctx : json_ctx_t) : option jval := fst <$> value_of (S (length (result ctx))) (result ctx).

(** ** Both views agree *)
Lemma values_flats (value : list d_token_t -> option (jval * list d_token_t)) : forall kvs ts rest,
  Forall (fun kv => forall ts' rest', Forall2 same_token ts' (flat kv.1 kv.2) -> value (ts' ++ rest') = Some (kv.2, rest')) kvs ->
  Forall2 same_token ts (flats kvs) -> values value (length kvs) (ts ++ rest) = Some (kvs, rest).
Proof.
  induction kvs as [|[k v] kvs IH]; intros ts rest Hv Hts; [by inversion Hts|]. inversion Hv as [|? ? Hv1 Hv2]; subst. rewrite flats_cons in Hts.
  apply Forall2_app_inv_r in Hts as (t1 & t2 & H1 & H2 & ->). cbn [length values]. rewrite <- app_assoc. cbn [fst snd] in *.
  destruct (flat_nonempty k v) as (x & l & Ex & Ek & _). pose proof H1 as H1'. rewrite Ex in H1'. inversion H1' as [|y ? t1' ? Hy]; subst. cbn [app].
  change (y :: t1' ++ t2 ++ rest) with ((y :: t1') ++ t2 ++ rest). rewrite (Hv1 _ _ H1). cbn. rewrite IH by done. cbn.
  destruct Hy as (_ & Hk & _). by rewrite Hk.
Qed.
Lemma same_token_type t ty len data k : 0 <= ty < 16 -> 0 <= len < 2 ^ 28 -> same_token t (token ty len data k) ->
  d_type t = ty /\ d_len t = len /\ payload t = payload (token ty len data k).
Proof.
  intros Hty Hlen (El & _ & Ep). destruct (token_type ty len data k Hty Hlen) as [E1 E2]. split_and!; [|..|done]; [rewrite <- E1|rewrite <- E2]; unfold d_type, d_len; by rewrite El.
Qed.
Lemma snd_indexed vs i : map snd (indexed i vs) = vs.
Proof. revert i. induction vs as [|v vs IH]; intros i; [done|]. cbn. by rewrite IH. Qed.
Lemma payload_token ty l data k : ty = T_BYTES \/ ty = T_STRING -> zlen l < 2 ^ 28 -> payload (token ty (zlen l) (Some (l ++ data)) k) = l.
Proof.
  intros Hty Hl. assert (0 <= ty < 16) by (destruct Hty as [-> | ->]; done). destruct (token_type ty (zlen l) (Some (l ++ data)) k) as [E1 E2]; [done|lia|].
  unfold payload. rewrite E1, E2. destruct Hty as [-> | ->]; cbn -[take]; by rewrite Nat2Z.id, take_app_length.
Qed.
Lemma flats_elem kvs kv : kv ∈ kvs -> (length (flat kv.1 kv.2) <= length (flats kvs))%nat.
Proof. induction kvs as [|[k v] kvs IH]; [by intros ?%elem_of_nil|]. rewrite flats_cons, length_app. intros [->|H]%elem_of_cons; cbn; [lia|]. specialize (IH H). lia. Qed.
Lemma indexed_elem vs i kv : kv ∈ indexed i vs -> kv.2 ∈ vs.
Proof. intros H. rewrite <- (snd_indexed vs i). by apply list_elem_of_fmap_2. Qed.
Lemma value_of_flat v : forall f k ts rest, jval_ok v = true -> (length (flat k v) <= f)%nat -> Forall2 same_token ts (flat k v) -> value_of f (ts ++ rest) = Some (v, rest).
Proof.
  induction v as [l|l|vs IH|kvs IH|b|n| ] using jval_induction; intros f k ts rest Hok Hf Hts.
  1,2: cbn [jval_ok flat] in *; apply andb_prop in Hok as [_ Hl]; inversion Hts as [|t ? ? ? Ht Hr]; subst; inversion Hr; subst; (destruct f as [|f]; [cbn in Hf; lia|]);
    (apply same_token_type in Ht as (E1 & _ & E3); [|done|lia]); cbn [app value_of]; rewrite E1; cbn -[payload]; rewrite E3.
  - rewrite <- (app_nil_r l) at 2. rewrite payload_token by (auto || lia). done.
  - rewrite payload_token by (auto || lia). done.
  - rewrite flat_array in *. apply jval_ok_array in Hok as [Hl Hok]. inversion Hts as [|t ? ts' ? Ht Hr]; subst. destruct f as [|f]; [cbn in Hf; lia|]. cbn [length] in Hf.
    apply same_token_type in Ht as (E1 & E2 & _); [|done|lia]. cbn [app value_of]. rewrite E1, E2, Nat2Z.id. cbn -[values value_of]. rewrite <- (length_indexed vs 0).
    rewrite (values_flats (value_of f) (indexed 0 vs) ts' rest); [cbn; by rewrite snd_indexed| |done].
    apply Forall_forall. intros kv Hkv ts0 rest0. pose proof (indexed_elem _ _ _ Hkv) as Hin. pose proof (flats_elem _ _ Hkv). rewrite Forall_forall in IH, Hok. apply IH; [done|by apply Hok|lia].
  - rewrite flat_object in *. apply jval_ok_object in Hok as [Hl Hok]. inversion Hts as [|t ? ts' ? Ht Hr]; subst. destruct f as [|f]; [cbn in Hf; lia|]. cbn [length] in Hf.
    apply same_token_type in Ht as (E1 & E2 & _); [|done|lia]. cbn [app value_of]. rewrite E1, E2, Nat2Z.id. cbn -[values value_of].
    rewrite (values_flats (value_of f) kvs ts' rest); [done| |done].
    apply Forall_forall. intros kv Hkv ts0 rest0. pose proof (flats_elem _ _ Hkv). rewrite Forall_forall in IH, Hok. apply IH; [done|by apply Hok|lia].
  - cbn [flat] in *. inversion Hts as [|t ? ? ? Ht Hr]; subst; inversion Hr; subst; (destruct f as [|f]; [cbn in Hf; lia|]).
    apply same_token_type in Ht as (E1 & E2 & _); [|done|by destruct b]. cbn [app value_of]. rewrite E1, E2. cbn. by destruct b.
  - cbn [flat jval_ok] in *. inversion Hts as [|t ? ? ? Ht Hr]; subst; inversion Hr; subst; (destruct f as [|f]; [cbn in Hf; lia|]).
    apply same_token_type in Ht as (E1 & E2 & _); [|done|lia]. cbn [app value_of]. rewrite E1, E2. done.
  - cbn [flat jval_ok] in *. inversion Hts as [|t ? ? ? Ht Hr]; subst; inversion Hr; subst; (destruct f as [|f]; [cbn in Hf; lia|]).
    apply same_token_type in Ht as (E1 & E2 & _); [|done|done]. cbn [app value_of]. by rewrite E1.
Qed.

(** Looking up a property of the value is looking it up in the tokens. *)
Lemma jget_tokens v k rest key : jval_ok v = true -> 0 <= key ->
  match jget (Some v) key with
  | Some x => exists k' rest', d_get (flat k v ++ rest) key = Some (Some (flat k' x ++ rest'))
  | None => d_get (flat k v ++ rest) key = Some None
  end.
Proof.
  intros Hok Hk. destruct (d_get_flat v k rest key Hok Hk) as (_ & H & _). destruct v as [l|l|vs|kvs|b|n| ]; try done. cbn [jget].
  destruct (find (fun kv => kv.1 =? key) kvs) as [kv|]; [|done]. destruct H as [rest' ->]. by exists kv.1, rest'.
Qed.

(** The document of a JSON text has the value that was printed. *)
Lemma doc_value_print v r ctx : json_ok v = true -> jval_ok (to_jval v) = true -> nesting v <= DATA_DEPTH_MAX -> ends r -> parse_json (print v ++ r) = Ok (Some ctx) tt ->
  doc_value ctx = Some (to_jval v).
Proof.
  intros Hok Hj Hn Hr E. destruct (json_text_tokens v r Hok Hn Hr) as (ctx' & E' & Ht). rewrite E in E'. simplify_eq. unfold doc_value.
  rewrite <- (app_nil_r (result ctx')), (value_of_flat (to_jval v) _ 0 (result ctx') []); [done|done| |done]. rewrite app_nil_r. apply Forall2_length in Ht. lia.
Qed.
