(* ===== verification/ReqState.v ===== *)
(** * core/client: requests, plugins and errors

    The data of request.h and plugin.h, the cache of scache.c, and the functions every step of a
    request uses: reporting errors ([req_set_error]) and calling plugins (client_init.c).

    A request is executed together with the requests it requires: the state holds the request
    itself and the list behind its [required] pointer.  Plugins are functions on this state, on the
    chains of the client and on a state of their own ([W]).  Memory that is freed while a pointer to
    it remains ([responses], [response_context]) is [Freed]; using it again is undefined.  The build
    is one with LOGGING and without assertions. *)
From S2P Require Import Prelude Utils Bytes Data Json JsonVal.
From stdpp Require Import strings.
#[local] Open Scope Z_scope.

(** ** Return codes (core/util/error.h) *)
Definition IN3_ECONFIG : Z := -6.
Definition IN3_ELIMIT : Z := -7.
Definition IN3_EINVALDT : Z := -9.
Definition IN3_ERPC : Z := -11.
Definition IN3_ERPCNRES : Z := -12.
Definition IN3_WAITING : Z := -16.
Definition IN3_EIGNORE : Z := -17.
Definition IN3_EPLGN_NONE : Z := -21.
Definition IN3_ERETRY : Z := -22.

(** The messages of debug.c. *)
Definition errmsgs : list (Z * string) :=
  [(IN3_ECONFIG, "Invalid configuration"); (IN3_EFIND, "Could not find the requested resource"); (IN3_EUNKNOWN, "Unknown Error occured");
   (IN3_ENOMEM, "Out of Memory"); (IN3_ENOTSUP, "The operation is not supported"); (IN3_EINVAL, "Invalid Value"); (-8, "Version missmatched");
   (IN3_ELIMIT, "Limit reached"); (IN3_EINVALDT, "invalid data"); (-10, "wrong password"); (IN3_ERPC, "RPC Error"); (IN3_ERPCNRES, "RPC No response");
   (-13, "RPC invalid url"); (-14, "transport error"); (-15, "out of range"); (IN3_WAITING, "waiting for data"); (IN3_EIGNORE, "ignoreable error");
   (-18, "payment required"); (-19, "no hardware wallet connected"); (-20, "error in usb communication protocol");
   (IN3_EPLGN_NONE, "no plugin could handle specified action"); (IN3_ERETRY, "request to retry all plugins");
   (-400, "400 - Bad Request"); (-401, "401 - Unauthorized"); (-402, "402 - Payment required"); (-403, "403 - Forbidden"); (-404, "404 - Not found");
   (-405, "405 - Method not allowed"); (-406, "406 - Not acceptable"); (-407, "407 - Proxy Authetification required"); (-408, "408 - Request timeout");
   (-409, "409 - Conclict"); (-410, "410 - Gone"); (-500, "500 - Internal Server Error"); (-501, "501 - Not Implemented");
   (-502, "502 - Bad Gateway"); (-503, "503 - Service Unavailable")].
Definition in3_errmsg (err : Z) : option (list Z) := (fun e => str e.2) <$> find (fun e => e.1 =? err) errmsgs.

(** ** The cache of a request (scache.c) *)
Definition CACHE_PROP_MUST_FREE : Z := 0x1.
Definition CACHE_PROP_SRC_REQ : Z := 0x2.
Definition CACHE_PROP_INHERIT : Z := 0x10.
Definition CACHE_PROP_CHAIN_ID : Z := 0x40.
Record cache_entry_t := mk_entry { ce_key : option (list Z); ce_value : option (list Z); ce_buffer : list Z; ce_props : Z }.
Fixpoint in3_cache_get_entry (cache : list cache_entry_t) (k : list Z) : option (option (list Z)) :=
  match cache with
  | [] => None
  | e :: t => if bool_decide (ce_key e = Some k) then Some (ce_value e) else in3_cache_get_entry t k
  end.
Fixpoint in3_cache_get_entry_by_prop (cache : list cache_entry_t) (prop : Z) : option cache_entry_t :=
  match cache with
  | [] => None
  | e :: t => if ce_props e =? prop then Some e else in3_cache_get_entry_by_prop t prop
  end.
(** The new entry in front; its buffer is not initialised. *)
Definition in3_cache_add_entry `{Allocator} (cache : list cache_entry_t) (k v : option (list Z)) : list cache_entry_t :=
  mk_entry k v (malloc 4) CACHE_PROP_MUST_FREE :: cache.

(** ** Requests (request.h) *)
Inductive req_type_t := RT_RPC | RT_SIGN.
Inductive in3_req_state_t := REQ_SUCCESS | REQ_WAITING_TO_SEND | REQ_WAITING_FOR_RESPONSE | REQ_ERROR.
#[global] Instance req_type_eq_dec : EqDecision req_type_t.
Proof. solve_decision. Defined.
#[global] Instance req_state_eq_dec : EqDecision in3_req_state_t.
Proof. solve_decision. Defined.

(** A pointer to a block that is freed separately from being cleared. *)
Inductive ptr (A : Type) := Null | Live (a : A) | Freed.
Arguments Null {A}.
Arguments Live {A} a.
Arguments Freed {A}.

Record in3_response_t := mk_response { rs_time : Z; rs_state : Z; rs_data : option (list Z) }.
(** A picked node: its index in the nodelist, the start and the size of its weight interval. *)
Record node_match_t := mk_node { nm_index : nat; nm_s : Z; nm_w : Z; nm_url : list Z; nm_address : list Z }.
Record in3_verified_hash_t := mk_vhash { vh_number : Z; vh_hash : list Z }.
Record in3_chain_t := mk_chain { ch_id : Z; ch_type : Z; ch_version : Z; verified_hashes : option (list in3_verified_hash_t) }.
Inductive in3_proof_t := PROOF_NONE | PROOF_STANDARD | PROOF_FULL.
#[global] Instance proof_eq_dec : EqDecision in3_proof_t.
Proof. solve_decision. Defined.
(** The client: its chains, [client->chain] being the first, and the fields of the configuration. *)
Record in3_t := mk_client {
  chains : list in3_chain_t; max_verified_hashes : nat; alloc_verified_hashes : nat; c_proof : in3_proof_t;
  c_finality : Z; c_flags : Z; c_pending : Z; id_count : Z; signature_count : Z; replace_latest_block : Z }.
Definition set_chains (x : list in3_chain_t) (c : in3_t) : in3_t := mk_client x (max_verified_hashes c) (alloc_verified_hashes c) (c_proof c) (c_finality c) (c_flags c) (c_pending c) (id_count c) (signature_count c) (replace_latest_block c).
Definition set_counts (pending ids : Z) (c : in3_t) : in3_t := mk_client (chains c) (max_verified_hashes c) (alloc_verified_hashes c) (c_proof c) (c_finality c) (c_flags c) pending ids (signature_count c) (replace_latest_block c).
Record in3_req_t := mk_req {
  r_id : Z; r_type : req_type_t; r_attempt : Z; verification_state : Z;
  r_error : option (list Z);
  request_context : option jval; requests : option (list jval);
  response_context : ptr jval; responses : ptr (list jval);
  raw_response : option (list in3_response_t);
  signers : list (list Z); nodes : list node_match_t; cache : list cache_entry_t }.
(** The number of requests. *)
Definition r_len (r : in3_req_t) : nat := length (default [] (requests r)).

Definition set_attempt (x : Z) (r : in3_req_t) : in3_req_t := mk_req (r_id r) (r_type r) x (verification_state r) (r_error r) (request_context r) (requests r) (response_context r) (responses r) (raw_response r) (signers r) (nodes r) (cache r).
Definition set_vstate (x : Z) (r : in3_req_t) : in3_req_t := mk_req (r_id r) (r_type r) (r_attempt r) x (r_error r) (request_context r) (requests r) (response_context r) (responses r) (raw_response r) (signers r) (nodes r) (cache r).
Definition set_error (x : option (list Z)) (r : in3_req_t) : in3_req_t := mk_req (r_id r) (r_type r) (r_attempt r) (verification_state r) x (request_context r) (requests r) (response_context r) (responses r) (raw_response r) (signers r) (nodes r) (cache r).
Definition set_response_context (x : ptr jval) (r : in3_req_t) : in3_req_t := mk_req (r_id r) (r_type r) (r_attempt r) (verification_state r) (r_error r) (request_context r) (requests r) x (responses r) (raw_response r) (signers r) (nodes r) (cache r).
Definition set_responses (x : ptr (list jval)) (r : in3_req_t) : in3_req_t := mk_req (r_id r) (r_type r) (r_attempt r) (verification_state r) (r_error r) (request_context r) (requests r) (response_context r) x (raw_response r) (signers r) (nodes r) (cache r).
Definition set_raw (x : option (list in3_response_t)) (r : in3_req_t) : in3_req_t := mk_req (r_id r) (r_type r) (r_attempt r) (verification_state r) (r_error r) (request_context r) (requests r) (response_context r) (responses r) x (signers r) (nodes r) (cache r).
Definition set_nodes (s : list (list Z)) (n : list node_match_t) (r : in3_req_t) : in3_req_t := mk_req (r_id r) (r_type r) (r_attempt r) (verification_state r) (r_error r) (request_context r) (requests r) (response_context r) (responses r) (raw_response r) s n (cache r).
Definition set_cache (x : list cache_entry_t) (r : in3_req_t) : in3_req_t := mk_req (r_id r) (r_type r) (r_attempt r) (verification_state r) (r_error r) (request_context r) (requests r) (response_context r) (responses r) (raw_response r) (signers r) (nodes r) x.

(** ** Plugins (client.h, plugin.h) *)
Definition PLGN_ACT_INIT : Z := 0x1.
Definition PLGN_ACT_SIGN : Z := 0x100.
Definition PLGN_ACT_RPC_HANDLE : Z := 0x200.
Definition PLGN_ACT_RPC_VERIFY : Z := 0x400.
Definition PLGN_ACT_CACHE_SET : Z := 0x800.
Definition PLGN_ACT_CACHE_GET : Z := 0x1000.
Definition PLGN_ACT_PAY_PREPARE : Z := 0x10000.
Definition PLGN_ACT_PAY_FOLLOWUP : Z := 0x20000.
Definition PLGN_ACT_LOG_ERROR : Z := 0x100000.
Definition PLGN_ACT_NL_PICK : Z := 0x200000.
Definition PLGN_ACT_NL_PICK_FOLLOWUP : Z := 0x400000.
Definition PLGN_ACT_NL_BLACKLIST : Z := 0x800000.
Definition PLGN_ACT_NL_FAILABLE : Z := 0x1000000.
Definition PLGN_ACT_NL_OFFLINE : Z := 0x2000000.
Definition PLGN_ACT_GET_DATA : Z := 0x8000000.

Inductive in3_nl_pick_type_t := NL_DATA | NL_SIGNER.
(** The verification context; the two block numbers are not initialised without a proof. *)
Record in3_vctx_t := mk_vctx {
  vc_chain : in3_chain_t; vc_request : jval; vc_result : option jval; vc_proof : option jval;
  vc_last_validator_change : option Z; vc_currentBlock : option Z;
  vc_index : nat; vc_method : option (list Z); vc_node : node_match_t; vc_dont_blacklist : bool }.
(** What is behind the [plugin_ctx] pointer of an action; the request is the state's own. *)
Inductive plg_ctx :=
  | C_log_error (msg : list Z) (error : Z)
  | C_blacklist (address : list Z)
  | C_pick (type : in3_nl_pick_type_t)
  | C_pick_followup (node : option node_match_t)
  | C_req
  | C_pay_followup (node : node_match_t) (resp_in3 resp_error : option jval)
  | C_rpc_handle (request : jval) (method : option (list Z)) (params : option jval)
  | C_verify (vc : in3_vctx_t)
  | C_offline (vctx : in3_vctx_t) (missing : Z)
  | C_cache (key : list Z) (content : option (list Z))
  | C_registry_id (data : option (list Z))
  | C_min_blk_height (signer : list Z) (data : option Z)
  | C_sign (message account : list Z) (signature : option (list Z)).

(** The request, the requests behind its [required] pointer, the client. *)
Record state (W : Type) := mk_state { self : in3_req_t; required : list in3_req_t; client : in3_t; world : W }.
Arguments mk_state {W}.
Arguments self {W}.
Arguments required {W}.
Arguments client {W}.
Arguments world {W}.
Definition on_self {W} (f : in3_req_t -> in3_req_t) (s : state W) : state W := mk_state (f (self s)) (required s) (client s) (world s).
Definition upd {W} (f : in3_req_t -> in3_req_t) : M (state W) unit := modify (on_self f).
Definition field {W A} (f : in3_req_t -> A) : M (state W) A := gets (fun s => f (self s)).

Record in3_plugin_t (W : Type) := mk_plugin { acts : Z; action_fn : Z -> plg_ctx -> M (state W) (Z * plg_ctx) }.
Arguments mk_plugin {W}.
Arguments acts {W}.
Arguments action_fn {W}.

Definition action_name (action : Z) : string :=
  match find (fun a => a.1 =? action)
    [(PLGN_ACT_INIT, "init"); (PLGN_ACT_SIGN, "sign"); (PLGN_ACT_RPC_HANDLE, "rpc_handle"); (PLGN_ACT_RPC_VERIFY, "rpc_verify"); (PLGN_ACT_CACHE_SET, "cache_set"); (PLGN_ACT_CACHE_GET, "cache_get"); (PLGN_ACT_PAY_PREPARE, "pay_prepare");
     (PLGN_ACT_PAY_FOLLOWUP, "pay_followup"); (PLGN_ACT_LOG_ERROR, "log_error"); (PLGN_ACT_NL_PICK, "nl_pick"); (PLGN_ACT_NL_PICK_FOLLOWUP, "nl_pick_followup");
     (PLGN_ACT_NL_BLACKLIST, "nl_blacklist"); (PLGN_ACT_NL_FAILABLE, "nl_failable"); (PLGN_ACT_NL_OFFLINE, "nl_offline"); (PLGN_ACT_GET_DATA, "get_data")] with
  | Some a => a.2 | None => "unknown" end.

Section Plugins.
Context {W : Type} (plugins : list (in3_plugin_t W)).

(** [client->plugin_acts] is the union of the actions of the registered plugins. *)
Definition plugin_acts : Z := fold_right Z.lor 0 (map acts plugins).
Definition in3_plugin_is_registered (action : Z) : bool := Z.land plugin_acts action =? action.
Definition handles (p : in3_plugin_t W) (action : Z) : bool := negb (Z.land (acts p) action =? 0).

(** One pass over the plugins: the first return value other than IN3_EIGNORE, if any. *)
Fixpoint plugin_pass (ps : list (in3_plugin_t W)) (action : Z) (c : plg_ctx) : M (state W) (option Z * plg_ctx) :=
  match ps with
  | [] => mret (None, c)
  | p :: t =>
      if handles p action then
        rc ← action_fn p action c;
        if rc.1 =? IN3_EIGNORE then plugin_pass t action rc.2 else mret (Some rc.1, rc.2)
      else plugin_pass t action c
  end.
(** [in3_plugin_execute_first_or_none] after the check of the registered actions; [n] retries are
    left, [report] is [req_set_error]. *)
Fixpoint first_or_none (report : option (list Z) -> Z -> M (state W) Z) (n : nat) (action : Z) (c : plg_ctx) : M (state W) (Z * plg_ctx) :=
  r ← plugin_pass plugins action c;
  match r.1 with
  | None => mret (IN3_OK, r.2)
  | Some ret =>
      if ret =? IN3_ERETRY then
        match n with
        | O => e ← report (Some (str "Max retries when executing plugins exceeded!")) IN3_EUNKNOWN; mret (e, r.2)
        | S n' => first_or_none report n' action r.2
        end
      else mret (ret, r.2)
  end.

Definition no_fuel {A} : M (state W) A := fun _ => NoFuel.
(** [req_set_error] and the plugins that log errors call each other; the fuel is for plugins that
    ask for a retry again and again. *)
Fixpoint set_error_intern (fuel : nat) (message : option (list Z)) (errnumber : Z) : M (state W) Z :=
  if (errnumber =? IN3_WAITING) || (errnumber =? IN3_OK) then mret errnumber
  else
    match message with
    | Some m =>
        upd (fun r => set_error (Some (cstr m ++ match r_error r with Some e => 58 :: e | None => [] end)) r) ;;
        match fuel with
        | O => no_fuel
        | S f =>
            if in3_plugin_is_registered PLGN_ACT_LOG_ERROR
            then first_or_none (set_error_intern f) 3 PLGN_ACT_LOG_ERROR (C_log_error m (u16 (- errnumber))) ;; mret tt
            else mret tt
        end
    | None => upd (fun r => match r_error r with Some _ => r | None => set_error (Some [69]) r end)
    end ;;
    upd (set_vstate errnumber) ;;
    mret errnumber.
Definition log_fuel : nat := 4.
Definition req_set_error (message : option (list Z)) (errnumber : Z) : M (state W) Z := set_error_intern log_fuel message errnumber.

(** [vc_err] in a build with logging ([vc_set_error] of request.c). *)
Definition vc_err (msg : string) : M (state W) Z := req_set_error (Some (str msg)) IN3_EUNKNOWN ;; mret IN3_EUNKNOWN.
(** [in3_plugin_execute_all]: every plugin with the action, the first error. *)
Fixpoint execute_each (ps : list (in3_plugin_t W)) (action : Z) (c : plg_ctx) (ret : Z) : M (state W) (Z * plg_ctx) :=
  match ps with
  | [] => mret (ret, c)
  | p :: t =>
      if handles p action then rc ← action_fn p action c; execute_each t action rc.2 (if ret =? IN3_OK then rc.1 else ret)
      else execute_each t action c ret
  end.
Definition in3_plugin_execute_all (action : Z) (c : plg_ctx) : M (state W) (Z * plg_ctx) :=
  if in3_plugin_is_registered action then execute_each plugins action c IN3_OK else mret (IN3_OK, c).

Definition in3_plugin_execute_first_or_none (action : Z) (c : plg_ctx) : M (state W) (Z * plg_ctx) :=
  if in3_plugin_is_registered action then first_or_none req_set_error 3 action c else mret (IN3_OK, c).
Definition in3_plugin_execute_first (action : Z) (c : plg_ctx) : M (state W) (Z * plg_ctx) :=
  r ← plugin_pass plugins action c;
  match r.1 with
  | Some ret => mret (ret, r.2)
  | None => e ← req_set_error (Some (str ("no plugin found that handled the " +:+ action_name action +:+ " action"))) IN3_EPLGN_NONE; mret (e, r.2)
  end.
End Plugins.

(** ** Chains *)
Definition CHAIN_ID_IPFS : Z := 0x7d0.
Definition CHAIN_ID_BTC : Z := 0x99.
Definition CHAIN_ETH : Z := 0.
Definition CHAIN_IPFS : Z := 2.
Definition CHAIN_BTC : Z := 3.
Fixpoint cached_chain_id (c : list cache_entry_t) (default : Z) : Z :=
  match c with
  | [] => default
  | e :: t => if negb (Z.land (ce_props e) CACHE_PROP_CHAIN_ID =? 0) then bytes_to_int (Some (ce_buffer e)) 4 else cached_chain_id t default
  end.
Definition in3_chain_id {W} (s : state W) : Z := cached_chain_id (cache (self s)) (default 0 (ch_id <$> head (chains (client s)))).
Definition in3_set_chain_id {W} `{Allocator} (id : Z) : M (state W) unit :=
  cur ← gets in3_chain_id;
  if (id =? 0) || (cur =? id) then mret tt
  else upd (fun r => set_cache (mk_entry None None (int_to_bytes (u32 id) (malloc 4)) (Z.lor CACHE_PROP_CHAIN_ID CACHE_PROP_INHERIT) :: cache r) r).
(** The chain with the id, added to the chains of the client if there is none. *)
Definition in3_get_chain {W} (id : Z) : M (state W) in3_chain_t := fun s =>
  match find (fun c => ch_id c =? id) (chains (client s)) with
  | Some c => Ok c s
  | None =>
      let c := mk_chain id (if id =? CHAIN_ID_BTC then CHAIN_BTC else if id =? CHAIN_ID_IPFS then CHAIN_IPFS else CHAIN_ETH) 0 None in
      Ok c (mk_state (self s) (required s) (set_chains (chains (client s) ++ [c]) (client s)) (world s))
  end.
