(* ===== verification/Request.v ===== *)
(** * core/client/execute.c: the execution of a request

    [in3_req_execute] drives a request: it answers it by a plugin, picks nodes, waits for their raw
    responses and verifies them; [in3_req_state] tells the caller what to do next.  Every function
    that changes the request is a definition on the state of [ReqState]; the transport, which fills
    [raw_response], is what happens between two calls. *)
From S2P Require Import Prelude Utils Bytes Data Json JsonVal ReqState.
From stdpp Require Import strings.
#[local] Open Scope Z_scope.

Definition K_METHOD : Z := Eval vm_compute in key "method".
Definition K_PARAMS : Z := Eval vm_compute in key "params".
Definition K_ERROR : Z := Eval vm_compute in key "error".
Definition K_MESSAGE : Z := Eval vm_compute in key "message".
Definition K_RESULT : Z := Eval vm_compute in key "result".
Definition K_IN3 : Z := Eval vm_compute in key "in3".
Definition K_RPC : Z := Eval vm_compute in key "rpc".
Definition K_PROOF : Z := Eval vm_compute in key "proof".
Definition K_CURRENT_BLOCK : Z := Eval vm_compute in key "currentBlock".
Definition K_LAST_VALIDATOR_CHANGE : Z := Eval vm_compute in key "lastValidatorChange".

(** The result of a parser as a step: NULL is [None]. *)
Definition doc {S} (r : res unit (option json_ctx_t)) : M S (option jval) :=
  match r with
  | Ok (Some ctx) _ => v ← defined (doc_value ctx); mret (Some v)
  | Ok None _ => mret None
  | Err _ _ => mret None
  | Undef => undef
  | NoFuel => fun _ => NoFuel
  end.
Definition message {S} (r : res unit (option (list Z))) : M S (option (list Z)) :=
  match r with Ok m _ => mret m | Err _ _ => mret None | Undef => undef | NoFuel => fun _ => NoFuel end.

Section Execute.
Context `{SourceText} {W : Type} (plugins : list (in3_plugin_t W)) (max_attempts : Z).
#[local] Abbreviation st := (state W).
#[local] Abbreviation req_set_error := (req_set_error plugins).
#[local] Abbreviation execute_first := (in3_plugin_execute_first plugins).
#[local] Abbreviation execute_first_or_none := (in3_plugin_execute_first_or_none plugins).

(** ** Reading the request *)

(** [requests[0]] *)
Definition request0 : M st jval := l ← field requests; defined (default [] l !! 0%nat).
(** [responses[i]]; the tokens lie in the block of [response_context]. *)
Definition response_at (i : nat) : M st jval :=
  c ← field response_context;
  p ← field responses;
  match c, p with Live _, Live l => defined (l !! i) | _, _ => undef end.
(** [raw_response[n]] *)
Definition raw_at (n : nat) : M st in3_response_t := l ← field raw_response; defined (default [] l !! n).
Definition set_raw_at (n : nat) (x : in3_response_t) : M st unit := upd (fun r => set_raw (alter (fun _ => x) n <$> raw_response r) r).
Definition req_nodes_len (l : list node_match_t) : nat := length l.

Definition req_is_method (method : string) : M st bool :=
  r ← request0;
  mret (match d_get_string (Some r) K_METHOD with Some m => bool_decide (cstr m = str method) | None => false end).
(** Without nodes; [strcmp] needs a method. *)
Definition is_raw_http : M st bool :=
  ns ← field nodes;
  match ns with
  | _ :: _ => mret false
  | [] => r ← request0; m ← defined (d_get_string (Some r) K_METHOD); mret (bool_decide (cstr m = str "in3_http"))
  end.
Definition ctx_is_allowed_to_fail : M st bool := req_is_method "in3_nodeList".

(** ** Freeing *)

(** [if (p) free(p)]: freeing twice is undefined. *)
Definition free {A} (p : ptr A) : M st unit := match p with Freed => undef | _ => mret tt end.
Definition freed {A} (p : ptr A) : ptr A := match p with Null => Null | _ => Freed end.

Definition response_free : M st unit :=
  ns ← field nodes;
  raw ← field raw_response;
  let nodes_count := match ns with [] => 1%nat | _ => req_nodes_len ns end in
  (match raw with Some l => if (length l <? nodes_count)%nat then undef else mret tt | None => mret tt end) ;;
  p ← field responses; free p ;;
  c ← field response_context; free c ;;
  upd (fun r => set_nodes [] [] (set_raw None (set_responses Null (set_response_context Null r)))).
Definition clear_response (n : nat) : M st unit :=
  x ← raw_at n;
  match rs_data x with Some _ => set_raw_at n (mk_response (rs_time x) (rs_state x) None) | None => mret tt end.
(** [responses] and [response_context] are freed, and the pointers kept. *)
Definition clean_up_ctx : M st unit :=
  upd (fun r => if (verification_state r =? IN3_OK) || (verification_state r =? IN3_WAITING) then r else set_vstate IN3_WAITING r) ;;
  p ← field responses; free p ;;
  c ← field response_context; free c ;;
  upd (fun r => set_error None (set_responses (freed (responses r)) (set_response_context (freed (response_context r)) r))).
Definition in3_retry_same_node : M st Z :=
  ns ← field nodes;
  raw ← field raw_response;
  (if (length (default [] raw) <? req_nodes_len ns)%nat then undef else mret tt) ;;
  p ← field responses; free p ;;
  c ← field response_context; free c ;;
  upd (fun r => set_raw None (set_responses Null (set_response_context Null r))) ;;
  mret IN3_OK.

(** ** Parsing *)
Definition first_char (l : list Z) : Z := rd (cstr l) 0.
Definition is_json_text (l : list Z) : bool := (first_char l =? 123) || (first_char l =? 91) || (first_char l =? 34).
Definition ctx_parse_response (response_data : list Z) : M st Z :=
  let is_json := is_json_text response_data in
  raw ← is_raw_http;
  if (raw : bool) then
    v ← (if is_json then doc (parse_json (cstr response_data)) else mret None);
    (* a context that only holds the raw data *)
    let v := default (JBytes response_data) v in
    upd (fun r => set_responses (Live [v]) (set_response_context (Live v) r)) ;;
    mret IN3_OK
  else
    v ← (if is_json then doc (parse_json (cstr response_data)) else doc (parse_binary (map u8 response_data)));
    upd (set_response_context (match v with Some v => Live v | None => Null end)) ;;
    n ← field r_len;
    match v with
    | None =>
        error ← (if is_json then message (parse_json_error (cstr response_data)) else mret None);
        e ← req_set_error (Some (default (str_remove_html (cstr response_data)) error)) IN3_EINVALDT;
        req_set_error (Some (10 :: str "Error in JSON-response : ")) e ;;
        mret IN3_EINVALDT
    | Some (JObject _ as v) =>
        upd (set_responses (Live [v])) ;;
        if (n =? 1)%nat then mret IN3_OK else req_set_error (Some (str "The response must be an array!")) IN3_EINVALDT
    | Some (JArray vs) =>
        if (length vs =? n)%nat then upd (set_responses (Live vs)) ;; mret IN3_OK
        else req_set_error (Some (str "The responses must be a array with the same number as the requests!")) IN3_EINVALDT
    | Some _ => req_set_error (Some (str "The response must be a Object or Array")) IN3_EINVALDT
    end.

(** ** Verifying one response *)
Definition starts (prefix : string) (m : list Z) : bool := bool_decide (take (String.length prefix) m = str prefix).
(** The message and whether it is the user's error. *)
Definition is_user_error (error : option jval) : bool * option (list Z) :=
  let err_msg := if jtype error =? T_STRING then d_string error else d_get_string error K_MESSAGE in
  (match err_msg with Some m => negb (starts "Error:" m) && negb (starts "TypeError:" m) && negb (starts "Error connect" m) | None => false end, err_msg).
Definition blacklist (node : node_match_t) : M st Z := r ← execute_first PLGN_ACT_NL_BLACKLIST (C_blacklist (nm_address node)); mret r.1.
Definition handle_error_response (node : option node_match_t) (n : nat) : M st Z :=
  x ← raw_at n;
  req_set_error (Some (match rs_data x with Some (_ :: _ as d) => d | _ => str "no response from node" end)) IN3_ERPC ;;
  (match node with
   | Some nd => e ← blacklist nd; if e =? IN3_OK then mret tt else clear_response n
   | None => mret tt
   end) ;;
  mret IN3_ERPC.
Definition handle_payment (node : node_match_t) (proof : option jval) (i : nat) : M st Z :=
  x ← response_at i;
  r ← execute_first_or_none PLGN_ACT_PAY_FOLLOWUP (C_pay_followup node proof (jget (Some x) K_ERROR));
  req_set_error (Some (str "Error following up the payment data")) r.1.

(** The node's answer failed: keep the message as its raw response, and blacklist the node. *)
Definition reject_response (node : node_match_t) (n : nat) (res : Z) (dont_blacklist : bool) : M st Z :=
  err ← field r_error;
  (match err with
   | Some msg =>
       x ← raw_at n;
       match rs_data x with Some _ => set_raw_at n (mk_response (rs_time x) res (Some msg)) | None => mret tt end
   | None => mret tt
   end) ;;
  (if dont_blacklist then mret tt else blacklist node ;; mret tt) ;;
  mret res.
(** The end of a round of the loop in [verify_response], after the payment plugin returned [res]:
    [inl] leaves the function. *)
Definition judge_response (vc : in3_vctx_t) (node : node_match_t) (n i : nat) (res : Z) : M st (Z + unit) :=
  if (res =? IN3_OK) && (match vc_result vc with None => true | Some _ => false end) then
    y ← response_at i;
    let ue := is_user_error (jget (Some y) K_ERROR) in
    if (fst ue : bool) then mret (inr tt)
    else
      blacklist node ;;
      e ← req_set_error (Some (default (str "Invalid response") (snd ue))) IN3_EINVAL;
      mret (inl e)
  else
    rd ← (if res =? IN3_OK then
            r ← execute_first PLGN_ACT_RPC_VERIFY (C_verify vc);
            upd (set_vstate r.1) ;;
            mret (r.1, match r.2 with C_verify vc' => vc_dont_blacklist vc' | _ => false end)
          else mret (res, false));
    if fst rd =? IN3_WAITING then mret (inl IN3_WAITING)
    else if fst rd =? IN3_OK then mret (inr tt)
    else e ← reject_response node n (fst rd) (snd rd); mret (inl e).
(** A round of the loop; the in3 section is read after the payment plugin returned. *)
Definition verify_one (chain : in3_chain_t) (node : node_match_t) (n i : nat) : M st (Z + unit) :=
  request ← (l ← field requests; defined (default [] l !! i));
  x ← response_at i;
  let result := jget (Some x) K_RESULT in
  let method := d_get_string (Some request) K_METHOD in
  let in3 := jget (Some x) K_IN3 in
  res ← handle_payment node in3 i;
  match in3 with
  | Some t =>
      response_at i ;;
      judge_response (mk_vctx chain request result (jget in3 K_PROOF) (Some (d_long (jget in3 K_LAST_VALIDATOR_CHANGE))) (Some (d_long (jget in3 K_CURRENT_BLOCK))) i method node false) node n i res
  | None => judge_response (mk_vctx chain request result None None None i method node false) node n i res
  end.
Fixpoint verify_all (chain : in3_chain_t) (node : node_match_t) (n : nat) (idx : list nat) : M st (Z + unit) :=
  match idx with
  | [] => mret (inr tt)
  | i :: t => r ← verify_one chain node n i; match r with inl e => mret (inl e) | inr _ => verify_all chain node n t end
  end.
Definition verify_response (chain : in3_chain_t) (node : option node_match_t) (n : nat) : M st Z :=
  x ← raw_at n;
  failed ← (if negb (rs_state x =? IN3_OK) then mret true
            else raw ← is_raw_http; mret (negb raw && (match rs_data x with Some (_ :: _) => false | _ => true end)));
  if (failed : bool) then handle_error_response node n
  else
    clean_up_ctx ;;
    data ← defined (rs_data x);
    e ← ctx_parse_response data;
    if negb (e =? IN3_OK) then
      (match node with Some nd => blacklist nd ;; mret tt | None => mret tt end) ;;
      clear_response n ;;
      field verification_state
    else
      match node with
      | None => upd (set_vstate IN3_OK) ;; mret IN3_OK
      | Some nd =>
          len ← field r_len;
          r ← verify_all chain nd n (seq 0 len);
          match r with inl e => mret e | inr _ => upd (set_vstate IN3_OK) ;; mret IN3_OK end
      end.

(** ** All responses *)

(** The loop of [find_valid_result] from response [n] on; the node of a response is the one at the
    same place in the list. *)
Fixpoint find_loop (chain : in3_chain_t) (ns : list (option node_match_t)) (n : nat) (still_pending : bool) (st0 : Z) : M st (Z * bool * option node_match_t) :=
  match ns with
  | [] => mret (st0, still_pending, None)
  | node :: t =>
      x ← raw_at n;
      if rs_state x =? IN3_WAITING then find_loop chain t (S n) true st0
      else
        s ← verify_response chain node n;
        if s =? IN3_OK then mret (IN3_OK, still_pending, node)
        else if s =? IN3_WAITING then mret (IN3_WAITING, false, None)
        else find_loop chain t (S n) still_pending s
  end.
Definition find_valid_result : M st (Z * option node_match_t) :=
  ns ← field nodes;
  id ← gets in3_chain_id;
  chain ← in3_get_chain id;
  r ← find_loop chain (match ns with [] => [None] | _ => map Some ns end) 0 false IN3_ERPC;
  let '(s, still_pending, node) := r in
  if negb (s =? IN3_OK) && still_pending then
    p ← field responses; free p ;;
    c ← field response_context; free c ;;
    upd (fun r => set_error None (set_vstate IN3_WAITING (set_responses Null (set_response_context Null r)))) ;;
    mret (IN3_WAITING, None)
  else mret (s, node).

(** ** Executing *)
Definition handle_internally : M st Z :=
  len ← field r_len;
  if negb (len =? 1)%nat then mret IN3_OK
  else
    r0 ← request0;
    r ← execute_first_or_none PLGN_ACT_RPC_HANDLE (C_rpc_handle r0 (d_get_string (Some r0) K_METHOD) (jget (Some r0) K_PARAMS));
    mret (if r.1 =? IN3_EIGNORE then IN3_OK else r.1).
(** The first error of the request and those behind it. *)
Fixpoint first_error (rs : list in3_req_t) : option (list Z) :=
  match rs with [] => None | r :: t => match r_error r with Some e => Some e | None => first_error t end end.
Definition get_error_message (rs : list in3_req_t) (e : Z) : option (list Z) :=
  if e =? IN3_WAITING then None else match first_error rs with Some m => Some m | None => in3_errmsg e end.

(** The code reported when no node could be picked. *)
Definition pick_code (ret : Z) : M st Z :=
  if (ret <? 0) && negb (ret =? IN3_WAITING) then b ← ctx_is_allowed_to_fail; mret (if (b : bool) then IN3_EIGNORE else ret) else mret ret.
Definition select_nodes : M st Z :=
  raw ← field raw_response;
  ns ← field nodes;
  match raw, ns with
  | None, [] =>
      r0 ← request0;
      http ← (match jget (jget (Some r0) K_IN3) K_RPC with Some _ => mret true | None => is_raw_http end);
      if (http : bool) then mret IN3_OK
      else
        r ← execute_first PLGN_ACT_NL_PICK (C_pick NL_DATA);
        if negb (r.1 =? IN3_OK) then c ← pick_code r.1; req_set_error (Some (str "could not find any node")) c
        else
          r2 ← execute_first PLGN_ACT_NL_PICK (C_pick NL_SIGNER);
          if r2.1 <? 0 then c ← pick_code r2.1; req_set_error (Some (str "error configuring the config for request")) c
          else r3 ← execute_first_or_none PLGN_ACT_PAY_PREPARE C_req; mret r3.1
  | _, _ => mret IN3_OK
  end.

(** Run a step on the required request. *)
Definition on_required {A} (m : M st A) : M st A := fun s =>
  match required s with
  | [] => Undef
  | r :: t =>
      match m (mk_state r t (client s) (world s)) with
      | Ok a s' => Ok a (mk_state (self s) (self s' :: required s') (client s') (world s'))
      | Err e s' => Err e (mk_state (self s) (self s' :: required s') (client s') (world s'))
      | Undef => Undef
      | NoFuel => NoFuel
      end
  end.
(** A failed round: give up or start over ([again] is [in3_req_execute]). *)
Definition next_attempt (again : M st Z) (ret : Z) : M st Z :=
  upd (fun r => match raw_response r with Some _ => set_attempt (r_attempt r + 1) r | None => r end) ;;
  response_free ;;
  a ← field r_attempt;
  if a <? max_attempts then upd (fun r => set_error None (set_vstate IN3_WAITING r)) ;; again
  else
    b ← ctx_is_allowed_to_fail;
    (if (b : bool) then upd (set_vstate IN3_EIGNORE) else mret tt) ;;
    let ret := if (b : bool) then IN3_EIGNORE else ret in
    err ← field r_error;
    match err with
    | Some _ => mret (if ret =? IN3_OK then IN3_ERPC else ret)
    | None => req_set_error (Some (str "reaching max_attempts and giving up")) IN3_ELIMIT
    end.
(** The case RT_RPC of [in3_req_execute]. *)
Definition execute_rpc (again : M st Z) : M st Z :=
  raw ← field raw_response;
  c ← field response_context;
  e ← (match raw, c with None, Null => handle_internally | _, _ => mret IN3_OK end);
  if e <? 0 then
    err ← field r_error;
    match err with
    | Some _ => mret e
    | None => s ← gets (fun s => self s :: required s); req_set_error (get_error_message s e) e
    end
  else
    e ← select_nodes;
    if negb (e =? IN3_OK) then mret e
    else
      raw ← field raw_response;
      match raw with
      | None => mret IN3_WAITING
      | Some _ =>
          rn ← find_valid_result;
          (if fst rn =? IN3_OK then execute_first_or_none PLGN_ACT_NL_PICK_FOLLOWUP (C_pick_followup (snd rn)) ;; mret tt else mret tt) ;;
          if (fst rn =? IN3_WAITING) || (fst rn =? IN3_OK) then mret (fst rn) else next_attempt again (fst rn)
      end.
Definition execute_sign : M st Z :=
  raw ← field raw_response;
  match raw with
  | None => mret IN3_WAITING
  | Some _ => x ← raw_at 0; mret (if rs_state x =? IN3_WAITING then IN3_WAITING else if rs_state x =? IN3_OK then IN3_OK else IN3_ERPC)
  end.
(** [in3_req_execute]; each level of fuel is a call, of the required request or of the request again. *)
Fixpoint in3_req_execute (fuel : nat) : M st Z :=
  match fuel with
  | O => fun _ => NoFuel
  | S f =>
      err ← field r_error;
      match err with
      | Some _ => v ← field verification_state; mret (if negb (v =? IN3_OK) && negb (v =? IN3_WAITING) then v else IN3_EUNKNOWN)
      | None =>
          rc ← field request_context;
          ok ← (match rc with None => mret false | Some _ => r0 ← request0; mret (jtype (jget (Some r0) K_METHOD) =? T_STRING) end);
          if negb ok then req_set_error (Some (str "No Method defined")) IN3_ECONFIG
          else
            rs ← gets required;
            ret ← (match rs with [] => mret IN3_OK | _ => on_required (in3_req_execute f) end);
            if negb (ret =? IN3_OK) && negb (ret =? IN3_EIGNORE) then
              rs ← gets required; req_set_error (get_error_message rs ret) ret
            else
              (if negb (ret =? IN3_OK) then execute_first PLGN_ACT_NL_FAILABLE C_req ;; mret tt else mret tt) ;;
              c ← field response_context;
              v ← field verification_state;
              if (match c with Null => false | _ => true end) && (v =? IN3_OK) then mret IN3_OK
              else
                ty ← field r_type;
                match ty with RT_RPC => execute_rpc (in3_req_execute f) | RT_SIGN => execute_sign end
      end
  end.

(** ** The state of a request and of those behind it *)
Fixpoint in3_req_state (rs : list in3_req_t) : M unit in3_req_state_t :=
  match rs with
  | [] => mret REQ_SUCCESS
  | r :: t =>
      q ← in3_req_state t;
      if bool_decide (q = REQ_ERROR) || bool_decide (is_Some (r_error r)) then mret REQ_ERROR
      else if negb (bool_decide (t = [])) && negb (bool_decide (q = REQ_SUCCESS)) then mret q
      else match raw_response r with
           | None => mret REQ_WAITING_TO_SEND
           | Some raw =>
               match r_type r, response_context r with
               | RT_RPC, Null => mret REQ_WAITING_FOR_RESPONSE
               | RT_RPC, _ => mret REQ_SUCCESS
               | RT_SIGN, _ => x ← defined (raw !! 0%nat); mret (if rs_state x =? IN3_WAITING then REQ_WAITING_FOR_RESPONSE else REQ_SUCCESS)
               end
           end
  end.
(** The last of the requests without a response, or the first. *)
Fixpoint last_waiting (rs : list in3_req_t) (i last : nat) : nat :=
  match rs with
  | [] => last
  | r :: t => last_waiting t (S i) (match response_context r with Null => i | _ => last end)
  end.
Definition in3_req_last_waiting (rs : list in3_req_t) : nat := last_waiting rs 0 0.
(** The new request becomes the first required one, and is executed. *)
Definition req_add_required (fuel : nat) (ctx : in3_req_t) : M st Z :=
  modify (fun s => mk_state (self s) (ctx :: required s) (client s) (world s)) ;; on_required (in3_req_execute fuel).
(** Removal of the [i]-th required request, with those behind it if [rec]. *)
Definition req_remove_required (i : nat) (rec : bool) : M st Z := fun s =>
  match required s !! i with
  | None => Ok IN3_EFIND s
  | Some _ => Ok IN3_OK (mk_state (self s) (take i (required s) ++ if rec then [] else drop (S i) (required s)) (client s) (world s))
  end.

(** ** Responses of the transport and the signer *)
Definition sb_append (d : option (list Z)) (x : list Z) : option (list Z) := Some (default [] d ++ x).
(** [sb_add_chars] of an empty string allocates nothing. *)
Definition sb_append_chars (d : option (list Z)) (x : list Z) : option (list Z) := match cstr x with [] => d | x => sb_append d x end.
(** [as_string] is [data_len == -1]. *)
Definition in3_ctx_add_response (index : nat) (error : Z) (data : list Z) (as_string : bool) (time : Z) : M st unit :=
  let error := if error =? 1 then IN3_ERPC else error in
  raw ← field raw_response;
  match raw with
  | None => req_set_error (Some (str "no request created yet!")) IN3_EINVAL ;; mret tt
  | Some _ =>
      x ← raw_at index;
      let d := if (rs_state x =? IN3_OK) && negb (error =? 0) then (fun _ => []) <$> rs_data x else rs_data x in
      set_raw_at index (mk_response (u32 (rs_time x + time)) error (if as_string then sb_append_chars d data else sb_append d data))
  end.
Definition in3_handle_sign : M st Z :=
  r0 ← request0;
  let params := jget (Some r0) K_PARAMS in
  match d_bytes (jget_at params 0) with
  | None => req_set_error (Some (str "missing data to sign")) IN3_ECONFIG
  | Some msg =>
      match d_bytes (jget_at params 1) with
      | None => req_set_error (Some (str "missing account to sign")) IN3_ECONFIG
      | Some account =>
          upd (set_raw (Some [mk_response 0 IN3_OK (Some [])])) ;;
          r ← execute_first PLGN_ACT_SIGN (C_sign msg account None);
          (if fst r =? IN3_OK then
             match snd r with
             | C_sign _ _ (Some sig) => x ← raw_at 0; set_raw_at 0 (mk_response (rs_time x) (rs_state x) (sb_append (rs_data x) sig))
             | _ => mret tt
             end
           else mret tt) ;;
          mret (fst r)
      end
  end.
End Execute.
