(* ===== verification/ReqFrame.v ===== *)
(** * Requests: properties of steps that only have to be shown for the primitive ones

    A property of steps that holds for the primitive steps on a request, for calls of plugins and for
    reports of errors, and is kept by sequencing ([Modular]), holds for every function of
    [Request] that does not start another attempt.  [ReqSafety] uses this for invariants of the
    client, [ReqProgress] for termination. *)
From S2P Require Import Prelude Utils Bytes Data Json JsonVal ReqState Request.
From stdpp Require Import strings.
#[local] Open Scope Z_scope.

(** Steps on the request that keep its signers or drop them, and those that also count no attempt
    and drop no raw response. *)
Definition keeps_signers (f : in3_req_t -> in3_req_t) : Prop := forall r, signers (f r) = signers r \/ signers (f r) = [].
Definition keeps_counters (f : in3_req_t -> in3_req_t) : Prop :=
  forall r, r_attempt (f r) = r_attempt r /\ (is_Some (raw_response r) -> is_Some (raw_response (f r))) /\ (signers (f r) = signers r \/ signers (f r) = []).
Lemma keeps_counters_signers f : keeps_counters f -> keeps_signers f.
Proof. intros Hf r. apply Hf. Qed.
(** Show it for the functions of [upd]. *)
Ltac keeps := intros ?; repeat split; cbn; repeat case_match; first [done|by left|by right|by intros [? ->]; eexists].
Class Modular {W : Type} (T : forall A, M (state W) A -> Prop) : Prop := {
  mod_bind A B (m : M (state W) A) (k : A -> M (state W) B) : T A m -> (forall a, T B (k a)) -> T B (m ≫= k);
  mod_ret A (a : A) : T A (mret a);
  mod_undef A : T A undef;
  mod_gets A (f : state W -> A) : T A (gets f);
  mod_upd f : keeps_counters f -> T unit (upd f);
  mod_chain id : T in3_chain_t (in3_get_chain id) }.
(** The property of the plugins and of error reports. *)
Class ModularPlugins {W : Type} (T : forall A, M (state W) A -> Prop) (plugins : list (in3_plugin_t W)) : Prop := {
  mod_pass act c : T _ (plugin_pass plugins act c);
  mod_report msg e : T _ (req_set_error plugins msg e) }.

Create HintDb modular.
Section Functions.
Context `{SourceText} {W : Type} (T : forall A, M (state W) A -> Prop) `{HT : !Modular T} (plugins : list (in3_plugin_t W)) `{HP : !ModularPlugins T plugins}.
Lemma step_ret {A} (a : A) : T A (mret a).
Proof. apply mod_ret. Qed.
Lemma step_undef {A} : T A undef.
Proof. apply mod_undef. Qed.
Lemma step_gets {A} (f : state W -> A) : T A (gets f).
Proof. apply mod_gets. Qed.
Lemma step_chain id : T _ (in3_get_chain id).
Proof. apply mod_chain. Qed.
Lemma step_pass act c : T _ (plugin_pass plugins act c).
Proof. apply mod_pass. Qed.
Lemma step_report msg e : T _ (req_set_error plugins msg e).
Proof. apply mod_report. Qed.
Hint Resolve step_ret step_undef step_gets step_chain step_pass step_report : modular.
Lemma mod_field {A} (f : in3_req_t -> A) : T A (field f).
Proof. apply mod_gets. Qed.
Lemma mod_defined {A} (o : option A) : T A (defined o).
Proof. destruct o; cbn [defined]; auto with modular. Qed.
Hint Resolve mod_field mod_defined : modular.
Ltac modular :=
  repeat first
    [ match goal with |- T _ (_ ≫= _) => apply mod_bind; [|intros ?] end
    | progress cbn [fst snd]
    | progress eauto with modular
    | match goal with |- T _ (upd _) => apply mod_upd; keeps end
    | match goal with
      | |- T _ (match ?x with _ => _ end) => destruct x
      | |- T _ ((match ?x with _ => _ end) _) => destruct x
      | |- T _ (let '(_, _) := ?x in _) => destruct x
      end ].

Lemma execute_first_mod act c : T _ (in3_plugin_execute_first plugins act c).
Proof. unfold in3_plugin_execute_first. modular. Qed.
Lemma first_or_none_mod act : forall n c, T _ (first_or_none plugins (req_set_error plugins) n act c).
Proof. induction n as [|n IH]; intros c; cbn [first_or_none]; modular. Qed.
Hint Resolve execute_first_mod first_or_none_mod : modular.
Lemma execute_or_none_mod act c : T _ (in3_plugin_execute_first_or_none plugins act c).
Proof. unfold in3_plugin_execute_first_or_none. modular. Qed.
Hint Resolve execute_or_none_mod : modular.
Lemma request0_mod : T _ (request0 (W := W)).
Proof. unfold request0. modular. Qed.
Lemma raw_at_mod n : T _ (raw_at (W := W) n).
Proof. unfold raw_at. modular. Qed.
Lemma response_at_mod i : T _ (response_at (W := W) i).
Proof. unfold response_at. modular. Qed.
Lemma set_raw_at_mod n x : T _ (set_raw_at (W := W) n x).
Proof. apply mod_upd. keeps. Qed.
Lemma is_method_mod m : T _ (req_is_method (W := W) m).
Proof. unfold req_is_method. pose proof request0_mod. modular. Qed.
Lemma raw_http_mod : T _ (is_raw_http (W := W)).
Proof. unfold is_raw_http. pose proof request0_mod. modular. Qed.
Lemma free_mod {A} (p : ptr A) : T _ (free (W := W) p).
Proof. unfold free. modular. Qed.
Hint Resolve request0_mod raw_at_mod response_at_mod set_raw_at_mod is_method_mod raw_http_mod free_mod : modular.
Lemma clear_response_mod n : T _ (clear_response (W := W) n).
Proof. unfold clear_response. modular. Qed.
Lemma clean_up_mod : T _ (clean_up_ctx (W := W)).
Proof. unfold clean_up_ctx. modular. Qed.
Hint Resolve clear_response_mod clean_up_mod : modular.
Lemma blacklist_mod node : T _ (blacklist plugins node).
Proof. unfold blacklist. modular. Qed.
Hint Resolve blacklist_mod : modular.
Lemma doc_mod r : r <> NoFuel -> T _ (doc (S := state W) r).
Proof. intros Hr. destruct r as [[ctx|] u|e u| |]; cbn [doc]; [modular..|done]. Qed.
Lemma message_mod r : r <> NoFuel -> T _ (message (S := state W) r).
Proof. intros Hr. destruct r; cbn [message]; [modular..|done]. Qed.
Lemma parse_response_mod data : T _ (ctx_parse_response plugins data).
Proof.
  assert (forall l, bytes_ok (map u8 l)) as Hb by (intros l; apply Forall_fmap, Forall_forall; intros; apply u8_byte).
  assert (T _ (doc (S := state W) (parse_json (cstr data)))) as H1 by (apply doc_mod, parse_json_ends).
  assert (T _ (doc (S := state W) (parse_binary (map u8 data)))) as H2 by (by apply doc_mod, parse_binary_ends).
  assert (T _ (message (S := state W) (parse_json_error (cstr data)))) as H3 by (apply message_mod, parse_json_ends).
  unfold ctx_parse_response. modular.
Qed.
Hint Resolve parse_response_mod : modular.
Lemma error_response_mod node n : T _ (handle_error_response plugins node n).
Proof. unfold handle_error_response. modular. Qed.
Lemma payment_mod node p i : T _ (handle_payment plugins node p i).
Proof. unfold handle_payment. modular. Qed.
Lemma reject_mod node n r d : T _ (reject_response plugins node n r d).
Proof. unfold reject_response. modular. Qed.
Hint Resolve error_response_mod payment_mod reject_mod : modular.
Lemma judge_mod vc node n i r : T _ (judge_response plugins vc node n i r).
Proof. unfold judge_response. modular. Qed.
Hint Resolve judge_mod : modular.
Lemma verify_one_mod c node n i : T _ (verify_one plugins c node n i).
Proof. unfold verify_one. modular. Qed.
Hint Resolve verify_one_mod : modular.
Lemma verify_all_mod c node n idx : T _ (verify_all plugins c node n idx).
Proof. induction idx as [|i idx IH]; cbn [verify_all]; modular. Qed.
Hint Resolve verify_all_mod : modular.
Lemma verify_response_mod c node n : T _ (verify_response plugins c node n).
Proof. unfold verify_response. modular. Qed.
Hint Resolve verify_response_mod : modular.
Lemma find_loop_mod c ns : forall n p z, T _ (Request.find_loop plugins c ns n p z).
Proof. induction ns as [|node ns IH]; intros n p z; cbn [Request.find_loop]; modular. Qed.
Hint Resolve find_loop_mod : modular.
Lemma find_valid_mod : T _ (find_valid_result plugins).
Proof. unfold find_valid_result. modular. Qed.
Lemma internally_mod : T _ (handle_internally plugins).
Proof. unfold handle_internally. modular. Qed.
Lemma pick_code_mod e : T _ (pick_code (W := W) e).
Proof. unfold pick_code, ctx_is_allowed_to_fail. modular. Qed.
Hint Resolve find_valid_mod internally_mod pick_code_mod : modular.
Lemma select_nodes_mod : T _ (select_nodes plugins).
Proof. unfold select_nodes. modular. Qed.
Hint Resolve select_nodes_mod : modular.
Lemma execute_sign_mod : T _ (execute_sign (W := W)).
Proof. unfold execute_sign. modular. Qed.
Lemma allowed_to_fail_mod : T _ (ctx_is_allowed_to_fail (W := W)).
Proof. unfold ctx_is_allowed_to_fail. modular. Qed.
Hint Resolve execute_sign_mod allowed_to_fail_mod : modular.

(** ** Whole executions, for properties of any step on a request *)
Context (Hupd : forall f, keeps_signers f -> T unit (upd f)) (Hfuel : forall A, T A (fun _ => NoFuel)) (Hrequired : forall A (m : M (state W) A), T A m -> T A (on_required m)).
Lemma response_free_mod : T _ (response_free (W := W)).
Proof. unfold response_free. modular. apply Hupd. keeps. Qed.
Hint Resolve response_free_mod : modular.
Lemma next_attempt_mod max_attempts again ret : T _ again -> T _ (next_attempt plugins max_attempts again ret).
Proof. intros Hagain. unfold next_attempt. modular; apply Hupd; keeps. Qed.
Hint Resolve next_attempt_mod : modular.
Lemma execute_rpc_mod max_attempts again : T _ again -> T _ (execute_rpc plugins max_attempts again).
Proof. intros Hagain. unfold execute_rpc. modular. Qed.
Lemma execute_mod max_attempts f : T _ (in3_req_execute plugins max_attempts f).
Proof. induction f as [|f IH]; cbn [in3_req_execute]; [apply Hfuel|]. pose proof (execute_rpc_mod max_attempts _ IH). pose proof (Hrequired _ _ IH). modular. Qed.
End Functions.
