(* ===== verification/ReqSafety.v ===== *)
(** * Requests: what an accepted request means

    The theorems about [Request.in3_req_execute], proved against a contract of the plugins
    ([plugin_contract]): what each action may change in the request. *)
From S2P Require Import Prelude Utils Bytes Data Json JsonVal ReqState Request ReqFrame.
From stdpp Require Import strings.
#[local] Open Scope Z_scope.

(** ** Partial correctness of steps

    An invariant of the client, and the signers a request may ask, can be assumed before a step and
    hold after it. *)
Class RequestInv := { client_inv : in3_t -> Prop; asked : list (list Z) -> Prop }.
Definition signers_ok `{RI : RequestInv} (r : in3_req_t) : Prop := signers r = [] \/ asked (signers r).
Definition state_inv `{RI : RequestInv} {W} (s : state W) : Prop := client_inv (client s) /\ signers_ok (self s) /\ Forall signers_ok (required s).
Section Wp.
Context `{RI : RequestInv} {W : Type}.
Implicit Types s : state W.
Definition wp {A} (m : M (state W) A) (Q : A -> state W -> Prop) s : Prop :=
  state_inv s -> match m s with Ok a s' => state_inv s' /\ Q a s' | _ => True end.
Lemma wp_bind {A B} (m : M (state W) A) (k : A -> M (state W) B) Q s : wp m (fun a => wp (k a) Q) s -> wp (m ≫= k) Q s.
Proof. unfold wp, mbind, M_bind. intros Hm Hi. specialize (Hm Hi). destruct (m s) as [a s'| | |]; [|done..]. destruct Hm as [Hi' Hk]. by apply Hk. Qed.
Lemma wp_mono {A} (m : M (state W) A) (Q R : A -> state W -> Prop) s : wp m Q s -> (forall a s', Q a s' -> R a s') -> wp m R s.
Proof. unfold wp. intros Hm HR Hi. specialize (Hm Hi). destruct (m s); [|done..]. destruct Hm. auto. Qed.
Lemma wp_ret {A} (a : A) Q s : Q a s -> wp (mret a) Q s.
Proof. done. Qed.
Lemma wp_undef {A} Q s : wp (A := A) undef Q s.
Proof. by intros ?. Qed.
Lemma wp_defined {A} (o : option A) Q s : (forall a, o = Some a -> Q a s) -> wp (defined o) Q s.
Proof. destruct o as [a|]; [|intros _ ?; done]. intros Ha. intros Hi. split; [done|]. by apply Ha. Qed.
Lemma wp_gets {A} (f : state W -> A) Q s : Q (f s) s -> wp (gets f) Q s.
Proof. done. Qed.
Lemma wp_upd f Q s : keeps_signers f -> Q tt (on_self f s) -> wp (upd f) Q s.
Proof. intros Hf HQ (Hc & Hs & Hr). split; [|done]. split; [done|]. split; [|done]. unfold signers_ok in *. cbn. destruct (Hf (self s)) as [-> | ->]; auto. Qed.
Lemma wp_field {A} (f : in3_req_t -> A) Q s : Q (f (self s)) s -> wp (field f) Q s.
Proof. done. Qed.
Lemma wp_inv {A} (m : M (state W) A) Q s : (state_inv s -> wp m Q s) -> wp m Q s.
Proof. intros Hm Hi. by apply Hm. Qed.
(** What a run that has ended left behind. *)
Lemma wp_ok {A} (m : M (state W) A) Q s a s' : wp m Q s -> state_inv s -> m s = Ok a s' -> Q a s'.
Proof. intros Hm Hi E. specialize (Hm Hi). rewrite E in Hm. by destruct Hm. Qed.
End Wp.
Ltac wp_step :=
  lazymatch goal with
  | |- wp (_ ≫= _) _ _ => apply wp_bind
  | |- wp (mret _) _ _ => apply wp_ret
  | |- wp (upd _) _ _ => apply wp_upd; [keeps|]
  | |- wp (field _) _ _ => apply wp_field
  | |- wp (gets _) _ _ => apply wp_gets
  | |- wp (defined _) _ _ => apply wp_defined; intros ? ?
  | |- wp undef _ _ => apply wp_undef
  end; cbn beta.
Ltac wp_run := repeat wp_step.

(** ** The contract of the plugins *)

(** The answer of a request: what the caller reads, and the data it is checked against. *)
Record same_answer (r r' : in3_req_t) : Prop := {
  sa_type : r_type r' = r_type r; sa_requests : requests r' = requests r; sa_responses : responses r' = responses r; sa_context : response_context r' = response_context r;
  sa_nodes : nodes r' = nodes r; sa_signers : signers r' = signers r; sa_state : verification_state r' = verification_state r }.
(** The same but for the state of the verification. *)
Record same_data (r r' : in3_req_t) : Prop := {
  sd_type : r_type r' = r_type r; sd_requests : requests r' = requests r; sd_responses : responses r' = responses r; sd_context : response_context r' = response_context r; sd_nodes : nodes r' = nodes r; sd_signers : signers r' = signers r }.
#[global] Instance same_data_preorder : PreOrder same_data.
Proof. split; [by intros r|]. intros a b c [] []. split; congruence. Qed.
Lemma same_answer_data r r' : same_answer r r' -> same_data r r'.
Proof. by intros []. Qed.
#[global] Instance same_answer_preorder : PreOrder same_answer.
Proof. split; [by intros r|]. intros a b c [] []. split; congruence. Qed.

(** A plugin is called for the actions it registered, in a state with the invariant. *)
Definition acts_as {W} `{RI : RequestInv} (p : in3_plugin_t W) act c (s : state W) r c' s' : Prop := state_inv s /\ handles p act = true /\ action_fn p act c s = Ok (r, c') s'.
Definition quiet_actions : list Z := [PLGN_ACT_LOG_ERROR; PLGN_ACT_NL_BLACKLIST; PLGN_ACT_NL_PICK_FOLLOWUP; PLGN_ACT_NL_FAILABLE; PLGN_ACT_NL_OFFLINE; PLGN_ACT_GET_DATA].
(** What an action may do to the answer of a request: reporting, blacklisting, following up and handling of failures change nothing;
    answering and picking nodes leave the response; a payment that waits for something does not make
    the verification succeed, and in a bulk, where the response before may have been accepted, it has
    dropped the response;
    a verifier that accepts has checked [valid]; a plugin that does not handle the action, or asks for a retry, changes nothing. *)
Record plugin_contract {W} `{RI : RequestInv} (valid : list (list Z) -> in3_vctx_t -> Prop) (p : in3_plugin_t W) : Prop := {
  pc_requests act c s r c' s' : acts_as p act c s r c' s' -> requests (self s') = requests (self s) /\ r_type (self s') = r_type (self s);
  pc_pass act c s r c' s' : acts_as p act c s r c' s' -> r = IN3_EIGNORE \/ r = IN3_ERETRY -> c' = c /\ same_answer (self s) (self s');
  pc_quiet act c s r c' s' : acts_as p act c s r c' s' ->
    act ∈ quiet_actions -> same_answer (self s) (self s');
  pc_prepare act c s r c' s' : acts_as p act c s r c' s' -> act ∈ [PLGN_ACT_RPC_HANDLE; PLGN_ACT_NL_PICK; PLGN_ACT_PAY_PREPARE] ->
    response_context (self s') = response_context (self s) /\
    (verification_state (self s') = verification_state (self s) \/ verification_state (self s') <> IN3_OK);
  pc_pay c s r c' s' : acts_as p PLGN_ACT_PAY_FOLLOWUP c s r c' s' ->
    (r = IN3_OK -> same_answer (self s) (self s')) /\
    (r = IN3_WAITING -> (verification_state (self s') = verification_state (self s) \/ verification_state (self s') <> IN3_OK) /\ ((1 < r_len (self s))%nat -> response_context (self s') = Null));
  pc_inv act c s r c' s' : acts_as p act c s r c' s' -> state_inv s';
  pc_verify vc s r c' s' : acts_as p PLGN_ACT_RPC_VERIFY (C_verify vc) s r c' s' -> default [] (requests (self s)) !! vc_index vc = Some (vc_request vc) -> r = IN3_OK -> valid (signers (self s)) vc /\ same_data (self s) (self s') }.

Lemma same_data_vstate x r : same_data r (set_vstate x r).
Proof. done. Qed.
Section Safety.
Context `{SourceText} {W : Type} (plugins : list (in3_plugin_t W)) (max_attempts : Z) `{RI : RequestInv} (valid : list (list Z) -> in3_vctx_t -> Prop).
Context (Hnew : forall c ch, verified_hashes ch = None -> client_inv c -> client_inv (set_chains (chains c ++ [ch]) c)).
Context (Hplugins : Forall (plugin_contract valid) plugins).
Implicit Types (s : state W) (r : in3_req_t).

Definition keeps s s' : Prop := same_answer (self s) (self s').
#[local] Instance keeps_preorder : PreOrder keeps.
Proof. split; [intros s; unfold keeps; reflexivity|]. intros a b c H1 H2. unfold keeps in *. by etrans. Qed.

(** A pass over the plugins ends without a handler, or with the result of one of them. *)
Lemma pass_spec act : forall ps c s, Forall (plugin_contract valid) ps -> wp (plugin_pass ps act c) (fun rc s' =>
  match rc.1 with
  | None => rc.2 = c /\ keeps s s'
  | Some r => r <> IN3_EIGNORE /\ exists p s1, plugin_contract valid p /\ keeps s s1 /\ acts_as p act c s1 r rc.2 s'
  end) s.
Proof.
  induction ps as [|p ps IH]; intros c s Hps; cbn [plugin_pass]; [wp_run; by split|]. inversion Hps as [|? ? Hp Hps']; subst.
  destruct (handles p act) eqn:Hh; [|by apply IH]. apply wp_bind. unfold wp at 1. intros Hi. destruct (action_fn p act c s) as [[r c'] s1| | |] eqn:E; [|done..]. assert (acts_as p act c s r c' s1) as Ha by done. split; [by eapply (pc_inv _ _ Hp)|]. cbn [fst snd].
  destruct (Z.eqb_spec r IN3_EIGNORE) as [->|Hr].
  - destruct (pc_pass _ _ Hp _ _ _ _ _ _ Ha) as [-> Hk]; [by left|]. eapply wp_mono; [by apply IH|]. intros [[r|] c2] s2; cbn.
    + intros (Hr & p' & s3 & Hp' & Hk' & Ea). split; [done|]. exists p', s3. split_and!; [done|by etrans|done].
    + intros [-> Hk']. split; [done|by etrans].
  - wp_run. cbn. split; [done|]. by exists p, s.
Qed.

(** A call of a plugin for [act] from a state with the same answer. *)
Definition called act c s (rc : Z * plg_ctx) s' : Prop := exists p s1, plugin_contract valid p /\ keeps s s1 /\ acts_as p act c s1 rc.1 rc.2 s'.
(** An error was reported. *)
Definition reported (e : Z) s s' : Prop := verification_state (self s') = e /\ same_data (self s) (self s').
Lemma first_or_none_spec report act : (forall m e s, wp (report m e) (fun e' s' => e' = e /\ (e <> IN3_OK -> e <> IN3_WAITING -> reported e s s')) s) ->
  forall n c s, wp (first_or_none plugins report n act c) (fun rc s' =>
    rc = (IN3_OK, c) /\ keeps s s' \/ called act c s rc s' \/ rc.1 = IN3_EUNKNOWN /\ reported IN3_EUNKNOWN s s') s.
Proof.
  intros Hrep. induction n as [|n IH]; intros c s; cbn [first_or_none]; apply wp_bind; (eapply wp_mono; [by apply pass_spec|]); intros [[r|] c'] s'; cbn [fst snd].
  2,4: intros [-> Hk]; wp_run; by left.
  - intros (_ & p & s1 & Hp & Hk & Ea). destruct (Z.eqb_spec r IN3_ERETRY) as [->|].
    + destruct (pc_pass _ _ Hp _ _ _ _ _ _ Ea) as [-> Hk']; [by right|]. apply wp_bind. eapply wp_mono; [apply Hrep|]. intros e s2 [-> Hr]. destruct (Hr ltac:(done) ltac:(done)) as [Hv Hd].
      wp_run. right. right. split; [done|]. split; [done|]. etrans; [apply same_answer_data; exact Hk|]. etrans; [apply same_answer_data; exact Hk'|done].
    + wp_run. right. left. by exists p, s1.
  - intros (_ & p & s1 & Hp & Hk & Ea). destruct (Z.eqb_spec r IN3_ERETRY) as [->|].
    + destruct (pc_pass _ _ Hp _ _ _ _ _ _ Ea) as [-> Hk']; [by right|]. eapply wp_mono; [apply IH|]. assert (keeps s s') as Hs by (by etrans).
      intros rc s2 [[-> Hk2]|[(p2 & s3 & Hp2 & Hk2 & E2)|[E2 [Hv Hd]]]].
      * left. split; [done|by etrans].
      * right. left. exists p2, s3. split_and!; [done|by etrans|done].
      * right. right. split; [done|]. split; [done|]. etrans; [apply same_answer_data; exact Hs|done].
    + wp_run. right. left. by exists p, s1.
Qed.
Lemma set_error_spec fuel : forall m e s, wp (set_error_intern plugins fuel m e) (fun e' s' => e' = e /\ (e = IN3_OK \/ e = IN3_WAITING -> s' = s) /\ (e <> IN3_OK -> e <> IN3_WAITING -> reported e s s')) s.
Proof.
  induction fuel as [|f IH]; intros m e s; cbn [set_error_intern].
  all: destruct (Z.eqb_spec e IN3_WAITING) as [->|Hw]; cbn [orb]; [wp_run; by split_and!|].
  all: destruct (Z.eqb_spec e IN3_OK) as [->|Ho]; cbn [orb]; [wp_run; by split_and!|].
  all: destruct m as [m|]; wp_run.
  2: { split_and!; [done|by intros [|]|]. intros _ _. split; [done|]. cbn. destruct (r_error (self s)); by split. }
  3: { split_and!; [done|by intros [|]|]. intros _ _. split; [done|]. cbn. destruct (r_error (self s)); by split. }
  - done.
  - destruct (in3_plugin_is_registered plugins PLGN_ACT_LOG_ERROR).
    + wp_run. eapply wp_mono; [apply first_or_none_spec|].
      { intros m' e' s0. eapply wp_mono; [apply IH|]. intros e2 s2 (-> & _ & Hr). by split. }
      intros rc s' Hrc. wp_run. split_and!; [done|by intros [|]|]. intros _ _. split; [done|]. etrans; [|exact (same_data_vstate e (self s'))].
      match goal with _ : context [on_self ?f s] |- _ => assert (same_data (self s) (self (on_self f s))) as H0 by done end. etrans; [exact H0|]. clear H0.
      destruct Hrc as [[_ Hk]|[(p & s1 & Hp & Hk & Ea)|[_ [_ Hd]]]]; [by apply same_answer_data in Hk| |done].
      destruct rc as [r c']. apply same_answer_data in Hk. etrans; [exact Hk|]. apply same_answer_data. apply (pc_quiet _ _ Hp _ _ _ _ _ _ Ea). decide_now.
    + wp_run. by split_and!; [|intros [|]|].
Qed.

(** The data is kept, and the state of the verification does not become IN3_OK. *)
Definition worse s s' : Prop := same_data (self s) (self s') /\ (verification_state (self s') = verification_state (self s) \/ verification_state (self s') <> IN3_OK).
#[local] Instance worse_preorder : PreOrder worse.
Proof.
  split; [intros s; split; [reflexivity|by left]|]. intros a b c [H1 H2] [H3 H4]. split; [by etrans|]. destruct H2 as [H2|H2], H4 as [H4|H4]; rewrite ?H4, ?H2; auto.
Qed.
Lemma keeps_worse s s' : keeps s s' -> worse s s'.
Proof. intros Hk. split; [by apply same_answer_data|left; apply Hk]. Qed.
Lemma reported_worse e s s' : reported e s s' -> e <> IN3_OK -> worse s s'.
Proof. intros [Hv Hd] He. split; [done|]. right. by rewrite Hv. Qed.

Lemma report_spec m e s : e <> IN3_OK -> e <> IN3_WAITING -> wp (req_set_error plugins m e) (fun e' s' => e' = e /\ reported e s s') s.
Proof. intros H1 H2. eapply wp_mono; [apply set_error_spec|]. intros e' s' (-> & _ & Hr). split; [done|]. by apply Hr. Qed.
Lemma execute_first_spec act c s : wp (in3_plugin_execute_first plugins act c) (fun rc s' => called act c s rc s' \/ rc.1 = IN3_EPLGN_NONE /\ reported IN3_EPLGN_NONE s s') s.
Proof.
  unfold in3_plugin_execute_first. apply wp_bind. eapply wp_mono; [by apply pass_spec|]. intros [[r|] c'] s'; cbn [fst snd].
  - intros (_ & Hc). wp_run. by left.
  - intros [-> Hk]. wp_run. eapply wp_mono; [by apply report_spec|]. intros e s2 [-> [Hv Hd]]. wp_run. right. split; [done|]. split; [done|]. etrans; [by apply same_answer_data|done].
Qed.
Lemma execute_or_none_spec act c s : wp (in3_plugin_execute_first_or_none plugins act c) (fun rc s' =>
  rc = (IN3_OK, c) /\ keeps s s' \/ called act c s rc s' \/ rc.1 = IN3_EUNKNOWN /\ reported IN3_EUNKNOWN s s') s.
Proof.
  unfold in3_plugin_execute_first_or_none. destruct (in3_plugin_is_registered plugins act).
  - apply first_or_none_spec. intros m e s0. eapply wp_mono; [apply set_error_spec|]. intros e' s' (-> & _ & Hr). by split.
  - wp_run. left. by split.
Qed.
Lemma called_quiet act c s rc s' : called act c s rc s' -> act ∈ quiet_actions -> keeps s s'.
Proof. intros (p & s1 & Hp & Hk & Ea) Hact. destruct rc as [r c']. etrans; [exact Hk|]. by apply (pc_quiet _ _ Hp _ _ _ _ _ _ Ea). Qed.
Lemma blacklist_spec node s : wp (blacklist plugins node) (fun _ s' => worse s s') s.
Proof.
  unfold blacklist. wp_run. eapply wp_mono; [apply execute_first_spec|]. intros rc s' [Hc|[_ Hr]]; wp_run.
  - apply keeps_worse. eapply called_quiet; [exact Hc|decide_now].
  - by eapply reported_worse.
Qed.
Lemma set_raw_at_keeps n x s : wp (set_raw_at n x) (fun _ s' => keeps s s') s.
Proof. unfold set_raw_at. wp_run. done. Qed.
Lemma clear_response_keeps n s : wp (clear_response n) (fun _ s' => keeps s s') s.
Proof. unfold clear_response, raw_at. wp_run. destruct (rs_data _); [apply set_raw_at_keeps|wp_run; reflexivity]. Qed.

(** ** What a verified answer is *)

(** A single response: its result was accepted by the verifier for this request, or it has no
    result and its error is the user's. *)
Definition response_ok (sgs : list (list Z)) (request response : jval) : Prop :=
  match jget (Some response) K_RESULT with
  | Some result => exists vc, vc_request vc = request /\ vc_method vc = d_get_string (Some request) K_METHOD /\ vc_result vc = Some result /\ vc_proof vc = jget (jget (Some response) K_IN3) K_PROOF /\ valid sgs vc
  | None => fst (is_user_error (jget (Some response) K_ERROR)) = true
  end.
(** All responses, if nodes were asked for them. *)
Definition accepted r : Prop :=
  exists v l, response_context r = Live v /\ responses r = Live l /\ (nodes r = [] \/ Forall2 (response_ok (signers r)) (default [] (requests r)) l).
Definition open r : Prop := response_context r = Null /\ (1 < r_len r)%nat \/ verification_state r <> IN3_OK.
(** Before a response is verified: only in a bulk the one before may have been accepted. *)
Definition fresh r : Prop := (1 < r_len r)%nat \/ verification_state r <> IN3_OK.
Lemma open_fresh r : open r -> fresh r.
Proof. intros [[_ ?]|?]; [by left|by right]. Qed.
Lemma same_len r r' : requests r' = requests r -> r_len r' = r_len r.
Proof. unfold r_len. by intros ->. Qed.
Lemma open_worse s s' : worse s s' -> open (self s) -> open (self s').
Proof. intros [[_ Hq ? ? ?] Hv] [[Ho Hl]|Ho]; [left; rewrite (same_len _ _ Hq); split; [congruence|done]|]. right. destruct Hv as [Hv|Hv]; [by rewrite Hv|done]. Qed.

(** The requests themselves never change. *)
Definition same_requests s s' : Prop := requests (self s') = requests (self s) /\ r_type (self s') = r_type (self s).
#[local] Instance same_requests_preorder : PreOrder same_requests.
Proof. split; [by intros s|]. intros a b c [] []. unfold same_requests. split; congruence. Qed.
Lemma same_data_requests s s' : same_data (self s) (self s') -> same_requests s s'.
Proof. by intros []. Qed.
Lemma called_requests act c s rc s' : called act c s rc s' -> same_requests s s'.
Proof. intros (p & s1 & Hp & Hk & Ea). destruct rc as [x c']. etrans; [apply same_data_requests, same_answer_data; exact Hk|exact (pc_requests _ _ Hp _ _ _ _ _ _ Ea)]. Qed.
Lemma worse_requests s s' : worse s s' -> same_requests s s'.
Proof. intros [Hd _]. by apply same_data_requests. Qed.
Lemma handle_payment_spec node in3 i s : wp (handle_payment plugins node in3 i) (fun res s' => same_requests s s' /\
  (res = IN3_OK -> keeps s s') /\ (res = IN3_WAITING -> fresh (self s) -> open (self s')) /\ (res <> IN3_OK -> res <> IN3_WAITING -> verification_state (self s') = res)) s.
Proof.
  unfold handle_payment, response_at. wp_run. destruct (response_context (self s)), (responses (self s)); wp_run; try done.
  eapply wp_mono; [apply execute_or_none_spec|]. intros rc s1 Hrc. eapply wp_mono; [apply set_error_spec|]. intros res s2 (-> & Hsame & Hrep).
  assert (rc.1 <> IN3_OK -> rc.1 <> IN3_WAITING -> verification_state (self s2) = rc.1) as Hv by (intros H1 H2; by apply Hrep).
  assert (same_requests s1 s2) as Hq2.
  { destruct (decide (rc.1 = IN3_OK)) as [E|H1]; [rewrite Hsame by auto; reflexivity|]. destruct (decide (rc.1 = IN3_WAITING)) as [E|H2]; [rewrite Hsame by auto; reflexivity|]. apply same_data_requests. apply Hrep; done. }
  assert (same_requests s s1) as Hq1.
  { destruct Hrc as [[_ Hk]|[Hc|[_ [_ Hd]]]]; [by apply same_data_requests, same_answer_data|by eapply called_requests|by apply same_data_requests]. }
  split; [by etrans|]. destruct Hrc as [[-> Hk]|[(p & s0 & Hp & Hk & Ea)|[Hr _]]].
  - rewrite Hsame in * by auto. by split_and!.
  - destruct rc as [r c']. cbn [fst] in *. destruct (pc_pay _ _ Hp _ _ _ _ _ Ea) as [P1 P2]. split_and!; [| |done].
    2: { intros -> Hf. rewrite Hsame by auto. destruct (P2 eq_refl) as [Pv Pn]. rewrite (same_len _ _ (sa_requests _ _ Hk)), (sa_state _ _ Hk) in *.
      destruct Hf as [Hl|Hf]; [left; split; [auto|by rewrite (same_len _ _ (proj1 Hq1))]|right; destruct Pv as [->|]; done]. }
    intros ->. rewrite Hsame by auto. etrans; [exact Hk|by apply P1].
  - rewrite Hr in *. split_and!; [done|done|exact Hv].
Qed.
Lemma reject_spec node n res db s : res <> IN3_OK -> verification_state (self s) = res -> wp (reject_response plugins node n res db) (fun e s' => e = res /\ open (self s') /\ same_requests s s') s.
Proof.
  intros He Hv. unfold reject_response. wp_run.
  assert (forall s1, keeps s s1 -> wp (if db then mret tt else blacklist plugins node ;; mret tt) (fun _ => wp (mret res) (fun e s' => e = res /\ open (self s') /\ same_requests s s')) s1) as Hrest.
  { intros s1 Hk. assert (open (self s1)) as Ho by (right; rewrite (sa_state _ _ Hk); congruence). assert (same_requests s s1) as Hq by (by apply same_data_requests, same_answer_data). destruct db; wp_run; [done|]. eapply wp_mono; [apply blacklist_spec|].
    intros ? s2 Hw. cbn beta in Hw. wp_run. split; [done|]. split; [by eapply open_worse|]. etrans; [exact Hq|by apply worse_requests]. }
  destruct (r_error (self s)); [|wp_run; apply Hrest; reflexivity]. unfold raw_at. wp_run. destruct (rs_data _); [|wp_run; apply Hrest; reflexivity].
  eapply wp_mono; [apply set_raw_at_keeps|]. intros ? s1 Hk. apply wp_bind. by apply Hrest.
Qed.

(** One response of a bulk. *)
Definition live s v l : Prop := response_context (self s) = Live v /\ responses (self s) = Live l.
(** A round either leaves with the request open, or has checked the response. *)
Definition round_post (i : nat) (l : list jval) s (x : Z + unit) s' : Prop :=
  match x with
  | inl e => e <> IN3_OK /\ open (self s') /\ same_requests s s'
  | inr _ => same_data (self s) (self s') /\ exists q y, default [] (requests (self s)) !! i = Some q /\ l !! i = Some y /\ response_ok (signers (self s)) q y
  end.
Lemma judge_spec vc node n i res v l q y s s1 : live s v l -> default [] (requests (self s)) !! i = Some q -> l !! i = Some y -> vc_index vc = i ->
  vc_request vc = q -> vc_method vc = d_get_string (Some q) K_METHOD -> vc_result vc = jget (Some y) K_RESULT -> vc_proof vc = jget (jget (Some y) K_IN3) K_PROOF -> same_requests s s1 ->
  (res = IN3_OK -> keeps s s1) -> (res = IN3_WAITING -> open (self s1)) -> (res <> IN3_OK -> res <> IN3_WAITING -> verification_state (self s1) = res) ->
  wp (judge_response plugins vc node n i res) (round_post i l s) s1.
Proof.
  intros [Hc Hl] Eq Ey Hidx Hq Hme Hr Hp Hs1 Hok Hwait Herr. unfold judge_response. destruct (Z.eqb_spec res IN3_OK) as [->|Hres]; cbn [andb].
  - specialize (Hok eq_refl). destruct (vc_result vc) as [result|] eqn:Er.
    + wp_run. eapply wp_mono; [apply execute_first_spec|]. intros [r c'] s2 Hcall. wp_run. cbn [fst snd].
      assert (same_requests s s2) as Hs2. { etrans; [exact Hs1|]. destruct Hcall as [Hcall|[_ [_ Hd]]]; [by eapply called_requests|by apply same_data_requests]. }
      assert (r <> IN3_OK -> open (self (on_self (set_vstate r) s2))) as Hopen by (intros ?; by right).
      destruct (Z.eqb_spec r IN3_WAITING) as [->|]; [wp_run; split_and!; [done|by apply Hopen|done]|]. destruct (Z.eqb_spec r IN3_OK) as [->|Hr0].
      * wp_run. destruct Hcall as [(p & s3 & Hp3 & Hk3 & Ea)|[[=] _]]. cbn [fst snd] in Ea.
        destruct (pc_verify _ _ Hp3 _ _ _ _ _ Ea) as [Hv Hk4]; [rewrite (sa_requests _ _ Hk3), (sa_requests _ _ Hok); congruence|done|]. split.
        -- etrans; [|apply same_data_vstate]. etrans; [apply same_answer_data; exact Hok|]. etrans; [apply same_answer_data; exact Hk3|exact Hk4].
        -- exists q, y. split_and!; [done|done|]. unfold response_ok. rewrite <- Hr. exists vc. rewrite Er. rewrite (sa_signers _ _ Hk3), (sa_signers _ _ Hok) in Hv. by split_and!.
      * wp_run. eapply wp_mono; [by apply reject_spec|]. intros e s4 (-> & Ho & Hs4). wp_run. split_and!; [done|done|]. etrans; [exact Hs2|exact Hs4].
    + unfold response_at. wp_run. rewrite (sa_context _ _ Hok), (sa_responses _ _ Hok), Hc, Hl. wp_run. match goal with |- context [is_user_error (jget (Some ?z) _)] => assert (z = y) as -> by congruence end.
      destruct (is_user_error _) as [[] msg] eqn:Eu; cbn [fst snd]; wp_run.
      * split; [by apply same_answer_data|]. exists q, y. split_and!; [done|done|]. unfold response_ok. rewrite <- Hr. by rewrite Eu.
      * eapply wp_mono; [apply blacklist_spec|]. intros ? s2 Hw2. cbn beta in Hw2. wp_run. eapply wp_mono; [by apply report_spec|]. intros e s3 [-> [Hv Hd]]. wp_run. split_and!; [done|right; by rewrite Hv|].
        etrans; [exact Hs1|]. etrans; [by apply worse_requests|by apply same_data_requests].
  - wp_run. cbn [fst snd]. destruct (Z.eqb_spec res IN3_WAITING) as [->|Hw]; [wp_run; split_and!; [done|by apply Hwait|done]|].
    rewrite (proj2 (Z.eqb_neq _ _) Hres). wp_run. eapply wp_mono; [apply reject_spec; [done|by apply Herr]|]. intros e s4 (-> & Ho & Hs4). wp_run. split_and!; [done|done|by etrans].
Qed.
Lemma verify_one_spec chain node n i v l s : live s v l -> fresh (self s) -> wp (verify_one plugins chain node n i) (round_post i l s) s.
Proof.
  intros [Hc Hl] Hf. unfold verify_one. apply wp_bind. wp_run. match goal with E : default [] _ !! i = Some ?a |- _ => rename a into q; rename E into Eq end.
  unfold response_at at 1. wp_run. rewrite Hc, Hl. wp_run. match goal with E : l !! i = Some ?a |- _ => rename a into y; rename E into Ey end.
  eapply wp_mono; [apply handle_payment_spec|]. intros res s1 (Hs1 & Hok & Hwait & Herr). destruct (jget (Some y) K_IN3) as [t|] eqn:E3.
  - unfold response_at. wp_run. destruct (response_context (self s1)) eqn:Ec1, (responses (self s1)); wp_run; try done. eapply (judge_spec _ _ _ _ _ v l q y); try done; [by rewrite E3|auto].
  - eapply (judge_spec _ _ _ _ _ v l q y); try done; [by rewrite E3|auto].
Qed.
Lemma verify_all_spec chain node n v l : forall idx s, live s v l -> (idx = [] \/ 1 < r_len (self s) \/ verification_state (self s) <> IN3_OK /\ length idx = 1)%nat -> wp (verify_all plugins chain node n idx) (fun x s' =>
  match x with
  | inl e => e <> IN3_OK /\ open (self s') /\ same_requests s s'
  | inr _ => same_data (self s) (self s') /\ Forall (fun i => exists q y, default [] (requests (self s)) !! i = Some q /\ l !! i = Some y /\ response_ok (signers (self s)) q y) idx
  end) s.
Proof.
  induction idx as [|i idx IH]; intros s Hl Hf; cbn [verify_all]; [wp_run; split; [reflexivity|constructor]|]. apply wp_bind.
  eapply wp_mono; [apply (verify_one_spec chain node n i v l); [done|destruct Hf as [[=]|[?|[? _]]]; [by left|by right]]|].
  intros [e|u] s1; cbn [round_post]; [intros Hx; by wp_run|]. intros [Hd Hi]. assert (live s1 v l) as Hl1. { destruct Hl, Hd. split; congruence. }
  eapply wp_mono; [apply IH; [done|]; rewrite (same_len _ _ (sd_requests _ _ Hd)); destruct Hf as [[=]|[?|[_ Hone]]]; [auto|left; by destruct idx]|].
  intros [e|u'] s2; [intros (? & ? & ?); split_and!; [done|done|]; etrans; [by apply same_data_requests|done]|]. intros [Hd2 Hall]. split; [by etrans|]. constructor; [done|]. by rewrite (sd_requests _ _ Hd), (sd_signers _ _ Hd) in Hall.
Qed.

(** ** Parsing and verifying a response *)
Lemma doc_keeps x s : wp (doc x) (fun _ s' => s' = s) s.
Proof. destruct x as [[ctx|] u|e u| |]; cbn [doc]; wp_run; done. Qed.
Lemma message_keeps x s : wp (message x) (fun _ s' => s' = s) s.
Proof. by destruct x. Qed.
Lemma raw_http_spec s : wp is_raw_http (fun b s' => s' = s /\ (b = true -> nodes (self s) = [])) s.
Proof. unfold is_raw_http. wp_run. destruct (nodes (self s)) eqn:E; [|by wp_run]. unfold request0. wp_run. done. Qed.
Definition same_request s s' : Prop := same_requests s s' /\ nodes (self s') = nodes (self s).
Lemma same_data_request s s' : same_data (self s) (self s') -> same_request s s'.
Proof. intros Hd. split; [by apply same_data_requests|apply Hd]. Qed.
#[local] Instance same_request_preorder : PreOrder same_request.
Proof. split; [by intros s|]. intros a b c [] []. split; [by etrans|congruence]. Qed.

Definition parsed_post s (e : Z) s' : Prop := same_request s s' /\
  (e = IN3_OK -> verification_state (self s') = verification_state (self s) /\ exists v l, live s' v l /\ (nodes (self s) = [] \/ length l = r_len (self s))) /\ (e <> IN3_OK -> verification_state (self s') <> IN3_OK).
Lemma parsed_report m e s s1 : e <> IN3_OK -> e <> IN3_WAITING -> same_request s s1 -> wp (req_set_error plugins m e) (parsed_post s) s1.
Proof.
  intros H1 H2 Hs. eapply wp_mono; [by apply report_spec|]. intros e' s' [-> [Hv Hd]]. split; [etrans; [exact Hs|by apply same_data_request]|]. split; [done|]. by rewrite Hv.
Qed.
Lemma parse_spec data s : wp (ctx_parse_response plugins data) (parsed_post s) s.
Proof.
  unfold ctx_parse_response. apply wp_bind. eapply wp_mono; [apply raw_http_spec|]. intros raw ? [-> Hraw]. destruct raw.
  - apply wp_bind. eapply (wp_mono _ (fun _ s' => s' = s)); [destruct (is_json_text data); [apply doc_keeps|by wp_run]|]. intros v ? ->. wp_run. split; [done|]. split; [|done].
    intros _. split; [done|]. eexists _, _. split; [done|]. left. by apply Hraw.
  - apply wp_bind. eapply (wp_mono _ (fun _ s' => s' = s)); [destruct (is_json_text data); apply doc_keeps|]. intros v ? ->. wp_run. set (s1 := on_self _ s).
    assert (same_request s s1) as Hs1 by done. destruct v as [v|]; [destruct v as [l|l|vs|kvs|b|k| ]|]; try (by apply parsed_report).
    + cbn [self on_self]. destruct (Nat.eqb_spec (length vs) (r_len (self s1))) as [El|]; [|by apply parsed_report]. wp_run. split; [done|]. split; [|done]. intros _. split; [done|]. eexists _, _. split; [done|]. by right.
    + wp_run. destruct (Nat.eqb_spec (r_len (self s1)) 1) as [El|]; [|by apply parsed_report]. wp_run. split; [done|]. split; [|done]. intros _. split; [done|]. eexists _, _. split; [done|]. right. cbn. symmetry. exact El.
    + apply wp_bind. eapply (wp_mono _ (fun _ s' => s' = s1)); [destruct (is_json_text data); [apply message_keeps|by wp_run]|]. intros err ? ->. wp_run.
      eapply wp_mono; [by apply report_spec|]. intros e s2 [-> [Hv Hd]]. wp_run. eapply wp_mono; [by apply report_spec|]. intros e s3 [-> [Hv3 Hd3]]. wp_run.
      split; [|split; [done|by rewrite Hv3]]. etrans; [exact Hs1|]. etrans; apply same_data_request; eassumption.
Qed.
Lemma clean_up_request s : wp clean_up_ctx (fun _ s' => same_request s s' /\ (verification_state (self s) <> IN3_OK -> verification_state (self s') <> IN3_OK)) s.
Proof. unfold clean_up_ctx, free. wp_run. destruct (responses _); wp_run; try done; destruct (response_context _); wp_run; try done;
  unfold same_request, same_requests; cbn; destruct (Z.eqb_spec (verification_state (self s)) IN3_OK), (Z.eqb_spec (verification_state (self s)) IN3_WAITING); done. Qed.

Definition node_of s (node : option node_match_t) : Prop := node = None -> nodes (self s) = [].
Definition verdict s (e : Z) s' : Prop := same_requests s s' /\ (e = IN3_OK -> accepted (self s')) /\ (e <> IN3_OK -> open (self s')).
Lemma error_response_spec node n s : wp (handle_error_response plugins node n) (verdict s) s.
Proof.
  unfold handle_error_response, raw_at. wp_run. eapply wp_mono; [by apply report_spec|]. intros e s1 [-> [Hv Hd]].
  assert (forall s2, worse s1 s2 -> verdict s IN3_ERPC s2) as Hend.
  { intros s2 Hw. split; [etrans; [by apply same_data_requests|by apply worse_requests]|]. split; [done|]. intros _. apply (open_worse _ _ Hw). right. by rewrite Hv. }
  destruct node as [nd|]; wp_run; [|apply Hend; reflexivity]. eapply wp_mono; [apply blacklist_spec|]. intros e s2 Hw. cbn beta in Hw. destruct (e =? IN3_OK); wp_run; [by apply Hend|].
  eapply wp_mono; [apply clear_response_keeps|]. intros ? s3 Hk. cbn beta in Hk. wp_run. apply Hend. etrans; [exact Hw|by apply keeps_worse].
Qed.
Lemma items_all (P : jval -> jval -> Prop) (l1 l2 : list jval) : length l2 = length l1 -> Forall (fun i => exists q y, l1 !! i = Some q /\ l2 !! i = Some y /\ P q y) (seq 0 (length l1)) -> Forall2 P l1 l2.
Proof.
  intros Hl Hf. apply Forall2_same_length_lookup. split; [done|]. intros i q y Hq Hy. rewrite Forall_forall in Hf.
  destruct (Hf i) as (q' & y' & E1 & E2 & Hp); [|congruence]. apply elem_of_seq. apply lookup_lt_Some in Hq. lia.
Qed.
Lemma verify_response_spec chain node n s : node_of s node -> open (self s) -> wp (verify_response plugins chain node n) (verdict s) s.
Proof.
  intros Hn Hop. unfold verify_response, raw_at. wp_run. match goal with |- context [rs_state ?a] => rename a into x end.
  eapply (wp_mono _ (fun _ s' => s' = s)). { destruct (negb (rs_state x =? IN3_OK)); [by wp_run|]. apply wp_bind. eapply wp_mono; [apply raw_http_spec|]. intros b ? [-> _]. by wp_run. }
  intros failed ? ->. destruct failed; [apply error_response_spec|]. wp_run. eapply wp_mono; [apply clean_up_request|]. intros ? s1 [Hs1 Hv1]. wp_run.
  eapply wp_mono; [apply parse_spec|]. intros e s2 (Hs2 & Hok & Herr). assert (same_request s s2) as Hs by (by etrans).
  destruct (Z.eqb_spec e IN3_OK) as [->|He]; cbn [negb].
  - destruct (Hok eq_refl) as (Hv2 & v & l & Hl & Hlen). destruct node as [nd|]; wp_run.
    + eapply wp_mono; [apply (verify_all_spec _ _ _ v l); [done|]|].
      { rewrite length_seq. pose proof (same_len _ _ (proj1 (proj1 Hs))) as Hrl. destruct (r_len (self s2)) as [|[|k]]; [by left| |right; left; lia]. right. right. split; [|done]. rewrite Hv2. apply Hv1. destruct Hop as [[_ ?]|?]; [lia|done]. }
      intros [e|u] s3; [intros (He & Ho & Hq); wp_run; split; [etrans; [apply Hs|done]|by split]|].
      * intros [Hd Hf]. wp_run. split; [etrans; [apply Hs|exact (same_data_requests s2 s3 Hd)]|]. split; [|done]. intros _. exists v, l. destruct Hl as [Hl1 Hl2], Hd as [_ D1 D2 D3 D4 D5]. cbn. split_and!; [congruence|congruence|].
        destruct Hlen as [Hlen|Hlen]; [left; rewrite D4, (proj2 Hs2); congruence|]. right. rewrite D1, D5. apply items_all; [|exact Hf]. rewrite Hlen. unfold r_len. by rewrite (proj1 (proj1 Hs2)).
    + split; [apply Hs|]. split; [|done]. intros _. exists v, l. destruct Hl. cbn. split_and!; [done|done|]. left. rewrite (proj2 Hs). by apply Hn.
  - assert (forall s3, worse s2 s3 -> wp (clear_response n) (fun _ => wp (field verification_state) (verdict s)) s3) as Hend.
    { intros s3 Hw. eapply wp_mono; [apply clear_response_keeps|]. intros ? s4 Hk. cbn beta in Hk. wp_run. assert (worse s2 s4) as Hw4 by (etrans; [exact Hw|by apply keeps_worse]).
      assert (verification_state (self s4) <> IN3_OK) as Hv4. { destruct Hw4 as [_ [Hv|Hv]]; [|done]. rewrite Hv. by apply Herr. }
      split; [etrans; [apply Hs|by apply worse_requests]|]. split; [done|]. intros _. by right. }
    destruct node as [nd|]; wp_run; [|apply (Hend s2); reflexivity].
    eapply wp_mono; [apply blacklist_spec|]. intros ? s3 Hw. cbn beta in Hw. wp_run. exact (Hend s3 Hw).
Qed.

(** ** All responses, attempts, and the execution *)
Lemma find_loop_spec chain : forall ns n pend st0 s, Forall (node_of s) ns -> (length ns <= 1 \/ Forall is_Some ns)%nat -> open (self s) -> st0 <> IN3_OK ->
  wp (Request.find_loop plugins chain ns n pend st0) (fun '(e, _, _) s' => verdict s e s') s.
Proof.
  induction ns as [|node ns IH]; intros n pend st0 s Hns Hone Ho Hst; cbn [Request.find_loop]; [wp_run; split; [done|by split]|]. inversion Hns as [|? ? Hn Hns']; subst.
  assert ((length ns <= 1 \/ Forall is_Some ns)%nat) as Hone'. { destruct Hone as [Hl|Hs]; [left; cbn in Hl; lia|right; by inversion Hs]. }
  unfold raw_at. wp_run. destruct (_ =? IN3_WAITING); [by apply IH|]. wp_run. eapply wp_mono; [by apply verify_response_spec|]. intros e s1 (Hq & Hok & Herr).
  destruct (Z.eqb_spec e IN3_OK) as [->|He]; [wp_run; split; [done|]; split; [auto|done]|].
  destruct (Z.eqb_spec e IN3_WAITING) as [->|Hw]; [wp_run; split; [done|]; split; [done|auto]|].
  destruct ns as [|node2 ns]; [cbn; wp_run; split; [done|]; split; [done|auto]|]. destruct Hone as [Hl|Hs]; [cbn in Hl; lia|].
  eapply wp_mono; [apply IH; [|by inversion Hs; right|auto|done]|].
  - apply Forall_forall. intros nd Hnd ->. inversion Hs as [|? ? _ Hs2]; subst. rewrite Forall_forall in Hs2. by destruct (Hs2 _ Hnd).
  - intros [[e2 p2] n2] s2 (Hq2 & Hv). split; [by etrans|done].
Qed.
Lemma get_chain_spec id s : wp (in3_get_chain id) (fun _ s' => self s' = self s) s.
Proof. intros (Hi & Hs & Hr). unfold in3_get_chain. destruct (find _ (chains (client s))); cbn; [done|]. split; [|done]. split; [by apply Hnew|done]. Qed.
Lemma find_valid_spec s : open (self s) -> wp (find_valid_result plugins) (fun x s' => verdict s (fst x) s') s.
Proof.
  intros Ho. unfold find_valid_result. wp_run.
  assert (forall c s1, self s1 = self s -> wp (Request.find_loop plugins c (match nodes (self s) with [] => [None] | _ => map Some (nodes (self s)) end) 0 false IN3_ERPC)
    (fun a => wp (let '(e, still_pending, node) := a in
       if negb (e =? IN3_OK) && still_pending then p ← field responses; free p ;; c ← field response_context; free c ;;
         upd (fun r => set_error None (set_vstate IN3_WAITING (set_responses Null (set_response_context Null r)))) ;; mret (IN3_WAITING, None)
       else mret (e, node)) (fun x s' => verdict s (fst x) s')) s1) as Hgo.
  { intros c s1 E1. eapply wp_mono; [apply find_loop_spec|].
    - apply Forall_forall. intros nd Hnd ->. destruct (nodes (self s)) eqn:En; [by rewrite E1|]. apply list_elem_of_fmap in Hnd as (? & [=] & _).
    - destruct (nodes (self s)); [by left|]. right. apply Forall_forall. intros nd (x & -> & _)%list_elem_of_fmap. done.
    - by rewrite E1.
    - done.
    - intros [[e pend] node] s2 (Hq & Hok & Herr). assert (same_requests s s2) as Hq' by (unfold same_requests in *; by rewrite <- E1). destruct (Z.eqb_spec e IN3_OK) as [->|He]; cbn [negb andb].
      + wp_run. split; [done|]. split; [auto|done].
      + destruct pend; wp_run; [|split; [done|]; split; [done|auto]]. unfold free. destruct (responses (self s2)); wp_run; try done; destruct (response_context (self s2)); wp_run; try done; (split; [done|]; split; [done|by right]). }
  eapply wp_mono; [apply get_chain_spec|]. intros c s1 E1. cbn beta in E1. wp_run. by apply Hgo.
Qed.

(** A step before the response: the request stays open. *)
Definition opening s s' : Prop := same_requests s s' /\ (open (self s) -> open (self s')).
#[local] Instance opening_preorder : PreOrder opening.
Proof. split; [by intros s|]. intros a b c [H1 H2] [H3 H4]. split; [by etrans|auto]. Qed.
Lemma worse_opening s s' : worse s s' -> opening s s'.
Proof. intros Hw. split; [by apply worse_requests|by apply open_worse]. Qed.
Lemma called_opening act c s rc s' : called act c s rc s' -> act ∈ [PLGN_ACT_RPC_HANDLE; PLGN_ACT_NL_PICK; PLGN_ACT_PAY_PREPARE] -> opening s s'.
Proof.
  intros Hc Hact. split; [by eapply called_requests|]. destruct Hc as (p & s1 & Hp & Hk & Ea), rc as [x c']. destruct (pc_prepare _ _ Hp _ _ _ _ _ _ Ea Hact) as [P1 P2].
  pose proof (pc_requests _ _ Hp _ _ _ _ _ _ Ea) as [Hr _]. intros [[Ho Hl]|Ho]; [left; rewrite P1, (sa_context _ _ Hk), (same_len _ _ Hr), (same_len _ _ (sa_requests _ _ Hk)); done|]. right. destruct P2 as [P2|P2]; [|done]. rewrite P2, (sa_state _ _ Hk). done.
Qed.
Lemma execute_opening act c s : act ∈ [PLGN_ACT_RPC_HANDLE; PLGN_ACT_NL_PICK; PLGN_ACT_PAY_PREPARE] ->
  wp (in3_plugin_execute_first plugins act c) (fun _ s' => opening s s') s /\ wp (in3_plugin_execute_first_or_none plugins act c) (fun _ s' => opening s s') s.
Proof.
  intros Hact. split; (eapply wp_mono; [apply execute_first_spec || apply execute_or_none_spec|]).
  - intros rc s' [Hc|[_ Hr]]; [by eapply called_opening|]. by eapply worse_opening, reported_worse.
  - intros rc s' [[_ Hk]|[Hc|[_ Hr]]]; [by apply worse_opening, keeps_worse|by eapply called_opening|]. by eapply worse_opening, reported_worse.
Qed.
Lemma report_worse m e s : e <> IN3_OK -> wp (req_set_error plugins m e) (fun e' s' => e' = e /\ worse s s') s.
Proof.
  intros He. eapply wp_mono; [apply set_error_spec|]. intros e' s' (-> & Hs & Hr). split; [done|]. destruct (decide (e = IN3_WAITING)) as [->|Hw]; [rewrite Hs by auto; reflexivity|].
  eapply reported_worse; [by apply Hr|done].
Qed.
Lemma report_opening m e s : e <> IN3_OK -> wp (req_set_error plugins m e) (fun e' s' => e' = e /\ opening s s') s.
Proof. intros He. eapply wp_mono; [by apply report_worse|]. intros e' s' [-> Hw]. split; [done|by apply worse_opening]. Qed.
Lemma is_method_keeps m s : wp (req_is_method m) (fun _ s' => s' = s) s.
Proof. unfold req_is_method, request0. by wp_run. Qed.
Lemma handle_internally_spec s : wp (handle_internally plugins) (fun _ s' => opening s s') s.
Proof.
  unfold handle_internally. wp_run. destruct (negb _); wp_run; [reflexivity|]. unfold request0. wp_run. eapply wp_mono; [apply execute_opening; decide_now|]. intros rc s' Ho. by wp_run.
Qed.
Lemma select_nodes_spec s : wp (select_nodes plugins) (fun e s' => opening s s') s.
Proof.
  unfold select_nodes. wp_run. destruct (raw_response (self s)), (nodes (self s)); wp_run; try reflexivity. unfold request0. wp_run. apply wp_bind || idtac.
  eapply (wp_mono _ (fun _ s' => s' = s)). { destruct (jget (jget _ K_IN3) K_RPC); [by wp_run|]. eapply wp_mono; [apply raw_http_spec|]. by intros b ? [-> _]. }
  intros http ? ->. destruct http; wp_run; [reflexivity|]. eapply wp_mono; [apply execute_opening; decide_now|]. intros rc s1 O1. cbn beta in O1.
  assert (forall e s2, e <> IN3_OK -> opening s s2 -> forall m, wp (pick_code e) (fun c => wp (req_set_error plugins m c) (fun _ s' => opening s s')) s2) as Hpick.
  { intros e s2 He O2 m. unfold pick_code. destruct ((e <? 0) && _); wp_run.
    - eapply wp_mono; [apply is_method_keeps|]. intros b ? ->. wp_run. eapply wp_mono; [apply report_opening; by destruct b|]. intros e' s3 [_ O3]. by etrans.
    - eapply wp_mono; [by apply report_opening|]. intros e' s3 [_ O3]. by etrans. }
  destruct (Z.eqb_spec rc.1 IN3_OK) as [E|E]; cbn [negb]; wp_run; [|by apply Hpick].
  eapply wp_mono; [apply execute_opening; decide_now|]. intros rc2 s2 O2. cbn beta in O2. destruct (Z.ltb_spec rc2.1 0) as [Hneg|]; wp_run.
  - apply Hpick; [unfold IN3_OK; lia|by etrans].
  - eapply wp_mono; [apply execute_opening; decide_now|]. intros rc3 s3 O3. cbn beta in O3. wp_run. etrans; [exact O1|]. by etrans.
Qed.

Lemma accepted_data r r' : same_data r r' -> accepted r -> accepted r'.
Proof. intros [_ D1 D2 D3 D4 D5] (v & l & H1 & H2 & H3). exists v, l. rewrite D1, D4, D5. split_and!; [congruence|congruence|done]. Qed.
Definition inv r : Prop := open r \/ accepted r.
Definition outcome s (e : Z) s' : Prop := same_requests s s' /\ inv (self s') /\ (e = IN3_OK -> accepted (self s')).
Lemma response_free_spec s : wp response_free (fun _ s' => opening s s') s.
Proof.
  unfold response_free, free. wp_run. destruct (raw_response (self s)) as [l|]; [destruct (_ <? _)%nat; [done|]|]; wp_run;
    destruct (responses (self s)); wp_run; try done; destruct (response_context (self s)); wp_run; try done; (split; [done|]; intros [[? ?]|?]; [by left|by right]).
Qed.
Lemma next_attempt_spec again ret s : ret <> IN3_OK -> open (self s) -> r_type (self s) = RT_RPC -> (forall s1, open (self s1) -> r_type (self s1) = RT_RPC -> wp again (outcome s1) s1) -> wp (next_attempt plugins max_attempts again ret) (outcome s) s.
Proof.
  intros Hret Ho Hty Hagain. unfold next_attempt. wp_run. set (s0 := on_self _ s). assert (same_requests s s0) as Hq0 by (unfold same_requests; cbn; by destruct (raw_response (self s))).
  assert (open (self s0)) as Ho0 by (unfold open in *; cbn; by destruct (raw_response (self s))).
  eapply wp_mono; [apply response_free_spec|]. intros ? s1 [Hq1 Ho1]. specialize (Ho1 Ho0). wp_run. destruct (_ <? max_attempts); wp_run.
  - eapply wp_mono; [apply Hagain; [by right|]; cbn; rewrite (proj2 Hq1), (proj2 Hq0); exact Hty|]. intros e s2 (Hq2 & Hi & Hok). split; [|by split]. etrans; [exact Hq0|]. etrans; [exact Hq1|exact Hq2].
  - eapply wp_mono; [apply is_method_keeps|]. intros b ? ->. wp_run. set (ret' := if b then IN3_EIGNORE else ret). assert (ret' <> IN3_OK) as Hr' by (subst ret'; by destruct b).
    assert (forall s2, same_requests s1 s2 -> open (self s2) -> wp (match r_error (self s2) with Some _ => mret (if ret' =? IN3_OK then IN3_ERPC else ret')
        | None => req_set_error plugins (Some (str "reaching max_attempts and giving up")) IN3_ELIMIT end) (outcome s) s2) as Hend.
    { intros s2 Hq2 Ho2. assert (same_requests s s2) as Hq by (etrans; [exact Hq0|]; by etrans). destruct (r_error (self s2)); wp_run.
      - split; [done|]. split; [by left|]. destruct (Z.eqb_spec ret' IN3_OK); done.
      - eapply wp_mono; [by apply report_opening|]. intros e s3 [-> [Hq3 Ho3]]. split; [by etrans|]. split; [left; auto|done]. }
    destruct b; wp_run; apply Hend; try done. by right.
Qed.
Lemma execute_rpc_spec again s : (forall s1, open (self s1) -> r_type (self s1) = RT_RPC -> wp again (outcome s1) s1) -> open (self s) -> r_type (self s) = RT_RPC -> wp (execute_rpc plugins max_attempts again) (outcome s) s.
Proof.
  intros Hagain Ho Hty. unfold execute_rpc. wp_run. eapply (wp_mono _ (fun _ s' => opening s s')).
  { destruct (raw_response (self s)), (response_context (self s)); try (apply handle_internally_spec); wp_run; reflexivity. }
  intros e s1 [Hq1 O1]. specialize (O1 Ho). destruct (Z.ltb_spec e 0) as [Hneg|].
  - wp_run. destruct (r_error (self s1)); wp_run; [split; [done|]; split; [by left|]; intros ->; done|].
    eapply wp_mono; [apply report_opening; intros ->; done|]. intros e' s2 [-> [Hq2 O2]]. split; [by etrans|]. split; [left; auto|]. intros ->. done.
  - wp_run. eapply wp_mono; [apply select_nodes_spec|]. intros e2 s2 [Hq2 O2]. specialize (O2 O1). assert (same_requests s s2) as Hq by (by etrans).
    destruct (Z.eqb_spec e2 IN3_OK) as [->|He2]; cbn [negb]; wp_run; [|split; [done|]; split; [by left|done]].
    destruct (raw_response (self s2)); wp_run; [|split; [done|]; split; [by left|done]].
    eapply wp_mono; [by apply find_valid_spec|]. intros [e3 node] s3 (Hq3 & Hok & Herr). cbn [fst snd] in *. wp_run.
    assert (same_requests s s3) as Hq' by (by etrans).
    destruct (Z.eqb_spec e3 IN3_OK) as [->|He3].
    + wp_run. eapply wp_mono; [apply execute_or_none_spec|]. intros rc s4 Hrc. wp_run. cbn [orb]. rewrite orb_true_r. wp_run.
      assert (same_data (self s3) (self s4)) as Hd.
      { destruct Hrc as [[_ Hk]|[Hc|[_ [_ Hd]]]]; [by apply same_answer_data|apply same_answer_data; eapply called_quiet; [exact Hc|decide_now]|done]. }
      assert (accepted (self s4)) as Ha by (eapply accepted_data; [exact Hd|auto]). split; [etrans; [exact Hq'|by apply same_data_requests]|]. split; [by right|done].
    + wp_run. rewrite orb_false_r. destruct (Z.eqb_spec e3 IN3_WAITING) as [->|]; [wp_run; split; [done|]; split; [left; auto|done]|].
      eapply wp_mono; [apply next_attempt_spec; [done|by apply Herr|by rewrite (proj2 Hq')|done]|]. intros e4 s4 (Hq4 & Hi & Hok4). split; [by etrans|by split].
Qed.
(** The invariant of the client holds after every execution, of whatever request. *)
Definition framed A (m : M (state W) A) : Prop := forall s, wp m (fun _ _ => True) s.
#[local] Instance framed_modular : Modular framed.
Proof.
  split; unfold framed; intros; [apply wp_bind; eapply wp_mono; [done|auto]|by wp_run|apply wp_undef|by wp_run|apply wp_upd; [by apply keeps_counters_signers|done]|eapply wp_mono; [apply get_chain_spec|done]].
Qed.
#[local] Instance framed_plugins : ModularPlugins framed plugins.
Proof. split; intros; intros s; (eapply wp_mono; [by first [apply pass_spec|apply set_error_spec]|done]). Qed.
Lemma on_required_wp {A} (m : M (state W) A) s : (forall s', wp m (fun _ _ => True) s') -> wp (on_required m) (fun _ s' => self s' = self s) s.
Proof.
  intros Hm (Hc & Hs & Hr). unfold on_required. destruct (required s) as [|r t]; [done|]. inversion Hr; subst.
  specialize (Hm (mk_state r t (client s) (world s))). unfold wp in Hm. destruct (m _) as [a s'| | |]; [|done..]. destruct Hm as [(Hc' & Hs' & Hr') _]; [done|]. split; [|done]. split; [done|]. split; [done|by constructor].
Qed.
Lemma execute_framed f : framed _ (in3_req_execute plugins max_attempts f).
Proof.
  apply execute_mod; [apply _..|intros g Hg s; by apply wp_upd|by intros A s ?|]. intros A m Hm s. eapply wp_mono; [by apply on_required_wp|done].
Qed.
Lemma inv_worse s s' : worse s s' -> inv (self s) -> inv (self s').
Proof. intros Hw [Ho|Ha]; [left; by eapply open_worse|right]. eapply accepted_data; [apply Hw|done]. Qed.
Lemma execute_spec : forall fuel s, inv (self s) -> wp (in3_req_execute plugins max_attempts fuel) (fun e s' =>
  same_requests s s' /\ inv (self s') /\ (e = IN3_OK -> r_type (self s) = RT_RPC -> accepted (self s'))) s.
Proof.
  induction fuel as [|f IH]; intros s Hinv; [done|]. cbn [in3_req_execute]. wp_run. destruct (r_error (self s)) as [err|] eqn:Eerr; wp_run.
  { split; [done|]. split; [done|]. destruct (Z.eqb_spec (verification_state (self s)) IN3_OK) as [->|]; cbn [negb andb]; [done|]. by destruct (_ =? IN3_WAITING). }
  eapply (wp_mono _ (fun _ s' => s' = s)). { destruct (request_context (self s)); unfold request0; by wp_run. }
  intros ok ? ->. destruct ok; cbn [negb].
  2: { eapply wp_mono; [by apply report_worse|]. intros e s1 [-> Hw]. split; [by apply worse_requests|]. split; [by eapply inv_worse|done]. }
  wp_run. eapply (wp_mono _ (fun _ s' => self s' = self s)).
  { destruct (required s) as [|r rs] eqn:Er; [by wp_run|]. apply on_required_wp, execute_framed. }
  intros ret s1 E1. assert (worse s s1) as Hw1. { unfold worse. rewrite E1. split; [reflexivity|by left]. }
  destruct (negb (ret =? IN3_OK) && negb (ret =? IN3_EIGNORE)) eqn:Eret.
  { wp_run. assert (ret <> IN3_OK) as Hret by (intros ->; done). eapply wp_mono; [by apply report_worse|]. intros e s2 [-> Hw]. assert (worse s s2) as Hw2 by (by etrans).
    split; [by apply worse_requests|]. split; [by eapply inv_worse|done]. }
  apply wp_bind. eapply (wp_mono _ (fun _ s' => worse s1 s')).
  { destruct (negb _); wp_run; [|reflexivity]. eapply wp_mono; [apply execute_first_spec|]. intros rc s2 [Hc|[_ Hr]]; wp_run; [apply keeps_worse; eapply called_quiet; [exact Hc|decide_now]|]. by eapply reported_worse. }
  intros ? s2 Hw. cbn beta in Hw. assert (worse s s2) as Hw2 by (by etrans). pose proof (inv_worse _ _ Hw2 Hinv) as Hinv2. pose proof (worse_requests _ _ Hw2) as Hq2. wp_run.
  match goal with |- wp (if ?b then _ else _) _ _ => destruct b eqn:Edone end.
  - wp_run. apply andb_prop in Edone as [Ec Ev%Z.eqb_eq]. assert (accepted (self s2)) as Ha. { destruct Hinv2 as [[[Ho _]|Ho]|Ha]; [by rewrite Ho in Ec|done|done]. } split; [done|]. by split.
  - wp_run. assert (open (self s2)) as Ho2.
    { destruct Hinv2 as [Ho|(v & l & Hc & _)]; [done|]. right. rewrite Hc in Edone. by apply Z.eqb_neq. }
    destruct (r_type (self s2)) eqn:Ety.
    + eapply wp_mono; [apply execute_rpc_spec; [|done|done]|].
      * intros s3 Ho3 Ht3. eapply wp_mono; [apply IH; by left|]. intros e s4 (Hq4 & Hi4 & Hok4). split; [done|]. split; [done|auto].
      * intros e s3 (Hq3 & Hi & Hok). split; [by etrans|]. split; [done|auto].
    + pose proof (proj2 Hq2) as Hty2. rewrite Ety in Hty2. unfold execute_sign. wp_run. destruct (raw_response (self s2)); wp_run; [unfold raw_at; wp_run|]; (split; [done|]); (split; [done|]); congruence.
Qed.
End Safety.

(** ** A request over several calls

    Between two executions the transport adds responses and required requests are created; nothing
    of this touches the answer of the request, though it may report an error. *)
Section Sessions.
Context `{SourceText} {W : Type} (plugins : list (in3_plugin_t W)) (max_attempts : Z) `{RI : RequestInv} (valid : list (list Z) -> in3_vctx_t -> Prop).
Context (Hnew : forall c ch, verified_hashes ch = None -> client_inv c -> client_inv (set_chains (chains c ++ [ch]) c)).
Inductive session (s0 : state W) : state W -> Prop :=
  | session_start : session s0 s0
  | session_execute s fuel e s' : session s0 s -> in3_req_execute plugins max_attempts fuel s = Ok e s' -> session s0 s'
  | session_transport s s' : session s0 s -> worse s s' -> (state_inv s -> state_inv s') -> session s0 s'.

Lemma session_inv s0 s : Forall (plugin_contract valid) plugins -> session s0 s -> state_inv s0 -> open (self s0) -> state_inv s /\ inv valid (self s) /\ same_requests s0 s.
Proof.
  intros Hp Hs Hc Ho. induction Hs as [|s fuel e s' _ (Hci & Hi & Hq) E|s s' _ (Hci & Hi & Hq) Hw Hcl].
  - split; [done|]. split; [by left|done].
  - pose proof (execute_spec plugins max_attempts valid Hnew Hp fuel s Hi Hci) as Hx. rewrite E in Hx. destruct Hx as (Hci' & Hq' & Hi' & _). split; [done|]. split; [done|]. destruct Hq, Hq'. split; congruence.
  - split; [auto|]. split; [by eapply inv_worse|]. apply worse_requests in Hw as [? ?]. destruct Hq. split; congruence.
Qed.
(** Adding a response is such a step. *)
Lemma add_response_transport index error data as_string time s s' : Forall (plugin_contract valid) plugins -> state_inv s ->
  in3_ctx_add_response plugins index error data as_string time s = Ok tt s' -> state_inv s' /\ worse s s'.
Proof.
  intros Hp Hi E. assert (wp (in3_ctx_add_response plugins index error data as_string time) (fun _ s' => worse s s') s) as Hx; [|specialize (Hx Hi); by rewrite E in Hx].
  unfold in3_ctx_add_response. wp_run. destruct (raw_response (self s)); wp_run.
  - unfold raw_at. wp_run. eapply wp_mono; [apply set_raw_at_keeps|]. intros ? s1 Hk. by apply keeps_worse.
  - eapply wp_mono; [by eapply report_worse|]. intros e s1 [_ Hw]. by wp_run.
Qed.
(** What an execution that returns IN3_OK has made sure of. *)
Lemma execute_ok_accepted s0 s fuel s' :
  Forall (plugin_contract valid) plugins -> state_inv s0 -> verification_state (self s0) <> IN3_OK -> r_type (self s0) = RT_RPC -> session s0 s ->
  in3_req_execute plugins max_attempts fuel s = Ok IN3_OK s' -> accepted valid (self s') /\ requests (self s') = requests (self s0).
Proof.
  intros Hp Hci Hc Hty Hs E. destruct (session_inv s0 s Hp Hs Hci (or_intror Hc)) as (Hci' & Hi & Hq1 & Hq2).
  pose proof (execute_spec plugins max_attempts valid Hnew Hp fuel s Hi Hci') as Hx. rewrite E in Hx. destruct Hx as (_ & [Hq3 _] & _ & Hok). split; [|congruence]. apply Hok; congruence.
Qed.
End Sessions.

(** C16. Nothing unverified is accepted.  Take any plugins that keep the contract, where a verifier
    accepts only what is [valid] for the signers of the request.  Starting from a request that is not
    yet verified, after any sequence of executions and transport steps: if an execution returns IN3_OK,
    the request has responses, and if nodes were asked, each response either carries a result that
    the verifier accepted together with its own request, method and proof, or no result but an error of the
    user, which nothing verifies.  The requests are those of the start.  The plugins may rely on an
    invariant of the client that they keep.  The contract ([plugin_contract]) demands that reports and
    follow-ups leave the answer alone, that answering and picking nodes do not make it verified, and
    that a payment which waits leaves the state of the verification (or makes it a failure) and, in a
    bulk, has dropped the response: without the last the response before would count for all (execute.c:438). *)
Theorem execute_accepts_verified `{SourceText} {W : Type} (plugins : list (in3_plugin_t W)) max_attempts `{RI : RequestInv} valid s0 s fuel s' :
  (forall c ch, verified_hashes ch = None -> client_inv c -> client_inv (set_chains (chains c ++ [ch]) c)) ->
  Forall (plugin_contract valid) plugins -> state_inv s0 -> verification_state (self s0) <> IN3_OK -> r_type (self s0) = RT_RPC -> session plugins max_attempts s0 s ->
  in3_req_execute plugins max_attempts fuel s = Ok IN3_OK s' -> accepted valid (self s') /\ requests (self s') = requests (self s0).
Proof. intros Hnew Hp Hi Hc Ht Hs E. exact (execute_ok_accepted plugins max_attempts valid Hnew s0 s fuel s' Hp Hi Hc Ht Hs E). Qed.

(** ** Concrete plugins *)
Definition no_text : SourceText := fun _ => None.
#[local] Existing Instance no_text.
Definition pass {W} (c : plg_ctx) : M (state W) (Z * plg_ctx) := mret (IN3_EIGNORE, c).
(** A verifier that accepts the result 7 and nothing else, and a node list that takes note of nothing. *)
#[local] Instance any_client : RequestInv := { client_inv _ := True; asked _ := True }.
Definition seven (vc : in3_vctx_t) : bool := match vc_result vc with Some (JInt 7) => true | _ => false end.
Definition verifier : in3_plugin_t unit := mk_plugin (Z.lor PLGN_ACT_RPC_VERIFY PLGN_ACT_NL_BLACKLIST) (fun act c =>
  match c with C_verify vc => if act =? PLGN_ACT_RPC_VERIFY then mret ((if seven vc then IN3_OK else IN3_EINVAL), c) else pass c | _ => pass c end).
(** A payment plugin that asks the same node again, as zk_incentive.c does in the end. *)
Definition repay : in3_plugin_t unit := mk_plugin PLGN_ACT_PAY_FOLLOWUP (fun act c =>
  match c with C_pay_followup _ _ (Some _) => in3_retry_same_node ;; mret (IN3_WAITING, c) | _ => pass c end).

Definition q (s : string) : list Z := map (fun c => if c =? 39 then 34 else c) (str s).
Definition call : jval := JObject [(K_METHOD, JString (str "eth_blockNumber"))].
Definition node1 : node_match_t := mk_node 0 0 1 (str "http://n1") [1].
Definition node2 : node_match_t := mk_node 1 1 1 (str "http://n2") [2].
(** A request for [n] calls, answered by nodes with the given texts. *)
Definition answered (n : nat) (answers : list string) : state unit :=
  mk_state (mk_req 1 RT_RPC 0 IN3_WAITING None (Some call) (Some (replicate n call)) Null Null
              (Some (map (fun a => mk_response 0 IN3_OK (Some (q a))) answers)) [] (take (length answers) [node1; node2]) []) [] (mk_client [mk_chain 1 CHAIN_ETH 2 None] 5 0 PROOF_STANDARD 0 0 1 0 0 0) tt.

Lemma verifier_contract : plugin_contract (fun _ => seven) verifier.
Proof.
  assert (forall act c s r c' s', action_fn verifier act c s = Ok (r, c') s' -> s' = s /\ c' = c /\ (r = IN3_EIGNORE \/ exists vc, c = C_verify vc /\ r = (if seven vc then IN3_OK else IN3_EINVAL))) as H.
  { intros act c s r c' s'. cbn. destruct c; cbn; try (intros [= <- <- <-]; by auto). destruct (_ =? _); intros [= <- <- <-]; eauto 6. }
  split.
  - intros * (_ & _ & E). destruct (H _ _ _ _ _ _ E) as (-> & _). done.
  - intros * (_ & _ & E) _. destruct (H _ _ _ _ _ _ E) as (-> & -> & _). done.
  - intros * (_ & _ & E) _. destruct (H _ _ _ _ _ _ E) as (-> & _). done.
  - intros * (_ & _ & E) _. destruct (H _ _ _ _ _ _ E) as (-> & _). split; [done|by left].
  - intros * (_ & _ & E). destruct (H _ _ _ _ _ _ E) as (-> & _ & [->|(vc & -> & ->)]); [done|]. cbn in E. by inversion E.
  - intros * (Hi & _ & E). destruct (H _ _ _ _ _ _ E) as (-> & _). done.
  - intros * (_ & _ & E) _ ->. destruct (H _ _ _ _ _ _ E) as (-> & _ & [[=]|(vc' & [= ->] & Ev)]). destruct (seven vc'); [done|done].
Qed.
Lemma execute_accepts_verified_witness : exists s', in3_req_execute [verifier] 7 3 (answered 1 ["{'id':1,'result':7}"]) = Ok IN3_OK s' /\ accepted (fun _ => seven) (self s').
Proof.
  eexists. split; [vm_compute; reflexivity|]. eapply (execute_accepts_verified [verifier] 7 (fun _ => seven) (answered 1 ["{'id':1,'result':7}"]) _ 3); [done| |by repeat constructor|done|reflexivity|apply session_start|vm_compute; reflexivity].
  constructor; [apply verifier_contract|constructor].
Defined.

(** Two ways into undefined behaviour: (1) a request to two nodes, of which the first sends a
    response that is refused and the second something that does not parse, frees the responses of the
    first twice; (2) a payment plugin that asks the same node again frees the response while the
    in3 section of it is still to be read. *)
Theorem execute_frees_twice :
  in3_req_execute [verifier] 7 3 (answered 1 ["{'result':8}"; "{'result':"]) = Undef /\
  in3_req_execute [verifier; repay] 7 3 (answered 1 ["{'error':{'code':402},'in3':{'currentBlock':3}}"]) = Undef.
Proof. split; vm_compute; reflexivity. Qed.
