(* ===== verification/ReqProgress.v ===== *)
(** * Requests: attempts, termination and states

    An execution ends after at most [max_attempts] rounds for the request, each request it requires
    and each one the plugins may add ([execute_terminates]), and [in3_req_state] tells what the chain of requests waits for
    ([req_state_spec]). *)
From S2P Require Import Prelude Utils Bytes Data Json JsonVal ReqState Request ReqFrame ReqSafety.
From stdpp Require Import strings.
#[local] Open Scope Z_scope.

(** ** Steps that end, and keep the counters *)
Definition twp {S A} (m : M S A) (Q : A -> S -> Prop) (s : S) : Prop := match m s with Ok a s' => Q a s' | NoFuel => False | _ => True end.

Section Steady.
Context {W : Type} (budget : W -> nat).
Implicit Types s : state W.
(** What plugins may still do: the requests that are required and those that may be added. *)
Definition load s : nat := length (required s) + budget (world s).
(** The attempts of the request are kept; adding a request, or dropping a raw response, is paid from
    the budget. *)
Record calm s s' : Prop := {
  calm_attempt : r_attempt (self s') = r_attempt (self s);
  calm_load : (load s' <= load s)%nat;
  calm_nonneg : Forall (fun r => 0 <= r_attempt r) (required s) -> Forall (fun r => 0 <= r_attempt r) (required s');
  calm_raw : is_Some (raw_response (self s)) -> is_Some (raw_response (self s')) \/ (load s' < load s)%nat }.
#[global] Instance calm_preorder : PreOrder calm.
Proof. split; [intros s; split; auto|]. intros a b c [? ? ? Hab] [? ? ? Hbc]. split; [congruence|lia|auto|]. intros H. destruct (Hab H) as [Hb|]; [destruct (Hbc Hb) as [|]; [by left|right; lia]|right; lia]. Qed.
Definition steady {A} (m : M (state W) A) : Prop := forall s, twp m (fun _ s' => calm s s') s.
Lemma steady_bind {A B} (m : M (state W) A) (k : A -> M (state W) B) : steady m -> (forall a, steady (k a)) -> steady (m ≫= k).
Proof.
  intros Hm Hk s. specialize (Hm s). unfold twp, mbind, M_bind in *. destruct (m s) as [a s1| | |]; [|done..]. specialize (Hk a s1). unfold twp in Hk. destruct (k a s1); [by etrans|done..].
Qed.
Lemma steady_ret {A} (a : A) : steady (mret a).
Proof. intros s. unfold twp. cbn. reflexivity. Qed.
Lemma steady_undef {A} : steady (undef (A := A)).
Proof. done. Qed.
Lemma steady_defined {A} (o : option A) : steady (defined o).
Proof. destruct o; [apply steady_ret|done]. Qed.
Lemma steady_field {A} (f : in3_req_t -> A) : steady (field f).
Proof. intros s. unfold twp. cbn. reflexivity. Qed.
Lemma steady_gets {A} (f : state W -> A) : steady (gets f).
Proof. intros s. unfold twp. cbn. reflexivity. Qed.
Lemma steady_upd f : keeps_counters f -> steady (upd f).
Proof. intros Hf s. destruct (Hf (self s)) as (? & ? & _). unfold twp. cbn. split; auto. Qed.
End Steady.
Create HintDb steady.
#[export] Hint Resolve steady_ret steady_undef steady_defined steady_field steady_gets : steady.
Ltac steady :=
  repeat first
    [ match goal with |- steady _ (_ ≫= _) => apply steady_bind; [|intros ?] end
    | progress cbn [fst snd]
    | progress eauto with steady
    | match goal with |- steady _ (upd _) => apply steady_upd; keeps end
    | match goal with
      | |- steady _ (match ?x with _ => _ end) => destruct x
      | |- steady _ ((match ?x with _ => _ end) _) => destruct x
      | |- steady _ (let '(_, _) := ?x in _) => destruct x
      end ].

(** A plugin that ends, and pays for the requests it adds and the responses it drops. *)
Record tame_plugin {W} (budget : W -> nat) (p : in3_plugin_t W) : Prop := {
  tame_calm act c s : twp (action_fn p act c) (fun _ s' => calm budget s s') s;
  tame_log c s r c' s' : action_fn p PLGN_ACT_LOG_ERROR c s = Ok (r, c') s' -> r <> IN3_ERETRY }.

Section Termination.
Context `{SourceText} {W : Type} (budget : W -> nat) (plugins : list (in3_plugin_t W)) (max_attempts : Z) (Hplugins : Forall (tame_plugin budget) plugins).
#[local] Abbreviation steady := (steady budget).
#[local] Abbreviation calm := (calm budget).
#[local] Abbreviation load := (load budget).

Lemma pass_steady (ps : list (in3_plugin_t W)) act c : Forall (tame_plugin budget) ps -> steady (plugin_pass ps act c).
Proof.
  intros Hps. revert c. induction Hps as [|p ps Hp _ IH]; intros c; cbn [plugin_pass]; [steady|]. destruct (handles p act); [|apply IH].
  apply steady_bind; [intros s; apply (tame_calm _ _ Hp)|]. intros rc. destruct (_ =? _); steady.
Qed.
Lemma pass_log_retry (ps : list (in3_plugin_t W)) c s r s' : Forall (tame_plugin budget) ps -> plugin_pass ps PLGN_ACT_LOG_ERROR c s = Ok r s' -> r.1 <> Some IN3_ERETRY.
Proof.
  intros Hps. revert c s. induction Hps as [|p ps Hp _ IH]; intros c s; cbn [plugin_pass]; [by intros [= <- <-]|]. destruct (handles p _); [|apply IH].
  unfold mbind, M_bind. destruct (action_fn p _ c s) as [[x c'] s1| | |] eqn:E; [|done..]. cbn [fst snd]. destruct (x =? IN3_EIGNORE); [apply IH|]. intros [= <- <-]. cbn. intros [= ->]. by eapply (tame_log _ _ Hp).
Qed.
Lemma set_error_steady f m e : steady (set_error_intern plugins (S f) m e).
Proof.
  cbn [set_error_intern]. destruct (_ || _); [steady|]. apply steady_bind; [|intros ?; steady]. destruct m as [m|]; [|apply steady_upd; keeps].
  apply steady_bind; [steady|intros _]. destruct (in3_plugin_is_registered plugins PLGN_ACT_LOG_ERROR); [|steady]. apply steady_bind; [|intros ?; steady].
  intros s. cbn [first_or_none]. pose proof (pass_steady plugins PLGN_ACT_LOG_ERROR (C_log_error m (u16 (- e))) Hplugins s) as Hp. unfold twp, mbind, M_bind in *.
  destruct (plugin_pass plugins _ _ s) as [[[r|] c'] s'| | |] eqn:E; [|done..]. cbn [fst snd]. pose proof (pass_log_retry _ _ _ _ _ Hplugins E) as Hr. cbn [fst] in Hr.
  destruct (Z.eqb_spec r IN3_ERETRY) as [->|]; [done|done].
Qed.
Lemma report_steady m e : steady (req_set_error plugins m e).
Proof. apply set_error_steady. Qed.
Lemma get_chain_steady id : steady (in3_get_chain (W := W) id).
Proof. intros s. unfold twp, in3_get_chain. destruct (find _ _); [reflexivity|]. split; auto. Qed.
#[local] Instance steady_modular : Modular (@ReqProgress.steady W budget).
Proof. split; auto with steady; [apply @steady_bind|apply @steady_upd|apply get_chain_steady]. Qed.
#[local] Instance steady_plugins : ModularPlugins (@ReqProgress.steady W budget) plugins.
Proof. split; intros; [by apply pass_steady|apply report_steady]. Qed.
(** The functions of [Request]. *)
Lemma execute_first_steady act c : steady (in3_plugin_execute_first plugins act c).
Proof. eapply (execute_first_mod (@ReqProgress.steady W budget)); apply _. Qed.
Lemma execute_or_none_steady act c : steady (in3_plugin_execute_first_or_none plugins act c).
Proof. eapply (execute_or_none_mod (@ReqProgress.steady W budget)); apply _. Qed.
Lemma request0_steady : steady (request0 (W := W)).
Proof. eapply (request0_mod (@ReqProgress.steady W budget)); apply _. Qed.
Lemma internally_steady : steady (handle_internally plugins).
Proof. eapply (internally_mod (@ReqProgress.steady W budget)); apply _. Qed.
Lemma select_nodes_steady : steady (select_nodes plugins).
Proof. eapply (select_nodes_mod (@ReqProgress.steady W budget)); apply _. Qed.
Lemma find_valid_steady : steady (find_valid_result plugins).
Proof. eapply (find_valid_mod (@ReqProgress.steady W budget)); apply _. Qed.
Lemma execute_sign_steady : steady (execute_sign (W := W)).
Proof. eapply (execute_sign_mod (@ReqProgress.steady W budget)); apply _. Qed.
Lemma allowed_to_fail_steady : steady (ctx_is_allowed_to_fail (W := W)).
Proof. eapply (allowed_to_fail_mod (@ReqProgress.steady W budget)); apply _. Qed.
Hint Resolve report_steady execute_first_steady execute_or_none_steady request0_steady internally_steady select_nodes_steady find_valid_steady execute_sign_steady allowed_to_fail_steady : steady.

(** ** Rounds *)

(** The rounds a request and those it requires may still take. *)
Definition rounds (s : state W) : nat := load s * S (Z.to_nat max_attempts) + Z.to_nat (max_attempts - r_attempt (self s)).
Definition counted (s : state W) : Prop := 0 <= r_attempt (self s) /\ Forall (fun r => 0 <= r_attempt r) (required s).
(** No request is added but from the budget, and the counters stay counters. *)
Definition fine s s' : Prop := (load s' <= load s)%nat /\ (counted s -> counted s').
#[local] Instance fine_preorder : PreOrder fine.
Proof. split; [by split|]. intros a b c [] []. split; [lia|auto]. Qed.
Lemma calm_fine s s' : calm s s' -> fine s s'.
Proof. intros [Ha Hl Hn _]. split; [done|]. intros [? ?]. split; [lia|auto]. Qed.
Lemma calm_rounds s s' : calm s s' -> (rounds s' <= rounds s)%nat.
Proof. intros [Ha Hl _ _]. unfold rounds. rewrite Ha. nia. Qed.

Lemma twp_mono {A} (m : M (state W) A) (P Q : A -> state W -> Prop) s : twp m P s -> (forall a s', P a s' -> Q a s') -> twp m Q s.
Proof. unfold twp. destruct (m s); auto. Qed.
Lemma twp_bind {A B} (m : M (state W) A) (k : A -> M (state W) B) Q s : twp m (fun a s' => twp (k a) Q s') s -> twp (m ≫= k) Q s.
Proof. unfold twp, mbind, M_bind. by destruct (m s). Qed.
Lemma twp_step {A B} (m : M (state W) A) (k : A -> M (state W) B) Q s : steady m -> (forall a s', calm s s' -> twp (k a) Q s') -> twp (m ≫= k) Q s.
Proof. intros Hm Hk. apply twp_bind. specialize (Hm s). unfold twp in *. destruct (m s); [by apply Hk|done..]. Qed.
Lemma twp_field {A B} (f : in3_req_t -> A) (k : A -> M (state W) B) Q s : twp (k (f (self s))) Q s -> twp (field f ≫= k) Q s.
Proof. done. Qed.
Lemma twp_upd {B} f (k : unit -> M (state W) B) Q s : twp (k tt) Q (mk_state (f (self s)) (required s) (client s) (world s)) -> twp (upd f ≫= k) Q s.
Proof. done. Qed.
Lemma twp_fine {A} (m : M (state W) A) s0 s : steady m -> fine s0 s -> twp m (fun _ s' => fine s0 s') s.
Proof. intros Hm Hs. specialize (Hm s). unfold twp in *. destruct (m s); [|done..]. etrans; [done|by apply calm_fine]. Qed.

Lemma response_free_twp Q s :
  (forall s', r_attempt (self s') = r_attempt (self s) -> required s' = required s -> world s' = world s -> Q tt s') -> twp (response_free (W := W)) Q s.
Proof.
  intros HQ. unfold response_free, free, twp, mbind, M_bind. cbn. repeat (case_match; cbn; try done); unfold mret, M_ret, upd, modify in *; simplify_eq/=; by apply HQ.
Qed.

(** A failed round uses up one attempt, or the response was dropped. *)
Lemma next_attempt_twp again ret s0 s n :
  fine s0 s -> counted s -> (is_Some (raw_response (self s)) /\ (rounds s <= n)%nat \/ (rounds s < n)%nat) ->
  (forall s', counted s' -> fine s s' -> (rounds s' < n)%nat -> twp again (fun _ s'' => fine s' s'') s') ->
  twp (next_attempt plugins max_attempts again ret) (fun _ s' => fine s0 s') s.
Proof.
  intros H0 Hc Hn Hag. unfold next_attempt. apply twp_upd. cbn beta. apply twp_bind, response_free_twp. cbn [self required world].
  intros s' Ha Hr Hw. apply twp_field.
  assert (r_attempt (self s) <= r_attempt (self s')) as Hle by (rewrite Ha; case_match; cbn; lia).
  assert (is_Some (raw_response (self s)) -> r_attempt (self s') = r_attempt (self s) + 1) as Hnext by (intros [raw E]; rewrite Ha, E; done).
  assert (load s' = load s) as Hl by (unfold load; by rewrite Hr, Hw).
  assert (counted s') as Hc' by (destruct Hc; split; [lia|by rewrite Hr]).
  assert (fine s s') as Hf by (split; [lia|done]).
  destruct (Z.ltb_spec (r_attempt (self s')) max_attempts) as [Hlt|].
  - apply twp_upd. eapply twp_mono; [apply Hag|].
    + done.
    + done.
    + unfold rounds in *. change (load _) with (load s'). cbn [self set_error set_vstate r_attempt]. rewrite Hl. destruct Hn as [[Hraw ?]|]; [rewrite (Hnext Hraw) in *|]; lia.
    + intros ? s2 H2. etrans; [exact H0|]. etrans; [exact Hf|exact H2].
  - apply twp_fine; [steady|by etrans].
Qed.

Lemma execute_rpc_twp again s0 s :
  fine s0 s -> counted s ->
  (forall s', counted s' -> fine s s' -> (rounds s' < rounds s)%nat -> twp again (fun _ s'' => fine s' s'') s') ->
  twp (execute_rpc plugins max_attempts again) (fun _ s' => fine s0 s') s.
Proof.
  intros H0 Hc Hag. unfold execute_rpc. do 2 apply twp_field. apply twp_step; [steady|]. intros e s1 H1.
  assert (fine s0 s1) as F1 by (etrans; [exact H0|by apply calm_fine]).
  destruct (e <? 0); [apply twp_fine; [steady|done]|]. apply twp_step; [steady|]. intros e2 s2 H2.
  assert (fine s0 s2) as F2 by (etrans; [exact F1|by apply calm_fine]).
  destruct (negb _); [by apply twp_fine; [steady|]|]. apply twp_field. destruct (raw_response (self s2)) as [raw|] eqn:Hraw; [|by apply twp_fine; [steady|]].
  apply twp_step; [steady|]. intros [r node] s3 H3. cbn [fst snd]. apply twp_step; [steady|]. intros ? s4 H4.
  assert (calm s s4) as C4 by (etrans; [exact H1|]; etrans; [exact H2|]; by etrans).
  assert (fine s0 s4) as F4 by (etrans; [exact H0|by apply calm_fine]).
  assert (calm s2 s4) as C24 by (etrans; [exact H3|exact H4]). assert (calm s s2) as C2 by (etrans; [exact H1|exact H2]). apply calm_rounds in C2 as R2.
  destruct (_ || _); [by apply twp_fine; [steady|]|]. apply (next_attempt_twp _ _ _ _ (rounds s)); [done|by apply calm_fine in C4 as [_ ?]; auto| |].
  - destruct (calm_raw _ _ _ C24) as [?|Hl]; [by rewrite Hraw|left; split; [done|by apply calm_rounds]|]. right. pose proof (calm_attempt _ _ _ C24) as Ha. unfold rounds in *. rewrite Ha. nia.
  - intros s' Hc' Hf' Hr'. apply Hag; [done| |done]. etrans; [apply calm_fine, C4|done].
Qed.
(** The required request is run as a request of its own. *)
Lemma on_required_twp m s :
  counted s -> required s <> [] ->
  (forall s', counted s' -> (rounds s' < rounds s)%nat -> twp m (fun _ s'' => fine s' s'') s') ->
  twp (on_required (A := Z) m) (fun _ s' => fine s s' /\ self s' = self s) s.
Proof.
  intros [Ha Hreq] Hne Hm. unfold twp, on_required. destruct (required s) as [|r t] eqn:E; [done|]. inversion Hreq as [|? ? Hr Ht]; subst.
  specialize (Hm (mk_state r t (client s) (world s))). unfold twp in Hm. destruct (m _) as [a s1|e s1| |]; [|done|done|].
  - destruct Hm as [Hl Hc]; [by split|unfold rounds, ReqProgress.load; rewrite E; cbn -[Z.to_nat]; lia|]. split; [|done]. split; [unfold ReqProgress.load in *; rewrite E; cbn in *; lia|].
    intros _. destruct Hc as [? ?]; [by split|]. split; [done|by constructor].
  - apply Hm; [by split|]. unfold rounds, ReqProgress.load. rewrite E. cbn -[Z.to_nat]. lia.
Qed.

Lemma execute_ends fuel s : counted s -> (rounds s < fuel)%nat -> twp (in3_req_execute plugins max_attempts fuel) (fun _ s' => fine s s') s.
Proof.
  revert s. induction fuel as [|f IH]; intros s Hc Hf; [lia|]. cbn [in3_req_execute]. apply twp_field.
  destruct (r_error (self s)); [by apply twp_fine; [steady|]|]. apply twp_field. apply twp_step; [steady|]. intros ok s1 H1.
  assert (fine s s1) as F1 by by apply calm_fine. apply calm_rounds in H1 as R1. destruct (negb ok); [by apply twp_fine; [steady|]|].
  apply twp_bind. change (twp (gets required) ?Q s1) with (Q (required s1) s1). cbn beta. apply twp_bind.
  apply (twp_mono _ (fun _ s2 => fine s1 s2 /\ self s2 = self s1)).
  { destruct (required s1) eqn:E; [done|]. apply on_required_twp; [by apply F1|by rewrite E|]. intros s' Hc' Hr'. apply IH; [done|lia]. }
  intros ret s2 [F2 Hself]. assert (fine s s2) as F02 by (etrans; [exact F1|exact F2]).
  assert (rounds s2 <= rounds s1)%nat as R2 by (destruct F2 as [Hl _]; unfold rounds; rewrite Hself; nia).
  destruct (_ && _); [by apply twp_fine; [steady|]|]. apply twp_step; [steady|]. intros ? s3 H3.
  assert (fine s s3) as F3 by (etrans; [exact F02|by apply calm_fine]). apply calm_rounds in H3 as R3. do 2 apply twp_field.
  destruct (_ && _); [by apply twp_fine; [steady|]|]. apply twp_field. destruct (r_type (self s3)); [|by apply twp_fine; [steady|]].
  apply execute_rpc_twp; [done|by apply F3|]. intros s' Hc' Hf' Hr'. apply IH; [done|lia].
Qed.
End Termination.

(** C32. An execution ends.  Let the plugins end, count no attempts of the request, not ask for a
    retry of the report of an error, and let a budget that their state determines bound what they do
    to the chain of requests: adding a required request, or dropping the response of the request, takes
    one from it.  Then [max_attempts] more rounds for the request, for each one it requires and for
    each one the budget allows are enough: the model never runs out of fuel, whatever the nodes
    answered, and afterwards the counters are counters again and the requests and the budget together
    have not become more. *)
Theorem execute_terminates `{SourceText} {W : Type} (budget : W -> nat) (plugins : list (in3_plugin_t W)) max_attempts fuel (s : state W) :
  Forall (tame_plugin budget) plugins -> Forall (fun r => 0 <= r_attempt r) (self s :: required s) -> (rounds budget max_attempts s < fuel)%nat ->
  in3_req_execute plugins max_attempts fuel s <> NoFuel /\
  forall e s', in3_req_execute plugins max_attempts fuel s = Ok e s' ->
    (length (required s') + budget (world s') <= length (required s) + budget (world s))%nat /\ Forall (fun r => 0 <= r_attempt r) (self s' :: required s').
Proof.
  intros Hp Hc Hf. inversion Hc as [|? ? Ha Hr]; subst. pose proof (execute_ends budget plugins max_attempts Hp fuel s (conj Ha Hr) Hf) as He. unfold twp in He.
  destruct (in3_req_execute _ _ _ _) as [e s'| | |]; [|done..]. split; [done|]. intros ? ? [= <- <-]. destruct He as [Hl [? ?]]; [by split|]. split; [done|by constructor].
Qed.
(** A verifier that needs as many requests of its own as its state says, and refuses the response
    as long as it does. *)
Definition asking_verifier : in3_plugin_t nat := mk_plugin PLGN_ACT_RPC_VERIFY (fun _ c s =>
  match world s with
  | O => Ok (IN3_OK, c) s
  | S n => Ok (IN3_EINVAL, c) (mk_state (self s) (set_attempt 0 (set_raw None (self s)) :: required s) (client s) n)
  end).
Lemma asking_tame : tame_plugin id asking_verifier.
Proof.
  split.
  - intros act c s. unfold twp. cbn. destruct (world s) eqn:E; [reflexivity|]. split; cbn; [done|unfold load; rewrite E; cbn; lia|by constructor|auto].
  - intros c s r c' s'. cbn. by destruct (world s); intros [= <- _ _].
Qed.
(** The first verification adds a request and refuses the answer, and the request gives up. *)
Lemma execute_terminates_witness :
  let s := answered 1 ["{'id':1,'result':8}"] in
  in3_req_execute (H := no_text) [asking_verifier] 1 5 (mk_state (self s) [] (client s) 1%nat) <> NoFuel.
Proof.
  intros s. apply (execute_terminates (H := no_text) id [asking_verifier] 1 5 (mk_state (self s) [] (client s) 1%nat)); [constructor; [apply asking_tame|constructor]|repeat constructor; vm_compute; done|vm_compute; lia].
Defined.

(** ** What a chain of requests waits for *)

Lemma find_app {A} (f : A -> bool) l k : find f (l ++ k) = match find f l with Some x => Some x | None => find f k end.
Proof. induction l as [|x l IH]; [done|]. cbn. by destruct (f x). Qed.
(** The state of a request by itself. *)
Definition own_state (r : in3_req_t) : in3_req_state_t :=
  match raw_response r with
  | None => REQ_WAITING_TO_SEND
  | Some raw =>
      match r_type r with
      | RT_RPC => match response_context r with Null => REQ_WAITING_FOR_RESPONSE | _ => REQ_SUCCESS end
      | RT_SIGN => match raw with x :: _ => if rs_state x =? IN3_WAITING then REQ_WAITING_FOR_RESPONSE else REQ_SUCCESS | [] => REQ_SUCCESS end
      end
  end.
(** [in3_req_state] of a request and those behind it: REQ_ERROR exactly if one of them has an
    error; otherwise the state of the last request of the chain that is not done, and REQ_SUCCESS if
    all are.  Every request of the chain that was sent has room for a response. *)
Theorem req_state_spec (rs : list in3_req_t) :
  Forall (fun r => raw_response r <> Some []) rs ->
  in3_req_state rs tt =
    Ok (if existsb (fun r => bool_decide (is_Some (r_error r))) rs then REQ_ERROR
        else default REQ_SUCCESS (find (fun q => bool_decide (q <> REQ_SUCCESS)) (rev (map own_state rs)))) tt.
Proof.
  induction 1 as [|r t Hr _ IH]; [done|]. cbn [in3_req_state existsb map rev]. unfold mbind, M_bind. rewrite IH. rewrite find_app.
  destruct (existsb _ t); [by rewrite orb_true_r|]. rewrite orb_false_r.
  assert (find (fun q => bool_decide (q <> REQ_SUCCESS)) (rev (map own_state t)) <> Some REQ_SUCCESS) as Hns.
  { intros E. apply find_some in E as [_ E]. by apply bool_decide_eq_true in E. }
  assert (find (fun q => bool_decide (q <> REQ_SUCCESS)) (rev (map own_state t)) <> Some REQ_ERROR) as Hne.
  { intros E. apply find_some in E as [E _]. apply in_rev, in_map_iff in E as (x & E & _). unfold own_state in E. repeat case_match; done. }
  destruct (bool_decide (is_Some (r_error r))) eqn:Eerr; [by rewrite orb_true_r|]. rewrite orb_false_r.
  destruct (find _ (rev (map own_state t))) as [[]|] eqn:Ef; cbn [default bool_decide]; try done.
  all: try (rewrite !bool_decide_eq_false_2 by done; cbn; rewrite bool_decide_eq_false_2; [done|]; intros ->; done).
  rewrite bool_decide_eq_false_2 by done. rewrite (bool_decide_eq_true_2 (REQ_SUCCESS = REQ_SUCCESS)) by done. rewrite andb_false_r. cbn. unfold own_state.
  destruct (raw_response r) as [raw|]; [|done]. destruct (r_type r), (response_context r); try done; destruct raw as [|x raw]; try done; cbn; by destruct (_ =? _).
Qed.
(** A request that was answered needs a signature that was not yet asked for. *)
Lemma req_state_spec_witness : in3_req_state [self (answered 1 ["7"]); set_raw None (self (answered 1 []))] tt = Ok REQ_WAITING_TO_SEND tt.
Proof. apply (req_state_spec [self (answered 1 ["7"]); set_raw None (self (answered 1 []))]). repeat constructor; done. Defined.
