(* ===== verification/Serialize.v ===== *)
(** * verifier/eth1/nano/serialize.c: RLP of accounts, transactions, headers and receipts

    The verifiers compare the JSON objects of a response with hashes by writing them in RLP again.
    A builder is threaded through [rlp_add]; [None] is undefined behaviour.  Each function is shown
    to write the RLP list of the fields of the yellow paper, a field being the bytes of the token
    brought to its form ([field_bytes]). *)
From S2P Require Import Prelude Utils Bytes Rlp Merkle Data Json JsonVal.
From stdpp Require Import strings.
#[local] Open Scope Z_scope.

Definition K_NONCE : Z := Eval vm_compute in key "nonce".
Definition K_BALANCE : Z := Eval vm_compute in key "balance".
Definition K_STORAGE_HASH : Z := Eval vm_compute in key "storageHash".
Definition K_CODE_HASH : Z := Eval vm_compute in key "codeHash".
Definition K_TYPE : Z := Eval vm_compute in key "type".
Definition K_GAS_PRICE : Z := Eval vm_compute in key "gasPrice".
Definition K_GAS : Z := Eval vm_compute in key "gas".
Definition K_GAS_LIMIT : Z := Eval vm_compute in key "gasLimit".
Definition K_TO : Z := Eval vm_compute in key "to".
Definition K_VALUE : Z := Eval vm_compute in key "value".
Definition K_INPUT : Z := Eval vm_compute in key "input".
Definition K_DATA : Z := Eval vm_compute in key "data".
Definition K_CHAIN_ID : Z := Eval vm_compute in key "chainId".
Definition K_ACCESS_LIST : Z := Eval vm_compute in key "accessList".
Definition K_MAX_PRIORITY_FEE_PER_GAS : Z := Eval vm_compute in key "maxPriorityFeePerGas".
Definition K_MAX_FEE_PER_GAS : Z := Eval vm_compute in key "maxFeePerGas".
Definition K_V : Z := Eval vm_compute in key "v".
Definition K_R : Z := Eval vm_compute in key "r".
Definition K_S : Z := Eval vm_compute in key "s".
Definition K_ADDRESS : Z := Eval vm_compute in key "address".
Definition K_STORAGE_KEYS : Z := Eval vm_compute in key "storageKeys".
Definition K_STORAGE_PROOF : Z := Eval vm_compute in key "storageProof".
Definition K_PARENT_HASH : Z := Eval vm_compute in key "parentHash".
Definition K_SHA3_UNCLES : Z := Eval vm_compute in key "sha3Uncles".
Definition K_MINER : Z := Eval vm_compute in key "miner".
Definition K_COINBASE : Z := Eval vm_compute in key "coinbase".
Definition K_STATE_ROOT : Z := Eval vm_compute in key "stateRoot".
Definition K_TRANSACTIONS_ROOT : Z := Eval vm_compute in key "transactionsRoot".
Definition K_RECEIPT_ROOT : Z := Eval vm_compute in key "receiptRoot".
Definition K_RECEIPTS_ROOT : Z := Eval vm_compute in key "receiptsRoot".
Definition K_LOGS_BLOOM : Z := Eval vm_compute in key "logsBloom".
Definition K_DIFFICULTY : Z := Eval vm_compute in key "difficulty".
Definition K_NUMBER : Z := Eval vm_compute in key "number".
Definition K_GAS_USED : Z := Eval vm_compute in key "gasUsed".
Definition K_TIMESTAMP : Z := Eval vm_compute in key "timestamp".
Definition K_EXTRA_DATA : Z := Eval vm_compute in key "extraData".
Definition K_SEAL_FIELDS : Z := Eval vm_compute in key "sealFields".
Definition K_MIX_HASH : Z := Eval vm_compute in key "mixHash".
Definition K_BASE_GAS_FEE : Z := Eval vm_compute in key "baseFeePerGas".
Definition K_STATUS : Z := Eval vm_compute in key "status".
Definition K_ROOT : Z := Eval vm_compute in key "root".
Definition K_CUMULATIVE_GAS_USED : Z := Eval vm_compute in key "cumulativeGasUsed".
Definition K_LOGS : Z := Eval vm_compute in key "logs".
Definition K_TOPICS : Z := Eval vm_compute in key "topics".

Definition UINT : Z := 0.
Definition BYTES : Z := -1.
Definition ADDRESS : Z := -20.
Definition HASH : Z := 32.
Definition BLOOM : Z := 256.

(** ** Fields *)

(** The loop that removes leading zeros of a number, down to one byte. *)
Fixpoint strip_uint (l : list Z) : list Z := match l with x :: ((_ :: _) as t) => if x =? 0 then strip_uint t else l | _ => l end.
Section Alloc.
Context `{Allocator}.

(** NULL is [None]. *)
Definition rlp_add_bytes (bb : bytes_builder_t) (b : option (list Z)) (ml : Z) : option bytes_builder_t :=
  let b := default [] b in
  let b := if ml =? 0 then strip_uint b else b in
  let b := if (ml =? 0) && bool_decide (b = [0]) then [] else b in
  let ml := if ml <? 0 then if (length b =? 0)%nat then 0 else - ml else ml in
  if zlen b <? ml then rlp_encode_item bb (fill_left (Z.to_nat ml) b) else rlp_encode_item bb b.
(** A container is not written; the callers do not look at the result. *)
Definition rlp_add (bb : bytes_builder_t) (t : option jval) (ml : Z) : option bytes_builder_t :=
  match t with
  | None | Some JNull => rlp_add_bytes bb (Some []) ml
  | Some (JArray _) | Some (JObject _) => Some bb
  | Some _ => rlp_add_bytes bb (d_bytes t) ml
  end.
(** [&bb->b] *)
Definition bb_bytes (bb : bytes_builder_t) : option (list Z) := match bb_data bb with None => Some [] | Some _ => bb_content bb end.
Definition convert_to_typed_list (rlp : bytes_builder_t) (type : Z) : option (list Z) :=
  rlp ← rlp_encode_to_list rlp;
  rlp ← (if type =? 0 then Some rlp
         else
           rlp ← bb_check_size rlp 1;
           d ← bb_data rlp;
           old ← read_at d 0 (Z.to_nat (bb_len rlp));
           d ← memcpy_at d 1 old;
           d ← memcpy_at d 0 [u8 type];
           Some (mk_bb (bb_bsize rlp) (Some d) (u32 (bb_len rlp + 1)) (bb_heap rlp)));
  bb_bytes rlp.

(** ** Access lists *)
Fixpoint add_storage_keys (bb3 : bytes_builder_t) (keys : list jval) : option bytes_builder_t :=
  match keys with
  | k :: t => if d_is_bytes k then bb3 ← rlp_add bb3 (Some k) HASH; add_storage_keys bb3 t else Some bb3
  | [] => Some bb3
  end.
Fixpoint add_access (bb1 bb2 bb3 : bytes_builder_t) (l : list jval) : option bytes_builder_t :=
  match l with
  | JObject kvs as adr :: t =>
      if negb (jlen (Some adr) =? 2) then Some bb1
      else
        let bb2 := bb_clear bb2 in
        let bb3 := bb_clear bb3 in
        bb2 ← rlp_add bb2 (jget (Some adr) K_ADDRESS) ADDRESS;
        let keys := match jget (Some adr) K_STORAGE_KEYS with Some k => Some k | None => jget (Some adr) K_STORAGE_PROOF end in
        ks ← (match keys with Some k => d_iter (Some k) | None => Some [] end);
        bb3 ← add_storage_keys bb3 ks;
        c3 ← bb_bytes bb3;
        bb2 ← rlp_encode_list bb2 c3;
        c2 ← bb_bytes bb2;
        bb1 ← rlp_encode_list bb1 c2;
        add_access bb1 bb2 bb3 t
  | _ => Some bb1
  end.
Definition rlp_add_list (rlp : bytes_builder_t) (t : option jval) : option bytes_builder_t :=
  l ← d_iter t;
  bb1 ← add_access bb_null bb_null bb_null l;
  c1 ← bb_bytes bb1;
  rlp_encode_list rlp c1.

(** ** Objects *)
Definition serialize_account (a : option jval) : option (list Z) :=
  rlp ← rlp_add bb_new (jget a K_NONCE) UINT;
  rlp ← rlp_add rlp (jget a K_BALANCE) UINT;
  rlp ← rlp_add rlp (d_getl a K_STORAGE_HASH 32) HASH;
  rlp ← rlp_add rlp (d_getl a K_CODE_HASH 32) HASH;
  rlp ← rlp_encode_to_list rlp;
  bb_bytes rlp.

(** The fields all types have: gas, receiver, value and data. *)
Definition add_call (rlp : bytes_builder_t) (tx : option jval) : option bytes_builder_t :=
  gas ← jget_or tx K_GAS K_GAS_LIMIT;
  rlp ← rlp_add rlp gas UINT;
  rlp ← rlp_add rlp (d_getl tx K_TO 20) ADDRESS;
  rlp ← rlp_add rlp (jget tx K_VALUE) UINT;
  data ← jget_or tx K_INPUT K_DATA;
  rlp_add rlp data BYTES.
(** The switch over the type. *)
Definition add_tx_fields (rlp : bytes_builder_t) (tx : option jval) : option bytes_builder_t :=
  let type := d_int (jget tx K_TYPE) in
  if type =? 0 then
    rlp ← rlp_add rlp (jget tx K_NONCE) UINT;
    rlp ← rlp_add rlp (jget tx K_GAS_PRICE) UINT;
    add_call rlp tx
  else if type =? 1 then
    rlp ← rlp_add rlp (jget tx K_CHAIN_ID) UINT;
    rlp ← rlp_add rlp (jget tx K_NONCE) UINT;
    rlp ← rlp_add rlp (jget tx K_GAS_PRICE) UINT;
    rlp ← add_call rlp tx;
    rlp_add_list rlp (jget tx K_ACCESS_LIST)
  else if type =? 2 then
    rlp ← rlp_add rlp (jget tx K_CHAIN_ID) UINT;
    rlp ← rlp_add rlp (jget tx K_NONCE) UINT;
    rlp ← rlp_add rlp (jget tx K_MAX_PRIORITY_FEE_PER_GAS) UINT;
    rlp ← rlp_add rlp (jget tx K_MAX_FEE_PER_GAS) UINT;
    rlp ← add_call rlp tx;
    rlp_add_list rlp (jget tx K_ACCESS_LIST)
  else Some rlp.
Definition serialize_tx (tx : option jval) : option (list Z) :=
  rlp ← add_tx_fields bb_new tx;
  rlp ← rlp_add rlp (jget tx K_V) UINT;
  rlp ← rlp_add rlp (d_getl tx K_R 32) UINT;
  rlp ← rlp_add rlp (d_getl tx K_S 32) UINT;
  convert_to_typed_list rlp (d_int (jget tx K_TYPE)).

Record eth_tx_data_t := mk_tx {
  tx_type : Z; tx_gas_limit : option (list Z); tx_to : option (list Z); tx_value : option (list Z); tx_data : option (list Z); tx_nonce : option (list Z);
  tx_gas_price : option (list Z); tx_max_fee_per_gas : option (list Z); tx_max_priority_fee_per_gas : option (list Z); tx_access_list : option jval }.
Definition add_call_raw (rlp : bytes_builder_t) (tx : eth_tx_data_t) : option bytes_builder_t :=
  rlp ← rlp_add_bytes rlp (tx_gas_limit tx) UINT;
  rlp ← rlp_add_bytes rlp (tx_to tx) ADDRESS;
  rlp ← rlp_add_bytes rlp (tx_value tx) UINT;
  rlp_add_bytes rlp (tx_data tx) BYTES.
Definition add_tx_fields_raw (rlp : bytes_builder_t) (tx : eth_tx_data_t) (chain_id : Z) : option bytes_builder_t :=
  let chain := Some (be_bytes 8 chain_id) in
  if tx_type tx =? 0 then
    rlp ← rlp_add_bytes rlp (tx_nonce tx) UINT;
    rlp ← rlp_add_bytes rlp (tx_gas_price tx) UINT;
    add_call_raw rlp tx
  else if tx_type tx =? 1 then
    rlp ← rlp_add_bytes rlp chain UINT;
    rlp ← rlp_add_bytes rlp (tx_nonce tx) UINT;
    rlp ← rlp_add_bytes rlp (tx_gas_price tx) UINT;
    rlp ← add_call_raw rlp tx;
    rlp_add_list rlp (tx_access_list tx)
  else if tx_type tx =? 2 then
    rlp ← rlp_add_bytes rlp chain UINT;
    rlp ← rlp_add_bytes rlp (tx_nonce tx) UINT;
    rlp ← rlp_add_bytes rlp (tx_max_priority_fee_per_gas tx) UINT;
    rlp ← rlp_add_bytes rlp (tx_max_fee_per_gas tx) UINT;
    rlp ← add_call_raw rlp tx;
    rlp_add_list rlp (tx_access_list tx)
  else Some rlp.
(** The signature is written if [v] is not 0. *)
Definition serialize_tx_raw (tx : eth_tx_data_t) (chain_id v : Z) (r s : option (list Z)) : option (list Z) :=
  rlp ← add_tx_fields_raw bb_new tx chain_id;
  rlp ← (if v =? 0 then Some rlp
         else
           rlp ← rlp_add_bytes rlp (Some (optimize_len (be_bytes 8 v))) UINT;
           rlp ← rlp_add_bytes rlp r UINT;
           rlp_add_bytes rlp s UINT);
  convert_to_typed_list rlp (tx_type tx).

Fixpoint add_sealed (rlp : bytes_builder_t) (l : list (option jval)) : option bytes_builder_t :=
  match l with
  | [] => Some rlp
  | t :: l' => rlp ← bb_write_raw_bytes rlp (default [] (d_bytes t)); add_sealed rlp l'
  end.
Definition serialize_block_header (block : option jval) : option (list Z) :=
  rlp ← rlp_add bb_new (d_getl block K_PARENT_HASH 32) HASH;
  rlp ← rlp_add rlp (jget block K_SHA3_UNCLES) HASH;
  rlp ← (match d_getl block K_MINER 20 with
         | Some t => rlp_add rlp (Some t) ADDRESS
         | None => match d_getl block K_COINBASE 20 with Some t => rlp_add rlp (Some t) ADDRESS | None => Some rlp end
         end);
  rlp ← rlp_add rlp (d_getl block K_STATE_ROOT 32) HASH;
  rlp ← rlp_add rlp (d_getl block K_TRANSACTIONS_ROOT 32) HASH;
  rlp ← (match d_getl block K_RECEIPT_ROOT 32 with
         | Some t => rlp_add rlp (Some t) HASH
         | None => match d_getl block K_RECEIPTS_ROOT 32 with Some t => rlp_add rlp (Some t) HASH | None => Some rlp end
         end);
  rlp ← rlp_add rlp (d_getl block K_LOGS_BLOOM 256) BLOOM;
  rlp ← rlp_add rlp (jget block K_DIFFICULTY) UINT;
  rlp ← rlp_add rlp (jget block K_NUMBER) UINT;
  rlp ← rlp_add rlp (jget block K_GAS_LIMIT) UINT;
  rlp ← rlp_add rlp (jget block K_GAS_USED) UINT;
  rlp ← rlp_add rlp (jget block K_TIMESTAMP) UINT;
  rlp ← rlp_add rlp (jget block K_EXTRA_DATA) BYTES;
  rlp ← (match jget block K_SEAL_FIELDS with
         | Some sealed => add_sealed rlp (items_of (Some sealed))
         | None =>
             rlp ← rlp_add rlp (d_getl block K_MIX_HASH 32) HASH;
             rlp_add rlp (jget block K_NONCE) BYTES
         end);
  rlp ← (if d_long (jget block K_BASE_GAS_FEE) =? 0 then Some rlp else rlp_add rlp (norm <$> jget block K_BASE_GAS_FEE) UINT);
  rlp ← rlp_encode_to_list rlp;
  bb_bytes rlp.

Fixpoint add_topics (bb : bytes_builder_t) (l : list (option jval)) : option bytes_builder_t :=
  match l with [] => Some bb | t :: l' => bb ← rlp_add bb t HASH; add_topics bb l' end.
Fixpoint add_logs (rlp_loglist rlp_log rlp_topics : bytes_builder_t) (l : list (option jval)) : option bytes_builder_t :=
  match l with
  | [] => Some rlp_loglist
  | lg :: t =>
      let rlp_log := bb_clear rlp_log in
      rlp_log ← rlp_add rlp_log (d_getl lg K_ADDRESS 20) ADDRESS;
      let rlp_topics := bb_clear rlp_topics in
      rlp_topics ← add_topics rlp_topics (items_of (jget lg K_TOPICS));
      ts ← bb_bytes rlp_topics;
      rlp_log ← rlp_encode_list rlp_log ts;
      rlp_log ← rlp_add rlp_log (jget lg K_DATA) BYTES;
      c ← bb_bytes rlp_log;
      rlp_loglist ← rlp_encode_list rlp_loglist c;
      add_logs rlp_loglist rlp_log rlp_topics t
  end.
Definition serialize_tx_receipt (receipt : option jval) : option (list Z) :=
  rlp ← (match jget receipt K_STATUS with
         | Some t => rlp_add bb_new (Some t) UINT
         | None => match d_getl receipt K_ROOT 32 with Some t => rlp_add bb_new (Some t) UINT | None => Some bb_new end
         end);
  rlp ← rlp_add rlp (jget receipt K_CUMULATIVE_GAS_USED) UINT;
  rlp ← rlp_add rlp (d_getl receipt K_LOGS_BLOOM 256) BLOOM;
  loglist ← (match jget receipt K_LOGS with Some logs => add_logs bb_new bb_new bb_new (items_of (Some logs)) | None => Some bb_new end);
  c ← bb_bytes loglist;
  rlp ← rlp_encode_list rlp c;
  convert_to_typed_list rlp (d_int (jget receipt K_TYPE)).
End Alloc.

(** ** What is written *)

(** A field in the form for its kind: numbers without leading zeros, hashes and addresses filled up. *)
Fixpoint strip_zeros (l : list Z) : list Z := match l with x :: t => if x =? 0 then strip_zeros t else l | [] => [] end.
Definition field_bytes (ml : Z) (b : list Z) : list Z :=
  if ml =? 0 then strip_zeros b else if ml <? 0 then match b with [] => [] | _ => fill_left (Z.to_nat (- ml)) b end else fill_left (Z.to_nat ml) b.
Definition rlp_field (ml : Z) (t : option jval) : list rlp_item :=
  match t with
  | None | Some JNull => [Str (field_bytes ml [])]
  | Some (JArray _) | Some (JObject _) => []
  | Some _ => [Str (field_bytes ml (default [] (d_bytes t)))]
  end.
Definition typed (type : Z) (l : list Z) : list Z := if type =? 0 then l else u8 type :: l.

Lemma fill_left_id n l : (n <= length l)%nat -> fill_left n l = l.
Proof. intros Hn. unfold fill_left. by replace (n - length l)%nat with 0%nat by lia. Qed.
Lemma strip_uint_zeros l : (if bool_decide (strip_uint l = [0]) then [] else strip_uint l) = strip_zeros l.
Proof.
  induction l as [|x [|y t] IH]; [done| |].
  - cbn. destruct (Z.eqb_spec x 0) as [->|Hx]; [done|]. rewrite bool_decide_eq_false_2; [done|]. congruence.
  - cbn [strip_uint strip_zeros]. destruct (x =? 0) eqn:E; [exact IH|]. by rewrite bool_decide_eq_false_2.
Qed.

Section Appends.
Context `{Allocator}.
(** A step that writes [l] to whatever builder it is given. *)
Definition appends (f : bytes_builder_t -> option bytes_builder_t) (l : list Z) : Prop :=
  forall bb c, bb_rep bb c -> zlen c + zlen l + 5 < 2 ^ 32 -> exists bb', f bb = Some bb' /\ bb_rep bb' (c ++ l).
Lemma appends_nil : appends Some [].
Proof. intros bb c Hr _. exists bb. by rewrite app_nil_r. Qed.
Lemma appends_bind f g l k : appends f l -> appends g k -> appends (fun bb => f bb ≫= g) (l ++ k).
Proof.
  intros Hf Hg bb c Hr Hl. rewrite length_app in Hl. destruct (Hf bb c Hr) as (bb1 & -> & H1); [lia|]. destruct (Hg bb1 _ H1) as (bb2 & E & H2); [rewrite length_app; lia|].
  exists bb2. split; [exact E|]. by rewrite app_assoc.
Qed.
Lemma appends_item b : appends (fun bb => rlp_encode_item bb b) (rlp_string b).
Proof.
  intros bb c Hr Hl. apply rlp_encode_item_rep; [done|]. pose proof (enc_item_longer (Str b)). cbn in *. lia.
Qed.
Lemma appends_list b : appends (fun bb => rlp_encode_list bb b) (rlp_list b).
Proof. intros bb c Hr Hl. apply rlp_encode_list_rep; [done|]. unfold rlp_list in Hl. rewrite length_app in Hl. lia. Qed.
Lemma appends_field t ml : appends (fun bb => rlp_add bb t ml) (enc_items (rlp_field ml t)).
Proof.
  assert (forall b, appends (fun bb => rlp_add_bytes bb (Some b) ml) (enc_items [Str (field_bytes ml b)])) as Hb.
  { intros b bb c Hr Hl. cbn [enc_items map concat enc_item] in *. rewrite app_nil_r in *.
    assert (rlp_add_bytes bb (Some b) ml = rlp_encode_item bb (field_bytes ml b)) as ->; [|by apply appends_item].
    unfold rlp_add_bytes, field_bytes. change (default [] (Some b)) with b. destruct (Z.eqb_spec ml 0) as [->|Hm]; cbn [andb Z.ltb Z.compare].
    - rewrite strip_uint_zeros. destruct (Z.ltb_spec (zlen (strip_zeros b)) 0); [lia|done].
    - destruct (Z.ltb_spec ml 0).
      + destruct b as [|x b]; [done|]. change (length (x :: b) =? 0)%nat with false. cbn match. destruct (Z.ltb_spec (zlen (x :: b)) (- ml)) as [|Hge]; [done|]. rewrite fill_left_id; [done|lia].
      + destruct (Z.ltb_spec (zlen b) ml); [done|]. rewrite fill_left_id; [done|lia]. }
  destruct t as [[]|]; cbn [rlp_add rlp_field]; try apply Hb; apply appends_nil.
Qed.
Lemma bb_bytes_rep bb c : bb_rep bb c -> bb_bytes bb = Some c.
Proof.
  intros [Hl Hd]. unfold bb_bytes, bb_content. destruct (bb_data bb) as [d|]; [|by destruct Hd as [-> _]]. destruct Hd as (_ & _ & _ & Hle & Ht).
  cbn. rewrite Hl, Nat2Z.id. unfold read_at. rewrite (proj2 (Nat.leb_le _ _)) by (cbn; lia). by rewrite drop_0, Ht.
Qed.

(** ** Objects as lists of fields *)
Lemma appends_eq f l k : appends f l -> l = k -> appends f k.
Proof. by intros ? <-. Qed.
Lemma enc_items_app l k : enc_items (l ++ k) = enc_items l ++ enc_items k.
Proof. unfold enc_items. by rewrite map_app, concat_app. Qed.
Lemma appends_topics (l : list (option jval)) : appends (fun bb => add_topics bb l) (enc_items (concat (map (rlp_field HASH) l))).
Proof.
  induction l as [|t l IH]; [apply appends_nil|]. cbn [add_topics map concat]. rewrite enc_items_app. apply (appends_bind (fun bb => rlp_add bb t HASH)); [apply appends_field|exact IH].
Qed.
Definition log_fields (lg : option jval) : list rlp_item :=
  rlp_field ADDRESS (d_getl lg K_ADDRESS 20) ++ [Lst (enc_items (concat (map (rlp_field HASH) (items_of (jget lg K_TOPICS)))))] ++ rlp_field BYTES (jget lg K_DATA).
Definition receipt_fields (r : option jval) : list rlp_item :=
  match jget r K_STATUS with Some t => rlp_field UINT (Some t) | None => match d_getl r K_ROOT 32 with Some t => rlp_field UINT (Some t) | None => [] end end ++
  rlp_field UINT (jget r K_CUMULATIVE_GAS_USED) ++ rlp_field BLOOM (d_getl r K_LOGS_BLOOM 256) ++
  [Lst (enc_items (map (fun lg => Lst (enc_items (log_fields lg))) (match jget r K_LOGS with Some logs => items_of (Some logs) | None => [] end)))].

Lemma zlen_enc_le it its : it ∈ its -> zlen (enc_item it) <= zlen (enc_items its).
Proof. induction its as [|x its IH]; [by intros ?%elem_of_nil|]. change (x :: its) with ([x] ++ its). rewrite enc_items_app, length_app. cbn [enc_items map concat]. rewrite app_nil_r. intros [->|?]%elem_of_cons; [lia|]. specialize (IH ltac:(done)). lia. Qed.
Lemma enc_one it : enc_items [it] = enc_item it.
Proof. unfold enc_items. cbn [map concat]. apply app_nil_r. Qed.
Lemma zlen_lst_le p : zlen p <= zlen (rlp_list p).
Proof. unfold rlp_list. rewrite length_app. lia. Qed.
Lemma add_logs_appends l : forall lg tp c1 c2 bb c, bb_rep lg c1 -> bb_rep tp c2 -> bb_rep bb c ->
  zlen c + zlen (enc_items (map (fun lg => Lst (enc_items (log_fields lg))) l)) + 5 < 2 ^ 32 ->
  exists bb', add_logs bb lg tp l = Some bb' /\ bb_rep bb' (c ++ enc_items (map (fun lg => Lst (enc_items (log_fields lg))) l)).
Proof.
  induction l as [|t l IH]; intros lg tp c1 c2 bb c H1 H2 Hr Hl; [by apply appends_nil|]. cbn [map] in *.
  set (p := enc_items (log_fields t)) in *. assert (forall its, enc_items (Lst p :: its) = rlp_list p ++ enc_items its) as Ep by done. rewrite Ep in *. rewrite length_app in Hl.
  pose proof (zlen_lst_le p) as Hle. set (ts := enc_items (concat (map (rlp_field HASH) (items_of (jget t K_TOPICS))))) in *.
  assert (p = enc_items (rlp_field ADDRESS (d_getl t K_ADDRESS 20)) ++ rlp_list ts ++ enc_items (rlp_field BYTES (jget t K_DATA))) as Hp by (subst p ts; unfold log_fields; by rewrite !enc_items_app, enc_one).
  pose proof (f_equal length Hp) as Hpl. rewrite !length_app in Hpl. pose proof (zlen_lst_le ts) as Ht. cbn [add_logs]. cbv zeta.
  destruct (appends_field (d_getl t K_ADDRESS 20) ADDRESS _ _ (bb_clear_rep _ _ H1)) as (b1 & E1 & R1); [cbn [length]; lia|]. rewrite E1. cbn [mbind option_bind].
  destruct (appends_topics (items_of (jget t K_TOPICS)) _ _ (bb_clear_rep _ _ H2)) as (b2 & E2 & R2); [cbn [length]; fold ts; lia|]. rewrite E2. cbn [mbind option_bind]. rewrite (bb_bytes_rep _ _ R2). cbn [mbind option_bind app].
  fold ts in R2 |- *. cbn [app] in R1. destruct (appends_list ts _ _ R1) as (b3 & E3 & R3); [lia|]. rewrite E3. cbn [mbind option_bind].
  destruct (appends_field (jget t K_DATA) BYTES _ _ R3) as (b4 & E4 & R4); [rewrite length_app; lia|]. rewrite E4. cbn [mbind option_bind]. rewrite <- app_assoc, <- Hp in R4.
  rewrite (bb_bytes_rep _ _ R4). cbn [mbind option_bind]. destruct (appends_list p _ _ Hr) as (b5 & E5 & R5); [lia|].
  rewrite E5. cbn [mbind option_bind]. destruct (IH b4 b2 _ _ b5 _ R4 R2 R5) as (b6 & E6 & R6); [rewrite length_app; lia|]. exists b6. split; [exact E6|]. by rewrite app_assoc.
Qed.

(** ** Steps of the functions *)
Lemma then_appends {A} f l (k : bytes_builder_t -> option A) R bb c : appends f l -> bb_rep bb c -> zlen c + zlen l + 5 < 2 ^ 32 ->
  (forall bb', bb_rep bb' (c ++ l) -> k bb' = R) -> f bb ≫= k = R.
Proof. intros Hf Hr Hl Hk. destruct (Hf bb c Hr Hl) as (bb' & -> & Hr'). by apply Hk. Qed.
Lemma list_of_rep bb c : bb_rep bb c -> zlen c < 0x10000 -> (rlp ← rlp_encode_to_list bb; bb_bytes rlp) = Some (rlp_list c).
Proof. intros Hr Hc. destruct (rlp_encode_to_list_rep bb c Hr Hc) as (bb' & -> & Hr'). by apply bb_bytes_rep. Qed.
Lemma typed_list_rep bb c type : bb_rep bb c -> zlen c < 0x10000 -> convert_to_typed_list bb type = Some (typed type (rlp_list c)).
Proof.
  intros Hr Hc. unfold convert_to_typed_list, typed. destruct (rlp_encode_to_list_rep bb c Hr Hc) as (bb1 & -> & R1). cbn [mbind option_bind].
  destruct (type =? 0); [by apply bb_bytes_rep|]. assert (zlen (rlp_list c) <= zlen c + 5) as Hl by (unfold rlp_list; rewrite length_app; pose proof (rlp_header_length 0xc0 (zlen c)); lia).
  destruct (bb_check_size_rep bb1 (rlp_list c) 1 R1) as (bb2 & -> & R2 & _ & Hroom); [lia|lia|]. cbn [mbind option_bind]. destruct Hroom as [|(d & Ed & Hd)]; [lia|].
  pose proof R2 as [Hlen Hd2]. rewrite Ed in Hd2 |- *. destruct Hd2 as (_ & _ & _ & Hle & Ht). cbn [mbind option_bind]. rewrite Hlen, Nat2Z.id.
  unfold read_at. rewrite (proj2 (Nat.leb_le _ _)) by (cbn; lia). rewrite drop_0, Ht. cbn [mbind option_bind].
  rewrite memcpy_at_Some by lia. cbn [mbind option_bind]. rewrite memcpy_at_Some by (rewrite !length_app, length_take, length_drop; cbn [length]; lia). cbn [mbind option_bind].
  unfold bb_bytes, bb_content. cbn [bb_data bb_len mbind option_bind]. rewrite u32_small by lia. unfold read_at.
  destruct d as [|x d]; [cbn in Hd; lia|]. cbn [take app drop length]. replace (Z.to_nat (zlen (rlp_list c) + 1)) with (S (length (rlp_list c))) by lia.
  rewrite take_0. cbn [take app Nat.add drop length] in *. rewrite drop_0, (proj2 (Nat.leb_le _ _)) by (rewrite !length_app, length_drop; lia). by rewrite take_app_length.
Qed.
End Appends.
(** Run the steps of a serialisation; the sizes follow from the size of all fields. *)
Ltac ser_size := repeat rewrite length_app in *; cbn [length] in *; lia.
Ltac ser_step :=
  match goal with
  | |- (rlp_add _ ?t ?ml ≫= _) = _ => eapply (then_appends (fun bb => rlp_add bb t ml)); [apply appends_field|eassumption|ser_size|]; let b := fresh "bb" in let R := fresh "R" in intros b R
  | |- (rlp_encode_list _ ?l ≫= _) = _ => eapply (then_appends (fun bb => rlp_encode_list bb l)); [apply appends_list|eassumption|ser_size|]; let b := fresh "bb" in let R := fresh "R" in intros b R
  | |- (Some _ ≫= _) = _ => cbn [mbind option_bind]
  end.

(** The same for a step that is not a single call, seen as a function of the builder [bb]. *)
Ltac ser_by bb l lem :=
  match goal with |- mbind ?k ?e = ?R => let f := eval pattern bb in e in match f with ?g bb => eapply (then_appends g l); [lem|eassumption|ser_size|]; let b := fresh "bb" in let R := fresh "R" in intros b R end end.
Lemma receipt_serialized `{Allocator} (r : option jval) : zlen (enc_items (receipt_fields r)) < 0x10000 ->
  serialize_tx_receipt r = Some (typed (d_int (jget r K_TYPE)) (rlp_list (enc_items (receipt_fields r)))).
Proof.
  intros Hl. unfold serialize_tx_receipt. set (first := match jget r K_STATUS with Some t => rlp_field UINT (Some t) | None => match d_getl r K_ROOT 32 with Some t => rlp_field UINT (Some t) | None => [] end end).
  set (logs := match jget r K_LOGS with Some logs => items_of (Some logs) | None => [] end). set (lf := enc_items (map (fun lg => Lst (enc_items (log_fields lg))) logs)).
  assert (enc_items (receipt_fields r) = enc_items first ++ enc_items (rlp_field UINT (jget r K_CUMULATIVE_GAS_USED)) ++ enc_items (rlp_field BLOOM (d_getl r K_LOGS_BLOOM 256)) ++ rlp_list lf) as E
    by (unfold receipt_fields; by rewrite !enc_items_app, enc_one).
  pose proof (f_equal length E) as El. pose proof (zlen_lst_le lf). pose proof bb_new_rep as R0. rewrite !length_app in El.
  eapply (then_appends (fun bb => match jget r K_STATUS with Some t => rlp_add bb (Some t) UINT | None => match d_getl r K_ROOT 32 with Some t => rlp_add bb (Some t) UINT | None => Some bb end end) (enc_items first)); [|exact R0|ser_size|].
  { subst first. destruct (jget r K_STATUS); [apply appends_field|]. destruct (d_getl r K_ROOT 32); [apply appends_field|apply appends_nil]. }
  intros bb R. cbn [app] in R. do 2 ser_step.
  assert (exists lb, match jget r K_LOGS with Some l => add_logs bb_new bb_new bb_new (items_of (Some l)) | None => Some bb_new end = Some lb /\ bb_rep lb lf) as (lb & -> & Rl).
  { subst lf logs. destruct (jget r K_LOGS) as [l|]; [|by exists bb_new]. apply (add_logs_appends _ bb_new bb_new [] [] bb_new []); [done..|ser_size]. }
  cbn [mbind option_bind]. rewrite (bb_bytes_rep _ _ Rl). cbn [mbind option_bind]. ser_step. rewrite <- !app_assoc, <- E in *. by apply typed_list_rep.
Qed.
(** The serialised receipt is the RLP list of status or root, gas, bloom and logs, after the
    byte of the type, as long as it has less than 65536 bytes. *)
Theorem serialize_tx_receipt_spec `{Allocator} (r : option jval) : zlen (enc_items (receipt_fields r)) < 0x10000 ->
  serialize_tx_receipt r = Some (typed (d_int (jget r K_TYPE)) (rlp_list (enc_items (receipt_fields r)))).
Proof. apply receipt_serialized. Qed.

(** ** Accounts, transactions and headers *)
Definition account_fields (a : option jval) : list rlp_item :=
  rlp_field UINT (jget a K_NONCE) ++ rlp_field UINT (jget a K_BALANCE) ++ rlp_field HASH (d_getl a K_STORAGE_HASH 32) ++ rlp_field HASH (d_getl a K_CODE_HASH 32).
Lemma serialize_account_spec `{Allocator} a : zlen (enc_items (account_fields a)) < 0x10000 -> serialize_account a = Some (rlp_list (enc_items (account_fields a))).
Proof.
  intros Hl. unfold account_fields in *. rewrite !enc_items_app in *. pose proof bb_new_rep as R0. unfold serialize_account. do 4 ser_step.
  rewrite <- !app_assoc in *. cbn [app] in *. by apply list_of_rep.
Qed.

Fixpoint take_bytes (l : list jval) : list jval := match l with k :: t => if d_is_bytes k then k :: take_bytes t else [] | [] => [] end.
Definition access_entry (adr : jval) : list rlp_item :=
  rlp_field ADDRESS (jget (Some adr) K_ADDRESS) ++
  [Lst (enc_items (concat (map (fun k => rlp_field HASH (Some k))
     (take_bytes (match (match jget (Some adr) K_STORAGE_KEYS with Some k => Some k | None => jget (Some adr) K_STORAGE_PROOF end) with Some k => default [] (d_iter (Some k)) | None => [] end)))))].
(** Entries up to the first that is no object of two properties. *)
Fixpoint access_entries (l : list jval) : list jval :=
  match l with JObject [_; _] as adr :: t => adr :: access_entries t | _ => [] end.
Definition access_fields (t : option jval) : list rlp_item := [Lst (enc_items (map (fun a => Lst (enc_items (access_entry a))) (access_entries (default [] (d_iter t)))))].

Section Access.
Context `{Allocator}.
Lemma storage_keys_appends l : appends (fun bb => add_storage_keys bb l) (enc_items (concat (map (fun k => rlp_field HASH (Some k)) (take_bytes l)))).
Proof.
  induction l as [|k l IH]; [apply appends_nil|]. cbn [add_storage_keys take_bytes]. destruct (d_is_bytes k); [|apply appends_nil]. cbn [map concat]. rewrite enc_items_app.
  apply (appends_bind (fun bb => rlp_add bb (Some k) HASH)); [apply appends_field|exact IH].
Qed.
(** The iterated tokens are containers or nothing. *)
Definition iterable (t : option jval) : Prop := is_Some (d_iter t).
Definition access_ok (t : option jval) : Prop :=
  iterable t /\ Forall (fun a => iterable (match jget (Some a) K_STORAGE_KEYS with Some k => Some k | None => jget (Some a) K_STORAGE_PROOF end)) (default [] (d_iter t)).
Lemma add_access_appends l : forall b2 b3 c2 c3 bb c, bb_rep b2 c2 -> bb_rep b3 c3 -> bb_rep bb c ->
  Forall (fun a => iterable (match jget (Some a) K_STORAGE_KEYS with Some k => Some k | None => jget (Some a) K_STORAGE_PROOF end)) l ->
  zlen c + zlen (enc_items (map (fun a => Lst (enc_items (access_entry a))) (access_entries l))) + 5 < 2 ^ 32 ->
  exists bb', add_access bb b2 b3 l = Some bb' /\ bb_rep bb' (c ++ enc_items (map (fun a => Lst (enc_items (access_entry a))) (access_entries l))).
Proof.
  induction l as [|a l IH]; intros b2 b3 c2 c3 bb c H2 H3 Hr Hok Hl; [by apply appends_nil|]. inversion Hok as [|? ? Ha Hok']; subst.
  assert (forall x, add_access bb b2 b3 (a :: l) = x -> access_entries (a :: l) = [] -> x = Some bb ->
    exists bb', x = Some bb' /\ bb_rep bb' (c ++ enc_items (map (fun a => Lst (enc_items (access_entry a))) (access_entries (a :: l))))) as Hend.
  { intros x _ Hn ->. exists bb. rewrite Hn. change (enc_items (map _ [])) with (@nil Z). by rewrite app_nil_r. }
  destruct a as [| | |[|e1 [|e2 [|e3 kvs]]]| | |]; try (by apply (Hend _ eq_refl)).
  2: { apply (Hend _ eq_refl); [done|]. cbn [add_access]. destruct (Z.eqb_spec (jlen (Some (JObject (e1 :: e2 :: e3 :: kvs)))) 2) as [E|]; [cbn [jlen length] in E; lia|done]. }
  clear Hend. set (a := JObject [e1; e2]) in *. change (access_entries (a :: l)) with (a :: access_entries l) in *. cbn [map] in *.
  set (p := enc_items (access_entry a)) in *. change (enc_items (Lst p :: ?x)) with (rlp_list p ++ enc_items x) in *. rewrite length_app in Hl.
  set (keys := match jget (Some a) K_STORAGE_KEYS with Some k => Some k | None => jget (Some a) K_STORAGE_PROOF end) in *.
  assert (exists ks, match keys with Some k => d_iter (Some k) | None => Some [] end = Some ks /\ match keys with Some k => default [] (d_iter (Some k)) | None => [] end = ks) as (ks & Ek & Ek2).
  { destruct Ha as [ks Ha]. destruct keys as [k|]; [|by exists []]. exists ks. by rewrite Ha. }
  set (ts := enc_items (concat (map (fun k => rlp_field HASH (Some k)) (take_bytes ks)))).
  assert (p = enc_items (rlp_field ADDRESS (jget (Some a) K_ADDRESS)) ++ rlp_list ts) as Hp by (subst p ts; unfold access_entry; fold keys; by rewrite enc_items_app, enc_one, Ek2).
  pose proof (f_equal length Hp) as Hpl. rewrite !length_app in Hpl. pose proof (zlen_lst_le ts). pose proof (zlen_lst_le p).
  change (add_access bb b2 b3 (a :: l)) with (
        b2' ← rlp_add (bb_clear b2) (jget (Some a) K_ADDRESS) ADDRESS;
        ks ← (match keys with Some k => d_iter (Some k) | None => Some [] end);
        b3' ← add_storage_keys (bb_clear b3) ks;
        c3' ← bb_bytes b3'; b2'' ← rlp_encode_list b2' c3'; c2' ← bb_bytes b2''; bb' ← rlp_encode_list bb c2'; add_access bb' b2'' b3' l).
  destruct (appends_field (jget (Some a) K_ADDRESS) ADDRESS _ _ (bb_clear_rep _ _ H2)) as (b1 & -> & R1); [cbn [length]; lia|]. cbn [mbind option_bind]. rewrite Ek. cbn [mbind option_bind].
  destruct (storage_keys_appends ks _ _ (bb_clear_rep _ _ H3)) as (b4 & -> & R4); [cbn [length]; fold ts; lia|]. cbn [mbind option_bind app] in *. fold ts in R4. rewrite (bb_bytes_rep _ _ R4). cbn [mbind option_bind].
  destruct (appends_list ts _ _ R1) as (b5 & -> & R5); [lia|]. cbn [mbind option_bind]. rewrite <- Hp in R5. rewrite (bb_bytes_rep _ _ R5). cbn [mbind option_bind].
  destruct (appends_list p _ _ Hr) as (b6 & -> & R6); [lia|]. cbn [mbind option_bind]. destruct (IH b5 b4 _ _ b6 _ R5 R4 R6 Hok') as (b7 & E7 & R7); [rewrite length_app; lia|].
  exists b7. split; [exact E7|]. by rewrite app_assoc.
Qed.
Lemma access_appends t : access_ok t -> appends (fun bb => rlp_add_list bb t) (enc_items (access_fields t)).
Proof.
  intros [[l Hl] Hok] bb c Hr Hsz. unfold access_fields in *. rewrite Hl in *. cbn [default id] in *. unfold rlp_add_list. rewrite Hl. cbn [mbind option_bind]. rewrite enc_one in *. cbn [enc_item] in *.
  match goal with |- context [rlp_list ?p] => pose proof (zlen_lst_le p) end.
  destruct (add_access_appends l bb_null bb_null [] [] bb_null []) as (b1 & -> & R1); [done..|cbn [length]; lia|]. cbn [mbind option_bind app] in *. rewrite (bb_bytes_rep _ _ R1). cbn [mbind option_bind].
  by apply appends_list.
Qed.
End Access.

(** The fields of a transaction by its type; an unknown type has none but the signature. *)
Definition call_fields (tx : option jval) : list rlp_item :=
  rlp_field UINT (default None (jget_or tx K_GAS K_GAS_LIMIT)) ++ rlp_field ADDRESS (d_getl tx K_TO 20) ++ rlp_field UINT (jget tx K_VALUE) ++ rlp_field BYTES (default None (jget_or tx K_INPUT K_DATA)).
Definition tx_body_fields (tx : option jval) : list rlp_item :=
  let type := d_int (jget tx K_TYPE) in
  if type =? 0 then rlp_field UINT (jget tx K_NONCE) ++ rlp_field UINT (jget tx K_GAS_PRICE) ++ call_fields tx
  else if type =? 1 then
    rlp_field UINT (jget tx K_CHAIN_ID) ++ rlp_field UINT (jget tx K_NONCE) ++ rlp_field UINT (jget tx K_GAS_PRICE) ++ call_fields tx ++ access_fields (jget tx K_ACCESS_LIST)
  else if type =? 2 then
    rlp_field UINT (jget tx K_CHAIN_ID) ++ rlp_field UINT (jget tx K_NONCE) ++ rlp_field UINT (jget tx K_MAX_PRIORITY_FEE_PER_GAS) ++ rlp_field UINT (jget tx K_MAX_FEE_PER_GAS) ++ call_fields tx ++
    access_fields (jget tx K_ACCESS_LIST)
  else [].
Definition tx_fields (tx : option jval) : list rlp_item :=
  tx_body_fields tx ++ rlp_field UINT (jget tx K_V) ++ rlp_field UINT (d_getl tx K_R 32) ++ rlp_field UINT (d_getl tx K_S 32).

Section Transactions.
Context `{Allocator}.
Lemma call_appends tx kvs : tx = Some (JObject kvs) -> appends (fun bb => add_call bb tx) (enc_items (call_fields tx)).
Proof.
  intros -> bb c Hr Hl. unfold call_fields in *. rewrite !enc_items_app in *. rewrite !length_app in Hl. unfold add_call.
  destruct (jget_or (Some (JObject kvs)) K_GAS K_GAS_LIMIT) as [gas|] eqn:Eg; [|done]. destruct (jget_or (Some (JObject kvs)) K_INPUT K_DATA) as [data|] eqn:Ed; [|done]. cbn [default id mbind option_bind] in *.
  edestruct (appends_field gas UINT) as (b1 & -> & R1); [exact Hr|lia|]. cbn [mbind option_bind].
  edestruct (appends_field (d_getl (Some (JObject kvs)) K_TO 20) ADDRESS) as (b2 & -> & R2); [exact R1|ser_size|]. cbn [mbind option_bind].
  edestruct (appends_field (jget (Some (JObject kvs)) K_VALUE) UINT) as (b3 & -> & R3); [exact R2|ser_size|]. cbn [mbind option_bind].
  edestruct (appends_field data BYTES) as (b4 & -> & R4); [exact R3|ser_size|]. exists b4. split; [done|]. by rewrite <- !app_assoc in R4.
Qed.
Lemma tx_body_appends tx kvs : tx = Some (JObject kvs) -> access_ok (jget tx K_ACCESS_LIST) -> appends (fun bb => add_tx_fields bb tx) (enc_items (tx_body_fields tx)).
Proof.
  intros Etx Hacc. unfold add_tx_fields, tx_body_fields. cbv zeta. set (type := d_int (jget tx K_TYPE)).
  destruct (type =? 0); [|destruct (type =? 1); [|destruct (type =? 2); [|apply appends_nil]]]; rewrite !enc_items_app;
    repeat (eapply (appends_bind (fun bb => rlp_add bb _ _)); [apply appends_field|]);
    first [by eapply call_appends|eapply (appends_bind (fun bb => add_call bb tx)); [by eapply call_appends|by apply access_appends]].
Qed.
(** A serialised transaction, legacy, with an access list or of EIP-1559, is the byte of its
    type, unless it is 0, and the RLP list of its fields. *)
Theorem serialize_tx_spec tx kvs : tx = Some (JObject kvs) -> access_ok (jget tx K_ACCESS_LIST) -> zlen (enc_items (tx_fields tx)) < 0x10000 ->
  serialize_tx tx = Some (typed (d_int (jget tx K_TYPE)) (rlp_list (enc_items (tx_fields tx)))).
Proof.
  intros Etx Hacc Hl. unfold serialize_tx, tx_fields in *. rewrite !enc_items_app in *. rewrite !length_app in Hl. pose proof bb_new_rep as R0.
  eapply (then_appends (fun bb => add_tx_fields bb tx)); [by eapply tx_body_appends|exact R0|ser_size|]. intros bb R. cbn [app] in R.
  do 3 ser_step. rewrite <- !app_assoc in *. apply typed_list_rep; [done|ser_size].
Qed.
End Transactions.

(** A transaction given by its bytes; the signature is there if [v] is not 0. *)
Definition bytes_field (ml : Z) (b : option (list Z)) : list rlp_item := [Str (field_bytes ml (default [] b))].
Definition call_fields_raw (tx : eth_tx_data_t) : list rlp_item :=
  bytes_field UINT (tx_gas_limit tx) ++ bytes_field ADDRESS (tx_to tx) ++ bytes_field UINT (tx_value tx) ++ bytes_field BYTES (tx_data tx).
Definition tx_body_fields_raw (tx : eth_tx_data_t) (chain_id : Z) : list rlp_item :=
  let chain := Some (be_bytes 8 chain_id) in
  if tx_type tx =? 0 then bytes_field UINT (tx_nonce tx) ++ bytes_field UINT (tx_gas_price tx) ++ call_fields_raw tx
  else if tx_type tx =? 1 then bytes_field UINT chain ++ bytes_field UINT (tx_nonce tx) ++ bytes_field UINT (tx_gas_price tx) ++ call_fields_raw tx ++ access_fields (tx_access_list tx)
  else if tx_type tx =? 2 then
    bytes_field UINT chain ++ bytes_field UINT (tx_nonce tx) ++ bytes_field UINT (tx_max_priority_fee_per_gas tx) ++ bytes_field UINT (tx_max_fee_per_gas tx) ++ call_fields_raw tx ++ access_fields (tx_access_list tx)
  else [].
Definition tx_fields_raw (tx : eth_tx_data_t) (chain_id v : Z) (r s : option (list Z)) : list rlp_item :=
  tx_body_fields_raw tx chain_id ++ if v =? 0 then [] else bytes_field UINT (Some (optimize_len (be_bytes 8 v))) ++ bytes_field UINT r ++ bytes_field UINT s.

Section Raw.
Context `{Allocator}.
Lemma appends_bytes b ml : appends (fun bb => rlp_add_bytes bb b ml) (enc_items (bytes_field ml b)).
Proof. destruct b as [b|]; [apply (appends_field (Some (JBytes b)))|]. exact (appends_field None ml). Qed.
Lemma tx_body_raw_appends tx chain_id : access_ok (tx_access_list tx) -> appends (fun bb => add_tx_fields_raw bb tx chain_id) (enc_items (tx_body_fields_raw tx chain_id)).
Proof.
  intros Hacc. unfold add_tx_fields_raw, tx_body_fields_raw. cbv zeta.
  assert (appends (fun bb => add_call_raw bb tx) (enc_items (call_fields_raw tx))) as Hcall.
  { unfold add_call_raw, call_fields_raw. rewrite !enc_items_app. repeat (eapply (appends_bind (fun bb => rlp_add_bytes bb _ _)); [apply appends_bytes|]). apply appends_bytes. }
  destruct (tx_type tx =? 0); [|destruct (tx_type tx =? 1); [|destruct (tx_type tx =? 2); [|apply appends_nil]]]; rewrite !enc_items_app;
    repeat (eapply (appends_bind (fun bb => rlp_add_bytes bb _ _)); [apply appends_bytes|]);
    first [exact Hcall|eapply (appends_bind (fun bb => add_call_raw bb tx)); [exact Hcall|by apply access_appends]].
Qed.
Lemma serialize_tx_raw_spec tx chain_id v r s : access_ok (tx_access_list tx) -> zlen (enc_items (tx_fields_raw tx chain_id v r s)) < 0x10000 ->
  serialize_tx_raw tx chain_id v r s = Some (typed (tx_type tx) (rlp_list (enc_items (tx_fields_raw tx chain_id v r s)))).
Proof.
  intros Hacc Hl. unfold serialize_tx_raw, tx_fields_raw in *. rewrite enc_items_app in *. rewrite length_app in Hl. pose proof bb_new_rep as R0.
  eapply (then_appends (fun bb => add_tx_fields_raw bb tx chain_id)); [by apply tx_body_raw_appends|exact R0|cbn [length]; lia|]. intros bb R. cbn [app] in R.
  eapply (then_appends (fun bb => if v =? 0 then Some bb else rlp ← rlp_add_bytes bb (Some (optimize_len (be_bytes 8 v))) UINT; rlp ← rlp_add_bytes rlp r UINT; rlp_add_bytes rlp s UINT)
    (enc_items (if v =? 0 then [] else bytes_field UINT (Some (optimize_len (be_bytes 8 v))) ++ bytes_field UINT r ++ bytes_field UINT s))); [|exact R|lia|].
  - destruct (v =? 0); [apply appends_nil|]. rewrite !enc_items_app. repeat (eapply (appends_bind (fun bb => rlp_add_bytes bb _ _)); [apply appends_bytes|]). apply appends_bytes.
  - intros bb2 R2. apply typed_list_rep; [done|]. rewrite length_app. lia.
Qed.
(** What is signed and what is sent differ in the signature only. *)
Lemma tx_raw_signature tx chain_id v r s : v <> 0 -> tx_fields_raw tx chain_id v r s = tx_fields_raw tx chain_id 0 None None ++ bytes_field UINT (Some (optimize_len (be_bytes 8 v))) ++ bytes_field UINT r ++ bytes_field UINT s.
Proof. intros Hv. unfold tx_fields_raw. rewrite (proj2 (Z.eqb_neq v 0) Hv). cbn [Z.eqb]. by rewrite app_nil_r. Qed.
End Raw.

(** ** Block headers *)
Definition opt_field (ml : Z) (t : option jval) : list rlp_item := match t with Some t => rlp_field ml (Some t) | None => [] end.
Definition seal_bytes (block : option jval) : list Z :=
  match jget block K_SEAL_FIELDS with
  | Some sealed => concat (map (fun t => default [] (d_bytes t)) (items_of (Some sealed)))
  | None => enc_items (rlp_field HASH (d_getl block K_MIX_HASH 32) ++ rlp_field BYTES (jget block K_NONCE))
  end.
(** The fields up to the seal, and all of the payload. *)
Definition header_fields (block : option jval) : list rlp_item :=
  rlp_field HASH (d_getl block K_PARENT_HASH 32) ++ rlp_field HASH (jget block K_SHA3_UNCLES) ++
  opt_field ADDRESS (match d_getl block K_MINER 20 with Some t => Some t | None => d_getl block K_COINBASE 20 end) ++
  rlp_field HASH (d_getl block K_STATE_ROOT 32) ++ rlp_field HASH (d_getl block K_TRANSACTIONS_ROOT 32) ++
  opt_field HASH (match d_getl block K_RECEIPT_ROOT 32 with Some t => Some t | None => d_getl block K_RECEIPTS_ROOT 32 end) ++
  rlp_field BLOOM (d_getl block K_LOGS_BLOOM 256) ++ rlp_field UINT (jget block K_DIFFICULTY) ++ rlp_field UINT (jget block K_NUMBER) ++ rlp_field UINT (jget block K_GAS_LIMIT) ++
  rlp_field UINT (jget block K_GAS_USED) ++ rlp_field UINT (jget block K_TIMESTAMP) ++ rlp_field BYTES (jget block K_EXTRA_DATA).
Definition header_bytes (block : option jval) : list Z :=
  enc_items (header_fields block) ++ seal_bytes block ++ enc_items (if d_long (jget block K_BASE_GAS_FEE) =? 0 then [] else rlp_field UINT (norm <$> jget block K_BASE_GAS_FEE)).
Section Headers.
Context `{Allocator}.
Lemma appends_opt t ml : appends (fun bb => match t with Some t => rlp_add bb (Some t) ml | None => Some bb end) (enc_items (opt_field ml t)).
Proof. destruct t; [apply appends_field|apply appends_nil]. Qed.
Lemma appends_opt2 t u ml : appends (fun bb => match t with Some t => rlp_add bb (Some t) ml | None => match u with Some t => rlp_add bb (Some t) ml | None => Some bb end end)
  (enc_items (opt_field ml (match t with Some t => Some t | None => u end))).
Proof. destruct t; [apply appends_field|apply appends_opt]. Qed.
Lemma sealed_appends l : appends (fun bb => add_sealed bb l) (concat (map (fun t => default [] (d_bytes t)) l)).
Proof.
  induction l as [|t l IH]; [apply appends_nil|]. cbn [add_sealed map concat]. apply (appends_bind (fun bb => bb_write_raw_bytes bb (default [] (d_bytes t)))); [|exact IH].
  intros bb c Hr Hl. apply bb_write_raw_bytes_rep; [done|lia].
Qed.
(** A serialised block header is the RLP list of its fields, the seal (mix hash and nonce, or
    the fields of an authority chain as they are) and the base fee if there is one. *)
Theorem serialize_block_header_spec block : zlen (header_bytes block) < 0x10000 -> serialize_block_header block = Some (rlp_list (header_bytes block)).
Proof.
  intros Hl. unfold header_bytes, header_fields in *. rewrite !enc_items_app in *. rewrite <- !app_assoc in *. rewrite !length_app in Hl. pose proof bb_new_rep as R0. unfold serialize_block_header.
  do 2 ser_step. ser_by bb0 (enc_items (opt_field ADDRESS (match d_getl block K_MINER 20 with Some t => Some t | None => d_getl block K_COINBASE 20 end))) ltac:(apply appends_opt2).
  do 2 ser_step. ser_by bb3 (enc_items (opt_field HASH (match d_getl block K_RECEIPT_ROOT 32 with Some t => Some t | None => d_getl block K_RECEIPTS_ROOT 32 end))) ltac:(apply appends_opt2).
  do 7 ser_step. ser_by bb11 (seal_bytes block) ltac:(idtac).
  { unfold seal_bytes. destruct (jget block K_SEAL_FIELDS); [apply sealed_appends|]. rewrite enc_items_app. eapply (appends_bind (fun bb => rlp_add bb _ _)); apply appends_field. }
  ser_by bb12 (enc_items (if d_long (jget block K_BASE_GAS_FEE) =? 0 then [] else rlp_field UINT (norm <$> jget block K_BASE_GAS_FEE))) ltac:(idtac).
  { destruct (_ =? 0); [apply appends_nil|apply appends_field]. }
  match goal with R : bb_rep ?b _ |- context [rlp_encode_to_list ?b] => rewrite <- !app_assoc in R; cbn [app] in R; apply list_of_rep; [exact R|ser_size] end.
Qed.
End Headers.

(** ** The encoding determines the fields *)
Lemma enc_items_inj its its' : Forall item_ok its -> Forall item_ok its' -> zlen (enc_items its) < 2 ^ 31 -> enc_items its = enc_items its' -> its = its'.
Proof.
  intros H1 H2 Hl E. set (m := mem_of (enc_items its)). set (b := mk_slice 0 (zlen (enc_items its))).
  assert (mem_at m (s_data b) (enc_items its)) as M1 by apply mem_at_mem_of. assert (mem_at m (s_data b) (enc_items its')) as M2 by (rewrite <- E; exact M1).
  pose proof (enc_items_length its H1) as L1. pose proof (enc_items_length its' H2) as L2. rewrite <- E in L2.
  assert (length its = length its') as Hlen.
  { pose proof (decode_count m b its H1 M1 eq_refl ltac:(cbn; lia) ltac:(cbn [s_data s_len b]; lia) ltac:(lia)) as C1.
    pose proof (decode_count m b its' H2 M2 ltac:(cbn; by rewrite E) ltac:(cbn; lia) ltac:(cbn [s_data s_len b]; lia) ltac:(lia)) as C2. rewrite C1 in C2. injection C2. lia. }
  apply list_eq_same_length with (length its); [done|done|]. intros n x y Hn Hx Hy.
  destruct (decode_item m false b its n x H1 M1 eq_refl ltac:(cbn; lia) ltac:(cbn [s_data s_len b]; lia) ltac:(lia) Hx) as (d1 & D1 & E1 & A1 & _).
  destruct (decode_item m false b its' n y H2 M2 ltac:(cbn; by rewrite E) ltac:(cbn; lia) ltac:(cbn [s_data s_len b]; lia) ltac:(lia) Hy) as (d2 & D2 & E2 & A2 & _).
  rewrite D1 in D2. injection D2 as Hk ->. assert (item_bytes x = item_bytes y) as Eb by (rewrite <- (proj2 (mem_read_at m d2 (item_bytes x) ltac:(lia))), <- (proj2 (mem_read_at m d2 (item_bytes y) ltac:(lia))) by (split; lia || done); done).
  destruct x, y; cbn in *; congruence.
Qed.
Lemma rlp_list_inj c c' : bytes_ok c -> bytes_ok c' -> zlen (rlp_list c) < 2 ^ 31 -> rlp_list c = rlp_list c' -> c = c'.
Proof.
  intros H1 H2 Hl E. pose proof (zlen_lst_le c). pose proof (zlen_lst_le c') as Hc'. rewrite <- E in Hc'. assert ([Lst c] = [Lst c']) as [= ->]; [|done].
  apply enc_items_inj; [apply Forall_singleton; split; cbn [item_bytes]; [done|lia]..|by rewrite enc_one|by rewrite !enc_one].
Qed.
(** All items of a receipt are bytes of less than 2^31, at each level. *)
Definition receipt_logs (r : option jval) : list (option jval) := match jget r K_LOGS with Some logs => items_of (Some logs) | None => [] end.
Definition receipt_ok (r : option jval) : Prop := Forall item_ok (receipt_fields r) /\ Forall (fun lg => Forall item_ok (log_fields lg)) (receipt_logs r) /\ zlen (enc_items (receipt_fields r)) < 0x10000.
Lemma receipt_log_bytes r : last (receipt_fields r) = Some (Lst (enc_items (map (fun lg => Lst (enc_items (log_fields lg))) (receipt_logs r)))).
Proof. unfold receipt_fields. rewrite !app_assoc. apply last_snoc. Qed.
(** C28. The serialisation binds the receipt: if two receipts of the same type have the same bytes,
    they have the same status or root, gas, bloom and the same address, topics and data in each log. *)
Theorem receipt_binding `{Allocator} (r r' : option jval) : receipt_ok r -> receipt_ok r' -> d_int (jget r K_TYPE) = d_int (jget r' K_TYPE) ->
  serialize_tx_receipt r = serialize_tx_receipt r' -> receipt_fields r = receipt_fields r' /\ map log_fields (receipt_logs r) = map log_fields (receipt_logs r').
Proof.
  intros (F1 & L1 & S1) (F2 & L2 & S2) Ht E. rewrite (receipt_serialized r S1), (receipt_serialized r' S2), <- Ht in E. injection E as E.
  assert (rlp_list (enc_items (receipt_fields r)) = rlp_list (enc_items (receipt_fields r'))) as E' by (unfold typed in E; destruct (_ =? 0); congruence).
  assert (forall c, zlen c < 0x10000 -> zlen (rlp_list c) < 2 ^ 31) as Hsz by (intros c Hc; unfold rlp_list; rewrite length_app; pose proof (rlp_header_length 0xc0 (zlen c)); lia).
  apply rlp_list_inj in E'; [|by apply enc_items_bytes_ok|by apply enc_items_bytes_ok|by apply Hsz]. apply enc_items_inj in E'; [|done|done|lia]. split; [done|].
  pose proof (receipt_log_bytes r) as B1. pose proof (receipt_log_bytes r') as B2. rewrite E' in B1. rewrite B1 in B2. injection B2 as B2.
  assert (forall r, receipt_ok r -> Forall item_ok (map (fun lg => Lst (enc_items (log_fields lg))) (receipt_logs r)) /\ zlen (enc_items (map (fun lg => Lst (enc_items (log_fields lg))) (receipt_logs r))) < 0x10000) as Hlogs.
  { intros x (Fx & Lx & Sx). pose proof (receipt_log_bytes x) as Bx. assert (last (receipt_fields x) <> None) as Hne by (by rewrite Bx). pose proof (last_Some_elem_of _ _ Bx) as Hin. pose proof (zlen_enc_le _ _ Hin) as Hz. cbn [enc_item] in Hz.
    match type of Hz with zlen (rlp_list ?c) <= _ => pose proof (zlen_lst_le c) end. split; [|lia]. apply Forall_fmap, Forall_forall. intros lg Hlg. cbn.
    rewrite Forall_forall in Lx. split; [by apply enc_items_bytes_ok, Lx|]. cbn [item_bytes].
    assert (Lst (enc_items (log_fields lg)) ∈ map (fun lg => Lst (enc_items (log_fields lg))) (receipt_logs x)) as Hm by (by apply (list_elem_of_fmap_2 (fun lg => Lst (enc_items (log_fields lg))))). apply zlen_enc_le in Hm. cbn [enc_item] in Hm.
    pose proof (zlen_lst_le (enc_items (log_fields lg))). lia. }
  destruct (Hlogs r) as [I1 J1]; [done|]. destruct (Hlogs r') as [I2 _]; [done|]. apply enc_items_inj in B2; [|done|done|lia].
  clear -B2 L1 L2 I1. revert B2 L1 L2 I1. generalize (receipt_logs r) as k, (receipt_logs r') as k'. induction k as [|a k IH]; intros [|b k'] B2 L1 L2 I1; try done. cbn [map] in *. injection B2 as Ea B2.
  inversion L1; inversion L2; inversion I1 as [|? ? [_ Hz]]; subst. f_equal; [|by apply IH]. apply enc_items_inj; [done..|exact Hz|done].
Qed.

(** ** Examples *)
Definition obj (l : list (Z * string)) : jval := JObject (map (fun kv => (kv.1, JString (str kv.2))) l).
(** A receipt of type 2 with a log of two topics. *)
Definition sample_log : jval :=
  JObject [(K_ADDRESS, JString (str "0x00000000219ab540356cbb839cbe05303d7705fa")); (K_TOPICS, JArray [JString (str "0x01"); JBytes [2; 3]]); (K_DATA, JString (str "0x0005"))].
Definition sample_receipt : jval :=
  JObject [(K_TYPE, JString (str "0x2")); (K_STATUS, JString (str "0x1")); (K_CUMULATIVE_GAS_USED, JString (str "0x5208")); (K_LOGS_BLOOM, JBytes [1]); (K_LOGS, JArray [sample_log])].
(** The same with other spellings of the same values. *)
Definition sample_receipt' : jval :=
  JObject [(K_TYPE, JInt 2); (K_STATUS, JBool true); (K_CUMULATIVE_GAS_USED, JBytes [0; 82; 8]); (K_LOGS_BLOOM, JString (str "0x01"));
           (K_LOGS, JArray [JObject [(K_ADDRESS, JString (str "0x00000000219ab540356cbb839cbe05303d7705fa")); (K_TOPICS, JArray [JInt 1; JString (str "0x0203")]); (K_DATA, JBytes [0; 5])]])].
Lemma serialize_tx_receipt_spec_witness : serialize_tx_receipt (Some sample_receipt) = Some (typed 2 (rlp_list (enc_items (receipt_fields (Some sample_receipt))))).
Proof. apply (serialize_tx_receipt_spec (Some sample_receipt)). vm_compute. reflexivity. Defined.
#[local] Instance item_ok_dec it : Decision (item_ok it).
Proof. unfold item_ok. apply _. Defined.
Lemma sample_receipts_ok : receipt_ok (Some sample_receipt) /\ receipt_ok (Some sample_receipt').
Proof. split; (split; [|split; [|vm_compute; reflexivity]]); (eapply bool_decide_unpack; vm_compute; exact I). Qed.
Lemma receipt_binding_witness : receipt_fields (Some sample_receipt) = receipt_fields (Some sample_receipt') /\ map log_fields (receipt_logs (Some sample_receipt)) = map log_fields (receipt_logs (Some sample_receipt')).
Proof.
  apply (receipt_binding (Some sample_receipt) (Some sample_receipt')); [apply sample_receipts_ok|apply sample_receipts_ok|vm_compute; reflexivity|vm_compute; reflexivity].
Defined.
Definition sample_tx : jval :=
  JObject [(K_TYPE, JInt 1); (K_CHAIN_ID, JInt 1); (K_NONCE, JString (str "0x0")); (K_GAS_PRICE, JInt 9); (K_GAS, JInt 21000); (K_TO, JBytes (replicate 20 7)); (K_VALUE, JInt 0); (K_DATA, JString (str "0x0102"));
           (K_ACCESS_LIST, JArray [JObject [(K_ADDRESS, JBytes (replicate 20 8)); (K_STORAGE_KEYS, JArray [JInt 1])]]); (K_V, JInt 1); (K_R, JBytes (replicate 32 1)); (K_S, JBytes (replicate 32 2))].
Lemma serialize_tx_spec_witness : serialize_tx (Some sample_tx) = Some (typed 1 (rlp_list (enc_items (tx_fields (Some sample_tx))))).
Proof.
  eapply (serialize_tx_spec (Some sample_tx)); [reflexivity| |vm_compute; reflexivity]. split; [by eexists|]. vm_compute. apply Forall_singleton. by eexists.
Defined.
Definition sample_header : jval :=
  JObject [(K_PARENT_HASH, JBytes (replicate 32 1)); (K_SHA3_UNCLES, JBytes (replicate 32 2)); (K_MINER, JBytes (replicate 20 3)); (K_STATE_ROOT, JBytes (replicate 32 4)); (K_TRANSACTIONS_ROOT, JBytes (replicate 32 5));
           (K_RECEIPTS_ROOT, JBytes (replicate 32 6)); (K_LOGS_BLOOM, JBytes [1]); (K_DIFFICULTY, JInt 2); (K_NUMBER, JInt 1000); (K_GAS_LIMIT, JInt 8000000); (K_GAS_USED, JInt 0); (K_TIMESTAMP, JInt 1000000);
           (K_EXTRA_DATA, JString (str "0x")); (K_MIX_HASH, JBytes (replicate 32 7)); (K_NONCE, JBytes (replicate 8 8)); (K_BASE_GAS_FEE, JInt 7)].
Lemma serialize_block_header_spec_witness : serialize_block_header (Some sample_header) = Some (rlp_list (header_bytes (Some sample_header))).
Proof. apply (serialize_block_header_spec (Some sample_header)). vm_compute. reflexivity. Defined.
