(* ===== verification/Nano.v ===== *)
(** * verifier/eth1/nano: block headers and receipts

    The verifier of [eth_getTransactionReceipt]: signature.c, blockheader.c (in the build without
    POA), txreceipt.c and eth_nano.c, on the state of a request ([ReqState]) with the plugins of the
    client.  The bytes of tokens lie somewhere in memory: [place] gives the address of a block, so
    that decoders can be seen to read behind it.  The recovery of a public key from a signature is
    the parameter [Ecdsa]. *)
From S2P Require Import Prelude Utils Bytes Rlp Merkle Data Json JsonVal ReqState Request Serialize.
From stdpp Require Import strings.
#[local] Open Scope Z_scope.

(** [crypto_recover] with secp256k1: the public key of 64 bytes for a hash and a signature of 65. *)
Class Ecdsa := { crypto_recover : list Z -> list Z -> option (list Z) }.

Definition K_MSG_HASH : Z := Eval vm_compute in key "msgHash".
Definition K_CODE : Z := Eval vm_compute in key "code".
Definition K_SIGNED_ERR : Z := Eval vm_compute in key "signedError".
Definition K_BLOCK : Z := Eval vm_compute in key "block".
Definition K_BLOCK_HASH : Z := Eval vm_compute in key "blockHash".
Definition K_BLOCK_NUMBER : Z := Eval vm_compute in key "blockNumber".
Definition K_SIGNATURES : Z := Eval vm_compute in key "signatures".
Definition K_TX_INDEX : Z := Eval vm_compute in key "txIndex".
Definition K_MERKLE_PROOF : Z := Eval vm_compute in key "merkleProof".
Definition K_TX_PROOF : Z := Eval vm_compute in key "txProof".
Definition K_TRANSACTION_INDEX : Z := Eval vm_compute in key "transactionIndex".
Definition K_TRANSACTION_HASH : Z := Eval vm_compute in key "transactionHash".
Definition K_LOG_INDEX : Z := Eval vm_compute in key "logIndex".
Definition K_VERIFICATION : Z := Eval vm_compute in key "verification".
Definition BLOCKHEADER_TRANSACTIONS_ROOT : Z := 4.
Definition BLOCKHEADER_RECEIPT_ROOT : Z := 5.
Definition BLOCKHEADER_NUMBER : Z := 8.
Definition JSON_RPC_ERR_INTERNAL : Z := -32603.
Definition JSON_RPC_ERR_FINALITY : Z := -16001.
Definition DIFF_ATMOST (n1 n2 err : Z) : bool := if n2 <? n1 then n1 - n2 <=? err else n2 - n1 <=? err.

(** ** Verified hashes *)

(** The index of the first free entry or of one to replace; [inr] if the hash is there already.
    Entries behind the block are not defined. *)
Fixpoint find_slot (alloc i : nat) (number : Z) (hash : list Z) (t : list in3_verified_hash_t) : option (option nat + unit) :=
  match alloc with
  | O => Some (inl None)
  | S n =>
      match t with
      | [] => None
      | e :: t' =>
          if vh_number e =? 0 then Some (inl (Some i))
          else if vh_number e =? number then if negb (memcmp (vh_hash e) hash =? 0) then Some (inl (Some i)) else Some (inr tt)
          else find_slot n (S i) number hash t'
      end
  end.
Definition no_hash : in3_verified_hash_t := mk_vhash 0 (replicate 32 0).
Definition resize (n : nat) (t : list in3_verified_hash_t) : list in3_verified_hash_t := take n t ++ replicate (n - length t) no_hash.
(** The chain as a client keeps it; the pointer in the verification context is the id. *)
Definition set_hashes (id : Z) (t : list in3_verified_hash_t) (c : in3_t) : in3_t :=
  set_chains (map (fun ch => if ch_id ch =? id then mk_chain (ch_id ch) (ch_type ch) (ch_version ch) (Some t) else ch) (chains c)) c.
Definition set_alloc (n : nat) (c : in3_t) : in3_t := mk_client (chains c) (max_verified_hashes c) n (c_proof c) (c_finality c) (c_flags c) (c_pending c) (id_count c) (signature_count c) (replace_latest_block c).
Definition chain_hashes (id : Z) (c : in3_t) : option (list in3_verified_hash_t) := ch ← find (fun ch => ch_id ch =? id) (chains c); verified_hashes ch.
Definition add_verified_to (c : in3_t) (id number : Z) (hash : list Z) : option in3_t :=
  if (max_verified_hashes c =? 0)%nat then Some c
  else
    let '(c, t) := match chain_hashes id c with
                   | Some t => (c, t)
                   | None => let t := replicate (max_verified_hashes c) no_hash in (set_alloc (max_verified_hashes c) (set_hashes id t c), t)
                   end in
    slot ← find_slot (alloc_verified_hashes c) 0 number hash t;
    match slot with
    | inr _ => Some c
    | inl (Some i) => Some (set_hashes id (<[i := mk_vhash number hash]> t) c)
    | inl None =>
        let n := alloc_verified_hashes c in
        Some (set_hashes id (<[n := mk_vhash number hash]> (resize (S n) t)) (set_alloc (S n) c))
    end.
(** The first entry with the number among the first [n]. *)
Fixpoint find_hash (n : nat) (number : Z) (t : list in3_verified_hash_t) : option (option (list Z)) :=
  match n, t with
  | O, _ => Some None
  | S _, [] => None
  | S n', e :: t' => if vh_number e =? number then Some (Some (vh_hash e)) else find_hash n' number t'
  end.
(** [in3_check_verified_hashes] keeps the last ones, when the client is no longer used by several requests. *)
Definition in3_check_verified_hashes (c : in3_t) (pending : nat) : option in3_t :=
  if (pending <=? 1)%nat && (max_verified_hashes c <? alloc_verified_hashes c)%nat then
    match chains c with
    | ch :: rest =>
        t ← verified_hashes ch;
        if (length t <? alloc_verified_hashes c)%nat then None
        else
          let t' := take (max_verified_hashes c) (drop (alloc_verified_hashes c - max_verified_hashes c) t) in
          Some (set_alloc (max_verified_hashes c) (set_chains (mk_chain (ch_id ch) (ch_type ch) (ch_version ch) (Some t') :: rest) c))
    | [] => None
    end
  else Some c.

Section Nano.
Context `{SourceText} `{Keccak} `{Allocator} `{Ecdsa} {W : Type} (plugins : list (in3_plugin_t W)) (m : memory) (place : list Z -> slice).
#[local] Abbreviation st := (state W).

#[local] Abbreviation vc_err := (vc_err plugins).
Definition get_verified_hash (vc : in3_vctx_t) (block_number : Z) : M st (option (list Z)) :=
  c ← gets client;
  match chain_hashes (ch_id (vc_chain vc)) c with
  | None => mret None
  | Some t => defined (find_hash (max_verified_hashes c) block_number t)
  end.
Definition add_verified (id number : Z) (hash : list Z) : M st unit := fun s =>
  match add_verified_to (client s) id number hash with
  | Some c => Ok tt (mk_state (self s) (required s) c (world s))
  | None => Undef
  end.

(** ** Signatures (signature.c) *)
Definition ecrecover_signature (msg_hash : list Z) (sig : option jval) : option (list Z) :=
  if (match d_get_byteskl sig K_MSG_HASH 32 with Some h => negb (bool_decide (h = msg_hash)) | None => false end) then None
  else
    let v := d_int (jget sig K_V) in
    let v := if 27 <=? v then v - 27 else v in
    match d_get_byteskl sig K_R 32, d_get_byteskl sig K_S 32 with
    | Some r, Some s =>
        if negb (zlen r + zlen s =? 64) then None
        else pub ← crypto_recover msg_hash (r ++ s ++ [u8 v]); Some (take 20 (drop 12 (keccak pub)))
    | _, _ => None
    end.
(** The bit of the first signer with the address; beyond 31 signers the shift is not defined. *)
Fixpoint signer_bit (i : nat) (addr : list Z) (signers : list (list Z)) : option Z :=
  match signers with
  | [] => Some 0
  | s :: t => if memcmp s addr =? 0 then if (i <? 31)%nat then Some (Z.shiftl 1 (Z.of_nat i)) else None else signer_bit (S i) addr t
  end.
Definition eth_verify_signature (msg_hash : list Z) (sig : option jval) : M st Z :=
  match ecrecover_signature msg_hash sig with
  | None => vc_err "could not recover the signature" ;; mret 0
  | Some addr => ss ← field signers; defined (signer_bit 0 addr ss)
  end.

(** ** Block headers (blockheader.c) *)
Definition mark_offline (vc : in3_vctx_t) (missing : Z) : M st unit := in3_plugin_execute_first plugins PLGN_ACT_NL_OFFLINE (C_offline vc missing) ;; mret tt.
(** The bytes that are signed: block hash, number and registry id; without the registry before version 2. *)
Definition signed_message (version : Z) (block_hash : list Z) (header_number : Z) (registry_id : list Z) : list Z :=
  take (if 1 <? version then 96 else 64) (block_hash ++ replicate 24 0 ++ be_bytes 8 header_number ++ registry_id).
Definition compute_msg_hash (vc : in3_vctx_t) (block_hash : list Z) (header_number : Z) : M st (list Z) :=
  r ← in3_plugin_execute_first plugins PLGN_ACT_GET_DATA (C_registry_id None);
  id ← defined (match snd r with C_registry_id (Some id) => read_at id 0 32 | _ => None end);
  mret (keccak (signed_message (ch_version (vc_chain vc)) block_hash header_number id)).
Definition children (t : option jval) : option (list (Z * jval)) :=
  match t with
  | Some (JObject kvs) => Some kvs
  | Some (JArray vs) => Some (indexed 0 vs)
  | _ => if jlen t =? 0 then Some [] else None
  end.
Fixpoint err_fields (bb : bytes_builder_t) (l : list (Z * jval)) : option bytes_builder_t :=
  match l with
  | [] => Some bb
  | (k, v) :: t =>
      bb ← (if bool_decide (k ∈ [K_R; K_S; K_V; K_MSG_HASH]) then Some bb
            else
              match norm v with
              | JBytes b => bb_write_fixed_bytes bb b
              | JString s => bb_write_chars bb (cstr s)
              | JBool _ | JInt _ => bb_write_int bb (u32 (d_int (Some (norm v))))
              | _ => Some bb
              end);
      err_fields bb t
  end.
Definition signed_err (err : option jval) : option jval := jget (jget err K_DATA) K_SIGNED_ERR.
Definition compute_err_hash (err : option jval) : option (list Z) :=
  bb ← bb_write_int bb_new (u32 (d_int (jget err K_CODE)));
  l ← children (signed_err err);
  bb ← err_fields bb l;
  c ← bb_bytes bb;
  Some (keccak c).
Definition is_err_signed (err : option jval) : bool := match signed_err err with Some _ => true | None => false end.
Definition validate_err (err : option jval) (header_number : Z) : M st Z :=
  let sig := signed_err err in
  if negb (d_long (jget sig K_BLOCK) =? header_number) then vc_err "wrong signature blocknumber"
  else h ← defined (compute_err_hash err); eth_verify_signature h sig.
(** The hash is compared over 32 bytes whatever its length. *)
Definition validate_sig (sig : option jval) (header_number : Z) (block_hash msg : list Z) : M st Z :=
  if negb (d_long (jget sig K_BLOCK) =? header_number) then vc_err "wrong signature blocknumber"
  else
    match d_get_byteskl sig K_BLOCK_HASH 32 with
    | None => vc_err "wrong signature hash"
    | Some h =>
        h ← defined (read_at h 0 32);
        if negb (memcmp h block_hash =? 0) then vc_err "wrong signature hash" else eth_verify_signature msg sig
    end.
(** The index of the lowest bit, from 1. *)
Fixpoint lowest_bit (n : nat) (pos bs : Z) : Z :=
  match n with O => 0 | S n' => if Z.testbit bs pos then pos + 1 else lowest_bit n' (pos + 1) bs end.
Definition idx_from_bs (bs : Z) : Z := lowest_bit 32 0 bs.
Definition handle_signed_err (vc : in3_vctx_t) (err : option jval) (bs header_number : Z) : M st unit :=
  if negb (d_int (jget err K_CODE) =? JSON_RPC_ERR_FINALITY) then mret tt
  else
    ss ← field signers;
    signer ← defined (ss !! Z.to_nat (idx_from_bs bs - 1));
    r ← in3_plugin_execute_first plugins PLGN_ACT_GET_DATA (C_min_blk_height signer None);
    min_blk_height ← defined (match snd r with C_min_blk_height _ (Some h) => Some h | _ => None end);
    if DIFF_ATMOST (d_long (jget (signed_err err) K_CURRENT_BLOCK)) header_number min_blk_height then
      vc_err "blacklisting signer (reported wrong min block-height)" ;;
      in3_plugin_execute_first plugins PLGN_ACT_NL_BLACKLIST (C_blacklist signer) ;; mret tt
    else
      cur ← defined (vc_currentBlock vc);
      if negb (DIFF_ATMOST (d_long (jget err K_CURRENT_BLOCK)) cur 1) then
        vc_err "blacklisting signer (out-of-sync)" ;;
        in3_plugin_execute_first plugins PLGN_ACT_NL_BLACKLIST (C_blacklist signer) ;; mret tt
      else mret tt.
(** The loop over the signatures: [inl] leaves the function. *)
Fixpoint check_signatures (vc : in3_vctx_t) (number : Z) (block_hash msg : list Z) (sigs : list (option jval)) (confirmed erred : Z) : M st (Z + Z * Z) :=
  match sigs with
  | [] => mret (inr (confirmed, erred))
  | sig :: t =>
      match jget sig K_ERROR with
      | Some _ as err =>
          if negb (is_err_signed err) then
            if negb (d_int (jget err K_CODE) =? JSON_RPC_ERR_INTERNAL) then e ← vc_err "error not signed"; mret (inl e)
            else check_signatures vc number block_hash msg t confirmed erred
          else
            r ← validate_err err number;
            if r <? 0 then mret (inl r)
            else
              (if r =? 0 then mret tt else handle_signed_err vc err r number) ;;
              check_signatures vc number block_hash msg t confirmed (Z.lor erred r)
      | None =>
          r ← validate_sig sig number block_hash msg;
          if r <? 0 then mret (inl r) else check_signatures vc number block_hash msg t (Z.lor confirmed r) erred
      end
  end.
(** [rlp_decode_in_list(&header, index, &dst) == 1], the slice if so. *)
Definition header_item (header : list Z) (index : Z) : M st (option slice) :=
  match rlp_decode_in_list m false (place header) index with
  | RDone r (Some d) => mret (if r =? 1 then Some d else None)
  | RDone _ None => mret None
  | RUndef => undef
  | RFuel => fun _ => NoFuel
  end.
Definition slice_number (d : slice) : Z := bytes_to_long (mem_read m d) (s_len d).
(** The result, and [vc->dont_blacklist]. *)
Definition eth_verify_blockheader (vc : in3_vctx_t) (header expected_blockhash : option (list Z)) : M st (Z * bool) :=
  let blame (msg : string) : M st (Z * bool) := e ← vc_err msg; mret (e, vc_dont_blacklist vc) in
  match header with
  | None | Some [] => blame "no header found"
  | Some header =>
      let block_hash := keccak header in
      item ← header_item header BLOCKHEADER_NUMBER;
      match item with
      | None => blame "Could not rlpdecode the blocknumber"
      | Some d =>
          let number := slice_number d in
          if (match expected_blockhash with Some e => negb (length e =? 32)%nat || negb (memcmp block_hash e =? 0) | None => false end) then blame "wrong blockhash"
          else
            hash ← get_verified_hash vc number;
            match hash with
            | Some h => if negb (memcmp h block_hash =? 0) then blame "invalid blockhash" else mret (IN3_OK, vc_dont_blacklist vc)
            | None =>
                ss ← field signers;
                match ss with
                | [] => mret (IN3_OK, vc_dont_blacklist vc)
                | _ =>
                    match jget (vc_proof vc) K_SIGNATURES with
                    | None => blame "no signatures in proof"
                    | Some sigs =>
                        msg ← compute_msg_hash vc block_hash number;
                        r ← check_signatures vc number block_hash msg (items_of (Some sigs)) 0 0;
                        match r with
                        | inl e => mret (e, vc_dont_blacklist vc)
                        | inr (confirmed, erred) =>
                            let signd := Z.lor confirmed erred in
                            all ← defined (if zlen ss <? 64 then Some (u32 (2 ^ zlen ss - 1)) else None);
                            if negb (signd =? all) then
                              mark_offline vc (Z.land all (u32 (Z.lnot signd))) ;;
                              e ← vc_err "missing signatures"; mret (e, true)
                            else if negb (erred =? 0) then blame "signers reported errors"
                            else add_verified (ch_id (vc_chain vc)) number block_hash ;; mret (IN3_OK, vc_dont_blacklist vc)
                        end
                    end
                end
            end
      end
  end.

(** ** Receipts (txreceipt.c) *)
Definition create_tx_path (index : Z) : option (list Z) :=
  bb ← rlp_encode_item bb_new (if index =? 0 then [] else optimize_len (be_bytes 4 index));
  bb_bytes bb.
Definition in3_req_get_proof (i : nat) : M st in3_proof_t :=
  l ← field requests;
  c ← gets client;
  ss ← field signers;
  v ← (match l with Some l => r ← defined (l !! i); mret (d_get_string (jget (Some r) K_IN3) K_VERIFICATION) | None => mret None end);
  mret (if bool_decide (cstr <$> v = Some (str "none")) then PROOF_NONE
        else if bool_decide (cstr <$> v = Some (str "proof")) then PROOF_STANDARD
        else if negb (bool_decide (ss = [])) && bool_decide (c_proof c = PROOF_NONE) then PROOF_STANDARD else c_proof c).
(** The root hash is read over 32 bytes. *)
Definition root_hash (root : slice) : list Z := mem_read m (mk_slice (s_data root) 32).
Definition verify_merkle (root : slice) (path : list Z) (proof : option jval) (expected : expected_t) : M st (bool * option slice) :=
  l ← defined (d_create_bytes_vec proof);
  match l with
  | None => mret (false, None)
  | Some l => defined (trie_verify_proof m (root_hash root) path (map place l) expected)
  end.
Fixpoint check_logs (vc : in3_vctx_t) (tx_hash : list Z) (block_hash : option jval) (i : Z) (logs : list (option jval)) : M st Z :=
  match logs with
  | [] => mret IN3_OK
  | l :: t =>
      if negb (d_eq (jget (vc_result vc) K_BLOCK_NUMBER) (jget l K_BLOCK_NUMBER)) then vc_err "wrong block number in log"
      else if negb (d_eq block_hash (d_getl l K_BLOCK_HASH 32)) then vc_err "wrong block hash in log"
      else
        p ← in3_req_get_proof (vc_index vc);
        if bool_decide (p = PROOF_FULL) && negb (d_int (jget l K_LOG_INDEX) =? i) then vc_err "wrong log index"
        else if negb (bool_decide (default [] (d_bytes (jget l K_TRANSACTION_HASH)) = tx_hash)) then vc_err "wrong tx Hash"
        else if negb (d_eq (jget (vc_proof vc) K_TX_INDEX) (jget l K_TRANSACTION_INDEX)) then vc_err "wrong tx index"
        else check_logs vc tx_hash block_hash (i + 1) t
  end.
Definition check_receipt_proof (vc : in3_vctx_t) (header path : list Z) : M st Z :=
  item ← header_item header BLOCKHEADER_RECEIPT_ROOT;
  match item with
  | None => vc_err "no receipt_root"
  | Some root =>
      receipt_raw ← defined (serialize_tx_receipt (vc_result vc));
      r ← verify_merkle root path (jget (vc_proof vc) K_MERKLE_PROOF) (EValue receipt_raw);
      if negb (fst r) then vc_err "Could not verify the merkle proof" else mret IN3_OK
  end.
Definition check_tx_proof (vc : in3_vctx_t) (header path tx_hash : list Z) : M st Z :=
  item ← header_item header BLOCKHEADER_TRANSACTIONS_ROOT;
  match item with
  | None => vc_err "no tx root"
  | Some root =>
      r ← verify_merkle root path (jget (vc_proof vc) K_TX_PROOF) EAny;
      if negb (fst r) then vc_err "Could not verify the tx proof"
      else
        match snd r with
        | None => vc_err "No value returned after verification"
        | Some raw => if negb (memcmp (keccak (mem_read m raw)) tx_hash =? 0) then vc_err "The TransactionHash is not the same as expected" else mret IN3_OK
        end
  end.
(** The values of the result that are not part of the serialised receipt. *)
Definition check_rest (vc : in3_vctx_t) (tx_hash : list Z) (block_hash : option jval) : M st Z :=
  if negb (d_eq (jget (vc_proof vc) K_TX_INDEX) (jget (vc_result vc) K_TRANSACTION_INDEX)) then vc_err "wrong transactionIndex"
  else if negb (bool_decide (tx_hash = default [] (d_bytes (jget (vc_result vc) K_TRANSACTION_HASH)))) then vc_err "wrong transactionHash"
  else check_logs vc tx_hash block_hash 0 (items_of (jget (vc_result vc) K_LOGS)).
(** The receipt against the proof: from the block header to the rest of the values. *)
Definition verify_receipt (vc : in3_vctx_t) (tx_hash : list Z) (block_hash : option jval) : M st (Z * bool) :=
  let blame (msg : string) : M st (Z * bool) := e ← vc_err msg; mret (e, vc_dont_blacklist vc) in
  match vc_proof vc with
  | None => blame "Proof is missing!"
  | Some proof =>
      match d_bytes (jget (Some proof) K_BLOCK) with
      | None => blame "No Block-Proof!"
      | Some header =>
          rd ← eth_verify_blockheader vc (Some header) (d_bytes block_hash);
          let '(res, db) := rd in
          res ← (if res =? IN3_OK then
                   item ← header_item header BLOCKHEADER_NUMBER;
                   match item with
                   | Some d => if slice_number d =? d_long (jget (vc_result vc) K_BLOCK_NUMBER) then mret IN3_OK else vc_err "wrong blocknumber in the result"
                   | None => vc_err "wrong blocknumber in the result"
                   end
                 else mret res);
          res ← (if res =? IN3_OK then
                   path ← defined (create_tx_path (u32 (d_int (jget (vc_proof vc) K_TX_INDEX))));
                   res ← check_receipt_proof vc header path;
                   if res =? IN3_OK then check_tx_proof vc header path tx_hash else mret res
                 else mret res);
          res ← (if res =? IN3_OK then check_rest vc tx_hash block_hash else mret res);
          mret (res, db)
      end
  end.
Definition eth_verify_eth_getTransactionReceipt (vc : in3_vctx_t) (tx_hash : option (list Z)) : M st (Z * bool) :=
  let blame (msg : string) : M st (Z * bool) := e ← vc_err msg; mret (e, vc_dont_blacklist vc) in
  match tx_hash with
  | None => blame "No Transaction Hash found"
  | Some tx_hash =>
      if negb (length tx_hash =? 32)%nat then blame "The transactionHash has the wrong length!"
      else
        match vc_result vc with
        | None | Some JNull => mret (IN3_OK, vc_dont_blacklist vc)
        | Some _ => verify_receipt vc tx_hash (d_getl (vc_result vc) K_BLOCK_HASH 32)
        end
  end.

(** ** The plugin (eth_nano.c) *)
Definition ALLOWED_METHODS : list string :=
  ["eth_chainId"; "in3_stats"; "eth_blockNumber"; "web3_clientVersion"; "web3_sha3"; "net_version"; "net_peerCount"; "net_listening"; "eth_protocolVersion"; "eth_syncing"; "eth_coinbase"; "eth_mining";
   "eth_hashrate"; "eth_gasPrice"; "eth_feeHistory"; "eth_accounts"; "eth_sign"; "eth_sendRawTransaction"; "eth_estimateGas"; "eth_getCompilers"; "eth_compileLLL"; "eth_compileSolidity"; "eth_compileSerpent";
   "eth_getWork"; "eth_submitWork"; "eth_submitHashrate"; "eth_getProof"].
Definition in3_verify_eth_nano (vc : in3_vctx_t) : M st (Z * bool) :=
  p ← in3_req_get_proof (vc_index vc);
  if bool_decide (p = PROOF_NONE) then mret (IN3_OK, vc_dont_blacklist vc)
  else
    match vc_result vc with
    | None => mret (IN3_OK, vc_dont_blacklist vc)
    | Some _ =>
        method ← defined (vc_method vc);
        if existsb (fun a => bool_decide (str a = cstr method)) ALLOWED_METHODS then mret (IN3_OK, vc_dont_blacklist vc)
        else if bool_decide (cstr method = str "eth_getTransactionReceipt") then
          eth_verify_eth_getTransactionReceipt vc (d_bytes (jget_at (jget (Some (vc_request vc)) K_PARAMS) 0))
        else mret (IN3_EIGNORE, vc_dont_blacklist vc)
    end.
Definition with_blacklist (vc : in3_vctx_t) (b : bool) : in3_vctx_t :=
  mk_vctx (vc_chain vc) (vc_request vc) (vc_result vc) (vc_proof vc) (vc_last_validator_change vc) (vc_currentBlock vc) (vc_index vc) (vc_method vc) (vc_node vc) b.
(** [in3_register_eth_nano]: the plugin handles one action; it calls the others for theirs. *)
Definition eth_nano : in3_plugin_t W := mk_plugin PLGN_ACT_RPC_VERIFY (fun _ c =>
  match c with
  | C_verify vc => r ← in3_verify_eth_nano vc; mret (fst r, C_verify (with_blacklist vc (snd r)))
  | _ => undef
  end).
End Nano.
