(* ===== verification/NanoSafety.v ===== *)
(** * What the nano verifier makes sure of

    The verifier of [Nano] keeps the contract of [ReqSafety] ([nano_contract]).  So whenever a
    request ends successfully, its receipts were proved against headers that the signers have
    signed, for this or an earlier request ([nano_request_sound]); with an honest signer and without
    hash collisions such a receipt is the one of the chain ([receipt_authentic]).  The invariant
    behind it says that the cache of verified hashes contains signed hashes only ([hashes_ok]);
    that the cache gives back what was put in is [verified_hash_roundtrip]. *)
From S2P Require Import Prelude Utils Bytes Rlp Merkle Data Json JsonVal ReqState Request ReqFrame ReqSafety Serialize Nano.
From stdpp Require Import strings.
#[local] Open Scope Z_scope.

(** ** Signatures and the cache of verified hashes *)
Section Vouched.
Context `{Keccak} `{Ecdsa} (asked_signers : list (list Z) -> Prop).
(** The signer with this address has signed number and hash of a block. *)
Definition signed_by (msg_hash : list Z) (signer : list Z) : Prop := exists sig addr, ecrecover_signature msg_hash sig = Some addr /\ memcmp signer addr = 0.
(** All signers that a request of the client asked have signed. *)
Definition vouched (number : Z) (hash : list Z) : Prop :=
  exists sgs version registry, sgs <> [] /\ asked_signers sgs /\ Forall (signed_by (keccak (signed_message version hash number registry))) sgs.
Definition entry_ok (e : in3_verified_hash_t) : Prop := vh_number e = 0 \/ length (vh_hash e) = 32%nat /\ vouched (vh_number e) (vh_hash e).
Definition hashes_ok (c : in3_t) : Prop := Forall (fun ch => forall t, verified_hashes ch = Some t -> Forall entry_ok t) (chains c).
(** A client that asks for proofs, whose cache has such hashes only. *)
Definition client_ok (c : in3_t) : Prop := hashes_ok c /\ c_proof c <> PROOF_NONE.
Definition nano_inv : RequestInv := {| client_inv := client_ok; asked := asked_signers |}.
Lemma add_verified_proof c id number hash c' : add_verified_to c id number hash = Some c' -> c_proof c' = c_proof c.
Proof. unfold add_verified_to. repeat case_match; try (by intros [= <-]); intros E; apply bind_Some in E as (slot & _ & E); repeat case_match; simplify_eq; done. Qed.

Lemma hashes_ok_new c ch : verified_hashes ch = None -> hashes_ok c -> hashes_ok (set_chains (chains c ++ [ch]) c).
Proof. intros Hch Hc. apply Forall_app. split; [done|]. apply Forall_singleton. intros t. by rewrite Hch. Qed.
Lemma chain_hashes_ok id c t : hashes_ok c -> chain_hashes id c = Some t -> Forall entry_ok t.
Proof.
  unfold hashes_ok, chain_hashes. intros Hc. destruct (find _ (chains c)) as [ch|] eqn:E; [|done]. cbn. intros Ht. apply find_some in E as [Hin _]. rewrite Forall_forall in Hc. eapply Hc; [by apply list_elem_of_In|done].
Qed.
Lemma set_hashes_ok id t c : hashes_ok c -> Forall entry_ok t -> hashes_ok (set_hashes id t c).
Proof.
  intros Hc Ht. unfold hashes_ok, set_hashes. cbn. apply Forall_fmap. eapply Forall_impl; [exact Hc|]. intros ch Hch. cbn. destruct (_ =? _); [|done]. cbn. by intros t' [= <-].
Qed.
Lemma add_verified_ok c id number hash c' : hashes_ok c -> length hash = 32%nat -> vouched number hash -> add_verified_to c id number hash = Some c' -> hashes_ok c'.
Proof.
  intros Hc Hlen Hv. unfold add_verified_to. destruct (_ =? 0)%nat; [by intros [= <-]|]. assert (forall n, Forall entry_ok (replicate n no_hash)) as Hrep by (intros n; apply Forall_replicate; by left).
  assert (exists c1 t, (match chain_hashes id c with Some t => (c, t) | None => (set_alloc (max_verified_hashes c) (set_hashes id (replicate (max_verified_hashes c) no_hash) c), replicate (max_verified_hashes c) no_hash) end) = (c1, t)
    /\ hashes_ok c1 /\ Forall entry_ok t) as (c1 & t & -> & Hc1 & Ht).
  { destruct (chain_hashes id c) as [t|] eqn:E; eexists _, _; (split; [done|]); split; [done|by eapply chain_hashes_ok|by apply (set_hashes_ok id _ c)|apply Hrep]. }
  assert (entry_ok (mk_vhash number hash)) as He by by right.
  destruct (find_slot _ _ _ _ _) as [[[i|]|[]]|]; cbn [mbind option_bind]; [| | |done]; intros [= <-].
  - apply set_hashes_ok; [done|]. by apply Forall_insert.
  - apply set_hashes_ok; [done|]. apply Forall_insert; [|done]. unfold resize. apply Forall_app. split; [by apply Forall_take|apply Hrep].
  - done.
Qed.
Lemma find_hash_ok n number t h : find_hash n number t = Some (Some h) -> Forall entry_ok t -> number <> 0 -> length h = 32%nat /\ vouched number h.
Proof.
  revert t. induction n as [|n IH]; intros t; cbn [find_hash]; [done|]. destruct t as [|e t]; [done|]. destruct (Z.eqb_spec (vh_number e) number) as [E|].
  - intros [= <-] Ht Hn. inversion Ht as [|? ? [He|He] _]; subst; done.
  - intros Hf Ht Hn. inversion Ht. by apply (IH t).
Qed.
End Vouched.

(** ** The cache of verified hashes gives back what was put in *)
Definition table_ok (t : list in3_verified_hash_t) : Prop := Forall (fun e => length (vh_hash e) = 32%nat) t.
(** Where a hash is put, and that none with the same number comes before. *)
Lemma find_slot_spec number hash : number <> 0 -> length hash = 32%nat -> forall t i r, table_ok t -> find_slot (length t) i number hash t = Some r ->
  match r with
  | inl (Some j) => (i <= j < i + length t)%nat /\ forall k rest, find_hash (S (j - i) + k) number (<[(j - i)%nat := mk_vhash number hash]> t ++ rest) = Some (Some hash)
  | inl None => Forall (fun e => vh_number e <> number) t
  | inr _ => forall k rest, find_hash (length t + k) number (t ++ rest) = Some (Some hash)
  end.
Proof.
  intros Hn Hl. induction t as [|e t IH]; intros i r Ht; cbn [find_slot length]; [intros [= <-]; constructor|]. inversion Ht as [|? ? He Ht']; subst.
  destruct (Z.eqb_spec (vh_number e) 0) as [E0|E0]; [|destruct (Z.eqb_spec (vh_number e) number) as [En|En]].
  - intros [= <-]. split; [lia|]. intros k rest. rewrite Nat.sub_diag. cbn. by rewrite Z.eqb_refl.
  - destruct (Z.eqb_spec (memcmp (vh_hash e) hash) 0) as [Em|]; cbn [negb].
    + intros [= <-] k rest. apply memcmp_0 in Em; [|congruence]. cbn. by rewrite En, Z.eqb_refl, Em.
    + intros [= <-]. split; [lia|]. intros k rest. rewrite Nat.sub_diag. cbn. by rewrite Z.eqb_refl.
  - intros Hf. specialize (IH (S i) r Ht' Hf). destruct r as [[j|]|[]].
    + destruct IH as [Hj Hk]. split; [lia|]. intros k rest. replace (j - i)%nat with (S (j - S i)) by lia. specialize (Hk k rest). cbn. by rewrite (proj2 (Z.eqb_neq _ _) En).
    + by constructor.
    + intros k rest. cbn. rewrite (proj2 (Z.eqb_neq _ _) En). apply IH.
Qed.
Lemma find_hash_last number hash t n : Forall (fun e => vh_number e <> number) t -> (length t < n)%nat -> find_hash n number (t ++ [mk_vhash number hash]) = Some (Some hash).
Proof. revert n. induction t as [|e t IH]; intros [|n] Ht Hn; try (cbn in Hn; lia); cbn. - by rewrite Z.eqb_refl. - inversion Ht; subst. rewrite (proj2 (Z.eqb_neq _ _)) by done. apply IH; [done|cbn in Hn; lia]. Qed.
Lemma find_slot_total number hash t : forall i, exists r, find_slot (length t) i number hash t = Some r.
Proof. induction t as [|e t IH]; intros i; cbn; [by eexists|]. repeat case_match; eauto. Qed.
(** The first chain of the client has a table of the size of the configuration, or none yet. *)
Definition cache_ok (c : in3_t) (id : Z) : Prop := exists ch rest, chains c = ch :: rest /\ ch_id ch = id /\
  forall t, verified_hashes ch = Some t -> length t = max_verified_hashes c /\ alloc_verified_hashes c = max_verified_hashes c /\ table_ok t.
Lemma chain_hashes_set id t c ch rest : chains c = ch :: rest -> ch_id ch = id -> exists ch' rest', chains (set_hashes id t c) = ch' :: rest' /\ ch_id ch' = id /\ verified_hashes ch' = Some t.
Proof. intros E <-. unfold set_hashes. cbn. rewrite E. cbn. rewrite Z.eqb_refl. by eexists _, _. Qed.
Lemma chain_hashes_head id c ch rest : chains c = ch :: rest -> ch_id ch = id -> chain_hashes id c = verified_hashes ch.
Proof. intros E <-. unfold chain_hashes. rewrite E. cbn. by rewrite Z.eqb_refl. Qed.

(** A client whose first chain has this table. *)
Definition has_table (c : in3_t) (id : Z) (t : list in3_verified_hash_t) : Prop := exists ch rest, chains c = ch :: rest /\ ch_id ch = id /\ verified_hashes ch = Some t.
Lemma set_hashes_table id t c ch rest : chains c = ch :: rest -> ch_id ch = id -> has_table (set_hashes id t c) id t.
Proof. intros E <-. unfold set_hashes, has_table. cbn. rewrite E. cbn. rewrite Z.eqb_refl. by eexists _, _. Qed.
Lemma cut_spec c id t : has_table c id t -> alloc_verified_hashes c = length t -> (max_verified_hashes c <= length t)%nat -> table_ok t ->
  exists c2, in3_check_verified_hashes c 1 = Some c2 /\ has_table c2 id (drop (length t - max_verified_hashes c) t) /\ alloc_verified_hashes c2 = max_verified_hashes c /\ max_verified_hashes c2 = max_verified_hashes c.
Proof.
  intros (ch & rest & Ec & Hid & Hv) Ha Hle Ht. unfold in3_check_verified_hashes. cbn [Nat.leb andb]. rewrite Ha. destruct (Nat.ltb_spec (max_verified_hashes c) (length t)).
  - rewrite Ec, Hv. cbn [mbind option_bind]. rewrite Nat.ltb_irrefl. eexists. split; [done|]. split; [|done]. eexists _, rest. split; [done|]. split; [done|]. cbn. rewrite take_ge by (rewrite length_drop; lia). done.
  - exists c. replace (length t - max_verified_hashes c)%nat with 0%nat by lia. rewrite drop_0. split_and!; [done|by exists ch, rest|lia|done].
Qed.
(** The table that is searched for a slot. *)
Lemma table_for_adding c id : cache_ok c id -> exists c1 t,
  (match chain_hashes id c with Some t => (c, t) | None => let t := replicate (max_verified_hashes c) no_hash in (set_alloc (max_verified_hashes c) (set_hashes id t c), t) end) = (c1, t) /\
  (exists ch rest, chains c1 = ch :: rest /\ ch_id ch = id) /\ length t = max_verified_hashes c /\ alloc_verified_hashes c1 = length t /\ max_verified_hashes c1 = length t /\ table_ok t /\ has_table c1 id t.
Proof.
  intros (ch & rest & Ec & Hid & Ht). rewrite (chain_hashes_head id c ch rest Ec Hid). destruct (verified_hashes ch) as [t|] eqn:Ev.
  - destruct (Ht t eq_refl) as (E1 & E2 & E3). exists c, t. split_and!; try done; [by exists ch, rest|lia|by exists ch, rest].
  - destruct (set_hashes_table id (replicate (max_verified_hashes c) no_hash) c ch rest Ec Hid) as (ch' & rest' & E1 & E2 & E3). eexists _, _. split; [done|]. rewrite length_replicate. split_and!; try done; [by exists ch', rest'|by apply Forall_replicate|by exists ch', rest'].
Qed.
Lemma cached c id t number hash n : has_table c id t -> length t = n -> alloc_verified_hashes c = n -> max_verified_hashes c = n -> table_ok t -> find_hash n number t = Some (Some hash) ->
  exists t2, chain_hashes id c = Some t2 /\ find_hash n number t2 = Some (Some hash) /\ cache_ok c id.
Proof.
  intros (ch & rest & Ec & Hid & Hv) Hl Ha Hm Ht Hf. exists t. split; [by rewrite (chain_hashes_head _ _ _ _ Ec Hid)|]. split; [done|]. exists ch, rest. split_and!; [done|done|]. rewrite Hv. intros ? [= <-]. by split_and!; [congruence|congruence|].
Qed.

(** The cache of verified hashes: after a hash was added and the table was cut to its size at the
    end of the request, looking up the number finds the hash, whether the table was new, had a
    free entry, had another hash for the number or was full; the table has its size again. *)
Theorem verified_hash_roundtrip c id number hash : cache_ok c id -> (0 < max_verified_hashes c)%nat -> number <> 0 -> length hash = 32%nat ->
  exists c1 c2 t, add_verified_to c id number hash = Some c1 /\ in3_check_verified_hashes c1 1 = Some c2 /\ chain_hashes id c2 = Some t /\
    find_hash (max_verified_hashes c) number t = Some (Some hash) /\ cache_ok c2 id /\ max_verified_hashes c2 = max_verified_hashes c.
Proof.
  intros Hc Hmax Hn Hl. unfold add_verified_to. rewrite (proj2 (Nat.eqb_neq _ _)) by lia. destruct (table_for_adding c id Hc) as (c1 & t & E & (ch & rest & Ec & Hid) & Hlen & Ha & Hm & Ht & Htab). cbv zeta in E |- *. rewrite E. clear E.
  rewrite Ha. destruct (find_slot_total number hash t 0) as [r Er]. rewrite Er. cbn [mbind option_bind]. pose proof (find_slot_spec number hash Hn Hl t 0%nat r Ht Er) as Hs.
  assert (forall c' t', has_table c' id t' -> max_verified_hashes c' = length t -> alloc_verified_hashes c' = length t' -> (length t <= length t')%nat -> table_ok t' -> find_hash (length t) number (drop (length t' - length t) t') = Some (Some hash) ->
    exists c2 t2, in3_check_verified_hashes c' 1 = Some c2 /\ chain_hashes id c2 = Some t2 /\ find_hash (max_verified_hashes c) number t2 = Some (Some hash) /\ cache_ok c2 id /\ max_verified_hashes c2 = max_verified_hashes c) as Hend.
  { intros c' t' Ht' Hm' Ha' Hle Hok Hf. destruct (cut_spec c' id t' Ht' Ha' ltac:(lia) Hok) as (c2 & E2 & Tab2 & A2 & M2). rewrite Hm' in *.
    destruct (cached c2 id _ number hash (length t) Tab2) as (t2 & E3 & F3 & C3); [rewrite length_drop; lia|done|done|by apply Forall_drop|done|]. exists c2, t2. by rewrite <- Hlen. }
  destruct r as [[j|]|[]].
  - destruct Hs as [Hj Hf]. eexists. specialize (Hend (set_hashes id (<[j:=mk_vhash number hash]> t) c1) (<[j:=mk_vhash number hash]> t)). destruct Hend as (c2 & t2 & Hend); rewrite ?length_insert, ?Nat.sub_diag, ?drop_0; try done; [by eapply set_hashes_table|by apply Forall_insert| |by exists c2, t2].
    rewrite Nat.sub_0_r in Hf. specialize (Hf (length t - S j)%nat []). rewrite app_nil_r in Hf. by replace (S j + (length t - S j))%nat with (length t) in Hf by lia.
  - eexists. assert (<[length t:=mk_vhash number hash]> (Nano.resize (S (length t)) t) = t ++ [mk_vhash number hash]) as ->.
    { unfold Nano.resize. rewrite take_ge by lia. replace (S (length t) - length t)%nat with 1%nat by lia. cbn [replicate]. by rewrite insert_app_r_alt, Nat.sub_diag by lia. }
    destruct t as [|e t]; [cbn in *; lia|]. inversion Hs as [|? ? He1 He2]. clear Hs. specialize (Hend (set_hashes id ((e :: t) ++ [mk_vhash number hash]) (set_alloc (S (length (e :: t))) c1)) ((e :: t) ++ [mk_vhash number hash])).
    destruct Hend as (c2 & t2 & Hend); [by eapply set_hashes_table|done|cbn; rewrite length_app; cbn; lia|rewrite length_app; cbn; lia|by apply Forall_app; split; [|repeat constructor]| |by exists c2, t2].
    rewrite length_app. cbn [length]. replace (S (length t) + 1 - S (length t))%nat with 1%nat by lia. change (drop 1 ((e :: t) ++ [mk_vhash number hash])) with (drop 0 (t ++ [mk_vhash number hash])). rewrite drop_0. apply find_hash_last; [done|lia].
  - exists c1. destruct (Hend c1 t) as (c2 & t2 & Hend'); try done; [rewrite Nat.sub_diag, drop_0|by exists c2, t2]. specialize (Hs 0%nat []). by rewrite Nat.add_0_r, app_nil_r in Hs.
Qed.
Lemma verified_hash_roundtrip_witness : exists c1 c2 t,
  add_verified_to (mk_client [mk_chain 1 0 2 (Some [mk_vhash 7 (replicate 32 7); mk_vhash 8 (replicate 32 8)])] 2 2 PROOF_STANDARD 0 0 1 0 0 0) 1 9 (replicate 32 9) = Some c1 /\
  in3_check_verified_hashes c1 1 = Some c2 /\ chain_hashes 1 c2 = Some t /\ find_hash 2 9 t = Some (Some (replicate 32 9)).
Proof.
  destruct (verified_hash_roundtrip (mk_client [mk_chain 1 0 2 (Some [mk_vhash 7 (replicate 32 7); mk_vhash 8 (replicate 32 8)])] 2 2 PROOF_STANDARD 0 0 1 0 0 0) 1 9 (replicate 32 9)) as (c1 & c2 & t & E1 & E2 & E3 & E4 & _);
    [|cbn; lia|done|done|by exists c1, c2, t].
  eexists _, _. split; [done|]. split; [done|]. intros t [= <-]. by repeat constructor.
Defined.

(** ** The block header *)
Section Verifier.
Context `{SourceText} `{Keccak} `{Allocator} `{Ecdsa} {W : Type} (plugins : list (in3_plugin_t W)) (m : memory) (place : list Z -> slice).
Context (asked_signers : list (list Z) -> Prop) (valid : list (list Z) -> in3_vctx_t -> Prop).
Context (Hplugins : Forall (plugin_contract (RI := nano_inv asked_signers) valid) plugins).
#[local] Abbreviation nwp := (wp (RI := nano_inv asked_signers)).
Implicit Types (s : state W) (vc : in3_vctx_t).
#[local] Abbreviation vouched_for := (vouched asked_signers).

Definition kept s s' : Prop := same_data (self s) (self s').
#[local] Instance kept_preorder : PreOrder kept.
Proof. split; [intros s; unfold kept; reflexivity|]. intros a b c Hab Hbc. unfold kept in *. by etrans. Qed.
Lemma vc_err_spec msg s : nwp (vc_err plugins msg) (fun e s' => e = IN3_EUNKNOWN /\ kept s s') s.
Proof. unfold vc_err. wp_run. eapply wp_mono; [by apply (report_spec plugins valid Hplugins)|]. intros e s' [_ [_ Hd]]. by wp_run. Qed.
Lemma quiet_spec act c s : act ∈ quiet_actions -> nwp (in3_plugin_execute_first plugins act c) (fun _ s' => kept s s') s.
Proof.
  intros Hq. eapply wp_mono; [apply (execute_first_spec plugins valid Hplugins)|]. intros rc s' [Hc|[_ [_ Hd]]]; [|done]. apply same_answer_data. by eapply called_quiet.
Qed.
(** Errors leave with a negative code. *)
Definition ok_or_unknown (e : Z) : Prop := e = IN3_OK \/ e = IN3_EUNKNOWN.

(** A set of signers, as a bit mask, of whom each has signed. *)
Definition signers_of (msg : list Z) (ss : list (list Z)) (mask : Z) : Prop := 0 <= mask /\ forall i, Z.testbit mask i = true -> i < 31 /\ exists signer, ss !! Z.to_nat i = Some signer /\ signed_by msg signer.
Lemma signers_of_lor msg ss a b : signers_of msg ss a -> signers_of msg ss b -> signers_of msg ss (Z.lor a b).
Proof. intros [Ha1 Ha] [Hb1 Hb]. split; [by apply Z.lor_nonneg|]. intros i. rewrite Z.lor_spec. intros [E|E]%orb_prop; auto. Qed.
Lemma signers_of_0 msg ss : signers_of msg ss 0.
Proof. split; [done|]. intros i. by rewrite Z.bits_0. Qed.
Lemma signer_bit_spec msg sig addr ss : ecrecover_signature msg sig = Some addr -> forall l i b, (forall j x, l !! j = Some x -> ss !! (i + j)%nat = Some x) -> signer_bit i addr l = Some b -> signers_of msg ss b.
Proof.
  intros Hsig. induction l as [|x l IH]; intros i b Hl; cbn [signer_bit]; [intros [= <-]; apply signers_of_0|]. destruct (Z.eqb_spec (memcmp x addr) 0) as [E|].
  - destruct (Nat.ltb_spec i 31); [|done]. intros [= <-]. split; [by apply Z.shiftl_nonneg|]. intros j Hj.
    assert (0 <= j) as Hj0. { destruct (Z.ltb_spec j 0); [|done]. by rewrite Z.testbit_neg_r in Hj by lia. }
    rewrite Z.shiftl_1_l, Z.pow2_bits_eqb in Hj by lia. apply Z.eqb_eq in Hj. subst j. split; [lia|]. rewrite Nat2Z.id. exists x. split; [|by exists sig, addr]. rewrite <- (Hl 0%nat x); [f_equal; lia|done].
  - apply IH. intros j y Hy. rewrite <- (Hl (S j) y Hy). f_equal. lia.
Qed.
Lemma eth_verify_signature_spec msg sig s : nwp (eth_verify_signature plugins msg sig) (fun b s' => signers_of msg (signers (self s)) b /\ kept s s') s.
Proof.
  unfold eth_verify_signature. destruct (ecrecover_signature msg sig) as [addr|] eqn:E; wp_run.
  - split; [|reflexivity]. by eapply (signer_bit_spec _ _ _ _ E _ 0%nat).
  - eapply wp_mono; [apply vc_err_spec|]. intros e s' [_ Hk]. wp_run. split; [apply signers_of_0|done].
Qed.
(** The outcome of checking one signature. *)
Definition one_checked msg s (b : Z) s' : Prop := kept s s' /\ (b = IN3_EUNKNOWN \/ signers_of msg (signers (self s)) b).
Lemma fail_checked err msg s : nwp (vc_err plugins err) (one_checked msg s) s.
Proof. eapply wp_mono; [apply vc_err_spec|]. intros e s' [-> Hk]. split; [done|by left]. Qed.
Lemma signature_checked msg sig s : nwp (eth_verify_signature plugins msg sig) (one_checked msg s) s.
Proof. eapply wp_mono; [apply eth_verify_signature_spec|]. intros e s' [Hb Hk]. split; [done|by right]. Qed.
Lemma validate_sig_spec sig n h msg s : nwp (validate_sig plugins sig n h msg) (one_checked msg s) s.
Proof.
  unfold validate_sig. destruct (negb _); [apply fail_checked|]. destruct (d_get_byteskl _ _ _); [|apply fail_checked]. wp_run. destruct (negb _); [apply fail_checked|apply signature_checked].
Qed.
Lemma validate_err_spec err n s : nwp (validate_err plugins err n) (fun b s' => kept s s' /\ (b = IN3_EUNKNOWN \/ 0 <= b)) s.
Proof.
  unfold validate_err. destruct (negb _).
  - eapply wp_mono; [apply vc_err_spec|]. intros e s' [-> Hk]. split; [done|by left].
  - wp_run. eapply wp_mono; [apply eth_verify_signature_spec|]. intros e s' [[Hb _] Hk]. split; [done|by right].
Qed.
Lemma err_then_quiet err act c s : act ∈ quiet_actions -> nwp (vc_err plugins err ;; in3_plugin_execute_first plugins act c ;; mret tt) (fun _ s' => kept s s') s.
Proof.
  intros Hq. wp_run. eapply wp_mono; [apply vc_err_spec|]. intros e s1 [_ Hk]. wp_run. eapply wp_mono; [by apply quiet_spec|]. intros rc s2 Hk2. cbn beta in Hk2. wp_run. by etrans.
Qed.
Lemma handle_signed_err_spec vc err bs n s : nwp (handle_signed_err plugins vc err bs n) (fun _ s' => kept s s') s.
Proof.
  unfold handle_signed_err. destruct (negb _); [wp_run; reflexivity|]. wp_run. eapply wp_mono; [apply quiet_spec; decide_now|]. intros rc s1 Hk. cbn beta in Hk. wp_run.
  destruct (DIFF_ATMOST _ _ _); [eapply wp_mono; [apply err_then_quiet; decide_now|]; intros ? s2 Hk2; cbn beta in Hk2; by etrans|]. wp_run.
  destruct (negb _); [eapply wp_mono; [apply err_then_quiet; decide_now|]; intros ? s2 Hk2; cbn beta in Hk2; by etrans|by wp_run].
Qed.
Lemma check_signatures_spec vc n h msg : forall sigs c e s, signers_of msg (signers (self s)) c -> 0 <= e -> nwp (check_signatures plugins vc n h msg sigs c e) (fun r s' => kept s s' /\
  match r with inl x => x = IN3_EUNKNOWN | inr (c', e') => signers_of msg (signers (self s)) c' /\ 0 <= e' end) s.
Proof.
  induction sigs as [|sig t IH]; intros c e s Hc He; cbn [check_signatures]; [wp_run; split; [reflexivity|done]|].
  assert (forall c e s1, kept s s1 -> signers_of msg (signers (self s)) c -> 0 <= e -> nwp (check_signatures plugins vc n h msg t c e) (fun r s' => kept s s' /\
    match r with inl x => x = IN3_EUNKNOWN | inr (c', e') => signers_of msg (signers (self s)) c' /\ 0 <= e' end) s1) as Hnext.
  { intros c1 e1 s1 Hk Hc1 He1. eapply wp_mono; [apply IH; [by rewrite (sd_signers _ _ Hk)|done]|]. intros r s2 [Hk2 Hr]. split; [by etrans|]. by rewrite (sd_signers _ _ Hk) in Hr. }
  destruct (jget sig K_ERROR) as [err|].
  - destruct (negb (is_err_signed _)); [destruct (negb _)|].
    + wp_run. eapply wp_mono; [apply vc_err_spec|]. intros x s1 [-> Hk]. by wp_run.
    + by apply Hnext.
    + wp_run. eapply wp_mono; [apply validate_err_spec|]. intros b s1 [Hk Hb]. destruct (Z.ltb_spec b 0); [wp_run; split; [done|]; unfold IN3_EUNKNOWN in *; lia|].
      assert (0 <= Z.lor e b) as Hl by (apply Z.lor_nonneg; unfold IN3_EUNKNOWN in *; lia). destruct (b =? 0); wp_run; [by apply Hnext|].
      eapply wp_mono; [apply handle_signed_err_spec|]. intros ? s2 Hk2. cbn beta in Hk2. apply Hnext; [by etrans|done|done].
  - wp_run. eapply wp_mono; [apply validate_sig_spec|]. intros b s1 [Hk Hb]. destruct (Z.ltb_spec b 0); [wp_run; split; [done|]; destruct Hb as [|[? _]]; [done|lia]|].
    destruct Hb as [->|Hb]; [by unfold IN3_EUNKNOWN in *|]. apply Hnext; [done|by apply signers_of_lor|done].
Qed.
(** The mask is full: everyone has signed. *)
Lemma all_signed msg ss c : signers_of msg ss c -> c = u32 (2 ^ zlen ss - 1) -> Forall (signed_by msg) ss.
Proof.
  intros [_ Hc] ->. assert (forall i, 0 <= i < Z.min 32 (zlen ss) -> Z.testbit (u32 (2 ^ zlen ss - 1)) i = true) as Hbit.
  { intros i Hi. unfold u32. rewrite Z.mod_pow2_bits_low by lia. replace (2 ^ zlen ss - 1) with (Z.ones (zlen ss)) by (rewrite Z.ones_equiv; lia). apply Z.ones_spec_low. lia. }
  assert (zlen ss <= 31) as Hlen. { destruct (Z.leb_spec (zlen ss) 31); [done|]. destruct (Hc 31) as [? _]; [apply Hbit; lia|lia]. }
  apply Forall_lookup. intros i x Hx. apply lookup_lt_Some in Hx as Hi. destruct (Hc (Z.of_nat i)) as (_ & y & Hy & Hs); [apply Hbit; lia|]. rewrite Nat2Z.id in Hy. congruence.
Qed.

Lemma add_verified_spec id n h s : length h = 32%nat -> vouched_for n h -> nwp (add_verified id n h) (fun _ s' => kept s s') s.
Proof.
  intros Hl Hv ([Hc Hm] & Hs & Hr). unfold add_verified. destruct (add_verified_to (client s) id n h) as [c|] eqn:E; [|done]. split; [|unfold kept; reflexivity].
  split; [split; [exact (add_verified_ok _ _ _ _ _ _ Hc Hl Hv E)|cbn [client]; by rewrite (add_verified_proof _ _ _ _ _ E)]|by split].
Qed.
Lemma get_verified_hash_spec vc n s : nwp (get_verified_hash vc n) (fun o s' => s' = s /\ forall h, o = Some h -> n <> 0 -> length h = 32%nat /\ vouched_for n h) s.
Proof.
  apply wp_inv. intros ([Hc _] & _). unfold get_verified_hash. wp_run. destruct (chain_hashes _ _) as [t|] eqn:E; wp_run; [|done]. split; [done|]. intros h ->.
  match goal with F : find_hash _ _ _ = _ |- _ => intros Hn; apply (find_hash_ok _ _ _ _ _ F); [|done] end. exact (chain_hashes_ok _ _ _ _ Hc E).
Qed.
(** An item of the header, as the decoder finds it. *)
Definition item_at (header : list Z) (index : Z) (d : slice) : Prop := rlp_decode_in_list m false (place header) index = RDone 1 (Some d).
Lemma header_item_spec header i s : nwp (header_item m place header i) (fun o s' => s' = s /\ forall d, o = Some d -> item_at header i d) s.
Proof.
  unfold header_item, item_at. destruct (rlp_decode_in_list _ _ _ _) as [r [d|]| |]; wp_run; try done. split; [done|]. intros d'. destruct (Z.eqb_spec r 1) as [->|]; [|done]. by intros [= <-].
Qed.
(** What the check of a header makes sure of: its number can be read, it has the expected hash, and
    the signers, if there are any, have signed (unless it is block 0). *)
Definition header_checked (ss : list (list Z)) (header : list Z) (expected : option (list Z)) : Prop :=
  exists d, item_at header BLOCKHEADER_NUMBER d /\ (forall e, expected = Some e -> e = keccak header) /\ (ss <> [] -> slice_number m d <> 0 -> vouched_for (slice_number m d) (keccak header)).
Lemma expected_ok header expected :
  (match expected with Some e => negb (length e =? 32)%nat || negb (memcmp (keccak header) e =? 0) | None => false end) = false -> forall e, expected = Some e -> e = keccak header.
Proof.
  destruct expected as [e|]; [|done]. intros [Hl Hm]%orb_false_elim e' [= <-]. apply negb_false_iff in Hl, Hm. apply Nat.eqb_eq in Hl. apply Z.eqb_eq in Hm. symmetry. apply memcmp_0; [|done]. by rewrite keccak_length.
Qed.
Definition header_post (header expected : option (list Z)) s (r : Z * bool) s' : Prop :=
  kept s s' /\ ok_or_unknown (fst r) /\ (fst r = IN3_OK -> exists hd, header = Some hd /\ header_checked (signers (self s)) hd expected).
Lemma blame_spec (header expected : option (list Z)) msg (b : bool) s s1 : kept s s1 -> nwp (e ← vc_err plugins msg; mret (e, b)) (header_post header expected s) s1.
Proof. intros Hk. wp_run. eapply wp_mono; [apply vc_err_spec|]. intros e s2 [-> Hk2]. wp_run. split; [by etrans|]. split; [by right|done]. Qed.
Lemma eth_verify_blockheader_spec vc header expected s : nwp (eth_verify_blockheader plugins m place vc header expected) (header_post header expected s) s.
Proof.
  assert (forall (msg : string) (b : bool) s1, kept s s1 -> nwp (e ← vc_err plugins msg; mret (e, b)) (header_post header expected s) s1) as Hblame by (intros; by apply blame_spec).
  unfold eth_verify_blockheader. destruct header as [[|x hd]|]; [by apply Hblame| |by apply Hblame]. set (header := x :: hd) in *.
  apply wp_bind. eapply wp_mono; [apply header_item_spec|]. intros [d|] ? [-> Hd]; [|by apply Hblame]. specialize (Hd d eq_refl). cbn zeta.
  match goal with |- context [if ?b then e ← vc_err plugins "wrong blockhash"; _ else _] => destruct b eqn:Ee end; [by apply Hblame|]. pose proof (expected_ok header expected Ee) as Hexp. clear Ee.
  apply wp_bind. eapply wp_mono; [apply get_verified_hash_spec|]. intros [h|] ? [-> Hh].
  - destruct (Z.eqb_spec (memcmp h (keccak header)) 0) as [Em|]; cbn [negb]; [|by apply Hblame]. wp_run. split; [reflexivity|]. split; [by left|]. intros _. exists header. split; [done|]. exists d. split_and!; [done|done|].
    intros _ Hn. destruct (Hh h eq_refl Hn) as [Hl Hv]. apply memcmp_0 in Em; [by subst h|]. by rewrite keccak_length.
  - wp_run. destruct (signers (self s)) as [|s1 ss] eqn:Ess; [wp_run; split; [reflexivity|]; split; [by left|]; intros _; exists header; split; [done|]; by exists d|]. rewrite <- Ess.
    destruct (jget (vc_proof vc) K_SIGNATURES) as [sigs|]; [|by apply Hblame]. unfold compute_msg_hash. wp_run. eapply wp_mono; [apply quiet_spec; decide_now|]. intros rc s2 Hk2. cbn beta in Hk2. wp_run.
    set (msg := keccak (signed_message _ _ _ _)). eapply wp_mono; [apply check_signatures_spec; [apply signers_of_0|done]|]. intros [e|[c e]] s3 [Hk3 Hr]; assert (kept s s3) as Hk by (by etrans).
    + wp_run. split; [done|]. split; [by right|]. by rewrite Hr.
    + destruct Hr as [Hc He]. rewrite (sd_signers _ _ Hk2) in Hc. apply wp_bind, wp_defined. intros all Eall0. destruct (_ <? 64); [|done]. injection Eall0 as <-. destruct (Z.eqb_spec (Z.lor c e) (u32 (2 ^ zlen (signers (self s)) - 1))) as [Eall|]; cbn [negb].
      2: { unfold mark_offline. wp_run. eapply wp_mono; [apply quiet_spec; decide_now|]. intros rc4 s4 Hk4. cbn beta in Hk4. wp_run. assert (kept s s4) as Hk' by (by etrans). eapply wp_mono; [apply vc_err_spec|]. intros e5 s5 [-> Hk5]. wp_run. split; [by etrans|]. split; [by right|done]. }
      destruct (Z.eqb_spec e 0) as [->|]; cbn [negb]; [|by apply Hblame]. rewrite Z.lor_0_r in Eall. apply wp_bind, wp_inv. intros _.
      assert (asked_signers (signers (self s)) -> vouched_for (slice_number m d) (keccak header)) as Hv.
      { intros Ha. eexists _, _, _. split; [|split; [exact Ha|eapply all_signed; [exact Hc|exact Eall]]]. by rewrite Ess. }
      apply wp_inv. intros (_ & Hso & _). unfold signers_ok in Hso. rewrite (sd_signers _ _ Hk), Ess in Hso. destruct Hso as [|Hso]; [done|]. rewrite <- Ess in Hso. specialize (Hv Hso).
      eapply wp_mono; [apply add_verified_spec; [apply keccak_length|exact Hv]|]. intros ? s4 Hk4. cbn beta in Hk4. wp_run. split; [by etrans|]. split; [by left|]. intros _. exists header. split; [done|]. by exists d.
Qed.

(** ** The receipt *)

(** A step that succeeds only if [P], and fails with IN3_EUNKNOWN. *)
Definition judged (P : Prop) s (e : Z) s' : Prop := kept s s' /\ ok_or_unknown e /\ (e = IN3_OK -> P).
Lemma fail_judged P msg s s1 : kept s s1 -> nwp (vc_err plugins msg) (judged P s) s1.
Proof. intros Hk. eapply wp_mono; [apply vc_err_spec|]. intros e s2 [-> Hk2]. split; [by etrans|]. split; [by right|done]. Qed.
(** The next step is only taken if the result is IN3_OK so far. *)
Lemma then_judged (P Q : Prop) (k : M (state W) Z) e s s1 : judged P s e s1 -> (P -> nwp k (judged Q s1) s1) -> nwp (if e =? IN3_OK then k else mret e) (judged (P /\ Q) s) s1.
Proof.
  intros (Hk & He & HP) Hn. destruct (Z.eqb_spec e IN3_OK) as [->|].
  - eapply wp_mono; [by apply Hn, HP|]. intros e2 s2 (Hk2 & He2 & HQ). split; [by etrans|]. split; [done|]. auto.
  - wp_run. by split.
Qed.
(** The context is the one of the request with its index. *)
Definition of_request vc s : Prop := default [] (requests (self s)) !! vc_index vc = Some (vc_request vc).
Lemma in3_req_get_proof_spec vc s : nwp (in3_req_get_proof (vc_index vc)) (fun p s' => s' = s /\
  (of_request vc s -> p = PROOF_NONE -> cstr <$> d_get_string (jget (Some (vc_request vc)) K_IN3) K_VERIFICATION = Some (str "none"))) s.
Proof.
  apply wp_inv. intros ([_ Hcp] & _). unfold in3_req_get_proof, of_request. wp_run. destruct (requests (self s)) as [l|]; wp_run; [|done]. split; [done|]. intros Hi. cbn in Hi.
  match goal with E : l !! _ = Some ?a |- _ => assert (a = vc_request vc) as -> by congruence end. case_bool_decide; [auto|]. repeat case_bool_decide; cbn [negb andb]; done.
Qed.
Definition proved_in (root : slice) (path : list Z) (proof : option jval) (expected : expected_t) (v : option slice) : Prop :=
  exists l, d_create_bytes_vec proof = Some (Some l) /\ trie_verify_proof m (root_hash m root) path (map place l) expected = Some (true, v).
Lemma verify_merkle_spec root path proof expected s : nwp (verify_merkle m place root path proof expected) (fun r s' => s' = s /\ (fst r = true -> proved_in root path proof expected (snd r))) s.
Proof.
  unfold verify_merkle. wp_run. match goal with E : d_create_bytes_vec _ = Some ?a |- _ => destruct a as [l|] end; wp_run; [|done]. split; [done|]. match goal with |- fst ?p = true -> _ => destruct p as [b v] end. cbn. intros ->. by exists l.
Qed.

(** The parts of what is proved about a receipt. *)
Definition receipt_in (vc : in3_vctx_t) (header path : list Z) : Prop :=
  exists root raw v, item_at header BLOCKHEADER_RECEIPT_ROOT root /\ serialize_tx_receipt (vc_result vc) = Some raw /\ proved_in root path (jget (vc_proof vc) K_MERKLE_PROOF) (EValue raw) v.
Definition tx_in (vc : in3_vctx_t) (header path tx_hash : list Z) : Prop :=
  exists root raw, item_at header BLOCKHEADER_TRANSACTIONS_ROOT root /\ proved_in root path (jget (vc_proof vc) K_TX_PROOF) EAny (Some raw) /\ keccak (mem_read m raw) = tx_hash.
Definition number_is (vc : in3_vctx_t) (header : list Z) : Prop := exists d, item_at header BLOCKHEADER_NUMBER d /\ slice_number m d = d_long (jget (vc_result vc) K_BLOCK_NUMBER).
Definition log_ok (vc : in3_vctx_t) (tx_hash : list Z) (l : option jval) : Prop :=
  d_eq (jget (vc_result vc) K_BLOCK_NUMBER) (jget l K_BLOCK_NUMBER) = true /\ d_eq (d_getl (vc_result vc) K_BLOCK_HASH 32) (d_getl l K_BLOCK_HASH 32) = true /\
  default [] (d_bytes (jget l K_TRANSACTION_HASH)) = tx_hash /\ d_eq (jget (vc_proof vc) K_TX_INDEX) (jget l K_TRANSACTION_INDEX) = true.
Definition rest_ok (vc : in3_vctx_t) (tx_hash : list Z) : Prop :=
  d_eq (jget (vc_proof vc) K_TX_INDEX) (jget (vc_result vc) K_TRANSACTION_INDEX) = true /\ tx_hash = default [] (d_bytes (jget (vc_result vc) K_TRANSACTION_HASH)) /\
  Forall (log_ok vc tx_hash) (items_of (jget (vc_result vc) K_LOGS)).

Lemma check_receipt_proof_spec vc header path s : nwp (check_receipt_proof plugins m place vc header path) (judged (receipt_in vc header path) s) s.
Proof.
  unfold check_receipt_proof. apply wp_bind. eapply wp_mono; [apply header_item_spec|]. intros [root|] ? [-> Hr]; [|by apply fail_judged]. apply wp_bind, wp_defined. intros raw Eraw. apply wp_bind.
  eapply wp_mono; [apply verify_merkle_spec|]. intros [b v] ? [-> Hp]. cbn [fst snd] in *. destruct b; cbn [negb]; [|by apply fail_judged]. wp_run. split; [reflexivity|]. split; [by left|]. intros _. exists root, raw, v. auto.
Qed.
Lemma check_tx_proof_spec vc header path tx_hash s : length tx_hash = 32%nat -> nwp (check_tx_proof plugins m place vc header path tx_hash) (judged (tx_in vc header path tx_hash) s) s.
Proof.
  intros Hl. unfold check_tx_proof. apply wp_bind. eapply wp_mono; [apply header_item_spec|]. intros [root|] ? [-> Hr]; [|by apply fail_judged]. apply wp_bind.
  eapply wp_mono; [apply verify_merkle_spec|]. intros [b [v|]] ? [-> Hp]; cbn [fst snd] in *; (destruct b; cbn [negb]; [|by apply fail_judged]); [|by apply fail_judged].
  destruct (Z.eqb_spec (memcmp (keccak (mem_read m v)) tx_hash) 0) as [E|]; cbn [negb]; [|by apply fail_judged]. apply memcmp_0 in E; [|by rewrite keccak_length].
  wp_run. split; [reflexivity|]. split; [by left|]. intros _. exists root, v. auto.
Qed.
Lemma check_logs_spec vc tx_hash : forall logs i s,
  nwp (check_logs plugins vc tx_hash (d_getl (vc_result vc) K_BLOCK_HASH 32) i logs) (judged (Forall (log_ok vc tx_hash) logs) s) s.
Proof.
  induction logs as [|l t IH]; intros i s; cbn [check_logs]; [wp_run; split; [reflexivity|]; split; [by left|constructor]|].
  destruct (d_eq (jget (vc_result vc) K_BLOCK_NUMBER) _) eqn:E1; cbn [negb]; [|by apply fail_judged]. destruct (d_eq (d_getl (vc_result vc) K_BLOCK_HASH 32) _) eqn:E2; cbn [negb]; [|by apply fail_judged].
  apply wp_bind. eapply wp_mono; [apply in3_req_get_proof_spec|]. intros p ? [-> _]. destruct (bool_decide (p = PROOF_FULL) && _); [by apply fail_judged|].
  case_bool_decide as E3; cbn [negb]; [|by apply fail_judged]. destruct (d_eq (jget (vc_proof vc) K_TX_INDEX) _) eqn:E4; cbn [negb]; [|by apply fail_judged].
  eapply wp_mono; [apply IH|]. intros e s2 (Hk & He & HP). split; [done|]. split; [done|]. intros Heq. constructor; [done|auto].
Qed.
Lemma check_rest_spec vc tx_hash s : nwp (check_rest plugins vc tx_hash (d_getl (vc_result vc) K_BLOCK_HASH 32)) (judged (rest_ok vc tx_hash) s) s.
Proof.
  unfold check_rest. destruct (d_eq _ _) eqn:E1; cbn [negb]; [|by apply fail_judged]. case_bool_decide as E2; cbn [negb]; [|by apply fail_judged].
  eapply wp_mono; [apply check_logs_spec|]. intros e s2 (Hk & He & HP). split; [done|]. split; [done|]. intros Heq. split_and!; [done|done|auto].
Qed.

(** What an accepted receipt is: header, number, the two proofs for the same path, and the values
    that are not in the serialised receipt. *)
Definition receipt_proved (ss : list (list Z)) (vc : in3_vctx_t) (tx_hash : list Z) : Prop :=
  length tx_hash = 32%nat /\ exists header path,
    d_bytes (jget (vc_proof vc) K_BLOCK) = Some header /\ header_checked ss header (d_bytes (d_getl (vc_result vc) K_BLOCK_HASH 32)) /\ number_is vc header /\
    create_tx_path (u32 (d_int (jget (vc_proof vc) K_TX_INDEX))) = Some path /\ receipt_in vc header path /\ tx_in vc header path tx_hash /\ rest_ok vc tx_hash.
Definition receipt_post vc (tx_hash : option (list Z)) s (r : Z * bool) s' : Prop :=
  kept s s' /\ ok_or_unknown (fst r) /\ (fst r = IN3_OK -> vc_result vc <> None -> vc_result vc <> Some JNull -> exists h, tx_hash = Some h /\ receipt_proved (signers (self s)) vc h).
Lemma receipt_blame vc tx_hash msg (b : bool) s : nwp (e ← vc_err plugins msg; mret (e, b)) (receipt_post vc tx_hash s) s.
Proof. wp_run. eapply wp_mono; [apply vc_err_spec|]. intros e s2 [-> Hk2]. wp_run. split; [done|]. split; [by right|done]. Qed.
Lemma check_number_spec vc header s :
  nwp (item ← header_item m place header BLOCKHEADER_NUMBER;
       match item with
       | Some d => if slice_number m d =? d_long (jget (vc_result vc) K_BLOCK_NUMBER) then mret IN3_OK else vc_err plugins "wrong blocknumber in the result"
       | None => vc_err plugins "wrong blocknumber in the result"
       end) (judged (number_is vc header) s) s.
Proof.
  apply wp_bind. eapply wp_mono; [apply header_item_spec|]. intros [d|] ? [-> Hd]; [|by apply fail_judged]. destruct (Z.eqb_spec (slice_number m d) (d_long (jget (vc_result vc) K_BLOCK_NUMBER))); [|by apply fail_judged].
  wp_run. split; [reflexivity|]. split; [by left|]. intros _. exists d. auto.
Qed.
Lemma check_proofs_spec vc header tx_hash s : length tx_hash = 32%nat ->
  nwp (path ← defined (create_tx_path (u32 (d_int (jget (vc_proof vc) K_TX_INDEX))));
       res ← check_receipt_proof plugins m place vc header path;
       if res =? IN3_OK then check_tx_proof plugins m place vc header path tx_hash else mret res)
    (judged (exists path, create_tx_path (u32 (d_int (jget (vc_proof vc) K_TX_INDEX))) = Some path /\ receipt_in vc header path /\ tx_in vc header path tx_hash) s) s.
Proof.
  intros Hl. apply wp_bind, wp_defined. intros path Ep. apply wp_bind. eapply wp_mono; [apply check_receipt_proof_spec|]. intros e s1 Hj. cbn beta.
  eapply wp_mono; [eapply then_judged; [exact Hj|]; intros _; by apply check_tx_proof_spec|]. intros e2 s2 (Hk & He & HP). split; [done|]. split; [done|]. intros E. exists path. auto.
Qed.
Lemma verify_receipt_spec vc tx_hash s : length tx_hash = 32%nat ->
  nwp (verify_receipt plugins m place vc tx_hash (d_getl (vc_result vc) K_BLOCK_HASH 32)) (receipt_post vc (Some tx_hash) s) s.
Proof.
  intros Hl. unfold verify_receipt. destruct (vc_proof vc) as [proof|] eqn:Ep; [|apply receipt_blame]. destruct (d_bytes (jget (Some proof) K_BLOCK)) as [header|] eqn:Eh; [|apply receipt_blame].
  apply wp_bind. eapply wp_mono; [apply eth_verify_blockheader_spec|]. intros [e db] s1 (Hk1 & He1 & Hd). cbn [fst snd] in *. rewrite <- Ep in Eh |- *.
  set (ss := signers (self s)) in *. set (expected := d_bytes (d_getl (vc_result vc) K_BLOCK_HASH 32)) in *. assert (judged (header_checked ss header expected) s e s1) as Hj1.
  { split; [done|]. split; [done|]. intros E. destruct (Hd E) as (hd & [= <-] & Hh). done. }
  apply wp_bind. eapply wp_mono; [eapply then_judged; [exact Hj1|]; intros _; apply check_number_spec|]. intros e2 s2 Hj2. cbn beta in Hj2.
  apply wp_bind. eapply wp_mono; [eapply then_judged; [exact Hj2|]; intros _; by apply check_proofs_spec|]. intros e3 s3 Hj3. cbn beta in Hj3.
  apply wp_bind. eapply wp_mono; [eapply then_judged; [exact Hj3|]; intros _; apply check_rest_spec|]. intros e4 s4 (Hk & He & HP). wp_run.
  split; [done|]. split; [done|]. intros E _ _. destruct (HP E) as (((Hh & Hn) & path & Hpa & Hr & Ht) & Hrest). exists tx_hash. split; [done|]. split; [done|]. exists header, path. by split_and!.
Qed.
Lemma receipt_spec vc tx_hash s : nwp (eth_verify_eth_getTransactionReceipt plugins m place vc tx_hash) (receipt_post vc tx_hash s) s.
Proof.
  unfold eth_verify_eth_getTransactionReceipt. destruct tx_hash as [tx_hash|]; [|apply receipt_blame]. destruct (Nat.eqb_spec (length tx_hash) 32) as [Hl|]; cbn [negb]; [|apply receipt_blame].
  pose proof (verify_receipt_spec vc tx_hash s Hl) as Hv. destruct (vc_result vc) as [[]|] eqn:Er; try exact Hv; (wp_run; split; [reflexivity|]; split; [by left|]; intros _; by rewrite Er).
Qed.

(** ** The verifier as a plugin *)
(** The claim it makes for a request: unless the request itself asks for no verification. *)
Definition nano_valid (ss : list (list Z)) (vc : in3_vctx_t) : Prop :=
  cstr <$> vc_method vc = Some (str "eth_getTransactionReceipt") -> cstr <$> d_get_string (jget (Some (vc_request vc)) K_IN3) K_VERIFICATION <> Some (str "none") ->
  vc_result vc <> None -> vc_result vc <> Some JNull -> exists h, d_bytes (jget_at (jget (Some (vc_request vc)) K_PARAMS) 0) = Some h /\ receipt_proved ss vc h.
Lemma in3_verify_eth_nano_spec vc s :
  nwp (in3_verify_eth_nano plugins m place vc) (fun r s' => kept s s' /\ (fst r = IN3_EIGNORE /\ s' = s /\ snd r = vc_dont_blacklist vc \/ ok_or_unknown (fst r) /\ (fst r = IN3_OK -> of_request vc s -> nano_valid (signers (self s)) vc))) s.
Proof.
  unfold in3_verify_eth_nano. apply wp_bind. eapply wp_mono; [apply in3_req_get_proof_spec|]. intros p ? [-> Hp].
  case_bool_decide as Ep; [wp_run; split; [reflexivity|]; right; split; [by left|]; intros _ Ho _ Hv; destruct (Hv (Hp Ho Ep))|].
  destruct (vc_result vc) as [r|] eqn:Er; [|wp_run; split; [reflexivity|]; right; split; [by left|]; intros _ _ _ _ Hn; by rewrite Er in Hn].
  apply wp_bind, wp_defined. intros method Em. destruct (existsb _ _) eqn:Ea.
  - wp_run. split; [reflexivity|]. right. split; [by left|]. intros _ _ Hm. rewrite Em in Hm. injection Hm as Hm. rewrite Hm in Ea. vm_compute in Ea. done.
  - case_bool_decide as Eg; [|wp_run; split; [reflexivity|]; by left]. eapply wp_mono; [apply receipt_spec|]. intros [e db] s1 (Hk & He & HP). split; [done|]. right. split; [done|]. intros E _ _ _ Hn Hj. by apply HP.
Qed.
(** The plugin keeps the contract, for whatever claim the others keep it. *)
Lemma nano_acts vc s r c' s' : action_fn (eth_nano plugins m place) PLGN_ACT_RPC_VERIFY (C_verify vc) s = Ok (r, c') s' -> state_inv (RI := nano_inv asked_signers) s ->
  state_inv (RI := nano_inv asked_signers) s' /\ kept s s' /\ (r = IN3_EIGNORE /\ s' = s /\ c' = C_verify vc \/ ok_or_unknown r /\ (r = IN3_OK -> of_request vc s -> nano_valid (signers (self s)) vc)).
Proof.
  intros E Hi. assert (nwp (r ← in3_verify_eth_nano plugins m place vc; mret (fst r, C_verify (with_blacklist vc (snd r)))) (fun rc s' => kept s s' /\
    (rc.1 = IN3_EIGNORE /\ s' = s /\ rc.2 = C_verify vc \/ ok_or_unknown rc.1 /\ (rc.1 = IN3_OK -> of_request vc s -> nano_valid (signers (self s)) vc))) s) as Hw.
  { apply wp_bind. eapply wp_mono; [apply in3_verify_eth_nano_spec|]. intros [e b] s1 [Hk Hr]. wp_run. cbn [fst snd] in *. split; [done|]. destruct Hr as [(-> & -> & ->)|Hr]; [left|by right]. split_and!; [done|done|]. by destruct vc. }
  specialize (Hw Hi). cbn in E. cbn in Hw. rewrite E in Hw. done.
Qed.
Lemma nano_contract : (forall ss vc, nano_valid ss vc -> valid ss vc) -> plugin_contract (RI := nano_inv asked_signers) valid (eth_nano plugins m place).
Proof.
  intros Himp. assert (forall act c s r c' s', acts_as (RI := nano_inv asked_signers) (eth_nano plugins m place) act c s r c' s' -> exists vc, c = C_verify vc /\ action_fn (eth_nano plugins m place) PLGN_ACT_RPC_VERIFY (C_verify vc) s = Ok (r, c') s' /\ state_inv (RI := nano_inv asked_signers) s) as Hc.
  { intros act c s r c' s' (Hi & _ & E). destruct c; try done. by eexists. }
  assert (forall act c s r c' s', acts_as (RI := nano_inv asked_signers) (eth_nano plugins m place) act c s r c' s' -> Z.land PLGN_ACT_RPC_VERIFY act <> 0) as Ha.
  { intros act c s r c' s' (_ & Hh & _). unfold handles in Hh. cbn [acts eth_nano] in Hh. destruct (Z.eqb_spec (Z.land PLGN_ACT_RPC_VERIFY act) 0); [done|done]. }
  split.
  - intros * Hx. destruct (Hc _ _ _ _ _ _ Hx) as (vc & -> & E & Hi). destruct (nano_acts _ _ _ _ _ E Hi) as (_ & [] & _). done.
  - intros * Hx Hr. destruct (Hc _ _ _ _ _ _ Hx) as (vc & -> & E & Hi). destruct (nano_acts _ _ _ _ _ E Hi) as (_ & _ & [(-> & -> & ->)|[[-> | ->] _]]); [done|by destruct Hr|by destruct Hr].
  - intros * Hx Hq. destruct (Ha _ _ _ _ _ _ Hx). unfold quiet_actions in Hq. repeat (apply elem_of_cons in Hq as [->|Hq]; [done|]). by apply elem_of_nil in Hq.
  - intros * Hx Hq. destruct (Ha _ _ _ _ _ _ Hx). repeat (apply elem_of_cons in Hq as [->|Hq]; [done|]). by apply elem_of_nil in Hq.
  - intros * Hx. by destruct (Ha _ _ _ _ _ _ Hx).
  - intros * Hx. destruct (Hc _ _ _ _ _ _ Hx) as (vc & -> & E & Hi). by destruct (nano_acts _ _ _ _ _ E Hi).
  - intros * Hx Ho ->. destruct (Hc _ _ _ _ _ _ Hx) as (vc' & [= <-] & E & Hi). destruct (nano_acts _ _ _ _ _ E Hi) as (_ & Hk & [([=] & _)|[_ Hv]]). split; [|done]. by apply Himp, Hv.
Qed.
End Verifier.

(** ** A request that ends successfully *)
Section Requests.
Context `{SourceText} `{Keccak} `{Allocator} `{Ecdsa} {W : Type} (m : memory) (place : list Z -> slice) (asked_signers : list (list Z) -> Prop).
#[local] Abbreviation valid := (nano_valid m place asked_signers).

(** C3. With the nano verifier among the plugins, the others keeping the contract of requests
    ([plugin_contract]), for a client that asks for proofs: start with a request that is not yet
    verified.  When an execution returns IN3_OK and nodes were asked, each response to
    [eth_getTransactionReceipt] whose result is not null was proved, unless the request itself asks
    for no verification: the header of the proof has the hash of the result (if it has one), receipt and transaction
    are in the tries of the header at the index of the result, by Merkle proofs, the transaction has
    the hash that was asked for, and the logs agree with the result.  If the request asks for
    signatures and the block is not the genesis block, the header was signed by all signers of a
    request of this client; if it does not, the header is as good as the node that sent it.  A result
    null needs no proof. *)
Theorem nano_request_sound (l1 l2 : list (in3_plugin_t W)) max_attempts s0 s fuel s' :
  Forall (plugin_contract (RI := nano_inv asked_signers) valid) (l1 ++ l2) -> state_inv (RI := nano_inv asked_signers) s0 -> verification_state (self s0) <> IN3_OK -> r_type (self s0) = RT_RPC ->
  session (RI := nano_inv asked_signers) (l1 ++ eth_nano (l1 ++ l2) m place :: l2) max_attempts s0 s ->
  in3_req_execute (l1 ++ eth_nano (l1 ++ l2) m place :: l2) max_attempts fuel s = Ok IN3_OK s' -> accepted valid (self s') /\ requests (self s') = requests (self s0).
Proof.
  intros Hp Hi Hc Ht Hs E. eapply (execute_ok_accepted (RI := nano_inv asked_signers) _ _ valid); [|..|exact E]; try done; [intros c ch Hch [Hcl Hm]; split; [by apply hashes_ok_new|done]|].
  pose proof (nano_contract (l1 ++ l2) m place asked_signers valid Hp (fun _ _ Hv => Hv)) as Hn. apply Forall_app in Hp as [Hp1 Hp2]. apply Forall_app. split; [done|by constructor].
Qed.
End Requests.

(** ** Blocks and honest signers *)
Section Authentic.
Context `{Keccak} `{Allocator} `{Ecdsa} (m : memory) (place : list Z -> slice) (asked_signers : list (list Z) -> Prop).
(** A block: the items of its header, of which two are the roots of the tries. *)
Record block := mk_block { b_items : list rlp_item; b_txs : trie; b_receipts : trie }.
Definition b_header (b : block) : list Z := rlp_list (enc_items (b_items b)).
Definition root_is (b : block) (i : Z) (t : trie) : Prop := trie_ok t = true /\ b_items b !! Z.to_nat i = Some (Str (keccak (node_enc t))).
Definition block_ok (b : block) : Prop :=
  Forall item_ok (b_items b) /\ zlen (enc_items (b_items b)) < 2 ^ 31 /\ root_is b BLOCKHEADER_TRANSACTIONS_ROOT (b_txs b) /\ root_is b BLOCKHEADER_RECEIPT_ROOT (b_receipts b).
Definition header_ok (b : block) : Prop := Forall item_ok (b_items b) /\ zlen (enc_items (b_items b)) < 2 ^ 31.
Lemma block_header_ok b : block_ok b -> header_ok b.
Proof. by intros (? & ? & _). Qed.
Context (chain : Z -> option block).
(** An honest signer signs blocks of the chain only, and nobody can forge the signature. *)
Definition honest (signer : list Z) : Prop := forall version number hash registry, length hash = 32%nat ->
  signed_by (keccak (signed_message version hash number registry)) signer -> exists b, chain (u64 number) = Some b /\ keccak (b_header b) = hash.
(** The proof of a response lies in memory and contains no collision with the block. *)
Definition in_memory (l : list Z) : Prop := placed (place l) /\ mem_read m (place l) = l.
Definition nodes_fair (proof : option jval) (t : trie) : Prop := forall l, d_create_bytes_vec proof = Some (Some l) -> Forall (fun x => in_memory x /\ no_collision t x) l.
Definition proof_fair (proof : option jval) (b : block) : Prop :=
  (forall header, d_bytes (jget proof K_BLOCK) = Some header -> in_memory header /\ (keccak header = keccak (b_header b) -> header = b_header b)) /\
  nodes_fair (jget proof K_MERKLE_PROOF) (b_receipts b) /\ nodes_fair (jget proof K_TX_PROOF) (b_txs b).
(** The key of an index in a trie. *)
Definition index_key (index : Z) : list Z := rlp_string (if index =? 0 then [] else optimize_len (be_bytes 4 index)).

Lemma create_tx_path_spec index : create_tx_path index = Some (index_key index) /\ bytes_ok (index_key index).
Proof.
  unfold create_tx_path, index_key. set (b := if index =? 0 then [] else optimize_len (be_bytes 4 index)).
  assert (bytes_ok b /\ (length b <= 4)%nat) as [Hb Hl].
  { subst b. destruct (index =? 0); [split; [constructor|cbn; lia]|]. split; [apply optimize_len_ok, be_bytes_ok|]. etrans; [apply optimize_len_length|]. by rewrite length_be_bytes. }
  split; [|apply (enc_item_bytes_ok (Str b)); [done|cbn; lia]]. destruct (rlp_encode_item_rep bb_new [] b bb_new_rep) as (bb & -> & Hr); [cbn; lia|]. exact (bb_bytes_rep _ _ Hr).
Qed.
(** A root that was read from the header of a block is the one of the trie. *)
Lemma root_read b i t root : in_memory (b_header b) -> Forall item_ok (b_items b) -> zlen (enc_items (b_items b)) < 2 ^ 31 -> root_is b i t -> 0 <= i -> item_at m place (b_header b) i root -> root_hash m root = keccak (node_enc t).
Proof.
  intros [Hp Hr] Hit Hlen [_ Hi] Hpos E. destruct (dec_in_list m (b_items b) Hit Hlen (place (b_header b)) (Z.to_nat i) _ Hp Hr Hi) as (d & Ed & Rd & _).
  rewrite Z2Nat.id in Ed by done. unfold item_at in E. rewrite E in Ed. injection Ed as <-. cbn [item_bytes] in Rd. unfold root_hash. rewrite <- Rd. pose proof (f_equal length Rd) as El. unfold mem_read in *. rewrite length_map, length_seq, keccak_length in El. cbn [s_len s_data]. by rewrite El.
Qed.
Lemma proved_has b i t root header path proof ex r v : header = b_header b -> in_memory header -> header_ok b -> root_is b i t -> 0 <= i -> item_at m place header i root -> nodes_fair proof t -> bytes_ok path ->
  proved_in m place root path proof ex r -> v <> [] -> length v <> 32%nat -> ex = EValue v \/ ex = EAny /\ (exists s, r = Some s /\ mem_read m s = v) -> has_value t (nibs path) v.
Proof.
  intros -> Hmem (Hit & Hlen) Hroot Hpos Hitem Hfair Hpath (l & El & Ev) Hv0 Hv32 Hex. rewrite (root_read b i t root) in Ev by done. specialize (Hfair l El).
  eapply proof_sound; [apply Hroot|exact Hpath| | |exact Hv0|exact Hv32|exact Ev|exact Hex]; apply Forall_fmap; (eapply Forall_impl; [exact Hfair|]); cbn; intros x [[Hp Hr] Hn]; [done|by rewrite Hr].
Qed.

(** A checked header is the one of a block of the chain. *)
Lemma checked_block ss header expected d : (forall sgs, asked_signers sgs -> exists a, a ∈ sgs /\ honest a) -> ss <> [] -> header_checked m place asked_signers ss header expected ->
  item_at m place header BLOCKHEADER_NUMBER d -> slice_number m d <> 0 -> exists b, chain (u64 (slice_number m d)) = Some b /\ keccak (b_header b) = keccak header.
Proof.
  intros Hhon Hss (d' & Hd' & _ & Hv) Hd Hn. assert (d' = d) as -> by (unfold item_at in *; congruence). destruct (Hv Hss Hn) as (sgs & version & registry & _ & Ha & Hsig). destruct (Hhon sgs Ha) as (a & Hin & Hho).
  rewrite Forall_forall in Hsig. exact (Hho version _ _ registry (keccak_length header) (Hsig a Hin)).
Qed.

(** C2. A receipt that [eth_verify_eth_getTransactionReceipt] accepts is authentic.  Let the plugins keep their
    contract ([plugin_contract]) and the client ask for proofs.  Assume that the request asks for
    signatures, that each set of signers the client asks contains an honest one, and that the proof of the response
    contains no hash collision with the blocks of the chain, whose tries have no node of less than 32 bytes.  Then
    an accepted receipt (a result other than null) of a block other than the genesis block is in
    the receipt trie of the block with this number, at the index of the proof, which is that of the
    result, and the transaction with the hash that was asked for is at the same index.  (Excluded are serialised
    receipts and transactions of 32 bytes, which a reference in the trie could be taken for.) *)
Theorem receipt_authentic `{SourceText} {W : Type} (plugins : list (in3_plugin_t W)) valid vc tx_hash s db s' :
  Forall (plugin_contract (RI := nano_inv asked_signers) valid) plugins -> state_inv (RI := nano_inv asked_signers) s ->
  eth_verify_eth_getTransactionReceipt plugins m place vc (Some tx_hash) s = Ok (IN3_OK, db) s' -> vc_result vc <> None -> vc_result vc <> Some JNull ->
  (forall sgs, asked_signers sgs -> exists a, a ∈ sgs /\ honest a) -> (forall n b, chain n = Some b -> block_ok b /\ proof_fair (vc_proof vc) b) ->
  signers (self s) <> [] -> d_long (jget (vc_result vc) K_BLOCK_NUMBER) <> 0 -> (forall raw, serialize_tx_receipt (vc_result vc) = Some raw -> raw <> [] /\ length raw <> 32%nat) -> (forall tx, keccak tx = tx_hash -> tx <> [] /\ length tx <> 32%nat) ->
  exists b raw tx, chain (u64 (d_long (jget (vc_result vc) K_BLOCK_NUMBER))) = Some b /\ serialize_tx_receipt (vc_result vc) = Some raw /\ keccak tx = tx_hash /\
    d_eq (jget (vc_proof vc) K_TX_INDEX) (jget (vc_result vc) K_TRANSACTION_INDEX) = true /\
    let key := index_key (u32 (d_int (jget (vc_proof vc) K_TX_INDEX))) in has_value (b_receipts b) (nibs key) raw /\ has_value (b_txs b) (nibs key) tx.
Proof.
  intros Hp Hi E Hr0 Hrn Hhon Hchain Hss Hnum Hraw Htx. destruct (wp_ok _ _ _ _ _ (receipt_spec plugins m place asked_signers valid Hp vc (Some tx_hash) s) Hi E) as (_ & _ & HP).
  destruct (HP eq_refl Hr0 Hrn) as (? & [= <-] & Hl & header & path & Eh & Hh & (d & Hd & En) & Ep & (rroot & raw & v & Hri & Er & Hrp) & (troot & tx & Hti & Htp & Ek) & Hidx & _). clear HP.
  destruct (checked_block _ _ _ _ Hhon Hss Hh Hd) as (b & Hb & Ekb); [by rewrite En|]. rewrite En in Hb. destruct (Hchain _ _ Hb) as [Hok (Hfh & Hfr & Hft)].
  destruct (Hfh header Eh) as [Hmem Heq]. specialize (Heq (eq_sym Ekb)). destruct (create_tx_path_spec (u32 (d_int (jget (vc_proof vc) K_TX_INDEX)))) as [Ep' Hbp]. rewrite Ep in Ep'. injection Ep' as ->.
  exists b, raw, (mem_read m tx). split; [done|]. split; [done|]. split; [done|]. split; [done|]. destruct (Hraw raw Er), (Htx _ Ek). pose proof Hok as (_ & _ & Hrt & Hrr). pose proof (block_header_ok _ Hok).
  split; [eapply (proved_has b _ (b_receipts b) rroot); try done; by left|]. eapply (proved_has b _ (b_txs b) troot); try done. right. eauto.
Qed.
(** A signer whose key recovers from the hash of one message only, that of a block of the chain, is honest. *)
Lemma honest_of_message signer msg b number registry : (forall h sig pub, crypto_recover h sig = Some pub -> memcmp signer (take 20 (drop 12 (keccak pub))) = 0 -> h = msg) -> (forall l, keccak l = msg -> l = signed_message 2 (keccak (b_header b)) number registry) ->
  chain (u64 number) = Some b -> honest signer.
Proof.
  intros Hrec Hmsg Hb version n h reg Hl (sig & addr & Hr & Ha). unfold ecrecover_signature in Hr. destruct (match d_get_byteskl sig K_MSG_HASH 32 with Some _ => _ | None => _ end); [done|].
  destruct (d_get_byteskl sig K_R 32) as [r|]; [|done]. destruct (d_get_byteskl sig K_S 32) as [s|]; [|done]. destruct (negb _); [done|]. apply bind_Some in Hr as (pub & Hr & [= <-]). apply Hrec in Hr; [|done]. apply Hmsg in Hr. unfold signed_message in Hr.
  assert (exists k : nat, (if 1 <? version then 96%nat else 64%nat) = (64 + k)%nat) as [k Hk] by (destruct (1 <? version); [by exists 32%nat|by exists 0%nat]). rewrite Hk in Hr. clear Hk. change (if 1 <? 2 then 96%nat else 64%nat) with (64 + 32)%nat in Hr.
  pose proof (keccak_length (b_header b)) as Hkl. pose proof (f_equal (take 32) Hr) as E1. rewrite !take_take, !Nat.min_l, !take_app_le, !take_ge in E1 by lia.
  pose proof (f_equal (fun x => take 8 (drop 56 x)) Hr) as E2. cbn beta in E2. rewrite !skipn_firstn_comm, !take_take, !Nat.min_l in E2 by lia. rewrite (drop_app_ge h), (drop_app_ge (keccak (b_header b))), Hl, Hkl in E2 by lia. cbn [Nat.sub replicate app drop] in E2. rewrite !drop_0, !take_app_le, !take_ge in E2 by (by rewrite length_be_bytes).
  apply (f_equal be_val) in E2. rewrite !be_val_be_bytes in E2. exists b. split; [|by subst h]. change (u64 n) with (n mod 256 ^ Z.of_nat 8). rewrite E2. exact Hb.
Qed.
End Authentic.

(** The node list, as far as it answers questions of the verifier. *)
Definition answering (id : list Z) : in3_plugin_t unit := mk_plugin PLGN_ACT_GET_DATA (fun _ c => mret (match c with C_registry_id _ => (IN3_OK, C_registry_id (Some id)) | _ => (IN3_EIGNORE, c) end)).
Lemma answering_contract `{Keccak} `{Ecdsa} id asked_signers valid : plugin_contract (RI := nano_inv asked_signers) valid (answering id).
Proof.
  assert (forall act c s r c' s', acts_as (RI := nano_inv asked_signers) (answering id) act c s r c' s' -> s' = s /\ Z.land PLGN_ACT_GET_DATA act <> 0 /\ (r = IN3_EIGNORE /\ c' = c \/ r = IN3_OK)) as Hx.
  { intros act c s r c' s' (_ & Hh & E). unfold handles in Hh. cbn in E. split; [|split]; [by destruct c; inversion E|cbn [acts answering] in Hh; by destruct (Z.eqb_spec (Z.land PLGN_ACT_GET_DATA act) 0)|destruct c; inversion E; auto]. }
  split; intros *; intros Ha; destruct (Hx _ _ _ _ _ _ Ha) as (-> & Hact & Hr); try done.
  - intros [-> | ->]; destruct Hr as [[Hr ->]|Hr]; done.
  - intros Hin. destruct Hact. repeat (apply elem_of_cons in Hin as [->|Hin]; [done|]). by apply elem_of_nil in Hin.
  - by destruct Ha.
Qed.

Lemma answering_plugins `{Keccak} `{Ecdsa} id asked_signers valid : Forall (plugin_contract (RI := nano_inv asked_signers) valid) [answering id].
Proof. constructor; [apply answering_contract|constructor]. Qed.

(** ** A concrete chain, its signer and a response

    One block with one transaction.  The hash is a checksum, except for the message that is signed
    and for the transaction; the key of the signer recovers from nothing but the signed message. *)
Module Sample.
#[local] Existing Instance no_text.
#[local] Existing Instance debug_allocator.
Definition checksum31 (l : list Z) : list Z := 3 :: be_bytes 31 (fold_left (fun acc b => (acc * 257 + b + 1) mod 2 ^ 248) l 1).
Definition tx_bytes : list Z := replicate 40 7.
Definition tx_hash : list Z := 2 :: replicate 31 0.
Definition msg_hash : list Z := 1 :: replicate 31 0.
Definition result_with (hash : list Z) : jval :=
  JObject [(K_STATUS, JInt 1); (K_BLOCK_NUMBER, JInt 5); (K_BLOCK_HASH, JBytes hash); (K_TRANSACTION_INDEX, JInt 0); (K_TRANSACTION_HASH, JBytes tx_hash)].
Definition receipt_bytes : list Z := Eval vm_compute in default [] (serialize_tx_receipt (Some (result_with []))).
Definition key0 : list Z := [8; 0].
Definition leaf (v : list Z) : list Z := rlp_list (enc_items [Str (hex_prefix key0 true); Str v]).
Definition receipt_node : list Z := Eval vm_compute in leaf receipt_bytes.
Definition tx_node : list Z := Eval vm_compute in leaf tx_bytes.
Definition items : list rlp_item :=
  [Str []; Str []; Str []; Str []; Str (checksum31 tx_node); Str (checksum31 receipt_node); Str []; Str []; Str [5]; Str []; Str []; Str []; Str []; Str []; Str []].
Definition header : list Z := Eval vm_compute in rlp_list (enc_items items).
Definition block_hash : list Z := Eval vm_compute in checksum31 header.
Definition registry : list Z := replicate 32 9.
Definition message : list Z := Eval vm_compute in signed_message 2 block_hash 5 registry.
#[local] Instance hash : Keccak.
Proof.
  refine {| keccak l := if bool_decide (l = message) then msg_hash else if bool_decide (l = tx_bytes) then tx_hash else checksum31 l |}.
  - intros l. repeat case_bool_decide; [done..|]. unfold checksum31. cbn [length]. by rewrite length_be_bytes.
  - intros l. repeat case_bool_decide; [decide_now..|]. constructor; [unfold is_byte; lia|apply be_bytes_ok].
Defined.
#[local] Instance ecdsa : Ecdsa := {| crypto_recover h _ := if bool_decide (h = msg_hash) then Some (replicate 64 5) else None |}.
Definition signer : list Z := Eval vm_compute in take 20 (drop 12 (keccak (replicate 64 5))).
Definition asked (sgs : list (list Z)) : Prop := sgs = [signer].
Definition mem : memory := mem_of (header ++ receipt_node ++ tx_node).
Definition place (l : list Z) : slice :=
  if bool_decide (l = header) then mk_slice 0 (zlen header) else if bool_decide (l = receipt_node) then mk_slice (zlen header) (zlen receipt_node) else mk_slice (zlen header + zlen receipt_node) (zlen l).
Definition blk : block := mk_block items (Leaf key0 tx_bytes) (Leaf key0 receipt_bytes).
Definition chain (n : Z) : option block := if n =? 5 then Some blk else None.

(** The only message the signer has signed is that of the block. *)
Lemma hash_message l : keccak l = msg_hash -> l = message.
Proof. cbn. case_bool_decide; [done|]. case_bool_decide; done. Qed.
Lemma hash_tx l : keccak l = tx_hash -> l = tx_bytes.
Proof. cbn. case_bool_decide; [done|]. case_bool_decide; done. Qed.
Lemma signer_honest : honest chain signer.
Proof. apply (honest_of_message chain signer msg_hash blk 5 registry); [|exact hash_message|done]. intros h sig pub E _. cbn [crypto_recover ecdsa] in E. by case_bool_decide. Qed.

(** The request and the response of a node. *)
Definition sig : jval := JObject [(K_BLOCK, JInt 5); (K_BLOCK_HASH, JBytes block_hash); (K_R, JBytes (replicate 32 1)); (K_S, JBytes (replicate 32 2)); (K_V, JInt 27)].
Definition proof : jval :=
  JObject [(K_BLOCK, JBytes header); (K_TX_INDEX, JInt 0); (K_MERKLE_PROOF, JArray [JBytes receipt_node]); (K_TX_PROOF, JArray [JBytes tx_node]); (K_SIGNATURES, JArray [sig])].
Definition request : jval := JObject [(K_METHOD, JString (str "eth_getTransactionReceipt")); (K_PARAMS, JArray [JBytes tx_hash])].
Definition eth : in3_chain_t := mk_chain 1 CHAIN_ETH 2 None.
Definition vc : in3_vctx_t := mk_vctx eth request (Some (result_with block_hash)) (Some proof) (Some 0) (Some 6) 0 (Some (str "eth_getTransactionReceipt")) node1 false.
Definition registered : in3_plugin_t unit := answering registry.
Definition asking (raw : list in3_response_t) : state unit :=
  mk_state (mk_req 1 RT_RPC 0 IN3_WAITING None (Some request) (Some [request]) Null Null (Some raw) [signer] [node1] []) [] (mk_client [eth] 5 0 PROOF_STANDARD 0 0 1 0 0 0) tt.

(** The state after the receipt was verified. *)
Definition asked_state : state unit := Eval vm_compute in match eth_verify_eth_getTransactionReceipt [registered] mem place vc (Some tx_hash) (asking []) with Ok _ s' => s' | _ => asking [] end.
Lemma registered_contract valid : plugin_contract (RI := nano_inv asked) valid registered.
Proof. apply answering_contract. Qed.
Lemma asking_inv raw : state_inv (RI := nano_inv asked) (asking raw).
Proof. split; [|split; [by right|constructor]]. split; [|done]. constructor; [done|constructor]. Qed.
Lemma sample_fair : proof_fair mem place (vc_proof vc) blk.
Proof.
  split; [|split].
  - intros h [= <-]. split; [|intros _; vm_compute; reflexivity]. split; [vm_compute; split_and!; (done || reflexivity || discriminate)|vm_compute; reflexivity].
  - intros l [= <-]. constructor; [|constructor]. split; [split; [vm_compute; split_and!; (done || reflexivity || discriminate)|vm_compute; reflexivity]|]. split; [by vm_compute|]. intros e [<-|[]] _. vm_compute. reflexivity.
  - intros l [= <-]. constructor; [|constructor]. split; [split; [vm_compute; split_and!; (done || reflexivity || discriminate)|vm_compute; reflexivity]|]. split; [by vm_compute|]. intros e [<-|[]] _. vm_compute. reflexivity.
Qed.
Lemma sample_block : block_ok blk.
Proof.
  assert (Forall (fun it => bytes_ok (item_bytes it) /\ zlen (item_bytes it) < 2 ^ 31) (b_items blk)) as Hi by decide_now. split; [exact Hi|]. split; [by vm_compute|]. split; (split; vm_compute; reflexivity).
Qed.
Lemma sample_chain n b : chain n = Some b -> block_ok b /\ proof_fair mem place (vc_proof vc) b.
Proof. unfold chain. destruct (n =? 5); [|done]. intros [= <-]. split; [apply sample_block|apply sample_fair]. Qed.

(** The response as a text. *)
Definition quoted (l : list Z) : list Z := 34 :: l ++ [34].
Definition hexed (l : list Z) : list Z := quoted (str "0x" ++ bytes_to_hex_loop l).
Definition obj (fields : list (string * list Z)) : list Z := [123] ++ tail (concat (map (fun f => 44 :: quoted (str f.1) ++ [58] ++ f.2) fields)) ++ [125].
Definition answer : list Z :=
  obj [("result", obj [("status", str "1"); ("blockNumber", str "5"); ("blockHash", hexed block_hash); ("transactionIndex", str "0"); ("transactionHash", hexed tx_hash)]);
       ("in3", obj [("proof", obj [("block", hexed header); ("txIndex", str "0"); ("merkleProof", [91] ++ hexed receipt_node ++ [93]); ("txProof", [91] ++ hexed tx_node ++ [93]);
          ("signatures", [91] ++ obj [("block", str "5"); ("blockHash", hexed block_hash); ("r", hexed (replicate 32 1)); ("s", hexed (replicate 32 2)); ("v", str "27")] ++ [93])])])].
Definition answered_state : state unit := asking [mk_response 0 IN3_OK (Some answer)].
End Sample.

#[local] Existing Instance no_text.
#[local] Existing Instance debug_allocator.
#[local] Existing Instance Sample.hash.
#[local] Existing Instance Sample.ecdsa.
Lemma receipt_authentic_witness : let key := Sample.key0 in
  has_value (Leaf key Sample.receipt_bytes) key Sample.receipt_bytes /\ has_value (Leaf key Sample.tx_bytes) key Sample.tx_bytes.
Proof.
  destruct (receipt_authentic Sample.mem Sample.place Sample.asked Sample.chain [Sample.registered] (fun _ _ => True) Sample.vc Sample.tx_hash (Sample.asking []) false (Sample.asked_state)) as (b & raw & tx & Hb & Hr & Ht & _ & Hv).
  - constructor; [apply Sample.registered_contract|constructor].
  - apply Sample.asking_inv.
  - vm_compute. reflexivity.
  - discriminate.
  - discriminate.
  - intros sgs ->. exists Sample.signer. split; [by left|apply Sample.signer_honest].
  - apply Sample.sample_chain.
  - discriminate.
  - discriminate.
  - intros raw Hr. assert (raw = Sample.receipt_bytes) as -> by (vm_compute in Hr; by injection Hr as <-). split; vm_compute; discriminate.
  - intros tx ->%Sample.hash_tx. split; vm_compute; discriminate.
  - injection Hb as <-. assert (raw = Sample.receipt_bytes) as -> by (vm_compute in Hr; by injection Hr as <-). apply Sample.hash_tx in Ht as ->. exact Hv.
Defined.
Lemma nano_request_sound_witness : exists s',
  in3_req_execute [eth_nano [Sample.registered] Sample.mem Sample.place; Sample.registered] 7 3 Sample.answered_state = Ok IN3_OK s' /\ accepted (nano_valid Sample.mem Sample.place Sample.asked) (self s').
Proof.
  eexists. split; [vm_compute; reflexivity|].
  eapply (nano_request_sound Sample.mem Sample.place Sample.asked [] [Sample.registered] 7 Sample.answered_state _ 3); [constructor; [apply Sample.registered_contract|constructor]|apply Sample.asking_inv|done|reflexivity|apply session_start|vm_compute; reflexivity].
Defined.
