(* ===== verification/ReqNew.v ===== *)
(** * core/client: new requests and the required ones

    [req_new] of request.c and [req_find_required] of execute.c, on the state of the request that
    needs another one.  The plugins of the client are initialised when its first request is created;
    here they are, so that [in3_plugin_init] returns at once. *)
From S2P Require Import Prelude Utils Bytes Data Json JsonVal ReqState Request.
From stdpp Require Import strings.
#[local] Open Scope Z_scope.

Definition K_ID : Z := Eval vm_compute in key "id".
Definition K_REQ_CHAIN_ID : Z := Eval vm_compute in key "chainId".

(** [%d] of an [int]. *)
Definition print_int (n : Z) : list Z := if n <? 0 then 45 :: digits 20 (- n) else digits 20 n.
(** A string literal, written with another quote. *)
Definition quoted (s : string) : list Z := map (fun c => if c =? 39 then 34 else c) (str s).

(** The text of a container: up to the bracket that closes it ([find_end] and [d_to_json]). *)
Fixpoint find_end (l : Z) (text : list Z) : list Z :=
  match text with
  | [] => []
  | c :: t =>
      if c =? 0 then []
      else
        let l := if (c =? 123) || (c =? 91) then l + 1 else if (c =? 125) || (c =? 93) then l - 1 else l in
        if l =? 0 then [c] else c :: find_end l t
  end.
Definition d_to_json `{SourceText} (v : jval) : list Z := find_end 0 (default [] (source_text v)).

Section New.
Context `{SourceText} `{Allocator} {W : Type} (plugins : list (in3_plugin_t W)).
#[local] Abbreviation st := (state W).

(** A step on a request that is not one of the required ones yet. *)
Definition on_new (r : in3_req_t) {A} (m : M st A) : M st in3_req_t := fun s =>
  match m (mk_state r [] (client s) (world s)) with
  | Ok _ s' => Ok (self s') (mk_state (self s) (required s) (client s') (world s'))
  | Err e s' => Err e (mk_state (self s) (required s) (client s') (world s'))
  | Undef => Undef
  | NoFuel => NoFuel
  end.
Definition empty_req (context : option jval) (rs : option (list jval)) (id : Z) : in3_req_t := mk_req id RT_RPC 0 IN3_WAITING None context rs Null Null None [] [] [].
Definition count_ids (pending ids : Z) : M st unit := modify (fun s => mk_state (self s) (required s) (set_counts pending ids (client s)) (world s)).
Definition req_new (req_data : list Z) : M st (option in3_req_t) :=
  c ← gets client;
  if c_pending c =? 0xFFFF then mret None
  else
    let pending := c_pending c + 1 in
    count_ids pending (id_count c) ;;
    v ← doc (parse_json (cstr req_data));
    match v with
    | None =>
        r ← on_new (empty_req None None 0)
              (req_set_error plugins (Some (str "Error parsing the JSON-request!")) IN3_EINVAL ;;
               msg ← message (parse_json_error (cstr req_data));
               match msg with Some msg => req_set_error plugins (Some msg) IN3_EINVAL | None => mret IN3_OK end);
        mret (Some r)
    | Some v =>
        match (match v with JObject _ => Some [v] | JArray vs => Some vs | _ => None end) with
        | None => r ← on_new (empty_req (Some v) None 0) (req_set_error plugins (Some (str "The Request is not a valid structure!")) IN3_EINVAL); mret (Some r)
        | Some rs =>
            id ← (match jget (Some v) K_ID with
                  | None => count_ids pending (u32 (id_count c + zlen rs)) ;; mret (id_count c)
                  | Some (JInt n) => mret n
                  | Some _ => mret 0
                  end);
            r0 ← defined (rs !! 0%nat);
            r ← on_new (empty_req (Some v) (Some rs) id) (in3_set_chain_id (d_long (jget (jget (Some r0) K_IN3) K_REQ_CHAIN_ID)));
            mret (Some r)
        end
    end.

(** The first of the required requests with the method, without a query for its parameters. *)
Fixpoint find_required (rs : list in3_req_t) (i : nat) (method : string) : option (option nat) :=
  match rs with
  | [] => Some None
  | r :: t =>
      match requests r with
      | None => find_required t (S i) method
      | Some l =>
          r0 ← l !! 0%nat;
          if (match d_get_string (Some r0) K_METHOD with Some m => bool_decide (cstr m = str method) | None => false end) then Some (Some i)
          else find_required t (S i) method
      end
  end.
Definition req_find_required (method : string) : M st (option nat) := rs ← gets required; defined (find_required rs 0 method).
(** A step on the [i]-th required request. *)
Definition on_required_at {A} (i : nat) (m : M st A) : M st A := fun s =>
  match required s !! i with
  | None => Undef
  | Some r =>
      match m (mk_state r (drop (S i) (required s)) (client s) (world s)) with
      | Ok a s' => Ok a (mk_state (self s) (take i (required s) ++ self s' :: required s') (client s') (world s'))
      | Err e s' => Err e (mk_state (self s) (take i (required s) ++ self s' :: required s') (client s') (world s'))
      | Undef => Undef
      | NoFuel => NoFuel
      end
  end.
(** Reports the error of a response on the request it belongs to. *)
Definition req_check_response_error (i : nat) : M st Z :=
  resp ← response_at i;
  match jget (Some resp) K_ERROR with
  | None => mret IN3_OK
  | Some (JObject _ as r) => req_set_error plugins (Some (d_to_json r)) IN3_ERPC
  | Some r => req_set_error plugins (d_string (Some r)) IN3_ERPC
  end.
(** [in3_req_state] of the [i]-th required request. *)
Definition required_state (i : nat) : M st in3_req_state_t := fun s =>
  match in3_req_state (drop i (required s)) tt with Ok q _ => Ok q s | Err e _ => Err e s | Undef => Undef | NoFuel => NoFuel end.
End New.
