(* ===== verification/Btc.v ===== *)
(** * verifier/btc: serialisation, Merkle trees and transactions

    btc_serialize.c, btc_merkle.c and the parser of btc_types.c.  A pointer into a block is an offset
    in it, and reading outside of the block undefined ([None], or [Undef] where the function also
    has error codes).  The double SHA-256 is the parameter [Sha256]. *)
From S2P Require Import Prelude Utils Bytes Rlp.
#[local] Open Scope Z_scope.

(** [crypto_create_hash(DIGEST_SHA256_BTC)], update and finalize. *)
Class Sha256 := { sha256d : list Z -> list Z; sha256d_length : forall l, length (sha256d l) = 32%nat; sha256d_ok : forall l, bytes_ok (sha256d l) }.

(** The [n] bytes from offset [p] on. *)
Definition read_z (data : list Z) (p n : Z) : option (list Z) :=
  if (0 <=? p) && (0 <=? n) && (p + n <=? zlen data) then Some (take (Z.to_nat n) (drop (Z.to_nat p) data)) else None.

(** ** Bytes in the order of Bitcoin (btc_serialize.c) *)

(** What [rev_copyl(dst, src, l)] leaves in the [l] bytes of [dst]; [rev_copy] is the case of 32 bytes. *)
Definition rev_copyl (src : list Z) (l : nat) : list Z := rev (take l src) ++ replicate (l - length src) 0.
Definition rev_copy (src : list Z) : list Z := rev src.
Definition le_to_int (data : list Z) : Z := Z.lor (Z.lor (Z.lor (Z.shiftl (rd data 3) 24) (Z.shiftl (rd data 2) 16)) (Z.shiftl (rd data 1) 8)) (rd data 0).
(** Five bytes are shifted by the same 24 bits. *)
Definition le_to_long (data : list Z) : Z :=
  Z.lor (Z.lor (Z.lor (Z.lor (Z.lor (Z.lor (Z.lor (Z.shiftl (rd data 7) 24) (Z.shiftl (rd data 6) 24)) (Z.shiftl (rd data 5) 24)) (Z.shiftl (rd data 4) 24)) (Z.shiftl (rd data 3) 24)) (Z.shiftl (rd data 2) 16)) (Z.shiftl (rd data 1) 8)) (rd data 0).
Definition le_bytes (n : nat) (value : Z) : list Z := map (fun i => Z.land (Z.shiftr value (8 * Z.of_nat i)) 0xff) (seq 0 n).
Definition uint_to_le (buf : list Z) (index : nat) (value : Z) : option (list Z) := memcpy_at buf index (le_bytes 4 value).
Definition long_to_le (buf : list Z) (index : nat) (value : Z) : option (list Z) := memcpy_at buf index (le_bytes 8 value).
Definition get_compact_uint_size (n : Z) : Z := if 0xffffffff <? n then 9 else if 0xffff <? n then 5 else if 0xfc <? n then 3 else 1.
(** The marker, then the value from the same position on, in steps of two bits. *)
Definition long_to_compact_uint (buf : list Z) (index : nat) (value : Z) : option (list Z) :=
  let len := get_compact_uint_size value in
  buf ← memcpy_at buf index [if len =? 9 then 0xff else if len =? 5 then 0xfe else if len =? 3 then 0xfd else Z.land value 0xff];
  if 1 <? len then memcpy_at buf index (map (fun i => Z.land (Z.shiftr value (2 * Z.of_nat i)) 0xff) (seq 0 (Z.to_nat (len - 1)))) else Some buf.
(** The number of bytes and the value. *)
Definition decode_var_int (data : list Z) (p : Z) : option (Z * Z) :=
  b ← read_z data p 1;
  if rd b 0 =? 0xfd then v ← read_z data (p + 1) 2; Some (3, Z.lor (Z.shiftl (rd v 1) 8) (rd v 0))
  else if rd b 0 =? 0xfe then v ← read_z data (p + 1) 4; Some (5, le_to_int v)
  else if rd b 0 =? 0xff then v ← read_z data (p + 1) 8; Some (9, le_to_long v)
  else Some (1, rd b 0).

Inductive btc_block_field := BTC_B_VERSION | BTC_B_PARENT_HASH | BTC_B_MERKLE_ROOT | BTC_B_TIMESTAMP | BTC_B_BITS | BTC_B_NONCE | BTC_B_HEADER.
Definition btc_block_get (block : list Z) (f : btc_block_field) : option (list Z) :=
  match f with
  | BTC_B_VERSION => read_at block 0 4
  | BTC_B_PARENT_HASH => read_at block 4 32
  | BTC_B_MERKLE_ROOT => read_at block 36 32
  | BTC_B_TIMESTAMP => read_at block 68 4
  | BTC_B_BITS => read_at block 72 4
  | BTC_B_NONCE => read_at block 76 4
  | BTC_B_HEADER => read_at block 0 80
  end.
(** The mantissa is copied to a place in 32 bytes that the exponent chooses. *)
Definition target_of_bits (bits : list Z) : option (list Z) :=
  if rd bits 3 <? 3 then None
  else tmp ← memcpy_at (replicate 32 0) (Z.to_nat (rd bits 3 - 3)) (take 3 bits); Some (rev_copy tmp).
Definition btc_target_from_block (block : list Z) : option (list Z) := bits ← btc_block_get block BTC_B_BITS; target_of_bits bits.

(** ** Parsing transactions (btc_types.c)

    Scripts, inputs and outputs are given by their place in the data. *)
Record btc_tx_in_t := mk_tx_in { ti_prev_tx_hash : Z; ti_prev_tx_index : Z; ti_script : slice; ti_sequence : Z }.
Record btc_tx_out_t := mk_tx_out { to_value : Z; to_script : slice }.
Record btc_tx_t := mk_btc_tx { bt_all : list Z; bt_version : Z; bt_flag : bool; bt_input_count : Z; bt_input : slice; bt_output_count : Z; bt_output : slice; bt_witnesses : slice; bt_lock_time : Z }.
(** The input and the position behind it; [Some None] for NULL. *)
Definition btc_parse_tx_in (data : list Z) (p limit : Z) : option (option (btc_tx_in_t * Z)) :=
  i ← read_z data (p + 32) 4;
  v ← decode_var_int data (p + 36);
  let script := mk_slice (p + 36 + fst v) (u32 (snd v)) in
  let q := s_data script + s_len script in
  if limit <? q + 4 then Some None
  else q4 ← read_z data q 4; Some (Some (mk_tx_in p (le_to_int i) script (le_to_int q4), q + 4)).
Definition btc_parse_tx_out (data : list Z) (p : Z) : option (btc_tx_out_t * Z) :=
  val ← read_z data p 8;
  v ← decode_var_int data (p + 8);
  let script := mk_slice (p + 8 + fst v) (u32 (snd v)) in
  Some (mk_tx_out (le_to_long val) script, s_data script + s_len script).
(** The loops over the inputs and the outputs: the position behind them. *)
Fixpoint parse_ins (fuel : nat) (count : Z) (data : list Z) (p limit : Z) : M unit Z :=
  if count =? 0 then mret p
  else
    match fuel with
    | O => fun _ => NoFuel
    | S f =>
        r ← defined (btc_parse_tx_in data p limit);
        match r with
        | Some (_, p') => if limit <=? p' then fail IN3_EINVAL else parse_ins f (count - 1) data p' limit
        | None => fail IN3_EINVAL
        end
    end.
Fixpoint parse_outs (fuel : nat) (count : Z) (data : list Z) (p limit : Z) : M unit Z :=
  if count =? 0 then mret p
  else
    match fuel with
    | O => fun _ => NoFuel
    | S f =>
        r ← defined (btc_parse_tx_out data p);
        if limit <? snd r then fail IN3_EINVAL else parse_outs f (count - 1) data (snd r) limit
    end.
Definition btc_is_witness (tx : list Z) : option bool :=
  a ← read_z tx 4 1;
  if rd a 0 =? 0 then b ← read_z tx 5 1; Some (rd b 0 =? 1) else Some false.
Definition btc_parse_tx (tx : list Z) : M unit btc_tx_t :=
  version ← defined (read_z tx 0 4);
  flag ← defined (btc_is_witness tx);
  let limit := zlen tx in
  let p := if (flag : bool) then 6 else 4 in
  v ← defined (decode_var_int tx p);
  let pi := p + fst v in
  if limit <=? pi then fail IN3_EINVAL
  else
    let input_count := u32 (snd v) in
    p ← parse_ins (length tx) input_count tx pi limit;
    v ← defined (decode_var_int tx p);
    let po := p + fst v in
    let output_count := u32 (snd v) in
    q ← parse_outs (length tx) output_count tx po limit;
    lock ← defined (read_z tx (limit - 4) 4);
    mret (mk_btc_tx tx (le_to_int version) flag input_count (mk_slice pi (u32 (p - pi))) output_count (mk_slice po (u32 (q - po))) (mk_slice q (u32 (limit - 4 - q))) (le_to_int lock)).
Definition btc_weight (tx : btc_tx_t) : Z :=
  let all := zlen (bt_all tx) in
  if s_len (bt_witnesses tx) =? 0 then u32 (all * 4) else u32 (u32 (all - s_len (bt_witnesses tx) - 2) * 3 + all).
Definition btc_vsize (tx : btc_tx_t) : Z :=
  let w := btc_weight tx in if w mod 4 =? 0 then w / 4 else u32 (w + 4) / 4.

Section Hash.
Context `{Sha256}.
Definition btc_hash (data : list Z) : list Z := rev_copy (sha256d data).

(** The hash of version, inputs, outputs and lock time, without the witnesses. *)
Definition btc_tx_id (tx : btc_tx_t) : option (list Z) :=
  let start := if bt_flag tx then 6 else 4 in
  let len := u32 (s_len (bt_output tx) + s_data (bt_output tx) - start + 8) in
  version ← read_z (bt_all tx) 0 4;
  body ← read_z (bt_all tx) start (len - 8);
  lock ← read_z (bt_all tx) (zlen (bt_all tx) - 4) 4;
  Some (btc_hash (version ++ body ++ lock)).

(** ** Merkle trees (btc_merkle.c) *)
Definition parent (a b : list Z) : list Z := sha256d (a ++ b).
(** One level, in place: [n] parents from the [i]-th on. *)
Fixpoint parents_loop (n i hashes_len : nat) (hashes : list (list Z)) : option (list (list Z)) :=
  match n with
  | O => Some hashes
  | S n' =>
      a ← hashes !! (2 * i)%nat;
      b ← hashes !! (if (2 * i + 1 =? hashes_len)%nat then 2 * i else 2 * i + 1)%nat;
      parents_loop n' (S i) hashes_len (<[i := parent a b]> hashes)
  end.
Fixpoint create_parent_hashes (fuel : nat) (hashes : list (list Z)) (hashes_len : nat) : option (list (list Z)) :=
  match fuel with
  | O => None
  | S f =>
      let res_count := Nat.div2 (hashes_len + 1) in
      hashes ← parents_loop res_count 0 hashes_len hashes;
      if (1 <? res_count)%nat then create_parent_hashes f hashes res_count else Some hashes
  end.
Definition btc_merkle_create_root (hashes : list (list Z)) : option (list Z) :=
  match hashes with
  | [] => Some (replicate 32 0)
  | _ =>
      tmp ← create_parent_hashes (length hashes) (map rev_copy hashes) (length hashes);
      h ← head tmp;
      Some (rev_copy h)
  end.
(** The loop over the proof; a rest of less than 32 bytes is read across its end. *)
Fixpoint merkle_walk (fuel : nat) (target proof : list Z) (index : Z) (hash : list Z) : option bool :=
  match proof, fuel with
  | [], _ => Some (memcmp target hash =? 0)
  | _, O => None
  | _, S f =>
      if memcmp target hash =? 0 then Some true
      else
        p ← read_at proof 0 32;
        merkle_walk f target (drop 32 proof) (Z.shiftr index 1) (if Z.odd index then parent p hash else parent hash p)
  end.
Definition btc_merkle_verify_proof (target proof : list Z) (index : Z) (start_hash : list Z) : option bool :=
  merkle_walk (length proof) target proof index (rev_copy start_hash).
End Hash.
