(* ===== verification/BtcMerkle.v ===== *)
(** * Bitcoin: Merkle trees

    What [Btc.btc_merkle_create_root] computes, and that [Btc.btc_merkle_verify_proof] accepts the
    transactions of a block and no others. *)
From S2P Require Import Prelude Utils Bytes Btc.
#[local] Open Scope Z_scope.

(** ** The tree of Bitcoin *)
Lemma list_pairs_ind {A} (P : list A -> Prop) : P [] -> (forall a, P [a]) -> (forall a b l, P l -> P (a :: b :: l)) -> forall l, P l.
Proof. intros H0 H1 H2. assert (forall n l, (length l <= n)%nat -> P l) as Hn; [|intros l; by apply (Hn (length l))]. induction n as [|n IH]; intros [|a [|b l]] Hl; try done; [cbn in Hl; lia..|]. apply H2, IH. cbn in Hl. lia. Qed.
Section Tree.
Context `{Sha256}.
(** A level of the tree from the one below: a last node without a neighbour is paired with itself. *)
Fixpoint pair_up (l : list (list Z)) : list (list Z) :=
  match l with a :: ((b :: t) as r) => parent a b :: pair_up t | [a] => [parent a a] | [] => [] end.
Lemma length_pair_up l : length (pair_up l) = Nat.div2 (length l + 1).
Proof. induction l as [|a|a b l IH] using list_pairs_ind; [done..|]. cbn [pair_up length]. rewrite IH. replace (S (S (length l)) + 1)%nat with (S (S (length l + 1))) by lia. done. Qed.
Lemma pair_up_lookup l : forall i, pair_up l !! i = (a ← l !! (2 * i)%nat; b ← l !! (if (2 * i + 1 =? length l)%nat then 2 * i else 2 * i + 1)%nat; Some (parent a b)).
Proof.
  induction l as [|a|a b l IH] using list_pairs_ind; intros i; cbn [pair_up length].
  - done.
  - destruct i as [|i]; [done|]. replace (2 * S i)%nat with (S (S (2 * i))) by lia. done.
  - destruct i as [|i]; [done|]. cbn [lookup list_lookup]. rewrite IH. replace (2 * S i)%nat with (S (S (2 * i))) by lia. cbn [lookup list_lookup]. replace (S (S (2 * i)) + 1 =? S (S (length l)))%nat with (2 * i + 1 =? length l)%nat by (destruct (Nat.eqb_spec (2 * i + 1) (length l)), (Nat.eqb_spec (S (S (2 * i)) + 1) (S (S (length l)))); lia).
    destruct (_ =? _)%nat; [done|]. by replace (S (S (2 * i)) + 1)%nat with (S (S (2 * i + 1))) by lia.
Qed.
Lemma parents_loop_spec l : forall n i buf, (i + n = Nat.div2 (length l + 1))%nat -> (length l <= length buf)%nat -> (forall j, (i <= j < length l)%nat -> buf !! j = l !! j) ->
  exists buf', parents_loop n i (length l) buf = Some buf' /\ length buf' = length buf /\ (forall j, (j < i)%nat -> buf' !! j = buf !! j) /\ forall j, (i <= j < i + n)%nat -> buf' !! j = pair_up l !! j.
Proof.
  induction n as [|n IH]; intros i buf Hn Hb Hj; cbn [parents_loop]; [exists buf; split_and!; try done; lia|].
  assert (2 * i < length l)%nat as Hi. { pose proof (Nat.div2_odd (length l + 1)). destruct (Nat.odd (length l + 1)); cbn [Nat.b2n] in *; lia. }
  pose proof (pair_up_lookup l i) as Hp. assert (i < length (pair_up l))%nat as Hlt by (rewrite length_pair_up; lia). apply lookup_lt_is_Some_2 in Hlt as [x Hx]. rewrite Hx in Hp.
  destruct (l !! (2 * i)%nat) as [a|] eqn:Ea; [|done]. cbn [mbind option_bind] in Hp. rewrite (Hj (2 * i)%nat), Ea by lia. cbn [mbind option_bind].
  set (k := (if (2 * i + 1 =? length l)%nat then 2 * i else 2 * i + 1)%nat) in *. assert (2 * i <= k < length l)%nat as Hk by (subst k; destruct (Nat.eqb_spec (2 * i + 1) (length l)); lia).
  destruct (l !! k) as [b|] eqn:Eb; [|done]. injection Hp as ->. rewrite (Hj k), Eb by lia. cbn [mbind option_bind].
  destruct (IH (S i) (<[i:=parent a b]> buf)) as (buf' & E & L & Hlow & Hhi); [lia|by rewrite length_insert|intros j Hj'; rewrite list_lookup_insert_ne by lia; apply Hj; lia|].
  exists buf'. split; [done|]. rewrite length_insert in L. split; [done|]. split.
  - intros j Hji. rewrite Hlow by lia. by rewrite list_lookup_insert_ne by lia.
  - intros j Hji. destruct (decide (j = i)) as [->|]; [|apply Hhi; lia]. rewrite Hlow by lia. rewrite list_lookup_insert_eq by lia. by rewrite Hx.
Qed.
(** The root: of one hash it is the hash. *)
Inductive root_of : list (list Z) -> list Z -> Prop :=
  | root_one a : root_of [a] a
  | root_more l r : (2 <= length l)%nat -> root_of (pair_up l) r -> root_of l r.
Lemma parents_agree l buf : (1 <= length l)%nat -> (length l <= length buf)%nat -> (forall j, (j < length l)%nat -> buf !! j = l !! j) ->
  exists buf', parents_loop (Nat.div2 (length l + 1)) 0 (length l) buf = Some buf' /\ length buf' = length buf /\ forall j, (j < length (pair_up l))%nat -> buf' !! j = pair_up l !! j.
Proof. intros H1 Hb Hj. destruct (parents_loop_spec l (Nat.div2 (length l + 1)) 0 buf) as (buf' & E & L & _ & Hh); [done|done|intros; apply Hj; lia|]. exists buf'. split; [done|]. split; [done|]. intros j. rewrite length_pair_up. intros. apply Hh. lia. Qed.
Lemma div2_lt n : (2 <= n)%nat -> (1 <= Nat.div2 (n + 1) < n)%nat.
Proof. intros Hn. pose proof (Nat.div2_odd (n + 1)). destruct (Nat.odd (n + 1)); cbn [Nat.b2n] in *; lia. Qed.
Lemma create_parents_spec : forall fuel l buf, (2 <= length l <= fuel)%nat -> (length l <= length buf)%nat -> (forall j, (j < length l)%nat -> buf !! j = l !! j) ->
  exists buf' r, create_parent_hashes fuel buf (length l) = Some buf' /\ head buf' = Some r /\ root_of l r.
Proof.
  induction fuel as [|f IH]; intros l buf Hl Hb Hj; [lia|]. cbn [create_parent_hashes]. destruct (parents_agree l buf) as (b1 & E & L & Hh); [lia|done|done|]. rewrite E. cbn [mbind option_bind]. clear E.
  pose proof (div2_lt (length l) ltac:(lia)) as Hd. rewrite <- length_pair_up in *. destruct (Nat.ltb_spec 1 (length (pair_up l))) as [H2|H2].
  - destruct (IH (pair_up l) b1) as (b2 & r & E2 & Hr & Hroot); [lia|lia|done|]. exists b2, r. split; [done|]. split; [done|]. apply root_more; [lia|done].
  - destruct (pair_up l) as [|x [|y t]] eqn:Ep; [cbn in *; lia| |cbn in *; lia]. specialize (Hh 0%nat ltac:(cbn; lia)). exists b1, x. split; [done|]. split; [destruct b1; [done|by injection Hh as ->]|]. apply root_more; [lia|]. rewrite Ep. constructor.
Qed.
(** C35. The Merkle root of two or more transactions is the one of Bitcoin, computed in place.  For a
    single transaction it is not: its hash is combined with itself once. *)
Theorem btc_merkle_root_spec hashes :
  ((2 <= length hashes)%nat -> exists r, root_of (map rev_copy hashes) r /\ btc_merkle_create_root hashes = Some (rev_copy r)) /\
  (forall h, hashes = [h] -> btc_merkle_create_root hashes = Some (rev_copy (parent (rev_copy h) (rev_copy h)))).
Proof.
  split; [|by intros h ->]. intros Hl. unfold btc_merkle_create_root. destruct (create_parents_spec (length hashes) (map rev_copy hashes) (map rev_copy hashes)) as (buf & r & E & Hr & Hroot); [rewrite length_map; lia|done|done|].
  rewrite length_map in E. exists r. split; [done|]. destruct hashes as [|h t]; [cbn in Hl; lia|]. rewrite E. cbn [mbind option_bind]. by rewrite Hr.
Qed.

(** The path of a leaf: the neighbour on each level. *)
Definition neighbour (l : list (list Z)) (i : nat) : option (list Z) :=
  if Nat.odd i then l !! (i - 1)%nat else match l !! (i + 1)%nat with Some x => Some x | None => l !! i end.
Inductive merkle_path : list (list Z) -> nat -> list (list Z) -> Prop :=
  | path_root a : merkle_path [a] 0 []
  | path_level l i x p : (2 <= length l)%nat -> neighbour l i = Some x -> merkle_path (pair_up l) (Nat.div2 i) p -> merkle_path l i (x :: p).
Lemma pair_up_node l i h x : l !! i = Some h -> neighbour l i = Some x -> pair_up l !! Nat.div2 i = Some (if Nat.odd i then parent x h else parent h x).
Proof.
  intros Hh Hx. rewrite pair_up_lookup. unfold neighbour in Hx. pose proof (Nat.div2_odd i) as Hi. apply lookup_lt_Some in Hh as Hlt. destruct (Nat.odd i); cbn [Nat.b2n] in Hi.
  - replace (2 * Nat.div2 i)%nat with (i - 1)%nat by lia. rewrite Hx. cbn [mbind option_bind]. destruct (Nat.eqb_spec (i - 1 + 1) (length l)); [lia|]. replace (i - 1 + 1)%nat with i by lia. by rewrite Hh.
  - replace (2 * Nat.div2 i)%nat with i by lia. rewrite Hh. cbn [mbind option_bind]. destruct (Nat.eqb_spec (i + 1) (length l)).
    + rewrite lookup_ge_None_2 in Hx by lia. rewrite Hh in Hx |- *. cbn. congruence.
    + destruct (l !! (i + 1)%nat) eqn:E; [cbn; congruence|]. apply lookup_ge_None in E. lia.
Qed.
Lemma read_hash x rest : length x = 32%nat -> read_at (x ++ rest) 0 32 = Some x /\ drop 32 (x ++ rest) = rest.
Proof. intros Hx. unfold read_at. rewrite (proj2 (Nat.leb_le _ _)) by (rewrite length_app; lia). rewrite drop_0, <- Hx, take_app_length, drop_app_length. done. Qed.
Lemma odd_of_nat i : Z.odd (Z.of_nat i) = Nat.odd i.
Proof. rewrite <- Nat.negb_even, <- Z.negb_even. f_equal. induction i as [i IH] using lt_wf_ind. destruct i as [|[|i]]; [done..|]. replace (Z.of_nat (S (S i))) with (Z.succ (Z.succ (Z.of_nat i))) by lia. rewrite Z.even_succ_succ. change (Nat.even (S (S i))) with (Nat.even i). apply IH. lia. Qed.
Lemma shiftr_of_nat i : Z.shiftr (Z.of_nat i) 1 = Z.of_nat (Nat.div2 i).
Proof. rewrite Z.shiftr_div_pow2 by lia. change (2 ^ 1) with 2. rewrite Nat.div2_div, Nat2Z.inj_div. done. Qed.

Lemma walk_complete l r : root_of l r -> forall i p h fuel, merkle_path l i p -> Forall (fun x => length x = 32%nat) p -> l !! i = Some h -> (length (concat p) <= fuel)%nat ->
  merkle_walk fuel r (concat p) (Z.of_nat i) h = Some true.
Proof.
  induction 1 as [a|l r Hl Hr IH]; intros i p h fuel Hp H32 Hh Hf.
  - inversion Hp; subst; [|cbn in *; lia]. injection Hh as ->. destruct fuel; cbn [concat merkle_walk]; f_equal; apply Z.eqb_eq; by apply memcmp_0.
  - inversion Hp as [|? ? x p' _ Hx Hp']; subst; [cbn in Hl; lia|]. inversion H32 as [|? ? Hx32 H32']; subst. cbn [concat] in *. rewrite length_app in Hf. destruct fuel as [|f]; [lia|].
    destruct x as [|x0 x]; [cbn in Hx32; lia|]. cbn [app merkle_walk]. change (x0 :: x ++ concat p') with ((x0 :: x) ++ concat p'). destruct (memcmp r h =? 0); [done|].
    destruct (read_hash (x0 :: x) (concat p') Hx32) as [-> ->]. cbn [mbind option_bind]. rewrite odd_of_nat, shiftr_of_nat. apply IH; [done|done|by apply pair_up_node|cbn in Hf; lia].
Qed.
(** Merkle proofs are complete: the neighbours on the path of a transaction, one per level, are
    accepted as its proof for the root of the block. *)
Theorem btc_merkle_proof_complete hashes r i p h : root_of (map rev_copy hashes) r -> merkle_path (map rev_copy hashes) i p -> Forall (fun x => length x = 32%nat) p -> hashes !! i = Some h ->
  btc_merkle_verify_proof r (concat p) (Z.of_nat i) h = Some true.
Proof. intros Hr Hp H32 Hh. unfold btc_merkle_verify_proof. apply (walk_complete _ _ Hr); [done|done| |done]. by rewrite list_lookup_fmap, Hh. Qed.

(** The nodes of a tree, and what is hashed for the inner ones. *)
Inductive tree_node : list (list Z) -> list Z -> Prop :=
  | node_here l h : h ∈ l -> tree_node l h
  | node_above l h : (2 <= length l)%nat -> tree_node (pair_up l) h -> tree_node l h.
Inductive tree_input : list (list Z) -> list Z -> list Z -> Prop :=
  | input_here l i a b : (2 <= length l)%nat -> l !! (2 * i)%nat = Some a -> l !! (if (2 * i + 1 =? length l)%nat then 2 * i else 2 * i + 1)%nat = Some b -> tree_input l a b
  | input_above l a b : (2 <= length l)%nat -> tree_input (pair_up l) a b -> tree_input l a b.
Lemma inner_node l h : tree_node l h -> h ∈ l \/ exists a b, h = parent a b /\ tree_input l a b /\ tree_node l a /\ tree_node l b.
Proof.
  induction 1 as [l h Hin|l h Hl Hn IH]; [by left|]. right. destruct IH as [Hin|(a & b & E & Hi & Ha & Hb)].
  - apply list_elem_of_lookup in Hin as [i Hi]. rewrite pair_up_lookup in Hi. destruct (l !! (2 * i)%nat) as [a|] eqn:Ea; [|done]. cbn [mbind option_bind] in Hi. destruct (l !! (if (2 * i + 1 =? length l)%nat then 2 * i else 2 * i + 1)%nat) as [b|] eqn:Eb; [|done]. injection Hi as <-.
    exists a, b. split_and!; [done|eapply (input_here l i); done|apply node_here; by eapply list_elem_of_lookup_2|apply node_here; by eapply list_elem_of_lookup_2].
  - exists a, b. split_and!; [done|by apply input_above|by apply node_above|by apply node_above].
Qed.
Lemma root_node l r : root_of l r -> tree_node l r.
Proof. induction 1; [apply node_here; by left|by apply node_above]. Qed.
Lemma pair_up_32 l : Forall (fun x => length x = 32%nat) (pair_up l).
Proof. induction l as [|a|a b l IH] using list_pairs_ind; repeat constructor; try apply sha256d_length. exact IH. Qed.
Lemma tree_input_32 l a b : tree_input l a b -> Forall (fun x => length x = 32%nat) l -> length a = 32%nat /\ length b = 32%nat.
Proof. induction 1 as [l i a b _ Ha Hb|l a b _ _ IH]; intros Hl; [rewrite Forall_lookup in Hl; split; by eapply Hl|apply IH, pair_up_32]. Qed.

(** What a proof makes the verifier hash, from the start on. *)
Fixpoint walk_inputs (fuel : nat) (proof : list Z) (index : Z) (hash : list Z) : list (list Z) :=
  match fuel, read_at proof 0 32 with
  | S f, Some p => let x := if Z.odd index then p ++ hash else hash ++ p in x :: walk_inputs f (drop 32 proof) (Z.shiftr index 1) (sha256d x)
  | _, _ => []
  end.
(** No two different strings among these have the same hash. *)
Definition no_clash (xs : list (list Z)) (D : list Z -> Prop) : Prop := Forall (fun x => forall y, D y -> sha256d x = sha256d y -> x = y) xs.
Section Sound.
Context (txs : list (list Z)) (r : list Z).
#[local] Abbreviation leaves := (map sha256d txs).
(** What is hashed for the tree of the block. *)
Definition tree_data (y : list Z) : Prop := y ∈ txs \/ exists a b, y = a ++ b /\ tree_input leaves a b.
Context (Hroot : root_of leaves r) (H64 : Forall (fun tx => length tx <> 64%nat) txs).
Lemma leaves_32 : Forall (fun x => length x = 32%nat) leaves.
Proof. apply Forall_fmap, Forall_forall. intros x _. apply sha256d_length. Qed.
(** A node that is the hash of two hashes has these as its children. *)
Lemma node_children a b : length a = 32%nat -> length b = 32%nat -> (forall y, tree_data y -> sha256d (a ++ b) = sha256d y -> a ++ b = y) -> tree_node leaves (sha256d (a ++ b)) -> tree_node leaves a /\ tree_node leaves b.
Proof.
  intros Ha Hb Hno Hn. destruct (inner_node _ _ Hn) as [Hin|(a' & b' & E & Hi & Na & Nb)].
  - apply list_elem_of_fmap in Hin as (tx & E & Htx). assert (a ++ b = tx) as <- by (apply Hno; [by left|done]). rewrite Forall_forall in H64. destruct (H64 _ Htx). rewrite length_app. lia.
  - assert (a ++ b = a' ++ b') as Eab by (apply Hno; [right; eauto|done]). destruct (tree_input_32 _ _ _ Hi leaves_32) as [Ha' Hb']. apply app_inj_1 in Eab as [-> ->]; [done|congruence].
Qed.
Lemma walk_sound : forall fuel proof index hash, length hash = 32%nat -> no_clash (walk_inputs fuel proof index hash) tree_data -> merkle_walk fuel r proof index hash = Some true -> tree_node leaves hash.
Proof.
  assert (length r = 32%nat) as Hr by (destruct (inner_node _ _ (root_node _ _ Hroot)) as [Hin|(a & b & -> & _)]; [pose proof leaves_32 as Hl; rewrite Forall_forall in Hl; by apply Hl|apply sha256d_length]).
  assert (forall hash, length hash = 32%nat -> memcmp r hash = 0 -> tree_node leaves hash) as Hend by (intros hash Hh E; apply memcmp_0 in E; [subst; by apply root_node|congruence]).
  induction fuel as [|f IH]; intros proof index hash Hh Hno; destruct proof as [|x proof]; cbn [merkle_walk]; try done.
  1,2: by intros [= E%Z.eqb_eq]; apply Hend. destruct (Z.eqb_spec (memcmp r hash) 0); [by auto|]. cbn [walk_inputs] in Hno. destruct (read_at (x :: proof) 0 32) as [p|] eqn:Ep; [|done]. cbn [mbind option_bind]. cbv zeta in Hno.
  pose proof (read_at_length _ _ _ _ Ep) as Hp.
  inversion Hno as [|? ? Hx Hno']; subst. intros Hw. destruct (Z.odd index); (eapply IH in Hw; [|apply sha256d_length|exact Hno']); unfold parent in Hw; apply node_children in Hw; tauto.
Qed.
Lemma merkle_member proof index tx : length tx <> 64%nat -> no_clash (tx :: walk_inputs (length proof) proof index (sha256d tx)) tree_data ->
  btc_merkle_verify_proof r proof index (btc_hash tx) = Some true -> tx ∈ txs.
Proof.
  intros Htx Hno. unfold btc_merkle_verify_proof, btc_hash, rev_copy. rewrite rev_involutive. inversion Hno as [|? ? Hx Hno']; subst. intros Hw. apply walk_sound in Hw; [|apply sha256d_length|done].
  destruct (inner_node _ _ Hw) as [Hin|(a & b & E & Hi & _)].
  - apply list_elem_of_fmap in Hin as (tx' & E & Hin). assert (tx = tx') as -> by (apply Hx; [by left|done]). done.
  - destruct Htx. assert (tx = a ++ b) as -> by (apply Hx; [right; eauto|done]). destruct (tree_input_32 _ _ _ Hi leaves_32). rewrite length_app. lia.
Qed.
(** C14. Merkle proofs are sound, for transactions that do not have 64 bytes (like the two hashes below
    an inner node, which would be accepted as a transaction): assume that neither the transactions of the
    block nor the one that is claimed have 64 bytes, and that the hash of none of the strings the
    proof refers to clashes with one in the tree.  If the transaction is accepted for the root of the
    block, it is one of its transactions. *)
Theorem btc_merkle_proof_sound proof index tx : length tx <> 64%nat -> no_clash (tx :: walk_inputs (length proof) proof index (sha256d tx)) tree_data ->
  btc_merkle_verify_proof r proof index (btc_hash tx) = Some true -> tx ∈ txs.
Proof. apply merkle_member. Qed.
End Sound.
End Tree.

(** ** A block with three transactions *)
#[local] Instance checksum : Sha256.
Proof.
  refine {| sha256d l := be_bytes 32 (fold_left (fun acc b => (acc * 257 + b + 1) mod 2 ^ 256) l 1) |}.
  - intros. apply length_be_bytes.
  - intros. apply be_bytes_ok.
Defined.
Definition block_txs : list (list Z) := [[1; 2; 3]; [4; 5]; [6]].
Definition block_ids : list (list Z) := map btc_hash block_txs.
Definition block_level1 : list (list Z) := pair_up (map sha256d block_txs).
Definition block_root : list Z := Eval vm_compute in match pair_up block_level1 with [r] => r | _ => [] end.
Lemma block_top : pair_up block_level1 = [block_root].
Proof. vm_compute. reflexivity. Qed.
Lemma block_rooted : root_of (map sha256d block_txs) block_root.
Proof. apply root_more; [vm_compute; lia|]. apply root_more; [vm_compute; lia|]. change (root_of (pair_up block_level1) block_root). rewrite block_top. constructor. Qed.
Lemma block_hashes : map rev_copy block_ids = map sha256d block_txs.
Proof. vm_compute. reflexivity. Qed.
Lemma btc_merkle_root_spec_witness : exists r, root_of (map rev_copy block_ids) r /\ btc_merkle_create_root block_ids = Some (rev_copy r).
Proof. apply (proj1 (btc_merkle_root_spec block_ids)). vm_compute. lia. Defined.
Definition block_path : list (list Z) := [sha256d [6]; parent (sha256d [1; 2; 3]) (sha256d [4; 5])].
Lemma block_pathed : merkle_path (map sha256d block_txs) 2 block_path.
Proof. apply path_level; [vm_compute; lia|reflexivity|]. apply path_level; [vm_compute; lia|vm_compute; reflexivity|]. change (merkle_path (pair_up block_level1) 0 []). rewrite block_top. constructor. Qed.
Lemma btc_merkle_proof_complete_witness : btc_merkle_verify_proof block_root (concat block_path) 2 (btc_hash [6]) = Some true.
Proof.
  apply (btc_merkle_proof_complete block_ids block_root 2 block_path (btc_hash [6])); [rewrite block_hashes; exact block_rooted|rewrite block_hashes; exact block_pathed|repeat constructor; vm_compute; reflexivity|vm_compute; reflexivity].
Defined.
(** The strings in this tree. *)
Definition block_inputs : list (list Z) := [sha256d [1; 2; 3] ++ sha256d [4; 5]; sha256d [6] ++ sha256d [6]; parent (sha256d [1; 2; 3]) (sha256d [4; 5]) ++ parent (sha256d [6]) (sha256d [6])].
Lemma input_cases l a b : tree_input l a b -> (2 <= length l)%nat /\ ((exists i, (i < length (pair_up l))%nat /\ l !! (2 * i)%nat = Some a /\ l !! (if (2 * i + 1 =? length l)%nat then 2 * i else 2 * i + 1)%nat = Some b) \/ tree_input (pair_up l) a b).
Proof.
  destruct 1 as [l i a b Hl Ha Hb|l a b Hl Hi]; (split; [done|]); [left|by right]. exists i. split_and!; [|done|done]. apply lookup_lt_Some in Ha. rewrite length_pair_up. pose proof (Nat.div2_odd (length l + 1)). destruct (Nat.odd (length l + 1)); cbn [Nat.b2n] in *; lia.
Qed.
Lemma block_data_all y : tree_data block_txs y -> y ∈ block_txs ++ block_inputs.
Proof.
  intros [Hin|(a & b & -> & Hi)]; apply elem_of_app; [by left|right]. apply input_cases in Hi as (_ & [(i & Hlt & Ha & Hb)|Hi]).
  - destruct i as [|[|i]]; [| |cbn in Hlt; lia].
    + change (Some (sha256d [1; 2; 3]) = Some a) in Ha. change (Some (sha256d [4; 5]) = Some b) in Hb. apply (inj Some) in Ha as <-, Hb as <-. apply elem_of_cons. by left.
    + change (Some (sha256d [6]) = Some a) in Ha. change (Some (sha256d [6]) = Some b) in Hb. apply (inj Some) in Ha as <-, Hb as <-. apply elem_of_cons. right. apply elem_of_cons. by left.
  - apply input_cases in Hi as (_ & [(i & Hlt & Ha & Hb)|Hi]).
    + destruct i as [|i]; [|cbn in Hlt; lia]. change (Some (parent (sha256d [1; 2; 3]) (sha256d [4; 5])) = Some a) in Ha. change (Some (parent (sha256d [6]) (sha256d [6])) = Some b) in Hb. apply (inj Some) in Ha as <-, Hb as <-.
      apply elem_of_cons. right. apply elem_of_cons. right. apply elem_of_cons. by left.
    + change (tree_input (pair_up block_level1) a b) in Hi. rewrite block_top in Hi. apply input_cases in Hi as [Hl _]. cbn in Hl. lia.
Qed.
Lemma btc_merkle_proof_sound_witness : [6] ∈ block_txs.
Proof.
  apply (btc_merkle_proof_sound block_txs block_root block_rooted ltac:(repeat constructor; discriminate) (concat block_path) 2 [6]); [discriminate| |vm_compute; reflexivity].
  assert (Forall (fun x => Forall (fun y => sha256d x = sha256d y -> x = y) (block_txs ++ block_inputs)) ([6] :: walk_inputs (length (concat block_path)) (concat block_path) 2 (sha256d [6]))) as Hd by decide_now.
  eapply Forall_impl; [exact Hd|]. intros x Hx y Hy%block_data_all. rewrite Forall_forall in Hx. by apply Hx.
Defined.
