(* ===== verification/BtcTx.v ===== *)
(** * verifier/btc: transactions in the format of the network

    The bytes of a transaction are described from its inputs, outputs, witnesses and lock time
    ([enc_tx]); the parser of Btc.v finds these parts again, and hashes those that make the id. *)
From S2P Require Import Prelude Utils Bytes Rlp Btc.
#[local] Open Scope Z_scope.
(** ** Numbers *)
Lemma le_bytes_rev n v : le_bytes n v = rev (be_bytes n v).
Proof.
  revert v. induction n as [|n IH]; intros v; [done|]. unfold le_bytes. rewrite <- cons_seq, <- fmap_S_seq. cbn [map]. rewrite map_map. cbn [be_bytes]. rewrite rev_app_distr. cbn [rev app]. rewrite <- IH, land_255, Z.shiftr_0_r. f_equal.
  unfold le_bytes. apply map_ext. intros i. rewrite !land_255, !Z.shiftr_div_pow2 by lia. change 256 with (2 ^ 8) at 2. rewrite Z.div_div, <- Z.pow_add_r by lia. do 2 f_equal. f_equal. lia.
Qed.
Lemma length_le_bytes n v : length (le_bytes n v) = n.
Proof. by rewrite le_bytes_rev, length_rev, length_be_bytes. Qed.
Lemma le_bytes_ok n v : bytes_ok (le_bytes n v).
Proof. rewrite le_bytes_rev. apply Forall_rev, be_bytes_ok. Qed.
Lemma le_to_int_val a b c d : bytes_ok [a; b; c; d] -> le_to_int [a; b; c; d] = be_val [d; c; b; a].
Proof.
  intros Hok. repeat match goal with H : Forall _ (_ :: _) |- _ => inversion_clear H end. unfold is_byte in *. unfold le_to_int. change (rd [a; b; c; d] 3) with d. change (rd [a; b; c; d] 2) with c. change (rd [a; b; c; d] 1) with b. change (rd [a; b; c; d] 0) with a. rewrite !Z.shiftl_mul_pow2 by lia. unfold be_val. cbn [fold_left].
  rewrite lor_mul_add by lia. replace (d * 2 ^ 24 + c * 2 ^ 16) with ((d * 256 + c) * 2 ^ 16) by lia. rewrite lor_mul_add by lia. replace ((d * 256 + c) * 2 ^ 16 + b * 2 ^ 8) with (((d * 256 + c) * 256 + b) * 2 ^ 8) by lia. rewrite lor_mul_add by lia. lia.
Qed.
Lemma le_to_int_le v : 0 <= v < 2 ^ 32 -> le_to_int (le_bytes 4 v) = v.
Proof.
  intros Hv. pose proof (le_bytes_ok 4 v) as Hok. pose proof (length_le_bytes 4 v) as Hl. destruct (le_bytes 4 v) as [|a [|b [|c [|d [|]]]]] eqn:E; try done. rewrite le_to_int_val by done.
  change [d; c; b; a] with (rev [a; b; c; d]). rewrite <- E, le_bytes_rev, rev_involutive, be_val_be_bytes. apply Z.mod_small. lia.
Qed.
(** Numbers as Bitcoin writes them. *)
Definition compact (n : Z) : list Z := if n <? 0xfd then [n] else if n <? 0x10000 then 0xfd :: le_bytes 2 n else if n <? 2 ^ 32 then 0xfe :: le_bytes 4 n else 0xff :: le_bytes 8 n.
Lemma compact_size n : 0 <= n -> zlen (compact n) = get_compact_uint_size n.
Proof.
  intros Hn. unfold compact, get_compact_uint_size. destruct (Z.ltb_spec n 0xfd), (Z.ltb_spec n 0x10000), (Z.ltb_spec n (2 ^ 32)), (Z.ltb_spec 0xffffffff n), (Z.ltb_spec 0xffff n), (Z.ltb_spec 0xfc n); cbn [length]; rewrite ?length_le_bytes; lia.
Qed.
Lemma read_z_app pre x post p n : p = zlen pre -> n = zlen x -> read_z (pre ++ x ++ post) p n = Some x.
Proof.
  intros -> ->. unfold read_z. rewrite !length_app, !(proj2 (Z.leb_le _ _)) by lia. cbn [andb]. rewrite !Nat2Z.id, drop_app_length, take_app_length. done.
Qed.
Lemma rd_single x : rd [x] 0 = x.
Proof. done. Qed.
Lemma decode_var_int_compact pre n post p : p = zlen pre -> 0 <= n < 2 ^ 32 -> decode_var_int (pre ++ compact n ++ post) p = Some (zlen (compact n), n).
Proof.
  intros -> Hn. unfold decode_var_int, compact. destruct (Z.ltb_spec n 0xfd); [|destruct (Z.ltb_spec n 0x10000); [|rewrite (proj2 (Z.ltb_lt n (2 ^ 32))) by lia]].
  - rewrite (read_z_app pre [n] post _ 1) by done. cbn [mbind option_bind]. rewrite rd_single, !(proj2 (Z.eqb_neq _ _)) by lia. done.
  - cbn [app]. change (pre ++ 0xfd :: le_bytes 2 n ++ post) with (pre ++ [0xfd] ++ (le_bytes 2 n ++ post)). rewrite (read_z_app pre [0xfd] _ _ 1) by done. cbn [mbind option_bind]. rewrite rd_single. cbn [Z.eqb Pos.eqb].
    rewrite app_assoc, read_z_app by (rewrite ?length_app, ?length_le_bytes; cbn; lia). cbn [mbind option_bind length]. rewrite length_le_bytes. f_equal. f_equal.
    pose proof (le_bytes_ok 2 n) as Hok. pose proof (length_le_bytes 2 n) as Hl. destruct (le_bytes 2 n) as [|a [|b [|]]] eqn:E; try done. change (Z.lor (Z.shiftl b 8) a = n).
    repeat match goal with H : Forall _ (_ :: _) |- _ => inversion_clear H end. unfold is_byte in *. rewrite Z.shiftl_mul_pow2, lor_mul_add by lia.
    transitivity (be_val (rev [a; b])); [unfold be_val; cbn; lia|]. rewrite <- E, le_bytes_rev, rev_involutive, be_val_be_bytes. apply Z.mod_small. lia.
  - cbn [app]. change (pre ++ 0xfe :: le_bytes 4 n ++ post) with (pre ++ [0xfe] ++ (le_bytes 4 n ++ post)). rewrite (read_z_app pre [0xfe] _ _ 1) by done. cbn [mbind option_bind]. rewrite rd_single. cbn [Z.eqb Pos.eqb].
    rewrite app_assoc, read_z_app by (rewrite ?length_app, ?length_le_bytes; cbn; lia). cbn [mbind option_bind length]. rewrite length_le_bytes, le_to_int_le by done. done.
Qed.
(** [decode_var_int] inverts the compact form of every number below 2^32, of 2^32 itself it
    reads 2^24, since bytes four to seven are shifted like byte three; [long_to_compact_uint]
    writes the compact form of the numbers up to 252, and of 253 two bytes without the marker. *)
Theorem compact_roundtrip pre n post : 0 <= n < 2 ^ 32 ->
  decode_var_int (pre ++ compact n ++ post) (zlen pre) = Some (zlen (compact n), n)
  /\ decode_var_int (compact (2 ^ 32)) 0 = Some (9, 2 ^ 24)
  /\ (n <= 0xfc -> long_to_compact_uint (pre ++ 0 :: post) (length pre) n = Some (pre ++ compact n ++ post))
  /\ (long_to_compact_uint [0; 0; 0] 0 253 = Some [253; 63; 0] /\ compact 253 = [0xfd; 253; 0]).
Proof.
  intros Hn. split_and!; [by apply decode_var_int_compact|done| |done|done].
  intros Hs. unfold long_to_compact_uint. assert (get_compact_uint_size n = 1) as E by (unfold get_compact_uint_size; repeat case_match; lia). rewrite E. cbn [Z.eqb Z.ltb Z.compare Pos.eqb Pos.compare Pos.compare_cont].
  unfold memcpy_at. rewrite length_app. cbn [length]. rewrite (proj2 (Nat.leb_le _ _)) by lia. cbn [mbind option_bind].
  unfold compact. rewrite (proj2 (Z.ltb_lt n 0xfd)) by lia. rewrite land_255, Z.mod_small, take_app_length by lia. f_equal. f_equal. cbn [app]. f_equal.
  replace (length pre + 1)%nat with (length (pre ++ [0])) by (rewrite length_app; done). change (pre ++ 0 :: post) with (pre ++ [0] ++ post). by rewrite app_assoc, drop_app_length.
Qed.
Lemma compact_roundtrip_witness : (0 <= 170 < 2 ^ 32) /\ decode_var_int ([3] ++ compact 170 ++ [9]) 1 = Some (1, 170).
Proof. split; [lia|]. apply (compact_roundtrip [3] 170 [9]). lia. Defined.
(** ** Transactions *)
Record tx_input := mk_input { i_prev : list Z; i_index : Z; i_script : list Z; i_sequence : Z }.
Record tx_output := mk_output { o_value : list Z; o_script : list Z }.
Record tx_data := mk_txdata { d_version : Z; d_inputs : list tx_input; d_outputs : list tx_output; d_witness : option (list Z); d_lock : Z }.
Definition enc_input (i : tx_input) : list Z := i_prev i ++ le_bytes 4 (i_index i) ++ compact (zlen (i_script i)) ++ i_script i ++ le_bytes 4 (i_sequence i).
Definition enc_output (o : tx_output) : list Z := o_value o ++ compact (zlen (o_script o)) ++ o_script o.
Definition enc_body (t : tx_data) : list Z := compact (zlen (d_inputs t)) ++ concat (map enc_input (d_inputs t)) ++ compact (zlen (d_outputs t)) ++ concat (map enc_output (d_outputs t)).
(** The transaction as it is sent, and as it is hashed. *)
Definition enc_tx (t : tx_data) : list Z := le_bytes 4 (d_version t) ++ (match d_witness t with Some _ => [0; 1] | None => [] end) ++ enc_body t ++ default [] (d_witness t) ++ le_bytes 4 (d_lock t).
Definition enc_id (t : tx_data) : list Z := le_bytes 4 (d_version t) ++ enc_body t ++ le_bytes 4 (d_lock t).
Definition input_ok (i : tx_input) : Prop := length (i_prev i) = 32%nat /\ 0 <= i_index i < 2 ^ 32 /\ 0 <= i_sequence i < 2 ^ 32.
Definition tx_ok (t : tx_data) : Prop :=
  0 <= d_version t < 2 ^ 32 /\ 0 <= d_lock t < 2 ^ 32 /\ d_inputs t <> [] /\ Forall input_ok (d_inputs t) /\ Forall (fun o => length (o_value o) = 8%nat) (d_outputs t) /\ zlen (enc_tx t) < 2 ^ 32.

Lemma compact_pos n : 1 <= zlen (compact n).
Proof. unfold compact. repeat case_match; cbn [length]; lia. Qed.
Lemma parse_in_enc pre i post limit p : p = zlen pre -> input_ok i -> zlen (i_script i) < 2 ^ 32 -> zlen pre + zlen (enc_input i) <= limit ->
  btc_parse_tx_in (pre ++ enc_input i ++ post) p limit = Some (Some (mk_tx_in p (i_index i) (mk_slice (p + 36 + zlen (compact (zlen (i_script i)))) (zlen (i_script i))) (i_sequence i), p + zlen (enc_input i))).
Proof.
  intros -> (Hp & Hi & Hs) Hsc Hl. unfold btc_parse_tx_in, enc_input in *. rewrite !length_app, !length_le_bytes in *.
  set (c := compact (zlen (i_script i))) in *. set (ix := le_bytes 4 (i_index i)). set (sq := le_bytes 4 (i_sequence i)).
  assert (read_z (pre ++ (i_prev i ++ ix ++ c ++ i_script i ++ sq) ++ post) (zlen pre + 32) 4 = Some ix) as ->.
  { rewrite <- !app_assoc, (app_assoc pre). apply read_z_app; [rewrite length_app; lia|]. by subst ix; rewrite length_le_bytes. }
  cbn [mbind option_bind]. assert (decode_var_int (pre ++ (i_prev i ++ ix ++ c ++ i_script i ++ sq) ++ post) (zlen pre + 36) = Some (zlen c, zlen (i_script i))) as ->.
  { rewrite <- !app_assoc, (app_assoc pre), (app_assoc (pre ++ _)). apply decode_var_int_compact; [|lia]. subst ix. rewrite !length_app, length_le_bytes. lia. }
  cbn [mbind option_bind fst snd s_data s_len]. rewrite u32_small by lia. destruct (Z.ltb_spec limit (zlen pre + 36 + zlen c + zlen (i_script i) + 4)); [lia|].
  assert (read_z (pre ++ (i_prev i ++ ix ++ c ++ i_script i ++ sq) ++ post) (zlen pre + 36 + zlen c + zlen (i_script i)) 4 = Some sq) as ->.
  { rewrite <- !app_assoc, (app_assoc pre), (app_assoc (pre ++ _)), (app_assoc ((pre ++ _) ++ _)), (app_assoc (((pre ++ _) ++ _) ++ _)). apply read_z_app; [|by subst sq; rewrite length_le_bytes]. subst ix. rewrite !length_app, length_le_bytes. lia. }
  cbn [mbind option_bind]. subst ix sq. rewrite !le_to_int_le by done. do 3 f_equal. lia.
Qed.
Lemma parse_out_enc pre o post p : p = zlen pre -> length (o_value o) = 8%nat -> zlen (o_script o) < 2 ^ 32 ->
  exists x, btc_parse_tx_out (pre ++ enc_output o ++ post) p = Some (x, p + zlen (enc_output o)).
Proof.
  intros -> Hv Hsc. unfold btc_parse_tx_out, enc_output in *. rewrite !length_app. eexists. set (c := compact (zlen (o_script o))) in *.
  assert (read_z (pre ++ (o_value o ++ c ++ o_script o) ++ post) (zlen pre) 8 = Some (o_value o)) as ->. { rewrite <- !app_assoc. apply read_z_app; lia. }
  cbn [mbind option_bind]. assert (decode_var_int (pre ++ (o_value o ++ c ++ o_script o) ++ post) (zlen pre + 8) = Some (zlen c, zlen (o_script o))) as ->.
  { rewrite <- !app_assoc, (app_assoc pre). apply decode_var_int_compact; [rewrite length_app; lia|lia]. }
  cbn [mbind option_bind fst snd s_data s_len]. rewrite u32_small by lia. do 2 f_equal. lia.
Qed.
Lemma enc_input_script i : zlen (i_script i) <= zlen (enc_input i).
Proof. unfold enc_input. rewrite !length_app. lia. Qed.
Lemma enc_output_script o : zlen (o_script o) <= zlen (enc_output o).
Proof. unfold enc_output. rewrite !length_app. lia. Qed.
Lemma enc_input_pos i : 1 <= zlen (enc_input i).
Proof. unfold enc_input. rewrite !length_app, length_le_bytes. lia. Qed.
Lemma enc_output_pos o : 1 <= zlen (enc_output o).
Proof. unfold enc_output. rewrite !length_app. pose proof (compact_pos (zlen (o_script o))). lia. Qed.
Lemma parse_ins_enc post limit : forall ins fuel pre p, p = zlen pre -> (length ins <= fuel)%nat -> Forall input_ok ins -> limit < 2 ^ 32 -> zlen pre + zlen (concat (map enc_input ins)) < limit ->
  parse_ins fuel (zlen ins) (pre ++ concat (map enc_input ins) ++ post) p limit tt = Ok (p + zlen (concat (map enc_input ins))) tt.
Proof.
  induction ins as [|i ins IH]; intros fuel pre p -> Hf Hok Hlim Hl; [destruct fuel; cbn; rewrite Z.add_0_r; done|]. inversion_clear Hok as [|? ? Hi Hok']. cbn [map concat length] in *. rewrite length_app in Hl. destruct fuel as [|f]; [lia|].
  cbn [parse_ins]. rewrite (proj2 (Z.eqb_neq _ _)) by lia. rewrite <- app_assoc. pose proof (enc_input_script i). rewrite (bind_defined _ _ _ _ (parse_in_enc pre i (concat (map enc_input ins) ++ post) limit _ eq_refl Hi ltac:(lia) ltac:(lia))). cbn beta iota. rewrite (proj2 (Z.leb_gt _ _)) by lia. replace (Z.of_nat (S (length ins)) - 1) with (zlen ins) by lia.
  rewrite (app_assoc pre), IH; [rewrite length_app; f_equal; lia|rewrite length_app; lia|lia|done|done|rewrite length_app; lia].
Qed.
Lemma parse_outs_enc post limit : forall outs fuel pre p, p = zlen pre -> (length outs <= fuel)%nat -> Forall (fun o => length (o_value o) = 8%nat) outs -> limit < 2 ^ 32 -> zlen pre + zlen (concat (map enc_output outs)) <= limit ->
  parse_outs fuel (zlen outs) (pre ++ concat (map enc_output outs) ++ post) p limit tt = Ok (p + zlen (concat (map enc_output outs))) tt.
Proof.
  induction outs as [|o outs IH]; intros fuel pre p -> Hf Hok Hlim Hl; [destruct fuel; cbn; rewrite Z.add_0_r; done|]. inversion_clear Hok as [|? ? Hi Hok']. cbn [map concat length] in *. rewrite length_app in Hl. destruct fuel as [|f]; [lia|].
  cbn [parse_outs]. rewrite (proj2 (Z.eqb_neq _ _)) by lia. rewrite <- app_assoc. pose proof (enc_output_script o). destruct (parse_out_enc pre o (concat (map enc_output outs) ++ post) _ eq_refl Hi) as [x Ex]; [lia|].
  rewrite (bind_defined _ _ _ _ Ex). cbn beta iota. cbn [snd]. rewrite (proj2 (Z.ltb_ge _ _)) by lia. replace (Z.of_nat (S (length outs)) - 1) with (zlen outs) by lia.
  rewrite (app_assoc pre), IH; [rewrite length_app; f_equal; lia|rewrite length_app; lia|lia|done|done|rewrite length_app; lia].
Qed.
Lemma concat_length_ge {A} (f : A -> list Z) (l : list A) : (forall x, 1 <= zlen (f x)) -> (length l <= length (concat (map f l)))%nat.
Proof. intros Hf. induction l as [|x l IH]; [done|]. cbn [map concat length]. rewrite length_app. specialize (Hf x). lia. Qed.
Lemma witness_flag t : tx_ok t -> btc_is_witness (enc_tx t) = Some (match d_witness t with Some _ => true | None => false end).
Proof.
  intros (Hv & _ & Hne & _). unfold btc_is_witness, enc_tx. pose proof (length_le_bytes 4 (d_version t)) as H4. destruct (d_witness t) as [w|].
  - change ([0; 1] ++ enc_body t ++ default [] (Some w) ++ le_bytes 4 (d_lock t)) with ([0] ++ [1] ++ enc_body t ++ w ++ le_bytes 4 (d_lock t)).
    rewrite (read_z_app (le_bytes 4 (d_version t)) [0] _ 4 1) by (done || lia). cbn [mbind option_bind]. rewrite rd_single. cbn [Z.eqb].
    rewrite app_assoc, (read_z_app _ [1] _ 5 1) by (rewrite ?length_app; cbn; lia). done.
  - cbn [app default]. unfold enc_body. assert (exists b r, compact (zlen (d_inputs t)) = b :: r /\ b <> 0) as (b & r & -> & Hb).
    { destruct (d_inputs t) as [|i l]; [done|]. unfold compact. cbn [length]. repeat case_match; eexists _, _; (split; [done|]); lia. }
    rewrite <- !app_assoc. change ((b :: r) ++ ?x) with ([b] ++ r ++ x). rewrite (read_z_app (le_bytes 4 (d_version t)) [b] _ 4 1) by (done || lia). cbn [mbind option_bind]. rewrite rd_single, (proj2 (Z.eqb_neq _ _)) by done. done.
Qed.
Definition slice_of (data : list Z) (s : slice) : option (list Z) := read_z data (s_data s) (s_len s).
(** The parts of the bytes of a transaction, in their order, and the place of each list. *)
Definition flag_of (t : tx_data) : bool := match d_witness t with Some _ => true | None => false end.
Definition flag_bytes (t : tx_data) : list Z := match d_witness t with Some _ => [0; 1] | None => [] end.
Definition ins_count (t : tx_data) : list Z := compact (zlen (d_inputs t)).
Definition outs_count (t : tx_data) : list Z := compact (zlen (d_outputs t)).
Definition ins_of (t : tx_data) : list Z := concat (map enc_input (d_inputs t)).
Definition outs_of (t : tx_data) : list Z := concat (map enc_output (d_outputs t)).
Definition wit_of (t : tx_data) : list Z := default [] (d_witness t).
Definition ins_at (t : tx_data) : Z := 4 + zlen (flag_bytes t) + zlen (ins_count t).
Definition outs_at (t : tx_data) : Z := ins_at t + zlen (ins_of t) + zlen (outs_count t).
Definition wit_at (t : tx_data) : Z := outs_at t + zlen (outs_of t).
Definition tx_of (t : tx_data) : btc_tx_t :=
  mk_btc_tx (enc_tx t) (d_version t) (flag_of t) (zlen (d_inputs t)) (mk_slice (ins_at t) (zlen (ins_of t))) (zlen (d_outputs t)) (mk_slice (outs_at t) (zlen (outs_of t))) (mk_slice (wit_at t) (zlen (wit_of t))) (d_lock t).
Lemma enc_tx_parts t : enc_tx t = le_bytes 4 (d_version t) ++ flag_bytes t ++ ins_count t ++ ins_of t ++ outs_count t ++ outs_of t ++ wit_of t ++ le_bytes 4 (d_lock t).
Proof. unfold enc_tx, enc_body. by rewrite <- !app_assoc. Qed.
Lemma enc_tx_length t : zlen (enc_tx t) = wit_at t + zlen (wit_of t) + 4.
Proof. rewrite enc_tx_parts, !length_app, !length_le_bytes. unfold wit_at, outs_at, ins_at. lia. Qed.
Lemma flag_start t : (if flag_of t then 6 else 4) = 4 + zlen (flag_bytes t).
Proof. unfold flag_of, flag_bytes. by destruct (d_witness t). Qed.
(** A part of the bytes is read at its place. *)
Ltac at_part := unfold wit_at, outs_at, ins_at in *; rewrite ?length_app, ?length_le_bytes; lia.
Section Parts.
Variable t : tx_data.
Hypothesis Hok : tx_ok t.
Lemma parts_bounds : (length (d_inputs t) <= length (ins_of t))%nat /\ (length (d_outputs t) <= length (outs_of t))%nat /\ 1 <= zlen (ins_count t) /\ 1 <= zlen (outs_count t).
Proof. split_and!; [apply concat_length_ge, enc_input_pos|apply concat_length_ge, enc_output_pos|apply compact_pos..]. Qed.
Lemma version_read : read_z (enc_tx t) 0 4 = Some (le_bytes 4 (d_version t)).
Proof. rewrite enc_tx_parts. by apply (read_z_app []); [|rewrite length_le_bytes]. Qed.
Lemma lock_read : read_z (enc_tx t) (zlen (enc_tx t) - 4) 4 = Some (le_bytes 4 (d_lock t)).
Proof.
  rewrite enc_tx_length, enc_tx_parts, !app_assoc, <- (app_nil_r (_ ++ le_bytes 4 (d_lock t))), <- app_assoc. apply read_z_app; at_part.
Qed.
Lemma ins_read : read_z (enc_tx t) (ins_at t) (zlen (ins_of t)) = Some (ins_of t).
Proof. rewrite enc_tx_parts, (app_assoc (le_bytes _ _)), (app_assoc (_ ++ _)). apply read_z_app; at_part. Qed.
Lemma outs_read : read_z (enc_tx t) (outs_at t) (zlen (outs_of t)) = Some (outs_of t).
Proof. rewrite enc_tx_parts. do 4 rewrite (app_assoc (_ ++ _)) || rewrite app_assoc. apply read_z_app; at_part. Qed.
Lemma wit_read : read_z (enc_tx t) (wit_at t) (zlen (wit_of t)) = Some (wit_of t).
Proof. rewrite enc_tx_parts. do 5 rewrite (app_assoc (_ ++ _)) || rewrite app_assoc. apply read_z_app; at_part. Qed.
Lemma parts_u32 : zlen (d_inputs t) < 2 ^ 32 /\ zlen (d_outputs t) < 2 ^ 32 /\ wit_at t + zlen (wit_of t) + 4 < 2 ^ 32.
Proof. destruct Hok as (_ & _ & _ & _ & _ & Hl). rewrite enc_tx_length in Hl. pose proof parts_bounds. at_part. Qed.
Lemma ins_count_read : decode_var_int (enc_tx t) (4 + zlen (flag_bytes t)) = Some (zlen (ins_count t), zlen (d_inputs t)).
Proof. pose proof parts_u32. rewrite enc_tx_parts, app_assoc. apply decode_var_int_compact; at_part. Qed.
Lemma outs_count_read : decode_var_int (enc_tx t) (ins_at t + zlen (ins_of t)) = Some (zlen (outs_count t), zlen (d_outputs t)).
Proof. pose proof parts_u32. rewrite enc_tx_parts. do 3 rewrite (app_assoc (_ ++ _)) || rewrite app_assoc. apply decode_var_int_compact; at_part. Qed.
Lemma ins_parse : parse_ins (length (enc_tx t)) (zlen (d_inputs t)) (enc_tx t) (ins_at t) (zlen (enc_tx t)) tt = Ok (ins_at t + zlen (ins_of t)) tt.
Proof.
  pose proof parts_bounds. pose proof parts_u32. pose proof (enc_tx_length t). rewrite enc_tx_parts at 2. rewrite (app_assoc (le_bytes _ _)), (app_assoc (_ ++ _)).
  apply parse_ins_enc; [at_part|at_part|apply Hok|at_part|fold (ins_of t); at_part].
Qed.
Lemma outs_parse : parse_outs (length (enc_tx t)) (zlen (d_outputs t)) (enc_tx t) (outs_at t) (zlen (enc_tx t)) tt = Ok (wit_at t) tt.
Proof.
  pose proof parts_bounds. pose proof parts_u32. pose proof (enc_tx_length t). rewrite enc_tx_parts at 2. do 4 rewrite (app_assoc (_ ++ _)) || rewrite app_assoc.
  apply parse_outs_enc; [at_part|at_part|apply Hok|at_part|fold (outs_of t); at_part].
Qed.
Lemma btc_parse_tx_enc : btc_parse_tx (enc_tx t) tt = Ok (tx_of t) tt.
Proof.
  pose proof parts_bounds. pose proof parts_u32. pose proof (enc_tx_length t). pose proof Hok as (Hv & Hlock & _). unfold btc_parse_tx.
  rewrite (bind_defined _ _ _ _ version_read), (bind_defined _ _ _ _ (witness_flag t Hok)). cbv zeta. fold (flag_of t). rewrite flag_start, (bind_defined _ _ _ _ ins_count_read). cbn [fst snd]. fold (ins_at t).
  rewrite (proj2 (Z.leb_gt _ _)) by at_part. rewrite (u32_small (zlen (d_inputs t))) by lia. rewrite (bind_ok _ _ _ _ _ ins_parse), (bind_defined _ _ _ _ outs_count_read). cbn [fst snd]. fold (outs_at t).
  rewrite (u32_small (zlen (d_outputs t))) by lia. rewrite (bind_ok _ _ _ _ _ outs_parse), (bind_defined _ _ _ _ lock_read). rewrite !le_to_int_le by done. unfold tx_of.
  rewrite !u32_small by at_part. unfold mret, M_ret. do 2 f_equal; f_equal; at_part.
Qed.
Lemma btc_tx_id_enc `{Sha256} : btc_tx_id (tx_of t) = Some (btc_hash (enc_id t)).
Proof.
  pose proof parts_u32. unfold btc_tx_id, tx_of. cbn [bt_flag bt_output bt_all s_len s_data]. rewrite flag_start, version_read. cbn [mbind option_bind].
  assert (read_z (enc_tx t) (4 + zlen (flag_bytes t)) (zlen (enc_body t)) = Some (enc_body t)) as R.
  { unfold enc_tx. fold (flag_bytes t). rewrite app_assoc. apply read_z_app; at_part. }
  assert (zlen (enc_body t) = wit_at t - 4 - zlen (flag_bytes t)) as El by (unfold enc_body; fold (ins_count t) (ins_of t) (outs_count t) (outs_of t); at_part).
  rewrite u32_small by at_part. replace (zlen (outs_of t) + outs_at t - (4 + zlen (flag_bytes t)) + 8 - 8) with (zlen (enc_body t)) by at_part. rewrite R. cbn [mbind option_bind]. by rewrite lock_read.
Qed.
End Parts.

(** C29. A transaction of Bitcoin, written in the format of the network (version, the marker of
    witnesses, the inputs, the outputs, the witnesses and the lock time, counts and scripts with
    their length in compact form) and less than 2^32 bytes long, is accepted by [btc_parse_tx],
    which finds version, counts and lock time and the places of inputs, outputs and witnesses;
    [btc_tx_id] of the result is the hash of the transaction without marker and witnesses. *)
Theorem btc_tx_roundtrip `{Sha256} t : tx_ok t -> exists tx, btc_parse_tx (enc_tx t) tt = Ok tx tt /\
  bt_version tx = d_version t /\ bt_flag tx = flag_of t /\ bt_input_count tx = zlen (d_inputs t) /\ bt_output_count tx = zlen (d_outputs t) /\ bt_lock_time tx = d_lock t /\
  slice_of (enc_tx t) (bt_input tx) = Some (concat (map enc_input (d_inputs t))) /\ slice_of (enc_tx t) (bt_output tx) = Some (concat (map enc_output (d_outputs t))) /\
  slice_of (enc_tx t) (bt_witnesses tx) = Some (default [] (d_witness t)) /\ btc_tx_id tx = Some (btc_hash (enc_id t)).
Proof.
  intros Hok. exists (tx_of t). split_and!; try done.
  - by apply btc_parse_tx_enc.
  - apply ins_read.
  - apply outs_read.
  - apply wit_read.
  - by apply btc_tx_id_enc.
Qed.
#[local] Instance zero_hash : Sha256 := {| sha256d := fun _ => replicate 32 0; sha256d_length _ := eq_refl; sha256d_ok _ := ltac:(cbn; repeat constructor; lia) |}.
Definition demo_tx : tx_data := mk_txdata 2 [mk_input (replicate 32 7) 1 (replicate 253 9) 0xffffffff] [mk_output (le_bytes 8 5000) [0x76; 0xa9]] (Some [1; 2; 3]) 170.
Lemma btc_tx_roundtrip_witness : tx_ok demo_tx /\ exists tx, btc_parse_tx (enc_tx demo_tx) tt = Ok tx tt /\ bt_lock_time tx = 170 /\ slice_of (enc_tx demo_tx) (bt_witnesses tx) = Some [1; 2; 3].
Proof.
  assert (tx_ok demo_tx) as Hok.
  { unfold tx_ok. split_and!; [vm_compute; congruence..|done| | |vm_compute; congruence]; (apply Forall_cons; split; [|apply Forall_nil; done]); [|done].
    unfold input_ok. split_and!; vm_compute; congruence. }
  split; [done|]. destruct (btc_tx_roundtrip demo_tx Hok) as (tx & E & _ & _ & _ & _ & El & _ & _ & Ew & _). exists tx. split_and!; [exact E|exact El|exact Ew].
Defined.
