(* ===== verification/BtcPreBip34.v ===== *)
(** * verifier/btc: the hashes of blocks before BIP 34 (pre_bip34.h)

    Every row of the table is 12 bytes of the hash of a block, as one number; the blocks are 200 apart. *)
From S2P Require Import Prelude Utils.
#[local] Open Scope Z_scope.

Definition checkpoints : list Z := [
  0x8f1a7008320c16b8402b7f11; 0x2dd9919f0a67590bb7c945cb; 0xc7f956a913bbef9c94f517c3; 0xdef8545899ea7274e5c59bda; 0xc937983704a73af28acdec37;
  0xf0b6da96d1e3272e87e181a7; 0xc9c28d2bb760225beaddbc21; 0xf6b38fee667afb9cb2eedc5a; 0x046d4e2de13c9a31dec05faf; 0xdfd5d65c9d8561b4b8f60a63;
  0x70118b55e0436a721d4533fc; 0x081038eb250216ebb27f94d8; 0x91a7488531bb1050f24c0f8f; 0xd10250150162aefbf7d64ab1; 0x4a81b9aa469b11649996ecb0;
  0xbccaab487030fe7c0d8d66a8; 0xb6641cc18693437c5208bf36; 0xbfa35a68d94bf878a712c538; 0xb590a5ff44afeb50e51444d8; 0x922e2aa9e84a474350a3555f;
  0x456431810949b7e73d40120a; 0x400a81e69af7a8431f7e42ff; 0x013f500570b064a9bcb07667; 0x97ff6abc82bca6f90e04c2f8; 0x4d78d2a8a93a1d20a24d7212;
  0x5139fca0ddd3f3ab9372b45b; 0x3819e45f96d069bb41dfa72e; 0x89c7926f6bbbcff90daac70c; 0xc93c9874db8d899f8409a989; 0xdbbb79792303bdd1c6c4d7ab;
  0x670dfcebdfff4c8c0ef72664; 0x584420c089821bdea32f64a7; 0xed467a2513dd15679b22b201; 0x9dbf018a558bb165176597ef; 0xfebe750c27cd55f8bead2b0d;
  0x4418cd7e82b76420e68870d9; 0x7f2bdcc71d60336ec1636e0d; 0x976df3c85530c4a7e7545405; 0x380462e5918211a1534e199b; 0x94fbacdffec05aea98470005;
  0x1345c8c75cb9b340e9e3aed7; 0x297c8bfa5d4cf7826f31f39d; 0x312efa075ffb31b57ab2f123; 0xa6b938f2407fa173d034c9da; 0x415c7a0f3e54ed29a3165414;
  0x821bc8b810300b56540b47d1; 0x7499730f719cfc25ef66f08b; 0xca2be0b2535ca0dc5b74a3d5; 0x1eb7936cd07a1a9d2454468f; 0x99c744455f58e6c6e98b671e;
  0xd3d29e4d734dbb7ab2a2d0e4; 0x754ffbb3b325c4c9b3d2e42a; 0x7c5e161f7c54a61eef5cd172; 0x707e3f89e9626b9379aa1a11; 0xea47d068e0ba9b4d902ae291;
  0x15ba8c6c93bd35fb39eb7441; 0x24c46e44075550da5ddb5964; 0x0ecd3faa889f77bfd9a25d82; 0x129b70ce4513913ed3233d04; 0x11d1d9f1af3e1d038cebba25;
  0xb9601188fd6a59bafda3a2fe; 0xc565a0514ed49006b5bbb429; 0xad6ee886602ed02e8b95cf1f; 0x19bc5480b84950863db6812b; 0xd85a4cf33f325d339b43559d;
  0x4426b8f8aecb1cac441ad7bd; 0x49a03def008c43a709d320a7; 0x06ea563a08f0d7dcf808ca93; 0x77ae1203bf2923b06f235335; 0x2d9050318ec8112057423e30;
  0x59bc248e02560ab9d2a7cdef; 0x0595a55c095ac3b4558a03a1; 0x056e118d4e662ac66a37687b; 0x01d994858ca98829022fcab8; 0x5c3548bda7c3d3e2fb2db21f;
  0x7655941ae9b51587e3ec3b1a; 0xcea8f9819b976381299be1ed; 0x2f531045360bb2f0ddd20e04; 0x657edf33b3c852d1b1f4f7e8; 0x679a1ab3af6da03f13a0bc96;
  0x8a27b1e1dc69baae5c20aa1c; 0x867ba0417f786542c9c07f2f; 0x1f61302529a5be46e3591abe; 0xc24e37ac749c11d602b83c6b; 0x7778515cfe0665840b3697d5;
  0x0749d53cff439851c7713b3f; 0x08bc4027d2e156939aca5d09; 0xe7f78d6ad948e18c6df1e767; 0xcf06ffbf5969fefa61ccc1bf; 0xf914f0d0692e56bd06565ac4;
  0xdf25e07f54801c07669a5a76; 0x3eb2ff6ddd60ac6d2df97c40; 0xc47937e237acb459ec5c2b33; 0x1e80782f725bd0932dbe0fe8; 0x794894208a98d6a323f37e23;
  0xd7df5f0be432e393da8e2ad6; 0xe2977e6e496b1b15cbbb2665; 0x74279b4ef09e7ac31c423782; 0x5addbe224c48f2dfdcbb080c; 0x770ebe897270ca5f6d539d8a;
  0x7353f9a66d572101425c512e; 0x81189ece565b3837c465a44e; 0x749eeb5762c9e9e03f3c7eec; 0x1e968c39cd30afad9153f354; 0xe435f35c8305e92dd2d4a9b9;
  0x66b7fed2549e58f13b689540; 0x49ad37de5181aa80075d5df8; 0x6fb63be9ebe54f554cdb168e; 0xd4fe2d10393178fc184b1fa2; 0x4625a14242beccb38c63a1f7;
  0xc8dd4b74f50f5aa7b081b195; 0x0bbf0a8d99b8662a822a683d; 0xcc55ca0fbca908fe8dba8c6b; 0xc57e7a0789ab7dfe15d6c9b7; 0x034516e6053bcec513c978f3;
  0x46df105656e8c5f0a47fa425; 0xbd5d84af567f2981c84a2f90; 0x800a83c7a66e584959b61ee4; 0x7a9ea937de2bcea319f1476e; 0xf04fccc81f37002707e9501a;
  0x8ceada6c82ff9fec90201e18; 0x6ce5f5d5d5346accf93e41ea; 0x3bc743b6fe89f66993cec154; 0xd3bf13168c0f1938f68e97a5; 0xae4b125eb183e689b7231eaf;
  0xe1e453f0fd9fb2af8d3a9113; 0x2f219f104ea3f9e407c28016; 0x55dfc40e058768372ecb6d41; 0x9c47c22b9eef0eabc380f7b0; 0x6d6c151db6d4d67356d590a8;
  0xd119757a02dfbb1a09857d4d; 0xe3c222b69ed13ab063fea70a; 0xccaf846a8e8f0dc1ab38bbfe; 0x6c7709d67f4d632a1a5220d9; 0x2cc4a38b7e2e9d45b0fe6778;
  0x6d78ac41bb13613233b2912b; 0x2aa75846897fbd33a13fefe7; 0xfa903a39973a966ed582c4ee; 0xb32bd9af87dba2d0354213d6; 0x172c5ed49d7dfc29bf9a18a5;
  0xb96255125ade0737a08eaa0c; 0xb78a30fe1e70d8704debcae6; 0x02eea5ae5c4296b5ed985d54; 0x3b5bd4ba182e000f0c750e9e; 0xb8b9f3b66b43b045aedc3380;
  0x1f4181bb58fd5eab03e6def3; 0xd0c0573887502a1521453c7f; 0xb9a9683e05983e62c996aadf; 0x977dac45efb3b6af20fac4f3; 0xde1250dc2df5cf4d877e055f;
  0x48f54ab0b907fca296b9220a; 0x21e0095a989551cf05edecd4; 0x33efc0c9cfd3c958e07b5c6c; 0x2d03de4eb6393604b51678fd; 0xa6a6be6014fb079b06ee52c2;
  0x81b30eb94106a6a86f688af6; 0x0c88f8939a1b281fc8c049d9; 0xeb336d427cc7864d2fc8e8a6; 0xc08401ea469bc40b839c2d51; 0x049172ba3ec1b673cf13e3d0;
  0xf8d145bb69e3f55289662eb8; 0x62a945617a27b81bf17aa4a3; 0x0186f1b78f0280376baecc7a; 0x83c73afa07a582549441fcb8; 0x942725dd706c453fd044c554;
  0x752382a9aa355fb2a663613c; 0x5dac67ecccc6134c3218302a; 0x922811d417808514e99a4ae7; 0x0d30a3dab7c120ca79ce0325; 0x495968d19210d3be15bd24fd;
  0x6535763e5959196f59194fa1; 0x2931e91b9fcea63ee137c8a8; 0x39d9333ed254d909bf87a2d3; 0x5641889ee6efd520e97476af; 0x8f0cdb273d95e830c726b253;
  0x579d908b5d44c3a795614385; 0x4d321d4f633aa46f1ee1a426; 0xa8e6406194847e3a5dbdc2aa; 0x493746ce4e99f3d4288fb8f8; 0x80c3deea35dc3df90a5fbe5f;
  0x3d62954ab422bc6ff4cb0701; 0x479cfcd33b8508841190662c; 0x40036771eb1a8738f2fe8ff2; 0x2a939c2e0894ecc1b460b8d6; 0xba03c2f33d1fbdbf2a03d2bb;
  0x0719eca768dec6d6d57b7953; 0x99fcee3035ee58a65e261efd; 0x47ae527afea9696590a385d8; 0xaab0f89c1670d363d3f03892; 0x2dfebce284d1e08b6cf04452;
  0xa1d77d8dd98f2c416a414bc0; 0x445f46146285e79c040dc556; 0x235d708630407b70ec9470eb; 0x0b602bd7d66344a22bdab5d6; 0x81b8c41f27bf3955713105c9;
  0x7e5d61ce470e69b6be0bd242; 0x5393646a9207b3a2f1e61cdf; 0x512eb6202e6354d8ee0c06a8; 0x722c58b4a1950d2949be63da; 0x504d5fa0ad2cb90af16052a4;
  0x24a30573708b35a5b37ee9fe; 0x08c8288d3355f1f3b11b7b3b; 0x0da0642d9adc15cc4805ef98; 0x10f16d1f25d6999534a83b47; 0x1b8e5f1e2c451b0af5703e71;
  0x303056c2934e91f6cb6a0833; 0x145f99de0af55c9fe81556f6; 0x4a995c476f065cfb1be77b8f; 0x5940413d1babfd2ff0aa32f8; 0x0f80c09687893406279f62da;
  0x427a3121a94413562ce665e8; 0x319681bca8c1a580e06dab33; 0x1f4b9e962992c36c6305abe2; 0x23aa4cf8b9c500365947dc18; 0x212265ec8de3a24751d35572;
  0x10e5815c05e49d199cbbc964; 0x39478d91f89571693ba7d018; 0x2b1d4b84dc06b0a4423d210b; 0x3090a72829ef159f8a84016e; 0x0122898b31073a770a97cf59;
  0x22e1cfdd86e4fe72f7e29ea9; 0x24c6fea5d5152b55b790afb1; 0x218e53e9600a7fe16294c4a4; 0x2c59046dc05c3028f451a7d6; 0x07758365e4eef39e396f257a;
  0x27f421e4a286d0503bb01190; 0x25033d0805935a3944515d3a; 0x18dc932ab8734a951c2eccc6; 0x1821e7070ae548f7943c1889; 0x1dd39771dbe4f9fc6da07327;
  0x0219cfce557178da9b54cc35; 0x195344efeb1a89d2e5a27d3f; 0x2b47a4b5157366091f81ad75; 0x28223dd60a2c4de2443de674; 0x00e7189f8a21e7202826283c;
  0x1b6b6f58e0471f4abb74bd3b; 0x1737baeafd3746a28e698fcd; 0x327b7a58a129882990cf008f; 0x31859a5d95f3a06c7254d4e9; 0x0f3d40ea2bfa8d779010e52c;
  0x33726db5ac513a968afc064d; 0x0b7c5c4bfd4faf02d647b537; 0x28404f70d2535ff1eb17a9af; 0x00292c6f0966e92c4e9d3567; 0x289418da0e84f10d9563c4f0;
  0x2937c086a343b7c1fc1f0fdb; 0x118e5d92a12a9d781ce610b2; 0x1c6896e7f45857f25c1ab2d7; 0x1ec1b4bd7a592298545ce359; 0x1aeae195809d120b5d66a39c;
  0x27fe8dce3f77317181ce3dcb; 0x1af6e66db5628c7ba9850162; 0x18f546e92141f996976ad528; 0x1fe0678cc4488039854ab0b2; 0x16aa231b566ce2d1e9540596;
  0x201fae857af713e52fa719e0; 0x01da24c61937addfb3ce5c3b; 0x1d4c8aae777f820e4260b61a; 0x0a5488f0e96ccef8ec7debf4; 0x082bc4398c4aa5bd8d9fc452;
  0x109ad460c12247592d168dea; 0x17013299f5b9c9aaea62bf52; 0x10bcaf30353e193b01a6a628; 0x03e5b9f423b612b022e49176; 0x0bc96af7886cb12075ab1c79;
  0x0bf154261376e1b7ae975307; 0x075d37d793981da7717e3317; 0x14ace502ca0525c27439a3bb; 0x154f1fab600fc92f5ffbcd13; 0x144197f54afa21ae7db2bc93;
  0x141c918700bbb4f185cadafb; 0x153b400f2d4fb6a3b4d1d122; 0x08b14cac6ff49bfe3a231f8c; 0x00bec6db13cd682f4c4a92da; 0x0a629716ce673212ea154bab;
  0x0aa89e8e3e08a71f72b2263c; 0x03f41b5aa020ce24da77d41f; 0x0c9963ab5431ad9f8cea6e6a; 0x02e69b57d750388b369c43e7; 0x0dfa452ea45e0426dd8914c3;
  0x10c5a13e8b62ca0f8b7600b0; 0x015ed45ebcef699d0f4708fd; 0x0332d5a378be227b18521d8a; 0x0f1facac04f40235188b6ed0; 0x08ee3753c6dd237a3a3b4f6d;
  0x0953b1ec746bc5af71406aca; 0x05801c1894aa2662d04a45ad; 0x0eb6448e10b40fc59ad0b733; 0x0f8a488b3fcaf88a29c8cc10; 0x13e3791d288d9db814c52fbd;
  0x0dc42a8642d3694e7b040b4e; 0x0b49042a958655403395d2a3; 0x0ae6fa1c3d462d196c3e3bc9; 0x07de4da6feab9b03352eb378; 0x06ddc481d2874ca7ca98ffaa;
  0x0a469aaa47e576a8834d2fa2; 0x0733a05fc5cb1d3f9b3371ba; 0x0277b486ccb1a98cda87a656; 0x036264ba3ee70da01c97f718; 0x0b554c46f8eb7264d7d5e334;
  0x057e2e535bd8394638d2c08b; 0x036101c35d5c48f5c124d0ed; 0x037acbc20fd790ceb76f1edb; 0x05ded69557de7dd14b6800e7; 0x0045edc734e45c83cad9424f;
  0x04ea522b5c7f294cab1a44e8; 0x071748d956bc9768da7ca507; 0x0031065b177c698ac59d483e; 0x06a6427e644f74f57dd1a309; 0x06dd4bc72daabef992f860e7;
  0x092e39678c44974fbddbf585; 0x0d51384d5c7573ebb8ac95d8; 0x01943d1f4441cba8a77b9aad; 0x0a9b8faae20927453c6dd13e; 0x0abcf1c5c959bfbbdf5ad130;
  0x08a16350d67c4357222933fb; 0x045451515841f4008e4ca6e6; 0x05b762c7e37aff0807a14d9f; 0x056f77b69482303b59c91fd4; 0x03d7055b51d7b9ab693de84c;
  0x092ce81342f7b8a5a15ca889; 0x0510d2e9e31a7d5d2ba768f3; 0x05f080c3d4d373b373f38be6; 0x0322fc0c08c85ae62ea54184; 0x06502bbeba998efd13a8dfa7;
  0x02e09647ab8aa727368bb41e; 0x02c1747abcd12293082c6043; 0x09b563b10ecd9c902990dd22; 0x081bbc7c7c5426bcec0b586c; 0x071d7e8a0f4895e60c1073df;
  0x01b6e5f6d221e979dbc4858b; 0x02438e2200bf993e46de0b86; 0x041febfbebb611cd8f587c69; 0x0443620dd9d869917af548bf; 0x052c31495cf4c2afcea5ad57;
  0x0489739b8d2455711b9c8db6; 0x0450da6a6eec6509f0d2bc5d; 0x054d1119a41c68fc3d527efe; 0x0218f501d29c3adf29fd7eea; 0x00d991791fdfdbccbbc2a73d;
  0x021f4884837d585bd84efe98; 0x056572357c74173748176732; 0x00b474fad43c7ff8a2f77f69; 0x003515086581c50fd2611642; 0x000672cb3e0f7c83c90b505e;
  0x00521b396f7aae11917de742; 0x0076cc49e8b89eb10fb51219; 0x006b5840ad7c63ba7436fc47; 0x010f585d02ea680bd891f3a6; 0x002b8cd0faa58444df3ba2a2;
  0x014ea4c652c06feb6666bf1d; 0x00ea646aff57bb947eeb4cc1; 0x006ea57975835e859eef2050; 0x00ce83e4026a35200c2508c8; 0x003eea76022498376477294a;
  0x00bdb51fbb9f9156e0c67b5b; 0x008071d8c627946d15262a4d; 0x0077eef8175ff525b1553265; 0x000440deae99256350aded09; 0x00eb357d4c6fef6ad9a6fade;
  0x002ab91a874ad050a9024735; 0x00bd5c54db2328e619494138; 0x00b0bb4c63fbe5ddc8609bb3; 0x0033bce15d2952c8cc4b5f67; 0x005936a8d5637765967ad4da;
  0x0076a3e5e95f964294923226; 0x0033cf0862f8148225c6c11a; 0x00afccd8c1be67a0c2fe9543; 0x009d60a7608e14ccd1ec1e6f; 0x00573993a3c9e41ce34471c0;
  0x0027fefcbbb48e77ee35fc16; 0x009390aea3889f90872df044; 0x006acdfb4ccb5d5389a53a16; 0x0060f19d923b654584967e60; 0x000ace2adaabf1baf9dc0ec5;
  0x00384936953a99208847621a; 0x001115da4fc45d9d094089eb; 0x000e3deabe21faaa6941b6d9; 0x007e81bbbf64405ee4b1fe39; 0x00571138ff757a28ddf9b56f;
  0x00334acb94cf689e23b90a24; 0x0058701a88a0fe3f57c7108e; 0x00048e282556e261f950d7e6; 0x00047dead788fcc7d44b07f6; 0x001bd84391562e354949ad04;
  0x005a92e5293c66cab4e01f45; 0x0024723ae453867663c708c2; 0x00005be72f31f6e44d9cc92d; 0x003e57e57f981ff54c6ad967; 0x001f3fe62641b473673c9aba;
  0x00402ba878b088bc4f5076cf; 0x0068c8c17fdd4e9ceec82a87; 0x004a763aaf213e7fa357030b; 0x003aae5b42b5f41852efffed; 0x002703587a4eb2b2b5595749;
  0x001f2751b2a06d2a5a37467f; 0x0021d821ec06be7173f41369; 0x0042828814a86dbb65077185; 0x002094c293cca7a7f1a76036; 0x0043a8c0fd1d6f726790caa2;
  0x0040fca9fce776c1158e74ef; 0x0000b83eb92d83c2cfa886af; 0x0054385bc5d5120f9abf3914; 0x003ab318b86eaa5f13f37407; 0x0030c11525e18d5083000ca5;
  0x0035a33adf30e6e9439ccca8; 0x0041d9adb4549dd3810e9968; 0x001f57bb2538c1a663ebe715; 0x002ff57368d49957a8f61a21; 0x000c9d1c4acc114afb58d55d;
  0x00238e4bf6be5b5fd2849268; 0x0034b3fc95932d7a96f97f89; 0x004465aecfa43eb63723535a; 0x0020e047993c68848ed644e3; 0x00230ee9fb4cf0933aba6c94;
  0x000f83653cf83828809664cc; 0x0016724c5ee48b2b44ed8396; 0x00080baaad6157104f3785c6; 0x002730e733e4a7e793a4cc04; 0x001385326e30864192ba84ed;
  0x0025f948fac740b70d55d65e; 0x000360332ad7c205deb96c1c; 0x001248b82a095fc78fa24471; 0x00183b52d7f51815e410b076; 0x0005dcaf122d18052c42041c;
  0x000de65c171ec4dc1095e872; 0x0005ae239b6c96f06db64d41; 0x002af69e311402c8f3bf5883; 0x001448d3d310c2f6b805b653; 0x0000ff4e1adb14f07774dad6;
  0x001002f8ca11b90c03900095; 0x002caaab3c1e80a18fcfd608; 0x0024d20916e4d935b72708b0; 0x00054958b1e11df90134fbfe; 0x001e468674df93eb3897c3d7;
  0x0005370d12e1320705880375; 0x0009dd57775ace08a5f6be3b; 0x001a2ee15e5eff365d3911a2; 0x000c6aaed83ec196a07f0023; 0x000ae9e98b82b39a912cdc0e;
  0x00198f21a8df0546313062a2; 0x000ab0e387b3962461fd58b3; 0x000a36ba1bf92095d266c11c; 0x00114e2f952518927ab00f4b; 0x00078b8967aabc82021fe024;
  0x0005f5cffd4ebb115f55d32e; 0x0005657aaf1363e33bf81d8d; 0x00151929dc55c9a9b88d762f; 0x0005d659793c8314eeaa4975; 0x00071694daf735a6b5da101d;
  0x0011c72d2442ba84dc44db54; 0x00048ee4a5d6369c09a42b1c; 0x000b0e576c983ff442fd297d; 0x00092e76ac3b07da170a84f3; 0x000573bc13322a6c97ee0076;
  0x000330a950d351e183ddd171; 0x00068e94a4130e50889e24ff; 0x0002e7316db7247d0ad43472; 0x00055f563abfe00e42aa4e0c; 0x00001df90b0c523a4d7e4731;
  0x0002f5de591c3ad3321145f2; 0x000890521d6dd1fbe096cec7; 0x0007945a98b6c640decf9d31; 0x00057df2aa27522e5a385f86; 0x00015d5379547ad416695137;
  0x00067b98b05971a9bee5a276; 0x0002b3756400ae209362b998; 0x0001c2e4aeaac29c9f770073; 0x0001f97499cd82a440ee1e15; 0x0002a4c42580d51f0ddfd867;
  0x000081b1eb68ccb01607dac5; 0x000339f0006e7907f514da28; 0x00018fbcf686aca81d795acd; 0x0004e65b3f7ebd33b3d4365f; 0x00074a6f7e2d07cd8e5dd6dc;
  0x0003d7c2a1677195b8c733f0; 0x0005c084ff8153efdf67c261; 0x00062e91042e587c0b8b61a0; 0x0000803edf4ede8a8600aa2e; 0x0002c86b568cdd2d0f4b0430;
  0x0003b97cec3e714136796147; 0x0005f7ef8404dc7f19923759; 0x000709b491bbca122caa1d22; 0x00053d79c4b7b757341e50fa; 0x000125d656e9f28543317f33;
  0x000056c9480b1090eae62c1c; 0x000542d15aa82ef5b43779a3; 0x0004945c888b2a3dda63df03; 0x00005d3118f7d300d3748d54; 0x0002272a6dfb695d9db936d8;
  0x0000941ba9e7b94fea58d9a7; 0x0000a73978223424a7a5af56; 0x0000c915a43e52e1de0e1228; 0x0004599fde995b12564c47ce; 0x0001d216ee63e5910da39b56;
  0x0000f7b1e2a08722bbd959ed; 0x00016ee002b1c9c22fa48bac; 0x00046f21953c9d463c27058b; 0x00046271e3335cb857ac8f97; 0x0003ba27aa200b1cecaad478;
  0x0001f903504b2bb7fb65f350; 0x0002143085240c57a5eb4819; 0x00007b92760b8d801c6956cb; 0x0000e383d43cc471c64a9a4a; 0x00009c11d2683ccbba6d1b8d;
  0x0003526c848a56b2fbc252f1; 0x0003e8ffb19073074f905f4f; 0x00008dc0a3f530b8a484e338; 0x0003456a75efe3e995499296; 0x000335c47dd6ae953912d172;
  0x0003a6907ef82ebf06524de8; 0x000388b58161a8e2299f4aa6; 0x0000f84f229ff7305639af44; 0x00034b7802c38fda9c89f2bf; 0x0002de7f6fb9d9b6c03d948a;
  0x0000750f2e63c327d0eca76c; 0x000202f17de6dfa4e4072dd0; 0x0001e92bc8c52d9023f7c338; 0x0002c0fb904c4b769816dcc8; 0x0000a9887c91956b638bb3c0;
  0x0001132b073be91470eb64f5; 0x000184ce92788c9e30e705c2; 0x00011223f1011251cd95d922; 0x000364c80474c15901e99ce5; 0x000291ce28027faea320c8d2;
  0x00017b9e2efa53fbabf847bf; 0x000142257802d654804fb42e; 0x0000235e6e18398a65cf3b46; 0x00020bf196bc3926d908b66d; 0x000058d919f52d255f394ed0;
  0x0001b698157e0937bbd3e8fd; 0x00012926659abb4419ad6e09; 0x00025da1e6bbe37ab44c2e6c; 0x0002e2cc082d925dfb198384; 0x0000a29d57f3c6c6696e84d2;
  0x00006cb76e3a797d0ab76115; 0x000243a5b10a7d217fd4c259; 0x0001a4fadf39731a5228d5ad; 0x0000d5e381be9fa4fee09d6b; 0x000167cea0b43ff7ce22f330;
  0x0002392439cc95d0d3875420; 0x0000c19f9adc07014fa635b5; 0x000227698dc4e40b953291b2; 0x0000095a06781ce51be66d6a; 0x00018ae5c97cf968e269afe1;
  0x0001a5777b278af02a4f038c; 0x00014ea4c61775674d689285; 0x00019079d8999a42b26a79dd; 0x000169d885a65c6b3e18887f; 0x0001bbda3f22ef8e476b470a;
  0x0001bd107380753987a4849b; 0x0001133ef720a8d9162b2fed; 0x0000b7de0674d4b84c46be7c; 0x0001179e32e2bd0410719f47; 0x00011a7786add1f89b77bbb9;
  0x00011e6d83fbc9dabe9100ed; 0x0000ae56d35b98df16754c1e; 0x00008f7825915679ef59f89c; 0x0000c22b96e1840b7b47585f; 0x00001d69b3899a49f37799c3;
  0x0000723f7b514cb48f8f2bb4; 0x0000bd01b8c2832cf69064a6; 0x0000bd42b923050c7c79944b; 0x00001a89ec756daa7751c9c5; 0x000032775da8b166cac99dba;
  0x00003d0367477f9d22b93f4d; 0x0000d67bf18376b5afc0a503; 0x00003292bf54dfb86f2eef66; 0x0000adba836a98aa287d5503; 0x00003195a1e6dc48a540264d;
  0x000058dc07cd2b7ecca3f024; 0x00003c5f83c5d5265ae0904d; 0x000092c47035291dc77faf10; 0x00004036d7ad29f775eae9e1; 0x0000e58392f3b59350e72cda;
  0x0000bd862ceedf1ddd92764b; 0x000058b47d2d8fd306883a1f; 0x0000bd47eb600d6d8adb5b9c; 0x00009964c4c46022d9787c6c; 0x000007ff257fb2edd3fdbd7b;
  0x0000f1d697e9398b391fb7f8; 0x00003417beb349dda3fcbd5a; 0x0000f27619ad204369218507; 0x00005ddbd8a9b4d0497851d7; 0x00001c78105335022027226f;
  0x000010ebeea908506dd887bb; 0x00002b9f9113b14a2cdfff43; 0x0000361674f68680e304b78d; 0x0000578232c0e5a895a87f5d; 0x0000774a7f8a7a12dc906ddb;
  0x000050c2c33d368dad544ccc; 0x0000ad7568a1f314070d4dcb; 0x0000110f1dd5756bcc8d2bc2; 0x00004bdf73028c2610712d40; 0x0000499e09bdbe9b99dd44e2;
  0x00006780d7f71b0a1cf84be3; 0x000009b9a521263681a3645e; 0x0000ae5ec05f0d8644eb0f0f; 0x000087a9e18d9a62f87222cd; 0x00000e07595fca57b37fea85;
  0x00008458979f4637ea80f579; 0x0000a649121b458a3611d6dd; 0x0000879a6376bea11ffaf2d8; 0x00008375e2021cfa4caf29f3; 0x00008addb06debe0ba6b11e2;
  0x00008b09a33ac1a000745bb9; 0x00006fb74e83091e4af7ad8d; 0x00008f0087f4e342be4643b2; 0x000040e92e86c23da6a588de; 0x00002fe5f29af38282ac1c8f;
  0x0000549858509265725ef7df; 0x000002b7349e9f66a0647caf; 0x00004a16a9abab1a3f6a0288; 0x00002528224df41ed781655e; 0x000069b73594b10aaa38beae;
  0x00003c0bb7ed07c8a59d2f67; 0x000000f0f1db797325846ec5; 0x000008161e5ac4f0f4ed6443; 0x00004b09977b4452bc2f5e6b; 0x000023e9a0523cfac29afe07;
  0x0000274320eb952073f4f1db; 0x0000572481367b1ba1f5a871; 0x000028dcec47988b70e19b77; 0x0000126ff19d623fb898f15d; 0x000042391c3620056af66ca9;
  0x00000770755c8f06c145f273; 0x00002522f3897c6becde23f2; 0x00002ceef932557b9b01e195; 0x000005bacf89beca55a0354b; 0x0000166b7d480aada35af1e6;
  0x00002ebfba4a73c445c2ad8b; 0x0000443a397c099458703e38; 0x000002411e38f987a8c45a64; 0x0000199afe02dc91754286ec; 0x000019ebf04316b28e56943e;
  0x00000e0d00862ddeffba0fc4; 0x000020449c862044e15eba2b; 0x000025f691b7f6aa88ed1d7f; 0x000010c9885df440bca294df; 0x000003b8ddd8692769e19655;
  0x00001c305598c2c9d5eac816; 0x000018359e5d441408debfc9; 0x00001f458b584aaccfd8efae; 0x00000225cf04dad9ed66fd78; 0x00000b85f08e4fa7cea9dbd1;
  0x00000c35365877efd5cb4ac7; 0x000017601fde84f330befcb3; 0x0000103517ac0e423f881bcb; 0x00001cbb8057bd77d1705133; 0x000011906b491883ab0f16f0;
  0x00001903187b3f62c13ab7f0; 0x000002001a34e42f3c453cae; 0x000002f367a297de1f8aba3b; 0x0000138d5d5071b71215be7f; 0x0000143b8959d6db75bf13d4;
  0x00000b7542b05601fed20f0e; 0x00001044ad23b02bb9aea407; 0x00000ac9b6275dac7f4d0974; 0x000011bd74717d7867500e54; 0x000000a7a0483857f0d95198;
  0x000007b4fa1ede15a0207c76; 0x000009cbc21e8a499f23171b; 0x00000e2583a45a36838c3527; 0x00001214acf5b4c84b9f7170; 0x000008aebdeb747bdedab725;
  0x000006ae784ee6d1c61f2943; 0x0000098c76291c6c59474d88; 0x000001c2c6077e5dffb089a4; 0x00000b5cfd719453a424cf20; 0x000007e3e442ce1423496a06;
  0x000002e49d0f77dce5d36023; 0x0000051b6be6b8b5c7404ed6; 0x0000094c1afab9c2399ce28c; 0x000002ef93d8480b08d1c765; 0x000001bf349e3e8195f95a08;
  0x000003558eeef20d861f9c0c; 0x0000076cf9b166f3c23e4aa6; 0x00000a8e4ddad1a2b266bf70; 0x0000028b031d6a582956fb9a; 0x000004da0d6d69fd474fa08f;
  0x00000892224bf7504dacfa3b; 0x000008079751b074b5c8c5e3; 0x0000027d0c70f5409ce688b8; 0x000007f32231aafb64bd044b; 0x000007c0c0ed00db0a4b2ca0;
  0x000002510fed4381ebf75de2; 0x000005bc9903ca88a90acead; 0x000001d9899113a0e5e42f70; 0x00000615bf1e85695a47abc7; 0x00000044c7b6a5511c0b2ae6;
  0x00000471bece4a96ee78419d; 0x000000d50c5191fab43e4bb7; 0x000006a10da4baf032a0d789; 0x000000ae5ab37a400b402db6; 0x0000032a64e8aea278290cd1;
  0x000002b16284fa2004b11508; 0x0000030f0da02d2dec11b385; 0x0000081cb4737f3099d5e06f; 0x00000153baa61786ef35b827; 0x0000086e28cf4717a80066de;
  0x000005ee2f8222208e86d000; 0x0000023e7d072ac2d2704515; 0x00000375143a36aacbccc7b1; 0x000001563993887788d11396; 0x0000079c4c0873586e86365f;
  0x0000085673dbf5dd9cebb8f4; 0x0000020ed1e5f2de15580e5a; 0x0000065c61b62aa25f311909; 0x0000046885d54d62e1c07130; 0x000006379826f5f10cd23739;
  0x000007839bb5c112322aaced; 0x000003d6d4c461e1800579b6; 0x000008d78e7a6e315b9ef038; 0x0000073f6dc66929dfc12466; 0x0000026bd2449a46b551c82b;
  0x000003e6df417406519029ce; 0x000005e12d1978728b97c85a; 0x0000076d6e1c0fef188ae125; 0x00000924f634b005286ad283; 0x00000681a73f1bb50454cee4;
  0x000003527d9f089431010aea; 0x00000152bdf5ddf5be78a058; 0x00000940c5587c40b81890ce; 0x000004f3e90508470e2f852b; 0x0000087f9aa52a08d8ff065e;
  0x000004e4020f77bd41e22964; 0x00000374c21f2602d4cd5bd7; 0x00000468163355b4c2a73b44; 0x000004c055fce46b07e3917b; 0x00000188cbeebda87456f040;
  0x000009063ca24f2b0989a239; 0x00000678bccaef1c08e8acd5; 0x000000db1538c7b8e6b8c6cd; 0x00000638177e7af24cba523a; 0x0000096aff3f9a2090e6bd9f;
  0x00000291c826714cd1e454aa; 0x00000821542f1d4403a8ddf9; 0x000005fd5ca8892f430662b3; 0x000008bd850507bfad1b02bc; 0x000008be94b219a94752bde6;
  0x000003c33dedeaa37cfce912; 0x0000077463f7a83ccd863c5b; 0x000003011c6a1e5c8c06a706; 0x000008371089fddbdee1f7cf; 0x000003365798631f867fccb0;
  0x00000a4cf5d7252cb9385c8c; 0x0000056edea733c1998b9555; 0x000003a7a772014c5254827d; 0x0000020f1438e884f93b7c61; 0x00000a3290f20e75860d505c;
  0x000008975f64af185acdc482; 0x0000072168b1601c91f63ecc; 0x00000727ee977ff20530096f; 0x0000080ab2d87211cada3fb5; 0x00000a6331baea34235c05eb;
  0x00000b9746bae9c3dae632c0; 0x000008bfbd7bd9a3e2d84e24; 0x0000061d81c1732f2dbbca94; 0x00000dcec83b40648e1d84fc; 0x00000aca2b3a267dab498adc;
  0x00000359df20ee40fd4885f5; 0x000005b72ffa18135425956e; 0x00000375fd57a15993be226e; 0x00000c7b829c5e828f9f7645; 0x00000bc97a18a07ee5043013;
  0x00000c2466dff91636c9d774; 0x000007e459943bb2c1934eae; 0x00000cd8df9cd9b79aeac2cd; 0x00000353b528c2e326ffae4b; 0x00000a7446d1a63b8229670a;
  0x0000068038b71221ea5f47aa; 0x00000517a6428f4d11295e4f; 0x000001de6811527902b2a994; 0x000008243cba0bc5c286d113; 0x00000984d00c9f2d51e6ad2b;
  0x00000b8cbbf3c986e6622a90; 0x000005a7332d8fe512b07701; 0x0000096284eed54697a4eeb3; 0x000003942bca6f7ebcb545c8; 0x000002adfcffbd5f09744ae3;
  0x00000903bedfcadd0348c63c; 0x00000729508928b16132de48; 0x00000d46c50ff465dbb9619f; 0x00000ef31baae3f26b313a5a; 0x000007ebf3a6b6ebcf46d550;
  0x0000075dd20a60abf06a7898; 0x0000035135d21270a0e0dc3e; 0x000008fc67fd0e4f16c538c4; 0x00000251556bb869c25044d9; 0x000000e50d56f13c7ce64183;
  0x00000ca82968c44b6b322247; 0x00000494ff953010c1696ea0; 0x00000e10bb679395973a73d9; 0x00000b5d0ba20740d4cb8420; 0x00000de25617d0cdbfce23b4;
  0x0000019ca45008c57d8e76b5; 0x0000093afc77a2ac9bfcd950; 0x00000a6ac935e28d97f0aede; 0x00000d00734781dbae50f14b; 0x0000066c6e629b2fb49c7fcc;
  0x0000010f123e93970bda828b; 0x0000059d7a720f3e7a7c95cc; 0x000007229476fac88c253d25; 0x0000075ececbe542e3431a42; 0x0000041db1574dba07ab482e;
  0x0000095897af517cdea929fc; 0x00000943791b8f44587f3d46; 0x000000a416fc79b974678e57; 0x00000626a4ed7d6904773e16; 0x000001a83f5b20cd132f38f7;
  0x00000371e3832d4dac14040a; 0x00000c916f972db49ba0a2d6; 0x000001443664a56e8209aa98; 0x000003459152238d54af5a27; 0x00000d66c125aa33593716ec;
  0x0000006a4c9c33805a0798c8; 0x00000ccef2874fb04e9ae82f; 0x00000a79ca3fe7e37010dff0; 0x0000005c25bb6a16e3ffa644; 0x000005a38f162cf308edea0a;
  0x000007dfe77845072e5e33d9; 0x000004db2c6e16f9011087d0; 0x00000bb278958f40343cde5a; 0x0000097f833c6af6c91c0500; 0x000008863b4603ab68867736;
  0x0000067c87cdf56536a2bca4; 0x0000068e6204201727d960ac; 0x00000a71df2c53c083712cc8; 0x000008da23f05e81937e393b; 0x000003b3402f35327d144a46;
  0x00000a5e45d61b47c7daac65; 0x000000038ca3daa43d561687; 0x000002443e9c5e83df0209ed; 0x0000053bb866c1dbc200eee7; 0x00000a082a56845388ddcab7;
  0x00000b303e117fc792e9f019; 0x0000074a45870df1db128037; 0x000007f1c694428baecd66cf; 0x000008f9585fc1bf26cc864e; 0x0000099e61ea72015e79632f;
  0x000002780f2f2d67789a7c5d; 0x000003c562c8ae7899bd2fa6; 0x000006d928053f2a2affbb8a; 0x000006a94033d639d71948e7; 0x0000099e9f2a34b7780d71b1;
  0x000001130d6c5d5ce8558a9f; 0x00000ac53b8d446e5c0c5b1e; 0x00000713fc8ac9c3fd2e8c5e; 0x00000883d011b9913eaa8d7c; 0x0000051f68f43e9d455e72d9;
  0x000007265e2e1481b2c06bc6; 0x000002f11c66d35af92d0d1b; 0x000005209ca04495bf5de4c8; 0x000007645f923f4cdafdc5bf; 0x0000070e7585c214a2a9628c;
  0x000005772a69b8a0b2ceac3a; 0x000003c95077d382b716fdf2; 0x000007f2c63ffd4509afeab1; 0x000001b6be86b1d81a3b1813; 0x00000837e82c3a4ebe35a1d1;
  0x000008a02a67184cd94cfef3; 0x000008475bf844461ab35d3e; 0x000007e9ca758184a63181c8; 0x000006b5f49fc22c4864a6cd; 0x0000077ff3de38ce09c0279d;
  0x00000a675a17e80b40f7f372; 0x0000023496d419ffc0d983af; 0x000005d701f0dca5a65a9610; 0x000007b514e96f2a23e57f5a; 0x00000504d3e701deb624eee4;
  0x0000040e1ee8b1187c64f6fa; 0x000007f0103e508a419527df; 0x00000787474b2b08301e43b5; 0x0000038d990dd1710f828b3a; 0x000006b975c097e9a5235de0;
  0x0000070e2f1e5fcdbd58b60a; 0x0000054b63083e9b2347773e; 0x000002236df8d0f69388a140; 0x00000436ec2bd0dd68eee48a; 0x000004659b5b8602b2132b62;
  0x000002018c3180a9f7b4b5ed; 0x000002a7c1f43aa9205cde2e; 0x00000165e01f941536daec16; 0x000006ef4d9200e7b5e1b22f; 0x00000359be6774f86dec5263;
  0x00000011f4771501cb4c66d2; 0x0000085127463e27d762af44; 0x00000074c31874804eb9cda1; 0x000009e66100cab83ed79e24; 0x000009eae2697a7aaf57e730;
  0x00000390610f6f5ef5a52a6a; 0x000009ae427eb833c698993f; 0x00000218bf10d219bd13ceb8; 0x000002b951b54e5cd09bf0cb; 0x000008dddc8b99d4bf1d3977;
  0x000002db4324a4882135cb41; 0x00000435e44123773e1570b7; 0x000001cf299fb1ce61aed4eb; 0x000004f20eedaa2ec0852213; 0x000004ff83b6c10460b239ef;
  0x00000434c4df871537023943; 0x00000815a5a27b81a0d943b4; 0x000006b901c1f2146695e123; 0x0000026f9f99ccde88c96bde; 0x0000089558f2de87ee02ba25;
  0x0000029786603927610232ed; 0x0000035b6a2f5d2ea5b37062; 0x000007e5f3add3325ddb63a4; 0x000005719baf3999c44f7828; 0x0000068dce12903c1447e4c5;
  0x00000873b6cd618f4d5d2e30; 0x000006bca5f9613129affe05; 0x000007716d307b5c6d60b1b5; 0x0000089ae03a2571a5e4e48d; 0x000007be8b15bd307b7bc04a;
  0x0000070cba2448c5d5d84d51; 0x0000077a36e27b500547460d; 0x0000050b5916aa6f6c661c04; 0x000000a90857252d4faf9d28; 0x0000060405a235c6b968ccb1;
  0x000007879b4e1d915fb00d68; 0x000009fb73e6b4ee417cff35; 0x00000850e0197806e9ad3b28; 0x00000130ed43fc455277317d; 0x000008e4a049f80eb23c83c7;
  0x000001cf6f9b6fa17873c98c; 0x000005611c51ff11b34bacdf; 0x000006dd89d1b59d55fd49b8; 0x00000782e6655b2cedbd433e; 0x0000072ede9629fd1fd1af3c;
  0x000003a03cf1ad77a3d5ec07; 0x000002cdef80e2a76c33b09d; 0x000006446e6221a147f8adf4; 0x0000011f19a01e07b865c382; 0x0000095cc058085cf175b5f6;
  0x000005976f66382caf10f1f4; 0x000007525b8c2a4e04d9bd98; 0x0000009555a0b09a482720a8; 0x000004fe92d436fdf0ef877d; 0x0000004cf0c72d6dedfde88c;
  0x000008ee90b65bc86e2f5655; 0x0000033dcc678a165c3a2bff; 0x000007dd802316034a296520; 0x0000065eb0c98bf7d10f5f1b; 0x000000cb70eababc6787d13f;
  0x000008e8f8039903f69df6bd; 0x0000078c17e9d38755542066; 0x00000098af19f85b74f55b6a; 0x000001009c1d9bbb2f2ee10e; 0x00000708bf3b261ffc963b6a;
  0x0000007dd4065aee391fe2e6; 0x000006a6db93e62479f809c6; 0x0000030bdd5211f5ebce889a; 0x000002fba30b75c3dcf513ce; 0x000008d64e842b503d05d2e8;
  0x00000318767c948783cc082e; 0x00000203ff8dee3bceda4f47; 0x000000befc56f825e797be24; 0x00000285297e16d9456cccd1; 0x000000af130d565291ba4920;
  0x000000d8c5528d9578809597; 0x000001ee54bf56b79671a9c1; 0x000004b0f4575a4349b4e4b7; 0x00000681f69f4f29ddc4b50b; 0x0000059f452a5f7340de6682;
  0x0000044413bb4e28fb13b075; 0x0000043b3fc193ad9d9d31a1; 0x00000340766c3af62744ec1b; 0x0000052918825b4529465a3c; 0x0000046242d4984ecf2217e9;
  0x00000398d308463103367d2c; 0x0000072d9a416b711243a46c; 0x000003a8bc44d972f738b253; 0x0000059a715008fbb010c01e; 0x00000716889a0c9c7d773f1c;
  0x000003a95d78b1b29e1bc749; 0x0000018c80c684acfbf9e793; 0x00000674655ba2ba2a610b2a; 0x00000594ffd54f7683d0d142; 0x000006ae59396d4a289e83fe;
  0x00000671f8eb6bc77bf0972a; 0x000002ffdac437cb3d131f39; 0x0000044f8c564d82cebfb9d2; 0x000004960f1f55da8a22c539; 0x0000012094fc2ea1b763742c;
  0x0000030645c114765350289b; 0x000001fdf97f5e11f8ab24cd; 0x000001e36e86253ff39f1771; 0x000003122975529d6e7da88e; 0x0000000f2ad431ff18ab1673;
  0x000004fdd72a66a57c887b35; 0x000005150ae967343f5e25f4; 0x000005f174862daf4823ab82; 0x00000031d615f3a4536b1273; 0x00000397e4ff8f223d31783d;
  0x000001f731d56d3122d7d3e0; 0x000004c6d590deac7297c57c; 0x0000039e3b0c73c0705527fa; 0x000005c0c51a720ad801af73; 0x0000034a7dedef4a161fa058;
  0x00000512f520a2448bf5d07c; 0x0000027b53148d16a3934be2; 0x00000466935bd1a97a91eee0; 0x000004419c4022bc1b61c237; 0x00000350eb681b2b81513489;
  0x000001d5c485053b07729a4c; 0x0000005f56183cf377c9db38; 0x000003a5e28bef30ad31f1f9; 0x000005451e9edc12b2166919; 0x000003282fe1d5533e4275fd;
  0x000000bf0c58476bc2097611; 0x000000e9dff8703761b40d2b; 0x000000109281b2cd76d732da; 0x0000030d10bca1df1a67e37e; 0x00000575e3b569cbacc02e28;
  0x000001590ea890cdb19dfd38; 0x0000036b1a4520ddf1ce2b9d; 0x00000562dcf5d5ce440c55a3; 0x0000023bb74d1b33a7fca174; 0x00000423eb625dc140272ab9;
  0x0000053ab5cafe0435882b6c; 0x000000cf4db9e9de90356e80; 0x000002d5926db3c08074969a; 0x00000007ac12f3a8c763006b; 0x000002cec464aa21f8aee916;
  0x000002a004fab5b9574b0e05; 0x0000046fe7c2f45f1fd69225; 0x000004f430ab511411c83de9; 0x0000016c169477c25421250e; 0x00000130b815d40fd6d88514;
  0x0000029983f8d6cc527bf826; 0x000000391f4445ef4243bc71; 0x000000dae61e24e97f76c29b; 0x000004f0a960fe1e7ddbdfb8; 0x000004bdd54a303529953b64;
  0x0000044db115faf63b87d573; 0x00000019362ef5e1518df785; 0x0000016f9aa1b929007456f8; 0x0000045827f9f0f5e4a84a56; 0x0000001db5a1515a5f8534c9;
  0x000003cf1de105fb5d56114d; 0x00000277820bbeb82a19a7f9; 0x000002c9cdcc030c62f1012c; 0x000000a21b6c36f881beaf70; 0x0000002a356ffbd715fb0cd8;
  0x000004cb1a7dd7a915e3ab77; 0x000000e64f1d5c3afb2074b3; 0x000003e29f9ebfd2cbd2714e; 0x0000042b60a31c9de0026e56; 0x0000048b95347e83192f69cf;
  0x000001a29b9770d22100c4f7; 0x0000028a9c53d6d4ddafc836; 0x000000d7be2851a24f36f9e4; 0x00000030d456780296d4e42f; 0x00000345b371caa3f829cacb;
  0x00000172a91a156957f9cf53; 0x0000032993879e057e35b266; 0x0000045c3e34040e8a42b174; 0x0000037c3faa0f2a33863377; 0x000003d906e4131c39f7655b;
  0x000003bbd8383db0b0f1d7ae; 0x000001b3eaccda1bbae672df; 0x00000477cd7b57c21142f99b; 0x000001d77fd36f7400573ef5; 0x00000242076c882281337e58;
  0x000001866a8d11d50e1da9b8; 0x0000009481aa8da7f2e1d112; 0x00000021f462191756831eaf; 0x0000034d7ee4e381b3655876; 0x000003e6427f9fafa8b0e1af;
  0x0000035688a5e224794c2b14; 0x00000053abdbc1882176ba88; 0x000000f63d8dcfe127dad92d; 0x000000917df4636746aa1834; 0x0000032f64cb76edfb654062;
  0x000004cffd7f209e0db422a4; 0x0000042f3df12c164a248308; 0x0000037f8976e195fd144e6b; 0x000000fd047acbf74f9fb7b8; 0x000001f79a2db15d0ec6d951;
  0x00000170e0fbd849e1fad98c; 0x0000042b636db297ce8f5a7e; 0x000000d4001ba3bc406e5349; 0x000000f240fa6f708f70a426; 0x0000036d1e5c410c39301727;
  0x000003bd639654d6e78a4357; 0x000001f2ca13ace8e9684a3e; 0x0000014fccdc731d868a2448; 0x00000565ed5ca5a2979f7f4e; 0x00000569070e338293af6625;
  0x0000001b7a7a3035d7a8ebf2; 0x00000305c596f0d620393782; 0x000002ca35e1803e84f41339; 0x000004f1cfd5fed69905a4cc; 0x000004b359c1cb685f9e3922;
  0x000005565cb86de281d94c1e; 0x00000246cd2f93500e4162d5; 0x000002f51e6b09f9d10ff31e; 0x000001f03f611c9f763e6a5f; 0x0000002fdd2c741ed50bc397;
  0x000002b3ce8b1fd19ece5313; 0x00000025e7ff937023d2d8ea; 0x000000703f0da50ae8a0aa4d; 0x0000045758d1d23895fe0645; 0x0000034588ba0f8771e2f48b;
  0x000001ccd86b43bf1941b8cf; 0x00000089e87f51507d57a7cd; 0x000000e2274ed200183b30d1; 0x0000031150d3d8b70791f766; 0x000002c752a481ce0c45450a;
  0x00000314c027f40b94a290da; 0x0000028588a30e8266f6a349; 0x000001f6568bba669f6354c2; 0x0000018568a451a58a1b548d; 0x0000012d0917dbac896a6074;
  0x000001a9ca98d03a4ad35e20; 0x000000e404d2c55c9c310c06; 0x00000066a81399325634312e; 0x000000d4741c636efca544ce; 0x00000107ee276d037218bf17;
  0x0000027f8ac4f5b5f7add070; 0x000002c22f17ff5177b58058; 0x0000002a86c1043a742bf85c; 0x00000186dfe0572fceec7528; 0x0000013d8781110987bf0e9f;
  0x00000099a8fec3601d399193; 0x000000ef28d826e3a7c7bed3; 0x00000216ed4f9a2210016ae3; 0x0000007cdedf81117d6c7d4f; 0x0000012c614cf477c3b155d3;
  0x00000287cc64c4469de825b1; 0x000001223ec6bcd7680600d8; 0x0000031c94b9119c94eeffe1; 0x0000020becd3c9272f0c51c8; 0x00000303d872c9bffdf46429;
  0x000001b239b2b842812b93d6; 0x000000ebb2db29171fa803ea; 0x000000b60d063ccdb6206535; 0x000001f43e19ff1cea8d8e9d; 0x000000efc4311c93fafbcced].
Definition btc_pre_bip34 : list Z := concat (map (be_bytes 12) checkpoints).
Definition btc_pre_bip34_len : Z := 13680.
Definition PRE_BIP34_DISTANCE : Z := 200.
