(* ===== verification/BtcTarget.v ===== *)
(** * verifier/btc: the targets of the proof of work (btc_target.c)

    A target is the 32 bytes of a number; the client knows some, each by the number of its
    adjustment period and its four bytes in a header.  The configuration of the plugin, which the
    functions share by a pointer, is a part of the world ([BtcConf]). *)
From S2P Require Import Prelude Utils Bytes Rlp Btc Data Json JsonVal ReqState Request ReqNew.
From stdpp Require Import strings.
#[local] Open Scope Z_scope.

Definition BIP34_START : Z := 227835.
Definition btc_get_dap (block_number : Z) : Z := block_number / 2016.
Record btc_target_conf_t := mk_conf { tc_data : option (list Z); max_daps : Z; max_diff : Z; dap_limit : Z; tc_chain_id : Z }.
Definition set_tc_data (d : option (list Z)) (c : btc_target_conf_t) : btc_target_conf_t := mk_conf d (max_daps c) (max_diff c) (dap_limit c) (tc_chain_id c).
(** The plugin's data in the world of the client. *)
Class BtcConf (W : Type) := { get_conf : W -> btc_target_conf_t; set_conf : btc_target_conf_t -> W -> W; get_set_conf : forall c w, get_conf (set_conf c w) = c }.
(** Two bytes for the period and four for the target. *)
Definition BTC_TARGETS : list Z := concat (map (be_bytes 6)
  [0x000affff001d; 0x000fffff001d; 0x00145746651c; 0x0019a7bc201c; 0x001e64ba0e1c; 0x00235a0c011c; 0x0028ed66471b; 0x002d56720e1b;
   0x0032cb04041b; 0x0037cd2d011b; 0x003cfa98001b; 0x00418521131a; 0x0046864a091a; 0x004bcaf00d1a; 0x0050d7690d1a; 0x005587320b1a;
   0x005a5f8b0a1a; 0x005fc93c081a; 0x0064087e051a; 0x006962fa041a; 0x006e5c98041a; 0x007394de011a; 0x007815de001a; 0x007d32875419;
   0x0082cab01619; 0x008742120619; 0x008c2cf50119; 0x009199db0019; 0x009642286918; 0x009ba2ae3a18; 0x00a093b81f18; 0x00a5747b1b18;
   0x00aa87bb1818; 0x00aff0171718; 0x00b48e411618; 0x00b9c14d1318; 0x00be89b21018; 0x00c31bb30918; 0x00c8c3a40618; 0x00cd36840518;
   0x00d228720518; 0x00d7c4400418; 0x00dc858b0318; 0x00e1937e0218; 0x00e63e1b0218; 0x00eb308d0118; 0x00f00b310118; 0x00f54bce0018;
   0x00fa8c577e17; 0x00ff494a5117; 0x0104495a4117; 0x01097b4f2f17; 0x010e91c12517; 0x0113f41e3717; 0x0118505b2e17; 0x011d38ff2917;
   0x01229b0d1f17; 0x0127f5ab1717; 0x012c3eb21517; 0x0131ff321217; 0x0136bc201317]).

(** ** Bounds of a new target *)

(** [tmp[i] = (tmp[i] << 2) | (tmp[i + 1] >> 6)] for [n] bytes from [i] on, and
    [tmp[i] = (tmp[i] >> 2) | (tmp[i - 1] << 6)]. *)
Fixpoint mul4_loop (n i : nat) (tmp : list Z) : list Z :=
  match n with
  | O => tmp
  | S n' => mul4_loop n' (S i) (<[i := u8 (Z.lor (Z.shiftl (rd tmp (Z.of_nat i)) 2) (Z.shiftr (rd tmp (Z.of_nat (S i))) 6))]> tmp)
  end.
Fixpoint div4_loop (n i : nat) (tmp : list Z) : list Z :=
  match n with
  | O => tmp
  | S n' => div4_loop n' (S i) (<[i := u8 (Z.lor (Z.shiftr (rd tmp (Z.of_nat i)) 2) (Z.shiftl (rd tmp (Z.of_nat i - 1)) 6))]> tmp)
  end.
(** The message for a target out of the bounds. *)
Definition target_err (old_target new_target : list Z) : option string :=
  if memcmp (mul4_loop 31 0 old_target) new_target <? 0 then Some "new target is more than 4 times the old target"
  else if 0 <? memcmp (div4_loop 31 1 old_target) new_target then Some "new target is less than one 4th of the old target"
  else None.

(** ** The known targets *)

(** The period that is found and its target; the records before the end have six bytes. *)
Fixpoint closest (l : list Z) (dap found dist : Z) (target : list Z) : option (Z * list Z) :=
  match l with
  | [] => Some (found, target)
  | a :: b :: c :: d :: e :: f :: t =>
      let n := Z.lor (Z.shiftl a 8) b in
      let dd := if n <? dap then dap - n else n - dap in
      if dd <? dist then
        target' ← target_of_bits [c; d; e; f];
        if dd =? 0 then Some (n, target') else closest t dap n dd target'
      else closest t dap found dist target
  | _ => None
  end.
Definition btc_get_closest_target (tc : btc_target_conf_t) (dap : Z) (target : list Z) : option (Z * list Z) :=
  match default [] (tc_data tc) with [] => Some (0, target) | l => closest l dap 0 0xFFFFFFFF target end.
(** The index of the last byte that is not zero, below [n]. *)
Fixpoint last_nonzero (n : nat) (target : list Z) : option nat :=
  match n with O => None | S i => if rd target (Z.of_nat i) =? 0 then last_nonzero i target else Some i end.
Definition mul_target (percent : Z) (target : list Z) : option (list Z) :=
  let p := match last_nonzero 32 target with Some i => Z.of_nat i - 3 | None => 28 end in
  w ← read_z target p 4;
  let val := bytes_to_int (Some w) 4 in
  let val := u32 (val + u32 (percent * val) / 100) in
  memcpy_at target (Z.to_nat p) (be_bytes 4 val).
Definition get_difficulty (header : list Z) : option (list Z) := btc_block_get header BTC_B_BITS.
Definition add_target (d : option (list Z)) (dap : Z) (difficulty : list Z) : list Z :=
  default [] d ++ [Z.land (Z.shiftr dap 8) 0xFF; Z.land dap 0xFF] ++ difficulty.
Definition set_cachekey (id : Z) : list Z := str "btc_target_" ++ print_int (i32 id).

Section Target.
Context `{SourceText} `{Allocator} {W : Type} `{!BtcConf W} (plugins : list (in3_plugin_t W)) (max_attempts : Z) (fuel : nat).
#[local] Abbreviation st := (state W).
#[local] Abbreviation vc_err := (vc_err plugins).

Definition btc_new_target_check (old_target new_target : list Z) : M st Z :=
  match target_err old_target new_target with Some msg => vc_err msg | None => mret IN3_OK end.
Definition conf : M st btc_target_conf_t := gets (fun s => get_conf (world s)).
Definition put_conf (c : btc_target_conf_t) : M st unit := modify (fun s => mk_state (self s) (required s) (client s) (set_conf c (world s))).
(** The data of the chain, from the cache or the built-in targets. *)
Definition btc_check_conf : M st Z :=
  id ← gets in3_chain_id;
  c ← conf;
  (if id =? tc_chain_id c then mret tt else put_conf (mk_conf None (max_daps c) (max_diff c) (dap_limit c) id)) ;;
  c ← conf;
  match tc_data c with
  | Some _ => mret IN3_OK
  | None =>
      r ← in3_plugin_execute_all plugins PLGN_ACT_CACHE_GET (C_cache (set_cachekey (tc_chain_id c)) None);
      c ← conf;
      put_conf (set_tc_data (Some (match r.2 with C_cache _ (Some l) => l | _ => BTC_TARGETS end)) c) ;;
      mret IN3_OK
  end.
Definition btc_set_target (dap : Z) (difficulty : list Z) : M st unit :=
  c ← conf;
  let data := add_target (tc_data c) dap difficulty in
  put_conf (set_tc_data (Some data) c) ;;
  id ← gets in3_chain_id;
  in3_plugin_execute_first_or_none plugins PLGN_ACT_CACHE_SET (C_cache (set_cachekey id) (Some data)) ;;
  mret tt.
(** The request for a proof of the target; its parameters are one string. *)
Definition proof_request (tc : btc_target_conf_t) (current found : Z) : list Z :=
  quoted "{'method':'btc_proofTarget','jsonrpc':'2.0','params':['" ++ print_int current ++ [44] ++ print_int found ++ [44] ++ print_int (i32 (max_diff tc)) ++ [44] ++ print_int (i32 (max_daps tc)) ++ [44] ++ print_int (i32 (dap_limit tc)) ++ quoted "']}".
(** Waiting for, or ending with, the request for the target that is there already. *)
Definition pending_proof : M st (option Z) :=
  i ← req_find_required "btc_proofTarget";
  match i with
  | None => mret None
  | Some i =>
      q ← required_state i;
      match q with
      | REQ_ERROR =>
          rs ← gets required;
          e ← req_set_error plugins (rs !! i ≫= r_error) IN3_ERPC;
          e ← req_set_error plugins (Some (str "Error verifying the target")) e;
          mret (Some e)
      | REQ_WAITING_FOR_RESPONSE | REQ_WAITING_TO_SEND => mret (Some IN3_WAITING)
      | REQ_SUCCESS =>
          r ← req_remove_required i false;
          if r =? IN3_OK then mret None else e ← vc_err "could not clean up proofTarget-request!"; mret (Some e)
      end
  end.
Definition btc_check_target (block_number : Z) (block_target final header : list Z) : M st Z :=
  if block_number <? BIP34_START then mret IN3_OK
  else
    w ← pending_proof;
    match w with
    | Some e => mret e
    | None =>
        tc ← conf;
        let current_dap := btc_get_dap block_number in
        ft ← defined (btc_get_closest_target tc current_dap (replicate 32 0));
        let '(found_dap, verified_target) := ft in
        let dist := if found_dap <? current_dap then current_dap - found_dap else found_dap - current_dap in
        if found_dap =? 0 then vc_err "could not find any verified target!"
        else if dist =? 0 then if memcmp verified_target block_target =? 0 then mret IN3_OK else vc_err "header target does not match the verified target"
        else
          near ← (if dist <=? max_daps tc then tmp ← defined (mul_target (u32 (max_diff tc)) verified_target); mret (0 <? memcmp tmp block_target) else mret false);
          if (near : bool) then
            bits ← defined (get_difficulty header);
            btc_set_target current_dap bits ;;
            if btc_get_dap (u32 (block_number + zlen final / 80)) =? current_dap + 1 then
              last ← defined (read_z final (zlen final - 80) 80);
              bits ← defined (get_difficulty last);
              btc_set_target (current_dap + 1) bits ;;
              mret IN3_OK
            else mret IN3_OK
          else
            ctx ← req_new plugins (proof_request tc current_dap found_dap);
            ctx ← defined ctx;
            req_add_required plugins max_attempts fuel ctx
    end.
End Target.
