(* ===== verification/BtcVerify.v ===== *)
(** * verifier/btc: the verifier (btc.c)

    Headers with their proof of work, the headers behind a block, transactions, blocks and proofs of
    targets, in the build with the hashes of the blocks before BIP 34.  A header or a transaction is
    the list of its bytes; what a C function returns through pointers is part of the result. *)
From S2P Require Import Prelude Utils Bytes Rlp Data Json JsonVal ReqState Request ReqNew Serialize Nano Btc BtcPreBip34 BtcTarget.
From stdpp Require Import strings.
#[local] Open Scope Z_scope.

Definition K_CBTX_PROOF : Z := Eval vm_compute in key "cbtxMerkleProof".
Definition K_CBTX : Z := Eval vm_compute in key "cbtx".
Definition K_HEIGHT : Z := Eval vm_compute in key "height".
Definition K_FINAL : Z := Eval vm_compute in key "final".
Definition FLAGS_ALLOW_EXPERIMENTAL : Z := 0x100.

(** ** Hexadecimal text *)

(** [hex_to_bytes(d_string(t), len, dst, n)] with a fixed length, into a buffer that is not initialised. *)
Definition hex_buffer `{SourceText} `{Allocator} (t : option jval) (len : Z) (n : nat) : option (list Z) :=
  match d_string t with
  | None => Some (malloc n)
  | Some l => if zlen l <? len then None else Some (snd (hex_to_bytes (Some l) len (malloc n) (Z.of_nat n)))
  end.
(** The bytes of all the text of a token. *)
Definition hex_text `{SourceText} `{Allocator} (t : option jval) : option (list Z) :=
  let n := Z.shiftr (jlen t + 1) 1 in
  l ← d_string t;
  Some (snd (hex_to_bytes (Some l) (jlen t) (malloc (Z.to_nat n)) n)).
Definition hex_pair (hex : list Z) (i : nat) : Z := Z.lor (Z.shiftl (hexchar_to_int (rd hex (2 * Z.of_nat i))) 4) (hexchar_to_int (rd hex (2 * Z.of_nat i + 1))).
Definition equals_hex (data : list Z) (hex : option (list Z)) : bool :=
  let hex := cstr (default [] hex) in
  (Z.shiftr (zlen hex) 1 =? zlen data) && forallb (fun i => rd data (Z.of_nat i) =? hex_pair hex i) (seq 0 (length data)).
Definition equals_hex_rev (data : list Z) (hex : option (list Z)) : bool := equals_hex (rev data) hex.
(** [rev_hex(hex, dst, l)]: the pairs from the last to the first; an odd digit is not handled, its
    pair ends with the zero of the string. *)
Definition rev_hex (hex : option (list Z)) (l : nat) : list Z :=
  let hex := cstr (default [] hex) in
  let out_len := Nat.min (Z.to_nat (Z.shiftr (zlen hex + 1) 1)) l in
  rev (map (fun i => u8 (hex_pair hex i)) (seq 0 out_len)) ++ replicate (l - out_len) 0.
Definition btc_serialize_block_header `{SourceText} (data : option jval) : list Z :=
  rev_hex (d_get_string data (key "versionHex")) 4 ++ rev_hex (d_get_string data (key "previousblockhash")) 32 ++ rev_hex (d_get_string data (key "merkleroot")) 32
  ++ rev_copyl (default [] (d_bytes (jget data (key "time")))) 4 ++ rev_hex (d_get_string data (key "bits")) 4 ++ rev_copyl (default [] (d_bytes (jget data (key "nonce")))) 4.

(** ** The transactions of a block (btc_serialize.c)

    The position behind an input, an output, the witnesses and a transaction. *)
Definition btc_get_txinput (data : list Z) (p : Z) : option Z := v ← decode_var_int data (p + 36); Some (u32 (40 + fst v + snd v)).
Definition btc_get_txoutput (data : list Z) (p : Z) : option Z := v ← decode_var_int data (p + 8); Some (u32 (8 + fst v + snd v)).
Fixpoint skip_items (n : nat) (item : Z -> option Z) (p : Z) : option Z :=
  match n with O => Some p | S n' => l ← item p; skip_items n' item (p + l) end.
Definition witness_item (data : list Z) (p : Z) : option Z := v ← decode_var_int data p; Some (fst v + snd v).
Definition witness_stack (data : list Z) (p : Z) : option Z := v ← decode_var_int data p; q ← skip_items (Z.to_nat (i32 (snd v))) (witness_item data) (p + fst v); Some (q - p).
Definition btc_get_transaction_end (data : list Z) (p : Z) : option slice :=
  m ← read_z data (p + 4) 1;
  witness ← (if rd m 0 =? 0 then m ← read_z data (p + 5) 1; Some (rd m 0 =? 1) else Some false);
  let q := p + (if (witness : bool) then 6 else 4) in
  v ← decode_var_int data q;
  q ← skip_items (Z.to_nat (snd v)) (btc_get_txinput data) (q + fst v);
  let txin := if witness then i32 (snd v) else 0 in
  v ← decode_var_int data q;
  q ← skip_items (Z.to_nat (snd v)) (btc_get_txoutput data) (q + fst v);
  q ← skip_items (Z.to_nat txin) (witness_stack data) q;
  Some (mk_slice p (u32 (q - p + 4))).
Definition btc_get_transaction_count (block : list Z) : option Z := v ← decode_var_int block 80; Some (i32 (snd v)).
Fixpoint block_transactions (n : nat) (block : list Z) (p : Z) : option (list (list Z)) :=
  match n with
  | O => Some []
  | S n' => s ← btc_get_transaction_end block p; tx ← read_z block p (s_len s); l ← block_transactions n' block (p + s_len s); Some (tx :: l)
  end.
(** The array has [count] entries as an [int]. *)
Definition btc_get_transactions (block : list Z) : option (list (list Z)) :=
  v ← decode_var_int block 80;
  if snd v <? 2 ^ 31 then block_transactions (Z.to_nat (snd v)) block (80 + fst v) else None.

(** ** Values as [double]

    The nearest number with 53 significant bits, to even if there are two. *)
Definition round53 (n : Z) : Z :=
  let e := Z.log2 n - 52 in
  if e <=? 0 then n
  else
    let q := Z.shiftr n e in
    let r := n - Z.shiftl q e in
    let half := Z.shiftl 1 (e - 1) in
    Z.shiftl (if (half <? r) || ((half =? r) && Z.odd q) then q + 1 else q) e.

Section Verify.
Context `{SourceText} `{Allocator} `{Sha256} {W : Type} `{!BtcConf W} (plugins : list (in3_plugin_t W)) (max_attempts : Z) (fuel : nat).
#[local] Abbreviation st := (state W).
#[local] Abbreviation vc_err := (vc_err plugins).

(** [btc_parse_tx]: [None] for an error. *)
Definition parse_tx (tx : list Z) : M st (option btc_tx_t) := fun s =>
  match btc_parse_tx tx tt with Ok t _ => Ok (Some t) s | Err _ _ => Ok None s | Undef => Undef | NoFuel => NoFuel end.

(** ** Headers *)
Definition check_pre_bip34 (finality_headers : list Z) (bn : Z) : M st Z :=
  let checkpoint := bn / PRE_BIP34_DISTANCE + 1 in
  let p := checkpoint * PRE_BIP34_DISTANCE - bn in
  if BIP34_START <? bn then vc_err "block needs to support BIP34"
  else if btc_pre_bip34_len <=? checkpoint * 12 + 12 then vc_err "Blocknumber not before bip34"
  else
    start ← defined (read_z btc_pre_bip34 (checkpoint * 12 - 12) 12);
    if zlen finality_headers <? p * 80 then vc_err "Not enough fnialiity headers"
    else
      h ← defined (read_z finality_headers ((p - 1) * 80) 80);
      if negb (memcmp (take 16 (btc_hash h)) (replicate 4 0 ++ start) =? 0) then vc_err "invalid finality header" else mret IN3_OK.
(** The number, from the coinbase transaction or, before BIP 34, from the proof. *)
Definition btc_block_number (proof : option jval) (header : list Z) : M st (Z * Z) :=
  let merkle_proof := default [] (d_bytes (jget proof K_CBTX_PROOF)) in
  let tx := default [] (d_bytes (jget proof K_CBTX)) in
  if (rd header 0 =? 1) && memiszero (take 3 (drop 1 header)) then
    let n := u32 (d_int (jget proof K_HEIGHT)) in
    if n =? 0 then e ← vc_err "missing height in proof for blocks pre bip34"; mret (e, n)
    else e ← check_pre_bip34 (default [] (d_bytes (jget proof K_FINAL))) n; mret (e, n)
  else if negb (zlen header =? 80) then e ← vc_err "invalid blockheader"; mret (e, 0)
  else if zlen merkle_proof =? 0 then e ← vc_err "missing merkle proof"; mret (e, 0)
  else if zlen tx =? 0 then e ← vc_err "missing coinbase tx"; mret (e, 0)
  else
    t ← parse_tx tx;
    match t with
    | None => e ← vc_err "invalid coinbase tx"; mret (e, 0)
    | Some t =>
        id ← defined (btc_tx_id t);
        root ← defined (btc_block_get header BTC_B_MERKLE_ROOT);
        ok ← defined (btc_merkle_verify_proof root merkle_proof 0 id);
        if negb ok then e ← vc_err "merkleProof failed!"; mret (e, 0)
        else if negb (bt_input_count t =? 1) then e ← vc_err "vin count needs to be 1 for coinbase tx"; mret (e, 0)
        else
          i ← defined (btc_parse_tx_in tx (s_data (bt_input t)) (s_data (bt_input t) + s_len (bt_input t)));
          first ← (match i with Some (i, _) => b ← defined (read_z tx (s_data (ti_script i)) 1); mret (rd b 0) | None => mret 0 end);
          match i with
          | Some (i, _) =>
              if negb (first =? 3) then e ← vc_err "invalid coinbase signature"; mret (e, 0)
              else b ← defined (read_z tx (s_data (ti_script i) + 1) 3); mret (IN3_OK, Z.lor (Z.lor (rd b 0) (Z.shiftl (rd b 1) 8)) (Z.shiftl (rd b 2) 16))
          | None => e ← vc_err "invalid coinbase signature"; mret (e, 0)
          end
    end.
Record header_result := mk_hres { h_ret : Z; h_hash : list Z; h_target : list Z; h_number : Z }.
(** The proof of work; [proof] is given where the number of the block is wanted. *)
Definition btc_verify_header (block_header : list Z) (expected_target : option (list Z)) (proof : option (option jval)) : M st header_result :=
  dst_target ← defined (btc_target_from_block block_header);
  let dst_hash := btc_hash block_header in
  if memcmp dst_target dst_hash <? 0 then e ← vc_err "Invalid proof of work. the hash is greater than the target"; mret (mk_hres e dst_hash dst_target 0)
  else if (match expected_target with Some t => negb (memcmp dst_target t =? 0) | None => false end) then e ← vc_err "Invalid target"; mret (mk_hres e dst_hash dst_target 0)
  else
    match proof with
    | Some (Some _ as proof) =>
        r ← btc_block_number proof block_header;
        if negb (fst r =? IN3_OK) then e ← vc_err "could not get the block number"; mret (mk_hres e dst_hash dst_target (snd r))
        else mret (mk_hres IN3_OK dst_hash dst_target (snd r))
    | _ => mret (mk_hres IN3_OK dst_hash dst_target 0)
    end.

(** ** Finality *)

(** The loop from the [i]-th header at [p] on; at the start of a period the count starts again. *)
Fixpoint finality_loop (n : nat) (i finality : Z) (final_blocks : list Z) (p block_nr : Z) (target parent_hash : list Z) : M st Z :=
  if i <? finality then
    match n with
    | O => fun _ => NoFuel
    | S n' =>
        if zlen final_blocks <? u32 (p + 80) then vc_err "Not enough finality blockheaders"
        else
          h ← defined (read_z final_blocks p 80);
          new ← (if block_nr mod 2016 =? 0 then
                   tmp ← defined (btc_target_from_block h);
                   ret ← btc_new_target_check plugins target tmp;
                   mret (if ret =? IN3_OK then inr (0, tmp) else inl ret)
                 else mret (inr (i, target)));
          match new with
          | inl ret => mret ret
          | inr (i, target) =>
              prev ← defined (btc_block_get h BTC_B_PARENT_HASH);
              if negb (memcmp (rev_copy prev) parent_hash =? 0) then vc_err "wrong parent_hash in finality block"
              else
                r ← btc_verify_header h (Some target) None;
                if negb (h_ret r =? IN3_OK) then mret (h_ret r)
                else finality_loop n' (i + 1) finality final_blocks (u32 (p + 80)) (u64 (block_nr + 1)) target (h_hash r)
          end
    end
  else if p <=? zlen final_blocks then mret IN3_OK else vc_err "too many final headers".
Definition btc_check_finality (block_hash : list Z) (finality : Z) (final_blocks expected_target : list Z) (block_nr : Z) : M st Z :=
  if finality =? 0 then if zlen final_blocks =? 0 then mret IN3_OK else vc_err "got finalily headers even though they were not expected"
  else
    let finality := if block_nr <=? BIP34_START then Z.max finality (Z.quot (i32 (zlen final_blocks)) 80) else finality in
    finality_loop (S (length final_blocks)) 0 finality final_blocks 0 (block_nr + 1) expected_target block_hash.

(** ** Transactions *)
Definition string64 (t : option jval) : bool := (jtype t =? T_STRING) && (jlen t =? 64).
Definition in3_cache_add_ptr (ptr : list Z) : M st unit := upd (fun r => set_cache (in3_cache_add_entry (cache r) None (Some (take 1 ptr))) r).
Definition slice_bytes (data : list Z) (s : slice) : option (list Z) := read_z data (s_data s) (s_len s).
(** The inputs of the JSON-object, against those at [p]. *)
Fixpoint check_vins (tx_index : Z) (data : list Z) (vins : list jval) (p limit : Z) : M st Z :=
  match vins with
  | [] => mret IN3_OK
  | v :: t =>
      r ← defined (btc_parse_tx_in data p limit);
      match r with
      | None => vc_err "invalid vin"
      | Some (i, p') =>
          if negb (d_long (jget (Some v) (key "sequence")) =? ti_sequence i) then vc_err "invalid vin.sequence"
          else
            script ← defined (slice_bytes data (ti_script i));
            prev ← defined (read_z data (ti_prev_tx_hash i) 32);
            if tx_index =? 0 then
              match d_get_string (Some v) (key "coinbase") with
              | Some hex => if equals_hex script (Some hex) then check_vins tx_index data t p' limit else vc_err "invalid coinbase"
              | None => vc_err "invalid coinbase"
              end
            else if negb (equals_hex_rev prev (d_get_string (Some v) (key "txid"))) then vc_err "invalid vin.txid"
            else if negb (d_int (jget (Some v) (key "vout")) =? i32 (ti_prev_tx_index i)) then vc_err "invalid vin.vout"
            else if negb (equals_hex script (d_get_string (jget (Some v) (key "scriptSig")) (key "hex"))) then vc_err "invalid vin.hex"
            else check_vins tx_index data t p' limit
      end
  end.
(** The value of an output: decimal text in coins, or a number, compared as [double]. *)
Definition value_err (value : option jval) (v : Z) : option string :=
  match value with
  | None => Some "no value found!"
  | Some (JString l) => if parse_float_val (cstr l) 8 =? i64 v then None else Some "wrong value in txout found!"
  | Some (JInt _) | Some (JBytes _) => if round53 (round53 (d_long value) * 10 ^ 9) =? round53 v then None else Some "wrong value in txout found!"
  | Some _ => Some "wrong type of value!"
  end.
Fixpoint check_vouts (n : Z) (data : list Z) (vouts : list jval) (p limit : Z) : M st Z :=
  match vouts with
  | [] => mret IN3_OK
  | v :: t =>
      r ← defined (btc_parse_tx_out data p);
      let '(o, p') := r in
      if limit <? p' then vc_err "invalid vout"
      else if negb (d_int (jget (Some v) (key "n")) =? n) then vc_err "invalid vout.n"
      else
        script ← defined (slice_bytes data (to_script o));
        if negb (equals_hex script (d_get_string (jget (Some v) (key "scriptPubKey")) (key "hex"))) then vc_err "invalid vout.hex"
        else
          match value_err (jget (Some v) (key "value")) (to_value o) with
          | Some msg => vc_err msg
          | None => check_vouts (n + 1) data t p' limit
          end
  end.
(** The numbers of the JSON-object, and the time of the header. *)
Definition numbers_err (result : option jval) (data : list Z) (tx : btc_tx_t) (time : list Z) : option string :=
  if negb (d_int (jget result (key "version")) =? i32 (bt_version tx)) then Some "invalid version"
  else if negb (d_int (jget result (key "size")) =? i32 (zlen data)) then Some "invalid size"
  else if negb (d_int (jget result (key "vsize")) =? i32 (btc_vsize tx)) then Some "invalid vsize"
  else if negb (d_int (jget result (key "weight")) =? i32 (btc_weight tx)) then Some "invalid weight"
  else if negb (d_long (jget result (key "locktime")) =? bt_lock_time tx) then Some "invalid locktime"
  else if negb (d_eq (jget result (key "time")) (jget result (key "blocktime"))) then Some "invalid blocktime"
  else if negb (le_to_int time =? u32 (d_long (jget result (key "time")))) then Some "invalid time"
  else None.
Definition check_lists (result proof : option jval) (data : list Z) (tx : btc_tx_t) : M st Z :=
  let vin := jget result (key "vin") in
  let vout := jget result (key "vout") in
  match vin with
  | Some (JArray vins) =>
      if negb (zlen vins =? i32 (bt_input_count tx)) then vc_err "invalid vin"
      else
        e ← check_vins (u32 (d_int (jget proof K_TX_INDEX))) data vins (s_data (bt_input tx)) (s_data (bt_input tx) + s_len (bt_input tx));
        if negb (e =? IN3_OK) then mret e
        else
          match vout with
          | Some (JArray vouts) =>
              if negb (zlen vouts =? i32 (bt_output_count tx)) then vc_err "invalid vout"
              else check_vouts 0 data vouts (s_data (bt_output tx)) (s_data (bt_output tx) + s_len (bt_output tx))
          | _ => vc_err "invalid vout"
          end
  | _ => vc_err "invalid vin"
  end.
(** The transaction of the result: its parts, the expected hash of the block and [in_active_chain]. *)
Definition tx_parts : Type := btc_tx_t * list Z * bool.
Definition stop (msg : string) : M st (Z + tx_parts) := e ← vc_err msg; mret (inl e).
Definition tx_of_json (result proof : option jval) (tx_id header : list Z) (block_hash : option (list Z)) : M st (Z + tx_parts) :=
  let t := jget result (key "txid") in
  if negb (string64 t) then stop "missing or invalid txid"
  else
    hash ← defined (hex_buffer t 64 32);
    if negb (memcmp hash tx_id =? 0) then stop "wrong txid"
    else
      let t := jget result (key "hex") in
      if negb (jtype t =? T_STRING) then stop "missing hex"
      else
        data ← defined (hex_text t);
        in3_cache_add_ptr data ;;
        tx ← parse_tx data;
        match tx with
        | None => stop "invalid tx data"
        | Some tx =>
            let t := jget result (key "hash") in
            if negb (string64 t) then stop "missing or invalid hash"
            else
              hash ← defined (hex_buffer t 64 32);
              if negb (memcmp hash (btc_hash data) =? 0) then stop "wrong hash"
              else
                let t := jget result (key "blockhash") in
                if negb (string64 t) then stop "missing blockhash"
                else
                  expected ← defined (hex_buffer t 64 32);
                  if (match block_hash with Some h => negb (memcmp expected h =? 0) | None => false end) then stop "invalid blockhash"
                  else
                    let active := match block_hash with Some _ => negb (d_int (jget result (key "in_active_chain")) =? 0) | None => true end in
                    time ← defined (btc_block_get header BTC_B_TIMESTAMP);
                    match numbers_err result data tx time with
                    | Some msg => stop msg
                    | None => e ← check_lists result proof data tx; mret (if e =? IN3_OK then inr (tx, expected, active) else inl e)
                    end
        end.
Definition tx_of_hex (result : option jval) (block_hash : option (list Z)) : M st (Z + tx_parts) :=
  if negb (jtype result =? T_STRING) then stop "expected hex-data as result"
  else
    data ← defined (hex_text result);
    in3_cache_add_ptr data ;;
    tx ← parse_tx data;
    match tx with
    | None => stop "invalid tx data"
    | Some tx => mret (inr (tx, default (malloc 32) block_hash, true))
    end.
(** What [d_bytes] leaves of a token with bytes. *)
Definition bytes_of (t : option jval) : option (list Z) := match norm <$> t with Some (JBytes l) => Some l | _ => None end.
(** With [json] the index has been read before, which converts it. *)
Definition btc_verify_tx (vc : in3_vctx_t) (tx_id : list Z) (json : bool) (block_hash : option (list Z)) : M st Z :=
  let proof := vc_proof vc in
  let quit := vc_err in
  match proof with
  | None => quit "missing the proof"
  | Some _ =>
      match bytes_of (jget proof K_BLOCK) with
      | None => quit "missing or invalid blockheader!"
      | Some header =>
          if negb (zlen header =? 80) then quit "missing or invalid blockheader!"
          else
            r ← (if json then tx_of_json (vc_result vc) proof tx_id header block_hash else tx_of_hex (vc_result vc) block_hash);
            match r with
            | inl e => mret e
            | inr (tx, expected_block_hash, in_active_chain) =>
                hash ← defined (btc_tx_id tx);
                if negb (memcmp hash tx_id =? 0) then quit "invalid txid"
                else
                  match bytes_of (jget proof K_MERKLE_PROOF), (if json then norm <$> jget proof K_TX_INDEX else jget proof K_TX_INDEX) with
                  | None, _ => quit "missing merkle proof!"
                  | Some merkle_data, Some (JInt index) =>
                      root ← defined (btc_block_get header BTC_B_MERKLE_ROOT);
                      ok ← defined (btc_merkle_verify_proof root merkle_data index tx_id);
                      if negb ok then quit "merkleProof failed!"
                      else
                        let finality_headers := default [] (d_bytes (jget proof K_FINAL)) in
                        h ← btc_verify_header header None (Some proof);
                        if negb (h_ret h =? IN3_OK) then mret (h_ret h)
                        else if (json || match block_hash with Some _ => true | None => false end) && negb (memcmp expected_block_hash (h_hash h) =? 0) then quit "invalid hash of blockheader!"
                        else if negb in_active_chain then mret IN3_OK
                        else
                          finality ← gets (fun s => c_finality (client s));
                          e ← btc_check_finality (h_hash h) finality finality_headers (h_target h) (h_number h);
                          if negb (e =? IN3_OK) then mret e
                          else btc_check_target plugins max_attempts fuel (h_number h) (h_target h) finality_headers header
                  | Some _, _ => quit "missing txIndex"
                  end
            end
      end
  end.

(** ** Blocks *)
Definition btc_verify_blockcount (vc : in3_vctx_t) : M st Z := match vc_proof vc with Some _ => mret IN3_OK | None => vc_err "missing the proof" end.
(** The ids of the transactions: given by the result, or of the transactions in it.  A transaction
    that does not parse has no id: the fields of the one before would be hashed. *)
Definition json_tx_ids (verbose : Z) (tx : option jval) : option (list (list Z)) :=
  vs ← d_iter tx;
  mapM (fun v => hex_buffer (if verbose =? 1 then Some v else jget (Some v) (key "txid")) 64 32) vs.
Definition raw_tx_id (tx : list Z) : option (list Z) := match btc_parse_tx tx tt with Ok t _ => btc_tx_id t | _ => None end.
Definition json_block_err (result : option jval) (block_hash : list Z) (ids : list (list Z)) (root header_root target : list Z) : option (option string) :=
  if negb (memcmp (rev_copy root) header_root =? 0) then Some (Some "Invalid Merkle root")
  else
    let d := bytes_to_long (take 8 (drop 4 target)) 8 in
    if d =? 0 then None
    else Some (
      if negb (Z.shiftr (0xFFFF000000000000 / d) 2 =? Z.shiftr (d_long (jget result (key "difficulty"))) 2) then Some "Wrong difficulty"
      else if negb (equals_hex block_hash (d_get_string result (key "hash"))) then Some "Wrong blockhash in json"
      else if negb (d_int (jget result (key "nTx")) =? zlen ids) then Some "Wrong nTx"
      else None).
Definition check_transactions (result : option jval) (verbose : Z) (block_header block_hash : list Z) : M st Z :=
  header_root ← defined (btc_block_get block_header BTC_B_MERKLE_ROOT);
  if negb (verbose =? 0) then
    ids ← defined (json_tx_ids verbose (jget result (key "tx")));
    root ← defined (btc_merkle_create_root ids);
    target ← defined (btc_target_from_block block_header);
    err ← defined (json_block_err result block_hash ids root header_root target);
    match err with Some msg => vc_err msg | None => mret IN3_OK end
  else
    hex ← defined (d_string result);
    let n := Z.quot (zlen (cstr hex)) 2 in
    let block := snd (hex_to_bytes (Some (cstr hex)) (-1) (malloc (Z.to_nat n)) n) in
    txs ← defined (btc_get_transactions block);
    ids ← defined (mapM raw_tx_id txs);
    root ← defined (btc_merkle_create_root ids);
    header_root ← defined (btc_block_get block BTC_B_MERKLE_ROOT);
    if memcmp (rev_copy root) header_root =? 0 then mret IN3_OK else vc_err "Invalid Merkle root".
Definition check_block_json (result : option jval) (block_header finality_headers : list Z) : M st Z :=
  next ← (if zlen finality_headers =? 0 then mret true
          else h ← defined (read_z finality_headers 0 80); mret (equals_hex (btc_hash h) (d_get_string result (key "nextblockhash"))));
  if negb next then vc_err "Invalid nextblockhash"
  else if negb (i32 (le_to_int (take 4 block_header)) =? d_int (jget result (key "version"))) then vc_err "Invalid version"
  else mret IN3_OK.
Definition btc_verify_block (vc : in3_vctx_t) (block_hash : list Z) (verbose : Z) (full_block : bool) : M st Z :=
  let finality_headers := default [] (d_bytes (jget (vc_proof vc) K_FINAL)) in
  match vc_proof vc with
  | None => vc_err "missing the proof"
  | Some _ =>
      block_header ← defined (if negb (verbose =? 0) then Some (btc_serialize_block_header (vc_result vc)) else hex_buffer (vc_result vc) 160 80);
      h ← btc_verify_header block_header None (Some (vc_proof vc));
      if negb (h_ret h =? IN3_OK) then mret (h_ret h)
      else
        finality ← gets (fun s => c_finality (client s));
        e ← btc_check_finality (h_hash h) finality finality_headers (h_target h) (h_number h);
        if negb (e =? IN3_OK) then mret e
        else
          e ← btc_check_target plugins max_attempts fuel (h_number h) (h_target h) finality_headers block_header;
          if negb (e =? IN3_OK) then mret e
          else if negb (memcmp (h_hash h) block_hash =? 0) then vc_err "Invalid blockhash"
          else
            e ← (if full_block then check_transactions (vc_result vc) verbose block_header block_hash else mret IN3_OK);
            if negb (e =? IN3_OK) then mret e
            else
              if negb (verbose =? 0) then check_block_json (vc_result vc) block_header finality_headers else mret IN3_OK
  end.

(** ** Proofs of a target *)
Fixpoint check_target_proofs (l : list jval) : M st Z :=
  match l with
  | [] => mret IN3_OK
  | v :: t =>
      match v with
      | JObject _ =>
          let header := default [] (d_bytes (jget (Some v) K_BLOCK)) in
          let finality_headers := default [] (d_bytes (jget (Some v) K_FINAL)) in
          if negb (zlen header =? 80) then vc_err "invalid header"
          else
            h ← btc_verify_header header None (Some (Some v));
            if negb (h_ret h =? IN3_OK) then mret (h_ret h)
            else
              finality ← gets (fun s => c_finality (client s));
              e ← btc_check_finality (h_hash h) finality finality_headers (h_target h) (h_number h);
              if negb (e =? IN3_OK) then mret e
              else
                e ← btc_check_target plugins max_attempts fuel (h_number h) (h_target h) finality_headers header;
                if negb (e =? IN3_OK) then mret e else check_target_proofs t
      | _ => vc_err "invalid type for proof"
      end
  end.
Definition btc_verify_target_proof (vc : in3_vctx_t) (params : option jval) : M st Z :=
  conf ← conf;
  if negb (jlen params =? 5) then vc_err "must have 5 params!"
  else if negb (max_diff conf =? u64 (d_int (jget_at params 2))) then vc_err "invalid max_diff"
  else if negb (max_daps conf =? u64 (d_int (jget_at params 3))) then vc_err "invalid max_daps"
  else vs ← defined (d_iter (vc_result vc)); check_target_proofs vs.

(** ** The plugin *)
Definition require_experimental (m : M st Z) : M st Z :=
  c ← gets client;
  if Z.land (c_flags c) FLAGS_ALLOW_EXPERIMENTAL =? 0 then
    req_set_error plugins (Some (str "The feature btc is still experimental. You need to explicitly allow it in the config.")) IN3_ECONFIG
  else m.
(** [getblock] and [getblockheader] *)
Definition verify_block_request (vc : in3_vctx_t) (params : option jval) (msg : string) (full_block : bool) : M st Z :=
  let block_hash := jget_at params 0 in
  if (jlen params <? 1) || negb (jtype params =? T_ARRAY) || negb (string64 block_hash) then vc_err msg
  else
    hash ← defined (hex_buffer block_hash 64 32);
    btc_verify_block vc hash (if 1 <? jlen params then d_int (jget_at params 1) else 1) full_block.
Definition verify_tx_request (vc : in3_vctx_t) (params : option jval) : M st Z :=
  let json := if jlen params <? 2 then jtype (vc_result vc) =? T_OBJECT else negb (d_int (jget_at params 1) =? 0) in
  if negb (string64 (jget_at params 0)) then vc_err "Invalid tx_id"
  else
    tx_id ← defined (hex_buffer (jget_at params 0) 64 32);
    block_hash ← (match jget_at params 2 with Some _ as t => h ← defined (hex_buffer t 64 32); mret (Some h) | None => mret None end);
    btc_verify_tx vc tx_id json block_hash.
Definition in3_verify_btc (vc : in3_vctx_t) : M st Z :=
  if negb (ch_type (vc_chain vc) =? CHAIN_BTC) then mret IN3_EIGNORE
  else
    p ← in3_req_get_proof (vc_index vc);
    if bool_decide (p = PROOF_NONE) then mret IN3_OK
    else if jtype (vc_result vc) =? T_NULL then mret IN3_OK
    else
      btc_check_conf plugins ;;
      let params := jget (Some (vc_request vc)) K_PARAMS in
      method ← defined (vc_method vc);
      let named (name : string) := bool_decide (cstr method = str name) in
      if named "getblock" then require_experimental (verify_block_request vc params "Invalid params" true)
      else if named "getblockcount" then require_experimental (btc_verify_blockcount vc)
      else if named "getblockhash" then require_experimental (mret IN3_OK)
      else if named "getblockheader" then require_experimental (verify_block_request vc params "Invalid blockhash" false)
      else if named "btc_proofTarget" then require_experimental (btc_verify_target_proof vc params)
      else if named "getrawtransaction" then require_experimental (verify_tx_request vc params)
      else mret IN3_EIGNORE.
(** The plugin, for the action that verifies. *)
Definition btc_plugin : in3_plugin_t W := mk_plugin PLGN_ACT_RPC_VERIFY (fun _ c =>
  match c with
  | C_verify vc => r ← in3_verify_btc vc; mret (r, c)
  | _ => undef
  end).
End Verify.
