(* ===== verification/BtcFinality.v ===== *)
(** * verifier/btc: what targets and finality headers promise

    The value of a target, the bounds of a new one, and the chain of headers behind a block: the
    loop of [btc_check_finality] against a relation on lists of headers. *)
From S2P Require Import Prelude Utils Bytes Rlp Data Json JsonVal ReqState Request ReqNew Serialize Nano Btc BtcTx BtcPreBip34 BtcTarget BtcVerify.
From stdpp Require Import strings.
#[local] Open Scope Z_scope.

Lemma bytes_check l : forallb (fun x => (0 <=? x) && (x <? 256)) l = true -> bytes_ok l.
Proof. intros Hl. apply Forall_forall. intros x Hx. rewrite forallb_forall in Hl. specialize (Hl x (proj1 (list_elem_of_In _ _) Hx)). unfold is_byte. lia. Qed.

(** ** The value of a target *)
Lemma rev_replicate {A} n (x : A) : rev (replicate n x) = replicate n x.
Proof. induction n as [|n IH]; [done|]. cbn [replicate rev]. rewrite IH. by rewrite <- replicate_cons_app. Qed.
Lemma target_of_bits_val a b c e : bytes_ok [a; b; c; e] -> 3 <= e <= 32 ->
  exists t, target_of_bits [a; b; c; e] = Some t /\ length t = 32%nat /\ bytes_ok t /\ be_val t = be_val [c; b; a] * 256 ^ (e - 3).
Proof.
  intros Hok He. unfold target_of_bits. change (rd [a; b; c; e] 3) with e. rewrite (proj2 (Z.ltb_ge _ _)) by lia. cbn [take].
  rewrite memcpy_at_Some by (rewrite length_replicate; cbn; lia). cbn [mbind option_bind]. eexists. split; [done|]. cbn [length].
  assert (rev_copy (take (Z.to_nat (e - 3)) (replicate 32 0) ++ [a; b; c] ++ drop (Z.to_nat (e - 3) + 3) (replicate 32 0)) = replicate (Z.to_nat (32 - e)) 0 ++ [c; b; a] ++ replicate (Z.to_nat (e - 3)) 0) as ->.
  { unfold rev_copy. rewrite take_replicate, drop_replicate, !rev_app_distr, !rev_replicate, <- app_assoc. rewrite Nat.min_l by lia. f_equal. f_equal. lia. }
  split; [rewrite !length_app, !length_replicate; cbn; lia|]. split.
  { repeat (apply Forall_app; split); [by apply Forall_replicate| |by apply Forall_replicate]. inversion_clear Hok as [|? ? H1 Hok1]. inversion_clear Hok1 as [|? ? H2 Hok2]. inversion_clear Hok2 as [|? ? H3 Hok3]. auto. }
  rewrite be_val_zeros, be_val_app, be_val_replicate0, length_replicate. rewrite Z2Nat.id by lia. lia.
Qed.
Lemma target_of_bits_none a b c e : 0 <= e -> (e < 3 \/ 32 < e) -> target_of_bits [a; b; c; e] = None.
Proof.
  intros H0 He. unfold target_of_bits. change (rd [a; b; c; e] 3) with e. destruct (Z.ltb_spec e 3); [done|]. unfold memcpy_at. cbn [take]. rewrite length_replicate, (proj2 (Nat.leb_gt _ _)) by (cbn [length]; lia). done.
Qed.
Lemma target_of_bits_ok bits t : bytes_ok bits -> length bits = 4%nat -> target_of_bits bits = Some t -> length t = 32%nat /\ bytes_ok t.
Proof.
  intros Hok Hl E. destruct bits as [|a [|b [|c [|e [|]]]]]; try done. assert (0 <= e < 256) as He by (do 3 (inversion_clear Hok as [|? ? _ Hok']; rename Hok' into Hok); by inversion_clear Hok).
  destruct (decide (3 <= e <= 32)) as [Hr|Hr]; [|rewrite target_of_bits_none in E by lia; done].
  destruct (target_of_bits_val a b c e Hok Hr) as (t' & E' & Hl' & Hok' & _). rewrite E in E'. by injection E' as ->.
Qed.
(** The target of a header of 80 bytes is the mantissa, its bytes 72 to 74 read from the last to
    the first, times 256 to the power of byte 75 less three; for an exponent below 3 or above 32
    the three bytes are written outside of the 32 of the buffer. *)
Theorem btc_target_value h : bytes_ok h -> length h = 80%nat -> let e := rd h 75 in
  (3 <= e <= 32 -> exists t, btc_target_from_block h = Some t /\ length t = 32%nat /\ be_val t = be_val [rd h 74; rd h 73; rd h 72] * 256 ^ (e - 3))
  /\ (e < 3 \/ 32 < e -> btc_target_from_block h = None).
Proof.
  intros Hok Hl e. assert (btc_block_get h BTC_B_BITS = Some [rd h 72; rd h 73; rd h 74; rd h 75]) as E.
  { unfold btc_block_get, read_at. rewrite Hl. cbn [Nat.leb Nat.add]. do 80 (destruct h as [|? h]; [done|]). destruct h; [done|done]. }
  assert (bytes_ok [rd h 72; rd h 73; rd h 74; rd h 75]) as Hb by (repeat constructor; by apply rd_ok).
  unfold btc_target_from_block. rewrite E. cbn [mbind option_bind]. subst e. split.
  - intros He. destruct (target_of_bits_val _ _ _ _ Hb He) as (t & ? & ? & _ & ?). eauto.
  - intros He. apply target_of_bits_none; [|done]. by apply rd_ok.
Qed.
Definition header_at (bits : list Z) : list Z := replicate 72 0 ++ bits ++ replicate 4 0.
Lemma btc_target_value_witness : bytes_ok (header_at [0xff; 0xff; 0; 0x1d]) /\ exists t, btc_target_from_block (header_at [0xff; 0xff; 0; 0x1d]) = Some t /\ be_val t = 0xffff * 256 ^ 26.
Proof.
  assert (bytes_ok (header_at [0xff; 0xff; 0; 0x1d])) as Hok by (apply Forall_app; split; [by apply Forall_replicate|]; repeat constructor; lia). split; [done|].
  destruct (btc_target_value (header_at [0xff; 0xff; 0; 0x1d]) Hok eq_refl) as [Hv _]. destruct Hv as (t & E & _ & V); [vm_compute; split; congruence|]. exists t. split; [exact E|exact V].
Defined.

(** ** The bounds of a new target *)
Fixpoint mul4 (l : list Z) : list Z :=
  match l with
  | [] => []
  | x :: l' => match l' with [] => [x] | y :: _ => u8 (Z.lor (Z.shiftl x 2) (Z.shiftr y 6)) :: mul4 l' end
  end.
Lemma mul4_loop_spec : forall l x pre, mul4_loop (length l) (length pre) (pre ++ x :: l) = pre ++ mul4 (x :: l).
Proof.
  induction l as [|y l IH]; intros x pre; [done|]. cbn [length mul4_loop]. rewrite !rd_nat, !app_nth2, Nat.sub_diag by lia. replace (S (length pre) - length pre)%nat with 1%nat by lia. cbn [nth].
  rewrite insert_app_r_alt, Nat.sub_diag by lia. cbn [insert list_insert].
  specialize (IH y (pre ++ [u8 (Z.lor (Z.shiftl x 2) (Z.shiftr y 6))])). rewrite length_app, <- !app_assoc, Nat.add_1_r in IH. exact IH.
Qed.
Lemma shift_in x y : is_byte x -> is_byte y -> Z.lor (Z.shiftl x 2) (Z.shiftr y 6) = 4 * x + y / 64.
Proof. intros Hx Hy. rewrite Z.shiftl_mul_pow2, Z.shiftr_div_pow2 by lia. unfold is_byte in *. change (2 ^ 6) with 64. assert (0 <= y / 64 < 4) by (split; [apply Z.div_pos|apply Z.div_lt_upper_bound]; lia). rewrite lor_mul_add by lia. lia. Qed.
Lemma mul4_val : forall l, bytes_ok (l ++ [0]) -> be_val (mul4 (l ++ [0])) = (4 * be_val (l ++ [0])) mod 256 ^ (zlen l + 1) /\ length (mul4 (l ++ [0])) = S (length l) /\ bytes_ok (mul4 (l ++ [0])).
Proof.
  induction l as [|x l IH]; intros Hok; [cbn; repeat constructor; lia|]. inversion_clear Hok as [|? ? Hx Hok']. destruct (IH Hok') as (Hv & Hlen & Hb). clear IH.
  assert (exists y r, l ++ [0] = y :: r) as (y & r & E) by (destruct l; eauto). cbn [app mul4]. rewrite E in *. cbn [mul4] in Hv, Hlen, Hb |- *. fold (mul4 (y :: r)) in Hv, Hlen, Hb |- *.
  assert (is_byte y) as Hy by (by inversion Hok'). rewrite shift_in by done. assert (length r = length l) as Hr by (apply (f_equal length) in E; rewrite length_app in E; cbn in E; lia).
  change (match r with [] => [y] | y0 :: _ => u8 (Z.lor (Z.shiftl y 2) (Z.shiftr y0 6)) :: mul4 r end) with (mul4 (y :: r)) in *.
  cbn [length] in *. split_and!; [|lia|constructor; [by apply Z.mod_pos_bound|done]].
  rewrite !(be_val_cons x), be_val_cons, Hv, Hlen. cbn [length]. rewrite Hr. set (k := 256 ^ zlen l). replace (256 ^ (zlen l + 1)) with (256 * k) by (subst k; rewrite Z.pow_add_r by lia; lia). replace (256 ^ Z.of_nat (S (length l))) with (256 * k) by (subst k; rewrite Nat2Z.inj_succ, Z.pow_succ_r by lia; lia).
  replace (256 ^ (Z.of_nat (S (length l)) + 1)) with (256 * (256 * k)) by (subst k; rewrite Nat2Z.inj_succ, !Z.pow_add_r, Z.pow_succ_r by lia; lia).
  pose proof (be_val_bound r) as Hbr. rewrite be_val_cons, Hr. fold k. inversion_clear Hok' as [|? ? _ Hr']. specialize (Hbr Hr'). rewrite Hr in Hbr. fold k in Hbr.
  assert (0 < k) as Hk by (subst k; lia). clearbody k. set (v := be_val r) in *. unfold u8, is_byte in *. change (2 ^ 8) with 256.
  rewrite (Zmod_eq (4 * (y * k + v)) (256 * k)) by lia. assert (4 * (y * k + v) / (256 * k) = y / 64) as Hq.
  { symmetry. apply Z.div_unique with (r := 4 * (y mod 64) * k + 4 * v); [|pose proof (Z.div_mod y 64); nia]. left. pose proof (Z.mod_pos_bound y 64). nia. }
  rewrite Hq. rewrite (Zmod_eq (4 * x + y / 64) 256) by lia. rewrite (Zmod_eq (4 * (x * (256 * k) + (y * k + v))) (256 * (256 * k))) by lia.
  assert (4 * (x * (256 * k) + (y * k + v)) / (256 * (256 * k)) = (4 * x + y / 64) / 256) as ->; [|nia].
  rewrite <- Hq. replace (4 * (x * (256 * k) + (y * k + v))) with (4 * (y * k + v) + (4 * x) * (256 * k)) by nia. rewrite (Z.mul_comm 256 (256 * k)), <- Z.div_div, Z.div_add by nia. f_equal. lia.
Qed.
Lemma last_byte (l : list Z) x n : length l = S n -> rd l (Z.of_nat n) = x -> exists l', l = l' ++ [x] /\ length l' = n.
Proof.
  intros Hl <-. destruct (exists_last (l := l)) as (l' & y & ->); [by destruct l|]. rewrite length_app, Nat.add_1_r in Hl. injection Hl as <-. exists l'. split; [|done]. by rewrite rd_nat, app_nth2, Nat.sub_diag by lia.
Qed.
Definition target_at (a b c e : Z) : list Z := default [] (target_of_bits [a; b; c; e]).
(** For an old target that ends with a zero byte and is below 2^254 (every target of a header
    with an exponent from 4 to 31) the new one is refused as too high exactly when it is more than four
    times the old.  The lower bound is not a quarter of the old target: the bytes are shifted in
    place, so that all but the first take their carry from a byte that is shifted already; after
    the target 0x18021b3e of the chain an eighth is accepted, after 0x180440c4 the quarter refused. *)
Theorem new_target_bounds old new : bytes_ok old -> bytes_ok new -> length old = 32%nat -> length new = 32%nat -> rd old 31 = 0 -> be_val old < 2 ^ 254 ->
  (target_err old new = Some "new target is more than 4 times the old target" <-> 4 * be_val old < be_val new)
  /\ (4 * be_val (target_at 0x67 0x43 0 0x18) < be_val (target_at 0x3e 0x1b 0x02 0x18) /\ target_err (target_at 0x3e 0x1b 0x02 0x18) (target_at 0x67 0x43 0 0x18) = None)
  /\ (4 * be_val (target_at 0x31 0x10 0x01 0x18) = be_val (target_at 0xc4 0x40 0x04 0x18) /\ is_Some (target_err (target_at 0xc4 0x40 0x04 0x18) (target_at 0x31 0x10 0x01 0x18))).
Proof.
  intros Ho Hn Hlo Hln Hlast Hmax. split; [|split; [split; vm_compute; done|split; [vm_compute; done|eexists; vm_compute; done]]].
  assert (exists l, old = l ++ [0] /\ length l = 31%nat) as (l & -> & Hl) by (apply last_byte; [done|exact Hlast]).
  unfold target_err. assert (mul4_loop 31 0 (l ++ [0]) = mul4 (l ++ [0])) as ->.
  { destruct l as [|x l]; [done|]. cbn [length] in Hl. replace 31%nat with (length (l ++ [0])) by (rewrite length_app; cbn; lia). apply (mul4_loop_spec (l ++ [0]) x []). }
  destruct (mul4_val l Ho) as (Hv & Hlen & Hb). rewrite Hl in Hv, Hlen. rewrite Z.mod_small in Hv by (pose proof (be_val_pos _ Ho); change (256 ^ (Z.of_nat 31 + 1)) with (4 * 2 ^ 254); lia).
  rewrite (memcmp_spec (mul4 (l ++ [0])) new Hb Hn) by lia. rewrite <- Hv. split.
  - destruct (Z.ltb_spec (Z.sgn (be_val (mul4 (l ++ [0])) - be_val new)) 0) as [Hs|]; [|case_match; done]. intros _. apply Z.sgn_neg_iff in Hs. lia.
  - intros Hlt. rewrite Z.sgn_neg by lia. done.
Qed.
Lemma new_target_bounds_witness : target_err (target_at 0xff 0xff 0 0x1d) (target_at 0xff 0xff 0x03 0x1d) = Some "new target is more than 4 times the old target".
Proof. apply (new_target_bounds (target_at 0xff 0xff 0 0x1d) (target_at 0xff 0xff 0x03 0x1d)); [by apply bytes_check|by apply bytes_check|done|done|done|vm_compute; done|vm_compute; done]. Defined.

(** ** Steps that end with a value

    [yields m s Q]: if [m] ends with a value, [Q] holds of it and of the state. *)
Definition yields {S A} (m : M S A) (s : S) (Q : A -> S -> Prop) : Prop := match m s with Ok a s' => Q a s' | _ => True end.
Lemma yields_bind {S A B} (m : M S A) (k : A -> M S B) s Q : yields m s (fun a s' => yields (k a) s' Q) -> yields (m ≫= k) s Q.
Proof. unfold yields, mbind, M_bind. by destruct (m s). Qed.
Lemma yields_ret {S A} (a : A) (s : S) Q : Q a s -> yields (mret a) s Q.
Proof. done. Qed.
Lemma yields_defined {S A} (o : option A) (s : S) Q : (forall a, o = Some a -> Q a s) -> yields (defined o) s Q.
Proof. destruct o; [|done]. intros HQ. by apply HQ. Qed.
Lemma yields_gets {S A} (f : S -> A) (s : S) Q : Q (f s) s -> yields (gets f) s Q.
Proof. done. Qed.
Lemma yields_mono {S A} (m : M S A) s (Q R : A -> S -> Prop) : yields m s Q -> (forall a s', Q a s' -> R a s') -> yields m s R.
Proof. unfold yields. intros Hm HR. destruct (m s); auto. Qed.
Lemma yields_any {S A} (m : M S A) s : yields m s (fun _ _ => True).
Proof. unfold yields. by destruct (m s). Qed.
Ltac yields_step := lazymatch goal with
  | |- yields (_ ≫= _) _ _ => apply yields_bind
  | |- yields (mret _) _ _ => apply yields_ret
  | |- yields (defined _) _ _ => apply yields_defined; intros ? ?
  | |- yields (gets _) _ _ => apply yields_gets
  end.
Ltac yields_run := repeat yields_step.

Section Finality.
Context `{SourceText} `{Allocator} `{Sha256} {W : Type} `{!BtcConf W} (plugins : list (in3_plugin_t W)).
Implicit Types (s : state W).
Lemma vc_err_yields msg s : yields (vc_err plugins msg) s (fun e _ => e = IN3_EUNKNOWN).
Proof. unfold vc_err. apply yields_bind. eapply yields_mono; [apply yields_any|]. intros ? ? _. by yields_run. Qed.
(** A step that ends with the error is not one that accepts. *)
Lemma vc_err_refuses msg s (Q : Prop) s' : vc_err plugins msg s = Ok IN3_OK s' -> Q.
Proof. intros E. pose proof (vc_err_yields msg s) as Hy. unfold yields in Hy. by rewrite E in Hy. Qed.

(** ** Chains of headers

    A header behind a block: the hash of the block, the target and the work. *)
Record header_ok (parent target h : list Z) : Prop := {
  ho_length : length h = 80%nat;
  ho_parent : btc_block_get h BTC_B_PARENT_HASH = Some (rev parent);
  ho_target : btc_target_from_block h = Some target;
  ho_work : be_val (btc_hash h) <= be_val target }.
(** [n] more headers confirm a block of the number before [nr] with the hash [parent]: the target stays
    the same, except for the first block of a period, from which on [finality] are needed again. *)
Inductive confirms (finality : Z) : Z -> list Z -> list Z -> Z -> list (list Z) -> Prop :=
  | confirms_done nr target parent n : n <= 0 -> confirms finality nr target parent n []
  | confirms_next nr target parent n h hs :
      0 < n -> nr mod 2016 <> 0 -> header_ok parent target h ->
      confirms finality (nr + 1) target (btc_hash h) (n - 1) hs -> confirms finality nr target parent n (h :: hs)
  | confirms_period nr target target' parent n h hs :
      0 < n -> nr mod 2016 = 0 -> target_err target target' = None -> header_ok parent target' h ->
      confirms finality (nr + 1) target' (btc_hash h) (finality - 1) hs -> confirms finality nr target parent n (h :: hs).

Lemma header_bits h : bytes_ok h -> length h = 80%nat -> exists bits prev, btc_block_get h BTC_B_BITS = Some bits /\ bytes_ok bits /\ length bits = 4%nat /\ btc_block_get h BTC_B_PARENT_HASH = Some prev /\ length prev = 32%nat.
Proof.
  intros Hok Hl. unfold btc_block_get, read_at. rewrite Hl. cbn [Nat.leb Nat.add]. eexists _, _. split_and!; [done|by apply Forall_take, Forall_drop| |done|]; rewrite length_take, length_drop, Hl; lia.
Qed.
Lemma header_target_ok h t : bytes_ok h -> length h = 80%nat -> btc_target_from_block h = Some t -> length t = 32%nat /\ bytes_ok t.
Proof.
  intros Hok Hl E. destruct (header_bits h Hok Hl) as (bits & _ & Eb & Hb & Hl4 & _). unfold btc_target_from_block in E. rewrite Eb in E. cbn [mbind option_bind] in E. by eapply target_of_bits_ok.
Qed.
Lemma btc_hash_ok d : length (btc_hash d) = 32%nat /\ bytes_ok (btc_hash d).
Proof. unfold btc_hash, rev_copy. rewrite length_rev. split; [apply sha256d_length|apply Forall_rev, sha256d_ok]. Qed.
(** What [btc_verify_header] accepts without a proof of the number. *)
Lemma verify_header_spec h expected s : bytes_ok h -> length h = 80%nat -> length expected = 32%nat ->
  (forall t, btc_target_from_block h = Some t -> t = expected /\ be_val (btc_hash h) <= be_val t -> btc_verify_header plugins h (Some expected) None s = Ok (mk_hres IN3_OK (btc_hash h) expected 0) s)
  /\ yields (btc_verify_header plugins h (Some expected) None) s (fun r s' => h_ret r = IN3_OK -> s' = s /\ h_hash r = btc_hash h /\ btc_target_from_block h = Some expected /\ be_val (btc_hash h) <= be_val expected).
Proof.
  intros Hok Hl He. destruct (btc_hash_ok h) as [Hhl Hhb]. split.
  - intros t Et [-> Hw]. unfold btc_verify_header. rewrite (bind_defined _ _ _ _ Et). destruct (header_target_ok h expected Hok Hl Et) as [_ Htb]. rewrite memcmp_spec by (done || lia).
    rewrite (proj2 (Z.ltb_ge _ _)) by (apply Z.sgn_nonneg; lia). rewrite (proj2 (memcmp_0 expected expected eq_refl)) by done. done.
  - unfold btc_verify_header. apply yields_bind, yields_defined. intros t Et. destruct (header_target_ok h t Hok Hl Et) as [Htl Htb]. rewrite memcmp_spec by (done || lia).
    destruct (Z.ltb_spec (Z.sgn (be_val t - be_val (btc_hash h))) 0) as [|Hw]; [yields_run; eapply yields_mono; [apply vc_err_yields|]; intros e s' ->; by yields_run|].
    rewrite memcmp_eq by lia. case_bool_decide as Hte; cbn [negb]; [|yields_run; eapply yields_mono; [apply vc_err_yields|]; intros e s' ->; by yields_run]. subst t. yields_run. intros _. cbn. split_and!; try done. apply Z.sgn_nonneg in Hw. lia.
Qed.
Section Loop.
Context (finality : Z) (final : list Z).
Hypothesis Hbytes : bytes_ok final.
Hypothesis Hsmall : zlen final + 80 < 2 ^ 32.
Lemma next_header p : 0 <= p -> p + 80 <= zlen final -> exists h, read_z final p 80 = Some h /\ drop (Z.to_nat p) final = h ++ drop (Z.to_nat (p + 80)) final /\ bytes_ok h /\ length h = 80%nat.
Proof.
  intros Hp Hl. exists (take 80 (drop (Z.to_nat p) final)). unfold read_z. rewrite !(proj2 (Z.leb_le _ _)) by lia. split; [done|]. split; [|split; [by apply Forall_take, Forall_drop|rewrite length_take, length_drop; lia]].
  replace (Z.to_nat (p + 80)) with (Z.to_nat p + 80)%nat by lia. by rewrite <- drop_drop, take_drop.
Qed.
(** The loop accepts the chains of [confirms], and nothing else. *)
Lemma loop_sound : forall n i p nr target parent s, 0 <= p <= zlen final -> 0 <= nr -> nr + zlen final - p < 2 ^ 64 -> length target = 32%nat -> bytes_ok target -> length parent = 32%nat ->
  yields (finality_loop plugins n i finality final p nr target parent) s (fun e s' => e = IN3_OK -> s' = s /\ exists hs rest, drop (Z.to_nat p) final = concat hs ++ rest /\ confirms finality nr target parent (finality - i) hs).
Proof.
  assert (forall msg s Q, yields (vc_err plugins msg) s (fun e s' => e = IN3_OK -> Q s')) as Herr.
  { intros msg s Q. eapply yields_mono; [apply vc_err_yields|]. by intros e s' ->. }
  induction n as [|n IH]; intros i p nr target parent s Hp Hnr Hmax Htl Htb Hpl; cbn [finality_loop].
  - destruct (Z.ltb_spec i finality); [done|]. case_match; [|apply Herr]. yields_run. intros _. split; [done|]. exists [], (drop (Z.to_nat p) final). split; [done|]. constructor. lia.
  - destruct (Z.ltb_spec i finality); [|case_match; [|apply Herr]; yields_run; intros _; split; [done|]; exists [], (drop (Z.to_nat p) final); split; [done|]; constructor; lia].
    rewrite u32_small by lia. destruct (Z.ltb_spec (zlen final) (p + 80)); [apply Herr|]. destruct (next_header p) as (h & Eh & Ed & Hhb & Hhl); [lia|lia|]. rewrite Eh. apply yields_bind, yields_ret.
    destruct (header_bits h Hhb Hhl) as (_ & prev & _ & _ & _ & Eprev & Hprev). rewrite u64_small by lia.
    assert (forall i' target' s1, length target' = 32%nat -> bytes_ok target' -> (header_ok parent target' h -> forall hs, confirms finality (nr + 1) target' (btc_hash h) (finality - (i' + 1)) hs -> confirms finality nr target parent (finality - i) (h :: hs)) ->
      yields (prev ← defined (btc_block_get h BTC_B_PARENT_HASH); if negb (memcmp (rev_copy prev) parent =? 0) then vc_err plugins "wrong parent_hash in finality block" else
              r ← btc_verify_header plugins h (Some target') None; if negb (h_ret r =? IN3_OK) then mret (h_ret r) else finality_loop plugins n (i' + 1) finality final (p + 80) (nr + 1) target' (h_hash r)) s1
        (fun e s' => e = IN3_OK -> s' = s1 /\ exists hs rest, drop (Z.to_nat p) final = concat hs ++ rest /\ confirms finality nr target parent (finality - i) hs)) as Hnext.
    { intros i' target' s1 Htl' Htb' Hstep. apply yields_bind. rewrite Eprev. apply yields_ret. unfold rev_copy. rewrite memcmp_eq by (rewrite length_rev; lia). case_bool_decide as Hpar; cbn [negb]; [|apply Herr].
      apply yields_bind. eapply yields_mono; [by apply verify_header_spec|]. intros r s2 Hr. cbn beta in Hr. destruct (Z.eqb_spec (h_ret r) IN3_OK) as [E0|]; cbn [negb]; [|by apply yields_ret].
      destruct (Hr E0) as (-> & -> & Et & Hw). eapply yields_mono; [apply IH; [lia|lia|lia|done|done|apply btc_hash_ok]|]. intros e s3 Hi Ee. destruct (Hi Ee) as (-> & hs & rest & Edrop & Hc). split; [done|].
      exists (h :: hs), rest. cbn [concat]. rewrite <- app_assoc, <- Edrop. split; [done|]. apply Hstep; [|done]. split; try done. by rewrite Eprev, <- Hpar, rev_involutive. }
    destruct (Z.eqb_spec (nr mod 2016) 0) as [Hper|Hper].
    + apply yields_bind. apply yields_bind, yields_defined. intros t Et. destruct (header_target_ok h t Hhb Hhl Et) as [Htl' Htb']. apply yields_bind. unfold btc_new_target_check. destruct (target_err target t) as [msg|] eqn:Eerr.
      * eapply yields_mono; [apply vc_err_yields|]. intros e s' ->. by yields_run.
      * apply yields_ret, yields_ret. cbn [Z.eqb IN3_OK]. apply (Hnext 0 t s Htl' Htb'). intros Hh hs Hc. by eapply confirms_period; [lia| | | |].
    + apply yields_bind, yields_ret. apply Hnext; [done|done|]. intros Hh hs Hc. apply confirms_next; [lia|done|done|]. by replace (finality - i - 1) with (finality - (i + 1)) by lia.
Qed.
Lemma loop_complete : forall hs n i p nr target parent rest s, 0 <= p <= zlen final -> 0 <= nr -> nr + zlen final - p < 2 ^ 64 -> length target = 32%nat -> bytes_ok target -> length parent = 32%nat ->
  (length hs < n)%nat -> drop (Z.to_nat p) final = concat hs ++ rest -> confirms finality nr target parent (finality - i) hs ->
  finality_loop plugins n i finality final p nr target parent s = Ok IN3_OK s.
Proof.
  induction hs as [|h hs IH]; intros n i p nr target parent rest s Hp Hnr Hmax Htl Htb Hpl Hn Ed Hc; destruct n as [|n]; cbn [length] in Hn; try lia; cbn [finality_loop].
  - inversion Hc; subst. rewrite (proj2 (Z.ltb_ge _ _)) by lia. rewrite (proj2 (Z.leb_le _ _)) by lia. done.
  - assert (forall t, header_ok parent t h -> length h = 80%nat) as Hhl by (by intros t []). cbn [concat] in Ed. rewrite <- app_assoc in Ed.
    assert (length h = 80%nat) as Hl by (inversion Hc; subst; eauto). assert (p + 80 <= zlen final) as Hroom.
    { apply (f_equal length) in Ed. rewrite length_drop, length_app in Ed. lia. }
    destruct (next_header p) as (h' & Eh & Ed' & Hhb & _); [lia|done|]. assert (h' = h /\ drop (Z.to_nat (p + 80)) final = concat hs ++ rest) as [-> Ed2].
    { rewrite Ed' in Ed. apply app_inj_1 in Ed; [done|]. pose proof (next_header p) as (h'' & E2 & _ & _ & Hl2); [lia|done|]. rewrite E2 in Eh. injection Eh as <-. lia. }
    rewrite (proj2 (Z.ltb_lt _ _)) by (inversion Hc; subst; lia). rewrite u32_small, u64_small by lia. rewrite (proj2 (Z.ltb_ge _ _)) by lia. rewrite (bind_defined _ _ _ _ Eh).
    assert (forall i' t, header_ok parent t h -> length t = 32%nat -> bytes_ok t -> confirms finality (nr + 1) t (btc_hash h) (finality - (i' + 1)) hs ->
      (prev ← defined (btc_block_get h BTC_B_PARENT_HASH); if negb (memcmp (rev_copy prev) parent =? 0) then vc_err plugins "wrong parent_hash in finality block" else
       r ← btc_verify_header plugins h (Some t) None; if negb (h_ret r =? IN3_OK) then mret (h_ret r) else finality_loop plugins n (i' + 1) finality final (p + 80) (nr + 1) t (h_hash r)) s = Ok IN3_OK s) as Hnext.
    { intros i' t Hh Htl' Htb' Hc'. destruct Hh as [_ Hpar Ht Hw]. rewrite (bind_defined _ _ _ _ Hpar). unfold rev_copy. rewrite rev_involutive, (proj2 (memcmp_0 parent parent eq_refl)) by done. cbn [Z.eqb negb].
      rewrite (bind_ok _ _ _ _ _ (proj1 (verify_header_spec h t s Hhb Hl Htl') t Ht (conj eq_refl Hw))). cbn [h_ret h_hash]. rewrite Z.eqb_refl. cbn [negb].
      eapply IH; [lia|lia|lia|done|done|apply btc_hash_ok|lia|exact Ed2|exact Hc']. }
    inversion Hc as [|? ? ? ? ? ? Hpos Hper Hh Hc'|? ? t' ? ? ? ? Hpos Hper Eerr Hh Hc']; subst.
    + rewrite (proj2 (Z.eqb_neq _ _)) by done. erewrite (bind_ok (mret (inr (i, target)))) by reflexivity. cbn beta iota. apply Hnext; [done|done|done|]. by replace (finality - (i + 1)) with (finality - i - 1) by lia.
    + rewrite (proj2 (Z.eqb_eq _ _)) by done. pose proof (ho_target _ _ _ Hh) as Et. destruct (header_target_ok h t' Hhb Hl Et) as [Htl' Htb'].
      erewrite (bind_ok _ _ s (inr (0, t')) s); [by apply Hnext|]. rewrite (bind_defined _ _ _ _ Et). unfold btc_new_target_check. rewrite Eerr. done.
Qed.
End Loop.

(** C13. After BIP 34 [btc_check_finality] accepts exactly the data that starts with headers of 80
    bytes which confirm the block: each has the hash of the one before as its parent and a hash that
    is not above its target; the target is the expected one up to the first block of a period of
    2016, where a new target within the checked bounds takes its place and all headers are needed
    again.  Bytes behind the last of these headers are not looked at. *)
Theorem btc_finality_spec finality final block_hash target block_nr s :
  bytes_ok final -> zlen final + 80 < 2 ^ 32 -> 0 < finality -> BIP34_START < block_nr < 2 ^ 32 -> length block_hash = 32%nat -> length target = 32%nat -> bytes_ok target ->
  (exists s', btc_check_finality plugins block_hash finality final target block_nr s = Ok IN3_OK s')
  <-> exists hs rest, final = concat hs ++ rest /\ confirms finality (block_nr + 1) target block_hash finality hs.
Proof.
  intros Hb Hsmall Hf Hnr Hbl Htl Htb. unfold BIP34_START in Hnr. unfold btc_check_finality, BIP34_START. rewrite (proj2 (Z.eqb_neq _ _)), (proj2 (Z.leb_gt _ _)) by lia. split.
  - intros (s' & E). pose proof (loop_sound finality final Hb Hsmall (S (length final)) 0 0 (block_nr + 1) target block_hash s) as Hl. unfold yields in Hl. rewrite E in Hl.
    destruct Hl as (_ & hs & rest & Ed & Hc); [lia|lia|lia|done|done|done|done|]. exists hs, rest. rewrite Z.sub_0_r in Hc. done.
  - intros (hs & rest & Ed & Hc). exists s. eapply loop_complete; [done|done|lia|lia|lia|done|done|done| |exact Ed|by rewrite Z.sub_0_r].
    assert (length hs <= length (concat hs))%nat as Hlen; [|rewrite Ed, length_app; lia]. clear -Hc. induction Hc as [|nr t p n h hs Hn Hper Hh Hc IH|nr t t' p n h hs Hn Hper He Hh Hc IH]; cbn [length concat]; [lia| |]; rewrite length_app, (ho_length _ _ _ Hh); lia.
Qed.
End Finality.
#[local] Instance zero_hash : Sha256 := {| sha256d := fun _ => replicate 32 0; sha256d_length _ := eq_refl; sha256d_ok _ := ltac:(by apply bytes_check) |}.
#[local] Instance no_text : SourceText := fun _ => None.
#[local] Instance own_conf : BtcConf btc_target_conf_t := {| get_conf := id; set_conf c _ := c; get_set_conf c w := eq_refl |}.
Definition demo_state : state btc_target_conf_t := mk_state (empty_req None None 1) [] (mk_client [mk_chain CHAIN_ID_BTC CHAIN_BTC 2 None] 0 0 PROOF_STANDARD 2 0x100 1 1 0 0) (mk_conf None 20 10 20 CHAIN_ID_BTC).
(** Two headers are needed, and again from the first block of the period 114 on. *)
Lemma btc_finality_spec_witness :
  let old := [0xff; 0xff; 0; 0x1d] in let new := [0xff; 0xff; 1; 0x1d] in
  exists s', btc_check_finality [] (replicate 32 0) 2 (concat [header_at old; header_at new; header_at new] ++ [7]) (target_at 0xff 0xff 0 0x1d) (2016 * 114 - 2) demo_state = Ok IN3_OK s'.
Proof.
  intros old new. apply (btc_finality_spec [] 2); [by apply bytes_check|done|done|done|done|done|by apply bytes_check|].
  exists [header_at old; header_at new; header_at new], [7]. split; [done|].
  assert (forall e, e ∈ [0; 1] -> header_ok (replicate 32 0) (target_at 0xff 0xff e 0x1d) (header_at [0xff; 0xff; e; 0x1d])) as Hh.
  { intros e He. rewrite !elem_of_cons in He. destruct He as [-> | [-> | He]]; [split; vm_compute; congruence..|]. by apply not_elem_of_nil in He. }
  apply confirms_next; [lia|vm_compute; congruence|apply (Hh 0); decide_now|].
  apply (confirms_period _ _ _ (target_at 0xff 0xff 1 0x1d)); [lia|vm_compute; reflexivity|vm_compute; reflexivity|apply (Hh 1); decide_now|].
  apply confirms_next; [lia|vm_compute; congruence|apply (Hh 1); decide_now|]. apply confirms_done. lia.
Defined.
