(* ===== verification/BtcSafety.v ===== *)
(** * verifier/btc: what the verifier promises

    The targets a block may have, and what is known of a transaction that [btc_verify_tx] accepts. *)
From S2P Require Import Prelude Utils Bytes Rlp Data Json JsonVal ReqState Request ReqNew Serialize Nano Btc BtcMerkle BtcTx BtcPreBip34 BtcTarget BtcVerify BtcFinality.
From stdpp Require Import strings.
#[local] Open Scope Z_scope.

(** ** Known targets *)

(** The records of the configuration: the period and the four bytes of the target. *)
Fixpoint records (l : list Z) : list (Z * list Z) :=
  match l with
  | a :: b :: c :: d :: e :: f :: t => (a * 256 + b, [c; d; e; f]) :: records t
  | _ => []
  end.
Definition distance (a b : Z) : Z := Z.abs (a - b).
Lemma closest_spec : forall n l dap found dist target f t, (length l < n)%nat -> bytes_ok l -> closest l dap found dist target = Some (f, t) ->
  (f = found /\ t = target \/ exists bits, (f, bits) ∈ records l /\ target_of_bits bits = Some t /\ distance dap f < dist)
  /\ (forall g bits, (g, bits) ∈ records l -> Z.min dist (distance dap f) <= distance dap g).
Proof.
  induction n as [|n IH]; intros l dap found dist target f t Hn Hok E; [lia|].
  destruct l as [|a [|b [|c [|d [|e [|g l]]]]]]; try done; cbn [closest records length] in *.
  - injection E as <- <-. split; [by left|]. intros ? ? Hin. by apply not_elem_of_nil in Hin.
  - assert (bytes_ok l) as Hl by (do 6 (apply Forall_cons_1 in Hok as [_ Hok]); done). assert (Z.lor (Z.shiftl a 8) b = a * 256 + b) as Eab.
    { apply Forall_cons_1 in Hok as [Ha Hok]. apply Forall_cons_1 in Hok as [Hb _]. unfold is_byte in *. rewrite Z.shiftl_mul_pow2, lor_mul_add by lia. lia. }
    rewrite Eab in E. set (k := a * 256 + b) in *. assert ((if k <? dap then dap - k else k - dap) = distance dap k) as Ed by (unfold distance; destruct (Z.ltb_spec k dap); lia). rewrite Ed in E.
    destruct (Z.ltb_spec (distance dap k) dist) as [Hlt|Hge].
    + destruct (target_of_bits [c; d; e; g]) as [t'|] eqn:Et; [|done]. cbn [mbind option_bind] in E. destruct (Z.eqb_spec (distance dap k) 0) as [E0|_].
      * injection E as <- <-. split; [right; exists [c; d; e; g]; split_and!; [apply list_elem_of_here|done|done]|]. intros ? ? _. unfold distance in *. lia.
      * destruct (IH l dap k (distance dap k) t' f t ltac:(lia) Hl E) as [Hf Hmin]. split.
        -- right. destruct Hf as [[-> ->]|(bits & Hin & Eb & Hd)]; [exists [c; d; e; g]; split_and!; [apply list_elem_of_here|done|done]|]. exists bits. split_and!; [by apply list_elem_of_further|done|lia].
        -- intros h bits Hin. apply elem_of_cons in Hin as [[= -> ->]|Hin]; [|specialize (Hmin h bits Hin)]; destruct Hf as [[-> ->]|(? & ? & ? & ?)]; lia.
    + destruct (IH l dap found dist target f t ltac:(lia) Hl E) as [Hf Hmin]. split.
      * destruct Hf as [?|(bits & Hin & Eb & Hd)]; [by left|]. right. exists bits. split_and!; [by apply list_elem_of_further|done|done].
      * intros h bits Hin. apply elem_of_cons in Hin as [[= -> ->]|Hin]; [lia|]. by eapply Hmin.
Qed.
Lemma mul_target_bound percent t t' : 0 <= percent -> bytes_ok t -> mul_target percent t = Some t' -> length t' = length t /\ bytes_ok t' /\ 100 * be_val t' <= (100 + percent) * be_val t.
Proof.
  intros Hp Hok E. unfold mul_target in E. set (p := match last_nonzero 32 t with Some i => Z.of_nat i - 3 | None => 28 end) in E. clearbody p.
  destruct (read_z t p 4) as [w|] eqn:Er; [|done]. cbn [mbind option_bind] in E. unfold read_z in Er. destruct (Z.leb_spec 0 p), (Z.leb_spec (p + 4) (zlen t)); cbn [andb Z.leb Z.compare] in Er; try done. injection Er as Er.
  set (val := bytes_to_int (Some w) 4) in *. set (w' := be_bytes 4 (u32 (val + u32 (percent * val) / 100))) in *. split; [by eapply memcpy_at_length|].
  assert (t = take (Z.to_nat p) t ++ w ++ drop (Z.to_nat p + 4) t) as Et by (rewrite <- Er, <- drop_drop; by rewrite (take_drop 4), take_drop).
  assert (length w = 4%nat) as Hw by (rewrite <- Er, length_take, length_drop; lia). assert (bytes_ok w) as Hwb by (rewrite <- Er; by apply Forall_take, Forall_drop).
  assert (val = be_val w) as Ev by (subst val; replace 4 with (zlen w) by lia; apply bytes_to_int_spec; [done|lia]).
  pose proof (be_val_bound w Hwb) as Hwv. rewrite Hw in Hwv. assert (length w' = 4%nat /\ bytes_ok w' /\ 100 * be_val w' <= (100 + percent) * be_val w) as (Hw' & Hwb' & Hbound).
  { split; [apply length_be_bytes|]. split; [apply be_bytes_ok|]. subst w'. rewrite be_val_be_bytes. change (256 ^ Z.of_nat 4) with (2 ^ 32). unfold u32. rewrite Z.mod_mod by lia. rewrite Ev.
    assert (0 <= percent * be_val w) as Hpos by nia. pose proof (Z.mod_le (percent * be_val w) (2 ^ 32) Hpos ltac:(lia)). pose proof (Z.mod_pos_bound (percent * be_val w) (2 ^ 32) ltac:(lia)).
    set (x := (percent * be_val w) mod 2 ^ 32) in *. pose proof (Z.mul_div_le x 100 ltac:(lia)). pose proof (Z.div_pos x 100). pose proof (Z.mod_le (be_val w + x / 100) (2 ^ 32)). lia. }
  clearbody w'. rewrite memcpy_at_Some in E by lia. rewrite Hw' in E. injection E as <-.
  split; [apply Forall_app; split; [by apply Forall_take|]; apply Forall_app; split; [done|by apply Forall_drop]|].
  rewrite Et at 3. rewrite !be_val_app, !length_app, Hw, Hw'. set (S := drop (Z.to_nat p + 4) t). set (P := be_val (take (Z.to_nat p) t) * 256 ^ _).
  assert (0 <= P) by (subst P; pose proof (be_val_pos (take (Z.to_nat p) t) (Forall_take _ _ _ Hok)); nia). pose proof (be_val_pos S (Forall_drop _ _ _ Hok)). pose proof (pow256_pos (length S)). nia.
Qed.

Section Safety.
Context `{SourceText} `{Allocator} `{Sha256} {W : Type} `{!BtcConf W} (plugins : list (in3_plugin_t W)) (max_attempts : Z) (fuel : nat).
Implicit Types (s : state W) (vc : in3_vctx_t).

(** A block of a number may have a target: that of a known record for its period, or one that is
    not more than [max_diff] percent above the target of a record [max_daps] periods away. *)
Definition target_known (conf : btc_target_conf_t) (nr : Z) (target : list Z) : Prop := exists dap bits verified,
  (dap, bits) ∈ records (default [] (tc_data conf)) /\ target_of_bits bits = Some verified /\
  (forall d b, (d, b) ∈ records (default [] (tc_data conf)) -> distance (btc_get_dap nr) dap <= distance (btc_get_dap nr) d) /\
  (dap = btc_get_dap nr /\ target = verified \/
   0 < distance (btc_get_dap nr) dap <= max_daps conf /\ 100 * be_val target < (100 + max_diff conf) * be_val verified).
Lemma err_yields msg s (Q : Z -> state W -> Prop) : (forall s', Q IN3_EUNKNOWN s') -> yields (vc_err plugins msg) s Q.
Proof. intros HQ. eapply yields_mono; [apply vc_err_yields|]. by intros e s' ->. Qed.
Lemma set_error_yields m n s : yields (req_set_error plugins m n) s (fun e _ => e = n).
Proof.
  unfold req_set_error. generalize log_fuel. intros [|f]; cbn [set_error_intern]; destruct ((n =? IN3_WAITING) || (n =? IN3_OK)); try done; apply yields_bind; (eapply yields_mono; [apply yields_any|]); intros ? ? _; apply yields_bind; (eapply yields_mono; [apply yields_any|]); by intros.
Qed.
Lemma pending_yields s : yields (pending_proof plugins) s (fun w s' => match w with Some e => e <> IN3_OK | None => world s' = world s end).
Proof.
  unfold pending_proof, req_find_required. yields_run. destruct a as [i|]; [|by yields_run]. apply yields_bind. unfold required_state, yields at 1. destruct (in3_req_state (drop i (required s)) tt) as [q s1| | |]; [|done..].
  destruct q; yields_run; try done.
  - unfold req_remove_required, yields at 1. destruct (required s !! i) as [r|]; [by yields_run|]. apply yields_bind, err_yields. by intros; yields_run.
  - eapply yields_mono; [apply set_error_yields|]. intros e s' ->. yields_run. eapply yields_mono; [apply set_error_yields|]. intros e' s2 ->. by yields_run.
Qed.
Lemma closest_known conf nr f t : bytes_ok (default [] (tc_data conf)) -> 0 <= btc_get_dap nr < 2 ^ 31 -> btc_get_closest_target conf (btc_get_dap nr) (replicate 32 0) = Some (f, t) -> f <> 0 ->
  exists bits, (f, bits) ∈ records (default [] (tc_data conf)) /\ target_of_bits bits = Some t /\ (forall d b, (d, b) ∈ records (default [] (tc_data conf)) -> distance (btc_get_dap nr) f <= distance (btc_get_dap nr) d).
Proof.
  intros Hok Hn E Hf. unfold btc_get_closest_target in E. destruct (default [] (tc_data conf)) as [|x l]; [congruence|].
  destruct (closest_spec (S (length (x :: l))) (x :: l) _ _ _ _ _ _ (Nat.lt_succ_diag_r _) Hok E) as [[[-> _]|(bits & Hin & Et & Hd)] Hmin]; [done|]. exists bits. split_and!; [done|done|]. intros d b Hdb. specialize (Hmin d b Hdb). lia.
Qed.
Lemma records_ok : forall n l g bits, (length l < n)%nat -> bytes_ok l -> (g, bits) ∈ records l -> bytes_ok bits /\ length bits = 4%nat.
Proof.
  induction n as [|n IH]; intros l g bits Hn Hok Hin; [lia|]. destruct l as [|a [|b [|c [|d [|e [|f l]]]]]]; cbn [records length] in *; try by apply not_elem_of_nil in Hin.
  apply elem_of_cons in Hin as [[= -> ->]|Hin]; [split; [|done]; do 2 (apply Forall_cons_1 in Hok as [_ Hok]); exact (Forall_take _ 4 _ Hok)|]. eapply (IH l g bits); [lia| |done]. do 6 (apply Forall_cons_1 in Hok as [_ Hok]). done.
Qed.
(** A check that accepts and leaves no other request behind. *)
Lemma check_target_yields nr target final header s : BIP34_START <= nr < 2 ^ 32 -> length target = 32%nat -> bytes_ok target ->
  bytes_ok (default [] (tc_data (get_conf (world s)))) -> 0 <= max_diff (get_conf (world s)) < 2 ^ 32 ->
  yields (btc_check_target plugins max_attempts fuel nr target final header) s (fun e s' => e = IN3_OK -> required s' = [] -> target_known (get_conf (world s)) nr target).
Proof.
  intros Hnr Htl Htb Hdata Hdiff. unfold BIP34_START in Hnr. unfold btc_check_target. rewrite (proj2 (Z.ltb_ge _ _)) by (unfold BIP34_START; lia). apply yields_bind. eapply yields_mono; [apply pending_yields|]. intros w s1 Hw. cbn beta in Hw.
  destruct w as [e|]; [by yields_run|]. unfold conf. apply yields_bind, yields_gets. rewrite Hw. set (tc := get_conf (world s)) in *. apply yields_bind, yields_defined. intros [f t] Ec.
  assert (0 <= btc_get_dap nr < 2 ^ 31) as Hdap by (unfold btc_get_dap; split; [apply Z.div_pos|apply Z.div_lt_upper_bound]; lia).
  destruct (Z.eqb_spec f 0) as [|Hf]; [by apply err_yields|]. destruct (closest_known tc nr f t Hdata Hdap Ec Hf) as (bits & Hin & Et & Hmin). destruct (records_ok (S (length (default [] (tc_data tc)))) _ _ _ (Nat.lt_succ_diag_r _) Hdata Hin) as [Hbok Hbl].
  destruct (target_of_bits_ok bits t Hbok Hbl Et) as [Htl' Htb']. assert ((if f <? btc_get_dap nr then btc_get_dap nr - f else f - btc_get_dap nr) = distance (btc_get_dap nr) f) as -> by (unfold distance; destruct (Z.ltb_spec f (btc_get_dap nr)); lia).
  destruct (Z.eqb_spec (distance (btc_get_dap nr) f) 0) as [H00|Hne].
  { rewrite memcmp_eq by lia. case_bool_decide as Heq; [|by apply err_yields]. yields_run. intros _ _. exists f, bits, t. split_and!; [done|done|done|]. left. unfold distance in H00. split; [lia|done]. }
  apply yields_bind. apply (yields_mono _ _ (fun (near : bool) _ => near = true -> distance (btc_get_dap nr) f <= max_daps tc /\ 100 * be_val target < (100 + max_diff tc) * be_val t)).
  - destruct (Z.leb_spec (distance (btc_get_dap nr) f) (max_daps tc)); [|by apply yields_ret]. apply yields_bind, yields_defined. intros tmp Em. rewrite u32_small in Em by lia. destruct (mul_target_bound (max_diff tc) t tmp) as (Hml & Hmb & Hb); [lia|done|done|].
    apply yields_ret. intros Hlt. apply Z.ltb_lt in Hlt. rewrite memcmp_spec in Hlt by (done || lia). apply Z.sgn_pos_iff in Hlt. lia.
  - intros [|] s2 Hnear.
    + destruct (Hnear eq_refl) as [Hd Hb]. eapply yields_mono; [apply yields_any|]. intros e s' _ _ _. exists f, bits, t. split_and!; [done|done|done|]. right. unfold distance in *. lia.
    + yields_run. eapply yields_mono; [apply yields_any|]. intros ctx s3 _. yields_run. unfold req_add_required. apply yields_bind. unfold modify. cbn. unfold on_required, yields. cbn. by destruct (in3_req_execute _ _ _ _); cbn.
Qed.

(** ** Transactions *)
Lemma parse_tx_yields tx s : yields (parse_tx (W := W) tx) s (fun r s' => s' = s /\ match r with Some t => btc_parse_tx tx tt = Ok t tt | None => True end).
Proof. unfold parse_tx, yields. destruct (btc_parse_tx tx tt) as [t []| | |]; done. Qed.
Lemma check_vins_yields tx_index data vins : forall p limit s, yields (check_vins plugins tx_index data vins p limit) s (fun e s' => e = IN3_OK -> s' = s).
Proof.
  induction vins as [|v vins IH]; intros p limit s; cbn [check_vins]; [by yields_run|]. yields_run. destruct a as [[i p']|]; [|by apply err_yields].
  destruct (negb _); [by apply err_yields|]. yields_run. repeat case_match; solve [by apply err_yields|apply IH].
Qed.
Lemma check_vouts_yields data vouts : forall n p limit s, yields (check_vouts plugins n data vouts p limit) s (fun e s' => e = IN3_OK -> s' = s).
Proof.
  induction vouts as [|v vouts IH]; intros n p limit s; cbn [check_vouts]; [by yields_run|]. apply yields_bind, yields_defined. intros [o p'] _. destruct (limit <? p'); [by apply err_yields|]. destruct (negb _); [by apply err_yields|]. apply yields_bind, yields_defined. intros script _.
  destruct (negb _); [by apply err_yields|]. destruct (value_err _ _); [by apply err_yields|apply IH].
Qed.
Lemma check_lists_yields result proof data tx s : yields (check_lists plugins result proof data tx) s (fun e s' => e = IN3_OK -> s' = s).
Proof.
  unfold check_lists. destruct (jget result (key "vin")) as [[]|]; try by apply err_yields. destruct (negb _); [by apply err_yields|]. apply yields_bind. eapply yields_mono; [apply check_vins_yields|]. intros e s1 He. cbn beta in He.
  destruct (Z.eqb_spec e IN3_OK) as [Ee|Ee]; cbn [negb]; [|by yields_run]. rewrite (He Ee). destruct (jget result (key "vout")) as [[]|]; try by apply err_yields. destruct (negb _); [by apply err_yields|]. apply check_vouts_yields.
Qed.
(** The state up to the cache of the request. *)
Record same_client s s' : Prop := { sc_client : client s' = client s; sc_world : world s' = world s; sc_required : required s' = required s }.
Lemma same_client_refl s : same_client s s.
Proof. by split. Qed.
Lemma stop_yields msg s (Q : Z + tx_parts -> state W -> Prop) : (forall s', Q (inl IN3_EUNKNOWN) s') -> yields (stop plugins msg) s Q.
Proof. intros HQ. unfold stop. apply yields_bind, err_yields. intros s'. by apply yields_ret. Qed.
(** The bytes of the transaction in the result. *)
Definition tx_bytes (json : bool) vc : option (list Z) := hex_text (if json then jget (vc_result vc) (key "hex") else vc_result vc).
Definition inactive (json : bool) (block_hash : option (list Z)) vc : Prop := json = true /\ block_hash <> None /\ d_int (jget (vc_result vc) (key "in_active_chain")) = 0.
Definition parts_ok (json : bool) (block_hash : option (list Z)) vc s (r : Z + tx_parts) s' : Prop :=
  match r with
  | inl e => e <> IN3_OK
  | inr (tx, expected, active) =>
      same_client s s' /\ (exists data, tx_bytes json vc = Some data /\ btc_parse_tx data tt = Ok tx tt) /\ (active = false -> inactive json block_hash vc) /\
      (forall h, block_hash = Some h -> length h = 32%nat -> expected = h) /\ (json = true -> hex_buffer (jget (vc_result vc) (key "blockhash")) 64 32 = Some expected)
  end.
Lemma hex_buffer_length t len n l : hex_buffer t len n = Some l -> length l = n.
Proof.
  unfold hex_buffer, hex_to_bytes. intros E. destruct (d_string t) as [x|]; [|injection E as <-; apply malloc_length]. repeat case_match; try done; injection E as <-; cbn [snd]; rewrite ?hex_loop_length, ?length_insert; try apply malloc_length; simplify_eq; rewrite ?hex_loop_length, ?length_insert; apply malloc_length.
Qed.
Lemma tx_of_json_yields vc tx_id header block_hash s : yields (tx_of_json plugins (vc_result vc) (vc_proof vc) tx_id header block_hash) s (parts_ok true block_hash vc s).
Proof.
  unfold tx_of_json. destruct (negb _); [by apply stop_yields|]. yields_run. destruct (negb _); [by apply stop_yields|]. destruct (negb _); [by apply stop_yields|]. apply yields_bind, yields_defined. intros data Edata. apply yields_bind. unfold in3_cache_add_ptr, upd, modify, yields at 1.
  apply yields_bind. eapply yields_mono; [apply parse_tx_yields|]. intros tx s1 [-> Etx]. destruct tx as [tx|]; [|by apply stop_yields]. destruct (negb _); [by apply stop_yields|]. yields_run. destruct (negb _); [by apply stop_yields|]. destruct (negb _); [by apply stop_yields|].
  apply yields_bind, yields_defined. intros expected Eexp. destruct (match block_hash with Some h => _ | None => _ end) eqn:Ebh; [by apply stop_yields|]. apply yields_bind, yields_defined. intros time Etime. destruct (numbers_err _ _ _ _); [by apply stop_yields|].
  apply yields_bind. eapply yields_mono; [apply check_lists_yields|]. intros e s2 He. cbn beta in He. yields_run. destruct (Z.eqb_spec e IN3_OK) as [Ee|Ee]; [|done]. rewrite (He Ee). split; [by split|]. split; [exists data; done|]. split_and!.
  - intros Hact. destruct block_hash as [h|]; [|done]. split_and!; [done|done|]. apply negb_false_iff, Z.eqb_eq in Hact. done.
  - intros h -> Hh. apply negb_false_iff, Z.eqb_eq in Ebh. apply memcmp_0 in Ebh; [done|]. rewrite (hex_buffer_length _ _ _ _ Eexp). lia.
  - done.
Qed.
Lemma tx_of_hex_yields vc block_hash s : yields (tx_of_hex plugins (vc_result vc) block_hash) s (parts_ok false block_hash vc s).
Proof.
  unfold tx_of_hex. destruct (negb _); [by apply stop_yields|]. apply yields_bind, yields_defined. intros data Edata. apply yields_bind. unfold in3_cache_add_ptr, upd, modify, yields at 1.
  apply yields_bind. eapply yields_mono; [apply parse_tx_yields|]. intros tx s1 [-> Etx]. destruct tx as [tx|]; [|by apply stop_yields]. yields_run. split; [by split|]. split; [exists data; done|]. split_and!; [done| |done]. by intros h -> _.
Qed.
(** The number of a block from its coinbase transaction: the transaction is proven to be the first
    of the block, has one input, and the script of the input starts with the number in three bytes. *)
Definition coinbase_number (proof : option jval) (header : list Z) (nr : Z) : Prop := exists data tx id root path i p b,
  d_bytes (jget proof K_CBTX) = Some data /\ btc_parse_tx data tt = Ok tx tt /\ btc_tx_id tx = Some id /\ bt_input_count tx = 1 /\
  btc_block_get header BTC_B_MERKLE_ROOT = Some root /\ btc_merkle_verify_proof root path 0 id = Some true /\
  btc_parse_tx_in data (s_data (bt_input tx)) (s_data (bt_input tx) + s_len (bt_input tx)) = Some (Some (i, p)) /\
  read_z data (s_data (ti_script i)) 4 = Some (3 :: b) /\ nr = Z.lor (Z.lor (rd b 0) (Z.shiftl (rd b 1) 8)) (Z.shiftl (rd b 2) 16).
Lemma read_z_cons data p x b : read_z data p 1 = Some [x] -> read_z data (p + 1) 3 = Some b -> read_z data p 4 = Some (x :: b).
Proof.
  unfold read_z. intros E1 E3. destruct (Z.leb_spec 0 p), (Z.leb_spec (p + 1) (zlen data)), (Z.leb_spec 0 (p + 1)), (Z.leb_spec (p + 1 + 3) (zlen data)); cbn [andb Z.leb Z.compare] in *; try done.
  rewrite (proj2 (Z.leb_le _ _)) by lia. cbn [andb]. injection E1 as E1. injection E3 as <-. replace (Z.to_nat (p + 1)) with (Z.to_nat p + 1)%nat by lia. rewrite <- drop_drop. destruct (drop (Z.to_nat p) data) as [|y l]; [done|]. cbn in E1. injection E1 as ->. done.
Qed.
Lemma read_z_1 data p b : read_z data p 1 = Some b -> b = [rd b 0].
Proof. unfold read_z. case_match; [|done]. intros [= <-]. destruct (drop (Z.to_nat p) data) as [|x l] eqn:Ed; [|by cbn]. apply (f_equal length) in Ed. rewrite length_drop in Ed. cbn in Ed. lia. Qed.
(** The number of a block of version 1, from the node: the header at the next checkpoint, behind the block, starts with the hash in the table. *)
Definition checkpointed (final : list Z) (nr : Z) : Prop := let checkpoint := nr / PRE_BIP34_DISTANCE + 1 in
  nr <= BIP34_START /\ exists start h, read_z btc_pre_bip34 (checkpoint * 12 - 12) 12 = Some start /\
    read_z final ((checkpoint * PRE_BIP34_DISTANCE - nr - 1) * 80) 80 = Some h /\ memcmp (take 16 (btc_hash h)) (replicate 4 0 ++ start) = 0.
Definition old_header (header : list Z) : bool := (rd header 0 =? 1) && memiszero (take 3 (drop 1 header)).
Definition number_known (proof : option jval) (header : list Z) (nr : Z) : Prop :=
  if old_header header then nr = u32 (d_int (jget proof K_HEIGHT)) /\ nr <> 0 /\ checkpointed (default [] (d_bytes (jget proof K_FINAL))) nr
  else coinbase_number proof header nr.
Definition number_post (proof : option jval) (header : list Z) s (r : Z * Z) s' : Prop := fst r = IN3_OK -> s' = s /\ number_known proof header (snd r).
Lemma no_number proof header msg n s s1 : yields (e ← vc_err plugins msg; mret (e, n)) s (number_post proof header s1).
Proof. apply yields_bind, err_yields. intros s'. by yields_run. Qed.
Lemma pre_bip34_yields final n s : yields (check_pre_bip34 plugins final n) s (fun e s' => e = IN3_OK -> s' = s /\ checkpointed final n).
Proof.
  unfold check_pre_bip34. destruct (Z.ltb_spec BIP34_START n); [by apply err_yields|]. destruct (_ <=? _); [by apply err_yields|]. apply yields_bind, yields_defined. intros start Es. destruct (_ <? _); [by apply err_yields|]. apply yields_bind, yields_defined. intros h Eh. destruct (Z.eqb_spec (memcmp (take 16 (btc_hash h)) (replicate 4 0 ++ start)) 0) as [Em|]; cbn [negb]; [|by apply err_yields]. yields_run. intros _. split; [done|]. split; [done|]. by exists start, h.
Qed.
Lemma block_number_yields proof header s : yields (btc_block_number plugins proof header) s (number_post proof header s).
Proof.
  unfold btc_block_number. fold (old_header header). destruct (old_header header) eqn:Eold.
  { destruct (Z.eqb_spec (u32 (d_int (jget proof K_HEIGHT))) 0); [apply no_number|]. apply yields_bind. eapply yields_mono; [apply pre_bip34_yields|]. intros e s1 He. yields_run. intros Ee. destruct (He Ee) as [-> Hn]. split; [done|]. unfold number_known. rewrite Eold. done. }
  destruct (negb _); [apply no_number|]. destruct (_ =? 0); [apply no_number|]. destruct (zlen (default [] (d_bytes (jget proof K_CBTX))) =? 0) eqn:Ez; [apply no_number|].
  assert (exists data, d_bytes (jget proof K_CBTX) = Some data) as (data & Ed) by (destruct (d_bytes (jget proof K_CBTX)); [by eexists|done]). rewrite Ed. change (default [] (Some data)) with data. apply yields_bind. eapply yields_mono; [apply parse_tx_yields|]. intros t s1 [-> Et].
  destruct t as [tx|]; [|apply no_number]. apply yields_bind, yields_defined. intros id Eid. apply yields_bind, yields_defined. intros root Er. apply yields_bind, yields_defined. intros ok Eok. destruct ok; cbn [negb]; [|apply no_number].
  destruct (Z.eqb_spec (bt_input_count tx) 1) as [E1|]; cbn [negb]; [|apply no_number]. apply yields_bind, yields_defined. intros [[i p]|] Ei; [|apply yields_bind, yields_ret, no_number].
  yields_run. destruct (Z.eqb_spec (rd a 0) 3) as [E3|]; cbn [negb]; [|apply no_number]. yields_run. intros _. split; [done|]. unfold number_known. rewrite Eold. exists data, tx, id, root, (default [] (d_bytes (jget proof K_CBTX_PROOF))), i, p, a0. split_and!; try done.
  rewrite <- E3. apply read_z_cons; [|done]. rewrite <- (read_z_1 _ _ _ ltac:(eassumption)). done.
Qed.
Lemma header_number_yields h proof s : bytes_ok h -> length h = 80%nat ->
  yields (btc_verify_header plugins h None (Some (Some proof))) s (fun r s' => h_ret r = IN3_OK -> s' = s /\ h_hash r = btc_hash h /\ btc_target_from_block h = Some (h_target r) /\ be_val (btc_hash h) <= be_val (h_target r) /\ number_known (Some proof) h (h_number r)).
Proof.
  intros Hok Hl. destruct (btc_hash_ok h) as [Hhl Hhb]. unfold btc_verify_header. apply yields_bind, yields_defined. intros t Et. destruct (header_target_ok h t Hok Hl Et) as [Htl Htb]. rewrite memcmp_spec by (done || lia).
  destruct (Z.ltb_spec (Z.sgn (be_val t - be_val (btc_hash h))) 0) as [|Hw]; [apply yields_bind, err_yields; intros; by yields_run|]. apply yields_bind. eapply yields_mono; [apply block_number_yields|]. intros r s1 Hr. unfold number_post in Hr.
  destruct (Z.eqb_spec (fst r) IN3_OK) as [E0|]; cbn [negb]; [|apply yields_bind, err_yields; intros; by yields_run]. yields_run. intros _. cbn [h_hash h_target h_number]. destruct (Hr E0) as [-> Hc]. apply Z.sgn_nonneg in Hw. split_and!; try done. lia.
Qed.
(** The number of headers behind the block: all there are for a block before BIP 34. *)
Definition wanted (finality nr : Z) (final : list Z) : Z := if nr <=? BIP34_START then Z.max finality (Z.quot (i32 (zlen final)) 80) else finality.
Lemma check_finality_yields finality final hash target nr s : bytes_ok final -> zlen final + 80 < 2 ^ 32 -> 0 <= nr < 2 ^ 32 -> length hash = 32%nat -> length target = 32%nat -> bytes_ok target ->
  yields (btc_check_finality plugins hash finality final target nr) s (fun e s' => e = IN3_OK -> s' = s /\ (0 < finality -> exists hs rest, final = concat hs ++ rest /\ confirms (wanted finality nr final) (nr + 1) target hash (wanted finality nr final) hs)).
Proof.
  intros Hb Hsmall Hnr Hhl Htl Htb. unfold btc_check_finality. destruct (Z.eqb_spec finality 0) as [->|Hf].
  { case_match; [|by apply err_yields]. yields_run. intros _. split; [done|]. lia. }
  fold (wanted finality nr final). set (f := wanted finality nr final). eapply yields_mono; [apply (loop_sound plugins f final Hb Hsmall); [lia|lia|lia|done|done|done]|]. intros e s1 Hl Ee. destruct (Hl Ee) as (-> & hs & rest & Ed & Hc). split; [done|]. intros Hpos.
  exists hs, rest. rewrite Z.sub_0_r in Hc. done.
Qed.
Lemma btc_tx_id_hash tx id : btc_tx_id tx = Some id -> exists d, id = btc_hash d.
Proof. unfold btc_tx_id. intros E. cbv zeta in E. repeat (apply bind_Some in E as (? & _ & E)). injection E as <-. eauto. Qed.
(** The block of the transaction: the number is that of its coinbase transaction, or, for version 1, one with a
    checkpoint behind it; there are enough headers behind it, and, from BIP 34 on, a target the client knows. *)
Record block_trusted vc header target nr s s' : Prop := {
  bk_number : number_known (vc_proof vc) header nr;
  bk_final : 0 < c_finality (client s) -> exists hs rest, default [] (d_bytes (jget (vc_proof vc) K_FINAL)) = concat hs ++ rest /\ 
    let n := wanted (c_finality (client s)) nr (default [] (d_bytes (jget (vc_proof vc) K_FINAL))) in confirms n (nr + 1) target (btc_hash header) n hs;
  bk_target : BIP34_START <= nr -> required s' = [] -> target_known (get_conf (world s)) nr target }.
(** The transaction [d] is one of those with the root, if the hash has no clashes. *)
Definition tx_in_block (d root path : list Z) (index : Z) : Prop := forall txs, root_of (map sha256d txs) root -> Forall (fun tx => length tx <> 64%nat) txs ->
  length d <> 64%nat -> no_clash (d :: walk_inputs (length path) path index (sha256d d)) (tree_data txs) -> d ∈ txs.
Definition tokens_ok vc : Prop := (forall k l, bytes_of (jget (vc_proof vc) k) = Some l -> bytes_ok l) /\ bytes_ok (default [] (d_bytes (jget (vc_proof vc) K_CBTX))) /\ bytes_ok (default [] (d_bytes (jget (vc_proof vc) K_FINAL))) /\ zlen (default [] (d_bytes (jget (vc_proof vc) K_FINAL))) + 80 < 2 ^ 32.

Lemma check_target_from nr target final header s : 0 <= nr < 2 ^ 32 -> length target = 32%nat -> bytes_ok target -> bytes_ok (default [] (tc_data (get_conf (world s)))) -> 0 <= max_diff (get_conf (world s)) < 2 ^ 32 ->
  yields (btc_check_target plugins max_attempts fuel nr target final header) s (fun e s' => BIP34_START <= nr -> e = IN3_OK -> required s' = [] -> target_known (get_conf (world s)) nr target).
Proof.
  intros Hnr Htl Htb Hd Hm. destruct (decide (BIP34_START <= nr)) as [Hb|Hb]; [|eapply yields_mono; [apply yields_any|]; intros; lia]. eapply yields_mono; [apply check_target_yields; [lia|done..]|]. intros e s1 Ht _. exact Ht.
Qed.
Lemma number_bound proof header nr : bytes_ok (default [] (d_bytes (jget proof K_CBTX))) -> number_known proof header nr -> 0 <= nr < 2 ^ 32.
Proof.
  intros Hok. unfold number_known. destruct (old_header header); [intros [-> _]; apply Z.mod_pos_bound; lia|]. intros (data & tx & id & root & path & i & p & b & Ed & _ & _ & _ & _ & _ & _ & Er & ->). rewrite Ed in Hok. cbn [from_option] in Hok.
  assert (bytes_ok (3 :: b)) as [_ Hb]%Forall_cons. { unfold read_z in Er. case_match; [|done]. injection Er as <-. by apply Forall_take, Forall_drop. }
  assert (forall n, 0 <= rd b n < 256) as Hrd by (intros n; exact (rd_ok b n Hb)). pose proof (Hrd 0). pose proof (Hrd 1). pose proof (Hrd 2).
  assert (forall x y, 0 <= x < 2 ^ 32 -> 0 <= y < 2 ^ 32 -> 0 <= Z.lor x y < 2 ^ 32) as Hlor.
  { intros x y Hx Hy. split; [apply Z.lor_nonneg; lia|]. destruct (decide (Z.lor x y = 0)) as [->|Hne]; [lia|]. apply Z.log2_lt_pow2; [assert (0 <= Z.lor x y) by (apply Z.lor_nonneg; lia); lia|]. rewrite Z.log2_lor by lia.
    apply Z.max_lub_lt; [destruct (decide (x = 0)) as [->|]; [done|]; apply Z.log2_lt_pow2; lia|destruct (decide (y = 0)) as [->|]; [done|]; apply Z.log2_lt_pow2; lia]. }
  apply Hlor; [apply Hlor; [lia|]|]; rewrite Z.shiftl_mul_pow2 by lia; lia.
Qed.

(** What is known of an accepted transaction. *)
Definition tx_verified vc tx_id (json : bool) block_hash s s' : Prop := exists data tx d header root path index target nr,
  (tx_bytes json vc = Some data /\ btc_parse_tx data tt = Ok tx tt /\ btc_tx_id tx = Some tx_id /\ tx_id = btc_hash d) /\
  (bytes_of (jget (vc_proof vc) K_BLOCK) = Some header /\ length header = 80%nat /\ btc_block_get header BTC_B_MERKLE_ROOT = Some root) /\
  (bytes_of (jget (vc_proof vc) K_MERKLE_PROOF) = Some path /\ btc_merkle_verify_proof root path index tx_id = Some true) /\ tx_in_block d root path index /\
  (btc_target_from_block header = Some target /\ be_val (btc_hash header) <= be_val target /\ (forall h, block_hash = Some h -> h = btc_hash header) /\ (json = true -> hex_buffer (jget (vc_result vc) (key "blockhash")) 64 32 = Some (btc_hash header))) /\
  (inactive json block_hash vc \/ block_trusted vc header target nr s s').
(** C4. If [btc_verify_tx] accepts, the result holds a transaction with the requested id; the Merkle
    proof leads from it to the root in the header of the proof, so that without clashes of the hash
    the transaction is one of the block's; the hash of the header is not above its target and is
    the requested one, if one was asked for.  Unless the node says that the block is not in the
    active chain, which it can when a block was asked for, the number of the block is
    that of its coinbase transaction, or, for a header of version 1, a number before BIP 34 such that the header at the next
    checkpoint starts with the hash in the table; as many headers as the client asks for confirm the block (if it asks for any), and
    for blocks from BIP 34 on (when no other request is left to be answered) its target is known or close to a known one.
    The bytes of the response are bytes, its headers have less than 2^32 bytes together, and the
    configuration has values of its types.
    (Clashes aside, neither this transaction nor one of the block may have 64 bytes, like an inner node of the tree.) *)
Theorem btc_tx_authentic vc tx_id json block_hash s s' :
  tokens_ok vc -> length tx_id = 32%nat -> (forall h, block_hash = Some h -> length h = 32%nat) -> bytes_ok (default [] (tc_data (get_conf (world s)))) -> 0 <= max_diff (get_conf (world s)) < 2 ^ 32 ->
  btc_verify_tx plugins max_attempts fuel vc tx_id json block_hash s = Ok IN3_OK s' ->
  tx_verified vc tx_id json block_hash s s'.
Proof.
  intros (Htok & Hcb & Hfin & Hfinl) Hid Hbh Hdata Hdiff E. enough (yields (btc_verify_tx plugins max_attempts fuel vc tx_id json block_hash) s (fun e s' => e = IN3_OK -> tx_verified vc tx_id json block_hash s s')) as Hy by (unfold yields in Hy; rewrite E in Hy; by apply Hy).
  clear E.
  unfold btc_verify_tx. destruct (vc_proof vc) as [pr|] eqn:Epr; [|by apply err_yields]. destruct (bytes_of (jget (Some pr) K_BLOCK)) as [header|] eqn:Eh; [|by apply err_yields].
  destruct (Z.eqb_spec (zlen header) 80) as [Hl|]; cbn [negb]; [|by apply err_yields]. assert (bytes_ok header) as Hhb by eauto. assert (length header = 80%nat) as Hhl by lia.
  apply yields_bind. eapply (yields_mono _ _ (parts_ok json block_hash vc s)). { rewrite <- Epr. destruct json; [apply tx_of_json_yields|apply tx_of_hex_yields]. }
  intros [e|[[tx expected] active]] s1; [by intros ?; yields_run|]. intros ([Hcl Hwd Hrq] & (data & Edata & Etx) & Hact & Hexp & Hjs). apply yields_bind, yields_defined. intros hash Ehash.
  assert (length hash = 32%nat) as Hhash by (destruct (btc_tx_id_hash _ _ Ehash) as (d & ->); apply btc_hash_ok). rewrite memcmp_eq by lia. case_bool_decide as Heq; cbn [negb]; [|by apply err_yields]. subst hash.
  destruct (bytes_of (jget (Some pr) K_MERKLE_PROOF)) as [path|] eqn:Epath; [|by apply err_yields]. destruct (if json then norm <$> jget (Some pr) K_TX_INDEX else jget (Some pr) K_TX_INDEX) as [[| | | | |index|]|]; try by apply err_yields.
  apply yields_bind, yields_defined. intros root Eroot. apply yields_bind, yields_defined. intros ok Eok. destruct ok; cbn [negb]; [|by apply err_yields].
  apply yields_bind. eapply yields_mono; [by apply header_number_yields|]. intros r s2 Hr. cbn beta in Hr. destruct (Z.eqb_spec (h_ret r) IN3_OK) as [E0|]; cbn [negb]; [|by yields_run]. destruct (Hr E0) as (-> & Ehh & Et & Hw & Hnum). clear Hr. rewrite Ehh.
  destruct (btc_tx_id_hash _ _ Ehash) as (d & Ed). destruct (header_target_ok header _ Hhb Hhl Et) as [Htl Htb]. destruct (_ && _) eqn:Ebh; [by apply err_yields|].
  assert (forall h, block_hash = Some h -> h = btc_hash header) as Hblock.
  { intros h ->. rewrite (Hexp h eq_refl (Hbh h eq_refl)) in Ebh. rewrite orb_true_r in Ebh. cbn [andb] in Ebh. apply negb_false_iff, Z.eqb_eq, memcmp_0 in Ebh; [done|]. rewrite (Hbh h eq_refl). symmetry. apply btc_hash_ok. }
  assert (json = true -> hex_buffer (jget (vc_result vc) (key "blockhash")) 64 32 = Some (btc_hash header)) as Hjson.
  { intros ->. rewrite Hjs by done. cbn [orb andb] in Ebh. apply negb_false_iff, Z.eqb_eq, memcmp_0 in Ebh; [by rewrite Ebh|]. rewrite (hex_buffer_length _ _ _ _ (Hjs eq_refl)). symmetry. apply btc_hash_ok. }
  assert (forall s3, (inactive json block_hash vc \/ block_trusted vc header (h_target r) (h_number r) s s3) -> tx_verified vc tx_id json block_hash s s3) as Hend.
  { intros s3 Hlast. unfold tx_verified. rewrite Epr. exists data, tx, d, header, root, path, index, (h_target r), (h_number r). split_and!; try done. intros txs Hroot H64 Hd64 Hno. rewrite Ed in Eok. by eapply merkle_member. }
  destruct active; cbn [negb]; [|yields_run; intros _; apply Hend; left; auto].
  assert (0 <= h_number r < 2 ^ 32) as Hnr by (by eapply number_bound). apply yields_bind, yields_gets. apply yields_bind. eapply yields_mono; [apply check_finality_yields; [done|done|lia|apply btc_hash_ok|done|done]|].
  intros e s3 He. cbn beta in He. destruct (Z.eqb_spec e IN3_OK) as [Ee|]; cbn [negb]; [|by yields_run]. destruct (He Ee) as [-> Hconf]. eapply yields_mono; [apply (check_target_from (h_number r)); rewrite ?Hwd; [lia|done|done|done|done]|].
  intros e' s4 Ht Ee'. apply Hend. right. rewrite Hwd in Ht. rewrite Hcl in Hconf. split; [by rewrite Epr|rewrite Epr; intros Hpos; exact (Hconf Hpos)|intros Hb; exact (Ht Hb Ee')].
Qed.
End Safety.
(** ** A transaction *)
#[local] Instance zero_hash : Sha256 := {| sha256d := fun _ => replicate 32 0; sha256d_length _ := eq_refl; sha256d_ok _ := ltac:(by apply bytes_check) |}.
#[local] Instance no_text : SourceText := fun _ => None.
#[local] Instance own_conf : BtcConf btc_target_conf_t := {| get_conf := id; set_conf c _ := c; get_set_conf c w := eq_refl |}.
Definition block_nr : Z := 2016 * 114 - 2.
Definition block_header : list Z := header_at [0x94; 0xde; 0x01; 0x1a].
Definition coinbase : list Z := enc_tx (mk_txdata 1 [mk_input (replicate 32 0) 0 (3 :: le_bytes 3 block_nr) 0xffffffff] [] None 0).
Definition btc_proof : jval := JObject [(K_BLOCK, JBytes block_header); (K_MERKLE_PROOF, JBytes []); (K_TX_INDEX, JInt 1); (K_FINAL, JBytes (concat [block_header; block_header; block_header]));
  (K_CBTX, JBytes coinbase); (K_CBTX_PROOF, JBytes (replicate 32 0))].
Definition btc_vc : in3_vctx_t := mk_vctx (mk_chain CHAIN_ID_BTC CHAIN_BTC 2 None) JNull (Some (JString (snd (bytes_to_hex (enc_tx demo_tx))))) (Some btc_proof) None None 0 (Some (str "getrawtransaction")) (mk_node 0 0 0 [] []) false.
Definition btc_state : state btc_target_conf_t := mk_state (empty_req None None 1) [] (mk_client [mk_chain CHAIN_ID_BTC CHAIN_BTC 2 None] 0 0 PROOF_STANDARD 2 0x100 1 1 0 0) (mk_conf (Some BTC_TARGETS) 20 10 20 CHAIN_ID_BTC).
Lemma btc_tokens : tokens_ok btc_vc.
Proof.
  split; [|split; [apply bytes_check; by vm_compute|split; [by apply bytes_check|done]]]. intros k l. unfold bytes_of, jget, btc_vc, btc_proof. cbn [vc_proof]. destruct (find _ _) as [kv|] eqn:E; [|done]. apply find_some in E as [Hin _].
  assert (forallb (fun kv : Z * jval => match norm (snd kv) with JBytes l => forallb (fun x => (0 <=? x) && (x <? 256)) l | _ => true end) (match btc_proof with JObject kvs => kvs | _ => [] end) = true) as Hall by (vm_compute; reflexivity).
  rewrite forallb_forall in Hall. specialize (Hall kv Hin). cbn [fmap option_fmap option_map]. destruct (norm (snd kv)) eqn:En; try done. intros [= <-]. by apply bytes_check.
Qed.
Lemma btc_tx_authentic_witness : exists s', btc_verify_tx [] 5 5 btc_vc (replicate 32 0) false None btc_state = Ok IN3_OK s' /\ tx_verified btc_vc (replicate 32 0) false None btc_state s'.
Proof.
  assert (exists s', btc_verify_tx [] 5 5 btc_vc (replicate 32 0) false None btc_state = Ok IN3_OK s') as [s' E] by (eexists; vm_compute; reflexivity).
  exists s'. split; [exact E|]. eapply (btc_tx_authentic [] 5 5); [exact btc_tokens|reflexivity|discriminate|apply bytes_check; vm_compute; reflexivity|vm_compute; split; congruence|exact E].
Defined.

(** ** The request for the proof of a target *)

(** The request that [btc_check_target] sends has one parameter, a string with five numbers in it:
    whatever the answer is, [btc_verify_target_proof] refuses it. *)
Lemma proof_request_refused {W} `{!BtcConf W} (plugins : list (in3_plugin_t W)) vc s :
  (forall S (s : S), doc (parse_json (proof_request (mk_conf None 20 10 20 CHAIN_ID_BTC) 350 310)) s = Ok (Some (vc_request vc)) s) ->
  yields (btc_verify_target_proof plugins 5 5 vc (jget (Some (vc_request vc)) K_PARAMS)) s (fun e _ => e = IN3_EUNKNOWN).
Proof.
  intros E. specialize (E unit tt). assert (jlen (jget (Some (vc_request vc)) K_PARAMS) = 1) as El.
  { revert E. destruct (doc (parse_json (proof_request (mk_conf None 20 10 20 CHAIN_ID_BTC) 350 310)) tt) as [[v|] u| | |] eqn:Ed; vm_compute in Ed; try done. intros [= <-]. injection Ed as <- _. done. }
  unfold btc_verify_target_proof. unfold conf. apply yields_bind, yields_gets. rewrite El. cbn [Z.eqb Pos.eqb negb]. apply vc_err_yields.
Qed.

(** ** Blocks before BIP 34 *)

(** The table has the hash of every 200th block up to 228000, but the last two rows are not used:
    blocks from 227600 to 227835 are refused. *)
Lemma pre_bip34_rows : zlen btc_pre_bip34 = btc_pre_bip34_len /\ zlen checkpoints * PRE_BIP34_DISTANCE = 228000.
Proof. split; vm_compute; reflexivity. Qed.
Lemma pre_bip34_end {W} (plugins : list (in3_plugin_t W)) final n s : 227600 <= n <= 227835 -> yields (check_pre_bip34 plugins final n) s (fun e _ => e = IN3_EUNKNOWN).
Proof.
  intros Hn. unfold check_pre_bip34, BIP34_START, PRE_BIP34_DISTANCE, btc_pre_bip34_len. rewrite (proj2 (Z.ltb_ge _ _)) by lia. assert (1138 <= n / 200) by (apply Z.div_le_lower_bound; lia).
  rewrite (proj2 (Z.leb_le _ _)) by lia. apply vc_err_yields.
Qed.
