(* ===== verification/NodeData.v ===== *)
(** * nodeselect/full: nodes, weights and the candidates of a request

    The data of nodelist.h and the functions of nodelist.c that compute on it: the properties and the
    weight of a node, the filter that makes a node a candidate, and the choice among the candidates
    by weight ([in3_node_list_fill_weight] and the loop of [in3_node_list_pick_nodes]).

    [nodelist_length] is the length of [nodelist]; NULL is [None].  The structs are those of a 64 bit
    build with NODESELECT_DEF_WL.  The clock and the random numbers are a part of the world. *)
From S2P Require Import Prelude Utils Bytes Bitset Data Json JsonVal ReqState.
From stdpp Require Import strings.
#[local] Open Scope Z_scope.

(** ** Data (nodelist.h) *)
Definition ATTR_WHITELISTED : Z := 1.
Definition ATTR_BOOT_NODE : Z := 2.
Definition NODE_PROP_PROOF : Z := 0x1.
Definition NODE_PROP_HTTP : Z := 0x8.
Definition NODE_PROP_SIGNER : Z := 0x40.
Definition NODE_PROP_DATA : Z := 0x80.
Definition NODE_PROP_MIN_BLOCK_HEIGHT : Z := 0x400.
Definition FLAGS_AUTO_UPDATE_LIST : Z := 0x2.
Definition FLAGS_HTTP : Z := 0x10.
Definition FLAGS_NODE_LIST_NO_SIG : Z := 0x40.
Definition FLAGS_BOOT_WEIGHTS : Z := 0x80.
Definition DAY : Z := 24 * 3600.
Definition BLACKLISTTIME : Z := DAY.
Definition BLACKLISTWEIGHT : Z := 7 * DAY.

Record in3_node_t := mk_in3_node {
  n_address : list Z; n_blocked : bool; n_index : Z; n_capacity : Z; n_deposit : Z; n_props : Z; n_url : list Z; n_attrs : Z }.
Record in3_node_weight_t := mk_weight { response_count : Z; total_response_time : Z; blacklisted_until : Z }.
Record in3_whitelist_t := mk_whitelist { wl_needs_update : bool; wl_last_block : Z; wl_contract : list Z; wl_addresses : list Z }.
Record nodelist_upd8_params_t := mk_upd8 { exp_last_block : Z; upd8_timestamp : Z; upd8_node : list Z }.
(** [off_node] points into the nodelist; [nl_shared] tells whether the data is in [nodelist_registry]. *)
Record node_offline_t := mk_offline { off_node : ptr nat; off_reporter : list Z }.
Record in3_nodeselect_def_t := mk_data {
  dirty : bool; avg_block_time : Z; last_block : Z; nl_contract : list Z; registry_id : list Z;
  nodelist : option (list in3_node_t); weights : option (list in3_node_weight_t); offlines : list node_offline_t;
  whitelist : option in3_whitelist_t; nodelist_upd8_params : option nodelist_upd8_params_t;
  nl_chain_id : Z; pre_address_filter : ptr (list Z); nl_shared : bool }.
(** The configuration of a client; its chains are not shared with other clients here. *)
Record in3_nodeselect_config_t := mk_config {
  nl_chains : list in3_nodeselect_def_t; node_props : Z; min_deposit : Z; node_limit : Z; request_count : Z }.
Record in3_node_filter_t := mk_filter { f_props : Z; f_nodes : option jval; f_exclusions : list node_match_t }.

Definition all_nodes (d : in3_nodeselect_def_t) : list in3_node_t := default [] (nodelist d).
Definition all_weights (d : in3_nodeselect_def_t) : list in3_node_weight_t := default [] (weights d).
Definition set_dirty (x : bool) (d : in3_nodeselect_def_t) : in3_nodeselect_def_t :=
  mk_data x (avg_block_time d) (last_block d) (nl_contract d) (registry_id d) (nodelist d) (weights d) (offlines d) (whitelist d) (nodelist_upd8_params d) (nl_chain_id d) (pre_address_filter d) (nl_shared d).
Definition set_last_block (x : Z) (d : in3_nodeselect_def_t) : in3_nodeselect_def_t :=
  mk_data (dirty d) (avg_block_time d) x (nl_contract d) (registry_id d) (nodelist d) (weights d) (offlines d) (whitelist d) (nodelist_upd8_params d) (nl_chain_id d) (pre_address_filter d) (nl_shared d).
Definition set_nodelist (x : option (list in3_node_t)) (d : in3_nodeselect_def_t) : in3_nodeselect_def_t :=
  mk_data (dirty d) (avg_block_time d) (last_block d) (nl_contract d) (registry_id d) x (weights d) (offlines d) (whitelist d) (nodelist_upd8_params d) (nl_chain_id d) (pre_address_filter d) (nl_shared d).
Definition set_weights (x : option (list in3_node_weight_t)) (d : in3_nodeselect_def_t) : in3_nodeselect_def_t :=
  mk_data (dirty d) (avg_block_time d) (last_block d) (nl_contract d) (registry_id d) (nodelist d) x (offlines d) (whitelist d) (nodelist_upd8_params d) (nl_chain_id d) (pre_address_filter d) (nl_shared d).
Definition set_offlines (x : list node_offline_t) (d : in3_nodeselect_def_t) : in3_nodeselect_def_t :=
  mk_data (dirty d) (avg_block_time d) (last_block d) (nl_contract d) (registry_id d) (nodelist d) (weights d) x (whitelist d) (nodelist_upd8_params d) (nl_chain_id d) (pre_address_filter d) (nl_shared d).
Definition set_whitelist (x : option in3_whitelist_t) (d : in3_nodeselect_def_t) : in3_nodeselect_def_t :=
  mk_data (dirty d) (avg_block_time d) (last_block d) (nl_contract d) (registry_id d) (nodelist d) (weights d) (offlines d) x (nodelist_upd8_params d) (nl_chain_id d) (pre_address_filter d) (nl_shared d).
Definition set_upd8 (x : option nodelist_upd8_params_t) (d : in3_nodeselect_def_t) : in3_nodeselect_def_t :=
  mk_data (dirty d) (avg_block_time d) (last_block d) (nl_contract d) (registry_id d) (nodelist d) (weights d) (offlines d) (whitelist d) x (nl_chain_id d) (pre_address_filter d) (nl_shared d).
Definition set_avg_block_time (x : Z) (d : in3_nodeselect_def_t) : in3_nodeselect_def_t :=
  mk_data (dirty d) x (last_block d) (nl_contract d) (registry_id d) (nodelist d) (weights d) (offlines d) (whitelist d) (nodelist_upd8_params d) (nl_chain_id d) (pre_address_filter d) (nl_shared d).
Definition set_registry (contract id : list Z) (d : in3_nodeselect_def_t) : in3_nodeselect_def_t :=
  mk_data (dirty d) (avg_block_time d) (last_block d) contract id (nodelist d) (weights d) (offlines d) (whitelist d) (nodelist_upd8_params d) (nl_chain_id d) (pre_address_filter d) (nl_shared d).
Definition set_pre_filter (x : ptr (list Z)) (d : in3_nodeselect_def_t) : in3_nodeselect_def_t :=
  mk_data (dirty d) (avg_block_time d) (last_block d) (nl_contract d) (registry_id d) (nodelist d) (weights d) (offlines d) (whitelist d) (nodelist_upd8_params d) (nl_chain_id d) x (nl_shared d).
Definition set_attrs (x : Z) (n : in3_node_t) : in3_node_t := mk_in3_node (n_address n) (n_blocked n) (n_index n) (n_capacity n) (n_deposit n) (n_props n) (n_url n) x.
Definition set_blocked (x : bool) (n : in3_node_t) : in3_node_t := mk_in3_node (n_address n) x (n_index n) (n_capacity n) (n_deposit n) (n_props n) (n_url n) (n_attrs n).
Definition set_blacklisted_until (x : Z) (w : in3_node_weight_t) : in3_node_weight_t := mk_weight (response_count w) (total_response_time w) x.

(** ** Properties *)
Definition in3_node_props_get (np t : Z) : Z :=
  if t =? NODE_PROP_MIN_BLOCK_HEIGHT then Z.land (Z.shiftr np 32) 0xFF else if Z.land np t =? 0 then 0 else 1.
Definition in3_node_props_matches (np t : Z) : bool := negb (Z.land np t =? 0).
(** [~type] is a number of 32 bits. *)
Definition in3_node_props_set (node_props type value : Z) : Z :=
  if type =? NODE_PROP_MIN_BLOCK_HEIGHT then Z.lor (Z.land node_props 0xFFFFFFFF) (Z.shiftl value 32)
  else if negb (value =? 0) then Z.lor node_props type
  else Z.land node_props (u32 (Z.lnot type)).
Definition in3_node_props_match (np_config np : Z) : bool :=
  if negb (Z.land (Z.land np_config np) 0xFFFFFFFF =? Z.land np_config 0xFFFFFFFF) then false
  else
    let min_blk_ht_conf := in3_node_props_get np_config NODE_PROP_MIN_BLOCK_HEIGHT in
    let min_blk_ht := in3_node_props_get np NODE_PROP_MIN_BLOCK_HEIGHT in
    if negb (min_blk_ht_conf =? 0) then min_blk_ht <=? min_blk_ht_conf else true.

(** ** Weights *)
Definition udiv (a b : Z) : option Z := if b =? 0 then None else Some (a / b).
(** [capa] has 32 bits; a division by zero is undefined. *)
Definition in3_node_calculate_weight (n : in3_node_weight_t) (capa now : Z) : option Z :=
  avg ← (if (4 <? response_count n) && negb (total_response_time n =? 0)
         then udiv (total_response_time n) (response_count n)
         else udiv 10000 (u32 (Z.max capa 100 + 100)));
  let blacklist_factor :=
    if u64 (now - blacklisted_until n) <? BLACKLISTWEIGHT
    then u32 (u64 (u64 (now - blacklisted_until n) * 100) / BLACKLISTWEIGHT)
    else 100 in
  q ← udiv 0xFFFF avg;
  Some (u32 (q * blacklist_factor) / 100).

Definition to_http_url (src_url : list Z) : list Z :=
  if bool_decide (take 8 src_url = str "https://")
  then <[3%nat := 112]> (<[2%nat := 116]> (<[0%nat := 104]> (drop 1 src_url)))
  else src_url.

(** ** Candidates *)

(** The addresses of the list, read 20 bytes at a time. *)
Fixpoint address_in (n : nat) (data adr : list Z) : option bool :=
  match n with
  | O => Some false
  | S n' =>
      match data with
      | [] => Some false
      | _ => x ← read_at data 0 20; if bool_decide (x = adr) then Some true else address_in n' (drop 20 data) adr
      end
  end.
Definition in_address_list (filter adr : list Z) : option bool :=
  if zlen filter =? 0 then Some true else address_in (length filter) filter adr.
(** The addresses of the tokens, as [d_bytesl] returns them. *)
Fixpoint in_filter_nodes (vs : list jval) (adr : list Z) : option bool :=
  match vs with
  | [] => Some false
  | v :: t => b ← d_bytesl (Some v) 20; x ← read_at b 0 20; if bool_decide (x = adr) then Some true else in_filter_nodes t adr
  end.

Section Fill.
(** The flags of the client, the minimal deposit of the configuration, whether there is a whitelist. *)
Context (flags min_deposit : Z) (whitelisted : bool) (now : Z) (filter : option in3_node_filter_t) (pre_filter : option (list Z)).

(** The [continue]s of the loop: whether a node is a candidate. *)
Definition selectable (n : in3_node_t) (w : in3_node_weight_t) : option bool :=
  p ← (match pre_filter with Some f => in_address_list f (n_address n) | None => Some true end);
  if negb p then Some false
  else
    q ← (match filter ≫= f_nodes with Some v => vs ← d_iter (Some v); in_filter_nodes vs (n_address n) | None => Some true end);
    if negb q then Some false
    else if (match filter with Some f => existsb (fun e => bool_decide (nm_address e = n_address n)) (f_exclusions f) | None => false end) then Some false
    else if now <? blacklisted_until w then Some false
    else if BIT_CHECK (n_attrs n) ATTR_BOOT_NODE then Some true
    else if whitelisted && negb (BIT_CHECK (n_attrs n) ATTR_WHITELISTED) then Some false
    else if n_deposit n <? min_deposit then Some false
    else Some (match filter with Some f => in3_node_props_match (f_props f) (n_props n) | None => true end).
Definition match_url (n : in3_node_t) : list Z := if negb (Z.land flags FLAGS_HTTP =? 0) then to_http_url (n_url n) else n_url n.
(** The candidates from the [i]-th node on, the nodes with [blocked] reset, the sum of the weights. *)
Fixpoint fill_loop (i : nat) (ns : list in3_node_t) (ws : list in3_node_weight_t) (weight_sum : Z) : option (list node_match_t * list in3_node_t * Z) :=
  match ns, ws with
  | [], _ => Some ([], [], weight_sum)
  | _, [] => None
  | n :: ns', w :: ws' =>
      ok ← selectable n w;
      if (ok : bool) then
        x ← in3_node_calculate_weight w (u32 (n_capacity n)) now;
        '(found, ns2, total) ← fill_loop (S i) ns' ws' (u32 (weight_sum + x));
        Some (mk_node i weight_sum x (match_url n) (n_address n) :: found, set_blocked false n :: ns2, total)
      else
        '(found, ns2, total) ← fill_loop (S i) ns' ws' weight_sum;
        Some (found, n :: ns2, total)
  end.
Definition in3_node_list_fill_weight (ns : list in3_node_t) (ws : list in3_node_weight_t) : option (list node_match_t * list in3_node_t * Z) := fill_loop 0 ns ws 0.
End Fill.

(** ** The choice of the nodes *)
Definition find_match (found : list node_match_t) (r : Z) : option node_match_t :=
  find (fun c => (nm_s c <=? r) && (r <=? u32 (nm_s c + nm_w c))) found.
Definition with_s (s : Z) (c : node_match_t) : node_match_t := mk_node (nm_index c) s (nm_w c) (nm_url c) (nm_address c).
Fixpoint remove_match (found : list node_match_t) (current : node_match_t) : list node_match_t :=
  match found with
  | [] => []
  | c :: t => if (nm_index c =? nm_index current)%nat then map (fun y => with_s (u32 (nm_s y - nm_w current)) y) t else c :: remove_match t current
  end.

(** The clock and the random numbers ([in3_time], [in3_rand]); they do not touch the configuration. *)
Class NodeWorld (W : Type) := {
  nl_conf : W -> in3_nodeselect_config_t;
  set_nl_conf : in3_nodeselect_config_t -> W -> W;
  time_fn : W -> Z * W;
  rand_fn : W -> Z * W;
  conf_set : forall c w, nl_conf (set_nl_conf c w) = c;
  conf_time : forall w, nl_conf (time_fn w).2 = nl_conf w;
  conf_rand : forall w, nl_conf (rand_fn w).2 = nl_conf w;
}.
Definition on_world {W A} (f : W -> A * W) : M (state W) A := fun s => let '(a, w) := f (world s) in Ok a (mk_state (self s) (required s) (client s) w).
Definition in3_time {W} `{!NodeWorld W} : M (state W) Z := x ← on_world time_fn; mret (u64 x).
Definition in3_rand {W} `{!NodeWorld W} : M (state W) Z := on_world rand_fn.

(** The loop that picks [filled_len] nodes in at most [n] rounds. *)
Fixpoint pick_loop {W} `{!NodeWorld W} (n filled_len : nat) (found : list node_match_t) (total_weight : Z) (picked : list node_match_t) : M (state W) (list node_match_t) :=
  match n with
  | O => mret picked
  | S n' =>
      if (length picked <? filled_len)%nat then
        r ← (if total_weight =? 0 then mret 0 else x ← in3_rand; mret (u32 x mod total_weight));
        match find_match found r with
        | Some c => pick_loop n' filled_len (remove_match found c) (u32 (total_weight - nm_w c)) (picked ++ [c])
        | None => pick_loop n' filled_len found total_weight picked
        end
      else mret picked
  end.

(** ** The list of a chain *)
Section Data.
Context {W : Type} `{!NodeWorld W} (ci : nat).
#[local] Abbreviation st := (state W).
(** The data of the action, [w->chains[ci]]. *)
Definition nl_data : M st in3_nodeselect_def_t := fun s => match nl_chains (nl_conf (world s)) !! ci with Some d => Ok d s | None => Undef end.
Definition set_nl_chains (x : list in3_nodeselect_def_t) (c : in3_nodeselect_config_t) : in3_nodeselect_config_t := mk_config x (node_props c) (min_deposit c) (node_limit c) (request_count c).
Definition upd_data (f : in3_nodeselect_def_t -> in3_nodeselect_def_t) : M st unit :=
  modify (fun s => mk_state (self s) (required s) (client s) (set_nl_conf (set_nl_chains (alter f ci (nl_chains (nl_conf (world s)))) (nl_conf (world s))) (world s))).
Definition config : M st in3_nodeselect_config_t := gets (fun s => nl_conf (world s)).

Definition get_node_idx (d : in3_nodeselect_def_t) (index : nat) : option in3_node_t := all_nodes d !! index.
Definition get_node_weight_idx (d : in3_nodeselect_def_t) (index : nat) : option in3_node_weight_t := all_weights d !! index.
Definition get_node (d : in3_nodeselect_def_t) (node : option node_match_t) : option in3_node_t := n ← node; get_node_idx d (nm_index n).
Definition is_blacklisted (node : option in3_node_t) : bool := match node with Some n => n_blocked n | None => false end.
Definition nodelist_first_upd8 (d : in3_nodeselect_def_t) : bool := match nodelist_upd8_params d with Some p => exp_last_block p =? 0 | None => false end.
Definition nodelist_not_first_upd8 (d : in3_nodeselect_def_t) : bool := match nodelist_upd8_params d with Some p => negb (exp_last_block p =? 0) | None => false end.

(** ** Blacklisting *)
Definition block_node (index : nat) (until : Z) (d : in3_nodeselect_def_t) : in3_nodeselect_def_t :=
  set_nodelist (alter (set_blocked true) index <$> nodelist d)
    (set_weights (alter (set_blacklisted_until until) index <$> weights d)
       (set_dirty (dirty d || negb (bool_decide (blacklisted_until <$> get_node_weight_idx d index = Some until))) d)).
Definition blacklist_node (index : nat) (secs_from_now : Z) : M st Z :=
  d ← nl_data;
  let node := get_node_idx d index in
  if is_blacklisted node then mret IN3_ERPC
  else
    match node with
    | None => mret IN3_OK
    | Some _ =>
        defined (get_node_weight_idx d index) ;;
        now ← in3_time;
        upd_data (block_node index (u64 (now + secs_from_now))) ;;
        mret IN3_OK
    end.
(** The node with the address is looked up, and the one at its registry index is blacklisted. *)
Definition blacklist_node_addr (node_addr : list Z) (secs_from_now : Z) : M st Z :=
  d ← nl_data;
  match find (fun n => bool_decide (n_address n = node_addr)) (all_nodes d) with
  | Some n => blacklist_node (Z.to_nat (u32 (n_index n))) secs_from_now
  | None => mret IN3_OK
  end.
Definition blacklist_node_url (node_url : list Z) (secs_from_now : Z) : M st Z :=
  d ← nl_data;
  match find (fun n => bool_decide (n_url n = cstr node_url)) (all_nodes d) with
  | Some n => blacklist_node (Z.to_nat (u32 (n_index n))) secs_from_now
  | None => mret IN3_OK
  end.
End Data.

(** ** Tokens with a default ([d_intd], [d_longd]) and of a fixed size ([d_bytes_to]) *)
Definition d_intd (t : option jval) (def_val : Z) : Z :=
  match t with None | Some JNull | Some (JArray _) | Some (JObject _) => i32 def_val | _ => d_int t end.
Definition d_longd (t : option jval) (def_val : Z) : Z :=
  match t with Some (JInt _) | Some (JBytes _) | Some (JString _) => d_long t | _ => def_val end.
Definition d_bytes_to (t : option jval) (max : nat) : list Z := fill_left max (take max (default [] (d_bytes t))).
