(* ===== verification/NodeCache.v ===== *)
(** * nodeselect/full/cache.c: the nodelist in the cache

    Writing the nodelist, the weights and the verified hashes of the chain with the byte builder,
    reading them back, and the same for the whitelist.  Weights and hashes are stored as the structs
    lie in memory, here little endian. *)
From S2P Require Import Prelude Utils Bytes Bitset Data Json JsonVal ReqState Request Serialize Nano ReqNew NodeData.
From stdpp Require Import strings.
#[local] Open Scope Z_scope.

Definition CACHE_VERSION : Z := 7.
Definition IN3_EVERS : Z := -8.

(** ** Structs in memory *)
Definition le (n : nat) (v : Z) : list Z := rev (be_bytes n v).
Definition le_val (l : list Z) : Z := be_val (rev l).
Definition weight_bytes (w : in3_node_weight_t) : list Z := le 4 (response_count w) ++ le 4 (total_response_time w) ++ le 8 (blacklisted_until w).
Definition bytes_weight (b : list Z) : in3_node_weight_t := mk_weight (le_val (take 4 b)) (le_val (take 4 (drop 4 b))) (le_val (take 8 (drop 8 b))).
Definition hash_bytes (e : in3_verified_hash_t) : list Z := le 8 (vh_number e) ++ vh_hash e.
Definition bytes_hash (b : list Z) : in3_verified_hash_t := mk_vhash (le_val (take 8 b)) (take 32 (drop 8 b)).
(** An array of structs of [size] bytes. *)
Fixpoint structs {A} (size : nat) (f : list Z -> A) (n : nat) (b : list Z) : list A :=
  match n with O => [] | S n' => f b :: structs size f n' (drop size b) end.

(** ** Keys *)
Definition write_cache_key (chain_id : Z) (whitelist_contract : option (list Z)) : list Z :=
  str "nodelist_" ++ print_int (i32 chain_id) ++ match whitelist_contract with Some a => str "_0x" ++ bytes_to_hex_loop a | None => [] end.

(** ** Writing *)
Section Write.
Context `{Allocator}.
Definition write_node (bb : bytes_builder_t) (n : in3_node_t) : option bytes_builder_t :=
  bb ← bb_write_int bb (u32 (n_capacity n));
  bb ← bb_write_int bb (u32 (n_index n));
  bb ← bb_write_long bb (n_deposit n);
  bb ← bb_write_long bb (n_props n);
  bb ← bb_write_fixed_bytes bb (n_address n);
  bb_write_chars bb (n_url n).
Fixpoint write_nodes (bb : bytes_builder_t) (ns : list in3_node_t) : option bytes_builder_t :=
  match ns with [] => Some bb | n :: t => bb ← write_node bb n; write_nodes bb t end.
(** The entries before the first one without a number, of [n]. *)
Fixpoint count_hashes (n : nat) (t : list in3_verified_hash_t) : option nat :=
  match n, t with
  | O, _ => Some 0%nat
  | S _, [] => None
  | S n', e :: t' => if vh_number e =? 0 then Some 0%nat else S <$> count_hashes n' t'
  end.
Definition stored_hashes (max : nat) (hashes : option (list in3_verified_hash_t)) : option (list in3_verified_hash_t) :=
  match hashes with None => Some [] | Some t => n ← count_hashes max t; Some (take n t) end.
Definition nodelist_content (d : in3_nodeselect_def_t) (max : nat) (hashes : option (list in3_verified_hash_t)) : option (list Z) :=
  bb ← bb_write_byte bb_new CACHE_VERSION;
  bb ← bb_write_long bb (last_block d);
  bb ← bb_write_int bb (zlen (all_nodes d));
  bb ← (if (length (all_weights d) <? length (all_nodes d))%nat then None else bb_write_raw_bytes bb (concat (map weight_bytes (take (length (all_nodes d)) (all_weights d)))));
  bb ← write_nodes bb (all_nodes d);
  hs ← stored_hashes max hashes;
  bb ← bb_write_int bb (zlen hs);
  bb ← (match hashes with Some _ => bb_write_raw_bytes bb (concat (map hash_bytes hs)) | None => Some bb end);
  bb_bytes bb.
Definition whitelist_content (wl : in3_whitelist_t) : option (list Z) :=
  bb ← bb_write_byte bb_new CACHE_VERSION;
  bb ← bb_write_long bb (wl_last_block wl);
  bb ← bb_write_int bb (zlen (wl_addresses wl) / 20);
  bb ← bb_write_fixed_bytes bb (wl_addresses wl);
  bb_bytes bb.
End Write.

(** ** Reading *)
Fixpoint read_nodes (n : nat) (b : list Z) (pos : nat) : option (list in3_node_t * nat) :=
  match n with
  | O => Some ([], pos)
  | S n' =>
      '(capacity, pos) ← b_read_int b pos;
      '(index, pos) ← b_read_int b pos;
      '(deposit, pos) ← b_read_long b pos;
      '(props, pos) ← b_read_long b pos;
      address ← read_at b pos 20;
      '(url, pos) ← b_new_chars b (pos + 20);
      '(ns, pos) ← read_nodes n' b pos;
      Some (mk_in3_node address false index capacity deposit props url 0 :: ns, pos)
  end.
(** What is behind the version: the last block, the weights, the nodes, the hashes that are copied.
    A negative number of nodes cannot be allocated. *)
Definition read_nodelist (max : nat) (b : list Z) (pos : nat) : option (Z * list in3_node_weight_t * list in3_node_t * option (list in3_verified_hash_t)) :=
  '(last, pos) ← b_read_long b pos;
  '(count, pos) ← b_read_int b pos;
  if i32 count <? 0 then None
  else
    let n := Z.to_nat count in
    ws ← read_at b pos (n * 16);
    '(ns, pos) ← read_nodes n b (pos + n * 16);
    '(hashes, pos) ← b_read_int b pos;
    if hashes =? 0 then Some (last, structs 16 bytes_weight n ws, ns, None)
    else
      let k := Nat.min (Z.to_nat hashes) max in
      hs ← read_at b pos (k * 40);
      Some (last, structs 16 bytes_weight n ws, ns, Some (structs 40 bytes_hash k hs)).
(** The hashes copied over the table of the chain, which is allocated if there is none. *)
Definition restore_hashes (max : nat) (old hs : option (list in3_verified_hash_t)) : option (option (list in3_verified_hash_t)) :=
  match hs with
  | Some hs =>
      let t := default (replicate max no_hash) old in
      if (length t <? length hs)%nat then None else Some (Some (hs ++ drop (length hs) t))
  | None => Some old
  end.

(** ** The cache of a client *)
Section Cache.
Context `{Allocator} {W : Type} `{!NodeWorld W} (plugins : list (in3_plugin_t W)) (ci : nat).
#[local] Abbreviation st := (state W).
#[local] Abbreviation data := (nl_data ci).
#[local] Abbreviation upd_data := (upd_data ci).
Definition main_chain (c : in3_t) : option in3_chain_t := head (chains c).
Definition set_main_hashes (t : option (list in3_verified_hash_t)) (c : in3_t) : in3_t :=
  match chains c with
  | ch :: rest => set_chains (mk_chain (ch_id ch) (ch_type ch) (ch_version ch) t :: rest) c
  | [] => c
  end.
Definition in3_cache_store_nodelist : M st Z :=
  d ← data;
  if negb (in3_plugin_is_registered plugins PLGN_ACT_CACHE_SET) || negb (dirty d) then mret IN3_OK
  else
    c ← gets client;
    ch ← defined (main_chain c);
    content ← defined (nodelist_content d (max_verified_hashes c) (verified_hashes ch));
    in3_plugin_execute_all plugins PLGN_ACT_CACHE_SET (C_cache (write_cache_key (ch_id ch) (Some (nl_contract d))) (Some content)) ;;
    upd_data (set_dirty false) ;;
    mret IN3_OK.
(** The list is replaced; pointers into the old one dangle. *)
Definition replace_nodes (ns : list in3_node_t) (ws : list in3_node_weight_t) (d : in3_nodeselect_def_t) : in3_nodeselect_def_t :=
  set_offlines (map (fun o => mk_offline Freed (off_reporter o)) (offlines d)) (set_weights (Some ws) (set_nodelist (Some ns) d)).
Definition in3_cache_update_nodelist : M st Z :=
  if negb (in3_plugin_is_registered plugins PLGN_ACT_CACHE_GET) then mret IN3_OK
  else
    d ← data;
    c ← gets client;
    ch ← defined (main_chain c);
    r ← in3_plugin_execute_all plugins PLGN_ACT_CACHE_GET (C_cache (write_cache_key (ch_id ch) (Some (nl_contract d))) None);
    match r.2 with
    | C_cache _ (Some content) =>
        let b := map u8 content in
        vp ← defined (b_read_byte b 0);
        if negb (vp.1 =? CACHE_VERSION) then mret IN3_EVERS
        else
          c ← gets client;
          ch ← defined (main_chain c);
          x ← defined (read_nodelist (max_verified_hashes c) b vp.2);
          let '(last, ws, ns, hs) := x in
          upd_data (fun d => set_upd8 None (set_last_block last (replace_nodes ns ws d))) ;;
          t ← defined (restore_hashes (max_verified_hashes c) (verified_hashes ch) hs);
          modify (fun s => mk_state (self s) (required s) (set_main_hashes t (client s)) (world s)) ;;
          upd_data (set_dirty false) ;;
          mret IN3_OK
    | _ => mret IN3_OK
    end.
Definition in3_cache_store_whitelist : M st Z :=
  d ← data;
  match whitelist d with
  | Some wl =>
      if in3_plugin_is_registered plugins PLGN_ACT_CACHE_SET then
        content ← defined (whitelist_content wl);
        id ← gets (fun s => default 0 (ch_id <$> main_chain (client s)));
        on_new (empty_req None None 0) (in3_plugin_execute_first_or_none plugins PLGN_ACT_CACHE_SET (C_cache (write_cache_key id (Some (wl_contract wl))) (Some content))) ;;
        mret IN3_OK
      else mret IN3_OK
  | None => mret IN3_OK
  end.
Definition in3_cache_update_whitelist : M st Z :=
  d ← data;
  match whitelist d with
  | Some wl =>
      if in3_plugin_is_registered plugins PLGN_ACT_CACHE_SET then
        id ← gets (fun s => default 0 (ch_id <$> main_chain (client s)));
        r ← in3_plugin_execute_all plugins PLGN_ACT_CACHE_GET (C_cache (write_cache_key id (Some (wl_contract wl))) None);
        match r.2 with
        | C_cache _ (Some content) =>
            let b := map u8 content in
            vp ← defined (b_read_byte b 0);
            if negb (vp.1 =? CACHE_VERSION) then mret IN3_EVERS
            else
              lp ← defined (b_read_long b vp.2);
              np ← defined (b_read_int b lp.2);
              a ← defined (read_at b np.2 (Z.to_nat (u32 (np.1 * 20))));
              upd_data (set_whitelist (Some (mk_whitelist (wl_needs_update wl) lp.1 (wl_contract wl) a))) ;;
              mret IN3_OK
        | _ => mret IN3_OK
        end
      else mret IN3_OK
  | None => mret IN3_OK
  end.
End Cache.

(** ** What is written is read back *)
Lemma le_val_le n v : 0 <= v < 256 ^ Z.of_nat n -> le_val (le n v) = v.
Proof. intros Hv. unfold le_val, le. rewrite rev_involutive, be_val_be_bytes. by apply Z.mod_small. Qed.
Lemma length_le n v : length (le n v) = n.
Proof. unfold le. by rewrite length_rev, length_be_bytes. Qed.
Definition weight_ok (w : in3_node_weight_t) : Prop := 0 <= response_count w < 2 ^ 32 /\ 0 <= total_response_time w < 2 ^ 32 /\ 0 <= blacklisted_until w < 2 ^ 64.
Definition hash_ok (e : in3_verified_hash_t) : Prop := 0 <= vh_number e < 2 ^ 64 /\ length (vh_hash e) = 32%nat.
Lemma length_weight_bytes w : length (weight_bytes w) = 16%nat.
Proof. unfold weight_bytes. by rewrite !length_app, !length_le. Qed.
Lemma length_hash_bytes e : hash_ok e -> length (hash_bytes e) = 40%nat.
Proof. intros [_ Hh]. unfold hash_bytes. by rewrite !length_app, !length_le, Hh. Qed.
Lemma weight_bytes_back w rest : weight_ok w -> bytes_weight (weight_bytes w ++ rest) = w.
Proof.
  intros (H1 & H2 & H3). unfold bytes_weight, weight_bytes. rewrite <- !app_assoc.
  rewrite (drop_app_length' (le 4 _)) by (by rewrite length_le). rewrite !take_app_length' by (by rewrite length_le).
  change 8%nat with (4 + 4)%nat at 2. rewrite <- drop_drop, !drop_app_length' by (by rewrite length_le). rewrite take_app_length' by (by rewrite length_le).
  rewrite !le_val_le by done. by destruct w.
Qed.
Lemma hash_bytes_back e rest : hash_ok e -> bytes_hash (hash_bytes e ++ rest) = e.
Proof.
  intros (H1 & H2). unfold bytes_hash, hash_bytes. rewrite <- !app_assoc.
  rewrite drop_app_length' by (by rewrite length_le). rewrite !take_app_length' by (by rewrite ?length_le). rewrite le_val_le by done. by destruct e.
Qed.
(** An array of structs that was stored is read back. *)
Lemma structs_back {A} size (enc : A -> list Z) (dec : list Z -> A) (ok : A -> Prop) l :
  (forall a, ok a -> length (enc a) = size) -> (forall a rest, ok a -> dec (enc a ++ rest) = a) -> Forall ok l ->
  structs size dec (length l) (concat (map enc l)) = l.
Proof.
  intros Hl Hd. induction 1 as [|a l Ha _ IH]; [done|]. simpl. rewrite Hd by done. f_equal. by rewrite drop_app_length' by (by rewrite Hl).
Qed.
Lemma length_structs {A} size (enc : A -> list Z) (ok : A -> Prop) l :
  (forall a, ok a -> length (enc a) = size) -> Forall ok l -> length (concat (map enc l)) = (length l * size)%nat.
Proof. intros Hl. induction 1 as [|a l Ha _ IH]; [done|]. simpl. rewrite length_app, Hl, IH by done. lia. Qed.

(** A node as it is restored: neither blocked nor with attributes. *)
Definition cached_node (n : in3_node_t) : in3_node_t := set_attrs 0 (set_blocked false n).
Definition node_ok (n : in3_node_t) : Prop :=
  0 <= n_capacity n < 2 ^ 32 /\ 0 <= n_index n < 2 ^ 32 /\ 0 <= n_deposit n < 2 ^ 64 /\ 0 <= n_props n < 2 ^ 64 /\ length (n_address n) = 20%nat /\ Forall (fun c => c <> 0) (n_url n).
Definition node_bytes (n : in3_node_t) : list Z :=
  be_bytes 4 (n_capacity n) ++ be_bytes 4 (n_index n) ++ be_bytes 8 (n_deposit n) ++ be_bytes 8 (n_props n) ++ n_address n ++ n_url n ++ [0].
Lemma zlen_node_bytes n : node_ok n -> zlen (node_bytes n) = 45 + zlen (n_url n).
Proof. intros (_ & _ & _ & _ & Ha & _). unfold node_bytes. rewrite !length_app, !length_be_bytes, Ha. simpl. lia. Qed.

Lemma and_then {A B} (m : option A) (k : A -> option B) (P : A -> Prop) (Q : B -> Prop) :
  (exists a, m = Some a /\ P a) -> (forall a, P a -> exists b, k a = Some b /\ Q b) -> exists b, m ≫= k = Some b /\ Q b.
Proof. intros (a & -> & Ha) Hk. simpl. by apply Hk. Qed.
(** The next write of a sequence. *)
Ltac next_write L := eapply and_then; [apply L; [eassumption|rewrite ?length_app, ?length_be_bytes in *; cbn [length] in *; lia]|intros ? ?; cbn beta in *].

Section Roundtrip.
Context `{Allocator}.
Lemma write_node_rep bb c n : bb_rep bb c -> node_ok n -> zlen c + zlen (node_bytes n) < 2 ^ 32 ->
  exists bb', write_node bb n = Some bb' /\ bb_rep bb' (c ++ node_bytes n).
Proof.
  intros Hrep Hn Hlen. rewrite zlen_node_bytes in Hlen by done. destruct Hn as (Hc & Hi & _ & _ & Ha & _). unfold write_node. rewrite !u32_small by done.
  next_write bb_write_int_rep. next_write bb_write_int_rep. next_write bb_write_long_rep. next_write bb_write_long_rep. next_write bb_write_fixed_bytes_rep.
  unfold node_bytes. rewrite !app_assoc, <- (app_assoc _ (n_url n)). apply bb_write_chars_rep; [done|]. rewrite !length_app, !length_be_bytes. lia.
Qed.
Lemma write_nodes_rep ns : forall bb c, bb_rep bb c -> Forall node_ok ns -> zlen c + zlen (concat (map node_bytes ns)) < 2 ^ 32 ->
  exists bb', write_nodes bb ns = Some bb' /\ bb_rep bb' (c ++ concat (map node_bytes ns)).
Proof.
  induction ns as [|n ns IH]; intros bb c Hrep Hn Hlen; cbn [write_nodes].
  - exists bb. by rewrite app_nil_r.
  - inversion_clear Hn as [|? ? Hn1 Hns]. cbn [map concat] in Hlen |- *. rewrite length_app in Hlen.
    eapply and_then; [apply write_node_rep; [done|done|lia]|]. intros bb' Hrep'. rewrite app_assoc. apply IH; [done|done|]. rewrite length_app. lia.
Qed.
End Roundtrip.

(** Reading at a position of a block that goes on with [x]. *)
Lemma split_block_at (b x : list Z) pos : drop pos b = x -> x <> [] -> exists c, b = c ++ x /\ length c = pos.
Proof. intros E Hx. exists (take pos b). rewrite <- E, take_drop. split; [done|]. rewrite length_take. destruct (le_lt_dec (length b) pos); [|lia]. by rewrite drop_ge in E. Qed.
Lemma drop_tail (b x rest : list Z) pos : drop pos b = x ++ rest -> drop (pos + length x) b = rest.
Proof. intros E. rewrite <- drop_drop, E. apply drop_app_length. Qed.
Lemma int_at b pos v rest : drop pos b = be_bytes 4 v ++ rest -> 0 <= v < 2 ^ 32 -> b_read_int b pos = Some (v, (pos + 4)%nat) /\ drop (pos + 4) b = rest.
Proof. intros E Hv. split; [|by apply drop_tail in E]. destruct (split_block_at _ _ _ E) as (c & -> & <-); [done|]. by apply b_read_int_at. Qed.
Lemma long_at b pos v rest : drop pos b = be_bytes 8 v ++ rest -> 0 <= v < 2 ^ 64 -> b_read_long b pos = Some (v, (pos + 8)%nat) /\ drop (pos + 8) b = rest.
Proof. intros E Hv. split; [|by apply drop_tail in E]. destruct (split_block_at _ _ _ E) as (c & -> & <-); [done|]. by apply b_read_long_at. Qed.
Lemma block_at b pos x rest : drop pos b = x ++ rest -> (pos <= length b)%nat -> read_at b pos (length x) = Some x /\ drop (pos + length x) b = rest.
Proof.
  intros E Hp. split; [|by apply drop_tail in E]. unfold read_at. rewrite E, take_app_length, (proj2 (Nat.leb_le _ _)); [done|].
  apply (f_equal length) in E. rewrite length_drop, length_app in E. lia.
Qed.
Lemma chars_at b pos s rest : drop pos b = s ++ 0 :: rest -> Forall (fun c => c <> 0) s -> b_new_chars b pos = Some (s, (pos + length s + 1)%nat) /\ drop (pos + length s + 1) b = rest.
Proof.
  intros E Hs. split.
  - destruct (split_block_at _ _ _ E) as (c & -> & <-); [by destruct s|]. by apply b_new_chars_at.
  - change (0 :: rest) with ([0] ++ rest) in E. rewrite app_assoc in E. apply drop_tail in E. rewrite length_app in E. by rewrite <- Nat.add_assoc.
Qed.
Lemma read_nodes_back ns : forall b pos rest, Forall node_ok ns -> drop pos b = concat (map node_bytes ns) ++ rest -> exists pos',
  read_nodes (length ns) b pos = Some (map cached_node ns, pos') /\ drop pos' b = rest.
Proof.
  induction ns as [|n ns IH]; intros b pos rest Hn E; simpl; [by exists pos|]. inversion_clear Hn as [|? ? Hn1 Hns].
  pose proof Hn1 as (Hc & Hi & Hd & Hp & Ha & Hu). cbn [map concat] in E. unfold node_bytes at 1 in E. rewrite <- !app_assoc in E.
  destruct (int_at _ _ _ _ E Hc) as [-> E1]. cbn [mbind option_bind].
  destruct (int_at _ _ _ _ E1 Hi) as [-> E2]. cbn [mbind option_bind].
  destruct (long_at _ _ _ _ E2 Hd) as [-> E3]. cbn [mbind option_bind].
  destruct (long_at _ _ _ _ E3 Hp) as [-> E4]. cbn [mbind option_bind].
  destruct (block_at _ _ _ _ E4) as [E5 E6]; [apply (f_equal length) in E4; rewrite length_drop, !length_app, Ha in E4; lia|].
  rewrite Ha in E5, E6. rewrite E5. cbn [mbind option_bind].
  destruct (chars_at _ _ _ _ E6 Hu) as [-> E7]. cbn [mbind option_bind].
  destruct (IH _ _ _ Hns E7) as (pos' & -> & E8). exists pos'. cbn [mbind option_bind]. split; [|done]. by destruct n.
Qed.

(** The list as the code keeps it: a weight for each node, addresses of 20 bytes, numbers in their
    width (the capacity and the index in 32 bits), urls that are strings. *)
Definition list_ok (d : in3_nodeselect_def_t) : Prop :=
  length (all_weights d) = length (all_nodes d) /\ Forall node_ok (all_nodes d) /\ Forall weight_ok (all_weights d) /\ 0 <= last_block d < 2 ^ 64 /\ zlen (all_nodes d) < 2 ^ 31.
Definition content_size (d : in3_nodeselect_def_t) (hs : list in3_verified_hash_t) : Z :=
  17 + 16 * zlen (all_nodes d) + zlen (concat (map node_bytes (all_nodes d))) + 40 * zlen hs.
Definition content_of (d : in3_nodeselect_def_t) (hs : list in3_verified_hash_t) : list Z :=
  [CACHE_VERSION] ++ be_bytes 8 (last_block d) ++ be_bytes 4 (zlen (all_nodes d)) ++ concat (map weight_bytes (all_weights d)) ++
  concat (map node_bytes (all_nodes d)) ++ be_bytes 4 (zlen hs) ++ concat (map hash_bytes hs).
Lemma count_hashes_le n t k : count_hashes n t = Some k -> (k <= n)%nat /\ (k <= length t)%nat.
Proof.
  revert n k. induction t as [|e t IH]; intros [|n] k; simpl; try (by intros [= <-]; lia).
  destruct (vh_number e =? 0); [intros [= <-]; lia|]. destruct (count_hashes n t) eqn:E; [|done]. intros [= <-]. apply IH in E. lia.
Qed.
Lemma stored_hashes_le max hashes hs : stored_hashes max hashes = Some hs -> (length hs <= max)%nat /\ (hashes = None -> hs = []).
Proof.
  unfold stored_hashes. destruct hashes as [t|]; [|intros [= <-]; simpl; split; [lia|done]]. intros (k & Hk & [= <-])%bind_Some. apply count_hashes_le in Hk. rewrite length_take. split; [lia|done].
Qed.
Lemma weights_length ws : Forall weight_ok ws -> length (concat (map weight_bytes ws)) = (length ws * 16)%nat.
Proof. apply (length_structs 16 weight_bytes). intros. apply length_weight_bytes. Qed.
Lemma hashes_length hs : Forall hash_ok hs -> length (concat (map hash_bytes hs)) = (length hs * 40)%nat.
Proof. apply (length_structs 40 hash_bytes). apply length_hash_bytes. Qed.
Lemma nodelist_content_spec `{Allocator} d max hashes hs : list_ok d -> stored_hashes max hashes = Some hs -> Forall hash_ok hs -> content_size d hs < 2 ^ 32 ->
  nodelist_content d max hashes = Some (content_of d hs).
Proof.
  intros (Hlen & Hn & Hw & Hl & _) Hs Hh Hsize. pose proof (weights_length _ Hw) as Lw. pose proof (hashes_length _ Hh) as Lh. unfold content_size in Hsize.
  cut (exists r, nodelist_content d max hashes = Some r /\ r = content_of d hs); [by intros (r & -> & ->)|].
  unfold nodelist_content. rewrite Hlen, Nat.ltb_irrefl, <- Hlen, take_ge, Hlen, Hs by lia.
  eapply and_then; [apply (bb_write_byte_rep _ []); [apply bb_new_rep|simpl; lia]|intros ? ?; cbn beta in *].
  next_write bb_write_long_rep. next_write bb_write_int_rep. next_write bb_write_raw_bytes_rep.
  eapply and_then; [apply write_nodes_rep; [eassumption|done|rewrite !length_app, !length_be_bytes in *; simpl; lia]|intros ? ?; cbn beta in *].
  cbn [mbind option_bind]. next_write bb_write_int_rep.
  assert (forall bb, bb_rep bb (content_of d hs) -> exists r, bb_bytes bb = Some r /\ r = content_of d hs) as Hend by (intros bb Hbb; exists (content_of d hs); by rewrite (bb_bytes_rep _ _ Hbb)).
  destruct hashes as [t|].
  - next_write bb_write_raw_bytes_rep. apply Hend. unfold content_of. by rewrite !app_assoc in *.
  - apply stored_hashes_le in Hs as [_ Hs]. rewrite (Hs eq_refl) in *. apply Hend. unfold content_of. cbn [map concat]. rewrite app_nil_r. by rewrite !app_assoc in *.
Qed.

(** C27. The nodelist in the cache: what in3_cache_store_nodelist writes is well defined, and
    in3_cache_update_nodelist reads from it the same last block, weights, nodes (addresses, urls,
    capacities, indexes, deposits and properties; neither blocked nor with attributes) and the hashes
    before the first free entry of the table of verified hashes. *)
Theorem nodelist_cache_roundtrip (A : Allocator) d max hashes hs : list_ok d -> stored_hashes max hashes = Some hs -> Forall hash_ok hs -> content_size d hs < 2 ^ 32 ->
  exists content, nodelist_content d max hashes = Some content /\ b_read_byte content 0 = Some (CACHE_VERSION, 1%nat) /\
    read_nodelist max content 1 = Some (last_block d, all_weights d, map cached_node (all_nodes d), match hs with [] => None | _ => Some hs end).
Proof.
  intros Hd Hs Hh Hsize. exists (content_of d hs). split; [by apply nodelist_content_spec|]. split; [done|].
  destruct Hd as (Hlen & Hn & Hw & Hl & Hmax). apply stored_hashes_le in Hs as [Hs _]. unfold read_nodelist.
  pose proof (weights_length _ Hw) as Lw. pose proof (hashes_length _ Hh) as Lh. unfold content_size in Hsize.
  assert (E : drop 1 (content_of d hs) = be_bytes 8 (last_block d) ++ be_bytes 4 (zlen (all_nodes d)) ++ concat (map weight_bytes (all_weights d)) ++
    concat (map node_bytes (all_nodes d)) ++ be_bytes 4 (zlen hs) ++ concat (map hash_bytes hs)) by done.
  destruct (long_at _ _ _ _ E Hl) as [-> E1]. cbn [mbind option_bind].
  destruct (int_at _ _ _ _ E1) as [-> E2]; [lia|]. cbn [mbind option_bind]. rewrite i32_small by lia. replace (zlen (all_nodes d) <? 0) with false by lia. rewrite Nat2Z.id.
  destruct (block_at _ _ _ _ E2) as [E3 E4]; [apply (f_equal length) in E2; rewrite length_drop, !length_app, length_be_bytes in E2; lia|].
  rewrite Lw, Hlen in E3, E4. rewrite E3. cbn [mbind option_bind].
  destruct (read_nodes_back _ _ _ _ Hn E4) as (pos & -> & E5). cbn [mbind option_bind].
  destruct (int_at _ _ _ _ E5) as [-> E6]; [lia|]. cbn [mbind option_bind]. rewrite <- Hlen.
  rewrite (structs_back 16 weight_bytes bytes_weight weight_ok) by (try done; try apply length_weight_bytes; by apply weight_bytes_back).
  destruct hs as [|h hs]; [done|]. replace (zlen (h :: hs) =? 0) with false by (simpl; lia). rewrite Nat2Z.id, Nat.min_l by done.
  rewrite <- (app_nil_r (concat _)) in E6. destruct (block_at _ _ _ _ E6) as [E7 _].
  { apply (f_equal length) in E6. rewrite length_drop, length_app, Lh in E6. cbn [length] in E6. lia. }
  rewrite Lh in E7. rewrite E7. cbn [mbind option_bind]. by rewrite (structs_back 40 hash_bytes bytes_hash hash_ok) by (try done; try apply length_hash_bytes; by apply hash_bytes_back).
Qed.
Definition demo_list : in3_nodeselect_def_t :=
  mk_data true 15 77 (replicate 20 7) (replicate 32 8) (Some [mk_in3_node (replicate 20 1) true 3 100 5 65535 (str "https://a") 4]) (Some [mk_weight 6 90 1000]) [] None None 1 Null false.
Lemma nodelist_cache_roundtrip_witness : exists content,
  nodelist_content demo_list 2 (Some [mk_vhash 9 (replicate 32 9); mk_vhash 0 (replicate 32 0)]) = Some content /\
  read_nodelist 2 content 1 = Some (77, [mk_weight 6 90 1000], [mk_in3_node (replicate 20 1) false 3 100 5 65535 (str "https://a") 0], Some [mk_vhash 9 (replicate 32 9)]).
Proof.
  pose (A := {| malloc n := replicate n 0; malloc_length n := length_replicate n 0; malloc_ok n := ltac:(apply Forall_replicate; done) |}).
  destruct (nodelist_cache_roundtrip A demo_list 2 (Some [mk_vhash 9 (replicate 32 9); mk_vhash 0 (replicate 32 0)]) [mk_vhash 9 (replicate 32 9)]) as (c & E1 & _ & E3).
  - split; [done|]. split; [repeat constructor; done|]. split; [repeat constructor; done|]. split; [cbn; lia|]. done.
  - done.
  - repeat constructor; cbn; lia.
  - vm_compute. done.
  - exists c. split; [exact E1|exact E3].
Defined.

(** Hashes restored from the cache of a client that has verified none yet are lost with the next
    one: in3_cache_update_nodelist allocates the table without setting alloc_verified_hashes, so that
    add_verified takes it for empty and cuts it to the new entry, and get_verified_hash, which reads
    max_verified_hashes entries, reads behind it for every other number. *)
Theorem cached_hashes_lost c ch rest hs number hash other :
  chains c = ch :: rest -> verified_hashes ch = None -> alloc_verified_hashes c = 0%nat -> (1 < max_verified_hashes c)%nat ->
  (length hs <= max_verified_hashes c)%nat -> number <> other ->
  exists t c2, restore_hashes (max_verified_hashes c) (verified_hashes ch) (Some hs) = Some (Some t) /\ take (length hs) t = hs /\
    add_verified_to (set_main_hashes (Some t) c) (ch_id ch) number hash = Some c2 /\
    chain_hashes (ch_id ch) c2 = Some [mk_vhash number hash] /\ find_hash (max_verified_hashes c2) other [mk_vhash number hash] = None.
Proof.
  intros Ec Hv Ha Hm Hl Hne. unfold restore_hashes. rewrite Hv. cbn [default]. rewrite length_replicate. destruct (Nat.ltb_spec (max_verified_hashes c) (length hs)); [lia|].
  eexists _, _. split; [done|]. split; [apply take_app_length|]. unfold add_verified_to, set_main_hashes, chain_hashes. rewrite Ec. cbn [chains set_chains max_verified_hashes alloc_verified_hashes find ch_id].
  rewrite Z.eqb_refl. cbn [mbind option_bind verified_hashes]. rewrite (proj2 (Nat.eqb_neq (max_verified_hashes c) 0)) by lia. cbn [alloc_verified_hashes set_chains]. rewrite Ha.
  replace (find_slot 0 0 number hash _) with (Some (@inl (option nat) unit None)) by (by destruct (hs ++ _)). cbn [mbind option_bind].
  split; [done|]. unfold set_hashes. cbn [set_alloc set_chains chains map find ch_id]. rewrite Z.eqb_refl. cbn [find ch_id]. rewrite Z.eqb_refl.
  cbn [mbind option_bind verified_hashes max_verified_hashes set_chains set_alloc]. split.
  - destruct hs as [|h hs]; [|done]. destruct (max_verified_hashes c) as [|[|n]]; [lia|lia|done].
  - destruct (max_verified_hashes c) as [|[|n]]; [lia|lia|]. cbn. by rewrite (proj2 (Z.eqb_neq _ _) Hne).
Qed.
Definition fresh_client : in3_t := mk_client [mk_chain 1 CHAIN_ETH 2 None] 5 0 PROOF_STANDARD 0 0 1 0 0 0.
Lemma cached_hashes_lost_witness : exists t c2, restore_hashes 5 None (Some [mk_vhash 9 (replicate 32 9)]) = Some (Some t) /\
  add_verified_to (set_main_hashes (Some t) fresh_client) 1 10 (replicate 32 10) = Some c2 /\ chain_hashes 1 c2 = Some [mk_vhash 10 (replicate 32 10)].
Proof.
  destruct (cached_hashes_lost fresh_client (mk_chain 1 CHAIN_ETH 2 None) [] [mk_vhash 9 (replicate 32 9)] 10 (replicate 32 10) 9) as (t & c2 & E1 & _ & E2 & E3 & _); cbn; try lia; try done.
  exists t, c2. split; [exact E1|]. split; [exact E2|exact E3].
Defined.
