(* ===== verification/NodeList.v ===== *)
(** * nodeselect/full/nodelist.c: updates of the nodelist and the nodes of a request

    Taking over a new nodelist ([fill_chain]) and whitelist, the requests in3_nodeList and
    in3_whiteList that update them, and [in3_node_list_pick_nodes].  The data is that of the chain
    [ci] of the configuration; the state is that of the request that needs the nodes. *)
From S2P Require Import Prelude Utils Bytes Bitset Data Json JsonVal ReqState Request Serialize Nano ReqNew NodeData NodeCache.
From stdpp Require Import strings.
#[local] Open Scope Z_scope.

Definition K_NODES : Z := Eval vm_compute in key "nodes".
Definition K_LAST_BLOCK_NUMBER : Z := Eval vm_compute in key "lastBlockNumber".
Definition K_CAPACITY : Z := Eval vm_compute in key "capacity".
Definition K_INDEX : Z := Eval vm_compute in key "index".
Definition K_DEPOSIT : Z := Eval vm_compute in key "deposit".
Definition K_PROPS : Z := Eval vm_compute in key "props".
Definition K_URL : Z := Eval vm_compute in key "url".
Definition K_PERFORMANCE : Z := Eval vm_compute in key "performance".
Definition K_LAST_FAILED : Z := Eval vm_compute in key "last_failed".
Definition K_COUNT : Z := Eval vm_compute in key "count".
Definition K_TOTAL : Z := Eval vm_compute in key "total".
Definition K_REGISTER_TIME : Z := Eval vm_compute in key "registerTime".

(** ** A node of a new list *)
Fixpoint first_index (ns : list in3_node_t) (adr : list Z) (j : nat) : option nat :=
  match ns with [] => None | n :: t => if bool_decide (n_address n = adr) then Some j else first_index t adr (S j) end.
(** The index of a known node, the same one if possible. *)
Definition old_index (old : list in3_node_t) (i : nat) (adr : list Z) : option nat :=
  match old !! i with
  | Some n => if bool_decide (n_address n = adr) then Some i else first_index old adr 0
  | None => first_index old adr 0
  end.
Section Fill.
Context `{SourceText}.
Definition boot_weight (flags : Z) (node : jval) : in3_node_weight_t :=
  match jget (Some node) K_PERFORMANCE with
  | Some t =>
      if negb (Z.land flags FLAGS_BOOT_WEIGHTS =? 0)
      then mk_weight (u32 (d_int (jget (Some t) K_COUNT))) (u32 (d_int (jget (Some t) K_TOTAL))) (u64 (u64 (d_long (jget (Some t) K_LAST_FAILED)) / 1000 + 24 * 3600))
      else mk_weight 0 0 0
  | None => mk_weight 0 0 0
  end.
(** A node that was registered within the last day is not used yet. *)
Definition new_node_weight (now : Z) (node : jval) (w : in3_node_weight_t) : in3_node_weight_t :=
  let register_time := d_long (jget (Some node) K_REGISTER_TIME) in
  if negb (now =? 0) && (now <? u64 (register_time + DAY)) && (register_time <? now) then set_blacklisted_until (u64 (register_time + DAY)) w else w.
(** The node and its weight, or the message of the error.  Without an address the url, which belongs
    to the token, is freed. *)
Definition fill_node (flags now : Z) (old : list in3_node_t) (old_weights : list in3_node_weight_t) (i : nat) (node : jval) : option (string + in3_node_t * in3_node_weight_t) :=
  let url := d_get_string (Some node) K_URL in
  match d_get_byteskl (Some node) K_ADDRESS 20 with
  | Some adr =>
      if (length adr =? 20)%nat then
        w ← (match old_index old i adr with Some j => old_weights !! j | None => Some (boot_weight flags node) end);
        match url with
        | Some u =>
            Some (inr (mk_in3_node adr false (u64 (d_intd (jget (Some node) K_INDEX) (Z.of_nat i))) (u64 (d_intd (jget (Some node) K_CAPACITY) 1))
                         (d_long (jget (Some node) K_DEPOSIT)) (d_longd (jget (Some node) K_PROPS) 65535) (cstr u) 0,
                       new_node_weight now node w))
        | None => Some (inl "missing url in nodelist"%string)
        end
      else match url with Some _ => None | None => Some (inl "missing address in nodelist"%string) end
  | None => match url with Some _ => None | None => Some (inl "missing address in nodelist"%string) end
  end.
Fixpoint fill_nodes (flags now : Z) (old : list in3_node_t) (old_weights : list in3_node_weight_t) (i : nat) (nodes : list jval) : option (string + list in3_node_t * list in3_node_weight_t) :=
  match nodes with
  | [] => Some (inr ([], []))
  | v :: t =>
      r ← fill_node flags now old old_weights i v;
      match r with
      | inl msg => Some (inl msg)
      | inr (n, w) =>
          r ← fill_nodes flags now old old_weights (S i) t;
          match r with inl msg => Some (inl msg) | inr (ns, ws) => Some (inr (n :: ns, w :: ws)) end
      end
  end.
End Fill.

(** ** Whitelist *)

(** The offsets [0, 20, ...] below the number of addresses, not below the number of bytes. *)
Definition whitelist_offsets (len : nat) : list nat := map (Nat.mul 20) (seq 0 ((len / 20 + 19) / 20)).
Definition whitelist_node (addresses : list Z) (n : in3_node_t) : option in3_node_t :=
  foldr (fun i r => x ← read_at addresses i 20; n ← r; Some (if bool_decide (x = n_address n) then set_attrs (BIT_SET (n_attrs n) ATTR_WHITELISTED) n else n))
    (Some (set_attrs (BIT_CLEAR (n_attrs n) ATTR_WHITELISTED) n)) (whitelist_offsets (length addresses)).
Definition run_whitelisting (d : in3_nodeselect_def_t) : option in3_nodeselect_def_t :=
  match whitelist d with
  | None => Some d
  | Some wl => ns ← mapM (whitelist_node (wl_addresses wl)) (all_nodes d); Some (set_nodelist (match nodelist d with None => None | Some _ => Some ns end) d)
  end.

Section Update.
Context `{SourceText} `{Allocator} {W : Type} `{!NodeWorld W} (plugins : list (in3_plugin_t W)) (max_attempts : Z) (fuel : nat) (ci : nat).
#[local] Abbreviation st := (state W).
#[local] Abbreviation req_set_error := (req_set_error plugins).
#[local] Abbreviation data := (nl_data ci).
#[local] Abbreviation upd_data := (upd_data ci).
Definition err (msg : string) (e : Z) : M st Z := req_set_error (Some (str msg)) e.

Definition fill_chain (result : option jval) : M st Z :=
  now ← in3_time;
  match jget result K_NODES with
  | Some (JArray vs) =>
      match jget result K_LAST_BLOCK_NUMBER with
      | None => err "LastBlockNumer is missing" IN3_EINVALDT
      | Some t =>
          let last := d_long (Some t) in
          d ← data;
          if last_block d <? last then
            upd_data (set_last_block last) ;;
            flags ← gets (fun s => c_flags (client s));
            r ← defined (fill_nodes flags now (all_nodes d) (all_weights d) 0 vs);
            match r with
            | inr (ns, ws) => upd_data (fun d => set_dirty true (replace_nodes ns ws d)) ;; mret IN3_OK
            | inl msg => e ← err msg IN3_EINVALDT; upd_data (set_dirty true) ;; mret e
            end
          else mret IN3_OK
      end
  | _ => err "No Nodes in the result" IN3_EINVALDT
  end.
Definition in3_client_run_chain_whitelisting : M st unit :=
  d ← data; d' ← defined (run_whitelisting d); upd_data (fun _ => d').
Definition in3_client_fill_chain_whitelist (result : option jval) : M st Z :=
  d ← data;
  match whitelist d with
  | None => err "No whitelist set" IN3_EINVALDT
  | Some wl =>
      match jget result K_NODES with
      | Some (JArray vs) =>
          match jget result K_LAST_BLOCK_NUMBER with
          | None => err "LastBlockNumer is missing" IN3_EINVALDT
          | Some t =>
              let last := d_long (Some t) in
              if wl_last_block wl <? last then
                upd_data (set_whitelist (Some (mk_whitelist (wl_needs_update wl) last (wl_contract wl) (concat (map (fun v => d_bytes_to (Some v) 20) vs))))) ;;
                in3_client_run_chain_whitelisting ;;
                mret IN3_OK
              else mret IN3_OK
          end
      | _ => err "No Nodes in the result" IN3_EINVALDT
      end
  end.

(** ** Requests for updates *)

(** Blames the node that announced the new list, and forgets the announcement. *)
Definition drop_upd8 (blame : nodelist_upd8_params_t -> bool) : M st unit :=
  d ← data;
  (match nodelist_upd8_params d with
   | Some p => if blame p then blacklist_node_addr ci (upd8_node p) BLACKLISTTIME ;; mret tt else mret tt
   | None => mret tt
   end) ;;
  upd_data (set_upd8 None).
Definition random_seed : M st (list Z) := foldr (fun _ m => x ← in3_rand; t ← m; mret (bytes_to_hex_loop (be_bytes 4 (u32 x mod 0xFFFFFFFF)) ++ t)) (mret []) (seq 0 8).
Definition nodelist_request (limit flags : Z) (seed : list Z) (d : in3_nodeselect_def_t) : list Z :=
  quoted "{'method':'in3_nodeList','jsonrpc':'2.0','params':[" ++ print_int limit ++ quoted ",'0x" ++ seed ++ quoted "',[]" ++
  (if negb (Z.land flags FLAGS_BOOT_WEIGHTS =? 0) && nodelist_first_upd8 d then str ",true" else []) ++ quoted "],'in3':{" ++
  (match nodelist_upd8_params d with
   | Some p => if nodelist_not_first_upd8 d then quoted "'dataNodes':['0x" ++ bytes_to_hex_loop (upd8_node p) ++ quoted "']" else []
   | None => []
   end) ++ str "}}".
(** The error of the [i]-th required request, and the error that the update failed. *)
Definition update_failed (msg : string) (i : nat) (e : Z) : M st Z :=
  rs ← gets required;
  e ← req_set_error (rs !! i ≫= r_error) e;
  err msg e.
Definition update_nodelist : M st Z :=
  i ← req_find_required "in3_nodeList";
  match i with
  | Some i =>
      q ← required_state i;
      r ← (match q with REQ_SUCCESS => resp ← on_required_at i (response_at 0); mret (jget (Some resp) K_RESULT) | _ => mret None end);
      match q, r with
      | REQ_ERROR, _ | REQ_SUCCESS, None =>
          drop_upd8 (fun p => negb (exp_last_block p =? 0)) ;;
          d ← data;
          if nodelist_first_upd8 d then update_failed "Error updating node_list" i IN3_ERPC else mret IN3_OK
      | REQ_SUCCESS, Some _ =>
          drop_upd8 (fun p => negb (exp_last_block p =? d_long (jget r K_LAST_BLOCK_NUMBER))) ;;
          res ← on_required_at i (fill_chain r);
          if res <? 0 then update_failed "Error updating node_list" i res
          else
            in3_cache_store_nodelist plugins ci ;;
            req_remove_required i true ;;
            in3_client_run_chain_whitelisting ;;
            mret IN3_OK
      | _, _ => mret IN3_WAITING
      end
  | None =>
      seed ← random_seed;
      d ← data;
      w ← config;
      flags ← gets (fun s => c_flags (client s));
      ctx ← req_new plugins (nodelist_request (node_limit w) flags seed d);
      ctx ← defined ctx;
      req_add_required plugins max_attempts fuel ctx
  end.
Definition update_whitelist : M st Z :=
  i ← req_find_required "in3_whiteList";
  match i with
  | Some i =>
      q ← required_state i;
      match q with
      | REQ_ERROR => update_failed "Error updating white_list" i IN3_ERPC
      | REQ_WAITING_FOR_RESPONSE | REQ_WAITING_TO_SEND => mret IN3_WAITING
      | REQ_SUCCESS =>
          resp ← on_required_at i (response_at 0);
          match jget (Some resp) K_RESULT with
          | Some result =>
              res ← on_required_at i (in3_client_fill_chain_whitelist (Some result));
              if res <? 0 then update_failed "Error updating white_list" i res
              else
                in3_cache_store_whitelist plugins ci ;;
                in3_client_run_chain_whitelisting ;;
                req_remove_required i true ;;
                mret IN3_OK
          | None => e ← on_required_at i (req_check_response_error plugins 0); err "Error updating white_list" e
          end
      end
  | None =>
      d ← data;
      wl ← defined (whitelist d);
      ctx ← req_new plugins (quoted "{'method':'in3_whiteList','jsonrpc':'2.0','params':['0x" ++ bytes_to_hex_loop (wl_contract wl) ++ quoted "']}");
      ctx ← defined ctx;
      req_add_required plugins max_attempts fuel ctx
  end.

(** ** The nodes of a request *)
Definition postpone_update (d : in3_nodeselect_def_t) : M st bool :=
  match nodelist_upd8_params d with
  | Some p => if upd8_timestamp p =? 0 then mret false else now ← in3_time; mret (now <? upd8_timestamp p)
  | None => mret false
  end.
Definition needed (flag : bool) (method : string) : M st bool :=
  if flag then mret true else i ← req_find_required method; mret (bool_decide (is_Some i)).
Definition update_list_if_needed (update : bool) : M st Z :=
  d ← data;
  n ← needed (bool_decide (is_Some (nodelist_upd8_params d)) || update) "in3_nodeList";
  if (n : bool) then
    p ← postpone_update d;
    skip ← (if (p : bool) then mret true else req_is_method "in3_nodeList");
    if (skip : bool) then mret IN3_OK else update_nodelist
  else mret IN3_OK.
Definition update_whitelist_if_needed (update : bool) : M st Z :=
  d ← data;
  match whitelist d with
  | None => mret IN3_OK
  | Some wl =>
      n ← needed (wl_needs_update wl || update) "in3_whiteList";
      if (n : bool) && negb (memiszero (wl_contract wl)) then
        upd_data (set_whitelist (Some (mk_whitelist false (wl_last_block wl) (wl_contract wl) (wl_addresses wl)))) ;; update_whitelist
      else mret IN3_OK
  end.
Definition in3_node_list_get (update : bool) : M st Z :=
  res ← update_list_if_needed update;
  if res <? 0 then mret res
  else
    res ← update_whitelist_if_needed update;
    if res <? 0 then mret res else mret IN3_OK.

Definition fill_weight (now : Z) (filter : option in3_node_filter_t) (pre_filter : option (list Z)) : M st (list node_match_t * Z) :=
  d ← data;
  w ← config;
  flags ← gets (fun s => c_flags (client s));
  x ← defined (in3_node_list_fill_weight flags (min_deposit w) (bool_decide (is_Some (whitelist d))) now filter pre_filter (all_nodes d) (all_weights d));
  let '(found, ns, total) := x in
  upd_data (fun _ => set_nodelist (match nodelist d with None => None | Some _ => Some ns end) d) ;;
  mret (found, total).
(** What a pointer points to; reading a freed block is undefined. *)
Definition live {A} (p : ptr A) : M st (option A) := match p with Null => mret None | Live a => mret (Some a) | Freed => undef end.
(** The candidates, or those without the blacklist, if more than half of the nodes are on it or the
    nodes are selected before. *)
Definition candidates_of (now : Z) (filter : option in3_node_filter_t) : M st (list node_match_t * Z) :=
  d ← data;
  pre ← live (pre_address_filter d);
  ft ← fill_weight now filter pre;
  match fst ft with
  | _ :: _ => mret ft
  | [] =>
      d ← data;
      ws ← defined (if (length (all_weights d) <? length (all_nodes d))%nat then None else Some (take (length (all_nodes d)) (all_weights d)));
      let blacklisted := length (List.filter (fun w => now <? blacklisted_until w) ws) in
      if (length (all_nodes d) / 2 <? blacklisted)%nat || bool_decide (is_Some pre) then
        upd_data (fun d => set_weights (map (set_blacklisted_until 0) <$> weights d) d) ;;
        fill_weight now filter None
      else mret ft
  end.
Definition in3_node_list_pick_nodes (request_count : nat) (filter : option in3_node_filter_t) : M st (Z * list node_match_t) :=
  now ← in3_time;
  res ← in3_node_list_get false;
  if res <? 0 then e ← err "could not find the data" res; mret (e, [])
  else
    ft ← candidates_of now filter;
    let '(found, total_weight) := ft in
    match found with
    | [] => e ← err "No nodes found that match the criteria" IN3_EFIND; mret (e, [])
    | _ =>
        let filled_len := Nat.min (length found) request_count in
        if (length found =? filled_len)%nat then mret (IN3_OK, found)
        else ns ← pick_loop (filled_len * 10) filled_len found total_weight []; mret (res, ns)
    end.
End Update.
