(* ===== verification/NodePick.v ===== *)
(** * nodeselect/full: weights, candidates and picks are right

    The properties and weights of nodes, and that the nodes picked for a request are, whatever the
    random numbers are, as many as demanded, different, and candidates of the request. *)
From S2P Require Import Prelude Utils Bytes Bitset Data Json JsonVal ReqState NodeData NodeCache.
From stdpp Require Import strings sets.
#[local] Open Scope Z_scope.

(** ** Properties *)
Lemma land_eq_submask a b m : Z.land (Z.land a b) m = Z.land a m <-> (forall i, 0 <= i -> Z.testbit m i = true -> Z.testbit a i = true -> Z.testbit b i = true).
Proof.
  split.
  - intros E i Hi Hm Ha. apply (f_equal (fun z => Z.testbit z i)) in E. rewrite !Z.land_spec, Hm, Ha in E. by destruct (Z.testbit b i).
  - intros Hall. apply Z.bits_inj'. intros i Hi. rewrite !Z.land_spec.
    specialize (Hall i Hi). destruct (Z.testbit m i), (Z.testbit a i), (Z.testbit b i); naive_solver.
Qed.
Lemma low32_bit i : 0 <= i -> Z.testbit 0xFFFFFFFF i = (i <? 32).
Proof. intros Hi. change 0xFFFFFFFF with (Z.ones 32). by rewrite Z.testbit_ones_nonneg. Qed.

(** A node has the demanded properties: every flag among the lower 32 bits, and a minimal block
    height that is no larger than a demanded one. *)
Lemma props_match_spec conf np :
  in3_node_props_match conf np = true <->
  (forall i, 0 <= i < 32 -> Z.testbit conf i = true -> Z.testbit np i = true) /\
  (Z.land (Z.shiftr conf 32) 0xFF = 0 \/ Z.land (Z.shiftr np 32) 0xFF <= Z.land (Z.shiftr conf 32) 0xFF).
Proof.
  unfold in3_node_props_match, in3_node_props_get. rewrite Z.eqb_refl.
  destruct (Z.eqb_spec (Z.land (Z.land conf np) 0xFFFFFFFF) (Z.land conf 0xFFFFFFFF)) as [E|E]; cbn [negb].
  - rewrite land_eq_submask in E. split.
    + intros Hb. split; [intros i Hi; apply E; [lia|]; rewrite low32_bit by lia; lia|].
      destruct (Z.eqb_spec (Z.land (Z.shiftr conf 32) 0xFF) 0); [by left|right]. cbn [negb] in Hb. lia.
    + intros [_ Hb]. destruct (Z.eqb_spec (Z.land (Z.shiftr conf 32) 0xFF) 0); [done|]. cbn [negb]. lia.
  - split; [done|]. intros [Hall _]. contradict E. apply land_eq_submask. intros i Hi Hm. rewrite low32_bit in Hm by done. apply Hall. lia.
Qed.

(** Setting a flag or the minimal block height keeps the other properties; resetting a flag drops
    the minimal block height, because the mask has only 32 bits. *)
Lemma props_set_spec np k v i : 0 <= k < 32 -> k <> 10 -> 0 <= i ->
  Z.testbit (in3_node_props_set np (2 ^ k) v) i =
  if v =? 0 then Z.testbit np i && (i <? 32) && negb (i =? k) else Z.testbit np i || (i =? k).
Proof.
  intros Hk Hk' Hi. unfold in3_node_props_set.
  destruct (Z.eqb_spec (2 ^ k) NODE_PROP_MIN_BLOCK_HEIGHT) as [E|_].
  { change NODE_PROP_MIN_BLOCK_HEIGHT with (2 ^ 10) in E. apply Z.pow_inj_r in E; lia. }
  destruct (Z.eqb_spec v 0); cbn [negb].
  - unfold u32. rewrite Z.land_spec. destruct (Z.ltb_spec i 32).
    + rewrite Z.mod_pow2_bits_low, Z.lnot_spec, Z.pow2_bits_eqb by lia. rewrite (Z.eqb_sym k i). by destruct (Z.testbit np i), (i =? k).
    + rewrite Z.mod_pow2_bits_high by lia. by rewrite !andb_false_r.
  - rewrite Z.lor_spec, Z.pow2_bits_eqb by lia. by rewrite (Z.eqb_sym k i).
Qed.
Lemma props_height np v : 0 <= v < 256 -> in3_node_props_get (in3_node_props_set np NODE_PROP_MIN_BLOCK_HEIGHT v) NODE_PROP_MIN_BLOCK_HEIGHT = v.
Proof.
  intros Hv. unfold in3_node_props_get, in3_node_props_set. rewrite !Z.eqb_refl.
  rewrite Z.shiftr_lor, Z.shiftr_shiftl_l, Z.sub_diag, Z.shiftl_0_r by lia.
  change 0xFFFFFFFF with (Z.ones 32). rewrite Z.land_ones, Z.shiftr_div_pow2, Z.div_small by (try apply Z.mod_pos_bound; lia).
  rewrite Z.lor_0_l. change 0xFF with (Z.ones 8). rewrite Z.land_ones by lia. apply Z.mod_small. lia.
Qed.

(** ** Weights *)
Definition weighable (w : in3_node_weight_t) (capa : Z) : bool :=
  if (4 <? response_count w) && negb (total_response_time w =? 0) then response_count w <=? total_response_time w
  else (capa <=? 9900).
Lemma weight_bound w capa now x : in3_node_calculate_weight w capa now = Some x -> 0 <= total_response_time w -> 0 <= response_count w -> 0 <= x <= 0xFFFF.
Proof.
  unfold in3_node_calculate_weight, udiv. intros Hx Ht Hc.
  apply bind_Some in Hx as (avg & Havg & Hx). apply bind_Some in Hx as (q & Hq & Hx).
  destruct (avg =? 0) eqn:E0; [done|]. simplify_eq.
  set (bf := if _ <? _ then _ else 100).
  assert (0 <= avg) by (repeat case_match; simplify_eq; apply Z.div_pos; try lia; pose proof (u32_range (Z.max capa 100 + 100)); lia).
  assert (0 <= 65535 / avg <= 65535) by (split; [apply Z.div_pos; lia|apply Z.div_le_upper_bound; nia]).
  assert (Hbf : 0 <= bf <= 100).
  { unfold bf. destruct (Z.ltb_spec (u64 (now - blacklisted_until w)) BLACKLISTWEIGHT) as [Hl|]; [|lia].
    pose proof (u64_range (now - blacklisted_until w)) as [Hu _].
    rewrite (u64_small (_ * 100)) by (unfold BLACKLISTWEIGHT, DAY in *; lia).
    assert (0 <= u64 (now - blacklisted_until w) * 100 / BLACKLISTWEIGHT <= 100) as Hq'.
    { unfold BLACKLISTWEIGHT, DAY in *. split; [apply Z.div_pos; lia|]. apply Z.div_le_upper_bound; lia. }
    rewrite u32_small; lia. }
  rewrite u32_small by nia. split; [apply Z.div_pos; nia|apply Z.div_le_upper_bound; nia].
Qed.
(** The weight is defined unless a division by zero happens: for a capacity above 9900, or for an
    average response time below one. *)
Lemma weight_defined w capa now : 0 <= capa < 2 ^ 32 - 100 -> 0 <= response_count w < 2 ^ 32 -> 0 <= total_response_time w ->
  is_Some (in3_node_calculate_weight w capa now) <-> weighable w capa = true.
Proof.
  intros Hc Hr Ht. unfold in3_node_calculate_weight, weighable, udiv.
  destruct ((4 <? response_count w) && negb (total_response_time w =? 0)) eqn:E; simpl.
  - apply andb_prop in E as [E1 E2]. replace (response_count w =? 0) with false by lia. simpl.
    destruct (Z.leb_spec (response_count w) (total_response_time w)) as [Hle|Hlt].
    + replace (total_response_time w / response_count w =? 0) with false; [simpl; split; eauto|].
      symmetry. apply Z.eqb_neq. assert (1 <= total_response_time w / response_count w) by (apply Z.div_le_lower_bound; lia). lia.
    + rewrite (Z.div_small (total_response_time w) (response_count w)) by lia. simpl. split; [by intros [? ?]|done].
  - rewrite (u32_small (Z.max capa 100 + 100)) by lia. replace (Z.max capa 100 + 100 =? 0) with false by lia. simpl.
    destruct (Z.leb_spec capa 9900) as [Hle|Hlt].
    + replace (10000 / (Z.max capa 100 + 100) =? 0) with false; [simpl; split; eauto|].
      symmetry. apply Z.eqb_neq. assert (1 <= 10000 / (Z.max capa 100 + 100)) by (apply Z.div_le_lower_bound; lia). lia.
    + rewrite (Z.div_small 10000 (Z.max capa 100 + 100)) by lia. simpl. split; [by intros [? ?]|done].
Qed.

(** ** Weight intervals *)
Definition weight_sum (l : list node_match_t) : Z := fold_right Z.add 0 (map nm_w l).
(** The intervals [s, s + w] of the nodes follow each other from [b] on. *)
Fixpoint intervals (b : Z) (l : list node_match_t) : Prop :=
  match l with [] => True | c :: t => nm_s c = b /\ 0 <= nm_w c /\ intervals (b + nm_w c) t end.
Lemma weight_sum_cons c l : weight_sum (c :: l) = nm_w c + weight_sum l.
Proof. done. Qed.
Lemma weight_sum_app l1 l2 : weight_sum (l1 ++ l2) = weight_sum l1 + weight_sum l2.
Proof. unfold weight_sum. induction l1; simpl; lia. Qed.
Lemma intervals_app b l1 l2 : intervals b (l1 ++ l2) <-> intervals b l1 /\ intervals (b + weight_sum l1) l2.
Proof.
  revert b. induction l1 as [|c l1 IH]; intros b; simpl.
  - unfold weight_sum. simpl. rewrite Z.add_0_r. tauto.
  - rewrite IH. unfold weight_sum. simpl. rewrite Z.add_assoc. tauto.
Qed.
Lemma weight_sum_nonneg b l : intervals b l -> 0 <= weight_sum l.
Proof. revert b. unfold weight_sum. induction l as [|c t IH]; simpl; [lia|]. intros b (_ & Hw & Ht). specialize (IH _ Ht). lia. Qed.

(** The number decides for the node whose interval holds it; a number on the border of two intervals
    decides for the earlier one. *)
Lemma find_match_spec l : forall b r, intervals b l -> l <> [] -> 0 <= b -> b <= r <= b + weight_sum l -> b + weight_sum l < 2 ^ 32 ->
  exists l1 c l2, l = l1 ++ c :: l2 /\ find_match l r = Some c /\ nm_s c = b + weight_sum l1 /\ nm_s c <= r <= nm_s c + nm_w c /\ (l1 = [] \/ nm_s c < r).
Proof.
  induction l as [|c t IH]; [done|]. intros b r (Hs & Hw & Ht) _ Hb Hr Hlt.
  pose proof (weight_sum_nonneg _ _ Ht) as Hsum. unfold weight_sum in Hr, Hlt. simpl in Hr, Hlt. fold (weight_sum t) in Hr, Hlt.
  unfold find_match. simpl. rewrite Hs, u32_small by lia. replace (b <=? r) with true by lia.
  destruct (Z.leb_spec r (b + nm_w c)) as [Hle|Hgt]; simpl.
  - exists [], c, t. unfold weight_sum. simpl. repeat split; try lia; auto.
  - destruct (IH (b + nm_w c) r) as (l1 & c' & l2 & -> & Hf & Hs' & Hr' & Hor); [done|by intros ->; unfold weight_sum in *; simpl in *; lia|lia..|].
    exists (c :: l1), c', l2. unfold weight_sum in *. simpl. repeat split; try lia; auto.
    right. destruct Hor as [->|]; [|done]. simpl in Hs'. lia.
Qed.
Lemma remove_match_spec l1 c l2 : nm_index c ∉ map nm_index l1 ->
  remove_match (l1 ++ c :: l2) c = l1 ++ map (fun y => with_s (u32 (nm_s y - nm_w c)) y) l2.
Proof.
  induction l1 as [|x l1 IH]; intros Hin; simpl.
  - by rewrite Nat.eqb_refl.
  - simpl in Hin. rewrite not_elem_of_cons in Hin. destruct Hin as [Hne Hin].
    destruct (Nat.eqb_spec (nm_index x) (nm_index c)); [by symmetry in e|]. by rewrite IH.
Qed.
Lemma intervals_shift l : forall b w, intervals (b + w) l -> 0 <= b -> 0 <= w -> b + w + weight_sum l < 2 ^ 32 ->
  intervals b (map (fun y => with_s (u32 (nm_s y - w)) y) l).
Proof.
  induction l as [|c t IH]; [done|]. intros b w (Hs & Hw & Ht) Hb Hw0 Hlt. simpl.
  pose proof (weight_sum_nonneg _ _ Ht). unfold weight_sum in Hlt. simpl in Hlt. fold (weight_sum t) in Hlt.
  repeat split; [rewrite Hs, u32_small; lia|done|]. apply IH; try lia. by replace (b + nm_w c + w) with (b + w + nm_w c) by lia.
Qed.
Lemma map_with_s {A} (f : node_match_t -> A) (g : node_match_t -> Z) l : (forall s c, f (with_s s c) = f c) -> map f (map (fun y => with_s (g y) y) l) = map f l.
Proof. intros Hf. rewrite map_map. by apply map_ext. Qed.
(** Removing a picked node keeps the intervals together. *)
Lemma remove_match_intervals l1 c l2 : intervals 0 (l1 ++ c :: l2) -> weight_sum (l1 ++ c :: l2) < 2 ^ 32 -> NoDup (map nm_index (l1 ++ c :: l2)) ->
  let l := remove_match (l1 ++ c :: l2) c in
  intervals 0 l /\ weight_sum l = weight_sum (l1 ++ c :: l2) - nm_w c /\ map nm_index l = map nm_index (l1 ++ l2) /\
  forall x, x ∈ l -> exists s y, y ∈ l1 ++ l2 /\ x = with_s s y.
Proof.
  intros Hi Hlt Hnd l. apply intervals_app in Hi as [Hi1 Hi2]. simpl in Hi2. destruct Hi2 as (Hs & Hw & Hi2).
  rewrite map_app in Hnd. apply NoDup_app in Hnd as (_ & Hdis & _).
  unfold l. rewrite remove_match_spec by (intros Hin; apply (Hdis _ Hin); simpl; left).
  pose proof (weight_sum_nonneg _ _ Hi1). pose proof (weight_sum_nonneg _ _ Hi2). rewrite weight_sum_app in *. unfold weight_sum in Hlt at 2. simpl in Hlt. fold (weight_sum l2) in Hlt.
  repeat split.
  - apply intervals_app. split; [done|]. apply intervals_shift; try lia. done.
  - rewrite !weight_sum_app. unfold weight_sum. simpl. rewrite map_with_s by done. lia.
  - rewrite !map_app, map_with_s by done. done.
  - intros x. rewrite elem_of_app. intros [Hx|(y & -> & Hy)%list_elem_of_fmap].
    + exists (nm_s x), x. split; [rewrite elem_of_app; by left|by destruct x].
    + eexists _, y. split; [rewrite elem_of_app; by right|done].
Qed.

(** ** The picked nodes *)
Section Picks.
Context {W : Type} `{!NodeWorld W}.
(** The same node, without the start of its interval. *)
Definition same_match (x y : node_match_t) : Prop := exists s, x = with_s s y.
Lemma rand_step total (s : state W) : exists r w,
  (if total =? 0 then mret 0 else x ← in3_rand; mret (u32 x mod total)) s = Ok r (mk_state (self s) (required s) (client s) w) /\
  nl_conf w = nl_conf (world s) /\ (0 < total -> 0 <= r < total) /\ (total = 0 -> r = 0).
Proof.
  destruct (Z.eqb_spec total 0) as [->|Hne].
  - exists 0, (world s). destruct s. split_and!; [done|done|lia|done].
  - pose proof (conf_rand (world s)) as Hc. unfold in3_rand, on_world, mbind, M_bind. destruct (rand_fn (world s)) as [x w] eqn:E. simpl in Hc.
    exists (u32 x mod total), w. split_and!; [done|done| |done]. intros. apply Z.mod_pos_bound. lia.
Qed.
Lemma pick_loop_spec n : forall want found picked (s : state W),
  intervals 0 found -> weight_sum found < 2 ^ 32 -> NoDup (map nm_index found) ->
  (length picked <= want <= length picked + length found)%nat -> (want - length picked <= n)%nat ->
  exists out w, pick_loop n want found (weight_sum found) picked s = Ok (picked ++ out) (mk_state (self s) (required s) (client s) w) /\
    nl_conf w = nl_conf (world s) /\ length (picked ++ out) = want /\ NoDup (map nm_index out) /\
    forall x, x ∈ out -> exists y, y ∈ found /\ same_match x y.
Proof.
  induction n as [|n IH]; intros want found picked s Hi Hlt Hnd Hwant Hn.
  - exists [], (world s). rewrite app_nil_r. destruct s. split_and!; [done|done|lia|constructor|set_solver].
  - simpl. destruct (Nat.ltb_spec (length picked) want) as [Hl|Hge].
    2: { exists [], (world s). rewrite app_nil_r. destruct s. split_and!; [done|done|lia|constructor|set_solver]. }
    destruct (rand_step (weight_sum found) s) as (r & w & E & Hw & Hr & Hr0). rewrite (bind_ok _ _ _ _ _ E). cbn beta.
    pose proof (weight_sum_nonneg _ _ Hi) as Hpos.
    destruct (find_match_spec found 0 r) as (l1 & c & l2 & -> & Hf & _ & Hrc & _);
      [done|by intros ->; simpl in Hwant; lia|lia|destruct (Z.eq_dec (weight_sum found) 0); [rewrite Hr0 by done|]; lia|lia|].
    rewrite Hf. destruct (remove_match_intervals l1 c l2 Hi Hlt Hnd) as (Hi' & Hs' & Hm' & Hin').
    assert (0 <= nm_w c) as Hwc by lia.
    rewrite (u32_small (_ - nm_w c)) by (pose proof (weight_sum_nonneg _ _ Hi'); lia). rewrite <- Hs'.
    assert (Hlen : length (remove_match (l1 ++ c :: l2) c) = length (l1 ++ l2)) by (rewrite <- (length_map nm_index), Hm'; apply length_map).
    rewrite map_app in Hnd. simpl in Hnd. apply NoDup_app in Hnd as (Hn1 & Hd1 & Hn2). apply NoDup_cons in Hn2 as [Hc2 Hn2].
    destruct (IH want (remove_match (l1 ++ c :: l2) c) (picked ++ [c]) (mk_state (self s) (required s) (client s) w)) as (out & w' & E' & Hw' & Hl' & Hnd' & Hin);
      [done|rewrite Hs'; lia| |rewrite Hlen, !length_app in *; simpl in *; lia|rewrite length_app; simpl; lia|].
    { rewrite Hm', map_app. apply NoDup_app. split_and!; [done| |done]. intros x Hx Hx2. apply (Hd1 x Hx). right. done. }
    exists (c :: out), w'. rewrite E', <- app_assoc. simpl in *. split_and!; [done|congruence|by rewrite <- Hl', <- app_assoc| |].
    + constructor; [|done]. intros (x & Hx & Hox)%list_elem_of_fmap. apply Hin in Hox as (y & Hy & z & ->).
      apply Hin' in Hy as (z' & y' & Hy' & ->). simpl in Hx. apply elem_of_app in Hy' as [Hy'|Hy'].
      * apply (Hd1 (nm_index c)); [rewrite Hx; apply list_elem_of_fmap; eauto|left].
      * apply Hc2. rewrite Hx. apply list_elem_of_fmap; eauto.
    + intros x [->|Hx]%elem_of_cons; [exists c; split; [apply elem_of_app; right; left|exists (nm_s c); by destruct c]|].
      apply Hin in Hx as (y & Hy & z & ->). apply Hin' in Hy as (z' & y' & Hy' & ->). exists y'. split; [apply elem_of_app in Hy'; rewrite elem_of_app, elem_of_cons; tauto|]. by exists z.
Qed.
End Picks.

(** ** Candidates *)
Section Candidates.
Context (flags min_deposit : Z) (whitelisted : bool) (now : Z) (filter : option in3_node_filter_t) (pre_filter : option (list Z)).
#[local] Abbreviation selectable := (selectable min_deposit whitelisted now filter pre_filter).
#[local] Abbreviation fill_loop := (fill_loop flags min_deposit whitelisted now filter pre_filter).
(** The indexes of the candidates from the [i]-th node on. *)
Fixpoint candidates (i : nat) (ns : list in3_node_t) (ws : list in3_node_weight_t) : list nat :=
  match ns, ws with
  | n :: ns', w :: ws' => (if bool_decide (selectable n w = Some true) then [i] else []) ++ candidates (S i) ns' ws'
  | _, _ => []
  end.
(** The nodes with [blocked] reset for the candidates. *)
Fixpoint unblocked (ns : list in3_node_t) (ws : list in3_node_weight_t) : list in3_node_t :=
  match ns, ws with
  | n :: ns', w :: ws' => (if bool_decide (selectable n w = Some true) then set_blocked false n else n) :: unblocked ns' ws'
  | _, _ => []
  end.
(** The list entry of the candidate at an index. *)
Definition match_of (i : nat) (ns : list in3_node_t) (ws : list in3_node_weight_t) (c : node_match_t) : Prop :=
  exists k n w, nm_index c = (i + k)%nat /\ ns !! k = Some n /\ ws !! k = Some w /\ selectable n w = Some true /\ nm_url c = match_url flags n /\ nm_address c = n_address n.
Lemma match_of_S i n w ns ws c : match_of (S i) ns ws c -> match_of i (n :: ns) (w :: ws) c.
Proof. intros (k & n' & w' & E & H1). exists (S k), n', w'. split; [lia|done]. Qed.
(** Every node can be judged and has a weight. *)
Definition judgeable (ns : list in3_node_t) (ws : list in3_node_weight_t) : Prop :=
  length ws = length ns /\ forall i n w, ns !! i = Some n -> ws !! i = Some w -> weight_ok w /\ is_Some (selectable n w) /\ is_Some (in3_node_calculate_weight w (u32 (n_capacity n)) now).
Lemma judgeable_cons n w ns ws : judgeable (n :: ns) (w :: ws) -> weight_ok w /\ is_Some (selectable n w) /\ is_Some (in3_node_calculate_weight w (u32 (n_capacity n)) now) /\ judgeable ns ws.
Proof.
  intros [Hl Hall]. destruct (Hall 0%nat n w eq_refl eq_refl) as (H1 & H2 & H3). split; [done|]. split; [done|]. split; [done|].
  split; [simpl in Hl; lia|]. intros i n' w' E1 E2. by apply (Hall (S i)).
Qed.
Lemma fill_loop_spec ns : forall ws i sum, judgeable ns ws -> 0 <= sum -> sum + 0xFFFF * zlen ns < 2 ^ 32 ->
  exists found, fill_loop i ns ws sum = Some (found, unblocked ns ws, sum + weight_sum found) /\ intervals sum found /\
    map nm_index found = candidates i ns ws /\ weight_sum found <= 0xFFFF * zlen ns /\ forall c, c ∈ found -> match_of i ns ws c.
Proof.
  induction ns as [|n ns IH]; intros [|w ws] i sum Hj Hs Hmax; try (by destruct Hj).
  { exists []. cbn. split_and!; [by rewrite Z.add_0_r|done|done|lia|set_solver]. }
  destruct (judgeable_cons _ _ _ _ Hj) as (Hw & [ok Hok] & [x Hx] & Hj'). cbn [NodeData.fill_loop candidates unblocked]. rewrite Hok. cbn [mbind option_bind].
  replace (zlen (n :: ns)) with (1 + zlen ns) in * by (simpl; lia). destruct ok.
  - rewrite Hx. cbn [mbind option_bind]. destruct (weight_bound _ _ _ _ Hx) as [Hx0 Hx1]; [apply Hw..|].
    rewrite u32_small by lia. destruct (IH ws (S i) (sum + x) Hj') as (found & -> & Hi & Hm & Hle & Hall); [lia|lia|].
    exists (mk_node i sum x (match_url flags n) (n_address n) :: found). cbn [mbind option_bind]. rewrite bool_decide_true, weight_sum_cons by done. cbn [nm_w]. split_and!.
    + by rewrite Z.add_assoc.
    + cbn. repeat split; try lia. done.
    + cbn. by rewrite Hm.
    + lia.
    + intros c [->|Hc]%elem_of_cons; [|by apply match_of_S, Hall]. exists 0%nat, n, w. cbn. split_and!; try done; lia.
  - destruct (IH ws (S i) sum Hj') as (found & -> & Hi & Hm & Hle & Hall); [lia|lia|].
    exists found. cbn [mbind option_bind]. rewrite bool_decide_false by done. split_and!; try done; [lia|]. intros c Hc. by apply match_of_S, Hall.
Qed.
Lemma candidates_ge ns : forall ws i k, k ∈ candidates i ns ws -> (i <= k)%nat.
Proof.
  induction ns as [|n ns IH]; intros [|w ws] i k; cbn [candidates]; try (by intros ?%elem_of_nil).
  intros [Hk|Hk]%elem_of_app; [|apply IH in Hk; lia]. case_bool_decide; [apply list_elem_of_singleton in Hk; lia|by apply elem_of_nil in Hk].
Qed.
Lemma candidates_NoDup ns : forall ws i, NoDup (candidates i ns ws).
Proof.
  induction ns as [|n ns IH]; intros [|w ws] i; cbn [candidates]; try constructor. case_bool_decide; [|apply IH].
  constructor; [|apply IH]. intros Hin. apply candidates_ge in Hin. lia.
Qed.
(** A node is a candidate exactly if it passes the checks. *)
Lemma elem_of_candidates ns : forall ws i k, k ∈ candidates i ns ws <-> exists j n w, k = (i + j)%nat /\ ns !! j = Some n /\ ws !! j = Some w /\ selectable n w = Some true.
Proof.
  induction ns as [|n ns IH]; intros [|w ws] i k; cbn [candidates].
  1-3: split; [by intros ?%elem_of_nil|by intros ([|j] & ? & ? & _ & ? & ? & _)].
  rewrite elem_of_app, IH. split.
  - intros [Hk|(j & n' & w' & -> & H1)]; [|exists (S j), n', w'; split; [lia|done]].
    case_bool_decide; [|by apply elem_of_nil in Hk]. apply list_elem_of_singleton in Hk as ->. exists 0%nat, n, w. by split; [lia|].
  - intros ([|j] & n' & w' & -> & H1 & H2 & H3).
    + left. simplify_eq/=. rewrite bool_decide_true by done. rewrite Nat.add_0_r. apply list_elem_of_singleton. done.
    + right. exists j, n', w'. split; [lia|done].
Qed.
Lemma candidates_NoDup_found found i ns ws : map nm_index found = candidates i ns ws -> NoDup (map nm_index found).
Proof. intros ->. apply candidates_NoDup. Qed.
End Candidates.
