(* ===== verification/NodeBoot.v ===== *)
(** * nodeselect/full: the built-in boot nodes (nodeselect_def_cfg.h)

    The configurations of the supported chains in the binary format of the tokens, for a build
    without IN3_STAGING, and their selection by the id of the chain. *)
From S2P Require Import Prelude Data ReqState NodeData.
#[local] Open Scope Z_scope.

Definition BOOT_NODES_MAINNET_BIN : list Z := [
  217; 97; 95; 53; 99; 206; 18; 20; 172; 27; 130; 71; 149; 225; 235; 31; 110; 96; 159; 224; 218; 155; 154; 248; 190; 170; 182; 15; 110; 184; 28; 32; 35; 213; 52; 92;
  92; 19; 24; 10; 128; 128; 189; 93; 219; 231; 205; 230; 70; 131; 117; 93; 204; 230; 231; 52; 217; 91; 123; 87; 56; 69; 250; 203; 26; 162; 69; 99; 178; 246; 20; 69;
  212; 94; 111; 249; 158; 108; 52; 162; 53; 210; 99; 150; 89; 16; 41; 137; 133; 252; 254; 121; 107; 60; 36; 104; 116; 116; 112; 115; 58; 47; 47; 105; 110; 51; 45; 118;
  50; 46; 115; 108; 111; 99; 107; 46; 105; 116; 47; 109; 97; 105; 110; 110; 101; 116; 47; 110; 100; 45; 49; 0; 65; 110; 189; 255; 255; 99; 178; 246; 20; 46; 51; 62;
  192; 144; 241; 2; 141; 240; 163; 195; 154; 145; 128; 99; 68; 59; 232; 43; 43; 121; 107; 59; 104; 116; 116; 112; 115; 58; 47; 47; 109; 97; 105; 110; 110; 101; 116; 46;
  105; 110; 99; 117; 98; 101; 100; 46; 110; 101; 116; 0; 65; 110; 189; 255; 255; 99; 178; 246; 20; 81; 14; 231; 246; 241; 152; 224; 24; 227; 82; 145; 100; 218; 36; 115;
  169; 110; 235; 61; 200; 121; 107; 60; 39; 104; 116; 116; 112; 115; 58; 47; 47; 48; 48; 48; 49; 46; 109; 97; 105; 110; 110; 101; 116; 46; 105; 110; 51; 46; 97; 110;
  121; 98; 108; 111; 99; 107; 46; 116; 111; 111; 108; 115; 0; 65; 110; 189; 255; 255; 99; 178; 246; 20; 197; 19; 165; 52; 222; 90; 157; 63; 65; 49; 82; 196; 27; 9;
  189; 129; 22; 35; 127; 200; 121; 107; 60; 36; 104; 116; 116; 112; 115; 58; 47; 47; 105; 110; 51; 45; 118; 50; 46; 115; 108; 111; 99; 107; 46; 105; 116; 47; 109; 97;
  105; 110; 110; 101; 116; 47; 110; 100; 45; 52; 0; 65; 110; 189; 255; 255; 99; 178; 246; 20; 188; 223; 78; 62; 144; 204; 114; 136; 181; 120; 50; 158; 253; 123; 204; 144;
  101; 81; 72; 210; 121; 107; 60; 36; 104; 116; 116; 112; 115; 58; 47; 47; 105; 110; 51; 45; 118; 50; 46; 115; 108; 111; 99; 107; 46; 105; 116; 47; 109; 97; 105; 110;
  110; 101; 116; 47; 110; 100; 45; 53; 0; 65; 110; 189; 255; 255].
Definition BOOT_NODES_GOERLI_BIN : list Z := [
  209; 97; 95; 53; 99; 206; 18; 20; 95; 81; 228; 19; 88; 29; 215; 103; 89; 233; 238; 213; 30; 99; 209; 76; 141; 19; 121; 200; 110; 184; 28; 32; 103; 192; 46; 94;
  39; 47; 157; 107; 74; 51; 113; 102; 20; 6; 29; 210; 152; 40; 63; 134; 53; 16; 121; 239; 144; 59; 240; 212; 65; 10; 68; 234; 26; 162; 67; 99; 178; 246; 20; 69;
  212; 94; 111; 249; 158; 108; 52; 162; 53; 210; 99; 150; 89; 16; 41; 137; 133; 252; 254; 121; 107; 60; 35; 104; 116; 116; 112; 115; 58; 47; 47; 105; 110; 51; 45; 118;
  50; 46; 115; 108; 111; 99; 107; 46; 105; 116; 47; 103; 111; 101; 114; 108; 105; 47; 110; 100; 45; 49; 0; 65; 110; 189; 255; 255; 99; 178; 246; 20; 31; 226; 233; 191;
  41; 170; 25; 56; 133; 154; 246; 76; 65; 51; 97; 34; 125; 4; 5; 154; 121; 107; 60; 35; 104; 116; 116; 112; 115; 58; 47; 47; 105; 110; 51; 45; 118; 50; 46; 115;
  108; 111; 99; 107; 46; 105; 116; 47; 103; 111; 101; 114; 108; 105; 47; 110; 100; 45; 50; 0; 65; 110; 189; 255; 255; 99; 178; 246; 20; 124; 31; 43; 92; 30; 47; 232;
  48; 15; 62; 8; 101; 129; 143; 175; 67; 173; 34; 217; 157; 121; 107; 60; 29; 104; 116; 116; 112; 115; 58; 47; 47; 105; 110; 51; 46; 106; 101; 110; 116; 122; 115; 99;
  104; 102; 97; 109; 105; 108; 121; 46; 100; 101; 0; 65; 110; 189; 255; 255].
Definition BOOT_NODES_IPFS_BIN : list Z := [
  205; 97; 95; 53; 99; 206; 18; 20; 169; 59; 87; 40; 144; 112; 85; 12; 130; 237; 177; 16; 110; 18; 187; 55; 19; 137; 72; 184; 110; 184; 28; 32; 240; 22; 46; 198;
  215; 133; 238; 153; 14; 54; 186; 216; 101; 37; 31; 69; 175; 9; 22; 207; 19; 97; 105; 84; 12; 2; 176; 221; 156; 182; 145; 150; 26; 162; 66; 99; 178; 246; 20; 69;
  212; 94; 111; 249; 158; 108; 52; 162; 53; 210; 99; 150; 89; 16; 41; 137; 133; 252; 254; 121; 107; 60; 33; 104; 116; 116; 112; 115; 58; 47; 47; 105; 110; 51; 45; 118;
  50; 46; 115; 108; 111; 99; 107; 46; 105; 116; 47; 105; 112; 102; 115; 47; 110; 100; 45; 49; 0; 65; 110; 189; 255; 255; 99; 178; 246; 20; 31; 226; 233; 191; 41; 170;
  25; 56; 133; 154; 246; 76; 65; 51; 97; 34; 125; 4; 5; 154; 121; 107; 60; 33; 104; 116; 116; 112; 115; 58; 47; 47; 105; 110; 51; 45; 118; 50; 46; 115; 108; 111;
  99; 107; 46; 105; 116; 47; 105; 112; 102; 115; 47; 110; 100; 45; 50; 0; 65; 110; 189; 255; 255].
Definition BOOT_NODES_BTC_BIN : list Z := [
  205; 97; 95; 53; 99; 206; 18; 20; 194; 192; 95; 191; 231; 110; 231; 116; 138; 229; 245; 182; 27; 87; 164; 108; 196; 6; 28; 50; 110; 184; 28; 32; 83; 120; 108; 147;
  229; 76; 33; 217; 133; 45; 9; 60; 57; 78; 238; 157; 248; 215; 20; 216; 242; 83; 76; 223; 146; 249; 201; 153; 140; 82; 141; 25; 26; 162; 66; 99; 178; 246; 20; 69;
  212; 94; 111; 249; 158; 108; 52; 162; 53; 210; 99; 150; 89; 16; 41; 137; 133; 252; 254; 121; 107; 60; 32; 104; 116; 116; 112; 115; 58; 47; 47; 105; 110; 51; 45; 118;
  50; 46; 115; 108; 111; 99; 107; 46; 105; 116; 47; 98; 116; 99; 47; 110; 100; 45; 49; 0; 65; 110; 189; 255; 255; 99; 178; 246; 20; 31; 226; 233; 191; 41; 170; 25;
  56; 133; 154; 246; 76; 65; 51; 97; 34; 125; 4; 5; 154; 121; 107; 60; 32; 104; 116; 116; 112; 115; 58; 47; 47; 105; 110; 51; 45; 118; 50; 46; 115; 108; 111; 99;
  107; 46; 105; 116; 47; 98; 116; 99; 47; 110; 100; 45; 50; 0; 65; 110; 189; 255; 255].
Definition BOOT_NODES_EWC_BIN : list Z := [
  205; 97; 95; 53; 99; 206; 18; 20; 3; 149; 98; 135; 32; 8; 247; 167; 102; 116; 166; 231; 132; 40; 4; 240; 173; 55; 203; 19; 110; 184; 28; 32; 49; 52; 84; 192;
  95; 198; 229; 51; 106; 51; 21; 237; 34; 51; 218; 107; 131; 29; 76; 184; 38; 216; 54; 195; 214; 3; 242; 226; 169; 241; 237; 117; 26; 162; 66; 99; 178; 246; 20; 69;
  212; 94; 111; 249; 158; 108; 52; 162; 53; 210; 99; 150; 89; 16; 41; 137; 133; 252; 254; 121; 107; 60; 32; 104; 116; 116; 112; 115; 58; 47; 47; 105; 110; 51; 45; 118;
  50; 46; 115; 108; 111; 99; 107; 46; 105; 116; 47; 101; 119; 99; 47; 110; 100; 45; 49; 0; 65; 110; 189; 255; 255; 99; 178; 246; 20; 31; 226; 233; 191; 41; 170; 25;
  56; 133; 154; 246; 76; 65; 51; 97; 34; 125; 4; 5; 154; 121; 107; 60; 32; 104; 116; 116; 112; 115; 58; 47; 47; 105; 110; 51; 45; 118; 50; 46; 115; 108; 111; 99;
  107; 46; 105; 116; 47; 101; 119; 99; 47; 110; 100; 45; 50; 0; 65; 110; 189; 255; 255].
Definition BOOT_NODES_LOCAL_BIN : list Z := [
  200; 97; 95; 53; 98; 206; 18; 20; 240; 251; 135; 244; 117; 124; 119; 234; 52; 22; 175; 232; 127; 54; 172; 170; 4; 150; 199; 233; 26; 162; 65; 99; 178; 246; 20; 120;
  75; 250; 158; 177; 130; 195; 160; 45; 190; 181; 40; 94; 61; 186; 146; 215; 23; 224; 122; 121; 107; 53; 104; 116; 116; 112; 58; 47; 47; 108; 111; 99; 97; 108; 104; 111;
  115; 116; 58; 56; 53; 52; 53; 0; 65; 110; 189; 255; 255].

Definition CHAIN_ID_MAINNET : Z := 0x01.
Definition CHAIN_ID_GOERLI : Z := 0x5.
Definition CHAIN_ID_EWC : Z := 0xf6.
Definition CHAIN_ID_LOCAL : Z := 0x11.
Definition nodeselect_def_cfg_data (chain_id : Z) : option (list Z) :=
  if chain_id =? CHAIN_ID_MAINNET then Some BOOT_NODES_MAINNET_BIN
  else if chain_id =? CHAIN_ID_GOERLI then Some BOOT_NODES_GOERLI_BIN
  else if chain_id =? CHAIN_ID_IPFS then Some BOOT_NODES_IPFS_BIN
  else if chain_id =? CHAIN_ID_BTC then Some BOOT_NODES_BTC_BIN
  else if chain_id =? CHAIN_ID_EWC then Some BOOT_NODES_EWC_BIN
  else if chain_id =? CHAIN_ID_LOCAL then Some BOOT_NODES_LOCAL_BIN
  else None.
(** NULL without a configuration or if it cannot be parsed. *)
Definition nodeselect_def_cfg (chain_id : Z) : res unit (option json_ctx_t) :=
  match nodeselect_def_cfg_data chain_id with Some d => parse_binary d | None => Ok None tt end.
