(* ===== verification/NodeConfig.v ===== *)
(** * nodeselect/full/nodeselect_def.c: configuration of the nodelist

    [config_set] takes over one entry of a configuration, [init_boot_nodes] the built-in one of a
    chain and what the cache holds.  An error is its message, without the name of the key the code
    puts in front of it. *)
From S2P Require Import Prelude Utils Bytes Bitset Data Json JsonVal ReqState Request Serialize Nano ReqNew NodeData NodeCache NodeList NodeBoot.
From stdpp Require Import strings.
#[local] Open Scope Z_scope.

Definition avg_block_time_for_chain_id (id : Z) : Z := if (id =? CHAIN_ID_MAINNET) || (id =? CHAIN_ID_GOERLI) then 15 else 5.

(** ** Checks of the values (debug.h), after [d_bytes] replaced hexadecimal strings *)
Definition is_addr (v : jval) : bool := d_is_bytes v && (zlen (default [] (d_bytes (Some v))) =? 20).
Definition is_b256 (v : jval) : bool := d_is_bytes v && (zlen (default [] (d_bytes (Some v))) =? 32).
Definition is_u64 (v : jval) : bool := (jtype (Some v) =? T_INTEGER) || (d_is_bytes v && (jlen (Some v) <=? 8)).
Definition is_u16 (v : jval) : bool := (jtype (Some v) =? T_INTEGER) && (0 <=? d_int (Some v)) && (d_int (Some v) <=? 0xFFFF).
Definition is_u8 (v : jval) : bool := (jtype (Some v) =? T_INTEGER) && (0 <=? d_int (Some v)) && (d_int (Some v) <=? 0xFF).
(** The tokens of a container with their keys; those of an array are its indexes. *)
Definition entries_of (v : jval) : option (list (Z * jval)) :=
  match v with JObject kvs => Some kvs | JArray vs => Some (imap (fun i x => (Z.of_nat i, x)) vs) | _ => if jlen (Some v) =? 0 then Some [] else None end.

(** ** Nodes *)
Section Nodes.
Context `{Allocator}.
(** What the new entry of a list holds: zeros in a new block, anything in one that grew. *)
Definition fresh_node (grown : bool) (index : Z) (address : list Z) : in3_node_t :=
  mk_in3_node address (grown && negb (rd (malloc 2) 0 =? 0)) index 1 0 0 [] (BIT_CLEAR (if grown then rd (malloc 2) 1 else 0) ATTR_WHITELISTED).
Definition set_node (props : Z) (url : list Z) (n : in3_node_t) : in3_node_t := mk_in3_node (n_address n) (n_blocked n) (n_index n) (n_capacity n) (n_deposit n) props url (n_attrs n).
Definition add_node (d : in3_nodeselect_def_t) (url : list Z) (props : Z) (address : list Z) : option in3_nodeselect_def_t :=
  match first_index (all_nodes d) address 0 with
  | Some i =>
      if (i <? length (all_weights d))%nat then
        Some (set_nodelist (alter (set_node props (cstr url)) i <$> nodelist d) (set_weights (<[i := mk_weight 0 0 0]> <$> weights d) d))
      else None
  | None =>
      let n := length (all_nodes d) in
      let grown := bool_decide (is_Some (nodelist d)) in
      if (n <=? length (all_weights d))%nat then
        Some (replace_nodes (all_nodes d ++ [set_node props (cstr url) (fresh_node grown (Z.of_nat n) address)]) (take n (all_weights d) ++ [mk_weight 0 0 0]) d)
      else None
  end.
Definition clear_nodes (d : in3_nodeselect_def_t) : in3_nodeselect_def_t :=
  set_offlines (map (fun o => mk_offline Freed (off_reporter o)) (offlines d)) (set_weights None (set_nodelist None (set_dirty true d))).
Definition last_is_boot_node (d : in3_nodeselect_def_t) : in3_nodeselect_def_t :=
  set_nodelist (alter (fun n => set_attrs (BIT_SET (n_attrs n) ATTR_BOOT_NODE) n) (length (all_nodes d) - 1)%nat <$> nodelist d) d.
End Nodes.

Section Config.
Context `{SourceText} `{Allocator} {W : Type} `{!NodeWorld W} (plugins : list (in3_plugin_t W)) (ci : nat).
#[local] Abbreviation st := (state W).
#[local] Abbreviation data := (nl_data ci).
#[local] Abbreviation upd_data := (upd_data ci).
Definition upd_client (f : in3_t -> in3_t) : M st unit := modify (fun s => mk_state (self s) (required s) (f (client s)) (world s)).
Definition upd_config (f : in3_nodeselect_config_t -> in3_nodeselect_config_t) : M st unit :=
  modify (fun s => mk_state (self s) (required s) (client s) (set_nl_conf (f (nl_conf (world s))) (world s))).
(** The macros EXPECT_CFG and EXPECT_TOK. *)
Definition expect (cond : bool) (msg : string) (k : M st (option string)) : M st (option string) := if cond then k else mret (Some msg).
Definition no_error : M st (option string) := mret None.
(** A list of its own instead of the shared one; [w] tells whether there is a configuration. *)
Definition fresh_data (shared : bool) (chain_id : Z) : in3_nodeselect_def_t :=
  mk_data false (avg_block_time_for_chain_id chain_id) 0 (replicate 20 0) (replicate 32 0) None None [] None (Some (mk_upd8 0 0 (replicate 20 0))) chain_id Null shared.
Definition nodelist_seperate_from_registry (w : bool) : M st unit := upd_data (fun d => if w && nl_shared d then fresh_data false (nl_chain_id d) else d).

(** ** The entries of the registry *)
(** The addresses, or the message and the whitelist that remains: those written before an entry that is
    no address, none if one was given twice. *)
Fixpoint whitelist_entries (vs : list jval) (i : nat) (acc : list Z) : string * option (list Z) + list Z :=
  match vs with
  | [] => inr acc
  | v :: t =>
      if negb (is_addr v) then inl ("expected address"%string, Some acc)
      else
        let a := default [] (d_bytes (Some v)) in
        if existsb (fun j => bool_decide (take 20 (drop (20 * j) acc) = a)) (seq 0 (length acc / 20)) then inl ("duplicate address!"%string, None)
        else whitelist_entries t (S i) (take (20 * i) acc ++ d_bytes_to (Some v) 20 ++ drop (20 * i + 20) acc)
  end.
Fixpoint add_nodes (vs : list jval) : M st (option string) :=
  match vs with
  | [] => no_error
  | v :: t =>
      match jget (Some v) K_URL, jget (Some v) K_ADDRESS with
      | Some url, Some adr =>
          expect (jtype (Some url) =? T_STRING) "expected string value"
          (expect (is_addr adr) "expected address"
             (d ← data;
              d' ← defined (add_node d (default [] (d_string (Some url))) (d_longd (jget (Some v) K_PROPS) 65535) (default [] (d_bytesl (Some adr) 20)));
              upd_data (fun _ => last_is_boot_node d') ;;
              add_nodes t))
      | _, _ => mret (Some "expected URL & address"%string)
      end
  end.
Definition key_is (k : Z) (name : string) : bool := k =? key name.
(** [has_wlc] and [has_man_wl] are the flags of the loop. *)
Definition registry_entry (has_wlc has_man_wl : bool) (k : Z) (v : jval) : M st (option string * bool * bool) :=
  let v := norm v in
  let b := default [] (d_bytes (Some v)) in
  let keep (m : M st (option string)) : M st (option string * bool * bool) := r ← m; mret (r, has_wlc, has_man_wl) in
  if key_is k "contract" then keep (expect (is_addr v) "expected address" (upd_data (fun d => set_registry b (registry_id d) d) ;; no_error))
  else if key_is k "registryId" then keep (expect (is_b256 v) "expected 256 bit data" (upd_data (fun d => set_registry (nl_contract d) b d) ;; no_error))
  else if key_is k "whiteListContract" then
    if negb (is_addr v) then mret (Some "expected address"%string, has_wlc, has_man_wl)
    else if has_man_wl then mret (Some "cannot specify manual whiteList and whiteListContract together!"%string, has_wlc, has_man_wl)
    else upd_data (set_whitelist (Some (mk_whitelist true 0 b []))) ;; mret (None, true, has_man_wl)
  else if key_is k "whiteList" then
    match v with
    | JArray vs =>
        if has_wlc then mret (Some "cannot specify manual whiteList and whiteListContract together!"%string, has_wlc, has_man_wl)
        else
          let manual := mk_whitelist false 0 (replicate 20 0) in
          match whitelist_entries vs 0 (replicate (20 * length vs) 0) with
          | inr a => upd_data (set_whitelist (Some (manual a))) ;; mret (None, has_wlc, true)
          | inl (msg, rest) => upd_data (set_whitelist (manual <$> rest)) ;; mret (Some msg, has_wlc, true)
          end
    | _ => mret (Some "expected array"%string, has_wlc, has_man_wl)
    end
  else if key_is k "needsUpdate" then
    keep (expect (jtype (Some v) =? T_BOOLEAN) "expected boolean value"
      (upd_data (fun d => if d_int (Some v) =? 0 then set_upd8 None d
                          else match nodelist_upd8_params d with Some _ => d | None => set_upd8 (Some (mk_upd8 0 0 (replicate 20 0))) d end) ;; no_error))
  else if key_is k "avgBlockTime" then keep (expect (is_u16 v) "expected uint16 value" (upd_data (set_avg_block_time (d_int (Some v))) ;; no_error))
  else if key_is k "nodeList" then
    match v with
    | JArray vs => keep (upd_data clear_nodes ;; add_nodes vs)
    | _ => mret (Some "expected array"%string, has_wlc, has_man_wl)
    end
  else mret (None, has_wlc, has_man_wl).
Fixpoint registry_entries (kvs : list (Z * jval)) (has_wlc has_man_wl : bool) : M st (option string) :=
  match kvs with
  | [] => no_error
  | (k, v) :: t =>
      x ← registry_entry has_wlc has_man_wl k v;
      let '(r, wlc, man) := x in
      match r with Some msg => mret (Some msg) | None => registry_entries t wlc man end
  end.
(** [%x] of an [int]. *)
Fixpoint without_zeros (l : list Z) : list Z := match l with 48 :: (_ :: _) as t => without_zeros t | _ => l end.
Definition hex_of (n : Z) : list Z := without_zeros (bytes_to_hex_loop (be_bytes 4 n)).
Definition set_node_registry (w : bool) (v : jval) : M st (option string) :=
  expect (jtype (Some v) =? T_OBJECT) "expected object"
    (id ← gets (fun s => default 0 (ch_id <$> main_chain (client s)));
     let v := default v (jget (Some v) (let node_id := str "0x" ++ hex_of (u32 id) in keyn node_id (length node_id))) in
     nodelist_seperate_from_registry w ;;
     kvs ← defined (entries_of v);
     r ← registry_entries kvs false false;
     match r with
     | Some msg => mret (Some msg)
     | None =>
         in3_client_run_chain_whitelisting ci ;;
         d ← data;
         expect (bool_decide (is_Some (nodeselect_def_cfg_data id)) || (negb (memiszero (registry_id d)) && negb (memiszero (nl_contract d)))) "missing registryId/contract!" no_error
     end).

(** ** One entry of the configuration *)
Definition set_client_mode (proof : in3_proof_t) (sigs : Z) (id : Z) (c : in3_t) : in3_t :=
  mk_client (match chains c with ch :: t => mk_chain id (ch_type ch) (ch_version ch) (verified_hashes ch) :: t | [] => [] end)
    (max_verified_hashes c) (alloc_verified_hashes c) proof (c_finality c) (c_flags c) (c_pending c) (id_count c) sigs (replace_latest_block c).
Definition set_replace_latest (x : Z) (c : in3_t) : in3_t :=
  mk_client (chains c) (max_verified_hashes c) (alloc_verified_hashes c) (c_proof c) (c_finality c) (c_flags c) (c_pending c) (id_count c) (signature_count c) x.
Definition rpc_node (url : list Z) : in3_node_t := mk_in3_node (replicate 20 0) false 0 0 0 NODE_PROP_DATA url 0.
(** The result and the message; [w] is false for the built-in configuration, which has no [w] to change. *)
Definition config_entry (w : bool) (k : Z) (v : jval) : M st (option (option string)) :=
  let v := norm v in
  let handled (m : M st (option string)) : M st (option (option string)) := r ← m; mret (Some r) in
  if key_is k "preselect_nodes" then
    match v with
    | JBytes l =>
        if Z.rem (zlen l) 20 =? 0 then upd_data (set_pre_filter (Live l)) ;; mret (Some None)
        else upd_data (fun d => set_pre_filter (freed (pre_address_filter d)) d) ;; mret (Some (Some "invalid preselect_nodes "%string))
    | JNull => upd_data (set_pre_filter Null) ;; mret (Some None)
    | _ => upd_data (fun d => set_pre_filter (freed (pre_address_filter d)) d) ;; mret (Some (Some "invalid preselect_nodes "%string))
    end
  else if key_is k "replaceLatestBlock" then
    handled (expect (is_u8 v) "expected uint8 value"
      (upd_client (set_replace_latest (d_int (Some v))) ;;
       upd_config (fun c => mk_config (nl_chains c) (Z.lor (Z.land (node_props c) 0xFFFFFFFF) (Z.shiftl (d_int (Some v)) 32)) (min_deposit c) (node_limit c) (request_count c)) ;; no_error))
  else if key_is k "requestCount" then
    handled (expect (is_u8 v) "expected uint8 value" (expect (negb (d_int (Some v) =? 0)) "requestCount must be at least 1"
      (upd_config (fun c => mk_config (nl_chains c) (node_props c) (min_deposit c) (node_limit c) (d_int (Some v))) ;; no_error)))
  else if key_is k "minDeposit" then
    handled (expect (is_u64 v) "expected uint64 value" (upd_config (fun c => mk_config (nl_chains c) (node_props c) (d_long (Some v)) (node_limit c) (request_count c)) ;; no_error))
  else if key_is k "nodeProps" then
    handled (expect (is_u64 v) "expected uint64 value" (upd_config (fun c => mk_config (nl_chains c) (d_long (Some v)) (min_deposit c) (node_limit c) (request_count c)) ;; no_error))
  else if key_is k "nodeLimit" then
    handled (expect (is_u16 v) "expected uint16 value" (upd_config (fun c => mk_config (nl_chains c) (node_props c) (min_deposit c) (d_int (Some v)) (request_count c)) ;; no_error))
  else if key_is k "nodeRegistry" || key_is k "servers" || key_is k "nodes" then handled (set_node_registry w v)
  else if key_is k "rpc" then
    handled (expect (jtype (Some v) =? T_STRING) "expected string value"
      (nodelist_seperate_from_registry w ;;
       upd_client (set_client_mode PROOF_NONE 0 CHAIN_ID_LOCAL) ;;
       upd_config (fun c => mk_config (nl_chains c) (node_props c) (min_deposit c) (node_limit c) 1) ;;
       upd_data (fun d => set_upd8 None (replace_nodes [rpc_node (cstr (default [] (d_string (Some v))))] [mk_weight 0 0 0] (clear_nodes d))) ;; no_error))
  else mret None.
Definition config_set (w : bool) (k : Z) (v : jval) : M st (Z * option string) :=
  r ← config_entry w k v;
  mret (match r with None => (IN3_EIGNORE, None) | Some None => (IN3_OK, None) | Some (Some msg) => (IN3_ECONFIG, Some msg) end).

Definition in3_cache_init : M st Z :=
  in3_cache_update_nodelist plugins ci ;; in3_cache_update_whitelist plugins ci ;; in3_client_run_chain_whitelisting ci ;; mret IN3_OK.
Definition init_boot_nodes (chain_id : Z) : M st Z :=
  v ← doc (nodeselect_def_cfg chain_id);
  match v with
  | None => mret IN3_ECONFIG
  | Some v =>
      reg ← defined (jget (Some v) (key "nodeRegistry"));
      r ← config_set false (key "nodeRegistry") reg;
      if negb (fst r =? IN3_OK) then mret IN3_ECONFIG
      else
        upd_data (fun d => set_nodelist (map (fun n => set_attrs (BIT_SET (n_attrs n) ATTR_BOOT_NODE) n) <$> nodelist d) d) ;;
        in3_cache_init
  end.
Definition chain_change : M st Z :=
  id ← gets (fun s => default 0 (ch_id <$> main_chain (client s)));
  upd_data (set_avg_block_time (avg_block_time_for_chain_id id)) ;;
  init_boot_nodes id.
End Config.
