(* ===== verification/NodeRegistry.v ===== *)
(** * nodeselect/full/registry.c: a nodelist against the registry contract

    A node proves the list it returns: [verify_account] checks the signed block header, the proof of
    the registry contract's account in the state and the proofs of storage values below it, and
    [verify_nodelist_data] that these are the number of nodes and the hash of every node in the list
    (all of them, or those at the indexes that a seed of the client selects).  The whitelist is one
    hash.  [fuel] bounds the search for indexes, which goes on as long as they repeat. *)
From S2P Require Import Prelude Utils Bytes Rlp Merkle Data Json JsonVal ReqState Request Serialize Nano NodeData NodeList.
From stdpp Require Import strings.
#[local] Open Scope Z_scope.

Definition K_CONTRACT : Z := Eval vm_compute in key "contract".
Definition K_KEY : Z := Eval vm_compute in key "key".
Definition K_TOTAL_SERVERS : Z := Eval vm_compute in key "totalServers".
Definition K_ACCOUNTS : Z := Eval vm_compute in key "accounts".
Definition K_ACCOUNT_PROOF : Z := Eval vm_compute in key "accountProof".
Definition K_WEIGHT : Z := Eval vm_compute in key "weight".
Definition BLOCKHEADER_STATE_ROOT : Z := 3.

(** ** Storage values *)

(** The bytes of a token that [d_bytes] has converted before. *)
Definition d_bytes_again (t : option jval) : list Z := default [] (d_bytes (norm <$> t)).
(** The length of the key is kept in eight bits. *)
Definition is_key (key skey : list Z) : bool :=
  let k := optimize_len skey in
  let p := optimize_len (take (Z.to_nat (u8 (zlen key))) key) in
  (bool_decide (p = []) && bool_decide (k = [0])) || bool_decide (p = k).
Definition as_bytes32 (b : list Z) : list Z := fill_left 32 (take 32 b).
Definition get_storage_value (storage_proofs : list jval) (skey : list Z) : option (list Z) :=
  t ← find (fun t => is_key (d_bytes_again (jget (Some t) K_KEY)) skey) storage_proofs;
  Some (as_bytes32 (d_bytes_again (jget (Some t) K_VALUE))).

(** ** Indexes of a partial list *)
Section Indexes.
Context `{Keccak}.
Fixpoint random_loop (fuel : nat) (node_limit total_servers : Z) (seed : list Z) (step pos : Z) (indexes : list Z) : option (list Z) :=
  if node_limit <=? zlen indexes then Some indexes
  else
    match fuel with
    | O => None
    | S f =>
        if bool_decide (pos ∈ indexes) then
          let seed := keccak seed in
          let step := bytes_to_long seed 6 in
          random_loop f node_limit total_servers seed step (u64 (pos + step) mod total_servers) indexes
        else random_loop f node_limit total_servers seed step (u64 (pos + step) mod total_servers) (indexes ++ [u32 pos])
    end.
(** The first 12 bytes of the seed, filled up to 32, are step and start; [inl] is undefined. *)
Definition create_random_indexes (fuel : nat) (total_servers node_limit : Z) (src_seed : option (list Z)) (seed_indexes : list Z) : unit + option (list Z) :=
  match src_seed with
  | None => inr (Some (replicate (Z.to_nat node_limit) 0))
  | Some seed =>
      if (32 <? length seed)%nat || (node_limit <? zlen seed_indexes) then inl tt
      else
        let seed_data := fill_left 32 seed in
        inr (random_loop fuel node_limit total_servers seed_data (bytes_to_long seed_data 6) (bytes_to_long (drop 6 seed_data) 6 mod total_servers) seed_indexes)
  end.
Definition get_storage_array_key (pos array_index struct_size struct_pos : Z) : option (list Z) :=
  let dst := replicate 28 0 ++ be_bytes 4 pos in
  if struct_size =? 0 then Some dst
  else b256_add (keccak dst) (be_bytes 4 (u32 (array_index * struct_size + struct_pos))).

(** ** The hash of a node *)

(** A value in a field of [w] bytes: one that is too long is left out. *)
Definition hash_field (t : option jval) (key : Z) (w : nat) : list Z :=
  match d_bytes (jget t key) with
  | Some val => if (length val <=? w)%nat then fill_left w val else replicate w 0
  | None => replicate w 0
  end.
Definition node_data (t : option jval) : list Z :=
  hash_field t K_DEPOSIT 32 ++ hash_field t K_REGISTER_TIME 8 ++ hash_field t K_PROPS 24 ++ hash_field t K_WEIGHT 8 ++ hash_field t K_ADDRESS 20 ++ default [] (d_bytes (jget t K_URL)).
Definition create_node_hash (t : option jval) : list Z := keccak (node_data t).
End Indexes.

Section Verify.
Context `{SourceText} `{Keccak} `{Allocator} `{Ecdsa} {W : Type} `{!NodeWorld W} (plugins : list (in3_plugin_t W)) (fuel : nat) (m : memory) (place : list Z -> slice).
#[local] Abbreviation st := (state W).
#[local] Abbreviation vc_err := (vc_err plugins).
Definition check_storage (storage_proofs : list jval) (skey value : list Z) : M st Z :=
  match get_storage_value storage_proofs skey with
  | None => vc_err "Could not find the storage key"
  | Some tmp => if negb (memcmp value tmp =? 0) then vc_err "wrong storage value" else mret IN3_OK
  end.

(** ** The list *)
Definition index_of (t : jval) : Z := u32 (d_int (jget (Some t) K_INDEX)).
(** The indexes of the required addresses go into a block of [size] bytes, four for each. *)
Fixpoint seed_indexes_loop (size : Z) (server_list required : list jval) (found : list Z) : M st (Z + list Z) :=
  match required with
  | [] => mret (inr found)
  | r :: t =>
      let adr := default [] (d_bytesl (Some r) 20) in
      match find (fun n => bool_decide (default [] (d_get_byteskl (Some n) K_ADDRESS 20) = adr)) server_list with
      | None => e ← vc_err "could not find required address"; mret (inl e)
      | Some n => if size <? 4 * zlen found + 4 then undef else seed_indexes_loop size server_list t (found ++ [index_of n])
      end
  end.
Definition same_indexes (server_list : list jval) (indexes : list Z) : bool := forallb (fun p => index_of p.1 =? p.2) (zip server_list indexes).
Definition check_indexes (total_servers node_limit : Z) (seed : option (list Z)) (required_addresses : option jval) (server_list : list jval) : M st Z :=
  let seed_len := match required_addresses with Some _ => jlen required_addresses | None => 0 end in
  required ← (if seed_len =? 0 then mret [] else defined (d_iter required_addresses));
  r ← seed_indexes_loop (if seed_len =? 0 then 1 else seed_len) server_list required [];
  match r with
  | inl e => mret e
  | inr seed_indexes =>
      match create_random_indexes fuel total_servers node_limit seed seed_indexes with
      | inl _ => undef
      | inr None => no_fuel
      | inr (Some indexes) => if same_indexes server_list indexes then mret IN3_OK else vc_err "wrong index in partial nodelist"
      end
  end.
Fixpoint check_nodes (storage_proofs server_list : list jval) : M st Z :=
  match server_list with
  | [] => mret IN3_OK
  | n :: t =>
      skey ← defined (get_storage_array_key 0 (index_of n) 5 4);
      r ← check_storage storage_proofs skey (create_node_hash (Some n));
      if r <? 0 then mret r else check_nodes storage_proofs t
  end.
Definition verify_nodelist_data (vc : in3_vctx_t) (node_limit : Z) (seed : option (list Z)) (required_addresses : option jval) (server_list storage_proofs : jval) : M st Z :=
  let total := jget (vc_result vc) K_TOTAL_SERVERS in
  let total_servers := u32 (d_int total) in
  proofs ← defined (d_iter (Some storage_proofs));
  skey ← defined (get_storage_array_key 0 0 0 0);
  r ← check_storage proofs skey (as_bytes32 (d_bytes_again total));
  if r <? 0 then mret r
  else
    r ← (if negb (node_limit =? 0) && (node_limit <? total_servers) then
           if negb (jlen (Some server_list) =? i32 node_limit) then vc_err "wrong length of the nodes!"
           else servers ← defined (d_iter (Some server_list)); check_indexes total_servers node_limit seed required_addresses servers
         else if negb (i32 total_servers =? jlen (Some server_list)) then vc_err "wrong number of nodes in the serverlist"
         else mret IN3_OK);
    if r <? 0 then mret r else servers ← defined (d_iter (Some server_list)); check_nodes proofs servers.

(** ** The whitelist *)
Definition whitelist_bytes (server_list : list jval) : option (list Z) :=
  l ← mapM (fun t => b ← d_bytesl (Some t) 20; read_at b 0 20) server_list;
  Some (concat l).
Definition verify_whitelist_data (vc : in3_vctx_t) (server_list storage_proofs : jval) : M st Z :=
  let total_servers := u32 (d_int (jget (vc_result vc) K_TOTAL_SERVERS)) in
  if negb (i32 total_servers =? jlen (Some server_list)) then vc_err "wrong number of nodes in the whitelist"
  else
    servers ← defined (d_iter (Some server_list));
    b ← defined (whitelist_bytes servers);
    skey ← defined (get_storage_array_key 0 1 0 0);
    proofs ← defined (d_iter (Some storage_proofs));
    check_storage proofs skey (keccak b).

(** ** Account and storage proofs *)

(** The value of a storage proof in the buffer of 36 bytes on the stack, which the encoder may not
    leave. *)
Definition storage_value (bb : bytes_builder_t) (value : list Z) : option (bytes_builder_t * expected_t) :=
  d ← bb_data bb;
  d ← memcpy_at d 0 value;
  let bb := mk_bb (bb_bsize bb) (Some d) (zlen value) (bb_heap bb) in
  match value with
  | [] => Some (bb, EAbsent)
  | _ => bb ← rlp_encode_to_item bb; c ← bb_content bb; Some (bb, EValue c)
  end.
Fixpoint check_storage_proofs (root : option (list Z)) (bb : bytes_builder_t) (storage_proofs : list jval) : M st Z :=
  match storage_proofs with
  | [] => mret IN3_OK
  | t :: rest =>
      let path := keccak (d_bytes_to (jget (Some t) K_KEY) 32) in
      proof ← defined (d_create_bytes_vec (jget (Some t) K_PROOF));
      match proof with
      | None => vc_err "no merkle proof for the storage"
      | Some proof =>
          be ← defined (storage_value bb (default [] (d_bytes (jget (Some t) K_VALUE))));
          root_ ← defined root;
          r ← defined (trie_verify_proof m root_ path (map place proof) (snd be));
          if negb (fst r) then vc_err "invalid storage proof" else check_storage_proofs root (fst be) rest
      end
  end.
(** The account of the contract below the state root of the header, and its storage. *)
Definition check_account (header contract : list Z) (account : jval) : M st (Z + jval) :=
  let fail (msg : string) : M st (Z + jval) := e ← vc_err msg; mret (inl e) in
  item ← header_item m place header BLOCKHEADER_STATE_ROOT;
  match item with
  | None => fail "no state root in the header"
  | Some root =>
      if negb (bool_decide (default [] (d_get_byteskl (Some account) K_ADDRESS 20) = contract)) then fail "wrong address in the account proof"
      else
        proof ← defined (d_create_bytes_vec (jget (Some account) K_ACCOUNT_PROOF));
        match proof with
        | None => fail "no merkle proof for the account"
        | Some proof =>
            account_raw ← defined (serialize_account (Some account));
            r ← defined (trie_verify_proof m (root_hash m root) (keccak contract) (map place proof) (EValue account_raw));
            if negb (fst r) then fail "invalid account proof"
            else
              match jget (Some account) K_STORAGE_PROOF with
              | None => fail "no stortage-proof found!"
              | Some storage_proof =>
                  match d_getl (Some account) K_STORAGE_HASH 32 with
                  | None => fail "no storage-hash found!"
                  | Some t =>
                      proofs ← defined (d_iter (Some storage_proof));
                      r ← check_storage_proofs (d_bytes (Some t)) (mk_bb 36 (Some (malloc 36)) 0 false) proofs;
                      if r =? IN3_OK then mret (inr storage_proof) else mret (inl r)
                  end
              end
        end
  end.
(** The contract has to be the known one, if there is one; it is compared over 20 bytes. *)
Definition wrong_contract (required_contract : option (list Z)) (contract : list Z) : option bool :=
  match required_contract with
  | None => Some false
  | Some c => a ← read_at contract 0 20; Some (negb (memcmp a c =? 0))
  end.
(** An error, or the storage proofs and the list; with [vc->dont_blacklist]. *)
Definition verify_account (vc : in3_vctx_t) (required_contract : option (list Z)) : M st ((Z + jval * jval) * bool) :=
  let fail (db : bool) (msg : string) : M st ((Z + jval * jval) * bool) := e ← vc_err msg; mret (inl e, db) in
  match vc_result vc, vc_proof vc, jget (vc_result vc) K_NODES with
  | Some (JObject _), Some proof, Some server_list =>
      match d_bytes (jget (Some proof) K_BLOCK) with
      | None => fail (vc_dont_blacklist vc) "No Block-Proof!"
      | Some header =>
          rd ← eth_verify_blockheader plugins m place vc (Some header) None;
          let '(r, db) := rd in
          if r <? 0 then mret (inl r, db)
          else
            match d_get_byteskl (vc_result vc) K_CONTRACT 20 with
            | None => fail db "No or wrong Contract!"
            | Some contract =>
                wrong ← defined (wrong_contract required_contract contract);
                if (wrong : bool) then fail db "No or wrong Contract!"
                else
                  item ← header_item m place header BLOCKHEADER_NUMBER;
                  match item with
                  | None => fail db "The signature is based on older block!"
                  | Some d =>
                      if slice_number m d <? d_long (jget (vc_result vc) K_LAST_BLOCK_NUMBER) then fail db "The signature is based on older block!"
                      else
                        match jget (Some proof) K_ACCOUNTS with
                        | None => fail db "Invalid accounts!"
                        | Some accounts =>
                            if negb (jlen (Some accounts) =? 1) then fail db "Invalid accounts!"
                            else
                              account ← defined (match d_iter (Some accounts) with Some [a] => Some a | _ => None end);
                              r ← check_account header contract account;
                              mret (match r with inl e => inl e | inr storage_proof => inr (storage_proof, server_list) end, db)
                        end
                  end
            end
      end
  | _, _, _ => fail (vc_dont_blacklist vc) "Invalid nodelist response!"
  end.
Definition eth_verify_in3_whitelist (data : in3_nodeselect_def_t) (vc : in3_vctx_t) : M st (Z * bool) :=
  rd ← verify_account vc (wl_contract <$> whitelist data);
  match fst rd with
  | inl e => mret (e, snd rd)
  | inr (storage_proof, server_list) => r ← verify_whitelist_data vc server_list storage_proof; mret (r, snd rd)
  end.
Definition eth_verify_in3_nodelist (data : in3_nodeselect_def_t) (vc : in3_vctx_t) (node_limit : Z) (seed : option (list Z)) (required_addresses : option jval) : M st (Z * bool) :=
  rd ← verify_account vc (Some (nl_contract data));
  match fst rd with
  | inl e => mret (e, snd rd)
  | inr (storage_proof, server_list) => r ← verify_nodelist_data vc node_limit seed required_addresses server_list storage_proof; mret (r, snd rd)
  end.

(** ** The verifier of the plugin (nodeselect_def.c) *)
Definition rpc_verify (ci : nat) (vc : in3_vctx_t) : M st (Z * bool) :=
  let done (r : Z) : M st (Z * bool) := mret (r, vc_dont_blacklist vc) in
  method ← (match vc_method vc with Some n => mret (cstr n) | None => if bool_decide (ch_type (vc_chain vc) = CHAIN_ETH) then mret [] else undef end);
  if negb (bool_decide (ch_type (vc_chain vc) = CHAIN_ETH)) && negb (bool_decide (method = str "in3_nodeList")) then done IN3_EIGNORE
  else
    p ← in3_req_get_proof (vc_index vc);
    if bool_decide (p = PROOF_NONE) then done IN3_OK
    else
      match vc_result vc with
      | None => done IN3_OK
      | Some _ =>
          _ ← defined (vc_method vc);
          d ← nl_data ci;
          if bool_decide (method = str "in3_nodeList") then
            let params := jget (Some (vc_request vc)) K_PARAMS in
            eth_verify_in3_nodelist d vc (u32 (d_int (jget_at params 0))) (d_bytes (jget_at params 1)) (jget_at params 2)
          else if bool_decide (method = str "in3_whiteList") then eth_verify_in3_whitelist d vc
          else done IN3_EIGNORE
      end.
End Verify.
