(* ===== verification/NodeSelect.v ===== *)
(** * nodeselect/full/nodeselect_def.c: the plugin that selects nodes

    The actions of the plugin: picking data nodes and signers, what happens with a node after its
    response (times, announcements of a new list, blacklisting, missing signatures), the data other
    plugins ask for, and [in3_nodeselect_handle_action] that dispatches them on the data of the chain
    of the request.  The mutexes, [nodelist_registry] and the actions INIT, TERM, CONFIG_GET and
    ADD_PAYLOAD are left out. *)
From S2P Require Import Prelude Utils Bytes Bitset Data Json JsonVal Rlp ReqState Request Serialize Nano ReqNew NodeData NodeCache NodeList NodeBoot NodeConfig NodeRegistry.
From stdpp Require Import strings.
#[local] Open Scope Z_scope.

Definition WAIT_TIME_CAP : Z := 3600.
Definition K_SIGNER_NODES : Z := Eval vm_compute in key "signerNodes".
Definition K_DATA_NODES : Z := Eval vm_compute in key "dataNodes".
Definition K_LAST_NODE_LIST : Z := Eval vm_compute in key "lastNodeList".
Definition K_LAST_WHITE_LIST : Z := Eval vm_compute in key "lastWhiteList".

(** The nodes of a list of addresses, without anything but the address. *)
Definition parse_signers (dsigners : option jval) : list node_match_t :=
  match dsigners with
  | Some (JArray vs) => omap (fun v => b ← d_bytes (Some v); if (length b =? 20)%nat then Some (mk_node 0 0 0 [] b) else None) vs
  | _ => []
  end.
(** The seconds until a new list is final; the product is computed in 64 bits and cut to 16. *)
Definition update_waittime (nodelist_block current_blk repl_latest avg_blktime : Z) : Z :=
  if current_blk <? nodelist_block then 0
  else
    let diff := u64 (current_blk - nodelist_block) in
    if repl_latest <=? diff then 0 else u16 (Z.min (u64 (u64 (repl_latest - diff) * avg_blktime)) WAIT_TIME_CAP).

Section Select.
Context `{SourceText} `{Keccak} `{Allocator} `{Ecdsa} {W : Type} `{!NodeWorld W} (plugins : list (in3_plugin_t W)) (max_attempts : Z) (fuel : nat) (m : memory) (place : list Z -> slice).
#[local] Abbreviation st := (state W).
#[local] Abbreviation req_set_error := (req_set_error plugins).

Section Chain.
Context (ci : nat).
#[local] Abbreviation data := (nl_data ci).
#[local] Abbreviation upd_data := (upd_data ci).
#[local] Abbreviation pick_nodes := (in3_node_list_pick_nodes plugins max_attempts fuel ci).

(** ** Picking *)
Definition set_picked (ns : list node_match_t) : M st unit := upd (fun r => set_nodes (signers r) ns r).
Definition data_filter (w : in3_nodeselect_config_t) (flags : Z) (proof : in3_proof_t) (r0 : jval) : in3_node_filter_t :=
  mk_filter (Z.lor (Z.lor (Z.lor (Z.land (node_props w) 0xFFFFFFFF) NODE_PROP_DATA) (if negb (Z.land flags FLAGS_HTTP =? 0) then NODE_PROP_HTTP else 0)) (if bool_decide (proof = PROOF_NONE) then 0 else NODE_PROP_PROOF))
    (jget (jget (Some r0) K_IN3) K_DATA_NODES) (parse_signers (jget (jget (Some r0) K_IN3) K_SIGNER_NODES)).
Definition pick_data : M st Z :=
  d ← data;
  id ← gets in3_chain_id;
  init ← (match nodelist d with Some _ => mret IN3_OK | None => init_boot_nodes plugins ci id end);
  if init =? IN3_ECONFIG then mret IN3_ECONFIG
  else
    r0 ← request0;
    w ← config;
    c ← gets client;
    proof ← in3_req_get_proof 0;
    let rc := if negb (signature_count c =? 0) && (request_count w <=? 1) then 2%nat else Z.to_nat (request_count w) in
    r ← pick_nodes rc (Some (data_filter w (c_flags c) proof r0));
    (if fst r =? IN3_OK then set_picked (snd r) else mret tt) ;;
    mret (fst r).
Definition auto_ask_sig : M st bool :=
  m ← req_is_method "in3_nodeList";
  c ← gets client;
  id ← gets in3_chain_id;
  mret (m && (Z.land (c_flags c) FLAGS_NODE_LIST_NO_SIG =? 0) && negb (id =? CHAIN_ID_BTC)).
(** The addresses of the picked nodes; where a node is gone the memory is left as it was. *)
Definition signer_addresses (d : in3_nodeselect_def_t) (ns : list node_match_t) : list (list Z) :=
  map (fun m => match get_node d (Some m) with Some n => n_address n | None => malloc 20 end) ns.
Definition pick_signer : M st Z :=
  proof ← in3_req_get_proof 0;
  ask ← auto_ask_sig;
  if bool_decide (proof = PROOF_NONE) && negb ask then mret IN3_OK
  else
    c ← gets client;
    let total_sig_cnt := if negb (signature_count c =? 0) then signature_count c else if (ask : bool) then 1 else 0 in
    if total_sig_cnt =? 0 then mret IN3_OK
    else
      r0 ← request0;
      w ← config;
      ns ← field nodes;
      r ← pick_nodes (Z.to_nat total_sig_cnt) (Some (mk_filter (Z.lor (node_props w) NODE_PROP_SIGNER) (jget (jget (Some r0) K_IN3) K_SIGNER_NODES) ns));
      if fst r <? 0 then req_set_error (Some (str "Could not find any nodes for requesting signatures")) (fst r)
      else
        d ← data;
        upd (fun q => set_nodes (signer_addresses d (snd r)) (nodes q) q) ;;
        mret IN3_OK.

(** ** After a response *)
Definition handle_failable : M st Z :=
  drop_upd8 ci (fun p => negb (exp_last_block p =? 0)) ;;
  rs ← gets required;
  match rs with
  | [] => mret IN3_OK
  | r :: _ =>
      d ← data;
      res ← (if nodelist_first_upd8 d then req_set_error (Some (default (str "error handling subrequest") (r_error r))) IN3_ERPC else mret IN3_OK);
      if res =? IN3_OK then req_remove_required 0 true else mret res
  end.
(** The entry of a node that misses a signature. *)
Fixpoint offline_get (d : in3_nodeselect_def_t) (l : list node_offline_t) (address : list Z) : option (option node_offline_t) :=
  match l with
  | [] => Some None
  | o :: t =>
      match off_node o with
      | Live i => n ← all_nodes d !! i; if bool_decide (n_address n = address) then Some (Some o) else offline_get d t address
      | _ => None
      end
  end.
(** The loop advances the head of the list to its end: the new entry is the only one. *)
Definition offline_add (index : nat) (reporter : list Z) (d : in3_nodeselect_def_t) : in3_nodeselect_def_t := set_offlines [mk_offline (Live index) reporter] d.
(** The loop advances the head of the list as well; every entry is compared, and none remains. *)
Fixpoint offline_compared (d : in3_nodeselect_def_t) (l : list node_offline_t) : option unit :=
  match l with
  | [] => Some tt
  | o :: t => match off_node o with Live i => all_nodes d !! i ;; offline_compared d t | _ => None end
  end.
Definition offline_remove : M st unit := d ← data; defined (offline_compared d (offlines d)) ;; upd_data (set_offlines []).
(** The signer at [pos] did not sign; the signers are 20 bytes each in one block. *)
Definition missing_signer (reporter : list Z) (pos : nat) : M st unit :=
  ss ← field signers;
  address ← defined (ss !! pos);
  d ← data;
  match first_index (all_nodes d) address 0 with
  | None => mret tt
  | Some i =>
      o ← defined (offline_get d (offlines d) address);
      match o with
      | Some o =>
          if bool_decide (off_reporter o = reporter) then mret tt
          else blacklist_node_addr ci address BLACKLISTTIME ;; offline_remove
      | None => upd_data (offline_add i reporter)
      end
  end.
Fixpoint missing_signers (reporter : list Z) (missing : Z) (pos : list nat) : M st unit :=
  match pos with
  | [] => mret tt
  | p :: t => (if BIT_CHECK missing (Z.of_nat p) then missing_signer reporter p else mret tt) ;; missing_signers reporter missing t
  end.
Definition handle_offline (reporter : list Z) (missing : Z) : M st Z := missing_signers reporter missing (seq 0 32) ;; mret IN3_OK.

(** A new list is announced; without its node the new parameters are what the memory holds. *)
Definition garbage_upd8 : nodelist_upd8_params_t := let m := malloc 36 in mk_upd8 (le_val (take 8 m)) (le_val (take 8 (drop 8 m))) (drop 16 m).
Definition check_autoupdate (response_in3 : option jval) (node : option node_match_t) : M st unit :=
  c ← gets client;
  if Z.land (c_flags c) FLAGS_AUTO_UPDATE_LIST =? 0 then mret tt
  else
    let last := d_long (jget response_in3 K_LAST_NODE_LIST) in
    let current := d_long (jget response_in3 K_CURRENT_BLOCK) in
    if current <? last then mret tt
    else
      d ← data;
      (if last_block d <? last then
         match get_node d node with
         | Some n =>
             now ← in3_time;
             upd_data (set_upd8 (Some (mk_upd8 last (u64 (now + update_waittime last current (replace_latest_block c) (avg_block_time d))) (n_address n))))
         | None => upd_data (set_upd8 (Some (default garbage_upd8 (nodelist_upd8_params d))))
         end
       else mret tt) ;;
      d ← data;
      match whitelist d with
      | Some wl =>
          if wl_last_block wl <? d_long (jget response_in3 K_LAST_WHITE_LIST)
          then upd_data (set_whitelist (Some (mk_whitelist true (wl_last_block wl) (wl_contract wl) (wl_addresses wl)))) else mret tt
      | None => mret tt
      end.
(** The time of a response is counted once, for a node that is not blocked. *)
Definition count_time (time : Z) (w : in3_node_weight_t) : in3_node_weight_t := mk_weight (u32 (response_count w + 1)) (u32 (total_response_time w + time)) (blacklisted_until w).
Definition handle_times (node : node_match_t) (n : nat) : M st unit :=
  d ← data;
  if is_blacklisted (get_node d (Some node)) then mret tt
  else
    x ← raw_at n;
    if rs_time x =? 0 then mret tt
    else
      match get_node d (Some node) with
      | None => mret tt
      | Some _ =>
          defined (get_node_weight_idx d (nm_index node)) ;;
          upd_data (fun d => set_weights (alter (count_time (rs_time x)) (nm_index node) <$> weights d) d) ;;
          set_raw_at n (mk_response 0 (rs_state x) (rs_data x))
      end.
Fixpoint handle_all_times (ns : list node_match_t) (n : nat) : M st unit :=
  match ns with [] => mret tt | m :: t => handle_times m n ;; handle_all_times t (S n) end.
(** After the loop over the nodes [node] is NULL, so that the node that answered is not tested. *)
Definition pick_followup (vnode : option node_match_t) : M st Z :=
  ns ← field nodes;
  match ns with
  | [] => mret IN3_EIGNORE
  | _ =>
      handle_all_times ns 0 ;;
      rp ← field responses;
      (match rp with
       | Null => mret tt
       | _ =>
           resp ← response_at 0;
           match jget (Some resp) K_IN3, jget (Some resp) K_ERROR with
           | Some v, None => check_autoupdate (Some v) vnode
           | _, _ => mret tt
           end
       end) ;;
      in3_cache_store_nodelist plugins ci
  end.
Definition get_min_blk_height (address : list Z) : M st (option Z) :=
  d ← data;
  mret ((fun n => in3_node_props_get (n_props n) NODE_PROP_MIN_BLOCK_HEIGHT) <$> find (fun n => bool_decide (n_address n = address)) (all_nodes d)).
End Chain.

(** ** Dispatch *)

(** The index of the data of a chain, which is created if there is none. *)
Definition in3_get_nodelist_data (chain_id : Z) : M st nat :=
  w ← config;
  match list_find (fun d => nl_chain_id d = chain_id) (nl_chains w) with
  | Some (i, _) => mret i
  | None => upd_config (fun w => set_nl_chains (nl_chains w ++ [fresh_data true chain_id]) w) ;; mret (length (nl_chains w))
  end.
Definition chain_index : M st nat :=
  id ← gets in3_chain_id;
  main ← gets (fun s => default 0 (ch_id <$> main_chain (client s)));
  if main =? id then mret 0%nat else in3_get_nodelist_data id.
Definition in3_nodeselect_handle_action (action : Z) (c : plg_ctx) : M st (Z * plg_ctx) :=
  match c with
  | C_pick type =>
      if action =? PLGN_ACT_NL_PICK then
        ci ← chain_index; r ← (match type with NL_DATA => pick_data ci | NL_SIGNER => pick_signer ci end); mret (r, c)
      else mret (IN3_EIGNORE, c)
  | C_pick_followup node => if action =? PLGN_ACT_NL_PICK_FOLLOWUP then ci ← chain_index; r ← pick_followup ci node; mret (r, c) else mret (IN3_EIGNORE, c)
  | C_blacklist address => if action =? PLGN_ACT_NL_BLACKLIST then ci ← chain_index; r ← blacklist_node_addr ci address BLACKLISTTIME; mret (r, c) else mret (IN3_EIGNORE, c)
  | C_req => if action =? PLGN_ACT_NL_FAILABLE then ci ← chain_index; r ← handle_failable ci; mret (r, c) else mret (IN3_EIGNORE, c)
  | C_offline vc missing => if action =? PLGN_ACT_NL_OFFLINE then ci ← chain_index; r ← handle_offline ci (nm_address (vc_node vc)) missing; mret (r, c) else mret (IN3_EIGNORE, c)
  | C_verify vc => if action =? PLGN_ACT_RPC_VERIFY then ci ← chain_index; r ← rpc_verify plugins fuel m place ci vc; mret (fst r, C_verify (with_blacklist vc (snd r))) else mret (IN3_EIGNORE, c)
  | C_registry_id _ => if action =? PLGN_ACT_GET_DATA then ci ← chain_index; d ← nl_data ci; mret (IN3_OK, C_registry_id (Some (registry_id d))) else mret (IN3_EIGNORE, c)
  | C_min_blk_height signer _ => if action =? PLGN_ACT_GET_DATA then ci ← chain_index; h ← get_min_blk_height ci signer; mret (IN3_OK, C_min_blk_height signer h) else mret (IN3_EIGNORE, c)
  | _ => mret (IN3_EIGNORE, c)
  end.
End Select.
