(* ===== verification/NodeInv.v ===== *)
(** * nodeselect/full: the lists keep their shape

    A judgement for steps that keep an invariant of the world ([keeps]), which every function of the
    plugin is shown to satisfy for the invariant that each list has a weight for each node, addresses of
    20 bytes and numbers in the width of their fields.  The other plugins may do anything that keeps it. *)
From S2P Require Import Prelude Utils Bytes Bitset Rlp Merkle Data Json JsonVal ReqState Request ReqFrame Serialize Nano ReqNew NodeData NodeCache NodeList NodePick NodeBoot NodeConfig NodeRegistry NodeSelect.
From stdpp Require Import strings.
#[local] Open Scope Z_scope.

(** ** Steps that keep an invariant of the world *)
Section Keeps.
Context {W : Type} (I : W -> Prop).
#[local] Abbreviation st := (state W).
(** The invariant is kept, and the result satisfies [Q]. *)
Definition keeps_with {A} (Q : A -> Prop) (m : M st A) : Prop := forall s, I (world s) ->
  match m s with Ok a s' => I (world s') /\ Q a | Err _ s' => I (world s') | Undef | NoFuel => True end.
Definition keeps (A : Type) (m : M st A) : Prop := keeps_with (fun _ => True) m.
Lemma keeps_bind_with {A B} (Q : A -> Prop) (R : B -> Prop) (m : M st A) (k : A -> M st B) : keeps_with Q m -> (forall a, Q a -> keeps_with R (k a)) -> keeps_with R (m ≫= k).
Proof. intros Hm Hk s Hs. specialize (Hm s Hs). unfold mbind, M_bind. destruct (m s) as [a s'|e s'| |]; try done. destruct Hm as [Hs' Ha]. by apply Hk. Qed.
Lemma keeps_weaken {A} (Q R : A -> Prop) (m : M st A) : keeps_with Q m -> (forall a, Q a -> R a) -> keeps_with R m.
Proof. intros Hm HQ s Hs. specialize (Hm s Hs). destruct (m s); try done. destruct Hm. auto. Qed.
Lemma keeps_bind {A B} (R : B -> Prop) (m : M st A) (k : A -> M st B) : keeps A m -> (forall a, keeps_with R (k a)) -> keeps_with R (m ≫= k).
Proof. intros Hm Hk. eapply keeps_bind_with; [exact Hm|]. auto. Qed.
Lemma keeps_ret {A} (Q : A -> Prop) a : Q a -> keeps_with Q (mret a).
Proof. intros Ha s Hs. done. Qed.
Lemma keeps_undef {A} (Q : A -> Prop) : keeps_with Q (undef (A := A)).
Proof. by intros s Hs. Qed.
Lemma keeps_gets {A} (f : st -> A) : keeps A (gets f).
Proof. by intros s Hs. Qed.
Lemma keeps_defined {A} (o : option A) : keeps_with (fun a => o = Some a) (defined o).
Proof. destruct o; by intros s Hs. Qed.
(** Steps on the request or the client. *)
Lemma keeps_modify (f : st -> st) : (forall s, world (f s) = world s) -> keeps unit (modify f).
Proof. intros Hf s Hs. cbn. by rewrite Hf. Qed.
Lemma keeps_required {A} (m : M st A) : keeps A m -> keeps A (on_required m).
Proof. intros Hm s Hs. unfold on_required. destruct (required s) as [|r t]; [done|]. specialize (Hm (mk_state r t (client s) (world s)) Hs). by destruct (m _). Qed.
Lemma keeps_required_at {A} i (m : M st A) : keeps A m -> keeps A (on_required_at i m).
Proof. intros Hm s Hs. unfold on_required_at. destruct (required s !! i) as [r|]; [|done]. specialize (Hm (mk_state r (drop (S i) (required s)) (client s) (world s)) Hs). by destruct (m _). Qed.
Lemma keeps_new {A} r (m : M st A) : keeps A m -> keeps _ (on_new r m).
Proof. intros Hm s Hs. unfold on_new. specialize (Hm (mk_state r [] (client s) (world s)) Hs). by destruct (m _). Qed.
Lemma keeps_remove i rec : keeps Z (req_remove_required i rec).
Proof. intros s Hs. unfold req_remove_required. by destruct (required s !! i). Qed.

#[global] Instance keeps_modular : Modular keeps.
Proof.
  constructor; unfold keeps; intros.
  - by apply keeps_bind.
  - by apply keeps_ret.
  - apply keeps_undef.
  - apply keeps_gets.
  - by apply keeps_modify.
  - intros s Hs. unfold in3_get_chain. by destruct (find _ _).
Qed.

(** Plugins whose actions keep it. *)
Context (plugins : list (in3_plugin_t W)) (Hplugins : Forall (fun p => forall act c, keeps _ (action_fn p act c)) plugins).
Lemma keeps_pass act : forall ps c, Forall (fun p => forall act c, keeps _ (action_fn p act c)) ps -> keeps _ (plugin_pass ps act c).
Proof.
  induction ps as [|p ps IH]; intros c Hps; cbn [plugin_pass]; [by apply keeps_ret|]. inversion_clear Hps as [|? ? Hp Hps'].
  destruct (handles p act); [|by apply IH]. apply keeps_bind; [apply Hp|]. intros rc. destruct (rc.1 =? IN3_EIGNORE); [by apply IH|by apply keeps_ret].
Qed.
Lemma keeps_first_or_none report n act : (forall m e, keeps _ (report m e)) -> forall c, keeps _ (first_or_none plugins report n act c).
Proof.
  intros Hr. induction n as [|n IH]; intros c; cbn [first_or_none]; (apply keeps_bind; [by apply keeps_pass|]); intros [[ret|] c']; cbn [fst snd]; try by apply keeps_ret.
  - destruct (ret =? IN3_ERETRY); [|by apply keeps_ret]. apply keeps_bind; [apply Hr|]. intros e. by apply keeps_ret.
  - destruct (ret =? IN3_ERETRY); [apply IH|by apply keeps_ret].
Qed.
Lemma keeps_set_error fuel : forall m e, keeps _ (set_error_intern plugins fuel m e).
Proof.
  induction fuel as [|f IH]; intros [msg|] e; cbn [set_error_intern]; (destruct ((e =? IN3_WAITING) || (e =? IN3_OK)); [by apply keeps_ret|]);
    apply keeps_bind; try (intros ?; apply keeps_bind; [by apply keeps_modify|]; intros ?; by apply keeps_ret); try (by apply keeps_modify).
  - apply keeps_bind; [by apply keeps_modify|]. by intros ? s Hs.
  - apply keeps_bind; [by apply keeps_modify|]. intros ?. destruct (in3_plugin_is_registered _ _); [|by apply keeps_ret]. apply keeps_bind; [by apply keeps_first_or_none|]. intros ?. by apply keeps_ret.
Qed.
#[global] Instance keeps_plugins : ModularPlugins keeps plugins.
Proof. constructor; [intros; by apply keeps_pass|intros; apply keeps_set_error]. Qed.
Lemma keeps_each act : forall ps c ret, Forall (fun p => forall act c, keeps _ (action_fn p act c)) ps -> keeps _ (execute_each ps act c ret).
Proof.
  induction ps as [|p ps IH]; intros c ret Hps; cbn [execute_each]; [by apply keeps_ret|]. inversion_clear Hps as [|? ? Hp Hps'].
  destruct (handles p act); [|by apply IH]. apply keeps_bind; [apply Hp|]. intros rc. by apply IH.
Qed.
Lemma keeps_all act c : keeps _ (in3_plugin_execute_all plugins act c).
Proof. unfold in3_plugin_execute_all. destruct (in3_plugin_is_registered plugins act); [by apply keeps_each|by apply keeps_ret]. Qed.
End Keeps.

(** ** The shape of a list *)
Definition upd8_ok (p : nodelist_upd8_params_t) : Prop := length (upd8_node p) = 20%nat.
Record shape_ok (d : in3_nodeselect_def_t) : Prop := {
  sh_length : length (all_weights d) = length (all_nodes d);
  sh_both : is_Some (nodelist d) <-> is_Some (weights d);
  sh_address : Forall (fun n => length (n_address n) = 20%nat) (all_nodes d);
  sh_weights : Forall weight_ok (all_weights d);
  sh_contract : length (nl_contract d) = 20%nat;
  sh_registry : length (registry_id d) = 32%nat;
  sh_upd8 : forall p, nodelist_upd8_params d = Some p -> upd8_ok p }.
(** A change that leaves the lists alone. *)
Definition same_lists (d d' : in3_nodeselect_def_t) : Prop :=
  nodelist d' = nodelist d /\ weights d' = weights d /\ nl_contract d' = nl_contract d /\ registry_id d' = registry_id d /\ nodelist_upd8_params d' = nodelist_upd8_params d.
Lemma shape_same d d' : same_lists d d' -> shape_ok d -> shape_ok d'.
Proof. intros (E1 & E2 & E3 & E4 & E5) [S1 S2 S3 S4 S5 S6 S7]. constructor; unfold all_nodes, all_weights in *; rewrite ?E1, ?E2, ?E3, ?E4, ?E5; done. Qed.
(** Nodes with the same addresses, weights that are as many. *)
Lemma shape_nodes d ns ws d' : shape_ok d -> nodelist d' = Some ns -> weights d' = Some ws -> length ws = length ns ->
  Forall (fun n => length (n_address n) = 20%nat) ns -> Forall weight_ok ws ->
  nl_contract d' = nl_contract d -> registry_id d' = registry_id d -> (forall p, nodelist_upd8_params d' = Some p -> upd8_ok p) -> shape_ok d'.
Proof. intros [] E1 E2 Hl Hn Hw E3 E4 E5. constructor; unfold all_nodes, all_weights; rewrite ?E1, ?E2, ?E3, ?E4; try done. Qed.
Lemma shape_upd8 d p : shape_ok d -> (forall q, p = Some q -> upd8_ok q) -> shape_ok (set_upd8 p d).
Proof. intros [] Hp. by constructor. Qed.
Lemma shape_replace d ns ws : shape_ok d -> length ws = length ns -> Forall (fun n => length (n_address n) = 20%nat) ns -> Forall weight_ok ws -> shape_ok (replace_nodes ns ws d).
Proof. intros Hd Hl Hn Hw. eapply (shape_nodes d ns ws); try done. apply Hd. Qed.
Definition same_addresses (ns ns' : list in3_node_t) : Prop := map n_address ns' = map n_address ns.
Lemma same_addresses_ok ns ns' : same_addresses ns ns' -> Forall (fun n => length (n_address n) = 20%nat) ns -> Forall (fun n => length (n_address n) = 20%nat) ns' /\ length ns' = length ns.
Proof.
  intros E Hn. split; [|by rewrite <- (length_map n_address ns'), E, length_map].
  rewrite <- (List.Forall_map n_address (fun a => length a = 20%nat)) in *. by rewrite E.
Qed.
(** Changed nodes of the same addresses. *)
Lemma shape_set_nodelist d x : shape_ok d -> (is_Some x <-> is_Some (nodelist d)) -> same_addresses (all_nodes d) (default [] x) -> shape_ok (set_nodelist x d).
Proof.
  intros [S1 S2 S3 S4 S5 S6 S7] Hx Ha. destruct (same_addresses_ok _ _ Ha S3) as [Hn Hl]. constructor; cbn; try done; [|by rewrite Hx]. unfold all_weights, all_nodes in *. cbn. congruence.
Qed.
Lemma shape_set_weights d x : shape_ok d -> (is_Some x <-> is_Some (weights d)) -> length (default [] x) = length (all_weights d) -> Forall weight_ok (default [] x) -> shape_ok (set_weights x d).
Proof. intros [S1 S2 S3 S4 S5 S6 S7] Hx Hl Hw. constructor; cbn; try done; [|by rewrite Hx]. unfold all_weights, all_nodes in *. cbn. congruence. Qed.
Lemma shape_alter_node d i f : shape_ok d -> (forall n, n_address (f n) = n_address n) -> shape_ok (set_nodelist (alter f i <$> nodelist d) d).
Proof.
  intros Hd Hf. apply shape_set_nodelist; [done|by rewrite fmap_is_Some|]. unfold same_addresses, all_nodes. destruct (nodelist d) as [ns|]; [|done]. cbn.
  apply list_eq. intros j. change (@map in3_node_t (list Z)) with (@fmap list _ in3_node_t (list Z)). rewrite !list_lookup_fmap, list_lookup_alter. case_decide; [subst|done]. by destruct (ns !! j); cbn; rewrite ?Hf.
Qed.
Lemma shape_map_nodes d f : shape_ok d -> (forall n, n_address (f n) = n_address n) -> shape_ok (set_nodelist (map f <$> nodelist d) d).
Proof.
  intros Hd Hf. apply shape_set_nodelist; [done|by rewrite fmap_is_Some|]. unfold same_addresses, all_nodes. destruct (nodelist d) as [ns|]; [|done]. cbn. rewrite map_map. by apply map_ext.
Qed.
Lemma shape_map_weights d f : shape_ok d -> (forall w, weight_ok w -> weight_ok (f w)) -> shape_ok (set_weights (map f <$> weights d) d).
Proof.
  intros Hd Hf. apply shape_set_weights; [done|by rewrite fmap_is_Some|..]; pose proof (sh_weights d Hd) as Hw; unfold all_weights in *; destruct (weights d) as [ws|]; cbn in *; try done; [apply length_map|].
  apply Forall_fmap. eapply Forall_impl; [exact Hw|]. intros. by apply Hf.
Qed.
Lemma shape_alter_weight d i f : shape_ok d -> (forall w, weight_ok w -> weight_ok (f w)) -> shape_ok (set_weights (alter f i <$> weights d) d).
Proof.
  intros Hd Hf. apply shape_set_weights; [done|by rewrite fmap_is_Some|..]; pose proof (sh_weights d Hd) as Hw; unfold all_weights in *; destruct (weights d) as [ws|]; cbn in *; try done; [apply length_alter|].
  apply Forall_alter; [done|]. intros x _ Hx. by apply Hf.
Qed.
Lemma until_ok w x : weight_ok w -> weight_ok (set_blacklisted_until (u64 x) w).
Proof. intros (H1 & H2 & _). split; [done|]. split; [done|]. apply u64_range. Qed.
Lemma zero_weight_ok : weight_ok (mk_weight 0 0 0).
Proof. repeat split; cbn; lia. Qed.

(** ** The functions of the plugin *)
Definition lists_ok {W} `{!NodeWorld W} (w : W) : Prop := Forall shape_ok (nl_chains (nl_conf w)).
Create HintDb keeps.
Section Functions.
Context `{SourceText} `{Allocator} {W : Type} `{!NodeWorld W} (plugins : list (in3_plugin_t W)) (max_attempts : Z) (fuel : nat).
#[local] Abbreviation st := (state W).
#[local] Abbreviation K := (keeps (W := W) lists_ok).
Context (Hplugins : Forall (fun p => forall act c, K _ (action_fn p act c)) plugins).
#[local] Instance K_plugins : ModularPlugins (keeps (W := W) lists_ok) plugins := keeps_plugins lists_ok plugins Hplugins.

Lemma K_bind {A B} (m : M st A) (k : A -> M st B) : K A m -> (forall a, K B (k a)) -> K B (m ≫= k).
Proof. apply mod_bind. Qed.
Lemma K_with {A B} (Q : A -> Prop) (m : M st A) (k : A -> M st B) : keeps_with lists_ok Q m -> (forall a, Q a -> K B (k a)) -> K B (m ≫= k).
Proof. apply keeps_bind_with. Qed.
Lemma K_ret {A} (a : A) : K A (mret a).
Proof. apply mod_ret. Qed.
Lemma K_undef {A} : K A undef.
Proof. apply mod_undef. Qed.
Lemma K_gets {A} (f : st -> A) : K A (gets f).
Proof. apply mod_gets. Qed.
Lemma K_field {A} (f : in3_req_t -> A) : K A (field f).
Proof. apply mod_gets. Qed.
Lemma K_upd f : K unit (upd f).
Proof. by apply keeps_modify. Qed.
Lemma K_data ci : keeps_with lists_ok shape_ok (nl_data ci).
Proof. intros s Hs. unfold nl_data. destruct (nl_chains (nl_conf (world s)) !! ci) as [d|] eqn:E; [|done]. split; [done|]. by eapply Forall_lookup_1 in E. Qed.
Lemma K_upd_data ci f : (forall d, shape_ok d -> shape_ok (f d)) -> K unit (upd_data ci f).
Proof. intros Hf s Hs. cbn. split; [|done]. unfold lists_ok. rewrite conf_set. cbn. apply Forall_alter; [done|]. intros d _. apply Hf. Qed.
Lemma K_put ci d : shape_ok d -> K unit (upd_data ci (fun _ => d)).
Proof. intros Hd. by apply K_upd_data. Qed.
Lemma K_config : K _ config.
Proof. apply mod_gets. Qed.
Lemma K_time : K Z in3_time.
Proof. intros s Hs. unfold in3_time, on_world, mbind, M_bind, lists_ok in *. pose proof (conf_time (world s)) as E. destruct (time_fn (world s)) as [x w]. cbn in *. by rewrite E. Qed.
Lemma K_rand : K Z in3_rand.
Proof. intros s Hs. unfold in3_rand, on_world, lists_ok in *. pose proof (conf_rand (world s)) as E. destruct (rand_fn (world s)) as [x w]. cbn in *. by rewrite E. Qed.
Lemma K_report msg e : K Z (req_set_error plugins msg e).
Proof. apply mod_report. Qed.
Lemma K_err msg e : K Z (err plugins msg e).
Proof. apply mod_report. Qed.
Hint Resolve K_ret K_undef K_gets K_field K_upd K_config K_time K_rand K_report K_err : keeps.
Hint Resolve keeps_remove keeps_required_at keeps_new keeps_all : keeps.

(** One step of a function: a part with a known result, any other part, or a case. *)
Ltac kstep :=
  match goal with
  | |- keeps _ _ (nl_data _ ≫= _) => apply (K_with shape_ok _ _ (K_data _)); intros ? ?
  | |- keeps _ _ (defined _ ≫= _) => apply (K_with _ _ _ (keeps_defined _ _)); intros ? ?
  | |- keeps _ _ (_ ≫= _) => apply K_bind; [|intros ?]
  | |- keeps _ _ (upd_data _ _) => apply K_upd_data; intros ? ?
  | |- keeps _ _ (match ?x with _ => _ end) => destruct x eqn:?
  | |- keeps _ _ (let '(_, _) := ?x in _) => destruct x eqn:?
  | |- keeps _ _ _ => progress cbn [fst snd]
  end.
Ltac ksteps := repeat first [solve [eauto 2 with keeps]|kstep].

Lemma K_execute f : K Z (in3_req_execute plugins max_attempts f).
Proof. apply (execute_mod (keeps lists_ok) plugins (HP := K_plugins)); [intros; apply K_upd|by intros A s Hs|]. intros. by apply keeps_required. Qed.
Lemma K_add_required r : K Z (req_add_required plugins max_attempts fuel r).
Proof. unfold req_add_required. apply K_bind; [by apply keeps_modify|]. intros ?. apply keeps_required, K_execute. Qed.
Lemma K_count p i : K unit (count_ids p i).
Proof. by apply keeps_modify. Qed.
Lemma K_chain_id id : K unit (in3_set_chain_id id).
Proof. unfold in3_set_chain_id. ksteps. Qed.
Hint Resolve K_add_required K_count K_chain_id : keeps.
Lemma K_req_new t : K _ (req_new plugins t).
Proof.
  assert (K _ (doc (parse_json (cstr t)))) as H1 by (apply doc_mod; [apply _|apply parse_json_ends]).
  assert (K _ (message (parse_json_error (cstr t)))) as H2 by (apply message_mod; [apply _|apply parse_json_ends]).
  unfold req_new. ksteps; apply keeps_new; ksteps.
Qed.
Lemma K_response_at i : K _ (response_at i).
Proof. apply (response_at_mod (keeps lists_ok)). Qed.
Lemma K_is_method m : K _ (req_is_method m).
Proof. apply (is_method_mod (keeps lists_ok)). Qed.
Lemma K_request0 : K _ request0.
Proof. apply (request0_mod (keeps lists_ok)). Qed.
Lemma K_raw_at n : K _ (raw_at n).
Proof. apply (raw_at_mod (keeps lists_ok)). Qed.
Lemma K_find m : K _ (req_find_required m).
Proof. unfold req_find_required. ksteps. apply (mod_defined (keeps lists_ok)). Qed.
Lemma K_state i : K _ (required_state i).
Proof. intros s Hs. unfold required_state. by destruct (in3_req_state _ _). Qed.
Lemma K_response_error i : K _ (req_check_response_error plugins i).
Proof. pose proof K_response_at. unfold req_check_response_error. ksteps. Qed.
Lemma K_proof i : K _ (in3_req_get_proof i).
Proof. unfold in3_req_get_proof. ksteps. Qed.
Hint Resolve K_req_new K_response_at K_is_method K_request0 K_raw_at K_find K_state K_response_error K_proof : keeps.

(** ** Blacklisting, weights and candidates *)
Lemma shape_block i u d : shape_ok d -> shape_ok (block_node i (u64 u) d).
Proof.
  intros Hd. unfold block_node. apply (shape_alter_node (set_weights _ (set_dirty _ d)) i (set_blocked true)); [|done].
  apply (shape_alter_weight (set_dirty _ d) i); [|intros; by apply until_ok]. by eapply shape_same; [|exact Hd].
Qed.
Lemma K_blacklist ci i t : K _ (blacklist_node ci i t).
Proof. unfold blacklist_node. ksteps. by apply shape_block. Qed.
Hint Resolve K_blacklist : keeps.
Lemma K_blacklist_addr ci a t : K _ (blacklist_node_addr ci a t).
Proof. unfold blacklist_node_addr. ksteps. Qed.
Hint Resolve K_blacklist_addr : keeps.
Lemma K_pick_loop n : forall want found total picked, K _ (pick_loop n want found total picked).
Proof. induction n as [|n IH]; intros; cbn [pick_loop]; ksteps. Qed.
Hint Resolve K_pick_loop : keeps.
Lemma fill_loop_addresses flags dep wl now filter pre ns : forall ws i sum found ns' total,
  fill_loop flags dep wl now filter pre i ns ws sum = Some (found, ns', total) -> same_addresses ns ns'.
Proof.
  induction ns as [|n ns IH]; intros [|w ws] i sum found ns' total; cbn [fill_loop]; try (by intros [= <- <- <-]); try done.
  intros ([] & _ & E)%bind_Some.
  - apply bind_Some in E as (x & _ & ([[f1 n1] t1] & E1 & [= <- <- <-])%bind_Some). apply IH in E1. unfold same_addresses in *. cbn. by rewrite E1.
  - apply bind_Some in E as ([[f1 n1] t1] & E1 & [= <- <- <-]). apply IH in E1. unfold same_addresses in *. cbn. by rewrite E1.
Qed.
Lemma K_fill_weight ci now filter pre : K _ (fill_weight ci now filter pre).
Proof.
  unfold fill_weight. ksteps. apply shape_set_nodelist; [done|by destruct (nodelist a)|].
  unfold in3_node_list_fill_weight in *. simplify_eq. match goal with E : fill_loop _ _ _ _ _ _ _ _ _ _ = Some _ |- _ => apply fill_loop_addresses in E end.
  unfold all_nodes in *. destruct (nodelist a); [done|]. by destruct l0.
Qed.
Hint Resolve K_fill_weight : keeps.
Lemma K_live {A} (p : ptr A) : K _ (live p).
Proof. unfold live. ksteps. Qed.
Hint Resolve K_live : keeps.
Lemma K_candidates ci now filter : K _ (candidates_of ci now filter).
Proof. unfold candidates_of. ksteps. apply shape_map_weights; [done|]. intros w Hw. apply (until_ok w 0 Hw). Qed.
Hint Resolve K_candidates : keeps.

(** ** New lists *)
Lemma boot_weight_ok flags v : weight_ok (boot_weight flags v).
Proof. unfold boot_weight. repeat case_match; try apply zero_weight_ok. split; [apply u32_range|]. split; [apply u32_range|apply u64_range]. Qed.
Lemma fill_node_ok flags now old ow i v n w : Forall weight_ok ow -> fill_node flags now old ow i v = Some (inr (n, w)) -> length (n_address n) = 20%nat /\ weight_ok w.
Proof.
  intros Hw. unfold fill_node. destruct (d_get_byteskl (Some v) K_ADDRESS 20) as [adr|]; [|by case_match]. destruct (Nat.eqb_spec (length adr) 20); [|by case_match].
  intros (w0 & E0 & E)%bind_Some. case_match; [|done]. simplify_eq. split; [done|]. unfold new_node_weight.
  assert (weight_ok w0) by (case_match; [by eapply Forall_lookup_1 in E0|simplify_eq; apply boot_weight_ok]). cbv zeta. destruct (_ && _); [by apply until_ok|done].
Qed.
Lemma fill_nodes_ok flags now old ow vs : forall i ns ws, Forall weight_ok ow -> fill_nodes flags now old ow i vs = Some (inr (ns, ws)) ->
  length ws = length ns /\ Forall (fun n => length (n_address n) = 20%nat) ns /\ Forall weight_ok ws.
Proof.
  induction vs as [|v vs IH]; intros i ns ws Hw; cbn [fill_nodes]; [by intros [= <- <-]|].
  intros ([msg|[n w]] & E1 & E)%bind_Some; [done|]. apply bind_Some in E as ([msg|[ns' ws']] & E2 & E); [done|]. simplify_eq.
  destruct (fill_node_ok _ _ _ _ _ _ _ _ Hw E1). destruct (IH _ _ _ Hw E2) as (L & F1 & F2). split_and!; [cbn; lia|by constructor|by constructor].
Qed.
Lemma K_fill_chain ci r : K _ (fill_chain plugins ci r).
Proof.
  unfold fill_chain. ksteps; try (by eapply shape_same; [|eassumption]). subst.
  match goal with Hd : shape_ok ?d, E : fill_nodes _ _ (all_nodes ?d) _ _ _ = Some (inr _) |- _ => destruct (fill_nodes_ok _ _ _ _ _ _ _ _ (sh_weights _ Hd) E) as (L & F1 & F2) end.
  eapply shape_same; [|apply shape_replace; eassumption]. done.
Qed.
Lemma whitelist_node_address a n n' : whitelist_node a n = Some n' -> n_address n' = n_address n.
Proof.
  unfold whitelist_node. generalize (whitelist_offsets (length a)) as l. intros l. revert n'. induction l as [|i l IH]; intros n'; cbn; [by intros [= <-]|].
  intros (x & _ & (m & E & [= <-])%bind_Some)%bind_Some. apply IH in E. by case_bool_decide.
Qed.
Lemma whitelist_addresses a l : forall ns, mapM (whitelist_node a) l = Some ns -> same_addresses l ns.
Proof.
  unfold same_addresses. induction l as [|n l IH]; intros ns; cbn; [by intros [= <-]|].
  intros (n' & En & (ns' & E & [= <-])%bind_Some)%bind_Some. cbn. by rewrite (whitelist_node_address _ _ _ En), (IH _ E).
Qed.
Lemma run_whitelisting_ok d d' : shape_ok d -> run_whitelisting d = Some d' -> shape_ok d'.
Proof.
  intros Hd. unfold run_whitelisting. destruct (whitelist d) as [wl|]; [|by intros [= <-]]. intros (ns & E & [= <-])%bind_Some.
  apply shape_set_nodelist; [done|destruct (nodelist d); split; intros [? ?]; try done; by eexists|]. apply whitelist_addresses in E. unfold same_addresses, all_nodes in *. by destruct (nodelist d).
Qed.
Lemma K_whitelisting ci : K _ (in3_client_run_chain_whitelisting ci).
Proof. unfold in3_client_run_chain_whitelisting. ksteps. eapply run_whitelisting_ok; [|eassumption]; done. Qed.
Hint Resolve K_fill_chain K_whitelisting : keeps.
Lemma K_fill_whitelist ci r : K _ (in3_client_fill_chain_whitelist plugins ci r).
Proof. unfold in3_client_fill_chain_whitelist. ksteps. by eapply shape_same; [|eassumption]. Qed.
Hint Resolve K_fill_whitelist : keeps.
Lemma shape_no_upd8 d : shape_ok d -> shape_ok (set_upd8 None d).
Proof. intros Hd. by apply shape_upd8. Qed.
Lemma K_drop ci b : K _ (drop_upd8 ci b).
Proof. unfold drop_upd8. ksteps. by apply shape_no_upd8. Qed.
Lemma K_seed : K _ random_seed.
Proof. unfold random_seed. induction (seq 0 8) as [|x l IH]; cbn; ksteps. Qed.
Lemma K_failed msg i e : K _ (update_failed plugins msg i e).
Proof. unfold update_failed. ksteps. Qed.
Lemma K_store ci : K _ (in3_cache_store_nodelist plugins ci).
Proof. unfold in3_cache_store_nodelist. ksteps. by eapply shape_same; [|eassumption]. Qed.
Lemma K_or_none act c : K _ (in3_plugin_execute_first_or_none plugins act c).
Proof. apply (execute_or_none_mod (keeps lists_ok) plugins (HP := K_plugins)). Qed.
Hint Resolve K_drop K_seed K_failed K_store K_or_none : keeps.
Lemma K_store_wl ci : K _ (in3_cache_store_whitelist plugins ci).
Proof. unfold in3_cache_store_whitelist. ksteps. Qed.
Hint Resolve K_store_wl : keeps.
Lemma K_update ci : K _ (update_nodelist plugins max_attempts fuel ci).
Proof. unfold update_nodelist. ksteps. Qed.
Lemma K_update_wl ci : K _ (update_whitelist plugins max_attempts fuel ci).
Proof. unfold update_whitelist. ksteps. Qed.
Lemma K_postpone d : K _ (postpone_update (W := W) d).
Proof. unfold postpone_update. ksteps. Qed.
Lemma K_needed b m : K _ (needed (W := W) b m).
Proof. unfold needed. ksteps. Qed.
Hint Resolve K_update K_update_wl K_postpone K_needed : keeps.
Lemma K_list_get ci u : K _ (in3_node_list_get plugins max_attempts fuel ci u).
Proof. unfold in3_node_list_get, update_list_if_needed, update_whitelist_if_needed. ksteps. by eapply shape_same; [|eassumption]. Qed.
Hint Resolve K_list_get : keeps.
Lemma K_pick_nodes ci n f : K _ (in3_node_list_pick_nodes plugins max_attempts fuel ci n f).
Proof. unfold in3_node_list_pick_nodes. ksteps. Qed.
Hint Resolve K_pick_nodes : keeps.

(** ** Lists from the cache and the configuration *)
Lemma le_val_range l n : bytes_ok l -> (length l <= n)%nat -> 0 <= le_val l < 256 ^ Z.of_nat n.
Proof.
  intros Hl Hn. unfold le_val. assert (bytes_ok (rev l)) as Hr by (by apply Forall_rev). pose proof (be_val_bound _ Hr) as [H1 H2]. rewrite length_rev in H2.
  split; [done|]. eapply Z.lt_le_trans; [exact H2|]. apply Z.pow_le_mono_r; lia.
Qed.
Lemma bytes_weight_ok b : bytes_ok b -> weight_ok (bytes_weight b).
Proof.
  intros Hb. unfold bytes_weight. assert (forall k n, bytes_ok (take k (drop n b))) as Ht by (intros; by apply Forall_take, Forall_drop). pose proof (Ht 4%nat 0%nat) as H1. rewrite drop_0 in H1.
  split; [|split]; cbn [response_count total_response_time blacklisted_until]; [apply (le_val_range _ 4)|apply (le_val_range _ 4)|apply (le_val_range _ 8)]; try done; rewrite length_take; lia.
Qed.
Lemma weights_read n : forall b, bytes_ok b -> Forall weight_ok (structs 16 bytes_weight n b) /\ length (structs 16 bytes_weight n b) = n.
Proof. induction n as [|n IH]; intros b Hb; cbn [structs]; [done|]. destruct (IH (drop 16 b)) as [F L]; [by apply Forall_drop|]. split; [constructor; [by apply bytes_weight_ok|done]|cbn; lia]. Qed.
Lemma nodes_read n : forall b pos ns pos', read_nodes n b pos = Some (ns, pos') -> Forall (fun n => length (n_address n) = 20%nat) ns /\ length ns = n.
Proof.
  induction n as [|n IH]; intros b pos ns pos'; cbn [read_nodes]; [by intros [= <- <-]|].
  intros ([? p1] & _ & ([? p2] & _ & ([? p3] & _ & ([? p4] & _ & (adr & Ea & ([u p5] & _ & ([ns' p6] & En & [= <- <-])%bind_Some)%bind_Some)%bind_Some)%bind_Some)%bind_Some)%bind_Some)%bind_Some.
  apply read_at_length in Ea. destruct (IH _ _ _ _ En) as [F L]. split; [by constructor|cbn; lia].
Qed.
Lemma read_nodelist_ok max b pos l ws ns hs : bytes_ok b -> read_nodelist max b pos = Some (l, ws, ns, hs) -> length ws = length ns /\ Forall (fun n => length (n_address n) = 20%nat) ns /\ Forall weight_ok ws.
Proof.
  intros Hb. unfold read_nodelist. intros ([l' p1] & _ & ([c p2] & _ & E)%bind_Some)%bind_Some. case_match; [done|].
  apply bind_Some in E as (w & Ew & ([ns' p3] & En & ([h p4] & _ & E)%bind_Some)%bind_Some). assert (bytes_ok w) as Hw.
  { unfold read_at in Ew. destruct (_ <=? _)%nat; [|done]. simplify_eq. by apply Forall_take, Forall_drop. }
  destruct (nodes_read _ _ _ _ _ En) as [Fn Ln]. destruct (weights_read (Z.to_nat c) w Hw) as [Fw Lw].
  destruct (h =? 0); [|apply bind_Some in E as (hb & _ & E)]; simplify_eq; split_and!; try done; by rewrite Lw.
Qed.
Lemma K_cache_update ci : K _ (in3_cache_update_nodelist plugins ci).
Proof.
  unfold in3_cache_update_nodelist. ksteps; try (by apply keeps_modify); try (by eapply shape_same; [|eassumption]). subst.
  match goal with E : read_nodelist _ (map u8 ?l) _ = Some _ |- _ => apply read_nodelist_ok in E as (L & F1 & F2); [|apply Forall_fmap, Forall_forall; intros; apply u8_byte] end.
  apply shape_no_upd8. eapply shape_same; [|apply shape_replace; eassumption]. done.
Qed.
Lemma K_cache_update_wl ci : K _ (in3_cache_update_whitelist plugins ci).
Proof. unfold in3_cache_update_whitelist. ksteps. by eapply shape_same; [|eassumption]. Qed.
Hint Resolve K_cache_update K_cache_update_wl : keeps.
Lemma K_cache_init ci : K _ (in3_cache_init plugins ci).
Proof. unfold in3_cache_init. ksteps. Qed.
Hint Resolve K_cache_init : keeps.
Lemma fresh_data_ok shared id : shape_ok (fresh_data shared id).
Proof. by constructor; cbn; try done; intros p [= <-]. Qed.
Lemma first_index_lt l a : forall j i, first_index l a j = Some i -> (j <= i < j + length l)%nat.
Proof. induction l as [|n l IH]; intros j i; cbn; [done|]. case_bool_decide; [intros [= <-]; lia|]. intros E. apply IH in E. lia. Qed.
Lemma add_node_ok d url props a d' : shape_ok d -> length a = 20%nat -> add_node d url props a = Some d' -> shape_ok d'.
Proof.
  intros Hd Ha. unfold add_node. destruct (first_index (all_nodes d) a 0) as [i|].
  - case_match; [|done]. intros [= <-]. apply (shape_alter_node (set_weights _ d) i (set_node props (cstr url))); [|done].
    apply shape_set_weights; [done|by rewrite fmap_is_Some|..]; pose proof (sh_weights d Hd) as Hw; unfold all_weights in *; destruct (weights d) as [ws|]; cbn in *; try done; [apply length_insert|].
    apply Forall_insert; [done|apply zero_weight_ok].
  - case_match; [|done]. intros [= <-]. destruct Hd as [S1 S2 S3 S4 S5 S6 S7]. apply shape_replace; [by constructor|..].
    + rewrite !length_app, length_take. cbn. lia.
    + apply Forall_app. split; [done|]. by repeat constructor.
    + apply Forall_app. split; [by apply Forall_take|]. repeat constructor; cbn; lia.
Qed.
Lemma clear_nodes_ok d : shape_ok d -> shape_ok (clear_nodes d).
Proof. intros [S1 S2 S3 S4 S5 S6 S7]. constructor; cbn; done. Qed.
Lemma last_boot_ok d : shape_ok d -> shape_ok (last_is_boot_node d).
Proof. intros Hd. by apply shape_alter_node. Qed.
Lemma is_addr_length v : is_addr v = true -> length (default [] (d_bytes (Some v))) = 20%nat /\ length (default [] (d_bytesl (Some v) 20)) = 20%nat.
Proof.
  unfold is_addr, d_bytesl. intros [_ E]%andb_prop. destruct (d_bytes (Some v)) as [b|]; cbn [default] in *; [|done]. apply Z.eqb_eq in E. assert (length b = 20%nat) as Hb by (cbn in E; lia). split; [done|].
  cbn [mbind option_bind default]. replace (length b <? 20)%nat with false by (symmetry; apply Nat.ltb_ge; lia). cbn [andb]. rewrite take_ge by lia. by destruct (norm <$> Some v) as [[]|].
Qed.
Lemma is_b256_length v : is_b256 v = true -> length (default [] (d_bytes (Some v))) = 32%nat.
Proof. unfold is_b256. intros [_ E]%andb_prop. apply Z.eqb_eq in E. lia. Qed.
Lemma K_expect b msg k : (b = true -> K _ k) -> K _ (expect (W := W) b msg k).
Proof. intros Hk. unfold expect. destruct b; [by apply Hk|apply K_ret]. Qed.
Lemma K_no_error : K _ (no_error (W := W)).
Proof. apply K_ret. Qed.
Lemma K_upd_client f : K _ (upd_client (W := W) f).
Proof. by apply keeps_modify. Qed.
Lemma K_upd_config f : (forall c, nl_chains (f c) = nl_chains c) -> K _ (upd_config f).
Proof. intros Hf s Hs. cbn. split; [|done]. unfold lists_ok in *. by rewrite conf_set, Hf. Qed.
Hint Resolve K_no_error K_upd_client : keeps.
Ltac kcfg := repeat first [solve [eauto 2 with keeps]|apply K_expect; intros ?|apply K_upd_config; done|kstep].
Lemma K_separate ci w : K _ (nodelist_seperate_from_registry ci w).
Proof. unfold nodelist_seperate_from_registry. ksteps. case_match; [apply fresh_data_ok|done]. Qed.
Hint Resolve K_separate : keeps.
Lemma K_add_nodes ci vs : K _ (add_nodes ci vs).
Proof.
  induction vs as [|v vs IH]; cbn [add_nodes]; kcfg. apply last_boot_ok.
  match goal with E : add_node _ _ _ _ = Some _, A : is_addr _ = true |- _ => eapply add_node_ok; [| |exact E]; [done|by apply is_addr_length] end.
Qed.
Hint Resolve K_add_nodes : keeps.
Lemma shape_contract d a : shape_ok d -> length a = 20%nat -> shape_ok (set_registry a (registry_id d) d).
Proof. intros [S1 S2 S3 S4 S5 S6 S7] Ha. by constructor. Qed.
Lemma shape_registry d a : shape_ok d -> length a = 32%nat -> shape_ok (set_registry (nl_contract d) a d).
Proof. intros [S1 S2 S3 S4 S5 S6 S7] Ha. by constructor. Qed.
Lemma new_upd8_ok : upd8_ok (mk_upd8 0 0 (replicate 20 0)).
Proof. done. Qed.
Lemma shape_needs_update (b : bool) d : shape_ok d -> shape_ok (if b then set_upd8 None d else match nodelist_upd8_params d with Some _ => d | None => set_upd8 (Some (mk_upd8 0 0 (replicate 20 0))) d end).
Proof. intros Hd. destruct b; [by apply shape_no_upd8|]. destruct (nodelist_upd8_params d); [done|]. apply shape_upd8; [done|]. by intros q [= <-]. Qed.
Lemma K_registry_entry ci a b k v : K _ (registry_entry ci a b k v).
Proof.
  unfold registry_entry. cbv zeta. generalize (norm v) as u. intros u. kcfg; try (by eapply shape_same; [|eassumption]).
  - apply shape_contract; [done|by apply is_addr_length].
  - apply shape_registry; [done|by apply is_b256_length].
  - by apply shape_needs_update.
  - by apply clear_nodes_ok.
Qed.
Hint Resolve K_registry_entry : keeps.
Lemma K_registry_entries ci kvs : forall a b, K _ (registry_entries ci kvs a b).
Proof. induction kvs as [|[k v] kvs IH]; intros a b; cbn [registry_entries]; kcfg. Qed.
Hint Resolve K_registry_entries : keeps.
Lemma K_set_registry ci w v : K _ (set_node_registry ci w v).
Proof. unfold set_node_registry. kcfg. Qed.
Hint Resolve K_set_registry : keeps.
Lemma rpc_nodes_ok d url : shape_ok d -> shape_ok (set_upd8 None (replace_nodes [rpc_node url] [mk_weight 0 0 0] (clear_nodes d))).
Proof. intros Hd. apply shape_no_upd8, shape_replace; [by apply clear_nodes_ok|done|by repeat constructor|repeat constructor; cbn; lia]. Qed.
Lemma K_config_set ci w k v : K _ (config_set ci w k v).
Proof.
  unfold config_set, config_entry. cbv zeta. generalize (norm v) as u. intros u. apply K_bind; [|intros; apply K_ret]. kcfg; try (by eapply shape_same; [|eassumption]). by apply rpc_nodes_ok.
Qed.
Hint Resolve K_config_set : keeps.
Lemma K_boot ci id : K _ (init_boot_nodes plugins ci id).
Proof.
  assert (K _ (doc (nodeselect_def_cfg id))) as H1.
  { apply doc_mod; [apply _|]. unfold nodeselect_def_cfg. destruct (nodeselect_def_cfg_data id) as [l|] eqn:E; [|done]. apply parse_binary_ends.
    unfold nodeselect_def_cfg_data in E. repeat case_match; simplify_eq; vm_compute; repeat constructor; discriminate. }
  unfold init_boot_nodes. apply K_bind; [exact H1|]. intros [v|]; [|apply K_ret]. apply (K_with _ _ _ (keeps_defined _ _)). intros reg _.
  apply K_bind; [apply K_config_set|]. intros r. destruct (negb _); [apply K_ret|]. apply K_bind; [|intros; apply K_cache_init].
  apply K_upd_data. intros d Hd. by apply shape_map_nodes.
Qed.
Hint Resolve K_boot : keeps.

(** ** The actions *)
Lemma K_pick_data ci : K _ (pick_data plugins max_attempts fuel ci).
Proof. unfold pick_data, set_picked. ksteps. Qed.
Lemma K_ask : K _ (auto_ask_sig (W := W)).
Proof. unfold auto_ask_sig. ksteps. Qed.
Hint Resolve K_ask : keeps.
Lemma K_pick_signer ci : K _ (pick_signer plugins max_attempts fuel ci).
Proof. unfold pick_signer. ksteps. Qed.
Lemma K_failable ci : K _ (handle_failable plugins ci).
Proof. unfold handle_failable. ksteps. Qed.
Lemma K_offline_remove ci : K _ (offline_remove ci).
Proof. unfold offline_remove. ksteps. by eapply shape_same; [|eassumption]. Qed.
Hint Resolve K_offline_remove : keeps.
Lemma K_missing ci r m : forall l, K _ (missing_signers ci r m l).
Proof. induction l as [|p l IH]; cbn [missing_signers]; unfold missing_signer; ksteps. by eapply shape_same; [|eassumption]. Qed.
Hint Resolve K_missing : keeps.
Lemma K_offline ci r m : K _ (handle_offline ci r m).
Proof. unfold handle_offline. ksteps. Qed.
Lemma upd8_of d n a b : shape_ok d -> get_node d n = Some b -> upd8_ok (mk_upd8 a 0 (n_address b)).
Proof. intros Hd (m & _ & E)%bind_Some. unfold get_node_idx in E. by eapply (Forall_lookup_1 _ _ _ _ (sh_address d Hd)) in E. Qed.
Lemma K_autoupdate ci v n : K _ (check_autoupdate ci v n).
Proof.
  unfold check_autoupdate. ksteps; try (by eapply shape_same; [|eassumption]).
  - apply shape_upd8; [done|]. intros q [= <-]. match goal with E : get_node _ _ = Some ?b, D : shape_ok _ |- _ => apply (upd8_of _ _ 0 b D E) end.
  - apply shape_upd8; [done|]. intros q [= <-]. match goal with D : shape_ok ?d |- upd8_ok (default _ (nodelist_upd8_params ?d)) => destruct (nodelist_upd8_params d) as [p|] eqn:E; [by apply (sh_upd8 d D)|] end.
    unfold upd8_ok. cbn [default upd8_node garbage_upd8]. rewrite length_drop, malloc_length. done.
Qed.
Hint Resolve K_autoupdate : keeps.
Lemma count_time_ok t w : weight_ok w -> weight_ok (count_time t w).
Proof. intros (H1 & H2 & H3). split; [apply u32_range|]. split; [apply u32_range|done]. Qed.
Lemma K_times ci n i : K _ (handle_times ci n i).
Proof. unfold handle_times, set_raw_at. ksteps. apply shape_alter_weight; [done|]. apply count_time_ok. Qed.
Hint Resolve K_times : keeps.
Lemma K_all_times ci ns : forall i, K _ (handle_all_times ci ns i).
Proof. induction ns as [|n ns IH]; intros i; cbn [handle_all_times]; ksteps. Qed.
Hint Resolve K_all_times : keeps.
Lemma K_followup ci n : K _ (pick_followup plugins ci n).
Proof. unfold pick_followup. ksteps. Qed.
Lemma K_get_data id : K _ (in3_get_nodelist_data (W := W) id).
Proof.
  unfold in3_get_nodelist_data. apply K_bind; [apply K_config|]. intros w. destruct (list_find _ _) as [[i d]|]; [apply K_ret|].
  apply K_bind; [|intros; apply K_ret]. intros s Hs. cbn. split; [|done]. unfold lists_ok in *. rewrite conf_set. cbn. apply Forall_app. split; [done|]. repeat constructor. all: try apply fresh_data_ok.
Qed.
Hint Resolve K_get_data K_pick_data K_pick_signer K_failable K_offline K_followup : keeps.
Lemma K_chain_index : K _ (chain_index (W := W)).
Proof. unfold chain_index. ksteps. Qed.
Hint Resolve K_chain_index : keeps.
Lemma K_height ci a : K _ (get_min_blk_height (W := W) ci a).
Proof. unfold get_min_blk_height. ksteps. Qed.
Hint Resolve K_height : keeps.
(** ** The verifier *)
Section Verifier.
Context `{Keccak} `{Ecdsa} (m : memory) (place : list Z -> slice).
Lemma K_first act c : K _ (in3_plugin_execute_first plugins act c).
Proof. apply (execute_first_mod (keeps lists_ok) plugins (HP := K_plugins)). Qed.
Lemma K_vc_err msg : K _ (vc_err plugins msg).
Proof. unfold vc_err. ksteps. Qed.
Lemma K_add_verified id n h : K _ (add_verified (W := W) id n h).
Proof. intros s Hs. unfold add_verified. by destruct (add_verified_to _ _ _ _). Qed.
Lemma K_item h i : K _ (header_item (W := W) m place h i).
Proof. unfold header_item. ksteps. by intros s Hs. Qed.
Hint Resolve K_first K_vc_err K_add_verified K_item : keeps.
Lemma K_signature h sig : K _ (eth_verify_signature plugins h sig).
Proof. unfold eth_verify_signature. ksteps. apply (mod_defined (keeps lists_ok)). Qed.
Hint Resolve K_signature : keeps.
Lemma K_signatures vc n h msg l : forall c e, K _ (check_signatures plugins vc n h msg l c e).
Proof.
  assert (forall err r, K _ (handle_signed_err plugins vc err r n)) as Hs by (intros; unfold handle_signed_err; ksteps).
  induction l as [|x l IH]; intros c e; cbn [check_signatures]; unfold validate_err, validate_sig; ksteps.
Qed.
Lemma K_header vc h e : K _ (eth_verify_blockheader plugins m place vc h e).
Proof. pose proof K_signatures. unfold eth_verify_blockheader, get_verified_hash, compute_msg_hash, mark_offline. ksteps. apply (mod_defined (keeps lists_ok)). Qed.
Hint Resolve K_header : keeps.
Lemma K_check_storage ps k v : K _ (check_storage plugins ps k v).
Proof. unfold check_storage. ksteps. Qed.
Hint Resolve K_check_storage : keeps.
Lemma K_seeds size sl : forall l f, K _ (seed_indexes_loop plugins size sl l f).
Proof. induction l as [|x l IH]; intros f; cbn [seed_indexes_loop]; ksteps. Qed.
Hint Resolve K_seeds : keeps.
Lemma K_indexes t n s r l : K _ (check_indexes plugins fuel t n s r l).
Proof. unfold check_indexes. ksteps; [apply (mod_defined (keeps lists_ok))|by intros s' Hs]. Qed.
Lemma K_nodes ps : forall l, K _ (check_nodes plugins ps l).
Proof. induction l as [|x l IH]; cbn [check_nodes]; ksteps. Qed.
Lemma K_storage_proofs root : forall l bb, K _ (check_storage_proofs plugins m place root bb l).
Proof. induction l as [|x l IH]; intros bb; cbn [check_storage_proofs]; ksteps. Qed.
Hint Resolve K_indexes K_nodes K_storage_proofs : keeps.
Lemma K_account h c a : K _ (check_account plugins m place h c a).
Proof. unfold check_account. ksteps. Qed.
Hint Resolve K_account : keeps.
Lemma K_verify_account vc c : K _ (verify_account plugins m place vc c).
Proof. unfold verify_account. ksteps. Qed.
Hint Resolve K_verify_account : keeps.
Lemma K_verify ci vc : K _ (rpc_verify plugins fuel m place ci vc).
Proof. unfold rpc_verify, eth_verify_in3_nodelist, eth_verify_in3_whitelist, verify_nodelist_data, verify_whitelist_data. ksteps. Qed.
Hint Resolve K_verify : keeps.
Lemma K_action action c : K _ (in3_nodeselect_handle_action plugins max_attempts fuel m place action c).
Proof. unfold in3_nodeselect_handle_action. ksteps. Qed.
End Verifier.
End Functions.
