(* ===== verification/NodeSafety.v ===== *)
(** * nodeselect/full: the picked nodes, and what updates and reports do to the list

    [in3_node_list_pick_nodes] picks, for all random numbers, as many different candidates as it is
    asked for.  The lists keep their shape under every action of the plugin.  New lists keep the weights
    of known nodes; a list that was refused is ignored when it is sent again.  Blacklisting, the
    built-in boot nodes, and reports of missing signatures. *)
From S2P Require Import Prelude Utils Bytes Bitset Rlp Data Json JsonVal ReqState Request Serialize Nano ReqNew NodeData NodeCache NodeList NodePick NodeBoot NodeConfig NodeSelect NodeInv.
From stdpp Require Import strings sets.
#[local] Open Scope Z_scope.

(** ** Steps on the data of a chain *)
Section Steps.
Context {W : Type} `{!NodeWorld W} (ci : nat).
#[local] Abbreviation st := (state W).
Definition data_of (s : st) : option in3_nodeselect_def_t := nl_chains (nl_conf (world s)) !! ci.
(** Everything but the lists is the same. *)
Definition same_request (s s' : st) : Prop :=
  self s' = self s /\ required s' = required s /\ client s' = client s /\ min_deposit (nl_conf (world s')) = min_deposit (nl_conf (world s)).
Lemma same_request_refl s : same_request s s.
Proof. done. Qed.
Lemma same_request_trans s1 s2 s3 : same_request s1 s2 -> same_request s2 s3 -> same_request s1 s3.
Proof. intros (A1 & A2 & A3 & A4) (B1 & B2 & B3 & B4). repeat split; congruence. Qed.
Lemma nl_data_run s d : data_of s = Some d -> nl_data ci s = Ok d s.
Proof. unfold nl_data, data_of. by intros ->. Qed.
Lemma upd_data_run s d f : data_of s = Some d -> exists s', upd_data ci f s = Ok tt s' /\ data_of s' = Some (f d) /\ same_request s s'.
Proof.
  intros E. eexists. split; [done|]. unfold data_of, same_request. cbn. rewrite conf_set. cbn. split; [|done].
  unfold data_of in E. by rewrite list_lookup_alter_eq, E.
Qed.
End Steps.
#[local] Arguments same_request_trans {W _}.

(** ** Picking nodes *)
Section Pick.
Context `{SourceText} `{Allocator} {W : Type} `{!NodeWorld W} (plugins : list (in3_plugin_t W)) (max_attempts : Z) (fuel : nat) (ci : nat).
#[local] Abbreviation st := (state W).
#[local] Abbreviation data_of := (data_of ci).
Definition whitelisted (d : in3_nodeselect_def_t) : bool := bool_decide (is_Some (whitelist d)).
Lemma fill_weight_run now filter pre s d : data_of s = Some d ->
  let dep := min_deposit (nl_conf (world s)) in
  judgeable dep (whitelisted d) now filter pre (all_nodes d) (all_weights d) -> zlen (all_nodes d) <= 2 ^ 16 ->
  exists found s', fill_weight ci now filter pre s = Ok (found, weight_sum found) s' /\ same_request s s' /\
    data_of s' = Some (set_nodelist ((fun _ => unblocked dep (whitelisted d) now filter pre (all_nodes d) (all_weights d)) <$> nodelist d) d) /\
    intervals 0 found /\ weight_sum found < 2 ^ 32 /\ map nm_index found = candidates dep (whitelisted d) now filter pre 0 (all_nodes d) (all_weights d) /\
    forall c, c ∈ found -> match_of (c_flags (client s)) dep (whitelisted d) now filter pre 0 (all_nodes d) (all_weights d) c.
Proof.
  intros Hd dep Hj Hl. unfold fill_weight. rewrite (bind_ok _ _ _ _ _ (nl_data_run _ _ _ Hd)). cbn beta.
  rewrite (bind_ok config _ s (nl_conf (world s)) s) by done. cbn beta. rewrite (bind_ok (gets _) _ s (c_flags (client s)) s) by done. cbn beta.
  destruct (fill_loop_spec (c_flags (client s)) dep (whitelisted d) now filter pre (all_nodes d) (all_weights d) 0 0 Hj) as (found & E & Hi & Hm & Hle & Hall); [lia|lia|].
  unfold in3_node_list_fill_weight. rewrite Z.add_0_l in E. rewrite (bind_defined _ _ _ _ E). cbn beta iota.
  destruct (upd_data_run ci s d (fun _ => set_nodelist match nodelist d with Some _ => Some (unblocked dep (whitelisted d) now filter pre (all_nodes d) (all_weights d)) | None => None end d) Hd) as (s' & Eu & Hd' & Hsame).
  rewrite (bind_ok _ _ _ _ _ Eu). exists found, s'. split; [done|]. split; [done|]. split; [rewrite Hd'; by destruct (nodelist d)|]. split; [done|]. split; [lia|done].
Qed.

(** The filter and the weights the nodes are judged with: if there is no candidate, those without the
    blacklist, provided that more than half of the nodes are on it or the nodes were selected before. *)
Definition pre_of (d : in3_nodeselect_def_t) : option (list Z) := match pre_address_filter d with Live a => Some a | _ => None end.
Definition retried (dep now : Z) (filter : option in3_node_filter_t) (d : in3_nodeselect_def_t) : bool :=
  bool_decide (candidates dep (whitelisted d) now filter (pre_of d) 0 (all_nodes d) (all_weights d) = []) &&
  ((length (all_nodes d) / 2 <? length (List.filter (fun w => (now <? blacklisted_until w)%Z) (all_weights d)))%nat || bool_decide (is_Some (pre_of d))).
Definition pool_filter (dep now : Z) (filter : option in3_node_filter_t) (d : in3_nodeselect_def_t) : option (list Z) := if retried dep now filter d then None else pre_of d.
Definition pool_weights (dep now : Z) (filter : option in3_node_filter_t) (d : in3_nodeselect_def_t) : list in3_node_weight_t :=
  if retried dep now filter d then map (set_blacklisted_until 0) (all_weights d) else all_weights d.
Lemma unblocked_no_candidates dep wl now filter pre ns ws : length ws = length ns -> candidates dep wl now filter pre 0 ns ws = [] -> unblocked dep wl now filter pre ns ws = ns.
Proof.
  generalize 0%nat. revert ws. induction ns as [|n ns IH]; intros [|w ws] i Hl; try done. cbn [candidates unblocked].
  case_bool_decide; [done|]. intros E. cbn [app] in E. f_equal. apply (IH _ (S i)); [simpl in Hl; lia|done].
Qed.
Definition usable (dep now : Z) (filter : option in3_node_filter_t) (d : in3_nodeselect_def_t) : list nat :=
  candidates dep (whitelisted d) now filter (pool_filter dep now filter d) 0 (all_nodes d) (pool_weights dep now filter d).
Definition judgeable_pool (dep now : Z) (filter : option in3_node_filter_t) (d : in3_nodeselect_def_t) : Prop :=
  pre_address_filter d <> Freed /\ zlen (all_nodes d) <= 2 ^ 16 /\ judgeable dep (whitelisted d) now filter (pre_of d) (all_nodes d) (all_weights d) /\
  judgeable dep (whitelisted d) now filter (pool_filter dep now filter d) (all_nodes d) (pool_weights dep now filter d).
Lemma candidates_of_run now filter s d : data_of s = Some d ->
  let dep := min_deposit (nl_conf (world s)) in judgeable_pool dep now filter d ->
  exists found s', candidates_of ci now filter s = Ok (found, weight_sum found) s' /\ same_request s s' /\ intervals 0 found /\ weight_sum found < 2 ^ 32 /\
    map nm_index found = usable dep now filter d /\
    forall c, c ∈ found -> match_of (c_flags (client s)) dep (whitelisted d) now filter (pool_filter dep now filter d) 0 (all_nodes d) (pool_weights dep now filter d) c.
Proof.
  intros Hd dep (Hf & Hl & Hj1 & Hj2). unfold candidates_of, usable. rewrite (bind_ok _ _ _ _ _ (nl_data_run _ _ _ Hd)). cbn beta.
  rewrite (bind_ok (live _) _ s (pre_of d) s) by (unfold pre_of; by destruct (pre_address_filter d)). cbn beta.
  destruct (fill_weight_run now filter (pre_of d) s d Hd Hj1 Hl) as (found & s1 & E1 & Hs1 & Hd1 & Hi1 & Hw1 & Hm1 & Hc1). fold dep in Hd1, Hm1, Hc1.
  rewrite (bind_ok _ _ _ _ _ E1). cbn [fst]. unfold pool_filter, pool_weights in *.
  destruct found as [|c found].
  2: { assert (retried dep now filter d = false) as -> by (unfold retried; rewrite bool_decide_false; [done|rewrite <- Hm1; done]). by exists (c :: found), s1. }
  destruct Hj1 as [Hlen _]. cbn [map] in Hm1. rewrite unblocked_no_candidates in Hd1 by done.
  assert (Hd1' : data_of s1 = Some d) by (rewrite Hd1; f_equal; unfold all_nodes; destruct d; cbn; by destruct nodelist).
  rewrite (bind_ok _ _ _ _ _ (nl_data_run _ _ _ Hd1')). cbn beta. rewrite Hlen, Nat.ltb_irrefl.
  rewrite (bind_ok (defined _) _ s1 (all_weights d) s1) by (rewrite take_ge by lia; done). cbn beta zeta.
  assert (retried dep now filter d = ((length (all_nodes d) / 2 <? length (List.filter (fun w => (now <? blacklisted_until w)%Z) (all_weights d)))%nat || bool_decide (is_Some (pre_of d)))) as Hr by (unfold retried; rewrite bool_decide_true; done).
  rewrite <- Hr. destruct (retried dep now filter d); [|by exists [], s1].
  destruct (upd_data_run ci s1 d (fun d => set_weights (map (set_blacklisted_until 0) <$> weights d) d) Hd1') as (s2 & E2 & Hd2 & Hs2).
  rewrite (bind_ok _ _ _ _ _ E2).
  assert (Haw : all_weights (set_weights (map (set_blacklisted_until 0) <$> weights d) d) = map (set_blacklisted_until 0) (all_weights d)) by (unfold all_weights; cbn; by destruct (weights d)).
  pose proof (same_request_trans _ _ _ Hs1 Hs2) as (S1 & S2 & S3 & S4). fold dep in S4.
  destruct (fill_weight_run now filter None s2 _ Hd2) as (found & s3 & E3 & Hs3 & _ & Hi3 & Hw3 & Hm3 & Hc3); [by rewrite S4, Haw|done|].
  rewrite S4, S3, Haw in *. exists found, s3. split; [done|]. split; [by apply (same_request_trans _ _ _ Hs1), (same_request_trans _ _ _ Hs2)|]. done.
Qed.

(** C17. The nodes picked for a request, once the list is up to date: for all random numbers, exactly as
    many as asked for (or all candidates, if there are fewer), all different, and each of them is a node
    of the list that passes the checks (preselection, wanted and excluded nodes, blacklist, whitelist,
    deposit and properties; boot nodes need not have the last three), with its address and url.  If no
    node passes, the blacklist is dropped, if it covers more than half of the nodes or nodes were
    preselected; if there is still none, an error is reported.  The rounds of the loop suffice.  This is
    for lists of at most 2^16 nodes in which the weight of each node that is looked at is defined, that is, no
    division by zero occurs (a capacity of 9900 to 9999, or an average response time of 0, crashes the
    client: nodelist.c:362), and whose preselected addresses were not freed. *)
Theorem pick_nodes_spec count filter s now s0 s1 d :
  in3_time s = Ok now s0 -> in3_node_list_get plugins max_attempts fuel ci false s0 = Ok IN3_OK s1 -> data_of s1 = Some d ->
  let dep := min_deposit (nl_conf (world s1)) in judgeable_pool dep now filter d ->
  exists s2, same_request s1 s2 /\
    match usable dep now filter d with
    | [] => in3_node_list_pick_nodes plugins max_attempts fuel ci count filter s = (e ← err plugins "No nodes found that match the criteria" IN3_EFIND; mret (e, [])) s2
    | us => exists picked, in3_node_list_pick_nodes plugins max_attempts fuel ci count filter s = Ok (IN3_OK, picked) s2 /\
        length picked = Nat.min (length us) count /\ NoDup (map nm_index picked) /\
        forall c, c ∈ picked -> match_of (c_flags (client s1)) dep (whitelisted d) now filter (pool_filter dep now filter d) 0 (all_nodes d) (pool_weights dep now filter d) c
    end.
Proof.
  intros Ht Hg Hd dep Hp. destruct (candidates_of_run now filter s1 d Hd Hp) as (found & s2 & E & Hs & Hi & Hw & Hm & Hc). fold dep in Hm, Hc.
  unfold in3_node_list_pick_nodes. rewrite (bind_ok _ _ _ _ _ Ht). cbn beta. rewrite (bind_ok _ _ _ _ _ Hg). cbn beta. cbn [Z.ltb IN3_OK Z.compare].
  rewrite (bind_ok _ _ _ _ _ E). cbn beta iota. rewrite <- Hm. destruct found as [|c found]; [by exists s2|]. set (fs := c :: found) in *.
  change (map nm_index fs) with (nm_index c :: map nm_index found). assert (Hlfs : length (nm_index c :: map nm_index found) = length fs) by (cbn; by rewrite length_map).
  destruct (Nat.eqb_spec (length fs) (Nat.min (length fs) count)) as [Heq|Hne].
  - exists s2. split; [done|]. exists fs. split; [reflexivity|]. split; [by rewrite Hlfs|]. split; [rewrite Hm; apply candidates_NoDup|exact Hc].
  - destruct (pick_loop_spec (Nat.min (length fs) count * 10) (Nat.min (length fs) count) fs [] s2 Hi Hw) as (out & w & El & Hcw & Hlen & Hnd & Hin); [rewrite Hm; apply candidates_NoDup|clearbody fs; cbn [length Nat.add]; lia|clearbody fs; cbn [length]; lia|].
    rewrite (bind_ok _ _ _ _ _ El). eexists. split; [|exists out; split; [done|]; split; [by rewrite Hlfs|]; split; [done|]].
    + destruct Hs as (A1 & A2 & A3 & A4). unfold same_request. cbn. rewrite Hcw. done.
    + intros x Hx. destruct (Hin x Hx) as (y & Hy & z & ->). destruct (Hc y Hy) as (k & n & w' & H1 & H2). exists k, n, w'. done.
Qed.
End Pick.

(** ** A client to run the plugin on *)

(** The world is the configuration; the clock stands still and the random numbers are those of a list. *)
Record demo_world := mk_demo { demo_conf : in3_nodeselect_config_t; demo_rand : list Z }.
Definition demo_next (w : demo_world) : Z * demo_world := match demo_rand w with [] => (0, w) | x :: t => (x, mk_demo (demo_conf w) t) end.
#[global] Program Instance demo_nodes : NodeWorld demo_world := {|
  nl_conf := demo_conf; set_nl_conf c w := mk_demo c (demo_rand w); time_fn w := (1000000, w); rand_fn := demo_next |}.
Next Obligation. done. Qed.
Next Obligation. done. Qed.
Next Obligation. intros [c [|x l]]; done. Qed.
Definition demo_node (k : Z) (index : Z) : in3_node_t := mk_in3_node (replicate 20 k) false index 100 10 65535 (str "https://n") 0.
Definition demo_data : in3_nodeselect_def_t :=
  mk_data false 15 77 (replicate 20 7) (replicate 32 8) (Some [demo_node 1 5; demo_node 2 0; demo_node 3 1]) (Some [mk_weight 6 90 0; mk_weight 0 0 0; mk_weight 0 0 2000000]) [] None None 1 Null true.
Definition demo_request : in3_req_t := mk_req 1 RT_RPC 0 IN3_WAITING None (Some (JObject [(K_METHOD, JString (str "eth_call"))])) (Some [JObject [(K_METHOD, JString (str "eth_call"))]]) Null Null None [] [] [].
Definition demo_state (rand : list Z) (d : in3_nodeselect_def_t) : state demo_world :=
  mk_state demo_request [] (mk_client [mk_chain 1 CHAIN_ETH 2 None] 5 0 PROOF_STANDARD 0 0 1 0 0 0) (mk_demo (mk_config [d] 0 0 0 1) rand).
#[local] Instance demo_text : SourceText := fun _ => None.
#[local] Program Instance demo_alloc : Allocator := {| malloc n := replicate n 0 |}.
Next Obligation. intros. apply length_replicate. Qed.
Next Obligation. intros. by apply Forall_replicate. Qed.
Lemma pick_nodes_spec_witness : exists s2 picked,
  in3_node_list_pick_nodes [] 0 0 0 1 (Some (mk_filter 1 None [])) (demo_state [12345] demo_data) = Ok (IN3_OK, picked) s2 /\ length picked = 1%nat.
Proof.
  destruct (pick_nodes_spec [] 0 0 0 1 (Some (mk_filter 1 None [])) (demo_state [12345] demo_data) 1000000 (demo_state [12345] demo_data) (demo_state [12345] demo_data) demo_data) as (s2 & _ & Hp);
    [vm_compute; reflexivity..| |].
  - split; [done|]. split; [vm_compute; discriminate|].
    split; (split; [done|]); intros [|[|[|i]]] n w [= <-] [= <-]; (split; [repeat split; cbn; lia|]); (split; [by eexists|by eexists]).
  - destruct Hp as (picked & E & Hl & _). exists s2, picked. split; [exact E|exact Hl].
Defined.

(** ** The shape of the lists *)

(** A step that returns, with a value or an error, leaves lists of the right shape. *)
Definition leaves_lists_ok {W A} `{!NodeWorld W} (r : res (state W) A) : Prop :=
  match r with Ok _ s | Err _ s => lists_ok (world s) | Undef | NoFuel => True end.

(** C18. Every action of the plugin and every entry of a configuration keeps the shape of the lists: a
    weight for each node, addresses of 20 bytes, the contract of 20 and the registry id of 32 bytes,
    response counts and times of 32 bits and blacklist times of 64, whatever the responses of the nodes,
    the cache and the configuration hold, and provided that the other plugins keep it. *)
Theorem nodeselect_keeps_types (T : SourceText) (K : Keccak) (A : Allocator) (E : Ecdsa) (W : Type) (N : NodeWorld W) (plugins : list (in3_plugin_t W)) max_attempts fuel m place :
  Forall (fun p => forall act c s, lists_ok (world s) -> leaves_lists_ok (action_fn p act c s)) plugins ->
  forall s, lists_ok (world s) ->
    (forall action c, leaves_lists_ok (in3_nodeselect_handle_action plugins max_attempts fuel m place action c s)) /\
    (forall ci w k v, leaves_lists_ok (config_set ci w k v s)).
Proof.
  intros Hp s Hs. split.
  - intros action c. assert (Hk : keeps lists_ok _ (in3_nodeselect_handle_action plugins max_attempts fuel m place action c)).
    { apply K_action. eapply Forall_impl; [exact Hp|]. intros p Hpp act c' s' Hs'. specialize (Hpp act c' s' Hs'). by destruct (action_fn p act c' s'). }
    specialize (Hk s Hs). destruct (in3_nodeselect_handle_action _ _ _ _ _ _ _ _); try done. apply Hk.
  - intros ci w k v. pose proof (K_config_set ci w k v s Hs) as Hk. destruct (config_set ci w k v s); try done. apply Hk.
Qed.
Lemma demo_data_ok : shape_ok demo_data.
Proof. constructor; [done|split; intros _; by eexists|by repeat constructor|repeat constructor; cbn; lia|done|done|done]. Qed.
#[local] Instance demo_hash : Keccak.
Proof. refine {| keccak _ := replicate 32 0 |}; [done|]. intros. apply Forall_replicate. unfold is_byte. lia. Defined.
#[local] Instance demo_ecdsa : Ecdsa := {| crypto_recover _ _ := None |}.
Lemma nodeselect_keeps_types_witness : match in3_nodeselect_handle_action [] 0 0 (fun _ => 0) (fun _ => mk_slice 0 0) PLGN_ACT_NL_BLACKLIST (C_blacklist (replicate 20 2)) (demo_state [] demo_data) with Ok _ s' => lists_ok (world s') | _ => False end.
Proof.
  destruct (nodeselect_keeps_types demo_text demo_hash demo_alloc demo_ecdsa demo_world demo_nodes [] 0 0 (fun _ => 0) (fun _ => mk_slice 0 0) (Forall_nil_2 _) (demo_state [] demo_data)) as [Ha _].
  - apply Forall_singleton, demo_data_ok.
  - specialize (Ha PLGN_ACT_NL_BLACKLIST (C_blacklist (replicate 20 2))).
    destruct (in3_nodeselect_handle_action [] 0 0 (fun _ => 0) (fun _ => mk_slice 0 0) PLGN_ACT_NL_BLACKLIST (C_blacklist (replicate 20 2)) (demo_state [] demo_data)) eqn:E; [exact Ha|vm_compute in E; discriminate..].
Defined.

(** ** Blacklisting *)
Section Blacklist.
Context {W : Type} `{!NodeWorld W} (ci : nat).
#[local] Abbreviation data_of := (data_of ci).
Lemma time_run (s : state W) : exists now s', in3_time s = Ok now s' /\ 0 <= now < 2 ^ 64 /\ same_request s s' /\ data_of s' = data_of s.
Proof.
  unfold in3_time, on_world, mbind, M_bind, NodeSafety.data_of. pose proof (conf_time (world s)) as E. destruct (time_fn (world s)) as [x w]. cbn in E.
  eexists _, _. split; [done|]. split; [apply u64_range|]. split; [unfold same_request|]; cbn; by rewrite E.
Qed.
Lemma selectable_after dep wl now filter pre n w : now < blacklisted_until w -> selectable dep wl now filter pre n w <> Some true.
Proof.
  intros Hlt. unfold selectable. destruct (match pre with Some f => in_address_list f (n_address n) | None => Some true end) as [[]|]; cbn [mbind option_bind negb]; try done.
  destruct (match filter ≫= f_nodes with Some v => _ | None => Some true end) as [[]|]; cbn [mbind option_bind negb]; try done.
  destruct (match filter with Some f => existsb _ (f_exclusions f) | None => false end); [done|]. by replace (now <? blacklisted_until w) with true by lia.
Qed.

(** Blacklisting a node by its address: the first node with the address is looked up, and the node
    at the position that its registry index names is blocked and not a candidate before the time is up;
    nothing else changes.  This is the node itself only if the list holds it at its registry index,
    which a partial list does not; if the index is not below the length of the list, nothing is
    blacklisted.  A node that is blocked already is reported as such. *)
Theorem blacklist_addr_spec (s : state W) d p n addr secs :
  data_of s = Some d -> shape_ok d -> all_nodes d !! p = Some n -> n_address n = addr -> (forall q m, (q < p)%nat -> all_nodes d !! q = Some m -> n_address m <> addr) ->
  let i := Z.to_nat (u32 (n_index n)) in
  exists r s', blacklist_node_addr ci addr secs s = Ok r s' /\ same_request s s' /\
    match all_nodes d !! i with
    | None => r = IN3_OK /\ data_of s' = Some d
    | Some b =>
        if n_blocked b then r = IN3_ERPC /\ data_of s' = Some d
        else r = IN3_OK /\ exists d' until, data_of s' = Some d' /\ all_nodes d' !! i = Some (set_blocked true b) /\
          (forall j, j <> i -> all_nodes d' !! j = all_nodes d !! j /\ all_weights d' !! j = all_weights d !! j) /\
          (exists w, all_weights d' !! i = Some w /\ blacklisted_until w = until /\
             forall dep wl now filter pre m, now < until -> selectable dep wl now filter pre m w <> Some true)
    end.
Proof.
  intros Hd Hok Hp Ha Hfirst i. unfold blacklist_node_addr. rewrite (bind_ok _ _ _ _ _ (nl_data_run _ _ _ Hd)).
  assert (find (fun n => bool_decide (n_address n = addr)) (all_nodes d) = Some n) as ->.
  { revert p Hp Hfirst. generalize (all_nodes d) as l. induction l as [|m l IH]; intros p Hp Hfirst; [done|]. cbn. destruct p as [|p].
    - cbn in Hp. simplify_eq. by rewrite bool_decide_true.
    - rewrite bool_decide_false by (apply (Hfirst 0%nat); [lia|done]). apply (IH p Hp). intros q x Hq. apply (Hfirst (S q)). lia. }
  fold i. unfold blacklist_node. rewrite (bind_ok _ _ _ _ _ (nl_data_run _ _ _ Hd)). unfold get_node_idx.
  destruct (all_nodes d !! i) as [b|] eqn:Eb; cbn [is_blacklisted]; [|by exists IN3_OK, s].
  destruct (n_blocked b) eqn:Ebl; [by exists IN3_ERPC, s|]. unfold get_node_weight_idx.
  destruct (lookup_lt_is_Some_2 (all_weights d) i) as [w Ew]; [rewrite (sh_length d Hok); by eapply lookup_lt_Some|].
  rewrite Ew. cbn [defined]. rewrite (bind_ok (mret w) _ s w s) by done. cbn beta.
  destruct (time_run s) as (now & s1 & Et & Hnow & Hs1 & Hd1). rewrite (bind_ok _ _ _ _ _ Et). cbn beta. rewrite Hd in Hd1.
  destruct (upd_data_run ci s1 d (block_node i (u64 (now + secs))) Hd1) as (s2 & Eu & Hd2 & Hs2). rewrite (bind_ok _ _ _ _ _ Eu).
  exists IN3_OK, s2. split; [done|]. split; [by eapply same_request_trans|]. split; [done|]. exists (block_node i (u64 (now + secs)) d), (u64 (now + secs)). split; [done|].
  assert (Hn : all_nodes (block_node i (u64 (now + secs)) d) = alter (set_blocked true) i (all_nodes d)) by (unfold all_nodes, block_node; cbn; by destruct (nodelist d)).
  assert (Hw : all_weights (block_node i (u64 (now + secs)) d) = alter (set_blacklisted_until (u64 (now + secs))) i (all_weights d)) by (unfold all_weights, block_node; cbn; by destruct (weights d)).
  rewrite Hn, Hw. split; [by rewrite list_lookup_alter_eq, Eb|]. split; [intros j Hj; by rewrite !list_lookup_alter_ne|].
  eexists. rewrite list_lookup_alter_eq, Ew. split; [done|]. split; [done|]. intros. by apply selectable_after.
Qed.
End Blacklist.
Lemma blacklist_addr_spec_witness : exists r s' d', blacklist_node_addr 0 (replicate 20 2) DAY (demo_state [] demo_data) = Ok r s' /\ r = IN3_OK /\
  data_of 0 s' = Some d' /\ all_nodes d' !! 0%nat = Some (set_blocked true (demo_node 1 5)) /\ all_nodes d' !! 1%nat = Some (demo_node 2 0).
Proof.
  destruct (blacklist_addr_spec 0 (demo_state [] demo_data) demo_data 1 (demo_node 2 0) (replicate 20 2) DAY) as (r & s' & E & _ & Hr); [done|apply demo_data_ok|done|done| |].
  - intros [|q] m Hq; [|lia]. intros [= <-]. by vm_compute.
  - destruct Hr as (-> & d' & until & E1 & E2 & E3 & _). exists IN3_OK, s', d'. split; [exact E|]. split; [done|]. split; [exact E1|]. split; [exact E2|]. by destruct (E3 1%nat).
Defined.

(** ** New lists *)
Section NewLists.
Context `{SourceText} {W : Type} `{!NodeWorld W} (plugins : list (in3_plugin_t W)) (ci : nat).
#[local] Abbreviation data_of := (data_of ci).
Context (Hlog : in3_plugin_is_registered plugins PLGN_ACT_LOG_ERROR = false).
Lemma err_run msg e (s : state W) : (e =? IN3_WAITING) || (e =? IN3_OK) = false -> exists s', err plugins msg e s = Ok e s' /\ world s' = world s /\ client s' = client s.
Proof. intros He. unfold err, req_set_error, log_fuel. cbn [set_error_intern]. rewrite He, Hlog. by eexists. Qed.
(** A list that is not newer is ignored. *)
Lemma old_list_ignored r s d vs t : data_of s = Some d -> jget r K_NODES = Some (JArray vs) -> jget r K_LAST_BLOCK_NUMBER = Some t -> d_long (Some t) <= last_block d ->
  exists s', fill_chain plugins ci r s = Ok IN3_OK s' /\ data_of s' = Some d.
Proof.
  intros Hd Hn Ht Hle. unfold fill_chain. destruct (time_run ci s) as (now & s1 & Et & _ & _ & Hd1). rewrite (bind_ok _ _ _ _ _ Et), Hn, Ht. rewrite Hd in Hd1.
  rewrite (bind_ok _ _ _ _ _ (nl_data_run _ _ _ Hd1)). replace (last_block d <? d_long (Some t)) with false by lia. by exists s1.
Qed.

(** A new list with a node without a url (or without address and url) is refused with an error, and
    the nodes and weights stay; but its block number is taken over first, so that the next list for
    this block, which may be a complete one, is ignored without an error. *)
Theorem refused_list_ignored r s d now s0 vs t msg :
  data_of s = Some d -> in3_time s = Ok now s0 -> jget r K_NODES = Some (JArray vs) -> jget r K_LAST_BLOCK_NUMBER = Some t -> last_block d < d_long (Some t) ->
  fill_nodes (c_flags (client s)) now (all_nodes d) (all_weights d) 0 vs = Some (inl msg) ->
  exists s1 d1, fill_chain plugins ci r s = Ok IN3_EINVALDT s1 /\ data_of s1 = Some d1 /\ nodelist d1 = nodelist d /\ weights d1 = weights d /\
    forall r2 s2 vs2 t2, data_of s2 = Some d1 -> jget r2 K_NODES = Some (JArray vs2) -> jget r2 K_LAST_BLOCK_NUMBER = Some t2 -> d_long (Some t2) <= d_long (Some t) ->
      exists s3, fill_chain plugins ci r2 s2 = Ok IN3_OK s3 /\ data_of s3 = Some d1.
Proof.
  intros Hd Et Hn Ht Hlt Hf. destruct (time_run ci s) as (now' & s0' & Et' & _ & Hs & Hd0). rewrite Et in Et'. simplify_eq. rewrite Hd in Hd0.
  unfold fill_chain at 1. rewrite (bind_ok _ _ _ _ _ Et), Hn, Ht, (bind_ok _ _ _ _ _ (nl_data_run _ _ _ Hd0)). replace (last_block d <? d_long (Some t)) with true by lia.
  destruct (upd_data_run ci s0' d (set_last_block (d_long (Some t))) Hd0) as (s1 & Eu & Hd1 & Hs1). rewrite (bind_ok _ _ _ _ _ Eu).
  destruct (same_request_trans _ _ _ Hs Hs1) as (_ & _ & Hcl & _).
  rewrite (bind_ok (gets _) _ s1 (c_flags (client s)) s1) by (by rewrite <- Hcl). rewrite (bind_defined _ _ _ _ Hf). cbn beta iota.
  destruct (err_run msg IN3_EINVALDT s1) as (s2 & Ee & Hw & _); [done|]. rewrite (bind_ok _ _ _ _ _ Ee).
  assert (Hd2 : data_of s2 = Some (set_last_block (d_long (Some t)) d)) by (unfold NodeSafety.data_of in *; by rewrite Hw).
  destruct (upd_data_run ci s2 _ (set_dirty true) Hd2) as (s3 & Eu3 & Hd3 & _). rewrite (bind_ok _ _ _ _ _ Eu3).
  exists s3, (set_dirty true (set_last_block (d_long (Some t)) d)). split_and!; try done. intros r2 s4 vs2 t2 Hd4 Hn2 Ht2 Hle. by eapply old_list_ignored.
Qed.

(** A known node keeps its weight; one that was blacklisted stays so, unless it was registered within
    the last day. *)
Lemma fill_nodes_weights flags now old ow vs : forall i ns ws, fill_nodes flags now old ow i vs = Some (inr (ns, ws)) ->
  forall k v, vs !! k = Some v -> exists n w, ns !! k = Some n /\ ws !! k = Some w /\
    match old_index old (i + k) (n_address n) with
    | Some j => exists w0, ow !! j = Some w0 /\ w = new_node_weight now v w0
    | None => w = new_node_weight now v (boot_weight flags v)
    end.
Proof.
  induction vs as [|v vs IH]; intros i ns ws; cbn [fill_nodes]; [by intros _ k v Hk|].
  intros ([msg|[n w]] & E1 & E)%bind_Some; [done|]. apply bind_Some in E as ([msg|[ns' ws']] & E2 & E); [done|]. simplify_eq.
  intros [|k] v' Hk; [|by destruct (IH _ _ _ E2 k v' Hk) as (n' & w' & H1 & H2 & H3); exists n', w'; rewrite Nat.add_succ_r].
  cbn in Hk. simplify_eq. exists n, w. split; [done|]. split; [done|]. rewrite Nat.add_0_r. unfold fill_node in E1.
  destruct (d_get_byteskl (Some v') K_ADDRESS 20) as [adr|]; [|by case_match]. destruct (length adr =? 20)%nat; [|by case_match].
  apply bind_Some in E1 as (w0 & E0 & E1). destruct (d_get_string (Some v') K_URL); [|done]. simplify_eq. cbn [n_address].
  destruct (old_index old i adr); [by exists w0|by simplify_eq].
Qed.
End NewLists.
Definition refused_result : jval := JObject [(K_NODES, JArray [JObject [(K_ADDRESS, JBytes (replicate 20 4))]]); (K_LAST_BLOCK_NUMBER, JInt 90)].
Lemma refused_list_ignored_witness : exists s1 d1, fill_chain [] 0 (Some refused_result) (demo_state [] demo_data) = Ok IN3_EINVALDT s1 /\ data_of 0 s1 = Some d1 /\ nodelist d1 = nodelist demo_data.
Proof.
  destruct (refused_list_ignored [] 0 eq_refl (Some refused_result) (demo_state [] demo_data) demo_data 1000000 (demo_state [] demo_data) [JObject [(K_ADDRESS, JBytes (replicate 20 4))]] (JInt 90) "missing url in nodelist"%string) as (s1 & d1 & E1 & E2 & E3 & _);
    [vm_compute; reflexivity..|].
  exists s1, d1. split; [exact E1|]. split; [exact E2|exact E3].
Defined.

(** ** Boot nodes *)

(** The configurations as the comments of nodeselect_def_cfg.h have them: for a chain the contract, the
    registry id (if there is one), and address and url of the nodes. *)
Definition boot_configs : list (Z * string * string * list (string * string)) := [
  (CHAIN_ID_MAINNET, "ac1b824795e1eb1f6e609fe0da9b9af8beaab60f", "23d5345c5c13180a8080bd5ddbe7cde64683755dcce6e734d95b7b573845facb",
    [("45d45e6ff99e6c34a235d263965910298985fcfe", "https://in3-v2.slock.it/mainnet/nd-1");
     ("2e333ec090f1028df0a3c39a918063443be82b2b", "https://mainnet.incubed.net");
     ("510ee7f6f198e018e3529164da2473a96eeb3dc8", "https://0001.mainnet.in3.anyblock.tools");
     ("c513a534de5a9d3f413152c41b09bd8116237fc8", "https://in3-v2.slock.it/mainnet/nd-4");
     ("bcdf4e3e90cc7288b578329efd7bcc90655148d2", "https://in3-v2.slock.it/mainnet/nd-5")]);
  (CHAIN_ID_GOERLI, "5f51e413581dd76759e9eed51e63d14c8d1379c8", "67c02e5e272f9d6b4a33716614061dd298283f86351079ef903bf0d4410a44ea",
    [("45d45e6ff99e6c34a235d263965910298985fcfe", "https://in3-v2.slock.it/goerli/nd-1");
     ("1fe2e9bf29aa1938859af64c413361227d04059a", "https://in3-v2.slock.it/goerli/nd-2");
     ("7c1f2b5c1e2fe8300f3e0865818faf43ad22d99d", "https://in3.jentzschfamily.de")]);
  (CHAIN_ID_IPFS, "a93b57289070550c82edb1106e12bb37138948b8", "f0162ec6d785ee990e36bad865251f45af0916cf136169540c02b0dd9cb69196",
    [("45d45e6ff99e6c34a235d263965910298985fcfe", "https://in3-v2.slock.it/ipfs/nd-1");
     ("1fe2e9bf29aa1938859af64c413361227d04059a", "https://in3-v2.slock.it/ipfs/nd-2")]);
  (CHAIN_ID_BTC, "c2c05fbfe76ee7748ae5f5b61b57a46cc4061c32", "53786c93e54c21d9852d093c394eee9df8d714d8f2534cdf92f9c9998c528d19",
    [("45d45e6ff99e6c34a235d263965910298985fcfe", "https://in3-v2.slock.it/btc/nd-1");
     ("1fe2e9bf29aa1938859af64c413361227d04059a", "https://in3-v2.slock.it/btc/nd-2")]);
  (CHAIN_ID_EWC, "039562872008f7a76674a6e7842804f0ad37cb13", "313454c05fc6e5336a3315ed2233da6b831d4cb826d836c3d603f2e2a9f1ed75",
    [("45d45e6ff99e6c34a235d263965910298985fcfe", "https://in3-v2.slock.it/ewc/nd-1");
     ("1fe2e9bf29aa1938859af64c413361227d04059a", "https://in3-v2.slock.it/ewc/nd-2")]);
  (CHAIN_ID_LOCAL, "f0fb87f4757c77ea3416afe87f36acaa0496c7e9", "0000000000000000000000000000000000000000000000000000000000000000",
    [("784bfa9eb182c3a02dbeb5285e3dba92d717e07a", "http://localhost:8545")])].
Definition boot_state (id : Z) : state demo_world :=
  mk_state demo_request [] (mk_client [mk_chain id CHAIN_ETH 2 None] 5 0 PROOF_STANDARD 0 0 1 0 0 0) (mk_demo (mk_config [fresh_data true id] 0 0 0 1) []).
Definition has_config (cfg : Z * string * string * list (string * string)) (s : state demo_world) : bool :=
  let '(id, contract, registry, ns) := cfg in
  match data_of 0 s with
  | Some d =>
      bool_decide (bytes_to_hex_loop (nl_contract d) = str contract) && bool_decide (bytes_to_hex_loop (registry_id d) = str registry) &&
      bool_decide (map (fun n => (bytes_to_hex_loop (n_address n), n_url n, n_props n)) (all_nodes d) = map (fun n => (str n.1, str n.2, 65535)) ns) &&
      bool_decide (map (fun n => (n_index n, n_capacity n, n_deposit n)) (all_nodes d) = imap (fun i _ => (Z.of_nat i, 1, 0)) ns) &&
      bool_decide (map (fun w => (response_count w, total_response_time w, blacklisted_until w)) (all_weights d) = map (fun _ => (0, 0, 0)) ns)
  | None => false
  end.

(** The built-in boot nodes: for each supported chain init_boot_nodes parses the binary table of
    nodeselect_def_cfg.h and configures exactly the contract, registry id and nodes (with all
    properties and without a weight) that the JSON text beside the table lists; other chains are refused. *)
Theorem boot_nodes_spec (A : Allocator) (T : SourceText) :
  Forall (fun cfg => exists s', init_boot_nodes [] 0 cfg.1.1.1 (boot_state cfg.1.1.1) = Ok IN3_OK s' /\ has_config cfg s' = true) boot_configs /\
  forall id s, id ∉ map (fun cfg => cfg.1.1.1) boot_configs -> init_boot_nodes (W := demo_world) [] 0 id s = Ok IN3_ECONFIG s.
Proof.
  split.
  - assert (Hrun : forall id cfg, match init_boot_nodes [] 0 id (boot_state id) with Ok r s' => (r =? IN3_OK) && has_config cfg s' | _ => false end = true ->
      exists s', init_boot_nodes [] 0 id (boot_state id) = Ok IN3_OK s' /\ has_config cfg s' = true).
    { intros id cfg. destruct (init_boot_nodes [] 0 id (boot_state id)) as [r s'| | |]; try done. intros [E1 E2]%andb_prop. apply Z.eqb_eq in E1 as ->. by exists s'. }
    repeat (apply Forall_cons; split; [apply Hrun; vm_compute; reflexivity|]). by apply Forall_nil.
  - intros id s Hid. unfold init_boot_nodes, nodeselect_def_cfg, nodeselect_def_cfg_data. cbn [boot_configs map fst] in Hid. rewrite !not_elem_of_cons in Hid. destruct Hid as (H1 & H2 & H3 & H4 & H5 & H6 & _).
    by rewrite !(proj2 (Z.eqb_neq _ _)) by done.
Qed.
Lemma boot_nodes_spec_witness : exists s', init_boot_nodes [] 0 CHAIN_ID_LOCAL (boot_state CHAIN_ID_LOCAL) = Ok IN3_OK s'.
Proof. destruct (boot_nodes_spec demo_alloc demo_text) as [Hf _]. do 5 apply Forall_inv_tail in Hf. apply Forall_inv in Hf as (s' & E & _). exists s'. exact E. Defined.

(** ** Missing signatures *)

(** A node reported for a missing signature is remembered by a pointer into the nodelist.  Once the
    list is replaced by an update, the next report about a node of the new list reads through this
    pointer: it is undefined. *)
Theorem missing_after_update {W : Type} `{!NodeWorld W} ci (s : state W) d ns ws pos address reporter :
  offlines d <> [] -> data_of ci s = Some (replace_nodes ns ws d) -> signers (self s) !! pos = Some address -> is_Some (first_index ns address 0) ->
  missing_signer ci reporter pos s = Undef.
Proof.
  intros Ho Hd Hs [i Hi]. unfold missing_signer. rewrite (bind_ok (field signers) _ s (signers (self s)) s) by done. rewrite (bind_defined _ _ _ _ Hs).
  rewrite (bind_ok _ _ _ _ _ (nl_data_run _ _ _ Hd)). change (all_nodes (replace_nodes ns ws d)) with ns. rewrite Hi.
  cbn [replace_nodes set_offlines offlines]. by destruct (offlines d).
Qed.
Lemma missing_after_update_witness :
  missing_signer 0 (replicate 20 3) 0 (mk_state (set_nodes [replicate 20 2] [] demo_request) [] (client (demo_state [] demo_data))
    (mk_demo (mk_config [replace_nodes [demo_node 2 0] [mk_weight 0 0 0] (offline_add 0 (replicate 20 9) demo_data)] 0 0 0 1) [])) = Undef.
Proof. apply (missing_after_update 0 _ (offline_add 0 (replicate 20 9) demo_data) [demo_node 2 0] [mk_weight 0 0 0] 0 (replicate 20 2) (replicate 20 3)); [done|done|done|by eexists]. Defined.
(** Only the last report is remembered, so that a second report about another node drops the first one. *)
Lemma offline_add_drops i j r r' d : offlines (offline_add j r' (offline_add i r d)) = [mk_offline (Live j) r'].
Proof. done. Qed.
