(* ===== verification/AccountProof.v ===== *)
(** * Accounts and storage values in Merkle proofs

    What the proofs of registry.c and of eth_account.c share: the values of converted tokens, the
    buffer in which a storage value is encoded, and [account_has]: an account whose serialised form
    is proved below the state root of a block is a value of the state. *)
From S2P Require Import Prelude Utils Bytes Rlp Merkle Data Json JsonVal ReqState Request ReqFrame ReqSafety Serialize Nano NanoSafety NodeData NodeRegistry.
From stdpp Require Import strings.
#[local] Open Scope Z_scope.

(** ** Converted tokens *)
Lemma fill_left_val n l : be_val (fill_left n l) = be_val l.
Proof. apply be_val_zeros. Qed.
Lemma fill_left_length n l : (length l <= n)%nat -> length (fill_left n l) = n.
Proof. intros Hl. unfold fill_left. rewrite length_app, length_replicate. lia. Qed.
Lemma fill_left_ok n l : bytes_ok l -> bytes_ok (fill_left n l).
Proof. intros Hl. apply Forall_app. split; [|done]. apply Forall_replicate. unfold is_byte. lia. Qed.
Lemma int_bytes_val n : 0 <= n < 2 ^ 32 -> be_val (int_bytes n) = n /\ bytes_ok (int_bytes n) /\ (1 <= length (int_bytes n) <= 4)%nat.
Proof.
  intros Hn. assert (forall k, 0 <= k <= 24 -> Z.land n (255 * 2 ^ k) = 0 -> n < 2 ^ (k + 8) -> n < 2 ^ k) as Hz.
  { intros k Hk E Hlt. apply lt_pow2_testbit; [lia..|]. intros i Hi. destruct (Z.lt_ge_cases i (k + 8)) as [Hi2|]; [|apply (testbit_small n (k + 8)); lia]. pose proof (Z.land_spec n (255 * 2 ^ k) i) as Et.
    rewrite E, Z.bits_0, Z.mul_pow2_bits in Et by lia. change 255 with (Z.ones 8) in Et. rewrite Z.ones_spec_low, andb_true_r in Et by lia. done. }
  unfold int_bytes. split; [|split; [apply be_bytes_ok|rewrite length_be_bytes; repeat destruct (negb _); lia]]. rewrite be_val_be_bytes. apply Z.mod_small. split; [lia|].
  destruct (Z.eqb_spec (Z.land n 0xFF000000) 0) as [E1|]; cbn [negb]; [|lia]. apply (Hz 24) in E1; [|lia..].
  destruct (Z.eqb_spec (Z.land n 0xFF0000) 0) as [E2|]; cbn [negb]; [|lia]. apply (Hz 16) in E2; [|lia..].
  destruct (Z.eqb_spec (Z.land n 0xFF00) 0) as [E3|]; cbn [negb]; [|lia]. apply (Hz 8) in E3; lia.
Qed.
Lemma hex_to_bytes_length buf len out size : length (hex_to_bytes buf len out size).2 = length out.
Proof.
  unfold hex_to_bytes. destruct buf as [buf|]; [|done]. destruct (_ <? -1); [done|]. destruct (_ && _); (destruct (_ =? 0); [done|]; destruct (size <? _); [done|]; destruct (negb _)); cbn [snd]; by rewrite hex_loop_length, ?length_insert.
Qed.
(** Converted a second time, a short hexadecimal string has lost its leading zeros, and nothing else. *)
Lemma d_bytes_again_cases t : d_bytes_again t = default [] (d_bytes t) \/
  (1 <= length (default [] (d_bytes t)) <= 4)%nat /\ exists n, d_bytes_again t = int_bytes n /\ (bytes_ok (default [] (d_bytes t)) -> n = be_val (default [] (d_bytes t))).
Proof.
  destruct t as [v|]; [|by left]. unfold d_bytes_again. cbn [fmap option_fmap option_map]. destruct v as [l|l|l|l|b|n|]; try by left. cbn [norm]. unfold is_hex. destruct ((1 <? zlen l) && has_0x l && forallb is_hex_char (drop 2 l)) eqn:Eh; [|by left].
  destruct (Z.eqb_spec (zlen l) 2) as [E2|E2]; [left; cbn [d_bytes]; rewrite Eh; by rewrite (proj2 (Z.eqb_eq _ _) E2)|]. destruct (Z.ltb_spec (zlen l) 10) as [Hl|Hl].
  - right. cbn [d_bytes]. rewrite Eh, (proj2 (Z.eqb_neq _ _) E2), (proj2 (Z.ltb_lt _ _) Hl). apply andb_prop in Eh as [Eh _]. apply andb_prop in Eh as [H1 H0x]. apply Z.ltb_lt in H1.
    pose proof (hex_to_bytes_length (Some l) (zlen l) (replicate (Z.to_nat 4) 0) 4) as Hx. assert (1 <= (hex_to_bytes (Some l) (zlen l) (replicate (Z.to_nat 4) 0) 4).1 <= 4) as Hn.
    { unfold hex_to_bytes. unfold has_0x in H0x. rewrite (proj2 (Z.ltb_ge (zlen l) (-1))), (proj2 (Z.eqb_neq (zlen l) (-1))), H0x, (proj2 (Z.eqb_neq (zlen l - 2) 0)) by lia.
      rewrite (proj2 (Z.ltb_ge 4 _)) by (apply Z.lt_succ_r, Z.quot_lt_upper_bound; lia). assert (1 <= Z.quot (zlen l - 2 + 1) 2 <= 4); [|by destruct (negb _)].
      split; [apply Z.quot_le_lower_bound; lia|apply Z.lt_succ_r, Z.quot_lt_upper_bound; lia]. }
    destruct (hex_to_bytes (Some l) (zlen l) (replicate (Z.to_nat 4) 0) 4) as [n out]. rewrite length_replicate in Hx. cbn [fst snd from_option id] in *.
    split; [rewrite length_take; lia|]. eexists. split; [done|]. intros Hok. apply bytes_to_int_spec; [done|]. rewrite length_take. lia.
  - left. cbn [d_bytes]. rewrite Eh, (proj2 (Z.eqb_neq _ _) E2), (proj2 (Z.ltb_ge _ _) Hl). by destruct (hex_to_bytes _ _ _ _).
Qed.
Lemma d_bytes_again_val t : let b := default [] (d_bytes t) in bytes_ok b ->
  be_val (d_bytes_again t) = be_val b /\ bytes_ok (d_bytes_again t) /\ ((length b <= 32)%nat -> (length (d_bytes_again t) <= 32)%nat).
Proof.
  intros b Hok. subst b. destruct (d_bytes_again_cases t) as [->|(Hl & n & E & Hn)]; [done|]. specialize (Hn Hok). rewrite E.
  assert (0 <= n < 2 ^ 32) as Hr. { rewrite Hn. pose proof (be_val_bound _ Hok). pose proof (Z.pow_le_mono_r 256 (zlen (default [] (d_bytes t))) 4). lia. }
  destruct (int_bytes_val n Hr) as (Hv & Ho & Hl4). rewrite Hv. split; [done|]. split; [done|]. lia.
Qed.

(** ** Storage values *)

(** The value in the buffer on the stack is encoded as RLP demands, if it fits. *)
Section Buffer.
Context `{Allocator}.
Definition buffer_ok (bb : bytes_builder_t) : Prop := bb_bsize bb = 36 /\ bb_heap bb = false /\ exists d, bb_data bb = Some d /\ length d = 36%nat.
Lemma stack_header n : 0 <= n < 56 -> (ll ← bb_write_byte stack_builder (n + 0x80); bb_content ll) = Some [0x80 + n].
Proof. intros Hn. destruct (stack_write_byte stack_builder [] (n + 0x80) stack_builder_rep) as (ll & -> & Hr); [cbn; lia|unfold is_byte; lia|]. cbn [mbind option_bind]. rewrite (stack_content _ _ Hr). cbn. do 2 f_equal. lia. Qed.
Lemma buffer_replace d v h : length d = 36%nat -> take (length v) d = v -> v <> [] -> (length v <= 36)%nat ->
  bb_replace (mk_bb 36 (Some d) (zlen v) false) 0 0 [h] = None \/
  exists d', bb_replace (mk_bb 36 (Some d) (zlen v) false) 0 0 [h] = Some (mk_bb 36 (Some d') (zlen v + 1) false) /\ length d' = 36%nat /\ take (S (length v)) d' = h :: v.
Proof.
  intros Hd Ht Hne Hl. unfold bb_replace. cbn [Nat.eqb andb length]. change (u64 (Z.of_nat 1 - Z.of_nat 0)) with 1. unfold bb_check_size. cbn [bb_len bb_bsize bb_data bb_heap]. change (1 =? 0) with false. cbn [orb]. rewrite (u64_small (zlen v + 1)) by lia.
  destruct (Z.ltb_spec (zlen v + 1) 36) as [Hlt|]; [|left; by destruct (grow_bsize _ _ _)]. right. cbn [mbind option_bind bb_data bb_len]. rewrite (u32_small (zlen v - Z.of_nat 0 - Z.of_nat 0)) by lia.
  replace (Z.to_nat (zlen v - Z.of_nat 0 - Z.of_nat 0)) with (length v) by lia. unfold read_at at 1. rewrite (proj2 (Nat.leb_le _ _)) by lia. cbn [Nat.add drop mbind option_bind]. rewrite drop_0, Ht.
  destruct (memcpy_splice d v [h] 0) as (d1 & d2 & E1 & E2 & Hl2 & Ht2); [cbn; lia|]. cbn [Nat.add length] in E1. rewrite E1. cbn [mbind option_bind]. cbn [length Nat.eqb] in E2. rewrite E2. cbn [mbind option_bind bb_heap bb_bsize].
  exists d2. rewrite u32_small by lia. split; [do 2 f_equal; lia|]. split; [congruence|]. exact Ht2.
Qed.
Lemma storage_value_spec bb v bb' ex : buffer_ok bb -> storage_value bb v = Some (bb', ex) -> buffer_ok bb' /\ ex = (match v with [] => EAbsent | _ => EValue (rlp_string v) end).
Proof.
  intros (Hsz & Hh & d & Ed & Hd). unfold storage_value. rewrite Ed, Hsz, Hh. cbn [mbind option_bind]. destruct (memcpy_at d 0 v) as [d1|] eqn:E1; [|done]. cbn [mbind option_bind].
  pose proof (memcpy_at_length _ _ _ _ E1) as Hl1. pose proof (memcpy_at_take _ _ _ _ E1) as Ht1. cbn [Nat.add take app] in Ht1.
  assert (length v <= 36)%nat as Hv. { unfold memcpy_at in E1. destruct (Nat.leb_spec (0 + length v) (length d)); [lia|done]. }
  destruct v as [|x v0] eqn:Ev; [intros [= <- <-]; split; [|done]; repeat split; exists d1; cbn; split; [done|lia]|]. rewrite <- Ev in *. assert (v <> []) as Hne by (by subst v).
  unfold rlp_encode_to_item. cbn [bb_len bb_data]. change (default [] (Some d1)) with d1. rewrite (rlp_string_unfold v).
  assert (rd d1 0 = rd v 0) as Hrd. { rewrite Ev in Ht1. destruct d1; [done|]. injection Ht1 as -> _. by rewrite Ev. }
  rewrite Hrd. assert ((zlen v =? 1) = (length v =? 1)%nat) as -> by (destruct (Nat.eqb_spec (length v) 1), (Z.eqb_spec (zlen v) 1); (done || lia)).
  destruct ((length v =? 1)%nat && (rd v 0 <? 128)).
  - cbn [mbind option_bind]. unfold bb_content, read_at. cbn [bb_data bb_len mbind option_bind]. rewrite Nat2Z.id, (proj2 (Nat.leb_le _ _)), drop_0, Ht1 by (cbn; lia). cbn [mbind option_bind]. intros [= <- <-].
    split; [|done]. repeat split. exists d1. split; [done|lia].
  - rewrite (proj2 (Z.ltb_lt (zlen v) 56)) by lia. pose proof (stack_header (zlen v)) as Hst. destruct (bb_write_byte stack_builder (zlen v + 128)) as [ll|]; [|cbn in Hst; discriminate Hst; lia]. cbn [mbind option_bind] in *. rewrite Hst by lia. cbn [mbind option_bind].
    destruct (buffer_replace d1 v (128 + zlen v)) as [->|(d2 & -> & Hl2 & Ht2)]; [lia|done|done|lia|done|]. cbn [mbind option_bind]. unfold bb_content, read_at. cbn [bb_data bb_len mbind option_bind].
    replace (Z.to_nat (zlen v + 1)) with (S (length v)) by lia. destruct (Nat.leb_spec (0 + S (length v)) (length d2)); [|done]. rewrite drop_0, Ht2. cbn [mbind option_bind]. intros [= <- <-]. split; [repeat split; by exists d2|].
    unfold rlp_header. by rewrite (proj2 (Z.ltb_lt (zlen v) 56)) by lia.
Qed.
End Buffer.
Definition expected_value (v : list Z) : expected_t := match v with [] => EAbsent | _ => EValue (rlp_string v) end.
Lemma d_iter_length t l : d_iter t = Some l -> zlen l = jlen t.
Proof. destruct t as [[]|]; cbn; try (intros [= <-]; rewrite ?length_map; done); repeat case_match; intros [= <-]; (done || cbn; symmetry; by apply Z.eqb_eq). Qed.

(** ** Values of a trie, and fields *)
Lemma has_value_fun `{Keccak} t k v w : has_value t k v -> has_value t k w -> v = w.
Proof.
  intros Hv. revert w. induction Hv as [p v|p c k v _ IH|cs u n c k v Hc Hn _ IH|cs v Hne]; intros w Hw; inversion Hw; subst; try done.
  - apply IH. match goal with E : p ++ ?a = p ++ k |- _ => apply app_inv_head in E; by subst a end.
  - apply IH. by simplify_eq.
Qed.
Lemma rlp_string_inj l l' : bytes_ok l -> bytes_ok l' -> zlen l < 2 ^ 30 -> zlen l' < 2 ^ 30 -> rlp_string l = rlp_string l' -> l = l'.
Proof.
  intros Hl Hl' Hz Hz' E. assert (zlen (rlp_string l) < 2 ^ 31) as Hs.
  { rewrite rlp_string_unfold. rewrite length_app. destruct ((length l =? 1)%nat && _); [cbn [length]; lia|]. pose proof (rlp_header_length 0x80 (zlen l)). lia. }
  assert ([Str l] = [Str l']) as [= ->]; [|done]. apply enc_items_inj; [apply Forall_singleton; (split; [done|cbn; lia])..| |]; cbn [enc_items map concat enc_item]; by rewrite ?app_nil_r.
Qed.
Lemma enc_item_in it its : it ∈ its -> (length (enc_item it) <= length (enc_items its))%nat.
Proof. induction 1 as [its|it it' its _ IH]; unfold enc_items in *; cbn [map concat]; rewrite length_app; lia. Qed.
Lemma rlp_string_length l : l <> [] -> (length l <= length (rlp_string l))%nat /\ (length l = 32%nat -> length (rlp_string l) = 33%nat).
Proof.
  intros Hne. rewrite rlp_string_unfold. rewrite length_app. destruct ((length l =? 1)%nat && _) eqn:E; (split; [lia|]); intros El; [by rewrite El in E|]. by rewrite El.
Qed.
Lemma rlp_string_longer l : (1 < length l)%nat -> (length l < length (rlp_string l))%nat.
Proof. intros Hl. rewrite rlp_string_unfold, length_app. pose proof (rlp_header_length 0x80 (zlen l)). destruct (Nat.eqb_spec (length l) 1); cbn [andb]; lia. Qed.
Lemma rlp_field_short ml t : (length (rlp_field ml t) <= 1)%nat.
Proof. destruct t as [[]|]; cbn; lia. Qed.
Lemma storage_field t r : d_bytes (Some t) = Some r -> (32 <= length r)%nat -> rlp_field HASH (Some t) = [Str r].
Proof.
  intros E Hl. assert (rlp_field HASH (Some t) = [Str (field_bytes HASH (default [] (d_bytes (Some t))))]) as -> by (by destruct t). rewrite E. cbn [from_option id]. unfold field_bytes. change (HASH =? 0) with false. change (HASH <? 0) with false. cbn iota. rewrite fill_left_id; [done|exact Hl].
Qed.
(** Four fields in four places. *)
Lemma account_four (f1 f2 f4 : list rlp_item) x y1 y2 y3 y4 : (length f1 <= 1)%nat -> (length f2 <= 1)%nat -> (length f4 <= 1)%nat -> f1 ++ f2 ++ [x] ++ f4 = [y1; y2; y3; y4] ->
  f1 = [y1] /\ f2 = [y2] /\ x = y3 /\ f4 = [y4].
Proof.
  intros L1 L2 L4 E. pose proof (f_equal length E) as El. rewrite !length_app in El. cbn [length] in El. destruct f1 as [|a [|]]; cbn [length] in *; try lia. destruct f2 as [|b' [|]]; cbn [length] in *; try lia.
  by injection E as -> -> -> ->.
Qed.

(** ** Runs *)
Section Runs.
Context {W : Type}.
Implicit Types s : state W.
Lemma run_ok {A B} (x : M (state W) A) (k : A -> M (state W) B) s b s' : (x ≫= k) s = Ok b s' -> exists a s1, x s = Ok a s1 /\ k a s1 = Ok b s'.
Proof. unfold mbind, M_bind. destruct (x s) as [a s1| | |]; try done. eauto. Qed.
Lemma run_bind {A B} (x : M (state W) A) (k : A -> M (state W) B) s a s1 : x s = Ok a s1 -> (x ≫= k) s = k a s1.
Proof. unfold mbind, M_bind. by intros ->. Qed.
End Runs.

(** ** Accounts *)
Section Accounts.
Context `{Keccak} `{Allocator} (m : memory) (place : list Z -> slice).
(** The nodes of a trie with different hashes are no collisions. *)
Lemma trie_no_collision (t : trie) ns x : Merkle.nodes t = ns -> bool_decide (NoDup (map keccak ns)) = true -> forallb (fun e => negb (bool_decide (keccak e = replicate 32 0))) ns = true -> x ∈ ns -> no_collision t x.
Proof.
  intros Et Hnd%bool_decide_eq_true Hz Hx. assert (forall e, e ∈ ns -> keccak x = keccak e -> x = e) as Hi.
  { intros e He E. destruct (list_elem_of_lookup_1 _ _ Hx) as [i Hi], (list_elem_of_lookup_1 _ _ He) as [j Hj]. assert (i = j); [|by simplify_eq]. eapply (NoDup_lookup (keccak <$> ns)); [done|by rewrite list_lookup_fmap, Hi|rewrite list_lookup_fmap, Hj; cbn; by f_equal]. }
  split; [|intros e He%list_elem_of_In; rewrite Et in He; by apply Hi]. rewrite forallb_forall in Hz. specialize (Hz x (proj1 (list_elem_of_In _ _) Hx)). by case_bool_decide.
Qed.
Lemma proof_nodes_fair (t : trie) ns : Forall (fun l => in_memory m place l /\ no_collision t l) ns -> nodes_fair m place (Some (JArray (map JBytes ns))) t.
Proof.
  intros Hn l E. unfold d_create_bytes_vec in E. cbn [d_iter mbind option_bind] in E. assert (mapM (fun v => match norm v with JBytes l => Some l | _ => None end) (map JBytes ns) = Some ns) as Em.
  { clear. induction ns as [|n ns IH]; [done|]. cbn [map mapM norm mbind option_bind]. rewrite IH. done. }
  rewrite Em in E. by injection E as <-.
Qed.
(** The serialised account is a value of the state. *)
Lemma account_has b state address header root account raw v r t : header = b_header b -> header_ok b -> root_is b BLOCKHEADER_STATE_ROOT state -> in_memory m place header ->
  nodes_fair m place (jget (Some account) K_ACCOUNT_PROOF) state -> Forall item_ok (account_fields (Some account)) -> zlen (enc_items (account_fields (Some account))) < 0x10000 ->
  item_at m place header BLOCKHEADER_STATE_ROOT root -> serialize_account (Some account) = Some raw -> proved_in m place root (keccak address) (jget (Some account) K_ACCOUNT_PROOF) (EValue raw) v ->
  d_getl (Some account) K_STORAGE_HASH 32 = Some t -> d_bytes (Some t) = Some r -> (32 <= length r)%nat ->
  account_fields (Some account) = rlp_field UINT (jget (Some account) K_NONCE) ++ rlp_field UINT (jget (Some account) K_BALANCE) ++ [Str r] ++ rlp_field HASH (d_getl (Some account) K_CODE_HASH 32) /\
  has_value state (nibs (keccak address)) (rlp_list (enc_items (account_fields (Some account)))).
Proof.
  intros Eh Hb Hroot Hmem Hfair Hok Hsz Hri Eraw Hp Et Er Hl.
  assert (account_fields (Some account) = rlp_field UINT (jget (Some account) K_NONCE) ++ rlp_field UINT (jget (Some account) K_BALANCE) ++ [Str r] ++ rlp_field HASH (d_getl (Some account) K_CODE_HASH 32)) as Ef.
  { unfold account_fields. by rewrite Et, (storage_field t r). }
  split; [done|]. rewrite serialize_account_spec in Eraw by done. injection Eraw as <-.
  assert (33 <= length (enc_items (account_fields (Some account))))%nat as Hl33.
  { etrans; [|apply (enc_item_in (Str r)); rewrite Ef; apply elem_of_app; right; apply elem_of_app; right; left]. cbn [enc_item]. assert (r <> []) as Hr0 by (by intros ->; cbn in Hl; lia). destruct (rlp_string_length r Hr0) as [H1' H2']. destruct (decide (length r = 32%nat)) as [E|]; [rewrite H2'; [lia|done]|lia]. }
  assert (33 < length (rlp_list (enc_items (account_fields (Some account)))))%nat as Hlr. { unfold rlp_list. rewrite length_app. pose proof (rlp_header_length 0xc0 (zlen (enc_items (account_fields (Some account))))). lia. }
  eapply (proved_has m place b _ _ root header); [done|done|done|exact Hroot|done|exact Hri|exact Hfair|apply keccak_ok|exact Hp| | |by left]; [intros E0; rewrite E0 in Hlr; cbn in Hlr|]; lia.
Qed.
Lemma account_fields_inj account its : Forall item_ok its -> Forall item_ok (account_fields (Some account)) -> zlen (enc_items (account_fields (Some account))) < 0x10000 ->
  rlp_list (enc_items its) = rlp_list (enc_items (account_fields (Some account))) -> account_fields (Some account) = its.
Proof.
  intros Hit Hok Hsz E. symmetry in E. apply rlp_list_inj in E; [|by apply enc_items_bytes_ok|by apply enc_items_bytes_ok|].
  2: { unfold rlp_list. rewrite length_app. pose proof (rlp_header_length 0xc0 (zlen (enc_items (account_fields (Some account))))). lia. }
  by apply enc_items_inj in E; [|done|done|lia].
Qed.
End Accounts.

(** ** Blocks of bytes one after the other, for examples *)
Fixpoint place_in (bs : list (list Z)) (a : Z) (l : list Z) : slice :=
  match bs with [] => mk_slice a (zlen l) | b :: t => if bool_decide (l = b) then mk_slice a (zlen b) else place_in t (a + zlen b) l end.
Lemma placed_in blocks : forallb (fun l => let p := place_in blocks 0 l in (0 <=? s_data p) && (0 <=? s_len p) && (s_data p + s_len p <? 2 ^ 62) && bool_decide (mem_read (mem_of (concat blocks)) p = l)) blocks = true ->
  forall l, l ∈ blocks -> in_memory (mem_of (concat blocks)) (place_in blocks 0) l.
Proof.
  intros Hb l Hl%list_elem_of_In. rewrite forallb_forall in Hb. specialize (Hb l Hl). cbn zeta in Hb. apply andb_prop in Hb as [Hb Hr%bool_decide_eq_true]. split; [|done]. unfold placed. lia.
Qed.
