(* ===== verification/NodeProof.v ===== *)
(** * nodeselect/full/registry.c: what a verified nodelist tells

    A list that [eth_verify_in3_nodelist] accepts has, for each of its nodes, a proof of the node's hash
    in the storage of the registry contract ([nodelist_proved]).  With an honest signer and without
    hash collisions the nodes are those of the contract in a block of the chain
    ([nodelist_authentic]).  That the list is complete is not made sure of: copies of one node do as
    well ([nodelist_copies_accepted]), and the number of nodes can be taken from any other value of the
    contract.  A partial list has the indexes that the seed of the client selects ([partial_indexes]). *)
From S2P Require Import Prelude Utils Bytes Rlp Merkle Data Json JsonVal ReqState Request ReqFrame ReqSafety Serialize Nano NanoSafety NodeData NodeList NodeRegistry AccountProof.
From stdpp Require Import strings sets.
#[local] Open Scope Z_scope.

(** ** Storage keys and values *)
Lemma as_bytes32_length l : length (as_bytes32 l) = 32%nat.
Proof. unfold as_bytes32, fill_left. rewrite length_app, length_replicate, length_take. lia. Qed.
Lemma is_key_path k skey : bytes_ok k -> (length k <= 32)%nat -> bytes_ok skey -> length skey = 32%nat -> is_key k skey = true -> fill_left 32 k = skey.
Proof.
  intros Hk Hl Hs Hls. unfold is_key. unfold u8. rewrite Z.mod_small, Nat2Z.id, take_ge by lia. intros E. apply be_val_inj; [by apply fill_left_ok|done|by rewrite fill_left_length|].
  rewrite fill_left_val. apply orb_prop in E as [E|E]; [apply andb_prop in E as [E1%bool_decide_eq_true E2%bool_decide_eq_true]|apply bool_decide_eq_true in E].
  - rewrite <- (optimize_len_val skey), <- (optimize_len_val k), E1, E2. done.
  - by rewrite <- (optimize_len_val skey), <- (optimize_len_val k), E.
Qed.

(** A value that is looked up for a key of the contract is the one of an entry whose proof is for this key. *)
Definition entry_fair (t : jval) : Prop := let k := default [] (d_bytes (jget (Some t) K_KEY)) in bytes_ok k /\ (length k <= 32)%nat.
Lemma get_storage_value_found proofs skey v : Forall entry_fair proofs -> bytes_ok skey -> length skey = 32%nat -> get_storage_value proofs skey = Some v ->
  exists t, t ∈ proofs /\ d_bytes_to (jget (Some t) K_KEY) 32 = skey /\ v = as_bytes32 (d_bytes_again (jget (Some t) K_VALUE)).
Proof.
  intros Hf Hs Hl. unfold get_storage_value. destruct (find _ proofs) as [t|] eqn:E; [|done]. intros [= <-]. apply find_some in E as [Hin%list_elem_of_In Hk]. exists t. split; [done|]. split; [|done].
  rewrite Forall_forall in Hf. destruct (Hf t Hin) as [Hok Hlk]. destruct (d_bytes_again_val (jget (Some t) K_KEY) Hok) as (Hv & Ho & Hlen).
  unfold d_bytes_to. rewrite take_ge by done. rewrite <- (is_key_path _ _ Ho (Hlen Hlk) Hs Hl Hk). apply be_val_inj; [by apply fill_left_ok..| |by rewrite !fill_left_val]. by rewrite !fill_left_length by auto.
Qed.
(** A hash that does not start with a zero is a value of 32 bytes. *)
Lemma value_of_hash t h : length h = 32%nat -> hd 0 h <> 0 -> as_bytes32 (d_bytes_again t) = h -> exists v, default [] (d_bytes t) = h ++ v.
Proof.
  intros Hl Hh E. assert (32 <= length (d_bytes_again t))%nat as Hlen.
  { destruct (Nat.le_gt_cases 32 (length (d_bytes_again t))); [done|]. destruct Hh. rewrite <- E. unfold as_bytes32, fill_left. rewrite take_ge by lia. by destruct (32 - length (d_bytes_again t))%nat eqn:E0; [lia|]. }
  destruct (d_bytes_again_cases t) as [Ea|(Hl4 & n & Ea & _)].
  - rewrite <- Ea, <- E. exists (drop 32 (d_bytes_again t)). unfold as_bytes32. rewrite fill_left_id by (rewrite length_take; lia). by rewrite take_drop.
  - exfalso. assert (length (int_bytes n) <= 4)%nat; [|rewrite Ea in Hlen; lia]. unfold int_bytes. rewrite length_be_bytes. repeat destruct (negb _); lia.
Qed.

(** ** What the verifier checks *)
Section Verifier.
Context `{SourceText} `{Keccak} `{Allocator} `{Ecdsa} {W : Type} `{!NodeWorld W} (plugins : list (in3_plugin_t W)) (fuel : nat) (m : memory) (place : list Z -> slice).
Context (asked_signers : list (list Z) -> Prop) (valid : list (list Z) -> in3_vctx_t -> Prop).
Context (Hplugins : Forall (plugin_contract (RI := nano_inv asked_signers) valid) plugins).
#[local] Abbreviation nwp := (wp (RI := nano_inv asked_signers)).
#[local] Existing Instance kept_preorder.
Implicit Types (s : state W) (vc : in3_vctx_t).
#[local] Abbreviation failed := (fail_judged plugins asked_signers valid Hplugins).

Definition node_checked (proofs : list jval) (n : jval) : Prop :=
  exists skey, get_storage_array_key 0 (index_of n) 5 4 = Some skey /\ get_storage_value proofs skey = Some (create_node_hash (Some n)).
Definition entry_proved (root : list Z) (t : jval) : Prop :=
  exists l r, d_create_bytes_vec (jget (Some t) K_PROOF) = Some (Some l) /\
    trie_verify_proof m root (keccak (d_bytes_to (jget (Some t) K_KEY) 32)) (map place l) (expected_value (default [] (d_bytes (jget (Some t) K_VALUE)))) = Some (true, r).
Definition account_proved (header contract : list Z) (account sp : jval) (proofs : list jval) : Prop :=
  exists root raw v, item_at m place header BLOCKHEADER_STATE_ROOT root /\ serialize_account (Some account) = Some raw /\
    proved_in m place root (keccak contract) (jget (Some account) K_ACCOUNT_PROOF) (EValue raw) v /\
    jget (Some account) K_STORAGE_PROOF = Some sp /\ d_iter (Some sp) = Some proofs /\
    (proofs <> [] -> exists r, (d_getl (Some account) K_STORAGE_HASH 32 ≫= fun t => d_bytes (Some t)) = Some r /\ Forall (entry_proved r) proofs).
(** The header, the contract and its account. *)
Definition contract_proved ss (required : option (list Z)) vc (sp : jval) (proofs : list jval) : Prop :=
  exists header contract d account, d_bytes (jget (vc_proof vc) K_BLOCK) = Some header /\ header_checked m place asked_signers ss header None /\
    d_get_byteskl (vc_result vc) K_CONTRACT 20 = Some contract /\ wrong_contract required contract = Some false /\
    item_at m place header BLOCKHEADER_NUMBER d /\ d_long (jget (vc_result vc) K_LAST_BLOCK_NUMBER) <= slice_number m d /\
    (jget (vc_proof vc) K_ACCOUNTS ≫= fun a => d_iter (Some a)) = Some [account] /\ account_proved header contract account sp proofs.
(** The number of nodes, and their indexes in a partial list. *)
Definition number_checked vc (node_limit : Z) (seed : option (list Z)) (proofs servers : list jval) : Prop :=
  let total := jget (vc_result vc) K_TOTAL_SERVERS in
  let total_servers := u32 (d_int total) in
  get_storage_value proofs (replicate 32 0) = Some (as_bytes32 (d_bytes_again total)) /\
  if negb (node_limit =? 0) && (node_limit <? total_servers) then
    zlen servers = i32 node_limit /\ exists indexes, create_random_indexes fuel total_servers node_limit seed [] = inr (Some indexes) /\ same_indexes servers indexes = true
  else zlen servers = i32 total_servers.
Definition nodelist_proved ss (data : in3_nodeselect_def_t) vc (node_limit : Z) (seed : option (list Z)) : Prop :=
  exists server_list servers sp proofs, jget (vc_result vc) K_NODES = Some server_list /\ d_iter (Some server_list) = Some servers /\
    contract_proved ss (Some (nl_contract data)) vc sp proofs /\ number_checked vc node_limit seed proofs servers /\ Forall (node_checked proofs) servers.

Lemma check_storage_spec proofs skey value s : length value = 32%nat -> nwp (check_storage plugins proofs skey value) (judged (get_storage_value proofs skey = Some value) s) s.
Proof.
  intros Hl. unfold check_storage. destruct (get_storage_value proofs skey) as [tmp|] eqn:E; [|by apply failed]. destruct (Z.eqb_spec (memcmp value tmp) 0) as [Em|]; cbn [negb]; [|by apply failed].
  wp_run. split; [reflexivity|]. split; [by left|]. intros _. apply memcmp_0 in Em; [by subst|]. unfold get_storage_value in E. destruct (find _ proofs); [|done]. injection E as <-. by rewrite as_bytes32_length.
Qed.
(** The results of these steps are IN3_OK or an error. *)
Lemma judged_lt P s e s1 : judged P s e s1 -> (e <? 0) = negb (e =? IN3_OK).
Proof. by intros (_ & [-> | ->] & _). Qed.
Lemma check_nodes_spec proofs : forall l s, nwp (check_nodes plugins proofs l) (judged (Forall (node_checked proofs) l) s) s.
Proof.
  induction l as [|n l IH]; intros s; cbn [check_nodes]; [wp_run; split; [reflexivity|]; split; [by left|constructor]|]. apply wp_bind, wp_defined. intros skey Ek. apply wp_bind.
  eapply wp_mono; [apply check_storage_spec; apply keccak_length|]. intros e s1 Hj. rewrite (judged_lt _ _ _ _ Hj). destruct Hj as (Hk & He & Hv). destruct (Z.eqb_spec e IN3_OK) as [->|]; cbn [negb]; [|wp_run; by split].
  eapply wp_mono; [apply IH|]. intros e2 s2 (Hk2 & He2 & Hl). split; [by etrans|]. split; [done|]. intros E. constructor; [exists skey; auto|auto].
Qed.
(** The block for the indexes of required addresses is too small for any of them. *)
Lemma seed_indexes_spec size sl : forall req found s, nwp (seed_indexes_loop plugins size sl req found) (fun r s' => kept s s' /\
  match r with inl e => e = IN3_EUNKNOWN | inr l => (req = [] /\ l = found \/ 0 < zlen req /\ 4 * (zlen found + zlen req) <= size) end) s.
Proof.
  induction req as [|r req IH]; intros found s; cbn [seed_indexes_loop]; [wp_run; split; [reflexivity|by left]|]. destruct (find _ sl) as [n|].
  - destruct (Z.ltb_spec size (4 * zlen found + 4)) as [|Hs]; [wp_run|]. eapply wp_mono; [apply IH|]. intros x s1 [Hk Hx]. split; [done|]. destruct x as [e|l]; [done|]. right. destruct Hx as [[-> _]|[_ Hx]]; cbn [length] in *; [lia|]. rewrite length_app in Hx. cbn in Hx. lia.
  - apply wp_bind. eapply wp_mono; [by apply (vc_err_spec plugins asked_signers valid Hplugins)|]. intros e s1 [-> Hk]. by wp_run.
Qed.
Lemma check_indexes_spec total limit seed req servers s : nwp (check_indexes plugins fuel total limit seed req servers)
  (judged (exists indexes, create_random_indexes fuel total limit seed [] = inr (Some indexes) /\ same_indexes servers indexes = true) s) s.
Proof.
  unfold check_indexes. set (len := match req with Some _ => jlen req | None => 0 end). apply wp_bind.
  assert (forall Q, (forall l, zlen l = len -> Q l s) -> nwp (if len =? 0 then mret [] else defined (d_iter req)) Q s) as Hreq.
  { intros Q HQ. destruct (Z.eqb_spec len 0) as [E|]; [wp_run; by apply HQ|]. apply wp_defined. intros l El. apply HQ. rewrite (d_iter_length _ _ El). by destruct req. }
  apply Hreq. intros l Hl. apply wp_bind. eapply wp_mono; [apply seed_indexes_spec|]. intros [e|idx] s1 [Hk Hr]; [wp_run; subst e; split; [done|]; split; [by right|done]|].
  assert (idx = []) as ->. { destruct Hr as [[_ ->]|[Hp Hr]]; [done|]. destruct (Z.eqb_spec len 0); cbn [length] in Hr; lia. }
  destruct (create_random_indexes _ _ _ _ _) as [|[idx|]] eqn:E; [wp_run| |by intros ?]. destruct (same_indexes servers idx) eqn:Es; [|by apply failed]. wp_run. split; [done|]. split; [by left|]. eauto.
Qed.
Lemma check_storage_proofs_spec root : forall l bb s, buffer_ok bb ->
  nwp (check_storage_proofs plugins m place root bb l) (judged (l <> [] -> exists r, root = Some r /\ Forall (entry_proved r) l) s) s.
Proof.
  induction l as [|t l IH]; intros bb s Hb; cbn [check_storage_proofs]; [wp_run; split; [reflexivity|]; split; [by left|done]|]. apply wp_bind, wp_defined. intros [pl|] Ep; [|by apply failed].
  apply wp_bind, wp_defined. intros [bb' ex] Eb. destruct (storage_value_spec _ _ _ _ Hb Eb) as [Hb' ->]. apply wp_bind, wp_defined. intros r ->. apply wp_bind, wp_defined. intros [ok v] Ev. cbn [fst snd] in *.
  destruct ok; cbn [negb]; [|by apply failed]. eapply wp_mono; [by apply IH|]. intros e s1 (Hk & He & Hl). split; [done|]. split; [done|]. intros E _. specialize (Hl E). exists r. split; [done|].
  assert (entry_proved r t) as Ht by (exists pl, v; done). destruct l as [|t' l']; [by constructor|]. destruct Hl as (r' & [= <-] & Hl); [done|]. by constructor.
Qed.
Definition account_post header contract account s (r : Z + jval) s' : Prop :=
  kept s s' /\ match r with inl e => e = IN3_EUNKNOWN | inr sp => exists proofs, account_proved header contract account sp proofs end.
Lemma account_fail header contract account msg s : nwp (e ← vc_err plugins msg; mret (inl e)) (account_post header contract account s) s.
Proof. apply wp_bind. eapply wp_mono; [by apply (vc_err_spec plugins asked_signers valid Hplugins)|]. intros e s1 [-> Hk]. by wp_run. Qed.
Lemma check_account_spec header contract account s : nwp (check_account plugins m place header contract account) (account_post header contract account s) s.
Proof.
  unfold check_account. apply wp_bind. eapply wp_mono; [apply header_item_spec|]. intros [root|] ? [-> Hr]; [|by apply account_fail]. specialize (Hr root eq_refl). case_bool_decide as Ea; cbn [negb]; [|by apply account_fail].
  apply wp_bind, wp_defined. intros [pl|] Ep; [|by apply account_fail]. apply wp_bind, wp_defined. intros raw Eraw. apply wp_bind, wp_defined. intros [ok v] Ev. cbn [fst]. destruct ok; cbn [negb]; [|by apply account_fail].
  destruct (jget (Some account) K_STORAGE_PROOF) as [sp|] eqn:Esp; [|by apply account_fail]. destruct (d_getl (Some account) K_STORAGE_HASH 32) as [t|] eqn:Et; [|by apply account_fail].
  apply wp_bind, wp_defined. intros proofs Epr. apply wp_bind. eapply wp_mono; [apply check_storage_proofs_spec|].
  - repeat split. exists (malloc 36). split; [done|]. apply malloc_length.
  - intros e s1 (Hk & He & Hp). destruct (Z.eqb_spec e IN3_OK) as [->|]; [|wp_run; split; [done|]; by destruct He]. wp_run. split; [done|]. exists proofs, root, raw, v. split_and!; try done; [by exists pl|]. intros Hne. rewrite Et. by apply Hp.
Qed.
Definition contract_post required vc s (r : (Z + jval * jval) * bool) s' : Prop :=
  kept s s' /\ match r.1 with
               | inl e => e = IN3_EUNKNOWN
               | inr (sp, sl) => jget (vc_result vc) K_NODES = Some sl /\ exists proofs, d_iter (Some sp) = Some proofs /\ contract_proved (signers (self s)) required vc sp proofs
               end.
Lemma contract_fail required vc (db : bool) msg s s1 : kept s s1 -> nwp (e ← vc_err plugins msg; mret (inl e, db)) (contract_post required vc s) s1.
Proof. intros Hk. apply wp_bind. eapply wp_mono; [by apply (vc_err_spec plugins asked_signers valid Hplugins)|]. intros e s2 [-> Hk2]. wp_run. split; [by etrans|done]. Qed.
Lemma verify_account_spec vc required s : nwp (verify_account plugins m place vc required) (contract_post required vc s) s.
Proof.
  unfold verify_account. destruct (vc_result vc) as [[| | |kvs| | |]|] eqn:Er; try (by apply contract_fail). destruct (vc_proof vc) as [proof|] eqn:Ep; [|by apply contract_fail]. rewrite <- Er.
  destruct (jget (vc_result vc) K_NODES) as [sl|] eqn:Esl; [|by apply contract_fail]. destruct (d_bytes (jget (Some proof) K_BLOCK)) as [header|] eqn:Eh; [|by apply contract_fail].
  apply wp_bind. eapply wp_mono; [by apply (eth_verify_blockheader_spec plugins m place asked_signers valid Hplugins)|]. intros [e db] s1 (Hk & He & Hhd). cbn [fst] in *.
  destruct He as [-> | ->]; [|change (IN3_EUNKNOWN <? 0) with true; cbn iota; by wp_run]. change (IN3_OK <? 0) with false. cbn iota. destruct (Hhd eq_refl) as (hd & [= <-] & Hc). clear Hhd.
  destruct (d_get_byteskl (vc_result vc) K_CONTRACT 20) as [contract|] eqn:Ec; [|by apply contract_fail]. apply wp_bind, wp_defined. intros [] Ew; [by apply contract_fail|].
  apply wp_bind. eapply wp_mono; [apply header_item_spec|]. intros [d|] ? [-> Hd]; [|by apply contract_fail]. specialize (Hd d eq_refl). destruct (Z.ltb_spec (slice_number m d) (d_long (jget (vc_result vc) K_LAST_BLOCK_NUMBER))) as [|Hn]; [by apply contract_fail|].
  destruct (jget (Some proof) K_ACCOUNTS) as [accounts|] eqn:Ea; [|by apply contract_fail]. destruct (negb _); [by apply contract_fail|]. apply wp_bind, wp_defined. intros account Eacc.
  apply wp_bind. eapply wp_mono; [apply check_account_spec|]. intros r s2 [Hk2 Hr]. wp_run. split; [by etrans|]. cbn [fst]. destruct r as [e|sp]; [done|]. split; [done|]. destruct Hr as (proofs & Hr). exists proofs. split; [by destruct Hr as (? & ? & ? & _ & _ & _ & _ & ? & _)|].
  exists header, contract, d, account. rewrite Ep, Ea. cbn [mbind option_bind]. split_and!; try done. destruct (d_iter (Some accounts)) as [[|a [|]]|]; try done. by injection Eacc as ->.
Qed.
Lemma verify_nodelist_data_spec vc limit seed req sl sp proofs s : d_iter (Some sp) = Some proofs -> nwp (verify_nodelist_data plugins fuel vc limit seed req sl sp)
  (judged (exists servers, d_iter (Some sl) = Some servers /\ number_checked vc limit seed proofs servers /\ Forall (node_checked proofs) servers) s) s.
Proof.
  intros Ep. unfold verify_nodelist_data. rewrite Ep. cbn [defined]. apply wp_bind, wp_ret. apply wp_bind, wp_defined. intros skey Ek. change (get_storage_array_key 0 0 0 0) with (Some (replicate 32 0)) in Ek. injection Ek as <-.
  apply wp_bind. eapply wp_mono; [apply check_storage_spec, as_bytes32_length|]. intros e s1 Hj. rewrite (judged_lt _ _ _ _ Hj). destruct Hj as (Hk & He & Hv). destruct (Z.eqb_spec e IN3_OK) as [->|]; cbn [negb]; [|wp_run; by split]. specialize (Hv eq_refl).
  set (total := u32 (d_int (jget (vc_result vc) K_TOTAL_SERVERS))) in *. set (P := forall servers, d_iter (Some sl) = Some servers -> number_checked vc limit seed proofs servers).
  assert (nwp (if negb (limit =? 0) && (limit <? total) then
           if negb (jlen (Some sl) =? i32 limit) then vc_err plugins "wrong length of the nodes!"
           else servers ← defined (d_iter (Some sl)); check_indexes plugins fuel total limit seed req servers
         else if negb (i32 total =? jlen (Some sl)) then vc_err plugins "wrong number of nodes in the serverlist" else mret IN3_OK) (judged P s) s1) as Hn.
  { unfold P, number_checked. fold total. destruct (negb (limit =? 0) && (limit <? total)).
    - destruct (Z.eqb_spec (jlen (Some sl)) (i32 limit)) as [El|]; cbn [negb]; [|by apply failed]. apply wp_bind, wp_defined. intros servers Es. eapply wp_mono; [apply check_indexes_spec|]. intros e2 s2 (Hk2 & He2 & Hi).
      split; [by etrans|]. split; [done|]. intros E2 servers' Es'. rewrite (d_iter_length _ _ Es'). assert (servers' = servers) as -> by congruence. auto.
    - destruct (Z.eqb_spec (i32 total) (jlen (Some sl))) as [El|]; cbn [negb]; [|by apply failed]. wp_run. split; [done|]. split; [by left|]. intros _ servers Es. rewrite (d_iter_length _ _ Es). auto. }
  apply wp_bind. eapply wp_mono; [exact Hn|]. intros e s2 Hj. rewrite (judged_lt _ _ _ _ Hj). destruct Hj as (Hk2 & He2 & HP). destruct (Z.eqb_spec e IN3_OK) as [->|]; cbn [negb]; [|wp_run; by split].
  apply wp_bind, wp_defined. intros servers Es. eapply wp_mono; [apply check_nodes_spec|]. intros e3 s3 (Hk3 & He3 & Hc). split; [by etrans|]. split; [done|]. intros E3. exists servers. unfold P in HP. auto.
Qed.
Lemma verify_nodelist_spec data vc limit seed req s : nwp (eth_verify_in3_nodelist plugins fuel m place data vc limit seed req)
  (fun r s' => kept s s' /\ ok_or_unknown r.1 /\ (r.1 = IN3_OK -> nodelist_proved (signers (self s)) data vc limit seed)) s.
Proof.
  unfold eth_verify_in3_nodelist. apply wp_bind. eapply wp_mono; [apply verify_account_spec|]. intros [[e|[sp sl]] db] s1 [Hk Hr]; cbn [fst snd] in *; [subst e; wp_run; split; [done|]; split; [by right|done]|].
  destruct Hr as (Esl & proofs & Ep & Hc). apply wp_bind. eapply wp_mono; [by apply verify_nodelist_data_spec|]. intros e s2 (Hk2 & He & Hv). wp_run. split; [by etrans|]. split; [done|]. intros E. destruct (Hv E) as (servers & Es & Hn & Hf).
  exists sl, servers, sp, proofs. done.
Qed.
End Verifier.

(** ** Nodes of the contract *)
Section Authentic.
Context `{Keccak} `{Allocator} `{Ecdsa} (m : memory) (place : list Z -> slice) (asked_signers : list (list Z) -> Prop) (fuel : nat).
(** The state of a block, and in it the account of the contract with its storage, whose values are words. *)
Record registry_t := mk_registry { rg_state : trie; rg_storage : trie; rg_nonce : list Z; rg_balance : list Z; rg_code : list Z }.
Definition account_items (r : registry_t) : list rlp_item := [Str (rg_nonce r); Str (rg_balance r); Str (keccak (node_enc (rg_storage r))); Str (rg_code r)].
Definition registry_ok (b : NanoSafety.block) (contract : list Z) (r : registry_t) : Prop :=
  root_is b BLOCKHEADER_STATE_ROOT (rg_state r) /\ trie_ok (rg_storage r) = true /\ Forall item_ok (account_items r) /\
  has_value (rg_state r) (nibs (keccak contract)) (rlp_list (enc_items (account_items r))) /\
  (forall k v, has_value (rg_storage r) k v -> (length v <= 33)%nat).
(** The slot of a node in the array of the contract, and the data whose hash the slot holds. *)
Definition slot_key (index : Z) : list Z := default [] (get_storage_array_key 0 index 5 4).
Definition registers (r : registry_t) (index : Z) (data : list Z) : Prop := has_value (rg_storage r) (nibs (keccak (slot_key index))) (rlp_string (keccak data)).
(** The response lies in memory, contains no collision with block and contract, the fields of the account
    are bytes and less than 64 KB, and the keys of storage proofs have at most 32 bytes. *)
Definition response_fair (vc : in3_vctx_t) (b : NanoSafety.block) (r : registry_t) : Prop :=
  (forall header, d_bytes (jget (vc_proof vc) K_BLOCK) = Some header -> in_memory m place header /\ (keccak header = keccak (b_header b) -> header = b_header b)) /\
  forall account, (jget (vc_proof vc) K_ACCOUNTS ≫= fun a => d_iter (Some a)) = Some [account] ->
    nodes_fair m place (jget (Some account) K_ACCOUNT_PROOF) (rg_state r) /\ Forall item_ok (account_fields (Some account)) /\ zlen (enc_items (account_fields (Some account))) < 0x10000 /\
    forall proofs, (jget (Some account) K_STORAGE_PROOF ≫= fun a => d_iter (Some a)) = Some proofs -> Forall (fun t => entry_fair t /\ nodes_fair m place (jget (Some t) K_PROOF) (rg_storage r)) proofs.

Lemma slot_key_spec index : get_storage_array_key 0 index 5 4 = Some (slot_key index) /\ bytes_ok (slot_key index) /\ length (slot_key index) = 32%nat.
Proof.
  unfold slot_key, get_storage_array_key. change (5 =? 0) with false. cbn iota. set (k := keccak _). set (v := u32 (index * 5 + 4)). pose proof (u32_range (index * 5 + 4)) as Hr.
  destruct (b256_add_spec k (be_bytes 4 v)) as (a & E & Hl & Ha & _); [apply keccak_ok|apply be_bytes_ok|apply keccak_length|done| |]; [rewrite be_val_be_bytes; pose proof (Z.mod_pos_bound v (256 ^ Z.of_nat 4)); lia|].
  rewrite E. done.
Qed.
Lemma entry_root r t : entry_proved m place r t -> (32 <= length r)%nat.
Proof. intros (l & v & _ & E). unfold trie_verify_proof, read_at in E. destruct (Nat.leb_spec (0 + 32) (length r)); [lia|done]. Qed.
(** The storage proofs of the account are proofs below the storage root of the contract. *)
Lemma account_storage b contract r header account sp proofs : header = b_header b -> block_ok b -> registry_ok b contract r -> in_memory m place header ->
  nodes_fair m place (jget (Some account) K_ACCOUNT_PROOF) (rg_state r) -> Forall item_ok (account_fields (Some account)) -> zlen (enc_items (account_fields (Some account))) < 0x10000 ->
  account_proved m place header contract account sp proofs -> proofs <> [] -> Forall (entry_proved m place (keccak (node_enc (rg_storage r)))) proofs.
Proof.
  intros Eh Hb (Hroot & _ & Hit & Hv & _) Hmem Hfair Hok Hsz (root & raw & v & Hri & Eraw & Hp & _ & _ & Hst) Hne. destruct (Hst Hne) as (r' & (t & Et & Er)%bind_Some & Hf). clear Hst.
  assert (32 <= length r')%nat as Hl. { destruct proofs as [|p proofs]; [done|]. apply Forall_inv in Hf. by eapply entry_root. }
  destruct (account_has m place _ _ _ _ _ _ _ _ _ _ Eh (block_header_ok _ Hb) Hroot Hmem Hfair Hok Hsz Hri Eraw Hp Et Er Hl) as [Ef Hv']. pose proof (account_fields_inj _ _ Hit Hok Hsz (has_value_fun _ _ _ _ Hv Hv')) as E. rewrite Ef in E.
  apply account_four in E as (_ & _ & [= <-] & _); [exact Hf|apply rlp_field_short..].
Qed.
(** An entry with the key of a slot and a value that is a hash: the slot holds this hash. *)
Lemma entry_slot b contract r t skey h : registry_ok b contract r -> nodes_fair m place (jget (Some t) K_PROOF) (rg_storage r) -> entry_proved m place (keccak (node_enc (rg_storage r))) t ->
  d_bytes_to (jget (Some t) K_KEY) 32 = skey -> h = as_bytes32 (d_bytes_again (jget (Some t) K_VALUE)) -> hd 0 h <> 0 -> has_value (rg_storage r) (nibs (keccak skey)) (rlp_string h).
Proof.
  intros (_ & Hok & _ & _ & Hw) Hfair (l & v & El & E) <- Eh Hh. assert (length h = 32%nat) as Hl by (by rewrite Eh, as_bytes32_length). destruct (value_of_hash _ _ Hl Hh (eq_sym Eh)) as (x & Ex). rewrite Ex in E.
  assert (1 < length (h ++ x))%nat as Hl1 by (rewrite length_app; lia). pose proof (rlp_string_longer _ Hl1) as Hl2. rewrite length_app in Hl2. assert (rlp_string (h ++ x) <> []) as Hne by (intros E0; rewrite E0 in Hl2; cbn in Hl2; lia).
  assert (expected_value (h ++ x) = EValue (rlp_string (h ++ x))) as Ee by (by destruct h). rewrite Ee in E. specialize (Hfair l El).
  assert (has_value (rg_storage r) (nibs (keccak (d_bytes_to (jget (Some t) K_KEY) 32))) (rlp_string (h ++ x))) as Hv.
  { eapply proof_sound; [exact Hok|apply keccak_ok| | |exact Hne|lia|exact E|by left]; apply Forall_fmap; (eapply Forall_impl; [exact Hfair|]); cbn; intros y [[Hp Hr] Hn]; [done|by rewrite Hr]. }
  specialize (Hw _ _ Hv). assert (x = []) as -> by (destruct x; [done|cbn [length] in *; lia]). by rewrite app_nil_r in Hv.
Qed.
Lemma contract_is c contract result : length c = 20%nat -> d_get_byteskl result K_CONTRACT 20 = Some contract -> wrong_contract (Some c) contract = Some false -> contract = c.
Proof.
  intros Hc E Hw. assert (length contract <= 20)%nat as Hl.
  { unfold d_get_byteskl, d_bytesl in E. apply bind_Some in E as (bs & _ & [= <-]). destruct (norm <$> _) as [[]|]; try (rewrite length_take; lia). destruct ((length bs <? 20)%nat && (4 <? 20)%nat) eqn:E'; [|rewrite length_take; lia]. apply andb_prop in E' as [E'%Nat.ltb_lt _]. rewrite fill_left_length; lia. }
  cbn [wrong_contract] in Hw. apply bind_Some in Hw as (a & Ea & [= Hm]). apply negb_false_iff, Z.eqb_eq in Hm. pose proof (read_at_length _ _ _ _ Ea) as Hla. apply memcmp_0 in Hm; [|lia]. subst a.
  unfold read_at in Ea. destruct (_ <=? _)%nat; [|done]. rewrite drop_0, take_ge in Ea by lia. by injection Ea.
Qed.
Context (chain : Z -> option NanoSafety.block) (registry : Z -> registry_t).

(** C5. The nodes of a list that [eth_verify_in3_nodelist] accepts are those of the registry.  Let the plugins keep their
    contract ([plugin_contract]) and the client ask for proofs.  Assume that the request asks for
    signatures, that each set of signers the client
    asks contains an honest one, and that the response contains no hash collision with the blocks of the
    chain and the contract (whose tries have no node of less than 32 bytes), and keys of at most 32 bytes.  Let the block number of the list not be 0.  Then there is a block of the chain, not older than
    the block number of the list, in which the contract the client knows holds, at the index of each
    node of the list, the hash of the data of this node (deposit, registration time, properties, weight,
    address and url); no other hash is there.  Excluded are hashes that start with a zero byte, whose
    encoding could be taken for a reference in the trie. *)
Theorem nodelist_authentic `{SourceText} {W : Type} (plugins : list (in3_plugin_t W)) valid data vc limit seed req s db s' :
  Forall (plugin_contract (RI := nano_inv asked_signers) valid) plugins -> state_inv (RI := nano_inv asked_signers) s ->
  eth_verify_in3_nodelist plugins fuel m place data vc limit seed req s = Ok (IN3_OK, db) s' ->
  (forall sgs, asked_signers sgs -> exists a, a ∈ sgs /\ honest chain a) ->
  (forall n b, chain n = Some b -> block_ok b /\ registry_ok b (nl_contract data) (registry n) /\ response_fair vc b (registry n)) ->
  length (nl_contract data) = 20%nat -> signers (self s) <> [] -> 0 < d_long (jget (vc_result vc) K_LAST_BLOCK_NUMBER) ->
  exists number b, d_long (jget (vc_result vc) K_LAST_BLOCK_NUMBER) <= number /\ chain (u64 number) = Some b /\
    forall servers node, (jget (vc_result vc) K_NODES ≫= fun t => d_iter (Some t)) = Some servers -> node ∈ servers -> hd 0 (create_node_hash (Some node)) <> 0 ->
      let r := registry (u64 number) in
      registers r (index_of node) (node_data (Some node)) /\ forall other, registers r (index_of node) other -> keccak other = keccak (node_data (Some node)).
Proof.
  intros Hp Hi Erun Hhon Hchain Hlc Hss Hlast. destruct (wp_ok _ _ _ _ _ (verify_nodelist_spec plugins fuel m place asked_signers valid Hp data vc limit seed req s) Hi Erun) as (_ & _ & HP).
  destruct (HP eq_refl) as (sl & servers & sp & proofs & Esl & Es & (header & contract & d & account & Eh & Hh & Ec & Hw & Hd & Hn & Ea & Hacc) & Hnum & Hnodes). clear HP.
  destruct (checked_block m place _ _ _ _ _ _ Hhon Hss Hh Hd) as (b & Hb & Ekb); [lia|]. destruct (Hchain _ _ Hb) as (Hok & Hreg & Hfh & Hfa). destruct (Hfh header Eh) as [Hmem Heq]. specialize (Heq (eq_sym Ekb)).
  apply (contract_is (nl_contract data)) in Ec; [|done|done]. subst contract. destruct (Hfa account Ea) as (Hf1 & Hf2 & Hf3 & Hf4). exists (slice_number m d), b. split; [done|]. split; [done|]. intros servers' node Es' Hnode Hhash.
  rewrite Esl in Es'. cbn [mbind option_bind] in Es'. assert (servers' = servers) as -> by congruence. rewrite Forall_forall in Hnodes. destruct (Hnodes node Hnode) as (skey & Ekey & Eval).
  destruct (slot_key_spec (index_of node)) as (Ekey' & Hsk & Hskl). rewrite Ekey in Ekey'. injection Ekey' as ->. pose proof Hacc as (_ & _ & _ & _ & _ & _ & Esp & Epr & _). specialize (Hf4 proofs). rewrite Esp in Hf4. cbn [mbind option_bind] in Hf4. specialize (Hf4 Epr).
  destruct (get_storage_value_found proofs (slot_key (index_of node)) _ ltac:(eapply Forall_impl; [exact Hf4|]; by intros ? []) Hsk Hskl Eval) as (t & Ht & Ekt & Ehash).
  assert (proofs <> []) as Hpne by (intros ->; by apply elem_of_nil in Ht). pose proof (account_storage _ _ _ _ _ _ _ Heq Hok Hreg Hmem Hf1 Hf2 Hf3 Hacc Hpne) as Hent. rewrite Forall_forall in Hf4, Hent. cbn zeta.
  assert (registers (registry (u64 (slice_number m d))) (index_of node) (node_data (Some node))) as Hr. { eapply entry_slot; [exact Hreg|by apply Hf4|by apply Hent|exact Ekt|exact Ehash|exact Hhash]. }
  split; [exact Hr|]. intros other Ho. pose proof (has_value_fun _ _ _ _ Ho Hr) as E. apply rlp_string_inj in E; [done|apply keccak_ok..| |]; rewrite keccak_length; lia.
Qed.
End Authentic.

(** ** A complete list need not be complete *)
Definition replace_list (vs : list jval) (kvs : list (Z * jval)) : list (Z * jval) := map (fun kv => if kv.1 =? K_NODES then (kv.1, JArray vs) else kv) kvs.
Lemma replace_list_other vs kvs k : k <> K_NODES -> jget (Some (JObject (replace_list vs kvs))) k = jget (Some (JObject kvs)) k.
Proof. intros Hk. cbn [jget]. induction kvs as [|[k' v] kvs IH]; [done|]. cbn [replace_list map find fst snd]. destruct (Z.eqb_spec k' K_NODES) as [->|]; cbn [fst find]; [rewrite (proj2 (Z.eqb_neq K_NODES k)) by congruence; exact IH|]. by destruct (k' =? k). Qed.
Lemma replace_list_nodes vs kvs : is_Some (jget (Some (JObject kvs)) K_NODES) -> jget (Some (JObject (replace_list vs kvs))) K_NODES = Some (JArray vs).
Proof. cbn [jget]. induction kvs as [|[k' v] kvs IH]; [by intros []|]. cbn [replace_list map find fst snd]. destruct (Z.eqb_spec k' K_NODES) as [->|Hk]; cbn [fst find]; [done|]. rewrite (proj2 (Z.eqb_neq _ _) Hk). exact IH. Qed.
(** The context of a verification with another list in the result. *)
Definition with_list (vs : list jval) (vc : in3_vctx_t) : in3_vctx_t :=
  mk_vctx (vc_chain vc) (vc_request vc) (match vc_result vc with Some (JObject kvs) => Some (JObject (replace_list vs kvs)) | r => r end) (vc_proof vc) (vc_last_validator_change vc) (vc_currentBlock vc) (vc_index vc) (vc_method vc) (vc_node vc) (vc_dont_blacklist vc).
Section Copies.
Context `{SourceText} `{Keccak} `{Allocator} `{Ecdsa} {W : Type} `{!NodeWorld W} (plugins : list (in3_plugin_t W)) (fuel : nat) (m : memory) (place : list Z -> slice).
Implicit Types s : state W.
Lemma vc_err_result msg s e s' : vc_err plugins msg s = Ok e s' -> e = IN3_EUNKNOWN.
Proof. unfold vc_err. intros (a & s1 & _ & E)%run_ok. by injection E. Qed.
Lemma fail_result {A} (f : Z -> A) msg s r s' : (e ← vc_err plugins msg; mret (f e)) s = Ok r s' -> r = f IN3_EUNKNOWN.
Proof. intros (e & s1 & E1 & E2)%run_ok. apply vc_err_result in E1 as ->. by injection E2. Qed.
Lemma bind_ext {A B} (x : M (state W) A) (k1 k2 : A -> M (state W) B) s : (forall a s, k1 a s = k2 a s) -> (x ≫= k1) s = (x ≫= k2) s.
Proof. intros E. unfold mbind, M_bind. by destruct (x s). Qed.
Lemma check_signatures_list vs vc n h msg l : forall c e s, check_signatures plugins (with_list vs vc) n h msg l c e s = check_signatures plugins vc n h msg l c e s.
Proof.
  induction l as [|sig l IH]; intros c e s; cbn [check_signatures]; [done|]. destruct (jget sig K_ERROR) as [err|].
  - destruct (negb _); [destruct (negb _); [done|apply IH]|]. apply bind_ext. intros r s1. destruct (_ <? 0); [done|]. apply bind_ext. intros _ s2. apply IH.
  - apply bind_ext. intros r s1. destruct (_ <? 0); [done|]. apply IH.
Qed.
(** A header that is accepted is accepted whatever the result is. *)
Lemma blockheader_list vs vc h s r db s' : eth_verify_blockheader plugins m place vc (Some h) None s = Ok (r, db) s' -> 0 <= r -> eth_verify_blockheader plugins m place (with_list vs vc) (Some h) None s = Ok (r, db) s'.
Proof.
  intros E Hr. revert E. unfold eth_verify_blockheader. destruct h as [|x h]; [done|]. intros (item & s1 & E1 & E)%run_ok. rewrite (run_bind _ _ _ _ _ E1). clear E1. destruct item as [d|]; [|exact E]. cbn zeta in *.
  apply run_ok in E as (hash & s2 & E2 & E). rewrite (run_bind _ _ _ _ _ E2). clear E2. destruct hash as [hs|]; [exact E|]. apply run_ok in E as (ss & s3 & E3 & E). rewrite (run_bind _ _ _ _ _ E3). clear E3. destruct ss as [|a ss]; [exact E|].
  cbn [vc_proof with_list]. destruct (jget (vc_proof vc) K_SIGNATURES) as [sigs|]; [|exact E]. apply run_ok in E as (msg & s4 & E4 & E). rewrite (run_bind _ _ _ _ _ E4). clear E4.
  apply run_ok in E as (res & s5 & E5 & E). rewrite <- (check_signatures_list vs) in E5. rewrite (run_bind _ _ _ _ _ E5). clear E5. destruct res as [e|[c e]]; [exact E|]. apply run_ok in E as (all & s6 & E6 & E). rewrite (run_bind _ _ _ _ _ E6). clear E6.
  destruct (negb (Z.lor c e =? all)); [|exact E]. exfalso. apply run_ok in E as (u & s7 & _ & E). apply (fail_result (fun e => (e, true))) in E. injection E as -> _. done.
Qed.
Lemma verify_account_list vs vc c kvs s sp sl db s' : vc_result vc = Some (JObject kvs) -> verify_account plugins m place vc c s = Ok (inr (sp, sl), db) s' ->
  jget (vc_result vc) K_NODES = Some sl /\ verify_account plugins m place (with_list vs vc) c s = Ok (inr (sp, JArray vs), db) s'.
Proof.
  intros Er. unfold verify_account. cbn [with_list vc_result vc_proof]. rewrite Er. destruct (vc_proof vc) as [proof|] eqn:Ep; [|by intros ?%(fail_result (fun e => (inl e, vc_dont_blacklist vc)))].
  destruct (jget (Some (JObject kvs)) K_NODES) as [sl'|] eqn:En; [|by intros ?%(fail_result (fun e => (inl e, vc_dont_blacklist vc)))]. rewrite replace_list_nodes by done. rewrite !replace_list_other by done.
  destruct (d_bytes (jget (Some proof) K_BLOCK)) as [h|] eqn:Eh; [|by intros ?%(fail_result (fun e => (inl e, vc_dont_blacklist vc)))]. intros ([r db'] & s1 & E1 & E)%run_ok. destruct (Z.ltb_spec r 0) as [|Hr]; [done|].
  rewrite (run_bind _ _ _ _ _ (blockheader_list vs vc h s r db' s1 E1 Hr)). rewrite (proj2 (Z.ltb_ge _ _) Hr). unfold d_get_byteskl in *. rewrite replace_list_other by done.
  destruct (d_bytesl (jget (Some (JObject kvs)) K_CONTRACT) 20) as [contract|]; [|by apply (fail_result (fun e => (inl e, db'))) in E]. apply run_ok in E as (wrong & s2 & E2 & E). rewrite (run_bind _ _ _ _ _ E2). destruct wrong; [by apply (fail_result (fun e => (inl e, db'))) in E|].
  apply run_ok in E as (item & s3 & E3 & E). rewrite (run_bind _ _ _ _ _ E3). destruct item as [d|]; [|by apply (fail_result (fun e => (inl e, db'))) in E]. destruct (_ <? _); [by apply (fail_result (fun e => (inl e, db'))) in E|].
  destruct (jget (Some proof) K_ACCOUNTS) as [accounts|]; [|by apply (fail_result (fun e => (inl e, db'))) in E]. destruct (negb _); [by apply (fail_result (fun e => (inl e, db'))) in E|].
  apply run_ok in E as (account & s4 & E4 & E). rewrite (run_bind _ _ _ _ _ E4). apply run_ok in E as (res & s5 & E5 & E). rewrite (run_bind _ _ _ _ _ E5). destruct res as [e|sp']; [done|]. injection E as -> -> -> ->. done.
Qed.
Lemma check_account_inl h c a s e s' : check_account plugins m place h c a s = Ok (inl e) s' -> e <> IN3_OK.
Proof.
  unfold check_account. intros (item & s1 & _ & E)%run_ok. destruct item as [root|]; [|by apply (fail_result inl) in E as [= ->]]. destruct (negb _); [by apply (fail_result inl) in E as [= ->]|].
  apply run_ok in E as (proof & s2 & _ & E). destruct proof as [proof|]; [|by apply (fail_result inl) in E as [= ->]]. apply run_ok in E as (raw & s3 & _ & E). apply run_ok in E as (r & s4 & _ & E). destruct (negb _); [by apply (fail_result inl) in E as [= ->]|].
  destruct (jget (Some a) K_STORAGE_PROOF); [|by apply (fail_result inl) in E as [= ->]]. destruct (d_getl _ _ _); [|by apply (fail_result inl) in E as [= ->]]. apply run_ok in E as (ps & s5 & _ & E). apply run_ok in E as (r' & s6 & _ & E).
  destruct (Z.eqb_spec r' IN3_OK); [done|]. by injection E as ->.
Qed.
Lemma verify_account_inl vc c s e db s' : verify_account plugins m place vc c s = Ok (inl e, db) s' -> e <> IN3_OK.
Proof.
  unfold verify_account. assert (forall (b : bool) msg s, (e ← vc_err plugins msg; mret (inl e, b)) s = Ok (inl e : Z + jval * jval, db) s' -> e <> IN3_OK) as Hf by (intros b msg s0 E; apply (fail_result (fun e => (inl e, b))) in E; by injection E as ->).
  destruct (vc_result vc) as [[| | |kvs| | |]|]; try apply Hf. destruct (vc_proof vc) as [proof|]; [|apply Hf]. destruct (jget _ K_NODES) as [sl|]; [|apply Hf]. destruct (d_bytes _) as [h|]; [|apply Hf].
  intros ([r db'] & s1 & _ & E)%run_ok. destruct (Z.ltb_spec r 0) as [Hr|]; [injection E as -> _ _; unfold IN3_OK; lia|]. destruct (d_get_byteskl _ _ _) as [contract|]; [|by apply Hf in E].
  apply run_ok in E as (wrong & s2 & _ & E). destruct wrong; [by apply Hf in E|]. apply run_ok in E as (item & s3 & _ & E). destruct item as [d|]; [|by apply Hf in E]. destruct (_ <? _); [by apply Hf in E|].
  destruct (jget _ K_ACCOUNTS); [|by apply Hf in E]. destruct (negb _); [by apply Hf in E|]. apply run_ok in E as (account & s4 & _ & E). apply run_ok in E as (res & s5 & E5 & E). destruct res as [e'|]; [|done]. injection E as -> _ _. by eapply check_account_inl.
Qed.
Lemma check_storage_ok proofs skey value s s' : length value = 32%nat -> check_storage plugins proofs skey value s = Ok IN3_OK s' <-> get_storage_value proofs skey = Some value /\ s' = s.
Proof.
  intros Hl. unfold check_storage. destruct (get_storage_value proofs skey) as [tmp|] eqn:E; [|split; [by intros ?%vc_err_result|by intros []]].
  assert (length tmp = 32%nat) as Ht. { unfold get_storage_value in E. destruct (find _ proofs); [|done]. injection E as <-. apply as_bytes32_length. }
  rewrite memcmp_eq by lia. case_bool_decide as Ev; cbn [negb]; [subst; split; [by intros [= ->]|by intros [_ ->]]|]. split; [by intros ?%vc_err_result|by intros [[= ->] _]].
Qed.
Lemma check_nodes_ok proofs l : forall s s', check_nodes plugins proofs l s = Ok IN3_OK s' <-> Forall (node_checked proofs) l /\ s' = s.
Proof.
  induction l as [|n l IH]; intros s s'; cbn [check_nodes]; [split; [by intros [= ->]|by intros [_ ->]]|]. destruct (slot_key_spec (index_of n)) as (Ek & _). rewrite Ek. cbn [defined]. split.
  - intros (k & s1 & [= <- <-] & E)%run_ok. apply run_ok in E as (r & s2 & E2 & E). destruct (Z.ltb_spec r 0) as [Hr|Hr]; [injection E as -> ->; done|]. assert (r = IN3_OK) as ->.
    { unfold check_storage in E2. destruct (get_storage_value _ _); [destruct (negb _); [|by injection E2]|]; apply vc_err_result in E2; by subst r. }
    apply check_storage_ok in E2 as [Ev ->]; [|apply keccak_length]. apply IH in E as [Hl ->]. split; [|done]. constructor; [by exists (slot_key (index_of n))|done].
  - intros [[(k & Ek' & Ev) Hl]%Forall_cons ->]. rewrite Ek in Ek'. injection Ek' as <-. rewrite (run_bind _ _ s (slot_key (index_of n)) s) by done.
    rewrite (run_bind _ _ s IN3_OK s) by (apply check_storage_ok; [apply keccak_length|done]). change (IN3_OK <? 0) with false. cbn iota. by apply IH.
Qed.

(** C36. A complete list need not be complete.  If the verifier accepts a list that was asked for as a
    whole, then it accepts every list of the same length made of nodes of this list, in any order and as
    often as one likes, with the same proof: for instance only copies of one node. *)
Theorem nodelist_copies_accepted data vc limit seed req kvs vs vs' s s' db :
  vc_result vc = Some (JObject kvs) -> jget (Some (JObject kvs)) K_NODES = Some (JArray vs) -> limit = 0 \/ u32 (d_int (jget (Some (JObject kvs)) K_TOTAL_SERVERS)) <= limit ->
  eth_verify_in3_nodelist plugins fuel m place data vc limit seed req s = Ok (IN3_OK, db) s' -> length vs' = length vs -> Forall (fun v => v ∈ vs) vs' ->
  eth_verify_in3_nodelist plugins fuel m place data (with_list vs' vc) limit seed req s = Ok (IN3_OK, db) s'.
Proof.
  intros Er En Hlim E Hlen Hin. unfold eth_verify_in3_nodelist in *. apply run_ok in E as ([r db'] & s1 & E1 & E). cbn [fst snd] in *. destruct r as [e|[sp sl]].
  { exfalso. injection E as -> -> ->. by apply verify_account_inl in E1. }
  destruct (verify_account_list vs' _ _ kvs _ _ _ _ _ Er E1) as [Esl E1']. rewrite (run_bind _ _ _ _ _ E1'). cbn [fst snd]. rewrite Er, En in Esl. injection Esl as <-.
  apply run_ok in E as (res & s2 & E2 & E). injection E as -> -> ->. apply (run_bind _ (fun r => mret (r, db))). revert E2. unfold verify_nodelist_data. cbn [with_list vc_result]. rewrite Er, !replace_list_other by done.
  intros (proofs & s3 & E3 & E)%run_ok. rewrite (run_bind _ _ _ _ _ E3). apply run_ok in E as (skey & s4 & E4 & E). rewrite (run_bind _ _ _ _ _ E4). apply run_ok in E as (r5 & s5 & E5 & E). rewrite (run_bind _ _ _ _ _ E5).
  destruct (r5 <? 0); [done|]. set (total := u32 _) in *. assert (negb (limit =? 0) && (limit <? total) = false) as Hc by (destruct Hlim as [->|Hle]; [done|]; apply andb_false_intro2, Z.ltb_ge; lia). rewrite Hc in *.
  cbn [jlen] in *. rewrite Hlen. apply run_ok in E as (r6 & s6 & E6 & E). rewrite (run_bind _ _ _ _ _ E6). destruct (r6 <? 0); [done|]. cbn [d_iter defined] in *. apply run_ok in E as (sv & s7 & [= <- <-] & E).
  rewrite (run_bind _ _ s6 vs' s6) by done. apply check_nodes_ok in E as [Hn ->]. apply check_nodes_ok. split; [|done]. rewrite Forall_forall in *. intros v Hv. by apply Hn, Hin.
Qed.
End Copies.

(** ** The indexes of a partial list *)
Section Partial.
Context `{Keccak}.
Lemma long_loop_take N data : forall k i len res, 0 <= i -> i + Z.of_nat k <= Z.of_nat N -> bytes_to_long_loop k i len (take N data) res = bytes_to_long_loop k i len data res.
Proof.
  induction k as [|k IH]; intros i len res Hi Hk; cbn [bytes_to_long_loop]; [done|]. rewrite IH by lia. unfold rd. rewrite !nth_lookup, lookup_take_lt by lia. done.
Qed.
Lemma bytes_to_long_take n data : (n <= 8)%nat -> (n <= length data)%nat -> bytes_ok data -> bytes_to_long data (Z.of_nat n) = be_val (take n data).
Proof.
  intros Hn Hl Hok. assert (length (take n data) = n) as Ht by (rewrite length_take; lia). pose proof (bytes_to_long_spec (take n data)) as E. rewrite Ht in E. replace (n - 8)%nat with 0%nat in E by lia. rewrite drop_0 in E. rewrite <- E by (by apply Forall_take).
  unfold bytes_to_long. rewrite (proj2 (Z.ltb_ge 8 (Z.of_nat n))) by lia. symmetry. apply long_loop_take; lia.
Qed.
(** The search takes no index twice, and only those of the list. *)
Lemma random_loop_spec fuel limit total : 0 < total < 2 ^ 32 -> forall seed step pos indexes l, 0 <= pos < total -> NoDup indexes -> Forall (fun i => 0 <= i < total) indexes -> zlen indexes <= limit ->
  random_loop fuel limit total seed step pos indexes = Some l -> zlen l = limit /\ NoDup l /\ Forall (fun i => 0 <= i < total) l.
Proof.
  intros Ht. induction fuel as [|f IH]; intros seed step pos indexes l Hpos Hnd Hr Hl; cbn [random_loop]; (destruct (Z.leb_spec limit (zlen indexes)); [intros [= <-]; split; [lia|done]|]); [done|].
  assert (forall x, 0 <= u64 x mod total < total) as Hm by (intros; apply Z.mod_pos_bound; lia). case_bool_decide as Hin; apply IH; try done; rewrite ?(u32_small pos) by lia.
  - apply NoDup_app. split; [done|]. split; [|apply NoDup_singleton]. by intros x Hx ->%list_elem_of_singleton.
  - apply Forall_app. split; [done|]. by apply Forall_singleton.
  - rewrite length_app. cbn. lia.
Qed.
(** With a step that has no divisor in common with the number of nodes it walks through them. *)
Definition walk (total step pos : Z) (n : nat) : list Z := map (fun i => (pos + Z.of_nat i * step) mod total) (seq 0 n).
Lemma walk_S total step pos n : walk total step pos (S n) = walk total step pos n ++ [(pos + Z.of_nat n * step) mod total].
Proof. unfold walk. by rewrite seq_S, map_app. Qed.
Lemma walk_new total step pos n : 0 < total -> Z.gcd step total = 1 -> Z.of_nat n < total -> (pos + Z.of_nat n * step) mod total ∉ walk total step pos n.
Proof.
  intros Ht Hg Hn Hin. apply list_elem_of_In, in_map_iff in Hin as (i & E & Hi%in_seq). assert ((total | (Z.of_nat n - Z.of_nat i) * step)) as Hd.
  { apply Z.mod_divide; [lia|]. replace ((Z.of_nat n - Z.of_nat i) * step) with ((pos + Z.of_nat n * step) - (pos + Z.of_nat i * step)) by lia. rewrite Zminus_mod, E, Z.sub_diag. apply Z.mod_0_l. lia. }
  rewrite Z.mul_comm in Hd. apply Z.gauss in Hd; [|by rewrite Z.gcd_comm]. apply Z.divide_pos_le in Hd; lia.
Qed.
Lemma random_loop_walk limit total seed step pos : 0 < total < 2 ^ 32 -> 0 <= step < 2 ^ 48 -> 0 <= pos < total -> Z.of_nat limit <= total -> Z.gcd step total = 1 ->
  forall k n, (k + n = limit)%nat -> random_loop k (Z.of_nat limit) total seed step ((pos + Z.of_nat n * step) mod total) (walk total step pos n) = Some (walk total step pos limit).
Proof.
  intros Ht Hs Hpos Hl Hg. assert (forall n, length (walk total step pos n) = n) as Hw by (intros; unfold walk; by rewrite length_map, length_seq). induction k as [|k IH]; intros n Hn; cbn [random_loop]; rewrite Hw.
  - rewrite (proj2 (Z.leb_le _ _)) by lia. by replace limit with n by lia.
  - rewrite (proj2 (Z.leb_gt _ _)) by lia. rewrite bool_decide_eq_false_2 by (apply walk_new; lia). pose proof (Z.mod_pos_bound (pos + Z.of_nat n * step) total). rewrite (u32_small ((pos + Z.of_nat n * step) mod total)), (u64_small ((pos + Z.of_nat n * step) mod total + step)) by lia.
    rewrite <- walk_S, <- (IH (S n)) by lia. f_equal. rewrite Z.add_mod_idemp_l by lia. f_equal. lia.
Qed.
Lemma random_loop_more limit total : forall f f' seed step pos indexes l, (f <= f')%nat -> random_loop f limit total seed step pos indexes = Some l -> random_loop f' limit total seed step pos indexes = Some l.
Proof.
  induction f as [|f IH]; intros [|f'] seed step pos indexes l Hf; cbn [random_loop]; try (destruct (limit <=? zlen indexes); done || lia). destruct (limit <=? zlen indexes); [done|]. case_bool_decide; apply IH; lia.
Qed.
Lemma same_indexes_map servers : forall idx, length servers = length idx -> same_indexes servers idx = true -> map index_of servers = idx.
Proof.
  induction servers as [|n servers IH]; intros [|i idx] Hl E; try done. cbn in E. apply andb_prop in E as [Ei%Z.eqb_eq E]. cbn. f_equal; [done|]. apply IH; [by injection Hl|done].
Qed.

(** The indexes of a partial list.  The nodes of a list that passes the check are as many as the
    limit and have different indexes, all below the number of nodes.  If the first six bytes of the
    seed, as a number, have no divisor in common with the number of nodes, the search ends after as many
    rounds as there are nodes to select, and the indexes are those in steps of this number from the next
    six bytes on. *)
Theorem partial_list_indexes fuel total (limit : nat) seed : (0 < limit)%nat -> Z.of_nat limit < total < 2 ^ 32 -> bytes_ok seed -> (length seed <= 32)%nat ->
  let step := be_val (take 6 (fill_left 32 seed)) in
  let start := be_val (take 6 (drop 6 (fill_left 32 seed))) mod total in
  (forall servers indexes, create_random_indexes fuel total (Z.of_nat limit) (Some seed) [] = inr (Some indexes) -> length servers = limit -> same_indexes servers indexes = true ->
     NoDup (map index_of servers) /\ Forall (fun i => 0 <= i < total) (map index_of servers)) /\
  (Z.gcd step total = 1 -> (limit <= fuel)%nat -> create_random_indexes fuel total (Z.of_nat limit) (Some seed) [] = inr (Some (walk total step start limit))).
Proof.
  intros Hl0 Hlt Hok Hlen step start. pose proof (fill_left_length 32 seed Hlen) as Hfl. pose proof (fill_left_ok 32 seed Hok) as Hfo. unfold create_random_indexes. rewrite (proj2 (Nat.ltb_ge _ _)) by lia. cbn [orb length]. rewrite (proj2 (Z.ltb_ge (Z.of_nat limit) (Z.of_nat 0))) by lia.
  change 6 with (Z.of_nat 6) at 1 2 3 4. rewrite (bytes_to_long_take 6 (fill_left 32 seed)), (bytes_to_long_take 6 (drop 6 (fill_left 32 seed))) by (rewrite ?length_drop; try lia; by try apply Forall_drop). fold step. fold start.
  assert (0 <= start < total) as Hst by (apply Z.mod_pos_bound; lia). split.
  - intros servers indexes [= E] Hs Hsame. apply random_loop_spec in E as (Hz & Hnd & Hr); [|lia|done|constructor|constructor|cbn; lia]. rewrite (same_indexes_map servers indexes); [done| |done]. lia.
  - intros Hg Hf. do 2 f_equal. assert (bytes_ok (take 6 (fill_left 32 seed))) as Hb by (by apply Forall_take). pose proof (be_val_bound _ Hb) as Hstep. rewrite length_take, Hfl in Hstep. fold step in Hstep. change (256 ^ Z.of_nat (6 `min` 32)) with (2 ^ 48) in Hstep.
    pose proof (random_loop_walk limit total (fill_left 32 seed) step start ltac:(lia) Hstep Hst ltac:(lia) Hg limit 0 ltac:(lia)) as E. change (Z.of_nat 0 * step) with 0 in E. rewrite Z.add_0_r, (Z.mod_small start) in E by lia. exact (random_loop_more _ _ _ _ _ _ _ _ _ Hf E).
Qed.
End Partial.

(** The data of a node determines its fields; a value that is too long for its field counts as zero. *)
Lemma hash_field_length t k w : length (hash_field t k w) = w.
Proof. unfold hash_field. destruct (d_bytes _) as [v|]; [|apply length_replicate]. destruct (Nat.leb_spec (length v) w); [by apply fill_left_length|apply length_replicate]. Qed.
Lemma node_data_fields t t' : node_data t = node_data t' ->
  Forall (fun kw => hash_field t kw.1 kw.2 = hash_field t' kw.1 kw.2) [(K_DEPOSIT, 32%nat); (K_REGISTER_TIME, 8%nat); (K_PROPS, 24%nat); (K_WEIGHT, 8%nat); (K_ADDRESS, 20%nat)] /\
  default [] (d_bytes (jget t K_URL)) = default [] (d_bytes (jget t' K_URL)).
Proof.
  unfold node_data. intros E. do 5 (apply app_inj_1 in E as [? E]; [|by rewrite !hash_field_length]). split; [|done]. repeat constructor; done.
Qed.
(** A key of 256 bytes is taken for slot 0, where the number of nodes is, whatever the bytes are. *)
Lemma long_key_is_zero k : length k = 256%nat -> is_key k (replicate 32 0) = true.
Proof. intros Hk. unfold is_key. by rewrite Hk. Qed.

(** ** A contract with two nodes and the response of a node

    The hash is a checksum, except for the message that is signed. *)
Module RegistrySample.
#[local] Existing Instance no_text.
#[local] Existing Instance debug_allocator.
Definition sum (l : list Z) : list Z := let a := fold_left (fun acc b => (acc * 257 + b + 1) mod 2 ^ 248) l 1 in (16 * (1 + a mod 14)) :: be_bytes 31 a.
Definition msg_hash : list Z := 1 :: replicate 31 0.
Definition contract : list Z := replicate 20 7.
Definition node : jval := JObject [(K_URL, JString (str "http://a")); (K_ADDRESS, JBytes (replicate 20 2)); (K_INDEX, JInt 0); (K_DEPOSIT, JInt 10); (K_PROPS, JInt 29); (K_REGISTER_TIME, JInt 1)].
Definition second : jval := JObject [(K_URL, JString (str "http://b")); (K_ADDRESS, JBytes (replicate 20 3)); (K_INDEX, JInt 1); (K_DEPOSIT, JInt 10); (K_PROPS, JInt 29); (K_REGISTER_TIME, JInt 1)].
Definition slot1 : list Z := Eval vm_compute in be_bytes 32 (be_val (sum (replicate 32 0)) + 4).
Definition slot2 : list Z := Eval vm_compute in be_bytes 32 (be_val (sum (replicate 32 0)) + 9).
Definition second_hash : list Z := Eval vm_compute in sum (node_data (Some second)).
Definition node_hash : list Z := Eval vm_compute in sum (node_data (Some node)).
Definition path0 : list Z := Eval vm_compute in nibs (sum (replicate 32 0)).
Definition path1 : list Z := Eval vm_compute in nibs (sum slot1).
Definition path2 : list Z := Eval vm_compute in nibs (sum slot2).
Definition leaf_bytes (path v : list Z) : list Z := rlp_list (enc_items [Str (hex_prefix path true); Str v]).
Definition leaf0 : list Z := Eval vm_compute in leaf_bytes (drop 1 path0) (rlp_string [2]).
Definition leaf2 : list Z := Eval vm_compute in leaf_bytes (drop 1 path2) (rlp_string second_hash).
Definition leaf1 : list Z := Eval vm_compute in leaf_bytes (drop 1 path1) (rlp_string node_hash).
Definition children : list trie := <[Z.to_nat (hd 0 path0) := Leaf (drop 1 path0) (rlp_string [2])]> (<[Z.to_nat (hd 0 path1) := Leaf (drop 1 path1) (rlp_string node_hash)]> (<[Z.to_nat (hd 0 path2) := Leaf (drop 1 path2) (rlp_string second_hash)]> (replicate 16 Merkle.Empty))).
Definition storage_bytes : list Z := Eval vm_compute in rlp_list (enc_items (<[Z.to_nat (hd 0 path0) := Str (sum leaf0)]> (<[Z.to_nat (hd 0 path1) := Str (sum leaf1)]> (<[Z.to_nat (hd 0 path2) := Str (sum leaf2)]> (replicate 17 (Str [])))))).
Definition account_bytes : list Z := Eval vm_compute in rlp_list (enc_items [Str [1]; Str []; Str (sum storage_bytes); Str (replicate 32 6)]).
Definition account_node : list Z := Eval vm_compute in leaf_bytes (nibs (sum contract)) account_bytes.
Definition other_node : list Z := Eval vm_compute in leaf_bytes [8; 0] (replicate 40 7).
Definition items : list rlp_item :=
  [Str []; Str []; Str []; Str (sum account_node); Str (sum other_node); Str (sum other_node); Str []; Str []; Str [5]; Str []; Str []; Str []; Str []; Str []; Str []].
Definition header : list Z := Eval vm_compute in rlp_list (enc_items items).
Definition registry_id : list Z := replicate 32 9.
Definition message : list Z := Eval vm_compute in signed_message 2 (sum header) 5 registry_id.
#[local] Instance hash : Keccak.
Proof.
  refine {| keccak l := if bool_decide (l = message) then msg_hash else sum l |}.
  - intros l. case_bool_decide; [done|]. unfold sum. cbn [length]. by rewrite length_be_bytes.
  - intros l. case_bool_decide; [decide_now|]. constructor; [|apply be_bytes_ok]. set (a := fold_left _ _ _). pose proof (Z.mod_pos_bound a 14). unfold is_byte. lia.
Defined.
#[local] Instance ecdsa : Ecdsa := {| crypto_recover h _ := if bool_decide (h = msg_hash) then Some (replicate 64 5) else None |}.
Definition signer : list Z := Eval vm_compute in take 20 (drop 12 (keccak (replicate 64 5))).
Definition asked (sgs : list (list Z)) : Prop := sgs = [signer].
Definition blocks : list (list Z) := [header; account_node; storage_bytes; leaf0; leaf1; leaf2].
Definition mem : memory := mem_of (concat blocks).
Definition place : list Z -> slice := place_in blocks 0.
Definition storage : trie := Branch children [].
Definition rg : registry_t := mk_registry (Leaf (nibs (sum contract)) account_bytes) storage [1] [] (replicate 32 6).
Definition blk : NanoSafety.block := mk_block items (Leaf [8; 0] (replicate 40 7)) (Leaf [8; 0] (replicate 40 7)).
Definition chain (n : Z) : option NanoSafety.block := if n =? 5 then Some blk else None.

Definition sig : jval := JObject [(K_BLOCK, JInt 5); (K_BLOCK_HASH, JBytes (sum header)); (K_R, JBytes (replicate 32 1)); (K_S, JBytes (replicate 32 2)); (K_V, JInt 27)].
Definition entry (k v : list Z) (ns : list (list Z)) : jval := JObject [(K_KEY, JBytes k); (K_VALUE, JBytes v); (K_PROOF, JArray (map JBytes ns))].
Definition storage_proofs : list jval := [entry (replicate 32 0) [2] [storage_bytes; leaf0]; entry slot1 node_hash [storage_bytes; leaf1]; entry slot2 second_hash [storage_bytes; leaf2]].
Definition account : jval :=
  JObject [(K_ADDRESS, JBytes contract); (K_NONCE, JInt 1); (K_BALANCE, JInt 0); (K_STORAGE_HASH, JBytes (sum storage_bytes)); (K_CODE_HASH, JBytes (replicate 32 6));
           (K_ACCOUNT_PROOF, JArray [JBytes account_node]); (K_STORAGE_PROOF, JArray storage_proofs)].
Definition proof : jval := JObject [(K_BLOCK, JBytes header); (K_SIGNATURES, JArray [sig]); (K_ACCOUNTS, JObject [(K_KEY, account)])].
Definition answer : list (Z * jval) := [(K_NODES, JArray [node; second]); (K_CONTRACT, JBytes contract); (K_TOTAL_SERVERS, JInt 2); (K_LAST_BLOCK_NUMBER, JInt 4)].
Definition request : jval := JObject [(K_METHOD, JString (str "in3_nodeList")); (K_PARAMS, JArray [JInt 0; JBytes (replicate 32 3); JArray []])].
Definition eth : in3_chain_t := mk_chain 1 CHAIN_ETH 2 None.
Definition vc : in3_vctx_t := mk_vctx eth request (Some (JObject answer)) (Some proof) (Some 0) (Some 6) 0 (Some (str "in3_nodeList")) node1 false.
Definition data : in3_nodeselect_def_t := mk_data false 15 0 contract registry_id None None [] None None 1 Null false.
Definition asking : state unit :=
  mk_state (mk_req 1 RT_RPC 0 IN3_WAITING None (Some request) (Some [request]) Null Null (Some []) [signer] [node1] []) [] (mk_client [eth] 5 0 PROOF_STANDARD 0 0 1 0 0 0) tt.
(** The number of nodes as an empty value, with an empty proof: the contract seems to have no nodes. *)
Definition empty_proof : jval :=
  JObject [(K_BLOCK, JBytes header); (K_SIGNATURES, JArray [sig]);
           (K_ACCOUNTS, JObject [(K_KEY, match account with JObject kvs => JObject (map (fun kv => if kv.1 =? K_STORAGE_PROOF then (kv.1, JArray [entry (replicate 32 0) [] []]) else kv) kvs) | v => v end)])].
Definition empty_answer : jval := JObject [(K_NODES, JArray []); (K_CONTRACT, JBytes contract); (K_TOTAL_SERVERS, JInt 0); (K_LAST_BLOCK_NUMBER, JInt 4)].
Lemma empty_list_accepted : exists s', eth_verify_in3_nodelist [answering registry_id] 0 mem place data
  (mk_vctx eth request (Some empty_answer) (Some empty_proof) (Some 0) (Some 6) 0 (Some (str "in3_nodeList")) node1 false) 0 (Some (replicate 32 3)) (Some (JArray [])) asking = Ok (IN3_OK, false) s'.
Proof. eexists. vm_compute. reflexivity. Qed.

Lemma signed_only l : keccak l = msg_hash -> l = message.
Proof. cbn. case_bool_decide; [done|]. unfold sum. intros E. exfalso. set (a := fold_left _ _ _) in E. pose proof (Z.mod_pos_bound a 14). apply (f_equal (hd 0)) in E. cbn [hd msg_hash] in E. lia. Qed.
Lemma registry_signer : honest chain signer.
Proof. apply (honest_of_message chain signer msg_hash blk 5 registry_id); [|intros l ->%signed_only; vm_compute; reflexivity|done]. intros h sg pub E _. cbn [crypto_recover ecdsa] in E. by case_bool_decide. Qed.
Lemma registry_asking_ok : state_inv (RI := nano_inv asked) asking.
Proof. split; [|split; [by right|constructor]]. split; [|done]. constructor; [done|constructor]. Qed.
Lemma list_accepted : exists s', eth_verify_in3_nodelist [answering registry_id] 0 mem place data vc 0 (Some (replicate 32 3)) (Some (JArray [])) asking = Ok (IN3_OK, false) s'.
Proof. eexists. vm_compute. reflexivity. Qed.
Lemma block_in_memory l : l ∈ blocks -> in_memory mem place l.
Proof. apply placed_in. vm_compute. reflexivity. Qed.
Lemma storage_fair l : l ∈ [storage_bytes; leaf0; leaf1; leaf2] -> in_memory mem place l /\ no_collision storage l.
Proof.
  intros Hl. split; [apply block_in_memory; by do 2 right|]. assert (exists ns, Merkle.nodes storage = ns /\ bool_decide (NoDup (map keccak ns)) = true /\ forallb (fun e => negb (bool_decide (keccak e = replicate 32 0))) ns = true /\
    forallb (fun l => bool_decide (l ∈ ns)) [storage_bytes; leaf0; leaf1; leaf2] = true) as (ns & En & Hn & Hz & Hin) by (eexists; split; [vm_compute; reflexivity|]; split_and!; vm_compute; reflexivity).
  eapply trie_no_collision; [exact En|done|done|]. rewrite forallb_forall in Hin. specialize (Hin l (proj1 (list_elem_of_In _ _) Hl)). by apply bool_decide_eq_true in Hin.
Qed.
Lemma account_fair : in_memory mem place account_node /\ no_collision (rg_state rg) account_node.
Proof. split; [apply block_in_memory; right; left|]. apply (trie_no_collision _ [account_node]); [vm_compute; reflexivity..|left]. Qed.
Lemma registry_fair : response_fair mem place vc blk rg.
Proof.
  split; [intros h [= <-]; split; [apply block_in_memory; left|intros _; vm_compute; reflexivity]|]. intros a [= <-]. split; [apply (proof_nodes_fair mem place _ [account_node]), Forall_singleton, account_fair|]. split; [decide_now|]. split; [by vm_compute|].
  intros ps [= <-]. assert (forall ns, Forall (fun l => l ∈ [storage_bytes; leaf0; leaf1; leaf2]) ns -> nodes_fair mem place (Some (JArray (map JBytes ns))) storage) as Hf by (intros ns Hns; apply proof_nodes_fair; eapply Forall_impl; [exact Hns|]; exact storage_fair).
  apply Forall_cons. split; [|apply Forall_cons; split; [|apply Forall_singleton]]; (split; [split; [decide_now|cbn; lia]|]); [apply (Hf [storage_bytes; leaf0])|apply (Hf [storage_bytes; leaf1])|apply (Hf [storage_bytes; leaf2])]; repeat constructor.
Qed.
Lemma registry_block : block_ok blk.
Proof. split; [decide_now|]. split; [by vm_compute|]. split; (split; vm_compute; reflexivity). Qed.
Lemma sample_values k v : has_value storage k v -> (length v <= 33)%nat.
Proof.
  assert (Forall (fun c => match c with Leaf _ v => (length v <= 33)%nat | Merkle.Empty => True | _ => False end) children) as Hc by (vm_compute; repeat constructor).
  intros Hv. inversion Hv as [| |? ? ? c ? ? Hl Hn Hcv|]; subst; [|done]. eapply Forall_lookup_1 in Hl; [|exact Hc]. destruct c; try done; by inversion Hcv; subst.
Qed.
Lemma sample_registry : registry_ok blk contract rg.
Proof.
  split; [split; vm_compute; reflexivity|]. split; [by vm_compute|]. split; [decide_now|]. split; [|exact sample_values].
  assert (rlp_list (enc_items (account_items rg)) = account_bytes) as -> by (vm_compute; reflexivity). assert (nibs (keccak contract) = nibs (sum contract)) as -> by (vm_compute; reflexivity). apply value_leaf.
Qed.
End RegistrySample.

#[local] Existing Instance no_text.
#[local] Existing Instance debug_allocator.
#[local] Existing Instance RegistrySample.hash.
#[local] Existing Instance RegistrySample.ecdsa.
Lemma nodelist_authentic_witness : exists number, 4 <= number /\ is_Some (RegistrySample.chain (u64 number)) /\ registers (H := RegistrySample.hash) RegistrySample.rg 0 (node_data (Some RegistrySample.node)).
Proof.
  destruct RegistrySample.list_accepted as [s' E].
  destruct (nodelist_authentic RegistrySample.mem RegistrySample.place RegistrySample.asked 0 RegistrySample.chain (fun _ => RegistrySample.rg) [answering RegistrySample.registry_id] (fun _ _ => True)
    RegistrySample.data RegistrySample.vc 0 (Some (replicate 32 3)) (Some (JArray [])) RegistrySample.asking false s') as (number & b & Hn & Hb & Hr).
  - apply answering_plugins.
  - apply RegistrySample.registry_asking_ok.
  - exact E.
  - intros sgs ->. exists RegistrySample.signer. split; [by left|apply RegistrySample.registry_signer].
  - intros n b. unfold RegistrySample.chain. destruct (n =? 5); [|done]. intros [= <-]. split; [apply RegistrySample.registry_block|]. split; [apply RegistrySample.sample_registry|apply RegistrySample.registry_fair].
  - done.
  - done.
  - by vm_compute.
  - exists number. split; [exact Hn|]. split; [by eexists|]. apply (Hr [RegistrySample.node; RegistrySample.second] RegistrySample.node); [done|by left|by vm_compute].
Defined.
Lemma nodelist_copies_accepted_witness : exists s',
  eth_verify_in3_nodelist [answering RegistrySample.registry_id] 0 RegistrySample.mem RegistrySample.place RegistrySample.data (with_list [RegistrySample.node; RegistrySample.node] RegistrySample.vc) 0 (Some (replicate 32 3)) (Some (JArray [])) RegistrySample.asking
  = Ok (IN3_OK, false) s'.
Proof.
  eexists. apply (nodelist_copies_accepted [answering RegistrySample.registry_id] 0 RegistrySample.mem RegistrySample.place RegistrySample.data RegistrySample.vc 0 (Some (replicate 32 3)) (Some (JArray [])) RegistrySample.answer
    [RegistrySample.node; RegistrySample.second]); [reflexivity|reflexivity|by left|vm_compute; reflexivity|reflexivity|repeat constructor].
Defined.
Lemma partial_list_indexes_witness : create_random_indexes (H := RegistrySample.hash) 3 10 (Z.of_nat 3) (Some (replicate 5 0 ++ [7] ++ replicate 26 1)) [] = inr (Some [1; 8; 5]).
Proof.
  destruct (@partial_list_indexes RegistrySample.hash 3 10 3 (replicate 5 0 ++ [7] ++ replicate 26 1)) as [_ Hw]; [lia|lia|decide_now|cbn; lia|]. rewrite Hw; [vm_compute; reflexivity|vm_compute; reflexivity|lia].
Defined.
