(* ===== verification/BasicAccount.v ===== *)
(** * verifier/eth1/basic/eth_account.c: balance, nonce, code and storage of an account

    The proof of such an answer is a block header and a list of accounts, each with a Merkle proof
    below the state root and proofs of storage values below its own storage root.
    [verify_proof] checks one account, [eth_verify_account_proof] all of them and then the answer
    against the first one that has the requested address. *)
From S2P Require Import Prelude Utils Bytes Rlp Merkle Data Json JsonVal ReqState Request Serialize Nano NodeData NodeRegistry.
From stdpp Require Import strings.
#[local] Open Scope Z_scope.

Definition EMPTY_HASH : list Z :=
  [0xc5; 0xd2; 0x46; 0x01; 0x86; 0xf7; 0x23; 0x3c; 0x92; 0x7e; 0x7d; 0xb2; 0xdc; 0xc7; 0x03; 0xc0; 0xe5; 0x00; 0xb6; 0x53; 0xca; 0x82; 0x27; 0x3b; 0x7b; 0xfa; 0xd8; 0x04; 0x5d; 0x85; 0xa4; 0x70].
Definition EMPTY_ROOT_HASH : list Z :=
  [0x56; 0xe8; 0x1f; 0x17; 0x1b; 0xcc; 0x55; 0xa6; 0xff; 0x83; 0x45; 0xe6; 0x92; 0xc0; 0xf8; 0x6e; 0x5b; 0x48; 0xe0; 0x1b; 0x99; 0x6c; 0xad; 0xc0; 0x01; 0x62; 0x2f; 0xb5; 0xe3; 0x63; 0xb4; 0x21].
(** Balance and nonce are compared over their last eight bytes. *)
Definition is_not_existened (account : option jval) : bool :=
  (d_long (jget account K_BALANCE) =? 0) && bool_decide (default [] (d_get_byteskl account K_CODE_HASH 32) = EMPTY_HASH)
  && bool_decide (default [] (d_get_byteskl account K_STORAGE_HASH 32) = EMPTY_ROOT_HASH) && (d_long (jget account K_NONCE) =? 0).
(** [strcmp(vc->method, name) == 0] *)
Definition is_method (vc : in3_vctx_t) (name : string) : option bool := m ← vc_method vc; Some (bool_decide (cstr m = str name)).

Section Account.
Context `{SourceText} `{Keccak} `{Allocator} `{Ecdsa} {W : Type} (plugins : list (in3_plugin_t W)) (m : memory) (place : list Z -> slice).
#[local] Abbreviation st := (state W).
#[local] Abbreviation vc_err := (vc_err plugins).

(** The value in the buffer of 36 bytes, without leading zeros and encoded in place; zero is no value. *)
Definition encode_value (bb : bytes_builder_t) (val : list Z) : option (bytes_builder_t * expected_t) :=
  d ← bb_data bb;
  d ← memcpy_at d 0 val;
  let pp := optimize_len val in
  if bool_decide (pp = [0]) then Some (mk_bb (bb_bsize bb) (Some d) 0 (bb_heap bb), EAbsent)
  else
    d ← memcpy_at d 0 pp;
    bb ← rlp_encode_to_item (mk_bb (bb_bsize bb) (Some d) (zlen pp) (bb_heap bb));
    c ← bb_content bb;
    Some (bb, EValue c).
(** Below the root of an empty trie all values are zero, and the proof is empty or the empty node. *)
Definition check_empty_proof (val : list Z) (pt : option jval) : M st Z :=
  if negb (bool_decide (optimize_len val = [0])) then vc_err "empty storagehash, so we exepct 0 values"
  else if negb (jtype pt =? T_ARRAY) || (1 <? jlen pt) || ((jlen pt =? 1) && negb (d_int (jget_at pt 0) =? 0x80)) then vc_err "invalid proof"
  else mret IN3_OK.
Fixpoint check_slots (root : list Z) (is_empty : bool) (bb : bytes_builder_t) (storage_proof : list (option jval)) : M st Z :=
  match storage_proof with
  | [] => mret IN3_OK
  | p :: rest =>
      let pt := jget p K_PROOF in
      let val := d_bytes_to (jget p K_VALUE) 32 in
      if is_empty then
        r ← check_empty_proof val pt;
        if negb (r =? IN3_OK) then mret r else check_slots root is_empty bb rest
      else
        let path := keccak (d_bytes_to (jget p K_KEY) 32) in
        proof ← defined (d_create_bytes_vec pt);
        match proof with
        | None => vc_err "no merkle proof for the storage"
        | Some proof =>
            be ← defined (encode_value bb val);
            r ← defined (trie_verify_proof m root path (map place proof) (snd be));
            if negb (fst r) then vc_err "invalid storage proof" else check_slots root is_empty (fst be) rest
        end
  end.
Definition verify_proof (header : list Z) (account : jval) : M st Z :=
  item ← header_item m place header BLOCKHEADER_STATE_ROOT;
  match item with
  | None => vc_err "no state root in the header"
  | Some root =>
      match d_get_byteskl (Some account) K_ADDRESS 20 with
      | None => vc_err "no address in the account"
      | Some address =>
          proof ← defined (d_create_bytes_vec (jget (Some account) K_ACCOUNT_PROOF));
          match proof with
          | None => vc_err "no merkle proof for the account"
          | Some proof =>
              account_raw ← defined (serialize_account (Some account));
              r ← defined (trie_verify_proof m (root_hash m root) (keccak address) (map place proof) (if is_not_existened (Some account) then EAbsent else EValue account_raw));
              if negb (fst r) then vc_err "invalid account proof where blockheader does not match the rootstate, which might be a microfork"
              else
                match jget (Some account) K_STORAGE_PROOF with
                | None => vc_err "no stortage-proof found!"
                | Some storage_proof =>
                    match d_getl (Some account) K_STORAGE_HASH 32 with
                    | None => vc_err "no storage-hash found!"
                    | Some t =>
                        root ← defined (d_bytes (Some t));
                        root32 ← defined (read_at root 0 32);
                        check_slots root (memcmp root32 EMPTY_ROOT_HASH =? 0) (mk_bb 36 (Some (malloc 36)) 0 false) (items_of (Some storage_proof))
                    end
                end
          end
      end
  end.

(** ** The accounts of a proof, and the answer *)

(** The first account with the address of the request. *)
Fixpoint verify_accounts (header : list Z) (contract : option jval) (proofed_account : option jval) (accounts : list jval) : M st (Z + option jval) :=
  match accounts with
  | [] => mret (inr proofed_account)
  | t :: rest =>
      r ← verify_proof header t;
      if negb (r =? IN3_OK) then e ← vc_err "failed verifying the account"; mret (inl e)
      else
        verify_accounts header contract
          (match proofed_account with Some _ => proofed_account | None => if d_eq contract (d_getl (Some t) K_ADDRESS 20) then Some t else None end) rest
  end.
(** The code hash is read over 32 bytes. *)
Definition code_hash (account : jval) : option (list Z) := h ← d_get_byteskl (Some account) K_CODE_HASH 32; read_at h 0 32.
(** The first entry with the key decides. *)
Definition storage_answer (storage : list jval) (requested_key result : list Z) : bool :=
  match find (fun t => bool_decide (optimize_len (default [] (d_bytes (jget (Some t) K_KEY))) = optimize_len requested_key)) storage with
  | Some t => bool_decide (result = d_bytes_to (jget (Some t) K_VALUE) 32)
  | None => false
  end.
Definition check_answer (vc : in3_vctx_t) (account : jval) : M st Z :=
  is_balance ← defined (is_method vc "eth_getBalance");
  is_count ← defined (is_method vc "eth_getTransactionCount");
  is_code ← defined (is_method vc "eth_getCode");
  is_storage ← defined (is_method vc "eth_getStorageAt");
  is_call ← defined (is_method vc "eth_call");
  if (is_balance : bool) then
    if negb (d_eq (vc_result vc) (jget (Some account) K_BALANCE)) then vc_err "the balance in the proof is different" else mret IN3_OK
  else if (is_count : bool) then
    if negb (d_eq (vc_result vc) (jget (Some account) K_NONCE)) then vc_err "the nonce in the proof is different" else mret IN3_OK
  else if (is_code : bool) then
    h ← defined (code_hash account);
    match default [] (d_bytes (vc_result vc)) with
    | [] => if negb (memcmp h EMPTY_HASH =? 0) then vc_err "the code must be empty" else mret IN3_OK
    | data => if negb (memcmp h (keccak data) =? 0) then vc_err "the codehash in the proof is different" else mret IN3_OK
    end
  else if (is_storage : bool) then
    match d_bytes (jget_at (jget (Some (vc_request vc)) K_PARAMS) 1) with
    | None => vc_err "missing key"
    | Some requested_key =>
        storage ← defined (d_iter (jget (Some account) K_STORAGE_PROOF));
        if storage_answer storage requested_key (d_bytes_to (vc_result vc) 32) then mret IN3_OK else vc_err "the storage result does not match"
    end
  else if (is_call : bool) then mret IN3_OK
  else vc_err "not supported method".
(** The last parameter is looked at as it is: a string is no number here. *)
Definition wrong_number (vc : in3_vctx_t) (is_list : bool) (number : option slice) : bool :=
  let params := jget (Some (vc_request vc)) K_PARAMS in
  negb is_list &&
  match jget_at params (Z.to_nat (jlen params - 1)), number with
  | Some (JInt n), Some d => negb (slice_number m d =? n)
  | _, _ => false
  end.
(** The token with the address, NULL for a call without receiver; [None] if there is no token at all. *)
Definition requested_account (vc : in3_vctx_t) (is_list is_call : bool) : option (option jval) :=
  let param := jget_at (jget (Some (vc_request vc)) K_PARAMS) 0 in
  match (if is_list then jget (vc_result vc) K_CONTRACT else param) with
  | None => None
  | Some t => Some (if is_call then d_getl param K_TO 20 else Some t)
  end.
(** The result, and [vc->dont_blacklist]. *)
Definition eth_verify_account_proof (vc : in3_vctx_t) : M st (Z * bool) :=
  let fail (db : bool) (msg : string) : M st (Z * bool) := e ← vc_err msg; mret (e, db) in
  match vc_result vc with
  | None => mret (IN3_OK, vc_dont_blacklist vc)
  | Some _ =>
      match vc_proof vc with
      | None => fail (vc_dont_blacklist vc) "no proof"
      | Some proof =>
          match d_bytes (jget (Some proof) K_BLOCK) with
          | None => fail (vc_dont_blacklist vc) "no blockheader"
          | Some header =>
              rd ← eth_verify_blockheader plugins m place vc (Some header) None;
              let '(r, db) := rd in
              if negb (r =? IN3_OK) then fail db "invalid blockheader"
              else
                is_list ← defined (is_method vc "in3_nodeList");
                is_call ← defined (is_method vc "eth_call");
                number ← header_item m place header BLOCKHEADER_NUMBER;
                if wrong_number vc is_list number then fail db "the blockheader has the wrong blocknumber"
                else
                  match requested_account vc is_list is_call with
                  | None => fail db "no account found in request"
                  | Some contract =>
                      match jget (Some proof) K_ACCOUNTS with
                      | None => fail db "no accounts"
                      | Some accounts =>
                          l ← defined (d_iter (Some accounts));
                          r ← verify_accounts header contract None l;
                          match r with
                          | inl e => mret (e, db)
                          | inr None => fail db "the contract this proof is based on was not part of the proof"
                          | inr (Some account) => r ← check_answer vc account; mret (r, db)
                          end
                      end
                  end
          end
      end
  end.
End Account.
