(* ===== verification/AccountSafety.v ===== *)
(** * verifier/eth1/basic/eth_account.c: what a verified answer tells

    An answer that [eth_verify_account_proof] accepts has a checked header, an account with the requested
    address that is proved below its state root, and agrees with this account ([answer_proved]).
    With an honest signer and without hash collisions, balance, nonce, code and storage are those of
    the account in a block of the chain ([account_authentic]) - unless the account is one that
    [is_not_existened] takes for absent: then nothing has to be proved, and any balance that is a
    multiple of 2^64 is accepted ([forged_balance_accepted]). *)
From S2P Require Import Prelude Utils Bytes Rlp Merkle Data Json JsonVal ReqState Request ReqFrame ReqSafety Serialize Nano NanoSafety NodeData NodeRegistry AccountProof BasicAccount.
From stdpp Require Import strings.
#[local] Open Scope Z_scope.

(** The expected value of a word of the storage. *)
Definition expected_word (val : list Z) : expected_t := let v := optimize_len val in if bool_decide (v = [0]) then EAbsent else EValue (rlp_string v).
Lemma encode_value_spec `{Allocator} bb val bb' ex : buffer_ok bb -> val <> [] -> encode_value bb val = Some (bb', ex) -> buffer_ok bb' /\ ex = expected_word val.
Proof.
  intros (Hsz & Hh & d & Ed & Hd) Hne. unfold encode_value, expected_word. rewrite Ed. cbn [mbind option_bind]. destruct (memcpy_at d 0 val) as [d1|] eqn:E1; [|done]. cbn [mbind option_bind]. pose proof (memcpy_at_length _ _ _ _ E1) as Hl1.
  case_bool_decide as Ez; [intros [= <- <-]; split; [|done]; repeat split; [done..|]; exists d1; split; [done|lia]|].
  assert (optimize_len val <> []) as Hn0. { destruct val as [|x val]; [done|]. clear. revert x. induction val as [|y val IH]; intros x; cbn; [done|]. destruct (_ =? 0); [apply IH|done]. }
  intros E. destruct (storage_value_spec (mk_bb (bb_bsize bb) (Some d1) 0 (bb_heap bb)) (optimize_len val) bb' ex) as [Hb Hx]; [repeat split; [done..|]; exists d1; split; [done|lia]| |].
  - unfold storage_value. cbn [bb_data bb_bsize bb_heap mbind option_bind]. destruct (memcpy_at d1 0 (optimize_len val)) as [d2|]; [|done]. cbn [mbind option_bind] in *. by destruct (optimize_len val).
  - split; [done|]. rewrite Hx. by destruct (optimize_len val).
Qed.
Lemma d_bytes_to_length t : length (d_bytes_to t 32) = 32%nat.
Proof. unfold d_bytes_to. rewrite fill_left_length; [done|]. rewrite length_take. lia. Qed.
Section Verifier.
Context `{SourceText} `{Keccak} `{Allocator} `{Ecdsa} {W : Type} (plugins : list (in3_plugin_t W)) (m : memory) (place : list Z -> slice).
Context (asked_signers : list (list Z) -> Prop) (valid : list (list Z) -> in3_vctx_t -> Prop).
Context (Hplugins : Forall (plugin_contract (RI := nano_inv asked_signers) valid) plugins).
#[local] Abbreviation nwp := (wp (RI := nano_inv asked_signers)).
#[local] Existing Instance kept_preorder.
Implicit Types (s : state W) (vc : in3_vctx_t).
#[local] Abbreviation failed := (fail_judged plugins asked_signers valid Hplugins).

(** ** What the verifier checks *)
Definition slot_proved (root : list Z) (p : option jval) : Prop :=
  exists l r, d_create_bytes_vec (jget p K_PROOF) = Some (Some l) /\
    trie_verify_proof m root (keccak (d_bytes_to (jget p K_KEY) 32)) (map place l) (expected_word (d_bytes_to (jget p K_VALUE) 32)) = Some (true, r).
Definition slot_empty (p : option jval) : Prop := optimize_len (d_bytes_to (jget p K_VALUE) 32) = [0] /\ jtype (jget p K_PROOF) = T_ARRAY.
Definition account_checked (header : list Z) (account : jval) : Prop :=
  exists root address raw v sp t r, item_at m place header BLOCKHEADER_STATE_ROOT root /\ d_get_byteskl (Some account) K_ADDRESS 20 = Some address /\ serialize_account (Some account) = Some raw /\
    proved_in m place root (keccak address) (jget (Some account) K_ACCOUNT_PROOF) (if is_not_existened (Some account) then EAbsent else EValue raw) v /\
    jget (Some account) K_STORAGE_PROOF = Some sp /\ d_getl (Some account) K_STORAGE_HASH 32 = Some t /\ d_bytes (Some t) = Some r /\ (32 <= length r)%nat /\
    (if bool_decide (take 32 r = EMPTY_ROOT_HASH) then Forall slot_empty (items_of (Some sp)) else Forall (slot_proved r) (items_of (Some sp))).
Definition answer_checked vc (account : jval) : Prop :=
  match vc_method vc with
  | Some name =>
      let named n := cstr name = str n in
      (named "eth_getBalance" -> d_eq (vc_result vc) (jget (Some account) K_BALANCE) = true) /\
      (named "eth_getTransactionCount" -> d_eq (vc_result vc) (jget (Some account) K_NONCE) = true) /\
      (named "eth_getCode" -> code_hash account = Some (match default [] (d_bytes (vc_result vc)) with [] => EMPTY_HASH | data => keccak data end)) /\
      (named "eth_getStorageAt" -> exists key storage, d_bytes (jget_at (jget (Some (vc_request vc)) K_PARAMS) 1) = Some key /\ d_iter (jget (Some account) K_STORAGE_PROOF) = Some storage /\
         storage_answer storage key (d_bytes_to (vc_result vc) 32) = true)
  | None => False
  end.
Definition answer_proved ss vc (account : jval) : Prop :=
  exists header d accounts contract, d_bytes (jget (vc_proof vc) K_BLOCK) = Some header /\ header_checked m place asked_signers ss header None /\
    item_at m place header BLOCKHEADER_NUMBER d /\ wrong_number m vc (bool_decide (cstr <$> vc_method vc = Some (str "in3_nodeList"))) (Some d) = false /\
    (jget (vc_proof vc) K_ACCOUNTS ≫= fun a => d_iter (Some a)) = Some accounts /\ account ∈ accounts /\
    requested_account vc (bool_decide (cstr <$> vc_method vc = Some (str "in3_nodeList"))) (bool_decide (cstr <$> vc_method vc = Some (str "eth_call"))) = Some contract /\
    d_eq contract (d_getl (Some account) K_ADDRESS 20) = true /\ Forall (account_checked header) accounts /\ answer_checked vc account.

Lemma header_item_known header i d s : item_at m place header i d -> nwp (header_item m place header i) (fun o s' => s' = s /\ o = Some d) s.
Proof. unfold header_item, item_at. intros ->. by wp_run. Qed.
Lemma check_empty_spec val pt s : nwp (check_empty_proof plugins val pt) (judged (optimize_len val = [0] /\ jtype pt = T_ARRAY) s) s.
Proof.
  unfold check_empty_proof. case_bool_decide as E; cbn [negb]; [|by apply failed]. destruct (Z.eqb_spec (jtype pt) T_ARRAY) as [Et|]; [|by apply failed]. destruct (_ || _); [by apply failed|]. wp_run. split; [reflexivity|]. split; [by left|done].
Qed.
Lemma check_slots_spec root (is_empty : bool) : forall l bb s, buffer_ok bb ->
  nwp (check_slots plugins m place root is_empty bb l) (judged (if is_empty then Forall slot_empty l else Forall (slot_proved root) l) s) s.
Proof.
  induction l as [|p l IH]; intros bb s Hb; cbn [check_slots]; [wp_run; split; [reflexivity|]; split; [by left|]; by destruct is_empty|]. destruct is_empty.
  - apply wp_bind. eapply wp_mono; [apply check_empty_spec|]. intros e s1 (Hk & He & Hv). destruct (Z.eqb_spec e IN3_OK) as [->|]; cbn [negb]; [|wp_run; by split].
    eapply wp_mono; [by apply IH|]. intros e2 s2 (Hk2 & He2 & Hl). split; [by etrans|]. split; [done|]. intros E. constructor; [by apply Hv|auto].
  - apply wp_bind, wp_defined. intros [pl|] Ep; [|by apply failed]. apply wp_bind, wp_defined. intros [bb' ex] Eb. destruct (encode_value_spec _ _ _ _ Hb (fun E => ltac:(by pose proof (d_bytes_to_length (jget p K_VALUE)) as Hn; rewrite E in Hn)) Eb) as [Hb' ->].
    apply wp_bind, wp_defined. intros [ok v] Ev. cbn [fst snd] in *. destruct ok; cbn [negb]; [|by apply failed]. eapply wp_mono; [by apply IH|]. intros e s1 (Hk & He & Hl). split; [done|]. split; [done|]. intros E. constructor; [by exists pl, v|auto].
Qed.
Lemma verify_proof_spec header account s : nwp (verify_proof plugins m place header account) (judged (account_checked header account) s) s.
Proof.
  unfold verify_proof. apply wp_bind. eapply wp_mono; [apply header_item_spec|]. intros [root|] ? [-> Hr]; [|by apply failed]. specialize (Hr root eq_refl). destruct (d_get_byteskl (Some account) K_ADDRESS 20) as [address|] eqn:Ea; [|by apply failed].
  apply wp_bind, wp_defined. intros [pl|] Ep; [|by apply failed]. apply wp_bind, wp_defined. intros raw Eraw. apply wp_bind, wp_defined. intros [ok v] Ev. cbn [fst]. destruct ok; cbn [negb]; [|by apply failed].
  destruct (jget (Some account) K_STORAGE_PROOF) as [sp|] eqn:Esp; [|by apply failed]. destruct (d_getl (Some account) K_STORAGE_HASH 32) as [t|] eqn:Et; [|by apply failed].
  apply wp_bind, wp_defined. intros r Er. apply wp_bind, wp_defined. intros r32 E32. eapply wp_mono; [apply check_slots_spec|].
  - repeat split. exists (malloc 36). split; [done|]. apply malloc_length.
  - intros e s1 (Hk & He & Hp). split; [done|]. split; [done|]. intros E. specialize (Hp E). exists root, address, raw, v, sp, t, r. split_and!; try done; [by exists pl| |].
    + unfold read_at in E32. destruct (Nat.leb_spec (0 + 32) (length r)); [lia|done].
    + rewrite memcmp_eq in Hp by (by rewrite (read_at_length _ _ _ _ E32)). unfold read_at in E32. destruct (_ <=? _)%nat; [|done]. rewrite drop_0 in E32. by injection E32 as ->.
Qed.
Definition accounts_post header contract (init : option jval) (l : list jval) s (r : Z + option jval) s' : Prop :=
  kept s s' /\ match r with
               | inl e => e = IN3_EUNKNOWN
               | inr o => Forall (account_checked header) l /\ (forall a, o = Some a -> init = Some a \/ a ∈ l /\ d_eq contract (d_getl (Some a) K_ADDRESS 20) = true)
               end.
Lemma verify_accounts_spec header contract : forall l init s, nwp (verify_accounts plugins m place header contract init l) (accounts_post header contract init l s) s.
Proof.
  induction l as [|t l IH]; intros init s; cbn [verify_accounts]; [wp_run; split; [reflexivity|]; split; [constructor|]; auto|]. apply wp_bind. eapply wp_mono; [apply verify_proof_spec|]. intros e s1 (Hk & He & Hv).
  destruct (Z.eqb_spec e IN3_OK) as [->|]; cbn [negb].
  - eapply wp_mono; [apply IH|]. intros r s2 [Hk2 Hr]. split; [by etrans|]. destruct r as [e2|o]; [done|]. destruct Hr as [Hl Ho]. split; [constructor; [by apply Hv|done]|]. intros a Ea. destruct (Ho a Ea) as [Hi|[Hin Hd]]; [|right; split; [by right|done]].
    destruct init as [i|]; [by left|]. destruct (d_eq contract (d_getl (Some t) K_ADDRESS 20)) eqn:Ed; [|done]. injection Hi as <-. right. split; [by left|done].
  - apply wp_bind. eapply wp_mono; [by apply (vc_err_spec plugins asked_signers valid Hplugins)|]. intros e2 s2 [-> Hk2]. wp_run. split; [by etrans|done].
Qed.
Lemma is_method_spec vc name b : is_method vc name = Some b -> b = bool_decide (cstr <$> vc_method vc = Some (str name)).
Proof. unfold is_method. destruct (vc_method vc) as [x|]; [|done]. intros [= <-]. cbn [fmap option_fmap option_map]. apply bool_decide_ext. split; [by intros -> | by intros [= ->]]. Qed.
Lemma code_hash_length account h : code_hash account = Some h -> length h = 32%nat.
Proof. unfold code_hash. intros (b & _ & E)%bind_Some. by apply read_at_length in E. Qed.
Lemma check_answer_spec vc account s : nwp (check_answer plugins vc account) (judged (answer_checked vc account) s) s.
Proof.
  unfold check_answer, answer_checked, is_method. destruct (vc_method vc) as [name|]; [|by intros ?]. cbn [mbind option_bind defined]. repeat (apply wp_bind, wp_ret).
  assert (forall (P : Prop) s, (cstr name = cstr name -> P) -> nwp (mret IN3_OK) (judged P s) s) as Hok by (intros P s0 HP; wp_run; split; [reflexivity|]; split; [by left|auto]).
  case_bool_decide as E1; [|case_bool_decide as E2; [|case_bool_decide as E3; [|case_bool_decide as E4]]].
  - destruct (d_eq _ _) eqn:Ed; cbn [negb]; [|by apply failed]. apply Hok. rewrite E1. intros _. split_and!; try done.
  - destruct (d_eq _ _) eqn:Ed; cbn [negb]; [|by apply failed]. apply Hok. rewrite E2. intros _. split_and!; try done.
  - apply wp_bind, wp_defined. intros h Eh. pose proof (code_hash_length _ _ Eh) as Hl. destruct (default [] (d_bytes (vc_result vc))) as [|x data]; (rewrite memcmp_eq; [|by rewrite Hl, ?keccak_length]); (case_bool_decide as Ek; cbn [negb]; [|by apply failed]);
      apply Hok; rewrite E3; intros _; split_and!; try done; intros _; by rewrite Eh, Ek.
  - destruct (d_bytes _) as [key|] eqn:Ek; [|by apply failed]. apply wp_bind, wp_defined. intros l El. destruct (storage_answer _ _ _) eqn:Ea; [|by apply failed]. apply Hok. rewrite E4. intros _. split_and!; try done. intros _. by exists key, l.
  - case_bool_decide as E5; [|by apply failed]. apply Hok. intros _. split_and!; done.
Qed.
Definition account_post vc s (r : Z * bool) s' : Prop :=
  kept s s' /\ ok_or_unknown r.1 /\ (r.1 = IN3_OK -> vc_result vc <> None -> exists account, answer_proved (signers (self s)) vc account).
Lemma account_blame vc (db : bool) msg s s1 : kept s s1 -> nwp (e ← vc_err plugins msg; mret (e, db)) (account_post vc s) s1.
Proof. intros Hk. apply wp_bind. eapply wp_mono; [by apply (vc_err_spec plugins asked_signers valid Hplugins)|]. intros e s2 [-> Hk2]. wp_run. split; [by etrans|]. split; [by right|done]. Qed.
Lemma verify_account_proof_spec vc s : nwp (eth_verify_account_proof plugins m place vc) (account_post vc s) s.
Proof.
  unfold eth_verify_account_proof. destruct (vc_result vc) as [res|] eqn:Er; [|wp_run; split; [reflexivity|]; split; [by left|]; intros _; by rewrite Er]. destruct (vc_proof vc) as [proof|] eqn:Ep; [|by apply account_blame].
  destruct (d_bytes (jget (Some proof) K_BLOCK)) as [header|] eqn:Eh; [|by apply account_blame]. apply wp_bind. eapply wp_mono; [by apply (eth_verify_blockheader_spec plugins m place asked_signers valid Hplugins)|]. intros [e db] s1 (Hk & He & Hhd). cbn [fst] in *.
  destruct (Z.eqb_spec e IN3_OK) as [->|]; cbn [negb]; [|by apply account_blame]. destruct (Hhd eq_refl) as (hd & [= <-] & Hc). clear Hhd.
  apply wp_bind, wp_defined. intros is_list El%is_method_spec. apply wp_bind, wp_defined. intros is_call Ec%is_method_spec. destruct Hc as (x & Hx & Hrest). apply wp_bind. eapply wp_mono; [by apply header_item_known|]. intros d ? [-> ->].
  destruct (wrong_number m vc is_list (Some x)) eqn:Ew; [by apply account_blame|]. destruct (requested_account vc is_list is_call) as [contract|] eqn:Eq; [|by apply account_blame].
  destruct (jget (Some proof) K_ACCOUNTS) as [accounts|] eqn:Ea; [|by apply account_blame]. apply wp_bind, wp_defined. intros l Eli. apply wp_bind. eapply wp_mono; [apply verify_accounts_spec|]. intros [e|o] s2 [Hk2 Hr].
  { wp_run. split; [by etrans|]. split; [by right|]. cbn [fst]. by rewrite Hr. }
  destruct Hr as [Hl Ho]. destruct o as [account|]; [|apply account_blame; by etrans]. destruct (Ho account eq_refl) as [|[Hin Hdq]]; [done|].
  apply wp_bind. eapply wp_mono; [apply check_answer_spec|]. intros e s3 (Hk3 & He3 & Hans). wp_run. split; [by etrans; [|etrans]|]. split; [done|]. cbn [fst]. intros E _. exists account.
  exists header, x, l, contract. rewrite Ep, Ea. cbn [mbind option_bind]. rewrite <- El, <- Ec. split_and!; try done; [by exists x|by apply Hans].
Qed.
End Verifier.

(** ** Answers about accounts of the chain *)
Lemma norm_bytes v l : norm v = JBytes l -> d_bytes (Some v) = Some l.
Proof.
  destruct v as [k|k|k|k|b|n|]; cbn [norm]; try done; [by intros [= ->]|]. unfold is_hex. destruct ((1 <? zlen k) && has_0x k && forallb is_hex_char (drop 2 k)) eqn:E; [|done]. cbn [d_bytes]. rewrite E.
  destruct (zlen k =? 2); [by intros [= <-]|]. destruct (zlen k <? 10); [done|]. destruct (hex_to_bytes _ _ _ _) as [n out]. by intros [= <-].
Qed.
(** Two tokens that are equal have the same value, if one of them is a number or bytes. *)
Definition token_ok (v : jval) : Prop := bytes_ok (default [] (d_bytes (Some v))) /\ match norm v with JInt n => 0 <= n < 2 ^ 28 | _ => True end.
Definition number_token (v : jval) : Prop := token_ok v /\ match norm v with JBytes _ | JInt _ => True | _ => False end.
Lemma norm_value v : bytes_ok (default [] (d_bytes (Some v))) -> be_val (default [] (d_bytes (Some (norm v)))) = be_val (default [] (d_bytes (Some v))) /\ bytes_ok (default [] (d_bytes (Some (norm v)))).
Proof. intros Hok. destruct (d_bytes_again_val (Some v) Hok) as (Hv & Ho & _). by split. Qed.
Lemma int_of_short l n : bytes_ok l -> (zlen l <? 5) && (d_int (Some (JBytes l)) =? n) = true -> 0 <= n < 2 ^ 28 -> be_val l = n.
Proof.
  intros Hok [Hl%Z.ltb_lt Hd%Z.eqb_eq]%andb_prop Hn. cbn [d_int] in Hd. destruct (Z.eqb_spec (zlen l) 0) as [E|Hne]; [destruct l; [by subst|done]|]. rewrite Z.min_r in Hd by lia.
  assert (1 <= length l <= 4)%nat as Hl4 by lia. rewrite bytes_to_int_spec in Hd by done. pose proof (be_val_bound _ Hok) as Hb. pose proof (Z.pow_le_mono_r 256 (zlen l) 4 ltac:(lia) ltac:(lia)). unfold i32 in Hd. pose proof (Z.div_mod (be_val l + 2 ^ 31) (2 ^ 32)). lia.
Qed.
Lemma d_eq_value a b : number_token a -> (forall v, b = Some v -> token_ok v) -> d_eq (Some a) b = true -> be_val (default [] (d_bytes (Some a))) = be_val (default [] (d_bytes b)).
Proof.
  intros [[Ha Hra] Hn] Hb E. destruct b as [b|]; [|by destruct a]. destruct (Hb b eq_refl) as [Hbo Hrb]. destruct (norm_value a Ha) as [<- Ha']. destruct (norm_value b Hbo) as [<- Hb']. cbn [d_eq] in E. clear Ha Hb Hbo.
  assert (forall n, 0 <= n < 2 ^ 28 -> be_val (int_bytes n) = n) as Hi by (intros n Hr; apply int_bytes_val; lia).
  destruct (norm a) as [l| | | | |n|] eqn:Ea; try done; destruct (norm b) as [k| | | | |n'|] eqn:Eb; destruct a; cbn [d_eq_to] in E; rewrite Ea, Eb in E; try done; cbn [d_bytes from_option id] in *; rewrite ?Hi by done.
  all: first [by apply bool_decide_eq_true in E as ->|by apply Z.eqb_eq in E as ->|by apply int_of_short|symmetry; by apply int_of_short].
Qed.

Lemma norm_idem v : norm (norm v) = norm v.
Proof. destruct v as [| k| | | | |]; try done. cbn [norm]. destruct (is_hex k) eqn:E; [|cbn [norm]; by rewrite E]. by repeat case_match. Qed.
Lemma norm_plain v : match norm v with JBytes _ | JInt _ => True | w => v = w end.
Proof. destruct v as [| k| | | | |]; try done. cbn [norm]. destruct (is_hex k) eqn:E; [|done]. by repeat case_match. Qed.
Lemma d_eq_bytes a b l : norm a = JBytes l ->
  d_eq (Some a) (Some b) = match norm b with JBytes k => bool_decide (l = k) | JInt n => (zlen l <? 5) && (d_int (Some (JBytes l)) =? n) | _ => false end.
Proof. intros Ea. unfold d_eq, d_eq_to. destruct a; try done; rewrite Ea; by destruct (norm b). Qed.
Lemma requested_address param account addr : norm param = JBytes addr -> length addr = 20%nat -> d_eq (Some param) (d_getl (Some account) K_ADDRESS 20) = true -> d_get_byteskl (Some account) K_ADDRESS 20 = Some addr.
Proof.
  intros Ep Hl. unfold d_getl, d_get_byteskl. destruct (jget (Some account) K_ADDRESS) as [v|]; [|by destruct param]. cbn [fmap option_fmap option_map]. rewrite (d_eq_bytes _ _ _ Ep). unfold pad_token.
  destruct (norm v) as [l|l| | | |n|] eqn:Ev; try done.
  - pose proof (norm_bytes _ _ Ev) as Hb. unfold d_bytesl. rewrite Hb. cbn [mbind option_bind fmap option_fmap option_map]. rewrite Ev. intros E.
    assert (addr = if (length l <? 20)%nat && (4 <? 20)%nat then fill_left 20 l else l) as Ea by (by destruct ((length l <? 20)%nat && (4 <? 20)%nat); apply bool_decide_eq_true in E).
    rewrite Ea. destruct ((length l <? 20)%nat && (4 <? 20)%nat); [done|]. rewrite take_ge; [done|]. subst l. lia.
  - by rewrite <- Ev, norm_idem, Ev.
  - cbn [norm]. by rewrite Hl.
Qed.
Lemma strip_zeros_val l : be_val (strip_zeros l) = be_val l.
Proof. induction l as [|x l IH]; [done|]. cbn [strip_zeros]. destruct (Z.eqb_spec x 0) as [->|]; [|done]. rewrite IH. exact (eq_sym (be_val_zeros 1 l)). Qed.
Lemma uint_field_val t x : rlp_field UINT t = [Str x] -> be_val x = be_val (default [] (d_bytes t)).
Proof. destruct t as [[]|]; cbn [rlp_field]; try done; intros [= <-]; unfold field_bytes; change (UINT =? 0) with true; cbn iota; by rewrite strip_zeros_val. Qed.
Lemma int_bytes_short n : (length (int_bytes n) <= 4)%nat.
Proof. unfold int_bytes. rewrite length_be_bytes. repeat destruct (negb _); lia. Qed.
Lemma int_token_short v n : norm v = JInt n -> (length (default [] (d_bytes (Some v))) <= 4)%nat.
Proof. intros E. destruct (d_bytes_again_cases (Some v)) as [Ea|[? _]]; [|lia]. rewrite <- Ea. unfold d_bytes_again. cbn [fmap option_fmap option_map]. rewrite E. apply int_bytes_short. Qed.
Lemma read_all l n h : read_at l 0 n = Some h -> h = take n l /\ (n <= length l)%nat.
Proof. unfold read_at. destruct (Nat.leb_spec (0 + n) (length l)); [|done]. rewrite drop_0. intros [= <-]. split; [done|lia]. Qed.
Lemma field_hash l : field_bytes HASH l = fill_left 32 l.
Proof. done. Qed.
(** The code hash that the answer is compared with is the one in the serialised account. *)
Lemma code_field account y h : rlp_field HASH (d_getl (Some account) K_CODE_HASH 32) = [Str y] -> length y = 32%nat -> code_hash account = Some h -> h = y.
Proof.
  intros Ef Hy Eh. unfold code_hash, d_get_byteskl, d_bytesl, d_getl in *. destruct (jget (Some account) K_CODE_HASH) as [v|]; [|done]. cbn [fmap option_fmap option_map] in *. unfold pad_token in Ef. destruct (norm v) as [l|l|l|l|b|n|] eqn:Ev.
  - rewrite (norm_bytes _ _ Ev) in Eh. cbn [mbind option_bind] in Eh. apply read_all in Eh as [-> Hl]. destruct ((length l <? 32)%nat && (4 <? 32)%nat) eqn:E32; injection Ef as <-.
    + apply andb_prop in E32 as [?%Nat.ltb_lt _]. cbn [d_bytes from_option id]. rewrite field_hash, (fill_left_id 32 (fill_left 32 l)) by (rewrite fill_left_length; lia). apply take_ge. rewrite fill_left_length; lia.
    + rewrite length_take in Hl. cbn [d_bytes from_option id] in *. rewrite field_hash, fill_left_id in * by lia. rewrite take_take, take_ge by lia. done.
  - pose proof (norm_plain v) as Hp. rewrite Ev in Hp. subst v. assert (d_bytes (Some (JString l)) = Some l) as El. { cbn [norm] in Ev. unfold is_hex in Ev. cbn [d_bytes]. destruct (_ && _ && _); [by repeat case_match|done]. }
    rewrite El in Eh. cbn [mbind option_bind] in Eh. apply read_all in Eh as [-> Hl]. rewrite length_take in Hl. cbn [rlp_field] in Ef. rewrite El in Ef. cbn [from_option id] in Ef. injection Ef as <-. rewrite field_hash, fill_left_id in * by lia. rewrite take_take, take_ge by lia. done.
  - done.
  - done.
  - exfalso. pose proof (norm_plain v) as Hp. rewrite Ev in Hp. subst v. cbn [d_bytes mbind option_bind] in Eh. apply read_all in Eh as [_ Hl]. rewrite length_take in Hl. pose proof (int_bytes_short (if b then 1 else 0)). lia.
  - exfalso. pose proof (int_token_short _ _ Ev) as Hs. destruct (d_bytes (Some v)) as [b|]; [|done]. cbn [mbind option_bind from_option id] in *. apply read_all in Eh as [_ Hl]. rewrite length_take in Hl. lia.
  - pose proof (norm_plain v) as Hp. rewrite Ev in Hp. by subst v.
Qed.

Section Authentic.
Context `{Keccak} `{Allocator} `{Ecdsa} (m : memory) (place : list Z -> slice) (asked_signers : list (list Z) -> Prop).
(** An account of the state, with its code and its storage. *)
Record account_t := mk_account { ac_nonce : list Z; ac_balance : list Z; ac_storage : trie; ac_code : list Z }.
Definition state_items (a : account_t) : list rlp_item := [Str (ac_nonce a); Str (ac_balance a); Str (keccak (node_enc (ac_storage a))); Str (keccak (ac_code a))].
Definition account_enc (a : account_t) : list Z := rlp_list (enc_items (state_items a)).
(** The state of a block: a trie and the accounts its values stand for. *)
Record state_t := mk_accounts { st_trie : trie; st_accounts : list Z -> option account_t }.
Definition in_state (st : state_t) (a : account_t) : Prop := exists k, st_accounts st k = Some a.
Definition account_ok (a : account_t) : Prop := Forall item_ok (state_items a) /\ (ac_storage a = Merkle.Empty \/ trie_ok (ac_storage a) = true).
Definition state_ok (b : NanoSafety.block) (st : state_t) : Prop :=
  header_ok b /\ root_is b BLOCKHEADER_STATE_ROOT (st_trie st) /\ forall k v, has_value (st_trie st) k v -> exists a, st_accounts st k = Some a /\ v = account_enc a /\ account_ok a.
(** The answer lies in memory and contains no collision with the block, its state and the code of its
    accounts; the fields of its accounts are bytes and less than 64 KB, and the keys have at most 32 bytes. *)
Definition key_fair (p : option jval) : Prop := let k := default [] (d_bytes (jget p K_KEY)) in bytes_ok k /\ (length k <= 32)%nat.
Definition account_fair (account : jval) (st : state_t) : Prop :=
  nodes_fair m place (jget (Some account) K_ACCOUNT_PROOF) (st_trie st) /\ Forall item_ok (account_fields (Some account)) /\ zlen (enc_items (account_fields (Some account))) < 0x10000 /\
  (forall v, jget (Some account) K_BALANCE = Some v \/ jget (Some account) K_NONCE = Some v -> token_ok v) /\
  forall sp p a, jget (Some account) K_STORAGE_PROOF = Some sp -> p ∈ items_of (Some sp) -> in_state st a -> key_fair p /\ nodes_fair m place (jget p K_PROOF) (ac_storage a).
Definition answer_fair (vc : in3_vctx_t) (b : NanoSafety.block) (st : state_t) : Prop :=
  (forall header, d_bytes (jget (vc_proof vc) K_BLOCK) = Some header -> in_memory m place header /\ (keccak header = keccak (b_header b) -> header = b_header b)) /\
  (forall accounts account, (jget (vc_proof vc) K_ACCOUNTS ≫= fun a => d_iter (Some a)) = Some accounts -> account ∈ accounts -> account_fair account st) /\
  forall a, in_state st a -> let code := default [] (d_bytes (vc_result vc)) in keccak code = keccak (ac_code a) -> code = ac_code a.
(** What the answer to a request has to be. *)
Definition answer_true (vc : in3_vctx_t) (a : account_t) : Prop :=
  forall name res, vc_method vc = Some name -> vc_result vc = Some res ->
  (cstr name = str "eth_getBalance" -> number_token res -> be_val (default [] (d_bytes (Some res))) = be_val (ac_balance a)) /\
  (cstr name = str "eth_getTransactionCount" -> number_token res -> be_val (default [] (d_bytes (Some res))) = be_val (ac_nonce a)) /\
  (cstr name = str "eth_getCode" -> default [] (d_bytes (Some res)) = ac_code a) /\
  (cstr name = str "eth_getStorageAt" -> forall key, d_bytes (jget_at (jget (Some (vc_request vc)) K_PARAMS) 1) = Some key -> bytes_ok key -> (length key <= 32)%nat ->
     let w := d_bytes_to (Some res) 32 in be_val w <> 0 -> length (optimize_len w) <> 31%nat -> has_value (ac_storage a) (nibs (keccak (fill_left 32 key))) (rlp_string (optimize_len w))).

Lemma items_iter sp l : d_iter (Some sp) = Some l -> (Forall slot_empty (items_of (Some sp)) \/ exists r, Forall (slot_proved m place r) (items_of (Some sp))) -> forall t, t ∈ l -> Some t ∈ items_of (Some sp).
Proof.
  intros E Hi t Ht. destruct sp as [| |vs|kvs| | |]; cbn [d_iter] in E.
  3: { injection E as <-. cbn [items_of]. by apply list_elem_of_fmap_2. }
  3: { exfalso. injection E as <-. destruct kvs as [|kv kvs]; [by apply elem_of_nil in Ht|]. cbn [items_of jlen length] in Hi. rewrite Nat2Z.id in Hi. cbn [replicate] in Hi. destruct Hi as [Hi|[r Hi]]; apply Forall_inv in Hi; [by destruct Hi|]. by destruct Hi as (? & ? & ? & _). }
  all: destruct (_ =? 0); [|done]; injection E as <-; by apply elem_of_nil in Ht.
Qed.
Lemma same_key k key : bytes_ok k -> (length k <= 32)%nat -> bytes_ok key -> (length key <= 32)%nat -> optimize_len k = optimize_len key -> fill_left 32 (take 32 k) = fill_left 32 key.
Proof.
  intros Hk Hlk Hy Hly E. rewrite take_ge by done. apply be_val_inj; [by apply fill_left_ok..|by rewrite !fill_left_length|]. rewrite !fill_left_val. by rewrite <- (optimize_len_val k), <- (optimize_len_val key), E.
Qed.
(** A storage value other than zero in the answer. *)
Lemma storage_true a account st r sp storage key w : keccak [0x80] = EMPTY_ROOT_HASH -> in_state st a -> account_ok a -> account_fair account st -> jget (Some account) K_STORAGE_PROOF = Some sp -> r = keccak (node_enc (ac_storage a)) ->
  (if bool_decide (take 32 r = EMPTY_ROOT_HASH) then Forall slot_empty (items_of (Some sp)) else Forall (slot_proved m place r) (items_of (Some sp))) -> d_iter (Some sp) = Some storage ->
  storage_answer storage key w = true -> bytes_ok key -> (length key <= 32)%nat -> be_val w <> 0 -> length (optimize_len w) <> 31%nat -> has_value (ac_storage a) (nibs (keccak (fill_left 32 key))) (rlp_string (optimize_len w)).
Proof.
  intros Hemp Hin [_ Hst] Hfair Esp Er Hslots Eit Hans Hkey Hlk Hw H31. unfold storage_answer in Hans. destruct (find _ storage) as [t|] eqn:Ef; [|done]. apply bool_decide_eq_true in Hans as ->. apply find_some in Ef as [Ht%list_elem_of_In Ek%bool_decide_eq_true].
  assert (Some t ∈ items_of (Some sp)) as Hit. { eapply items_iter; [exact Eit| |exact Ht]. case_bool_decide; eauto. }
  destruct Hfair as (_ & _ & _ & _ & Hfs). destruct (Hfs sp (Some t) a Esp Hit Hin) as [[Hk Hl] Hnf]. rewrite take_ge in Hslots by (by rewrite Er, keccak_length). case_bool_decide as Eroot; rewrite Forall_forall in Hslots; specialize (Hslots _ Hit).
  { destruct Hslots as [Hz _]. destruct Hw. by rewrite <- optimize_len_val, Hz. }
  destruct Hslots as (l & v & El & Ev). destruct Hst as [Hst|Hst]; [rewrite Er, Hst in Eroot; by destruct Eroot|]. subst r.
  set (w := d_bytes_to (jget (Some t) K_VALUE) 32) in *. assert (optimize_len w <> [0]) as Hw0. { intros E. destruct Hw. by rewrite <- optimize_len_val, E. }
  assert (optimize_len w <> []) as Hwn by (apply optimize_len_nonempty; intros E; pose proof (d_bytes_to_length (jget (Some t) K_VALUE)) as Hx; fold w in Hx; by rewrite E in Hx).
  unfold expected_word in Ev. rewrite bool_decide_false in Ev by done. rewrite (same_key _ key Hk Hl Hkey Hlk Ek : d_bytes_to (jget (Some t) K_KEY) 32 = _) in Ev. specialize (Hnf l El). destruct (rlp_string_length _ Hwn) as [Hlw _].
  eapply proof_sound; [exact Hst|apply keccak_ok| | | | |exact Ev|by left].
  - apply Forall_fmap. eapply Forall_impl; [exact Hnf|]. cbn. by intros y [[? _] _].
  - apply Forall_fmap. eapply Forall_impl; [exact Hnf|]. cbn. by intros y [[_ ->] ?].
  - intros E. rewrite E in Hlw. destruct (optimize_len w); [done|cbn in Hlw; lia].
  - rewrite rlp_string_unfold. rewrite length_app. pose proof (d_bytes_to_length (jget (Some t) K_VALUE)) as H32. fold w in H32. pose proof (optimize_len_length w). destruct ((length (optimize_len w) =? 1)%nat && _) eqn:E1; [apply andb_prop in E1 as [E1%Nat.eqb_eq _]; rewrite E1; cbn; lia|].
    unfold rlp_header. rewrite (proj2 (Z.ltb_lt _ _)) by lia. cbn [length]. lia.
Qed.
Context (chain : Z -> option NanoSafety.block) (states : Z -> state_t).

(** C7. Answers about accounts that [eth_verify_account_proof] accepts are authentic.  Let the plugins keep their
    contract ([plugin_contract]) and the client ask for proofs.  Assume that the request asks for signatures,
    that each set of signers the client asks
    contains an honest one, that the state of each block holds accounts (in tries without nodes of less than 32 bytes), that the answer contains no
    hash collision with block, state and code, and that no account of the proof is one that [is_not_existened] takes
    for absent.  Let the proof have the header of a block other than the genesis block.  Then its number is the
    requested one, if this is a number token, the account with the requested address (20 bytes) is in the state of the block
    of the chain with this number, and an accepted answer to
    eth_getBalance, eth_getTransactionCount, eth_getCode or eth_getStorageAt is the balance or nonce (for a
    result that is a number) or code of this account, or the value
    of its storage at the requested key of at most 32 bytes (if it is not zero; excluded are values of 31 bytes, whose
    encoding could be taken for a reference in the trie). *)
Theorem account_authentic `{SourceText} {W : Type} (plugins : list (in3_plugin_t W)) valid vc s db s' param addr :
  Forall (plugin_contract (RI := nano_inv asked_signers) valid) plugins -> state_inv (RI := nano_inv asked_signers) s ->
  eth_verify_account_proof plugins m place vc s = Ok (IN3_OK, db) s' -> vc_result vc <> None ->
  (forall sgs, asked_signers sgs -> exists a, a ∈ sgs /\ honest chain a) -> (forall n b, chain n = Some b -> state_ok b (states n) /\ answer_fair vc b (states n)) ->
  keccak [] = EMPTY_HASH -> keccak [0x80] = EMPTY_ROOT_HASH -> signers (self s) <> [] -> cstr <$> vc_method vc <> Some (str "in3_nodeList") -> cstr <$> vc_method vc <> Some (str "eth_call") ->
  jget_at (jget (Some (vc_request vc)) K_PARAMS) 0 = Some param -> norm param = JBytes addr -> length addr = 20%nat ->
  (forall accounts account, (jget (vc_proof vc) K_ACCOUNTS ≫= fun a => d_iter (Some a)) = Some accounts -> account ∈ accounts -> is_not_existened (Some account) = false) ->
  exists header d, d_bytes (jget (vc_proof vc) K_BLOCK) = Some header /\ item_at m place header BLOCKHEADER_NUMBER d /\ let number := slice_number m d in
    (let params := jget (Some (vc_request vc)) K_PARAMS in forall n, jget_at params (Z.to_nat (jlen params - 1)) = Some (JInt n) -> number = n) /\
    (number <> 0 -> exists b a, chain (u64 number) = Some b /\ has_value (st_trie (states (u64 number))) (nibs (keccak addr)) (account_enc a) /\ st_accounts (states (u64 number)) (nibs (keccak addr)) = Some a /\ answer_true vc a).
Proof.
  intros Hpl Hi Erun Hr0 Hhon Hchain Hk0 Hk80 Hss Hnl Hnc Epar Enorm Hladdr Hexist. destruct (wp_ok _ _ _ _ _ (verify_account_proof_spec plugins m place asked_signers valid Hpl vc s) Hi Erun) as (_ & _ & HP).
  destruct (HP eq_refl Hr0) as (account & header & d & accounts & contract & Eh & Hhd & Hd & Hwn & Eacc & Hin & Ereq & Heq & Hall & Hans). clear HP. pose proof (Hexist _ _ Eacc Hin) as Hex.
  rewrite !bool_decide_false in * by done. unfold requested_account in Ereq. rewrite Epar in Ereq. injection Ereq as <-. exists header, d. split; [done|]. split; [done|]. cbn zeta. split.
  { intros n En. unfold wrong_number in Hwn. rewrite En in Hwn. cbn [negb andb] in Hwn. apply negb_false_iff, Z.eqb_eq in Hwn. done. }
  intros Hn. destruct (checked_block m place _ _ _ _ _ _ Hhon Hss Hhd Hd Hn) as (b & Hb & Ekb). destruct (Hchain _ _ Hb) as [(Hhok & Hroot & Hvals) (Hfh & Hfa & Hfc)]. destruct (Hfh header Eh) as [Hmem Hhe]. specialize (Hhe (eq_sym Ekb)).
  pose proof (Hfa accounts account Eacc Hin) as Hfair. pose proof Hfair as (Hf1 & Hf2 & Hf3 & Hf4 & _). rewrite Forall_forall in Hall. destruct (Hall account Hin) as (root & address & raw & v & sp & t & r & Hri & Ead & Eraw & Hp & Esp & Et & Er & Hl32 & Hslots).
  rewrite (requested_address _ _ _ Enorm Hladdr Heq) in Ead. injection Ead as <-. rewrite Hex in Hp.
  destruct (account_has m place _ _ _ _ _ _ _ _ _ _ Hhe Hhok Hroot Hmem Hf1 Hf2 Hf3 Hri Eraw Hp Et Er Hl32) as [Ef Hv]. destruct (Hvals _ _ Hv) as (a & Esa & Ea & Haok). exists b, a. split; [done|]. split; [by rewrite <- Ea|]. split; [done|].
  assert (in_state (states (u64 (slice_number m d))) a) as Hst by (by exists (nibs (keccak addr))).
  pose proof Haok as [Haok1 _]. pose proof (account_fields_inj _ _ Haok1 Hf2 Hf3 (eq_sym Ea)) as E. rewrite Ef in E. apply account_four in E as (E1 & E2 & [= E3] & E4); [|apply rlp_field_short..].
  apply uint_field_val in E1, E2. intros name res En Eres. unfold answer_checked in Hans. rewrite En, Eres in Hans. destruct Hans as (Ha1 & Ha2 & Ha3 & Ha4). split_and!.
  - intros Hm Hnum. rewrite E2. apply d_eq_value; [done| |by apply Ha1]. intros x Ex. apply Hf4. by left.
  - intros Hm Hnum. rewrite E1. apply d_eq_value; [done| |by apply Ha2]. intros x Ex. apply Hf4. by right.
  - intros Hm. specialize (Ha3 Hm). apply (code_field _ _ _ E4 (keccak_length _)) in Ha3. specialize (Hfc a Hst). rewrite Eres in Hfc. apply Hfc. rewrite <- Ha3. destruct (default [] (d_bytes (Some res))); [done|done].
  - intros Hm key Ekey Hkey Hlk w Hw H31. destruct (Ha4 Hm) as (key' & storage & Ek' & Eit & Hsa). assert (key' = key) as -> by congruence. rewrite Esp in Eit. by eapply storage_true.
Qed.
End Authentic.

(** ** Accounts that need no proof *)

(** An account without code and storage, with nonce 0, and without a proof. *)
Definition forged_account (addr balance : list Z) : jval :=
  JObject [(K_ADDRESS, JBytes addr); (K_BALANCE, JBytes balance); (K_NONCE, JInt 0); (K_CODE_HASH, JBytes EMPTY_HASH); (K_STORAGE_HASH, JBytes EMPTY_ROOT_HASH); (K_ACCOUNT_PROOF, JArray []); (K_STORAGE_PROOF, JArray [])].
(** Balances that are multiples of 2^64 are zero for [is_not_existened]. *)
Lemma forged_absent addr hi : is_not_existened (Some (forged_account addr (hi ++ replicate 8 0))) = true.
Proof.
  unfold is_not_existened, forged_account. change (jget _ K_BALANCE) with (Some (JBytes (hi ++ replicate 8 0))). cbn [d_long].
  assert (bytes_to_long (hi ++ replicate 8 0) (zlen (hi ++ replicate 8 0)) = 0) as ->; [|done]. unfold bytes_to_long. rewrite length_app, length_replicate. destruct (Z.ltb_spec 8 (Z.of_nat (length hi + 8))) as [Hl|Hl].
  - replace (Z.to_nat (Z.of_nat (length hi + 8) - 8)) with (length hi) by lia. by rewrite drop_app_length.
  - destruct hi; [done|cbn [length] in Hl; lia].
Qed.
Lemma strip_zeros_length l : (length (strip_zeros l) <= length l)%nat.
Proof. induction l as [|x l IH]; [done|]. cbn [strip_zeros]. destruct (_ =? 0); cbn [length] in *; lia. Qed.
Lemma forged_small addr hi : (length hi <= 24)%nat -> zlen (enc_items (account_fields (Some (forged_account addr (hi ++ replicate 8 0))))) < 0x10000.
Proof.
  intros Hl. set (b := strip_zeros (hi ++ replicate 8 0)). assert (account_fields (Some (forged_account addr (hi ++ replicate 8 0))) = [Str []; Str b; Str EMPTY_ROOT_HASH; Str EMPTY_HASH]) as -> by done.
  assert (length b <= 32)%nat as Hb. { etrans; [apply strip_zeros_length|]. rewrite length_app, length_replicate. lia. }
  unfold enc_items. cbn [map concat enc_item]. rewrite app_nil_r, !length_app. change (length (rlp_string [])) with 1%nat. change (length (rlp_string EMPTY_ROOT_HASH)) with 33%nat. change (length (rlp_string EMPTY_HASH)) with 33%nat.
  rewrite rlp_string_unfold, length_app. pose proof (rlp_header_length 0x80 (zlen b)). destruct (_ && _); cbn [length]; lia.
Qed.
Section Forged.
Context `{SourceText} `{Keccak} `{Allocator} `{Ecdsa} {W : Type} (plugins : list (in3_plugin_t W)) (m : memory) (place : list Z -> slice).
Implicit Types s : state W.
Lemma forged_checked header root addr hi s : item_at m place header BLOCKHEADER_STATE_ROOT root -> (length hi <= 24)%nat -> length addr = 20%nat ->
  verify_proof plugins m place header (forged_account addr (hi ++ replicate 8 0)) s = Ok IN3_OK s.
Proof.
  intros Hr Hl Ha. set (account := forged_account addr (hi ++ replicate 8 0)). unfold verify_proof.
  assert (header_item m place header BLOCKHEADER_STATE_ROOT s = Ok (Some root) s) as E1 by (unfold header_item; unfold item_at in Hr; by rewrite Hr). rewrite (run_bind _ _ _ _ _ E1). clear E1.
  assert (exists a, d_get_byteskl (Some account) K_ADDRESS 20 = Some a) as [a ->] by (by eexists). change (d_create_bytes_vec (jget (Some account) K_ACCOUNT_PROOF)) with (Some (Some (@nil (list Z)))). rewrite (run_bind _ _ s (Some []) s) by done.
  rewrite serialize_account_spec by (by apply forged_small). rewrite (run_bind _ _ s (rlp_list (enc_items (account_fields (Some account)))) s) by done. assert (is_not_existened (Some account) = true) as -> by apply forged_absent.
  assert (trie_verify_proof m (root_hash m root) (keccak a) (map place []) EAbsent = Some (true, None)) as ->.
  { unfold trie_verify_proof, read_at. assert (length (root_hash m root) = 32%nat) as Hlr by (unfold root_hash; by rewrite length_mem_read). rewrite Hlr. done. }
  rewrite (run_bind _ _ s (true, None) s) by done. done.
Qed.

(** C33. Balances can be made up.  Whatever the state holds: for every address, a node that has a header
    which the client accepts can answer a request for the balance with any multiple of 2^64, by an
    account with this balance, nonce 0 and no code, and with an empty Merkle proof.  The account is
    taken for one that does not exist, since only the last eight bytes of the balance are looked at, and
    the absence of an account needs no proof. *)
Theorem forged_balance_accepted vc header d root param addr hi s s' db :
  (length hi <= 24)%nat -> cstr <$> vc_method vc = Some (str "eth_getBalance") -> vc_result vc = Some (JBytes (hi ++ replicate 8 0)) ->
  jget_at (jget (Some (vc_request vc)) K_PARAMS) 0 = Some param -> norm param = JBytes addr -> length addr = 20%nat ->
  item_at m place header BLOCKHEADER_NUMBER d -> item_at m place header BLOCKHEADER_STATE_ROOT root -> wrong_number m vc false (Some d) = false ->
  d_bytes (jget (vc_proof vc) K_BLOCK) = Some header -> jget (vc_proof vc) K_ACCOUNTS = Some (JArray [forged_account addr (hi ++ replicate 8 0)]) ->
  eth_verify_blockheader plugins m place vc (Some header) None s = Ok (IN3_OK, db) s' -> eth_verify_account_proof plugins m place vc s = Ok (IN3_OK, db) s'.
Proof.
  intros Hl Hm Er Epar En Ha Hd Hr Hw Eh Eacc Ehd. unfold eth_verify_account_proof. rewrite Er. destruct (vc_proof vc) as [proof|] eqn:Ep; [|done]. rewrite Eh. rewrite (run_bind _ _ _ _ _ Ehd). cbn [Z.eqb negb].
  destruct (vc_method vc) as [name|] eqn:Ename; [|done]. injection Hm as Hm. assert (forall n, is_method vc n = Some (bool_decide (str "eth_getBalance" = str n))) as Him by (intros n; unfold is_method; rewrite Ename; cbn [mbind option_bind]; by rewrite Hm).
  change (IN3_OK =? IN3_OK) with true. cbn [negb]. rewrite !Him. rewrite (run_bind _ _ s' false s') by done. rewrite (run_bind _ _ s' false s') by done.
  rewrite (run_bind _ _ s' (Some d) s') by (unfold header_item; unfold item_at in Hd; by rewrite Hd). rewrite Hw. unfold requested_account. rewrite Epar, Eacc. rewrite (run_bind _ _ s' [forged_account addr (hi ++ replicate 8 0)] s') by done. cbn [verify_accounts].
  assert (d_eq (Some param) (d_getl (Some (forged_account addr (hi ++ replicate 8 0))) K_ADDRESS 20) = true) as ->.
  { assert (d_getl (Some (forged_account addr (hi ++ replicate 8 0))) K_ADDRESS 20 = Some (JBytes addr)) as -> by (unfold d_getl; change (jget _ K_ADDRESS) with (Some (JBytes addr)); cbn [fmap option_fmap option_map]; unfold pad_token; cbn [norm]; by rewrite Ha).
    rewrite (d_eq_bytes _ _ addr En). cbn [norm]. by rewrite bool_decide_true. }
  rewrite (run_bind _ _ s' (inr (Some (forged_account addr (hi ++ replicate 8 0)))) s') by (rewrite (run_bind _ _ s' IN3_OK s') by (by eapply forged_checked); done).
  apply (run_bind _ (fun r => mret (r, db)) s' IN3_OK s'). unfold check_answer. rewrite !Him. do 5 (erewrite (run_bind _ _ s' _ s') by done). cbn [bool_decide].
  rewrite bool_decide_true by done. rewrite Er. change (jget (Some (forged_account addr (hi ++ replicate 8 0))) K_BALANCE) with (Some (JBytes (hi ++ replicate 8 0))). rewrite (d_eq_bytes _ _ (hi ++ replicate 8 0)) by done. cbn [norm]. by rewrite bool_decide_true.
Qed.
End Forged.

(** ** An account with a storage value, and the answers of a node

    The hash is a checksum, except for the message that is signed and the two hashes of nothing. *)
Module AccountSample.
#[local] Existing Instance no_text.
#[local] Existing Instance debug_allocator.
Definition sum (l : list Z) : list Z := let a := fold_left (fun acc b => (acc * 257 + b + 1) mod 2 ^ 248) l 1 in (16 * (1 + a mod 10)) :: be_bytes 31 a.
Definition msg_hash : list Z := 1 :: replicate 31 0.
Definition addr : list Z := replicate 20 7.
Definition slot : list Z := replicate 31 0 ++ [9].
Definition leaf_bytes (path v : list Z) : list Z := rlp_list (enc_items [Str (hex_prefix path true); Str v]).
Definition storage_path : list Z := Eval vm_compute in nibs (sum slot).
Definition storage_node : list Z := Eval vm_compute in leaf_bytes storage_path (rlp_string [5]).
Definition code : list Z := [0x60; 0x00].
Definition account_bytes : list Z := Eval vm_compute in rlp_list (enc_items [Str [1]; Str [10]; Str (sum storage_node); Str (sum code)]).
Definition account_path : list Z := Eval vm_compute in nibs (sum addr).
Definition account_node : list Z := Eval vm_compute in leaf_bytes account_path account_bytes.
Definition items : list rlp_item := [Str []; Str []; Str []; Str (sum account_node); Str []; Str []; Str []; Str []; Str [5]; Str []; Str []; Str []; Str []; Str []; Str []].
Definition header : list Z := Eval vm_compute in rlp_list (enc_items items).
Definition registry_id : list Z := replicate 32 9.
Definition message : list Z := Eval vm_compute in signed_message 2 (sum header) 5 registry_id.
#[local] Instance hash : Keccak.
Proof.
  refine {| keccak l := if bool_decide (l = message) then msg_hash else if bool_decide (l = []) then EMPTY_HASH else if bool_decide (l = [0x80]) then EMPTY_ROOT_HASH else sum l |}.
  - intros l. repeat case_bool_decide; [done..|]. unfold sum. cbn [length]. by rewrite length_be_bytes.
  - intros l. repeat case_bool_decide; [decide_now..|]. constructor; [|apply be_bytes_ok]. set (a := fold_left _ _ _). pose proof (Z.mod_pos_bound a 10). unfold is_byte. lia.
Defined.
#[local] Instance ecdsa : Ecdsa := {| crypto_recover h _ := if bool_decide (h = msg_hash) then Some (replicate 64 5) else None |}.
Definition signer : list Z := Eval vm_compute in take 20 (drop 12 (keccak (replicate 64 5))).
Definition asked (sgs : list (list Z)) : Prop := sgs = [signer].
Definition blocks : list (list Z) := [header; account_node; storage_node].
Definition mem : memory := mem_of (concat blocks).
Definition place : list Z -> slice := place_in blocks 0.
Definition storage : trie := Leaf storage_path (rlp_string [5]).
Definition held : account_t := mk_account [1] [10] storage code.
Definition st : state_t := mk_accounts (Leaf account_path account_bytes) (fun k => if bool_decide (k = account_path) then Some held else None).
Definition blk : NanoSafety.block := mk_block items Merkle.Empty Merkle.Empty.
Definition chain (n : Z) : option NanoSafety.block := if n =? 5 then Some blk else None.

Definition sig : jval := JObject [(K_BLOCK, JInt 5); (K_BLOCK_HASH, JBytes (sum header)); (K_R, JBytes (replicate 32 1)); (K_S, JBytes (replicate 32 2)); (K_V, JInt 27)].
Definition account : jval :=
  JObject [(K_ADDRESS, JBytes addr); (K_NONCE, JInt 1); (K_BALANCE, JInt 10); (K_STORAGE_HASH, JBytes (sum storage_node)); (K_CODE_HASH, JBytes (sum code)); (K_ACCOUNT_PROOF, JArray [JBytes account_node]);
           (K_STORAGE_PROOF, JArray [JObject [(K_KEY, JBytes slot); (K_VALUE, JInt 5); (K_PROOF, JArray [JBytes storage_node])]])].
Definition proof_with (a : jval) : jval := JObject [(K_BLOCK, JBytes header); (K_SIGNATURES, JArray [sig]); (K_ACCOUNTS, JArray [a])].
Definition eth : in3_chain_t := mk_chain 1 CHAIN_ETH 2 None.
Definition asking (method : string) (params : list jval) : jval := JObject [(K_METHOD, JString (str method)); (K_PARAMS, JArray params)].
Definition vc_of (method : string) (params : list jval) (result account : jval) : in3_vctx_t :=
  mk_vctx eth (asking method params) (Some result) (Some (proof_with account)) (Some 0) (Some 6) 0 (Some (str method)) node1 false.
Definition vc : in3_vctx_t := vc_of "eth_getStorageAt" [JBytes addr; JInt 9; JInt 5] (JInt 5) account.
Definition before : state unit :=
  mk_state (mk_req 1 RT_RPC 0 IN3_WAITING None None (Some []) Null Null (Some []) [signer] [node1] []) [] (mk_client [eth] 5 0 PROOF_STANDARD 0 0 1 0 0 0) tt.

Lemma only_message l : keccak l = msg_hash -> l = message.
Proof. cbn. repeat case_bool_decide; try done. unfold sum. intros E. exfalso. set (a := fold_left _ _ _) in E. pose proof (Z.mod_pos_bound a 10). apply (f_equal (hd 0)) in E. cbn [hd msg_hash] in E. lia. Qed.
Lemma account_signer : honest chain signer.
Proof. apply (honest_of_message chain signer msg_hash blk 5 registry_id); [|intros l ->%only_message; vm_compute; reflexivity|done]. intros h sg pub E _. cbn [crypto_recover ecdsa] in E. by case_bool_decide. Qed.
Lemma account_before_ok : state_inv (RI := nano_inv asked) before.
Proof. split; [|split; [by right|constructor]]. split; [|done]. constructor; [done|constructor]. Qed.
Lemma account_accepted : exists s', eth_verify_account_proof [answering registry_id] mem place vc before = Ok (IN3_OK, false) s'.
Proof. eexists. vm_compute. reflexivity. Qed.
Lemma account_in_memory l : l ∈ blocks -> in_memory mem place l.
Proof. apply placed_in. vm_compute. reflexivity. Qed.
Lemma sample_state : state_ok blk st.
Proof.
  split; [split; [decide_now|by vm_compute]|]. split; [split; vm_compute; reflexivity|]. intros k v Hv. inversion Hv; subst. exists held. split; [cbn; by rewrite bool_decide_true|]. split; [vm_compute; reflexivity|]. split; [decide_now|]. right. by vm_compute.
Qed.
Lemma sample_answer : answer_fair mem place vc blk st.
Proof.
  split; [intros h [= <-]; split; [apply account_in_memory; left|intros _; vm_compute; reflexivity]|]. split.
  - intros accounts a [= <-] ->%list_elem_of_singleton. split; [apply (proof_nodes_fair mem place _ [account_node]), Forall_singleton; split; [apply account_in_memory; right; left|apply (trie_no_collision _ [account_node]); [vm_compute; reflexivity..|left]]|].
    split; [decide_now|]. split; [by vm_compute|]. split; [intros v [[= <-]|[= <-]]; (split; [decide_now|done])|]. intros sp p a [= <-] ->%list_elem_of_singleton [k Hk]. cbn [st st_accounts] in Hk. case_bool_decide; [|done]. injection Hk as <-.
    split; [split; [decide_now|cbn; lia]|]. apply (proof_nodes_fair mem place _ [storage_node]), Forall_singleton; split; [apply account_in_memory; right; right; left|apply (trie_no_collision _ [storage_node]); [vm_compute; reflexivity..|left]].
  - intros a [k Hk]. cbn [st st_accounts] in Hk. case_bool_decide; [|done]. injection Hk as <-. intros c E. exfalso. vm_compute in E. done.
Qed.
(** No proof of the account, and the claim that it has more than 18 Ether. *)
Definition forged : jval := forged_account addr ([1] ++ replicate 8 0).
Definition forged_vc : in3_vctx_t := vc_of "eth_getBalance" [JBytes addr; JInt 5] (JBytes ([1] ++ replicate 8 0)) forged.
End AccountSample.

Lemma account_authentic_witness : has_value AccountSample.storage AccountSample.storage_path (rlp_string [5]).
Proof.
  destruct AccountSample.account_accepted as [s' E].
  destruct (@account_authentic AccountSample.hash debug_allocator AccountSample.ecdsa AccountSample.mem AccountSample.place AccountSample.asked AccountSample.chain (fun _ => AccountSample.st) no_text unit [answering AccountSample.registry_id] (fun _ _ => True)
    AccountSample.vc AccountSample.before false s' (JBytes AccountSample.addr) AccountSample.addr) as (header & d & _ & _ & Hnum & Hb).
  - apply answering_plugins.
  - apply AccountSample.account_before_ok.
  - exact E.
  - discriminate.
  - intros sgs ->. exists AccountSample.signer. split; [by left|apply AccountSample.account_signer].
  - intros n b Hn. unfold AccountSample.chain in Hn. destruct (n =? 5); [|done]. injection Hn as <-. split; [apply AccountSample.sample_state|apply AccountSample.sample_answer].
  - vm_compute. reflexivity.
  - vm_compute. reflexivity.
  - discriminate.
  - vm_compute. discriminate.
  - vm_compute. discriminate.
  - reflexivity.
  - reflexivity.
  - reflexivity.
  - intros accounts a [= <-] ->%list_elem_of_singleton. vm_compute. reflexivity.
  - cbn zeta in Hnum. rewrite (Hnum 5 eq_refl) in Hb. destruct Hb as (b & a & _ & _ & Ea & Hans); [done|]. assert (a = AccountSample.held) as -> by (vm_compute in Ea; by injection Ea).
    destruct (Hans (str "eth_getStorageAt") (JInt 5) eq_refl eq_refl) as (_ & _ & _ & Hs). apply (Hs eq_refl [9] eq_refl); [decide_now|cbn; lia|vm_compute; discriminate|vm_compute; discriminate].
Defined.
Lemma forged_balance_accepted_witness : exists s', @eth_verify_account_proof AccountSample.hash debug_allocator AccountSample.ecdsa unit [answering AccountSample.registry_id] AccountSample.mem AccountSample.place AccountSample.forged_vc AccountSample.before = Ok (IN3_OK, false) s'.
Proof.
  eexists. eapply (@forged_balance_accepted AccountSample.hash debug_allocator AccountSample.ecdsa unit [answering AccountSample.registry_id] AccountSample.mem AccountSample.place AccountSample.forged_vc AccountSample.header _ _ (JBytes AccountSample.addr) AccountSample.addr [1]);
    [cbn; lia|reflexivity|reflexivity|reflexivity|reflexivity|reflexivity|vm_compute; reflexivity|vm_compute; reflexivity|vm_compute; reflexivity|reflexivity|reflexivity|vm_compute; reflexivity].
Defined.
