(* ===== verification/BasicTx.v ===== *)
(** * verifier/eth1/basic/eth_getTransaction.c, sign_tx.c: transactions

    A transaction in a response is checked against the raw transaction that a Merkle proof yields:
    its hash, its serialised fields and its sender, which is recovered from the signature and the
    hash of the transaction without its signature ([create_unsigned_tx]).  The other direction, how
    a signature is put into a transaction, is [sign_raw_tx].  Raw transactions lie in memory; an
    error code and undefined behaviour are as in the nano verifier. *)
From S2P Require Import Prelude Utils Bytes Rlp Merkle Data Json JsonVal ReqState Request Serialize Nano NodeData.
From stdpp Require Import strings.
#[local] Open Scope Z_scope.

Definition K_HASH : Z := Eval vm_compute in key "hash".
Definition K_RAW : Z := Eval vm_compute in key "raw".
Definition K_FROM : Z := Eval vm_compute in key "from".
Definition K_STANDARD_V : Z := Eval vm_compute in key "standardV".
Definition K_PUBLIC_KEY : Z := Eval vm_compute in key "publicKey".
Definition secp256k1n_2 : list Z :=
  [0x7F; 0xFF; 0xFF; 0xFF; 0xFF; 0xFF; 0xFF; 0xFF; 0xFF; 0xFF; 0xFF; 0xFF; 0xFF; 0xFF; 0xFF; 0xFF; 0x5D; 0x57; 0x6E; 0x73; 0x57; 0xA4; 0x50; 0x1D; 0xDF; 0xE9; 0x2F; 0x46; 0x68; 0x1B; 0x20; 0xA0].

(** ** Without and with the signature *)
Section Raw.
Context `{Allocator} (m : memory).
(** The byte of the type in front of a raw transaction; a legacy one starts with a list. *)
Definition raw_type (limit : Z) (raw : slice) : Z := if (0 <? s_len raw) && (m (s_data raw) <? limit) then m (s_data raw) else 0.
Definition skip_type (type : Z) (raw : slice) : slice := if type =? 0 then raw else mk_slice (s_data raw + 1) (u32 (s_len raw - 1)).
(** The bytes of a list up to the end of an item of it. *)
Definition items_up_to (list_ item : slice) : list Z := mem_read m (mk_slice (s_data list_) (s_data item + s_len item - s_data list_)).
Definition create_unsigned_tx (raw : slice) (chain_id : Z) : option (list Z) :=
  let type := raw_type 0x7f raw in
  let last_item := if type =? 1 then 7 else if type =? 2 then 8 else 5 in
  let raw_list := skip_type type raw in
  '(_, l) ← dec m true raw_list 0;
  let raw_list := default raw_list l in
  '(_, item) ← dec m false raw_list last_item;
  item ← item;
  bb ← bb_write_raw_bytes bb_null (items_up_to raw_list item);
  bb ← (if negb (chain_id =? 0) && (type =? 0) then
          bb ← rlp_encode_item bb (optimize_len (be_bytes 4 chain_id));
          bb ← rlp_encode_item bb [];
          rlp_encode_item bb []
        else Some bb);
  convert_to_typed_list bb type.

(** [get_v]: only the chain ids of Ethereum go into the signature. *)
Definition get_v (chain : Z) : Z := if (0xFF <? chain) && negb (chain =? 1337) then 0 else chain.
(** The last part of [eth_sign_raw_tx], with the 65 bytes of the signature; IN3_EINVAL if [raw_tx] is not what is expected. *)
Definition sign_raw_tx (raw_tx : slice) (chain_id : Z) (signature : list Z) : option (Z + list Z) :=
  let type := raw_type 10 raw_tx in
  let v := if type =? 0 then u32 (27 + rd signature 64 + (if get_v chain_id =? 0 then 0 else get_v chain_id * 2 + 8)) else rd signature 64 in
  let last_item := if type =? 1 then 8 else 5 in
  let raw_tx := skip_type type raw_tx in
  '(r, data) ← dec m false raw_tx 0;
  if negb (r =? 2) then Some (inl IN3_EINVAL)
  else
    data ← data;
    '(r, last) ← dec m false data last_item;
    if negb (r =? (if type =? 0 then 1 else 2)) then Some (inl IN3_EINVAL)
    else
      last ← last;
      rlp ← bb_write_raw_bytes (bb_newl (Z.to_nat (s_len raw_tx + 68))) (items_up_to data last);
      rlp ← rlp_encode_item rlp (optimize_len (be_bytes 4 v));
      rlp ← rlp_encode_item rlp (optimize_len (take 32 signature));
      rlp ← rlp_encode_item rlp (optimize_len (take 32 (drop 32 signature)));
      rlp ← rlp_encode_to_list rlp;
      rlp ← (if type =? 0 then Some rlp else bb_replace rlp 0 0 [type]);
      dst ← bb_bytes rlp;
      Some (inr dst).
End Raw.

Section Tx.
Context `{SourceText} `{Keccak} `{Allocator} `{Ecdsa} {W : Type} (plugins : list (in3_plugin_t W)) (m : memory) (place : list Z -> slice).
#[local] Abbreviation st := (state W).
#[local] Abbreviation vc_err := (vc_err plugins).

(** ** The values of a transaction *)

(** [raw ? *raw : d_bytes(d_get(tx, K_RAW))] *)
Definition raw_of (tx : option jval) (raw : option slice) : slice := default (place (default [] (d_bytes (jget tx K_RAW)))) raw.
Definition tx_v (tx : option jval) : Z := u32 (d_int (jget tx K_V)).
Definition tx_chain_id (tx : option jval) : Z :=
  match jget tx K_CHAIN_ID with Some t => u32 (d_int (Some t)) | None => if 35 <? tx_v tx then (tx_v tx - 35) / 2 else 0 end.
(** The recovery id in [v]. *)
Definition plain_v (tx : option jval) : Z := u32 ((if tx_chain_id tx =? 0 then tx_v tx else tx_v tx - tx_chain_id tx * 2 - 8) - 27).
Definition sdata (type : Z) (tx : option jval) (r s : list Z) : list Z := fill_left 32 r ++ fill_left 32 s ++ [u8 (if type =? 0 then plain_v tx else tx_v tx)].
(** [memcmp(pubkey, d_bytes(t).data, d_len(t)) != 0] *)
Definition differs (n : nat) (a b : list Z) : option bool := x ← read_at a 0 n; y ← read_at b 0 n; Some (negb (memcmp x y =? 0)).
Definition wrong_public_key (tx : option jval) (pubkey : list Z) : option bool :=
  match d_getl tx K_PUBLIC_KEY 64 with
  | None => Some false
  | Some t => differs (Z.to_nat (jlen (Some t))) pubkey (default [] (d_bytes (Some t)))
  end.
Definition wrong_from (tx : option jval) (pubkey : list Z) : option bool :=
  match d_getl tx K_FROM 20 with
  | None => Some false
  | Some t => differs 20 (drop 12 (keccak pubkey)) (default [] (d_bytes (Some t)))
  end.
(** The checks up to those of the signature. *)
Definition check_tx_fields (tx : option jval) (raw : option slice) : M st Z :=
  let content := mem_read m (raw_of tx raw) in
  hash ← defined (h ← d_get_byteskl tx K_HASH 32; read_at h 0 32);
  if negb (memcmp (keccak content) hash =? 0) then vc_err "wrong transactionHash"
  else if (match jget tx K_RAW, raw with Some t, Some r => negb (bool_decide (mem_read m r = default [] (d_bytes (Some t)))) | _, _ => false end) then vc_err "invalid raw-value"
  else if (match jget tx K_STANDARD_V, raw with Some t, Some _ => negb (plain_v tx =? u32 (d_int (Some t))) | _, _ => false end) then vc_err "standardV is invalid"
  else if (match jget tx K_CHAIN_ID with Some t => negb (u32 (d_int (Some t)) =? tx_chain_id tx) | None => false end) then vc_err "wrong chain_id"
  else mret IN3_OK.
Definition eth_verify_tx_values (tx : option jval) (raw : option slice) : M st Z :=
  let type := match raw with Some r => raw_type m 0x7f r | None => 0 end in
  res ← check_tx_fields tx raw;
  if negb (res =? IN3_OK) then mret res
  else
    match d_get_byteskl tx K_S 32 with
    | None => vc_err "invalid v-value of the signature"
    | Some s =>
        if (32 <? length s)%nat || ((length s =? 32)%nat && (0 <? memcmp s secp256k1n_2)) then vc_err "invalid v-value of the signature"
        else
          match d_get_byteskl tx K_R 32 with
          | None => vc_err "invalid r/s-value of the signature"
          | Some r =>
              if (64 <? length r + length s)%nat then vc_err "invalid r/s-value of the signature"
              else
                unsigned_tx ← defined (create_unsigned_tx m (raw_of tx raw) (tx_chain_id tx));
                match crypto_recover (keccak unsigned_tx) (sdata type tx r s) with
                | None => vc_err "could not recover signature"
                | Some pubkey =>
                    wrong ← defined (wrong_public_key tx pubkey);
                    if (wrong : bool) then vc_err "invalid public Key"
                    else
                      wrong ← defined (wrong_from tx pubkey);
                      if (wrong : bool) then vc_err "invalid from address" else mret IN3_OK
                end
          end
    end.

(** ** By hash *)

(** [data == NULL] *)
Definition no_data : slice := mk_slice 0 0.
(** The next check, if the result is IN3_OK so far. *)
Definition if_ok (res : Z) (next : M st Z) : M st Z := if res =? IN3_OK then next else mret res.
Definition check_tx_position (vc : in3_vctx_t) (header : list Z) : M st Z :=
  if negb (d_eq (jget (vc_result vc) K_TRANSACTION_INDEX) (jget (vc_proof vc) K_TX_INDEX)) then vc_err "wrong transaction index"
  else
    item ← header_item m place header BLOCKHEADER_NUMBER;
    match item with
    | Some d => if negb (d_long (jget (vc_result vc) K_BLOCK_NUMBER) =? slice_number m d) then vc_err "wrong block number" else mret IN3_OK
    | None => vc_err "wrong block number"
    end.
(** The values of the result against the raw transaction, and the position of the transaction; the
    result is serialised in any case. *)
Definition check_tx (vc : in3_vctx_t) (header : list Z) (res : Z) (raw : slice) : M st Z :=
  res ← if_ok res (eth_verify_tx_values (vc_result vc) (Some raw));
  res ← if_ok res (check_tx_position vc header);
  tx_data ← defined (serialize_tx (vc_result vc));
  if_ok res (if negb (bool_decide (tx_data = mem_read m raw)) then vc_err "Could not verify the transaction data" else mret IN3_OK).
Definition proved_tx (vc : in3_vctx_t) (header tx_hash : list Z) : M st (Z * slice) :=
  path ← defined (create_tx_path (u32 (d_int (jget (vc_proof vc) K_TX_INDEX))));
  item ← header_item m place header BLOCKHEADER_TRANSACTIONS_ROOT;
  match item with
  | None => e ← vc_err "no tx root"; mret (e, no_data)
  | Some root =>
      r ← verify_merkle m place root path (jget (vc_proof vc) K_MERKLE_PROOF) EAny;
      match r with
      | (true, Some raw) =>
          if negb (memcmp (keccak (mem_read m raw)) tx_hash =? 0) then e ← vc_err "The TransactionHash is not the same as expected"; mret (e, raw)
          else mret (IN3_OK, raw)
      | _ => e ← vc_err "Could not verify the tx proof"; mret (e, no_data)
      end
  end.
Definition eth_verify_eth_getTransaction (vc : in3_vctx_t) (tx_hash : option (list Z)) : M st (Z * bool) :=
  let fail (msg : string) : M st (Z * bool) := e ← vc_err msg; mret (e, vc_dont_blacklist vc) in
  match tx_hash with
  | None => fail "No Transaction Hash found"
  | Some tx_hash =>
      if negb (length tx_hash =? 32)%nat then fail "The transactionHash has the wrong length!"
      else
        match vc_proof vc with
        | None => fail "Proof is missing!"
        | Some proof =>
            match d_bytes (jget (Some proof) K_BLOCK) with
            | None => fail "No Block-Proof!"
            | Some header =>
                rd ← eth_verify_blockheader plugins m place vc (Some header) (d_get_byteskl (vc_result vc) K_BLOCK_HASH 32);
                let '(res, db) := rd in
                if res =? IN3_OK then
                  rr ← proved_tx vc header tx_hash;
                  res ← check_tx vc header (fst rr) (snd rr);
                  mret (res, db)
                else mret (res, db)
            end
        end
  end.

(** ** By block and index *)
Definition is_null (t : option jval) : bool := jtype t =? T_NULL.
(** The block that was asked for; what is returned is an error or IN3_OK. *)
Definition check_block (vc : in3_vctx_t) (header : list Z) (blk : option jval) : M st Z :=
  match norm <$> blk with
  | Some (JBytes blk_hash) =>
      if negb (length blk_hash =? 32)%nat then vc_err "No block hash found"
      else if (match d_get_byteskl (vc_result vc) K_BLOCK_HASH 32 with Some h => negb (bool_decide (blk_hash = h)) | None => false end) then vc_err "The block hash does not match the required"
      else if negb (memcmp (keccak header) blk_hash =? 0) then vc_err "The block header does not match the required"
      else mret IN3_OK
  | Some (JInt blk_num) =>
      if blk_num =? 0 then vc_err "No block number found"
      else if (match jget (vc_result vc) K_BLOCK_NUMBER with Some t => negb (blk_num =? d_long (Some t)) | None => false end) then vc_err "The block number does not match the required"
      else
        item ← header_item m place header BLOCKHEADER_NUMBER;
        match item with
        | Some d => if negb (slice_number m d =? blk_num) then vc_err "The block number in the header does not match the required" else mret IN3_OK
        | None => vc_err "The block number in the header does not match the required"
        end
  | Some (JString name) => if bool_decide (cstr name = str "latest") then mret IN3_OK else vc_err "No block hash & number found"
  | _ => vc_err "No block hash & number found"
  end.
(** The raw transaction of the Merkle proof; without a result the proof has to show that there is none. *)
Definition proved_at (vc : in3_vctx_t) (header : list Z) : M st (Z * slice) :=
  path ← defined (create_tx_path (u32 (d_int (jget (vc_proof vc) K_TX_INDEX))));
  proof ← defined (d_create_bytes_vec (jget (vc_proof vc) K_MERKLE_PROOF));
  item ← header_item m place header BLOCKHEADER_TRANSACTIONS_ROOT;
  match item, proof with
  | None, _ => e ← vc_err "no tx root"; mret (e, no_data)
  | Some _, None => e ← vc_err "No merkle proof"; mret (e, no_data)
  | Some root, Some l =>
      r ← defined (trie_verify_proof m (root_hash m root) path (map place l) (if is_null (vc_result vc) then EAbsent else EAny));
      let raw := default no_data (snd r) in
      if is_null (vc_result vc) && negb (fst r) then e ← vc_err "Could not prove non-existence of transaction"; mret (e, raw)
      else if negb (fst r) && (match snd r with None => true | Some _ => false end) then e ← vc_err "Could not verify the tx proof"; mret (e, raw)
      else mret (IN3_OK, raw)
  end.
Definition eth_verify_eth_getTransactionByBlock (vc : in3_vctx_t) (blk : option jval) (tx_idx : Z) : M st (Z * bool) :=
  let fail (msg : string) : M st (Z * bool) := e ← vc_err msg; mret (e, vc_dont_blacklist vc) in
  match vc_proof vc with
  | None => fail "Proof is missing!"
  | Some proof =>
      match d_bytes (jget (Some proof) K_BLOCK) with
      | None => fail "No Block-Proof!"
      | Some header =>
          res ← check_block vc header blk;
          if negb (res =? IN3_OK) then mret (res, vc_dont_blacklist vc)
          else if (match jget (vc_result vc) K_TRANSACTION_INDEX with Some t => negb (u32 tx_idx =? u32 (d_int (Some t))) | None => false end) then fail "The transaction index does not match the required"
          else
            rd ← eth_verify_blockheader plugins m place vc (Some header) (d_get_byteskl (vc_result vc) K_BLOCK_HASH 32);
            let '(res, db) := rd in
            if res =? IN3_OK then
              rr ← proved_at vc header;
              res ← (if is_null (vc_result vc) then mret (fst rr) else check_tx vc header (fst rr) (snd rr));
              mret (res, db)
            else mret (res, db)
      end
  end.
End Tx.
