(* ===== verification/TxSafety.v ===== *)
(** * verifier/eth1/basic/eth_getTransaction.c, sign_tx.c: what is signed and what is verified

    [create_unsigned_tx] gives back the transaction that was signed ([signed_tx_roundtrip]), for
    legacy transactions; those of EIP-2930 and EIP-1559 cannot be signed at all
    ([typed_tx_unsigned]).  A transaction that the verifier accepts is in the block of the chain that it
    names, with the hash that was asked for ([transaction_authentic]). *)
From S2P Require Import Prelude Utils Bytes Rlp Merkle Data Json JsonVal ReqState Request ReqFrame ReqSafety Serialize Nano NanoSafety NodeData NodeRegistry AccountProof BasicTx.
From stdpp Require Import strings.
#[local] Open Scope Z_scope.

(** ** Raw transactions in memory *)
Lemma mem_read_prefix m a n x y : mem_read m (mk_slice a n) = x ++ y -> 0 <= n -> mem_read m (mk_slice a (zlen x)) = x.
Proof.
  intros E Hn. apply mem_read_at in E as [El E]; [|done]. cbn [s_data s_len] in *. apply mem_read_at; [cbn; lia|]. split; [done|]. cbn [s_data]. apply mem_at_app in E. by destruct E.
Qed.
Section Raw.
Context `{Allocator} (m : memory).
Lemma list_head l : exists c t, rlp_list l = c :: t /\ 0xc0 <= c.
Proof.
  unfold rlp_list, rlp_header. destruct (Z.ltb_spec (zlen l) 56); cbn [app]; [eexists _, _; split; [done|lia]|]. eexists _, _. split; [done|]. lia.
Qed.
(** The type of a raw transaction, and the list behind it. *)
Lemma raw_type_typed limit raw type l : placed raw -> mem_read m raw = typed type (rlp_list l) -> 0 <= type < limit -> limit <= 0x7f -> zlen l < 2 ^ 31 ->
  raw_type m limit raw = type /\ placed (skip_type type raw) /\ mem_read m (skip_type type raw) = rlp_list l.
Proof.
  intros Hp Hr Ht Hlim Hsz. pose proof Hp as (P1 & P2 & P3). unfold raw_type, skip_type, typed in *. destruct (Z.eqb_spec type 0) as [->|Hne].
  - destruct (list_head l) as (c & t & E & Hc). pose proof (f_equal length Hr) as Hl. rewrite length_mem_read, E in Hl. cbn [length] in Hl. rewrite E in Hr. pose proof (mem_head m raw t c Hr) as ->. rewrite <- E in Hr.
    rewrite (proj2 (Z.ltb_ge c limit)), andb_false_r by lia. done.
  - unfold u8 in Hr. rewrite Z.mod_small in Hr by lia. pose proof (mem_head m raw _ _ Hr) as ->. pose proof (f_equal length Hr) as Hl. rewrite length_mem_read in Hl. cbn [length] in Hl.
    rewrite (proj2 (Z.ltb_lt 0 (s_len raw))), (proj2 (Z.ltb_lt type limit)) by lia. cbn [andb]. split; [done|].
    assert (s_len raw < 2 ^ 32) as Hlt by (unfold rlp_list in Hl; rewrite length_app in Hl; pose proof (rlp_header_length 0xc0 (zlen l)); lia). rewrite u32_small by lia.
    apply mem_read_at in Hr as [El Hm]; [|done]. apply mem_at_cons in Hm as [_ Hm]. cbn [length] in El. split; [split; cbn; lia|]. apply mem_read_at; [cbn; lia|]. cbn [s_data s_len]. split; [lia|done].
Qed.
Lemma dec_list_alias its raw alias : Forall item_ok its -> zlen (enc_items its) < 2 ^ 31 - 5 -> placed raw -> mem_read m raw = rlp_list (enc_items its) ->
  exists node, dec m alias raw 0 = Some (2, Some node) /\ mem_read m node = enc_items its /\ placed node.
Proof.
  intros Hok Hl Hp Hr. assert (enc_items [Lst (enc_items its)] = rlp_list (enc_items its)) as E by (unfold enc_items at 1; cbn [map concat]; apply app_nil_r).
  destruct (dec_nth m [Lst (enc_items its)]) with (node := raw) (alias := alias) (n := 0%nat) (it := Lst (enc_items its)) as (d & ? & ? & ?); rewrite ?E; try done; [| |by exists d].
  - constructor; [|constructor]. split; [by apply enc_items_bytes_ok|cbn; lia].
  - pose proof (zlen_lst_le (enc_items its)). unfold rlp_list. rewrite length_app. pose proof (rlp_header_length 0xc0 (zlen (enc_items its))). lia.
Qed.
(** The items up to the last one that is copied. *)
Lemma items_up_to_spec its node n it d : Forall item_ok its -> zlen (enc_items its) < 2 ^ 31 -> placed node -> mem_read m node = enc_items its -> its !! n = Some it ->
  dec m false node (Z.of_nat n) = Some (item_kind it, Some d) -> items_up_to m node d = enc_items (take (S n) its).
Proof.
  intros Hok Hl Hp Hr Hn Hd. destruct (dec_nth_end m its Hok Hl node false n it Hp Hr Hn) as (d' & Hd' & _ & _ & He). rewrite Hd in Hd'. injection Hd' as <-. unfold items_up_to. rewrite He.
  replace (s_data node + zlen (enc_items (take (S n) its)) - s_data node) with (zlen (enc_items (take (S n) its))) by lia. destruct Hp as (_ & Hp & _).
  apply (mem_read_prefix m _ (s_len node) _ (enc_items (drop (S n) its))); [|done]. rewrite <- enc_items_app, take_drop. by destruct node.
Qed.
(** The number of fields without the signature. *)
Definition body_len (type : Z) : nat := if type =? 1 then 8 else if type =? 2 then 9 else 6.
(** The fields that are signed; EIP-155 adds the chain. *)
Definition chain_items (type chain_id : Z) : list rlp_item := if negb (chain_id =? 0) && (type =? 0) then [Str (optimize_len (be_bytes 4 chain_id)); Str []; Str []] else [].
Lemma rlp_string_size l : zlen (rlp_string l) <= zlen l + 5.
Proof. rewrite rlp_string_unfold, length_app. pose proof (rlp_header_length 0x80 (zlen l)). destruct (_ && _); cbn [length]; lia. Qed.
Lemma encode_three bb c x y z : bb_rep bb c -> zlen c < 2 ^ 31 -> zlen x <= 64 -> zlen y <= 64 -> zlen z <= 64 ->
  exists bb', (bb ← rlp_encode_item bb x; bb ← rlp_encode_item bb y; rlp_encode_item bb z) = Some bb' /\ bb_rep bb' (c ++ enc_items [Str x; Str y; Str z]).
Proof.
  intros R Hc Hx Hy Hz. pose proof (rlp_string_size x). pose proof (rlp_string_size y). destruct (rlp_encode_item_rep bb c x R) as (b1 & -> & R1); [lia|]. cbn [mbind option_bind].
  destruct (rlp_encode_item_rep b1 _ y R1) as (b2 & -> & R2); [rewrite length_app; lia|]. cbn [mbind option_bind]. destruct (rlp_encode_item_rep b2 _ z R2) as (b3 & -> & R3); [rewrite !length_app; lia|].
  exists b3. split; [done|]. unfold enc_items. cbn [map concat enc_item]. rewrite app_nil_r. by rewrite <- !app_assoc in R3.
Qed.
Lemma three_size x y z : zlen (enc_items [Str x; Str y; Str z]) <= zlen x + zlen y + zlen z + 15.
Proof. unfold enc_items. cbn [map concat enc_item]. rewrite app_nil_r, !length_app. pose proof (rlp_string_size x). pose proof (rlp_string_size y). pose proof (rlp_string_size z). lia. Qed.
Lemma create_unsigned_spec raw type body rest chain_id : Forall item_ok (body ++ rest) -> zlen (enc_items (body ++ rest)) < 0xff00 -> 0 <= type <= 2 -> length body = body_len type ->
  placed raw -> mem_read m raw = typed type (rlp_list (enc_items (body ++ rest))) ->
  create_unsigned_tx m raw chain_id = Some (typed type (rlp_list (enc_items (body ++ chain_items type chain_id)))).
Proof.
  intros Hok Hsz Ht Hb Hp Hr. destruct (raw_type_typed 0x7f raw type _ Hp Hr ltac:(lia) ltac:(lia) ltac:(lia)) as (Et & Hps & Hrs). unfold create_unsigned_tx. rewrite Et.
  destruct (dec_list_alias (body ++ rest) (skip_type type raw) true Hok ltac:(lia) Hps Hrs) as (node & -> & Hn & Hpn). cbn [mbind option_bind from_option id].
  assert (exists n, (if type =? 1 then 7 else if type =? 2 then 8 else 5) = Z.of_nat n /\ S n = length body) as (n & -> & En). { rewrite Hb. unfold body_len. destruct (type =? 1); [by exists 7%nat|]. destruct (type =? 2); [by exists 8%nat|by exists 5%nat]. }
  assert (is_Some ((body ++ rest) !! n)) as [it Hit] by (apply lookup_lt_is_Some; rewrite length_app; lia). destruct (dec_nth m (body ++ rest) Hok ltac:(lia) node false n it Hpn Hn Hit) as (d & Ed & _). rewrite Ed. cbn [mbind option_bind].
  rewrite (items_up_to_spec _ _ _ _ _ Hok ltac:(lia) Hpn Hn Hit Ed), En, take_app_length. assert (zlen (enc_items body) <= zlen (enc_items (body ++ rest))) as Hle by (rewrite enc_items_app, length_app; lia).
  destruct (bb_write_raw_bytes_rep bb_null [] (enc_items body)) as (b1 & -> & R1); [done|cbn [length]; lia|]. cbn [mbind option_bind app] in *. unfold chain_items. destruct (negb (chain_id =? 0) && (type =? 0)).
  - assert (length (optimize_len (be_bytes 4 chain_id)) <= 4)%nat as Hl4 by (etrans; [apply optimize_len_length|by rewrite length_be_bytes]).
    destruct (encode_three b1 _ (optimize_len (be_bytes 4 chain_id)) [] [] R1) as (b2 & E2 & R2); [lia|lia|done|done|]. pose proof (three_size (optimize_len (be_bytes 4 chain_id)) [] []) as H3. cbn [length] in H3.
    rewrite enc_items_app. rewrite E2. cbn [mbind option_bind]. apply typed_list_rep; [done|]. rewrite length_app. lia.
  - rewrite app_nil_r. apply typed_list_rep; [done|lia].
Qed.

(** ** Signing *)
Definition sig_items (v : Z) (signature : list Z) : list rlp_item := [Str (optimize_len (be_bytes 4 v)); Str (optimize_len (take 32 signature)); Str (optimize_len (take 32 (drop 32 signature)))].
Definition signed_v (chain_id : Z) (signature : list Z) : Z := 27 + rd signature 64 + (if get_v chain_id =? 0 then 0 else get_v chain_id * 2 + 8).
Lemma sign_legacy_spec raw body rest chain_id signature : Forall item_ok (body ++ rest) -> zlen (enc_items (body ++ rest)) < 0xff00 -> length body = 6%nat -> (exists x, last body = Some (Str x)) ->
  placed raw -> mem_read m raw = rlp_list (enc_items (body ++ rest)) -> 0 <= signed_v chain_id signature < 2 ^ 32 ->
  sign_raw_tx m raw chain_id signature = Some (inr (rlp_list (enc_items (body ++ sig_items (signed_v chain_id signature) signature)))).
Proof.
  intros Hok Hsz Hb (x & Hx) Hp Hr Hv. destruct (raw_type_typed 10 raw 0 _ Hp Hr ltac:(lia) ltac:(lia) ltac:(lia)) as (Et & Hps & Hrs). unfold sign_raw_tx. rewrite Et. change (0 =? 0) with true. change (0 =? 1) with false. cbn iota. fold (signed_v chain_id signature). rewrite u32_small by done.
  destruct (dec_list_alias (body ++ rest) (skip_type 0 raw) false Hok ltac:(lia) Hps Hrs) as (node & -> & Hn & Hpn). cbn [mbind option_bind]. change (2 =? 2) with true. cbn [negb].
  assert ((body ++ rest) !! 5%nat = Some (Str x)) as Hit by (rewrite lookup_app_l by lia; rewrite last_lookup, Hb in Hx; exact Hx).
  destruct (dec_nth m (body ++ rest) Hok ltac:(lia) node false 5 (Str x) Hpn Hn Hit) as (d & Ed & _). change (Z.of_nat 5) with 5 in Ed. rewrite Ed. cbn [mbind option_bind item_kind]. change (1 =? 1) with true. cbn [negb].
  rewrite (items_up_to_spec _ _ 5 _ _ Hok ltac:(lia) Hpn Hn Hit Ed). replace (take 6 (body ++ rest)) with body by (rewrite <- Hb; symmetry; apply take_app_length).
  assert (zlen (enc_items body) <= zlen (enc_items (body ++ rest))) as Hle by (rewrite enc_items_app, length_app; lia). destruct Hps as (_ & Hlr & _). pose proof (f_equal length Hrs) as Hlen. rewrite length_mem_read in Hlen.
  pose proof (rlp_header_length 0xc0 (zlen (enc_items (body ++ rest)))) as Hhl. unfold rlp_list in Hlen. rewrite length_app in Hlen.
  destruct (bb_write_raw_bytes_rep (bb_newl (Z.to_nat (s_len (skip_type 0 raw) + 68))) [] (enc_items body)) as (b1 & -> & R1); [apply bb_newl_rep; lia|cbn [length]; lia|]. cbn [mbind option_bind app] in *.
  assert (forall l, (length l <= 32)%nat -> zlen (optimize_len l) <= 32) as Ho by (intros l Hl; pose proof (optimize_len_length l); lia).
  assert (zlen (optimize_len (take 32 signature)) <= 32) by (apply Ho; rewrite length_take; lia). assert (zlen (optimize_len (take 32 (drop 32 signature))) <= 32) by (apply Ho; rewrite length_take; lia).
  assert (zlen (optimize_len (be_bytes 4 (signed_v chain_id signature))) <= 32) by (apply Ho; rewrite length_be_bytes; lia).
  destruct (encode_three b1 _ (optimize_len (be_bytes 4 (signed_v chain_id signature))) (optimize_len (take 32 signature)) (optimize_len (take 32 (drop 32 signature))) R1) as (b2 & E2 & R2); [lia..|].
  pose proof (three_size (optimize_len (be_bytes 4 (signed_v chain_id signature))) (optimize_len (take 32 signature)) (optimize_len (take 32 (drop 32 signature)))) as H3.
  rewrite enc_items_app. set (three := enc_items (sig_items _ _)). change (enc_items [_; _; _]) with three in R2, H3.
  destruct (rlp_encode_item b1 _) as [b1'|]; [|done]. cbn [mbind option_bind] in *. destruct (rlp_encode_item b1' _) as [b1''|]; [|done]. cbn [mbind option_bind] in *. rewrite E2. cbn [mbind option_bind].
  destruct (rlp_encode_to_list_rep b2 _ R2) as (b3 & -> & R3); [rewrite length_app; lia|]. cbn [mbind option_bind]. rewrite (bb_bytes_rep _ _ R3). done.
Qed.
(** A number without leading zeros, whatever the width it is written in. *)
Lemma number_field n : 0 < n < 2 ^ 32 -> field_bytes UINT (optimize_len (be_bytes 8 n)) = optimize_len (be_bytes 4 n).
Proof.
  intros Hn. unfold field_bytes. change (UINT =? 0) with true. cbn iota.
  assert (forall l, be_val l <> 0 -> strip_zeros l = optimize_len l) as Hs.
  { induction l as [|x l IH]; intros Hv; [done|]. cbn [strip_zeros]. destruct l as [|y l]; [destruct (Z.eqb_spec x 0) as [->|]; [by destruct Hv|done]|]. rewrite optimize_len_cons. destruct (Z.eqb_spec x 0) as [->|]; [|done]. apply IH. by rewrite <- (be_val_zeros 1). }
  assert (forall k l, l <> [] -> optimize_len (replicate k 0 ++ l) = optimize_len l) as Hz. { induction k as [|k IH]; intros l Hl; [done|]. cbn [replicate app]. destruct (replicate k 0 ++ l) as [|y t] eqn:E; [by destruct k, l|]. rewrite optimize_len_cons. cbn [Z.eqb]. rewrite <- E. by apply IH. }
  assert (forall l, optimize_len (optimize_len l) = optimize_len l) as Hi. { induction l as [|x l IH]; [done|]. destruct l as [|y l]; [done|]. rewrite optimize_len_cons. destruct (x =? 0) eqn:E; [done|]. rewrite optimize_len_cons. by rewrite E. }
  assert (be_bytes 8 n = replicate 4 0 ++ be_bytes 4 n) as E8.
  { apply be_val_inj; [apply be_bytes_ok|apply Forall_app; split; [apply Forall_replicate; unfold is_byte; lia|apply be_bytes_ok]|done|]. rewrite be_val_zeros, !be_val_be_bytes, !Z.mod_small; [done|lia|lia]. }
  rewrite Hs, Hi, E8, Hz; [done|intros E0; apply (f_equal length) in E0; by rewrite length_be_bytes in E0|]. rewrite optimize_len_val, be_val_be_bytes, Z.mod_small; lia.
Qed.
Lemma get_v_range chain_id : 0 <= chain_id -> 0 <= get_v chain_id <= 1337.
Proof. intros Hc. unfold get_v. destruct (Z.ltb_spec 0xFF chain_id), (Z.eqb_spec chain_id 1337); cbn [andb negb]; lia. Qed.
(** The chain in [v]. *)
Definition chain_of_v (v : Z) : Z := if 35 <? v then (v - 35) / 2 else 0.
Lemma chain_of_signed chain_id signature : 0 <= chain_id -> 0 <= rd signature 64 <= 1 -> chain_of_v (signed_v chain_id signature) = get_v chain_id.
Proof.
  intros Hc Hr. pose proof (get_v_range chain_id Hc). unfold chain_of_v, signed_v. destruct (Z.eqb_spec (get_v chain_id) 0) as [->|]; [by rewrite (proj2 (Z.ltb_ge _ _)) by lia|].
  rewrite (proj2 (Z.ltb_lt _ _)) by lia. symmetry. apply (Z.div_unique_pos _ _ _ (rd signature 64)); lia.
Qed.
Lemma legacy_fields td chain_id : tx_type td = 0 -> length (tx_body_fields_raw td chain_id) = 6%nat /\ (exists x, last (tx_body_fields_raw td chain_id) = Some (Str x)) /\
  tx_fields_raw td chain_id (get_v chain_id) None None = tx_body_fields_raw td chain_id ++ if get_v chain_id =? 0 then [] else [Str (field_bytes UINT (optimize_len (be_bytes 8 (get_v chain_id)))); Str []; Str []].
Proof. intros Ht. unfold tx_fields_raw, tx_body_fields_raw. rewrite Ht. cbn. split; [done|]. split; [by eexists|]. done. Qed.

Lemma signature_parts signature : length signature = 65%nat -> take 32 signature ++ take 32 (drop 32 signature) ++ [rd signature 64] = signature.
Proof.
  intros Hl. rewrite <- (take_drop 32 signature) at 4. f_equal. rewrite <- (take_drop 32 (drop 32 signature)) at 2. f_equal. rewrite drop_drop. cbn [Nat.add].
  destruct (drop 64 signature) as [|x [|]] eqn:E; apply (f_equal length) in E as El; rewrite length_drop in El; cbn [length] in El; try lia. f_equal. rewrite <- (take_drop 64 signature), E. assert (length (take 64 signature) = 64%nat) as Ht by (rewrite length_take; lia).
  revert Ht. generalize (take 64 signature). intros pre Hp. change 64 with (Z.of_nat 64). rewrite rd_nat, <- Hp. apply nth_middle.
Qed.

(** The items of a signature are strings of at most 32 bytes. *)
Lemma sig_items_ok v signature : bytes_ok signature -> Forall item_ok (sig_items v signature) /\ zlen (enc_items (sig_items v signature)) <= 111.
Proof.
  intros Hsig. assert (forall l, zlen (optimize_len (take 32 l)) <= 32) as Ho by (intros l; pose proof (optimize_len_length (take 32 l)); rewrite length_take in *; lia).
  pose proof (optimize_len_length (be_bytes 4 v)) as H4. rewrite length_be_bytes in H4. pose proof (Ho signature). pose proof (Ho (drop 32 signature)). split.
  - repeat constructor; cbn [item_bytes]; try (apply optimize_len_ok, be_bytes_ok); try (apply optimize_len_ok, Forall_take; by try apply Forall_drop); lia.
  - pose proof (three_size (optimize_len (be_bytes 4 v)) (optimize_len (take 32 signature)) (optimize_len (take 32 (drop 32 signature)))) as H3. unfold sig_items. lia.
Qed.
Lemma fill_optimized l : bytes_ok l -> length l = 32%nat -> fill_left 32 (optimize_len l) = l.
Proof.
  intros Hl H32. pose proof (optimize_len_length l). apply be_val_inj; [apply fill_left_ok; by apply optimize_len_ok|done|rewrite fill_left_length; lia|]. by rewrite fill_left_val, optimize_len_val.
Qed.
End Raw.
Section Signed.
Context `{Allocator} (m : memory).
(** C25. What is verified is what was signed: for a legacy transaction, in which EIP-155 puts the chain if its
    number is one of Ethereum, the signer gets the serialised transaction without signature and puts
    [v], [r] and [s] into it.  From the signed transaction the verifier gets back, byte for byte, the
    data that was signed; its last three items are strings, and a result of a node that has their values as [v], [r] and [s]
    has the chain, and its signature is the one that was put in, with the recovery id.  The fields are of less than 65024 bytes together. *)
Theorem signed_tx_roundtrip td chain_id signature raw unsigned :
  tx_type td = 0 -> 0 <= chain_id -> Forall item_ok (tx_fields_raw td chain_id (get_v chain_id) None None) -> zlen (enc_items (tx_fields_raw td chain_id (get_v chain_id) None None)) < 0xfe00 ->
  bytes_ok signature -> length signature = 65%nat -> 0 <= rd signature 64 <= 1 -> access_ok (tx_access_list td) ->
  serialize_tx_raw td chain_id (get_v chain_id) None None = Some unsigned -> placed raw -> mem_read m raw = unsigned ->
  exists signed, sign_raw_tx m raw chain_id signature = Some (inr signed) /\
    (forall m' raw', placed raw' -> mem_read m' raw' = signed -> create_unsigned_tx m' raw' (get_v chain_id) = Some unsigned) /\
    (forall m' raw', placed raw' -> mem_read m' raw' = signed -> exists node v r s, dec m' false raw' 0 = Some (2, Some node) /\
       dec m' false node 6 = Some (1, Some v) /\ dec m' false node 7 = Some (1, Some r) /\ dec m' false node 8 = Some (1, Some s) /\
       forall tx, d_int (jget tx K_V) = be_val (mem_read m' v) -> jget tx K_CHAIN_ID = None -> tx_chain_id tx = get_v chain_id /\ sdata 0 tx (mem_read m' r) (mem_read m' s) = signature).
Proof.
  intros Ht Hc Hok Hsz Hsig Hl65 Hrd Hacc Eu Hp Hr. destruct (legacy_fields td chain_id Ht) as (Hb & Hlast & Ef). rewrite (serialize_tx_raw_spec td chain_id (get_v chain_id) None None Hacc ltac:(eapply Z.lt_trans; [exact Hsz|done])) in Eu. injection Eu as Eu. rewrite Ht in Eu. change (typed 0 ?l) with l in Eu. rewrite Ef in *. subst unsigned.
  pose proof (get_v_range chain_id Hc) as Hv. assert (0 <= signed_v chain_id signature < 2 ^ 32) as Hsv by (unfold signed_v; destruct (_ =? 0); lia).
  eexists. split; [by eapply sign_legacy_spec; try done; lia|]. set (body := tx_body_fields_raw td chain_id) in *. apply Forall_app in Hok as [Hokb _]. rewrite enc_items_app, length_app in Hsz.
  destruct (sig_items_ok (signed_v chain_id signature) signature Hsig) as [Hoks Hssz]. assert (Forall item_ok (body ++ sig_items (signed_v chain_id signature) signature)) as Hoka by (by apply Forall_app).
  assert (zlen (enc_items (body ++ sig_items (signed_v chain_id signature) signature)) < 0xff00) as Hsza by (rewrite enc_items_app, length_app; lia). split.
  - intros m' raw' Hp' Hr'. rewrite (create_unsigned_spec m' raw' 0 body (sig_items (signed_v chain_id signature) signature) (get_v chain_id)); [|done|done|lia|done|done|done].
    unfold chain_items. change (typed 0 ?l) with l. destruct (Z.eqb_spec (get_v chain_id) 0) as [->|]; [done|]. cbn [negb andb Z.eqb]. by rewrite number_field by lia.
  - intros m' raw' Hp' Hr'. destruct (dec_list_alias m' _ raw' false Hoka ltac:(lia) Hp' Hr') as (node & En & Hn & Hpn). exists node.
    assert (forall k x, sig_items (signed_v chain_id signature) signature !! k = Some (Str x) -> exists d, dec m' false node (Z.of_nat (6 + k)) = Some (1, Some d) /\ mem_read m' d = x) as Hdec.
    { intros k x Hk. destruct (dec_nth m' _ Hoka ltac:(lia) node false (6 + k) (Str x) Hpn Hn) as (d & Ed & Rd & _); [rewrite lookup_app_r by lia; by rewrite Hb, Nat.add_sub_swap, Nat.sub_diag by lia|]. by exists d. }
    destruct (Hdec 0%nat _ eq_refl) as (v & E6 & Rv), (Hdec 1%nat _ eq_refl) as (r & E7 & Rr), (Hdec 2%nat _ eq_refl) as (s & E8 & Rs). exists v, r, s. split_and!; [done..|]. rewrite Rv, Rr, Rs, optimize_len_val, be_val_be_bytes, Z.mod_small by (cbn; lia).
    intros tx Ev Ech. assert (tx_v tx = signed_v chain_id signature) as Etv by (unfold tx_v; rewrite Ev; apply u32_small; lia).
    assert (tx_chain_id tx = get_v chain_id) as Etc by (unfold tx_chain_id; rewrite Ech, Etv; by apply chain_of_signed). split; [done|]. unfold sdata, plain_v. rewrite Etc, Etv. change (0 =? 0) with true. cbn iota.
    assert ((if get_v chain_id =? 0 then signed_v chain_id signature else signed_v chain_id signature - get_v chain_id * 2 - 8) - 27 = rd signature 64) as -> by (unfold signed_v; destruct (_ =? 0); lia).
    rewrite u32_small by lia. unfold u8. rewrite Z.mod_small by lia. rewrite !fill_optimized; [by apply signature_parts|by apply Forall_take, Forall_drop|rewrite length_take, length_drop; lia|by apply Forall_take|rewrite length_take; lia].
Qed.

(** Transactions with an access list (EIP-2930) and with a fee market (EIP-1559) cannot be sent: putting
    a signature into the serialised transaction always ends with an error, since the last field is
    looked for in the wrong place. *)
Theorem typed_tx_unsigned td chain_id signature raw unsigned :
  tx_type td = 1 \/ tx_type td = 2 -> Forall item_ok (tx_fields_raw td chain_id 0 None None) -> zlen (enc_items (tx_fields_raw td chain_id 0 None None)) < 0x10000 -> access_ok (tx_access_list td) ->
  serialize_tx_raw td chain_id 0 None None = Some unsigned -> placed raw -> mem_read m raw = unsigned -> sign_raw_tx m raw chain_id signature = Some (inl IN3_EINVAL).
Proof.
  intros Ht Hok Hsz Hacc Eu Hp Hr. rewrite (serialize_tx_raw_spec td chain_id 0 None None Hacc Hsz) in Eu. injection Eu as <-.
  destruct (raw_type_typed m 10 raw (tx_type td) _ Hp Hr ltac:(lia) ltac:(lia) ltac:(lia)) as (Et & Hps & Hrs). unfold sign_raw_tx. rewrite Et.
  destruct (dec_list_alias m _ (skip_type (tx_type td) raw) false Hok ltac:(lia) Hps Hrs) as (node & -> & Hn & Hpn). cbn [mbind option_bind]. change (2 =? 2) with true. cbn [negb].
  destruct Ht as [Ht|Ht]; rewrite Ht; cbn [Z.eqb Pos.eqb].
  - rewrite (dec_none m _ Hok ltac:(lia) node false 8 Hpn Hn); [done|]. unfold tx_fields_raw, tx_body_fields_raw. rewrite Ht. done.
  - destruct (dec_nth m _ Hok ltac:(lia) node false 5 (Str (field_bytes ADDRESS (default [] (tx_to td)))) Hpn Hn) as (d & Ed & _); [unfold tx_fields_raw, tx_body_fields_raw; by rewrite Ht|]. change (Z.of_nat 5) with 5 in Ed. by rewrite Ed.
Qed.
End Signed.

(** ** What the verifier checks *)
Section Verifier.
Context `{SourceText} `{Keccak} `{Allocator} `{Ecdsa} {W : Type} (plugins : list (in3_plugin_t W)) (m : memory) (place : list Z -> slice).
Context (asked_signers : list (list Z) -> Prop) (valid : list (list Z) -> in3_vctx_t -> Prop).
Context (Hplugins : Forall (plugin_contract (RI := nano_inv asked_signers) valid) plugins).
#[local] Abbreviation nwp := (wp (RI := nano_inv asked_signers)).
#[local] Existing Instance kept_preorder.
Implicit Types (s : state W) (vc : in3_vctx_t).
#[local] Abbreviation failed := (fail_judged plugins asked_signers valid Hplugins).

(** The sender, as far as the transaction has one, is the one of the key with which the rest was signed. *)
Definition sender_checked (tx : option jval) (raw : slice) : Prop :=
  exists rv sv unsigned pubkey, d_get_byteskl tx K_R 32 = Some rv /\ d_get_byteskl tx K_S 32 = Some sv /\ create_unsigned_tx m raw (tx_chain_id tx) = Some unsigned /\
    crypto_recover (keccak unsigned) (sdata (raw_type m 0x7f raw) tx rv sv) = Some pubkey /\ forall t, d_getl tx K_FROM 20 = Some t -> take 20 (default [] (d_bytes (Some t))) = drop 12 (keccak pubkey).
Lemma ok_judged (P : Prop) s : P -> nwp (mret IN3_OK) (judged P s) s.
Proof. intros HP. wp_run. split; [reflexivity|]. split; [by left|done]. Qed.
Lemma check_fields_spec tx raw s : nwp (check_tx_fields plugins m place tx raw) (judged True s) s.
Proof. unfold check_tx_fields. apply wp_bind, wp_defined. intros hash _. repeat (destruct (negb (_ =? 0)) || case_match; try by apply failed). all: try (by apply ok_judged). Qed.
Lemma differs_false n a b : differs n a b = Some false -> take n a = take n b.
Proof.
  unfold differs. intros (x & Ex & (y & Ey & [= E])%bind_Some)%bind_Some. pose proof (read_at_length _ _ _ _ Ex). pose proof (read_at_length _ _ _ _ Ey). unfold read_at in *. destruct (_ <=? _)%nat; [|done]. destruct (_ <=? _)%nat; [|done].
  rewrite drop_0 in *. injection Ex as <-. injection Ey as <-. apply negb_false_iff, Z.eqb_eq in E. apply memcmp_0 in E; [done|congruence].
Qed.
Lemma tx_values_spec tx raw s : nwp (eth_verify_tx_values plugins m place tx (Some raw)) (judged (sender_checked tx raw) s) s.
Proof.
  unfold eth_verify_tx_values. apply wp_bind. eapply wp_mono; [apply check_fields_spec|]. intros e s1 (Hk & He & _). destruct (Z.eqb_spec e IN3_OK) as [->|]; cbn [negb]; [|wp_run; by split].
  destruct (d_get_byteskl tx K_S 32) as [sv|] eqn:Es; [|by apply failed]. destruct (_ || _); [by apply failed|]. destruct (d_get_byteskl tx K_R 32) as [rv|] eqn:Er; [|by apply failed]. destruct (64 <? _)%nat; [by apply failed|].
  apply wp_bind, wp_defined. intros unsigned Eu. cbn [raw_of from_option id] in Eu. destruct (crypto_recover _ _) as [pubkey|] eqn:Ec; [|by apply failed]. apply wp_bind, wp_defined. intros [] _; [by apply failed|]. apply wp_bind, wp_defined. intros [] Ew; [by apply failed|].
  wp_run. split; [done|]. split; [by left|]. intros _. exists rv, sv, unsigned, pubkey. split_and!; try done. intros t Et. unfold wrong_from in Ew. rewrite Et in Ew. apply differs_false in Ew. rewrite <- Ew. apply take_ge. rewrite length_drop, keccak_length. done.
Qed.
(** The transaction of the result: proved below the root of the header, serialised as it was proved. *)
Definition position_checked vc header : Prop := d_eq (jget (vc_result vc) K_TRANSACTION_INDEX) (jget (vc_proof vc) K_TX_INDEX) = true /\ number_is m place vc header.
Definition tx_checked vc header (raw : slice) : Prop := sender_checked (vc_result vc) raw /\ position_checked vc header /\ serialize_tx (vc_result vc) = Some (mem_read m raw).
Lemma if_ok_judged (P Q : Prop) (k : M (state W) Z) e s s1 : judged P s e s1 -> (P -> nwp k (judged Q s1) s1) -> nwp (if_ok e k) (judged (P /\ Q) s) s1.
Proof. apply (then_judged (W := W)). Qed.
Lemma position_spec vc header s : nwp (check_tx_position plugins m place vc header) (judged (position_checked vc header) s) s.
Proof.
  unfold check_tx_position. destruct (d_eq _ _) eqn:Ed; cbn [negb]; [|by apply failed]. apply wp_bind. eapply wp_mono; [apply header_item_spec|]. intros [d|] ? [-> Hd]; [|by apply failed].
  destruct (Z.eqb_spec (d_long (jget (vc_result vc) K_BLOCK_NUMBER)) (slice_number m d)) as [En|]; cbn [negb]; [|by apply failed]. apply ok_judged. split; [done|]. exists d. auto.
Qed.
Lemma check_tx_spec (P : Prop) vc header res raw s s1 : judged P s res s1 -> nwp (check_tx plugins m place vc header res raw) (judged (P /\ tx_checked vc header raw) s) s1.
Proof.
  intros Hj. unfold check_tx. apply wp_bind. eapply wp_mono; [eapply if_ok_judged; [exact Hj|]; intros _; apply tx_values_spec|]. intros e2 s2 Hj2. cbn beta in Hj2.
  apply wp_bind. eapply wp_mono; [eapply if_ok_judged; [exact Hj2|]; intros _; apply position_spec|]. intros e3 s3 Hj3. cbn beta in Hj3. apply wp_bind, wp_defined. intros data Ed.
  eapply wp_mono; [eapply (if_ok_judged _ (data = mem_read m raw)); [exact Hj3|]; intros _; case_bool_decide; cbn [negb]; [by apply ok_judged|by apply failed]|]. intros e4 s4 (Hk & He & HP). split; [done|]. split; [done|]. intros E. destruct (HP E) as (((Hp & Hs) & Hpos) & Eraw). split; [done|]. split_and!; [done..|]. by rewrite Ed, Eraw.
Qed.
Definition raw_proved vc header tx_hash raw : Prop := exists path root, create_tx_path (u32 (d_int (jget (vc_proof vc) K_TX_INDEX))) = Some path /\ item_at m place header BLOCKHEADER_TRANSACTIONS_ROOT root /\
  proved_in m place root path (jget (vc_proof vc) K_MERKLE_PROOF) EAny (Some raw) /\ keccak (mem_read m raw) = tx_hash.
Lemma fail_with {A} (f : Z -> A) msg (Q : A -> state W -> Prop) s : (forall s', kept s s' -> Q (f IN3_EUNKNOWN) s') -> nwp (e ← vc_err plugins msg; mret (f e)) Q s.
Proof. intros HQ. apply wp_bind. eapply wp_mono; [by apply (vc_err_spec plugins asked_signers valid Hplugins)|]. intros e s1 [-> Hk]. apply wp_ret. auto. Qed.
Lemma proved_tx_spec vc header tx_hash s : length tx_hash = 32%nat -> nwp (proved_tx plugins m place vc header tx_hash) (fun r s' => judged (raw_proved vc header tx_hash r.2) s r.1 s') s.
Proof.
  intros Hl. unfold proved_tx. apply wp_bind, wp_defined. intros path Ep. apply wp_bind. eapply wp_mono; [apply header_item_spec|].
  assert (forall (x : slice) msg, nwp (e ← vc_err plugins msg; mret (e, x)) (fun r s' => judged (raw_proved vc header tx_hash r.2) s r.1 s') s) as Hf by (intros x msg; apply (fail_with (fun e => (e, x))); intros s' Hk; split; [done|]; split; [by right|done]).
  intros [root|] ? [-> Hd]; [|apply Hf]. apply wp_bind. eapply wp_mono; [apply verify_merkle_spec|]. intros [[] [raw|]] ? [-> Hp]; cbn [fst snd] in *; try apply Hf.
  destruct (Z.eqb_spec (memcmp (keccak (mem_read m raw)) tx_hash) 0) as [E|]; cbn [negb]; [|apply Hf]. apply memcmp_0 in E; [|by rewrite keccak_length]. wp_run. split; [reflexivity|]. split; [by left|]. intros _. exists path, root. auto.
Qed.
Definition tx_proved ss vc (tx_hash : list Z) : Prop := length tx_hash = 32%nat /\ exists header raw, d_bytes (jget (vc_proof vc) K_BLOCK) = Some header /\
  header_checked m place asked_signers ss header (d_get_byteskl (vc_result vc) K_BLOCK_HASH 32) /\ raw_proved vc header tx_hash raw /\ tx_checked vc header raw.
Lemma getTransaction_spec vc tx_hash s : nwp (eth_verify_eth_getTransaction plugins m place vc tx_hash)
  (fun r s' => kept s s' /\ ok_or_unknown r.1 /\ (r.1 = IN3_OK -> exists h, tx_hash = Some h /\ tx_proved (signers (self s)) vc h)) s.
Proof.
  set (Q := fun (r : Z * bool) s' => kept s s' /\ _). assert (forall msg, nwp (e ← vc_err plugins msg; mret (e, vc_dont_blacklist vc)) Q s) as Hf by (intros msg; apply (fail_with (fun e => (e, vc_dont_blacklist vc))); intros s' Hk; split; [done|]; split; [by right|done]).
  unfold eth_verify_eth_getTransaction. destruct tx_hash as [h|]; [|apply Hf]. destruct (Nat.eqb_spec (length h) 32) as [Hl|]; cbn [negb]; [|apply Hf]. destruct (vc_proof vc) as [proof|] eqn:Ep; [|apply Hf]. destruct (d_bytes (jget (Some proof) K_BLOCK)) as [header|] eqn:Eh; [|apply Hf].
  apply wp_bind. eapply wp_mono; [by apply (eth_verify_blockheader_spec plugins m place asked_signers valid Hplugins)|]. intros [e db] s1 (Hk & He & Hhd). cbn [fst] in *. destruct (Z.eqb_spec e IN3_OK) as [->|]; [|wp_run; split; [done|]; by split].
  destruct (Hhd eq_refl) as (hd & [= <-] & Hc). apply wp_bind. eapply wp_mono; [by apply proved_tx_spec|]. intros [e2 raw] s2 Hj. cbn [fst snd] in *. apply wp_bind. eapply wp_mono; [eapply check_tx_spec; exact Hj|]. intros e3 s3 (Hk3 & He3 & HP). wp_run. split; [by etrans|]. split; [done|]. cbn [fst].
  intros E. destruct (HP E) as [Hr Ht]. exists h. split; [done|]. split; [done|]. exists header, raw. rewrite Ep. done.
Qed.
End Verifier.

(** ** Transactions of the chain *)
Section Authentic.
Context `{Keccak} `{Allocator} `{Ecdsa} (m : memory) (place : list Z -> slice) (asked_signers : list (list Z) -> Prop) (chain : Z -> option NanoSafety.block).
(** The proof of the response lies in memory and contains no collision with the block and its transactions. *)
Definition tx_fair (vc : in3_vctx_t) (b : NanoSafety.block) : Prop :=
  (forall header, d_bytes (jget (vc_proof vc) K_BLOCK) = Some header -> in_memory m place header /\ (keccak header = keccak (b_header b) -> header = b_header b)) /\
  nodes_fair m place (jget (vc_proof vc) K_MERKLE_PROOF) (b_txs b).

(** C8. A transaction that [eth_verify_eth_getTransaction] accepts is authentic.  Let the plugins keep their
    contract ([plugin_contract]) and the client ask for proofs.  Assume that the request asks for signatures,
    that each set of signers the client asks contains an
    honest one, and that the proof contains no hash collision with the blocks of the chain, whose tries of transactions have no node of less than 32 bytes.  Then the
    result of eth_getTransactionByHash, serialised, is the transaction with the requested hash, at
    the index of the result in the block with the number of the result (other than the genesis
    block; and not of 32 bytes, which a reference in the trie could be taken for), and its sender,
    if it is given, is the address of the key that is recovered from its signature. *)
Theorem transaction_authentic `{SourceText} {W : Type} (plugins : list (in3_plugin_t W)) valid vc tx_hash s db s' :
  Forall (plugin_contract (RI := nano_inv asked_signers) valid) plugins -> state_inv (RI := nano_inv asked_signers) s ->
  eth_verify_eth_getTransaction plugins m place vc (Some tx_hash) s = Ok (IN3_OK, db) s' ->
  (forall sgs, asked_signers sgs -> exists a, a ∈ sgs /\ honest chain a) -> (forall n b, chain n = Some b -> header_ok b /\ root_is b BLOCKHEADER_TRANSACTIONS_ROOT (b_txs b) /\ tx_fair vc b) ->
  signers (self s) <> [] -> d_long (jget (vc_result vc) K_BLOCK_NUMBER) <> 0 -> (forall tx, keccak tx = tx_hash -> tx <> [] /\ length tx <> 32%nat) ->
  exists b raw tx, chain (u64 (d_long (jget (vc_result vc) K_BLOCK_NUMBER))) = Some b /\ mem_read m raw = tx /\ serialize_tx (vc_result vc) = Some tx /\ keccak tx = tx_hash /\
    has_value (b_txs b) (nibs (index_key (u32 (d_int (jget (vc_proof vc) K_TX_INDEX))))) tx /\ d_eq (jget (vc_result vc) K_TRANSACTION_INDEX) (jget (vc_proof vc) K_TX_INDEX) = true /\ sender_checked m (vc_result vc) raw.
Proof.
  intros Hpl Hi E Hhon Hchain Hss Hnum Htx. destruct (wp_ok _ _ _ _ _ (getTransaction_spec plugins m place asked_signers valid Hpl vc (Some tx_hash) s) Hi E) as (_ & _ & HP).
  destruct (HP eq_refl) as (? & [= <-] & Hl & header & raw & Eh & Hh & (path & root & Ep & Hri & Hp & Ek) & Hsend & (Hidx & d & Hd & En) & Hser). clear HP.
  destruct (checked_block m place _ _ _ _ _ _ Hhon Hss Hh Hd) as (b & Hb & Ekb); [by rewrite En|]. rewrite En in Hb. destruct (Hchain _ _ Hb) as (Hok & Hroot & Hfh & Hft). destruct (Hfh header Eh) as [Hmem Heq]. specialize (Heq (eq_sym Ekb)).
  destruct (create_tx_path_spec (u32 (d_int (jget (vc_proof vc) K_TX_INDEX)))) as [Ep' Hbp]. rewrite Ep in Ep'. injection Ep' as ->. destruct (Htx _ Ek) as [Hne H32]. exists b, raw, (mem_read m raw). split_and!; try done.
  eapply (proved_has m place b _ (b_txs b) root); try done. right. eauto.
Qed.
End Authentic.

(** ** A block with one transaction

    The hash is a checksum, except for the message of the signer and for the transaction. *)
Module TxSample.
#[local] Existing Instance no_text.
#[local] Existing Instance debug_allocator.
Definition sum (l : list Z) : list Z := 3 :: be_bytes 31 (fold_left (fun acc b => (acc * 257 + b + 1) mod 2 ^ 248) l 1).
Definition signature : list Z := replicate 32 1 ++ replicate 32 2 ++ [1].
Definition td : eth_tx_data_t := mk_tx 0 (Some [0x52; 0x08]) (Some (replicate 20 4)) (Some [9]) (Some [1; 2; 3]) (Some [5]) (Some [7]) None None None.
Definition unsigned : list Z := Eval vm_compute in default [] (serialize_tx_raw td 1 (get_v 1) None None).
Definition mem0 : memory := mem_of unsigned.
Definition raw0 : slice := Eval vm_compute in mk_slice 0 (zlen unsigned).
Definition tx_bytes : list Z := Eval vm_compute in match sign_raw_tx mem0 raw0 1 signature with Some (inr l) => l | _ => [] end.
Definition typed_td (type : Z) : eth_tx_data_t := mk_tx type (Some [0x52; 0x08]) (Some (replicate 20 4)) (Some [9]) (Some [1; 2; 3]) (Some [5]) (Some [7]) (Some [8]) (Some [2]) None.
Definition typed_bytes : list Z := Eval vm_compute in default [] (serialize_tx_raw (typed_td 2) 1 0 None None).
Definition tx_hash : list Z := 2 :: replicate 31 0.
Definition msg_hash : list Z := 1 :: replicate 31 0.
Definition key0 : list Z := [8; 0].
Definition tx_node : list Z := Eval vm_compute in rlp_list (enc_items [Str (hex_prefix key0 true); Str tx_bytes]).
Definition items : list rlp_item := [Str []; Str []; Str []; Str []; Str (sum tx_node); Str []; Str []; Str []; Str [5]; Str []; Str []; Str []; Str []; Str []; Str []].
Definition header : list Z := Eval vm_compute in rlp_list (enc_items items).
Definition registry_id : list Z := replicate 32 9.
Definition message : list Z := Eval vm_compute in signed_message 2 (sum header) 5 registry_id.
#[local] Instance hash : Keccak.
Proof.
  refine {| keccak l := if bool_decide (l = message) then msg_hash else if bool_decide (l = tx_bytes) then tx_hash else sum l |}.
  - intros l. repeat case_bool_decide; [done..|]. unfold sum. cbn [length]. by rewrite length_be_bytes.
  - intros l. repeat case_bool_decide; [decide_now..|]. constructor; [unfold is_byte; lia|apply be_bytes_ok].
Defined.
(** The key of the node, and the key of the sender. *)
#[local] Instance ecdsa : Ecdsa := {| crypto_recover h sg := if bool_decide (h = msg_hash) then Some (replicate 64 5) else if bool_decide (h = keccak unsigned /\ sg = signature) then Some (replicate 64 6) else None |}.
Definition signer : list Z := Eval vm_compute in take 20 (drop 12 (keccak (replicate 64 5))).
Definition sender : list Z := Eval vm_compute in drop 12 (keccak (replicate 64 6)).
Definition asked (sgs : list (list Z)) : Prop := sgs = [signer].
Definition blocks : list (list Z) := [header; tx_node].
Definition mem : memory := mem_of (concat blocks).
Definition place : list Z -> slice := place_in blocks 0.
Definition blk : NanoSafety.block := mk_block items (Leaf key0 tx_bytes) Merkle.Empty.
Definition chain (n : Z) : option NanoSafety.block := if n =? 5 then Some blk else None.
Definition sig : jval := JObject [(K_BLOCK, JInt 5); (K_BLOCK_HASH, JBytes (sum header)); (K_R, JBytes (replicate 32 1)); (K_S, JBytes (replicate 32 2)); (K_V, JInt 27)].
Definition proof : jval := JObject [(K_BLOCK, JBytes header); (K_TX_INDEX, JInt 0); (K_MERKLE_PROOF, JArray [JBytes tx_node]); (K_SIGNATURES, JArray [sig])].
Definition result : jval :=
  JObject [(K_BLOCK_NUMBER, JInt 5); (K_BLOCK_HASH, JBytes (sum header)); (K_TRANSACTION_INDEX, JInt 0); (K_HASH, JBytes tx_hash); (K_NONCE, JInt 5); (K_GAS_PRICE, JInt 7); (K_GAS, JInt 21000);
           (K_TO, JBytes (replicate 20 4)); (K_VALUE, JInt 9); (K_INPUT, JBytes [1; 2; 3]); (K_V, JInt 38); (K_R, JBytes (replicate 32 1)); (K_S, JBytes (replicate 32 2)); (K_FROM, JBytes sender)].
Definition eth : in3_chain_t := mk_chain 1 CHAIN_ETH 2 None.
Definition request : jval := JObject [(K_METHOD, JString (str "eth_getTransactionByHash")); (K_PARAMS, JArray [JBytes tx_hash])].
Definition vc : in3_vctx_t := mk_vctx eth request (Some result) (Some proof) (Some 0) (Some 6) 0 (Some (str "eth_getTransactionByHash")) node1 false.
Definition before : state unit := mk_state (mk_req 1 RT_RPC 0 IN3_WAITING None None (Some []) Null Null (Some []) [signer] [node1] []) [] (mk_client [eth] 5 0 PROOF_STANDARD 0 0 1 0 0 0) tt.
Lemma tx_accepted : exists s', eth_verify_eth_getTransaction [answering registry_id] mem place vc (Some tx_hash) before = Ok (IN3_OK, false) s'.
Proof. eexists. vm_compute. reflexivity. Qed.
Lemma tx_only_message l : keccak l = msg_hash -> l = message.
Proof. cbn [keccak hash]. repeat case_bool_decide; done. Qed.
Lemma tx_only_hash l : keccak l = tx_hash -> l = tx_bytes.
Proof. cbn [keccak hash]. repeat case_bool_decide; done. Qed.
Lemma tx_signer : honest chain signer.
Proof.
  apply (honest_of_message chain signer msg_hash blk 5 registry_id); [|intros l ->%tx_only_message; vm_compute; reflexivity|done].
  intros h sg pub E Ha. cbn [crypto_recover ecdsa] in E. case_bool_decide as E1; [done|]. case_bool_decide; [|done]. injection E as <-. exfalso. vm_compute in Ha. done.
Qed.
Lemma tx_before_ok : state_inv (RI := nano_inv asked) before.
Proof. split; [|split; [by right|constructor]]. split; [|done]. constructor; [done|constructor]. Qed.
Lemma tx_in_memory l : l ∈ blocks -> in_memory mem place l.
Proof. apply placed_in. vm_compute. reflexivity. Qed.
Lemma tx_proof_fair : tx_fair mem place vc blk.
Proof.
  split; [intros h [= <-]; split; [apply tx_in_memory; left|intros _; vm_compute; reflexivity]|].
  apply (proof_nodes_fair mem place _ [tx_node]), Forall_singleton. split; [apply tx_in_memory; right; left|apply (trie_no_collision _ [tx_node]); [vm_compute; reflexivity..|left]].
Qed.
End TxSample.

Lemma signed_tx_roundtrip_witness : exists signed, @sign_raw_tx debug_allocator TxSample.mem0 TxSample.raw0 1 TxSample.signature = Some (inr signed) /\
  (forall m' raw', placed raw' -> mem_read m' raw' = signed -> @create_unsigned_tx debug_allocator m' raw' 1 = Some TxSample.unsigned).
Proof.
  destruct (@signed_tx_roundtrip debug_allocator TxSample.mem0 TxSample.td 1 TxSample.signature TxSample.raw0 TxSample.unsigned) as (signed & Es & Hu & _);
    [done|done|decide_now|by vm_compute|decide_now|done|by vm_compute|split; [by eexists|constructor]|by vm_compute|repeat split; by vm_compute|by vm_compute|exists signed; split; [exact Es|exact Hu]].
Defined.
Lemma typed_tx_unsigned_witness : @sign_raw_tx debug_allocator (mem_of TxSample.typed_bytes) (mk_slice 0 (zlen TxSample.typed_bytes)) 1 TxSample.signature = Some (inl IN3_EINVAL).
Proof.
  apply (@typed_tx_unsigned debug_allocator _ (TxSample.typed_td 2) 1 TxSample.signature _ TxSample.typed_bytes); [by right|decide_now|by vm_compute|split; [by eexists|constructor]|by vm_compute|repeat split; by vm_compute|by vm_compute].
Defined.
Lemma transaction_authentic_witness : has_value (b_txs TxSample.blk) TxSample.key0 TxSample.tx_bytes.
Proof.
  destruct TxSample.tx_accepted as [s' E].
  destruct (@transaction_authentic TxSample.hash debug_allocator TxSample.ecdsa TxSample.mem TxSample.place TxSample.asked TxSample.chain no_text unit [answering TxSample.registry_id] (fun _ _ => True) TxSample.vc TxSample.tx_hash TxSample.before false s') as (b & raw & tx & Hb & _ & _ & Ek & Hv & _).
  - apply answering_plugins.
  - apply TxSample.tx_before_ok.
  - exact E.
  - intros sgs ->. exists TxSample.signer. split; [by left|apply TxSample.tx_signer].
  - intros n b Hn. unfold TxSample.chain in Hn. destruct (n =? 5); [|done]. injection Hn as <-. split; [split; [decide_now|by vm_compute]|]. split; [split; vm_compute; reflexivity|apply TxSample.tx_proof_fair].
  - discriminate.
  - vm_compute. discriminate.
  - intros tx ->%TxSample.tx_only_hash. split; discriminate.
  - apply TxSample.tx_only_hash in Ek as ->. injection Hb as <-. exact Hv.
Defined.
