(* ===== verification/Trie.v ===== *)
(** * verifier/eth1/basic/trie.c: building a Merkle Patricia trie

    The nodes of a [trie_t] are a linked list on the heap: [t_nodes] are their addresses, the latest first,
    and [t_heap] has all nodes that were allocated, [None] for those that were freed.  A node keeps
    its encoding in [tn_data], changed in place by [trie_node_set_item], with the items of the
    list as a part of it; nodes find each other by the hash that [update_db] gave them. *)
From S2P Require Import Prelude Utils Bytes Rlp Merkle BasicTx Serialize.
#[local] Open Scope Z_scope.

Inductive trie_node_type_t := NODE_EMPTY | NODE_BRANCH | NODE_LEAF | NODE_EXT.
(** The type is not set for a list of another length than 0, 2 and 17. *)
Record trie_node_t := mk_tnode { tn_hash : list Z; tn_data : list Z; tn_items : slice; tn_own : bool; tn_type : option trie_node_type_t }.
Record trie_t := mk_trie { t_root : list Z; t_nodes : list nat; t_heap : list (option trie_node_t) }.
(** [node_key_t] has a hash or a node. *)
Inductive node_key_t := hash_key (hash : list Z) | node_key (node : option nat).

Definition with_root (r : list Z) (t : trie_t) : trie_t := mk_trie r (t_nodes t) (t_heap t).
Definition with_nodes (l : list nat) (t : trie_t) : trie_t := mk_trie (t_root t) l (t_heap t).
Definition with_heap (h : list (option trie_node_t)) (t : trie_t) : trie_t := mk_trie (t_root t) (t_nodes t) h.
Definition with_hash (h : list Z) (n : trie_node_t) : trie_node_t := mk_tnode h (tn_data n) (tn_items n) (tn_own n) (tn_type n).
Definition with_type (ty : trie_node_type_t) (n : trie_node_t) : trie_node_t := mk_tnode (tn_hash n) (tn_data n) (tn_items n) (tn_own n) (Some ty).

(** ** Nodes on the heap *)
Definition node_at (n : nat) : M trie_t trie_node_t := h ← gets t_heap; o ← defined (h !! n); defined o.
Definition put_node (n : nat) (x : trie_node_t) : M trie_t unit := h ← gets t_heap; modify (with_heap (<[n := Some x]> h)).
Definition alloc_node (x : trie_node_t) : M trie_t nat := h ← gets t_heap; _ ← modify (with_heap (h ++ [Some x])); mret (length h).
(** A node whose hash is set stays, since it is in the list. *)
Definition free_node (n : nat) : M trie_t unit :=
  x ← node_at n;
  if tn_own x && existsb (fun b => negb (b =? 0)) (tn_hash x) then mret tt
  else h ← gets t_heap; modify (with_heap (<[n := None]> h)).

(** ** Items of a node *)
Definition read_slice (data : list Z) (d : slice) : option (list Z) := read_at data (Z.to_nat (s_data d)) (Z.to_nat (s_len d)).
Definition node_item (x : trie_node_t) (index : Z) : option (Z * option slice) := dec (mem_of (tn_data x)) false (tn_items x) index.
Definition trie_node_get_item (x : trie_node_t) (index : Z) : option (list Z) :=
  '(_, d) ← node_item x index;
  match d with Some d => read_slice (tn_data x) d | None => Some [] end.

(** ** Paths *)
Fixpoint pack_nibbles (l : list Z) : list Z :=
  match l with x :: y :: t => u8 (Z.lor (Z.shiftl x 4) y) :: pack_nibbles t | _ => [] end.
(** No result for branches and empty nodes. *)
Definition trie_node_value_from_nibbles (type : trie_node_type_t) (val : list Z) : option (option (list Z)) :=
  match type with
  | NODE_BRANCH | NODE_EMPTY => Some None
  | _ =>
      l ← nibble_len val;
      let odd := (l mod 2)%nat in
      Some (Some (u8 (Z.lor (Z.shiftl ((match type with NODE_EXT => 0 | _ => 2 end) + Z.of_nat odd) 4) (if (odd =? 0)%nat then 0 else rd val 0)) :: pack_nibbles (drop odd (take l val))))
  end.

Section Trie.
Context `{Keccak} `{Allocator}.

Definition node_of (data : list Z) (own_memory : bool) : option trie_node_t :=
  '(_, items) ← dec (mem_of data) false (mk_slice 0 (zlen data)) 0;
  items ← items;
  '(n, _) ← dec (mem_of data) false items (-1);
  type ← (if n =? 0 then Some (Some NODE_EMPTY)
          else if n =? 17 then Some (Some NODE_BRANCH)
          else if n =? 2 then
            '(_, d) ← dec (mem_of data) false items 0;
            d ← d;
            b ← data !! Z.to_nat (s_data d);
            Some (Some (if Z.land b 32 =? 0 then NODE_EXT else NODE_LEAF))
          else Some None);
  Some (mk_tnode (replicate 32 0) data items own_memory type).
Definition trie_node_new (data : list Z) (own_memory : bool) : M trie_t nat := x ← defined (node_of data own_memory); alloc_node x.

(** An item that is not there leaves [item] as it was: the one before, or not set. *)
Definition set_item (x : trie_node_t) (index : Z) (val : list Z) (is_list : bool) : option trie_node_t :=
  let m := mem_of (tn_data x) in
  let items := tn_items x in
  let encode bb := if is_list then rlp_encode_list bb val else rlp_encode_item bb val in
  '(item, bb) ← (if index =? 0 then bb ← encode bb_new; Some (None, bb)
                 else
                   '(_, item) ← dec m false items (index - 1);
                   item ← item;
                   bb ← bb_write_raw_bytes bb_new (items_up_to m items item);
                   bb ← encode bb;
                   Some (Some item, bb));
  '(_, next) ← dec m false items index;
  item ← (match next with Some _ => next | None => item end);
  let item_end := s_data item + s_len item in
  let items_end := s_data items + s_len items in
  bb ← (if item_end <? items_end then bb_write_raw_bytes bb (mem_read m (mk_slice item_end (items_end - item_end))) else Some bb);
  let len := bb_len bb in
  bb ← rlp_encode_to_list bb;
  data ← bb_bytes bb;
  Some (mk_tnode (tn_hash x) data (mk_slice (zlen data - len) len) true (tn_type x)).
Definition trie_node_set_item (n : nat) (index : Z) (val : list Z) (is_list : bool) : M trie_t unit :=
  x ← node_at n; x ← defined (set_item x index val is_list); put_node n x.

(** [encode_add] for each value and [encode_finish]. *)
Fixpoint encode_add_all (bb : bytes_builder_t) (vals : list (list Z)) : option bytes_builder_t :=
  match vals with [] => Some bb | v :: t => bb ← rlp_encode_item bb v; encode_add_all bb t end.
Definition encode_finish (bb : bytes_builder_t) : option (list Z) := bb ← rlp_encode_to_list bb; bb_bytes bb.
Definition trie_node_create_branch (value : option (list Z)) : M trie_t nat :=
  bb ← defined (encode_add_all bb_new (replicate 16 [] ++ [default [] value]));
  data ← defined (encode_finish bb);
  trie_node_new data true.
Definition trie_node_set_path (n : nat) (val : list Z) : M trie_t unit :=
  x ← node_at n;
  type ← defined (tn_type x);
  bytes ← defined (trie_node_value_from_nibbles type val);
  match bytes with Some bytes => trie_node_set_item n 0 bytes false | None => mret tt end.
Definition trie_node_create_leaf (nibbles value : list Z) : M trie_t nat :=
  path ← defined (trie_node_value_from_nibbles (match value with [] => NODE_EXT | _ => NODE_LEAF end) nibbles);
  bb ← defined (encode_add_all bb_new [default [] path; value]);
  data ← defined (encode_finish bb);
  trie_node_new data true.
Definition trie_node_create_ext (nibbles : list Z) (target : node_key_t) : M trie_t nat :=
  path ← defined (trie_node_value_from_nibbles NODE_EXT nibbles);
  bb ← defined (encode_add_all bb_new [default [] path]);
  bb ← (match target with
        | hash_key hash => defined (rlp_encode_item bb hash)
        | node_key None => undef
        | node_key (Some t) =>
            x ← node_at t;
            items ← defined (read_slice (tn_data x) (tn_items x));
            bb ← defined (rlp_encode_list bb items);
            _ ← free_node t;
            mret bb
        end);
  data ← defined (encode_finish bb);
  trie_node_new data true.

(** ** The list of nodes *)
Definition update_db (n : nat) (top : bool) : M trie_t node_key_t :=
  x ← node_at n;
  if (zlen (tn_data x) <? 32) && negb top then mret (node_key (Some n))
  else
    l ← gets t_nodes;
    _ ← (if bool_decide (n ∈ l) then mret tt else modify (with_nodes (n :: l)));
    _ ← put_node n (with_hash (keccak (tn_data x)) x);
    mret (hash_key (keccak (tn_data x))).
Fixpoint find_node (hash : list Z) (l : list nat) : M trie_t (option nat) :=
  match l with
  | [] => mret None
  | n :: t => x ← node_at n; if memcmp (tn_hash x) hash =? 0 then mret (Some n) else find_node hash t
  end.
Definition get_node (hash : list Z) : M trie_t (option nat) := l ← gets t_nodes; find_node hash l.
Definition set_node_target (n : nat) (index : Z) (target : node_key_t) : M trie_t unit :=
  target ← (match target with
            | node_key (Some t) => x ← node_at t; if 32 <=? zlen (tn_data x) then update_db t false else mret target
            | _ => mret target
            end);
  match target with
  | hash_key hash => trie_node_set_item n index hash false
  | node_key None => undef
  | node_key (Some t) =>
      x ← node_at t;
      items ← defined (read_slice (tn_data x) (tn_items x));
      _ ← trie_node_set_item n index items true;
      free_node t
  end.
(** 32 bytes are read whatever the length of the item; for an embedded node in the first slot there is no item before. *)
Definition get_node_target (n : nat) (index : Z) : M trie_t (option nat) :=
  x ← node_at n;
  rd ← defined (node_item x index);
  let '(r, tmp) := rd in
  tmp ← defined tmp;
  if r =? 1 then
    hash ← defined (read_at (tn_data x) (Z.to_nat (s_data tmp)) 32);
    get_node hash
  else
    rd ← defined (node_item x (index - 1));
    pre ← defined (snd rd);
    let first := s_data pre + s_len pre in
    data ← defined (read_slice (tn_data x) (mk_slice first (s_data tmp + s_len tmp - first)));
    c ← trie_node_new data false;
    mret (Some c).

(** ** Setting a value *)

(** The cases of [handle_node] for a path that ends at the node. *)
Definition handle_end (n : nat) (value : list Z) : M trie_t nat :=
  x ← node_at n;
  type ← defined (tn_type x);
  match type with
  | NODE_EMPTY => mret n
  | NODE_BRANCH => _ ← trie_node_set_item n 16 value false; mret n
  | NODE_LEAF =>
      item ← defined (trie_node_get_item x 0);
      let node_path := trie_path_to_nibbles item true in
      if rd node_path 0 =? 0xFF then _ ← trie_node_set_item n 2 value false; mret n
      else
        _ ← trie_node_set_path n (drop 1 node_path);
        b ← trie_node_create_branch (Some value);
        k ← update_db n false;
        _ ← set_node_target b (rd node_path 0) k;
        mret b
  | NODE_EXT =>
      b ← trie_node_create_branch (Some value);
      item ← defined (trie_node_get_item x 0);
      let rel_path := trie_path_to_nibbles item true in
      l ← defined (nibble_len rel_path);
      if (l =? 1)%nat then
        rt ← defined (node_item x 1);
        d ← defined (snd rt);
        tmp ← defined (read_slice (tn_data x) d);
        _ ← trie_node_set_item b (rd rel_path 0) tmp (fst rt =? 2);
        mret b
      else
        _ ← trie_node_set_path n (drop 1 rel_path);
        k ← update_db n false;
        _ ← set_node_target b (rd rel_path 0) k;
        mret b
  end.
(** A leaf whose path is a part of the new one becomes a branch, behind an extension if it had a path. *)
Definition extend_leaf (n : nat) (node_path path value : list Z) (matching : nat) : M trie_t nat :=
  x ← node_at n;
  tmp ← defined (trie_node_get_item x 1);
  b ← trie_node_create_branch (Some tmp);
  leaf ← trie_node_create_leaf (drop (S matching) path) value;
  k ← update_db leaf false;
  _ ← set_node_target b (rd path (Z.of_nat matching)) k;
  if negb (rd node_path 0 =? 0xFF) then
    x ← node_at n;
    _ ← put_node n (with_type NODE_EXT x);
    _ ← trie_node_set_path n node_path;
    k ← update_db b false;
    _ ← set_node_target n 1 k;
    mret n
  else
    _ ← free_node n;
    mret b.
(** The paths part behind [matching] nibbles: a branch with the new leaf and the shortened node. *)
Definition split_node (n : nat) (type : trie_node_type_t) (node_path path value : list Z) (matching : nat) : M trie_t nat :=
  b ← trie_node_create_branch None;
  _ ← (if rd path (Z.of_nat matching) =? 0xFF then trie_node_set_item b 16 value false
       else
         leaf ← trie_node_create_leaf (drop (S matching) path) value;
         set_node_target b (rd path (Z.of_nat matching)) (node_key (Some leaf)));
  _ ← trie_node_set_path n (drop (S matching) node_path);
  k ← (if (rd node_path (Z.of_nat (S matching)) =? 0xFF) && match type with NODE_EXT => true | _ => false end
       then c ← get_node_target n 1; mret (node_key c)
       else update_db n false);
  _ ← set_node_target b (rd node_path (Z.of_nat matching)) k;
  if (0 <? matching)%nat then
    k ← update_db b false;
    trie_node_create_ext (<[matching := 0xFF]> node_path) k
  else mret b.
Fixpoint handle_node (fuel : nat) (n : option nat) (path value : list Z) (top : bool) : M trie_t node_key_t :=
  match fuel with
  | O => fun _ => NoFuel
  | S fuel =>
      path_len ← defined (nibble_len path);
      match n with
      | None => leaf ← trie_node_create_leaf path value; update_db leaf top
      | Some n =>
          n ← (if (path_len =? 0)%nat then handle_end n value
               else
                 x ← node_at n;
                 type ← defined (tn_type x);
                 match type with
                 | NODE_EMPTY => mret n
                 | NODE_BRANCH =>
                     let first := rd path 0 in
                     item ← defined (trie_node_get_item x first);
                     k ← (match item with
                          | [] => leaf ← trie_node_create_leaf (drop 1 path) value; update_db leaf false
                          | _ => c ← get_node_target n first; handle_node fuel c (drop 1 path) value false
                          end);
                     _ ← set_node_target n first k;
                     mret n
                 | _ =>
                     item ← defined (trie_node_get_item x 0);
                     let node_path := trie_path_to_nibbles item true in
                     matching ← defined (trie_matching_nibbles node_path path);
                     l ← defined (nibble_len node_path);
                     if (matching =? l)%nat then
                       match type with
                       | NODE_EXT =>
                           c ← get_node_target n 1;
                           k ← handle_node fuel c (drop matching path) value false;
                           _ ← set_node_target n 1 k;
                           mret n
                       | _ =>
                           if (matching <? path_len)%nat then extend_leaf n node_path path value matching
                           else _ ← trie_node_set_item n 1 value false; mret n
                       end
                     else split_node n type node_path path value matching
                 end);
          update_db n top
      end
  end.

Definition trie_new : option trie_t := ll ← rlp_encode_item bb_new []; b ← bb_bytes ll; Some (mk_trie (keccak b) [] []).
(** One level of nodes per nibble: an extension of a trie that was built has at least one. *)
Definition trie_set_value (key value : list Z) : M trie_t unit :=
  if (length value =? 0)%nat || (32 <? length key)%nat then mret tt
  else
    let path := trie_path_to_nibbles key false in
    r ← gets t_root;
    n ← get_node r;
    k ← handle_node (S (length path)) n path value true;
    match k with hash_key hash => modify (with_root hash) | node_key _ => undef end.
End Trie.
