(* ===== verification/TrieSpec.v ===== *)
(** * Tries as finite maps

    Inserting a key into a trie ([tinsert]) as the yellow paper has it: the value of the key is set and those of
    the others stay ([tinsert_spec]), and the result is again a trie without superfluous nodes ([tinsert_built]).
    Where no value occurs twice, a node tells its place ([sub_unique]), and a node on the way to a
    new key never comes back ([sub_dead]). *)
From S2P Require Import Prelude Utils Bytes Rlp Merkle.
#[local] Open Scope Z_scope.

(** The common part of two paths and the rests. *)
Fixpoint common (p k : list Z) : list Z * list Z * list Z :=
  match p, k with
  | x :: p', y :: k' => if x =? y then let '(c, a, b) := common p' k' in (x :: c, a, b) else ([], p, k)
  | _, _ => ([], p, k)
  end.
Definition ext (p : list Z) (t : trie) : trie := match p with [] => t | _ => Ext p t end.
Definition put (x : Z) (t : trie) (cs : list trie) : list trie := <[Z.to_nat x := t]> cs.
Definition no_children : list trie := replicate 16 Merkle.Empty.
Fixpoint tinsert (t : trie) (k v : list Z) {struct t} : trie :=
  match t with
  | Merkle.Empty => Leaf k v
  | Leaf p w =>
      let '(c, p', k') := common p k in
      match p', k' with
      | [], [] => Leaf p v
      | [], x :: k'' => ext c (Branch (put x (Leaf k'' v) no_children) w)
      | y :: p'', [] => ext c (Branch (put y (Leaf p'' w) no_children) v)
      | y :: p'', x :: k'' => ext c (Branch (put y (Leaf p'' w) (put x (Leaf k'' v) no_children)) [])
      end
  | Ext p t1 =>
      let '(c, p', k') := common p k in
      match p', k' with
      | [], _ => Ext p (tinsert t1 k' v)
      | y :: p'', [] => ext c (Branch (put y (ext p'' t1) no_children) v)
      | y :: p'', x :: k'' => ext c (Branch (put y (ext p'' t1) (put x (Leaf k'' v) no_children)) [])
      end
  | Branch cs w => match k with [] => Branch cs v | x :: k' => Branch (alter (fun c => tinsert c k' v) (Z.to_nat x) cs) w end
  end.

(** Values that are not shorter than a hash, and small enough for the encoder. *)
Definition value_ok (v : list Z) : bool := (32 <=? zlen v) && (zlen v <=? 0xf000) && forallb byteb v.
(** Paths of at most 64 nibbles, since keys have at most 32 bytes. *)
Definition path_ok (p : list Z) : bool := forallb nibbleb p && (length p <=? 64)%nat.
Definition is_branch (t : trie) : bool := match t with Branch _ _ => true | _ => false end.
Fixpoint built (t : trie) : bool :=
  match t with
  | Merkle.Empty => false
  | Leaf p v => path_ok p && value_ok v
  | Ext p c => negb (length p =? 0)%nat && path_ok p && is_branch c && built c
  | Branch cs w => (length cs =? 16)%nat && ((length w =? 0)%nat || value_ok w) && forallb (fun c => is_empty c || built c) cs && existsb (fun c => negb (is_empty c)) cs
  end.

Lemma trie_nested_ind (P : trie -> Prop) : P Merkle.Empty -> (forall p v, P (Leaf p v)) -> (forall p c, P c -> P (Ext p c)) -> (forall cs w, Forall P cs -> P (Branch cs w)) -> forall t, P t.
Proof. intros H1 H2 H3 H4. fix IH 1. intros [| p v|p c|cs w]; [done|apply H2|apply H3, IH|]. apply H4. induction cs as [|c cs IHcs]; constructor; [apply IH|exact IHcs]. Qed.

(** ** Values of keys *)
Lemma common_spec p k c a b : common p k = (c, a, b) -> p = c ++ a /\ k = c ++ b /\ match a, b with x :: _, y :: _ => x <> y | _, _ => True end.
Proof.
  revert k c a b. induction p as [|x p IH]; intros k c a b; cbn [common]; [intros [= <- <- <-]; done|]. destruct k as [|y k]; [intros [= <- <- <-]; done|].
  destruct (Z.eqb_spec x y) as [->|Hne]; [|by intros [= <- <- <-]]. destruct (common p k) as [[c' a'] b'] eqn:E. intros [= <- <- <-]. destruct (IH _ _ _ _ E) as (-> & -> & Hd). done.
Qed.
Lemma hv_empty k v : has_value Merkle.Empty k v <-> False.
Proof. split; [|done]. intros Hv. inversion Hv. Qed.
Lemma hv_leaf p w k v : has_value (Leaf p w) k v <-> k = p /\ v = w.
Proof. split; [|intros [-> ->]; constructor]. intros Hv. by inversion Hv. Qed.
Lemma hv_ext p c k v : has_value (ext p c) k v <-> exists k', k = p ++ k' /\ has_value c k' v.
Proof.
  destruct p as [|x p]; cbn [ext]; [split; [eauto|by intros (? & -> & ?)]|]. split; [|intros (k' & -> & Hv); by constructor]. intros Hv. inversion Hv; subst. eauto.
Qed.
Lemma hv_Ext p c k v : has_value (Ext p c) k v <-> exists k', k = p ++ k' /\ has_value c k' v.
Proof. split; [|intros (k' & -> & Hv); by constructor]. intros Hv. inversion Hv; subst. eauto. Qed.
Lemma hv_branch cs w k v : has_value (Branch cs w) k v <-> (k = [] /\ v = w /\ w <> []) \/ exists x k' c, k = x :: k' /\ 0 <= x /\ cs !! Z.to_nat x = Some c /\ has_value c k' v.
Proof.
  split; [|intros [(-> & -> & Hne)|(x & k' & c & -> & Hx & Hc & Hv)]; [by constructor|by econstructor]]. intros Hv. inversion Hv; subst; [right; eauto 10|by left].
Qed.
Lemma lookup_put x y t cs : length cs = 16%nat -> 0 <= x < 16 -> 0 <= y -> put x t cs !! Z.to_nat y = if y =? x then Some t else cs !! Z.to_nat y.
Proof.
  intros Hl Hx Hy. unfold put. destruct (Z.eqb_spec y x) as [->|Hne]; [apply list_lookup_insert_eq; lia|]. rewrite list_lookup_insert_ne; [done|lia].
Qed.
Lemma hv_put x t cs w k v : length cs = 16%nat -> 0 <= x < 16 -> (forall c, cs !! Z.to_nat x = Some c -> c = Merkle.Empty) ->
  has_value (Branch (put x t cs) w) k v <-> (exists k', k = x :: k' /\ has_value t k' v) \/ has_value (Branch cs w) k v.
Proof.
  intros Hl Hx Hc. rewrite !hv_branch. split.
  - intros [?|(y & k' & c & -> & Hy & Hlk & Hv)]; [by auto|]. rewrite lookup_put in Hlk by done. destruct (Z.eqb_spec y x) as [->|]; [injection Hlk as <-; eauto|right; right; eauto 10].
  - intros [(k' & -> & Hv)|[?|(y & k' & c & -> & Hy & Hlk & Hv)]]; [right; exists x, k', t; rewrite lookup_put, Z.eqb_refl by lia; auto with lia|by auto|].
    right. exists y, k', c. rewrite lookup_put by done. destruct (Z.eqb_spec y x) as [->|]; [|done]. rewrite (Hc c Hlk) in Hv. by apply hv_empty in Hv.
Qed.
Lemma hv_none w k v : has_value (Branch no_children w) k v <-> k = [] /\ v = w /\ w <> [].
Proof.
  rewrite hv_branch. split; [|by left]. intros [?|(x & k' & c & -> & Hx & Hc & Hv)]; [done|]. unfold no_children in Hc. apply lookup_replicate in Hc as [-> _]. by apply hv_empty in Hv.
Qed.
Lemma none_empty n c : no_children !! n = Some c -> c = Merkle.Empty.
Proof. unfold no_children. by intros [-> _]%lookup_replicate. Qed.
Lemma put_none x y t c : 0 <= x < 16 -> 0 <= y -> y <> x -> put x t no_children !! Z.to_nat y = Some c -> c = Merkle.Empty.
Proof. intros Hx Hy Hne. rewrite lookup_put by done. rewrite (proj2 (Z.eqb_neq y x)) by done. apply none_empty. Qed.

(** The two kinds of branches that an insertion creates, with one child and with two. *)
Lemma hv_one x t w k v : 0 <= x < 16 -> has_value (Branch (put x t no_children) w) k v <-> (exists k', k = x :: k' /\ has_value t k' v) \/ (k = [] /\ v = w /\ w <> []).
Proof. intros Hx. rewrite hv_put, hv_none; [done|done|done|]. intros c. apply none_empty. Qed.
Lemma hv_two x y t u w k v : 0 <= x < 16 -> 0 <= y < 16 -> y <> x -> has_value (Branch (put y u (put x t no_children)) w) k v <->
  (exists k', k = y :: k' /\ has_value u k' v) \/ (exists k', k = x :: k' /\ has_value t k' v) \/ (k = [] /\ v = w /\ w <> []).
Proof. intros Hx Hy Hne. rewrite hv_put, hv_one; [done|done|by unfold put; rewrite length_insert|done|]. intros c. apply put_none; lia. Qed.

Lemma nibbles_app a b : forallb nibbleb (a ++ b) = true <-> forallb nibbleb a = true /\ forallb nibbleb b = true.
Proof. rewrite forallb_app, andb_true_iff. done. Qed.
Lemma nibbles_cons x b : forallb nibbleb (x :: b) = true <-> 0 <= x < 16 /\ forallb nibbleb b = true.
Proof. cbn [forallb]. by rewrite andb_true_iff, nibbleb_true. Qed.
Lemma path_nibbles p : path_ok p = true -> forallb nibbleb p = true.
Proof. by intros [? _]%andb_prop. Qed.
Lemma path_app a b : path_ok (a ++ b) = true -> path_ok a = true /\ path_ok b = true.
Proof. unfold path_ok. rewrite !andb_true_iff, nibbles_app, length_app, !Nat.leb_le. intros [[Ha Hb] Hl]. split_and!; (done || lia). Qed.
Lemma path_cons x b : path_ok (x :: b) = true -> 0 <= x < 16 /\ path_ok b = true.
Proof. unfold path_ok. rewrite !andb_true_iff, nibbles_cons, !Nat.leb_le. cbn [length]. intros [[Ha Hb] Hl]. split_and!; (done || lia). Qed.
Lemma value_ok_nonempty v : value_ok v = true -> v <> [].
Proof. by intros Hv ->. Qed.
Lemma built_child cs w n c : built (Branch cs w) = true -> cs !! n = Some c -> c = Merkle.Empty \/ built c = true.
Proof.
  cbn [built]. rewrite !andb_true_iff. intros [[[_ _] Hcs] _] Hc. rewrite forallb_forall in Hcs. apply list_elem_of_lookup_2, list_elem_of_In, Hcs, orb_true_iff in Hc as [Hc|Hc]; [left; by destruct c|by right].
Qed.
Lemma built_branch cs w : built (Branch cs w) = true -> length cs = 16%nat /\ (w = [] \/ value_ok w = true).
Proof. cbn [built]. rewrite !andb_true_iff, orb_true_iff, !Nat.eqb_eq. intros [[[Hl Hw] _] _]. split; [done|]. destruct Hw as [Hw|]; [left; by apply nil_length_inv|by right]. Qed.
Lemma built_leaf p w : built (Leaf p w) = true -> path_ok p = true /\ value_ok w = true.
Proof. cbn [built]. by rewrite andb_true_iff. Qed.
Lemma built_Ext p c : built (Ext p c) = true -> p <> [] /\ path_ok p = true /\ is_branch c = true /\ built c = true.
Proof. cbn [built]. rewrite !andb_true_iff, negb_true_iff, Nat.eqb_neq. intros [[[Hl Hn] Hb] Hc]. split; [by intros ->|done]. Qed.

#[local] Ltac cases := repeat match goal with H : _ /\ _ |- _ => destruct H | H : exists _, _ |- _ => destruct H | H : _ \/ _ |- _ => destruct H end.
(** Behind the common part [c] of two keys: the rest [a] of the old one, with the values of [t] behind it, and the rest [b] of the new one. *)
Definition meets (t : trie) (c a b v k' v' : list Z) : Prop := (k' = c ++ b /\ v' = v) \/ (k' <> c ++ b /\ exists k1, k' = c ++ a ++ k1 /\ has_value t k1 v').
Lemma fork_end t c y a v k' v' : 0 <= y < 16 -> v <> [] -> forall u, (forall k w, has_value u k w <-> exists k1, k = a ++ k1 /\ has_value t k1 w) ->
  has_value (ext c (Branch (put y u no_children) v)) k' v' <-> meets t c (y :: a) [] v k' v'.
Proof.
  intros Hy Hv u Hu. rewrite hv_ext. setoid_rewrite (hv_one y _ _ _ _ Hy). unfold meets. split.
  - intros (k1 & -> & [(k2 & -> & (k3 & -> & H1)%Hu)|(-> & -> & _)]); [right|by left]. split; [intros E; by simplify_list_eq|eauto].
  - intros [[-> ->]|(_ & k1 & -> & H1)]; eexists; (split; [done|]); [by right|]. left. eexists. split; [done|]. apply Hu. eauto.
Qed.
Lemma fork_two t c y a x b v k' v' : 0 <= x < 16 -> 0 <= y < 16 -> y <> x -> v <> [] -> forall u, (forall k w, has_value u k w <-> exists k1, k = a ++ k1 /\ has_value t k1 w) ->
  has_value (ext c (Branch (put y u (put x (Leaf b v) no_children)) [])) k' v' <-> meets t c (y :: a) (x :: b) v k' v'.
Proof.
  intros Hx Hy Hne Hv u Hu. rewrite hv_ext. setoid_rewrite (hv_two x y _ _ _ _ _ Hx Hy Hne). unfold meets. split.
  - intros (k1 & -> & [(k2 & -> & (k3 & -> & H1)%Hu)|[(k2 & -> & [-> ->]%hv_leaf)|(_ & _ & E)]]); [right|by left|done]. split; [intros E; by simplify_list_eq|eauto].
  - intros [[-> ->]|(_ & k1 & -> & H1)]; eexists; (split; [done|]); [right; left; eexists; split; [done|]; by apply hv_leaf|]. left. eexists. split; [done|]. apply Hu. eauto.
Qed.
Lemma insert_leaf p w k v k' v' : forallb nibbleb p = true -> w <> [] -> forallb nibbleb k = true -> v <> [] ->
  has_value (tinsert (Leaf p w) k v) k' v' <-> (k' = k /\ v' = v) \/ (k' <> k /\ has_value (Leaf p w) k' v').
Proof.
  intros Hp Hw Hk Hv. cbn [tinsert]. destruct (common p k) as [[c a] b] eqn:E. apply common_spec in E as (-> & -> & Hd). apply nibbles_app in Hp as [_ Ha], Hk as [_ Hb].
  assert (forall k0 w0, has_value (Leaf (drop 1 a) w) k0 w0 <-> exists k1, k0 = drop 1 a ++ k1 /\ has_value (Leaf [] w) k1 w0) as Hu by (intros; rewrite hv_leaf; setoid_rewrite hv_leaf; split; [intros [-> ->]; exists []; by rewrite app_nil_r|intros (? & -> & -> & ->); by rewrite app_nil_r]).
  assert (has_value (Leaf (c ++ a) w) k' v' <-> exists k1, k' = c ++ a ++ k1 /\ has_value (Leaf [] w) k1 v') as Hm by (rewrite hv_leaf; setoid_rewrite hv_leaf; split; [intros [-> ->]; exists []; by rewrite app_nil_r|intros (? & -> & -> & ->); by rewrite app_nil_r]).
  rewrite Hm. destruct a as [|y a], b as [|x b]; rewrite ?nibbles_cons in *; cases.
  - rewrite hv_leaf, !app_nil_r. split; [by left|]. intros [?|(Hne & k1 & -> & [-> ->]%hv_leaf)]; [done|]. by rewrite app_nil_r in Hne.
  - rewrite hv_ext. setoid_rewrite hv_one; [|done]. split.
    + intros (k1 & -> & [(k2 & -> & [-> ->]%hv_leaf)|(-> & -> & _)]); [by left|right]. split; [intros E; by simplify_list_eq|]. exists []. by rewrite hv_leaf.
    + intros [[-> ->]|(_ & k1 & -> & [-> ->]%hv_leaf)]; eexists; (split; [done|]); [left; eexists; split; [done|]; by apply hv_leaf|by right].
  - by apply (fork_end (Leaf [] w)).
  - by apply (fork_two (Leaf [] w)).
Qed.
Lemma insert_Ext p t k v k' v' : forallb nibbleb p = true -> forallb nibbleb k = true -> v <> [] ->
  (forall k1, forallb nibbleb k1 = true -> forall k2 v2, has_value (tinsert t k1 v) k2 v2 <-> (k2 = k1 /\ v2 = v) \/ (k2 <> k1 /\ has_value t k2 v2)) ->
  has_value (tinsert (Ext p t) k v) k' v' <-> (k' = k /\ v' = v) \/ (k' <> k /\ has_value (Ext p t) k' v').
Proof.
  intros Hp Hk Hv IH. cbn [tinsert]. destruct (common p k) as [[c a] b] eqn:E. apply common_spec in E as (-> & -> & Hd). apply nibbles_app in Hp as [_ Ha], Hk as [_ Hb].
  assert (has_value (Ext (c ++ a) t) k' v' <-> exists k1, k' = c ++ a ++ k1 /\ has_value t k1 v') as Hm by (rewrite hv_Ext; by setoid_rewrite <- app_assoc).
  rewrite Hm. destruct a as [|y a].
  - rewrite app_nil_r, hv_Ext. setoid_rewrite (IH b Hb). split.
    + intros (k1 & -> & [[-> ->]|[Hne H1]]); [by left|right]. split; [intros E; by simplify_list_eq|eauto].
    + intros [[-> ->]|(Hne & k1 & -> & H1)]; [exists b|exists k1]; (split; [done|]); [by left|right]. split; [by intros ->|done].
  - destruct b as [|x b]; rewrite ?nibbles_cons in *; cases; [apply (fork_end t)|apply (fork_two t)]; try done; intros; apply hv_ext.
Qed.
Lemma insert_branch cs x k v : length cs = 16%nat -> 0 <= x < 16 -> exists c, cs !! Z.to_nat x = Some c /\
  forall y, 0 <= y -> alter (fun c => tinsert c k v) (Z.to_nat x) cs !! Z.to_nat y = if y =? x then Some (tinsert c k v) else cs !! Z.to_nat y.
Proof.
  intros Hl Hx. assert (is_Some (cs !! Z.to_nat x)) as [c Hc] by (apply lookup_lt_is_Some; lia). exists c. split; [done|]. intros y Hy.
  destruct (Z.eqb_spec y x) as [->|]; [by rewrite list_lookup_alter_eq, Hc|by rewrite list_lookup_alter_ne by lia].
Qed.
(** Insertion sets the value of its key, and no other. *)
Lemma tinsert_spec t : forall k v k' v', t = Merkle.Empty \/ built t = true -> forallb nibbleb k = true -> v <> [] ->
  has_value (tinsert t k v) k' v' <-> (k' = k /\ v' = v) \/ (k' <> k /\ has_value t k' v').
Proof.
  induction t as [|p w|p c IH|cs w IH] using trie_nested_ind; intros k v k' v' Hb Hk Hv; [cbn [tinsert]; rewrite hv_leaf; split; [by left|intros [?|[_ []%hv_empty]]; done]| | |]; (destruct Hb as [|Hb]; [done|]).
  - apply built_leaf in Hb as [Hp%path_nibbles Hw%value_ok_nonempty]. by apply insert_leaf.
  - apply built_Ext in Hb as (_ & Hp%path_nibbles & _ & Hc). apply insert_Ext; try done. intros k1 Hk1 k2 v2. apply IH; [by right|done|done].
  - destruct (built_branch _ _ Hb) as [Hl Hw]. cbn [tinsert]. destruct k as [|x k].
    + rewrite !hv_branch. split; [intros [(-> & -> & _)|Hc]; [by left|right]; split; [by destruct Hc as (? & ? & ? & -> & _)|by right]|]. intros [[-> ->]|(Hne & [(-> & _)|?])]; [by left|done|by right].
    + rewrite nibbles_cons in Hk. destruct Hk as [Hx Hk]. destruct (insert_branch cs x k v Hl Hx) as (c & Hc & Halt). rewrite !hv_branch.
      assert (forall k1 v1, has_value (tinsert c k v) k1 v1 <-> (k1 = k /\ v1 = v) \/ (k1 <> k /\ has_value c k1 v1)) as Hi by (intros; rewrite Forall_lookup in IH; apply (IH _ _ Hc); [by eapply built_child|done|done]). split.
      * intros [(-> & -> & Hne)|(y & k1 & d & -> & Hy & Hd & H1)]; [right; split; [done|by left]|]. rewrite Halt in Hd by done. destruct (Z.eqb_spec y x) as [->|Hn]; [|right; split; [congruence|right; eauto 10]].
        injection Hd as <-. apply Hi in H1 as [[-> ->]|[Hne H1]]; [by left|]. right. split; [congruence|]. right. eauto 10.
      * intros [[-> ->]|(Hne & [?|(y & k1 & d & -> & Hy & Hd & H1)])]; [right; exists x, k, (tinsert c k v); rewrite Halt, Z.eqb_refl by lia; split_and!; try lia; try done; apply Hi; by left|by left|].
        right. destruct (Z.eqb_spec y x) as [->|Hn]; [|exists y, k1, d; by rewrite Halt, (proj2 (Z.eqb_neq y x))].
        rewrite Hc in Hd. injection Hd as <-. exists x, k1, (tinsert c k v). rewrite Halt, Z.eqb_refl by done. split_and!; try done. apply Hi. right. split; [congruence|done].
Qed.

(** ** Well-formed tries *)
Lemma built_ext p t : path_ok p = true -> is_branch t = true -> built t = true -> built (ext p t) = true.
Proof. intros Hp Hb Ht. destruct p as [|x p]; [done|]. cbn [ext built length]. by rewrite Hp, Hb, Ht. Qed.
Lemma built_put x t cs w : length cs = 16%nat -> 0 <= x < 16 -> built t = true -> (w = [] \/ value_ok w = true) -> (forall n c, cs !! n = Some c -> c = Merkle.Empty \/ built c = true) -> built (Branch (put x t cs) w) = true.
Proof.
  intros Hl Hx Ht Hw Hcs. cbn [built]. rewrite !andb_true_iff. split_and!.
  - unfold put. by rewrite length_insert, Hl.
  - destruct Hw as [->| ->]; [done|apply orb_true_r].
  - apply forallb_forall. intros c Hc. apply list_elem_of_In, list_elem_of_lookup in Hc as [n Hc]. rewrite <- (Nat2Z.id n), lookup_put in Hc by lia. rewrite orb_true_iff.
    destruct (_ =? _); [injection Hc as <-; by right|]. apply Hcs in Hc as [->|]; [by left|by right].
  - apply existsb_exists. exists t. split; [|by destruct t]. apply list_elem_of_In, list_elem_of_lookup. exists (Z.to_nat x). rewrite lookup_put, Z.eqb_refl by lia. done.
Qed.
Lemma built_one x t w : 0 <= x < 16 -> built t = true -> (w = [] \/ value_ok w = true) -> built (Branch (put x t no_children) w) = true.
Proof. intros Hx Ht Hw. apply built_put; try done. intros n c Hc%none_empty. by left. Qed.
Lemma built_two x y t u w : 0 <= x < 16 -> 0 <= y < 16 -> built t = true -> built u = true -> (w = [] \/ value_ok w = true) -> built (Branch (put y u (put x t no_children)) w) = true.
Proof.
  intros Hx Hy Ht Hu Hw. apply built_put; try done; [unfold put; by rewrite length_insert|]. intros n c Hc. rewrite <- (Nat2Z.id n), lookup_put in Hc by (done || lia). destruct (_ =? _); [injection Hc as <-; by right|]. apply none_empty in Hc as ->. by left.
Qed.
Lemma tinsert_built t : forall k v, t = Merkle.Empty \/ built t = true -> path_ok k = true -> value_ok v = true -> built (tinsert t k v) = true /\ (is_branch t = true -> is_branch (tinsert t k v) = true).
Proof.
  assert (forall p v, path_ok p = true -> value_ok v = true -> built (Leaf p v) = true) as Hleaf by (intros p v Hp Hv; cbn [built]; by rewrite Hp, Hv).
  induction t as [|p w|p c IH|cs w IH] using trie_nested_ind; intros k v Hb Hk Hv; cbn [tinsert]; [split; [by apply Hleaf|done]| | |]; (destruct Hb as [|Hb]; [done|]).
  - apply built_leaf in Hb as [Hp Hw]. split; [|done]. destruct (common p k) as [[c a] b] eqn:E. apply common_spec in E as (-> & -> & Hd). apply path_app in Hp as [Hc Ha], Hk as [_ Hb].
    destruct a as [|y a], b as [|x b]; repeat match goal with H : path_ok (_ :: _) = true |- _ => apply path_cons in H as [? ?] end.
    + rewrite app_nil_r. by apply Hleaf.
    + apply built_ext; [done..|]. apply built_one; auto.
    + apply built_ext; [done..|]. apply built_one; auto.
    + apply built_ext; [done..|]. apply built_two; auto.
  - apply built_Ext in Hb as (Hne & Hp & Hbr & Hb). split; [|done]. destruct (common p k) as [[q a] b] eqn:E. apply common_spec in E as (-> & -> & Hd). apply path_app in Hp as [Hc Ha], Hk as [_ Hbn].
    destruct a as [|y a]; [|apply path_cons in Ha as [Hy Ha]].
    + rewrite app_nil_r in *. destruct (IH b v (or_intror Hb) Hbn Hv) as [IH1 IH2]. destruct q; [done|]. apply (built_ext (_ :: _)); auto.
    + assert (built (ext a c) = true) by (by apply built_ext). destruct b as [|x b]; [|apply path_cons in Hbn as [? ?]]; (apply built_ext; [done..|]); [apply built_one; auto|apply built_two; auto].
  - destruct (built_branch _ _ Hb) as [Hl Hw]. destruct k as [|x k].
    + split; [|done]. cbn [built] in *. rewrite !andb_true_iff in *. destruct Hb as [[[H1 H2] H3] H4]. split_and!; try done. rewrite Hv. apply orb_true_r.
    + apply path_cons in Hk as [Hx Hk]. split; [|done]. destruct (insert_branch cs x k v Hl Hx) as (c & Hc & Halt).
      assert (alter (fun c => tinsert c k v) (Z.to_nat x) cs = put x (tinsert c k v) cs) as -> by (unfold put; apply list_eq; intros n; rewrite <- (Nat2Z.id n), Halt, <- lookup_put with (cs := cs) by lia; done).
      apply built_put; try done; [|intros n d; by eapply built_child]. rewrite Forall_lookup in IH. apply (IH _ _ Hc); [by eapply built_child|done|done].
Qed.
Lemma built_has t : built t = true -> exists k v, has_value t k v.
Proof.
  induction t as [|p w|p c IH|cs w IH] using trie_nested_ind; intros Hb; [done|eexists _, _; constructor| |].
  - apply built_Ext in Hb as (_ & _ & _ & Hb). destruct (IH Hb) as (k & v & Hv). eexists _, _. by constructor.
  - pose proof Hb as Hb'. cbn [built] in Hb'. rewrite !andb_true_iff in Hb'. destruct Hb' as [_ (c & Hc & Hne)%existsb_exists]. apply list_elem_of_In, list_elem_of_lookup in Hc as [n Hc].
    destruct (built_child _ _ _ _ Hb Hc) as [->|Hbc]; [done|]. rewrite Forall_lookup in IH. destruct (IH _ _ Hc Hbc) as (k & v & Hv). exists (Z.of_nat n :: k), v. econstructor; [by rewrite Nat2Z.id|lia|done].
Qed.

(** ** Places of nodes *)
Inductive sub : trie -> list Z -> trie -> Prop :=
  | sub_here t : sub t [] t
  | sub_Ext p c q u : sub c q u -> sub (Ext p c) (p ++ q) u
  | sub_child cs w x c q u : cs !! Z.to_nat x = Some c -> 0 <= x -> sub c q u -> sub (Branch cs w) (x :: q) u.
Lemma sub_up t q u k v : sub t q u -> has_value u k v -> has_value t (q ++ k) v.
Proof. induction 1 as [| |cs w x c q u Hc Hx Hs IH]; intros Hv; [done|rewrite <- app_assoc; constructor; auto|]. cbn [app]. econstructor; eauto. Qed.
Lemma sub_down t q u k v : sub t q u -> has_value t (q ++ k) v -> has_value u k v.
Proof.
  induction 1 as [|p c q u Hs IH|cs w x c q u Hc Hx Hs IH]; [done| |].
  - rewrite <- app_assoc, hv_Ext. intros (k' & E & Hv). apply app_inv_head in E as <-. auto.
  - cbn [app]. rewrite hv_branch. intros [[? _]|(y & k' & d & [= <- <-] & _ & Hd & Hv)]; [done|]. rewrite Hc in Hd. injection Hd as <-. auto.
Qed.
Lemma sub_trans t q u q' w : sub t q u -> sub u q' w -> sub t (q ++ q') w.
Proof. induction 1; intros Hw; [done|rewrite <- app_assoc; constructor; auto|]. cbn [app]. econstructor; eauto. Qed.
Definition distinct (t : trie) : Prop := forall k1 k2 v, has_value t k1 v -> has_value t k2 v -> k1 = k2.
Lemma sub_unique t q1 q2 u : distinct t -> sub t q1 u -> sub t q2 u -> built u = true -> q1 = q2.
Proof.
  intros Hd H1 H2 (k & v & Hv)%built_has. pose proof (Hd _ _ _ (sub_up _ _ _ _ _ H1 Hv) (sub_up _ _ _ _ _ H2 Hv)) as E. by apply app_inv_tail in E.
Qed.
(** A node of which the values are in [t] behind [q], together with one that it does not have, is not in [t]. *)
Lemma sub_dead t q q' u s w s2 v2 : distinct t -> has_value u s w -> has_value t (q ++ s) w -> has_value t (q ++ s2) v2 -> ~ has_value u s2 v2 -> ~ sub t q' u.
Proof.
  intros Hd Hu H1 H2 Hn Hs. pose proof (Hd _ _ _ H1 (sub_up _ _ _ _ _ Hs Hu)) as E. apply app_inv_tail in E as ->. apply Hn. by eapply sub_down.
Qed.
Lemma common_prefix p k : common p (p ++ k) = (p, [], k).
Proof. induction p as [|x p IH]; cbn [app common]; [by destruct k|]. by rewrite Z.eqb_refl, IH. Qed.
Lemma sub_tinsert T q t k v : sub T q t -> built T = true -> path_ok (q ++ k) = true -> sub (tinsert T (q ++ k) v) q (tinsert t k v).
Proof.
  induction 1 as [|p c q u Hs IH|cs w x c q u Hc Hx Hs IH]; intros Hb Hk; [constructor| |].
  - rewrite <- app_assoc in *. cbn [tinsert]. rewrite common_prefix. constructor. apply path_app in Hk as [_ Hk]. apply built_Ext in Hb as (_ & _ & _ & Hb). auto.
  - cbn [app tinsert] in *. apply path_cons in Hk as [Hx16 Hk]. econstructor; [rewrite list_lookup_alter_eq, Hc; done|done|]. destruct (built_child _ _ _ _ Hb Hc) as [->|Hbc]; [|auto]. inversion Hs; subst. constructor.
Qed.
Lemma sub_built t q u : sub t q u -> built t = true -> u <> Merkle.Empty -> built u = true.
Proof.
  induction 1 as [|p c q u Hs IH|cs w x c q u Hc Hx Hs IH]; intros Hb Hne; [done|apply IH; [|done]; by apply built_Ext in Hb as (_ & _ & _ & ?)|]. destruct (built_child _ _ _ _ Hb Hc) as [->|Hbc]; [inversion Hs; by subst|auto].
Qed.
(** The nodes on the way to a key. *)
Definition on_way (t : trie) (k : list Z) (u : trie) : Prop := u <> Merkle.Empty /\ exists q k', sub t q u /\ k = q ++ k'.

(** ** All nodes of a trie *)
Definition below (P : trie -> Prop) (t : trie) : Prop := forall q u, sub t q u -> u <> Merkle.Empty -> P u.
Lemma below_mono (P Q : trie -> Prop) t : (forall u, P u -> Q u) -> below P t -> below Q t.
Proof. intros HPQ Hb q u Hs Hne. eauto. Qed.
Lemma below_empty P : below P Merkle.Empty.
Proof. intros q u Hs Hne. by inversion Hs. Qed.
Lemma below_leaf P p v : P (Leaf p v) -> below P (Leaf p v).
Proof. intros HP q u Hs Hne. by inversion Hs. Qed.
Lemma below_Ext P p c : P (Ext p c) -> below P c -> below P (Ext p c).
Proof. intros HP Hc q u Hs Hne. inversion Hs; subst; eauto. Qed.
Lemma below_ext P p c : (p <> [] -> P (Ext p c)) -> below P c -> below P (ext p c).
Proof. intros HP Hc. destruct p as [|x p]; [done|]. apply below_Ext; [by apply HP|done]. Qed.
Lemma below_branch P cs w : P (Branch cs w) -> (forall n c, cs !! n = Some c -> below P c) -> below P (Branch cs w).
Proof. intros HP Hc q u Hs Hne. inversion Hs; subst; [done|]. eapply Hc; eauto. Qed.
Lemma below_one P x t w : 0 <= x < 16 -> P (Branch (put x t no_children) w) -> below P t -> below P (Branch (put x t no_children) w).
Proof.
  intros Hx HP Ht. apply below_branch; [done|]. intros n c Hc. rewrite <- (Nat2Z.id n), lookup_put in Hc by (done || lia). destruct (_ =? _); [by injection Hc as <-|]. apply none_empty in Hc as ->. apply below_empty.
Qed.
Lemma below_two P x y t u w : 0 <= x < 16 -> 0 <= y < 16 -> P (Branch (put y u (put x t no_children)) w) -> below P t -> below P u -> below P (Branch (put y u (put x t no_children)) w).
Proof.
  intros Hx Hy HP Ht Hu. apply below_branch; [done|]. intros n c Hc. rewrite <- (Nat2Z.id n), lookup_put in Hc by (by unfold put; rewrite ?length_insert || lia). destruct (_ =? _); [by injection Hc as <-|].
  rewrite lookup_put in Hc by (done || lia). destruct (_ =? _); [by injection Hc as <-|]. apply none_empty in Hc as ->. apply below_empty.
Qed.
Lemma below_child P cs w n c : below P (Branch cs w) -> cs !! n = Some c -> below P c.
Proof. intros Hb Hc q u Hs Hne. eapply Hb; [|done]. apply (sub_child _ _ (Z.of_nat n) c); [by rewrite Nat2Z.id|lia|done]. Qed.
Lemma below_target P p c : below P (Ext p c) -> below P c.
Proof. intros Hb q u Hs Hne. eapply Hb; [|done]. by constructor. Qed.
Lemma below_top P t : below P t -> t <> Merkle.Empty -> P t.
Proof. intros Hb Hne. eapply Hb; [constructor|done]. Qed.
