(* ===== verification/TrieNode.v ===== *)
(** * verifier/eth1/basic/trie.c: single nodes

    What the functions on one node do to the items it encodes: reading ([node_item_spec]), replacing
    ([set_item_spec]), and creating leaves, branches and extensions ([create_leaf_ok], [create_branch_ok],
    [create_ext_ok]), with the paths in hex prefix encoding. *)
From S2P Require Import Prelude Utils Bytes Rlp Merkle Serialize BasicTx TxSafety Trie TrieSpec.
#[local] Open Scope Z_scope.

(** ** Reading *)
Lemma read_slice_mem data d : 0 <= s_data d -> 0 <= s_len d -> s_data d + s_len d <= zlen data -> read_slice data d = Some (mem_read (mem_of data) d).
Proof.
  intros H1 H2 H3. unfold read_slice, read_at. rewrite (proj2 (Nat.leb_le _ _)) by lia. f_equal. symmetry. apply mem_read_at; [done|]. rewrite length_take, length_drop. split; [lia|].
  intros i Hi. rewrite length_take, length_drop in Hi. unfold mem_of. rewrite nth_firstn, nth_skipn, (proj2 (Nat.ltb_lt _ _)) by lia. rewrite <- (Z2Nat.id (s_data d)) at 1 by done. rewrite <- Nat2Z.inj_add. apply rd_nat.
Qed.
(** The node has these items. *)
Definition node_is (x : trie_node_t) (its : list rlp_item) : Prop :=
  tn_data x = rlp_list (enc_items its) /\ tn_items x = mk_slice (zlen (rlp_header 0xc0 (zlen (enc_items its)))) (zlen (enc_items its)).
Definition items_ok (its : list rlp_item) : Prop := Forall item_ok its /\ zlen (enc_items its) < 0x10000.
Lemma node_is_mem x its : node_is x its -> items_ok its -> placed (tn_items x) /\ mem_read (mem_of (tn_data x)) (tn_items x) = enc_items its /\ s_data (tn_items x) + s_len (tn_items x) = zlen (tn_data x).
Proof.
  intros [Ed Ei] [Hok Hl]. rewrite Ei, Ed. pose proof (rlp_header_length 0xc0 (zlen (enc_items its))). unfold rlp_list. rewrite length_app. cbn [s_data s_len]. split; [split; cbn; lia|]. split; [|lia].
  apply mem_read_at; [cbn; lia|]. split; [done|]. cbn [s_data]. pose proof (mem_at_mem_of (rlp_header 0xc0 (zlen (enc_items its)) ++ enc_items its)) as Hm. apply mem_at_app in Hm as [_ Hm]. by rewrite Z.add_0_l in Hm.
Qed.
Lemma node_item_spec x its n it : node_is x its -> items_ok its -> its !! n = Some it ->
  exists d, node_item x (Z.of_nat n) = Some (item_kind it, Some d) /\ read_slice (tn_data x) d = Some (item_bytes it) /\ 0 <= s_data d /\ 0 <= s_len d /\
    s_data d + s_len d = s_data (tn_items x) + zlen (enc_items (take (S n) its)).
Proof.
  intros Hx Hok Hn. destruct (node_is_mem _ _ Hx Hok) as (Hp & Hm & He). destruct Hok as [Hok Hl]. destruct (dec_nth_end (mem_of (tn_data x)) its Hok ltac:(lia) (tn_items x) false n it Hp Hm Hn) as (d & Hd & Hb & (D1 & D2 & D3) & Hend).
  exists d. split_and!; try done. rewrite read_slice_mem, Hb; [done|done|done|]. destruct Hx as [Ed Ei]. rewrite Hend, <- He. rewrite Ei. cbn [s_data s_len].
  assert (zlen (enc_items (take (S n) its)) + zlen (enc_items (drop (S n) its)) = zlen (enc_items its)); [|lia]. rewrite <- Nat2Z.inj_add, <- length_app, <- enc_items_app, take_drop. done.
Qed.
Lemma get_item_spec x its n it : node_is x its -> items_ok its -> its !! n = Some it -> trie_node_get_item x (Z.of_nat n) = Some (item_bytes it).
Proof. intros Hx Hok Hn. destruct (node_item_spec x its n it Hx Hok Hn) as (d & Hd & Hr & _). unfold trie_node_get_item. rewrite Hd. exact Hr. Qed.

(** ** Paths *)
Lemma nibble_len_ends p r : forallb nibbleb p = true -> nibble_len (p ++ 0xFF :: r) = Some (length p).
Proof.
  induction p as [|x p IH]; [done|]. intros [Hx Hp]%nibbles_cons. cbn [app nibble_len length]. rewrite (proj2 (Z.eqb_neq x 0xFF)), IH by (done || lia). done.
Qed.
Lemma nibble_lor x y : 0 <= x < 16 -> 0 <= y < 16 -> Z.lor (Z.shiftl x 4) y = x * 16 + y.
Proof.
  intros Hx Hy. assert (Forall (fun x => Forall (fun y => Z.lor (Z.shiftl x 4) y = x * 16 + y) (seqZ 0 16)) (seqZ 0 16)) as Hall by decide_now.
  rewrite Forall_forall in Hall. specialize (Hall x ltac:(apply elem_of_seqZ; lia)). rewrite Forall_forall in Hall. apply Hall, elem_of_seqZ. lia.
Qed.
Lemma pack_nibbles_spec n : forall l, (length l <= n)%nat -> forallb nibbleb l = true -> pack_nibbles l = pack l.
Proof.
  induction n as [|n IH]; intros l Hl Hn; destruct l as [|x [|y l]]; try done; cbn [length] in Hl; [lia|]. apply nibbles_cons in Hn as [Hx [Hy Hn]%nibbles_cons]. cbn [pack_nibbles pack].
  rewrite nibble_lor, IH by (done || lia). unfold u8. rewrite Z.mod_small by lia. done.
Qed.
Lemma value_from_nibbles_spec leaf p r : forallb nibbleb p = true -> trie_node_value_from_nibbles (if leaf : bool then NODE_LEAF else NODE_EXT) (p ++ 0xFF :: r) = Some (Some (hex_prefix p leaf)).
Proof.
  intros Hp. unfold trie_node_value_from_nibbles. assert (forall (A : Type) (a b : A), match (if leaf then NODE_LEAF else NODE_EXT) with NODE_BRANCH | NODE_EMPTY => a | _ => b end = b) as -> by (by destruct leaf).
  rewrite nibble_len_ends by done. cbn [mbind option_bind]. rewrite take_app_length. do 2 f_equal. unfold hex_prefix.
  destruct p as [|x p]; [by destruct leaf|]. destruct (Nat.even (length (x :: p))) eqn:He.
  - apply Nat.even_spec in He as [k Hk]. assert (length (x :: p) mod 2 = 0)%nat as -> by (rewrite Hk, Nat.mul_comm; apply Nat.Div0.mod_mul). cbn [Nat.eqb drop]. rewrite (pack_nibbles_spec (length (x :: p))) by done. by destruct leaf.
  - assert (length (x :: p) mod 2 = 1)%nat as -> by (assert (Nat.odd (length (x :: p)) = true) as [k ->]%Nat.odd_spec by (rewrite <- Nat.negb_even, He; done); rewrite Nat.mul_comm, Nat.add_comm; apply Nat.Div0.mod_add). cbn [Nat.eqb drop app]. change (rd (x :: p ++ 0xFF :: r) 0) with x.
    apply nibbles_cons in Hp as [Hx Hp]. rewrite (pack_nibbles_spec (length p)), nibble_lor by (done || destruct leaf; lia). unfold u8. rewrite Z.mod_small by (destruct leaf; lia). f_equal. destruct leaf; lia.
Qed.
Lemma path_of_item p leaf : forallb nibbleb p = true -> trie_path_to_nibbles (hex_prefix p leaf) true = p ++ [0xFF].
Proof. intros Hp. by destruct (nibs_hex_prefix p leaf Hp). Qed.

(** ** Replacing an item *)
Section Node.
Context `{Keccak} `{Allocator}.
Lemma items_tail x its n : node_is x its -> items_ok its -> let pos := s_data (tn_items x) + zlen (enc_items (take n its)) in
  mem_read (mem_of (tn_data x)) (mk_slice pos (zlen (tn_data x) - pos)) = enc_items (drop n its) /\ zlen (tn_data x) - pos = zlen (enc_items (drop n its)).
Proof.
  intros Hx Hok pos. destruct (node_is_mem _ _ Hx Hok) as ((P1 & P2 & P3) & Hm & He). apply mem_read_at in Hm as [Hl Hm]; [|done]. rewrite <- (take_drop n its), enc_items_app, length_app in Hl. rewrite <- (take_drop n its), enc_items_app in Hm. apply mem_at_app in Hm as [_ Hm].
  assert (zlen (tn_data x) - pos = zlen (enc_items (drop n its))) as Hlen by (unfold pos; rewrite <- He; lia). split; [|done]. apply mem_read_at; [cbn [s_len]; lia|]. cbn [s_data s_len]. done.
Qed.
Lemma enc_items_insert its n val : (n < length its)%nat -> enc_items (<[n := Str val]> its) = (enc_items (take n its) ++ rlp_string val) ++ enc_items (drop (S n) its).
Proof. intros Hn. rewrite insert_take_drop by done. rewrite enc_items_app, <- app_assoc. done. Qed.
Lemma set_item_spec x its n val : node_is x its -> items_ok its -> (n < length its)%nat -> items_ok (<[n := Str val]> its) ->
  exists x', set_item x (Z.of_nat n) val false = Some x' /\ node_is x' (<[n := Str val]> its) /\ tn_hash x' = tn_hash x /\ tn_type x' = tn_type x /\ tn_own x' = true.
Proof.
  intros Hx Hok Hn Hok'. destruct (node_is_mem _ _ Hx Hok) as (Hp & Hm & He). pose proof (items_tail x its (S n) Hx Hok) as [Ht1 Ht2]. cbn zeta in Ht1, Ht2. destruct (lookup_lt_is_Some_2 its n Hn) as [it Hit].
  destruct (node_item_spec x its n it Hx Hok Hit) as (d & Hd & _ & _ & _ & Hend). unfold node_item in Hd.
  assert (zlen (rlp_string val) + zlen (enc_items (take n its)) + zlen (enc_items (drop (S n) its)) < 0x10000) as Hsz by (destruct Hok' as [_ Hl]; rewrite enc_items_insert, !length_app in Hl by done; lia).
  assert (zlen val <= zlen (rlp_string val)) as Hv by (rewrite rlp_string_unfold, length_app; lia).
  assert (exists bb item, (if Z.of_nat n =? 0 then bb ← rlp_encode_item bb_new val; Some (None, bb)
    else '(_, item) ← dec (mem_of (tn_data x)) false (tn_items x) (Z.of_nat n - 1); item ← item; bb ← bb_write_raw_bytes bb_new (items_up_to (mem_of (tn_data x)) (tn_items x) item); bb ← rlp_encode_item bb val; Some (Some item, bb)) = Some (item, bb) /\
    bb_rep bb (enc_items (take n its) ++ rlp_string val)) as (bb & item & E1 & R1).
  { destruct n as [|n].
    - destruct (rlp_encode_item_rep bb_new [] val bb_new_rep) as (b & Eb & R); [cbn [length]; lia|]. exists b, None. cbn [Z.of_nat Z.eqb]. rewrite Eb. done.
    - destruct (lookup_lt_is_Some_2 its n) as [it' Hit']; [lia|]. destruct (node_item_spec x its n it' Hx Hok Hit') as (d' & Hd' & _). unfold node_item in Hd'. rewrite (proj2 (Z.eqb_neq _ _)) by lia. replace (Z.of_nat (S n) - 1) with (Z.of_nat n) by lia. rewrite Hd'. cbn [mbind option_bind].
      rewrite (items_up_to_spec _ its (tn_items x) n it' d') by (done || by destruct Hok; try lia). destruct (bb_write_raw_bytes_rep bb_new [] (enc_items (take (S n) its)) bb_new_rep) as (b & -> & R); [cbn [length]; lia|]. cbn [mbind option_bind app] in *.
      destruct (rlp_encode_item_rep b _ val R) as (b2 & Eb & R2); [lia|]. exists b2, (Some d'). rewrite Eb. done. }
  unfold set_item. rewrite E1. cbn [mbind option_bind]. rewrite Hd. cbn [mbind option_bind]. rewrite Hend, He.
  assert (exists bb2, (if s_data (tn_items x) + zlen (enc_items (take (S n) its)) <? zlen (tn_data x) then bb_write_raw_bytes bb (mem_read (mem_of (tn_data x)) (mk_slice (s_data (tn_items x) + zlen (enc_items (take (S n) its))) (zlen (tn_data x) - (s_data (tn_items x) + zlen (enc_items (take (S n) its)))))) else Some bb) = Some bb2 /\
    bb_rep bb2 (enc_items (<[n := Str val]> its))) as (bb2 & -> & R2).
  { rewrite enc_items_insert by done. destruct (Z.ltb_spec (s_data (tn_items x) + zlen (enc_items (take (S n) its))) (zlen (tn_data x))).
    - rewrite Ht1. apply bb_write_raw_bytes_rep; [done|]. rewrite length_app. lia.
    - exists bb. split; [done|]. assert (enc_items (drop (S n) its) = []) as -> by (apply nil_length_inv; lia). by rewrite app_nil_r. }
  cbn [mbind option_bind]. pose proof R2 as [Hlen _]. rewrite Hlen. destruct (rlp_encode_to_list_rep bb2 _ R2) as (bb3 & -> & R3); [by destruct Hok'|]. cbn [mbind option_bind]. rewrite (bb_bytes_rep _ _ R3). cbn [mbind option_bind].
  eexists. split; [done|]. cbn [tn_hash tn_type tn_own]. split; [|done]. split; [done|]. cbn [tn_items]. unfold rlp_list. rewrite length_app. f_equal. lia.
Qed.

(** ** New nodes *)
Lemma encode_add_all_rep vals : forall bb c, bb_rep bb c -> zlen c + zlen (enc_items (map Str vals)) < 0x10000 -> exists bb', encode_add_all bb vals = Some bb' /\ bb_rep bb' (c ++ enc_items (map Str vals)).
Proof.
  induction vals as [|v vals IH]; intros bb c R Hl; cbn [encode_add_all map]; [exists bb; by rewrite app_nil_r|]. change (enc_items (map Str (v :: vals))) with (rlp_string v ++ enc_items (map Str vals)) in *. rewrite length_app in Hl.
  assert (zlen v <= zlen (rlp_string v)) by (rewrite rlp_string_unfold, length_app; lia). destruct (rlp_encode_item_rep bb c v R) as (b & -> & R1); [lia|]. cbn [mbind option_bind]. destruct (IH b _ R1) as (b2 & E & R2); [rewrite length_app; lia|]. exists b2. split; [done|]. rewrite <- app_assoc in R2. exact R2.
Qed.
Lemma encode_finish_spec bb its : bb_rep bb (enc_items its) -> items_ok its -> encode_finish bb = Some (rlp_list (enc_items its)).
Proof. intros R [_ Hl]. unfold encode_finish. destruct (rlp_encode_to_list_rep bb _ R Hl) as (b & -> & R2). cbn [mbind option_bind]. by apply bb_bytes_rep. Qed.
Definition type_of (its : list rlp_item) (ty : trie_node_type_t) : Prop :=
  (length its = 17%nat /\ ty = NODE_BRANCH) \/ (exists p leaf it, forallb nibbleb p = true /\ its = [Str (hex_prefix p leaf); it] /\ ty = if leaf : bool then NODE_LEAF else NODE_EXT).
Lemma node_of_spec its own ty : items_ok its -> type_of its ty ->
  exists x, node_of (rlp_list (enc_items its)) own = Some x /\ node_is x its /\ tn_hash x = replicate 32 0 /\ tn_type x = Some ty /\ tn_own x = own.
Proof.
  intros Hok Hty. pose proof Hok as [Hf Hl]. set (data := rlp_list (enc_items its)). assert (enc_items [Lst (enc_items its)] = data) as E1 by (unfold enc_items at 1; cbn [map concat]; apply app_nil_r).
  assert (zlen data < 2 ^ 31) as Hsd by (unfold data, rlp_list; rewrite length_app; pose proof (rlp_header_length 0xc0 (zlen (enc_items its))); lia).
  destruct (decode_item_end (mem_of data) false (mk_slice 0 (zlen data)) [Lst (enc_items its)] 0 (Lst (enc_items its))) as (d & Hd & D1 & D2 & D3 & D4); rewrite ?E1; try done; try (cbn [s_data s_len]; lia); [|apply mem_at_mem_of|].
  { constructor; [|constructor]. split; [by apply enc_items_bytes_ok|cbn [item_bytes]; lia]. }
  cbn [item_bytes] in *. cbn [take] in D4. rewrite E1 in D4. cbn [s_data] in D4. assert (d = mk_slice (zlen (rlp_header 0xc0 (zlen (enc_items its)))) (zlen (enc_items its))) as Ed by (destruct d as [a b]; cbn [s_data s_len] in *; unfold data, rlp_list in D4; rewrite length_app in D4; f_equal; lia).
  change (Z.of_nat 0) with 0 in Hd. unfold node_of, dec. rewrite Hd. cbn [mbind option_bind]. set (x := mk_tnode (replicate 32 0) data d own (Some ty)). assert (node_is x its) as Hx by (split; done).
  destruct (node_is_mem x its Hx Hok) as (Hp & Hm & He). cbn [tn_data tn_items x] in Hp, Hm, He. pose proof (dec_count (mem_of data) its Hf ltac:(lia) d Hp Hm) as Hc. unfold dec in Hc. destruct (rlp_decode _ false d (-1)) as [r o| |]; try done. injection Hc as -> ->. cbn [mbind option_bind].
  exists x. split; [|done]. destruct Hty as [[Hlen ->]|(p & leaf & it & Hpn & -> & ->)]; [rewrite Hlen; done|]. change (zlen [Str (hex_prefix p leaf); it]) with 2. cbn [Z.eqb Pos.eqb].
  destruct (node_item_spec x _ 0 _ Hx Hok eq_refl) as (d2 & Hd2 & Hr & _). unfold node_item in Hd2. cbn [tn_data tn_items x] in Hd2, Hr. change (dec (mem_of data) false d 0 = Some (1, Some d2)) in Hd2. unfold dec in Hd2. rewrite Hd2. cbn [mbind option_bind item_bytes] in *.
  destruct (nibs_hex_prefix p leaf Hpn) as (_ & Hleaf & Hne). unfold read_slice, read_at in Hr. destruct (_ <=? _)%nat; [|done]. injection Hr as Hr. destruct (hex_prefix p leaf) as [|b rest] eqn:Eh; [done|].
  assert (data !! Z.to_nat (s_data d2) = Some b) as ->.
  { destruct (drop (Z.to_nat (s_data d2)) data) as [|b' rest'] eqn:Edr; [by rewrite take_nil in Hr|]. destruct (Z.to_nat (s_len d2)); [done|]. injection Hr as -> _. rewrite <- (Nat.add_0_r (Z.to_nat (s_data d2))), <- lookup_drop, Edr. done. }
  cbn [mbind option_bind]. change (rd (b :: rest) 0) with b in Hleaf. destruct (Z.land b 32 =? 0), leaf; done.
Qed.
End Node.
