(* ===== verification/TrieStore.v ===== *)
(** * verifier/eth1/basic/trie.c: the nodes of a trie on the heap

    The list of nodes holds a trie if each of its nodes can be found by its hash.  Nodes are changed in place:
    for a while, and for a collapsed extension for good, an entry has the hash of a node that it no
    longer shows.  Setting a value that occurs nowhere else under a new key leaves a list that
    holds the trie with the value ([handle_ok]). *)
From S2P Require Import Prelude Utils Bytes Rlp Merkle Serialize BasicTx TxSafety Trie TrieSpec TrieNode.
#[local] Open Scope Z_scope.

Lemma mrun {S A B} (m : M S A) (k : A -> M S B) s a s1 : m s = Ok a s1 -> (m ≫= k) s = k a s1.
Proof. unfold mbind, M_bind. by intros ->. Qed.

Lemma defined_ok {S A} (o : option A) a (s : S) : o = Some a -> defined o s = Ok a s.
Proof. by intros ->. Qed.
#[local] Ltac mstep E := rewrite (mrun _ _ _ _ _ E); cbv beta.
#[local] Ltac dstep E := rewrite (mrun _ _ _ _ _ (defined_ok _ _ _ E)); cbv beta.

Section Enc.
Context `{Keccak} `{Allocator}.
Definition H_ (t : trie) : list Z := keccak (node_enc t).
Definition ref_of (c : trie) : list Z := if is_empty c then [] else H_ c.
Definition ty_of (t : trie) : trie_node_type_t := match t with Merkle.Empty => NODE_EMPTY | Leaf _ _ => NODE_LEAF | Ext _ _ => NODE_EXT | Branch _ _ => NODE_BRANCH end.
Lemma hex_prefix_length p leaf : (length (hex_prefix p leaf) <= S (length p))%nat.
Proof.
  assert (forall n l, (length l <= n)%nat -> (length (pack l) <= length l)%nat) as Hp by (induction n as [|n IH]; intros [|x [|y l]] Hl; cbn [pack length] in *; try lia; specialize (IH l); lia).
  unfold hex_prefix. destruct p as [|x p]; [done|]. pose proof (Hp _ (x :: p) (le_n _)). pose proof (Hp _ p (le_n _)). destruct (Nat.even _); cbn [length] in *; lia.
Qed.
Lemma rlp_string_bound l : zlen l <= zlen (rlp_string l) <= zlen l + 5.
Proof. split; [rewrite rlp_string_unfold, length_app; lia|apply rlp_string_size]. Qed.
Lemma H_length t : length (H_ t) = 32%nat.
Proof. apply keccak_length. Qed.
Lemma ref_length c : (length (ref_of c) <= 32)%nat.
Proof. unfold ref_of. destruct (is_empty c); [cbn; lia|]. by rewrite H_length. Qed.
Lemma refs_size cs : zlen (enc_items (map (fun c => Str (ref_of c)) cs)) <= 37 * zlen cs.
Proof.
  induction cs as [|c cs IH]; [done|]. cbn [map]. change (enc_items (?x :: ?l)) with (enc_item x ++ enc_items l). cbn [enc_item]. rewrite length_app. pose proof (rlp_string_bound (ref_of c)). pose proof (ref_length c). cbn [length] in *. lia.
Qed.
Lemma enc_two a b : enc_items [Str a; Str b] = rlp_string a ++ rlp_string b.
Proof. unfold enc_items. cbn [map concat enc_item]. by rewrite app_nil_r. Qed.
(** What a node with these references is encoded as. *)
Definition plain_items (t : trie) : list rlp_item :=
  match t with
  | Merkle.Empty => []
  | Leaf p v => [Str (hex_prefix p true); Str v]
  | Ext p c => [Str (hex_prefix p false); Str (ref_of c)]
  | Branch cs w => map (fun c => Str (ref_of c)) cs ++ [Str w]
  end.
Lemma value_size v : value_ok v = true -> 32 <= zlen v <= 0xf000 /\ bytes_ok v.
Proof. unfold value_ok. rewrite !andb_true_iff, !Z.leb_le. intros [[? ?] ?]. split; [lia|by apply bytes_okb]. Qed.
Lemma ref_ok c : item_ok (Str (ref_of c)).
Proof. split; [unfold ref_of; cbn [item_bytes]; destruct (is_empty c); [constructor|apply keccak_ok]|]. pose proof (ref_length c). cbn [item_bytes]. lia. Qed.
Lemma path_item_ok p leaf : path_ok p = true -> item_ok (Str (hex_prefix p leaf)) /\ zlen (rlp_string (hex_prefix p leaf)) <= 70.
Proof.
  intros [Hn Hl%Nat.leb_le]%andb_prop. pose proof (hex_prefix_length p leaf). pose proof (rlp_string_bound (hex_prefix p leaf)). split; [split; [by apply hex_prefix_ok|cbn [item_bytes]; lia]|lia].
Qed.
Lemma plain_ok t : built t = true -> items_ok (plain_items t) /\ 32 <= zlen (enc_items (plain_items t)).
Proof.
  intros Hb. destruct t as [|p v|p c|cs w]; [done| | |].
  - apply built_leaf in Hb as [Hp [Hs Hv]%value_size]. destruct (path_item_ok p true Hp) as [H1 H2]. pose proof (rlp_string_bound v). unfold items_ok. cbn [plain_items]. rewrite enc_two, length_app. split; [|lia]. split; [|lia].
    repeat constructor; try apply H1; cbn [item_bytes]; [done|lia].
  - apply built_Ext in Hb as (_ & Hp & Hbr & _). destruct (path_item_ok p false Hp) as [H1 H2]. pose proof (rlp_string_bound (ref_of c)) as Hr. unfold items_ok. cbn [plain_items]. rewrite enc_two, length_app.
    assert (length (ref_of c) = 32%nat) as E by (destruct c; try done; apply H_length). rewrite E in Hr. split; [|lia]. split; [|lia]. constructor; [done|]. constructor; [apply ref_ok|constructor].
  - pose proof (built_branch _ _ Hb) as [Hl Hw]. pose proof (refs_size cs) as Hrs. pose proof (rlp_string_bound w). unfold items_ok. cbn [plain_items]. rewrite enc_items_app, length_app. change (enc_items [Str w]) with (rlp_string w ++ []). rewrite app_nil_r.
    assert (zlen w <= 0xf000 /\ bytes_ok w) as [Hwl Hwb] by (destruct Hw as [->|[? ?]%value_size]; [split; [done|apply Forall_nil_2]|split; [lia|done]]). split; [split; [|lia]|].
    + apply Forall_app. split; [apply Forall_map, Forall_forall; intros; apply ref_ok|]. constructor; [|constructor]. split; [done|cbn [item_bytes]; lia].
    + cbn [built] in Hb. rewrite !andb_true_iff in Hb. destruct Hb as [_ (c & Hc & Hne)%existsb_exists]. apply (in_map (fun c => Str (ref_of c))) in Hc. apply enc_items_longer in Hc. cbn [item_bytes] in Hc. unfold ref_of in Hc at 1. destruct (is_empty c); [done|]. rewrite H_length in Hc. lia.
Qed.
Lemma child_plain c : c = Merkle.Empty \/ (built c = true /\ node_items c = plain_items c) -> child_ref (is_empty c) (node_items c) = Str (ref_of c).
Proof.
  intros [->|[Hb E]]; [done|]. unfold ref_of. assert (is_empty c = false) as He by (by destruct c). rewrite He. rewrite <- He at 1. apply child_ref_hashed. unfold hashed. rewrite He, andb_true_r. apply Nat.leb_le. unfold node_enc. rewrite He, E.
  destruct (plain_ok c Hb) as [_ Hl]. unfold rlp_list. rewrite length_app. lia.
Qed.
Lemma node_items_plain t : built t = true -> node_items t = plain_items t.
Proof.
  induction t as [|p v|p c IH|cs w IH] using trie_nested_ind; intros Hb; [done|done| |]; cbn [node_items plain_items].
  - apply built_Ext in Hb as (_ & _ & _ & Hb). rewrite child_plain; [done|]. right. auto.
  - f_equal. apply map_ext_in. intros c Hc. apply list_elem_of_In in Hc. apply child_plain. rewrite Forall_forall in IH. apply list_elem_of_lookup in Hc as [n Hc]. destruct (built_child _ _ _ _ Hb Hc) as [->|Hbc]; [by left|right]. split; [done|]. apply IH; [by eapply list_elem_of_lookup_2|done].
Qed.
Lemma node_enc_plain t : built t = true -> node_enc t = rlp_list (enc_items (plain_items t)).
Proof. intros Hb. unfold node_enc. assert (is_empty t = false) as -> by (by destruct t). by rewrite node_items_plain. Qed.
Lemma node_enc_long t : built t = true -> 32 <= zlen (node_enc t).
Proof. intros Hb. rewrite node_enc_plain by done. destruct (plain_ok t Hb). unfold rlp_list. rewrite length_app. lia. Qed.
Lemma plain_type t : built t = true -> type_of (plain_items t) (ty_of t).
Proof.
  intros Hb. destruct t as [|p v|p c|cs w]; [done| | |].
  - right. exists p, true, (Str v). split; [|done]. by apply built_leaf in Hb as [?%path_nibbles _].
  - right. exists p, false, (Str (ref_of c)). split; [|done]. by apply built_Ext in Hb as (_ & ?%path_nibbles & _).
  - left. split; [|done]. cbn [plain_items]. rewrite length_app, length_map. by destruct (built_branch _ _ Hb) as [-> _].
Qed.
End Enc.

(** ** Entries of the list *)
Definition entry (S : trie_t) (i : nat) (x : trie_node_t) : Prop := t_heap S !! i = Some (Some x).
(** Only the node [n] differs. *)
Definition local_to (n : nat) (S S1 : trie_t) : Prop := t_nodes S1 = t_nodes S /\ t_root S1 = t_root S /\ forall j, j <> n -> t_heap S1 !! j = t_heap S !! j.
Lemma entry_other n S S1 j x : local_to n S S1 -> entry S j x -> j <> n -> entry S1 j x.
Proof. intros (_ & _ & Hl) He Hne. unfold entry. by rewrite Hl. Qed.
Lemma node_at_ok S i x : entry S i x -> node_at i S = Ok x S.
Proof. intros He. unfold node_at. rewrite (mrun _ _ S (t_heap S) S) by done. unfold entry in He. cbv beta. dstep He. done. Qed.
Lemma put_node_ok S i x x' : entry S i x -> exists S1, put_node i x' S = Ok tt S1 /\ entry S1 i x' /\ local_to i S S1.
Proof.
  intros He. exists (with_heap (<[i := Some x']> (t_heap S)) S). split; [done|]. split; [unfold entry; cbn; apply list_lookup_insert_eq; by apply lookup_lt_Some in He|]. split; [done|]. split; [done|]. intros j Hj. cbn. by rewrite list_lookup_insert_ne.
Qed.
Lemma alloc_node_ok S x : exists n S1, alloc_node x S = Ok n S1 /\ entry S1 n x /\ local_to n S S1 /\ t_heap S !! n = None.
Proof.
  exists (length (t_heap S)), (with_heap (t_heap S ++ [Some x]) S). split; [done|]. split; [unfold entry; cbn; rewrite lookup_app_r, Nat.sub_diag by lia; done|]. split; [|apply lookup_ge_None; lia]. split; [done|]. split; [done|].
  intros j Hj. cbn. destruct (decide (j < length (t_heap S))%nat); [by rewrite lookup_app_l|]. rewrite (lookup_ge_None_2 (t_heap S)) by lia. apply lookup_ge_None_2. rewrite length_app. cbn [length]. lia.
Qed.

Section Ops.
Context `{Keccak} `{Allocator}.
(** The node shows [u], whatever hash it has. *)
Definition shows (x : trie_node_t) (u : trie) : Prop := node_is x (plain_items u) /\ tn_type x = Some (ty_of u) /\ tn_own x = true.
Lemma set_item_at_ok S n x its i val : entry S n x -> node_is x its -> items_ok its -> (i < length its)%nat -> items_ok (<[i := Str val]> its) ->
  exists x' S1, trie_node_set_item n (Z.of_nat i) val false S = Ok tt S1 /\ entry S1 n x' /\ local_to n S S1 /\ node_is x' (<[i := Str val]> its) /\ tn_hash x' = tn_hash x /\ tn_type x' = tn_type x /\ tn_own x' = true.
Proof.
  intros He Hx Hok Hi Hok'. destruct (set_item_spec x its i val Hx Hok Hi Hok') as (x' & Es & Hr). destruct (put_node_ok S n x x' He) as (S1 & Ep & He1 & Hl). exists x', S1. split; [|done].
  unfold trie_node_set_item. mstep (node_at_ok _ _ _ He). by dstep Es.
Qed.
Lemma new_node_ok S its ty : items_ok its -> type_of its ty ->
  exists n x S1, trie_node_new (rlp_list (enc_items its)) true S = Ok n S1 /\ entry S1 n x /\ local_to n S S1 /\ t_heap S !! n = None /\ node_is x its /\ tn_type x = Some ty /\ tn_own x = true.
Proof.
  intros Hok Hty. destruct (node_of_spec its true ty Hok Hty) as (x & Ex & Hx & _ & Ht & Ho). destruct (alloc_node_ok S x) as (n & S1 & Ea & He & Hl & Hn). exists n, x, S1. split; [|done]. unfold trie_node_new. by dstep Ex.
Qed.
Lemma new_shows S u : built u = true -> exists n x S1, trie_node_new (node_enc u) true S = Ok n S1 /\ entry S1 n x /\ local_to n S S1 /\ t_heap S !! n = None /\ shows x u.
Proof. intros Hb. destruct (plain_ok u Hb) as [Hok _]. rewrite node_enc_plain by done. destruct (new_node_ok S _ _ Hok (plain_type u Hb)) as (n & x & S1 & ? & ? & ? & ? & ? & ? & ?). by exists n, x, S1. Qed.
Lemma create_leaf_ok S p v : built (Leaf p v) = true -> exists n x S1, trie_node_create_leaf (p ++ [0xFF]) v S = Ok n S1 /\ entry S1 n x /\ local_to n S S1 /\ t_heap S !! n = None /\ shows x (Leaf p v).
Proof.
  intros Hb. destruct (new_shows S _ Hb) as (n & x & S1 & En & Hr). exists n, x, S1. split; [|done]. rewrite <- En, node_enc_plain by done. pose proof (built_leaf _ _ Hb) as [Hp Hv]. destruct (plain_ok _ Hb) as [Hok _]. cbn [plain_items] in *. unfold trie_node_create_leaf.
  assert (match v with [] => NODE_EXT | _ => NODE_LEAF end = NODE_LEAF) as -> by (by destruct v). dstep (value_from_nibbles_spec true p [] (path_nibbles _ Hp)). cbn [default from_option].
  destruct (encode_add_all_rep [hex_prefix p true; v] bb_new [] bb_new_rep) as (bb & Eb & R); [destruct Hok; cbn [length map]; lia|]. cbn [map app] in R. unfold id. dstep Eb. by dstep (encode_finish_spec bb _ R Hok).
Qed.
(** The items of a branch before its children are set. *)
Definition bare (w : list Z) : list rlp_item := plain_items (Branch no_children w).
Lemma bare_ok w : (w = [] \/ value_ok w = true) -> items_ok (bare w) /\ type_of (bare w) NODE_BRANCH.
Proof.
  intros Hw. assert (zlen w <= 0xf000 /\ bytes_ok w) as [Hl Hb] by (destruct Hw as [->|[? ?]%value_size]; [split; [done|apply Forall_nil_2]|split; [lia|done]]). split; [|left; done]. unfold bare. cbn [plain_items]. split.
  - apply Forall_app. split; [apply Forall_map, Forall_forall; intros; apply ref_ok|]. constructor; [|constructor]. split; [done|cbn [item_bytes]; lia].
  - rewrite enc_items_app, length_app. pose proof (refs_size no_children). pose proof (rlp_string_bound w). change (enc_items [Str w]) with (rlp_string w ++ []). rewrite app_nil_r. change (zlen no_children) with 16 in *. lia.
Qed.
Lemma create_branch_ok S o : (default [] o = [] \/ value_ok (default [] o) = true) ->
  exists n x S1, trie_node_create_branch o S = Ok n S1 /\ entry S1 n x /\ local_to n S S1 /\ t_heap S !! n = None /\ node_is x (bare (default [] o)) /\ tn_type x = Some NODE_BRANCH /\ tn_own x = true.
Proof.
  intros Hw. destruct (bare_ok _ Hw) as [Hok Hty]. destruct (new_node_ok S _ _ Hok Hty) as (n & x & S1 & En & Hr). exists n, x, S1. split; [|done]. rewrite <- En. unfold trie_node_create_branch. set (w := default [] o) in *.
  assert (map Str (replicate 16 [] ++ [w]) = bare w) as Em by done. destruct (encode_add_all_rep (replicate 16 [] ++ [w]) bb_new [] bb_new_rep) as (bb & Eb & R); [rewrite Em; destruct Hok; cbn [length]; lia|]. rewrite Em in R.
  dstep Eb. by dstep (encode_finish_spec bb _ R Hok).
Qed.
Lemma create_ext_ok S p r c : built (Ext p c) = true -> exists n x S1, trie_node_create_ext (p ++ 0xFF :: r) (hash_key (H_ c)) S = Ok n S1 /\ entry S1 n x /\ local_to n S S1 /\ t_heap S !! n = None /\ shows x (Ext p c).
Proof.
  intros Hb. destruct (new_shows S _ Hb) as (n & x & S1 & En & Hr). exists n, x, S1. split; [|done]. rewrite <- En, node_enc_plain by done. pose proof (built_Ext _ _ Hb) as (_ & Hp & Hbr & _). destruct (plain_ok _ Hb) as [Hok _]. cbn [plain_items] in *. unfold trie_node_create_ext.
  assert (ref_of c = H_ c) as Er by (by destruct c). rewrite Er in *. dstep (value_from_nibbles_spec false p r (path_nibbles _ Hp)). cbn [default from_option]. unfold id.
  pose proof Hok as [_ Hl]. rewrite enc_two, length_app in Hl. destruct (encode_add_all_rep [hex_prefix p false] bb_new [] bb_new_rep) as (bb & Eb & R); [change (enc_items (map Str [hex_prefix p false])) with (rlp_string (hex_prefix p false) ++ []); rewrite app_nil_r; cbn [length]; lia|].
  dstep Eb. change ([] ++ enc_items (map Str [hex_prefix p false])) with (rlp_string (hex_prefix p false) ++ []) in R. rewrite app_nil_r in R. pose proof (rlp_string_bound (hex_prefix p false)).
  destruct (rlp_encode_item_rep bb _ (H_ c) R) as (bb2 & Eb2 & R2); [rewrite H_length; lia|]. dstep Eb2. rewrite <- enc_two in R2. by dstep (encode_finish_spec bb2 _ R2 Hok).
Qed.
(** Another path for a leaf or an extension. *)
Lemma set_path_ok S n x its leaf p r it : entry S n x -> node_is x (it :: its) -> items_ok (it :: its) -> tn_type x = Some (if leaf : bool then NODE_LEAF else NODE_EXT) -> path_ok p = true -> items_ok (Str (hex_prefix p leaf) :: its) ->
  exists x' S1, trie_node_set_path n (p ++ 0xFF :: r) S = Ok tt S1 /\ entry S1 n x' /\ local_to n S S1 /\ node_is x' (Str (hex_prefix p leaf) :: its) /\ tn_hash x' = tn_hash x /\ tn_type x' = tn_type x /\ tn_own x' = true.
Proof.
  intros He Hx Hok Hty Hp Hok'. destruct (set_item_at_ok S n x _ 0 (hex_prefix p leaf) He Hx Hok) as (x' & S1 & Es & Hr); [cbn [length]; lia|done|]. exists x', S1. split; [|done]. unfold trie_node_set_path. mstep (node_at_ok _ _ _ He). dstep Hty.
  dstep (value_from_nibbles_spec leaf p r (path_nibbles _ Hp)). exact Es.
Qed.
End Ops.

(** ** Finding nodes by their hash *)
Section Store.
Context `{Keccak} `{Allocator} (known : trie -> Prop).
Context (Hbuilt : forall u, known u -> built u = true) (Hinj : forall u w, known u -> known w -> H_ u = H_ w -> u = w) (Hnz : forall u, known u -> H_ u <> replicate 32 0).
Implicit Types (D : trie -> Prop) (u w : trie).
(** An entry has the hash of a node, and shows it unless it is in [D]. *)
Definition cell D (x : trie_node_t) : Prop := exists u, known u /\ tn_hash x = H_ u /\ (shows x u \/ D u).
Definition inv D (S : trie_t) : Prop := forall i, i ∈ t_nodes S -> exists x, entry S i x /\ cell D x.
Definition listed (S : trie_t) u : Prop := exists i x, i ∈ t_nodes S /\ entry S i x /\ tn_hash x = H_ u.

Lemma inv_mono D D' S : (forall u, known u -> D u -> D' u) -> inv D S -> inv D' S.
Proof. intros HD Hi i Hin. destruct (Hi i Hin) as (x & He & u & Hu & Hh & Hs). exists x. split; [done|]. exists u. split; [done|]. split; [done|]. destruct Hs; auto. Qed.
Lemma inv_local D S S1 n : local_to n S S1 -> n ∉ t_nodes S -> inv D S -> inv D S1 /\ forall u, listed S u -> listed S1 u.
Proof.
  intros Hl Hn Hi. pose proof Hl as (En & _ & _). split.
  - intros i Hin. rewrite En in Hin. destruct (Hi i Hin) as (x & He & Hc). exists x. split; [|done]. eapply entry_other; [done|done|]. by intros ->.
  - intros u (i & x & Hin & He & Hh). exists i, x. rewrite En. split; [done|]. split; [|done]. eapply entry_other; [done|done|]. by intros ->.
Qed.
(** A node in the list that is changed keeps its hash, and is in [D] from then on. *)
Lemma inv_touch D S S1 n x x' t : local_to n S S1 -> entry S n x -> entry S1 n x' -> tn_hash x' = tn_hash x -> tn_hash x = H_ t -> known t -> inv D S -> inv (fun u => D u \/ u = t) S1 /\ forall u, listed S u -> listed S1 u.
Proof.
  intros Hl He He1 Hh Ht Hk Hi. pose proof Hl as (En & _ & _). split.
  - intros i Hin. rewrite En in Hin. destruct (decide (i = n)) as [->|Hne]; [exists x'; split; [done|]; exists t; split; [done|]; split; [congruence|by right; right]|].
    destruct (Hi i Hin) as (y & Hy & u & Hu & Huh & Hs). exists y. split; [by eapply entry_other|]. exists u. split; [done|]. split; [done|]. destruct Hs; auto.
  - intros u (i & y & Hin & Hy & Hyh). destruct (decide (i = n)) as [->|Hne]; [|exists i, y; rewrite En; split_and!; [done|by eapply entry_other|done]]. exists n, x'. rewrite En. split_and!; [done|done|]. unfold entry in *. congruence.
Qed.
Lemma not_in_nodes D S n : inv D S -> t_heap S !! n = None -> n ∉ t_nodes S.
Proof. intros Hi Hn Hin. destruct (Hi n Hin) as (x & He & _). unfold entry in He. congruence. Qed.
Lemma find_ok D S u : inv D S -> known u -> ~ D u -> listed S u -> exists i x, get_node (H_ u) S = Ok (Some i) S /\ i ∈ t_nodes S /\ entry S i x /\ tn_hash x = H_ u /\ shows x u.
Proof.
  intros Hi Hk Hd (i0 & x0 & Hin0 & He0 & Hh0). unfold get_node. rewrite (mrun _ _ S (t_nodes S) S) by done. cbv beta.
  assert (forall l, (forall i, i ∈ l -> i ∈ t_nodes S) -> i0 ∈ l -> exists i x, find_node (H_ u) l S = Ok (Some i) S /\ i ∈ t_nodes S /\ entry S i x /\ tn_hash x = H_ u /\ shows x u) as Hl; [|by apply Hl].
  induction l as [|i l IH]; intros Hsub Hin; [by apply not_elem_of_nil in Hin|]. cbn [find_node]. destruct (Hi i) as (x & He & w & Hw & Hh & Hs); [apply Hsub; left|]. mstep (node_at_ok _ _ _ He).
  rewrite memcmp_eq by (by rewrite Hh, !H_length). case_bool_decide as E.
  - exists i, x. split; [done|]. split; [apply Hsub; left|]. split; [done|]. split; [done|]. assert (w = u) as -> by (apply Hinj; congruence). by destruct Hs.
  - apply IH; [intros j Hj; apply Hsub; by right|]. apply elem_of_cons in Hin as [->|]; [|done]. unfold entry in *. congruence.
Qed.
(** [update_db] for a node that shows [u]. *)
Lemma update_ok D S n x u top : inv D S -> entry S n x -> shows x u -> known u ->
  exists x1 S1, update_db n top S = Ok (hash_key (H_ u)) S1 /\ inv D S1 /\ listed S1 u /\ (forall w, listed S w -> (n ∈ t_nodes S -> tn_hash x <> H_ w) -> listed S1 w) /\ t_root S1 = t_root S /\
    (forall j, j <> n -> t_heap S1 !! j = t_heap S !! j) /\ entry S1 n x1 /\ shows x1 u /\ tn_hash x1 = H_ u /\ (forall j, j ∈ t_nodes S1 <-> j = n \/ j ∈ t_nodes S).
Proof.
  intros Hi He Hs Hk. pose proof (Hbuilt u Hk) as Hb. assert (tn_data x = node_enc u) as Ed by (rewrite node_enc_plain by done; by destruct Hs as [[? _] _]). set (x1 := with_hash (H_ u) x).
  set (nodes1 := if bool_decide (n ∈ t_nodes S) then t_nodes S else n :: t_nodes S). assert (forall j, j ∈ nodes1 <-> j = n \/ j ∈ t_nodes S) as Hn by (intros j; subst nodes1; case_bool_decide; rewrite ?elem_of_cons; [split; [by right|by intros [->|]]|done]).
  exists x1, (mk_trie (t_root S) nodes1 (<[n := Some x1]> (t_heap S))).
  assert (forall j, j <> n -> <[n := Some x1]> (t_heap S) !! j = t_heap S !! j) as Hj by (intros j Hne; by rewrite list_lookup_insert_ne). assert (<[n := Some x1]> (t_heap S) !! n = Some (Some x1)) as Hn1 by (apply list_lookup_insert_eq; by apply lookup_lt_Some in He).
  split_and!; try done.
  - unfold update_db. mstep (node_at_ok _ _ _ He). rewrite Ed, (proj2 (Z.ltb_ge _ _)) by (by apply node_enc_long). cbn [andb]. rewrite (mrun _ _ S (t_nodes S) S) by done. cbv beta. unfold nodes1. case_bool_decide; done.
  - intros i Hin. apply Hn in Hin. destruct (decide (i = n)) as [->|Hne]; [exists x1; split; [done|]; exists u; split; [done|]; split; [done|by left]|]. destruct Hin as [|Hin]; [done|]. destruct (Hi i Hin) as (y & Hy & Hc). exists y. split; [|done]. unfold entry in *. cbn. by rewrite Hj.
  - exists n, x1. split_and!; [apply Hn; by left|done|done].
  - intros w (i & y & Hin & Hy & Hyh) Hne. exists i, y. split; [apply Hn; by right|]. destruct (decide (i = n)) as [->|]; [|split; [|done]; unfold entry in *; cbn; by rewrite Hj]. unfold entry in *. exfalso. apply (Hne Hin). congruence.
Qed.
(** A new node. *)
Lemma update_new D S n x u top : inv D S -> entry S n x -> n ∉ t_nodes S -> shows x u -> known u ->
  exists x1 S1, update_db n top S = Ok (hash_key (H_ u)) S1 /\ inv D S1 /\ listed S1 u /\ (forall w, listed S w -> listed S1 w) /\ t_root S1 = t_root S /\
    (forall j, j <> n -> t_heap S1 !! j = t_heap S !! j) /\ entry S1 n x1 /\ shows x1 u /\ tn_hash x1 = H_ u /\ (forall j, j ∈ t_nodes S1 <-> j = n \/ j ∈ t_nodes S).
Proof. intros Hi He Hn Hs Hk. destruct (update_ok D S n x u top Hi He Hs Hk) as (x1 & S1 & ? & ? & ? & Hl & ?). exists x1, S1. split_and!; try done; try (by destruct_and?). intros w Hw. apply Hl; done. Qed.
End Store.
