(* ===== verification/TrieInsert.v ===== *)
(** * verifier/eth1/basic/trie.c: setting a value

    [handle_node], case by case, against [tinsert]. *)
From S2P Require Import Prelude Utils Bytes Rlp Merkle Serialize BasicTx TxSafety Trie TrieSpec TrieNode TrieStore.
#[local] Open Scope Z_scope.
#[local] Ltac mstep E := rewrite (mrun _ _ _ _ _ E); cbv beta.
#[local] Ltac dstep E := rewrite (mrun _ _ _ _ _ (defined_ok _ _ _ E)); cbv beta.

Section Insert.
Context `{Keccak} `{Allocator} (known : trie -> Prop).
Context (Hbuilt : forall u, known u -> built u = true) (Hinj : forall u w, known u -> known w -> H_ u = H_ w -> u = w) (Hnz : forall u, known u -> H_ u <> replicate 32 0).
Context (T : trie) (key v : list Z) (HT : built T = true) (Hkey : path_ok key = true) (Hv : value_ok v = true) (Hfresh : forall w, ~ has_value T key w) (Hd : distinct (tinsert T key v)).
Context (HkT : below known T) (HkT' : below known (tinsert T key v)).
Implicit Types (D : trie -> Prop) (u : trie) (S : trie_t).
#[local] Abbreviation inv := (inv known).

(** ** Items of branches *)
Lemma plain_put i c cs w : length cs = 16%nat -> 0 <= i < 16 -> <[Z.to_nat i := Str (ref_of c)]> (plain_items (Branch cs w)) = plain_items (Branch (put i c cs) w).
Proof. intros Hl Hi. cbn [plain_items]. unfold put. rewrite insert_app_l by (rewrite length_map; lia). by rewrite list_fmap_insert. Qed.
Lemma plain_value cs w w' : length cs = 16%nat -> <[16%nat := Str w']> (plain_items (Branch cs w)) = plain_items (Branch cs w').
Proof. intros Hl. cbn [plain_items]. rewrite <- Hl. rewrite <- (length_map (fun c => Str (ref_of c)) cs) at 1. replace (length (map (fun c => Str (ref_of c)) cs)) with (length (map (fun c => Str (ref_of c)) cs) + 0)%nat by lia. by rewrite insert_app_r. Qed.
Lemma plain_length cs w : length cs = 16%nat -> length (plain_items (Branch cs w)) = 17%nat.
Proof. intros Hl. cbn [plain_items]. by rewrite length_app, length_map, Hl. Qed.
Lemma target_hash S n i h : set_node_target n i (hash_key h) S = trie_node_set_item n i h false S.
Proof. done. Qed.
Lemma built_ref c : built c = true -> ref_of c = H_ c.
Proof. by destruct c. Qed.
(** A child of a branch. *)
Lemma set_child_ok S b x i c cs w : entry S b x -> node_is x (plain_items (Branch cs w)) -> items_ok (plain_items (Branch cs w)) -> length cs = 16%nat -> 0 <= i < 16 -> built c = true -> built (Branch (put i c cs) w) = true ->
  exists x' S1, set_node_target b i (hash_key (H_ c)) S = Ok tt S1 /\ entry S1 b x' /\ local_to b S S1 /\ node_is x' (plain_items (Branch (put i c cs) w)) /\ tn_hash x' = tn_hash x /\ tn_type x' = tn_type x /\ tn_own x' = true.
Proof.
  intros He Hx Hok Hl Hi Hc Hb. destruct (plain_ok _ Hb) as [Hok' _]. rewrite <- built_ref by done.
  destruct (set_item_at_ok S b x _ (Z.to_nat i) (ref_of c) He Hx Hok) as (x' & S1 & Es & He1 & Hl1 & Hx' & Hr); [rewrite plain_length by done; lia|by rewrite plain_put|]. rewrite plain_put in Hx' by done. rewrite Z2Nat.id in Es by lia. exists x', S1. done.
Qed.

(** ** Nodes of the old trie and of the new one *)
Lemma has_new k w : has_value T k w -> has_value (tinsert T key v) k w.
Proof. intros Hw. apply tinsert_spec; [by right|by apply path_nibbles|by apply value_ok_nonempty|]. right. split; [|done]. intros ->. by eapply Hfresh. Qed.
Lemma has_key : has_value (tinsert T key v) key v.
Proof. apply tinsert_spec; [by right|by apply path_nibbles|by apply value_ok_nonempty|]. by left. Qed.
Lemma distinct_old : distinct T.
Proof. intros k1 k2 w H1 H2. eapply Hd; by apply has_new. Qed.
(** A node on the way to the key is not in the new trie. *)
Lemma way_gone u q : on_way T key u -> ~ sub (tinsert T key v) q u.
Proof.
  intros (Hne & q0 & k & Hs & E). destruct (built_has u) as (s & w & Hw); [by eapply sub_built|]. eapply (sub_dead _ q0 _ u s w k v Hd Hw).
  - apply has_new. by eapply sub_up.
  - rewrite <- E. apply has_key.
  - intros Hu. eapply Hfresh. rewrite E. by eapply sub_up.
Qed.
(** The place of the node that is handled: [t] is at [q], and [k] is left of the key. *)
Definition at_ (q : list Z) (t : trie) (k : list Z) : Prop := sub T q t /\ key = q ++ k /\ t <> Merkle.Empty.
Lemma at_built q t k : at_ q t k -> built t = true.
Proof. intros (Hs & _ & Hne). by eapply sub_built. Qed.
Lemma at_path q t k : at_ q t k -> path_ok k = true.
Proof. intros (_ & E & _). rewrite E in Hkey. by apply path_app in Hkey as [_ ?]. Qed.
Lemma at_fresh q t k w : at_ q t k -> ~ has_value t k w.
Proof. intros (Hs & E & _) Hw. eapply Hfresh. rewrite E. by eapply sub_up. Qed.
Lemma at_known q t k : at_ q t k -> known t.
Proof. intros (Hs & _ & Hne). by eapply HkT. Qed.
Lemma at_known_new q t k : at_ q t k -> below known (tinsert t k v).
Proof. intros (Hs & E & Hne) q' u Hu Hu0. eapply HkT'; [|done]. rewrite E. eapply sub_trans; [|done]. apply sub_tinsert; [done|done|]. by rewrite <- E. Qed.
Lemma at_gone q t k q' : at_ q t k -> ~ sub (tinsert t k v) q' t.
Proof.
  intros (Hs & E & Hne) Hsub. apply (way_gone t (q ++ q')); [split; [done|]; by exists q, k|]. rewrite E. eapply sub_trans; [|done]. apply sub_tinsert; [done|done|]. by rewrite <- E.
Qed.
Lemma at_way q t k : at_ q t k -> on_way t k t.
Proof. intros (_ & _ & Hne). split; [done|]. exists [], k. split; [constructor|done]. Qed.
Lemma at_child q cs w x k c : at_ q (Branch cs w) (x :: k) -> cs !! Z.to_nat x = Some c -> 0 <= x -> c <> Merkle.Empty -> at_ (q ++ [x]) c k.
Proof. intros (Hs & E & _) Hc Hx Hne. split; [|split; [by rewrite E, <- app_assoc|done]]. eapply sub_trans; [done|]. by econstructor; [|done|constructor]. Qed.
Lemma at_target q p c k : at_ q (Ext p c) (p ++ k) -> at_ (q ++ p) c k.
Proof.
  intros Ha. pose proof (at_built _ _ _ Ha) as (_ & _ & Hbr & _)%built_Ext. destruct Ha as (Hs & E & _). split; [|split; [by rewrite E, <- app_assoc|by destruct c]]. eapply sub_trans; [done|]. rewrite <- (app_nil_r p) at 2. constructor. constructor.
Qed.

(** An entry with the hash of no node of [t]; it stays as it is. *)
Definition far t S (j : nat) (x : trie_node_t) : Prop := j ∈ t_nodes S /\ entry S j x /\ forall q u, sub t q u -> u <> Merkle.Empty -> tn_hash x <> H_ u.
Definition stays t S S1 : Prop := forall j x, far t S j x -> far t S1 j x.
Lemma stays_trans t S S1 S2 : stays t S S1 -> stays t S1 S2 -> stays t S S2.
Proof. unfold stays. auto. Qed.
Lemma stays_change t S S1 n : (n ∉ t_nodes S \/ exists x u q, entry S n x /\ tn_hash x = H_ u /\ sub t q u /\ u <> Merkle.Empty) -> (forall j, j <> n -> t_heap S1 !! j = t_heap S !! j) -> (forall j, j ∈ t_nodes S -> j ∈ t_nodes S1) -> stays t S S1.
Proof.
  intros Hn Hh Hin j x (Hj & He & Hno). assert (j <> n) as Hne by (intros ->; destruct Hn as [|(y & u & q & Hy & Hyh & Hs & Hu)]; [done|]; unfold entry in *; replace y with x in Hyh by congruence; by eapply Hno). split; [auto|]. split; [|done]. unfold entry. by rewrite Hh.
Qed.
Lemma stays_local t S S1 n : (n ∉ t_nodes S \/ exists x u q, entry S n x /\ tn_hash x = H_ u /\ sub t q u /\ u <> Merkle.Empty) -> local_to n S S1 -> stays t S S1.
Proof. intros Hn (En & _ & Hh). apply (stays_change t S S1 n); [done|done|]. by rewrite En. Qed.

(** What holds before the last [update_db]: the node [r] shows the new trie, and the nodes below it are in the list. *)
Definition ready D S t k (r : nat) S1 : Prop :=
  inv (fun u => D u \/ on_way t k u) S1 /\ t_root S1 = t_root S /\ (exists x, entry S1 r x /\ shows x (tinsert t k v) /\ (r ∈ t_nodes S1 -> tn_hash x = H_ t)) /\
  below (fun u => u = tinsert t k v \/ listed S1 u) (tinsert t k v) /\ (forall u, known u -> listed S u -> ~ on_way t k u -> listed S1 u) /\ stays t S S1.
Definition done_ D S t k (r : node_key_t) S1 : Prop :=
  r = hash_key (H_ (tinsert t k v)) /\ inv (fun u => D u \/ on_way t k u) S1 /\ t_root S1 = t_root S /\ below (listed S1) (tinsert t k v) /\ (forall u, known u -> listed S u -> ~ on_way t k u -> listed S1 u) /\ stays t S S1.
Lemma ready_done D S q t k r S1 top : at_ q t k -> ready D S t k r S1 -> exists key2 S2, update_db r top S1 = Ok key2 S2 /\ done_ D S t k key2 S2.
Proof.
  intros Ha (Hi & Hr & (x & He & Hs & Hh) & Hb & Hf & Hst). pose proof (at_known_new _ _ _ Ha) as Hkn. assert (tinsert t k v <> Merkle.Empty) as Hne by (intros E; pose proof (at_path _ _ _ Ha); destruct (tinsert_built t k v (or_intror (at_built _ _ _ Ha))) as [Hbt _]; [done|done|]; by rewrite E in Hbt).
  destruct (update_ok known Hbuilt _ S1 r x _ top Hi He Hs (below_top _ _ Hkn Hne)) as (x1 & S2 & Eu & Hi2 & Hl2 & Hk2 & Hr2 & Hh2 & _ & _ & _ & Hn2). exists (hash_key (H_ (tinsert t k v))), S2. split; [done|]. split; [done|]. split; [done|]. split; [congruence|]. split; [|split].
  - intros q' u Hu Hu0. destruct (Hb q' u Hu Hu0) as [->|Hl]; [done|]. apply Hk2; [done|]. intros Hin E. rewrite Hh in E by done. apply Hinj in E; [|by eapply at_known|by eapply Hkn]. subst u. by eapply at_gone.
  - intros u Hu Hl Hno. apply Hk2; [by apply Hf|]. intros Hin E. rewrite Hh in E by done. apply Hinj in E; [|by eapply at_known|done]. subst u. apply Hno. by eapply at_way.
  - eapply stays_trans; [exact Hst|]. apply (stays_change t S1 S2 r); [|done|intros j Hj; apply Hn2; by right]. destruct (decide (r ∈ t_nodes S1)) as [Hin|]; [right|by left]. exists x, t, []. split_and!; [done|auto|constructor|by destruct Ha as (_ & _ & ?)].
Qed.
(** What holds when a node is handled. *)
Definition start D S t (n : nat) : Prop := inv D S /\ n ∈ t_nodes S /\ (exists x, entry S n x /\ tn_hash x = H_ t /\ shows x t) /\ below (fun u => known u /\ ~ D u /\ listed S u) t.

(** ** Leaves and extensions with another path *)
Definition repath (a : list Z) (t : trie) : trie := match t with Leaf _ w => Leaf a w | Ext _ c => Ext a c | _ => t end.
Definition rest (a : list Z) (t : trie) : trie := match t with Leaf _ w => Leaf a w | Ext _ c => ext a c | _ => t end.
Definition is_leaf (t : trie) : bool := match t with Leaf _ _ => true | _ => false end.
Definition path_is (P : list Z) (t : trie) : Prop := match t with Leaf p _ | Ext p _ => p = P | _ => False end.
Lemma repath_items t P a : path_is P t -> built t = true -> path_ok a = true ->
  exists it, plain_items t = Str (hex_prefix P (is_leaf t)) :: [it] /\ plain_items (repath a t) = Str (hex_prefix a (is_leaf t)) :: [it] /\ items_ok (plain_items (repath a t)) /\ Some (ty_of t) = Some (if is_leaf t then NODE_LEAF else NODE_EXT).
Proof.
  intros Ht Hb Ha. destruct t as [|p w|p c|]; try done; cbn [path_is] in Ht; subst p; eexists; (split; [done|]); (split; [done|]); (split; [|done]); cbn [repath plain_items].
  - apply (plain_ok (Leaf a w)). cbn [built] in *. apply andb_prop in Hb as [_ ->]. by rewrite Ha.
  - destruct (path_item_ok a false Ha) as [H1 H2]. pose proof (rlp_string_bound (ref_of c)). pose proof (ref_length c). split; [|rewrite enc_two, length_app; lia]. constructor; [done|]. constructor; [apply ref_ok|constructor].
Qed.
Lemma repath_ok D S n x t P a : inv D S -> entry S n x -> tn_hash x = H_ t -> shows x t -> known t -> path_is P t -> path_ok a = true ->
  exists x1 S1, trie_node_set_path n (a ++ [0xFF]) S = Ok tt S1 /\ entry S1 n x1 /\ local_to n S S1 /\ node_is x1 (plain_items (repath a t)) /\ tn_hash x1 = H_ t /\ tn_type x1 = Some (ty_of t) /\ tn_own x1 = true /\
    inv (fun u => D u \/ u = t) S1 /\ (forall u, listed S u -> listed S1 u).
Proof.
  intros Hi He Hh (Hx & Hty & Ho) Hk HP Ha. pose proof (Hbuilt t Hk) as Hb. destruct (repath_items t P a HP Hb Ha) as (it & E1 & E2 & Hok & E3). destruct (plain_ok t Hb) as [Hok1 _].
  rewrite E1 in Hx, Hok1. rewrite E2 in Hok. destruct (set_path_ok S n x [it] (is_leaf t) a [] _ He Hx Hok1) as (x1 & S1 & Es & He1 & Hl & Hx1 & Hh1 & Ht1 & Ho1); [by rewrite Hty, E3|done|done|].
  destruct (inv_touch known D S S1 n x x1 t Hl He He1 Hh1 Hh Hk Hi) as [Hi1 Hl1]. exists x1, S1. rewrite E2, Hh1, Ht1, Hty. done.
Qed.
Lemma repath_shows x1 t P a : path_is P t -> node_is x1 (plain_items (repath a t)) -> tn_type x1 = Some (ty_of t) -> tn_own x1 = true -> shows x1 (repath a t).
Proof. intros HP Hx Ht Ho. split; [done|]. split; [|done]. by destruct t. Qed.
(** The node behind a reference. *)
Lemma target_ok D S n x its i c : inv D S -> entry S n x -> node_is x its -> items_ok its -> its !! Z.to_nat i = Some (Str (ref_of c)) -> 0 <= i -> known c -> ~ D c -> listed S c ->
  exists j y, get_node_target n i S = Ok (Some j) S /\ j ∈ t_nodes S /\ entry S j y /\ tn_hash y = H_ c /\ shows y c.
Proof.
  intros Hi He Hx Hok Hc Hi0 Hk HD Hl. destruct (find_ok known Hinj D S c Hi Hk HD Hl) as (j & y & Eg & Hr). exists j, y. split; [|done]. unfold get_node_target. mstep (node_at_ok _ _ _ He).
  destruct (node_item_spec x _ (Z.to_nat i) (Str (ref_of c)) Hx Hok Hc) as (d & Hd1 & Hr1 & _). rewrite Z2Nat.id in Hd1 by done. cbn [item_kind item_bytes] in *. dstep Hd1. cbn beta iota. rewrite (mrun _ _ S d S) by done. cbv beta. change (1 =? 1) with true. cbn iota.
  rewrite built_ref in Hr1 by (by apply Hbuilt). unfold read_slice in Hr1. pose proof (read_at_length _ _ _ _ Hr1) as El. rewrite H_length in El. rewrite <- El in Hr1. dstep Hr1. exact Eg.
Qed.
(** A branch that is being built, not in the list yet. *)
Definition building S (b : nat) (cs : list trie) (w : list Z) : Prop :=
  (b ∉ t_nodes S) /\ length cs = 16%nat /\ exists x, entry S b x /\ node_is x (plain_items (Branch cs w)) /\ items_ok (plain_items (Branch cs w)) /\ tn_type x = Some NODE_BRANCH /\ tn_own x = true.
Lemma building_shows S b cs w : building S b cs w -> exists x, entry S b x /\ shows x (Branch cs w).
Proof. intros (_ & _ & x & He & Hx & _ & Ht & Ho). exists x. done. Qed.
Lemma building_other S S1 b cs w n : building S b cs w -> b <> n -> (forall j, j <> n -> t_heap S1 !! j = t_heap S !! j) -> (forall j, j ∈ t_nodes S1 -> j = n \/ j ∈ t_nodes S) -> building S1 b cs w.
Proof. intros (Hb & Hl & x & He & Hr) Hne Hh Hn. split; [intros [|]%Hn; done|]. split; [done|]. exists x. split; [|done]. unfold entry. by rewrite Hh. Qed.
Lemma start_branch D S o : inv D S -> (default [] o = [] \/ value_ok (default [] o) = true) -> exists b S1, trie_node_create_branch o S = Ok b S1 /\ building S1 b no_children (default [] o) /\ inv D S1 /\ (forall u, listed S u -> listed S1 u) /\ local_to b S S1 /\ t_heap S !! b = None.
Proof.
  intros Hi Hw. destruct (create_branch_ok S o Hw) as (b & x & S1 & Ec & He & Hl & Hn & Hx & Ht & Ho). pose proof (not_in_nodes known D S b Hi Hn) as Hb. destruct (inv_local known D S S1 b Hl Hb Hi) as [Hi1 Hl1]. exists b, S1. split_and!; try done.
  pose proof Hl as (En & _). split; [by rewrite En|]. split; [done|]. exists x. split_and!; try done. by apply bare_ok.
Qed.
Lemma add_child D S b cs w i c : inv D S -> building S b cs w -> 0 <= i < 16 -> built c = true -> built (Branch (put i c cs) w) = true ->
  exists S1, set_node_target b i (hash_key (H_ c)) S = Ok tt S1 /\ building S1 b (put i c cs) w /\ inv D S1 /\ (forall u, listed S u -> listed S1 u) /\ local_to b S S1.
Proof.
  intros Hi (Hb & Hl & x & He & Hx & Hok & Ht & Ho) Hi16 Hc Hbc. destruct (set_child_ok S b x i c cs w He Hx Hok Hl Hi16 Hc Hbc) as (x' & S1 & Es & He1 & Hl1 & Hx1 & _ & Ht1 & Ho1).
  destruct (inv_local known D S S1 b Hl1 Hb Hi) as [Hi1 Hli]. exists S1. split_and!; try done. pose proof Hl1 as (En & _). split; [by rewrite En|]. split; [by unfold put; rewrite length_insert|]. exists x'. split_and!; try done; [by apply plain_ok|congruence].
Qed.
(** A new leaf as a child. *)
Lemma new_leaf D S p : inv D S -> built (Leaf p v) = true -> known (Leaf p v) -> exists l S1, trie_node_create_leaf (p ++ [0xFF]) v S = Ok l S1 /\ t_heap S !! l = None /\ local_to l S S1 /\
  exists k S2, update_db l false S1 = Ok k S2 /\ k = hash_key (H_ (Leaf p v)) /\ inv D S2 /\ listed S2 (Leaf p v) /\ (forall u, listed S u -> listed S2 u) /\ t_root S2 = t_root S /\ (forall j, j <> l -> t_heap S2 !! j = t_heap S !! j) /\
    (forall j, j ∈ t_nodes S2 <-> j = l \/ j ∈ t_nodes S) /\ exists x, entry S1 l x /\ 32 <= zlen (tn_data x).
Proof.
  intros Hi Hb Hk. destruct (create_leaf_ok S p v Hb) as (l & x & S1 & Ec & He & Hl & Hn & Hs). pose proof (not_in_nodes known D S l Hi Hn) as Hnl. destruct (inv_local known D S S1 l Hl Hnl Hi) as [Hi1 Hl1]. pose proof Hl as (En & Er & Eh).
  destruct (update_new known Hbuilt D S1 l x _ false Hi1 He ltac:(by rewrite En) Hs Hk) as (x2 & S2 & Eu & Hi2 & Hl2 & Hk2 & Hr2 & Hh2 & _ & _ & _ & Hn2). exists l, S1. split_and!; try done. exists (hash_key (H_ (Leaf p v))), S2. split_and!; try done.
  - auto.
  - congruence.
  - intros j Hj. by rewrite Hh2, Eh.
  - intros j. by rewrite Hn2, En.
  - exists x. split; [done|]. destruct Hs as [[-> _] _]. rewrite <- node_enc_plain by done. by apply node_enc_long.
Qed.

(** The shortened node, or the target of an extension that has no path left, as a child of a branch. *)
Definition place_rest (n : nat) (type : trie_node_type_t) (b : nat) (a : list Z) (y : Z) : M trie_t unit :=
  _ ← trie_node_set_path n (a ++ [0xFF]);
  k ← (if (rd (a ++ [0xFF]) 0 =? 0xFF) && match type with NODE_EXT => true | _ => false end then c ← get_node_target n 1; mret (node_key c) else update_db n false);
  set_node_target b y k.
Definition placed_post D S t (b : nat) (cs : list trie) (w : list Z) (c : trie) S1 : Prop :=
  building S1 b cs w /\ inv (fun u => D u \/ u = t) S1 /\ t_root S1 = t_root S /\ below (listed S1) c /\ (forall u, known u -> u <> t -> listed S u -> listed S1 u) /\ stays t S S1.
Lemma rd_nibble x a : forallb nibbleb (x :: a) = true -> (rd ((x :: a) ++ [0xFF]) 0 =? 0xFF) = false.
Proof. intros [Hx _]%nibbles_cons. change (rd ((x :: a) ++ [0xFF]) 0) with x. apply Z.eqb_neq. lia. Qed.
Lemma place_ok D S q t k n P a b cs w y : at_ q t k -> start D S t n -> path_is P t -> path_ok a = true -> building S b cs w -> 0 <= y < 16 -> built (Branch (put y (rest a t) cs) w) = true -> known (rest a t) ->
  exists S1, place_rest n (ty_of t) b a y S = Ok tt S1 /\ placed_post D S t b (put y (rest a t) cs) w (rest a t) S1.
Proof.
  intros Ha (Hi & Hn & (x & He & Hh & Hs) & Hbl) HP Hpa Hbu Hy Hbb Hkr. pose proof (at_known _ _ _ Ha) as Hkt. assert (b <> n) as Hbn by (intros ->; by destruct Hbu as [? _]).
  destruct (repath_ok D S n x t P a Hi He Hh Hs Hkt HP Hpa) as (x1 & S1 & E1 & He1 & Hl1 & Hx1 & Hh1 & Ht1 & Ho1 & Hi1 & Hk1). unfold place_rest. mstep E1. pose proof Hl1 as (En1 & Er1 & Eh1). assert (building S1 b cs w) as Hbu1 by (eapply building_other; [done|done|done|]; intros j; rewrite En1; by right). assert (t <> Merkle.Empty) as Htne by (by destruct Ha as (_ & _ & ?)). assert (stays t S S1) as Hst1 by (apply (stays_local t S S1 n); [right; exists x, t, []; split_and!; [done|done|constructor|done]|done]).
  destruct ((rd (a ++ [0xFF]) 0 =? 0xFF) && match ty_of t with NODE_EXT => true | _ => false end) eqn:Ec.
  - apply andb_prop in Ec as [Ea Et]. destruct a as [|z a]; [|rewrite rd_nibble in Ea by (by apply path_nibbles); done]. destruct t as [| |p c|]; try done. cbn [repath plain_items rest ext] in *. pose proof (Hbuilt _ Hkt) as (_ & _ & Hbr & Hbc)%built_Ext.
    destruct (below_top _ _ (below_target _ _ _ Hbl)) as (Hkc & HDc & Hlc); [by destruct c|]. assert (c <> Ext p c) as Hne by (intros E; by rewrite E in Hbr).
    destruct (target_ok _ S1 n x1 _ 1 c Hi1 He1 Hx1) as (j & yc & Eg & Hj & Hyc & Hhc & Hsc); [by destruct (repath_items (Ext p c) p [] eq_refl (Hbuilt _ Hkt) eq_refl) as (? & _ & _ & Hok0 & _)|done|done|done|by intros [?|?]|auto|].
    rewrite (mrun _ _ S1 (node_key (Some j)) S1) by (by mstep Eg). cbv beta. destruct (update_ok known Hbuilt _ S1 j yc c false Hi1 Hyc Hsc Hkc) as (x2 & S2 & Eu & Hi2 & Hl2 & Hk2 & Hr2 & Hh2 & He2 & _ & Hhx2 & Hn2).
    assert (building S2 b cs w) as Hbu2 by (eapply building_other; [exact Hbu1|intros E; destruct Hbu1 as [Hb1 _]; apply Hb1; by rewrite E|exact Hh2|intros j'; apply Hn2]).
    destruct (add_child _ S2 b cs w y c Hi2 Hbu2 Hy Hbc Hbb) as (S3 & E3 & Hbu3 & Hi3 & Hk3 & Hl3). assert (forall u, listed S1 u -> listed S2 u) as H12.
    { intros u Hu. destruct (decide (H_ u = H_ c)) as [E|E]; [|apply Hk2; [done|congruence]]. destruct Hl2 as (i & z & ? & ? & ?). exists i, z. split_and!; congruence. }
    exists S3. split.
    + unfold set_node_target. assert (32 <= zlen (tn_data yc)) as Hlen by (destruct Hsc as [[-> _] _]; rewrite <- node_enc_plain by done; by apply node_enc_long). erewrite (mrun _ _ S1 (hash_key (H_ c)) S2); [exact E3|]. mstep (node_at_ok _ _ _ Hyc). rewrite (proj2 (Z.leb_le _ _)) by done. exact Eu.
    + split_and!; try done; [destruct Hl3 as (_ & -> & _); congruence| |intros u _ _ Hu; auto|].
      * intros q' u Hu Hu0. apply Hk3, H12, Hk1. by apply (below_target _ _ _ Hbl q' u).
      * eapply stays_trans; [exact Hst1|]. eapply stays_trans; [|apply (stays_local _ S2 S3 b); [left; by destruct Hbu2|done]]. apply (stays_change _ S1 S2 j); [|done|intros i Hij; apply Hn2; by right]. right. exists yc, c, (p ++ []). split_and!; [done|done|constructor; constructor|by destruct c].
  - assert (rest a t = repath a t) as Er. { destruct t as [| |p c|]; try done. cbn [rest repath ty_of] in *. rewrite andb_true_r in Ec. by destruct a. }
    rewrite Er in *. destruct (update_ok known Hbuilt _ S1 n x1 (repath a t) false Hi1 He1 (repath_shows _ _ _ _ HP Hx1 Ht1 Ho1) Hkr) as (x2 & S2 & Eu & Hi2 & Hl2 & Hk2 & Hr2 & Hh2 & He2 & _ & Hhx2 & Hn2). mstep Eu.
    assert (building S2 b cs w) as Hbu2 by (eapply building_other; [exact Hbu1|done|exact Hh2|intros j'; apply Hn2]). destruct (add_child _ S2 b cs w y _ Hi2 Hbu2 Hy (Hbuilt _ Hkr) Hbb) as (S3 & E3 & Hbu3 & Hi3 & Hk3 & Hl3).
    assert (forall u, known u -> u <> t -> listed S1 u -> listed S2 u) as H12 by (intros u Hu Hne Hlu; apply Hk2; [done|]; rewrite Hh1; intros _ E; apply Hne; symmetry; by apply Hinj).
    exists S3. split; [done|]. split_and!; try done; [destruct Hl3 as (_ & -> & _); congruence| |intros u Hu Hne Hlu; auto|eapply stays_trans; [exact Hst1|]; eapply stays_trans; [|apply (stays_local _ S2 S3 b); [left; by destruct Hbu2|done]]; apply (stays_change _ S1 S2 n); [right; exists x1, t, []; split_and!; [done|done|constructor|done]|done|intros i Hij; apply Hn2; by right]].
    destruct t as [|p w0|p c|]; try done; cbn [repath] in *; [apply below_leaf; auto|]. apply below_Ext; [auto|]. intros q' u Hu Hu0. pose proof (below_target _ _ _ Hbl q' u Hu Hu0) as (Hku & _ & Hlu). apply Hk3, H12; [done| |auto].
    intros ->. assert ((p ++ q') = []) as E%app_nil; [|by pose proof (Hbuilt _ Hkt) as (? & _)%built_Ext; destruct E]. eapply (sub_unique (Ext p c)); [|constructor; exact Hu|constructor|by apply Hbuilt].
    intros k1 k2 w1 V1 V2. destruct Ha as (Hsub & _ & _). pose proof (distinct_old _ _ _ (sub_up _ _ _ _ _ Hsub V1) (sub_up _ _ _ _ _ Hsub V2)) as E. by apply app_inv_head in E.
Qed.

(** ** Paths that part *)
Lemma matching_common P : forall k c a b, forallb nibbleb P = true -> forallb nibbleb k = true -> common P k = (c, a, b) -> trie_matching_nibbles (P ++ [0xFF]) (k ++ [0xFF]) = Some (length c).
Proof.
  induction P as [|x P IH]; intros k c a b HP Hk; cbn [common app trie_matching_nibbles]; [by intros [= <- <- <-]|]. apply nibbles_cons in HP as [Hx HP]. rewrite (proj2 (Z.eqb_neq x 0xFF)) by lia. destruct k as [|y k]; cbn [app]; [by intros [= <- <- <-]|].
  apply nibbles_cons in Hk as [Hy Hk]. rewrite (proj2 (Z.eqb_neq y 0xFF)) by lia. cbn [orb]. destruct (x =? y); cbn [negb]; [|by intros [= <- <- <-]]. destruct (common P k) as [[c' a'] b'] eqn:E. intros [= <- <- <-]. by rewrite (IH k c' a' b').
Qed.
Lemma rd_app_r (l r : list Z) i : rd (l ++ r) (Z.of_nat (length l + i)) = rd r (Z.of_nat i).
Proof. rewrite !rd_nat. rewrite app_nth2 by lia. f_equal. lia. Qed.
Lemma drop_path (c r : list Z) z : drop (Datatypes.S (length c)) (c ++ z :: r) = r.
Proof. rewrite drop_app_ge by lia. replace (Datatypes.S (length c) - length c)%nat with 1%nat by lia. done. Qed.
Definition fork_children (b : list Z) : list trie := match b with [] => no_children | x :: b' => put x (Leaf b' v) no_children end.
Definition fork_value (b : list Z) : list Z := match b with [] => v | _ => [] end.
Lemma fork_form t P k c y a b : path_is P t -> common P k = (c, y :: a, b) -> tinsert t k v = ext c (Branch (put y (rest a t) (fork_children b)) (fork_value b)).
Proof. intros HP E. destruct t as [|p w|p t1|]; try done; cbn [path_is] in HP; subst p; cbn [tinsert rest]; rewrite E; by destruct b. Qed.
Lemma start_mono D S S1 t n : start D S t n -> inv D S1 -> (forall u, listed S u -> listed S1 u) -> t_heap S1 !! n = t_heap S !! n -> n ∈ t_nodes S1 -> start D S1 t n.
Proof.
  intros (_ & _ & (x & He & Hr) & Hb) Hi Hl Hh Hn. split; [done|]. split; [done|]. split; [exists x; split; [by unfold entry; rewrite Hh|done]|]. eapply below_mono; [|done]. cbn beta. intros u (? & ? & ?). auto.
Qed.
Lemma start_heap D S t n : start D S t n -> t_heap S !! n <> None.
Proof. intros (_ & _ & (x & He & _) & _) E. unfold entry in He. congruence. Qed.
(** The new value in the branch, or in a leaf below it. *)
Definition place_value (b : nat) (r : list Z) : M trie_t unit :=
  if rd (r ++ [0xFF]) 0 =? 0xFF then trie_node_set_item b 16 v false
  else leaf ← trie_node_create_leaf (drop 1 (r ++ [0xFF])) v; set_node_target b (rd (r ++ [0xFF]) 0) (node_key (Some leaf)).
Lemma place_value_ok D S b r t n : start D S t n -> building S b no_children [] -> path_ok r = true -> (forall x r', r = x :: r' -> known (Leaf r' v)) ->
  exists S1, place_value b r S = Ok tt S1 /\ building S1 b (fork_children r) (fork_value r) /\ start D S1 t n /\ t_root S1 = t_root S /\ (forall u, listed S u -> listed S1 u) /\ stays t S S1 /\ (forall x r', r = x :: r' -> listed S1 (Leaf r' v)).
Proof.
  intros Hst Hbu Hr Hkn. pose proof Hst as (Hi & Hn & _). pose proof (start_heap _ _ _ _ Hst) as Hhn. assert (b <> n) as Hbn by (intros E; destruct Hbu as [Hb _]; apply Hb; by rewrite E). unfold place_value. destruct r as [|x r].
  - change (rd ([] ++ [0xFF]) 0 =? 0xFF) with true. cbn iota. destruct Hbu as (Hb & Hl & xb & He & Hx & Hok & Ht & Ho). destruct (bare_ok v (or_intror Hv)) as [Hok' _]. cbn [fork_children fork_value].
    destruct (set_item_at_ok S b xb _ 16 v He Hx Hok) as (x' & S1 & Es & He1 & Hl1 & Hx1 & _ & Ht1 & Ho1); [rewrite plain_length by done; lia|by rewrite plain_value|]. rewrite plain_value in Hx1 by done. destruct (inv_local known D S S1 b Hl1 Hb Hi) as [Hi1 Hk1]. pose proof Hl1 as (En & Er & Eh).
    exists S1. split; [done|]. split; [split; [by rewrite En|]; split; [done|]; exists x'; split_and!; try done; congruence|]. split; [|split; [done|]; split; [done|]; split; [|done]; apply (stays_local t S S1 b); [by left|done]]. apply (start_mono D S); try done; [by apply Eh|by rewrite En].
  - rewrite rd_nibble by (by apply path_nibbles). change (rd ((x :: r) ++ [0xFF]) 0) with x. change (drop 1 ((x :: r) ++ [0xFF])) with (r ++ [0xFF]). apply path_cons in Hr as [Hx Hr]. cbn [fork_children fork_value] in *.
    assert (built (Leaf r v) = true) as Hbl by (cbn [built]; by rewrite Hr, Hv).
    pose proof (Hkn x r eq_refl) as Hk.
    destruct (new_leaf D S r Hi Hbl Hk) as (l & S1 & Ec & Hln & Hl1 & k & S2 & Eu & -> & Hi2 & Hl2 & Hk2 & Hr2 & Hh2 & Hn2 & xl & Hel & Hlen). mstep Ec. assert (b <> l) as Hbl' by (intros E; destruct Hbu as (_ & _ & y & He & _); unfold entry in He; congruence).
    assert (building S2 b no_children []) as Hbu2 by (eapply building_other; [exact Hbu|exact Hbl'|exact Hh2|intros j; apply Hn2]). destruct (add_child D S2 b no_children [] x (Leaf r v) Hi2 Hbu2 Hx Hbl) as (S3 & E3 & Hbu3 & Hi3 & Hk3 & Hl3); [apply built_one; auto|]. pose proof Hl3 as (En3 & Er3 & Eh3).
    exists S3. split; [|split; [done|]; split; [|split; [congruence|]; split; [auto|]; split]].
    + unfold set_node_target. erewrite (mrun _ _ S1 (hash_key (H_ (Leaf r v))) S2); [exact E3|]. mstep (node_at_ok _ _ _ Hel). rewrite (proj2 (Z.leb_le _ _)) by done. exact Eu.
    + apply (start_mono D S); try done; [auto|rewrite Eh3, Hh2; [done|congruence|congruence]|]. rewrite En3, Hn2. by right.
    + eapply stays_trans; [|apply (stays_local _ S2 S3 b); [left; by destruct Hbu2|done]]. apply (stays_change _ S S2 l); [left; by apply (not_in_nodes known D)|done|intros j Hj; apply Hn2; by right].
    + intros x0 r' [= <- <-]. auto.
Qed.

Lemma split_unfold n type c y a r : path_ok (c ++ y :: a) = true -> forall S, split_node n type ((c ++ y :: a) ++ [0xFF]) ((c ++ r) ++ [0xFF]) v (length c) S =
  (b ← trie_node_create_branch None; _ ← place_value b r; _ ← place_rest n type b a y;
   if (0 <? length c)%nat then k ← update_db b false; trie_node_create_ext (c ++ 0xFF :: a ++ [0xFF]) k else mret b) S.
Proof.
  intros Hp S. unfold split_node, place_value, place_rest. assert (forall l : list Z, rd ((c ++ l) ++ [0xFF]) (Z.of_nat (length c)) = rd (l ++ [0xFF]) 0) as Hrd by (intros l; rewrite <- app_assoc, <- (Nat.add_0_r (length c)) at 1; rewrite rd_app_r; done).
  rewrite !Hrd. replace (rd ((c ++ y :: a) ++ [0xFF]) (Z.of_nat (Datatypes.S (length c)))) with (rd (a ++ [0xFF]) 0) by (rewrite <- app_assoc, <- Nat.add_1_r, rd_app_r; done).
  replace (drop (Datatypes.S (length c)) ((c ++ y :: a) ++ [0xFF])) with (a ++ [0xFF]) by (rewrite <- app_assoc; symmetry; apply drop_path). replace (drop (Datatypes.S (length c)) ((c ++ r) ++ [0xFF])) with (drop 1 (r ++ [0xFF])) by (rewrite <- app_assoc, (drop_app_ge c) by lia; f_equal; lia).
  replace (<[length c := 0xFF]> ((c ++ y :: a) ++ [0xFF])) with (c ++ 0xFF :: a ++ [0xFF]) by (rewrite <- app_assoc, <- (Nat.add_0_r (length c)), insert_app_r; done).
  change (rd ((y :: a) ++ [0xFF]) 0) with y. unfold mbind, M_bind. destruct (trie_node_create_branch None S) as [b S1| | |]; try done. destruct (if rd (r ++ [0xFF]) 0 =? 0xFF then _ else _) as [[] S2| | |]; try done. destruct (trie_node_set_path _ _ S2) as [[] S3| | |]; try done.
  destruct (if _ && _ then _ else _) as [k S4| | |]; try done.
Qed.
Lemma split_ok D S q t k n c y a r P : at_ q t k -> start D S t n -> path_is P t -> common P k = (c, y :: a, r) ->
  exists m S1, split_node n (ty_of t) (P ++ [0xFF]) (k ++ [0xFF]) v (length c) S = Ok m S1 /\ ready D S t k m S1.
Proof.
  intros Ha Hst HP Ecom. pose proof (at_known_new _ _ _ Ha) as Hkn. pose proof (at_path _ _ _ Ha) as Hpk. pose proof (at_built _ _ _ Ha) as Hbt. rewrite (fork_form t P k c y a r HP Ecom) in Hkn. assert (path_ok P = true) as HpP by (destruct t as [|p w|p t1|]; try done; cbn [path_is] in HP; subst p; [by apply built_leaf in Hbt as [? _]|by apply built_Ext in Hbt as (_ & ? & _)]).
  destruct (common_spec _ _ _ _ _ Ecom) as (EP & Ek & Hdiff). pose proof HpP as HpP'. rewrite EP in HpP'. destruct (path_app _ _ HpP') as [Hpc [Hyn Hpa]%path_cons]. rewrite Ek in Hpk. destruct (path_app _ _ Hpk) as [_ Hpr].
  set (cs := put y (rest a t) (fork_children r)) in *. set (w := fork_value r) in *. assert (below known (Branch cs w)) as HkB by (destruct c; [done|by eapply below_target]). pose proof (below_top _ _ HkB ltac:(done)) as HkB0. pose proof (Hbuilt _ HkB0) as HbB. assert (length (fork_children r) = 16%nat) as Hlf by (by destruct r; cbn; unfold put; rewrite ?length_insert).
  assert (cs !! Z.to_nat y = Some (rest a t)) as Hcy by (unfold cs; rewrite lookup_put, Z.eqb_refl by (done || lia); done). assert (below known (rest a t)) as Hkrest by (by eapply below_child).
  assert (rest a t <> Merkle.Empty) as Hrne by (destruct t as [| |p t1|]; try done; cbn [rest]; destruct a; [apply built_Ext in Hbt as (_ & _ & ? & _); by destruct t1|done]). assert (forall x r', r = x :: r' -> known (Leaf r' v)) as Hkl.
  { intros x r' ->. apply (below_top _ _ (below_child known cs w (Z.to_nat x) _ HkB ltac:(unfold cs; cbn [fork_children]; apply path_cons in Hpr as [? _]; rewrite lookup_put, (proj2 (Z.eqb_neq x y)), lookup_put, Z.eqb_refl by (done || lia || congruence); done))). done. }
  pose proof Hst as (Hi & Hn & _). destruct (start_branch D S None Hi) as (b & S1 & E1 & Hbu1 & Hi1 & Hk1 & Hl1 & Hnb); [by left|]. pose proof Hl1 as (En1 & Er1 & Eh1). assert (start D S1 t n) as Hst1 by (apply (start_mono D S); try done; [apply Eh1; intros ->; by apply (start_heap _ _ _ _ Hst)|by rewrite En1]).
  destruct (place_value_ok D S1 b r t n Hst1 Hbu1 Hpr Hkl) as (S2 & E2 & Hbu2 & Hst2 & Er2 & Hk2 & Hy2 & Hll). destruct (place_ok D S2 q t k n P a b _ _ y Ha Hst2 HP Hpa Hbu2 Hyn HbB (below_top _ _ Hkrest Hrne)) as (S3 & E3 & Hbu3 & Hi3 & Er3 & Hb3 & Hk3 & Hy3). fold cs w in Hbu3. assert (stays t S S3) as Hy by (eapply stays_trans; [apply (stays_local t S S1 b); [left; by apply (not_in_nodes known D)|done]|by eapply stays_trans]).
  assert (forall u, known u -> listed S u -> ~ on_way t k u -> listed S3 u) as Hkeep by (intros u Hu Hlu Hno; apply Hk3; [done|intros ->; apply Hno; by eapply at_way|auto]).
  assert (t <> Branch cs w /\ forall x r', r = x :: r' -> Leaf r' v <> t) as [_ Hlt]. { split; [by destruct t|]. intros x r' -> E. apply (at_gone q t k (c ++ [x]) Ha). rewrite (fork_form t P k c y a (x :: r') HP Ecom). fold cs w. rewrite <- E. assert (sub (Branch cs w) [x] (Leaf r' v)) as Hsb by (apply path_cons in Hpr as [? _]; econstructor; [unfold cs; cbn [fork_children]; rewrite lookup_put, (proj2 (Z.eqb_neq x y)), lookup_put, Z.eqb_refl by (done || lia || congruence); done|lia|constructor]). destruct c; [done|]. by constructor. }
  assert (below (fun u => u = Branch cs w \/ listed S3 u) (Branch cs w)) as HbS3.
  { assert (forall x r', r = x :: r' -> listed S3 (Leaf r' v)) as Hll3 by (intros x r' Er; apply Hk3; eauto). unfold cs, w in *. destruct r as [|x r']; cbn [fork_children fork_value] in *; [apply below_one; [done|by left|]|apply path_cons in Hpr as [? _]; apply below_two; [done|done|by left|apply below_leaf; right; eauto|]]; (eapply below_mono; [|exact Hb3]); intros; by right. }
  pose proof (split_unfold n (ty_of t) c y a r HpP' S) as Eun. rewrite <- EP, <- Ek in Eun. rewrite Eun. clear Eun. mstep E1. mstep E2. mstep E3. assert (forall u, known u -> (D u \/ u = t) -> D u \/ on_way t k u) as Hmono by (intros u _ [?| ->]; [by left|right; by eapply at_way]). destruct (building_shows _ _ _ _ Hbu3) as (xb & Heb & Hsb). pose proof Hbu3 as (Hnb3 & _).
  destruct c as [|z c].
  - cbn [length Nat.ltb Nat.leb]. exists b, S3. split; [done|]. split; [exact (inv_mono known _ _ S3 Hmono Hi3)|]. split; [congruence|]. split; [exists xb; rewrite (fork_form t P k [] y a r HP Ecom); split; [done|]; split; [done|]; intros Hin; by destruct (Hnb3 Hin)|]. split; [rewrite (fork_form t P k [] y a r HP Ecom); exact HbS3|split; [exact Hkeep|exact Hy]].
  - change (0 <? length (z :: c))%nat with true. cbn iota. destruct (update_new known Hbuilt _ S3 b xb _ false Hi3 Heb Hnb3 Hsb HkB0) as (x4 & S4 & E4 & Hi4 & Hl4 & Hk4 & Er4 & Eh4 & _ & _ & _ & En4). mstep E4. assert (known (Ext (z :: c) (Branch cs w))) as HkE by (by apply (below_top _ _ Hkn)).
    destruct (create_ext_ok S4 (z :: c) (a ++ [0xFF]) (Branch cs w) (Hbuilt _ HkE)) as (e & xe & S5 & E5 & He5 & Hl5 & Hne5 & Hs5). pose proof (not_in_nodes known _ S4 e Hi4 Hne5) as Hne4. destruct (inv_local known _ S4 S5 e Hl5 Hne4 Hi4) as [Hi5 Hk5]. pose proof Hl5 as (En5 & Er5 & _).
    exists e, S5. split; [exact E5|]. pose proof (fork_form t P k (z :: c) y a r HP Ecom) as Ef. fold cs w in Ef. cbn [ext] in Ef. split; [exact (inv_mono known _ _ S5 Hmono Hi5)|]. split; [congruence|]. split; [exists xe; rewrite Ef; split; [done|]; split; [done|]; rewrite En5; intros Hin; by destruct (Hne4 Hin)|]. split; [|split].
    + rewrite Ef. apply below_Ext; [by left|]. eapply below_mono; [|exact HbS3]. cbn beta. intros u [->|Hu]; right; auto.
    + intros u Hu Hlu Hno. by apply Hk5, Hk4, Hkeep.
    + eapply stays_trans; [exact Hy|]. eapply stays_trans; [|apply (stays_local _ S4 S5 e); [by left|done]]. apply (stays_change _ S3 S4 b); [by left|done|intros j Hj; apply En4; by right].
Qed.

(** ** A leaf on the way to the key *)
Lemma nonzero_hash h : length h = 32%nat -> h <> replicate 32 0 -> existsb (fun b => negb (b =? 0)) h = true.
Proof.
  intros Hl Hne. destruct (existsb _ h) eqn:E; [done|]. destruct Hne. rewrite <- Hl. clear Hl. induction h as [|x h IH]; [done|]. cbn [existsb] in E. apply orb_false_iff in E as [Ex%negb_false_iff%Z.eqb_eq E]. cbn [length replicate]. f_equal; auto.
Qed.
Lemma touch_again D S S1 n x x' t : local_to n S S1 -> entry S n x -> entry S1 n x' -> tn_hash x' = tn_hash x -> tn_hash x = H_ t -> known t -> inv (fun u => D u \/ u = t) S -> inv (fun u => D u \/ u = t) S1 /\ forall u, listed S u -> listed S1 u.
Proof. intros Hl He He1 Hh Ht Hk Hi. destruct (inv_touch known _ S S1 n x x' t Hl He He1 Hh Ht Hk Hi) as [Hi1 ?]. split; [|done]. eapply inv_mono; [|exact Hi1]. cbn beta. tauto. Qed.
Lemma become_ext_ok D S n x p w b cs w0 : inv D S -> entry S n x -> tn_hash x = H_ (Leaf p w) -> shows x (Leaf p w) -> known (Leaf p w) -> b <> n -> building S b cs w0 -> known (Branch cs w0) -> known (Ext p (Branch cs w0)) ->
  exists S1, (x ← node_at n; _ ← put_node n (with_type NODE_EXT x); _ ← trie_node_set_path n (p ++ [0xFF]); k ← update_db b false; _ ← set_node_target n 1 k; mret n) S = Ok n S1 /\
    inv (fun u => D u \/ u = Leaf p w) S1 /\ t_root S1 = t_root S /\ (exists x1, entry S1 n x1 /\ shows x1 (Ext p (Branch cs w0)) /\ tn_hash x1 = H_ (Leaf p w)) /\ listed S1 (Branch cs w0) /\ (forall u, listed S u -> listed S1 u) /\ stays (Leaf p w) S S1.
Proof.
  intros Hi He Hh (Hx & Hty & Ho) Hk Hbn Hbu HkB HkE. pose proof (Hbuilt _ Hk) as Hb. destruct (plain_ok _ Hb) as [Hok _]. pose proof (built_leaf _ _ Hb) as [Hp _]. pose proof (Hbuilt _ HkE) as HbE. destruct (plain_ok _ HbE) as [HokE _]. cbn [plain_items] in *.
  mstep (node_at_ok _ _ _ He). destruct (put_node_ok S n x (with_type NODE_EXT x) He) as (S1 & E1 & He1 & Hl1). mstep E1. destruct (inv_touch known D S S1 n x (with_type NODE_EXT x) (Leaf p w) Hl1 He He1 eq_refl Hh Hk Hi) as [Hi1 Hk1].
  destruct (repath_items (Leaf p w) p p eq_refl Hb Hp) as (it & Eit & _). injection Eit as <-. assert (items_ok [Str (hex_prefix p false); Str w]) as Hok2.
  { destruct (path_item_ok p false Hp) as [H1 H2]. destruct Hok as [Hf Hsz]. apply Forall_cons in Hf as [_ Hf]. split; [by constructor|]. apply built_leaf in Hb as [_ [Hs _]%value_size]. pose proof (rlp_string_bound w). rewrite enc_two, length_app. lia. }
  destruct (set_path_ok S1 n (with_type NODE_EXT x) [Str w] false p [] _ He1 Hx Hok eq_refl Hp Hok2) as (x2 & S2 & E2 & He2 & Hl2 & Hx2 & Hh2 & Ht2 & Ho2). mstep E2. destruct (touch_again D S1 S2 n _ x2 (Leaf p w) Hl2 He1 He2 Hh2 Hh Hk Hi1) as [Hi2 Hk2].
  pose proof Hl1 as (En1 & Er1 & Eh1). pose proof Hl2 as (En2 & Er2 & Eh2). assert (building S2 b cs w0) as Hbu2 by (eapply (building_other S S2); [done|exact Hbn|intros j Hj; by rewrite Eh2, Eh1|intros j; rewrite En2, En1; by right]). destruct (building_shows _ _ _ _ Hbu2) as (xb & Heb & Hsb). pose proof Hbu2 as (Hnb & _).
  destruct (update_new known Hbuilt _ S2 b xb _ false Hi2 Heb Hnb Hsb HkB) as (xb3 & S3 & E3 & Hi3 & Hl3 & Hk3 & Er3 & Eh3 & _ & _ & _ & En3). mstep E3. assert (entry S3 n x2) as He3 by (unfold entry; rewrite Eh3; done).
  destruct (set_item_at_ok S3 n x2 _ 1 (H_ (Branch cs w0)) He3 Hx2 Hok2) as (x4 & S4 & E4 & He4 & Hl4 & Hx4 & Hh4 & Ht4 & Ho4); [cbn; lia|exact HokE|]. change (Z.of_nat 1) with 1 in E4. rewrite <- target_hash in E4. mstep E4. destruct (touch_again D S3 S4 n x2 x4 (Leaf p w) Hl4 He3 He4 Hh4 ltac:(rewrite Hh2; exact Hh) Hk Hi3) as [Hi4 Hk4]. pose proof Hl4 as (_ & Er4 & _).
  exists S4. split; [done|]. split; [done|]. split; [congruence|]. split; [exists x4; split; [done|]; split; [split; [exact Hx4|]; split; [rewrite Ht4, Ht2; done|done]|rewrite Hh4, Hh2; exact Hh]|]. split; [auto|]. split; [auto|].
  assert (forall y, tn_hash y = H_ (Leaf p w) -> forall S0 S5, entry S0 n y -> local_to n S0 S5 -> stays (Leaf p w) S0 S5) as Hy by (intros y Hyh S0 S5 Hye Hl; apply (stays_local _ S0 S5 n); [right; exists y, (Leaf p w), []; split_and!; [done|done|constructor|done]|done]).
  eapply stays_trans; [exact (Hy x Hh S S1 He Hl1)|]. eapply stays_trans; [exact (Hy (with_type NODE_EXT x) Hh S1 S2 He1 Hl2)|]. eapply stays_trans; [|eapply (Hy x2); [rewrite Hh2; exact Hh|done|done]]. apply (stays_change _ S2 S3 b); [by left|done|intros j Hj; apply En3; by right].
Qed.
Lemma extend_ok D S q p w n x r : at_ q (Leaf p w) (p ++ x :: r) -> start D S (Leaf p w) n ->
  exists m S1, extend_leaf n (p ++ [0xFF]) ((p ++ x :: r) ++ [0xFF]) v (length p) S = Ok m S1 /\ ready D S (Leaf p w) (p ++ x :: r) m S1.
Proof.
  intros Ha Hst. set (k := p ++ x :: r) in *. pose proof (at_known_new _ _ _ Ha) as Hkn. pose proof (at_path _ _ _ Ha) as Hpk. pose proof (at_built _ _ _ Ha) as Hbt. pose proof (at_known _ _ _ Ha) as Hkt. pose proof (built_leaf _ _ Hbt) as [Hp Hw]. apply path_app in Hpk as [_ [Hx Hr]%path_cons].
  assert (tinsert (Leaf p w) k v = ext p (Branch (put x (Leaf r v) no_children) w)) as Et by (cbn [tinsert]; unfold k; by rewrite common_prefix). rewrite Et in Hkn. set (B := Branch (put x (Leaf r v) no_children) w) in *.
  assert (below known B) as HkB by (destruct p; [done|by eapply below_target]). pose proof (below_top _ _ HkB ltac:(done)) as HkB0. assert (built (Leaf r v) = true) as Hbl by (cbn [built]; by rewrite Hr, Hv).
  assert (known (Leaf r v)) as Hkl by (apply (below_top _ _ (below_child known _ _ (Z.to_nat x) _ HkB ltac:(rewrite lookup_put, Z.eqb_refl by (done || lia); done))); done).
  pose proof Hst as (Hi & Hn & (x0 & He & Hh & Hs) & _). pose proof Hs as (Hx0 & _). pose proof (start_heap _ _ _ _ Hst) as Hhn. destruct (plain_ok _ Hbt) as [Hok _]. unfold extend_leaf. mstep (node_at_ok _ _ _ He). dstep (get_item_spec x0 _ 1 (Str w) Hx0 Hok eq_refl). cbn [item_bytes].
  destruct (start_branch D S (Some w) Hi) as (b & S1 & E1 & Hbu1 & Hi1 & Hk1 & Hl1 & Hnb); [by right|]. mstep E1. pose proof Hl1 as (En1 & Er1 & Eh1). assert (b <> n) as Hbn by congruence. cbn [default from_option id] in Hbu1.
  replace (drop (Datatypes.S (length p)) (k ++ [0xFF])) with (r ++ [0xFF]) by (unfold k; rewrite <- app_assoc; symmetry; apply drop_path). replace (rd (k ++ [0xFF]) (Z.of_nat (length p))) with x by (unfold k; rewrite <- app_assoc, <- (Nat.add_0_r (length p)), rd_app_r; done).
  destruct (new_leaf D S1 r Hi1 Hbl Hkl) as (l & S2 & E2 & Hln & Hl2 & k2 & S3 & E3 & -> & Hi3 & Hl3 & Hk3 & Er3 & Eh3 & En3 & _). mstep E2. mstep E3. assert (b <> l) as Hbl' by (destruct Hbu1 as (_ & _ & y & Hy & _); unfold entry in Hy; congruence). assert (n <> l) as Hnl by (rewrite Eh1 in Hln; congruence || (intros ->; rewrite Eh1 in Hln; congruence)).
  assert (building S3 b no_children w) as Hbu3 by (eapply building_other; [exact Hbu1|exact Hbl'|exact Eh3|intros j; apply En3]). destruct (add_child D S3 b _ _ x (Leaf r v) Hi3 Hbu3 Hx Hbl (Hbuilt _ HkB0)) as (S4 & E4 & Hbu4 & Hi4 & Hk4 & Hl4). mstep E4. pose proof Hl4 as (En4 & Er4 & Eh4).
  assert (entry S4 n x0) as He4 by (unfold entry; rewrite Eh4, Eh3, Eh1 by congruence; done). assert (listed S4 (Leaf r v)) as Hll by auto. assert (forall u, listed S u -> listed S4 u) as H04 by auto. assert (stays (Leaf p w) S S4) as Hy by (eapply stays_trans; [apply (stays_local _ S S1 b); [left; by apply (not_in_nodes known D)|done]|]; eapply stays_trans; [apply (stays_change _ S1 S3 l); [left; by apply (not_in_nodes known D)|done|intros j Hj; apply En3; by right]|apply (stays_local _ S3 S4 b); [left; by destruct Hbu3|done]]).
  assert (forall u, known u -> (D u \/ u = Leaf p w) -> D u \/ on_way (Leaf p w) k u) as Hmono by (intros u _ [?| ->]; [by left|right; by eapply at_way]).
  destruct p as [|z p].
  - change (negb (rd ([] ++ [0xFF]) 0 =? 0xFF)) with false. cbn iota. assert (free_node n S4 = Ok tt S4) as Ef by (unfold free_node; mstep (node_at_ok _ _ _ He4); destruct Hs as (_ & _ & ->); rewrite Hh, nonzero_hash; [done|apply H_length|by apply Hnz]). mstep Ef.
    destruct (building_shows _ _ _ _ Hbu4) as (xb & Heb & Hsb). exists b, S4. split; [done|]. split; [eapply inv_mono; [|exact Hi4]; intros u _ ?; by left|]. split; [congruence|]. rewrite Et. split; [exists xb; split; [done|]; split; [done|]; intros Hin; by destruct Hbu4 as [Hb4 _]|]. split; [|split; [auto|done]].
    apply below_one; [done|by left|]. apply below_leaf. by right.
  - assert (negb (rd ((z :: p) ++ [0xFF]) 0 =? 0xFF) = true) as -> by (by rewrite rd_nibble by (by apply path_nibbles)). cbn iota. cbn [ext] in Et, Hkn.
    destruct (become_ext_ok D S4 n x0 (z :: p) w b _ _ Hi4 He4 Hh Hs Hkt Hbn Hbu4 HkB0 (below_top _ _ Hkn ltac:(done))) as (S5 & E5 & Hi5 & Er5 & (x5 & He5 & Hs5 & Hh5) & Hl5 & Hk5 & Hy5). exists n, S5. split; [exact E5|]. split; [exact (inv_mono known _ _ S5 Hmono Hi5)|]. split; [congruence|]. rewrite Et.
    split; [by exists x5|]. split; [|split; [auto|by eapply stays_trans]]. apply below_Ext; [by left|]. apply below_one; [done|by right|]. apply below_leaf. right. auto.
Qed.

(** ** A key that ends at the node *)
Lemma end_branch_ok D S q cs w n : at_ q (Branch cs w) [] -> start D S (Branch cs w) n -> exists m S1, handle_end n v S = Ok m S1 /\ ready D S (Branch cs w) [] m S1.
Proof.
  intros Ha (Hi & Hn & (x & He & Hh & Hx & Hty & Ho) & Hbl). pose proof (at_known _ _ _ Ha) as Hkt. pose proof (Hbuilt _ Hkt) as Hbt. destruct (built_branch _ _ Hbt) as [Hl _]. destruct (plain_ok _ Hbt) as [Hok _]. pose proof (at_known_new _ _ _ Ha) as Hkn. cbn [tinsert] in Hkn. destruct (plain_ok _ (Hbuilt _ (below_top _ _ Hkn ltac:(done)))) as [Hok' _].
  unfold handle_end. mstep (node_at_ok _ _ _ He). dstep Hty. cbn [ty_of]. destruct (set_item_at_ok S n x _ 16 v He Hx Hok) as (x1 & S1 & E1 & He1 & Hl1 & Hx1 & Hh1 & Ht1 & Ho1); [rewrite plain_length by done; lia|by rewrite plain_value|]. rewrite plain_value in Hx1 by done. change (Z.of_nat 16) with 16 in E1. mstep E1.
  destruct (inv_touch known D S S1 n x x1 _ Hl1 He He1 Hh1 Hh Hkt Hi) as [Hi1 Hk1]. pose proof Hl1 as (En & Er & _). exists n, S1. split; [done|]. split; [eapply inv_mono; [|exact Hi1]; intros u _ [?| ->]; [by left|right; by eapply at_way]|]. split; [done|]. cbn [tinsert].
  split; [exists x1; split; [done|]; split; [split; [done|]; split; [by rewrite Ht1, Hty|done]|intros _; by rewrite Hh1]|]. split; [|split; [auto|apply (stays_local _ S S1 n); [right; exists x, (Branch cs w), []; split_and!; [done|done|constructor|done]|done]]].
  apply below_branch; [by left|]. intros m c Hc. eapply below_mono; [|exact (below_child _ _ _ _ _ Hbl Hc)]. cbn beta. intros u (_ & _ & ?). right. auto.
Qed.
Lemma end_leaf_ok D S q p w n : at_ q (Leaf p w) [] -> start D S (Leaf p w) n -> exists m S1, handle_end n v S = Ok m S1 /\ ready D S (Leaf p w) [] m S1.
Proof.
  intros Ha Hst. pose proof Hst as (Hi & Hn & (x & He & Hh & Hs) & Hbl). pose proof Hs as (Hx & Hty & Ho). pose proof (at_known _ _ _ Ha) as Hkt. pose proof (Hbuilt _ Hkt) as Hbt. pose proof (built_leaf _ _ Hbt) as [Hp Hw]. destruct (plain_ok _ Hbt) as [Hok _]. pose proof (at_known_new _ _ _ Ha) as Hkn.
  destruct p as [|y a]; [exfalso; eapply at_fresh; [done|constructor]|]. cbn [tinsert common ext] in Hkn. destruct (path_cons _ _ Hp) as [Hy Hpa]. pose proof (below_top _ _ Hkn ltac:(done)) as HkB. assert (known (Leaf a w)) as Hkl by (apply (below_top _ _ (below_child known _ _ (Z.to_nat y) _ Hkn ltac:(rewrite lookup_put, Z.eqb_refl by (done || lia); done))); done).
  unfold handle_end. mstep (node_at_ok _ _ _ He). dstep Hty. cbn [ty_of]. dstep (get_item_spec x _ 0 (Str (hex_prefix (y :: a) true)) Hx Hok eq_refl). cbn [item_bytes]. rewrite path_of_item by (by apply path_nibbles). rewrite rd_nibble by (by apply path_nibbles). change (drop 1 ((y :: a) ++ [0xFF])) with (a ++ [0xFF]). change (rd ((y :: a) ++ [0xFF]) 0) with y.
  destruct (repath_ok D S n x _ (y :: a) a Hi He Hh Hs Hkt eq_refl Hpa) as (x1 & S1 & E1 & He1 & Hl1 & Hx1 & Hh1 & Ht1 & Ho1 & Hi1 & Hk1). mstep E1. destruct (start_branch _ S1 (Some v) Hi1) as (b & S2 & E2 & Hbu2 & Hi2 & Hk2 & Hl2 & Hnb); [by right|]. mstep E2. pose proof Hl1 as (En1 & Er1 & Eh1). pose proof Hl2 as (En2 & Er2 & Eh2).
  assert (n <> b) as Hbn by (intros ->; unfold entry in He1; congruence). assert (entry S2 n x1) as He2 by (unfold entry; rewrite Eh2; done). destruct (update_ok known Hbuilt _ S2 n x1 (Leaf a w) false Hi2 He2 (repath_shows x1 (Leaf (y :: a) w) (y :: a) a eq_refl Hx1 Ht1 Ho1) Hkl) as (x3 & S3 & E3 & Hi3 & Hl3 & Hk3 & Er3 & Eh3 & _ & _ & _ & En3). mstep E3.
  assert (building S3 b no_children v) as Hbu3 by (eapply building_other; [exact Hbu2|done|exact Eh3|intros j; apply En3]). destruct (add_child _ S3 b _ _ y (Leaf a w) Hi3 Hbu3 Hy (Hbuilt _ Hkl) (Hbuilt _ HkB)) as (S4 & E4 & Hbu4 & Hi4 & Hk4 & Hl4). mstep E4. pose proof Hl4 as (_ & Er4 & _). destruct (building_shows _ _ _ _ Hbu4) as (xb & Heb & Hsb).
  exists b, S4. split; [done|]. split; [eapply inv_mono; [|exact Hi4]; intros u _ [?| ->]; [by left|right; by eapply at_way]|]. split; [congruence|]. cbn [tinsert common ext]. split; [exists xb; split; [done|]; split; [done|]; intros Hin; by destruct Hbu4 as [Hb4 _]|]. split; [apply below_one; [done|by left|]; apply below_leaf; right; auto|]. split.
  - intros u Hu Hlu Hno. apply Hk4, Hk3; [auto|]. rewrite Hh1. intros _ E. apply Hinj in E; [|done|done]. subst u. apply Hno. by eapply at_way.
  - assert (forall S0 S5 z, entry S0 n z -> tn_hash z = H_ (Leaf (y :: a) w) -> (forall j, j <> n -> t_heap S5 !! j = t_heap S0 !! j) -> (forall j, j ∈ t_nodes S0 -> j ∈ t_nodes S5) -> stays (Leaf (y :: a) w) S0 S5) as Hys by (intros S0 S5 z Hz Hzh ? ?; apply (stays_change _ S0 S5 n); [right; exists z, (Leaf (y :: a) w), []; split_and!; [done|done|constructor|done]|done|done]).
    eapply stays_trans; [apply (Hys S S1 x); try done; by rewrite En1|]. eapply stays_trans; [apply (stays_local _ S1 S2 b); [left; by apply (not_in_nodes known _ S1 b Hi1)|done]|]. eapply stays_trans; [apply (Hys S2 S3 x1); try done; intros j Hj; apply En3; by right|]. apply (stays_local _ S3 S4 b); [left; by destruct Hbu3|done].
Qed.
Lemma end_ext_ok D S q p c n : at_ q (Ext p c) [] -> start D S (Ext p c) n -> exists m S1, handle_end n v S = Ok m S1 /\ ready D S (Ext p c) [] m S1.
Proof.
  intros Ha Hst. pose proof Hst as (Hi & Hn & (x & He & Hh & Hs) & Hbl). pose proof Hs as (Hx & Hty & Ho). pose proof (at_known _ _ _ Ha) as Hkt. pose proof (Hbuilt _ Hkt) as Hbt. pose proof (built_Ext _ _ Hbt) as (Hne & Hp & Hbr & Hbc). destruct (plain_ok _ Hbt) as [Hok _]. pose proof (at_known_new _ _ _ Ha) as Hkn.
  destruct p as [|y a]; [done|]. cbn [tinsert common ext] in Hkn. destruct (path_cons _ _ Hp) as [Hy Hpa]. pose proof (below_top _ _ Hkn ltac:(done)) as HkB. assert (below known (ext a c)) as Hke by (apply (below_child known _ _ (Z.to_nat y) _ Hkn); rewrite lookup_put, Z.eqb_refl by (done || lia); done).
  unfold handle_end. mstep (node_at_ok _ _ _ He). dstep Hty. cbn [ty_of]. destruct (start_branch D S (Some v) Hi) as (b & S1 & E1 & Hbu1 & Hi1 & Hk1 & Hl1 & Hnb); [by right|]. mstep E1. pose proof Hl1 as (En1 & Er1 & Eh1). dstep (get_item_spec x _ 0 (Str (hex_prefix (y :: a) false)) Hx Hok eq_refl). cbn [item_bytes]. rewrite path_of_item by (by apply path_nibbles).
  dstep (nibble_len_spec (y :: a) (path_nibbles _ Hp)). change (drop 1 ((y :: a) ++ [0xFF])) with (a ++ [0xFF]). change (rd ((y :: a) ++ [0xFF]) 0) with y. assert (stays (Ext (y :: a) c) S S1) as Hy1 by (apply (stays_local _ S S1 b); [left; by apply (not_in_nodes known D)|done]).
  assert (forall u, known u -> (D u \/ u = Ext (y :: a) c) -> D u \/ on_way (Ext (y :: a) c) [] u) as Hmono by (intros u _ [?| ->]; [by left|right; by eapply at_way]). destruct a as [|z a].
  - cbn [length Nat.eqb]. destruct (node_item_spec x _ 1 (Str (ref_of c)) Hx Hok eq_refl) as (d & Ed & Er & _). change (Z.of_nat 1) with 1 in Ed. cbn [item_kind item_bytes] in *. dstep Ed. cbn [fst snd]. rewrite (mrun _ _ S1 d S1) by done. cbv beta. dstep Er. rewrite built_ref by done. change (1 =? 2) with false. cbn [ext] in *.
    destruct (add_child D S1 b _ _ y c Hi1 Hbu1 Hy Hbc (Hbuilt _ HkB)) as (S2 & E2 & Hbu2 & Hi2 & Hk2 & Hl2). rewrite target_hash in E2. mstep E2. pose proof Hl2 as (_ & Er2 & _). destruct (building_shows _ _ _ _ Hbu2) as (xb & Heb & Hsb).
    exists b, S2. split; [done|]. split; [eapply inv_mono; [|exact Hi2]; intros; by left|]. split; [congruence|]. cbn [tinsert common ext]. split; [exists xb; split; [done|]; split; [done|]; intros Hin; by destruct Hbu2 as [Hb2 _]|]. split; [|split; [auto|eapply stays_trans; [exact Hy1|]; apply (stays_local _ S1 S2 b); [left; by destruct Hbu1|done]]].
    apply below_one; [done|by left|]. eapply below_mono; [|exact (below_target _ _ _ Hbl)]. cbn beta. intros u (_ & _ & ?). right. auto.
  - change (length (y :: z :: a) =? 1)%nat with false. cbn iota. assert (start D S1 (Ext (y :: z :: a) c) n) as Hst1 by (apply (start_mono D S); try done; [apply Eh1; intros ->; by apply (start_heap _ _ _ _ Hst)|by rewrite En1]).
    destruct (place_ok D S1 q _ [] n (y :: z :: a) (z :: a) b no_children v y Ha Hst1 eq_refl Hpa Hbu1 Hy (Hbuilt _ HkB) (below_top _ _ Hke ltac:(done))) as (S2 & E2 & Hbu2 & Hi2 & Er2 & Hb2 & Hk2 & Hy2).
    unfold place_rest in E2. rewrite rd_nibble in E2 by (by apply path_nibbles). cbn [andb] in E2. destruct (building_shows _ _ _ _ Hbu2) as (xb & Heb & Hsb).
    exists b, S2. split.
    { unfold mbind, M_bind in E2 |- *. destruct (trie_node_set_path n _ S1) as [[] S3| | |]; try done. destruct (update_db n false S3) as [k S4| | |]; try done. by rewrite E2. }
    split; [exact (inv_mono known _ _ S2 Hmono Hi2)|]. split; [congruence|]. cbn [tinsert common ext]. split; [exists xb; split; [done|]; split; [done|]; intros Hin; by destruct Hbu2 as [Hb2' _]|]. split; [|split; [|by eapply stays_trans]].
    + apply below_one; [done|by left|]. eapply below_mono; [|exact Hb2]. intros; by right.
    + intros u Hu Hlu Hno. apply Hk2; [done|intros ->; apply Hno; by eapply at_way|auto].
Qed.

(** ** Going down *)
Lemma stays_below c t S S1 : (forall q u, sub c q u -> exists q', sub t q' u) -> stays c S S1 -> stays t S S1.
Proof. intros Hs Hc j x (Hj & He & Hno). destruct (Hc j x) as (Hj1 & He1 & _); [split_and!; [done|done|]; intros q u Hu Hne; destruct (Hs q u Hu) as [q' Hu']; by eapply Hno|]. done. Qed.
(** What is known after a child was handled. *)
Definition child_post D S c k (c' : trie) S1 : Prop :=
  inv (fun u => D u \/ on_way c k u) S1 /\ t_root S1 = t_root S /\ below (listed S1) c' /\ (forall u, known u -> listed S u -> ~ on_way c k u -> listed S1 u) /\ stays c S S1.
(** The node itself is not below its child, and stays as it is. *)
Lemma parent_stays D S q t k n x c q1 k1 S1 : at_ q t k -> start D S t n -> entry S n x -> q1 <> [] -> (forall q' u, sub c q' u -> sub t (q1 ++ q') u) -> stays c S S1 -> entry S1 n x /\ n ∈ t_nodes S1 /\ (forall u, on_way c k1 u -> k = q1 ++ k1 -> on_way t k u).
Proof.
  intros Ha (Hi & Hn & (y & Hy & Hh & _) & _) He Hq Hsub Hc. assert (y = x) as -> by (unfold entry in *; congruence). destruct (Hc n x) as (Hn1 & He1 & _).
  - split; [done|]. split; [done|]. intros q' u Hu Hne E. rewrite Hh in E. pose proof Ha as (Hs & _ & _). pose proof (sub_trans _ _ _ _ _ Hs (Hsub _ _ Hu)) as Hu2. apply Hinj in E; [|by eapply at_known|by eapply HkT]. subst u. pose proof (sub_unique _ _ _ _ distinct_old Hs Hu2 (at_built _ _ _ Ha)) as E. rewrite <- (app_nil_r q) in E at 1. apply app_inv_head in E. by destruct q1.
  - split; [done|]. split; [done|]. intros u (Hne & q' & k' & Hu & ->) ->. split; [done|]. exists (q1 ++ q'), k'. split; [by apply Hsub|]. by rewrite <- app_assoc.
Qed.
Lemma relink_branch D S q cs w x k n c S1 : at_ q (Branch cs w) (x :: k) -> start D S (Branch cs w) n -> cs !! Z.to_nat x = Some c -> child_post D S c k (tinsert c k v) S1 ->
  exists S2, set_node_target n x (hash_key (H_ (tinsert c k v))) S1 = Ok tt S2 /\ ready D S (Branch cs w) (x :: k) n S2.
Proof.
  intros Ha Hst Hc (Hi1 & Er1 & Hb1 & Hk1 & Hy1). pose proof Hst as (Hi & Hn & (y & Hy & Hh & Hx & Hty & Ho) & Hbl). pose proof (at_known _ _ _ Ha) as Hkt. pose proof (Hbuilt _ Hkt) as Hbt. destruct (built_branch _ _ Hbt) as [Hl _]. destruct (plain_ok _ Hbt) as [Hok _]. pose proof (at_path _ _ _ Ha) as [Hx16 Hpk]%path_cons.
  destruct (insert_branch cs x k v Hl Hx16) as (c0 & Hc0 & Halt). rewrite Hc in Hc0. injection Hc0 as <-. assert (tinsert (Branch cs w) (x :: k) v = Branch (put x (tinsert c k v) cs) w) as Et by (cbn [tinsert]; f_equal; unfold put; apply list_eq; intros m; rewrite <- (Nat2Z.id m), Halt, <- lookup_put with (cs := cs) by lia; done).
  pose proof (at_known_new _ _ _ Ha) as Hkn. rewrite Et in Hkn. pose proof (below_top _ _ Hkn ltac:(done)) as HkB. assert (forall q' u, sub c q' u -> sub (Branch cs w) ([x] ++ q') u) as Hsub by (intros q' u Hu; cbn [app]; econstructor; [done|lia|done]).
  destruct (parent_stays D S q _ _ n y c [x] k S1 Ha Hst Hy ltac:(done) Hsub Hy1) as (He1 & Hn1 & Hway). assert (built (tinsert c k v) = true) as Hbc by (apply tinsert_built; [by eapply built_child|done|done]).
  destruct (set_child_ok S1 n y x _ cs w He1 Hx Hok Hl Hx16 Hbc (Hbuilt _ HkB)) as (y2 & S2 & E2 & He2 & Hl2 & Hx2 & Hh2 & Ht2 & Ho2). destruct (inv_touch known _ S1 S2 n y y2 _ Hl2 He1 He2 Hh2 Hh Hkt Hi1) as [Hi2 Hk2]. pose proof Hl2 as (En2 & Er2 & _).
  exists S2. split; [done|]. split; [eapply inv_mono; [|exact Hi2]; intros u _ [[?|?]| ->]; [by left|right; auto|right; by eapply at_way]|]. split; [congruence|]. rewrite Et. split; [exists y2; split; [done|]; split; [split; [done|]; split; [by rewrite Ht2, Hty|done]|intros _; by rewrite Hh2]|]. split; [|split].
  - apply below_branch; [by left|]. intros m d Hd1. rewrite <- (Nat2Z.id m), lookup_put in Hd1 by lia. destruct (Z.eqb_spec (Z.of_nat m) x) as [<-|Hne]; [injection Hd1 as <-; eapply below_mono; [|exact Hb1]; intros; right; auto|]. intros q' u Hu Hu0. right. rewrite Nat2Z.id in Hd1. pose proof (below_child _ _ _ _ _ Hbl Hd1 q' u Hu Hu0) as (Hku & _ & Hlu). apply Hk2, Hk1; [done|done|].
    intros (_ & q2 & k2 & Hu2 & _). destruct Ha as (Hs & _ & _). assert (sub T (q ++ x :: q2) u) as P1 by (eapply sub_trans; [done|]; by apply (Hsub q2 u)). assert (sub T (q ++ Z.of_nat m :: q') u) as P2 by (eapply sub_trans; [done|]; econstructor; [by rewrite Nat2Z.id|lia|done]). pose proof (sub_unique _ _ _ _ distinct_old P1 P2 (Hbuilt _ Hku)) as E. apply app_inv_head in E. congruence.
  - intros u Hu Hlu Hno. apply Hk2, Hk1; [done|done|]. intros Hw. apply Hno. auto.
  - eapply stays_trans; [eapply stays_below; [|exact Hy1]; intros q' u Hu; eexists; by apply Hsub|]. apply (stays_local _ S1 S2 n); [right; exists y, (Branch cs w), []; split_and!; [done|done|constructor|done]|done].
Qed.
Lemma relink_ext D S q p k n c S1 : at_ q (Ext p c) (p ++ k) -> start D S (Ext p c) n -> child_post D S c k (tinsert c k v) S1 ->
  exists S2, set_node_target n 1 (hash_key (H_ (tinsert c k v))) S1 = Ok tt S2 /\ ready D S (Ext p c) (p ++ k) n S2.
Proof.
  intros Ha Hst (Hi1 & Er1 & Hb1 & Hk1 & Hy1). pose proof Hst as (Hi & Hn & (y & Hy & Hh & Hx & Hty & Ho) & Hbl). pose proof (at_known _ _ _ Ha) as Hkt. pose proof (Hbuilt _ Hkt) as Hbt. pose proof (built_Ext _ _ Hbt) as (Hne & Hp & Hbr & Hbc). destruct (plain_ok _ Hbt) as [Hok _].
  assert (tinsert (Ext p c) (p ++ k) v = Ext p (tinsert c k v)) as Et by (cbn [tinsert]; by rewrite common_prefix). pose proof (at_known_new _ _ _ Ha) as Hkn. rewrite Et in Hkn. pose proof (below_top _ _ Hkn ltac:(done)) as HkE. pose proof (Hbuilt _ HkE) as HbE. pose proof (built_Ext _ _ HbE) as (_ & _ & _ & Hbc'). destruct (plain_ok _ HbE) as [HokE _].
  assert (forall q' u, sub c q' u -> sub (Ext p c) (p ++ q') u) as Hsub by (intros q' u Hu; by constructor). destruct (parent_stays D S q _ _ n y c p k S1 Ha Hst Hy Hne Hsub Hy1) as (He1 & Hn1 & Hway). rewrite target_hash, <- built_ref by done. cbn [plain_items] in *.
  destruct (set_item_at_ok S1 n y _ 1 (ref_of (tinsert c k v)) He1 Hx Hok) as (y2 & S2 & E2 & He2 & Hl2 & Hx2 & Hh2 & Ht2 & Ho2); [cbn; lia|exact HokE|]. destruct (inv_touch known _ S1 S2 n y y2 _ Hl2 He1 He2 Hh2 Hh Hkt Hi1) as [Hi2 Hk2]. pose proof Hl2 as (En2 & Er2 & _).
  exists S2. split; [exact E2|]. split; [eapply inv_mono; [|exact Hi2]; intros u _ [[?|?]| ->]; [by left|right; auto|right; by eapply at_way]|]. split; [congruence|]. rewrite Et. split; [exists y2; split; [done|]; split; [split; [done|]; split; [by rewrite Ht2, Hty|done]|intros _; by rewrite Hh2]|]. split; [|split].
  - apply below_Ext; [by left|]. eapply below_mono; [|exact Hb1]. intros; right; auto.
  - intros u Hu Hlu Hno. apply Hk2, Hk1; [done|done|]. intros Hw. apply Hno. auto.
  - eapply stays_trans; [eapply stays_below; [|exact Hy1]; intros q' u Hu; eexists; by apply Hsub|]. apply (stays_local _ S1 S2 n); [right; exists y, (Ext p c), []; split_and!; [done|done|constructor|done]|done].
Qed.

Lemma start_child D S t n c : start D S t n -> c <> Merkle.Empty -> below (fun u => known u /\ ~ D u /\ listed S u) c -> forall j y, j ∈ t_nodes S -> entry S j y -> tn_hash y = H_ c -> shows y c -> start D S c j.
Proof. intros (Hi & _) Hne Hb j y Hj Hy Hh Hs. split_and!; try done. by exists y. Qed.
Lemma done_child D S c k r S1 : done_ D S c k r S1 -> r = hash_key (H_ (tinsert c k v)) /\ child_post D S c k (tinsert c k v) S1.
Proof. intros (-> & Hr). done. Qed.
Lemma leaf_child D S k : inv D S -> path_ok k = true -> known (Leaf k v) -> exists r S1, (leaf ← trie_node_create_leaf (k ++ [0xFF]) v; update_db leaf false) S = Ok r S1 /\ r = hash_key (H_ (Leaf k v)) /\ child_post D S Merkle.Empty k (Leaf k v) S1.
Proof.
  intros Hi Hk Hkl. destruct (new_leaf D S k Hi (Hbuilt _ Hkl) Hkl) as (l & S1 & E1 & Hln & Hl1 & k2 & S2 & E2 & -> & Hi2 & Hl2 & Hk2 & Er2 & Eh2 & En2 & _). exists (hash_key (H_ (Leaf k v))), S2. split; [by mstep E1|]. split; [done|]. split_and!.
  - eapply inv_mono; [|exact Hi2]. intros; by left.
  - done.
  - by apply below_leaf.
  - auto.
  - apply (stays_change _ S S2 l); [left; by apply (not_in_nodes known D)|done|intros j Hj; apply En2; by right].
Qed.
(** One step of [handle_node], given what it does for children. *)
Definition handles (fuel : nat) : Prop := forall D S q t k n top, at_ q t k -> (length k < fuel)%nat -> start D S t n -> exists r S1, handle_node fuel (Some n) (k ++ [0xFF]) v top S = Ok r S1 /\ done_ D S t k r S1.
Lemma handle_branch fuel D S q cs w x k n top : handles fuel -> at_ q (Branch cs w) (x :: k) -> (length k < fuel)%nat -> start D S (Branch cs w) n ->
  exists r S1, handle_node (Datatypes.S fuel) (Some n) ((x :: k) ++ [0xFF]) v top S = Ok r S1 /\ done_ D S (Branch cs w) (x :: k) r S1.
Proof.
  intros IH Ha Hf Hst. pose proof Hst as (Hi & Hn & (y & Hy & Hh & Hs) & Hbl). pose proof Hs as (Hx & Hty & Ho). pose proof (at_built _ _ _ Ha) as Hbt. destruct (built_branch _ _ Hbt) as [Hl _]. destruct (plain_ok _ Hbt) as [Hok _]. pose proof (at_path _ _ _ Ha) as Hpath. destruct (path_cons _ _ Hpath) as [Hx16 Hpk].
  cbn [handle_node]. dstep (nibble_len_spec (x :: k) (path_nibbles _ Hpath)). change (length (x :: k) =? 0)%nat with false. cbn iota. destruct (lookup_lt_is_Some_2 cs (Z.to_nat x)) as [c Hc]; [lia|]. assert (plain_items (Branch cs w) !! Z.to_nat x = Some (Str (ref_of c))) as Hit by (cbn [plain_items]; apply lookup_app_l_Some; by rewrite list_lookup_fmap, Hc).
  pose proof (get_item_spec y _ (Z.to_nat x) _ Hx Hok Hit) as Eg. rewrite Z2Nat.id in Eg by lia. cbn [item_bytes] in Eg.
  assert (exists r S1, (match ref_of c with [] => leaf ← trie_node_create_leaf (k ++ [0xFF]) v; update_db leaf false | _ => c ← get_node_target n x; handle_node fuel c (k ++ [0xFF]) v false end) S = Ok r S1 /\ r = hash_key (H_ (tinsert c k v)) /\ child_post D S c k (tinsert c k v) S1) as (r & S1 & E1 & -> & Hpost).
  { destruct (built_child _ _ _ _ Hbt Hc) as [->|Hbc].
    - cbn [ref_of is_empty]. apply leaf_child; [done|done|]. pose proof (at_known_new _ _ _ Ha) as Hkn. cbn [tinsert] in Hkn. apply (below_top _ _ (below_child known _ _ (Z.to_nat x) (Leaf k v) Hkn ltac:(rewrite list_lookup_alter_eq, Hc; done))). done.
    - assert (c <> Merkle.Empty) as Hcne by (by destruct c). destruct (below_top _ _ (below_child _ _ _ _ _ Hbl Hc) Hcne) as (Hkc & HDc & Hlc). destruct (target_ok D S n y _ x c Hi Hy Hx Hok Hit ltac:(lia) Hkc HDc Hlc) as (j & z & Et & Hj & Hz & Hzh & Hzs).
      destruct (IH D S (q ++ [x]) c k j false (at_child _ _ _ _ _ _ Ha Hc ltac:(lia) Hcne) Hf (start_child D S _ n c Hst Hcne (below_child _ _ _ _ _ Hbl Hc) j z Hj Hz Hzh Hzs)) as (r & S1 & E1 & [-> Hpost]%done_child).
      exists (hash_key (H_ (tinsert c k v))), S1. split; [|done]. rewrite built_ref by done. destruct (H_ c) as [|h0 hs] eqn:Eh; [pose proof (H_length c) as Hlen; by rewrite Eh in Hlen|]. by mstep Et. }
  destruct (relink_branch D S q cs w x k n c S1 Ha Hst Hc Hpost) as (S2 & E2 & Hr). destruct (ready_done D S q _ _ n S2 top Ha Hr) as (r & S3 & E3 & Hd3). exists r, S3. split; [|done].
  erewrite (mrun _ _ S n S2); [exact E3|]. mstep (node_at_ok _ _ _ Hy). dstep Hty. cbn [ty_of]. change (rd ((x :: k) ++ [0xFF]) 0) with x. dstep Eg. change (drop 1 ((x :: k) ++ [0xFF])) with (k ++ [0xFF]). mstep E1. by mstep E2.
Qed.
Lemma handle_short fuel D S q t P k n top : handles fuel -> at_ q t k -> (length k < Datatypes.S fuel)%nat -> start D S t n -> k <> [] -> path_is P t ->
  exists r S1, handle_node (Datatypes.S fuel) (Some n) (k ++ [0xFF]) v top S = Ok r S1 /\ done_ D S t k r S1.
Proof.
  intros IH Ha Hf Hst Hne HP. pose proof Hst as (Hi & Hn & (y & Hy & Hh & Hs) & Hbl). pose proof Hs as (Hx & Hty & Ho). pose proof (at_built _ _ _ Ha) as Hbt. destruct (plain_ok _ Hbt) as [Hok _]. pose proof (at_path _ _ _ Ha) as Hpath.
  assert (path_ok P = true) as HpP by (destruct t as [|p w|p t1|]; try done; cbn [path_is] in HP; subst p; [by apply built_leaf in Hbt as [? _]|by apply built_Ext in Hbt as (_ & ? & _)]).
  destruct (repath_items t P P HP Hbt HpP) as (it & Eit & _). pose proof Hx as Hx'. pose proof Hok as Hok'. rewrite Eit in Hx', Hok'. pose proof (get_item_spec y _ 0 _ Hx' Hok' eq_refl) as Eg. cbn [item_bytes] in Eg. change (Z.of_nat 0) with 0 in Eg. destruct (common P k) as [[c a] r] eqn:Ecom. pose proof (common_spec _ _ _ _ _ Ecom) as (EP & Ek & _).
  assert (exists m S1, (match ty_of t with NODE_EMPTY => mret n | NODE_BRANCH => undef | _ =>
      if (length c =? length P)%nat then match ty_of t with NODE_EXT => c0 ← get_node_target n 1; k0 ← handle_node fuel c0 (drop (length c) (k ++ [0xFF])) v false; _ ← set_node_target n 1 k0; mret n
        | _ => if (length c <? length k)%nat then extend_leaf n (P ++ [0xFF]) (k ++ [0xFF]) v (length c) else _ ← trie_node_set_item n 1 v false; mret n end
      else split_node n (ty_of t) (P ++ [0xFF]) (k ++ [0xFF]) v (length c) end) S = Ok m S1 /\ ready D S t k m S1) as (m & S1 & E1 & Hr).
  { destruct a as [|y0 a].
    - rewrite app_nil_r in EP. subst c. rewrite Nat.eqb_refl. destruct t as [|p w|p t1|]; try done; cbn [path_is] in HP; subst p; cbn [ty_of].
      + destruct r as [|x r]; [exfalso; eapply at_fresh; [exact Ha|]; rewrite Ek, app_nil_r; constructor|]. rewrite (proj2 (Nat.ltb_lt _ _)) by (rewrite Ek, length_app; cbn [length]; lia). rewrite Ek in *. by apply (extend_ok D S q).
      + pose proof (built_Ext _ _ Hbt) as (HPne & _ & Hbr & Hbc). assert (t1 <> Merkle.Empty) as Hcne by (by destruct t1). rewrite Ek in Ha. destruct (below_top _ _ (below_target _ _ _ Hbl) Hcne) as (Hkc & HDc & Hlc). destruct (target_ok D S n y _ 1 t1 Hi Hy Hx Hok eq_refl ltac:(lia) Hkc HDc Hlc) as (j & z & Et & Hj & Hz & Hzh & Hzs).
        assert (length r < fuel)%nat as Hfr by (rewrite Ek, length_app in Hf; destruct P; [done|]; cbn [length] in Hf; lia). destruct (IH D S (q ++ P) t1 r j false (at_target _ _ _ _ Ha) Hfr (start_child D S _ n t1 Hst Hcne (below_target _ _ _ Hbl) j z Hj Hz Hzh Hzs)) as (r2 & S1 & E1 & [-> Hpost]%done_child).
        destruct (relink_ext D S q P r n t1 S1 Ha Hst Hpost) as (S2 & E2 & Hr). exists n, S2. rewrite <- Ek in Hr. split; [|done]. mstep Et. assert (drop (length P) (k ++ [0xFF]) = r ++ [0xFF]) as -> by (rewrite Ek, <- app_assoc; apply drop_app_length). mstep E1. by mstep E2.
    - assert ((length c =? length P)%nat = false) as -> by (apply Nat.eqb_neq; rewrite EP, length_app; cbn [length]; lia). destruct (split_ok D S q t k n c y0 a r P Ha Hst HP Ecom) as (m & S1 & E1 & Hr). exists m, S1. split; [|done]. by destruct t. }
  destruct (ready_done D S q t k m S1 top Ha Hr) as (r2 & S2 & E2 & Hd2). exists r2, S2. split; [|done]. cbn [handle_node]. dstep (nibble_len_spec k (path_nibbles _ Hpath)). assert ((length k =? 0)%nat = false) as -> by (by destruct k).
  erewrite (mrun _ _ S m S1); [exact E2|]. mstep (node_at_ok _ _ _ Hy). dstep Hty. destruct t as [|p w|p t1|]; try done; cbn [ty_of path_is is_leaf] in *; subst p; dstep Eg; rewrite path_of_item by (by apply path_nibbles); dstep (matching_common P k c a r (path_nibbles _ HpP) (path_nibbles _ Hpath) Ecom); dstep (nibble_len_spec P (path_nibbles _ HpP)); exact E1.
Qed.
Lemma handle_ok fuel : handles fuel.
Proof.
  induction fuel as [|fuel IH]; intros D S q t k n top Ha Hf Hst; [lia|]. destruct k as [|x k].
  - assert (exists m S1, handle_end n v S = Ok m S1 /\ ready D S t [] m S1) as (m & S1 & E1 & Hr) by (pose proof Ha as (_ & _ & Hne); destruct t as [|p w|p c|cs w]; [done|by eapply end_leaf_ok|by eapply end_ext_ok|by eapply end_branch_ok]).
    destruct (ready_done D S q t [] m S1 top Ha Hr) as (r & S2 & E2 & Hd2). exists r, S2. split; [|done]. cbn [handle_node app]. change (nibble_len [0xFF]) with (Some 0%nat). rewrite (mrun _ _ S 0%nat S) by done. cbv beta. cbn [Nat.eqb]. by mstep E1.
  - pose proof Ha as (_ & _ & Hne). destruct t as [|p w|p c|cs w]; [done| | |]; [by eapply (handle_short fuel D S q _ p)|by eapply (handle_short fuel D S q _ p)|]. eapply handle_branch; [done|done|cbn [length] in Hf; lia|done].
Qed.
End Insert.
