(* ===== verification/TrieBuild.v ===== *)
(** * verifier/eth1/basic/trie.c: the root of a list of keys and values

    Setting values one after the other gives the root of the trie that has exactly these values
    ([trie_root_spec]).  The theorem is about different keys, different values of ordinary size, and a hash function
    that does not take two of the nodes that occur for one. *)
From S2P Require Import Prelude Utils Bytes Rlp Merkle Serialize BasicTx TxSafety Trie TrieSpec TrieNode TrieStore TrieInsert.
#[local] Open Scope Z_scope.
#[local] Ltac mstep E := rewrite (mrun _ _ _ _ _ E); cbv beta.

(** ** Hashes of nodes *)
Section Hashes.
Context `{Keccak} `{Allocator}.
Definition hash_inj (l : list (list Z)) : Prop := Forall (fun a => keccak a <> replicate 32 0 /\ Forall (fun b => keccak a = keccak b -> a = b) l) l.
Lemma hash_inj_eq l a b : hash_inj l -> In a l -> In b l -> keccak a = keccak b -> a = b.
Proof. unfold hash_inj. rewrite Forall_forall. setoid_rewrite Forall_forall. intros Hl Ha%list_elem_of_In Hb%list_elem_of_In. by apply Hl. Qed.
(** One hash per node is enough to see it. *)
Lemma hash_inj_once l : NoDup (map keccak (remove_dups l)) -> replicate 32 0 ∉ map keccak l -> hash_inj l.
Proof.
  intros Hn Hz. apply Forall_forall. intros a Ha. split; [intros E; apply Hz; rewrite <- E; by apply list_elem_of_fmap_2|]. apply Forall_forall. intros b Hb E.
  apply elem_of_remove_dups, list_elem_of_lookup in Ha as [i Ha], Hb as [j Hb]. assert (i = j) as ->; [|congruence]. eapply (NoDup_lookup (map keccak (remove_dups l))); [done|rewrite list_lookup_fmap, Ha; done|rewrite list_lookup_fmap, Hb; cbn; by rewrite E].
Qed.
Lemma sub_nodes t q u : sub t q u -> u <> Merkle.Empty -> In (node_enc u) (nodes t).
Proof.
  induction 1 as [t|p c q u Hs IH|cs w x c q u Hc Hx Hs IH]; intros Hne; [destruct t; [done|by left..]|right; auto|]. right. apply in_concat. exists (nodes c). split; [|auto]. apply in_map, list_elem_of_In. by eapply list_elem_of_lookup_2.
Qed.
Lemma hex_prefix_inj p p' l l' : forallb nibbleb p = true -> forallb nibbleb p' = true -> hex_prefix p l = hex_prefix p' l' -> p = p' /\ l = l'.
Proof.
  intros Hp Hp' E. destruct (nibs_hex_prefix p l Hp) as (E1 & E2 & _). destruct (nibs_hex_prefix p' l' Hp') as (E3 & E4 & _). rewrite E, E3 in E1. rewrite E, E4 in E2. split; [by apply app_inj_tail in E1 as [-> _]|done].
Qed.
Lemma str_inj a b : Str a = Str b -> a = b.
Proof. by intros [= ->]. Qed.
(** Nodes with the same encoding have the same items. *)
Lemma plain_inj u w : built u = true -> built w = true -> node_enc u = node_enc w -> plain_items u = plain_items w.
Proof.
  intros Hu Hw. rewrite !node_enc_plain by done. destruct (plain_ok u Hu) as [[Hou Hlu] _], (plain_ok w Hw) as [[How Hlw] _]. intros E. apply rlp_list_inj in E; [|by apply enc_items_bytes_ok..|unfold rlp_list; rewrite length_app; pose proof (rlp_header_length 0xc0 (zlen (enc_items (plain_items u)))); lia]. apply enc_items_inj in E; [done|done|done|lia].
Qed.
Lemma H_inj L u : forall w, hash_inj L -> built u = true -> built w = true -> (forall e, In e (nodes u) -> In e L) -> (forall e, In e (nodes w) -> In e L) -> H_ u = H_ w -> u = w.
Proof.
  intros w HL. revert w. assert (forall t, t <> Merkle.Empty -> In (node_enc t) (nodes t)) as Htop by (intros t Hne; by apply node_enc_in; destruct t).
  induction u as [|p v|p c IH|cs v IH] using trie_nested_ind; intros w Hu Hw HLu HLw E; [done| | |]; (apply (hash_inj_eq L) in E; [|done|apply HLu, Htop; done|apply HLw, Htop; by destruct w]); (apply plain_inj in E; [|done|done]); destruct w as [|p' v'|p' c'|cs' v']; try done; cbn [plain_items] in E;
    try (by apply (f_equal length) in E; rewrite length_app, length_map in E; cbn [length] in E; apply built_branch in Hu as [Hl _] || apply built_branch in Hw as [Hl _]; rewrite Hl in E; lia).
  - injection E as E1 ->. apply hex_prefix_inj in E1 as [-> _]; [done|by apply path_nibbles; apply built_leaf in Hu as [? _]|by apply path_nibbles; apply built_leaf in Hw as [? _]].
  - injection E as E1 _. apply hex_prefix_inj in E1 as [_ ?]; [done|by apply path_nibbles; apply built_leaf in Hu as [? _]|by apply path_nibbles; apply built_Ext in Hw as (_ & ? & _)].
  - injection E as E1 _. apply hex_prefix_inj in E1 as [_ ?]; [done|by apply path_nibbles; apply built_Ext in Hu as (_ & ? & _)|by apply path_nibbles; apply built_leaf in Hw as [? _]].
  - injection E as E1 E2. apply built_Ext in Hu as (_ & Hp & Hbr & Hc), Hw as (_ & Hp' & Hbr' & Hc'). apply hex_prefix_inj in E1 as [-> _]; [|by apply path_nibbles..]. f_equal. rewrite !built_ref in E2 by done. apply IH; try done; intros e He; [apply HLu|apply HLw]; by right.
  - destruct (built_branch _ _ Hu) as [Hl _], (built_branch _ _ Hw) as [Hl' _]. apply app_inj_tail in E as [E [= ->]]. f_equal. apply list_eq_same_length with 16%nat; [done|done|]. intros i c c' _ Hc Hc'. pose proof (f_equal (fun l => l !! i) E) as Ei. cbn beta in Ei. rewrite !list_lookup_fmap, Hc, Hc' in Ei. injection Ei as Ei. rewrite Forall_lookup in IH.
    destruct (built_child _ _ _ _ Hu Hc) as [->|Hbc], (built_child _ _ _ _ Hw Hc') as [->|Hbc']; [done|exfalso|exfalso|].
    + rewrite (built_ref c') in Ei by done. apply (f_equal length) in Ei. by rewrite H_length in Ei.
    + rewrite (built_ref c) in Ei by done. apply (f_equal length) in Ei. by rewrite H_length in Ei.
    + rewrite !built_ref in Ei by done. assert (forall cs v c e, cs !! i = Some c -> In e (nodes c) -> In e (nodes (Branch cs v))) as Hin by (intros cs0 v0 c0 e Hc0 He; right; apply in_concat; exists (nodes c0); split; [apply in_map, list_elem_of_In; by eapply list_elem_of_lookup_2|done]).
      apply (IH i c Hc c'); try done; intros e He; [apply HLu|apply HLw]; by eapply Hin.
Qed.
End Hashes.

(** ** One key *)
Section Set_.
Context `{Keccak} `{Allocator}.
(** A node that cannot come back, since its place has a value more. *)
Definition dead (T u : trie) : Prop := exists q s w s2 v2, has_value u s w /\ has_value T (q ++ s) w /\ has_value T (q ++ s2) v2 /\ ~ has_value u s2 v2.
(** The list holds the trie. *)
Definition holds_trie (known : trie -> Prop) (S : trie_t) (T : trie) : Prop :=
  t_root S = H_ T /\ (T = Merkle.Empty /\ t_nodes S = [] \/ built T = true /\ inv known (dead T) S /\ below (listed S) T).
Section Known.
Context (known : trie -> Prop) (Hbuilt : forall u, known u -> built u = true) (Hinj : forall u w, known u -> known w -> H_ u = H_ w -> u = w) (Hnz : forall u, known u -> H_ u <> replicate 32 0).
Lemma set_first S key v : holds_trie known S Merkle.Empty -> (length key <= 32)%nat -> path_ok (nibs key) = true -> value_ok v = true -> known (Leaf (nibs key) v) ->
  exists S1, trie_set_value key v S = Ok tt S1 /\ holds_trie known S1 (Leaf (nibs key) v).
Proof.
  intros (Hr & [[_ Hn]|[? _]]) Hk Hp Hv Hkn; [|done]. unfold trie_set_value. assert ((length v =? 0)%nat = false) as -> by (by destruct v). rewrite (proj2 (Nat.ltb_ge 32 (length key))) by lia. cbn [orb]. rewrite (mrun _ _ S (t_root S) S) by done. cbv beta.
  rewrite (mrun _ _ S None S) by (unfold get_node; rewrite (mrun _ _ S (t_nodes S) S) by done; by rewrite Hn). cbv beta. rewrite path_plain. destruct (create_leaf_ok S (nibs key) v (Hbuilt _ Hkn)) as (l & x & S1 & E1 & He1 & Hl1 & Hnl & Hs1). assert (inv known (dead (Leaf (nibs key) v)) S1) as Hi by (intros i Hin; destruct Hl1 as (En & _); rewrite En, Hn in Hin; by apply elem_of_nil in Hin).
  destruct (update_ok known Hbuilt _ S1 l x _ true Hi He1 Hs1 Hkn) as (x2 & S2 & E2 & Hi2 & Hl2 & _).
  assert (forall f, handle_node (Datatypes.S f) None (nibs key ++ [0xFF]) v true S = Ok (hash_key (H_ (Leaf (nibs key) v))) S2) as Eh by (intros f; cbn [handle_node]; mstep (defined_ok _ _ S (nibble_len_spec _ (path_nibbles _ Hp))); by mstep E1). mstep (Eh (length (nibs key ++ [0xFF]))). exists (with_root (H_ (Leaf (nibs key) v)) S2). split; [done|].
  split; [done|]. right. split; [by apply Hbuilt|]. split; [exact Hi2|]. by apply below_leaf.
Qed.
Lemma set_next S T key v : holds_trie known S T -> built T = true -> (length key <= 32)%nat -> path_ok (nibs key) = true -> value_ok v = true -> (forall w, ~ has_value T (nibs key) w) -> distinct (tinsert T (nibs key) v) ->
  below known T -> below known (tinsert T (nibs key) v) -> exists S1, trie_set_value key v S = Ok tt S1 /\ holds_trie known S1 (tinsert T (nibs key) v).
Proof.
  intros (Hr & [[-> _]|(HT & Hi & Hb)]) HbT Hk Hp Hv Hfr Hd HkT HkT'; [done|]. assert (T <> Merkle.Empty) as Hne by (by destruct T). assert (distinct T) as HdT by (eapply distinct_old; done). assert (forall q u, sub T q u -> ~ dead T u) as Hnd by (intros q u Hu (q0 & s & w & s2 & v2 & V1 & V2 & V3 & V4); exact (sub_dead T q0 q u s w s2 v2 HdT V1 V2 V3 V4 Hu)).
  pose proof (below_top _ _ HkT Hne) as HkT0. destruct (find_ok known Hinj _ S T Hi HkT0 (Hnd [] T (sub_here T)) (below_top _ _ Hb Hne)) as (n & x & Eg & Hn & He & Hh & Hs).
  unfold trie_set_value. assert ((length v =? 0)%nat = false) as -> by (by destruct v). rewrite (proj2 (Nat.ltb_ge 32 (length key))) by lia. cbn [orb]. rewrite (mrun _ _ S (t_root S) S) by done. cbv beta. rewrite Hr. mstep Eg. rewrite path_plain.
  destruct (handle_ok known Hbuilt Hinj Hnz T (nibs key) v HT Hp Hv Hfr Hd HkT HkT' (Datatypes.S (length (nibs key ++ [0xFF]))) (dead T) S [] T (nibs key) n true) as (r & S1 & E1 & -> & Hi1 & Hr1 & Hb1 & _).
  - split; [constructor|]. split; [done|done].
  - rewrite length_app. cbn [length]. lia.
  - split; [done|]. split; [done|]. split; [by exists x|]. intros q u Hu Hu0. split; [by eapply HkT|]. split; [by eapply Hnd|by eapply Hb].
  - mstep E1. exists (with_root (H_ (tinsert T (nibs key) v)) S1). split; [done|]. split; [done|]. right. split; [by apply Hbuilt, (below_top _ _ HkT'); intros E; destruct (tinsert_built T (nibs key) v (or_intror HT) Hp Hv) as [Hbt _]; rewrite E in Hbt|]. split; [|exact Hb1].
    eapply (inv_mono known _ _ S1); [|exact Hi1]. cbn beta. assert (forall k w, has_value T k w -> has_value (tinsert T (nibs key) v) k w) as Hm by (intros; by apply has_new). intros u Hu [(q & s & w & s2 & v2 & V1 & V2 & V3 & V4)|(Hu0 & q & k' & Hsub & E)]; [exists q, s, w, s2, v2; auto|].
    destruct (built_has u (Hbuilt u Hu)) as (s & w & Hw). exists q, s, w, k', v. split; [done|]. split; [apply Hm; by eapply sub_up|]. rewrite <- E. split; [by apply has_key|]. intros Hu2. eapply Hfr. rewrite E. by eapply sub_up.
Qed.
End Known.

(** ** A list of keys *)
Definition trie_of (kvs : list (list Z * list Z)) : trie := fold_left (fun t kv => tinsert t (nibs (fst kv)) (snd kv)) kvs Merkle.Empty.
Fixpoint set_values (kvs : list (list Z * list Z)) : M trie_t unit := match kvs with [] => mret tt | (k, v) :: t => _ ← trie_set_value k v; set_values t end.
Definition entry_fits (kv : list Z * list Z) : Prop := bytes_ok (fst kv) /\ (length (fst kv) <= 32)%nat /\ value_ok (snd kv) = true.
(** All nodes that occur while the values are set. *)
Definition all_nodes (kvs : list (list Z * list Z)) : list (list Z) := concat (map (fun n => nodes (trie_of (take n kvs))) (seq 0 (S (length kvs)))).
Lemma nibs_cons b l : nibs (b :: l) = Z.shiftr b 4 :: Z.land b 0x0F :: nibs l.
Proof. done. Qed.
Lemma nibs_length l : length (nibs l) = (2 * length l)%nat.
Proof. induction l as [|b l IH]; [done|]. rewrite nibs_cons. cbn [length]. lia. Qed.
Lemma nibs_injective a : forall b, bytes_ok a -> bytes_ok b -> nibs a = nibs b -> a = b.
Proof.
  induction a as [|x a IH]; intros [|y b] Ha Hb E; try done. rewrite !nibs_cons in E. injection E as E1 E2 E3. apply Forall_cons in Ha as [Hx Ha], Hb as [Hy Hb]. f_equal; [|auto].
  change 0x0F with (Z.ones 4) in E2. rewrite !Z.land_ones, !Z.shiftr_div_pow2 in * by lia. rewrite (Z.div_mod x (2 ^ 4)), (Z.div_mod y (2 ^ 4)) by lia. congruence.
Qed.
Lemma fits_path kv : entry_fits kv -> path_ok (nibs (fst kv)) = true.
Proof. intros (Hb & Hl & _). unfold path_ok. rewrite nibs_ok by done. apply Nat.leb_le. rewrite nibs_length. lia. Qed.
Lemma trie_of_snoc kvs kv : trie_of (kvs ++ [kv]) = tinsert (trie_of kvs) (nibs (fst kv)) (snd kv).
Proof. unfold trie_of. by rewrite fold_left_app. Qed.
Lemma trie_of_spec kvs : Forall entry_fits kvs -> NoDup (map fst kvs) ->
  (kvs = [] /\ trie_of kvs = Merkle.Empty \/ built (trie_of kvs) = true) /\ forall k v, has_value (trie_of kvs) k v <-> exists key, k = nibs key /\ (key, v) ∈ kvs.
Proof.
  induction kvs as [|[key v0] kvs IH] using rev_ind; intros Hf Hnd; [split; [by left|]; intros k v; cbn; rewrite hv_empty; split; [done|]; intros (key & _ & Hin); by apply elem_of_nil in Hin|].
  apply Forall_app in Hf as [Hf [Hkv _]%Forall_cons]. rewrite map_app in Hnd. apply NoDup_app in Hnd as (Hnd & Hno & _). destruct (IH Hf Hnd) as [Hb Hv]. assert (trie_of kvs = Merkle.Empty \/ built (trie_of kvs) = true) as Hb' by tauto. pose proof (fits_path _ Hkv) as Hp. destruct Hkv as (Hby & Hl & Hvo). cbn [fst snd] in *. rewrite trie_of_snoc. cbn [fst snd]. split; [right; by apply tinsert_built|].
  intros k v. rewrite tinsert_spec, Hv by (try done; try (by apply path_nibbles); by apply value_ok_nonempty). setoid_rewrite elem_of_app. setoid_rewrite list_elem_of_singleton. split.
  - intros [[-> ->]|(_ & key' & -> & Hin)]; eauto.
  - intros (key' & -> & [Hin|[= -> ->]]); [|by left]. right. assert (key' <> key) as Hne by (intros ->; apply (Hno key); [apply list_elem_of_fmap; by exists (key, v)|by left]). split; [|eauto]. intros E. apply Hne. rewrite Forall_forall in Hf. destruct (Hf _ Hin) as (Hb1 & _). by apply nibs_injective.
Qed.
Lemma set_values_snoc l kv s s1 : set_values l s = Ok tt s1 -> set_values (l ++ [kv]) s = trie_set_value (fst kv) (snd kv) s1.
Proof.
  revert s. induction l as [|[k v] l IH]; intros s; cbn [set_values app].
  - intros [= ->]. destruct kv as [k v]. cbn [fst snd]. unfold mbind, M_bind. by destruct (trie_set_value k v s1) as [[] ?| | |].
  - unfold mbind, M_bind. destruct (trie_set_value k v s) as [[] s2| | |]; try done. apply IH.
Qed.
Lemma prefix_fits kvs n : Forall entry_fits kvs -> NoDup (map fst kvs) -> Forall entry_fits (take n kvs) /\ NoDup (map fst (take n kvs)).
Proof. intros Hf Hnd. split; [by apply Forall_take|]. rewrite <- (take_drop n kvs), map_app in Hnd. by apply NoDup_app in Hnd as (? & _). Qed.
Lemma values_distinct kvs : Forall entry_fits kvs -> NoDup (map fst kvs) -> NoDup (map snd kvs) -> distinct (trie_of kvs).
Proof.
  intros Hf Hk Hv k1 k2 v. destruct (trie_of_spec kvs Hf Hk) as [_ Hh]. rewrite !Hh. intros (a & -> & Ha) (b & -> & Hb). f_equal. apply list_elem_of_lookup in Ha as [i Ha], Hb as [j Hb].
  assert (i = j) as ->; [|congruence]. eapply (NoDup_lookup (map snd kvs)); [done|rewrite list_lookup_fmap, Ha; done|rewrite list_lookup_fmap, Hb; done].
Qed.
Lemma NoDup_map_take {A B} (f : A -> B) l n : NoDup (map f l) -> NoDup (map f (take n l)).
Proof. intros Hn. rewrite <- (take_drop n l), map_app in Hn. by apply NoDup_app in Hn as (? & _). Qed.

Lemma set_values_ok kvs : Forall entry_fits kvs -> NoDup (map fst kvs) -> NoDup (map snd kvs) -> hash_inj (all_nodes kvs) ->
  exists s0 s, trie_new = Some s0 /\ set_values kvs s0 = Ok tt s /\ t_root s = keccak (node_enc (trie_of kvs)).
Proof.
  intros Hf Hk Hv Hinj. set (known := fun u => u <> Merkle.Empty /\ exists n q, (n <= length kvs)%nat /\ sub (trie_of (take n kvs)) q u).
  assert (forall n, Forall entry_fits (take n kvs) /\ NoDup (map fst (take n kvs))) as Hpre by (intros n; by apply prefix_fits).
  assert (forall n, trie_of (take n kvs) = Merkle.Empty \/ built (trie_of (take n kvs)) = true) as Hbt by (intros n; destruct (Hpre n) as [H1 H2]; destruct (trie_of_spec _ H1 H2) as [[[_ ?]|?] _]; [by left|by right]).
  assert (forall u, known u -> built u = true) as Hbuilt by (intros u (Hne & n & q & _ & Hs); destruct (Hbt n) as [E|Hb]; [rewrite E in Hs; by inversion Hs; subst|by eapply sub_built]).
  assert (forall u e, known u -> In e (nodes u) -> In e (all_nodes kvs)) as Hall.
  { intros u e (Hne & n & q & Hn & Hs) He. apply in_concat. exists (nodes (trie_of (take n kvs))). split; [apply in_map_iff; exists n; split; [done|]; apply in_seq; lia|]. clear -Hs He. induction Hs as [|p c q u Hs IH|cs w x c q u Hc Hx Hs IH]; [done|right; auto|]. right. apply in_concat. exists (nodes c). split; [|auto]. apply in_map, list_elem_of_In. by eapply list_elem_of_lookup_2. }
  assert (forall u w, known u -> known w -> H_ u = H_ w -> u = w) as HHinj by (intros u w Hu Hw E; apply (H_inj (all_nodes kvs)); try auto; intros e; by apply Hall).
  assert (forall u, known u -> H_ u <> replicate 32 0) as Hnz. { intros u Hu. pose proof Hu as (Hne & _). unfold hash_inj in Hinj. rewrite Forall_forall in Hinj. apply Hinj, list_elem_of_In, (Hall u); [done|]. apply node_enc_in. by destruct u. }
  assert (forall n, (n <= length kvs)%nat -> below known (trie_of (take n kvs))) as Hkn by (intros n Hn q u Hs Hne; split; [done|]; by exists n, q).
  exists (mk_trie (keccak [0x80]) [] []). assert (forall n, (n <= length kvs)%nat -> exists s, set_values (take n kvs) (mk_trie (keccak [0x80]) [] []) = Ok tt s /\ holds_trie known s (trie_of (take n kvs))) as Hrun.
  { induction n as [|n IH]; intros Hn; [eexists; split; [done|]; split; [done|by left]|]. destruct (IH ltac:(lia)) as (s & Es & Hs). destruct (lookup_lt_is_Some_2 kvs n) as [[key v] Hkv]; [lia|]. pose proof (take_S_r kvs n _ Hkv) as Et. pose proof (Hkn (S n) Hn) as Hk1. pose proof (Hpre (S n)) as [Hf1 Hd1]. pose proof (values_distinct _ Hf1 Hd1 (NoDup_map_take snd kvs (S n) Hv)) as Hdist. rewrite Et in *. rewrite trie_of_snoc in *. cbn [fst snd] in *.
    apply Forall_app in Hf1 as [_ [Hkf _]%Forall_cons]. pose proof (fits_path _ Hkf) as Hp. destruct Hkf as (Hby & Hkl & Hvo). cbn [fst snd] in *. rewrite (set_values_snoc _ _ _ _ Es). cbn [fst snd]. destruct (Hpre n) as [Hf0 Hd0]. destruct (trie_of_spec _ Hf0 Hd0) as [_ Hhv].
    destruct (Hbt n) as [E|Hb].
    - rewrite E in *. cbn [tinsert] in *. apply (set_first known Hbuilt); try done. by apply (below_top _ _ Hk1).
    - apply (set_next known Hbuilt HHinj Hnz); try done; [|apply Hkn; lia]. intros w Hw. apply Hhv in Hw as (key' & Ek & Hin). rewrite map_app in Hd1. apply NoDup_app in Hd1 as (_ & Hno & _). rewrite Forall_forall in Hf0. destruct (Hf0 _ Hin) as (Hb' & _). apply nibs_injective in Ek; [|done|done]. subst key'. apply (Hno key); [apply list_elem_of_fmap; by exists (key, w)|by left]. }
  destruct (Hrun (length kvs) (le_n _)) as (s & Es & Hr & _). rewrite take_ge in * by done. exists s. split_and!; try done. unfold trie_new. destruct (rlp_encode_item_rep bb_new [] [] bb_new_rep) as (bb & -> & R); [done|]. cbn [mbind option_bind]. by rewrite (bb_bytes_rep _ _ R).
Qed.

(** C11. The root that is computed is the one of the trie.  Setting values one after the other - each
    step changes nodes in place, splits paths and links nodes by their hashes - leaves the root hash of the trie
    with exactly these keys and values, as the yellow paper encodes it.  The keys are different, with at most
    32 bytes, the values are different, with 32 to 61440 bytes, and no two of the nodes that occur have
    the same hash. *)
Theorem trie_root_spec kvs : Forall entry_fits kvs -> NoDup (map fst kvs) -> NoDup (map snd kvs) -> hash_inj (all_nodes kvs) ->
  exists s0 s, trie_new = Some s0 /\ set_values kvs s0 = Ok tt s /\ t_root s = keccak (node_enc (trie_of kvs)) /\
    forall k v, has_value (trie_of kvs) k v <-> exists key, k = nibs key /\ (key, v) ∈ kvs.
Proof.
  intros Hf Hk Hv Hinj. destruct (set_values_ok kvs Hf Hk Hv Hinj) as (s0 & s & E0 & Es & Hr). exists s0, s. split_and!; try done. by apply trie_of_spec.
Qed.
End Set_.

(** ** An example *)
Module TrieSample.
#[local] Instance alloc : Allocator.
Proof. refine {| malloc n := replicate n 0 |}; [intros n; apply length_replicate|intros n; apply Forall_replicate; decide_now]. Defined.
Definition checksum (l : list Z) : list Z := 3 :: be_bytes 31 (fold_left (fun acc b => (acc * 257 + b + 1) mod 2 ^ 248) l 1).
#[local] Instance hash : Keccak.
Proof. refine {| keccak := checksum |}; intros l; unfold checksum; [cbn [length]; by rewrite length_be_bytes|constructor; [decide_now|apply be_bytes_ok]]. Defined.
(** A leaf, a branch, an extension that is split, and a value in a branch. *)
Definition entries : list (list Z * list Z) := [([0x80], replicate 40 1); ([0x12; 0x34], replicate 40 2); ([0x12; 0x35], replicate 40 3); ([0x12], replicate 40 4)].
Lemma trie_root_spec_witness : exists s0 s, trie_new = Some s0 /\ set_values entries s0 = Ok tt s /\ t_root s = keccak (node_enc (trie_of entries)) /\
  forall k v, has_value (trie_of entries) k v <-> exists key, k = nibs key /\ (key, v) ∈ entries.
Proof. apply trie_root_spec; [decide_now..|]. apply hash_inj_once; decide_now. Defined.

(** A value whose leaf has no path left is not replaced: the leaf gets a third item (trie.c:319). *)
Definition root_of (kvs : list (list Z * list Z)) : option (list Z) := s0 ← trie_new; match set_values kvs s0 with Ok _ s => Some (t_root s) | _ => None end.
Lemma overwrite_wrong : let kvs v := [([0x12], replicate 40 1); ([0x13], v)] in
  root_of (kvs (replicate 40 2)) = Some (keccak (node_enc (trie_of (kvs (replicate 40 2))))) /\
  root_of (kvs (replicate 40 2) ++ [([0x13], replicate 40 3)]) <> root_of (kvs (replicate 40 3)).
Proof. split; [vm_compute; reflexivity|vm_compute; discriminate]. Qed.
(** A node of less than 32 bytes in the first slot of a branch is looked for behind an item that is not there (trie.c:294). *)
Lemma embedded_first_undefined : root_of [([0x10], [1; 2; 3; 4]); ([0x01], [5; 6; 7; 8]); ([0x02], [9; 10; 11; 12])] = None.
Proof. vm_compute. reflexivity. Qed.
End TrieSample.
