(* ===== verification/BasicBlock.v ===== *)
(** * verifier/eth1/basic/eth_getBlock.c: blocks

    A block in a response is serialised and its hash checked; its transactions, those of the result or
    those of the proof, are put into a trie ([Trie]) whose root is compared with the one of the header.
    The trie is a local variable of the functions, and so an argument of the loops. *)
From S2P Require Import Prelude Utils Bytes Rlp Merkle Data Json JsonVal ReqState Request Serialize Nano NodeData BasicTx Trie.
From stdpp Require Import strings.
#[local] Open Scope Z_scope.

Definition K_TRANSACTIONS : Z := Eval vm_compute in key "transactions".
Definition K_UNCLES : Z := Eval vm_compute in key "uncles".
Definition K_AUTHOR : Z := Eval vm_compute in key "author".

Section Block.
Context `{SourceText} `{Keccak} `{Allocator} `{Ecdsa} {W : Type} (plugins : list (in3_plugin_t W)) (m : memory) (place : list Z -> slice).
#[local] Abbreviation st := (state W).
#[local] Abbreviation vc_err := (vc_err plugins).

(** [d_as_bytes]: NULL for a token that is not of type T_BYTES. *)
Definition d_as_bytes (t : option jval) : option (list Z) := match norm <$> t with Some (JBytes l) => Some l | _ => None end.
(** [is_raw_tx], and the bytes of the transaction, NULL for a number. *)
Definition is_raw_tx (t : option jval) : bool := match t with Some v => d_is_bytes v | None => false end.
Definition tx_of (t : option jval) : option (option (list Z)) := if is_raw_tx t then Some (d_as_bytes t) else Some <$> serialize_tx t.
Definition set_tx (i : Z) (tx : option (list Z)) : M trie_t unit :=
  path ← defined (create_tx_path i);
  match tx with Some tx => trie_set_value path tx | None => mret tt end.
(** A step of a local trie. *)
Definition on_trie (op : M trie_t unit) (trie : trie_t) : M st trie_t :=
  fun s => match op trie with Ok _ t => Ok t s | Err _ _ => Undef | Undef => Undef | NoFuel => NoFuel end.
(** [root.len != 32 || memcmp(root.data, trie->root, 32)] *)
Definition wrong_root (root : list Z) (trie : trie_t) : bool := negb (length root =? 32)%nat || negb (memcmp root (t_root trie) =? 0).

(** ** Uncles *)

(** The headers behind each other, if all of them have their hashes; the hashes are read over 32 bytes. *)
Fixpoint uncle_headers (bb : bytes_builder_t) (l : list (jval * jval)) : M st (option bytes_builder_t) :=
  match l with
  | [] => mret (Some bb)
  | (h, header) :: t =>
      let header := default [] (d_bytes (Some header)) in
      hash ← defined (b ← d_bytes (Some h); read_at b 0 32);
      if negb (memcmp hash (keccak header) =? 0) then mret None
      else bb ← defined (bb_write_raw_bytes bb header); uncle_headers bb t
  end.
Definition eth_verify_uncles (uncle_hash : option (list Z)) (uncles_headers uncle_hashes : option jval) : M st Z :=
  match uncles_headers, uncle_hashes with
  | Some (JArray headers), Some (JArray hashes) =>
      if negb (length headers =? length hashes)%nat then vc_err "invalid uncles proofs"
      else
        r ← uncle_headers bb_new (zip hashes headers);
        match r with
        | None => vc_err "invalid uncles blockheader"
        | Some bb =>
            bb ← defined (rlp_encode_to_list bb);
            l ← defined (bb_bytes bb);
            hash ← defined (b ← uncle_hash; read_at b 0 32);
            if negb (memcmp (keccak l) hash =? 0) then vc_err "invalid uncles root" else mret IN3_OK
        end
  | _, _ => vc_err "invalid uncles proofs"
  end.

(** ** The number of transactions *)
Fixpoint set_txs (i : Z) (l : list (option jval)) : M trie_t unit :=
  match l with
  | [] => mret tt
  | t :: l' => tx ← defined (tx_of t); _ ← set_tx i tx; set_txs (i + 1) l'
  end.
(** The transactions against the root; that there are none is an error only if the number is not 0. *)
Definition count_txs (transactions : option jval) (count : Z) (t_root : list Z) : M st Z :=
  _ ← (match transactions with None => vc_err "Missing transaction-properties" | Some _ => mret IN3_OK end);
  if negb (jlen transactions =? count) then vc_err "Transaction count mismatch"
  else
    trie ← defined trie_new;
    trie ← on_trie (set_txs 0 (items_of transactions)) trie;
    if wrong_root t_root trie then vc_err "Wrong Transaction root" else mret IN3_OK.
Definition eth_verify_eth_getBlockTransactionCount (vc : in3_vctx_t) (block_hash : option (list Z)) (blockNumber : Z) : M st (Z * bool) :=
  let fail (db : bool) (msg : string) : M st (Z * bool) := e ← vc_err msg; mret (e, db) in
  let count := i32 (d_int (vc_result vc)) in
  if negb (jtype (norm <$> vc_result vc) =? T_INTEGER) then fail (vc_dont_blacklist vc) "Invalid transaction count"
  else
    match vc_proof vc with
    | None => fail (vc_dont_blacklist vc) "Proof is missing!"
    | Some proof =>
        match d_bytes (jget (Some proof) K_BLOCK) with
        | None => fail (vc_dont_blacklist vc) "no blockheader"
        | Some header =>
            rd ← eth_verify_blockheader plugins m place vc (Some header) block_hash;
            let '(res, db) := rd in
            if negb (res =? IN3_OK) then fail db "invalid blockheader"
            else
              right_number ← (match block_hash with
                              | Some _ => mret true
                              | None =>
                                  item ← header_item m place header BLOCKHEADER_NUMBER;
                                  mret (match item with Some d => slice_number m d =? blockNumber | None => false end)
                              end);
              if negb (right_number : bool) then fail db "Invalid blocknumber"
              else
                item ← header_item m place header BLOCKHEADER_TRANSACTIONS_ROOT;
                match item with
                | None => fail db "invalid transaction root"
                | Some root => res ← count_txs (jget (Some proof) K_TRANSACTIONS) count (mem_read m root); mret (res, db)
                end
        end
    end.

(** ** Blocks *)

(** The first item of an encoded seal field against the property it stands for. *)
Definition seal_is (field : option jval) (value : list Z) : option bool :=
  b ← d_as_bytes field;
  '(r, d) ← dec m false (place b) 0;
  if negb (r =? 1) then Some false else d ← d; Some (b_compare value (mem_read m d) =? 0).
Definition check_seal (block : option jval) : M st Z :=
  match d_getl block K_MIX_HASH 32, jget block K_SEAL_FIELDS with
  | Some t, Some t2 =>
      mix ← defined (seal_is (jget_at (Some t2) 0) (default [] (d_bytes (Some t))));
      if negb (mix : bool) then vc_err "invalid mixhash"
      else
        nonce ← defined (seal_is (jget_at (Some t2) 1) (default [] (d_bytes (jget block K_NONCE))));
        if negb (nonce : bool) then vc_err "invalid nonce" else mret IN3_OK
  | _, _ => mret IN3_OK
  end.
Definition wrong_author (block : option jval) : bool :=
  match d_getl block K_MINER 20, d_getl block K_AUTHOR 20 with Some t, Some t2 => negb (d_eq (Some t) (Some t2)) | _, _ => false end.
(** [res = vc_err(..)] where the condition holds. *)
Definition err_if (b : bool) (msg : string) (res : Z) : M st Z := if b then vc_err msg else mret res.
(** The values of a transaction that is an object. *)
Definition check_block_tx (t : option jval) (tx : list Z) (i bnumber : Z) (bhash : option (list Z)) (res : Z) : M st Z :=
  e ← eth_verify_tx_values plugins m place t (Some (place tx));
  let res := if e =? IN3_OK then res else IN3_EUNKNOWN in
  res ← err_if (match d_getl t K_BLOCK_HASH 32 with Some t2 => negb (bool_decide (default [] (d_bytes (Some t2)) = default [] bhash)) | None => false end) "Wrong Blockhash in tx" res;
  res ← err_if (match jget t K_BLOCK_NUMBER with Some t2 => negb (d_long (Some t2) =? bnumber) | None => false end) "Wrong Blocknumber in tx" res;
  err_if (match jget t K_TRANSACTION_INDEX with Some t2 => negb (i32 (d_int (Some t2)) =? i) | None => false end) "Wrong Transaction index in tx" res.
(** The hash of a transaction; [tx] is not a pointer for a number. *)
Definition hash_of (tx : option (list Z)) (with_hash : bool) : option (option (list Z)) := if with_hash then tx ← tx; Some (Some (keccak tx)) else Some None.
Definition wrong_tx_hash (h : option (list Z)) (hashes : list jval) : bool :=
  match h, hashes with
  | Some h, txh :: _ => let th := default [] (d_bytes (Some txh)) in negb (length th =? 32)%nat || negb (memcmp th h =? 0)
  | _, _ => false
  end.
(** The loop over the transactions: [hashes] are the tokens from [txh] on, none if it is NULL. *)
Fixpoint check_txs (bnumber : Z) (bhash : option (list Z)) (with_hash : bool) (i : Z) (l : list (option jval)) (hashes : list jval) (trie : trie_t) (res : Z) : M st (Z * trie_t) :=
  match l with
  | [] => mret (res, trie)
  | t :: l' =>
      tx ← defined (tx_of t);
      h ← defined (hash_of tx with_hash);
      res ← (match is_raw_tx t, tx with false, Some tx => check_block_tx t tx i bnumber bhash res | _, _ => mret res end);
      res ← err_if (wrong_tx_hash h hashes) "Wrong Transactionhash" res;
      trie ← on_trie (set_tx i tx) trie;
      check_txs bnumber bhash with_hash (i + 1) l' (if with_hash then tail hashes else hashes) trie res
  end.
Definition is_full_tx (vc : in3_vctx_t) : bool := negb (d_int (jget_at (jget (Some (vc_request vc)) K_PARAMS) 1) =? 0).
Definition tx_hashes (vc : in3_vctx_t) : list jval := match jget (vc_result vc) K_TRANSACTIONS with Some (JArray l) => l | _ => [] end.
(** The transactions and the uncles of a block whose header is right. *)
Definition check_block_txs (vc : in3_vctx_t) : M st Z :=
  let result := vc_result vc in
  let full_tx := is_full_tx vc in
  proof ← gets (fun s => c_proof (client s));
  let full_proof := bool_decide (proof = PROOF_FULL) in
  match jget (if full_tx then result else vc_proof vc) K_TRANSACTIONS with
  | None => vc_err "Missing transaction-properties"
  | Some transactions =>
      if negb full_tx && match jget result K_TRANSACTIONS with None => true | Some hs => negb (jlen (Some transactions) =? jlen (Some hs)) end then vc_err "no transactionhashes found!"
      else
        trie ← defined trie_new;
        r ← check_txs (d_long (jget result K_NUMBER)) (d_get_byteskl result K_HASH 32) (full_proof || negb full_tx) 0 (items_of (Some transactions)) (if full_tx then [] else tx_hashes vc) trie IN3_OK;
        res ← err_if (wrong_root (default [] (d_bytes (d_getl result K_TRANSACTIONS_ROOT 32))) (snd r)) "Wrong Transaction root" (fst r);
        if (res =? IN3_OK) && full_proof then eth_verify_uncles (d_bytes (jget result K_SHA3_UNCLES)) (jget (vc_proof vc) K_UNCLES) (jget result K_UNCLES) else mret res
  end.
Definition eth_verify_eth_getBlock (vc : in3_vctx_t) (block_hash : option (list Z)) (blockNumber : Z) : M st (Z * bool) :=
  let fail (db : bool) (msg : string) : M st (Z * bool) := e ← vc_err msg; mret (e, db) in
  let result := vc_result vc in
  let bnumber := d_long (jget result K_NUMBER) in
  let bhash := d_get_byteskl result K_HASH 32 in
  if (match block_hash with Some h => negb (bool_decide (h = default [] bhash)) | None => false end) then fail (vc_dont_blacklist vc) "The transactionHash does not match the required"
  else if negb (blockNumber =? 0) && negb (blockNumber =? bnumber) then fail (vc_dont_blacklist vc) "The blockNumber  does not match the required"
  else
    match vc_proof vc with
    | None => fail (vc_dont_blacklist vc) "Proof is missing!"
    | Some _ =>
        header ← defined (serialize_block_header result);
        rd ← eth_verify_blockheader plugins m place vc (Some header) bhash;
        let '(res, db) := rd in
        if negb (res =? IN3_OK) then fail db "invalid blockheader!"
        else if wrong_author result then fail db "invalid author"
        else
          res ← check_seal result;
          if negb (res =? IN3_OK) then mret (res, db) else res ← check_block_txs vc; mret (res, db)
    end.
End Block.
