(* ===== verification/BlockSafety.v ===== *)
(** * verifier/eth1/basic/eth_getBlock.c: what an accepted block shows

    The transactions that were put into the trie are those of the block of the chain
    ([block_authentic], [count_authentic]); entries without bytes are passed over, so that the number of
    transactions can be made larger ([forged_count_accepted]). *)
From S2P Require Import Prelude Utils Bytes Rlp Merkle Data Json JsonVal ReqState Request ReqFrame ReqSafety Serialize Nano NanoSafety NodeData NodeRegistry AccountProof AccountSafety BasicTx TxSafety Trie TrieSpec TrieNode TrieStore TrieInsert TrieBuild BasicBlock.
From stdpp Require Import strings.
#[local] Open Scope Z_scope.

(** ** The entries of the trie *)
Definition non_empty (tx : option (list Z)) : Prop := exists v, tx = Some v /\ v <> [].
(** A transaction and the key of its index; those without bytes are passed over. *)
Fixpoint block_entries (i : Z) (txs : list (option (list Z))) : list (list Z * list Z) :=
  match txs with
  | [] => []
  | Some (x :: v) :: l => (index_key i, x :: v) :: block_entries (i + 1) l
  | _ :: l => block_entries (i + 1) l
  end.
Lemma elem_of_entries txs : forall i key v, (key, v) ∈ block_entries i txs <-> exists n, txs !! n = Some (Some v) /\ v <> [] /\ key = index_key (i + Z.of_nat n).
Proof.
  induction txs as [|t l IH]; intros i key v; cbn [block_entries]; [split; [by intros ?%elem_of_nil|by intros (n & ? & _)]|].
  assert ((exists n, (t :: l) !! n = Some (Some v) /\ v <> [] /\ key = index_key (i + Z.of_nat n)) <-> (t = Some v /\ v <> [] /\ key = index_key i) \/ exists n, l !! n = Some (Some v) /\ v <> [] /\ key = index_key (i + 1 + Z.of_nat n)) as ->.
  { split; [intros ([|n] & Hn & Hv & ->)|intros [(-> & Hv & ->)|(n & Hn & Hv & ->)]].
    - injection Hn as ->. left. by rewrite Z.add_0_r.
    - right. exists n. split_and!; [done..|]. f_equal. lia.
    - exists 0%nat. by rewrite Z.add_0_r.
    - exists (S n). split_and!; [done..|]. f_equal. lia. }
  rewrite <- IH. destruct t as [[|x w]|]; [split; [by right|intros [([= <-] & ? & _)|?]; done]| |split; [by right|intros [([=] & _)|?]; done]].
  rewrite elem_of_cons. split; intros [E|?]; try (by right); left; [by injection E as -> ->|by destruct E as ([= <-] & _ & ->)].
Qed.
Lemma index_key_inj i j : 0 <= i < 2 ^ 32 -> 0 <= j < 2 ^ 32 -> index_key i = index_key j -> i = j.
Proof.
  intros Hi Hj E. set (f := fun i => if i =? 0 then [] else optimize_len (be_bytes 4 i)).
  assert (forall i, bytes_ok (f i) /\ (length (f i) <= 4)%nat) as Hf. { intros k. unfold f. destruct (k =? 0); [split; [constructor|cbn; lia]|]. split; [apply optimize_len_ok, be_bytes_ok|]. etrans; [apply optimize_len_length|by rewrite length_be_bytes]. }
  assert (forall i, 0 <= i < 2 ^ 32 -> be_val (f i) = i) as Hv. { intros k Hk. unfold f. destruct (Z.eqb_spec k 0) as [->|]; [done|]. rewrite optimize_len_val, be_val_be_bytes. by apply Z.mod_small. }
  rewrite <- (Hv i Hi), <- (Hv j Hj). f_equal. destruct (Hf i), (Hf j). by apply rlp_string_inj; [..|lia|lia|].
Qed.
Lemma index_key_length i : (length (index_key i) <= 32)%nat.
Proof.
  unfold index_key. set (b := if i =? 0 then _ else _). assert (length b <= 4)%nat by (subst b; destruct (i =? 0); [cbn; lia|]; etrans; [apply optimize_len_length|by rewrite length_be_bytes]). pose proof (rlp_string_size b). lia.
Qed.
Lemma entries_keys txs : forall i, 0 <= i -> i + zlen txs < 2 ^ 32 -> NoDup (map fst (block_entries i txs)).
Proof.
  assert (forall l i key, 0 <= i -> key ∈ map fst (block_entries i l) -> exists n, (n < length l)%nat /\ key = index_key (i + Z.of_nat n)) as Hin.
  { intros l i key Hi ([k v] & -> & Hk)%list_elem_of_fmap. apply elem_of_entries in Hk as (n & Hn & _ & ->). exists n. split; [by eapply lookup_lt_Some|done]. }
  induction txs as [|t l IH]; intros i Hi Hl; [constructor|]. cbn [length] in Hl. assert (NoDup (map fst (block_entries (i + 1) l))) as Hd by (apply IH; lia). destruct t as [[|x v]|]; cbn [block_entries map fst]; [done| |done].
  constructor; [|done]. intros Hk. apply Hin in Hk as (n & Hn & E); [|lia]. apply index_key_inj in E; lia.
Qed.
Lemma entries_values txs i : map snd (block_entries i txs) = omap (fun t => match t with Some (x :: v) => Some (x :: v) | _ => None end) txs.
Proof. revert i. induction txs as [|[[|x v]|] l IH]; intros i; cbn; [done|apply IH|f_equal; apply IH|apply IH]. Qed.

Section Entries.
Context `{SourceText} `{Keccak} `{Allocator}.
Lemma set_tx_entry i tx t t' : set_tx i tx t = Ok tt t' -> match tx with Some (x :: v) => trie_set_value (index_key i) (x :: v) t = Ok tt t' | _ => t' = t end.
Proof. unfold set_tx. rewrite (bind_defined _ _ _ _ (proj1 (create_tx_path_spec i))). destruct tx as [[|x v]|]; [|done|]; by intros [= <-]. Qed.
Lemma set_tx_values i tx txs t t1 t2 : set_tx i tx t = Ok tt t1 -> set_values (block_entries (i + 1) txs) t1 = Ok tt t2 -> set_values (block_entries i (tx :: txs)) t = Ok tt t2.
Proof.
  intros E1%set_tx_entry E2. cbn [block_entries]. destruct tx as [[|x v]|]; [by subst t1| |by subst t1]. cbn [set_values]. by rewrite (bind_ok _ _ _ _ _ E1).
Qed.
Lemma set_txs_values l : forall i t t', set_txs i l t = Ok tt t' -> exists txs, mapM tx_of l = Some txs /\ set_values (block_entries i txs) t = Ok tt t'.
Proof.
  induction l as [|x l IH]; intros i t t'; cbn [set_txs]; [intros [= <-]; by exists []|]. destruct (tx_of x) as [tx|] eqn:Et; [|done]. rewrite (bind_defined _ _ _ _ eq_refl). intros E. unfold mbind, M_bind in E.
  destruct (set_tx i tx t) as [[] t1| | |] eqn:E1; try done. destruct (IH _ _ _ E) as (txs & Em & Ev). exists (tx :: txs). cbn [mapM]. rewrite Et. cbn. rewrite Em. cbn. split; [done|by eapply set_tx_values].
Qed.

(** ** The root determines the transactions *)

(** The transactions are different and of ordinary size, and the hashes of the nodes do not collide with each other and those of the trie. *)
Definition txs_fair (txs : list (option (list Z))) (t : trie) : Prop :=
  zlen txs < 2 ^ 31 /\ Forall (fun tx => non_empty tx -> exists v, tx = Some v /\ value_ok v = true) txs /\ NoDup (map snd (block_entries 0 txs)) /\
  (t = Merkle.Empty \/ built t = true) /\ hash_inj ([0x80] :: all_nodes (block_entries 0 txs) ++ Merkle.nodes t).
Lemma hash_inj_sub l l' : (forall x, x ∈ l -> x ∈ l') -> hash_inj l' -> hash_inj l.
Proof. unfold hash_inj. rewrite !Forall_forall. intros Hs Hl a Ha. destruct (Hl a (Hs a Ha)) as [Hz Hi]. split; [done|]. rewrite Forall_forall in *. auto. Qed.
Lemma entries_fit txs : Forall (fun tx => non_empty tx -> exists v, tx = Some v /\ value_ok v = true) txs -> Forall entry_fits (block_entries 0 txs).
Proof.
  intros Hf. apply Forall_forall. intros [key v] (n & Hn & Hv & ->)%elem_of_entries. split; [apply create_tx_path_spec|]. split; [apply index_key_length|]. cbn [snd]. rewrite Forall_lookup in Hf. destruct (Hf n _ Hn) as (w & [= <-] & Hw); [by exists v|done].
Qed.
Lemma empty_enc u : built u = true -> node_enc u <> [0x80].
Proof. intros Hu E. rewrite node_enc_plain in E by done. destruct (list_head (enc_items (plain_items u))) as (c & l & E' & Hc). rewrite E' in E. injection E as E _. lia. Qed.
Lemma same_trie L u w : hash_inj ([0x80] :: L) -> u = Merkle.Empty \/ built u = true -> w = Merkle.Empty \/ built w = true -> (forall e, In e (Merkle.nodes u) -> In e L) -> (forall e, In e (Merkle.nodes w) -> In e L) ->
  keccak (node_enc u) = keccak (node_enc w) -> u = w.
Proof.
  intros HL Hu Hw Iu Iw E. assert (forall x, built x = true -> (forall e, In e (Merkle.nodes x) -> In e L) -> In (node_enc x) L) as Htop by (intros x Hx Hi; apply Hi, node_enc_in; by destruct x).
  destruct Hu as [->|Hu], Hw as [->|Hw]; [done|..].
  - exfalso. apply (empty_enc w Hw). symmetry. apply (hash_inj_eq _ _ _ HL); [by left|right; auto|done].
  - exfalso. apply (empty_enc u Hu). apply (hash_inj_eq _ _ _ HL); [right; auto|by left|done].
  - apply (H_inj ([0x80] :: L)); try done; intros e He; right; auto.
Qed.
Lemma entries_nodes kvs e : In e (Merkle.nodes (trie_of kvs)) -> In e (all_nodes kvs).
Proof. intros He. apply in_concat. exists (Merkle.nodes (trie_of kvs)). split; [|done]. apply in_map_iff. exists (length kvs). rewrite take_ge by done. split; [done|]. apply in_seq. lia. Qed.
(** Transactions that give the root of a trie are those of the trie. *)
Lemma root_determines txs t s0 s : txs_fair txs t -> trie_new = Some s0 -> set_values (block_entries 0 txs) s0 = Ok tt s -> t_root s = keccak (node_enc t) ->
  forall k v, has_value t k v <-> exists n, txs !! n = Some (Some v) /\ v <> [] /\ k = nibs (index_key (Z.of_nat n)).
Proof.
  intros (Hl & Hf & Hd & Ht & Hi) E0 Es Hr k v. pose proof (entries_fit _ Hf) as Hfit. pose proof (entries_keys txs 0 ltac:(lia) ltac:(lia)) as Hk.
  destruct (set_values_ok (block_entries 0 txs) Hfit Hk Hd) as (s0' & s' & E0' & Es' & Hr'); [eapply hash_inj_sub; [|exact Hi]; intros x Hx; right; apply elem_of_app; by left|]. assert (s' = s) as -> by congruence. destruct (trie_of_spec _ Hfit Hk) as [Hb Hv].
  assert (trie_of (block_entries 0 txs) = t) as <-. { eapply same_trie; [exact Hi|tauto|done|intros e He; apply in_or_app; left; by apply entries_nodes|intros e He; apply in_or_app; by right|congruence]. }
  rewrite Hv. split; [intros (key & -> & (n & Hn & Hne & ->)%elem_of_entries); by exists n|]. intros (n & Hn & Hne & ->). exists (index_key (Z.of_nat n)). split; [done|]. apply elem_of_entries. by exists n.
Qed.
End Entries.

(** ** What the verifier checks *)
Section Verifier.
Context `{SourceText} `{Keccak} `{Allocator} `{Ecdsa} {W : Type} (plugins : list (in3_plugin_t W)) (m : memory) (place : list Z -> slice).
Context (asked_signers : list (list Z) -> Prop) (valid : list (list Z) -> in3_vctx_t -> Prop).
Context (Hplugins : Forall (plugin_contract (RI := nano_inv asked_signers) valid) plugins).
#[local] Abbreviation nwp := (wp (RI := nano_inv asked_signers)).
#[local] Existing Instance kept_preorder.
Implicit Types (s : state W) (vc : in3_vctx_t).
#[local] Abbreviation failed := (fail_judged plugins asked_signers valid Hplugins).

Lemma on_trie_spec op t s : nwp (on_trie op t) (fun t' s' => s' = s /\ op t = Ok tt t') s.
Proof. intros Hi. unfold on_trie. by destruct (op t) as [[] t'| | |]. Qed.
Lemma wrong_root_false root t : wrong_root root t = false -> (length (t_root t) = 32%nat -> root = t_root t) /\ length root = 32%nat.
Proof. unfold wrong_root. intros [Hl%negb_false_iff%Nat.eqb_eq Hm%negb_false_iff%Z.eqb_eq]%orb_false_elim. split; [|done]. intros Ht. apply memcmp_0; [congruence|done]. Qed.
(** The transactions of a list, put into a trie, have this root. *)
Definition txs_give (l : list (option jval)) (txs : list (option (list Z))) (root : list Z) : Prop :=
  mapM tx_of l = Some txs /\ exists t0 t, trie_new = Some t0 /\ set_values (block_entries 0 txs) t0 = Ok tt t /\ wrong_root root t = false.
Definition counted (transactions : option jval) (count : Z) (root : list Z) : Prop := jlen transactions = count /\ exists txs, txs_give (items_of transactions) txs root.
Lemma count_txs_spec transactions count root s : nwp (count_txs plugins transactions count root) (judged (counted transactions count root) s) s.
Proof.
  unfold count_txs. apply wp_bind. apply (wp_mono _ (fun _ s' => kept s s')); [destruct transactions; [wp_run; reflexivity|]; eapply wp_mono; [by apply (vc_err_spec plugins asked_signers valid Hplugins)|]; by intros e s1 [_ ?]|].
  intros _ s1 Hk. destruct (Z.eqb_spec (jlen transactions) count) as [El|]; cbn [negb]; [|by apply failed]. apply wp_bind, wp_defined. intros t0 E0. apply wp_bind. eapply wp_mono; [apply on_trie_spec|]. intros t ? [-> Et]. destruct (wrong_root root t) eqn:Ew; [by apply failed|].
  wp_run. split; [done|]. split; [by left|]. intros _. split; [done|]. apply set_txs_values in Et as (txs & Em & Ev). exists txs. split; [done|]. by exists t0, t.
Qed.
(** The header of the proof is checked, with the hash or the number that was asked for, and the transactions of the proof have the root that it has. *)
Definition count_proved ss vc (block_hash : option (list Z)) (blockNumber number : Z) : Prop := exists header d root,
  d_bytes (jget (vc_proof vc) K_BLOCK) = Some header /\ header_checked m place asked_signers ss header block_hash /\ item_at m place header BLOCKHEADER_NUMBER d /\ slice_number m d = number /\
  (block_hash = None -> number = blockNumber) /\ item_at m place header BLOCKHEADER_TRANSACTIONS_ROOT root /\ counted (jget (vc_proof vc) K_TRANSACTIONS) (i32 (d_int (vc_result vc))) (mem_read m root).
Lemma judged_pair (P : Prop) (k : M (state W) Z) (db : bool) s s1 : kept s s1 -> nwp k (judged P s1) s1 -> nwp (res ← k; mret (res, db)) (fun r s' => judged P s r.1 s') s1.
Proof. intros Hk Hw. apply wp_bind. eapply wp_mono; [exact Hw|]. intros e s2 (Hk2 & He & HP). apply wp_ret. split; [by etrans|done]. Qed.
Lemma failed_pair (P : Prop) msg (db : bool) s s1 : kept s s1 -> nwp (e ← vc_err plugins msg; mret (e, db)) (fun r s' => judged P s r.1 s') s1.
Proof. intros Hk. apply judged_pair; [done|]. apply failed. reflexivity. Qed.
Lemma getCount_spec vc block_hash blockNumber s : nwp (eth_verify_eth_getBlockTransactionCount plugins m place vc block_hash blockNumber)
  (fun r s' => judged (exists number, count_proved (signers (self s)) vc block_hash blockNumber number) s r.1 s') s.
Proof.
  unfold eth_verify_eth_getBlockTransactionCount. cbn zeta. destruct (negb _); [by apply failed_pair|]. destruct (vc_proof vc) as [proof|] eqn:Ep; [|by apply failed_pair]. destruct (d_bytes (jget (Some proof) K_BLOCK)) as [header|] eqn:Eh; [|by apply failed_pair].
  apply wp_bind. eapply wp_mono; [by apply (eth_verify_blockheader_spec plugins m place asked_signers valid Hplugins)|]. intros [e db] s1 (Hk & He & Hhd). cbn [fst] in *. destruct (Z.eqb_spec e IN3_OK) as [->|]; cbn [negb]; [|by apply failed_pair]. destruct (Hhd eq_refl) as (hd & [= <-] & Hc). pose proof Hc as (d & Hd & _).
  apply wp_bind. apply (wp_mono _ (fun b s' => s' = s1 /\ (b = true -> block_hash = None -> slice_number m d = blockNumber))).
  { destruct block_hash; [wp_run; by split|]. apply wp_bind. eapply wp_mono; [apply header_item_spec|]. intros o ? [-> Ho]. wp_run. split; [done|]. destruct o as [d'|]; [|done]. specialize (Ho d' eq_refl). assert (d' = d) as -> by (unfold item_at in *; congruence). by intros ?%Z.eqb_eq. }
  intros b ? [-> Hb]. destruct b; cbn [negb]; [|by apply failed_pair]. apply wp_bind. eapply wp_mono; [apply header_item_spec|]. intros [root|] ? [-> Hr]; [|by apply failed_pair]. apply judged_pair; [done|]. eapply wp_mono; [apply count_txs_spec|].
  intros e2 s2 (Hk2 & He2 & HP). split; [done|]. split; [done|]. intros E. exists (slice_number m d), header, d, root. rewrite Ep. auto 10.
Qed.

(** The hash of an object, and what it says of its place. *)
Definition tx_hash_is (t : option jval) (content : list Z) : Prop := exists h, d_get_byteskl t K_HASH 32 = Some h /\ take 32 h = keccak content.
Lemma fields_hash tx raw s : nwp (check_tx_fields plugins m place tx (Some raw)) (judged (tx_hash_is tx (mem_read m raw)) s) s.
Proof.
  unfold check_tx_fields. cbn [raw_of from_option id]. apply wp_bind, wp_defined. intros hash Eh. apply bind_Some in Eh as (h & Eh & Er). pose proof (read_at_length _ _ _ _ Er) as Hl. destruct (Z.eqb_spec (memcmp (keccak (mem_read m raw)) hash) 0) as [E|]; cbn [negb]; [|by apply failed]. apply memcmp_0 in E; [|by rewrite keccak_length, Hl].
  assert (tx_hash_is tx (mem_read m raw)) as Hh. { exists h. split; [done|]. unfold read_at in Er. destruct (_ <=? _)%nat; [|done]. injection Er as <-. by rewrite drop_0 in E. }
  repeat (case_match; try by apply failed). all: by apply ok_judged.
Qed.
Lemma tx_values_hash tx raw s : nwp (eth_verify_tx_values plugins m place tx (Some raw)) (judged (sender_checked m tx raw /\ tx_hash_is tx (mem_read m raw)) s) s.
Proof.
  pose proof (tx_values_spec plugins m place asked_signers valid Hplugins tx raw s) as V1. assert (nwp (eth_verify_tx_values plugins m place tx (Some raw)) (judged (tx_hash_is tx (mem_read m raw)) s) s) as V2.
  { unfold eth_verify_tx_values. apply wp_bind. eapply wp_mono; [apply fields_hash|]. intros e s1 (Hk & He & HP). destruct (Z.eqb_spec e IN3_OK) as [->|]; cbn [negb]; [|wp_run; by split]. specialize (HP eq_refl).
    repeat (case_match; try by apply failed). apply wp_bind, wp_defined. intros unsigned _. case_match; [|by apply failed]. apply wp_bind, wp_defined. intros [] _; [by apply failed|]. apply wp_bind, wp_defined. intros [] _; [by apply failed|]. wp_run. split; [done|]. split; [by left|done]. }
  intros Hi. specialize (V1 Hi). specialize (V2 Hi). destruct (eth_verify_tx_values _ _ _ _ _ s); [|done..]. destruct V1 as (Hs & Hk & He & V1), V2 as (_ & _ & _ & V2). split; [done|]. split; [done|]. split; [done|auto].
Qed.
(** A transaction of a block that is an object. *)
Definition block_tx_ok (t : option jval) (tx : list Z) (i bnumber : Z) (bhash : option (list Z)) : Prop :=
  sender_checked m t (place tx) /\ tx_hash_is t (mem_read m (place tx)) /\ (forall t2, d_getl t K_BLOCK_HASH 32 = Some t2 -> default [] (d_bytes (Some t2)) = default [] bhash) /\
  (forall t2, jget t K_BLOCK_NUMBER = Some t2 -> d_long (Some t2) = bnumber) /\ (forall t2, jget t K_TRANSACTION_INDEX = Some t2 -> i32 (d_int (Some t2)) = i).
(** An error that came before stays one. *)
Lemma err_if_spec (P : Prop) b msg res s s1 : judged P s res s1 -> nwp (err_if plugins b msg res) (judged (P /\ b = false) s) s1.
Proof. intros (Hk & He & HP). unfold err_if. destruct b; [by apply failed|]. wp_run. split; [done|]. split; [done|auto]. Qed.
Lemma check_block_tx_spec (P : Prop) t tx i bnumber bhash res s s1 : judged P s res s1 -> nwp (check_block_tx plugins m place t tx i bnumber bhash res) (judged (P /\ block_tx_ok t tx i bnumber bhash) s) s1.
Proof.
  intros (Hk & He & HP). unfold check_block_tx. apply wp_bind. eapply wp_mono; [apply tx_values_hash|]. intros e s2 (Hk2 & He2 & Hv).
  assert (judged (P /\ sender_checked m t (place tx) /\ tx_hash_is t (mem_read m (place tx))) s (if e =? IN3_OK then res else IN3_EUNKNOWN) s2) as Hj. { destruct (Z.eqb_spec e IN3_OK) as [->|]; [|split; [by etrans|]; split; [by right|done]]. split; [by etrans|]. split; [done|auto]. }
  cbn zeta. apply wp_bind. eapply wp_mono; [by apply err_if_spec|]. intros e3 s3 Hj3. cbn beta in Hj3. apply wp_bind. eapply wp_mono; [by apply err_if_spec|]. intros e4 s4 Hj4. cbn beta in Hj4. eapply wp_mono; [by apply err_if_spec|]. intros e5 s5 (Hk5 & He5 & HP5).
  split; [done|]. split; [done|]. intros E. destruct (HP5 E) as [[[(Hp & Hs & Hh) B1] B2] B3]. split; [done|]. split; [done|]. split; [done|]. split_and!; intros t2 Et.
  - rewrite Et in B1. apply negb_false_iff in B1. by apply bool_decide_eq_true in B1.
  - rewrite Et in B2. apply negb_false_iff in B2. by apply Z.eqb_eq in B2.
  - rewrite Et in B3. apply negb_false_iff in B3. by apply Z.eqb_eq in B3.
Qed.
(** All transactions: the hashes that are listed are theirs, and so are the objects. *)
Definition txs_checked (bnumber : Z) (bhash : option (list Z)) (i : Z) (l : list (option jval)) (txs : list (option (list Z))) : Prop :=
  forall n t tx, l !! n = Some t -> is_raw_tx t = false -> txs !! n = Some (Some tx) -> block_tx_ok t tx (i + Z.of_nat n) bnumber bhash.
Definition hashes_checked (with_hash : bool) (hashes : list jval) (txs : list (option (list Z))) : Prop :=
  with_hash = true -> forall n th tx, hashes !! n = Some th -> txs !! n = Some tx -> exists v, tx = Some v /\ default [] (d_bytes (Some th)) = keccak v.
Lemma wrong_tx_hash_false h th hashes : wrong_tx_hash (Some h) (th :: hashes) = false -> length h = 32%nat -> default [] (d_bytes (Some th)) = h.
Proof. cbn [wrong_tx_hash]. intros [Hl%negb_false_iff%Nat.eqb_eq Hm%negb_false_iff%Z.eqb_eq]%orb_false_elim Hh. apply memcmp_0; [congruence|done]. Qed.
Lemma check_txs_spec bnumber bhash with_hash l : forall (P : Prop) i hashes t res s s1, judged P s res s1 ->
  nwp (check_txs plugins m place bnumber bhash with_hash i l hashes t res) (fun r s' => judged (P /\ exists txs, mapM tx_of l = Some txs /\ set_values (block_entries i txs) t = Ok tt r.2 /\ txs_checked bnumber bhash i l txs /\ hashes_checked with_hash hashes txs) s r.1 s') s1.
Proof.
  induction l as [|x l IH]; intros P i hashes t res s s1 Hj; cbn [check_txs].
  { wp_run. destruct Hj as (Hk & He & HP). split; [done|]. split; [done|]. intros E. split; [auto|]. exists []. split_and!; try done; intros ?; done. }
  apply wp_bind, wp_defined. intros tx Etx. apply wp_bind, wp_defined. intros h Eh. apply wp_bind.
  apply (wp_mono _ (fun res' s' => judged (P /\ (is_raw_tx x = false -> forall v, tx = Some v -> block_tx_ok x v i bnumber bhash)) s res' s')).
  { destruct (is_raw_tx x); [wp_run; destruct Hj as (? & ? & HP); split; [done|]; split; [done|]; intros; split; [auto|done]|]. destruct tx as [tx|].
    - eapply wp_mono; [by apply check_block_tx_spec|]. intros e s2 (? & ? & HP). split; [done|]. split; [done|]. intros E. destruct (HP E). split; [done|]. by intros _ v [= <-].
    - wp_run. destruct Hj as (? & ? & HP). split; [done|]. split; [done|]. intros. split; [auto|done]. }
  intros res2 s2 Hj2. cbn beta in Hj2. apply wp_bind. eapply wp_mono; [by apply err_if_spec|]. intros res3 s3 Hj3. cbn beta in Hj3. apply wp_bind. eapply wp_mono; [apply on_trie_spec|]. intros t1 ? [-> Et1].
  eapply wp_mono; [by eapply IH|]. intros [res4 t2] s4 (Hk4 & He4 & HP4). cbn [fst snd] in *. split; [done|]. split; [done|]. intros E. destruct (HP4 E) as ([[HP Hx] Hw] & txs & Em & Ev & Hc & Hh). split; [done|]. exists (tx :: txs).
  split; [cbn [mapM]; rewrite Etx; cbn; by rewrite Em|]. split; [by eapply set_tx_values|]. split.
  - intros [|n] t0 tx0 Ht Hraw Htx; cbn [lookup list_lookup] in *; [injection Ht as ->; injection Htx as ->; rewrite Z.add_0_r; by apply Hx|]. replace (i + Z.of_nat (S n)) with (i + 1 + Z.of_nat n) by lia. by eapply Hc.
  - intros -> n th tx0 Hth Htx. cbn [hash_of] in Eh. destruct tx as [v|]; [|done]. injection Eh as <-. destruct hashes as [|th0 hashes]; [by destruct n|]. destruct n as [|n]; cbn [lookup list_lookup] in *.
    + injection Hth as ->. injection Htx as <-. exists v. split; [done|]. eapply wrong_tx_hash_false; [exact Hw|apply keccak_length].
    + by eapply (Hh eq_refl n).
Qed.
Lemma uncle_headers_spec l : forall bb s, nwp (uncle_headers bb l) (fun _ s' => kept s s') s.
Proof.
  induction l as [|[h header] l IH]; intros bb s; cbn [uncle_headers]; [wp_run; reflexivity|]. apply wp_bind, wp_defined. intros hash _. destruct (negb _); [wp_run; reflexivity|]. apply wp_bind, wp_defined. intros bb' _. apply IH.
Qed.
Lemma uncles_spec h headers hashes s : nwp (eth_verify_uncles plugins h headers hashes) (judged True s) s.
Proof.
  unfold eth_verify_uncles. destruct headers as [[]|]; try by apply failed. destruct hashes as [[]|]; try by apply failed. destruct (negb (_ =? _)%nat); [by apply failed|]. apply wp_bind. eapply wp_mono; [apply uncle_headers_spec|]. intros [bb|] s1 Hk; [|by apply failed]. apply wp_bind, wp_defined. intros bb1 _. apply wp_bind, wp_defined. intros l1 _. apply wp_bind, wp_defined. intros hash _.
  destruct (negb (_ =? 0)); [by apply failed|]. wp_run. split; [done|]. by split; [left|].
Qed.
Lemma check_seal_spec block s : nwp (check_seal plugins m place block) (judged True s) s.
Proof.
  unfold check_seal. destruct (d_getl block K_MIX_HASH 32); [|by apply ok_judged]. destruct (jget block K_SEAL_FIELDS); [|by apply ok_judged]. apply wp_bind, wp_defined. intros [] _; cbn [negb]; [|by apply failed]. apply wp_bind, wp_defined. intros [] _; cbn [negb]; [by apply ok_judged|by apply failed].
Qed.
(** The transactions of the result, or those of the proof with their hashes in the result, have the root of the result. *)
Definition txs_proved vc : Prop := exists transactions txs,
  let result := vc_result vc in
  jget (if is_full_tx vc then result else vc_proof vc) K_TRANSACTIONS = Some transactions /\ txs_give (items_of (Some transactions)) txs (default [] (d_bytes (d_getl result K_TRANSACTIONS_ROOT 32))) /\
  txs_checked (d_long (jget result K_NUMBER)) (d_get_byteskl result K_HASH 32) 0 (items_of (Some transactions)) txs /\
  (is_full_tx vc = false -> jlen (Some transactions) = jlen (jget result K_TRANSACTIONS) /\ hashes_checked true (tx_hashes vc) txs).
Lemma check_block_txs_spec vc s : nwp (check_block_txs plugins m place vc) (judged (txs_proved vc) s) s.
Proof.
  unfold check_block_txs. cbn zeta. apply wp_bind, wp_gets. set (full := bool_decide _). destruct (jget (if is_full_tx vc then _ else _) K_TRANSACTIONS) as [transactions|] eqn:Et; [|by apply failed].
  match goal with |- context [if ?b then vc_err _ _ else _] => destruct b eqn:Eb end; [by apply failed|]. apply wp_bind, wp_defined. intros t0 E0. apply wp_bind.
  eapply wp_mono; [apply (check_txs_spec _ _ _ _ True _ _ _ _ s); split; [reflexivity|]; by split; [left|]|]. intros [res t] s1 Hj. cbn [fst snd] in *. apply wp_bind. eapply wp_mono; [by apply err_if_spec|]. intros res2 s2 (Hk2 & He2 & HP2).
  assert (res2 = IN3_OK -> txs_proved vc) as Hgoal.
  { intros E. destruct (HP2 E) as [[_ (txs & Em & Ev & Hc & Hh)] Hw]. exists transactions, txs. cbn zeta. split; [done|]. split; [split; [done|]; by exists t0, t|]. split; [done|]. intros Ef. rewrite Ef in *. cbn [negb andb] in Eb. destruct (jget (vc_result vc) K_TRANSACTIONS) as [hs|] eqn:Ehs; [|done]. apply negb_false_iff, Z.eqb_eq in Eb. split; [done|].
    intros _ n th tx. apply Hh. by rewrite orb_true_r. }
  destruct (Z.eqb_spec res2 IN3_OK) as [->|]; cbn [andb]; [|wp_run; by split]. destruct full; [|wp_run; by split]. eapply wp_mono; [apply uncles_spec|]. intros e s3 (Hk3 & He3 & _). split; [by etrans|]. split; [done|auto].
Qed.
Definition block_proved ss vc (block_hash : option (list Z)) (blockNumber : Z) : Prop :=
  (forall h, block_hash = Some h -> h = default [] (d_get_byteskl (vc_result vc) K_HASH 32)) /\ (blockNumber = 0 \/ blockNumber = d_long (jget (vc_result vc) K_NUMBER)) /\
  (exists header, serialize_block_header (vc_result vc) = Some header /\ header_checked m place asked_signers ss header (d_get_byteskl (vc_result vc) K_HASH 32)) /\ txs_proved vc.
Lemma getBlock_spec vc block_hash blockNumber s : nwp (eth_verify_eth_getBlock plugins m place vc block_hash blockNumber) (fun r s' => judged (block_proved (signers (self s)) vc block_hash blockNumber) s r.1 s') s.
Proof.
  unfold eth_verify_eth_getBlock. cbn zeta. match goal with |- context [if ?b then e ← vc_err _ "The transactionHash does not match the required"; _ else _] => destruct b eqn:Eh end; [by apply failed_pair|].
  match goal with |- context [if ?b then e ← vc_err _ "The blockNumber  does not match the required"; _ else _] => destruct b eqn:En end; [by apply failed_pair|]. destruct (vc_proof vc) as [proof|] eqn:Ep; [|by apply failed_pair]. apply wp_bind, wp_defined. intros header Es. apply wp_bind.
  eapply wp_mono; [by apply (eth_verify_blockheader_spec plugins m place asked_signers valid Hplugins)|]. intros [e db] s1 (Hk & He & Hhd). cbn [fst] in *. destruct (Z.eqb_spec e IN3_OK) as [->|]; cbn [negb]; [|by apply failed_pair]. destruct (Hhd eq_refl) as (hd & [= <-] & Hc). destruct (wrong_author _); [by apply failed_pair|].
  apply wp_bind. eapply wp_mono; [apply check_seal_spec|]. intros e2 s2 (Hk2 & He2 & _). assert (kept s s2) as Hks by (by etrans). destruct (Z.eqb_spec e2 IN3_OK) as [->|]; cbn [negb]; [|wp_run; split; [done|]; split; [done|done]]. apply judged_pair; [done|]. eapply wp_mono; [apply check_block_txs_spec|].
  intros e3 s3 (Hk3 & He3 & HP). split; [done|]. split; [done|]. intros E. split; [intros h ->; apply negb_false_iff in Eh; by apply bool_decide_eq_true in Eh|].
  split; [destruct (Z.eqb_spec blockNumber 0); [by left|]; right; cbn [negb andb] in En; by apply negb_false_iff, Z.eqb_eq in En|]. split; [by exists header|auto].
Qed.
End Verifier.

(** ** Blocks of the chain *)

(** Items that an encoding starts with. *)
Lemma items_prefix its its' rest n x : Forall item_ok its -> Forall item_ok its' -> zlen (enc_items its') < 2 ^ 31 -> enc_items its ++ rest = enc_items its' -> its !! n = Some x -> its' !! n = Some x.
Proof.
  intros Hok Hok' Hl E Hn. set (m := mem_of (enc_items its')). set (b := mk_slice 0 (zlen (enc_items its'))). assert (mem_at m (s_data b) (enc_items its')) as M' by apply mem_at_mem_of. assert (mem_at m (s_data b + 0) (enc_items its)) as M0 by (rewrite Z.add_0_r; rewrite <- E in M'; by apply mem_at_app in M' as [? _]).
  assert (zlen (enc_items its) <= zlen (enc_items its')) as Hle by (rewrite <- E, length_app; lia). pose proof (enc_items_length its Hok). pose proof (enc_items_length its' Hok').
  destruct (rlp_loop_hit m false b ltac:(cbn; lia) ltac:(cbn; lia) its (S (Z.to_nat (s_len b))) 0 0 n x) as (d & Ed & L1 & A1 & _); try done; try (cbn [s_len b]; lia). rewrite Z.add_0_l in Ed.
  destruct (its' !! n) as [y|] eqn:Hy.
  - destruct (decode_item m false b its' n y Hok' M' eq_refl ltac:(cbn; lia) ltac:(cbn; lia) ltac:(lia) Hy) as (d2 & D2 & L2 & A2 & _). unfold rlp_decode in D2. rewrite Ed in D2. injection D2 as Hk ->. f_equal.
    assert (item_bytes x = item_bytes y) as Eb by (rewrite <- (proj2 (mem_read_at m d2 (item_bytes x) ltac:(lia))), <- (proj2 (mem_read_at m d2 (item_bytes y) ltac:(lia))) by (split; lia || done); done). destruct x, y; cbn in *; congruence.
  - exfalso. apply lookup_ge_None in Hy. assert (dec m false b (Z.of_nat n) = Some (0, None)) as Hd by (apply (dec_none m its' Hok' Hl); [repeat split; cbn; lia|apply mem_read_at; [cbn; lia|done]|lia]). unfold dec, rlp_decode in Hd. rewrite Ed in Hd. by destruct x.
Qed.
Lemma all_single {A} (ls : list (list A)) : Forall (fun l => (length l <= 1)%nat) ls -> length (concat ls) = length ls -> forall n l, ls !! n = Some l -> exists x, l = [x] /\ concat ls !! n = Some x.
Proof.
  assert (forall ls : list (list A), Forall (fun l => (length l <= 1)%nat) ls -> (length (concat ls) <= length ls)%nat) as Hle by (induction 1; cbn [concat length]; [lia|]; rewrite length_app; lia).
  induction 1 as [|l ls Hl Hf IH]; intros E n l'; [done|]. cbn [concat length] in E. rewrite length_app in E. specialize (Hle ls Hf). destruct l as [|x [|y l]]; cbn [length] in *; [lia| |lia]. destruct n as [|n]; [intros [= <-]; by exists x|]. cbn. intros Hn. apply IH; [lia|done].
Qed.
Lemma rlp_field_one ml t : (length (rlp_field ml t) <= 1)%nat.
Proof. by destruct t as [[]|]; cbn; lia. Qed.
Lemma opt_field_one ml t : (length (opt_field ml t) <= 1)%nat.
Proof. destruct t; [apply rlp_field_one|cbn; lia]. Qed.
Lemma rlp_field_is ml t x : rlp_field ml t = [x] -> x = Str (field_bytes ml (default [] (d_bytes t))).
Proof. destruct t as [[]|]; cbn; intros [= <-]; done. Qed.
(** The fields of a block that has all of them. *)
Lemma header_field_at block : length (header_fields block) = 13%nat ->
  header_fields block !! 4%nat = Some (Str (field_bytes HASH (default [] (d_bytes (d_getl block K_TRANSACTIONS_ROOT 32))))) /\ header_fields block !! 8%nat = Some (Str (field_bytes UINT (default [] (d_bytes (jget block K_NUMBER))))).
Proof.
  set (ls := [rlp_field HASH (d_getl block K_PARENT_HASH 32); rlp_field HASH (jget block K_SHA3_UNCLES); opt_field ADDRESS (match d_getl block K_MINER 20 with Some t => Some t | None => d_getl block K_COINBASE 20 end);
    rlp_field HASH (d_getl block K_STATE_ROOT 32); rlp_field HASH (d_getl block K_TRANSACTIONS_ROOT 32); opt_field HASH (match d_getl block K_RECEIPT_ROOT 32 with Some t => Some t | None => d_getl block K_RECEIPTS_ROOT 32 end);
    rlp_field BLOOM (d_getl block K_LOGS_BLOOM 256); rlp_field UINT (jget block K_DIFFICULTY); rlp_field UINT (jget block K_NUMBER); rlp_field UINT (jget block K_GAS_LIMIT);
    rlp_field UINT (jget block K_GAS_USED); rlp_field UINT (jget block K_TIMESTAMP); rlp_field BYTES (jget block K_EXTRA_DATA)]).
  assert (header_fields block = concat ls) as -> by (unfold header_fields, ls; cbn [concat]; by rewrite app_nil_r). intros Hl. assert (Forall (fun l => (length l <= 1)%nat) ls) as Hf by (unfold ls; repeat (apply Forall_cons; split; [apply rlp_field_one || apply opt_field_one|]); constructor).
  split; [destruct (all_single ls Hf Hl 4 _ eq_refl) as (x & E & ->)|destruct (all_single ls Hf Hl 8 _ eq_refl) as (x & E & ->)]; by apply rlp_field_is in E as ->.
Qed.
(** A number, or a hexadecimal string, of at most 8 bytes. *)
Definition numeral (t : option jval) : Prop := bytes_ok (default [] (d_bytes t)) /\ (length (default [] (d_bytes t)) <= 8)%nat /\
  match t with Some (JInt n) => 0 <= n < 2 ^ 28 | Some (JBytes _) => True | Some (JString l) => has_0x l = true | _ => False end.
Lemma numeral_val t : numeral t -> d_long t = be_val (default [] (d_bytes t)).
Proof.
  intros (Hok & Hl & Ht). destruct t as [[l|l| | | |n|]|]; try done.
  - cbn in *. rewrite bytes_to_long_spec by done. by replace (length l - 8)%nat with 0%nat by lia.
  - cbn [d_long]. rewrite Ht. cbn zeta. rewrite bytes_to_long_spec by done. by replace (length _ - 8)%nat with 0%nat by lia.
  - destruct (int_bytes_val n) as [E _]; [lia|]. symmetry. exact E.
Qed.
Section Authentic.
Context `{SourceText} `{Keccak} `{Allocator} `{Ecdsa} (m : memory) (place : list Z -> slice) (asked_signers : list (list Z) -> Prop) (chain : Z -> option NanoSafety.block).
(** What the client cannot see to: the header lies in memory and does not collide with the one of the block, and the transactions do not with those of the block. *)
Definition header_fair (header : list Z) (b : NanoSafety.block) : Prop := in_memory m place header /\ (keccak header = keccak (b_header b) -> header = b_header b).
Definition transactions_fair (transactions : option jval) (b : NanoSafety.block) : Prop := forall txs, mapM tx_of (items_of transactions) = Some txs -> txs_fair txs (b_txs b).
(** The transactions of a trie are the ones of a list, by their indices. *)
Definition txs_of_trie (t : trie) (txs : list (option (list Z))) : Prop := forall k v, has_value t k v <-> exists n, txs !! n = Some (Some v) /\ v <> [] /\ k = nibs (index_key (Z.of_nat n)).
Lemma give_txs transactions txs root b : transactions_fair transactions b -> txs_give (items_of transactions) txs root -> root = keccak (node_enc (b_txs b)) -> txs_of_trie (b_txs b) txs.
Proof.
  intros Hf (Em & t0 & t & E0 & Ev & Hw) Hr. destruct (wrong_root_false _ _ Hw) as [Ht _]. pose proof (Hf txs Em) as Hfair. unfold txs_of_trie. refine (root_determines txs _ t0 t Hfair E0 Ev _).
  pose proof Hfair as (Hl & Hs & Hd & _ & Hi). destruct (set_values_ok (block_entries 0 txs)) as (s0 & s & E0' & Es & Hrs); [by apply entries_fit|apply entries_keys; lia|done|eapply hash_inj_sub; [|exact Hi]; intros x Hx; right; apply elem_of_app; by left|].
  assert (s = t) as -> by congruence. rewrite <- Hr. symmetry. apply Ht. by rewrite Hrs, keccak_length.
Qed.
Lemma root_item b root : in_memory m place (b_header b) -> header_ok b -> root_is b BLOCKHEADER_TRANSACTIONS_ROOT (b_txs b) -> item_at m place (b_header b) BLOCKHEADER_TRANSACTIONS_ROOT root -> mem_read m root = keccak (node_enc (b_txs b)).
Proof.
  intros [Hp Hr] [Hit Hlen] [_ Hi] E. destruct (dec_in_list m (b_items b) Hit Hlen (place (b_header b)) (Z.to_nat BLOCKHEADER_TRANSACTIONS_ROOT) _ Hp Hr Hi) as (d & Ed & Rd & _). rewrite Z2Nat.id in Ed by done. unfold item_at in E. rewrite E in Ed. by injection Ed as <-.
Qed.
Lemma length_mapM {A B} (f : A -> option B) l k : mapM f l = Some k -> length k = length l.
Proof. intros E%mapM_Some. symmetry. by eapply Forall2_length. Qed.
Lemma items_of_length t : length (items_of t) = Z.to_nat (jlen t).
Proof. destruct t as [[]|]; cbn [items_of jlen]; rewrite ?length_map, ?length_replicate; try done; by rewrite Nat2Z.id. Qed.

(** C6. A number of transactions that [eth_verify_eth_getBlockTransactionCount] accepts is that of a list which has all transactions of the block.
    Let the plugins keep their
    contract ([plugin_contract]) and the client ask for proofs.  Assume that the request asks for signatures, that each set of signers the client asks contains an honest one, that nothing in the response
    collides with the block, whose trie of transactions has no node of less than 32 bytes, and that the entries of the list that
    are not empty are different transactions of 32 to 61440 bytes.  Let the header of the proof not be the one of the genesis block.  Then the result of eth_getBlockTransactionCountByHash or ByNumber is the length
    of the list of transactions in the proof, and the entries of this list that are not empty are exactly the
    transactions of the block with the hash or the number that was asked for,
    each at its index. *)
Theorem count_authentic {W : Type} (plugins : list (in3_plugin_t W)) valid vc block_hash blockNumber s db s' :
  Forall (plugin_contract (RI := nano_inv asked_signers) valid) plugins -> state_inv (RI := nano_inv asked_signers) s ->
  eth_verify_eth_getBlockTransactionCount plugins m place vc block_hash blockNumber s = Ok (IN3_OK, db) s' ->
  (forall sgs, asked_signers sgs -> exists a, a ∈ sgs /\ honest chain a) ->
  (forall n b, chain n = Some b -> header_ok b /\ root_is b BLOCKHEADER_TRANSACTIONS_ROOT (b_txs b) /\ (forall header, d_bytes (jget (vc_proof vc) K_BLOCK) = Some header -> header_fair header b) /\ transactions_fair (jget (vc_proof vc) K_TRANSACTIONS) b) ->
  signers (self s) <> [] -> (forall header d, d_bytes (jget (vc_proof vc) K_BLOCK) = Some header -> item_at m place header BLOCKHEADER_NUMBER d -> slice_number m d <> 0) ->
  exists b number txs, chain (u64 number) = Some b /\ d_bytes (jget (vc_proof vc) K_BLOCK) = Some (b_header b) /\ (forall h, block_hash = Some h -> h = keccak (b_header b)) /\ (block_hash = None -> number = blockNumber) /\
    length txs = Z.to_nat (i32 (d_int (vc_result vc))) /\ mapM tx_of (items_of (jget (vc_proof vc) K_TRANSACTIONS)) = Some txs /\ txs_of_trie (b_txs b) txs.
Proof.
  intros Hp Hi E Hhon Hchain Hss Hn0. destruct (wp_ok _ _ _ _ _ (getCount_spec plugins m place asked_signers valid Hp vc block_hash blockNumber s) Hi E) as (_ & _ & HP).
  destruct (HP eq_refl) as (number & header & d & root & Eh & Hh & Hd & <- & Hnum & Hri & Hlen & txs & Hg). pose proof (Hn0 _ _ Eh Hd) as Hn. destruct (checked_block m place _ _ _ _ _ _ Hhon Hss Hh Hd Hn) as (b & Hb & Ekb). destruct (Hchain _ _ Hb) as (Hok & Hroot & Hfh & Hft). destruct (Hfh header Eh) as [Hmem Heq]. specialize (Heq (eq_sym Ekb)). subst header.
  exists b, (slice_number m d), txs. split; [done|]. split; [done|]. split; [intros h ->; destruct Hh as (? & _ & Hexp & _); by apply Hexp|]. split; [done|]. pose proof Hg as (Em & _). split; [by rewrite (length_mapM _ _ _ Em), items_of_length, Hlen|]. split; [done|]. eapply give_txs; [exact Hft|exact Hg|by apply root_item].
Qed.

(** A result with all fields of a header, none of them a container, and of ordinary size. *)
Definition header_complete (block : option jval) : Prop := length (header_fields block) = 13%nat /\ Forall item_ok (header_fields block) /\ bytes_ok (header_bytes block) /\ zlen (header_bytes block) < 0x10000 /\ numeral (jget block K_NUMBER).
Lemma header_items block b : header_complete block -> header_ok b -> serialize_block_header block = Some (b_header b) -> forall n x, header_fields block !! n = Some x -> b_items b !! n = Some x.
Proof.
  intros (_ & Hok & Hby & Hl & _) [Hit Hlen] E n x Hn. rewrite serialize_block_header_spec in E by done. injection E as E. unfold b_header in E. apply rlp_list_inj in E; [|done|by apply enc_items_bytes_ok|pose proof (rlp_header_length 0xc0 (zlen (header_bytes block))); unfold rlp_list; rewrite length_app; lia].
  unfold header_bytes in E. eapply items_prefix; [exact Hok|exact Hit|done|exact E|done].
Qed.
Lemma item_of_list its rest n x d : Forall item_ok its -> bytes_ok (enc_items its ++ rest) -> zlen (enc_items its ++ rest) < 0x10000 -> in_memory m place (rlp_list (enc_items its ++ rest)) -> its !! n = Some (Str x) ->
  item_at m place (rlp_list (enc_items its ++ rest)) (Z.of_nat n) d -> mem_read m d = x /\ 0 <= s_len d.
Proof.
  intros Hok Hby Hl [Hp Hr] Hn E. set (c := enc_items its ++ rest) in *. assert (enc_items [Lst c] = rlp_list c) as Ec by (unfold enc_items; cbn [map concat enc_item]; apply app_nil_r).
  destruct (dec_nth m [Lst c]) with (node := place (rlp_list c)) (alias := false) (n := 0%nat) (it := Lst c) as (node & En & Rn & Pn); rewrite ?Ec; try done; [repeat constructor; [done|cbn; lia]|pose proof (rlp_header_length 0xc0 (zlen c)); unfold rlp_list; rewrite length_app; lia|].
  cbn [item_bytes item_kind] in *. pose proof Pn as (P1 & P2 & P3). apply mem_read_at in Rn as [Ln Mn]; [|done]. assert (mem_at m (s_data node + 0) (enc_items its)) as Mi by (rewrite Z.add_0_r; by apply mem_at_app in Mn as [? _]).
  assert (zlen (enc_items its) <= zlen c) as Hle by (subst c; rewrite length_app; lia). pose proof (enc_items_length its Hok).
  destruct (rlp_loop_hit m true node P1 ltac:(lia) its (S (Z.to_nat (s_len node))) 0 0 n (Str x)) as (d' & Ed & L1 & A1 & _); try done; try lia. rewrite Z.add_0_l in Ed.
  unfold item_at, rlp_decode_in_list in E. unfold dec in En. change (Z.of_nat 0) with 0 in En. destruct (rlp_decode m false (place (rlp_list c)) 0) as [r o| |]; [|done..]. injection En as -> ->. cbn [negb Z.eqb Pos.eqb] in E. unfold rlp_decode in E. rewrite Ed in E. injection E as <-.
  split; [apply mem_read_at; [lia|done]|lia].
Qed.
Lemma slice_number_val d x : mem_read m d = x -> bytes_ok x -> (length x <= 8)%nat -> 0 <= s_len d -> slice_number m d = be_val x.
Proof.
  intros Hx Hok Hl Hd. unfold slice_number. rewrite Hx. pose proof (f_equal length Hx) as El. rewrite length_mem_read in El. replace (s_len d) with (zlen x) by lia. rewrite bytes_to_long_spec by done. by replace (length x - 8)%nat with 0%nat by lia.
Qed.
Lemma field_number block header d : header_complete block -> serialize_block_header block = Some header -> in_memory m place header -> item_at m place header BLOCKHEADER_NUMBER d -> slice_number m d = d_long (jget block K_NUMBER).
Proof.
  intros (Hc & Hok & Hby & Hl & Hnum) E Hm Hd. rewrite serialize_block_header_spec in E by done. injection E as <-. destruct (header_field_at block Hc) as [_ H8]. unfold header_bytes in *. destruct (item_of_list _ _ 8 _ d Hok Hby Hl Hm H8 Hd) as [Hx Hs].
  pose proof Hnum as (Hn & Hn8 & _). rewrite (numeral_val _ Hnum), <- (strip_zeros_val (default [] _)). change (strip_zeros ?l) with (field_bytes UINT l). apply slice_number_val; [done|rewrite Forall_lookup in Hok; by destruct (Hok 8%nat _ H8)| |done].
  change (field_bytes UINT ?l) with (strip_zeros l). etrans; [apply strip_zeros_length|done].
Qed.

(** C9. A block that [eth_verify_eth_getBlock] accepts is authentic.  Let the plugins keep their
    contract ([plugin_contract]) and the client ask for proofs.  Assume that the request asks for signatures,
    that each set of signers the client asks contains an honest
    one, that the result of eth_getBlockByHash or ByNumber has all fields of a header, and that nothing in the
    response collides with the block, whose trie of transactions has no node of less than 32 bytes, and that the transactions in the response that
    are not empty are different and have 32 to 61440 bytes.  Then the header of the result is the one of the block with the number
    in the result (not 0), which is the one that was asked for if a number other than 0 or a hash was; the transactions, those of the
    result or those of the proof, are exactly the transactions of this block, each at its index, passing over empty
    ones; hashes in the result are theirs, and so are the values of transactions that are objects. *)
Theorem block_authentic {W : Type} (plugins : list (in3_plugin_t W)) valid vc block_hash blockNumber s db s' :
  Forall (plugin_contract (RI := nano_inv asked_signers) valid) plugins -> state_inv (RI := nano_inv asked_signers) s ->
  eth_verify_eth_getBlock plugins m place vc block_hash blockNumber s = Ok (IN3_OK, db) s' ->
  (forall sgs, asked_signers sgs -> exists a, a ∈ sgs /\ honest chain a) ->
  (forall n b, chain n = Some b -> header_ok b /\ root_is b BLOCKHEADER_TRANSACTIONS_ROOT (b_txs b) /\ (forall header, serialize_block_header (vc_result vc) = Some header -> header_fair header b) /\
    transactions_fair (jget (if is_full_tx vc then vc_result vc else vc_proof vc) K_TRANSACTIONS) b) ->
  (forall header, serialize_block_header (vc_result vc) = Some header -> in_memory m place header) -> signers (self s) <> [] -> header_complete (vc_result vc) -> d_long (jget (vc_result vc) K_NUMBER) <> 0 ->
  exists b transactions txs, chain (u64 (d_long (jget (vc_result vc) K_NUMBER))) = Some b /\ serialize_block_header (vc_result vc) = Some (b_header b) /\
    (forall h, block_hash = Some h -> length h = 32%nat -> h = keccak (b_header b)) /\ (blockNumber = 0 \/ blockNumber = d_long (jget (vc_result vc) K_NUMBER)) /\
    jget (if is_full_tx vc then vc_result vc else vc_proof vc) K_TRANSACTIONS = Some transactions /\ mapM tx_of (items_of (Some transactions)) = Some txs /\ txs_of_trie (b_txs b) txs /\
    txs_checked m place (d_long (jget (vc_result vc) K_NUMBER)) (d_get_byteskl (vc_result vc) K_HASH 32) 0 (items_of (Some transactions)) txs /\
    (is_full_tx vc = false -> jlen (Some transactions) = jlen (jget (vc_result vc) K_TRANSACTIONS) /\ hashes_checked true (tx_hashes vc) txs).
Proof.
  intros Hp Hinv Erun Hhon Hchain Hmem Hss Hc Hnum. destruct (wp_ok _ _ _ _ _ (getBlock_spec plugins m place asked_signers valid Hp vc block_hash blockNumber s) Hinv Erun) as (_ & _ & HP).
  destruct (HP eq_refl) as (Hbh & Hbn & (header & Es & Hh) & transactions & txs & Et & Hg & Hct & Hhs). pose proof Hh as (d & Hd & Hexp & _). pose proof (field_number _ _ _ Hc Es (Hmem _ Es) Hd) as En.
  destruct (checked_block m place _ _ _ _ _ _ Hhon Hss Hh Hd) as (b & Hb & Ekb); [by rewrite En|]. rewrite En in Hb. destruct (Hchain _ _ Hb) as (Hok & Hroot & Hfh & Hft). destruct (Hfh header Es) as [_ Heq]. specialize (Heq (eq_sym Ekb)). subst header.
  exists b, transactions, txs. split; [done|]. split; [done|]. split; [intros h E Hl; rewrite (Hbh h E) in *; destruct (d_get_byteskl (vc_result vc) K_HASH 32); [by apply Hexp|done]|]. split; [done|]. split; [done|]. pose proof Hg as (Em & t0 & t & _ & _ & Hw). split; [done|]. split; [|done].
  rewrite Et in Hft. eapply give_txs; [exact Hft|exact Hg|]. destruct Hc as [H13 Hrest]. destruct (header_field_at _ H13) as [H4 _]. pose proof (header_items _ b (conj H13 Hrest) Hok Es 4 _ H4) as Hi. destruct Hroot as [_ Hr]. change (Z.to_nat BLOCKHEADER_TRANSACTIONS_ROOT) with 4%nat in Hr. rewrite Hi in Hr. injection Hr as Hr. rewrite <- Hr.
  destruct (wrong_root_false _ _ Hw) as [_ Hl]. symmetry. apply fill_left_id. change (Z.to_nat HASH) with 32%nat. by rewrite Hl.
Qed.
End Authentic.

(** ** Numbers that are too large *)
Section Forged.
Context `{SourceText} `{Keccak} `{Allocator} `{Ecdsa} {W : Type} (plugins : list (in3_plugin_t W)) (m : memory) (place : list Z -> slice).
Lemma set_txs_app l1 l2 : forall i t t1, set_txs i l1 t = Ok tt t1 -> set_txs i (l1 ++ l2) t = set_txs (i + zlen l1) l2 t1.
Proof.
  induction l1 as [|x l1 IH]; intros i t t1; cbn [set_txs app length]; [intros [= <-]; by rewrite Z.add_0_r|]. destruct (tx_of x) as [tx|]; [|done]. rewrite !(bind_defined _ _ _ _ eq_refl). unfold mbind, M_bind. destruct (set_tx i tx t) as [[] t2| | |]; try done. intros E. rewrite (IH _ _ _ E). f_equal. lia.
Qed.
Lemma set_txs_empty k : forall i t, set_txs i (replicate k (Some (JBytes []))) t = Ok tt t.
Proof. induction k as [|k IH]; intros i t; [done|]. cbn [replicate set_txs]. rewrite (bind_defined _ _ (Some [])) by done. rewrite (bind_ok _ _ _ tt t); [apply IH|]. unfold set_tx. by rewrite (bind_defined _ _ _ _ (proj1 (create_tx_path_spec i))). Qed.

(** C34. The number of transactions can be made up.  Whatever the block: a node that has its header accepted and knows
    its transactions can report any larger number, by adding empty entries to the transactions of the proof, which
    are counted but not put into the trie. *)
Theorem forged_count_accepted vc proof header block_hash number root l k t0 t s s' db :
  vc_result vc = Some (JInt (zlen l + Z.of_nat k)) -> zlen l + Z.of_nat k < 2 ^ 28 -> vc_proof vc = Some proof -> d_bytes (jget (Some proof) K_BLOCK) = Some header ->
  jget (Some proof) K_TRANSACTIONS = Some (JArray (l ++ replicate k (JBytes []))) ->
  eth_verify_blockheader plugins m place vc (Some header) block_hash s = Ok (IN3_OK, db) s' -> (block_hash = None -> exists d, item_at m place header BLOCKHEADER_NUMBER d /\ slice_number m d = number) ->
  item_at m place header BLOCKHEADER_TRANSACTIONS_ROOT root -> trie_new = Some t0 -> set_txs 0 (map Some l) t0 = Ok tt t -> mem_read m root = t_root t -> length (mem_read m root) = 32%nat ->
  eth_verify_eth_getBlockTransactionCount plugins m place vc block_hash number s = Ok (IN3_OK, db) s'.
Proof.
  intros Er Hk Ep Eh Et Ehd Hnum Hr E0 Es Hroot Hl. assert (forall i d s1, item_at m place header i d -> header_item (W := W) m place header i s1 = Ok (Some d) s1) as Hitem by (intros i d s1 Hd; unfold header_item; unfold item_at in Hd; by rewrite Hd).
  unfold eth_verify_eth_getBlockTransactionCount. rewrite Er, Ep, Eh. cbn [fmap option_fmap option_map norm jtype d_int Z.eqb negb]. change (T_INTEGER =? T_INTEGER) with true. cbn [negb]. rewrite (bind_ok _ _ _ _ _ Ehd). change (IN3_OK =? IN3_OK) with true. cbn [negb].
  rewrite (bind_ok _ _ s' true s') by (destruct block_hash; [done|]; destruct (Hnum eq_refl) as (d & Hd & En); rewrite (bind_ok _ _ _ _ _ (Hitem _ d s' Hd)); by rewrite En, Z.eqb_refl). cbn [negb]. rewrite (bind_ok _ _ _ _ _ (Hitem _ root s' Hr)).
  apply (bind_ok _ (fun r => mret (r, db)) s' IN3_OK s'). rewrite Et. unfold count_txs. rewrite (bind_ok _ _ s' IN3_OK s') by done. cbn [jlen]. rewrite length_app, length_replicate, Nat2Z.inj_add, i32_small, Z.eqb_refl by lia. cbn [negb]. rewrite (bind_defined _ _ _ _ E0).
  rewrite (bind_ok _ _ s' t s'); [|unfold on_trie; cbn [items_of]; rewrite map_app, (set_txs_app _ _ _ _ _ Es), fmap_replicate; by rewrite set_txs_empty]. unfold wrong_root. rewrite Hroot in *. rewrite Hl, (proj2 (memcmp_0 (t_root t) (t_root t) eq_refl) eq_refl). done.
Qed.
End Forged.

(** ** A block with two transactions

    The hash is a checksum, except for the message of the signer. *)
Module BlockSample.
#[local] Existing Instance no_text.
#[local] Existing Instance debug_allocator.
Definition sum (l : list Z) : list Z := 3 :: be_bytes 31 (fold_left (fun acc b => (acc * 257 + b + 1) mod 2 ^ 248) l 1).
Definition plain : Keccak.
Proof. refine {| keccak := sum |}; intros l; unfold sum; [cbn [length]; by rewrite length_be_bytes|constructor; [decide_now|apply be_bytes_ok]]. Defined.
Definition tx_a : list Z := replicate 40 7.
Definition tx_b : list Z := replicate 41 8.
Definition txs : list (option (list Z)) := [Some tx_a; Some tx_b].
Definition txs_trie : trie := Eval vm_compute in trie_of (block_entries 0 txs).
Definition txs_root : list Z := Eval vm_compute in sum (@node_enc plain txs_trie).
Definition result_with (hash : list Z) : jval :=
  JObject [(K_NUMBER, JInt 5); (K_HASH, JBytes hash); (K_PARENT_HASH, JBytes (replicate 32 1)); (K_SHA3_UNCLES, JBytes (replicate 32 2)); (K_MINER, JBytes (replicate 20 3)); (K_STATE_ROOT, JBytes (replicate 32 4));
           (K_TRANSACTIONS_ROOT, JBytes txs_root); (K_RECEIPTS_ROOT, JBytes (replicate 32 5)); (K_LOGS_BLOOM, JBytes (replicate 256 0)); (K_DIFFICULTY, JInt 6); (K_GAS_LIMIT, JInt 7); (K_GAS_USED, JInt 8);
           (K_TIMESTAMP, JInt 9); (K_EXTRA_DATA, JBytes []); (K_MIX_HASH, JBytes (replicate 32 10)); (K_NONCE, JBytes (replicate 8 11)); (K_TRANSACTIONS, JArray [JBytes (sum tx_a); JBytes (sum tx_b)])].
Definition header : list Z := Eval vm_compute in default [] (serialize_block_header (Some (result_with []))).
Definition items : list rlp_item := Eval vm_compute in header_fields (Some (result_with [])) ++ [Str (replicate 32 10); Str (replicate 8 11)].
Definition registry_id : list Z := replicate 32 9.
Definition msg_hash : list Z := 1 :: replicate 31 0.
Definition message : list Z := Eval vm_compute in signed_message 2 (sum header) 5 registry_id.
#[local] Instance hash : Keccak.
Proof.
  refine {| keccak l := if bool_decide (l = message) then msg_hash else sum l |}; intros l; case_bool_decide; [done|unfold sum; cbn [length]; by rewrite length_be_bytes|decide_now|].
  constructor; [decide_now|apply be_bytes_ok].
Defined.
#[local] Instance ecdsa : Ecdsa := {| crypto_recover h _ := if bool_decide (h = msg_hash) then Some (replicate 64 5) else None |}.
Definition signer : list Z := Eval vm_compute in take 20 (drop 12 (keccak (replicate 64 5))).
Definition asked (sgs : list (list Z)) : Prop := sgs = [signer].
Definition mem : memory := mem_of header.
Definition place : list Z -> slice := place_in [header] 0.
Definition blk : NanoSafety.block := mk_block items txs_trie Merkle.Empty.
Definition chain (n : Z) : option NanoSafety.block := if n =? 5 then Some blk else None.
Definition sig : jval := JObject [(K_BLOCK, JInt 5); (K_BLOCK_HASH, JBytes (sum header)); (K_R, JBytes (replicate 32 1)); (K_S, JBytes (replicate 32 2)); (K_V, JInt 27)].
Definition proof (extra : nat) : jval := JObject [(K_BLOCK, JBytes header); (K_TRANSACTIONS, JArray ([JBytes tx_a; JBytes tx_b] ++ replicate extra (JBytes []))); (K_SIGNATURES, JArray [sig])].
Definition eth : in3_chain_t := mk_chain 1 CHAIN_ETH 2 None.
Definition request (method : string) : jval := JObject [(K_METHOD, JString (str method)); (K_PARAMS, JArray [JInt 5; JBool false])].
Definition vc (method : string) (result : jval) (extra : nat) : in3_vctx_t := mk_vctx eth (request method) (Some result) (Some (proof extra)) (Some 0) (Some 6) 0 (Some (str method)) node1 false.
Definition vc_count (count : Z) (extra : nat) : in3_vctx_t := vc "eth_getBlockTransactionCountByNumber" (JInt count) extra.
Definition vc_block : in3_vctx_t := vc "eth_getBlockByNumber" (result_with (sum header)) 0.
Definition before : state unit := mk_state (mk_req 1 RT_RPC 0 IN3_WAITING None None (Some []) Null Null (Some []) [signer] [node1] []) [] (mk_client [eth] 5 0 PROOF_STANDARD 0 0 1 0 0 0) tt.
Lemma count_accepted : exists s', eth_verify_eth_getBlockTransactionCount [answering registry_id] mem place (vc_count 2 0) None 5 before = Ok (IN3_OK, false) s'.
Proof. eexists. vm_compute. reflexivity. Qed.
Lemma block_accepted : exists s', eth_verify_eth_getBlock [answering registry_id] mem place vc_block None 5 before = Ok (IN3_OK, false) s'.
Proof. eexists. vm_compute. reflexivity. Qed.
Lemma block_signer : honest chain signer.
Proof.
  apply (honest_of_message chain signer msg_hash blk 5 registry_id); [|intros l; cbn [keccak hash]; case_bool_decide as E; [intros _; rewrite E; vm_compute; reflexivity|done]|done].
  intros h sg pub E _. cbn [crypto_recover ecdsa] in E. by case_bool_decide.
Qed.
Lemma before_ok : state_inv (RI := nano_inv asked) before.
Proof. split; [|split; [by right|constructor]]. split; [|done]. constructor; [done|constructor]. Qed.
Lemma header_in_memory : in_memory mem place header.
Proof. apply (placed_in [header]); [vm_compute; reflexivity|left]. Qed.
Lemma block_header_fair : header_fair mem place header blk.
Proof. split; [apply header_in_memory|]. intros _. vm_compute. reflexivity. Qed.
Lemma block_txs_fair : transactions_fair (Some (JArray [JBytes tx_a; JBytes tx_b])) blk.
Proof.
  intros l [= <-]. split; [done|]. split; [constructor; [|constructor; [|constructor]]; intros _; eexists; (split; [reflexivity|]); vm_compute; reflexivity|]. split; [decide_now|]. split; [right; vm_compute; reflexivity|]. apply hash_inj_once; decide_now.
Qed.
Lemma block_in_chain : header_ok blk /\ root_is blk BLOCKHEADER_TRANSACTIONS_ROOT (b_txs blk).
Proof. split; [split; [decide_now|by vm_compute]|]. split; vm_compute; reflexivity. Qed.
Lemma block_complete : header_complete (Some (result_with (sum header))).
Proof. split; [vm_compute; reflexivity|]. split; [decide_now|]. split; [decide_now|]. split; [vm_compute; reflexivity|]. split; [decide_now|]. split; [vm_compute; lia|]. cbn. lia. Qed.
Definition item_slice (i : Z) : slice := match rlp_decode_in_list mem false (place header) i with RDone _ (Some d) => d | _ => mk_slice 0 0 end.
Definition number_item : slice := Eval vm_compute in item_slice BLOCKHEADER_NUMBER.
Definition root_item : slice := Eval vm_compute in item_slice BLOCKHEADER_TRANSACTIONS_ROOT.
End BlockSample.

#[local] Existing Instance no_text.
#[local] Existing Instance debug_allocator.
#[local] Existing Instance BlockSample.hash.
#[local] Existing Instance BlockSample.ecdsa.
Lemma count_authentic_witness : txs_of_trie BlockSample.txs_trie BlockSample.txs.
Proof.
  destruct BlockSample.count_accepted as [s' E].
  destruct (count_authentic BlockSample.mem BlockSample.place BlockSample.asked BlockSample.chain [answering BlockSample.registry_id] (fun _ _ => True) (BlockSample.vc_count 2 0) None 5 BlockSample.before false s') as (b & number & txs & Hb & _ & _ & Hnum & _ & Em & Ht).
  - apply answering_plugins.
  - apply BlockSample.before_ok.
  - exact E.
  - intros sgs ->. exists BlockSample.signer. split; [by left|apply BlockSample.block_signer].
  - intros n b Hn. unfold BlockSample.chain in Hn. destruct (n =? 5); [|done]. injection Hn as <-. destruct BlockSample.block_in_chain. split; [done|]. split; [done|]. split; [intros h [= <-]; apply BlockSample.block_header_fair|exact BlockSample.block_txs_fair].
  - discriminate.
  - intros h d [= <-] Hd. unfold item_at in Hd. vm_compute in Hd. injection Hd as <-. vm_compute. discriminate.
  - rewrite (Hnum eq_refl) in Hb. injection Hb as <-. injection Em as <-. exact Ht.
Defined.
Lemma block_authentic_witness : serialize_block_header (H := debug_allocator) (Some (BlockSample.result_with (BlockSample.sum BlockSample.header))) = Some (b_header BlockSample.blk).
Proof.
  destruct BlockSample.block_accepted as [s' E].
  destruct (block_authentic BlockSample.mem BlockSample.place BlockSample.asked BlockSample.chain [answering BlockSample.registry_id] (fun _ _ => True) BlockSample.vc_block None 5 BlockSample.before false s') as (b & transactions & txs & Hb & Es & _).
  - apply answering_plugins.
  - apply BlockSample.before_ok.
  - exact E.
  - intros sgs ->. exists BlockSample.signer. split; [by left|apply BlockSample.block_signer].
  - intros n b Hn. unfold BlockSample.chain in Hn. destruct (n =? 5); [|done]. injection Hn as <-. destruct BlockSample.block_in_chain. split; [done|]. split; [done|]. split; [intros h Eh; vm_compute in Eh; injection Eh as <-; apply BlockSample.block_header_fair|exact BlockSample.block_txs_fair].
  - intros h Eh. vm_compute in Eh. injection Eh as <-. apply BlockSample.header_in_memory.
  - discriminate.
  - apply BlockSample.block_complete.
  - vm_compute. discriminate.
  - injection Hb as <-. exact Es.
Defined.
(** Two transactions are reported as seven. *)
Lemma forged_count_accepted_witness : exists s', @eth_verify_eth_getBlockTransactionCount BlockSample.hash debug_allocator BlockSample.ecdsa unit [answering BlockSample.registry_id] BlockSample.mem BlockSample.place (BlockSample.vc_count 7 5) None 5 BlockSample.before = Ok (IN3_OK, false) s'.
Proof.
  eexists. eapply (@forged_count_accepted BlockSample.hash debug_allocator BlockSample.ecdsa unit [answering BlockSample.registry_id] BlockSample.mem BlockSample.place (BlockSample.vc_count 7 5) (BlockSample.proof 5) BlockSample.header None 5 BlockSample.root_item [JBytes BlockSample.tx_a; JBytes BlockSample.tx_b] 5);
    [reflexivity|decide_now|reflexivity|reflexivity|reflexivity|(vm_compute; reflexivity)|(intros _; exists BlockSample.number_item; split; vm_compute; reflexivity)|(vm_compute; reflexivity)|(vm_compute; reflexivity)|(vm_compute; reflexivity)|(vm_compute; reflexivity)|(vm_compute; reflexivity)].
Defined.
