(* ===== verification/BasicLog.v ===== *)
(** * verifier/eth1/basic/eth_getLog.c: logs

    The proof of a list of logs has, for each block, its header and the receipts with their Merkle proofs.
    They are verified first and kept in [receipts], a table with one entry per log; then each log is
    compared with the receipt of its transaction and with the filter of the request.  An entry of the
    table that was not written yet is not in the list. *)
From S2P Require Import Prelude Utils Bytes Rlp Merkle Data Json JsonVal ReqState Request Serialize Nano NodeData BasicTx.
From stdpp Require Import strings.
#[local] Open Scope Z_scope.

Definition K_LOG_PROOF : Z := Eval vm_compute in key "logProof".
Definition K_RECEIPTS : Z := Eval vm_compute in key "receipts".
Definition K_TX_HASH : Z := Eval vm_compute in key "txHash".
Definition K_TRANSACTION_LOG_INDEX : Z := Eval vm_compute in key "transactionLogIndex".
Definition K_REMOVED : Z := Eval vm_compute in key "removed".
Definition K_FROM_BLOCK : Z := Eval vm_compute in key "fromBlock".
Definition K_TO_BLOCK : Z := Eval vm_compute in key "toBlock".
Definition LATEST_APPROX_ERR : Z := 1.

(** ** The filter of the request *)

(** [bytes_cmp(a, d_bytes(t))] *)
Definition same_bytes (a : list Z) (t : option jval) : bool := bool_decide (a = default [] (d_bytes t)).
(** [d_is_bytes] of a token that was converted. *)
Definition holds_bytes (v : jval) : bool := match v with JBytes _ | JInt _ => true | _ => false end.
Definition matches_filter_address (tx_params : option jval) (addrs : list Z) : bool :=
  match d_getl tx_params K_ADDRESS 20 with
  | None => true
  | Some (JArray l) => existsb (fun t => same_bytes addrs (Some t)) l
  | Some jaddrs => holds_bytes jaddrs && same_bytes addrs (Some jaddrs)
  end.
Definition matches_filter_from_to (tx_params : option jval) (k blockno : Z) : bool :=
  match norm <$> jget tx_params k with
  | Some (JInt _ as jrange) | Some (JBytes _ as jrange) =>
      if k =? K_FROM_BLOCK then d_long (Some jrange) <=? blockno else if k =? K_TO_BLOCK then blockno <=? d_long (Some jrange) else true
  | _ => true
  end.
Definition matches_filter_range (tx_params : option jval) (blockno : Z) (blockhash : list Z) : bool :=
  match d_getl tx_params K_BLOCK_HASH 32 with
  | None => matches_filter_from_to tx_params K_FROM_BLOCK blockno && matches_filter_from_to tx_params K_TO_BLOCK blockno
  | Some (JBytes b) => bool_decide (blockhash = b)
  | Some _ => false
  end.
(** One position: null, a topic, or an array with alternatives, up to the first that matches or is no topic. *)
Fixpoint matches_one (l : list jval) (topic : list Z) : bool :=
  match l with
  | [] => false
  | t :: l' => if negb (d_is_bytes t) then false else if same_bytes topic (Some t) then true else matches_one l' topic
  end.
Definition matches_topic (jt : jval) (topic : list Z) : bool :=
  match jt with
  | JNull => true
  | JArray l => matches_one l topic
  | _ => negb (d_is_bytes jt) || same_bytes topic (Some jt)
  end.
Definition matches_filter_topics (tx_params : option jval) (topics : list jval) : bool :=
  match jget tx_params K_TOPICS with
  | None => true
  | Some (JArray jts) =>
      if (length jts =? 0)%nat then true
      else if (4 <? length topics)%nat || (length topics <? length jts)%nat then false
      else forallb (fun jt_topic => matches_topic (fst jt_topic) (default [] (d_bytes (Some (snd jt_topic))))) (zip jts topics)
  | Some _ => false
  end.
Definition filter_opts (req : jval) : option jval := jget_at (jget (Some req) K_PARAMS) 0.
Definition is_object (t : option jval) : bool := jtype t =? T_OBJECT.
(** [topics] are the topics of the log if they are an array. *)
Definition matches_filter (req : jval) (addrs : list Z) (blockno : Z) (blockhash : list Z) (topics : option (list jval)) : bool :=
  let opts := filter_opts req in
  if negb (is_object opts) then false
  else if negb (matches_filter_address opts addrs) then false
  else if negb (matches_filter_range opts blockno blockhash) then false
  else
    match topics with
    | Some topics => matches_filter_topics opts topics
    | None => match jget opts K_TOPICS with None | Some (JArray []) => true | Some _ => false end
    end.
Definition filter_from_equals_to (req : jval) : bool :=
  let opts := filter_opts req in
  negb (is_object opts) && same_bytes (default [] (d_bytes (jget opts K_FROM_BLOCK))) (jget opts K_TO_BLOCK).
Definition is_latest (block : option jval) : bool :=
  match block with Some (JString l) => negb (has_0x l) && bool_decide (cstr l = str "latest") | _ => false end.
(** IN3_OK, or an error. *)
Definition filter_check_latest (req : jval) (blk curr_blk : Z) (last : bool) : bool :=
  let opt := filter_opts req in
  if negb (is_object opt) then false
  else
    match d_bytes (jget opt K_BLOCK_HASH) with
    | Some _ => true
    | None =>
        let frm := jget opt K_FROM_BLOCK in
        let to_latest := is_latest (jget opt K_TO_BLOCK) in
        if is_latest frm then DIFF_ATMOST blk curr_blk LATEST_APPROX_ERR
        else if to_latest then
          if last then (d_long frm <=? blk) && DIFF_ATMOST blk curr_blk LATEST_APPROX_ERR
          else (d_long frm <=? blk) && (blk <=? u64 (curr_blk + LATEST_APPROX_ERR))
        else true
    end.

(** ** The receipts of the proof *)
Record receipt_t := mk_receipt { rc_tx_hash : list Z; rc_data : slice; rc_block_number : slice; rc_block_hash : list Z; rc_transaction_index : Z }.
Section Log.
Context `{SourceText} `{Keccak} `{Allocator} `{Ecdsa} {W : Type} (plugins : list (in3_plugin_t W)) (m : memory) (place : list Z -> slice).
#[local] Abbreviation st := (state W).
#[local] Abbreviation vc_err := (vc_err plugins).
(** The key of a block: the digits of the number, with a zero in front if they are odd, are those of its
    bytes; more than eight do not fit into [xtmp]. *)
Definition block_key (number : Z) : option Z := if number <? 2 ^ 32 then let s := str "0x" ++ bytes_to_hex_loop (optimize_len (be_bytes 4 number)) in Some (keyn s (length s)) else None.
(** [if (!proof || !trie_verify_proof(root, path, proof, &data))]; otherwise the value, which may be none. *)
Definition proved_value (root : slice) (path : list Z) (proof : option jval) : M st (option (option slice)) :=
  r ← verify_merkle m place root path proof EAny;
  mret (match r with (true, d) => Some d | (false, _) => None end).
Definition data_of (d : option slice) : slice := default (mk_slice 0 0) d.
Definition verify_tx (tx_root : slice) (receipt : jval) (path : list Z) : M st (Z + list Z) :=
  v ← proved_value tx_root path (jget (Some receipt) K_TX_PROOF);
  match v with
  | None => e ← vc_err "invalid tx merkle proof"; mret (inl e)
  | Some d =>
      let tx_hash := keccak (mem_read m (data_of d)) in
      if negb (bool_decide (default [] (d_bytes (d_getl (Some receipt) K_TX_HASH 32)) = tx_hash)) then e ← vc_err "invalid tx hash"; mret (inl e) else mret (inr tx_hash)
  end.
(** [number] and [hash] are those of the block. *)
Definition verify_receipt_entry (number : slice) (hash : list Z) (tx_root receipt_root : slice) (receipt : jval) : M st (Z + receipt_t) :=
  let index := u32 (d_int (jget (Some receipt) K_TX_INDEX)) in
  path ← defined (create_tx_path index);
  r ← verify_tx tx_root receipt path;
  match r with
  | inl e => mret (inl e)
  | inr tx_hash =>
      v ← proved_value receipt_root path (jget (Some receipt) K_PROOF);
      match v with
      | None => e ← vc_err "invalid receipt proof"; mret (inl e)
      | Some d => mret (inr (mk_receipt tx_hash (data_of d) number hash index))
      end
  end.
Fixpoint verify_receipts (l_logs : nat) (number : slice) (hash : list Z) (tx_root receipt_root : slice) (l : list jval) (receipts : list receipt_t) : M st (Z + list receipt_t) :=
  match l with
  | [] => mret (inr receipts)
  | receipt :: l' =>
      if (length receipts =? l_logs)%nat then e ← vc_err "too many receipts in the proof"; mret (inl e)
      else
        r ← verify_receipt_entry number hash tx_root receipt_root receipt;
        match r with inl e => mret (inl e) | inr r => verify_receipts l_logs number hash tx_root receipt_root l' (receipts ++ [r]) end
  end.
(** An item of the header with [rlp_decode(..) == 1]. *)
Definition block_item (block : slice) (index : Z) : M st (option slice) :=
  r ← defined (dec m false block index);
  mret (match r with (r, Some d) => if r =? 1 then Some d else None | _ => None end).
(** One block: its hash goes into the entry behind those that are filled, which is there only if the table is not full. *)
Definition verify_block (l_logs : nat) (vc : in3_vctx_t) (receipts : list receipt_t) (k : Z) (token : jval) : M st (Z * bool + list receipt_t) :=
  let fail_with (db : bool) (msg : string) : M st (Z * bool + list receipt_t) := e ← vc_err msg; mret (inl (e, db)) in
  let fail := fail_with (vc_dont_blacklist vc) in
  kn ← defined (block_key (d_long (jget (Some token) K_NUMBER)));
  if negb (k =? kn) then fail "block number mismatch"
  else
    let block := default [] (d_bytes (jget (Some token) K_BLOCK)) in
    if (length block =? 0)%nat then fail "invalid blockheader"
    else
      rd ← eth_verify_blockheader plugins m place vc (Some block) None;
      if fst rd <? 0 then fail_with (snd rd) "invalid blockheader"
      else if (length receipts =? l_logs)%nat then undef
      else
        r ← defined (dec m true (place block) 0);
        let items := default (place block) (snd r) in
        receipt_root ← block_item items BLOCKHEADER_RECEIPT_ROOT;
        match receipt_root with
        | None => fail "invalid receipt root"
        | Some receipt_root =>
            tx_root ← block_item items BLOCKHEADER_TRANSACTIONS_ROOT;
            match tx_root with
            | None => fail "invalid tx root"
            | Some tx_root =>
                number ← block_item items BLOCKHEADER_NUMBER;
                match number with
                | None => fail "invalid block number"
                | Some number =>
                    l ← defined (d_iter (jget (Some token) K_RECEIPTS));
                    r ← verify_receipts l_logs number (keccak block) tx_root receipt_root l receipts;
                    mret (match r with inl e => inl (e, vc_dont_blacklist vc) | inr receipts => inr receipts end)
                end
            end
        end.
Fixpoint verify_blocks (l_logs : nat) (vc : in3_vctx_t) (l : list (Z * jval)) (receipts : list receipt_t) : M st (Z * bool + list receipt_t) :=
  match l with
  | [] => mret (inr receipts)
  | (k, token) :: l' =>
      r ← verify_block l_logs vc receipts k token;
      match r with inl e => mret (inl e) | inr receipts => verify_blocks l_logs vc l' receipts end
  end.

(** ** A log against its receipt *)

(** The receipt of the transaction: an entry that was not written is read as well. *)
Definition find_receipt (l_logs : nat) (receipts : list receipt_t) (tx_hash : list Z) : option (option receipt_t) :=
  match find (fun r => bool_decide (tx_hash = rc_tx_hash r)) receipts with
  | Some r => Some (Some r)
  | None => if (length receipts <? l_logs)%nat then None else Some None
  end.
(** Behind the byte of the type (EIP-2718). *)
Definition skip_envelope (data : slice) : slice :=
  if negb (s_len data =? 0) && (m (s_data data) <? 0x7f) then mk_slice (s_data data + 1) (s_len data - 1) else data.
(** [rlp_decode(b, index, tmp)] with what [tmp] holds afterwards. *)
Definition decode_to (b : slice) (index : Z) (tmp : slice) : option (Z * slice) := '(r, d) ← dec m false b index; Some (r, default tmp d).
Fixpoint check_topics (tops tmp : slice) (i : Z) (l : list jval) : option bool :=
  match l with
  | [] => Some true
  | t :: l' =>
      '(r, tmp) ← decode_to tops i tmp;
      if (r =? 0) || negb (bool_decide (mem_read m tmp = default [] (d_bytesl (Some t) 32))) then Some false else check_topics tops tmp (i + 1) l'
  end.
(** The address, the data and the topics; an error message, if there is one. *)
Definition check_log_data (r : receipt_t) (log : jval) : option (option string) :=
  '(_, tmp) ← dec m false (skip_envelope (rc_data r)) 0;
  tmp ← tmp;
  '(k, logs) ← dec m false tmp 3;
  if negb (k =? 2) then Some (Some "invalid log-data"%string)
  else
    logs ← logs;
    '(k, d) ← dec m true logs (d_int (jget (Some log) K_TRANSACTION_LOG_INDEX));
    if negb (k =? 2) then Some (Some "invalid log index"%string)
    else
      let logddata := default logs d in
      '(k, tmp) ← decode_to logddata 0 tmp;
      if (k =? 0) || negb (bool_decide (mem_read m tmp = default [] (d_bytes (d_getl (Some log) K_ADDRESS 20)))) then Some (Some "invalid address"%string)
      else
        '(k, tmp) ← decode_to logddata 2 tmp;
        if (k =? 0) || negb (bool_decide (mem_read m tmp = default [] (d_bytes (jget (Some log) K_DATA)))) then Some (Some "invalid data"%string)
        else
          '(k, tops) ← dec m false logddata 1;
          if negb (k =? 2) then Some (Some "invalid topics"%string)
          else
            tops ← tops;
            '(n, _) ← dec m false tops (-1);
            if negb (n =? jlen (jget (Some log) K_TOPICS)) then Some (Some "invalid topics len"%string)
            else
              l ← d_iter (jget (Some log) K_TOPICS);
              ok ← check_topics tops tmp 0 l;
              Some (if (ok : bool) then None else Some "invalid topic"%string).
(** The topics of a log, filled up by [check_topics]. *)
Definition log_topics (log : jval) : option (list jval) := match jget (Some log) K_TOPICS with Some (JArray l) => Some (map (pad_token 32) l) | _ => None end.
(** The place of the log, the filter and the order; [prev_blk] is the number of the first block. *)
Definition check_log_place (vc : in3_vctx_t) (r : receipt_t) (log : jval) (prev_blk : Z) (last : bool) : option (option string) :=
  let number := d_long (jget (Some log) K_BLOCK_NUMBER) in
  let hash := default [] (d_bytes (d_getl (Some log) K_BLOCK_HASH 32)) in
  if negb (number =? bytes_to_long (mem_read m (rc_block_number r)) (s_len (rc_block_number r))) then Some (Some "invalid blocknumber"%string)
  else if negb (bool_decide (hash = rc_block_hash r)) then Some (Some "invalid blockhash"%string)
  else if negb (d_int (jget (Some log) K_REMOVED) =? 0) then Some (Some "must be removed=false"%string)
  else if negb (u32 (d_int (jget (Some log) K_TRANSACTION_INDEX)) =? rc_transaction_index r) then Some (Some "wrong transactionIndex"%string)
  else if negb (matches_filter (vc_request vc) (default [] (d_bytes (d_getl (Some log) K_ADDRESS 20))) number hash (log_topics log)) then Some (Some "filter mismatch"%string)
  else if filter_from_equals_to (vc_request vc) && negb (prev_blk =? number) then Some (Some "wrong blocknumber"%string)
  else if number <? prev_blk then Some (Some "result not sorted"%string)
  else
    curr_blk ← vc_currentBlock vc;
    Some (if negb (filter_check_latest (vc_request vc) number curr_blk last) then Some "latest check failed"%string else None).
Fixpoint check_result (l_logs : nat) (vc : in3_vctx_t) (receipts : list receipt_t) (prev_blk : Z) (l : list jval) : M st Z :=
  match l with
  | [] => mret IN3_OK
  | log :: l' =>
      r ← defined (find_receipt l_logs receipts (default [] (d_bytes (jget (Some log) K_TRANSACTION_HASH))));
      match r with
      | None => vc_err "missing proof for log"
      | Some r =>
          err ← defined (check_log_data r log);
          match err with
          | Some msg => vc_err msg
          | None =>
              let prev_blk := if prev_blk =? 0 then d_long (jget (Some log) K_BLOCK_NUMBER) else prev_blk in
              err ← defined (check_log_place vc r log prev_blk (length l' =? 0)%nat);
              match err with
              | Some msg => vc_err msg
              | None => check_result l_logs vc receipts prev_blk l'
              end
          end
      end
  end.
Definition eth_verify_eth_getLog (vc : in3_vctx_t) : M st (Z * bool) :=
  let fail (msg : string) : M st (Z * bool) := e ← vc_err msg; mret (e, vc_dont_blacklist vc) in
  match vc_result vc with
  | Some (JArray logs) =>
      let l_logs := length logs in
      if (l_logs =? 0)%nat then mret (IN3_OK, vc_dont_blacklist vc)
      else
        match vc_proof vc with
        | None => fail "no proof for logs found"
        | Some proof =>
            let log_proof := jget (Some proof) K_LOG_PROOF in
            if Z.of_nat l_logs <? jlen log_proof then fail "too many proofs"
            else
              l ← defined (children log_proof);
              r ← verify_blocks l_logs vc l [];
              match r with
              | inl e => mret e
              | inr receipts => e ← check_result l_logs vc receipts 0 logs; mret (e, vc_dont_blacklist vc)
              end
        end
  | _ => fail "The result must be an array"
  end.
End Log.
