(* ===== verification/LogSafety.v ===== *)
(** * verifier/eth1/basic/eth_getLog.c: what accepted logs show

    Each log of an accepted answer is in the receipt of its transaction, in the block of the chain with its
    number ([logs_authentic]), and matches the filter of the request; that all such logs are there, or that
    they are in order, is not shown. *)
From S2P Require Import Prelude Utils Bytes Rlp Merkle Data Json JsonVal ReqState Request ReqFrame ReqSafety Serialize Nano NanoSafety NodeData NodeRegistry AccountProof BasicTx TxSafety BasicLog.
From stdpp Require Import strings.
#[local] Open Scope Z_scope.

(** ** The logs of a receipt *)
Record log_entry := mk_log { le_address : list Z; le_topics : list (list Z); le_data : list Z }.
Definition log_items (e : log_entry) : list rlp_item := [Str (le_address e); Lst (enc_items (map Str (le_topics e))); Str (le_data e)].
Definition log_list (e : log_entry) : rlp_item := Lst (enc_items (log_items e)).
(** A receipt, with its type in front if it has one, and its logs as the fourth field. *)
Definition receipt_with (raw : list Z) (ls : list log_entry) : Prop := exists type its, 0 <= type < 0x7f /\ raw = typed type (rlp_list (enc_items its)) /\ zlen (enc_items its) < 2 ^ 28 /\ Forall item_ok its /\
  its !! 3%nat = Some (Lst (enc_items (map log_list ls))) /\ Forall item_ok (map log_list ls) /\ Forall (fun e => Forall item_ok (log_items e) /\ Forall item_ok (map Str (le_topics e))) ls.

Section Data.
Context `{Allocator} (m : memory).
Lemma item_size its n it : its !! n = Some it -> zlen (item_bytes it) <= zlen (enc_items its).
Proof.
  intros Hn. apply list_elem_of_split_length in Hn as (l1 & l2 & -> & _). rewrite enc_items_app, length_app. change (enc_items (it :: l2)) with (enc_item it ++ enc_items l2). rewrite length_app.
  assert (zlen (item_bytes it) <= zlen (enc_item it)); [|lia]. destruct it; cbn [item_bytes enc_item]; [|apply zlen_lst_le]. rewrite rlp_string_unfold, length_app. lia.
Qed.
(** An item of a list in memory, with what is known of it. *)
Lemma dec_item its node alias n it : Forall item_ok its -> zlen (enc_items its) < 2 ^ 31 -> placed node -> mem_read m node = enc_items its -> its !! n = Some it ->
  exists d, dec m alias node (Z.of_nat n) = Some (item_kind it, Some d) /\ mem_read m d = item_bytes it /\ placed d.
Proof. intros Hok Hl. by apply dec_nth. Qed.
Lemma topics_spec ts node l : forall tmp pre, Forall item_ok (map Str (pre ++ ts)) -> zlen (enc_items (map Str (pre ++ ts))) < 2 ^ 31 -> placed node -> mem_read m node = enc_items (map Str (pre ++ ts)) -> length l = length ts ->
  check_topics m node tmp (zlen pre) l = Some true -> ts = map (fun t => default [] (d_bytesl (Some t) 32)) l.
Proof.
  revert l. induction ts as [|x ts IH]; intros [|t l] tmp pre Hok Hl Hp Hr Hlen; try done. cbn [check_topics]. destruct (dec_item _ node false (length pre) (Str x) Hok Hl Hp Hr) as (d & Ed & Rd & _); [rewrite map_app, lookup_app_r by (by rewrite length_map); by rewrite length_map, Nat.sub_diag|].
  unfold decode_to. rewrite Ed. cbn [mbind option_bind item_kind Z.eqb orb from_option id]. rewrite Rd. cbn [item_bytes]. case_bool_decide as Ex; cbn [negb]; [|done]. intros Hc. cbn [map]. f_equal; [done|]. replace (pre ++ x :: ts) with ((pre ++ [x]) ++ ts) in * by (by rewrite <- app_assoc).
  apply (IH l d (pre ++ [x])); try done; [by injection Hlen|]. rewrite length_app. cbn [length]. by replace (Z.of_nat (length pre + 1)) with (zlen pre + 1) by lia.
Qed.
Lemma skip_envelope_spec raw type l : placed raw -> mem_read m raw = typed type (rlp_list l) -> 0 <= type < 0x7f -> zlen l < 2 ^ 30 -> placed (skip_envelope m raw) /\ mem_read m (skip_envelope m raw) = rlp_list l.
Proof.
  intros Hp Hr Ht Hl. pose proof Hp as (P1 & P2 & P3). unfold skip_envelope, typed in *. destruct (Z.eqb_spec type 0) as [->|Hne].
  - destruct (list_head l) as (c & t & E & Hc). rewrite E in Hr. pose proof (mem_head m raw t c Hr) as Em. rewrite Em, (proj2 (Z.ltb_ge c 0x7f)), andb_false_r by lia. by rewrite E.
  - unfold u8 in Hr. rewrite Z.mod_small in Hr by lia. pose proof (mem_head m raw _ _ Hr) as ->. pose proof (f_equal length Hr) as Hlen. rewrite length_mem_read in Hlen. cbn [length] in Hlen. rewrite (proj2 (Z.eqb_neq (s_len raw) 0)), (proj2 (Z.ltb_lt type 0x7f)) by lia. cbn [negb andb].
    apply mem_read_at in Hr as [El Hm]; [|done]. apply mem_at_cons in Hm as [_ Hm]. cbn [length] in El. split; [split; cbn; lia|]. apply mem_read_at; [cbn; lia|]. cbn [s_data s_len]. split; [lia|done].
Qed.
(** The log of a receipt that is accepted: its address, data and topics are those of the entry with its index. *)
Definition log_is (log : jval) (e : log_entry) : Prop := le_address e = default [] (d_bytes (d_getl (Some log) K_ADDRESS 20)) /\ le_data e = default [] (d_bytes (jget (Some log) K_DATA)) /\
  exists l, d_iter (jget (Some log) K_TOPICS) = Some l /\ le_topics e = map (fun t => default [] (d_bytesl (Some t) 32)) l.
Lemma iter_length t l : d_iter t = Some l -> jlen t = zlen l.
Proof. destruct t as [[]|]; cbn [d_iter jlen]; intros E; repeat case_match; simplify_eq; rewrite ?length_map; try done; by apply Z.eqb_eq. Qed.
Lemma dec_negative its node alias i : Forall item_ok its -> zlen (enc_items its) < 2 ^ 31 -> placed node -> mem_read m node = enc_items its -> i < 0 -> dec m alias node i = Some (zlen its, None).
Proof.
  intros Hok Hl (P1 & P2 & P3) Hr Hi. apply mem_read_at in Hr as [L1 M1]; [|done]. pose proof (enc_items_length its Hok). rewrite <- (Z.add_0_r (s_data node)) in M1. unfold dec, rlp_decode. rewrite (rlp_loop_miss m alias node P1 ltac:(lia) its) by (auto; lia). by rewrite (proj2 (Z.ltb_lt i 0)).
Qed.
Lemma log_entry_spec e node tmp log : Forall item_ok (log_items e) -> Forall item_ok (map Str (le_topics e)) -> zlen (enc_items (log_items e)) < 2 ^ 31 -> placed node -> mem_read m node = enc_items (log_items e) ->
  ('(k, tmp) ← decode_to m node 0 tmp;
   if (k =? 0) || negb (bool_decide (mem_read m tmp = default [] (d_bytes (d_getl (Some log) K_ADDRESS 20)))) then Some (Some "invalid address"%string)
   else
     '(k, tmp) ← decode_to m node 2 tmp;
     if (k =? 0) || negb (bool_decide (mem_read m tmp = default [] (d_bytes (jget (Some log) K_DATA)))) then Some (Some "invalid data"%string)
     else
       '(k, tops) ← dec m false node 1;
       if negb (k =? 2) then Some (Some "invalid topics"%string)
       else
         tops ← tops;
         '(n, _) ← dec m false tops (-1);
         if negb (n =? jlen (jget (Some log) K_TOPICS)) then Some (Some "invalid topics len"%string)
         else
           l ← d_iter (jget (Some log) K_TOPICS);
           ok ← check_topics m tops tmp 0 l;
           Some (if (ok : bool) then None else Some "invalid topic"%string)) = Some None -> log_is log e.
Proof.
  intros Hok Hts Hl Hp Hr. destruct (dec_item _ node false 0 (Str (le_address e)) Hok Hl Hp Hr eq_refl) as (d0 & E0 & R0 & _), (dec_item _ node false 2 (Str (le_data e)) Hok Hl Hp Hr eq_refl) as (d2 & E2 & R2 & _), (dec_item _ node false 1 (Lst (enc_items (map Str (le_topics e)))) Hok Hl Hp Hr eq_refl) as (d1 & E1 & R1 & P1).
  change (Z.of_nat 0) with 0 in E0. change (Z.of_nat 1) with 1 in E1. change (Z.of_nat 2) with 2 in E2. unfold decode_to. rewrite E0. cbn [mbind option_bind item_kind Z.eqb orb from_option id]. rewrite R0. cbn [item_bytes]. case_bool_decide as Ea; cbn [negb]; [|done]. rewrite E2. cbn [mbind option_bind item_kind Z.eqb orb from_option id]. rewrite R2. cbn [item_bytes]. case_bool_decide as Ed; cbn [negb]; [|done].
  rewrite E1. cbn [mbind option_bind item_kind Z.eqb Pos.eqb negb]. cbn [item_bytes] in R1. assert (zlen (enc_items (map Str (le_topics e))) < 2 ^ 31) as Hl1 by (pose proof (item_size (log_items e) 1 _ eq_refl) as Hs; cbn [item_bytes] in Hs; lia). rewrite (dec_negative _ _ false (-1) Hts Hl1 P1 R1) by lia. cbn [mbind option_bind]. rewrite length_map.
  destruct (Z.eqb_spec (zlen (le_topics e)) (jlen (jget (Some log) K_TOPICS))) as [En|]; cbn [negb]; [|done]. destruct (d_iter (jget (Some log) K_TOPICS)) as [l|] eqn:Ei; [|done]. cbn [mbind option_bind]. rewrite (iter_length _ _ Ei) in En. destruct (check_topics m d1 d2 0 l) as [[]|] eqn:Ec; try done. intros _.
  split; [done|]. split; [done|]. exists l. split; [done|]. apply (topics_spec (le_topics e) d1 l d2 []); try done. lia.
Qed.
Lemma log_data_spec r log raw ls : placed (rc_data r) -> mem_read m (rc_data r) = raw -> receipt_with raw ls -> check_log_data m r log = Some None ->
  exists e, 0 <= d_int (jget (Some log) K_TRANSACTION_LOG_INDEX) /\ ls !! Z.to_nat (d_int (jget (Some log) K_TRANSACTION_LOG_INDEX)) = Some e /\ log_is log e.
Proof.
  intros Hp Hr (type & its & Ht & -> & Hl & Hok & H3 & Hls & Hes). destruct (skip_envelope_spec _ _ _ Hp Hr Ht ltac:(lia)) as [Hps Hrs]. unfold check_log_data. destruct (dec_list_alias m its _ false Hok ltac:(lia) Hps Hrs) as (node & -> & Hn & Hpn). cbn [mbind option_bind].
  destruct (dec_item its node false 3 _ Hok ltac:(lia) Hpn Hn H3) as (logs & El & Rl & Pl). change (Z.of_nat 3) with 3 in El. rewrite El. cbn [mbind option_bind item_kind Z.eqb Pos.eqb negb item_bytes] in *. pose proof (item_size _ _ _ H3) as Hs3. cbn [item_bytes] in Hs3. set (i := d_int _).
  assert (zlen (enc_items (map log_list ls)) < 2 ^ 31) as Hll by lia. destruct (Z.ltb_spec i 0) as [Hneg|Hpos].
  - rewrite (dec_negative _ _ true i Hls Hll Pl Rl) by done. cbn [mbind option_bind]. destruct (Z.eqb_spec (zlen (map log_list ls)) 2) as [E2|]; cbn [negb from_option id]; [|done]. unfold decode_to. destruct (dec m false logs 0) as [[k0 d0]|]; [|done]. cbn [mbind option_bind]. destruct (_ || _); [done|].
    rewrite (dec_none m (map log_list ls) Hls Hll logs false 2 Pl Rl) by lia. done.
  - destruct (ls !! Z.to_nat i) as [e|] eqn:Ee.
    + destruct (dec_item (map log_list ls) logs true (Z.to_nat i) (log_list e) Hls Hll Pl Rl) as (d & Ed & Rd & Pd); [by rewrite list_lookup_fmap, Ee|]. rewrite Z2Nat.id in Ed by done. rewrite Ed. cbn [mbind option_bind item_kind log_list Z.eqb Pos.eqb negb from_option id item_bytes] in *. intros Hc. exists e. split; [done|]. split; [done|].
      rewrite Forall_lookup in Hes. destruct (Hes _ _ Ee) as [Hi1 Hi2]. assert ((map log_list ls) !! Z.to_nat i = Some (log_list e)) as Hlk by (by rewrite list_lookup_fmap, Ee). pose proof (item_size _ _ _ Hlk) as Hse. cbn [item_bytes log_list] in Hse. eapply log_entry_spec; [exact Hi1|exact Hi2|lia|exact Pd|exact Rd|exact Hc].
    + rewrite (dec_none m (map log_list ls) Hls Hll logs true i Pl Rl) by (apply lookup_ge_None in Ee; rewrite length_map; lia). done.
Qed.
End Data.

(** ** What the verifier checks *)
Section Verifier.
Context `{SourceText} `{Keccak} `{Allocator} `{Ecdsa} {W : Type} (plugins : list (in3_plugin_t W)) (m : memory) (place : list Z -> slice).
Context (asked_signers : list (list Z) -> Prop) (valid : list (list Z) -> in3_vctx_t -> Prop).
Context (Hplugins : Forall (plugin_contract (RI := nano_inv asked_signers) valid) plugins).
#[local] Abbreviation nwp := (wp (RI := nano_inv asked_signers)).
#[local] Existing Instance kept_preorder.
Implicit Types (s : state W) (vc : in3_vctx_t).

(** A value, or an error. *)
Definition yields {E A} (code : E -> Z) (P : A -> Prop) s (r : E + A) s' : Prop := kept s s' /\ match r with inl e => code e = IN3_EUNKNOWN | inr a => P a end.
Lemma err_inl {E A} (code : E -> Z) (mk : Z -> E) (P : A -> Prop) msg s s1 : (forall e, code (mk e) = e) -> kept s s1 -> nwp (e ← vc_err plugins msg; mret (inl (mk e))) (yields code P s) s1.
Proof. intros Hc Hk. apply wp_bind. eapply wp_mono; [by apply (vc_err_spec plugins asked_signers valid Hplugins)|]. intros e s2 [-> Hk2]. apply wp_ret. split; [by etrans|]. apply Hc. Qed.
Lemma proved_value_spec root path proof s : nwp (proved_value m place root path proof) (fun o s' => s' = s /\ forall v, o = Some v -> proved_in m place root path proof EAny v) s.
Proof. unfold proved_value. apply wp_bind. eapply wp_mono; [apply verify_merkle_spec|]. intros [[] v] ? [-> Hp]; wp_run; (split; [done|]); [intros ? [= <-]; by apply Hp|done]. Qed.
(** A receipt of the proof: its transaction and itself, at the same index below the two roots. *)
Definition receipt_checked (number : slice) (hash : list Z) (tx_root receipt_root : slice) (receipt : jval) (r : receipt_t) : Prop := exists path txv rv, create_tx_path (rc_transaction_index r) = Some path /\
  proved_in m place tx_root path (jget (Some receipt) K_TX_PROOF) EAny txv /\ rc_tx_hash r = keccak (mem_read m (data_of txv)) /\
  proved_in m place receipt_root path (jget (Some receipt) K_PROOF) EAny rv /\ rc_data r = data_of rv /\ rc_block_number r = number /\ rc_block_hash r = hash.
Lemma receipt_entry_spec number hash tx_root receipt_root receipt s :
  nwp (verify_receipt_entry plugins m place number hash tx_root receipt_root receipt) (yields id (receipt_checked number hash tx_root receipt_root receipt) s) s.
Proof.
  unfold verify_receipt_entry. cbn zeta. apply wp_bind, wp_defined. intros path Ep. apply wp_bind. apply (wp_mono _ (yields id (fun h => exists txv, proved_in m place tx_root path (jget (Some receipt) K_TX_PROOF) EAny txv /\ h = keccak (mem_read m (data_of txv))) s)).
  { unfold verify_tx. apply wp_bind. eapply wp_mono; [apply proved_value_spec|]. intros [txv|] ? [-> Hv]; [|by apply (err_inl id id)]. case_bool_decide; cbn [negb]; [|by apply (err_inl id id)]. wp_run. split; [reflexivity|]. exists txv. auto. }
  intros [e|h] s1 [Hk Hh]; [wp_run; by split|]. destruct Hh as (txv & Htx & ->). apply wp_bind. eapply wp_mono; [apply proved_value_spec|]. intros [rv|] ? [-> Hv]; [|by apply (err_inl id id)]. wp_run. split; [done|]. exists path, txv, rv. cbn. auto 10.
Qed.
Lemma receipts_spec l_logs number hash tx_root receipt_root (all l : list jval) : forall receipts s s0 (P : receipt_t -> Prop), (forall x, x ∈ l -> x ∈ all) -> (forall r receipt, receipt ∈ all -> receipt_checked number hash tx_root receipt_root receipt r -> P r) -> Forall P receipts -> kept s0 s ->
  nwp (verify_receipts plugins m place l_logs number hash tx_root receipt_root l receipts) (yields id (Forall P) s0) s.
Proof.
  induction l as [|x l IH]; intros receipts s s0 P Hin HP Hr Hk; cbn [verify_receipts]; [wp_run; by split|]. destruct (_ =? _)%nat; [by apply (err_inl id id)|]. apply wp_bind. eapply wp_mono; [apply receipt_entry_spec|]. intros [e|r] s1 [Hk1 Hr1]; [wp_run; split; [by etrans|done]|].
  eapply IH; [intros y Hy; apply Hin; by right|done|apply Forall_app; split; [done|]; apply Forall_singleton; eapply HP; [apply Hin; left|exact Hr1]|by etrans].
Qed.
(** An item of a header, as it is read here. *)
Definition item_of (header : list Z) (i : Z) (d : slice) : Prop := exists r o, dec m true (place header) 0 = Some (r, o) /\ dec m false (default (place header) o) i = Some (1, Some d).
Lemma block_item_spec header r o i s : dec m true (place header) 0 = Some (r, o) -> nwp (block_item (W := W) m (default (place header) o) i) (fun x s' => s' = s /\ forall d, x = Some d -> item_of header i d) s.
Proof.
  intros E. unfold block_item. apply wp_bind, wp_defined. intros [k [d|]] Ed; wp_run; (split; [done|]); [|done]. destruct (Z.eqb_spec k 1) as [->|]; [|done]. intros ? [= <-]. by exists r, o.
Qed.
(** An entry of the table: one of the receipts of a block of the proof, whose header was checked. *)
Definition entry_proved ss (blocks : list (Z * jval)) (r : receipt_t) : Prop := exists k token header rs receipt number tx_root receipt_root,
  (k, token) ∈ blocks /\ default [] (d_bytes (jget (Some token) K_BLOCK)) = header /\ d_iter (jget (Some token) K_RECEIPTS) = Some rs /\ receipt ∈ rs /\ header_checked m place asked_signers ss header None /\
  item_of header BLOCKHEADER_RECEIPT_ROOT receipt_root /\ item_of header BLOCKHEADER_TRANSACTIONS_ROOT tx_root /\ item_of header BLOCKHEADER_NUMBER number /\ receipt_checked number (keccak header) tx_root receipt_root receipt r.
Lemma block_spec l_logs vc blocks receipts k token s0 s : (k, token) ∈ blocks -> Forall (entry_proved (signers (self s0)) blocks) receipts -> kept s0 s ->
  nwp (verify_block plugins m place l_logs vc receipts k token) (yields fst (Forall (entry_proved (signers (self s0)) blocks)) s0) s.
Proof.
  intros Hin Hr Hk. unfold verify_block. cbn zeta. assert (forall (db : bool) msg s1, kept s0 s1 -> nwp (e ← vc_err plugins msg; mret (inl (e, db))) (yields fst (Forall (entry_proved (signers (self s0)) blocks)) s0) s1) as Hf by (intros db msg s1 Hk1; by apply (err_inl fst (fun e => (e, db)))).
  apply wp_bind, wp_defined. intros kn _. destruct (negb _); [by apply Hf|]. set (header := default [] (d_bytes (jget (Some token) K_BLOCK))) in *. destruct (_ =? 0)%nat; [by apply Hf|]. apply wp_bind. eapply wp_mono; [by apply (eth_verify_blockheader_spec plugins m place asked_signers valid Hplugins)|]. intros [e db] s1 (Hk1 & He & Hhd). cbn [fst snd] in *. assert (kept s0 s1) as Hk01 by (by etrans).
  destruct He as [-> | ->]; [|by apply Hf]. change (IN3_OK <? 0) with false. destruct (Hhd eq_refl) as (hd & [= <-] & Hc). cbn iota. destruct (length receipts =? l_logs)%nat; [apply wp_undef|]. apply wp_bind, wp_defined. intros [r o] Eo. cbn [snd].
  apply wp_bind. eapply wp_mono; [by eapply block_item_spec|]. intros [rr|] ? [-> Hrr]; [|by apply Hf]. apply wp_bind. eapply wp_mono; [by eapply block_item_spec|]. intros [tr|] ? [-> Htr]; [|by apply Hf]. apply wp_bind. eapply wp_mono; [by eapply block_item_spec|]. intros [nr|] ? [-> Hnr]; [|by apply Hf].
  apply wp_bind, wp_defined. intros rs Ers. apply wp_bind. eapply wp_mono; [eapply (receipts_spec _ _ _ _ _ rs); [done| |exact Hr|exact Hk01]|].
  - intros r1 receipt Hrin Hrc. exists k, token, header, rs, receipt, nr, tr, rr. split_and!; try done; [|by apply Hrr|by apply Htr|by apply Hnr]. rewrite <- (sd_signers _ _ Hk). exact Hc.
  - intros [e|rc] s2 [Hk2 Hrc]; wp_run; by split.
Qed.
Lemma blocks_spec l_logs vc blocks l : forall receipts s0 s, (forall x, x ∈ l -> x ∈ blocks) -> Forall (entry_proved (signers (self s0)) blocks) receipts -> kept s0 s ->
  nwp (verify_blocks plugins m place l_logs vc l receipts) (yields fst (Forall (entry_proved (signers (self s0)) blocks)) s0) s.
Proof.
  induction l as [|[k token] l IH]; intros receipts s0 s Hin Hr Hk; cbn [verify_blocks]; [wp_run; by split|]. apply wp_bind. eapply wp_mono; [eapply block_spec; [apply Hin; left|exact Hr|exact Hk]|]. intros [e|rc] s1 [Hk1 Hrc]; [wp_run; by split|]. apply IH; [intros x Hx; apply Hin; by right|done|done].
Qed.
(** A log of the result: it is in the receipt of an entry, at its place, and matches the filter. *)
Definition log_checked vc (receipts : list receipt_t) (log : jval) : Prop := exists r, r ∈ receipts /\ rc_tx_hash r = default [] (d_bytes (jget (Some log) K_TRANSACTION_HASH)) /\ check_log_data m r log = Some None /\
  d_long (jget (Some log) K_BLOCK_NUMBER) = slice_number m (rc_block_number r) /\ default [] (d_bytes (d_getl (Some log) K_BLOCK_HASH 32)) = rc_block_hash r /\ u32 (d_int (jget (Some log) K_TRANSACTION_INDEX)) = rc_transaction_index r /\
  matches_filter (vc_request vc) (default [] (d_bytes (d_getl (Some log) K_ADDRESS 20))) (d_long (jget (Some log) K_BLOCK_NUMBER)) (default [] (d_bytes (d_getl (Some log) K_BLOCK_HASH 32))) (log_topics log) = true.
Lemma place_none vc r log prev last : check_log_place m vc r log prev last = Some None ->
  d_long (jget (Some log) K_BLOCK_NUMBER) = slice_number m (rc_block_number r) /\ default [] (d_bytes (d_getl (Some log) K_BLOCK_HASH 32)) = rc_block_hash r /\ u32 (d_int (jget (Some log) K_TRANSACTION_INDEX)) = rc_transaction_index r /\
  matches_filter (vc_request vc) (default [] (d_bytes (d_getl (Some log) K_ADDRESS 20))) (d_long (jget (Some log) K_BLOCK_NUMBER)) (default [] (d_bytes (d_getl (Some log) K_BLOCK_HASH 32))) (log_topics log) = true.
Proof.
  unfold check_log_place. cbn zeta. destruct (Z.eqb_spec (d_long (jget (Some log) K_BLOCK_NUMBER)) (bytes_to_long (mem_read m (rc_block_number r)) (s_len (rc_block_number r)))) as [E1|]; cbn [negb]; [|done]. case_bool_decide as E2; cbn [negb]; [|done]. destruct (negb (_ =? 0)); [done|].
  destruct (Z.eqb_spec (u32 (d_int (jget (Some log) K_TRANSACTION_INDEX))) (rc_transaction_index r)) as [E3|]; cbn [negb]; [|done]. destruct (matches_filter _ _ _ _ _) eqn:E4; cbn [negb]; [|done]. done.
Qed.
Lemma find_receipt_some l_logs receipts h r : find_receipt l_logs receipts h = Some (Some r) -> r ∈ receipts /\ rc_tx_hash r = h.
Proof.
  unfold find_receipt. destruct (find _ receipts) as [x|] eqn:Ef; [|by destruct (_ <? _)%nat]. intros [= ->]. apply find_some in Ef as [Hin E]. apply bool_decide_eq_true in E. split; [by apply list_elem_of_In|done].
Qed.
Lemma result_spec l_logs vc receipts l : forall prev s0 s, kept s0 s -> nwp (check_result plugins m l_logs vc receipts prev l) (judged (Forall (log_checked vc receipts) l) s0) s.
Proof.
  assert (forall P msg s0 s, kept s0 s -> nwp (vc_err plugins msg) (judged P s0) s) as Hf by (intros; by apply (fail_judged plugins asked_signers valid Hplugins)).
  induction l as [|log l IH]; intros prev s0 s Hk; cbn [check_result]; [wp_run; split; [done|]; split; [by left|constructor]|]. apply wp_bind, wp_defined. intros [r|] Er; [|by apply Hf]. apply find_receipt_some in Er as [Hr Eh]. apply wp_bind, wp_defined. intros [msg|] Ed; [by apply Hf|].
  cbn zeta. apply wp_bind, wp_defined. intros [msg|] Ep; [by apply Hf|]. apply place_none in Ep. eapply wp_mono; [by apply IH|]. intros e s1 (Hk1 & He & HP). split; [done|]. split; [done|]. intros E. constructor; [|auto]. by exists r.
Qed.
Definition logs_proved ss vc : Prop := forall logs, vc_result vc = Some (JArray logs) -> logs <> [] -> exists blocks receipts, children (jget (vc_proof vc) K_LOG_PROOF) = Some blocks /\ Forall (entry_proved ss blocks) receipts /\ Forall (log_checked vc receipts) logs.
Lemma getLog_spec vc s : nwp (eth_verify_eth_getLog plugins m place vc) (fun r s' => judged (logs_proved (signers (self s)) vc) s r.1 s') s.
Proof.
  assert (forall msg, nwp (e ← vc_err plugins msg; mret (e, vc_dont_blacklist vc)) (fun r s' => judged (logs_proved (signers (self s)) vc) s r.1 s') s) as Hf.
  { intros msg. apply wp_bind. eapply wp_mono; [by apply (vc_err_spec plugins asked_signers valid Hplugins)|]. intros e s1 [-> Hk]. wp_run. split; [done|]. split; [by right|done]. }
  unfold eth_verify_eth_getLog. destruct (vc_result vc) as [[]|] eqn:Er; try by apply Hf. cbn zeta. destruct vs as [|v vs]; cbn [length Nat.eqb]; [wp_run; split; [reflexivity|]; split; [by left|]; intros _; unfold logs_proved; rewrite Er; by intros logs [= <-] Hne|].
  destruct (vc_proof vc) as [proof|] eqn:Ep; [|by apply Hf]. destruct (_ <? _); [by apply Hf|]. apply wp_bind, wp_defined. intros blocks Eb. apply wp_bind. eapply wp_mono; [by apply (blocks_spec _ _ blocks blocks [] s s)|]. intros [[e db]|receipts] s1 [Hk1 Hrc]; [wp_run; split; [done|]; cbn [fst] in *; subst e; split; [by right|done]|].
  apply wp_bind. eapply wp_mono; [by apply result_spec|]. intros e s2 (Hk2 & He & HP). wp_run. split; [done|]. split; [done|]. cbn [fst]. intros E logs El _. rewrite Er in El. injection El as <-. exists blocks, receipts. rewrite Ep. auto.
Qed.
End Verifier.

(** ** Logs of the chain *)
Section Authentic.
Context `{Keccak} `{Allocator} `{Ecdsa} (m : memory) (place : list Z -> slice) (asked_signers : list (list Z) -> Prop) (chain : Z -> option NanoSafety.block).
Lemma same_slice (d d' : slice) : placed d -> placed d' -> mem_read m d = mem_read m d' -> s_data d + s_len d = s_data d' + s_len d' -> d = d'.
Proof. intros (_ & L & _) (_ & L' & _) E End. apply (f_equal length) in E. rewrite !length_mem_read in E. destruct d, d'. cbn in *. f_equal; lia. Qed.
(** Whether destination and source are the same does not matter for a list. *)
Lemma dec_alias its node n it d : Forall item_ok its -> zlen (enc_items its) < 2 ^ 31 -> placed node -> mem_read m node = enc_items its -> its !! n = Some it -> forall a a', dec m a node (Z.of_nat n) = Some (item_kind it, Some d) -> dec m a' node (Z.of_nat n) = Some (item_kind it, Some d).
Proof.
  intros Hok Hl Hp Hr Hn a a' E. destruct (dec_nth_end m its Hok Hl node a n it Hp Hr Hn) as (d1 & E1 & R1 & P1 & N1), (dec_nth_end m its Hok Hl node a' n it Hp Hr Hn) as (d2 & E2 & R2 & P2 & N2). rewrite E in E1. injection E1 as <-. rewrite E2. do 2 f_equal. apply (f_equal Some), same_slice; [done|done|congruence|congruence].
Qed.
(** The content of a list, whatever the flag. *)
Lemma dec_outer c raw a : bytes_ok c -> zlen c < 2 ^ 31 -> placed raw -> mem_read m raw = rlp_list c -> exists node, dec m a raw 0 = Some (2, Some node) /\ mem_read m node = c /\ placed node /\ s_data node + s_len node = s_data raw + zlen (rlp_list c).
Proof.
  intros Hb Hl (P1 & P2 & P3) Hr. assert (enc_items [Lst c] = rlp_list c) as Ec by (unfold enc_items; cbn [map concat enc_item]; apply app_nil_r). apply mem_read_at in Hr as [L1 M1]; [|done]. rewrite <- Ec in L1, M1.
  destruct (decode_item_end m a raw [Lst c] 0 (Lst c)) as (d & Hd & D1 & D2 & D3 & D4); [repeat constructor; done|done|done|done|lia|done|done|]. change (Z.of_nat 0) with 0 in Hd. exists d. unfold dec. rewrite Hd. split; [done|]. destruct D3. cbn [item_bytes] in *. split; [apply mem_read_at; [lia|done]|]. split; [split; lia|]. cbn [take] in D4. by rewrite Ec in D4.
Qed.
Lemma item_of_at b i d : in_memory m place (b_header b) -> header_ok b -> 0 <= i -> item_of m place (b_header b) i d -> item_at m place (b_header b) i d.
Proof.
  intros [Hp Hr] [Hok Hl] Hi (r & o & E0 & Ed). set (c := enc_items (b_items b)) in *. assert (bytes_ok c) as Hc by (by apply enc_items_bytes_ok).
  destruct (dec_outer c _ true Hc Hl Hp Hr) as (n1 & E1 & R1 & P1 & N1), (dec_outer c _ false Hc Hl Hp Hr) as (n2 & E2 & R2 & P2 & N2). assert (n2 = n1) as -> by (apply same_slice; congruence). rewrite E0 in E1. injection E1 as -> ->. cbn [from_option id] in Ed.
  unfold item_at, rlp_decode_in_list. unfold dec in E2. destruct (rlp_decode m false (place (b_header b)) 0) as [k o| |]; [|done..]. injection E2 as -> ->. cbn [negb Z.eqb Pos.eqb].
  destruct (b_items b !! Z.to_nat i) as [it|] eqn:Hit.
  - destruct (dec_nth m (b_items b) Hok Hl n1 false (Z.to_nat i) it P1 R1 Hit) as (d1 & Ed1 & _). rewrite Z2Nat.id in Ed1 by done. rewrite Ed in Ed1. injection Ed1 as Hk <-. assert (dec m true n1 (Z.of_nat (Z.to_nat i)) = Some (item_kind it, Some d)) as Ea by (apply (dec_alias _ _ _ _ _ Hok Hl P1 R1 Hit false); rewrite Z2Nat.id by done; congruence).
    rewrite Z2Nat.id in Ea by done. unfold dec in Ea. destruct (rlp_decode m true n1 i) as [k o| |]; [|done..]. injection Ea as -> ->. by rewrite <- Hk.
  - apply lookup_ge_None in Hit. rewrite (dec_none m (b_items b) Hok Hl n1 false i P1 R1) in Ed by lia. done.
Qed.
(** What the client cannot see to: headers and proofs lie in memory and contain no collision with a block. *)
Definition log_fair (vc : in3_vctx_t) (b : NanoSafety.block) : Prop := forall blocks k token, children (jget (vc_proof vc) K_LOG_PROOF) = Some blocks -> (k, token) ∈ blocks ->
  let header := default [] (d_bytes (jget (Some token) K_BLOCK)) in (in_memory m place header /\ (keccak header = keccak (b_header b) -> header = b_header b)) /\
  forall rs receipt, d_iter (jget (Some token) K_RECEIPTS) = Some rs -> receipt ∈ rs -> nodes_fair m place (jget (Some receipt) K_TX_PROOF) (b_txs b) /\ nodes_fair m place (jget (Some receipt) K_PROOF) (b_receipts b).
(** No header of the proof is the one of the genesis block. *)
Definition no_genesis (vc : in3_vctx_t) : Prop := forall blocks k token d, children (jget (vc_proof vc) K_LOG_PROOF) = Some blocks -> (k, token) ∈ blocks -> item_at m place (default [] (d_bytes (jget (Some token) K_BLOCK))) BLOCKHEADER_NUMBER d -> slice_number m d <> 0.

Lemma dec_empty d a i : s_len d <= 0 -> dec m a d i = Some (if i <? 0 then if 0 =? s_len d then 0 else -3 else if s_len d <? 0 then -1 else 0, None).
Proof. intros Hl. unfold dec, rlp_decode. cbn [rlp_loop]. rewrite (proj2 (Z.ltb_ge 0 (s_len d))) by lia. done. Qed.
(** A receipt in which a log was found is not empty. *)
Lemma log_data_nonempty r log : check_log_data m r log = Some None -> mem_read m (rc_data r) <> [].
Proof.
  intros Hc E. apply (f_equal length) in E. rewrite length_mem_read in E. cbn [length] in E. unfold check_log_data in Hc. assert (s_len (skip_envelope m (rc_data r)) <= 0) as Hl by (unfold skip_envelope; destruct (_ && _); cbn [s_len]; lia). by rewrite dec_empty in Hc.
Qed.
(** A value that was proved below the root of a header. *)
Lemma proved_found b i t root path proof s : in_memory m place (b_header b) -> header_ok b -> root_is b i t -> 0 <= i -> item_at m place (b_header b) i root -> nodes_fair m place proof t -> bytes_ok path ->
  proved_in m place root path proof EAny (Some s) -> mem_read m s <> [] -> length (mem_read m s) <> 32%nat -> has_value t (nibs path) (mem_read m s) /\ placed s.
Proof.
  intros Hmem [Hit Hlen] Hroot Hpos Hitem Hfair Hpath (l & El & Ev) Hv0 Hv32. rewrite (root_read m place b i t root) in Ev by done. specialize (Hfair l El).
  eapply proof_found; [apply Hroot|exact Hpath| | |exact Hv0|exact Hv32|exact Ev]; apply Forall_fmap; (eapply Forall_impl; [exact Hfair|]); cbn; intros x [[Hp Hr] Hn]; [done|by rewrite Hr].
Qed.

(** A value that the response proves as the receipt of a log. *)
Definition receipt_value (vc : in3_vctx_t) (log : jval) (v : list Z) : Prop := exists blocks k token rs receipt root d,
  children (jget (vc_proof vc) K_LOG_PROOF) = Some blocks /\ (k, token) ∈ blocks /\ d_iter (jget (Some token) K_RECEIPTS) = Some rs /\ receipt ∈ rs /\
  item_at m place (default [] (d_bytes (jget (Some token) K_BLOCK))) BLOCKHEADER_RECEIPT_ROOT root /\
  proved_in m place root (index_key (u32 (d_int (jget (Some log) K_TRANSACTION_INDEX)))) (jget (Some receipt) K_PROOF) EAny (Some d) /\ v = mem_read m d.

(** C10. Logs that [eth_verify_eth_getLog] accepts are authentic.  Let the plugins keep their
    contract ([plugin_contract]) and the client ask for proofs.  Assume that the request asks for signatures, that each set of signers the client asks contains an honest one, and
    that nothing in the proof collides with the blocks of the chain, whose receipts have logs and whose tries have no node of less than 32 bytes.  Then each log of a
    result of eth_getLogs is the one with its index in the receipt of the transaction with its hash, at its index
    in the block with its number and its hash: the address, the topics and the data are those of the receipt.  It
    matches the filter of the request.  (Excluded are transactions of 32 bytes and responses that prove a receipt of 32 bytes, which a
    reference in the trie could be taken for, and proofs with the genesis block.) *)
Theorem logs_authentic `{SourceText} {W : Type} (plugins : list (in3_plugin_t W)) valid vc logs log s db s' :
  Forall (plugin_contract (RI := nano_inv asked_signers) valid) plugins -> state_inv (RI := nano_inv asked_signers) s ->
  eth_verify_eth_getLog plugins m place vc s = Ok (IN3_OK, db) s' ->
  (forall sgs, asked_signers sgs -> exists a, a ∈ sgs /\ honest chain a) -> (forall n b, chain n = Some b -> block_ok b /\ log_fair vc b /\ forall k raw, has_value (b_receipts b) k raw -> exists ls, receipt_with raw ls) ->
  signers (self s) <> [] -> no_genesis vc -> vc_result vc = Some (JArray logs) -> log ∈ logs -> (forall tx, keccak tx = default [] (d_bytes (jget (Some log) K_TRANSACTION_HASH)) -> tx <> [] /\ length tx <> 32%nat) -> (forall v, receipt_value vc log v -> length v <> 32%nat) ->
  exists b tx raw, let key := nibs (index_key (u32 (d_int (jget (Some log) K_TRANSACTION_INDEX)))) in
    chain (u64 (d_long (jget (Some log) K_BLOCK_NUMBER))) = Some b /\ default [] (d_bytes (d_getl (Some log) K_BLOCK_HASH 32)) = keccak (b_header b) /\ keccak tx = default [] (d_bytes (jget (Some log) K_TRANSACTION_HASH)) /\ has_value (b_txs b) key tx /\
    has_value (b_receipts b) key raw /\ exists ls e, receipt_with raw ls /\ ls !! Z.to_nat (d_int (jget (Some log) K_TRANSACTION_LOG_INDEX)) = Some e /\ log_is log e /\
      matches_filter (vc_request vc) (le_address e) (d_long (jget (Some log) K_BLOCK_NUMBER)) (keccak (b_header b)) (log_topics log) = true.
Proof.
  intros Hp Hi Erun Hhon Hchain Hss Hgen Er Hin Htx Hrv. destruct (wp_ok _ _ _ _ _ (getLog_spec plugins m place asked_signers valid Hp vc s) Hi Erun) as (_ & _ & HP). pose proof (HP eq_refl) as Hproved. clear HP. destruct (Hproved logs Er) as (blocks & receipts & Eb & Hents & Hlogs); [by intros ->; apply elem_of_nil in Hin|]. rewrite Forall_forall in Hlogs. rewrite Forall_forall in Hents. destruct (Hlogs log Hin) as (r & Hr & Eh & Hdata & Hnum & Hhash & Hidx & Hfilter).
  destruct (Hents r Hr) as (k & token & header & rs & receipt & number & tx_root & receipt_root & Htok & Ehd & Ers & Hrs & Hh & Hrr & Htr & Hnr & (path & txv & rv & Ep & Hptx & Etx & Hprc & Erd & Ern & Erh)). pose proof Hh as (d & Hd & _).
  destruct (checked_block m place _ _ _ _ _ _ Hhon Hss Hh Hd) as (b & Hb & Ekb); [subst header; by eapply Hgen|]. destruct (Hchain _ _ Hb) as (Hok & Hfair & Hrcs). destruct (Hfair blocks k token Eb Htok) as [[Hmem Heq] Hnodes]. rewrite Ehd in Hmem, Heq. specialize (Heq (eq_sym Ekb)). subst header. rewrite Heq in *. destruct (Hnodes rs receipt Ers Hrs) as [Hft Hfr]. pose proof (block_header_ok _ Hok) as Hhok. pose proof Hok as (_ & _ & Hrt & Hrrt).
  apply (item_of_at b) in Hrr, Htr, Hnr; try done. assert (number = d) as -> by (unfold item_at in *; congruence). destruct (create_tx_path_spec (rc_transaction_index r)) as [Ep' Hbp]. rewrite Ep in Ep'. injection Ep' as ->.
  destruct (Htx (mem_read m (data_of txv))) as [Htx0 Htx32]; [congruence|]. destruct txv as [txs|]; [|done]. pose proof (log_data_nonempty r log Hdata) as Hr0. rewrite Erd in Hr0. destruct rv as [rs0|]; [|done]. cbn [data_of from_option id] in *.
  assert (length (mem_read m rs0) <> 32%nat) as Hr32.
  { apply Hrv. exists blocks, k, token, rs, receipt, receipt_root, rs0. rewrite Hidx, Heq. by split_and!. }
  exists b, (mem_read m txs), (mem_read m rs0). cbn zeta. rewrite Hidx, Hnum, Ern, Hhash, Erh. destruct (proved_found b _ _ tx_root _ _ txs Hmem Hhok Hrt ltac:(done) Htr Hft Hbp Hptx Htx0 Htx32) as [Hvt _].
  destruct (proved_found b _ _ receipt_root _ _ rs0 Hmem Hhok Hrrt ltac:(done) Hrr Hfr Hbp Hprc Hr0 Hr32) as [Hvr Hpl]. split_and!; try done; [congruence|].
  destruct (Hrcs _ _ Hvr) as (ls & Hls). destruct (log_data_spec m r log (mem_read m rs0) ls) as (e & Hpos & Hle & Hlog); [by rewrite Erd|by rewrite Erd|done|done|].
  exists ls, e. split_and!; try done. destruct Hlog as (-> & _). by rewrite Hnum, Ern, Hhash, Erh in Hfilter.
Qed.
End Authentic.

(** ** A block with one log

    The hash is a checksum, except for the message of the signer and for the transaction. *)
Module LogSample.
#[local] Existing Instance no_text.
#[local] Existing Instance debug_allocator.
Definition sum (l : list Z) : list Z := 3 :: be_bytes 31 (fold_left (fun acc b => (acc * 257 + b + 1) mod 2 ^ 248) l 1).
Definition tx_bytes : list Z := replicate 40 7.
Definition tx_hash : list Z := 2 :: replicate 31 0.
Definition msg_hash : list Z := 1 :: replicate 31 0.
Definition key0 : list Z := [8; 0].
Definition entry : log_entry := mk_log (replicate 20 3) [replicate 32 4; replicate 32 5] [6; 7; 8].
Definition receipt_items : list rlp_item := [Str [1]; Str [2]; Str (replicate 8 0); Lst (enc_items (map log_list [entry]))].
Definition receipt_bytes : list Z := Eval vm_compute in typed 2 (rlp_list (enc_items receipt_items)).
Definition leaf (v : list Z) : list Z := rlp_list (enc_items [Str (hex_prefix key0 true); Str v]).
Definition tx_node : list Z := Eval vm_compute in leaf tx_bytes.
Definition receipt_node : list Z := Eval vm_compute in leaf receipt_bytes.
Definition items : list rlp_item := [Str []; Str []; Str []; Str []; Str (sum tx_node); Str (sum receipt_node); Str []; Str []; Str [5]; Str []; Str []; Str []; Str []; Str []; Str []].
Definition header : list Z := Eval vm_compute in rlp_list (enc_items items).
Definition registry_id : list Z := replicate 32 9.
Definition message : list Z := Eval vm_compute in signed_message 2 (sum header) 5 registry_id.
#[local] Instance hash : Keccak.
Proof.
  refine {| keccak l := if bool_decide (l = message) then msg_hash else if bool_decide (l = tx_bytes) then tx_hash else sum l |}.
  - intros l. repeat case_bool_decide; [done..|]. unfold sum. cbn [length]. by rewrite length_be_bytes.
  - intros l. repeat case_bool_decide; [decide_now..|]. constructor; [decide_now|apply be_bytes_ok].
Defined.
#[local] Instance ecdsa : Ecdsa := {| crypto_recover h _ := if bool_decide (h = msg_hash) then Some (replicate 64 5) else None |}.
Definition signer : list Z := Eval vm_compute in take 20 (drop 12 (keccak (replicate 64 5))).
Definition asked (sgs : list (list Z)) : Prop := sgs = [signer].
Definition blocks : list (list Z) := [header; tx_node; receipt_node].
Definition mem : memory := mem_of (concat blocks).
Definition place : list Z -> slice := place_in blocks 0.
Definition blk : NanoSafety.block := mk_block items (Leaf key0 tx_bytes) (Leaf key0 receipt_bytes).
Definition chain (n : Z) : option NanoSafety.block := if n =? 5 then Some blk else None.
Definition sig : jval := JObject [(K_BLOCK, JInt 5); (K_BLOCK_HASH, JBytes (sum header)); (K_R, JBytes (replicate 32 1)); (K_S, JBytes (replicate 32 2)); (K_V, JInt 27)].
Definition receipt : jval := JObject [(K_TX_HASH, JBytes tx_hash); (K_TX_INDEX, JInt 0); (K_TX_PROOF, JArray [JBytes tx_node]); (K_PROOF, JArray [JBytes receipt_node])].
Definition token : jval := JObject [(K_NUMBER, JInt 5); (K_BLOCK, JBytes header); (K_RECEIPTS, JObject [(key "r", receipt)])].
Definition proof : jval := JObject [(K_LOG_PROOF, JObject [(key "0x05", token)]); (K_SIGNATURES, JArray [sig])].
Definition log : jval :=
  JObject [(K_BLOCK_NUMBER, JInt 5); (K_BLOCK_HASH, JBytes (sum header)); (K_TRANSACTION_HASH, JBytes tx_hash); (K_TRANSACTION_INDEX, JInt 0); (K_TRANSACTION_LOG_INDEX, JInt 0); (K_ADDRESS, JBytes (replicate 20 3));
           (K_TOPICS, JArray [JBytes (replicate 32 4); JBytes (replicate 32 5)]); (K_DATA, JBytes [6; 7; 8]); (K_REMOVED, JBool false)].
Definition eth : in3_chain_t := mk_chain 1 CHAIN_ETH 2 None.
(** A filter for the address, the second topic and the blocks from number 4 on. *)
Definition filter : jval := JObject [(K_ADDRESS, JArray [JBytes (replicate 20 9); JBytes (replicate 20 3)]); (K_TOPICS, JArray [JNull; JBytes (replicate 32 5)]); (K_FROM_BLOCK, JInt 4); (K_TO_BLOCK, JString (str "latest"))].
Definition request : jval := JObject [(K_METHOD, JString (str "eth_getLogs")); (K_PARAMS, JArray [filter])].
Definition vc : in3_vctx_t := mk_vctx eth request (Some (JArray [log])) (Some proof) (Some 0) (Some 6) 0 (Some (str "eth_getLogs")) node1 false.
Definition before : state unit := mk_state (mk_req 1 RT_RPC 0 IN3_WAITING None None (Some []) Null Null (Some []) [signer] [node1] []) [] (mk_client [eth] 5 0 PROOF_STANDARD 0 0 1 0 0 0) tt.
Lemma logs_accepted : exists s', eth_verify_eth_getLog [answering registry_id] mem place vc before = Ok (IN3_OK, false) s'.
Proof. eexists. vm_compute. reflexivity. Qed.
Lemma log_before_ok : state_inv (RI := nano_inv asked) before.
Proof. split; [|split; [by right|constructor]]. split; [|done]. constructor; [done|constructor]. Qed.
Lemma log_signer : honest chain signer.
Proof.
  apply (honest_of_message chain signer msg_hash blk 5 registry_id); [|intros l; cbn [keccak hash]; case_bool_decide as E; [intros _; rewrite E; vm_compute; reflexivity|case_bool_decide; done]|done].
  intros h sg pub E _. cbn [crypto_recover ecdsa] in E. by case_bool_decide.
Qed.
Lemma log_in_memory l : l ∈ blocks -> in_memory mem place l.
Proof. apply placed_in. vm_compute. reflexivity. Qed.
Lemma log_proof_fair : log_fair mem place vc blk.
Proof.
  intros bs k t [= <-] [= -> ->]%list_elem_of_singleton. split; [split; [apply log_in_memory; left|intros _; vm_compute; reflexivity]|]. intros rs r [= <-] ->%list_elem_of_singleton. split.
  - apply (proof_nodes_fair mem place _ [tx_node]), Forall_singleton. split; [apply log_in_memory; right; left|apply (trie_no_collision _ [tx_node]); [vm_compute; reflexivity..|left]].
  - apply (proof_nodes_fair mem place _ [receipt_node]), Forall_singleton. split; [apply log_in_memory; right; right; left|apply (trie_no_collision _ [receipt_node]); [vm_compute; reflexivity..|left]].
Qed.
Lemma log_receipt : receipt_with receipt_bytes [entry].
Proof. exists 2, receipt_items. split; [lia|]. split; [vm_compute; reflexivity|]. split; [by vm_compute|]. split; [decide_now|]. split; [done|]. split; [decide_now|]. constructor; [|constructor]. split; decide_now. Qed.
Lemma sample_receipt v : receipt_value mem place vc log v -> length v <> 32%nat.
Proof.
  intros (bs & k & t & rs & r & root & d & [= <-] & Hk & Ers & Hr & Hroot & (l & El & Ev) & ->). apply list_elem_of_singleton in Hk. injection Hk as -> ->. injection Ers as <-. apply list_elem_of_singleton in Hr as ->. injection El as <-.
  unfold item_at in Hroot. vm_compute in Hroot. injection Hroot as <-. vm_compute in Ev. injection Ev as <-. vm_compute. discriminate.
Qed.
End LogSample.

#[local] Existing Instance no_text.
#[local] Existing Instance debug_allocator.
#[local] Existing Instance LogSample.hash.
#[local] Existing Instance LogSample.ecdsa.
Lemma logs_authentic_witness : has_value (b_txs LogSample.blk) LogSample.key0 LogSample.tx_bytes.
Proof.
  destruct LogSample.logs_accepted as [s' Erun].
  destruct (logs_authentic LogSample.mem LogSample.place LogSample.asked LogSample.chain [answering LogSample.registry_id] (fun _ _ => True) LogSample.vc [LogSample.log] LogSample.log LogSample.before false s') as (b & tx & raw & Hb & _ & Ek & Hv & _).
  - apply answering_plugins.
  - apply LogSample.log_before_ok.
  - exact Erun.
  - intros sgs ->. exists LogSample.signer. split; [by left|apply LogSample.log_signer].
  - intros n b Hn. unfold LogSample.chain in Hn. destruct (n =? 5); [|done]. injection Hn as <-. split; [split; [decide_now|split; [by vm_compute|split; split; vm_compute; reflexivity]]|]. split; [apply LogSample.log_proof_fair|]. intros k raw Hv. inversion Hv; subst. exists [LogSample.entry]. apply LogSample.log_receipt.
  - discriminate.
  - intros bs k t d [= <-] [= -> ->]%list_elem_of_singleton Hd. unfold item_at in Hd. vm_compute in Hd. injection Hd as <-. vm_compute. discriminate.
  - reflexivity.
  - left.
  - intros tx. cbn [keccak LogSample.hash]. case_bool_decide; [done|]. case_bool_decide as E; [rewrite E; intros _; split; discriminate|done].
  - apply LogSample.sample_receipt.
  - injection Hb as <-. cbn [keccak LogSample.hash] in Ek. case_bool_decide; [done|]. case_bool_decide as E; [|done]. rewrite E in Hv. exact Hv.
Defined.
