(* ===== verification/BasicEth.v ===== *)
(** * verifier/eth1/basic/eth_basic.c, filter.c: the verifier of a request, and filters

    [in3_verify_eth_basic] chooses the verifier by the method of the request.  A filter is kept in a
    table of the plugin, whose free places are used again; the table is an argument and a result of the
    operations. *)
From S2P Require Import Prelude Utils Bytes Rlp Merkle Data Json JsonVal ReqState Request ReqNew Serialize Nano NodeData BasicAccount BasicTx Trie BasicBlock BasicLog.
From stdpp Require Import strings.
#[local] Open Scope Z_scope.

(** ** The options of a filter (filter.c) *)
Definition filter_addrs_valid (addr : jval) : bool :=
  (length (default [] (d_bytes (Some addr))) =? 20)%nat ||
  match addr with JArray l => forallb (fun t => (length (default [] (d_bytes (Some t))) =? 20)%nat) l | _ => false end.
Definition is_topic (t : jval) : bool := d_is_bytes t && (length (default [] (d_bytes (Some t))) =? 32)%nat.
Definition is_topic_or_null (t : jval) : bool := is_topic t || match t with JNull => true | _ => false end.
Definition filter_topics_valid (topics : jval) : bool :=
  match topics with
  | JArray l => forallb (fun t => is_topic_or_null t || match t with JArray alt => forallb is_topic_or_null alt | _ => false end) l
  | _ => false
  end.
(** A number, or a name of a block. *)
Definition block_valid (blk : option jval) : bool :=
  match norm <$> blk with
  | None | Some (JInt _) | Some (JBytes _) => true
  | Some (JString l) => bool_decide (cstr l ∈ [str "latest"; str "earliest"; str "pending"])
  | Some _ => false
  end.
Definition filter_opt_valid (tx_params : option jval) : bool :=
  let frmblk := jget tx_params K_FROM_BLOCK in
  let toblk := jget tx_params K_TO_BLOCK in
  if negb (block_valid frmblk) then false
  else if negb (block_valid toblk) then false
  else if negb (match d_getl tx_params K_BLOCK_HASH 32 with
                | None => true
                | Some (JBytes h) => (length h =? 32)%nat && bool_decide (frmblk = None) && bool_decide (toblk = None)
                | Some _ => false
                end) then false
  else if negb (match d_getl tx_params K_ADDRESS 20 with None => true | Some addrs => filter_addrs_valid addrs end) then false
  else match jget tx_params K_TOPICS with None => true | Some topics => filter_topics_valid topics end.

(** ** The table of filters *)
Inductive in3_filter_type_t := FILTER_EVENT | FILTER_BLOCK | FILTER_PENDING.
Record in3_filter_t := mk_filter { f_is_first_usage : bool; f_type : in3_filter_type_t; f_last_block : Z; f_options : option (list Z) }.
(** The array of the handler: removed filters leave NULL.  The first free place, or a new one behind; the id is
    the place from 1 on. *)
Fixpoint insert_filter (filters : list (option in3_filter_t)) (f : in3_filter_t) : list (option in3_filter_t) * Z :=
  match filters with
  | [] => ([Some f], 1)
  | None :: t => (Some f :: t, 1)
  | x :: t => let '(t', id) := insert_filter t f in (x :: t', id + 1)
  end.
Definition filter_remove (filters : list (option in3_filter_t)) (id : Z) : list (option in3_filter_t) * bool :=
  if (id =? 0) || (zlen filters <? id) then (filters, false)
  else
    match filters !! Z.to_nat (id - 1) with
    | Some (Some _) => (<[Z.to_nat (id - 1) := None]> filters, true)
    | _ => (filters, false)
    end.

Section Basic.
Context `{SourceText} `{Keccak} `{Allocator} `{Ecdsa} {W : Type} (plugins : list (in3_plugin_t W)) (m : memory) (place : list Z -> slice).
#[local] Abbreviation st := (state W).
#[local] Abbreviation vc_err := (vc_err plugins).

(** [req_get_error(ctx, 0)] on the request itself. *)
Definition req_get_error : M st Z :=
  e ← field r_error;
  match e with
  | Some _ => mret IN3_ERPC
  | None =>
      l ← field requests;
      match l with
      | Some (_ :: _) =>
          rs ← field responses;
          match rs with
          | Live (r :: _) => mret (match jget (Some r) K_RESULT, jget (Some r) K_ERROR with Some _, None => IN3_OK | _, _ => IN3_EINVALDT end)
          | Live [] | Null => mret IN3_ERPCNRES
          | Freed => undef
          end
      | _ => mret IN3_EINVAL
      end
  end.
(** The error of a request, or a text, and its state, or IN3_ERPC. *)
Definition report_failed (msg : string) (code : option Z) : M st Z :=
  e ← field r_error;
  v ← field verification_state;
  req_set_error plugins (Some (default (str msg) e)) (default (if v =? 0 then IN3_ERPC else v) code).
(** The number of the latest block, by a request of its own: [inl] is a return code. *)
Definition current_block (max_attempts : Z) (fuel : nat) : M st (Z + Z) :=
  i ← req_find_required "eth_blockNumber";
  match i with
  | None =>
      ctx ← req_new plugins (quoted "{'method':'eth_blockNumber','params':[]}");
      ctx ← defined ctx;
      r ← req_add_required plugins max_attempts fuel ctx;
      mret (inl r)
  | Some i =>
      q ← required_state i;
      match q with
      | REQ_ERROR => e ← on_required_at i (report_failed "Error fetching the blocknumber" None); mret (inl e)
      | REQ_WAITING_FOR_RESPONSE | REQ_WAITING_TO_SEND => mret (inl IN3_WAITING)
      | REQ_SUCCESS =>
          res ← on_required_at i req_get_error;
          if negb (res =? IN3_OK) then e ← on_required_at i (report_failed "Error fetching the blocknumber" (Some res)); mret (inl e)
          else
            resp ← on_required_at i (response_at 0);
            r ← req_remove_required i false;
            if r <? 0 then mret (inl r) else mret (inr (d_long (jget (Some resp) K_RESULT)))
      end
  end.
(** The id of the filter, or a return code. *)
Definition filter_add (max_attempts : Z) (fuel : nat) (filters : list (option in3_filter_t)) (type : in3_filter_type_t) (options : option (list Z)) : M st (list (option in3_filter_t) * Z) :=
  match type, options with
  | FILTER_PENDING, _ => mret (filters, IN3_ENOTSUP)
  | FILTER_EVENT, None => mret (filters, IN3_EINVAL)
  | _, _ =>
      n ← current_block max_attempts fuel;
      match n with
      | inl e => mret (filters, e)
      | inr current_block => mret (insert_filter filters (mk_filter true type current_block options))
      end
  end.

(** ** The verifier of a method (eth_basic.c) *)
Definition param (vc : in3_vctx_t) (i : nat) : option jval := jget_at (jget (Some (vc_request vc)) K_PARAMS) i.
(** [VERIFY_RPC] for one of the names. *)
Definition one_of (vc : in3_vctx_t) (names : list string) : option bool := method ← vc_method vc; Some (bool_decide (cstr method ∈ map str names)).
Definition by_block (vc : in3_vctx_t) : M st (Z * bool) := eth_verify_eth_getTransactionByBlock plugins m place vc (param vc 0) (d_int (param vc 1)).
Definition verify_sent (vc : in3_vctx_t) : M st (Z * bool) :=
  if bool_decide (default [] (d_bytes (vc_result vc)) = keccak (default [] (d_bytes (param vc 0)))) then mret (IN3_OK, vc_dont_blacklist vc)
  else e ← vc_err "the transactionHash of the response does not match the raw transaction!"; mret (e, vc_dont_blacklist vc).
(** The verifiers in the order in which the names are compared. *)
Definition verifiers (vc : in3_vctx_t) : list (list string * M st (Z * bool)) :=
  [(["eth_getTransactionByHash"], eth_verify_eth_getTransaction plugins m place vc (d_bytes (param vc 0)));
   (["eth_getTransactionByBlockHashAndIndex"; "eth_getTransactionByBlockNumberAndIndex"], by_block vc);
   (["eth_getBlockByNumber"], eth_verify_eth_getBlock plugins m place vc None (d_long (param vc 0)));
   (["eth_getBlockTransactionCountByHash"], eth_verify_eth_getBlockTransactionCount plugins m place vc (d_bytes (param vc 0)) 0);
   (["eth_getBlockTransactionCountByNumber"], eth_verify_eth_getBlockTransactionCount plugins m place vc None (d_long (param vc 0)));
   (["eth_getBlockByHash"], eth_verify_eth_getBlock plugins m place vc (d_bytes (param vc 0)) 0);
   (["eth_getBalance"; "eth_getCode"; "eth_getStorageAt"; "eth_getTransactionCount"], eth_verify_account_proof plugins m place vc);
   (["eth_gasPrice"; "eth_newFilter"; "eth_newBlockFilter"; "eth_newPendingFilter"; "eth_uninstallFilter"; "eth_getFilterChanges"], mret (IN3_OK, vc_dont_blacklist vc));
   (["eth_getLogs"], eth_verify_eth_getLog plugins m place vc);
   (["eth_sendRawTransaction"], verify_sent vc)]%string.
Fixpoint first_verifier (vc : in3_vctx_t) (l : list (list string * M st (Z * bool))) : M st (Z * bool) :=
  match l with
  | [] => mret (IN3_EIGNORE, vc_dont_blacklist vc)
  | (names, v) :: t => b ← defined (one_of vc names); if (b : bool) then v else first_verifier vc t
  end.
Definition in3_verify_eth_basic (vc : in3_vctx_t) : M st (Z * bool) :=
  if negb (ch_type (vc_chain vc) =? CHAIN_ETH) then mret (IN3_EIGNORE, vc_dont_blacklist vc)
  else
    p ← in3_req_get_proof (vc_index vc);
    if bool_decide (p = PROOF_NONE) then mret (IN3_OK, vc_dont_blacklist vc)
    else
      match vc_result vc with
      | None => mret (IN3_OK, vc_dont_blacklist vc)
      | Some JNull =>
          b ← defined (one_of vc ["eth_getTransactionByBlockHashAndIndex"; "eth_getTransactionByBlockNumberAndIndex"]%string);
          if (b : bool) then by_block vc else mret (IN3_OK, vc_dont_blacklist vc)
      | Some _ => first_verifier vc (verifiers vc)
      end.
End Basic.
