(* ===== verification/EthSafety.v ===== *)
(** * verifier/eth1/basic/eth_basic.c: what an accepted result shows, by method

    The verifier that is chosen by the method of the request has accepted the result
    ([basic_verifier_sound]); ids of filters stay those of the filters they were given for. *)
From S2P Require Import Prelude Utils Bytes Rlp Merkle Data Json JsonVal ReqState Request ReqFrame ReqSafety ReqNew Serialize Nano NanoSafety NodeData NodeRegistry AccountProof BasicAccount AccountSafety BasicTx TxSafety Trie TrieBuild BasicBlock BlockSafety BasicLog LogSafety BasicEth.
From stdpp Require Import strings.
#[local] Open Scope Z_scope.

(** ** Filters *)
Definition filter_at (filters : list (option in3_filter_t)) (i : Z) : option in3_filter_t := if i <=? 0 then None else mjoin (filters !! Z.to_nat (i - 1)).
Lemma filter_at_cons x t i : 0 < i -> filter_at (x :: t) (i + 1) = filter_at t i.
Proof. intros Hi. unfold filter_at. rewrite !(proj2 (Z.leb_gt _ _)) by lia. by replace (Z.to_nat (i + 1 - 1)) with (S (Z.to_nat (i - 1))) by lia. Qed.
(** A new filter gets an id that was free, and no other one changes. *)
Lemma insert_filter_spec filters f : let '(filters', i) := insert_filter filters f in 0 < i <= zlen filters + 1 /\ filter_at filters i = None /\ filter_at filters' i = Some f /\ forall j, j <> i -> filter_at filters' j = filter_at filters j.
Proof.
  induction filters as [|[x|] t IH]; cbn [insert_filter].
  - split; [cbn; lia|]. split; [done|]. split; [done|]. intros j Hj. unfold filter_at. destruct (Z.leb_spec j 0); [done|]. destruct (Z.to_nat (j - 1)) as [|n] eqn:E; [lia|done].
  - destruct (insert_filter t f) as [t' i]. destruct IH as (Hi & Hn & Hs & Ho). split; [cbn [length]; lia|]. rewrite !filter_at_cons by lia. split; [done|]. split; [done|]. intros j Hj. destruct (Z.leb_spec j 1) as [Hle|Hgt]; [|replace j with (j - 1 + 1) by lia; rewrite !filter_at_cons by lia; apply Ho; lia].
    unfold filter_at. destruct (Z.leb_spec j 0); [done|]. by replace j with 1 by lia.
  - split; [cbn [length]; lia|]. split; [done|]. split; [done|]. intros j Hj. unfold filter_at. destruct (Z.leb_spec j 0); [done|]. destruct (Z.to_nat (j - 1)) as [|n] eqn:E; [lia|done].
Qed.
Lemma filter_remove_spec filters i : let '(filters', b) := filter_remove filters i in 0 <= i -> b = bool_decide (is_Some (filter_at filters i)) /\ filter_at filters' i = None /\ forall j, j <> i -> filter_at filters' j = filter_at filters j.
Proof.
  unfold filter_remove. destruct (Z.eqb_spec i 0) as [->|Hne]; cbn [orb]; [by intros _|]. destruct (Z.ltb_spec (zlen filters) i) as [Hlt|Hge].
  { intros Hi. assert (filters !! Z.to_nat (i - 1) = None) as E by (apply lookup_ge_None_2; lia). assert (filter_at filters i = None) as -> by (unfold filter_at; destruct (i <=? 0); [done|by rewrite E]). done. }
  destruct (filters !! Z.to_nat (i - 1)) as [[f|]|] eqn:Ef; intros Hi; assert (filter_at filters i = mjoin (filters !! Z.to_nat (i - 1))) as Ea by (unfold filter_at; by rewrite (proj2 (Z.leb_gt i 0)) by lia); rewrite Ef in Ea; rewrite Ea; [|done..].
  split; [done|]. split.
  - unfold filter_at. rewrite (proj2 (Z.leb_gt i 0)) by lia. rewrite list_lookup_insert_eq by (by eapply lookup_lt_Some). done.
  - intros j Hj. unfold filter_at. destruct (Z.leb_spec j 0); [done|]. by rewrite list_lookup_insert_ne by lia.
Qed.

(** ** The verifier of a method *)
Section Verifier.
Context `{SourceText} `{Keccak} `{Allocator} `{Ecdsa} {W : Type} (plugins : list (in3_plugin_t W)) (m : memory) (place : list Z -> slice).
Context (asked_signers : list (list Z) -> Prop) (valid : list (list Z) -> in3_vctx_t -> Prop).
#[local] Abbreviation nwp := (wp (RI := nano_inv asked_signers)).
Implicit Types (s : state W) (vc : in3_vctx_t).
(** What an accepted result of a method was checked for. *)
Definition basic_valid (name : string) (ss : list (list Z)) vc : Prop :=
  if bool_decide (name = "eth_getTransactionByHash"%string) then exists h, d_bytes (param vc 0) = Some h /\ tx_proved m place asked_signers ss vc h
  else if bool_decide (name = "eth_getBlockByNumber"%string) then block_proved m place asked_signers ss vc None (d_long (param vc 0))
  else if bool_decide (name = "eth_getBlockByHash"%string) then block_proved m place asked_signers ss vc (d_bytes (param vc 0)) 0
  else if bool_decide (name = "eth_getBlockTransactionCountByHash"%string) then exists n, count_proved m place asked_signers ss vc (d_bytes (param vc 0)) 0 n
  else if bool_decide (name = "eth_getBlockTransactionCountByNumber"%string) then exists n, count_proved m place asked_signers ss vc None (d_long (param vc 0)) n
  else if bool_decide (name ∈ ["eth_getBalance"; "eth_getCode"; "eth_getStorageAt"; "eth_getTransactionCount"]%string) then exists account, answer_proved m place asked_signers ss vc account
  else if bool_decide (name = "eth_getLogs"%string) then logs_proved m place asked_signers ss vc
  else if bool_decide (name = "eth_sendRawTransaction"%string) then default [] (d_bytes (vc_result vc)) = keccak (default [] (d_bytes (param vc 0)))
  else True.
Definition checked_methods : list string :=
  ["eth_getTransactionByHash"; "eth_getBlockByNumber"; "eth_getBlockByHash"; "eth_getBlockTransactionCountByHash"; "eth_getBlockTransactionCountByNumber"; "eth_getBalance"; "eth_getCode"; "eth_getStorageAt";
   "eth_getTransactionCount"; "eth_getLogs"; "eth_sendRawTransaction"]%string.
Lemma first_verifier_at vc method name l : vc_method vc = Some method -> cstr method = str name ->
  first_verifier (W := W) vc l = match find (fun nv => bool_decide (str name ∈ map str (fst nv))) l with Some nv => snd nv | None => mret (IN3_EIGNORE, vc_dont_blacklist vc) end.
Proof.
  intros Hm Hn. induction l as [|[names v] l IH]; [done|]. cbn [first_verifier find fst snd]. unfold one_of. rewrite Hm. cbn [mbind option_bind]. rewrite Hn. destruct (bool_decide _); [done|]. exact IH.
Qed.

(** Comparisons of names are decided. *)
#[local] Ltac decided E := repeat match type of E with context [bool_decide (str ?a ∈ ?b)] => let v := eval vm_compute in (bool_decide (str a ∈ b)) in change (bool_decide (str a ∈ b)) with v in E; cbv iota in E end.
#[local] Ltac decided_goal := repeat match goal with |- context [bool_decide ?P] => let v := eval vm_compute in (bool_decide P) in match v with true => idtac | false => idtac end; change (bool_decide P) with v; cbv iota end.

(** C12. What the basic verifier accepts has been verified by the rules of the method.  Let the plugins
    keep the contract of requests ([plugin_contract]), let the client be one that asks for proofs, let
    the request not ask for no verification, and let a result other than null be accepted.  For
    eth_getTransactionByHash, eth_getBlockByNumber, eth_getBlockByHash,
    eth_getBlockTransactionCountByHash, eth_getBlockTransactionCountByNumber, eth_getBalance,
    eth_getCode, eth_getStorageAt, eth_getTransactionCount and eth_getLogs the result was proved below the
    roots of a header (except for what the methods themselves take without proof, such as accounts
    that look absent), and this header, if the request asks for signatures and it is not that of block
    0, was signed by all signers of a request of this client; without signatures the header is as good
    as the node that sent it.  For eth_sendRawTransaction the result is the hash of the transaction.
    Results null are accepted without proof, and transactions by block and index are not covered. *)
Theorem basic_verifier_sound vc s method name db s' : Forall (plugin_contract (RI := nano_inv asked_signers) valid) plugins -> state_inv (RI := nano_inv asked_signers) s -> ch_type (vc_chain vc) = CHAIN_ETH ->
  vc_method vc = Some method -> cstr method = str name -> In name checked_methods -> vc_result vc <> None -> vc_result vc <> Some JNull ->
  of_request vc s -> cstr <$> d_get_string (jget (Some (vc_request vc)) K_IN3) K_VERIFICATION <> Some (str "none") ->
  in3_verify_eth_basic plugins m place vc s = Ok (IN3_OK, db) s' -> basic_valid name (signers (self s)) vc.
Proof.
  intros Hp Hi Hch Hm Hn Hin Hr Hr0 Ho Hv. unfold in3_verify_eth_basic. rewrite Hch. change (CHAIN_ETH =? CHAIN_ETH) with true. cbn [negb]. pose proof (in3_req_get_proof_spec asked_signers vc s Hi) as Hpr. unfold mbind at 1, M_bind at 1.
  destruct (in3_req_get_proof (vc_index vc) s) as [p s1| | |]; try done. destruct Hpr as (_ & -> & Hpr). case_bool_decide as Ep; [destruct (Hv (Hpr Ho Ep))|].
  destruct (vc_result vc) as [r|] eqn:Er; [|done].
  intros E. assert (first_verifier vc (verifiers plugins m place vc) s = Ok (IN3_OK, db) s') as E' by (by destruct r). clear E. rewrite (first_verifier_at vc method name _ Hm Hn) in E'.
  assert (forall x (Q : Z * bool -> state W -> Prop), nwp x Q s -> x s = Ok (IN3_OK, db) s' -> Q (IN3_OK, db) s') as Hrun by (intros x Q Hx Ex; specialize (Hx Hi); rewrite Ex in Hx; by destruct Hx).
  unfold verifiers in E'. cbn [find fst snd] in E'. unfold checked_methods in Hin. cbn [In] in Hin. unfold basic_valid.
  destruct Hin as [<-|[<-|[<-|[<-|[<-|[<-|[<-|[<-|[<-|[<-|[<-|[]]]]]]]]]]]]; decided E'; decided_goal.
  - destruct (Hrun _ _ (getTransaction_spec plugins m place asked_signers valid Hp vc (d_bytes (param vc 0)) s) E') as (_ & _ & HP). by apply HP.
  - destruct (Hrun _ _ (getBlock_spec plugins m place asked_signers valid Hp vc None (d_long (param vc 0)) s) E') as (_ & _ & HP). by apply HP.
  - destruct (Hrun _ _ (getBlock_spec plugins m place asked_signers valid Hp vc (d_bytes (param vc 0)) 0 s) E') as (_ & _ & HP). by apply HP.
  - destruct (Hrun _ _ (getCount_spec plugins m place asked_signers valid Hp vc (d_bytes (param vc 0)) 0 s) E') as (_ & _ & HP). by apply HP.
  - destruct (Hrun _ _ (getCount_spec plugins m place asked_signers valid Hp vc None (d_long (param vc 0)) s) E') as (_ & _ & HP). by apply HP.
  - destruct (Hrun _ _ (verify_account_proof_spec plugins m place asked_signers valid Hp vc s) E') as (_ & _ & HP). apply HP; [done|by rewrite Er].
  - destruct (Hrun _ _ (verify_account_proof_spec plugins m place asked_signers valid Hp vc s) E') as (_ & _ & HP). apply HP; [done|by rewrite Er].
  - destruct (Hrun _ _ (verify_account_proof_spec plugins m place asked_signers valid Hp vc s) E') as (_ & _ & HP). apply HP; [done|by rewrite Er].
  - destruct (Hrun _ _ (verify_account_proof_spec plugins m place asked_signers valid Hp vc s) E') as (_ & _ & HP). apply HP; [done|by rewrite Er].
  - destruct (Hrun _ _ (getLog_spec plugins m place asked_signers valid Hp vc s) E') as (_ & _ & HP). by apply HP.
  - cbn [snd] in E'. unfold verify_sent in E'. rewrite Er in E' |- *. destruct (bool_decide (default [] (d_bytes (Some r)) = _)) eqn:Eb; [by apply bool_decide_eq_true in Eb|]. exfalso. pose proof (vc_err_spec plugins asked_signers valid Hp "the transactionHash of the response does not match the raw transaction!" s Hi) as Hw. unfold mbind, M_bind in E'. destruct (vc_err plugins _ s) as [e s2| | |]; try done. destruct Hw as (_ & -> & _). by injection E'.
Qed.
End Verifier.

(** ** A block, by number *)
Module EthSample.
#[local] Existing Instance no_text.
#[local] Existing Instance debug_allocator.
#[local] Existing Instance BlockSample.hash.
#[local] Existing Instance BlockSample.ecdsa.
Definition asking : state unit :=
  mk_state (mk_req 1 RT_RPC 0 IN3_WAITING None None (Some [vc_request BlockSample.vc_block]) Null Null (Some []) [BlockSample.signer] [node1] []) [] (mk_client [BlockSample.eth] 5 0 PROOF_STANDARD 0 0 1 0 0 0) tt.
Lemma block_chosen : exists s', in3_verify_eth_basic [answering BlockSample.registry_id] BlockSample.mem BlockSample.place BlockSample.vc_block asking = Ok (IN3_OK, false) s'.
Proof. eexists. vm_compute. reflexivity. Qed.
Lemma asking_ok : state_inv (RI := nano_inv BlockSample.asked) asking.
Proof. split; [|split; [by right|constructor]]. split; [|done]. constructor; [done|constructor]. Qed.
End EthSample.
Lemma basic_verifier_sound_witness : @block_proved BlockSample.hash debug_allocator BlockSample.ecdsa BlockSample.mem BlockSample.place BlockSample.asked [BlockSample.signer] BlockSample.vc_block None 5.
Proof.
  destruct EthSample.block_chosen as [s' E].
  pose proof (@basic_verifier_sound no_text BlockSample.hash debug_allocator BlockSample.ecdsa unit [answering BlockSample.registry_id] BlockSample.mem BlockSample.place BlockSample.asked (fun _ _ => True) BlockSample.vc_block EthSample.asking (str "eth_getBlockByNumber") "eth_getBlockByNumber" false s') as Hv.
  apply Hv; [apply answering_plugins|apply EthSample.asking_ok|reflexivity|reflexivity|vm_compute; reflexivity|by right; left|discriminate|discriminate|reflexivity|vm_compute; discriminate|exact E].
Defined.
