(* ===== verification/Big.v ===== *)
(** * verifier/eth1/evm/big.c: unsigned big-endian integers of up to 64 bytes

    A number is its bytes; the C length argument is the length of the list.  Results are the
    bytes left in the output buffer, of the returned length.  [wlen_t] and the loop counters are
    8 bit (glibc's [uint_fast8_t]), which the operand sizes never exceed; [uint_fast16_t] is 64
    bit. *)
From S2P Require Import Prelude Utils.

(** ** libtommath

    What big.c uses of the multi-precision library: modular exponentiation and division of
    imported natural numbers. *)
Class MpInt := {
  mp_exptmod : Z -> Z -> Z -> Z;
  mp_div : Z -> Z -> Z * Z;
  mp_exptmod_spec : forall a b m, 0 <= a -> 0 <= b -> 0 < m -> mp_exptmod a b m = a ^ b mod m;
  mp_div_spec : forall n d, 0 <= n -> 0 < d -> mp_div n d = (n / d, n mod d)
}.
#[export] Instance exact_mp : MpInt.
Proof. refine {| mp_exptmod a b m := a ^ b mod m; mp_div n d := (n / d, n mod d) |}; done. Defined.

(** [mp_export]: the big-endian bytes without leading zeros, none for 0. *)
Fixpoint mp_export_loop (fuel : nat) (v : Z) (acc : list Z) : list Z :=
  match fuel with
  | O => acc
  | S f => if v =? 0 then acc else mp_export_loop f (v / 256) (v mod 256 :: acc)
  end.
Definition mp_export (v : Z) : list Z := mp_export_loop (Z.to_nat (Z.log2 v / 8 + 1)) v [].

(** ** Operations *)
Definition big_is_zero (data : list Z) : bool :=
  let d := optimize_len data in (length d =? 1)%nat && (rd d 0 =? 0).

(** The positive / negative / zero result of [memcmp] is all callers use. *)
Definition big_cmp (a b : list Z) : Z :=
  let la := length a in
  let lb := length b in
  if (la =? lb)%nat then memcmp a b
  else if (lb <? la)%nat then
    if existsb (fun x => negb (x =? 0)) (take (la - lb) a) then 1 else memcmp (drop (la - lb) a) b
  else
    if existsb (fun x => negb (x =? 0)) (take (lb - la) b) then -1 else memcmp a (drop (lb - la) b).

Fixpoint big_sign_loop (n : nat) (val tmp : list Z) (rest : Z) : list Z :=
  match n with
  | O => tmp
  | S i =>
      let rest := rest + Z.lxor (nth i val 0) 0xFF in
      big_sign_loop i val (<[i := Z.land rest 0xFF]> tmp) (Z.shiftr rest 8)
  end.
(** [big_sign]: the two's complement; -1 (here [None]) above 32 bytes. *)
Definition big_sign (val : list Z) : option (list Z) :=
  if (32 <? length val)%nat then None else Some (big_sign_loop (length val) val val 1).

(** [big_signed]: 1 and the absolute value when the top bit is set, else 0 and [dst] as it is. *)
Definition big_signed (val dst : list Z) : Z * list Z :=
  if Z.land (rd val 0) 128 =? 0 then (0, dst)
  else if (32 <? length val)%nat then (-1, dst)
  else (1, default dst (big_sign val)).

Fixpoint shl_bits_loop (n : nat) (a : list Z) (r carry : Z) : list Z :=
  match n with
  | O => a
  | S i =>
      let carry := Z.lor carry (u64 (Z.shiftl (nth i a 0) r)) in
      shl_bits_loop i (<[i := Z.land carry 0xFF]> a) r (Z.shiftr carry 8)
  end.
(** [for (i = 0; i < len; i++) a[i] = i + r < len ? a[i + r] : 0]. *)
Fixpoint shl_bytes_loop (n i : nat) (a : list Z) (r : nat) : list Z :=
  match n with
  | O => a
  | S n' => shl_bytes_loop n' (S i) (<[i := if (i + r <? length a)%nat then nth (i + r) a 0 else 0]> a) r
  end.
Definition big_shift_left (a : list Z) (bits : Z) : list Z :=
  let r := bits mod 8 in
  let a := if r =? 0 then a else shl_bits_loop (length a) a r 0 in
  let r8 := u8 (Z.shiftr (bits - r) 3) in
  if r8 =? 0 then a else shl_bytes_loop (length a) 0 a (Z.to_nat r8).

Fixpoint shr_bits_loop (n i : nat) (a : list Z) (r carry : Z) : list Z :=
  match n with
  | O => a
  | S n' =>
      let carry := Z.lor carry (u64 (Z.shiftl (nth i a 0) (8 - r))) in
      shr_bits_loop n' (S i) (<[i := u8 (Z.shiftr carry 8)]> a) r (u64 (Z.shiftl carry 8))
  end.
(** [for (i = len - 1; i >= 0; i--) a[i] = i - r >= 0 ? a[i - r] : 0]. *)
Fixpoint shr_bytes_loop (n : nat) (a : list Z) (r : nat) : list Z :=
  match n with
  | O => a
  | S i => shr_bytes_loop i (<[i := if (r <=? i)%nat then nth (i - r) a 0 else 0]> a) r
  end.
Definition big_shift_right (a : list Z) (bits : Z) : list Z :=
  let r := bits mod 8 in
  let a := if r =? 0 then a else shr_bits_loop (length a) 0 a r 0 in
  let r8 := u8 (Z.shiftr (bits - r) 3) in
  if r8 =? 0 then a else shr_bytes_loop (length a) a (Z.to_nat r8).

Definition big_int (val : list Z) : Z :=
  match val with
  | [a] => a
  | [a; b] => i32 (Z.shiftl a 8 + b)
  | [a; b; c] => i32 (Z.shiftl a 16 + Z.shiftl b 8 + c)
  | [a; b; c; d] => i32 (i32 (Z.shiftl a 24) + Z.shiftl b 16 + Z.shiftl c 8 + d)
  | _ => -1
  end.

(** Output digit [n-1] from the next bytes of both operands ([len_x] of them left). *)
Fixpoint big_add_loop (n : nat) (a b : list Z) (len_a len_b : nat) (carry : Z) (out : list Z) : list Z :=
  match n with
  | O => out
  | S i =>
      let carry := carry + ((if (len_a =? 0)%nat then 0 else nth (len_a - 1) a 0)
                            + (if (len_b =? 0)%nat then 0 else nth (len_b - 1) b 0)) in
      big_add_loop i a b (len_a - 1) (len_b - 1) (Z.shiftr carry 8) (Z.land carry 0xFF :: out)
  end.
Definition big_add (a b : list Z) (max : nat) : list Z :=
  let a := optimize_len a in
  let b := optimize_len b in
  let l := if (length b <? length a)%nat then S (length a) else S (length b) in
  let l := if negb (max =? 0)%nat && (max <? l)%nat then max else l in
  big_add_loop l a b (length a) (length b) 0 [].

Fixpoint big_sub_loop (n : nat) (a b : list Z) (len_a len_b : nat) (borrow : Z) (out : list Z) : list Z * Z :=
  match n with
  | O => (out, borrow)
  | S i =>
      let carry := u64 ((if (len_a =? 0)%nat then 0 else nth (len_a - 1) a 0)
                        - (if (len_b =? 0)%nat then 0 else nth (len_b - 1) b 0) - borrow) in
      big_sub_loop i a b (len_a - 1) (len_b - 1) (Z.land (Z.shiftr carry 8) 1) (Z.land carry 0xFF :: out)
  end.
Definition big_sub (a b : list Z) : list Z :=
  let a := optimize_len a in
  let b := optimize_len b in
  let l := if (length b <? length a)%nat then S (length a) else S (length b) in
  let l := if (32 <? l)%nat then 32%nat else l in
  let '(out, borrow) := big_sub_loop l a b (length a) (length b) 0 [] in
  if negb (borrow =? 0) && (l <? 32)%nat then replicate (32 - l) 0xFF ++ out else out.

(** [for (x = xs, y = ys; x >= 0 && y < lb; x--, y++) val += a[x] * b[y]]; [x] counts from 1. *)
Fixpoint mul_column (x y : nat) (a b : list Z) (val : Z) : Z :=
  match x with
  | O => val
  | S x' => if (y <? length b)%nat then mul_column x' (S y) a b (u32 (val + nth x' a 0 * nth y b 0)) else val
  end.
(** The two column loops: [ys] from [lb-1] to 0 with [xs = la-1], then [xs] from [la-2] to 0. *)
Fixpoint mul_loop1 (ys : nat) (a b : list Z) (val : Z) (out : list Z) : Z * list Z :=
  match ys with
  | O => (val, out)
  | S y => let val := mul_column (length a) y a b val in
           mul_loop1 y a b (Z.shiftr val 8) (Z.land val 0xFF :: out)
  end.
Fixpoint mul_loop2 (xs : nat) (a b : list Z) (val : Z) (out : list Z) : Z * list Z :=
  match xs with
  | O => (val, out)
  | S x => let val := mul_column (S x) 0 a b val in
           mul_loop2 x a b (Z.shiftr val 8) (Z.land val 0xFF :: out)
  end.
Definition big_mul (a b : list Z) (max : nat) : list Z :=
  let a := optimize_len a in
  let b := optimize_len b in
  let la := length a in
  let lb := length b in
  if (la + lb <? 9)%nat then
    optimize_len (long_to_bytes (u64 (bytes_to_long a (zlen a) * bytes_to_long b (zlen b))) (replicate 8 0))
  else
    let '(val, out) := mul_loop1 lb a b 0 [] in
    let '(val, out) := mul_loop2 (la - 1) a b val out in
    let p := optimize_len (Z.land val 0xFF :: out) in
    if (max <? length p)%nat then drop (length p - max) p else p.

Fixpoint bitlen_loop (n : nat) (x la8 : Z) : Z :=
  match n with
  | O => la8 - 8
  | S i => if negb (Z.land x (Z.shiftl 1 (Z.of_nat i)) =? 0) then la8 - 7 + Z.of_nat i else bitlen_loop i x la8
  end.
Definition big_bitlen (a : list Z) : Z :=
  let a := optimize_len a in bitlen_loop 8 (rd a 0) (zlen a * 8).

Section Mp.
Context `{MpInt}.

Definition export1 (v : Z) : list Z := match mp_export v with [] => [0] | l => l end.

Definition big_exp (a b : list Z) : list Z :=
  let a := optimize_len a in
  let b := optimize_len b in
  if (length b =? 0)%nat || ((length b =? 1)%nat && (rd b 0 =? 0)) then [1]
  else if (length b =? 1)%nat && (rd b 0 =? 1) then a
  else if (length a =? 1)%nat && (rd a 0 =? 2) then
    if (1 <? length b)%nat then [0]
    else
      let p := optimize_len (big_shift_left (replicate 63 0 ++ [1]) (rd b 0)) in
      if (32 <? length p)%nat then drop (length p - 32) p else p
  else export1 (mp_exptmod (be_val a) (be_val b) (be_val (1 :: replicate 32 0))).

(** [big_log256]: the loop skips zero bytes with no regard to the length, so it may look past
    the operand; [mem] is what lies there.  [None] when it leaves [mem]. *)
Fixpoint big_log256 (mem : list Z) (len : Z) : option Z :=
  match mem with
  | [] => None
  | x :: t => if x =? 0 then big_log256 t (u8 (len - 1)) else Some len
  end.

(** The loop of [big_divmod] over the bytes of [n]; [q] is the quotient so far. *)
Fixpoint divmod_loop (n : list Z) (ud ur : Z) (q : list Z) : list Z * Z :=
  match n with
  | [] => (q, ur)
  | x :: t =>
      let ur := Z.lor (u64 (Z.shiftl ur 8)) x in
      if ur <? ud then divmod_loop t ud ur (if (length q =? 0)%nat then q else q ++ [0])
      else divmod_loop t ud (ur mod ud) (q ++ [u8 (ur / ud)])
  end.
(** [big_divmod]: quotient and remainder; [None] is a division by 0. *)
Definition big_divmod (n d : list Z) : option (list Z * list Z) :=
  let n := optimize_len n in
  let d := optimize_len d in
  if (length d <? 8)%nat then
    let ud := bytes_to_long d (zlen d) in
    if (length n <? 9)%nat then
      let ur := bytes_to_long n (zlen n) in
      if ud =? 0 then None
      else Some (optimize_len (long_to_bytes (ur / ud) (replicate 8 0)),
                 optimize_len (long_to_bytes (ur mod ud) (replicate 8 0)))
    else if ud =? 0 then None
    else let '(q, ur) := divmod_loop n ud 0 [] in
         Some (q, optimize_len (long_to_bytes ur (replicate 8 0)))
  else let '(q, r) := mp_div (be_val n) (be_val d) in Some (export1 q, export1 r).

(** [while (la > 1 && lb > 1 && a[la-1] == 0 && b[lb-1] == 0) { la--; lb--; }] *)
Fixpoint strip_zeros (fuel : nat) (a b : list Z) : list Z * list Z :=
  match fuel with
  | O => (a, b)
  | S f =>
      if (1 <? length a)%nat && (1 <? length b)%nat
         && (nth (length a - 1) a 0 =? 0) && (nth (length b - 1) b 0 =? 0)
      then strip_zeros f (take (length a - 1) a) (take (length b - 1) b)
      else (a, b)
  end.

(** Right-align in a 32 byte word and negate. *)
Definition negate_word (l : list Z) : list Z := default [] (big_sign (replicate (32 - length l) 0 ++ l)).

Definition big_div (a b : list Z) (sig : bool) : option (list Z) :=
  let '(a, b) := strip_zeros (length a) (optimize_len a) (optimize_len b) in
  if (length b =? 0)%nat || ((length b =? 1)%nat && (rd b 0 =? 0)) then Some [0]
  else if sig then
    let '(sa, a') := big_signed a a in
    let '(sb, b') := big_signed b b in
    '(q, _) ← big_divmod a' b';
    Some (if sa =? sb then q else negate_word q)
  else '(q, _) ← big_divmod a b; Some q.

Definition big_mod (a b : list Z) (sig : bool) : option (list Z) :=
  let a := optimize_len a in
  let b := optimize_len b in
  let la := length a in
  let lb := length b in
  if (la <? lb)%nat && negb sig then Some a
  else if (lb =? 0)%nat || ((lb =? 1)%nat && (rd b 0 =? 0)) then Some [0]
  else if negb sig then
    if (Z.land (rd b 0) (rd b 0 - 1) =? 0) && forallb (fun x => x =? 0) (drop 1 b)
    then Some (Z.land (nth (la - lb) a 0) (rd b 0 - 1) :: drop (la - lb + 1) a)
    else '(_, r) ← big_divmod a b; Some r
  else
    let '(sa, a') := big_signed a a in
    let '(_, b') := big_signed b b in
    '(_, r) ← big_divmod a' b';
    Some (if negb (sa =? 0) then negate_word r else r).
End Mp.

(** ** Digits *)
Lemma shiftr_8 z : Z.shiftr z 8 = z / 256.
Proof. by rewrite Z.shiftr_div_pow2. Qed.
Lemma mod256_byte z : is_byte (z mod 256).
Proof. apply Z.mod_pos_bound. lia. Qed.
#[export] Hint Resolve mod256_byte : in3.

(** The next digit of a number whose [k] leading bytes are left. *)
Definition digit (k : nat) (a : list Z) : Z := if (k =? 0)%nat then 0 else nth (k - 1) a 0.
Lemma digit_byte k a : bytes_ok a -> is_byte (digit k a).
Proof. intros. unfold digit. destruct (k =? 0)%nat; [done|]. auto with in3. Qed.
Lemma take_digit a k : (k <= length a)%nat -> be_val (take k a) = be_val (take (k - 1) a) * 256 + digit k a.
Proof.
  intros Hk. unfold digit. destruct k as [|k]; [done|]. cbn [Nat.eqb].
  replace (S k - 1)%nat with k by lia. destruct (lookup_lt_is_Some_2 a k) as [x Hx]; [lia|].
  rewrite (take_S_r _ _ _ Hx), be_val_snoc. f_equal. symmetry. rewrite nth_lookup, Hx. done.
Qed.

Lemma be_val_digit_step v d out m : is_byte d ->
  (v mod m) * 256 ^ zlen (d :: out) + be_val (d :: out)
  = (d + 256 * (v mod m)) * 256 ^ zlen out + be_val out.
Proof. intros. rewrite be_val_cons. cbn [length]. rewrite pow256_S. ring. Qed.

(** ** Addition and subtraction *)
Lemma big_add_loop_spec a b : bytes_ok a -> bytes_ok b -> forall n la lb carry out,
  (la <= length a)%nat -> (lb <= length b)%nat -> 0 <= carry -> bytes_ok out ->
  let r := big_add_loop n a b la lb carry out in
  bytes_ok r /\ length r = (n + length out)%nat /\
  be_val r = (be_val (take la a) + be_val (take lb b) + carry) mod 256 ^ Z.of_nat n * 256 ^ zlen out + be_val out.
Proof.
  intros Ha Hb n. induction n as [|n IH]; intros la lb carry out Hla Hlb Hc Ho; cbn [big_add_loop].
  { rewrite Z.mod_1_r. split; [done|]. split; [done|]. ring. }
  fold (digit la a) (digit lb b). pose proof (digit_byte la a Ha) as Da. pose proof (digit_byte lb b Hb) as Db.
  unfold is_byte in Da, Db. rewrite land_255, shiftr_8. set (c := carry + (digit la a + digit lb b)).
  destruct (IH (la - 1)%nat (lb - 1)%nat (c / 256) (c mod 256 :: out)) as (H1 & H2 & H3);
    [lia|lia|subst c; apply Z.div_pos; lia|constructor; auto with in3|].
  split; [done|]. split; [rewrite H2; cbn; lia|]. rewrite H3, be_val_digit_step by auto with in3. f_equal. f_equal.
  rewrite pow256_S, (take_digit a la), (take_digit b lb) by done.
  set (v := be_val (take (la - 1) a) + be_val (take (lb - 1) b)).
  rewrite <- (mod_mul_split (c mod 256) (v + c / 256) 256); [|apply mod256_byte|apply pow256_pos].
  f_equal. pose proof (Z.div_mod c 256). subst c v. lia.
Qed.

(** A list of bytes and the number it stands for. *)
Lemma big_add_spec a b max : bytes_ok a -> bytes_ok b -> (0 < max)%nat ->
  bytes_ok (big_add a b max) /\ (length (big_add a b max) <= max)%nat /\
  be_val (big_add a b max) = (be_val a + be_val b) mod 256 ^ Z.of_nat max.
Proof.
  intros Ha Hb Hm. unfold big_add. set (a' := optimize_len a). set (b' := optimize_len b).
  set (l := if (length b' <? length a')%nat then S (length a') else S (length b')).
  assert (length a' < l /\ length b' < l)%nat as [Hl1 Hl2]
    by (subst l; destruct (length b' <? length a')%nat eqn:E; [apply Nat.ltb_lt in E|apply Nat.ltb_ge in E]; lia).
  assert (bytes_ok a') as Ha' by (subst a'; auto with in3). assert (bytes_ok b') as Hb' by (subst b'; auto with in3).
  set (n := if negb (max =? 0)%nat && (max <? l)%nat then max else l).
  destruct (big_add_loop_spec a' b' Ha' Hb' n (length a') (length b') 0 []) as (H1 & H2 & H3);
    [lia|lia|lia|constructor|].
  rewrite be_val_nil, !take_ge, !Z.add_0_r in H3 by lia. cbn [length] in H2, H3.
  rewrite <- (optimize_len_val a), <- (optimize_len_val b). fold a' b'.
  assert (be_val a' + be_val b' < 256 ^ Z.of_nat l).
  { apply be_val_bound in Ha', Hb'. pose proof (Z.pow_le_mono_r 256 (zlen a') (Z.of_nat l - 1)).
    pose proof (Z.pow_le_mono_r 256 (zlen b') (Z.of_nat l - 1)).
    replace (Z.of_nat l) with (Z.of_nat (S (l - 1))) by lia. rewrite pow256_S.
    replace (Z.of_nat (l - 1)) with (Z.of_nat l - 1) by lia. lia. }
  split; [done|]. split; [rewrite H2; subst n; bool_cases; lia|].
  rewrite H3, Z.mul_1_r. subst n.
  destruct (negb (max =? 0)%nat && (max <? l)%nat) eqn:E; [done|].
  assert (l <= max)%nat by (bool_cases; lia).
  pose proof (be_val_pos a' Ha'). pose proof (be_val_pos b' Hb').
  pose proof (Z.pow_le_mono_r 256 (Z.of_nat l) (Z.of_nat max)).
  rewrite !Z.mod_small; lia.
Qed.

Lemma big_sub_loop_spec a b : bytes_ok a -> bytes_ok b -> forall n la lb borrow out,
  (la <= length a)%nat -> (lb <= length b)%nat -> (la <= n)%nat -> (lb <= n)%nat -> 0 <= borrow <= 1 -> bytes_ok out ->
  let r := big_sub_loop n a b la lb borrow out in
  let d := be_val (take la a) - be_val (take lb b) - borrow in
  bytes_ok r.1 /\ length r.1 = (n + length out)%nat /\ r.2 = (if d <? 0 then 1 else 0) /\
  be_val r.1 = d mod 256 ^ Z.of_nat n * 256 ^ zlen out + be_val out.
Proof.
  intros Ha Hb n. induction n as [|n IH]; intros la lb br out Hla Hlb Hn1 Hn2 Hc Ho; cbn [big_sub_loop fst snd].
  { assert (la = 0%nat) as -> by lia. assert (lb = 0%nat) as -> by lia.
    cbv zeta. rewrite !take_0. change (be_val []) with 0. change (256 ^ Z.of_nat 0) with 1. rewrite Z.mod_1_r. split; [done|]. split; [done|]. split; [bool_cases|].
    ring. }
  fold (digit la a) (digit lb b). pose proof (digit_byte la a Ha) as Da. pose proof (digit_byte lb b Hb) as Db.
  unfold is_byte in Da, Db. rewrite land_255, shiftr_8. set (c := digit la a - digit lb b - br).
  assert (Hlow : u64 c mod 256 = c mod 256).
  { unfold u64. change (2 ^ 64) with (256 * 2 ^ 56). rewrite Z.rem_mul_r by lia.
    rewrite Z.mul_comm, Z.mod_add by lia. apply Z.mod_mod. lia. }
  assert (Hbr : Z.land (u64 c / 256) 1 = - (c / 256)).
  { change 1 with (Z.ones 1). rewrite Z.land_ones by lia. change (2 ^ 1) with 2.
    destruct (Z_lt_ge_dec c 0) as [Hneg|Hpos].
    - replace (u64 c) with (c + 2 ^ 64) by (unfold u64; apply Z.mod_unique with (-1); lia).
      change (2 ^ 64) with (2 ^ 56 * 256). rewrite Z.div_add by lia.
      replace (c / 256) with (-1) by (apply Z.div_unique with (c + 256); lia). done.
    - rewrite u64_small by lia. rewrite Z.div_small by lia. done. }
  rewrite Hlow, Hbr.
  assert (0 <= - (c / 256) <= 1) by (pose proof (Z.div_mod c 256); pose proof (Z.mod_pos_bound c 256); lia).
  destruct (IH (la - 1)%nat (lb - 1)%nat (- (c / 256)) (c mod 256 :: out)) as (H1 & H2 & H3 & H4);
    [lia|lia|lia|lia|lia|constructor; auto with in3|].
  rewrite (take_digit a la), (take_digit b lb) by done.
  set (A := be_val (take (la - 1) a)) in *. set (B := be_val (take (lb - 1) b)) in *.
  replace (A * 256 + digit la a - (B * 256 + digit lb b) - br) with (c mod 256 + (A - B - - (c / 256)) * 256)
    by (pose proof (Z.div_mod c 256); subst c; lia).
  pose proof (mod256_byte c) as Hm. unfold is_byte in Hm.
  split; [done|]. split; [rewrite H2; cbn; lia|].
  split; [rewrite H3; destruct (A - B - - (c / 256) <? 0) eqn:E1, (_ + _ <? 0) eqn:E2; lia|].
  rewrite H4, be_val_digit_step by auto with in3. f_equal. f_equal.
  rewrite pow256_S. symmetry. apply mod_mul_split; [done|apply pow256_pos].
Qed.

Lemma be_val_replicate_ff n : be_val (replicate n 255) = 256 ^ Z.of_nat n - 1.
Proof.
  induction n as [|n IH]; [done|]. cbn [replicate].
  rewrite be_val_cons, IH, length_replicate, pow256_S. lia.
Qed.

Lemma big_sub_spec a b : bytes_ok a -> bytes_ok b -> (length a <= 32)%nat -> (length b <= 32)%nat ->
  bytes_ok (big_sub a b) /\ (length (big_sub a b) <= 32)%nat /\
  be_val (big_sub a b) = (be_val a - be_val b) mod 2 ^ 256.
Proof.
  intros Ha Hb La Lb. unfold big_sub. set (a' := optimize_len a). set (b' := optimize_len b).
  set (l0 := if (length b' <? length a')%nat then S (length a') else S (length b')).
  set (l := if (32 <? l0)%nat then 32%nat else l0).
  pose proof (optimize_len_length a) as La'. pose proof (optimize_len_length b) as Lb'. fold a' in La'. fold b' in Lb'.
  assert (length a' <= l /\ length b' <= l /\ l <= 32)%nat as (Hl1 & Hl2 & Hl3)
    by (subst l l0; bool_cases; lia).
  assert (bytes_ok a') as Ha' by (subst a'; auto with in3). assert (bytes_ok b') as Hb' by (subst b'; auto with in3).
  destruct (big_sub_loop_spec a' b' Ha' Hb' l (length a') (length b') 0 []) as (H1 & H2 & H3 & H4);
    [lia|lia|lia|lia|lia|constructor|].
  rewrite !take_ge, Z.sub_0_r in H3, H4 by lia. rewrite be_val_nil in H4. cbn [length] in H2, H4.
  rewrite <- (optimize_len_val a), <- (optimize_len_val b). fold a' b'.
  destruct (big_sub_loop l a' b' (length a') (length b') 0 []) as [out br]. cbn [fst snd] in *.
  assert (Hd : - 256 ^ Z.of_nat l < be_val a' - be_val b' < 256 ^ Z.of_nat l).
  { pose proof (be_val_bound _ Ha'). pose proof (be_val_bound _ Hb').
    pose proof (Z.pow_le_mono_r 256 (zlen a') (Z.of_nat l)). pose proof (Z.pow_le_mono_r 256 (zlen b') (Z.of_nat l)). lia. }
  pose proof (Z.pow_le_mono_r 256 (Z.of_nat l) 32 ltac:(lia) ltac:(lia)) as Hp. change (256 ^ 32) with (2 ^ 256) in Hp.
  change (256 ^ Z.of_nat 0) with 1 in H4. rewrite Z.mul_1_r, Z.add_0_r, Nat.add_0_r in *.
  destruct (be_val a' - be_val b' <? 0) eqn:En; subst br; cbn [negb Z.eqb andb].
  - destruct (l <? 32)%nat eqn:E32.
    + apply Nat.ltb_lt in E32. split; [apply Forall_app; split; [apply Forall_replicate; done|done]|].
      split; [rewrite length_app, length_replicate; lia|].
      rewrite be_val_app, be_val_replicate_ff, H2, H4.
      rewrite (Z.mod_eq _ (256 ^ Z.of_nat l)) by (pose proof (pow256_pos l); lia).
      replace ((be_val a' - be_val b') / 256 ^ Z.of_nat l) with (-1)
        by (apply Z.div_unique with (be_val a' - be_val b' + 256 ^ Z.of_nat l); lia).
      rewrite Z.mul_sub_distr_r, <- pow256_add. replace (32 - l + l)%nat with 32%nat by lia.
      change (256 ^ Z.of_nat 32) with (2 ^ 256). apply Z.mod_unique with (-1); lia.
    + apply Nat.ltb_ge in E32. assert (l = 32%nat) as Hl by lia. split; [done|]. split; [lia|]. by rewrite H4, Hl.
  - split; [done|]. split; [lia|]. rewrite H4, !Z.mod_small by lia. done.
Qed.

(** ** Multiplication *)
Section Mul.
Context (a b : list Z) (Ha : bytes_ok a) (Hb : bytes_ok b).

(** The column sum [a[x-1]*b[y] + a[x-2]*b[y+1] + ...]. *)
Fixpoint dot (x y : nat) : Z :=
  match x with O => 0 | S x' => nth x' a 0 * nth y b 0 + dot x' (S y) end.
Lemma dot_bound x : forall y, 0 <= dot x y <= Z.of_nat x * 65025.
Proof.
  induction x as [|x IH]; intros y; cbn [dot]; [lia|]. specialize (IH (S y)).
  pose proof (nth_ok a x Ha) as H1. pose proof (nth_ok b y Hb) as H2. unfold is_byte in H1, H2. nia.
Qed.
Lemma dot_past x : forall y, (length b <= y)%nat -> dot x y = 0.
Proof. induction x as [|x IH]; intros y Hy; cbn [dot]; [done|]. rewrite (nth_overflow b), IH by lia. lia. Qed.
Lemma mul_column_spec x : forall y v, 0 <= v -> v + Z.of_nat x * 65025 < 2 ^ 32 ->
  mul_column x y a b v = v + dot x y.
Proof.
  induction x as [|x IH]; intros y v H1 H2; cbn [mul_column]; [cbn; lia|].
  pose proof (nth_ok a x Ha) as B1. pose proof (nth_ok b y Hb) as B2. unfold is_byte in B1, B2.
  destruct (y <? length b)%nat eqn:E.
  - cbn [dot]. rewrite u32_small, IH; nia.
  - apply Nat.ltb_ge in E. rewrite dot_past by done. lia.
Qed.

(** The sums of the columns the two loops visit, by Horner's rule. *)
Fixpoint cols1 (x ys : nat) : Z := match ys with O => 0 | S y => 256 * cols1 x y + dot x y end.
Fixpoint cols2 (xs : nat) : Z := match xs with O => 0 | S x => 256 * cols2 x + dot (S x) 0 end.

Lemma cols1_step n : (n < length a)%nat -> forall y, (y <= length b)%nat ->
  cols1 (S n) y = nth n a 0 * be_val (take y b) + cols1 n (S y) - dot n 0 * 256 ^ Z.of_nat y.
Proof.
  intros Hn y. induction y as [|y IH]; intros Hy.
  { cbn [cols1]. rewrite take_0. change (be_val []) with 0. change (256 ^ Z.of_nat 0) with 1. ring. }
  change (cols1 (S n) (S y)) with (256 * cols1 (S n) y + (nth n a 0 * nth y b 0 + dot n (S y))).
  change (cols1 n (S (S y))) with (256 * cols1 n (S y) + dot n (S y)).
  rewrite IH, pow256_S, (take_digit b (S y)) by lia. unfold digit. cbn [Nat.eqb].
  replace (S y - 1)%nat with y by lia. ring.
Qed.
Lemma cols_product n : (S n <= length a)%nat ->
  cols2 n * 256 ^ zlen b + cols1 (S n) (length b) = be_val (take (S n) a) * be_val b.
Proof.
  induction n as [|n IH]; intros Hn.
  - rewrite cols1_step, take_ge, (take_digit a 1) by lia. change (1 - 1)%nat with 0%nat.
    rewrite take_0. change (be_val []) with 0. unfold digit. cbn [Nat.eqb Nat.sub].
    assert (forall k, cols1 0 k = 0) as -> by (intros k; induction k as [|k IHk]; [done|]; change (256 * cols1 0 k + 0 = 0); lia).
    cbn [cols2 dot]. ring.
  - rewrite cols1_step, (take_ge b), (take_digit a (S (S n))) by lia. unfold digit. cbn [Nat.eqb].
    replace (S (S n) - 1)%nat with (S n) by lia. rewrite Z.mul_add_distr_r, <- (Z.mul_assoc _ 256), (Z.mul_comm 256).
    rewrite Z.mul_assoc, <- IH by lia.
    change (cols2 (S n)) with (256 * cols2 n + dot (S n) 0).
    change (cols1 (S n) (S (length b))) with (256 * cols1 (S n) (length b) + dot (S n) (length b)).
    rewrite (dot_past _ (length b)) by lia. ring.
Qed.

Lemma mul_carry x v y : (x <= 64)%nat -> 0 <= v < 2 ^ 24 ->
  0 <= Z.shiftr (v + dot x y) 8 < 2 ^ 24 /\
  v + dot x y = 256 * Z.shiftr (v + dot x y) 8 + Z.land (v + dot x y) 255.
Proof.
  intros Hx Hv. pose proof (dot_bound x y). rewrite shiftr_8, land_255.
  pose proof (Z.div_mod (v + dot x y) 256). split; [|lia].
  split; [apply Z.div_pos; lia|apply Z.div_lt_upper_bound; lia].
Qed.

Lemma mul_loop1_spec ys : (length a <= 64)%nat -> forall v out, 0 <= v < 2 ^ 24 -> bytes_ok out ->
  let '(v', out') := mul_loop1 ys a b v out in
  0 <= v' < 2 ^ 24 /\ bytes_ok out' /\ length out' = (ys + length out)%nat /\
  v' * 256 ^ zlen out' + be_val out' = (cols1 (length a) ys + v) * 256 ^ zlen out + be_val out.
Proof.
  intros Hl. induction ys as [|y IH]; intros v out Hv Ho; cbn [mul_loop1].
  { split; [done|]. split; [done|]. split; [done|]. cbn [cols1]. ring. }
  rewrite mul_column_spec by lia. destruct (mul_carry (length a) v y Hl Hv) as [Hc Heq].
  set (c := Z.shiftr _ 8) in *. set (d := Z.land _ 255) in *.
  assert (is_byte d) by (subst d; rewrite land_255; auto with in3).
  specialize (IH c (d :: out) Hc (Forall_cons_2 _ _ _ H Ho)). destruct (mul_loop1 y a b c (d :: out)) as [v' out'].
  destruct IH as (I1 & I2 & I3 & I4). split; [done|]. split; [done|]. split; [rewrite I3; cbn; lia|].
  rewrite I4, be_val_cons. cbn [length cols1]. rewrite pow256_S.
  replace (256 * cols1 (length a) y + dot (length a) y + v) with (256 * cols1 (length a) y + (v + dot (length a) y)) by lia.
  rewrite Heq. ring.
Qed.
Lemma mul_loop2_spec xs : (xs <= 64)%nat -> forall v out, 0 <= v < 2 ^ 24 -> bytes_ok out ->
  let '(v', out') := mul_loop2 xs a b v out in
  0 <= v' < 2 ^ 24 /\ bytes_ok out' /\ length out' = (xs + length out)%nat /\
  v' * 256 ^ zlen out' + be_val out' = (cols2 xs + v) * 256 ^ zlen out + be_val out.
Proof.
  intros Hl. induction xs as [|x IH]; intros v out Hv Ho; cbn [mul_loop2].
  { split; [done|]. split; [done|]. split; [done|]. cbn [cols2]. ring. }
  rewrite mul_column_spec by lia. destruct (mul_carry (S x) v 0 Hl Hv) as [Hc Heq].
  set (c := Z.shiftr _ 8) in *. set (d := Z.land _ 255) in *.
  assert (is_byte d) by (subst d; rewrite land_255; auto with in3).
  specialize (IH ltac:(lia) c (d :: out) Hc (Forall_cons_2 _ _ _ H Ho)).
  destruct (mul_loop2 x a b c (d :: out)) as [v' out'].
  destruct IH as (I1 & I2 & I3 & I4). split; [done|]. split; [done|]. split; [rewrite I3; cbn; lia|].
  rewrite I4, be_val_cons. cbn [length]. rewrite pow256_S.
  change (cols2 (S x)) with (256 * cols2 x + dot (S x) 0).
  replace (256 * cols2 x + dot (S x) 0 + v) with (256 * cols2 x + (v + dot (S x) 0)) by lia. rewrite Heq. ring.
Qed.

Lemma mul_loops_product : a <> [] -> (length a <= 64)%nat ->
  let '(v, out) := mul_loop1 (length b) a b 0 [] in
  let '(v', out') := mul_loop2 (length a - 1) a b v out in
  bytes_ok (Z.land v' 255 :: out') /\ length out' = (length a + length b - 1)%nat /\
  be_val (Z.land v' 255 :: out') = be_val a * be_val b.
Proof.
  intros Hne Hl. assert (exists n, length a = S n) as [n La] by (destruct a; [done|eauto]).
  pose proof (mul_loop1_spec (length b) Hl 0 [] ltac:(lia) ltac:(constructor)) as H1.
  destruct (mul_loop1 (length b) a b 0 []) as [v out]. destruct H1 as (B1 & O1 & L1 & V1).
  pose proof (mul_loop2_spec (length a - 1) ltac:(lia) v out B1 O1) as H2.
  destruct (mul_loop2 (length a - 1) a b v out) as [v' out']. destruct H2 as (B2 & O2 & L2 & V2).
  pose proof (cols_product n ltac:(lia)) as Hp. rewrite <- La, take_ge in Hp by lia.
  cbn [length] in L1, V1. change (be_val []) with 0 in V1. change (256 ^ Z.of_nat 0) with 1 in V1.
  replace (length a - 1)%nat with n in * by lia.
  assert (Hv : v' * 256 ^ zlen out' + be_val out' = be_val a * be_val b).
  { rewrite V2, <- Hp. rewrite L1, Nat.add_0_r in *. lia. }
  assert (Hv' : v' < 256).
  { pose proof (be_val_bound _ Ha). pose proof (be_val_bound _ Hb). pose proof (be_val_bound _ O2).
    assert (be_val a * be_val b < 256 ^ zlen a * 256 ^ zlen b) as Hlt by (apply Z.mul_lt_mono_nonneg; lia).
    rewrite <- pow256_add in Hlt. replace (length a + length b)%nat with (S (length out')) in Hlt by lia.
    rewrite pow256_S in Hlt. pose proof (pow256_pos (length out')). nia. }
  rewrite land_255, Z.mod_small by lia. split; [constructor; [unfold is_byte; lia|done]|].
  split; [lia|]. by rewrite be_val_cons.
Qed.
End Mul.

Lemma be_val_drop l n : bytes_ok l -> (n <= length l)%nat -> be_val (drop (length l - n) l) = be_val l mod 256 ^ Z.of_nat n.
Proof.
  intros Hl Hn. rewrite <- (take_drop (length l - n) l) at 3. rewrite be_val_app.
  assert (length (drop (length l - n) l) = n) as Hd by (rewrite length_drop; lia). rewrite Hd.
  rewrite Z.add_comm, Z.mod_add by (pose proof (pow256_pos n); lia).
  symmetry. apply Z.mod_small.
  pose proof (be_val_bound (drop (length l - n) l)) as Hb. rewrite Hd in Hb. apply Hb. by apply Forall_drop.
Qed.

Lemma length_optimize_pos a : a <> [] -> (1 <= length (optimize_len a))%nat.
Proof. intros H. apply optimize_len_nonempty in H. destruct (optimize_len a); [done|cbn; lia]. Qed.

Lemma long_bytes_spec v : 0 <= v < 2 ^ 64 ->
  bytes_ok (optimize_len (long_to_bytes v (replicate 8 0))) /\
  (length (optimize_len (long_to_bytes v (replicate 8 0%Z))) <= 8)%nat /\
  be_val (optimize_len (long_to_bytes v (replicate 8 0))) = v.
Proof.
  intros Hv. rewrite long_to_bytes_spec by done. rewrite optimize_len_val, be_val_be_bytes.
  split; [auto with in3|]. split; [pose proof (optimize_len_length (be_bytes 8 v)) as H; rewrite length_be_bytes in H; done|].
  apply Z.mod_small. done.
Qed.

Lemma big_mul_spec a b max : bytes_ok a -> bytes_ok b -> a <> [] -> b <> [] ->
  (length a <= 64)%nat -> (8 <= max)%nat ->
  bytes_ok (big_mul a b max) /\ (length (big_mul a b max) <= max)%nat /\
  be_val (big_mul a b max) = (be_val a * be_val b) mod 256 ^ Z.of_nat max.
Proof.
  intros Ha Hb Na Nb La Hm. unfold big_mul. rewrite <- (optimize_len_val a), <- (optimize_len_val b).
  pose proof (optimize_len_length a). apply length_optimize_pos in Nb. apply optimize_len_nonempty in Na.
  apply optimize_len_ok in Ha, Hb. set (a' := optimize_len a) in *. set (b' := optimize_len b) in *.
  pose proof (be_val_bound _ Ha) as Ba. pose proof (be_val_bound _ Hb) as Bb.
  assert (be_val a' * be_val b' < 256 ^ Z.of_nat (length a' + length b')) as Hlt
    by (rewrite pow256_add; apply Z.mul_lt_mono_nonneg; lia).
  destruct (length a' + length b' <? 9)%nat eqn:E.
  - apply Nat.ltb_lt in E. assert (1 <= length a')%nat by (destruct a'; [done|cbn; lia]).
    rewrite !bytes_to_long_spec by done.
    replace (length a' - 8)%nat with 0%nat by lia. replace (length b' - 8)%nat with 0%nat by lia. rewrite !drop_0.
    pose proof (Z.pow_le_mono_r 256 (Z.of_nat (length a' + length b')) 8 ltac:(lia) ltac:(lia)) as H8.
    change (256 ^ 8) with (2 ^ 64) in H8. rewrite u64_small by nia.
    destruct (long_bytes_spec (be_val a' * be_val b')) as (H1 & H2 & H3); [nia|].
    split; [done|]. split; [lia|]. rewrite H3. symmetry. apply Z.mod_small.
    pose proof (Z.pow_le_mono_r 256 8 (Z.of_nat max)). change (256 ^ 8) with (2 ^ 64) in *. nia.
  - pose proof (mul_loops_product a' b' Ha Hb Na ltac:(lia)) as Hp.
    destruct (mul_loop1 (length b') a' b' 0 []) as [v out]. destruct (mul_loop2 (length a' - 1) a' b' v out) as [v' out'].
    destruct Hp as (P1 & _ & P3). rewrite <- P3. set (p := Z.land v' 255 :: out') in *.
    rewrite <- (optimize_len_val p). apply optimize_len_ok in P1. set (q := optimize_len p) in *.
    destruct (max <? length q)%nat eqn:Eq.
    + apply Nat.ltb_lt in Eq. split; [by apply Forall_drop|]. split; [rewrite length_drop; lia|].
      apply be_val_drop; [done|lia].
    + apply Nat.ltb_ge in Eq. split; [done|]. split; [done|]. symmetry. apply Z.mod_small.
      pose proof (be_val_bound _ P1). pose proof (Z.pow_le_mono_r 256 (zlen q) (Z.of_nat max)). lia.
Qed.

(** ** Comparison and sign *)
Lemma existsb_nonzero_val l : bytes_ok l ->
  existsb (fun x => negb (x =? 0)) l = negb (be_val l =? 0).
Proof.
  induction l as [|x t IH]; intros Hok; [done|]. inversion_clear Hok as [|? ? Hx Ht].
  cbn [existsb]. rewrite IH, be_val_cons by done.
  pose proof (be_val_bound t Ht). pose proof (pow256_pos (length t)). unfold is_byte in Hx.
  destruct (Z.eqb_spec x 0) as [->|Hne]; cbn [negb orb]; [done|].
  symmetry. apply negb_true_iff, Z.eqb_neq. nia.
Qed.
Lemma be_val_split l n : bytes_ok l -> (n <= length l)%nat ->
  be_val l = be_val (take n l) * 256 ^ Z.of_nat (length l - n) + be_val (drop n l) /\
  0 <= be_val (drop n l) < 256 ^ Z.of_nat (length l - n) /\ 0 <= be_val (take n l).
Proof.
  intros Hl Hn. pose proof (be_val_bound (drop n l) (Forall_drop _ _ _ Hl)) as Hb.
  rewrite length_drop in Hb. split; [|split; [done|apply be_val_pos; by apply Forall_take]].
  rewrite <- (take_drop n l) at 1. rewrite be_val_app, length_drop. done.
Qed.
Lemma big_cmp_spec a b : bytes_ok a -> bytes_ok b ->
  (big_cmp a b < 0 <-> be_val a < be_val b) /\ (big_cmp a b = 0 <-> be_val a = be_val b) /\
  (0 < big_cmp a b <-> be_val b < be_val a).
Proof.
  intros Ha Hb. unfold big_cmp.
  destruct (Nat.eqb_spec (length a) (length b)) as [E|E].
  { pose proof (memcmp_spec a b Ha Hb E). lia. }
  destruct (Nat.ltb_spec (length b) (length a)) as [L|L].
  - destruct (be_val_split a (length a - length b) Ha ltac:(lia)) as (S1 & S2 & S3).
    replace (length a - (length a - length b))%nat with (length b) in * by lia.
    rewrite existsb_nonzero_val by by apply Forall_take. pose proof (be_val_bound b Hb).
    destruct (Z.eqb_spec (be_val (take (length a - length b) a)) 0) as [Z0|Z0]; cbn [negb].
    + rewrite S1, Z0. pose proof (memcmp_spec (drop (length a - length b) a) b (Forall_drop _ _ _ Ha) Hb
        ltac:(rewrite length_drop; lia)). lia.
    + nia.
  - destruct (be_val_split b (length b - length a) Hb ltac:(lia)) as (S1 & S2 & S3).
    replace (length b - (length b - length a))%nat with (length a) in * by lia.
    rewrite existsb_nonzero_val by by apply Forall_take. pose proof (be_val_bound a Ha).
    destruct (Z.eqb_spec (be_val (take (length b - length a) b)) 0) as [Z0|Z0]; cbn [negb].
    + rewrite S1, Z0. pose proof (memcmp_spec a (drop (length b - length a) b) Ha (Forall_drop _ _ _ Hb)
        ltac:(rewrite length_drop; lia)). lia.
    + nia.
Qed.

(** A decidable fact about bytes is checked on all of them. *)
Lemma byte_forall (P : Z -> bool) : forallb P (map Z.of_nat (seq 0 256)) = true -> forall x, is_byte x -> P x = true.
Proof.
  intros H x Hx. rewrite forallb_forall in H. apply H, in_map_iff. unfold is_byte in Hx. exists (Z.to_nat x).
  split; [lia|]. apply in_seq. lia.
Qed.
Lemma lxor_255 x : is_byte x -> Z.lxor x 255 = 255 - x.
Proof. intros Hx. apply Z.eqb_eq. revert x Hx. apply byte_forall. vm_compute. done. Qed.
Lemma big_sign_loop_spec val : bytes_ok val -> forall n rest m t, (n <= length val)%nat -> length m = n ->
  bytes_ok t -> 0 <= rest ->
  let r := big_sign_loop n val (m ++ t) rest in
  bytes_ok r /\ length r = (n + length t)%nat /\
  be_val r = (256 ^ Z.of_nat n - 1 - be_val (take n val) + rest) mod 256 ^ Z.of_nat n * 256 ^ zlen t + be_val t.
Proof.
  intros Hv n. induction n as [|n IH]; intros rest m t Hn Hm Ht Hr; cbn [big_sign_loop].
  { destruct m; [|done]. cbn [app]. cbv zeta. change (256 ^ Z.of_nat 0) with 1. rewrite Z.mod_1_r.
    split; [done|]. split; [done|]. ring. }
  destruct (split_last m n Hm) as (m0 & x & -> & Hm0).
  rewrite <- app_assoc, insert_app_r_alt, Hm0, Nat.sub_diag by lia. cbn [app insert list_insert].
  pose proof (nth_ok val n Hv) as Hx. rewrite lxor_255, land_255, shiftr_8 by done. unfold is_byte in Hx.
  set (c := rest + (255 - nth n val 0)).
  destruct (IH (c / 256) m0 (c mod 256 :: t)) as (H1 & H2 & H3);
    [lia|done|constructor; auto with in3|subst c; apply Z.div_pos; lia|].
  split; [done|]. split; [rewrite H2; cbn; lia|]. rewrite H3, be_val_digit_step by auto with in3. f_equal. f_equal.
  rewrite pow256_S, (take_digit val (S n)) by lia. unfold digit. cbn [Nat.eqb]. replace (S n - 1)%nat with n by lia.
  rewrite <- (mod_mul_split (c mod 256) (256 ^ Z.of_nat n - 1 - be_val (take n val) + c / 256) 256);
    [|apply mod256_byte|apply pow256_pos].
  f_equal. pose proof (Z.div_mod c 256). subst c. lia.
Qed.
Lemma big_sign_spec val : bytes_ok val -> (length val <= 32)%nat ->
  exists r, big_sign val = Some r /\ bytes_ok r /\ length r = length val /\
  be_val r = (- be_val val) mod 256 ^ zlen val.
Proof.
  intros Hv Hl. unfold big_sign. destruct (Nat.ltb_spec 32 (length val)) as [|_]; [lia|].
  destruct (big_sign_loop_spec val Hv (length val) 1 val []) as (H1 & H2 & H3); [done|done|constructor|lia|].
  rewrite app_nil_r in *. eexists. split; [done|]. split; [done|]. split; [rewrite H2; cbn; lia|].
  rewrite H3, take_ge by lia. change (be_val []) with 0. cbn [length]. change (256 ^ Z.of_nat 0) with 1.
  rewrite Z.mul_1_r, Z.add_0_r.
  replace (256 ^ zlen val - 1 - be_val val + 1) with (- be_val val + 1 * 256 ^ zlen val) by lia.
  apply Z.mod_add. pose proof (pow256_pos (length val)). lia.
Qed.

(** ** Division *)
Lemma mp_export_loop_spec fuel : forall v acc, 0 <= v < 256 ^ Z.of_nat fuel -> bytes_ok acc ->
  bytes_ok (mp_export_loop fuel v acc) /\ be_val (mp_export_loop fuel v acc) = v * 256 ^ zlen acc + be_val acc /\
  (forall k : nat, v < 256 ^ Z.of_nat k -> (length (mp_export_loop fuel v acc) <= k + length acc)%nat).
Proof.
  induction fuel as [|f IH]; intros v acc Hv Ha; cbn [mp_export_loop].
  { change (256 ^ Z.of_nat 0) with 1 in Hv. replace v with 0 by lia. split; [done|split; [lia|intros; lia]]. }
  destruct (Z.eqb_spec v 0) as [->|Hne]; [split; [done|split; [lia|intros; lia]]|].
  rewrite pow256_S in Hv. destruct (IH (v / 256) (v mod 256 :: acc)) as (H1 & H2 & H3).
  { split; [apply Z.div_pos; lia|apply Z.div_lt_upper_bound; lia]. }
  { constructor; auto with in3. }
  split; [done|]. split.
  - rewrite H2, be_val_cons. cbn [length]. rewrite pow256_S. pose proof (Z.div_mod v 256 ltac:(lia)) as E.
    rewrite E at 3. ring.
  - intros [|k] Hk; [change (256 ^ Z.of_nat 0) with 1 in Hk; lia|]. rewrite pow256_S in Hk.
    specialize (H3 k ltac:(apply Z.div_lt_upper_bound; lia)). cbn [length] in H3. lia.
Qed.
Lemma export1_spec v : 0 <= v ->
  bytes_ok (export1 v) /\ be_val (export1 v) = v /\
  (forall k : nat, (1 <= k)%nat -> v < 256 ^ Z.of_nat k -> (length (export1 v) <= k)%nat).
Proof.
  intros Hv. unfold export1, mp_export. set (n := Z.to_nat (Z.log2 v / 8 + 1)).
  assert (v < 256 ^ Z.of_nat n) as Hb.
  { destruct (Z.eq_dec v 0) as [->|Hne]; [apply pow256_pos|].
    pose proof (Z.log2_spec v ltac:(lia)) as [_ Hlt]. pose proof (Z.log2_nonneg v).
    assert (0 <= Z.log2 v / 8) by (apply Z.div_pos; lia). rewrite pow256_pow2.
    eapply Z.lt_le_trans; [exact Hlt|]. apply Z.pow_le_mono_r; [lia|].
    subst n. rewrite Z2Nat.id by lia. pose proof (Z.div_mod (Z.log2 v) 8). pose proof (Z.mod_pos_bound (Z.log2 v) 8). lia. }
  destruct (mp_export_loop_spec n v [] (conj Hv Hb) ltac:(constructor)) as (H1 & H2 & H3).
  cbn [length] in H2, H3. change (be_val []) with 0 in H2. rewrite Z.mul_1_r, Z.add_0_r in H2.
  destruct (mp_export_loop n v []) as [|x t] eqn:E.
  - cbn in H2. split; [by repeat constructor|]. split; [by rewrite be_val_single|]. intros; cbn; lia.
  - split; [done|]. split; [done|]. intros k Hk Hlt. specialize (H3 k Hlt). lia.
Qed.

Lemma divmod_loop_spec ud n : 0 < ud < 2 ^ 56 -> bytes_ok n -> forall ur q v, 0 <= ur < ud -> bytes_ok q ->
  v = be_val q * ud + ur ->
  let r := divmod_loop n ud ur q in
  bytes_ok r.1 /\ (length r.1 <= length q + length n)%nat /\ 0 <= r.2 < ud /\
  v * 256 ^ zlen n + be_val n = be_val r.1 * ud + r.2.
Proof.
  intros Hud Hn. induction n as [|x t IH]; intros ur q v Hur Hq ->; cbn [divmod_loop fst snd].
  { cbn [length]. change (be_val []) with 0. change (256 ^ Z.of_nat 0) with 1. cbv zeta.
    split; [done|]. split; [lia|]. split; [done|]. ring. }
  inversion_clear Hn as [|? ? Hx Ht]. specialize (IH Ht).
  assert (Z.lor (u64 (Z.shiftl ur 8)) x = ur * 256 + x) as ->.
  { unfold is_byte in Hx. rewrite Z.shiftl_mul_pow2, u64_small by lia. apply (lor_mul_add ur x 8); lia. }
  rewrite be_val_cons. cbn [length]. rewrite pow256_S. unfold is_byte in Hx. set (w := ur * 256 + x).
  assert (forall q' ur', bytes_ok q' -> (length q' <= S (length q))%nat -> 0 <= ur' < ud ->
    be_val q * 256 * ud + w = be_val q' * ud + ur' ->
    let r := divmod_loop t ud ur' q' in
    bytes_ok r.1 /\ (length r.1 <= length q + S (length t))%nat /\ 0 <= r.2 < ud /\
    (be_val q * ud + ur) * (256 * 256 ^ zlen t) + (x * 256 ^ zlen t + be_val t) = be_val r.1 * ud + r.2) as Hstep.
  { intros q' ur' Hq' Hl' Hur' Heq. destruct (IH ur' q' _ Hur' Hq' eq_refl) as (I1 & I2 & I3 & I4).
    split; [done|]. split; [lia|]. split; [done|]. rewrite <- I4, <- Heq. subst w. ring. }
  destruct (Z.ltb_spec w ud) as [Hlt|Hge].
  - destruct (Nat.eqb_spec (length q) 0) as [E|E].
    + destruct q; [|done]. apply Hstep; [done|cbn; lia|lia|]. cbn. lia.
    + apply Hstep; [apply Forall_app; split; [done|by repeat constructor]|rewrite length_snoc; lia|lia|].
      rewrite be_val_snoc. ring.
  - assert (0 <= w / ud < 256) as Hd by (split; [apply Z.div_pos; lia|apply Z.div_lt_upper_bound; lia]).
    apply Hstep; [apply Forall_app; split; [done|]|rewrite length_snoc; lia|apply Z.mod_pos_bound; lia|].
    { constructor; [apply u8_byte|constructor]. }
    rewrite be_val_snoc, u8_small by done. pose proof (Z.div_mod w ud). lia.
Qed.

Section Division.
Context `{MpInt}.

Lemma bytes_to_long_short d : bytes_ok d -> (length d <= 8)%nat -> bytes_to_long d (zlen d) = be_val d.
Proof. intros Hd Hl. rewrite bytes_to_long_spec by done. replace (length d - 8)%nat with 0%nat by lia. by rewrite drop_0. Qed.
Lemma be_val_lt_pow l n : bytes_ok l -> (length l <= n)%nat -> be_val l < 256 ^ Z.of_nat n.
Proof. intros Hl Hn. pose proof (be_val_bound l Hl). pose proof (Z.pow_le_mono_r 256 (zlen l) (Z.of_nat n)). lia. Qed.

Lemma export1_le v a : 0 <= v <= be_val a -> bytes_ok a -> a <> [] -> (length (export1 v) <= length a)%nat.
Proof.
  intros Hv Ha Hne. destruct (export1_spec v) as (_ & _ & H2); [lia|]. apply H2; [destruct a; [done|cbn; lia]|].
  pose proof (be_val_bound a Ha). lia.
Qed.
Lemma div_le v d : 0 <= v -> 0 < d -> 0 <= v / d <= v.
Proof. intros. split; [apply Z.div_pos; lia|]. apply Z.div_le_upper_bound; nia. Qed.
Lemma mod_le v d : 0 <= v -> 0 < d -> 0 <= v mod d <= v.
Proof. intros. split; [apply Z.mod_pos_bound; lia|]. apply Z.mod_le; lia. Qed.

Lemma big_divmod_spec n d : bytes_ok n -> bytes_ok d -> n <> [] -> 0 < be_val d ->
  exists q r, big_divmod n d = Some (q, r) /\ bytes_ok q /\ bytes_ok r /\
    (length q <= length n \/ length q <= 8)%nat /\ (length r <= length n \/ length r <= 8)%nat /\
    be_val q = be_val n / be_val d /\ be_val r = be_val n mod be_val d.
Proof.
  intros Hn Hd Hne Hpos. unfold big_divmod. rewrite <- (optimize_len_val n), <- (optimize_len_val d) in *.
  pose proof (optimize_len_length n) as Ln. apply optimize_len_nonempty in Hne.
  apply optimize_len_ok in Hn, Hd. set (n' := optimize_len n) in *. set (d' := optimize_len d) in *.
  pose proof (be_val_pos n' Hn). pose proof (div_le (be_val n') (be_val d')). pose proof (mod_le (be_val n') (be_val d')).
  destruct (Nat.ltb_spec (length d') 8) as [Ld|Ld].
  - rewrite (bytes_to_long_short d') by (done || lia).
    pose proof (be_val_lt_pow d' 7 Hd ltac:(lia)) as Bd. change (256 ^ Z.of_nat 7) with (2 ^ 56) in Bd.
    destruct (Z.eqb_spec (be_val d') 0) as [|_]; [lia|].
    destruct (Nat.ltb_spec (length n') 9) as [L9|L9].
    + rewrite (bytes_to_long_short n') by (done || lia).
      pose proof (be_val_lt_pow n' 8 Hn ltac:(lia)) as Bn. change (256 ^ Z.of_nat 8) with (2 ^ 64) in Bn.
      destruct (long_bytes_spec (be_val n' / be_val d')) as (Q1 & Q2 & Q3); [lia|].
      destruct (long_bytes_spec (be_val n' mod be_val d')) as (R1 & R2 & R3); [lia|].
      eexists _, _. split; [done|]. auto 10.
    + destruct (divmod_loop_spec (be_val d') n' ltac:(lia) Hn 0 [] 0) as (D1 & D2 & D3 & D4); [lia|constructor|done|].
      destruct (divmod_loop n' (be_val d') 0 []) as [q ur]. cbn [fst snd] in *.
      destruct (long_bytes_spec ur) as (R1 & R2 & R3); [lia|].
      eexists _, _. split; [done|]. split; [done|]. split; [done|]. split; [left; cbn in D2; lia|]. split; [auto|].
      rewrite R3. split; [apply Z.div_unique with ur; lia|apply Z.mod_unique with (be_val q); lia].
  - rewrite mp_div_spec by lia. eexists _, _. split; [done|].
    destruct (export1_spec (be_val n' / be_val d')) as (Q1 & Q2 & _); [lia|].
    destruct (export1_spec (be_val n' mod be_val d')) as (R1 & R2 & _); [lia|].
    pose proof (export1_le (be_val n' / be_val d') n' ltac:(lia) Hn Hne).
    pose proof (export1_le (be_val n' mod be_val d') n' ltac:(lia) Hn Hne).
    split; [done|]. split; [done|]. split; [lia|]. split; [lia|]. done.
Qed.

Lemma take_drop_last (a : list Z) : (1 <= length a)%nat ->
  a = take (length a - 1) a ++ [nth (length a - 1) a 0].
Proof.
  intros Hl. destruct (split_last a (length a - 1)) as (m & x & E & Hm); [lia|]. rewrite E at 1.
  rewrite <- Hm. rewrite E at 1 2. rewrite take_app_length, app_nth2, Nat.sub_diag by lia. done.
Qed.

(** Common trailing zero bytes cancel in the quotient. *)
Lemma strip_zeros_spec fuel : forall a b, bytes_ok a -> bytes_ok b -> b <> [] -> a <> [] ->
  let '(a', b') := strip_zeros fuel a b in
  bytes_ok a' /\ bytes_ok b' /\ a' <> [] /\ b' <> [] /\ (length a' <= length a)%nat /\ (length b' <= length b)%nat /\
  (be_val b' = 0 <-> be_val b = 0) /\ be_val a' / be_val b' = be_val a / be_val b /\
  (optimize_len b = b -> optimize_len b' = b') /\ (optimize_len a = a -> optimize_len a' = a').
Proof.
  assert (forall (l : list Z), (1 < length l)%nat -> take (length l - 1) l <> []) as Hnt.
  { intros l Hl E. apply (f_equal length) in E. rewrite length_take in E. cbn in E. lia. }
  assert (forall l, (1 < length l)%nat -> optimize_len l = l -> optimize_len (take (length l - 1) l) = take (length l - 1) l) as Hot.
  { intros [|x [|y t]] Hl Eo; [done|done|]. rewrite optimize_len_cons in Eo. destruct (x =? 0) eqn:E.
    - exfalso. pose proof (optimize_len_length (y :: t)) as L. rewrite Eo in L. cbn in L. lia.
    - cbn [length]. replace (S (S (length t)) - 1)%nat with (S (length t)) by lia. cbn [take].
      destruct (take (length t) (y :: t)) eqn:Et; [done|]. by rewrite optimize_len_cons, E. }
  induction fuel as [|f IH]; intros a b Ha Hb Nb Na; cbn [strip_zeros]; [by auto 15|].
  destruct (_ && _ && _ && _) eqn:E; [|by auto 15].
  apply andb_prop in E as [E E4]. apply andb_prop in E as [E E3]. apply andb_prop in E as [E1 E2].
  apply Nat.ltb_lt in E1, E2. apply Z.eqb_eq in E3, E4.
  specialize (IH (take (length a - 1) a) (take (length b - 1) b) (Forall_take _ _ _ Ha) (Forall_take _ _ _ Hb)
    (Hnt b E2) (Hnt a E1)).
  destruct (strip_zeros _ _ _) as [a' b']. destruct IH as (I1 & I2 & I3 & I4 & I5 & I6 & I7 & I8 & I9 & I10).
  rewrite length_take in I5, I6. pose proof (take_drop_last a ltac:(lia)) as Ta. pose proof (take_drop_last b ltac:(lia)) as Tb.
  rewrite E3 in Ta. rewrite E4 in Tb.
  assert (be_val a = be_val (take (length a - 1) a) * 256) as Va by (rewrite Ta at 1; rewrite be_val_snoc; lia).
  assert (be_val b = be_val (take (length b - 1) b) * 256) as Vb by (rewrite Tb at 1; rewrite be_val_snoc; lia).
  split; [done|]. split; [done|]. split; [done|]. split; [done|]. split; [lia|]. split; [lia|]. split; [rewrite I7; lia|].
  split; [|split; auto]. rewrite I8, Va, Vb. destruct (Z.eq_dec (be_val (take (length b - 1) b)) 0) as [->|Hnz].
  - by rewrite !Z.div_0_r.
  - by rewrite Z.div_mul_cancel_r by lia.
Qed.

(** An optimised number is zero exactly when it is the single byte 0. *)
Lemma optimized_zero b : bytes_ok b -> b <> [] -> optimize_len b = b ->
  ((length b =? 0)%nat || ((length b =? 1)%nat && (rd b 0 =? 0))) = (be_val b =? 0).
Proof.
  intros Hb Hne Ho. destruct (optimize_len_head b) as [Hl|(x & t & Hx & Hnz)]; rewrite Ho in *.
  - destruct b as [|x [|? ?]]; [done| |cbn in Hl; lia]. cbn. done.
  - subst b. rewrite be_val_cons. inversion_clear Hb as [|? ? H1 H2]. unfold is_byte in H1.
    pose proof (be_val_bound t H2). pose proof (pow256_pos (length t)).
    change (rd (x :: t) 0) with x. cbn [length Nat.eqb orb].
    rewrite (proj2 (Z.eqb_neq x 0)), andb_false_r by done. symmetry. apply Z.eqb_neq. nia.
Qed.
Lemma optimize_len_idem a : optimize_len (optimize_len a) = optimize_len a.
Proof.
  induction a as [|x [|y t] IH]; [done|done|]. rewrite optimize_len_cons. destruct (x =? 0) eqn:E; [done|].
  by rewrite optimize_len_cons, E.
Qed.

(** Unsigned division; [x / 0 = 0] as in the yellow paper (and in Rocq). *)
Lemma big_div_spec a b : bytes_ok a -> bytes_ok b -> a <> [] -> b <> [] ->
  exists q, big_div a b false = Some q /\ bytes_ok q /\ (length q <= length a \/ length q <= 8)%nat /\
    be_val q = be_val a / be_val b.
Proof.
  intros Ha Hb Na Nb. unfold big_div. rewrite <- (optimize_len_val a), <- (optimize_len_val b).
  pose proof (optimize_len_length a) as La. pose proof (optimize_len_idem b) as Ib.
  apply optimize_len_nonempty in Na, Nb. apply optimize_len_ok in Ha, Hb.
  pose proof (strip_zeros_spec (length a) _ _ Ha Hb Nb Na) as Hs.
  destruct (strip_zeros _ _ _) as [a' b']. destruct Hs as (S1 & S2 & S3 & S4 & S5 & S6 & S7 & S8 & S9 & _).
  rewrite optimized_zero by auto. rewrite <- S8. destruct (Z.eqb_spec (be_val b') 0) as [E|E].
  - exists [0]. split; [done|]. split; [by repeat constructor|]. split; [right; cbn; lia|]. rewrite E, Z.div_0_r. done.
  - pose proof (be_val_pos b' S2). destruct (big_divmod_spec a' b' S1 S2 S3 ltac:(lia)) as (q & r & D1 & D2 & D3 & D4 & D5 & D6 & D7).
    rewrite D1. exists q. split; [done|]. split; [done|]. split; [lia|done].
Qed.

Definition pow2_ok (b : Z) : bool :=
  negb (Z.land b (b - 1) =? 0) || (b =? 0)
  || forallb (fun x => Z.land x (b - 1) =? x mod b) (map Z.of_nat (seq 0 256)).
Lemma pow2_byte b x : is_byte b -> is_byte x -> b <> 0 -> Z.land b (b - 1) = 0 ->
  Z.land x (b - 1) = x mod b /\ (b | 256).
Proof.
  intros Hb Hx Hnz Hp. split.
  - assert (pow2_ok b = true) as Ho by (clear Hnz Hp; revert b Hb; apply byte_forall; vm_compute; done).
    unfold pow2_ok in Ho. rewrite Hp in Ho. rewrite (proj2 (Z.eqb_neq b 0)) in Ho by done. cbn [negb orb Z.eqb] in Ho.
    apply Z.eqb_eq. revert x Hx. by apply byte_forall.
  - assert ((negb (Z.land b (b - 1) =? 0) || (b =? 0) || (256 mod b =? 0)) = true) as Ho
      by (clear Hnz Hp; revert b Hb; apply byte_forall; vm_compute; done).
    rewrite Hp, (proj2 (Z.eqb_neq b 0)) in Ho by done. cbn [negb orb Z.eqb] in Ho. apply Z.eqb_eq in Ho.
    by apply Z.mod_divide.
Qed.
Lemma forallb_zero_val l : bytes_ok l -> forallb (fun x => x =? 0) l = true -> be_val l = 0.
Proof.
  intros Hl. induction Hl as [|x t Hx Ht IH]; [done|]. cbn [forallb]. intros [E1 E2]%andb_prop.
  apply Z.eqb_eq in E1. rewrite be_val_cons, IH by done. lia.
Qed.

Lemma mod_prefix hi x rest p b : 0 < b -> (b | 256) -> 0 <= rest < p ->
  (hi * (256 * p) + (x * p + rest)) mod (b * p) = (x mod b) * p + rest.
Proof.
  intros Hb [k Hk] Hr. rewrite Hk. pose proof (Z.div_mod x b ltac:(lia)) as E. rewrite E at 1.
  replace (hi * (k * b * p) + ((b * (x / b) + x mod b) * p + rest))
    with ((x mod b) * p + rest + (hi * k + x / b) * (b * p)) by ring.
  rewrite Z.mod_add by nia. apply Z.mod_small. pose proof (Z.mod_pos_bound x b ltac:(lia)). nia.
Qed.

(** Unsigned remainder; a remainder by 0 is 0. *)
Lemma big_mod_spec a b : bytes_ok a -> bytes_ok b -> a <> [] -> b <> [] ->
  exists r, big_mod a b false = Some r /\ bytes_ok r /\ (length r <= length a \/ length r <= 8)%nat /\
    be_val r = if be_val b =? 0 then 0 else be_val a mod be_val b.
Proof.
  intros Ha Hb Na Nb. unfold big_mod. rewrite <- (optimize_len_val a), <- (optimize_len_val b).
  pose proof (optimize_len_length a) as La. pose proof (optimize_len_idem b) as Ib. pose proof (optimize_len_head b) as Hh.
  apply optimize_len_nonempty in Na, Nb. apply optimize_len_ok in Ha, Hb.
  set (a' := optimize_len a) in *. set (b' := optimize_len b) in *. cbn [negb]. rewrite andb_true_r.
  pose proof (be_val_pos b' Hb) as Pb. pose proof (be_val_pos a' Ha) as Pa.
  destruct (Nat.ltb_spec (length a') (length b')) as [L|L].
  - exists a'. split; [done|]. split; [done|]. split; [lia|].
    destruct Hh as [Hl|(x & t & Hx & Hnz)]; [destruct a'; [done|cbn in L; lia]|].
    rewrite Hx in *. inversion Hb as [|? ? Hxb Ht]; subst. unfold is_byte in Hxb. rewrite be_val_cons in *.
    pose proof (be_val_bound a' Ha). pose proof (be_val_bound t Ht). pose proof (pow256_pos (length t)).
    pose proof (Z.pow_le_mono_r 256 (zlen a') (zlen t)). cbn [length] in L.
    destruct (Z.eqb_spec (x * 256 ^ zlen t + be_val t) 0); [nia|]. rewrite Z.mod_small; [done|]. nia.
  - rewrite optimized_zero by done. destruct (Z.eqb_spec (be_val b') 0) as [E|E].
    { exists [0]. split; [done|]. split; [by repeat constructor|]. split; [right; cbn; lia|done]. }
    destruct (_ && _) eqn:Ep.
    + apply andb_prop in Ep as [E1 E2]. apply Z.eqb_eq in E1. destruct b' as [|b0 bt] eqn:Eb; [done|].
      change (rd (b0 :: bt) 0) with b0 in *. cbn [drop] in E2. rewrite skipn_O in E2. cbn [length] in *.
      inversion Hb as [|? ? Hb0 Hbt]; subst. pose proof (forallb_zero_val bt Hbt E2) as Zt.
      rewrite be_val_cons, Zt, Z.add_0_r in *. assert (b0 <> 0) by (intros ->; lia).
      set (k := (length a' - S (length bt))%nat) in *.
      pose proof (nth_ok a' k Ha) as Hx. destruct (pow2_byte b0 (nth k a' 0) Hb0 Hx ltac:(done) E1) as [Hland Hdvd].
      eexists. split; [done|]. rewrite Hland.
      assert (is_byte (nth k a' 0 mod b0)).
      { unfold is_byte in *. pose proof (Z.mod_pos_bound (nth k a' 0) b0). lia. }
      split; [constructor; [done|by apply Forall_drop]|]. split; [left; cbn [length]; rewrite length_drop; lia|].
      rewrite be_val_cons, length_drop. replace (length a' - (k + 1))%nat with (length bt) by lia.
      destruct (be_val_split a' (k + 1) Ha ltac:(lia)) as (S1 & S2 & S3).
      replace (length a' - (k + 1))%nat with (length bt) in * by lia.
      rewrite S1, (take_digit a' (k + 1)) by lia. unfold digit. replace (k + 1 =? 0)%nat with false by (symmetry; apply Nat.eqb_neq; lia).
      replace (k + 1 - 1)%nat with k by lia.
      replace ((be_val (take k a') * 256 + nth k a' 0) * 256 ^ zlen bt + be_val (drop (k + 1) a'))
        with (be_val (take k a') * (256 * 256 ^ zlen bt) + (nth k a' 0 * 256 ^ zlen bt + be_val (drop (k + 1) a'))) by ring.
      unfold is_byte in Hb0. rewrite mod_prefix by (done || lia). done.
    + destruct (big_divmod_spec a' b' Ha Hb Na ltac:(lia)) as (q & r & D1 & D2 & D3 & D4 & D5 & D6 & D7).
      rewrite D1. exists r. split; [done|]. split; [done|]. split; [lia|done].
Qed.
End Division.

(** ** Results are never empty *)
Lemma nonempty_length {A} (l : list A) : (0 < length l)%nat -> l <> [].
Proof. by destruct l; cbn [length]; [lia|]. Qed.
Lemma long_bytes_nonempty v : optimize_len (long_to_bytes v (replicate 8 0)) <> [].
Proof. apply optimize_len_nonempty. by rewrite long_to_bytes_spec. Qed.
Lemma drop_tail_nonempty (p : list Z) n : p <> [] -> (0 < n)%nat ->
  (if (n <? length p)%nat then drop (length p - n) p else p) <> [].
Proof.
  intros Hp Hn. destruct (Nat.ltb_spec n (length p)); [|done]. apply nonempty_length. rewrite length_drop. lia.
Qed.
Lemma export1_nonempty `{MpInt} v : export1 v <> [].
Proof. unfold export1. by destruct (mp_export v). Qed.
Lemma big_add_nonempty a b max : bytes_ok a -> bytes_ok b -> big_add a b max <> [].
Proof.
  intros Ha Hb. unfold big_add. set (l := if negb (max =? 0)%nat && _ then _ else _).
  assert (0 < l)%nat as Hl by (subst l; bool_cases).
  destruct (big_add_loop_spec _ _ (optimize_len_ok a Ha) (optimize_len_ok b Hb) l (length (optimize_len a)) (length (optimize_len b)) 0 [])
    as (_ & L & _); [lia|lia|lia|constructor|]. apply nonempty_length. rewrite L. cbn [length]. lia.
Qed.
Lemma big_sub_loop_length n : forall a b la lb borrow out, length (big_sub_loop n a b la lb borrow out).1 = (n + length out)%nat.
Proof. induction n as [|n IH]; intros; cbn [big_sub_loop fst]; [done|]. rewrite IH. cbn [length]. lia. Qed.
Lemma big_sub_nonempty a b : big_sub a b <> [].
Proof.
  unfold big_sub. set (l := if (32 <? _)%nat then _ else _). assert (0 < l)%nat as Hl by (subst l; bool_cases).
  pose proof (big_sub_loop_length l (optimize_len a) (optimize_len b) (length (optimize_len a)) (length (optimize_len b)) 0 []) as L.
  destruct (big_sub_loop _ _ _ _ _ _ _) as [out borrow]. cbn [fst length] in L. apply nonempty_length.
  destruct (_ && _); [rewrite length_app|]; lia.
Qed.
Lemma big_mul_nonempty a b max : (0 < max)%nat -> big_mul a b max <> [].
Proof.
  intros Hm. unfold big_mul. destruct (_ <? 9)%nat; [apply long_bytes_nonempty|].
  destruct (mul_loop1 _ _ _ _ _) as [v o]. destruct (mul_loop2 _ _ _ _ _) as [v' o'].
  apply drop_tail_nonempty; [by apply optimize_len_nonempty|done].
Qed.
(** The loop leaves the quotient empty only when it is 0, which takes a dividend shorter than the
    ones it is called with. *)
Lemma big_divmod_nonempty `{MpInt} n d q r : bytes_ok n -> bytes_ok d -> 0 < be_val d -> big_divmod n d = Some (q, r) -> q <> [] /\ r <> [].
Proof.
  intros Hn Hd Hpos. unfold big_divmod. rewrite <- (optimize_len_val d) in Hpos. pose proof (optimize_len_head n) as Hh.
  apply optimize_len_ok in Hn, Hd. set (n' := optimize_len n) in *. set (d' := optimize_len d) in *.
  destruct (Nat.ltb_spec (length d') 8) as [Ld|Ld].
  2: { destruct (mp_div (be_val n') (be_val d')) as [x y]. intros [<- <-]%(inj Some)%pair_eq. by split; apply export1_nonempty. }
  destruct (Nat.ltb_spec (length n') 9) as [L9|L9].
  { destruct (_ =? 0); [done|]. intros [<- <-]%(inj Some)%pair_eq. split; apply long_bytes_nonempty. }
  rewrite (bytes_to_long_short d') by (done || lia). destruct (Z.eqb_spec (be_val d') 0) as [|_]; [done|].
  pose proof (be_val_lt_pow d' 7 Hd ltac:(lia)) as Bd. change (256 ^ Z.of_nat 7) with (2 ^ 56) in Bd.
  destruct (divmod_loop_spec (be_val d') n' ltac:(lia) Hn 0 [] 0) as (_ & _ & D3 & D4); [lia|constructor|done|].
  destruct (divmod_loop n' (be_val d') 0 []) as [q' ur]. cbn [fst snd] in *. intros [<- <-]%(inj Some)%pair_eq.
  split; [|apply long_bytes_nonempty]. intros ->. change (be_val []) with 0 in D4.
  destruct Hh as [Hh|(x & t & Hx & Hnz)]; [lia|]. rewrite Hx in *. inversion_clear Hn as [|? ? Xb Tb]. rewrite be_val_cons in D4.
  cbn [length] in L9. pose proof (be_val_pos t Tb). pose proof (Z.pow_le_mono_r 256 8 (zlen t)). unfold is_byte in Xb. nia.
Qed.
Lemma big_div_nonempty `{MpInt} a b q : bytes_ok a -> bytes_ok b -> a <> [] -> b <> [] -> big_div a b false = Some q -> q <> [].
Proof.
  intros Ha Hb Na Nb. unfold big_div. pose proof (optimize_len_idem b) as Ib.
  apply optimize_len_nonempty in Na, Nb. apply optimize_len_ok in Ha, Hb.
  pose proof (strip_zeros_spec (length a) _ _ Ha Hb Nb Na) as Hs.
  destruct (strip_zeros _ _ _) as [a' b']. destruct Hs as (S1 & S2 & S3 & S4 & _ & _ & _ & _ & S9 & _).
  rewrite optimized_zero by auto. destruct (Z.eqb_spec (be_val b') 0) as [E|E]; [by intros [= <-]|].
  pose proof (be_val_pos b' S2). destruct (big_divmod a' b') as [[x y]|] eqn:D; [|done]. cbn. intros [= <-].
  by apply (big_divmod_nonempty a' b' x y S1 S2 ltac:(lia)).
Qed.
Lemma big_mod_nonempty `{MpInt} a b r : bytes_ok a -> bytes_ok b -> a <> [] -> b <> [] -> big_mod a b false = Some r -> r <> [].
Proof.
  intros Ha Hb Na Nb. unfold big_mod. pose proof (optimize_len_idem b) as Ib.
  apply optimize_len_nonempty in Na, Nb. apply optimize_len_ok in Ha, Hb. cbn [negb]. rewrite andb_true_r, optimized_zero by auto.
  destruct (_ <? _)%nat; [by intros [= <-]|]. destruct (Z.eqb_spec (be_val (optimize_len b)) 0) as [E|E]; [by intros [= <-]|].
  destruct (_ && _); [by intros [= <-]|]. pose proof (be_val_pos _ Hb).
  destruct (big_divmod _ _) as [[x y]|] eqn:D; [|done]. cbn. intros [= <-]. by eapply (big_divmod_nonempty _ _ x y Ha Hb); [lia|].
Qed.

(** ** Shifts *)
Lemma shl_bits_loop_spec r : 0 <= r < 8 -> forall n m t carry, length m = n -> bytes_ok m -> bytes_ok t ->
  0 <= carry < 2 ^ r ->
  let a := shl_bits_loop n (m ++ t) r carry in
  bytes_ok a /\ length a = (n + length t)%nat /\
  be_val a = (be_val m * 2 ^ r + carry) mod 256 ^ Z.of_nat n * 256 ^ zlen t + be_val t.
Proof.
  intros Hr n. induction n as [|n IH]; intros m t carry Hm Hom Hot Hc; cbn [shl_bits_loop].
  { destruct m; [|done]. cbn [app]. cbv zeta. change (256 ^ Z.of_nat 0) with 1. rewrite Z.mod_1_r.
    split; [done|]. split; [done|]. ring. }
  destruct (split_last m n Hm) as (m0 & x & -> & Hm0). apply Forall_app in Hom as [Hom Hx].
  inversion_clear Hx as [|? ? Hx0 _]. rewrite <- app_assoc. cbn [app].
  rewrite insert_app_r_alt, app_nth2, Hm0, Nat.sub_diag by lia. cbn [nth insert list_insert].
  pose proof (Z.pow_pos_nonneg 2 r). pose proof (Z.pow_le_mono_r 2 r 7). unfold is_byte in Hx0.
  rewrite Z.shiftl_mul_pow2, u64_small, lor_add_mul, land_255, shiftr_8 by (done || nia).
  set (c := x * 2 ^ r + carry).
  destruct (IH m0 (c mod 256 :: t) (c / 256)) as (H1 & H2 & H3);
    [done|done|constructor; auto with in3|split; [apply Z.div_pos; nia|apply Z.div_lt_upper_bound; nia]|].
  split; [done|]. split; [rewrite H2; cbn; lia|]. rewrite H3, be_val_digit_step by auto with in3. f_equal. f_equal.
  rewrite pow256_S, be_val_snoc.
  rewrite <- (mod_mul_split (c mod 256) (be_val m0 * 2 ^ r + c / 256) 256); [|apply mod256_byte|apply pow256_pos].
  f_equal. pose proof (Z.div_mod c 256). subst c. lia.
Qed.

Definition shl_list (r : nat) (s : list Z) : list Z := drop r s ++ replicate (min r (length s)) 0.
Lemma shl_bytes_loop_spec r : (0 < r)%nat -> forall s p,
  shl_bytes_loop (length s) (length p) (p ++ s) r = p ++ shl_list r s.
Proof.
  intros Hr s. unfold shl_list. induction s as [|x s IH]; intros p; cbn [shl_bytes_loop length].
  { by rewrite drop_nil, Nat.min_0_r. }
  rewrite insert_app_r_alt, Nat.sub_diag by lia. cbn [insert list_insert].
  set (y := if (length p + r <? length (p ++ x :: s))%nat then nth (length p + r) (p ++ x :: s) 0 else 0).
  change (p ++ y :: s) with (p ++ [y] ++ s). rewrite app_assoc.
  replace (S (length p)) with (length (p ++ [y])) by apply length_snoc. rewrite IH, <- app_assoc. f_equal. cbn [app].
  subst y. rewrite length_app. cbn [length]. destruct (Nat.ltb_spec (length p + r) (length p + S (length s))) as [L|L].
  - rewrite app_nth2_plus. replace (min r (length s)) with r by lia. replace (min r (S (length s))) with r by lia.
    destruct r as [|r]; [lia|]. cbn [nth drop].
    destruct (lookup_lt_is_Some_2 s r) as [z Hz]; [lia|]. rewrite nth_lookup, Hz. cbn [default].
    by rewrite (drop_S _ _ _ Hz).
  - rewrite !drop_ge by (cbn; lia). replace (min r (length s)) with (length s) by lia.
    by replace (min r (S (length s))) with (S (length s)) by lia.
Qed.
Lemma shl_list_val r s : bytes_ok s ->
  be_val (shl_list r s) = (be_val s * 256 ^ Z.of_nat r) mod 256 ^ zlen s /\ length (shl_list r s) = length s /\
  bytes_ok (shl_list r s).
Proof.
  intros Hs. unfold shl_list. split; [|split; [rewrite length_app, length_drop, length_replicate; lia
    |apply Forall_app; split; [by apply Forall_drop|by apply Forall_replicate]]].
  rewrite be_val_app, be_val_replicate0, Z.add_0_r, length_replicate.
  destruct (Nat.le_gt_cases r (length s)) as [L|L].
  - rewrite Nat.min_l by done. destruct (be_val_split s r Hs L) as (S1 & S2 & S3). rewrite S1.
    rewrite Z.mul_add_distr_r, <- Z.mul_assoc, <- pow256_add. replace (length s - r + r)%nat with (length s) by lia.
    rewrite Z.add_comm, Z.mod_add by (pose proof (pow256_pos (length s)); lia). symmetry. apply Z.mod_small.
    rewrite (pow256_split (length s) (length s - r)) by lia. replace (length s - (length s - r))%nat with r by lia.
    pose proof (pow256_pos r). nia.
  - rewrite drop_ge by lia. change (be_val []) with 0. rewrite (pow256_split r (length s)) by lia.
    rewrite (Z.mul_comm (256 ^ zlen s)), Z.mul_assoc, Z.mod_mul; [done|]. pose proof (pow256_pos (length s)). lia.
Qed.

Lemma shift_split bits : 0 <= bits < 2048 ->
  exists r k : Z, bits mod 8 = r /\ u8 (Z.shiftr (bits - r) 3) = k /\ bits = 8 * k + r /\ 0 <= r < 8 /\ 0 <= k < 256.
Proof.
  intros Hb. exists (bits mod 8), (bits / 8). pose proof (Z.div_mod bits 8). pose proof (Z.mod_pos_bound bits 8).
  assert (0 <= bits / 8 < 256) as Hk by (split; [apply Z.div_pos; lia|apply Z.div_lt_upper_bound; lia]).
  split; [done|]. split; [|lia]. rewrite Z.shiftr_div_pow2 by lia.
  replace (bits - bits mod 8) with (bits / 8 * 2 ^ 3) by lia. rewrite Z.div_mul by lia. by apply u8_small.
Qed.

Lemma big_shift_left_spec a bits : bytes_ok a -> 0 <= bits < 2048 ->
  bytes_ok (big_shift_left a bits) /\ length (big_shift_left a bits) = length a /\
  be_val (big_shift_left a bits) = (be_val a * 2 ^ bits) mod 256 ^ zlen a.
Proof.
  intros Ha Hb. unfold big_shift_left. destruct (shift_split bits Hb) as (r & k & -> & -> & -> & Hr & Hk).
  set (a1 := if r =? 0 then a else _).
  assert (bytes_ok a1 /\ length a1 = length a /\ be_val a1 = (be_val a * 2 ^ r) mod 256 ^ zlen a) as (O1 & L1 & V1).
  { subst a1. destruct (Z.eqb_spec r 0) as [->|Hn].
    - split; [done|]. split; [done|]. rewrite Z.mul_1_r, Z.mod_small by by apply be_val_bound. done.
    - destruct (shl_bits_loop_spec r Hr (length a) a [] 0) as (H1 & H2 & H3);
        [done|done|constructor|pose proof (Z.pow_pos_nonneg 2 r); lia|].
      rewrite app_nil_r in *. split; [done|]. split; [rewrite H2; cbn; lia|]. rewrite H3. cbn [length].
      change (be_val []) with 0. change (256 ^ Z.of_nat 0) with 1. by rewrite !Z.add_0_r, Z.mul_1_r. }
  destruct (Z.eqb_spec k 0) as [->|Hn]; [by replace (8 * 0 + r) with r by lia|].
  pose proof (shl_bytes_loop_spec (Z.to_nat k) ltac:(lia) a1 []) as Hs. cbn [app length] in Hs. rewrite Hs.
  destruct (shl_list_val (Z.to_nat k) a1 O1) as (V & L & O). split; [done|]. split; [lia|].
  rewrite V, V1, L1, Zmult_mod_idemp_l, pow256_pow2, <- Z.mul_assoc, <- Z.pow_add_r by lia. do 3 f_equal. lia.
Qed.

Lemma lor_mod_pow2 x y n : 0 <= n -> Z.lor x y mod 2 ^ n = Z.lor (x mod 2 ^ n) (y mod 2 ^ n).
Proof. intros Hn. rewrite <- !Z.land_ones by done. apply Z.land_lor_distr_l. Qed.

(** One step of the right shift is a step of the division by [2^r], with remainder [rho]. *)
Lemma shr_step r x carry rho : 0 < r < 8 -> is_byte x -> 0 <= rho < 2 ^ r -> carry mod 2 ^ 16 = rho * 2 ^ (16 - r) ->
  let c := Z.lor carry (u64 (Z.shiftl x (8 - r))) in
  let w := rho * 256 + x in
  u8 (Z.shiftr c 8) = w / 2 ^ r /\ 0 <= w / 2 ^ r < 256 /\ 0 <= w mod 2 ^ r < 2 ^ r /\
  u64 (Z.shiftl c 8) mod 2 ^ 16 = w mod 2 ^ r * 2 ^ (16 - r).
Proof.
  intros Hr Hx Hrho Hc. unfold is_byte in Hx. cbv zeta. set (w := rho * 256 + x).
  pose proof (Z.pow_pos_nonneg 2 r ltac:(lia) ltac:(lia)) as P1. pose proof (Z.pow_pos_nonneg 2 (8 - r) ltac:(lia) ltac:(lia)) as P2.
  assert (2 ^ r * 2 ^ (8 - r) = 256) as P3 by (rewrite <- Z.pow_add_r by lia; by replace (r + (8 - r)) with 8 by lia).
  assert (2 ^ (16 - r) = 256 * 2 ^ (8 - r)) as P4 by (change 256 with (2 ^ 8); rewrite <- Z.pow_add_r by lia; f_equal; lia).
  assert (Hs : u64 (Z.shiftl x (8 - r)) = x * 2 ^ (8 - r)).
  { rewrite Z.shiftl_mul_pow2 by lia. apply u64_small. nia. }
  rewrite Hs. set (c := Z.lor carry (x * 2 ^ (8 - r))).
  assert (Hlow : c mod 2 ^ 16 = w * 2 ^ (8 - r)).
  { subst c. rewrite lor_mod_pow2, Hc, (Z.mod_small (x * _)) by (lia || nia).
    rewrite lor_mul_add by (rewrite ?P4; nia). subst w. rewrite P4. ring. }
  assert (Hc8 : c mod 256 = (w * 2 ^ (8 - r)) mod 256).
  { rewrite <- Hlow. change (2 ^ 16) with (256 * 256). rewrite Z.rem_mul_r, Z.mul_comm, Z.mod_add by lia. by rewrite Z.mod_mod. }
  assert (Hw : w / 2 ^ r = c / 256 mod 256).
  { transitivity ((c mod 2 ^ 16) / 256).
    - rewrite Hlow. rewrite <- P3. by rewrite Z.div_mul_cancel_r by lia.
    - change (2 ^ 16) with (256 * 256). rewrite Z.rem_mul_r by lia. rewrite (Z.mul_comm 256), Z.div_add by lia.
      rewrite (Z.div_small (c mod 256)) by (apply Z.mod_pos_bound; lia). lia. }
  split; [unfold u8; rewrite shiftr_8; by rewrite Hw|]. split; [rewrite Hw; apply Z.mod_pos_bound; lia|].
  split; [apply Z.mod_pos_bound; lia|].
  unfold u64. rewrite Z.shiftl_mul_pow2 by lia. change (2 ^ 64) with (2 ^ 16 * 2 ^ 48).
  rewrite Z.rem_mul_r, (Z.mul_comm (2 ^ 16)), Z.mod_add, Z.mod_mod by lia.
  change (2 ^ 16) with (256 * 2 ^ 8). rewrite Z.mul_mod_distr_r by lia. change (2 ^ 8) with 256. rewrite Hc8, P4.
  rewrite <- P3 at 1. rewrite Z.mul_mod_distr_r by lia. ring.
Qed.

Lemma shr_bits_loop_spec r : 0 < r < 8 -> forall s p carry rho, bytes_ok p -> bytes_ok s -> 0 <= rho < 2 ^ r ->
  carry mod 2 ^ 16 = rho * 2 ^ (16 - r) ->
  let a := shr_bits_loop (length s) (length p) (p ++ s) r carry in
  bytes_ok a /\ length a = (length p + length s)%nat /\
  be_val a = be_val p * 256 ^ zlen s + (rho * 256 ^ zlen s + be_val s) / 2 ^ r.
Proof.
  intros Hr s. induction s as [|x s IH]; intros p carry rho Hp Hs Hrho Hc; cbn [shr_bits_loop length].
  { rewrite app_nil_r. cbv zeta. change (be_val []) with 0. change (256 ^ Z.of_nat 0) with 1.
    rewrite Z.div_small by lia. split; [done|]. split; [lia|]. ring. }
  inversion_clear Hs as [|? ? Hx Hs'].
  rewrite insert_app_r_alt, app_nth2, Nat.sub_diag by lia. cbn [nth insert list_insert].
  destruct (shr_step r x carry rho Hr Hx Hrho Hc) as (E1 & E2 & E3 & E4). rewrite E1.
  set (w := rho * 256 + x) in *. set (c := u64 (Z.shiftl (Z.lor _ _) 8)) in *.
  change (p ++ w / 2 ^ r :: s) with (p ++ [w / 2 ^ r] ++ s). rewrite app_assoc.
  replace (S (length p)) with (length (p ++ [w / 2 ^ r])) by apply length_snoc.
  destruct (IH (p ++ [w / 2 ^ r]) c (w mod 2 ^ r)) as (H1 & H2 & H3);
    [apply Forall_app; split; [done|by apply Forall_singleton]|done|done|done|].
  split; [done|]. split; [rewrite H2, length_app; cbn; lia|].
  rewrite H3, be_val_snoc, be_val_cons, pow256_S. pose proof (Z.pow_pos_nonneg 2 r).
  replace (rho * (256 * 256 ^ zlen s) + (x * 256 ^ zlen s + be_val s)) with (w * 256 ^ zlen s + be_val s) by (subst w; ring).
  pose proof (Z.div_mod w (2 ^ r) ltac:(lia)) as Ew. rewrite Ew at 3.
  replace ((2 ^ r * (w / 2 ^ r) + w mod 2 ^ r) * 256 ^ zlen s + be_val s)
    with (w / 2 ^ r * 256 ^ zlen s * 2 ^ r + (w mod 2 ^ r * 256 ^ zlen s + be_val s)) by ring.
  rewrite Z.div_add_l by lia. ring.
Qed.

Definition shr_list (r : nat) (m : list Z) : list Z := replicate (min r (length m)) 0 ++ take (length m - r) m.
Lemma shr_bytes_loop_spec r : (0 < r)%nat -> forall n m t, length m = n ->
  shr_bytes_loop n (m ++ t) r = shr_list r m ++ t.
Proof.
  intros Hr n. unfold shr_list. induction n as [|n IH]; intros m t Hm; cbn [shr_bytes_loop].
  { destruct m; [|done]. by rewrite Nat.min_0_r. }
  destruct (split_last m n Hm) as (m0 & x & -> & Hm0). rewrite <- app_assoc. cbn [app].
  rewrite insert_app_r_alt, Hm0, Nat.sub_diag by lia. cbn [insert list_insert]. 
  set (y := if (r <=? n)%nat then nth (n - r) (m0 ++ x :: t) 0 else 0).
  rewrite IH by done. rewrite length_snoc, take_app_le by lia. rewrite Hm0. subst y.
  destruct (Nat.leb_spec r n) as [L|L].
  - rewrite !Nat.min_l by lia. rewrite <- !app_assoc. f_equal. rewrite app_nth1 by lia.
    destruct (lookup_lt_is_Some_2 m0 (n - r)) as [z Hz]; [lia|]. rewrite nth_lookup, Hz. cbn [default].
    replace (S n - r)%nat with (S (n - r)) by lia. rewrite (take_S_r _ _ _ Hz), <- app_assoc. done.
  - replace (n - r)%nat with 0%nat by lia. replace (S n - r)%nat with 0%nat by lia. rewrite !take_0, !app_nil_r.
    replace (min r n) with n by lia. replace (min r (S n)) with (S n) by lia.
    rewrite replicate_S_end, <- app_assoc. done.
Qed.
Lemma shr_list_val r m : bytes_ok m ->
  be_val (shr_list r m) = be_val m / 256 ^ Z.of_nat r /\ length (shr_list r m) = length m /\ bytes_ok (shr_list r m).
Proof.
  intros Hm. unfold shr_list. split; [|split; [rewrite length_app, length_take, length_replicate; lia
    |apply Forall_app; split; [by apply Forall_replicate|by apply Forall_take]]].
  rewrite be_val_zeros. pose proof (pow256_pos r). destruct (Nat.le_gt_cases r (length m)) as [L|L].
  - destruct (be_val_split m (length m - r) Hm ltac:(lia)) as (S1 & S2 & S3).
    replace (length m - (length m - r))%nat with r in * by lia. rewrite S1, Z.div_add_l, (Z.div_small (be_val (drop _ _))) by lia. lia.
  - replace (length m - r)%nat with 0%nat by lia. rewrite take_0, Z.div_small; [done|]. pose proof (be_val_bound m Hm).
    pose proof (be_val_lt_pow m r Hm). lia.
Qed.
Lemma big_shift_right_spec a bits : bytes_ok a -> 0 <= bits < 2048 ->
  bytes_ok (big_shift_right a bits) /\ length (big_shift_right a bits) = length a /\
  be_val (big_shift_right a bits) = be_val a / 2 ^ bits.
Proof.
  intros Ha Hb. unfold big_shift_right. destruct (shift_split bits Hb) as (r & k & -> & -> & -> & Hr & Hk).
  set (a1 := if r =? 0 then a else _).
  assert (bytes_ok a1 /\ length a1 = length a /\ be_val a1 = be_val a / 2 ^ r) as (O1 & L1 & V1).
  { subst a1. destruct (Z.eqb_spec r 0) as [->|Hn]; [by rewrite Z.div_1_r|].
    destruct (shr_bits_loop_spec r ltac:(lia) a [] 0 0) as (H1 & H2 & H3);
      [constructor|done|pose proof (Z.pow_pos_nonneg 2 r); lia|done|].
    cbn [app length] in *. split; [done|]. split; [done|]. rewrite H3. by rewrite Z.mul_0_l, Z.add_0_l. }
  destruct (Z.eqb_spec k 0) as [->|Hn]; [by replace (8 * 0 + r) with r by lia|].
  pose proof (shr_bytes_loop_spec (Z.to_nat k) ltac:(lia) (length a1) a1 [] eq_refl) as Hs.
  rewrite !app_nil_r in Hs. rewrite L1 in Hs. rewrite L1, Hs.
  destruct (shr_list_val (Z.to_nat k) a1 O1) as (V & L & O). split; [done|]. split; [lia|].
  rewrite V, V1, pow256_pow2, Z.div_div by (try apply Z.pow_nonzero; try apply Z.pow_pos_nonneg; lia).
  rewrite <- Z.pow_add_r by lia. do 2 f_equal. lia.
Qed.

(** ** Exponentiation *)
Lemma big_exp_spec `{MpInt} a b : bytes_ok a -> bytes_ok b -> a <> [] -> b <> [] -> (length a <= 32)%nat ->
  bytes_ok (big_exp a b) /\ (length (big_exp a b) <= 32)%nat /\ be_val (big_exp a b) = be_val a ^ be_val b mod 2 ^ 256.
Proof.
  intros Ha Hb Na Nb La. unfold big_exp. rewrite <- (optimize_len_val a), <- (optimize_len_val b).
  pose proof (optimize_len_length a) as La'. pose proof (optimize_len_idem b) as Ib.
  pose proof (optimize_len_head b) as Hh. apply optimize_len_nonempty in Na, Nb. apply optimize_len_ok in Ha, Hb.
  set (a' := optimize_len a) in *. set (b' := optimize_len b) in *.
  rewrite optimized_zero by done. pose proof (be_val_pos _ Ha) as Pa. pose proof (be_val_pos _ Hb) as Pb.
  destruct (Z.eqb_spec (be_val b') 0) as [E|E].
  { rewrite E, Z.pow_0_r. split; [by repeat constructor|]. split; [cbn; lia|done]. }
  destruct (_ && (rd b' 0 =? 1)) eqn:E1.
  { apply andb_prop in E1 as [E1 E2]. apply Nat.eqb_eq in E1. apply Z.eqb_eq in E2.
    destruct b' as [|x [|? ?]]; [done| |done]. change (rd [x] 0) with x in E2. subst x. rewrite be_val_single, Z.pow_1_r.
    split; [done|]. split; [lia|]. symmetry. apply Z.mod_small. pose proof (be_val_lt_pow a' 32 Ha ltac:(lia)).
    change (256 ^ Z.of_nat 32) with (2 ^ 256) in *. lia. }
  destruct (_ && (rd a' 0 =? 2)) eqn:E2.
  - apply andb_prop in E2 as [E2 E3]. apply Nat.eqb_eq in E2. apply Z.eqb_eq in E3.
    destruct a' as [|x [|? ?]]; [done| |done]. change (rd [x] 0) with x in E3. subst x. rewrite be_val_single.
    destruct (Nat.ltb_spec 1 (length b')) as [L|L].
    + split; [by repeat constructor|]. split; [cbn; lia|]. rewrite be_val_single. symmetry.
      assert (256 <= be_val b') as Hge.
      { destruct Hh as [Hh|(x & t & Hx & Hnz)]; [lia|]. rewrite Hx in *.
        inversion_clear Hb as [|? ? H1 H2]. unfold is_byte in H1. rewrite be_val_cons. pose proof (be_val_pos t H2).
        cbn [length] in L. pose proof (Z.pow_le_mono_r 256 1 (zlen t)). nia. }
      replace (be_val b') with (be_val b' - 256 + 256) by lia. rewrite Z.pow_add_r by lia. apply Z.mod_mul. lia.
    + destruct b' as [|e [|? ?]]; [done| |cbn in L; lia]. change (rd [e] 0) with e in *. rewrite be_val_single in *.
      inversion_clear Hb as [|? ? He _]. unfold is_byte in He.
      destruct (big_shift_left_spec (replicate 63 0 ++ [1]) e) as (H1 & H2 & H3); [by repeat constructor|lia|].
      pose proof (Z.pow_le_mono_r 2 e 255). pose proof (Z.pow_pos_nonneg 2 e).
      rewrite be_val_zeros, be_val_single, Z.mul_1_l, Z.mod_small in H3
        by (split; [lia|]; change (256 ^ zlen (replicate 63 0 ++ [1])) with (2 ^ 512); lia).
      set (p := big_shift_left _ e) in *.
      assert (length (optimize_len p) <= 32)%nat as Lp.
      { apply optimize_len_minimal; [done|lia|]. rewrite H3. change (256 ^ Z.of_nat 32) with (2 ^ 256). lia. }
      destruct (Nat.ltb_spec 32 (length (optimize_len p))); [lia|].
      split; [auto with in3|]. split; [done|]. rewrite optimize_len_val, H3, Z.mod_small; [done|lia].
  - change (be_val (1 :: replicate 32 0)) with (2 ^ 256). rewrite mp_exptmod_spec by lia.
    pose proof (Z.mod_pos_bound (be_val a' ^ be_val b') (2 ^ 256)).
    destruct (export1_spec (be_val a' ^ be_val b' mod 2 ^ 256)) as (X1 & X2 & X3); [lia|].
    split; [done|]. split; [|done]. apply X3; [lia|]. change (256 ^ Z.of_nat 32) with (2 ^ 256). lia.
Qed.

(** ** Signed operations *)

(** The value of a 256 bit two's complement word. *)
Definition to_signed (v : Z) : Z := if v <? 2 ^ 255 then v else v - 2 ^ 256.
(** The sign test of [big_signed] looks at the first significant byte, so it is the word's sign
    bit only for these operands. *)
Definition sign_visible (a : list Z) : bool :=
  let o := optimize_len a in (length o =? 32)%nat || (rd o 0 <? 128).

Lemma land_128 x : is_byte x -> (Z.land x 128 =? 0) = (x <? 128).
Proof.
  intros Hx. apply Bool.eqb_prop. revert x Hx. apply byte_forall. vm_compute. done.
Qed.
Lemma head_bound o : bytes_ok o -> o <> [] -> (length o <= 32)%nat ->
  (rd o 0 < 128 -> be_val o < 2 ^ 255) /\ (128 <= rd o 0 -> length o = 32%nat -> 2 ^ 255 <= be_val o).
Proof.
  destruct o as [|x t]; [done|]. intros Ho _ Hl. inversion_clear Ho as [|? ? Hx Ht]. change (rd (x :: t) 0) with x.
  cbn [length] in *. rewrite be_val_cons. pose proof (be_val_bound t Ht). unfold is_byte in Hx. split; intros.
  - pose proof (Z.pow_le_mono_r 256 (zlen t) 31). change (256 ^ 31) with (2 ^ 248) in *. nia.
  - assert (length t = 31)%nat as -> by lia. change (256 ^ Z.of_nat 31) with (2 ^ 248). nia.
Qed.

(** [big_signed] on an operand from which [k] zero bytes were stripped. *)
Lemma big_signed_spec o k : bytes_ok o -> o <> [] -> (length o + k <= 32)%nat ->
  (length o + k = 32)%nat \/ rd o 0 < 128 ->
  exists s m, big_signed o o = (s, m) /\ bytes_ok m /\ m <> [] /\ length m = length o /\
    s = (if to_signed (be_val o * 256 ^ Z.of_nat k) <? 0 then 1 else 0) /\
    be_val m * 256 ^ Z.of_nat k = Z.abs (to_signed (be_val o * 256 ^ Z.of_nat k)).
Proof.
  intros Ho Hne Hl Hs. unfold big_signed. rewrite land_128 by auto with in3.
  assert (be_val o * 256 ^ Z.of_nat k = be_val (o ++ replicate k 0)) as Hv
    by (rewrite be_val_app, be_val_replicate0, length_replicate; lia).
  assert (rd (o ++ replicate k 0) 0 = rd o 0) as Hrd by (destruct o; [done|done]).
  destruct (head_bound (o ++ replicate k 0)) as [B1 B2];
    [apply Forall_app; split; [done|by apply Forall_replicate]|destruct o; done|rewrite length_app, length_replicate; lia|].
  rewrite Hrd, <- Hv in B1, B2. rewrite length_app, length_replicate in B2. clear Hv.
  pose proof (be_val_bound o Ho) as Bo. pose proof (pow256_pos k).
  destruct (Z.ltb_spec (rd o 0) 128) as [L|L].
  - exists 0, o. specialize (B1 L). assert (to_signed (be_val o * 256 ^ Z.of_nat k) = be_val o * 256 ^ Z.of_nat k) as ->
      by (unfold to_signed; bool_cases). do 4 (split; [done|]). split; [bool_cases; nia|nia].
  - destruct Hs as [Hs|]; [|lia]. specialize (B2 L Hs). destruct (Nat.ltb_spec 32 (length o)); [lia|].
    destruct (big_sign_spec o Ho ltac:(lia)) as (r & E & R1 & R2 & R3). rewrite E. exists 1, r.
    assert (256 ^ zlen o * 256 ^ Z.of_nat k = 2 ^ 256) as P by (rewrite <- pow256_add, Hs; done).
    assert (0 < be_val o) by nia.
    assert (to_signed (be_val o * 256 ^ Z.of_nat k) = be_val o * 256 ^ Z.of_nat k - 2 ^ 256) as -> by (unfold to_signed; bool_cases).
    split; [done|]. split; [done|]. split; [intros ->; destruct o; done|]. split; [done|].
    split; [bool_cases; nia|]. rewrite R3.
    replace ((- be_val o) mod 256 ^ zlen o) with (256 ^ zlen o - be_val o) by (apply Z.mod_unique with (-1); lia). nia.
Qed.

(** What [strip_zeros] removed. *)
Lemma strip_zeros_app fuel : forall a b, let '(a', b') := strip_zeros fuel a b in
  exists k, a = a' ++ replicate k 0 /\ b = b' ++ replicate k 0.
Proof.
  induction fuel as [|f IH]; intros a b; cbn [strip_zeros]; [exists 0%nat; by rewrite !app_nil_r|].
  destruct (_ && _ && _ && _) eqn:E; [|exists 0%nat; by rewrite !app_nil_r].
  apply andb_prop in E as [E E4]. apply andb_prop in E as [E E3]. apply andb_prop in E as [E1 E2].
  apply Nat.ltb_lt in E1, E2. apply Z.eqb_eq in E3, E4.
  specialize (IH (take (length a - 1) a) (take (length b - 1) b)). destruct (strip_zeros _ _ _) as [a' b'].
  destruct IH as (k & Ka & Kb). exists (S k). rewrite replicate_S_end, !app_assoc, <- Ka, <- Kb.
  split; (etransitivity; [apply take_drop_last; lia|]; congruence).
Qed.

Lemma negate_word_spec q : bytes_ok q -> (length q <= 32)%nat ->
  bytes_ok (negate_word q) /\ length (negate_word q) = 32%nat /\ be_val (negate_word q) = (- be_val q) mod 2 ^ 256.
Proof.
  intros Hq Hl. unfold negate_word.
  destruct (big_sign_spec (replicate (32 - length q) 0 ++ q)) as (r & E & R1 & R2 & R3);
    [apply Forall_app; split; [by apply Forall_replicate|done]|rewrite length_app, length_replicate; lia|].
  rewrite E. cbn [default]. rewrite be_val_zeros in R3.
  assert (length (replicate (32 - length q) 0%Z ++ q) = 32)%nat as L by (rewrite length_app, length_replicate; lia).
  rewrite L in *. split; [done|]. split; done.
Qed.

Lemma quot_abs x y : y <> 0 -> Z.quot x y = if Bool.eqb (x <? 0) (y <? 0) then Z.abs x / Z.abs y else - (Z.abs x / Z.abs y).
Proof.
  intros Hy. rewrite <- Z.quot_div_nonneg by lia. destruct (Z.ltb_spec x 0), (Z.ltb_spec y 0); cbn [Bool.eqb];
    rewrite ?(Z.abs_neq x), ?(Z.abs_eq x), ?(Z.abs_neq y), ?(Z.abs_eq y) by lia.
  - by rewrite Z.quot_opp_opp.
  - rewrite Z.quot_opp_l by done. lia.
  - rewrite Z.quot_opp_r by done. lia.
  - done.
Qed.
Lemma rem_abs x y : y <> 0 -> Z.rem x y = if x <? 0 then - (Z.abs x mod Z.abs y) else Z.abs x mod Z.abs y.
Proof.
  intros Hy. rewrite <- Z.rem_mod_nonneg, Z.rem_abs_r by lia. destruct (Z.ltb_spec x 0).
  - rewrite (Z.abs_neq x), Z.rem_opp_l by lia. lia.
  - by rewrite (Z.abs_eq x) by lia.
Qed.

(** ** Properties *)

(** An operand of the EVM: one to 32 bytes. *)
Definition evm_word (a : list Z) : Prop := bytes_ok a /\ a <> [] /\ (length a <= 32)%nat.
(** [r] holds the 256 bit number [v]. *)
Definition word_is (r : list Z) (v : Z) : Prop := bytes_ok r /\ (length r <= 32)%nat /\ be_val r = v.

#[global] Instance evm_word_dec a : Decision (evm_word a).
Proof. unfold evm_word. apply _. Defined.

Lemma sign_visible_alt a k o' : bytes_ok a -> a <> [] -> (length a <= 32)%nat -> sign_visible a = true ->
  optimize_len a = o' ++ replicate k 0 -> o' <> [] ->
  bytes_ok o' /\ (length o' + k <= 32)%nat /\ ((length o' + k = 32)%nat \/ rd o' 0 < 128) /\
  be_val a = be_val o' * 256 ^ Z.of_nat k.
Proof.
  intros Ha Hne Hl Hv Ho Hne'. pose proof (optimize_len_length a) as Lo. pose proof (optimize_len_ok a Ha) as Oo.
  rewrite <- (optimize_len_val a). unfold sign_visible in Hv. rewrite Ho in *.
  rewrite length_app, length_replicate in *. rewrite be_val_app, be_val_replicate0, length_replicate.
  apply Forall_app in Oo as [Oo _]. split; [done|]. split; [lia|]. split; [|lia].
  apply orb_prop in Hv as [Hv|Hv]; [left; apply Nat.eqb_eq in Hv; lia|right]. apply Z.ltb_lt in Hv.
  by destruct o'.
Qed.

Section Signed.
Context `{MpInt}.

Lemma big_sdiv_spec a b : evm_word a -> evm_word b -> sign_visible a = true -> sign_visible b = true ->
  exists q, big_div a b true = Some q /\
    word_is q (if be_val b =? 0 then 0 else Z.quot (to_signed (be_val a)) (to_signed (be_val b)) mod 2 ^ 256).
Proof.
  intros (Ha & Na & La) (Hb & Nb & Lb) Va Vb. unfold big_div.
  pose proof (optimize_len_ok a Ha) as Oa. pose proof (optimize_len_ok b Hb) as Ob.
  pose proof (optimize_len_nonempty a Na) as Ma. pose proof (optimize_len_nonempty b Nb) as Mb.
  pose proof (strip_zeros_spec (length a) _ _ Oa Ob Mb Ma) as Hs. pose proof (strip_zeros_app (length a) (optimize_len a) (optimize_len b)) as Hk.
  destruct (strip_zeros _ _ _) as [a' b']. destruct Hs as (S1 & S2 & S3 & S4 & _ & _ & S7 & _ & S9 & _).
  destruct Hk as (k & Ka & Kb).
  destruct (sign_visible_alt a k a') as (_ & A2 & A3 & A4); [done|done|done|done|done|done|].
  destruct (sign_visible_alt b k b') as (_ & B2 & B3 & B4); [done|done|done|done|done|done|].
  rewrite optimized_zero by (done || by apply S9; rewrite optimize_len_idem). rewrite optimize_len_val in S7.
  pose proof (pow256_pos k) as Pk.
  destruct (Z.eqb_spec (be_val b') 0) as [E|E].
  { exists [0]. split; [done|]. rewrite B4, E. split; [by repeat constructor|]. split; [cbn; lia|done]. }
  destruct (Z.eqb_spec (be_val b) 0) as [E0|E0]; [nia|].
  destruct (big_signed_spec a' k S1 S3 A2 A3) as (sa & ma & -> & M1 & M2 & M3 & M4 & M5).
  destruct (big_signed_spec b' k S2 S4 B2 B3) as (sb & mb & -> & N1 & N2 & N3 & N4 & N5).
  rewrite <- A4 in M4, M5. rewrite <- B4 in N4, N5.
  assert (to_signed (be_val b) <> 0).
  { pose proof (be_val_lt_pow b 32 Hb ltac:(lia)). change (256 ^ Z.of_nat 32) with (2 ^ 256) in *. unfold to_signed. bool_cases. }
  destruct (big_divmod_spec ma mb M1 N1 M2 ltac:(nia)) as (q & r & D1 & D2 & D3 & D4 & D5 & D6 & D7).
  rewrite D1. cbn [mbind option_bind]. eexists. split; [done|].
  assert (be_val q = Z.abs (to_signed (be_val a)) / Z.abs (to_signed (be_val b))) as Hq
    by (rewrite D6, <- M5, <- N5, Z.div_mul_cancel_r; lia).
  rewrite quot_abs, <- Hq by done. pose proof (be_val_bound q D2). assert (length q <= 32)%nat by lia.
  pose proof (be_val_lt_pow q 32 D2 ltac:(done)). change (256 ^ Z.of_nat 32) with (2 ^ 256) in *.
  destruct (negate_word_spec q D2 ltac:(done)) as (W1 & W2 & W3).
  rewrite M4, N4. destruct (to_signed (be_val a) <? 0), (to_signed (be_val b) <? 0); cbn [Z.eqb Pos.eqb Bool.eqb].
  1, 4: split; [done|split; [done|]]; symmetry; apply Z.mod_small; lia.
  all: split; [done|split; [lia|done]].
Qed.

Lemma big_smod_spec a b : evm_word a -> evm_word b -> sign_visible a = true -> sign_visible b = true ->
  exists r, big_mod a b true = Some r /\
    word_is r (if be_val b =? 0 then 0 else Z.rem (to_signed (be_val a)) (to_signed (be_val b)) mod 2 ^ 256).
Proof.
  intros (Ha & Na & La) (Hb & Nb & Lb) Va Vb. unfold big_mod.
  pose proof (optimize_len_ok a Ha) as Oa. pose proof (optimize_len_ok b Hb) as Ob.
  pose proof (optimize_len_nonempty a Na) as Ma. pose proof (optimize_len_nonempty b Nb) as Mb.
  destruct (sign_visible_alt a 0 (optimize_len a)) as (_ & A2 & A3 & A4); [done|done|done|done|by rewrite app_nil_r|done|].
  destruct (sign_visible_alt b 0 (optimize_len b)) as (_ & B2 & B3 & B4); [done|done|done|done|by rewrite app_nil_r|done|].
  cbn [negb]. rewrite andb_false_r, optimized_zero by (done || apply optimize_len_idem). rewrite optimize_len_val.
  destruct (Z.eqb_spec (be_val b) 0) as [E|E].
  { exists [0]. split; [done|]. split; [by repeat constructor|]. split; [cbn; lia|done]. }
  destruct (big_signed_spec _ 0 Oa Ma A2 A3) as (sa & ma & -> & M1 & M2 & M3 & M4 & M5).
  destruct (big_signed_spec _ 0 Ob Mb B2 B3) as (sb & mb & -> & N1 & N2 & N3 & N4 & N5).
  rewrite <- A4 in M4, M5. rewrite <- B4 in N4, N5. change (256 ^ Z.of_nat 0) with 1 in *. rewrite Z.mul_1_r in *.
  assert (to_signed (be_val b) <> 0).
  { pose proof (be_val_lt_pow b 32 Hb ltac:(lia)). change (256 ^ Z.of_nat 32) with (2 ^ 256) in *.
    pose proof (be_val_pos b Hb). unfold to_signed. bool_cases. }
  destruct (big_divmod_spec ma mb M1 N1 M2 ltac:(lia)) as (q & r & D1 & D2 & D3 & D4 & D5 & D6 & D7).
  rewrite D1. cbn [mbind option_bind]. eexists. split; [done|]. rewrite M5, N5 in D7. rewrite rem_abs, <- D7 by done.
  assert (length r <= 32)%nat by lia.
  pose proof (be_val_pos r D3). pose proof (be_val_lt_pow r 32 D3 ltac:(done)). change (256 ^ Z.of_nat 32) with (2 ^ 256) in *.
  destruct (negate_word_spec r D3 ltac:(done)) as (W1 & W2 & W3).
  rewrite M4. destruct (to_signed (be_val a) <? 0); cbn [Z.eqb negb].
  - split; [done|split; [lia|done]].
  - split; [done|split; [done|]]. symmetry. apply Z.mod_small. lia.
Qed.
End Signed.

(** [big_add], [big_sub], [big_mul] (with the word size as limit) and [big_exp] compute sum,
    difference, product and power modulo 2^256 of any two EVM operands, in at most 32 bytes, for
    every multi-precision library with correct modular exponentiation. *)
Theorem big_ring_spec `{MpInt} a b : evm_word a -> evm_word b ->
  word_is (big_add a b 32) ((be_val a + be_val b) mod 2 ^ 256) /\
  word_is (big_sub a b) ((be_val a - be_val b) mod 2 ^ 256) /\
  word_is (big_mul a b 32) ((be_val a * be_val b) mod 2 ^ 256) /\
  word_is (big_exp a b) (be_val a ^ be_val b mod 2 ^ 256).
Proof.
  intros (Ha & Na & La) (Hb & Nb & Lb).
  destruct (big_add_spec a b 32 Ha Hb ltac:(lia)) as (A1 & A2 & A3).
  destruct (big_mul_spec a b 32 Ha Hb Na Nb ltac:(lia) ltac:(lia)) as (M1 & M2 & M3).
  split; [done|]. split; [by apply big_sub_spec|]. split; [done|]. by apply big_exp_spec.
Qed.
Lemma big_ring_spec_witness :
  word_is (big_add [255; 255] [1] 32) 65536 /\ be_val (big_sub [1] [2]) = 2 ^ 256 - 1.
Proof.
  assert (evm_word [255; 255]) as Ha by (decide_now).
  assert (evm_word [1]) as H1 by (decide_now).
  assert (evm_word [2]) as H2 by (decide_now).
  split; [exact (proj1 (big_ring_spec [255; 255] [1] Ha H1))|].
  destruct (big_ring_spec [1] [2] H1 H2) as (_ & (_ & _ & E) & _). rewrite E. vm_compute. reflexivity.
Defined.

(** C20. Unsigned division and remainder of any two EVM operands return (no division by zero ever
    happens) quotient and remainder, and 0 for a zero divisor, on each of the code paths: 64 bit
    arithmetic, byte-wise long division, the power-of-two mask and the library. *)
Theorem big_divmod_unsigned `{MpInt} a b : evm_word a -> evm_word b ->
  exists q r, big_div a b false = Some q /\ big_mod a b false = Some r /\
    word_is q (be_val a / be_val b) /\ word_is r (if be_val b =? 0 then 0 else be_val a mod be_val b).
Proof.
  intros (Ha & Na & La) (Hb & Nb & Lb).
  destruct (big_div_spec a b Ha Hb Na Nb) as (q & Q1 & Q2 & Q3 & Q4).
  destruct (big_mod_spec a b Ha Hb Na Nb) as (r & R1 & R2 & R3 & R4).
  exists q, r. split; [done|]. split; [done|]. split; (split; [done|split; [lia|done]]).
Qed.
Lemma big_divmod_unsigned_witness :
  exists q r, big_div [1; 0; 0; 0; 0; 0; 0; 0; 7] [10] false = Some q /\ big_mod [1; 0; 0; 0; 0; 0; 0; 0; 7] [10] false = Some r
    /\ word_is q ((2 ^ 64 + 7) / 10) /\ word_is r ((2 ^ 64 + 7) mod 10).
Proof.
  apply (big_divmod_unsigned [1; 0; 0; 0; 0; 0; 0; 0; 7] [10]);
    decide_now.
Defined.

(** Signed division and remainder are those of the EVM (truncating, on two's complement words)
    whenever the sign bit of each operand is where [big_signed] looks for it: a full 32 byte
    operand, or one whose first significant byte is below 128. *)
Theorem big_divmod_signed `{MpInt} a b : evm_word a -> evm_word b -> sign_visible a = true -> sign_visible b = true ->
  exists q r, big_div a b true = Some q /\ big_mod a b true = Some r /\
    word_is q (if be_val b =? 0 then 0 else Z.quot (to_signed (be_val a)) (to_signed (be_val b)) mod 2 ^ 256) /\
    word_is r (if be_val b =? 0 then 0 else Z.rem (to_signed (be_val a)) (to_signed (be_val b)) mod 2 ^ 256).
Proof.
  intros Ha Hb Va Vb. destruct (big_sdiv_spec a b Ha Hb Va Vb) as (q & Q1 & Q2).
  destruct (big_smod_spec a b Ha Hb Va Vb) as (r & R1 & R2). by exists q, r.
Qed.
Lemma big_divmod_signed_witness :
  exists q r, big_div (replicate 31 255 ++ [249]) [2] true = Some q /\ big_mod (replicate 31 255 ++ [249]) [2] true = Some r
    /\ word_is q (-3 mod 2 ^ 256) /\ word_is r (-1 mod 2 ^ 256).
Proof.
  apply (big_divmod_signed (replicate 31 255 ++ [249]) [2]);
    first [decide_now | vm_compute; reflexivity].
Defined.

(** Outside that condition the sign is misread: 128 / 2 is computed as -128 / 2, although
    both operands are positive, because the top bit of the single byte 0x80 is taken as the sign
    of the word. *)
Theorem big_div_misreads_sign `{MpInt} : exists q, big_div [128] [2] true = Some q /\ word_is q (-64 mod 2 ^ 256).
Proof. eexists. split; [vm_compute; reflexivity|]. split; [decide_now|]. split; vm_compute; [lia|done]. Qed.

(** The in-place shifts of a 32 byte word are multiplication by 2^n modulo 2^256 and division
    by 2^n, for every shift distance of up to 2047 bits. *)
Theorem big_shift_spec a n : bytes_ok a -> length a = 32%nat -> 0 <= n < 2048 ->
  word_is (big_shift_left a n) ((be_val a * 2 ^ n) mod 2 ^ 256) /\ word_is (big_shift_right a n) (be_val a / 2 ^ n).
Proof.
  intros Ha La Hn. destruct (big_shift_left_spec a n Ha Hn) as (L1 & L2 & L3).
  destruct (big_shift_right_spec a n Ha Hn) as (R1 & R2 & R3). rewrite La in *.
  split; (split; [done|split; [lia|done]]).
Qed.
Lemma big_shift_spec_witness :
  word_is (big_shift_left (replicate 31 0 ++ [129]) 9) ((129 * 2 ^ 9) mod 2 ^ 256) /\
  word_is (big_shift_right (129 :: replicate 31 0) 9) ((129 * 2 ^ 248) / 2 ^ 9).
Proof.
  split.
  - apply (big_shift_spec (replicate 31 0 ++ [129]) 9);
      first [decide_now | reflexivity | lia].
  - apply (big_shift_spec (129 :: replicate 31 0) 9);
      first [decide_now | reflexivity | lia].
Defined.

(** [big_cmp] orders numbers of different lengths by value. *)
Theorem big_cmp_by_value a b : bytes_ok a -> bytes_ok b ->
  (big_cmp a b < 0 <-> be_val a < be_val b) /\ (big_cmp a b = 0 <-> be_val a = be_val b) /\
  (0 < big_cmp a b <-> be_val b < be_val a).
Proof. apply big_cmp_spec. Qed.
Lemma big_cmp_by_value_witness : big_cmp [0; 5] [5] = 0 /\ (be_val [0; 5] = be_val [5]).
Proof.
  assert (bytes_ok [0; 5]) as Ha by (decide_now).
  assert (bytes_ok [5]) as Hb by (decide_now).
  destruct (big_cmp_by_value [0; 5] [5] Ha Hb) as (_ & E & _).
  split; [reflexivity|]. apply E. reflexivity.
Defined.
