(* ===== verification/EvmState.v ===== *)
(** * verifier/eth1/evm/evm.h, gas.h: the state of the EVM and the shape of its operations

    One [evm_t] is one call frame; the running frame and the frames that called it (the [parent]
    chain) form the [world].  The model is the build with gas accounting ([EVM_GAS], the
    default). *)
From S2P Require Import Prelude Utils Bytes.

(** ** Constants *)
Definition EVM_ERROR_EMPTY_STACK : Z := -20.
Definition EVM_ERROR_INVALID_OPCODE : Z := -21.
Definition EVM_ERROR_BUFFER_TOO_SMALL : Z := -22.
Definition EVM_ERROR_ILLEGAL_MEMORY_ACCESS : Z := -23.
Definition EVM_ERROR_INVALID_JUMPDEST : Z := -24.
Definition EVM_ERROR_UNSUPPORTED_CALL_OPCODE : Z := -26.
Definition EVM_ERROR_TIMEOUT : Z := -27.
Definition EVM_ERROR_OUT_OF_GAS : Z := -29.
Definition EVM_ERROR_BALANCE_TOO_LOW : Z := -30.
Definition EVM_ERROR_STACK_LIMIT : Z := -31.
Definition EVM_ERROR_SUCCESS_CONSUME_GAS : Z := -32.
Definition EVM_ERROR_MAX_CODE_SIZE_EXCEEDED : Z := -33.

Definition EVM_PROP_FRONTIER : Z := 1.
Definition EVM_PROP_EIP150 : Z := 2.
Definition EVM_PROP_EIP158 : Z := 4.
Definition EVM_PROP_CONSTANTINOPL : Z := 16.
Definition EVM_PROP_ISTANBUL : Z := 32.
Definition EVM_PROP_STATIC : Z := 256.
Definition EVM_PROP_TXCREATE : Z := 512.
Definition EVM_PROP_CALL_DEPEND_ON_REFUND : Z := 1024.
Definition EVM_PROP_NO_FINALIZE : Z := 32768.

Definition EVM_ENV_BALANCE : Z := 1.
Definition EVM_ENV_CODE_SIZE : Z := 2.
Definition EVM_ENV_CODE_COPY : Z := 3.
Definition EVM_ENV_BLOCKHASH : Z := 4.
Definition EVM_ENV_STORAGE : Z := 5.
Definition EVM_ENV_BLOCKHEADER : Z := 6.
Definition EVM_ENV_CODE_HASH : Z := 7.
Definition EVM_ENV_NONCE : Z := 8.

Definition EVM_STACK_LIMIT : Z := 1024.
Definition EVM_MAX_CODE_SIZE : Z := 24576.
Definition MEM_LIMIT : Z := 0xFFFFFFF.

(** ** Accounts *)
Record storage_t := mk_storage { s_key : list Z; s_value : list Z }.
Record account_t := mk_account {
  ac_address : list Z; ac_balance : list Z; ac_nonce : list Z; ac_code : bytes_t; ac_storage : list storage_t
}.
Record logs_t := mk_log { log_topics : list Z; log_data : list Z; log_address : list Z }.

Inductive evm_state_t := EVM_STATE_INIT | EVM_STATE_RUNNING | EVM_STATE_STOPPED | EVM_STATE_REVERTED.
#[global] Instance evm_state_eq_dec : EqDecision evm_state_t.
Proof. solve_decision. Defined.

(** ** A call frame *)
Record evm_t := mk_evm {
  stack : bytes_builder_t;
  memory : bytes_builder_t;
  stack_size : Z;
  code : bytes_t;
  pos : Z;
  state : evm_state_t;
  last_returned : bytes_t;
  return_data : bytes_t;
  invalid_jumpdest : option (list Z);
  properties : Z;
  chain_id : Z;
  address : list Z;        (** 20 bytes; [] is the NULL pointer *)
  account : list Z;
  origin : list Z;
  caller : list Z;
  call_value : bytes_t;
  call_data : bytes_t;
  gas_price : bytes_t;
  gas : Z;
  accounts : list account_t;
  logs : list logs_t;
  refund : Z;
  init_gas : Z
}.

(** One field changed, the others kept. *)
Definition set_stack (b : bytes_builder_t) (n : Z) (e : evm_t) : evm_t :=
  let '(mk_evm _ m _ c p s lr rd ij pr ch ad ac o ca cv cd gp g acs lg rf ig) := e in
  mk_evm b m n c p s lr rd ij pr ch ad ac o ca cv cd gp g acs lg rf ig.
Definition set_memory (b : bytes_builder_t) (e : evm_t) : evm_t :=
  let '(mk_evm st _ n c p s lr rd ij pr ch ad ac o ca cv cd gp g acs lg rf ig) := e in
  mk_evm st b n c p s lr rd ij pr ch ad ac o ca cv cd gp g acs lg rf ig.
Definition set_code (x : bytes_t) (e : evm_t) : evm_t :=
  let '(mk_evm st m n _ p s lr rd ij pr ch ad ac o ca cv cd gp g acs lg rf ig) := e in
  mk_evm st m n x p s lr rd ij pr ch ad ac o ca cv cd gp g acs lg rf ig.
Definition set_pos (x : Z) (e : evm_t) : evm_t :=
  let '(mk_evm st m n c _ s lr rd ij pr ch ad ac o ca cv cd gp g acs lg rf ig) := e in
  mk_evm st m n c x s lr rd ij pr ch ad ac o ca cv cd gp g acs lg rf ig.
Definition set_state (x : evm_state_t) (e : evm_t) : evm_t :=
  let '(mk_evm st m n c p _ lr rd ij pr ch ad ac o ca cv cd gp g acs lg rf ig) := e in
  mk_evm st m n c p x lr rd ij pr ch ad ac o ca cv cd gp g acs lg rf ig.
Definition set_last_returned (x : bytes_t) (e : evm_t) : evm_t :=
  let '(mk_evm st m n c p s _ rd ij pr ch ad ac o ca cv cd gp g acs lg rf ig) := e in
  mk_evm st m n c p s x rd ij pr ch ad ac o ca cv cd gp g acs lg rf ig.
Definition set_return_data (x : bytes_t) (e : evm_t) : evm_t :=
  let '(mk_evm st m n c p s lr _ ij pr ch ad ac o ca cv cd gp g acs lg rf ig) := e in
  mk_evm st m n c p s lr x ij pr ch ad ac o ca cv cd gp g acs lg rf ig.
Definition set_invalid_jumpdest (x : option (list Z)) (e : evm_t) : evm_t :=
  let '(mk_evm st m n c p s lr rd _ pr ch ad ac o ca cv cd gp g acs lg rf ig) := e in
  mk_evm st m n c p s lr rd x pr ch ad ac o ca cv cd gp g acs lg rf ig.
Definition set_properties (x : Z) (e : evm_t) : evm_t :=
  let '(mk_evm st m n c p s lr rd ij _ ch ad ac o ca cv cd gp g acs lg rf ig) := e in
  mk_evm st m n c p s lr rd ij x ch ad ac o ca cv cd gp g acs lg rf ig.
Definition set_address (x : list Z) (e : evm_t) : evm_t :=
  let '(mk_evm st m n c p s lr rd ij pr ch _ ac o ca cv cd gp g acs lg rf ig) := e in
  mk_evm st m n c p s lr rd ij pr ch x ac o ca cv cd gp g acs lg rf ig.
Definition set_account (x : list Z) (e : evm_t) : evm_t :=
  let '(mk_evm st m n c p s lr rd ij pr ch ad _ o ca cv cd gp g acs lg rf ig) := e in
  mk_evm st m n c p s lr rd ij pr ch ad x o ca cv cd gp g acs lg rf ig.
Definition set_call_data (x : bytes_t) (e : evm_t) : evm_t :=
  let '(mk_evm st m n c p s lr rd ij pr ch ad ac o ca cv _ gp g acs lg rf ig) := e in
  mk_evm st m n c p s lr rd ij pr ch ad ac o ca cv x gp g acs lg rf ig.
Definition set_call_value (x : bytes_t) (e : evm_t) : evm_t :=
  let '(mk_evm st m n c p s lr rd ij pr ch ad ac o ca _ cd gp g acs lg rf ig) := e in
  mk_evm st m n c p s lr rd ij pr ch ad ac o ca x cd gp g acs lg rf ig.
Definition set_gas_price (x : bytes_t) (e : evm_t) : evm_t :=
  let '(mk_evm st m n c p s lr rd ij pr ch ad ac o ca cv cd _ g acs lg rf ig) := e in
  mk_evm st m n c p s lr rd ij pr ch ad ac o ca cv cd x g acs lg rf ig.
Definition set_chain_id (x : Z) (e : evm_t) : evm_t :=
  let '(mk_evm st m n c p s lr rd ij pr _ ad ac o ca cv cd gp g acs lg rf ig) := e in
  mk_evm st m n c p s lr rd ij pr x ad ac o ca cv cd gp g acs lg rf ig.
Definition set_gas (x : Z) (e : evm_t) : evm_t :=
  let '(mk_evm st m n c p s lr rd ij pr ch ad ac o ca cv cd gp _ acs lg rf ig) := e in
  mk_evm st m n c p s lr rd ij pr ch ad ac o ca cv cd gp x acs lg rf ig.
Definition set_accounts (x : list account_t) (e : evm_t) : evm_t :=
  let '(mk_evm st m n c p s lr rd ij pr ch ad ac o ca cv cd gp g _ lg rf ig) := e in
  mk_evm st m n c p s lr rd ij pr ch ad ac o ca cv cd gp g x lg rf ig.
Definition set_logs (x : list logs_t) (e : evm_t) : evm_t :=
  let '(mk_evm st m n c p s lr rd ij pr ch ad ac o ca cv cd gp g acs _ rf ig) := e in
  mk_evm st m n c p s lr rd ij pr ch ad ac o ca cv cd gp g acs x rf ig.
Definition set_refund (x : Z) (e : evm_t) : evm_t :=
  let '(mk_evm st m n c p s lr rd ij pr ch ad ac o ca cv cd gp g acs lg _ ig) := e in
  mk_evm st m n c p s lr rd ij pr ch ad ac o ca cv cd gp g acs lg x ig.
Definition set_init_gas (x : Z) (e : evm_t) : evm_t :=
  let '(mk_evm st m n c p s lr rd ij pr ch ad ac o ca cv cd gp g acs lg rf _) := e in
  mk_evm st m n c p s lr rd ij pr ch ad ac o ca cv cd gp g acs lg rf x.

Definition has_prop (e : evm_t) (p : Z) : bool := negb (Z.land (properties e) p =? 0).

(** ** Gas *)

(** [subgas(g)]. *)
Definition subgas (g : Z) : M evm_t unit := fun e =>
  if gas e <? g then Err EVM_ERROR_OUT_OF_GAS e else Ok tt (set_gas (gas e - g) e).

(** ** Access to a [bytes_t] *)
Definition b_slice (b : bytes_t) (off n : Z) : option (list Z) :=
  if n =? 0 then Some []
  else if (off <? 0) || (n <? 0) then None
  else d ← b_data b; read_at d (Z.to_nat off) (Z.to_nat n).
Definition b_byte (b : bytes_t) (i : Z) : option Z := l ← b_slice b i 1; Some (rd l 0).
