(* ===== verification/EvmStack.v ===== *)
(** * verifier/eth1/evm/evm.c: the operand stack

    The stack is one byte buffer: each entry is its bytes followed by one byte holding their
    number.  The operations are those of evm.c on that buffer; the lemmas relate it to a list of
    words, top first. *)
From S2P Require Import Prelude Utils Bytes Big EvmState.

Section Ops.
Context `{Allocator}.

(** [evm_stack_push]: [len] is an [uint8_t] parameter, callers pass wider integers. *)
Definition evm_stack_push (data : list Z) : M evm_t unit := fun e =>
  let len := u8 (zlen data) in
  if (stack_size e =? EVM_STACK_LIMIT) || (32 <? len) then Err EVM_ERROR_STACK_LIMIT e
  else
    match (let tmp := take (Z.to_nat len) data in
           bb ← bb_check_size (stack e) (len + 1);
           d ← bb_data bb;
           d ← memcpy_at d (Z.to_nat (bb_len bb)) tmp;
           let l' := u32 (bb_len bb + (len + 1)) in
           d ← memcpy_at d (Z.to_nat (l' - 1)) [len];
           Some (mk_bb (bb_bsize bb) (Some d) l' (bb_heap bb))) with
    | Some bb => Ok tt (set_stack bb (stack_size e + 1) e)
    | None => Undef
    end.

(** [evm_stack_push_ref]: the new entry is whatever the buffer holds there; returns its offset. *)
Definition evm_stack_push_ref (len : Z) : M evm_t Z := fun e =>
  if stack_size e =? EVM_STACK_LIMIT then Err EVM_ERROR_STACK_LIMIT e
  else
    match (bb ← bb_check_size (stack e) (len + 1);
           d ← bb_data bb;
           let dst := bb_len bb in
           let l' := u32 (bb_len bb + (len + 1)) in
           d ← memcpy_at d (Z.to_nat (l' - 1)) [len];
           Some (dst, mk_bb (bb_bsize bb) (Some d) l' (bb_heap bb))) with
    | Some (dst, bb) => Ok dst (set_stack bb (stack_size e + 1) e)
    | None => Undef
    end.
(** A write through a pointer into the stack buffer. *)
Definition stack_poke (off : Z) (data : list Z) : M evm_t unit := fun e =>
  match (d ← bb_data (stack e); d ← memcpy_at d (Z.to_nat off) data;
         Some (mk_bb (bb_bsize (stack e)) (Some d) (bb_len (stack e)) (bb_heap (stack e)))) with
  | Some bb => Ok tt (set_stack bb (stack_size e) e)
  | None => Undef
  end.
(** A read through such a pointer. *)
Definition stack_peek (off n : Z) : M evm_t (list Z) := fun e =>
  match (d ← bb_data (stack e); read_at d (Z.to_nat off) (Z.to_nat n)) with
  | Some l => Ok l e
  | None => Undef
  end.

Definition evm_stack_push_int (val : Z) : M evm_t unit :=
  let b3 := Z.land val 0xFF in
  let b2 := Z.land (Z.shiftr val 8) 0xFF in
  let b1 := Z.land (Z.shiftr val 16) 0xFF in
  let b0 := Z.land (Z.shiftr val 24) 0xFF in
  if negb (b0 =? 0) then evm_stack_push [b0; b1; b2; b3]
  else if negb (b1 =? 0) then evm_stack_push [b1; b2; b3]
  else if negb (b2 =? 0) then evm_stack_push [b2; b3]
  else evm_stack_push [b3].

(** [evm_stack_push_long]: the loop stops at the first byte that IS zero. *)
Fixpoint push_long_loop (n : nat) (bytes : list Z) : M evm_t unit :=
  match n with
  | O => evm_stack_push bytes
  | S n' => match bytes with
            | [] => undef
            | x :: t => if x =? 0 then evm_stack_push bytes else push_long_loop n' t
            end
  end.
Definition evm_stack_push_long (val : Z) : M evm_t unit := push_long_loop 7 (long_to_bytes val (replicate 8 0)).

(** The entry on top and the state without it; what every pop does first.  Also its offset. *)
Definition pop_entry (e : evm_t) : option (Z * list Z * evm_t) :=
  let bb := stack e in
  if bb_len bb <=? 0 then None else
  d ← bb_data bb;
  l ← read_at d (Z.to_nat (bb_len bb - 1)) 1;
  let l := rd l 0 in
  let len := bb_len bb - (l + 1) in
  if len <? 0 then None else
  v ← read_at d (Z.to_nat len) (Z.to_nat l);
  Some (len, v, set_stack (mk_bb (bb_bsize bb) (Some d) len (bb_heap bb)) (stack_size e - 1) e).

(** [evm_stack_pop_ref]: the pointer is returned as offset and content. *)
Definition evm_stack_pop_at : M evm_t (Z * list Z) := fun e =>
  if stack_size e =? 0 then Err EVM_ERROR_EMPTY_STACK e
  else match pop_entry e with Some (o, v, e') => Ok (o, v) e' | None => Undef end.
Definition evm_stack_pop_ref : M evm_t (list Z) := '(_, v) ← evm_stack_pop_at; mret v.

(** The [memcpy]s of [evm_stack_pop]: right-aligned in [len] bytes. *)
Definition right_align (len : nat) (v : list Z) : list Z :=
  let l := length v in
  if (l =? len)%nat then v
  else if (l <? len)%nat then replicate (len - l) 0 ++ v
  else drop (l - len) v.
Definition evm_stack_pop (len : nat) : M evm_t (list Z) := v ← evm_stack_pop_ref; mret (right_align len v).

Definition evm_stack_pop_byte : M evm_t Z :=
  v ← evm_stack_pop_ref;
  if (1 <? length v)%nat then
    if existsb (fun x => negb (x =? 0)) (take (length v - 1) v) then fail (-3)
    else mret (nth (length v - 1) v 0)
  else if (length v =? 0)%nat then fail (-3)
  else mret (nth 0 v 0).

Definition evm_stack_pop_int : M evm_t Z :=
  v ← evm_stack_pop_ref;
  let p := optimize_len v in
  mret (if (4 <? length p)%nat || ((length p =? 4)%nat && negb (Z.land (rd p 0) 0xF0 =? 0)) then 0xFFFFFFF
        else i32 (bytes_to_int (Some p) (zlen p))).

(** The loop of [evm_stack_get_ref]: walk down [n] entries from offset [p]. *)
Fixpoint get_ref_loop (n : nat) (d : list Z) (p l : Z) : option (Z * Z) :=
  match n with
  | O => Some (p, l)
  | S n' => if p <=? 0 then None else
            x ← read_at d (Z.to_nat (p - 1)) 1;
            let l := rd x 0 in
            get_ref_loop n' d (p - (l + 1)) l
  end.
Definition evm_stack_get_ref (pos : Z) : M evm_t (Z * list Z) := fun e =>
  if (stack_size e - pos <? 0) || (pos <? 1) then Err EVM_ERROR_EMPTY_STACK e
  else match (d ← bb_data (stack e);
              '(p, l) ← get_ref_loop (Z.to_nat pos) d (bb_len (stack e)) 0;
              if p <? 0 then None else
              v ← read_at d (Z.to_nat p) (Z.to_nat l); Some (p, v)) with
       | Some r => Ok r e
       | None => Undef
       end.
End Ops.

(** ** The stack as a list of words *)
Definition word_ok (w : list Z) : Prop := bytes_ok w /\ (length w <= 32)%nat.
#[global] Instance word_ok_dec w : Decision (word_ok w).
Proof. unfold word_ok. apply _. Defined.

Fixpoint enc (ws : list (list Z)) : list Z :=
  match ws with [] => [] | w :: ws' => enc ws' ++ w ++ [zlen w] end.

Definition stack_rep (e : evm_t) (ws : list (list Z)) : Prop :=
  bb_rep (stack e) (enc ws) /\ bb_data (stack e) <> None /\ stack_size e = zlen ws /\ zlen ws <= EVM_STACK_LIMIT /\ Forall word_ok ws.

(** Only the stack differs. *)
Definition frame_stack (e e' : evm_t) : Prop := exists bb n, e' = set_stack bb n e.

Lemma frame_stack_refl e : frame_stack e e.
Proof. exists (stack e), (stack_size e). by destruct e. Qed.
Lemma frame_stack_trans e1 e2 e3 : frame_stack e1 e2 -> frame_stack e2 e3 -> frame_stack e1 e3.
Proof. intros (b1 & n1 & ->) (b2 & n2 & ->). exists b2, n2. by destruct e1. Qed.
Lemma frame_stack_set bb n e : frame_stack e (set_stack bb n e).
Proof. by exists bb, n. Qed.
#[export] Hint Resolve frame_stack_refl frame_stack_set : in3.
#[export] Hint Extern 2 (frame_stack _ _) => eapply frame_stack_trans; eassumption : in3.

Lemma stack_set_stack bb n e : stack (set_stack bb n e) = bb.
Proof. by destruct e. Qed.
Lemma stack_size_set_stack bb n e : stack_size (set_stack bb n e) = n.
Proof. by destruct e. Qed.
#[export] Hint Rewrite stack_set_stack stack_size_set_stack : in3.

Lemma enc_length ws : Forall word_ok ws -> zlen (enc ws) <= 33 * zlen ws.
Proof.
  induction 1 as [|w ws [_ Hw] _ IH]; [done|]. cbn [enc]. rewrite !length_app. cbn [length]. lia.
Qed.
Lemma stack_rep_bound e ws : stack_rep e ws -> zlen (enc ws) <= 33792.
Proof. intros (_ & _ & _ & H1 & H2). pose proof (enc_length ws H2). unfold EVM_STACK_LIMIT in H1. lia. Qed.

(** ** Reading and writing the buffer under a representation *)
Lemma read_at_mid (a m b d : list Z) : take (length (a ++ m ++ b)) d = a ++ m ++ b ->
  (length (a ++ m ++ b) <= length d)%nat -> read_at d (length a) (length m) = Some m.
Proof.
  intros Ht Hl. rewrite !length_app in *. unfold read_at. destruct (Nat.leb_spec (length a + length m) (length d)); [|lia].
  f_equal. rewrite <- (take_drop (length a + (length m + length b)) d), Ht.
  rewrite <- !app_assoc, drop_app_length, take_app_length. done.
Qed.
Lemma bb_rep_read bb a m b d : bb_rep bb (a ++ m ++ b) -> bb_data bb = Some d -> read_at d (length a) (length m) = Some m.
Proof. intros [_ Hd] E. rewrite E in Hd. destruct Hd as (_ & _ & _ & H1 & H2). by eapply read_at_mid. Qed.
Lemma bb_rep_shrink bb a b d : bb_rep bb (a ++ b) -> bb_data bb = Some d ->
  bb_rep (mk_bb (bb_bsize bb) (Some d) (zlen a) (bb_heap bb)) a.
Proof.
  intros [_ Hd] E. rewrite E in Hd. destruct Hd as (H1 & H2 & H3 & H4 & H5). rewrite length_app in *.
  split; [done|]. cbn. split; [done|]. split; [done|]. split; [done|]. split; [lia|].
  replace (take (length a) d) with (take (length a) (take (length a + length b) d)) by (rewrite take_take; f_equal; lia).
  by rewrite H5, take_app_length.
Qed.
Lemma bb_rep_write bb a m b d x : bb_rep bb (a ++ m ++ b) -> bb_data bb = Some d -> length x = length m ->
  exists d', memcpy_at d (length a) x = Some d' /\
  bb_rep (mk_bb (bb_bsize bb) (Some d') (bb_len bb) (bb_heap bb)) (a ++ x ++ b).
Proof.
  intros [Hlen Hd] E Hx. rewrite E in Hd. destruct Hd as (H1 & H2 & H3 & H4 & H5). rewrite !length_app in *.
  rewrite memcpy_at_Some by lia. eexists. split; [done|].
  assert (d = a ++ m ++ b ++ drop (length a + (length m + length b)) d) as Hd
    by (rewrite <- (take_drop (length a + (length m + length b)) d) at 1; rewrite H5, <- !app_assoc; done).
  set (r := drop _ d) in Hd. clearbody r. rewrite Hd, Hx. rewrite take_app_length.
  replace (drop (length a + length m) (a ++ m ++ b ++ r)) with (b ++ r)
    by (rewrite app_assoc, <- length_app, drop_app_length; done).
  split; [cbn [bb_len]; rewrite !length_app, Hlen; lia|]. cbn [bb_data bb_heap bb_bsize]. split; [done|].
  split; [rewrite <- H2, Hd, !length_app; lia|]. split; [done|]. rewrite !length_app. split; [lia|].
  rewrite <- !length_app. replace (a ++ x ++ b ++ r) with ((a ++ x ++ b) ++ r) by by rewrite <- !app_assoc.
  by rewrite take_app_length.
Qed.

Section Specs.
Context `{Allocator}.

(** Reading a word of [n] bytes off the top of the content, the buffer being as [bb_check_size] left it. *)
Lemma bb_reserve bb c n : bb_rep bb c -> 0 < n -> zlen c + n < 2 ^ 32 ->
  exists bb' d, bb_check_size bb n = Some bb' /\ bb_rep bb' c /\ bb_data bb' = Some d /\ bb_len bb' = zlen c /\
    zlen c + n <= zlen d /\ bb_heap bb' = true /\ zlen d = bb_bsize bb' /\ 0 < bb_bsize bb' <= 2 ^ 33 /\ take (length c) d = c.
Proof.
  intros Hr Hn Hb. destruct (bb_check_size_rep bb c n Hr ltac:(lia) Hb) as (bb' & E & R & L & [|(d & D & Hd)]); [lia|].
  pose proof R as [Hl Hrep]. rewrite D in Hrep. destruct Hrep as (R1 & R2 & R3 & R4 & R5).
  exists bb', d. split; [done|]. split; [done|]. split; [done|]. split; [done|]. split; [lia|]. done.
Qed.

(** The content grows by what is written behind it. *)
Lemma bb_rep_extend (bb : bytes_builder_t) c d x : zlen d = bb_bsize bb -> 0 < bb_bsize bb <= 2 ^ 33 -> bb_heap bb = true ->
  (length (c ++ x) <= length d)%nat -> take (length (c ++ x)) d = c ++ x ->
  bb_rep (mk_bb (bb_bsize bb) (Some d) (zlen (c ++ x)) (bb_heap bb)) (c ++ x).
Proof. intros. split; [done|]. cbn [bb_data bb_heap bb_bsize]. auto. Qed.

Lemma push_bytes_ok c len x d : take (length c) d = c -> (length (c ++ x) + 1 <= length d)%nat ->
  exists d1 d2, memcpy_at d (length c) x = Some d1 /\ memcpy_at d1 (length (c ++ x)) [len] = Some d2 /\
    length d2 = length d /\ take (length (c ++ x ++ [len])) d2 = c ++ x ++ [len].
Proof.
  intros Ht Hl. rewrite length_app in Hl.
  destruct (memcpy_at d (length c) x) as [d1|] eqn:E1; [|rewrite memcpy_at_Some in E1 by lia; done].
  pose proof (memcpy_at_length _ _ _ _ E1) as L1. pose proof (memcpy_at_take _ _ _ _ E1) as T1. rewrite Ht in T1.
  destruct (memcpy_at d1 (length (c ++ x)) [len]) as [d2|] eqn:E2;
    [|rewrite memcpy_at_Some in E2 by (rewrite length_app; cbn; lia); done].
  pose proof (memcpy_at_length _ _ _ _ E2) as L2. pose proof (memcpy_at_take _ _ _ _ E2) as T2.
  exists d1, d2. split; [done|]. split; [done|]. split; [lia|].
  rewrite length_app in T2. rewrite T1 in T2. rewrite !app_assoc, length_app, (length_app c x). exact T2.
Qed.

Lemma evm_stack_push_cases e ws data : stack_rep e ws -> bytes_ok data ->
  let w := take (Z.to_nat (u8 (zlen data))) data in
  if (zlen ws =? EVM_STACK_LIMIT) || (32 <? u8 (zlen data))
  then evm_stack_push data e = Err EVM_ERROR_STACK_LIMIT e
  else exists e', evm_stack_push data e = Ok tt e' /\ stack_rep e' (w :: ws) /\ frame_stack e e'.
Proof.
  intros Hr Hd w. pose proof (stack_rep_bound e ws Hr) as Hb. destruct Hr as (R1 & R2 & R3 & R4 & R5).
  unfold evm_stack_push. rewrite R3. destruct (_ || _) eqn:E; [done|].
  apply orb_false_iff in E as [E1 E2]. apply Z.eqb_neq in E1. apply Z.ltb_ge in E2.
  pose proof (u8_byte (zlen data)) as [B1 B2]. set (len := u8 (zlen data)) in *.
  assert (len <= zlen data) by (subst len; apply Z.mod_le; lia).
  assert (zlen w = len) as Hw by (subst w; rewrite length_take; lia).
  destruct (bb_reserve (stack e) (enc ws) (len + 1) R1) as (bb' & d & -> & S2 & S3 & S4 & S5 & S6 & S7 & S8 & S9); [lia|lia|].
  cbn [mbind option_bind]. rewrite S3. cbn [mbind option_bind]. rewrite S4, Nat2Z.id. fold w.
  destruct (push_bytes_ok (enc ws) len w d S9) as (d1 & d2 & M1 & M2 & M3 & M4); [rewrite length_app; lia|].
  rewrite M1. cbn [mbind option_bind]. rewrite u32_small by lia.
  replace (Z.to_nat (zlen (enc ws) + (len + 1) - 1)) with (length (enc ws ++ w)) by (rewrite length_app; lia).
  rewrite M2. cbn [mbind option_bind]. eexists. split; [done|]. split; [|auto with in3].
  split; [|rewrite stack_set_stack, stack_size_set_stack; split; [done|]].
  - rewrite stack_set_stack. cbn [enc]. rewrite Hw.
    replace (zlen (enc ws) + (len + 1)) with (zlen (enc ws ++ w ++ [len])) by (rewrite !length_app; cbn; lia).
    apply (bb_rep_extend bb' (enc ws) d2 (w ++ [len])); [by rewrite M3|done|done| |done].
    rewrite M3, !length_app. cbn [length]. lia.
  - cbn [length]. unfold EVM_STACK_LIMIT in *. split; [lia|]. split; [lia|].
    constructor; [|done]. split; [subst w; by apply Forall_take|lia].
Qed.
Lemma evm_stack_push_ok e ws data : stack_rep e ws -> word_ok data -> zlen ws < EVM_STACK_LIMIT ->
  exists e', evm_stack_push data e = Ok tt e' /\ stack_rep e' (data :: ws) /\ frame_stack e e'.
Proof.
  intros Hr [Hd Hl] Hlt. pose proof (evm_stack_push_cases e ws data Hr Hd) as Hc. cbv zeta in Hc.
  rewrite u8_small in Hc by (unfold is_byte; lia). rewrite take_ge in Hc by lia.
  destruct (_ || _) eqn:E; [|done]. apply orb_prop in E as [E|E]; [apply Z.eqb_eq in E|apply Z.ltb_lt in E]; lia.
Qed.

Lemma evm_stack_pop_at_empty e : stack_rep e [] -> evm_stack_pop_at e = Err EVM_ERROR_EMPTY_STACK e.
Proof. intros (_ & _ & H1 & _). unfold evm_stack_pop_at. by rewrite H1. Qed.
Lemma evm_stack_pop_at_cons e w ws : stack_rep e (w :: ws) ->
  exists e', evm_stack_pop_at e = Ok (zlen (enc ws), w) e' /\ stack_rep e' ws /\ frame_stack e e'.
Proof.
  intros (R1 & R2 & R3 & R4 & R5). unfold evm_stack_pop_at, pop_entry. rewrite R3. cbn [length].
  destruct (Z.eqb_spec (Z.of_nat (S (length ws))) 0); [lia|].
  pose proof R1 as [Hlen _]. cbn [enc] in R1, Hlen. rewrite !length_app in Hlen. cbn [length] in Hlen.
  destruct (Z.leb_spec (bb_len (stack e)) 0); [lia|].
  destruct (bb_data (stack e)) as [d|] eqn:Ed; [|done]. cbn [mbind option_bind].
  inversion R5 as [|? ? [W1 W2] W3]; subst.
  assert (read_at d (Z.to_nat (bb_len (stack e) - 1)) 1 = Some [zlen w]) as ->.
  { replace (Z.to_nat (bb_len (stack e) - 1)) with (length (enc ws ++ w)) by (rewrite length_app; lia).
    change 1%nat with (length [zlen w]). eapply (bb_rep_read _ _ _ []); [|done]. by rewrite app_nil_r, <- app_assoc. }
  cbn [mbind option_bind]. change (rd [zlen w] 0) with (zlen w).
  replace (bb_len (stack e) - (zlen w + 1)) with (zlen (enc ws)) by lia.
  destruct (Z.ltb_spec (zlen (enc ws)) 0); [lia|]. rewrite !Nat2Z.id, (bb_rep_read _ _ _ _ _ R1 Ed).
  cbn [mbind option_bind]. eexists. split; [done|]. split; [|auto with in3].
  split; [rewrite stack_set_stack; by eapply bb_rep_shrink|]. rewrite stack_set_stack, stack_size_set_stack.
  split; [done|]. cbn [length] in *. split; [lia|]. split; [lia|done].
Qed.

(** The pop operations on the list of words. *)
Lemma evm_stack_pop_ref_spec e ws : stack_rep e ws ->
  match ws with
  | [] => evm_stack_pop_ref e = Err EVM_ERROR_EMPTY_STACK e
  | w :: ws' => exists e', evm_stack_pop_ref e = Ok w e' /\ stack_rep e' ws' /\ frame_stack e e'
  end.
Proof.
  intros Hr. unfold evm_stack_pop_ref, mbind, M_bind. destruct ws as [|w ws].
  - by rewrite evm_stack_pop_at_empty.
  - destruct (evm_stack_pop_at_cons e w ws Hr) as (e' & -> & H1 & H2). by exists e'.
Qed.
Lemma right_align_spec n w : word_ok w -> length (right_align n w) = n /\ bytes_ok (right_align n w) /\
  ((length w <= n)%nat -> be_val (right_align n w) = be_val w).
Proof.
  intros [Hw Hl]. unfold right_align. destruct (Nat.eqb_spec (length w) n); [done|].
  destruct (Nat.ltb_spec (length w) n).
  - rewrite length_app, length_replicate, be_val_zeros. split; [lia|]. split; [|done].
    apply Forall_app. split; [by apply Forall_replicate|done].
  - rewrite length_drop. split; [lia|]. split; [by apply Forall_drop|lia].
Qed.

(** [evm_stack_pop_int] clamps everything from 2^28 on to [MEM_LIMIT]. *)
Definition int_of_word (w : list Z) : Z := if be_val w <? 2 ^ 28 then be_val w else MEM_LIMIT.
Lemma land_f0 x : is_byte x -> (Z.land x 0xF0 =? 0) = (x <? 16).
Proof. intros Hx. apply Bool.eqb_prop. revert x Hx. apply byte_forall. vm_compute. done. Qed.
Lemma pop_int_value w : word_ok w -> w <> [] ->
  (let p := optimize_len w in
   if (4 <? length p)%nat || ((length p =? 4)%nat && negb (Z.land (rd p 0) 0xF0 =? 0)) then 0xFFFFFFF
   else i32 (bytes_to_int (Some p) (zlen p))) = int_of_word w.
Proof.
  intros [Hw Hl] Hne. unfold int_of_word. rewrite <- (optimize_len_val w). pose proof (optimize_len_head w) as Hh.
  apply optimize_len_ok in Hw. apply optimize_len_nonempty in Hne. cbv zeta. set (p := optimize_len w) in *.
  rewrite land_f0 by auto with in3. destruct p as [|x t] eqn:Ep; [done|]. change (rd (x :: t) 0) with x.
  pose proof Hw as Hok. inversion_clear Hw as [|? ? Hx Ht]. rewrite be_val_cons. pose proof (be_val_bound t Ht) as Bt. unfold is_byte in Hx.
  assert ((1 < length (x :: t))%nat -> x <> 0) as Hnz.
  { intros. destruct Hh as [Hh|(? & ? & [= <- <-] & ?)]; [lia|done]. }
  destruct (Nat.ltb_spec 4 (length (x :: t))) as [L|L]; cbn [orb].
  - cbn [length] in *. pose proof (Z.pow_le_mono_r 256 4 (zlen t)). change (256 ^ 4) with (2 ^ 32) in *.
    rewrite (proj2 (Z.ltb_ge _ _)) by nia. done.
  - destruct (Nat.eqb_spec (length (x :: t)) 4) as [E|E]; cbn [andb].
    + cbn [length] in E. assert (length t = 3)%nat as E3 by lia. rewrite E3 in *. change (256 ^ Z.of_nat 3) with (2 ^ 24) in *.
      destruct (Z.ltb_spec x 16) as [Hs|Hs]; cbn [negb].
      * rewrite (proj2 (Z.ltb_lt _ _)) by lia.
        rewrite bytes_to_int_spec by (done || (cbn [length]; lia)). rewrite be_val_cons, E3. change (256 ^ Z.of_nat 3) with (2 ^ 24).
        apply i32_small. lia.
      * rewrite (proj2 (Z.ltb_ge _ _)) by lia. done.
    + cbn [length] in *. pose proof (Z.pow_le_mono_r 256 (zlen t) 2). change (256 ^ 2) with (2 ^ 16) in *.
      rewrite (proj2 (Z.ltb_lt _ _)) by nia. rewrite bytes_to_int_spec by (done || (cbn [length]; lia)).
      rewrite be_val_cons. apply i32_small. nia.
Qed.
Lemma int_of_word_range w : bytes_ok w -> 0 <= int_of_word w <= MEM_LIMIT.
Proof. intros Hw. pose proof (be_val_pos w Hw). unfold int_of_word, MEM_LIMIT. bool_cases. Qed.
(** For the empty word [bytes_to_int] is 0 as well. *)
Lemma evm_stack_pop_int_spec e ws : stack_rep e ws ->
  match ws with
  | [] => evm_stack_pop_int e = Err EVM_ERROR_EMPTY_STACK e
  | w :: ws' => exists e', evm_stack_pop_int e = Ok (int_of_word w) e' /\ stack_rep e' ws' /\ frame_stack e e'
  end.
Proof.
  intros Hr. pose proof (evm_stack_pop_ref_spec e ws Hr) as Hp. unfold evm_stack_pop_int, mbind, M_bind.
  destruct ws as [|w ws]; [by rewrite Hp|]. destruct Hp as (e' & -> & H1 & H2). exists e'. split; [|done].
  unfold mret, M_ret. f_equal. destruct Hr as (_ & _ & _ & _ & Hf). inversion Hf as [|? ? Hw ?]; subst.
  destruct w as [|x t]; [done|]. by apply pop_int_value.
Qed.

(** [evm_stack_pop_byte]: the value when it is below 256, else the error -3; the entry is gone. *)
Lemma evm_stack_pop_byte_spec e ws : stack_rep e ws ->
  match ws with
  | [] => evm_stack_pop_byte e = Err EVM_ERROR_EMPTY_STACK e
  | w :: ws' => exists e', stack_rep e' ws' /\ frame_stack e e' /\
      evm_stack_pop_byte e = if (negb (length w =? 0)%nat) && (be_val w <? 256) then Ok (be_val w) e' else Err (-3) e'
  end.
Proof.
  intros Hr. pose proof (evm_stack_pop_ref_spec e ws Hr) as Hp. unfold evm_stack_pop_byte, mbind, M_bind.
  destruct ws as [|w ws]; [by rewrite Hp|]. destruct Hp as (e' & -> & H1 & H2). exists e'. split; [done|]. split; [done|].
  destruct Hr as (_ & _ & _ & _ & Hf). inversion Hf as [|? ? [Hw Hl] ?]; subst.
  destruct (Nat.ltb_spec 1 (length w)) as [L|L].
  - rewrite existsb_nonzero_val by by apply Forall_take. pose proof (take_drop_last w ltac:(lia)) as T.
    assert (be_val w = be_val (take (length w - 1) w) * 256 + nth (length w - 1) w 0) as V
      by (rewrite T at 1; apply be_val_snoc).
    pose proof (nth_ok w (length w - 1) Hw) as [B1 B2]. pose proof (be_val_pos _ (Forall_take _ (length w - 1) _ Hw)).
    destruct (Nat.eqb_spec (length w) 0); [lia|]. cbn [negb andb].
    destruct (Z.eqb_spec (be_val (take (length w - 1) w)) 0) as [Z0|Z0]; cbn [negb].
    + rewrite Z0 in V. rewrite (proj2 (Z.ltb_lt _ _)) by lia. rewrite V. done.
    + rewrite (proj2 (Z.ltb_ge _ _)) by lia. done.
  - destruct w as [|x [|? ?]]; [done| |cbn in L; lia]. rewrite be_val_single. inversion_clear Hw as [|? ? [B1 B2] ?].
    cbn [length Nat.eqb negb andb nth]. rewrite (proj2 (Z.ltb_lt _ _)) by lia. done.
Qed.

Lemma get_ref_loop_spec n : forall ws d c, (n <= length ws)%nat -> Forall word_ok ws ->
  take (length (enc ws)) d = enc ws -> (length (enc ws) <= length d)%nat ->
  get_ref_loop n d (zlen (enc ws)) c = Some (zlen (enc (drop n ws)), if (n =? 0)%nat then c else zlen (nth (n - 1) ws [])).
Proof.
  induction n as [|n IH]; intros ws d c Hn Hf Ht Hl; cbn [get_ref_loop]; [done|].
  destruct ws as [|w ws]; [cbn in Hn; lia|]. inversion_clear Hf as [|? ? [W1 W2] Hf']. cbn [enc] in *.
  rewrite !length_app in *. cbn [length] in *.
  destruct (Z.leb_spec (Z.of_nat (length (enc ws) + (length w + 1))) 0); [lia|].
  replace (Z.to_nat (Z.of_nat (length (enc ws) + (length w + 1)) - 1)) with (length (enc ws ++ w)) by (rewrite length_app; lia).
  assert (read_at d (length (enc ws ++ w)) 1 = Some [zlen w]) as ->.
  { change 1%nat with (length [zlen w]). apply (read_at_mid _ _ []).
    - rewrite app_nil_r, <- app_assoc, !length_app. done.
    - rewrite app_nil_r, !length_app. cbn [length]. lia. }
  cbn [mbind option_bind]. change (rd [zlen w] 0) with (zlen w).
  replace (Z.of_nat (length (enc ws) + (length w + 1)) - (zlen w + 1)) with (zlen (enc ws)) by lia.
  rewrite IH; [|lia|done| |lia].
  - cbn [Nat.eqb]. replace (S n - 1)%nat with n by lia. destruct n as [|n]; [done|]. cbn [Nat.eqb nth].
    by replace (S n - 1)%nat with n by lia.
  - replace (take (length (enc ws)) d) with (take (length (enc ws)) (take (length (enc ws) + (length w + 1)) d))
      by (rewrite take_take; f_equal; lia). rewrite Ht. by rewrite take_app_length.
Qed.

(** [evm_stack_get_ref pos] is the [pos]-th word from the top. *)
Lemma enc_split n ws : (n < length ws)%nat ->
  enc ws = enc (drop (S n) ws) ++ (nth n ws [] ++ [zlen (nth n ws [])]) ++ concat (rev (map (fun w => w ++ [zlen w]) (take n ws))).
Proof.
  revert ws. induction n as [|n IH]; intros [|w ws] Hn; [cbn in Hn; lia| |cbn in Hn; lia|].
  - cbn. rewrite drop_0, app_nil_r. done.
  - cbn [enc drop nth take map rev]. rewrite (IH ws) by (cbn in Hn; lia). rewrite concat_app. cbn [concat].
    rewrite app_nil_r, <- !app_assoc. done.
Qed.
Lemma evm_stack_get_ref_spec e ws p : stack_rep e ws -> 0 <= p ->
  evm_stack_get_ref p e = if (1 <=? p) && (p <=? zlen ws)
    then Ok (zlen (enc (drop (Z.to_nat p) ws)), nth (Z.to_nat p - 1) ws []) e
    else Err EVM_ERROR_EMPTY_STACK e.
Proof.
  intros (R1 & R2 & R3 & R4 & R5) Hp. unfold evm_stack_get_ref. rewrite R3.
  destruct (Z.leb_spec 1 p) as [L1|L1], (Z.leb_spec p (zlen ws)) as [L2|L2]; cbn [andb].
  2, 3, 4: rewrite (proj2 (orb_true_iff _ _)); [done|]; first [left; apply Z.ltb_lt; lia|right; apply Z.ltb_lt; lia].
  rewrite (proj2 (orb_false_iff _ _)) by (split; apply Z.ltb_ge; lia).
  destruct (bb_data (stack e)) as [d|] eqn:Ed; [|done]. cbn [mbind option_bind].
  pose proof R1 as [Hlen Hd]. rewrite Ed in Hd. destruct Hd as (D1 & D2 & D3 & D4 & D5).
  rewrite Hlen, get_ref_loop_spec by (done || lia). cbn [mbind option_bind].
  destruct (Nat.eqb_spec (Z.to_nat p) 0); [lia|]. destruct (Z.ltb_spec (zlen (enc (drop (Z.to_nat p) ws))) 0); [lia|].
  rewrite !Nat2Z.id. pose proof (enc_split (Z.to_nat p - 1) ws ltac:(lia)) as Es. replace (S (Z.to_nat p - 1)) with (Z.to_nat p) in Es by lia.
  rewrite (read_at_mid (enc (drop (Z.to_nat p) ws)) (nth (Z.to_nat p - 1) ws [])
    ([zlen (nth (Z.to_nat p - 1) ws [])] ++ concat (rev (map (fun w => w ++ [zlen w]) (take (Z.to_nat p - 1) ws)))) d); [done| |].
  - rewrite (app_assoc (nth _ _ _)), <- Es. done.
  - rewrite (app_assoc (nth _ _ _)), <- Es. done.
Qed.
End Specs.

(** ** Properties *)
Section Props.
Context `{Allocator}.

Lemma push_int_bytes val : 0 <= val < 2 ^ 32 ->
  exists w, evm_stack_push_int val = evm_stack_push w /\ word_ok w /\ w <> [] /\ be_val w = val.
Proof.
  intros Hv. unfold evm_stack_push_int. cbv zeta. rewrite !land_255, !Z.shiftr_div_pow2 by lia.
  change (2 ^ 8) with 256. change (2 ^ 16) with (256 * 256). change (2 ^ 24) with (256 * 256 * 256). rewrite <- !Z.div_div by lia.
  set (v1 := val / 256). set (v2 := v1 / 256). set (v3 := v2 / 256).
  pose proof (Z.div_mod val 256 ltac:(lia)) as D0. fold v1 in D0. pose proof (Z.div_mod v1 256 ltac:(lia)) as D1. fold v2 in D1.
  pose proof (Z.div_mod v2 256 ltac:(lia)) as D2. fold v3 in D2.
  pose proof (mod256_byte val) as B0. pose proof (mod256_byte v1) as B1. pose proof (mod256_byte v2) as B2. pose proof (mod256_byte v3) as B3.
  assert (v3 mod 256 = v3) as E3.
  { apply Z.mod_small. unfold is_byte in *. subst v3 v2 v1. rewrite !Z.div_div by lia. split; [apply Z.div_pos; lia|apply Z.div_lt_upper_bound; lia]. }
  destruct (Z.eqb_spec (v3 mod 256) 0) as [Z3|Z3]; cbn [negb];
    [destruct (Z.eqb_spec (v2 mod 256) 0) as [Z2|Z2]; cbn [negb];
      [destruct (Z.eqb_spec (v1 mod 256) 0) as [Z1|Z1]; cbn [negb]|]|].
  all: eexists; split; [reflexivity|].
  all: split; [split; [repeat (apply Forall_cons; split; [assumption|]); by apply Forall_nil|cbn [length]; lia]|].
  all: split; [discriminate|]; unfold be_val; cbn [fold_left]; lia.
Qed.

Lemma right_align_bytes len w : word_ok w -> right_align len w = be_bytes len (be_val w).
Proof.
  intros Hw. destruct (right_align_spec len w Hw) as (Hl & Hok & Hv). destruct (Nat.leb_spec (length w) len) as [Hle|Hlt]; [by rewrite <- (be_bytes_be_val _ Hok), Hl, Hv|].
  rewrite <- (be_bytes_be_val _ Hok), Hl, <- (be_bytes_mod len (be_val w)). unfold right_align. rewrite (proj2 (Nat.eqb_neq _ _)), (proj2 (Nat.ltb_ge _ _)) by lia. rewrite <- be_bytes_mod. f_equal.
  set (k := (length w - len)%nat). assert (be_val w = be_val (take k w) * 256 ^ Z.of_nat len + be_val (drop k w)) as ->; [|by rewrite Z.add_comm, Z_mod_plus_full].
  rewrite <- (take_drop k w) at 1. rewrite be_val_app, length_drop. do 3 f_equal. lia.
Qed.
(** C22. The byte-level stack of the EVM is a bounded stack of words: on every well-formed stack
    push adds a word or reports the limit (1024 words of at most 32 bytes), the pop functions
    return the topmost word (as it is, as the low bytes of its value in a buffer of any length, as an integer clamped to [MEM_LIMIT], as a byte or the
    error -3), [evm_stack_get_ref] reads the word at a depth, all report an empty stack, and
    nothing but the stack changes. *)
Theorem evm_stack_refines_list e ws data n len : stack_rep e ws -> word_ok data -> 0 <= n ->
  (if zlen ws =? EVM_STACK_LIMIT then evm_stack_push data e = Err EVM_ERROR_STACK_LIMIT e
   else exists e', evm_stack_push data e = Ok tt e' /\ stack_rep e' (data :: ws) /\ frame_stack e e') /\
  match ws with
  | [] => evm_stack_pop_ref e = Err EVM_ERROR_EMPTY_STACK e /\ evm_stack_pop len e = Err EVM_ERROR_EMPTY_STACK e /\ evm_stack_pop_int e = Err EVM_ERROR_EMPTY_STACK e /\
          evm_stack_pop_byte e = Err EVM_ERROR_EMPTY_STACK e
  | w :: ws' => exists e', stack_rep e' ws' /\ frame_stack e e' /\
      evm_stack_pop_ref e = Ok w e' /\ evm_stack_pop len e = Ok (be_bytes len (be_val w)) e' /\ evm_stack_pop_int e = Ok (int_of_word w) e' /\
      evm_stack_pop_byte e = if negb (length w =? 0)%nat && (be_val w <? 256) then Ok (be_val w) e' else Err (-3) e'
  end /\
  evm_stack_get_ref n e = if (1 <=? n) && (n <=? zlen ws)
    then Ok (zlen (enc (drop (Z.to_nat n) ws)), nth (Z.to_nat n - 1) ws []) e
    else Err EVM_ERROR_EMPTY_STACK e.
Proof.
  intros Hr Hd Hn. split; [|split; [|by apply evm_stack_get_ref_spec]].
  - destruct (Z.eqb_spec (zlen ws) EVM_STACK_LIMIT) as [E|E].
    + destruct Hr as (_ & _ & R3 & _). unfold evm_stack_push. by rewrite R3, E.
    + apply evm_stack_push_ok; [done|done|]. destruct Hr as (_ & _ & _ & R4 & _). lia.
  - pose proof (evm_stack_pop_ref_spec e ws Hr) as H1. pose proof (evm_stack_pop_int_spec e ws Hr) as H2.
    pose proof (evm_stack_pop_byte_spec e ws Hr) as H3. destruct ws as [|w ws]; [split_and!; [done| |done..]; unfold evm_stack_pop, mbind, M_bind; by rewrite H1|].
    destruct H1 as (e1 & P1 & R1 & F1). assert (evm_stack_pop len e = Ok (be_bytes len (be_val w)) e1) as P4.
    { unfold evm_stack_pop, mbind, M_bind. rewrite P1. rewrite right_align_bytes; [done|]. destruct Hr as (_ & _ & _ & _ & [Hw _]%Forall_cons). exact Hw. } destruct H2 as (e2 & P2 & _). destruct H3 as (e3 & _ & _ & P3).
    assert (e2 = e1) as -> by (unfold evm_stack_pop_int, mbind, M_bind in P2; rewrite P1 in P2; by injection P2).
    assert (e3 = e1) as ->.
    { unfold evm_stack_pop_byte, mbind, M_bind in P3. rewrite P1 in P3. revert P3. unfold fail, mret, M_ret. repeat case_match; congruence. }
    by exists e1.
Qed.

(** [evm_stack_push_long] pushes the value as eight bytes as long as its top byte is zero;
    above, the search for the first significant byte (which tests for a byte that IS zero) drops
    the leading bytes, and a value without zero bytes is reduced to its last byte. *)
Theorem evm_stack_push_long_spec e ws v : stack_rep e ws -> zlen ws < EVM_STACK_LIMIT -> 0 <= v ->
  (v < 2 ^ 56 -> exists e', evm_stack_push_long v e = Ok tt e' /\ stack_rep e' (be_bytes 8 v :: ws)) /\
  (Forall (fun x => x <> 0) (be_bytes 8 v) ->
   exists e', evm_stack_push_long v e = Ok tt e' /\ stack_rep e' ([v mod 256] :: ws)).
Proof.
  intros Hr Hlt Hv. unfold evm_stack_push_long. rewrite long_to_bytes_spec by done. split; intros Hc.
  - assert (exists t, be_bytes 8 v = 0 :: t) as [t Et].
    { pose proof (be_val_be_bytes 8 v) as Hb. change (256 ^ Z.of_nat 8) with (2 ^ 64) in Hb. rewrite Z.mod_small in Hb by lia.
      pose proof (be_bytes_ok 8 v) as Hok. pose proof (length_be_bytes 8 v) as Hl. destruct (be_bytes 8 v) as [|x t]; [done|].
      exists t. inversion_clear Hok as [|? ? [X1 X2] Ht]. rewrite be_val_cons in Hb. cbn [length] in Hl.
      replace (length t) with 7%nat in Hb by lia. change (256 ^ Z.of_nat 7) with (2 ^ 56) in Hb. pose proof (be_val_pos t Ht).
      f_equal. nia. }
    assert (push_long_loop 7 (be_bytes 8 v) = evm_stack_push (be_bytes 8 v)) as -> by (rewrite Et; done).
    destruct (evm_stack_push_ok e ws (be_bytes 8 v) Hr) as (e' & H1 & H2 & _); [|done|by exists e'].
    split; [apply be_bytes_ok|rewrite length_be_bytes; lia].
  - pose proof (length_be_bytes 8 v) as Hl. assert (be_bytes 8 v = be_bytes 7 (v / 256) ++ [v mod 256]) as E8 by done.
    rewrite E8 in Hc, Hl |- *. set (p := be_bytes 7 (v / 256)) in *.
    assert (push_long_loop 7 (p ++ [v mod 256]) = evm_stack_push [v mod 256]) as ->.
    { rewrite length_app in Hl. cbn [length] in Hl. assert (length p = 7%nat) as Hp by lia. clear Hl E8. revert Hp Hc. generalize p. intros q Hp Hc.
      do 7 (destruct q as [|? q]; [done|]; apply Forall_cons in Hc as [? Hc]; cbn [app push_long_loop];
        rewrite (proj2 (Z.eqb_neq _ _)) by done).
      destruct q; [done|done]. }
    destruct (evm_stack_push_ok e ws [v mod 256] Hr) as (e' & H1 & H2 & _); [|done|by exists e'].
    split; [repeat constructor; apply mod256_byte|cbn; lia].
Qed.
End Props.

(** A frame with an empty stack. *)
Definition empty_evm `{Allocator} : evm_t :=
  mk_evm (mk_bb 64 (Some (malloc 64)) 0 true) (mk_bb 32 (Some (replicate 32 0)) 0 true) 0 NULL_BYTES 0 EVM_STATE_INIT
    NULL_BYTES NULL_BYTES None EVM_PROP_CONSTANTINOPL 1 [] [] [] [] NULL_BYTES NULL_BYTES NULL_BYTES 0 [] [] 0 0.
Lemma empty_evm_rep `{Allocator} : stack_rep empty_evm [].
Proof.
  unfold stack_rep, bb_rep, EVM_STACK_LIMIT. cbn. rewrite malloc_length. repeat split; try done; try lia.
Qed.

Lemma evm_stack_refines_list_witness :
  exists e', evm_stack_push [1; 2] empty_evm = Ok tt e' /\ stack_rep e' [[1; 2]] /\ frame_stack empty_evm e'.
Proof.
  assert (word_ok [1; 2]) as Hw by decide_now.
  destruct (evm_stack_refines_list empty_evm [] [1; 2] 0 32 empty_evm_rep Hw ltac:(lia)) as (Hp & _). exact Hp.
Defined.
Lemma evm_stack_push_long_spec_witness :
  exists e', evm_stack_push_long (2 ^ 64 - 1) empty_evm = Ok tt e' /\ stack_rep e' [[255]].
Proof.
  apply (evm_stack_push_long_spec empty_evm [] (2 ^ 64 - 1) empty_evm_rep ltac:(reflexivity) ltac:(lia)). decide_now.
Defined.
