(* ===== verification/EvmMem.v ===== *)
(** * verifier/eth1/evm/evm_mem.c: the memory of a frame

    The memory is a byte builder: [b.len] is the size the EVM sees (and pays for), the block of
    [bsize] bytes holds the prefix that was ever written.  The lemmas relate it to an infinite
    array of bytes, zero where nothing was written. *)
From S2P Require Import Prelude Utils Bytes EvmState.

Definition G_MEMORY : Z := 3.

Section Ops.
Context `{Allocator}.

(** The cost of a memory of [wc] words. *)
Definition mem_cost (wc : Z) : Z := u64 (u64 (wc * G_MEMORY) + u64 (wc * wc) / 512).

(** The part that enlarges [b.len] and pays for it; returns the new [max_pos]. *)
Definition mem_extend (max_pos : Z) : M evm_t Z :=
  len ← gets (fun e => bb_len (memory e));
  if len <? max_pos then
    let old_wc := (len + 31) / 32 in
    let new_wc := (max_pos + 31) / 32 in
    max_pos ← (if old_wc <? new_wc then
                 let old_cost := mem_cost old_wc in
                 let new_cost := mem_cost new_wc in
                 _ ← (if old_cost <? new_cost then subgas (new_cost - old_cost) else mret tt);
                 mret (new_wc * 32)
               else mret max_pos);
    _ ← modify (fun e => set_memory (mk_bb (bb_bsize (memory e)) (bb_data (memory e)) (u32 max_pos) (bb_heap (memory e))) e);
    mret max_pos
  else mret max_pos.

(** The part that allocates; new space is cleared. *)
Definition mem_grow (max_pos : Z) : M evm_t unit := fun e =>
  let m := memory e in
  let old_l := u32 (bb_bsize m) in
  match (bb ← bb_check_size (mk_bb (bb_bsize m) (bb_data m) 0 (bb_heap m)) max_pos;
         d ← bb_data bb;
         d ← (if old_l <? bb_bsize bb then memcpy_at d (Z.to_nat old_l) (replicate (Z.to_nat (bb_bsize bb - old_l)) 0) else Some d);
         Some (mk_bb (bb_bsize bb) (Some d) (bb_len m) (bb_heap bb))) with
  | Some bb => Ok tt (set_memory bb e)
  | None => Undef
  end.

Definition mem_check (max_pos : Z) (read_only : bool) : M evm_t unit :=
  if MEM_LIMIT <=? max_pos then fail EVM_ERROR_OUT_OF_GAS
  else
    max_pos ← mem_extend max_pos;
    bsize ← gets (fun e => bb_bsize (memory e));
    if negb read_only && (bsize <? max_pos) then mem_grow max_pos else mret tt.

(** [n] bytes of the block at [off]; an access outside is undefined. *)
Definition mem_peek (off n : Z) : M evm_t (list Z) :=
  m ← gets memory; defined (d ← bb_data m; read_at d (Z.to_nat off) (Z.to_nat n)).
Definition mem_poke (off : Z) (data : list Z) : M evm_t unit :=
  m ← gets memory;
  d ← defined (d ← bb_data m; memcpy_at d (Z.to_nat off) data);
  modify (set_memory (mk_bb (bb_bsize m) (Some d) (bb_len m) (bb_heap m))).

(** [evm_mem_readi]: returns what is stored at [dst]. *)
Definition evm_mem_readi (off len : Z) : M evm_t (list Z) :=
  if len =? 0 then mret []
  else
    _ ← or_fail (mem_check (off + len) true) EVM_ERROR_OUT_OF_GAS;
    bsize ← gets (fun e => bb_bsize (memory e));
    if off <? bsize then
      let max_len := u32 (bsize - off) in
      if max_len <? len then s ← mem_peek off max_len; mret (s ++ replicate (Z.to_nat (len - max_len)) 0)
      else mem_peek off len
    else mret (replicate (Z.to_nat len) 0).

Definition evm_mem_read (mem_off : list Z) (len : Z) : M evm_t (list Z) :=
  let mem_off := optimize_len mem_off in
  if (4 <? length mem_off)%nat then fail EVM_ERROR_OUT_OF_GAS
  else evm_mem_readi (bytes_to_int (Some mem_off) (zlen mem_off)) len.

(** [evm_mem_read_ref]: [None] is the NULL pointer; [off + len] is computed in 32 bit. *)
Definition evm_mem_read_ref (off len : Z) : M evm_t (option (list Z)) :=
  _ ← or_fail (mem_check (u32 (off + len)) true) EVM_ERROR_OUT_OF_GAS;
  bsize ← gets (fun e => bb_bsize (memory e));
  if off <? bsize then
    s ← mem_peek off (Z.min len (bsize - off)); mret (Some s)
  else mret None.

Definition evm_mem_write (off : Z) (src : bytes_t) (len : Z) : M evm_t unit :=
  _ ← or_fail (mem_check (u32 (off + len)) false) EVM_ERROR_OUT_OF_GAS;
  match b_data src with
  | None => mem_poke off (replicate (Z.to_nat len) 0)
  | Some d =>
      if len <=? b_len src then s ← defined (read_at d 0 (Z.to_nat len)); mem_poke off s
      else s ← defined (read_at d 0 (Z.to_nat (b_len src)));
           _ ← mem_poke off s;
           mem_poke (off + b_len src) (replicate (Z.to_nat (len - b_len src)) 0)
  end.
End Ops.

(** ** The memory as an array *)
Definition mem_ok (e : evm_t) : Prop :=
  exists d, bb_data (memory e) = Some d /\ bytes_ok d /\ bb_heap (memory e) = true /\ zlen d = bb_bsize (memory e) /\
    0 < bb_bsize (memory e) < 2 ^ 32 /\ 0 <= bb_len (memory e) <= 2 ^ 28 + 31.
(** Byte [i] of the memory. *)
Definition mget (e : evm_t) (i : nat) : Z := nth i (default [] (bb_data (memory e))) 0.
(** [n] bytes from [off] on. *)
Definition mread (e : evm_t) (off n : nat) : list Z := map (mget e) (seq off n).

(** Memory and gas differ at most. *)
Definition frame_mem (e e' : evm_t) : Prop := exists bb g, e' = set_gas g (set_memory bb e) /\ g <= gas e.
Lemma frame_mem_refl e : frame_mem e e.
Proof. exists (memory e), (gas e). split; [by destruct e|lia]. Qed.
Lemma frame_mem_trans e1 e2 e3 : frame_mem e1 e2 -> frame_mem e2 e3 -> frame_mem e1 e3.
Proof. intros (b1 & g1 & -> & G1) (b2 & g2 & -> & G2). exists b2, g2. destruct e1. cbn in *. split; [done|lia]. Qed.
Lemma frame_mem_memory bb e : frame_mem e (set_memory bb e).
Proof. exists bb, (gas e). split; [by destruct e|lia]. Qed.
Lemma memory_set_memory bb e : memory (set_memory bb e) = bb.
Proof. by destruct e. Qed.
Lemma memory_set_gas g e : memory (set_gas g e) = memory e.
Proof. by destruct e. Qed.
Lemma gas_set_memory bb e : gas (set_memory bb e) = gas e.
Proof. by destruct e. Qed.
Lemma gas_set_gas g e : gas (set_gas g e) = g.
Proof. by destruct e. Qed.
#[export] Hint Rewrite memory_set_memory memory_set_gas gas_set_memory gas_set_gas : in3.
#[export] Hint Resolve frame_mem_refl frame_mem_memory : in3.

(** ** The operations on the array *)
Definition words (n : Z) : Z := (n + 31) / 32.
(** The yellow paper's cost of [w] words of memory. *)
Definition C_mem (w : Z) : Z := G_MEMORY * w + w * w / 512.

Lemma mem_cost_exact w : 0 <= w <= 2 ^ 24 -> mem_cost w = C_mem w.
Proof.
  intros Hw. unfold mem_cost, C_mem, G_MEMORY. assert (w * w / 512 <= w * w) by (apply Z.div_le_upper_bound; nia).
  assert (0 <= w * w / 512) by (apply Z.div_pos; nia).
  rewrite (u64_small (w * 3)), (u64_small (w * w)), u64_small by nia. lia.
Qed.
Lemma C_mem_mono w v : 0 <= w < v -> C_mem w < C_mem v.
Proof. intros Hw. unfold C_mem, G_MEMORY. pose proof (Z.div_le_mono (w * w) (v * v) 512). nia. Qed.
Lemma words_spec n : 0 <= n -> n <= words n * 32 <= n + 31 /\ 0 <= words n.
Proof.
  intros Hn. unfold words. pose proof (Z.div_mod (n + 31) 32). pose proof (Z.mod_pos_bound (n + 31) 32).
  assert (0 <= (n + 31) / 32) by (apply Z.div_pos; lia). lia.
Qed.
Lemma words_mono n m : n <= m -> words n <= words m.
Proof. intros. apply Z.div_le_mono; lia. Qed.
Lemma words_mul n : words (n * 32) = n.
Proof. unfold words. rewrite Z.div_add_l by lia. change (31 / 32) with 0. lia. Qed.

Lemma grow_bsize_tight fuel : forall need bsize bs, 0 < bsize < 2 ^ 33 -> 0 <= need < 2 ^ 32 -> grow_bsize fuel need bsize = Some bs ->
  bs <= Z.max bsize (2 * need).
Proof.
  induction fuel as [|f IH]; intros need bsize bs Hb Hn; unfold grow_bsize; fold grow_bsize;
    destruct (Z.ltb_spec need bsize) as [L|L]; intros E; simplify_eq; [lia|lia|].
  rewrite Z.shiftl_mul_pow2, u64_small in E by lia. apply IH in E; lia.
Qed.

Lemma nth_zeros n i : nth i (replicate n 0) 0 = 0.
Proof. revert i. induction n as [|n IH]; intros [|i]; cbn; auto. Qed.

Section MemSpecs.
Context `{Allocator}.

Lemma mget_set_memory bs d l h e i : mget (set_memory (mk_bb bs (Some d) l h) e) i = nth i d 0.
Proof. unfold mget. by rewrite memory_set_memory. Qed.
Lemma mem_ok_data e d : mem_ok e -> bb_data (memory e) = Some d -> bytes_ok d /\ zlen d = bb_bsize (memory e).
Proof. intros (d' & E & H1 & _ & H2 & _) E'. rewrite E in E'. by injection E' as <-. Qed.

Lemma subgas_cases g e : 0 <= g ->
  subgas g e = if gas e <? g then Err EVM_ERROR_OUT_OF_GAS e else Ok tt (set_gas (gas e - g) e).
Proof. done. Qed.

(** [mem_extend]: out of gas, or the size is extended to whole words and paid for. *)
Lemma mem_extend_spec e mp : mem_ok e -> 0 <= mp < MEM_LIMIT ->
  let len := bb_len (memory e) in
  let cost := C_mem (words mp) - C_mem (words len) in
  let new := if words len <? words mp then words mp * 32 else mp in
  if (len <? mp) && (words len <? words mp) && (gas e <? cost) then mem_extend mp e = Err EVM_ERROR_OUT_OF_GAS e
  else exists e' mp', mem_extend mp e = Ok mp' e' /\ mem_ok e' /\ frame_mem e e' /\
    mp' = (if len <? mp then new else mp) /\ mp <= mp' <= mp + 31 /\
    bb_data (memory e') = bb_data (memory e) /\ bb_bsize (memory e') = bb_bsize (memory e) /\
    bb_len (memory e') = (if len <? mp then new else len) /\
    gas e' = gas e - (if (len <? mp) && (words len <? words mp) then cost else 0).
Proof.
  intros Hok Hmp. pose proof Hok as (d & D1 & D2 & D3 & D4 & D5 & D6). unfold MEM_LIMIT in Hmp. cbv zeta.
  unfold mem_extend, gets, mbind, M_bind. cbv beta. fold (words (bb_len (memory e))) (words mp).
  set (len := bb_len (memory e)) in *.
  pose proof (words_spec len ltac:(lia)) as Wl. pose proof (words_spec mp ltac:(lia)) as Wm.
  destruct (Z.ltb_spec len mp) as [L|L]; cbn [andb].
  2: { exists e, mp. split; [done|]. split; [done|]. split; [auto with in3|]. split; [done|]. split; [lia|]. by rewrite Z.sub_0_r. }
  destruct (Z.ltb_spec (words len) (words mp)) as [Lw|Lw]; cbn [andb].
  - rewrite !mem_cost_exact by lia. pose proof (C_mem_mono (words len) (words mp) ltac:(lia)).
    rewrite (proj2 (Z.ltb_lt (C_mem (words len)) (C_mem (words mp)))) by done. unfold subgas.
    destruct (Z.ltb_spec (gas e) (C_mem (words mp) - C_mem (words len))) as [Lg|Lg]; [done|].
    unfold mret, M_ret, modify. cbv beta iota. rewrite memory_set_gas, u32_small by lia.
    eexists _, _. split; [done|]. rewrite memory_set_memory, gas_set_memory, gas_set_gas. cbn [bb_data bb_bsize bb_len].
    split; [exists d; rewrite memory_set_memory; cbn [bb_data bb_bsize bb_len bb_heap]; repeat split; try done; lia|].
    split; [|repeat split; lia]. eexists _, (gas e - (C_mem (words mp) - C_mem (words len))). split; [by destruct e|lia].
  - unfold mret, M_ret, modify. cbv beta iota. rewrite u32_small by lia.
    eexists _, _. split; [done|]. rewrite memory_set_memory, gas_set_memory. cbn [bb_data bb_bsize bb_len].
    split; [exists d; rewrite memory_set_memory; cbn [bb_data bb_bsize bb_len bb_heap]; repeat split; try done; lia|].
    split; [auto with in3|repeat split; lia].
Qed.

(** [mem_grow]: the block is larger, cleared behind the old one. *)
Lemma mem_grow_spec e mp : mem_ok e -> bb_bsize (memory e) < mp < 2 ^ 29 ->
  exists e', mem_grow mp e = Ok tt e' /\ mem_ok e' /\ frame_mem e e' /\ gas e' = gas e /\ mp <= bb_bsize (memory e') /\
    bb_len (memory e') = bb_len (memory e) /\ forall i, mget e' i = mget e i.
Proof.
  intros (d & D1 & D2 & D3 & D4 & D5 & D6) Hmp. unfold mem_grow. rewrite D1. rewrite (u32_small (bb_bsize _)) by lia.
  unfold bb_check_size. cbn [bb_len bb_bsize bb_data bb_heap]. rewrite D3, Z.add_0_l, u64_small by lia.
  destruct (Z.eqb_spec mp 0); [lia|]. destruct (Z.ltb_spec mp (bb_bsize (memory e))); [lia|]. cbn [orb].
  destruct (grow_bsize_spec 64 mp (bb_bsize (memory e))) as (bs & G1 & G2 & G3); [lia|lia|lia|].
  pose proof (grow_bsize_tight 64 mp (bb_bsize (memory e)) bs ltac:(lia) ltac:(lia) G1) as G4. rewrite G1. cbn [mbind option_bind bb_data bb_bsize bb_len bb_heap].
  rewrite (proj2 (Z.ltb_lt (bb_bsize (memory e)) bs)) by lia.
  assert (length (realloc d (Z.to_nat bs)) = Z.to_nat bs) as Lr by apply realloc_length.
  rewrite memcpy_at_Some by (rewrite Lr, length_replicate; lia). cbn [mbind option_bind].
  eexists. split; [done|]. set (d' := take _ _ ++ _).
  assert (d' = d ++ replicate (Z.to_nat (bs - bb_bsize (memory e))) 0) as Ed.
  { subst d'. rewrite length_replicate, (drop_ge (realloc _ _)) by lia. rewrite app_nil_r. f_equal.
    replace (Z.to_nat (bb_bsize (memory e))) with (length d) by lia. rewrite realloc_take by lia. apply take_ge. lia. }
  clearbody d'. subst d'. split; [|split; [auto with in3|]].
  - eexists. rewrite memory_set_memory. cbn [bb_data bb_bsize bb_len bb_heap]. split; [done|].
    split; [apply Forall_app; split; [done|by apply Forall_replicate]|]. split; [done|].
    split; [rewrite length_app, length_replicate; lia|]. split; lia.
  - rewrite memory_set_memory, gas_set_memory. cbn [bb_data bb_bsize bb_len bb_heap]. split; [done|]. split; [lia|]. split; [done|].
    intros i. rewrite mget_set_memory. unfold mget. rewrite D1. cbn [default].
    destruct (Nat.lt_ge_cases i (length d)) as [Li|Li]; [by rewrite app_nth1|].
    rewrite app_nth2, (nth_overflow d) by lia. apply nth_zeros.
Qed.

(** [mem_check]: out of gas with the frame unchanged, or room for [mp] bytes, the content the
    same. *)
Lemma mem_check_spec e mp ro : mem_ok e -> 0 <= mp ->
  let len := bb_len (memory e) in
  let cost := if (len <? mp) && (words len <? words mp) then C_mem (words mp) - C_mem (words len) else 0 in
  if (MEM_LIMIT <=? mp) || ((0 <? cost) && (gas e <? cost)) then mem_check mp ro e = Err EVM_ERROR_OUT_OF_GAS e
  else exists e', mem_check mp ro e = Ok tt e' /\ mem_ok e' /\ frame_mem e e' /\ gas e' = gas e - cost /\
    (forall i, mget e' i = mget e i) /\ (ro = false -> mp <= bb_bsize (memory e')) /\
    bb_len (memory e') = (if len <? mp then if words len <? words mp then words mp * 32 else mp else len).
Proof.
  intros Hok Hmp. cbv zeta. unfold mem_check. destruct (Z.leb_spec MEM_LIMIT mp) as [L|L]; cbn [orb]; [done|].
  pose proof (mem_extend_spec e mp Hok ltac:(lia)) as He. cbv zeta in He. set (len := bb_len (memory e)) in *.
  set (cost := C_mem (words mp) - C_mem (words len)) in *. unfold mbind, M_bind.
  assert (words len < words mp -> 0 < cost) as Hc.
  { intros. subst cost. pose proof Hok as (d & _ & _ & _ & _ & _ & D6). pose proof (words_spec len ltac:(subst len; lia)).
    pose proof (C_mem_mono (words len) (words mp)). lia. }
  assert ((len <? mp) && (words len <? words mp) && (gas e <? cost)
    = (0 <? (if (len <? mp) && (words len <? words mp) then cost else 0))
      && (gas e <? (if (len <? mp) && (words len <? words mp) then cost else 0))) as Eb.
  { destruct (len <? mp); cbn [andb]; [|done]. destruct (Z.ltb_spec (words len) (words mp)); cbn [andb]; [|done].
    rewrite (proj2 (Z.ltb_lt 0 cost)) by auto. done. }
  rewrite <- Eb. destruct ((len <? mp) && (words len <? words mp) && (gas e <? cost)); [by rewrite He|].
  destruct He as (e1 & mp' & -> & O1 & F1 & E1 & B1 & D1 & S1 & L1 & G1). unfold gets.
  unfold MEM_LIMIT in L.
  destruct ro; cbn [negb andb].
  - exists e1. split; [done|]. split; [done|]. split; [done|]. split; [done|]. split; [intros i; unfold mget; by rewrite D1|]. done.
  - destruct (Z.ltb_spec (bb_bsize (memory e1)) mp') as [Lb|Lb].
    + destruct (mem_grow_spec e1 mp' O1 ltac:(lia)) as (e2 & -> & O2 & F2 & G2 & S2 & L2 & M2).
      exists e2. split; [done|]. split; [done|]. split; [by eapply frame_mem_trans|]. split; [lia|].
      split; [intros i; rewrite M2; unfold mget; by rewrite D1|]. split; [lia|congruence].
    + exists e1. split; [done|]. split; [done|]. split; [done|]. split; [done|]. split; [intros i; unfold mget; by rewrite D1|].
      split; [lia|done].
Qed.

Lemma nth_take_drop (d : list Z) off n i : (off + n <= length d)%nat ->
  nth i (take n (drop off d)) 0 = if (i <? n)%nat then nth (off + i) d 0 else 0.
Proof.
  intros Hl. destruct (Nat.ltb_spec i n) as [L|L].
  - rewrite !nth_lookup, lookup_take_lt, lookup_drop by done. done.
  - rewrite nth_overflow; [done|]. rewrite length_take, length_drop. lia.
Qed.
Lemma list_eq_nth (a b : list Z) : length a = length b -> (forall i, (i < length a)%nat -> nth i a 0 = nth i b 0) -> a = b.
Proof. intros Hl Hi. apply (nth_ext a b 0 0 Hl). intros. by apply Hi. Qed.
Lemma nth_mread e off n i : nth i (mread e off n) 0 = if (i <? n)%nat then mget e (off + i) else 0.
Proof.
  unfold mread. destruct (Nat.ltb_spec i n) as [L|L].
  - rewrite (nth_indep _ 0 (mget e 0)) by (rewrite length_map, length_seq; done). rewrite map_nth, seq_nth by done. done.
  - rewrite nth_overflow; [done|]. by rewrite length_map, length_seq.
Qed.
Lemma mread_length e off n : length (mread e off n) = n.
Proof. unfold mread. by rewrite length_map, length_seq. Qed.
Lemma mread_ok e off n : mem_ok e -> bytes_ok (mread e off n).
Proof.
  intros (d & D1 & D2 & _). apply Forall_map, Forall_true. intros i. unfold mget. rewrite D1. cbn. auto with in3.
Qed.

Lemma mem_peek_spec e off n : mem_ok e -> 0 <= off -> 0 <= n -> off + n <= bb_bsize (memory e) ->
  mem_peek off n e = Ok (mread e (Z.to_nat off) (Z.to_nat n)) e.
Proof.
  intros (d & D1 & D2 & D3 & D4 & _) Ho Hn Hl. unfold mem_peek, gets, mbind, M_bind. rewrite D1. cbn [option_bind].
  unfold read_at. rewrite (proj2 (Nat.leb_le _ _)) by lia. cbn [defined]. unfold mret, M_ret. f_equal.
  apply list_eq_nth; [rewrite mread_length, length_take, length_drop; lia|]. intros i _.
  rewrite nth_take_drop, nth_mread by lia. unfold mget. rewrite D1. done.
Qed.
Lemma mem_poke_spec e off data : mem_ok e -> bytes_ok data -> 0 <= off -> off + zlen data <= bb_bsize (memory e) ->
  exists e', mem_poke off data e = Ok tt e' /\ mem_ok e' /\ frame_mem e e' /\ gas e' = gas e /\
    bb_bsize (memory e') = bb_bsize (memory e) /\ bb_len (memory e') = bb_len (memory e) /\
    forall i, mget e' i = if (Z.to_nat off <=? i)%nat && (i <? Z.to_nat off + length data)%nat then nth (i - Z.to_nat off) data 0 else mget e i.
Proof.
  intros (d & D1 & D2 & D3 & D4 & D5 & D6) Hd Ho Hl. unfold mem_poke, gets, mbind, M_bind. rewrite D1. cbn [option_bind].
  rewrite memcpy_at_Some by lia. cbn [defined]. unfold mret, M_ret, modify. set (d' := _ ++ _).
  assert (length d' = length d) as Ld by (subst d'; rewrite !length_app, length_take, length_drop; lia).
  eexists. split; [done|]. split; [|split; [auto with in3|]].
  - exists d'. rewrite memory_set_memory. cbn [bb_data bb_bsize bb_len bb_heap]. split; [done|].
    split; [|split; [done|split; [by rewrite Ld|done]]].
    subst d'. apply Forall_app. split; [by apply Forall_take|]. apply Forall_app. split; [done|by apply Forall_drop].
  - rewrite memory_set_memory, gas_set_memory. cbn [bb_data bb_bsize bb_len bb_heap]. do 3 (split; [done|]).
    intros i. rewrite mget_set_memory. unfold mget. rewrite D1. cbn [default]. subst d'.
    assert (length (take (Z.to_nat off) d) = Z.to_nat off) as Lt by (rewrite length_take; lia).
    destruct (Nat.leb_spec (Z.to_nat off) i) as [L1|L1]; cbn [andb].
    + rewrite app_nth2, Lt by lia. destruct (Nat.ltb_spec i (Z.to_nat off + length data)) as [L2|L2].
      * rewrite app_nth1 by lia. done.
      * rewrite app_nth2 by lia. rewrite !nth_lookup, lookup_drop. do 2 f_equal. lia.
    + rewrite app_nth1 by lia. rewrite !nth_lookup, lookup_take_lt by lia. done.
Qed.

(** Out of gas, for an access that ends at [mp]. *)
Definition mem_oog (e : evm_t) (mp : Z) : bool :=
  let len := bb_len (memory e) in
  let cost := if (len <? mp) && (words len <? words mp) then C_mem (words mp) - C_mem (words len) else 0 in
  (MEM_LIMIT <=? mp) || ((0 <? cost) && (gas e <? cost)).

Lemma evm_mem_readi_spec e off len : mem_ok e -> 0 <= off -> 0 <= len ->
  if negb (len =? 0) && mem_oog e (off + len) then evm_mem_readi off len e = Err EVM_ERROR_OUT_OF_GAS e
  else exists e', evm_mem_readi off len e = Ok (mread e (Z.to_nat off) (Z.to_nat len)) e' /\ mem_ok e' /\ frame_mem e e' /\
    forall i, mget e' i = mget e i.
Proof.
  intros Hok Ho Hl. unfold evm_mem_readi. destruct (Z.eqb_spec len 0) as [->|Hn]; cbn [negb andb].
  { exists e. split; [done|]. split; [done|]. split; [auto with in3|done]. }
  pose proof (mem_check_spec e (off + len) true Hok ltac:(lia)) as Hc. cbv zeta in Hc. fold (mem_oog e (off + len)) in Hc.
  unfold or_fail, gets, mbind, M_bind. destruct (mem_oog e (off + len)); [by rewrite Hc|].
  destruct Hc as (e1 & -> & O1 & F1 & G1 & M1 & _). exists e1. split; [|done].
  assert (forall a b, mread e1 a b = mread e a b) as Hm by (intros; apply map_ext; done).
  pose proof O1 as (d & D1 & D2 & D3 & D4 & D5 & _).
  assert (forall i, bb_bsize (memory e1) <= Z.of_nat i -> mget e i = 0) as Hz
    by (intros i Hi; rewrite <- M1; unfold mget; rewrite D1; apply (nth_overflow d); lia).
  destruct (Z.ltb_spec off (bb_bsize (memory e1))) as [L|L].
  - rewrite u32_small by lia. destruct (Z.ltb_spec (bb_bsize (memory e1) - off) len) as [L2|L2].
    + rewrite mem_peek_spec by (done || lia). unfold mret, M_ret. f_equal. rewrite Hm.
      apply list_eq_nth; [rewrite length_app, !mread_length, length_replicate; lia|]. intros i Hi.
      rewrite (nth_mread e _ (Z.to_nat len)).
      destruct (Nat.lt_ge_cases i (Z.to_nat (bb_bsize (memory e1) - off))) as [Li|Li].
      * rewrite app_nth1, nth_mread by (rewrite mread_length; lia).
        rewrite !(proj2 (Nat.ltb_lt _ _)) by lia. done.
      * rewrite app_nth2, nth_zeros by (rewrite mread_length; lia). destruct (i <? Z.to_nat len)%nat; [|done].
        symmetry. apply Hz. lia.
    + rewrite mem_peek_spec by (done || lia). by rewrite Hm.
  - unfold mret, M_ret. f_equal. apply list_eq_nth; [rewrite mread_length, length_replicate; done|]. intros i _.
    rewrite nth_zeros, nth_mread. destruct (i <? Z.to_nat len)%nat; [|done]. symmetry. apply Hz. lia.
Qed.

(** The bytes a [bytes_t] provides. *)
Definition b_content (b : bytes_t) : list Z := match b_data b with Some d => take (Z.to_nat (b_len b)) d | None => [] end.
Definition b_ok (b : bytes_t) : Prop :=
  0 <= b_len b /\ match b_data b with Some d => b_len b <= zlen d /\ bytes_ok d | None => True end.
Lemma b_content_ok b : b_ok b -> bytes_ok (b_content b).
Proof. intros [_ Hb]. unfold b_content. destruct (b_data b); [apply Forall_take; tauto|constructor]. Qed.

Lemma evm_mem_write_spec e off src len : mem_ok e -> b_ok src -> 0 <= off -> 0 <= len -> off + len < 2 ^ 32 ->
  if mem_oog e (off + len) then evm_mem_write off src len e = Err EVM_ERROR_OUT_OF_GAS e
  else exists e', evm_mem_write off src len e = Ok tt e' /\ mem_ok e' /\ frame_mem e e' /\
    forall i, mget e' i = if (Z.to_nat off <=? i)%nat && (i <? Z.to_nat (off + len))%nat
                          then nth (i - Z.to_nat off) (b_content src) 0 else mget e i.
Proof.
  intros Hok Hs Ho Hl Hm. unfold evm_mem_write. rewrite u32_small by lia.
  pose proof (mem_check_spec e (off + len) false Hok ltac:(lia)) as Hc. cbv zeta in Hc. fold (mem_oog e (off + len)) in Hc.
  unfold or_fail, mbind, M_bind. destruct (mem_oog e (off + len)); [by rewrite Hc|].
  destruct Hc as (e1 & -> & O1 & F1 & G1 & M1 & B1 & _). specialize (B1 eq_refl). destruct Hs as [Hb Hs]. unfold b_content.
  destruct (b_data src) as [d|].
  - destruct Hs as [Hs1 Hs2]. unfold read_at. destruct (Z.leb_spec len (b_len src)) as [L|L].
    + rewrite (proj2 (Nat.leb_le _ _)), drop_0 by lia. cbn [defined]. unfold mret, M_ret.
      destruct (mem_poke_spec e1 off (take (Z.to_nat len) d)) as (e2 & -> & O2 & F2 & G2 & S2 & L2 & M2);
        [done|by apply Forall_take|done|rewrite length_take; lia|].
      exists e2. split; [done|]. split; [done|]. split; [by eapply frame_mem_trans|]. intros i. rewrite M2, M1, length_take.
      replace (Z.to_nat off + min (Z.to_nat len) (length d))%nat with (Z.to_nat (off + len)) by lia.
      destruct (Nat.leb_spec (Z.to_nat off) i), (Nat.ltb_spec i (Z.to_nat (off + len))); cbn [andb]; try done.
      rewrite !nth_lookup, !lookup_take_lt by lia. done.
    + rewrite (proj2 (Nat.leb_le _ _)), drop_0 by lia. cbn [defined]. unfold mret, M_ret.
      destruct (mem_poke_spec e1 off (take (Z.to_nat (b_len src)) d)) as (e2 & -> & O2 & F2 & G2 & S2 & L2 & M2);
        [done|by apply Forall_take|done|rewrite length_take; lia|].
      destruct (mem_poke_spec e2 (off + b_len src) (replicate (Z.to_nat (len - b_len src)) 0)) as (e3 & -> & O3 & F3 & G3 & S3 & L3 & M3);
        [done|by apply Forall_replicate|lia|rewrite length_replicate; lia|].
      exists e3. split; [done|]. split; [done|]. split; [eapply frame_mem_trans; [done|]; by eapply frame_mem_trans|].
      intros i. rewrite M3, M2, M1, length_take, length_replicate.
      replace (Z.to_nat (off + b_len src) + Z.to_nat (len - b_len src))%nat with (Z.to_nat (off + len)) by lia.
      replace (Z.to_nat off + min (Z.to_nat (b_len src)) (length d))%nat with (Z.to_nat (off + b_len src)) by lia.
      rewrite nth_zeros.
      destruct (Nat.leb_spec (Z.to_nat (off + b_len src)) i), (Nat.leb_spec (Z.to_nat off) i), (Nat.ltb_spec i (Z.to_nat (off + len))),
        (Nat.ltb_spec i (Z.to_nat (off + b_len src))); cbn [andb]; try lia; try done.
      rewrite nth_overflow; [done|]. rewrite length_take. lia.
  - destruct (mem_poke_spec e1 off (replicate (Z.to_nat len) 0)) as (e2 & -> & O2 & F2 & G2 & S2 & L2 & M2);
      [done|by apply Forall_replicate|done|rewrite length_replicate; lia|].
    exists e2. split; [done|]. split; [done|]. split; [by eapply frame_mem_trans|]. intros i. rewrite M2, M1, length_replicate, nth_zeros.
    replace (Z.to_nat off + Z.to_nat len)%nat with (Z.to_nat (off + len)) by lia. 
    destruct (Z.to_nat off <=? i)%nat, (i <? Z.to_nat (off + len))%nat; cbn [andb]; try done. by destruct (i - Z.to_nat off)%nat.
Qed.
End MemSpecs.

(** ** Properties *)

(** C23. The memory of a frame is an array of bytes, zero where nothing was written: reading
    returns the addressed bytes without changing any, writing stores the source padded with zeros
    and changes nothing else, and both fail with out-of-gas (and leave the frame as it was)
    exactly when the access ends beyond the limit or the expansion cannot be paid. *)
Theorem evm_mem_refines_array `{Allocator} e off src len : mem_ok e -> b_ok src -> 0 <= off -> 0 < len -> off + len < 2 ^ 32 ->
  (if mem_oog e (off + len)
   then evm_mem_readi off len e = Err EVM_ERROR_OUT_OF_GAS e /\ evm_mem_write off src len e = Err EVM_ERROR_OUT_OF_GAS e
   else (exists e', evm_mem_readi off len e = Ok (mread e (Z.to_nat off) (Z.to_nat len)) e' /\ mem_ok e' /\ frame_mem e e' /\
           forall i, mget e' i = mget e i) /\
        (exists e', evm_mem_write off src len e = Ok tt e' /\ mem_ok e' /\ frame_mem e e' /\
           forall i, mget e' i = if (Z.to_nat off <=? i)%nat && (i <? Z.to_nat (off + len))%nat
                                 then nth (i - Z.to_nat off) (b_content src) 0 else mget e i)).
Proof.
  intros Hok Hs Ho Hl Hm. pose proof (evm_mem_readi_spec e off len Hok Ho ltac:(lia)) as Hr.
  pose proof (evm_mem_write_spec e off src len Hok Hs Ho ltac:(lia) Hm) as Hw.
  rewrite (proj2 (Z.eqb_neq len 0)) in Hr by lia. cbn [negb andb] in Hr. by destruct (mem_oog e (off + len)).
Qed.
(** [mem_check] charges exactly the difference of the yellow paper's memory cost between the
    new and the old number of words, refuses to go beyond what the gas pays, rounds the visible
    size up to whole words and never changes the content. *)
Theorem mem_check_charges `{Allocator} e mp ro : mem_ok e -> 0 <= mp < MEM_LIMIT -> 0 <= gas e ->
  let len := bb_len (memory e) in
  len = 32 * words len ->
  let cost := Z.max 0 (C_mem (words mp) - C_mem (words len)) in
  if gas e <? cost then mem_check mp ro e = Err EVM_ERROR_OUT_OF_GAS e
  else exists e', mem_check mp ro e = Ok tt e' /\ gas e' = gas e - cost /\
    bb_len (memory e') = 32 * Z.max (words len) (words mp) /\ (forall i, mget e' i = mget e i).
Proof.
  intros Hok Hmp Hg len Hal cost. pose proof (mem_check_spec e mp ro Hok ltac:(lia)) as Hc. cbv zeta in Hc. fold len in Hc, Hal.
  pose proof Hok as (d & _ & _ & _ & _ & _ & D6). fold len in D6.
  pose proof (words_spec len ltac:(lia)) as Wl. pose proof (words_spec mp ltac:(lia)) as Wm.
  pose proof (C_mem_mono (words len) (words mp)) as Cm. pose proof (C_mem_mono (words mp) (words len)) as Cm'.
  rewrite (proj2 (Z.leb_gt MEM_LIMIT mp)) in Hc by lia. cbn [orb] in Hc.
  assert ((if (len <? mp) && (words len <? words mp) then C_mem (words mp) - C_mem (words len) else 0) = cost) as E.
  { subst cost. destruct (Z.ltb_spec len mp) as [A|A], (Z.ltb_spec (words len) (words mp)) as [B|B]; cbn [andb].
    - specialize (Cm ltac:(lia)). lia.
    - lia.
    - pose proof (words_mono mp len A). lia.
    - destruct (Z.eq_dec (words mp) (words len)) as [->|]; [lia|]. specialize (Cm' ltac:(lia)). lia. }
  rewrite E in Hc. destruct (Z.ltb_spec (gas e) cost) as [L|L].
  - by destruct (Z.ltb_spec 0 cost); [|lia].
  - rewrite andb_false_r in Hc. destruct Hc as (e' & H1 & _ & _ & H4 & H5 & _ & H7). exists e'. split; [done|]. split; [done|].
    split; [|done]. rewrite H7. destruct (Z.ltb_spec len mp) as [A|A]; [destruct (Z.ltb_spec (words len) (words mp)); lia|].
    pose proof (words_mono mp len A). lia.
Qed.

Lemma mem_witness_ok : mem_ok (mk_evm bb_null (mk_bb 32 (Some (replicate 32 0)) 0 true) 0 NULL_BYTES 0 EVM_STATE_INIT
  NULL_BYTES NULL_BYTES None 16 1 [] [] [] [] NULL_BYTES NULL_BYTES NULL_BYTES 1000 [] [] 0 0).
Proof. exists (replicate 32 0). cbn. repeat split; try lia; decide_now. Qed.
Lemma evm_mem_refines_array_witness :
  let e := mk_evm bb_null (mk_bb 32 (Some (replicate 32 0)) 0 true) 0 NULL_BYTES 0 EVM_STATE_INIT
    NULL_BYTES NULL_BYTES None 16 1 [] [] [] [] NULL_BYTES NULL_BYTES NULL_BYTES 1000 [] [] 0 0 in
  exists e', evm_mem_write 40 (bytes [7; 8]) 3 e = Ok tt e' /\ mget e' 41 = 8.
Proof.
  intros e. assert (b_ok (bytes [7; 8])) as Hb by (split; [cbn; lia|split; [cbn; lia|decide_now]]).
  destruct (evm_mem_refines_array e 40 (bytes [7; 8]) 3 mem_witness_ok Hb ltac:(lia) ltac:(lia) ltac:(lia)) as [_ (e' & H1 & _ & _ & H4)].
  exists e'. split; [exact H1|]. rewrite H4. reflexivity.
Defined.
Lemma mem_check_charges_witness :
  let e := mk_evm bb_null (mk_bb 32 (Some (replicate 32 0)) 0 true) 0 NULL_BYTES 0 EVM_STATE_INIT
    NULL_BYTES NULL_BYTES None 16 1 [] [] [] [] NULL_BYTES NULL_BYTES NULL_BYTES 1000 [] [] 0 0 in
  exists e', mem_check 100 false e = Ok tt e' /\ gas e' = 988.
Proof.
  intros e. destruct (mem_check_charges e 100 false mem_witness_ok ltac:(unfold MEM_LIMIT; lia) ltac:(cbn; lia) ltac:(reflexivity)) as (e' & H1 & H2 & _).
  exists e'. split; [exact H1|]. rewrite H2. reflexivity.
Defined.
