(* ===== verification/EvmAccounts.v ===== *)
(** * verifier/eth1/evm/accounts.c: the accounts a frame has touched

    Every frame keeps a list of accounts, each with the storage entries it has read or written;
    a sub-call copies an account from its parents on first access and the changes of a successful
    sub-call are merged back ([copy_state]).  A pointer to an account of a frame is modelled by
    its address (the list is searched from the front, and so are the updates). *)
From S2P Require Import Prelude Utils Bytes Big EvmState EvmStack EvmMem.

(** The running frame and its parents, innermost first. *)
Abbreviation world := (list evm_t).

(** The callback [evm->env], which looks up the chain's state: key of the query, address of the
    asking frame, argument, offset and length; an error code or the data. *)
Class EvmEnv := env : Z -> list Z -> list Z -> Z -> Z -> Z + list Z.

(** An operation of the running frame. *)
Definition cur {A} (m : M evm_t A) : M world A := fun fs =>
  match fs with
  | [] => Undef
  | e :: ps => match m e with
               | Ok a e' => Ok a (e' :: ps)
               | Err c e' => Err c (e' :: ps)
               | Undef => Undef
               | NoFuel => NoFuel
               end
  end.
(** The same for the frame that pays: the parent if there is one. *)
Definition payer {A} (m : M evm_t A) : M world A := fun fs =>
  match fs with
  | e :: p :: ps => match cur m (p :: ps) with
                    | Ok a fs' => Ok a (e :: fs')
                    | Err c fs' => Err c (e :: fs')
                    | Undef => Undef
                    | NoFuel => NoFuel
                    end
  | _ => cur m fs
  end.

Definition G_NEWACCOUNT : Z := 25000.

Definition find_account (adr : list Z) (l : list account_t) : option account_t :=
  find (fun a => memcmp (ac_address a) adr =? 0) l.
(** Write through a pointer to the account [adr]. *)
Fixpoint update_account (adr : list Z) (f : account_t -> account_t) (l : list account_t) : list account_t :=
  match l with
  | [] => []
  | a :: t => if memcmp (ac_address a) adr =? 0 then f a :: t else a :: update_account adr f t
  end.
Definition find_storage (key : list Z) (l : list storage_t) : option storage_t :=
  find (fun s => memcmp (s_key s) key =? 0) l.
Fixpoint update_storage (key value : list Z) (l : list storage_t) : list storage_t :=
  match l with
  | [] => []
  | s :: t => if memcmp (s_key s) key =? 0 then mk_storage (s_key s) value :: t else s :: update_storage key value t
  end.

Definition set_balance (b : list Z) (a : account_t) : account_t := mk_account (ac_address a) b (ac_nonce a) (ac_code a) (ac_storage a).
Definition set_nonce (n : list Z) (a : account_t) : account_t := mk_account (ac_address a) (ac_balance a) n (ac_code a) (ac_storage a).
Definition set_ac_code (c : bytes_t) (a : account_t) : account_t := mk_account (ac_address a) (ac_balance a) (ac_nonce a) c (ac_storage a).
Definition set_storage (s : list storage_t) (a : account_t) : account_t := mk_account (ac_address a) (ac_balance a) (ac_nonce a) (ac_code a) s.

Definition upd_account (adr : list Z) (f : account_t -> account_t) : M world unit :=
  cur (modify (fun e => set_accounts (update_account adr f (accounts e)) e)).
Definition add_account (a : account_t) (e : evm_t) : evm_t := set_accounts (a :: accounts e) e.

Section Env.
Context `{EvmEnv}.

(** [l > 1 || (l == 1 && *data)] after [optimize_len]. *)
Definition significant (d : list Z) : bool := (1 <? length d)%nat || ((length d =? 1)%nat && negb (rd d 0 =? 0)).

(** The part of [evm_get_account] that asks the environment. *)
Definition account_from_env (adr : list Z) (create : bool) : M evm_t (option account_t) := fun e =>
  match env EVM_ENV_BALANCE (address e) adr 0 0, env EVM_ENV_CODE_SIZE (address e) adr 0 0, env EVM_ENV_NONCE (address e) adr 0 0 with
  | inl c, _, _ => Err c e
  | inr _, inl c, _ => Err c e
  | inr _, inr _, inl c => Err c e
  | inr b, inr cs, inr n =>
      let b := optimize_len b in
      let cs := optimize_len cs in
      let n := optimize_len n in
      if create || significant b || significant n || significant cs then
        let len := bytes_to_int (Some cs) (zlen cs) in
        let data := if len =? 0 then None
                    else match env EVM_ENV_CODE_COPY (address e) adr 0 0 with inr d => Some d | inl _ => None end in
        match uint256_set b (replicate 32 0), uint256_set n (replicate 32 0) with
        | Some b, Some n => let a := mk_account adr b n (mk_bytes data len) [] in Ok (Some a) (add_account a e)
        | _, _ => Undef
        end
      else Ok None e
  end.

(** [evm_get_account]: [None] is the NULL pointer. *)
Fixpoint evm_get_account (adr : list Z) (create : bool) (fs : world) : res world (option account_t) :=
  match fs with
  | [] => Undef
  | e :: ps =>
      if (length adr =? 0)%nat then Ok None fs
      else match find_account adr (accounts e) with
           | Some a => Ok (Some a) fs
           | None =>
               match (match ps with [] => Ok None [] | _ => evm_get_account adr create ps end) with
               | Ok (Some a) ps' => let a := set_storage [] a in Ok (Some a) (add_account a e :: ps')
               | Ok None ps' => cur (account_from_env adr create) (e :: ps')
               | Err c ps' => Err c (e :: ps')
               | Undef => Undef
               | NoFuel => NoFuel
               end
           end
  end.

(** The part of [evm_get_storage] that asks the environment. *)
Definition storage_from_env (adr s_key key_data : list Z) (create : bool) : M evm_t (option storage_t) := fun e =>
  match (if negb create && negb (memcmp (address e) adr =? 0) then inr []
         else env EVM_ENV_STORAGE (address e) s_key 0 0) with
  | inl _ => if create then Undef else Ok None e
  | inr data =>
      if create || (1 <? length data)%nat || ((length data =? 1)%nat && negb (rd data 0 =? 0)) then
        match uint256_set data (replicate 32 0) with
        | Some v => let s := mk_storage key_data v in
                    Ok (Some s) (set_accounts (update_account adr (fun a => set_storage (s :: ac_storage a) a) (accounts e)) e)
        | None => Undef
        end
      else Ok None e
  end.

(** [evm_get_storage]; the recursion over the parents is bounded by their number. *)
Fixpoint get_storage_loop (depth : nat) (adr s_key : list Z) (create : bool) : M world (option storage_t) :=
  match depth with
  | O => fun _ => NoFuel
  | S depth' =>
      ac ← (evm_get_account adr create : M world _);
      match ac return M world (option storage_t) with
      | None => mret None
      | Some ac =>
          key_data ← defined (uint256_set s_key (replicate 32 0));
          match find_storage key_data (ac_storage ac) return M world (option storage_t) with
          | Some s => mret (Some s)
          | None => fun fs =>
              match fs with
              | [] => Undef
              | e :: ps =>
                  match (match ps with [] => Ok None [] | _ => get_storage_loop depth' adr s_key create ps end) with
                  | Ok (Some s) ps' =>
                      Ok (Some s) (set_accounts (update_account adr (fun a => set_storage (s :: ac_storage a) a) (accounts e)) e :: ps')
                  | Ok None ps' => cur (storage_from_env adr s_key key_data create) (e :: ps')
                  | Err c ps' => Err c (e :: ps')
                  | Undef => Undef
                  | NoFuel => NoFuel
                  end
              end
          end
      end
  end.
Definition evm_get_storage (adr s_key : list Z) (create : bool) : M world (option storage_t) := fun fs =>
  get_storage_loop (length fs) adr s_key create fs.

(** [increment_nonce] of the account [adr] of the running frame. *)
Definition increment_nonce (adr : list Z) : M world unit :=
  a ← cur (gets (fun e => find_account adr (accounts e)));
  a ← defined a;
  n ← defined (uint256_set (big_add (ac_nonce a) [1] 32) (replicate 32 0));
  upd_account adr (set_nonce n).

(** [evm_create_account]: the frame runs the call data as code of the new account. *)
Definition evm_create_account (data : bytes_t) (code_address caller : list Z) : M world unit :=
  a ← (evm_get_account code_address true : M world _);
  _ ← cur (modify (fun e => set_address code_address (set_call_data (mk_bytes (b_data (call_data e)) 0) (set_code data e))));
  a ← defined a;
  _ ← upd_account code_address (fun a => set_nonce (<[31%nat := 1]> (ac_nonce a)) a);
  s ← (evm_get_account caller true : M world _);
  s ← defined s;
  increment_nonce (ac_address s).

(** [transfer_value]: the balances of the running frame change, the parent (if any) pays. *)
Definition transfer_value (from_account to_account value : list Z) (base_gas : Z) (is_call : bool) : M world unit :=
  if big_is_zero value then mret tt
  else
    ac_from ← (evm_get_account from_account true : M world _);
    ac_to ← (evm_get_account to_account false : M world _);
    _ ← defined (if (32 <? length value)%nat then None else Some tt);
    ac_to ← match ac_to return M world (option account_t) with
            | Some a => mret (Some a)
            | None => _ ← payer (subgas G_NEWACCOUNT); evm_get_account to_account true
            end;
    _ ← payer (subgas base_gas);
    let credit :=
      a ← cur (gets (fun e => find_account to_account (accounts e)));
      a ← defined a;
      b ← defined (uint256_set (big_add (ac_balance a) value 32) (replicate 32 0));
      upd_account to_account (set_balance b) in
    match ac_from with
    | None => credit
    | Some f =>
        if big_cmp (ac_balance f) value <? 0 then (if is_call then mret tt else fail EVM_ERROR_BALANCE_TOO_LOW)
        else
          b ← defined (uint256_set (big_sub (ac_balance f) value) (replicate 32 0));
          _ ← upd_account from_account (set_balance b);
          credit
    end.
End Env.

(** ** Merging a sub-call's state into its parent *)
Definition merge_storage (da : list storage_t) (ss : storage_t) : list storage_t :=
  match find_storage (s_key ss) da with
  | Some _ => update_storage (s_key ss) (s_value ss) da
  | None => ss :: da
  end.
Definition merge_account (dst : list account_t) (sa : account_t) : list account_t :=
  match find_account (ac_address sa) dst with
  | None => sa :: dst
  | Some _ =>
      update_account (ac_address sa)
        (fun da => mk_account (ac_address da) (ac_balance sa) (ac_nonce sa) (ac_code sa)
                     (fold_left merge_storage (ac_storage sa) (ac_storage da))) dst
  end.
(** [copy_state]: the logs are moved in front, the accounts merged one by one. *)
Definition copy_state (dst src : evm_t) : evm_t :=
  set_accounts (fold_left merge_account (accounts src) (accounts dst)) (set_logs (logs src ++ logs dst) dst).

(** ** What a list of accounts says *)

(** Addresses have 20 bytes, keys and values 32, and each address and key occurs once. *)
Definition storage_ok (l : list storage_t) : Prop :=
  NoDup (map s_key l) /\ Forall (fun s => length (s_key s) = 32%nat /\ length (s_value s) = 32%nat) l.
Definition account_ok (a : account_t) : Prop :=
  length (ac_address a) = 20%nat /\ length (ac_balance a) = 32%nat /\ bytes_ok (ac_balance a) /\ storage_ok (ac_storage a).
Definition accounts_ok (l : list account_t) : Prop := NoDup (map ac_address l) /\ Forall account_ok l.

Definition account_view (l : list account_t) (adr : list Z) : option (list Z * list Z * bytes_t) :=
  match find_account adr l with Some a => Some (ac_balance a, ac_nonce a, ac_code a) | None => None end.
Definition storage_view (l : list account_t) (adr key : list Z) : option (list Z) :=
  match find_account adr l with Some a => s_value <$> find_storage key (ac_storage a) | None => None end.

Lemma find_storage_eq key l : length key = 32%nat -> Forall (fun s => length (s_key s) = 32%nat /\ length (s_value s) = 32%nat) l ->
  find_storage key l = find (fun s => bool_decide (s_key s = key)) l.
Proof.
  intros Hk. unfold find_storage. induction 1 as [|s l [Hs _] _ IH]; [done|]. cbn [find]. rewrite IH. by rewrite memcmp_eq by lia.
Qed.
Lemma find_account_eq adr l : length adr = 20%nat -> Forall account_ok l ->
  find_account adr l = find (fun a => bool_decide (ac_address a = adr)) l.
Proof.
  intros Hk. unfold find_account. induction 1 as [|a l [Ha _] _ IH]; [done|]. cbn [find]. rewrite IH. by rewrite memcmp_eq by lia.
Qed.
Lemma find_Some {A} (f : A -> bool) l x : find f l = Some x -> f x = true /\ x ∈ l.
Proof. intros E. apply find_some in E as [? ?]. split; [done|]. by apply list_elem_of_In. Qed.
Lemma find_none_not {A B} `{EqDecision B} (g : A -> B) l y : find (fun a => bool_decide (g a = y)) l = None <-> y ∉ map g l.
Proof.
  induction l as [|a l IH]; cbn [find map].
  - split; [intros _; apply not_elem_of_nil|done].
  - rewrite not_elem_of_cons, <- IH. case_bool_decide; split; [done|intros [? ?]; congruence|auto|tauto].
Qed.

(** *** Storage *)
Lemma update_storage_keys key v l : map s_key (update_storage key v l) = map s_key l.
Proof. induction l as [|s l IH]; [done|]. cbn [update_storage map]. case_match; [done|]. cbn [map]. by rewrite IH. Qed.
Lemma update_storage_ok key v l : storage_ok l -> length v = 32%nat -> storage_ok (update_storage key v l).
Proof.
  intros [Hn Hf] Hv. split; [by rewrite update_storage_keys|]. clear Hn. induction Hf as [|s l Hs Hf IH]; [constructor|]. cbn [update_storage].
  case_match; constructor; try done. split; [apply Hs|done].
Qed.
Lemma find_update_storage key key' v l : length key = 32%nat -> length key' = 32%nat -> storage_ok l ->
  find_storage key (update_storage key' v l) =
    if decide (key = key') then (fun s => mk_storage (s_key s) v) <$> find_storage key l else find_storage key l.
Proof.
  intros Hk Hk' [_ Hf]. induction Hf as [|s l [Hs Hv] Hf IH]; [by case_decide|]. unfold find_storage in *. cbn [update_storage find].
  rewrite (memcmp_eq (s_key s) key'), (memcmp_eq (s_key s) key) by lia.
  case_bool_decide as E1; cbn [find s_key]; rewrite (memcmp_eq (s_key s) key) by lia.
  - case_decide as D; case_bool_decide as E2; try congruence; done.
  - rewrite IH. case_decide as D; case_bool_decide as E2; try congruence; done.
Qed.
Lemma merge_storage_ok da ss : storage_ok da -> length (s_key ss) = 32%nat -> length (s_value ss) = 32%nat -> storage_ok (merge_storage da ss).
Proof.
  intros Hok Hk Hv. unfold merge_storage. destruct (find_storage (s_key ss) da) eqn:E; [by apply update_storage_ok|].
  pose proof Hok as [Hn Hf]. rewrite find_storage_eq, find_none_not in E by done. split; [by constructor|by constructor].
Qed.
Lemma find_merge_storage key da ss : storage_ok da -> length key = 32%nat -> length (s_key ss) = 32%nat ->
  s_value <$> find_storage key (merge_storage da ss) = if decide (s_key ss = key) then Some (s_value ss) else s_value <$> find_storage key da.
Proof.
  intros Hok Hk Hs. unfold merge_storage. destruct (find_storage (s_key ss) da) eqn:E.
  - rewrite find_update_storage by done. destruct (decide (key = s_key ss)) as [->|]; [rewrite decide_True, E by done; done|by rewrite decide_False].
  - unfold find_storage at 1. cbn [find]. rewrite memcmp_eq by lia. case_bool_decide; [by rewrite decide_True|by rewrite decide_False].
Qed.
Lemma fold_merge_storage ss : forall da, storage_ok da -> storage_ok ss ->
  storage_ok (fold_left merge_storage ss da) /\
  forall key, length key = 32%nat -> s_value <$> find_storage key (fold_left merge_storage ss da) =
    match s_value <$> find_storage key ss with Some v => Some v | None => s_value <$> find_storage key da end.
Proof.
  induction ss as [|s ss IH]; intros da Hd [Hn Hf]; [split; [done|]; intros; done|].
  inversion_clear Hn as [|? ? Hnin Hn']. inversion_clear Hf as [|? ? [Hk Hv] Hf']. cbn [fold_left].
  destruct (IH (merge_storage da s)) as [IH1 IH2]; [by apply merge_storage_ok|done|]. split; [done|]. intros key Hkey. rewrite IH2 by done.
  rewrite find_merge_storage by done. unfold find_storage at 3. cbn [find]. rewrite memcmp_eq by lia. case_bool_decide as E.
  - subst key. rewrite decide_True by done. rewrite find_storage_eq by done. apply find_none_not in Hnin. by rewrite Hnin.
  - rewrite decide_False by done. done.
Qed.

(** *** Accounts *)
Lemma update_account_addresses adr f l : (forall a, ac_address (f a) = ac_address a) -> map ac_address (update_account adr f l) = map ac_address l.
Proof.
  intros Hf. induction l as [|a l IH]; [done|]. cbn [update_account map]. case_match; cbn [map]; [by rewrite Hf|by rewrite IH].
Qed.
Lemma update_account_ok adr f l : (forall a, ac_address (f a) = ac_address a) ->
  (forall a, account_ok a -> find_account adr l = Some a -> account_ok (f a)) -> accounts_ok l -> accounts_ok (update_account adr f l).
Proof.
  intros Hf Hok [Hn Ha]. split; [by rewrite update_account_addresses|]. clear Hn. induction Ha as [|a l Ha Hl IH]; [constructor|].
  unfold find_account in *. cbn [find] in Hok. cbn [update_account]. destruct (memcmp (ac_address a) adr =? 0); constructor; try done; auto.
Qed.
Lemma find_update_account adr adr' f l : length adr = 20%nat -> length adr' = 20%nat -> Forall account_ok l ->
  (forall a, ac_address (f a) = ac_address a) ->
  find_account adr (update_account adr' f l) = if decide (adr = adr') then f <$> find_account adr l else find_account adr l.
Proof.
  intros Hk Hk' Hok Hf. induction Hok as [|a l [Ha _] Hl IH]; [by case_decide|]. unfold find_account in *. cbn [update_account find].
  rewrite (memcmp_eq (ac_address a) adr'), (memcmp_eq (ac_address a) adr) by lia.
  case_bool_decide as E1; cbn [find]; rewrite ?Hf, (memcmp_eq (ac_address a) adr) by lia.
  - case_decide as D; case_bool_decide as E2; try congruence; done.
  - rewrite IH. case_decide as D; case_bool_decide as E2; try congruence; done.
Qed.
Lemma find_account_address adr l a : length adr = 20%nat -> Forall account_ok l -> find_account adr l = Some a -> ac_address a = adr /\ account_ok a.
Proof.
  intros Hk Hl Hf. rewrite find_account_eq in Hf by done. apply find_Some in Hf as [E Hin]. split; [by apply bool_decide_eq_true in E|].
  rewrite Forall_forall in Hl. auto.
Qed.

Lemma find_account_cons adr a l : length (ac_address a) = 20%nat -> length adr = 20%nat ->
  find_account adr (a :: l) = if decide (ac_address a = adr) then Some a else find_account adr l.
Proof.
  intros Ha Hl. unfold find_account. cbn [find]. rewrite memcmp_eq by lia. case_bool_decide; [by rewrite decide_True|by rewrite decide_False].
Qed.

Lemma merge_account_ok dst sa : accounts_ok dst -> account_ok sa -> accounts_ok (merge_account dst sa).
Proof.
  intros Hd Hs. pose proof Hs as (A1 & A2 & A3 & A4). unfold merge_account. destruct (find_account (ac_address sa) dst) eqn:E.
  - apply update_account_ok; [done| |done]. intros da (D1 & D2 & D3 & D4) _. split; [done|]. split; [done|]. split; [done|].
    by apply fold_merge_storage.
  - pose proof Hd as [Hn Hf]. rewrite find_account_eq, find_none_not in E by done. split; by constructor.
Qed.
(** The views after one account was merged. *)
Lemma merge_account_views dst sa adr key : accounts_ok dst -> account_ok sa -> length adr = 20%nat -> length key = 32%nat ->
  account_view (merge_account dst sa) adr =
    (if decide (ac_address sa = adr) then Some (ac_balance sa, ac_nonce sa, ac_code sa) else account_view dst adr) /\
  storage_view (merge_account dst sa) adr key =
    (if decide (ac_address sa = adr)
     then match s_value <$> find_storage key (ac_storage sa) with Some v => Some v | None => storage_view dst adr key end
     else storage_view dst adr key).
Proof.
  intros [Hn Hf] (A1 & A2 & A3 & A4) Hadr Hkey. unfold account_view, storage_view, merge_account.
  destruct (find_account (ac_address sa) dst) as [da|] eqn:E.
  - rewrite find_update_account by done. case_decide as D.
    + rewrite !decide_True by done. subst adr. rewrite E. cbn [fmap option_fmap option_map ac_balance ac_nonce ac_code ac_storage]. split; [done|].
      destruct (find_account_address _ _ _ A1 Hf E) as [_ (_ & _ & _ & D4)]. by apply fold_merge_storage.
    + rewrite !decide_False by done. done.
  - rewrite !find_account_cons by done. case_decide as D; [|done]. subst adr. rewrite E. split; [done|]. by destruct (find_storage key (ac_storage sa)).
Qed.
Lemma fold_merge_account src : forall dst, accounts_ok dst -> accounts_ok src ->
  accounts_ok (fold_left merge_account src dst) /\
  forall adr key, length adr = 20%nat -> length key = 32%nat ->
    account_view (fold_left merge_account src dst) adr = (match account_view src adr with Some v => Some v | None => account_view dst adr end) /\
    storage_view (fold_left merge_account src dst) adr key = (match storage_view src adr key with Some v => Some v | None => storage_view dst adr key end).
Proof.
  induction src as [|a src IH]; intros dst Hd [Hn Hf]; [split; [done|]; intros; done|].
  inversion_clear Hn as [|? ? Hnin Hn']. inversion_clear Hf as [|? ? Ha Hf']. cbn [fold_left].
  destruct (IH (merge_account dst a)) as [IH1 IH2]; [by apply merge_account_ok|done|]. split; [done|]. intros adr key Hadr Hkey.
  destruct (IH2 adr key Hadr Hkey) as [-> ->]. destruct (merge_account_views dst a adr key Hd Ha Hadr Hkey) as [-> ->].
  pose proof Ha as (A1 & _). unfold account_view, storage_view. rewrite !find_account_cons by done. case_decide as D; [|done].
  subst adr. apply find_none_not in Hnin. rewrite (find_account_eq _ src), Hnin by done. done.
Qed.

(** C37. Merging a sub-call: seen through balance, nonce, code and storage, the accounts of the
    parent after [copy_state] are those of the sub-call where it has them and those of the parent
    elsewhere, storage key by storage key; addresses and keys stay unique and the logs of the
    sub-call come first. *)
Theorem copy_state_overlay p e : accounts_ok (accounts p) -> accounts_ok (accounts e) ->
  accounts_ok (accounts (copy_state p e)) /\ logs (copy_state p e) = logs e ++ logs p /\
  forall adr key, length adr = 20%nat -> length key = 32%nat ->
    account_view (accounts (copy_state p e)) adr =
      (match account_view (accounts e) adr with Some v => Some v | None => account_view (accounts p) adr end) /\
    storage_view (accounts (copy_state p e)) adr key =
      (match storage_view (accounts e) adr key with Some v => Some v | None => storage_view (accounts p) adr key end).
Proof.
  intros Hp He. destruct (fold_merge_account _ _ Hp He) as [H1 H2].
  assert (accounts (copy_state p e) = fold_left merge_account (accounts e) (accounts p)) as -> by (by destruct p). split; [done|]. split; [by destruct p|done].
Qed.

(** ** Transfers *)
Lemma accounts_set_accounts l e : accounts (set_accounts l e) = l.
Proof. by destruct e. Qed.
Lemma set_accounts_twice l l' e : set_accounts l (set_accounts l' e) = set_accounts l e.
Proof. by destruct e. Qed.
Lemma big_is_zero_spec v : bytes_ok v -> v <> [] -> big_is_zero v = (be_val v =? 0).
Proof.
  intros Hv Hne. unfold big_is_zero. rewrite <- (optimize_len_val v). pose proof (optimize_len_ok v Hv) as Ho.
  pose proof (optimize_len_nonempty v Hne) as Hn. destruct (optimize_len_head v) as [Hl|(x & t & Eo & Hx)].
  - destruct (optimize_len v) as [|x [|y t]]; [done| |cbn [length] in Hl; lia]. change (rd [x] 0) with x. by rewrite be_val_single.
  - rewrite Eo in *. inversion_clear Ho as [|? ? Hb Ht]. rewrite be_val_cons. change (rd (x :: t) 0) with x. pose proof (be_val_bound t Ht). unfold is_byte in Hb.
    pose proof (pow256_pos (length t)). rewrite (proj2 (Z.eqb_neq x 0)), andb_false_r by done. symmetry. apply Z.eqb_neq. nia.
Qed.
(** The value of a word written back as a balance. *)
Lemma store_word w : bytes_ok w -> (length w <= 32)%nat ->
  exists b, uint256_set w (replicate 32 0) = Some b /\ length b = 32%nat /\ bytes_ok b /\ be_val b = be_val w.
Proof.
  intros Hw Hl. eexists. split; [apply uint256_set_spec; [done|reflexivity]|]. split; [rewrite length_app, length_replicate; lia|].
  split; [apply Forall_app; split; [by apply Forall_replicate|done]|apply be_val_zeros].
Qed.

Definition balance_of (l : list account_t) (adr : list Z) : option Z :=
  match find_account adr l with Some a => Some (be_val (ac_balance a)) | None => None end.

Lemma set_balance_ok l adr b : accounts_ok l -> length adr = 20%nat -> length b = 32%nat -> bytes_ok b ->
  accounts_ok (update_account adr (set_balance b) l) /\
  (forall adr', length adr' = 20%nat -> balance_of (update_account adr (set_balance b) l) adr' =
     if decide (adr' = adr) then (fun _ => be_val b) <$> balance_of l adr' else balance_of l adr') /\
  (forall adr' key, length adr' = 20%nat -> storage_view (update_account adr (set_balance b) l) adr' key = storage_view l adr' key).
Proof.
  intros Hok Ha Hb Hbo. split; [|split].
  - apply update_account_ok; [done| |done]. intros a (A1 & A2 & A3 & A4) _. done.
  - intros adr' Ha'. destruct Hok as [_ Hf]. unfold balance_of. rewrite find_update_account by done. case_decide; [|done].
    by destruct (find_account adr' l).
  - intros adr' key Ha'. destruct Hok as [_ Hf]. unfold storage_view. rewrite find_update_account by done. case_decide; [|done].
    by destruct (find_account adr' l).
Qed.

Section Transfer.
Context `{EvmEnv}.

Lemma get_account_known adr create e ps a : length adr = 20%nat -> find_account adr (accounts e) = Some a ->
  evm_get_account adr create (e :: ps) = Ok (Some a) (e :: ps).
Proof. intros Hl Hf. cbn [evm_get_account]. rewrite (proj2 (Nat.eqb_neq _ _)) by lia. by rewrite Hf. Qed.
Lemma payer_subgas_accounts g e ps fs' : payer (subgas g) (e :: ps) = Ok tt fs' -> exists e1 ps1, fs' = e1 :: ps1 /\ accounts e1 = accounts e.
Proof.
  unfold payer, cur, subgas. destruct ps as [|p ps].
  - destruct (gas e <? g); [done|]. intros [= <-]. eexists _, _. split; [done|]. by destruct e.
  - destruct (gas p <? g); [done|]. intros [= <-]. by eexists _, _.
Qed.

(** Transferring a value between two accounts the frame knows: nothing for the value 0; else
    the paying frame is charged or the transfer fails out of gas; a balance below the value leaves
    all balances (an error unless at the start of the outermost call); otherwise the sender loses
    the value and the receiver gains it modulo 2^256, a transfer to oneself changes nothing, and
    no other balance and no storage changes. *)
Theorem transfer_value_spec e ps from to v base_gas is_call af at_ :
  accounts_ok (accounts e) -> length from = 20%nat -> length to = 20%nat ->
  find_account from (accounts e) = Some af -> find_account to (accounts e) = Some at_ ->
  bytes_ok v -> v <> [] -> (length v <= 32)%nat ->
  let run := transfer_value from to v base_gas is_call (e :: ps) in
  if be_val v =? 0 then run = Ok tt (e :: ps)
  else match payer (subgas base_gas) (e :: ps) with
  | Err c fs' => run = Err c fs'
  | Ok _ (e1 :: ps1) =>
      if be_val (ac_balance af) <? be_val v
      then run = if is_call then Ok tt (e1 :: ps1) else Err EVM_ERROR_BALANCE_TOO_LOW (e1 :: ps1)
      else exists l, run = Ok tt (set_accounts l e1 :: ps1) /\ accounts_ok l /\
        (forall adr, length adr = 20%nat -> balance_of l adr =
           if decide (from = to) then balance_of (accounts e) adr
           else if decide (adr = from) then Some (be_val (ac_balance af) - be_val v)
           else if decide (adr = to) then Some ((be_val (ac_balance at_) + be_val v) mod 2 ^ 256)
           else balance_of (accounts e) adr) /\
        (forall adr key, length adr = 20%nat -> storage_view l adr key = storage_view (accounts e) adr key)
  | _ => False
  end.
Proof.
  intros Hok Lf Lt Ff Ft Hv Hne Hl run. subst run. unfold transfer_value. rewrite big_is_zero_spec by done.
  destruct (Z.eqb_spec (be_val v) 0) as [E0|E0]; [done|]. pose proof Hok as [_ Hf].
  destruct (find_account_address _ _ _ Lf Hf Ff) as [_ (_ & F2 & F3 & _)]. destruct (find_account_address _ _ _ Lt Hf Ft) as [_ (_ & T2 & T3 & _)].
  unfold mbind, M_bind. rewrite (get_account_known from true e ps af Lf Ff), (get_account_known to false e ps at_ Lt Ft).
  rewrite (proj2 (Nat.ltb_ge 32 (length v))) by lia. cbn [defined]. unfold mret, M_ret.
  destruct (payer (subgas base_gas) (e :: ps)) as [[] fs1|c fs1| |] eqn:Ep; [|done| |].
  2,3: unfold payer, cur, subgas in Ep; destruct ps as [|p ps]; [destruct (gas e <? base_gas)|destruct (gas p <? base_gas)]; done.
  destruct (payer_subgas_accounts _ _ _ _ Ep) as (e1 & ps1 & -> & Ea).
  destruct (big_cmp_spec (ac_balance af) v F3 Hv) as (C1 & _ & _).
  destruct (Z.ltb_spec (be_val (ac_balance af)) (be_val v)) as [Hlt|Hge].
  { rewrite (proj2 (Z.ltb_lt (big_cmp (ac_balance af) v) 0)) by tauto. by destruct is_call. }
  rewrite (proj2 (Z.ltb_ge (big_cmp (ac_balance af) v) 0)) by lia.
  destruct (big_sub_spec (ac_balance af) v F3 Hv) as (S1 & S2 & S3); [lia|lia|].
  destruct (store_word _ S1 S2) as (bf & Ef & Lbf & Obf & Vbf). rewrite Ef. cbn [defined].
  unfold upd_account, cur, modify, mret, M_ret. rewrite Ea.
  destruct (set_balance_ok (accounts e) from bf Hok Lf Lbf Obf) as (K1 & K2 & K3).
  assert (exists at2, find_account to (update_account from (set_balance bf) (accounts e)) = Some at2 /\
    be_val (ac_balance at2) = if decide (from = to) then be_val bf else be_val (ac_balance at_)) as (at2 & Fat2 & Vat2).
  { rewrite find_update_account by done. rewrite Ft. destruct (decide (to = from)) as [<-|]; [rewrite decide_True by done; by eexists|rewrite decide_False by done; by eexists]. }
  destruct (find_account_address _ _ _ Lt (proj2 K1) Fat2) as [_ (_ & L2 & O2 & _)].
  unfold gets. rewrite accounts_set_accounts, Fat2. cbn [defined]. unfold mret, M_ret.
  destruct (big_add_spec (ac_balance at2) v 32 O2 Hv) as (A1 & A2 & A3); [lia|].
  destruct (store_word _ A1 A2) as (bt & Et & Lbt & Obt & Vbt). rewrite Et. cbn [defined]. unfold mret, M_ret. rewrite accounts_set_accounts, set_accounts_twice.
  destruct (set_balance_ok _ to bt K1 Lt Lbt Obt) as (N1 & N2 & N3).
  eexists. split; [done|]. split; [done|]. split; [|intros adr key La; by rewrite N3, K3].
  pose proof (be_val_bound (ac_balance af) F3) as Bf. pose proof (be_val_pos v Hv) as Pv. rewrite F2 in Bf. change (256 ^ Z.of_nat 32) with (2 ^ 256) in *.
  rewrite S3, Z.mod_small in Vbf by lia. intros adr La. rewrite N2, K2 by done. unfold balance_of.
  destruct (decide (from = to)) as [->|Dft].
  - case_decide as D; [subst adr|done]. rewrite Ft. cbn. f_equal. rewrite Vbt, A3, Vat2, Vbf.
    replace at_ with af by congruence. rewrite Z.mod_small by lia. lia.
  - destruct (decide (adr = from)) as [->|D1].
    + rewrite (decide_False (P := from = to)) by done. rewrite Ff. cbn. by rewrite Vbf.
    + destruct (decide (adr = to)) as [->|D2]; [|done]. rewrite Ft. cbn. f_equal. by rewrite Vbt, A3, Vat2.
Qed.
End Transfer.

(** ** Concrete accounts *)
Definition sample_account (a : Z) (balance : Z) (st : list storage_t) : account_t :=
  mk_account (replicate 20 a) (be_bytes 32 balance) (replicate 32 0) NULL_BYTES st.
Definition sample_slot (k v : Z) : storage_t := mk_storage (be_bytes 32 k) (be_bytes 32 v).
#[local] Ltac sample_ok := unfold accounts_ok, account_ok, storage_ok; decide_now.

Lemma copy_state_overlay_witness :
  let p := set_accounts [sample_account 1 10 [sample_slot 0 5; sample_slot 1 6]; sample_account 2 20 []] empty_evm in
  let e := set_accounts [sample_account 1 7 [sample_slot 1 9]] empty_evm in
  storage_view (accounts (copy_state p e)) (replicate 20 1) (be_bytes 32 0) = Some (be_bytes 32 5) /\
  storage_view (accounts (copy_state p e)) (replicate 20 1) (be_bytes 32 1) = Some (be_bytes 32 9).
Proof.
  intros p e. destruct (copy_state_overlay p e) as (_ & _ & H1); [subst p; rewrite accounts_set_accounts; sample_ok|subst e; rewrite accounts_set_accounts; sample_ok|].
  split.
  - rewrite (proj2 (H1 (replicate 20 1) (be_bytes 32 0) eq_refl eq_refl)). vm_compute. reflexivity.
  - rewrite (proj2 (H1 (replicate 20 1) (be_bytes 32 1) eq_refl eq_refl)). vm_compute. reflexivity.
Defined.
Lemma transfer_value_spec_witness :
  let e := set_accounts [sample_account 1 10 []; sample_account 2 20 []] empty_evm in
  exists l, @transfer_value (fun _ _ _ _ _ => inl 0) (replicate 20 1) (replicate 20 2) [3] 0 false [e] = Ok tt [set_accounts l e] /\
    balance_of l (replicate 20 1) = Some 7 /\ balance_of l (replicate 20 2) = Some 23.
Proof.
  intros e. pose proof (@transfer_value_spec (fun _ _ _ _ _ => inl 0) e [] (replicate 20 1) (replicate 20 2) [3] 0 false (sample_account 1 10 []) (sample_account 2 20 [])) as H1.
  specialize (H1 ltac:(subst e; rewrite accounts_set_accounts; sample_ok) eq_refl eq_refl eq_refl eq_refl ltac:(decide_now) ltac:(discriminate) ltac:(cbn; lia)).
  destruct H1 as (l & H1 & _ & H2 & _). exists l. split; [exact H1|]. split.
  - rewrite H2 by reflexivity. reflexivity.
  - rewrite H2 by reflexivity. reflexivity.
Defined.
