(* ===== verification/Opcodes.v ===== *)
(** * verifier/eth1/evm/opcodes.c: the instructions

    One definition per C function, with its pops, checks, gas charges and pushes in the order of
    the code.  A popped reference stays readable until the next push, so it is represented by its
    bytes; where the code reads past them ([op_account]) the buffer is read. *)
From S2P Require Import Prelude Utils Bytes Rlp Big EvmState EvmStack EvmMem EvmAccounts.

Definition FRONTIER_G_EXPBYTE : Z := 10.
Definition G_EXPBYTE : Z := 50.
Definition G_SHA3WORD : Z := 6.
Definition G_COPY : Z := 3.
Definition G_LOGDATA : Z := 8.
Definition G_LOGTOPIC : Z := 375.
Definition G_SSET : Z := 20000.
Definition G_SRESET : Z := 5000.
Definition R_SCLEAR : Z := 15000.
Definition R_SELFDESTRUCT : Z := 24000.
Definition GAS_CC_NET_SSTORE_NOOP_GAS : Z := 200.
Definition GAS_CC_NET_SSTORE_INIT_GAS : Z := 20000.
Definition GAS_CC_NET_SSTORE_CLEAN_GAS : Z := 5000.
Definition GAS_CC_NET_SSTORE_DIRTY_GAS : Z := 200.
Definition GAS_CC_NET_SSTORE_CLEAR_REFUND : Z := 15000.
Definition GAS_CC_NET_SSTORE_RESET_REFUND : Z := 4800.
Definition GAS_CC_NET_SSTORE_RESET_CLEAR_REFUND : Z := 19800.

Inductive math_op := MATH_ADD | MATH_SUB | MATH_MUL | MATH_DIV | MATH_SDIV | MATH_MOD | MATH_SMOD | MATH_EXP.
Inductive bit_op := OP_AND | OP_OR | OP_XOR.
Inductive call_mode := CALL_CALL | CALL_CODE | CALL_DELEGATE | CALL_STATIC.
#[global] Instance math_op_eq_dec : EqDecision math_op.
Proof. solve_decision. Defined.
#[global] Instance bit_op_eq_dec : EqDecision bit_op.
Proof. solve_decision. Defined.
(** [EVM_CALL_MODE_*]; 0 for a create. *)
Definition EVM_CALL_MODE_STATIC : Z := 1.
Definition EVM_CALL_MODE_DELEGATE : Z := 2.
Definition EVM_CALL_MODE_CALLCODE : Z := 3.
Definition EVM_CALL_MODE_CALL : Z := 4.

(** [while (data[0] == 0 && l > 1) { l--; data++; }] is [optimize_len]. *)

(** ** Instructions that work on the running frame alone *)
Section Frame.
Context `{Allocator} `{MpInt} `{Keccak} `{EvmEnv}.

Definition math_result (op : math_op) (mod_ : bool) (a b : list Z) : M evm_t (list Z) :=
  match op with
  | MATH_ADD => mret (big_add a b (if mod_ then 64 else 32))
  | MATH_SUB => mret (big_sub a b)
  | MATH_MUL => mret (big_mul a b (if mod_ then 65 else 32))
  | MATH_DIV => defined (big_div a b false)
  | MATH_SDIV => defined (big_div a b true)
  | MATH_MOD => defined (big_mod a b false)
  | MATH_SMOD => defined (big_mod a b true)
  | MATH_EXP =>
      let r := big_exp a b in
      (** the exponent lies in front of its length byte in the stack buffer *)
      l ← defined (big_log256 (b ++ [zlen b]) (zlen b));
      frontier ← gets (fun e => has_prop e EVM_PROP_FRONTIER);
      _ ← subgas ((if frontier : bool then FRONTIER_G_EXPBYTE else G_EXPBYTE) * l);
      mret r
  end.
Definition op_math (op : math_op) (mod_ : bool) : M evm_t unit :=
  a ← or_fail evm_stack_pop_ref EVM_ERROR_EMPTY_STACK;
  b ← or_fail evm_stack_pop_ref EVM_ERROR_EMPTY_STACK;
  r ← math_result op mod_ a b;
  let r := optimize_len r in
  if mod_ then
    m ← evm_stack_pop_ref;
    r ← defined (big_mod r m false);
    evm_stack_push (optimize_len r)
  else evm_stack_push r.

(** [op_signextend]: the bytes are taken from [val + l - k - 1], which lies before the copy of the
    value when it has fewer than [k + 1] bytes. *)
Definition op_signextend : M evm_t unit :=
  k ← evm_stack_pop_int;
  if 31 <? k then mret tt
  else
    v ← evm_stack_pop_ref;
    let l := zlen v in
    let bitset := (k <? l) && negb (Z.land (rd v (l - k - 1)) 128 =? 0) in
    if l - k - 1 <? 0 then undef
    else
      let tmp := replicate (Z.to_nat (31 - k)) (if bitset then 0xFF else 0)
                 ++ take (Z.to_nat (k + 1)) (drop (Z.to_nat (l - k - 1)) v) in
      evm_stack_push (optimize_len tmp).

Definition op_is_zero : M evm_t unit :=
  a ← evm_stack_pop_ref;
  evm_stack_push [if existsb (fun x => negb (x =? 0)) a then 0 else 1].

Definition op_not : M evm_t unit :=
  a ← evm_stack_pop_ref;
  let res := map (fun x => Z.lxor x 0xFF) (right_align 32 a) in
  evm_stack_push (optimize_len res).

Definition bit_byte (op : bit_op) (x y : Z) : Z :=
  match op with OP_AND => Z.land x y | OP_OR => Z.lor x y | OP_XOR => Z.lxor x y end.
Definition op_bit (op : bit_op) : M evm_t unit :=
  a ← evm_stack_pop_ref;
  b ← or_fail evm_stack_pop_ref EVM_ERROR_EMPTY_STACK;
  let l := length b in
  let l1 := max (length a) l in
  let res := right_align l1 a in
  let tail := zip_with (bit_byte op) (drop (l1 - l) res) b in
  let head := match op with OP_AND => replicate (l1 - l) 0 | _ => take (l1 - l) res end in
  evm_stack_push (optimize_len (head ++ tail)).

Definition op_byte : M evm_t unit :=
  p ← try evm_stack_pop_byte;
  match p return M evm_t unit with
  | inl c =>
      if c =? EVM_ERROR_EMPTY_STACK then fail c
      else _ ← or_fail evm_stack_pop_ref EVM_ERROR_EMPTY_STACK; evm_stack_push [0]
  | inr pos =>
      b ← or_fail evm_stack_pop_ref EVM_ERROR_EMPTY_STACK;
      let res := if negb (Z.land pos 0xE0 =? 0) then 0
                 else if 32 - zlen b <=? pos then rd b (pos + zlen b - 32) else 0 in
      evm_stack_push [res]
  end.

(** [op_cmp eq sig]: [eq] is -1, 0 or 1; the operands are overwritten by their absolute values. *)
Definition op_cmp (eq : Z) (sig : bool) : M evm_t unit :=
  a ← or_fail evm_stack_pop_ref EVM_ERROR_EMPTY_STACK;
  b ← or_fail evm_stack_pop_ref EVM_ERROR_EMPTY_STACK;
  let '(sig_a, a) := if sig then big_signed a a else (0, a) in
  let '(sig_b, b) := if sig then big_signed b b else (0, b) in
  let c := big_cmp a b in
  let r := if eq =? -1 then c <? 0 else if eq =? 0 then c =? 0 else 0 <? c in
  let r := if sig && negb (eq =? 0) then
             if negb (sig_a =? 0) && negb (sig_b =? 0) then negb r
             else if negb (sig_a =? 0) || negb (sig_b =? 0) then (if eq <? 0 then negb (sig_a =? 0) else negb (sig_b =? 0))
             else r
           else r in
  evm_stack_push [if r : bool then 1 else 0].

(** [for (l = 0; l < (pos >> 3); l++) res[l] = 0xFF;  res[pos >> 3] |= (0xFF >> l) << l] *)
Definition fill_sign (pos : Z) (res : list Z) : list Z :=
  let k := Z.to_nat (Z.shiftr pos 3) in
  let l := 8 - pos mod 8 in
  let res := replicate k 0xFF ++ drop k res in
  <[k := Z.lor (nth k res 0) (u8 (Z.shiftl (Z.shiftr 0xFF l) l))]> res.
(** [op_shift left]: 1 is SHL, 0 SHR, 2 SAR. *)
Definition op_shift (left : Z) : M evm_t unit :=
  constantinople ← gets (fun e => has_prop e EVM_PROP_CONSTANTINOPL);
  if negb constantinople then fail EVM_ERROR_INVALID_OPCODE
  else
    p ← try evm_stack_pop_byte;
    match p return M evm_t unit with
    | inl c =>
        if c =? EVM_ERROR_EMPTY_STACK then fail c
        else
          b ← or_fail evm_stack_pop_ref EVM_ERROR_EMPTY_STACK;
          if (left =? 2) && (length b =? 32)%nat && negb (Z.land (rd b 0) 128 =? 0) then evm_stack_push (replicate 32 0xFF)
          else evm_stack_push [0]
    | inr pos =>
        b ← or_fail evm_stack_pop_ref EVM_ERROR_EMPTY_STACK;
        let res := right_align 32 b in
        let res := if left =? 1 then big_shift_left res pos else big_shift_right res pos in
        if (left =? 2) && (length b =? 32)%nat && negb (Z.land (rd b 0) 128 =? 0) then evm_stack_push (fill_sign pos res)
        else evm_stack_push (optimize_len res)
    end.

(** [op_sha3]: memory that was never written is hashed as zeros. *)
Definition op_sha3 : M evm_t unit :=
  offset ← evm_stack_pop_int;
  len ← evm_stack_pop_int;
  if len =? MEM_LIMIT then fail EVM_ERROR_OUT_OF_GAS
  else
    src ← (if len =? 0 then mret None else or_fail (evm_mem_read_ref offset len) EVM_ERROR_OUT_OF_GAS);
    _ ← subgas ((len + 31) / 32 * G_SHA3WORD);
    let data := default [] src in
    evm_stack_push (keccak (take (Z.to_nat len) (data ++ replicate (Z.to_nat len - length data) 0))).

Definition op_dataload : M evm_t unit :=
  pos ← evm_stack_pop_int;
  cd ← gets call_data;
  if b_len cd <? pos then evm_stack_push_int 0
  else if pos + 32 <? b_len cd then d ← defined (b_slice cd pos 32); evm_stack_push d
  else if b_len cd - pos =? 0 then evm_stack_push_int 0
  else d ← defined (b_slice cd pos (b_len cd - pos));
       evm_stack_push (d ++ replicate (32 - length d) 0).

Definition op_datacopy (src : bytes_t) (check_size : bool) : M evm_t unit :=
  mem_pos ← or_fail evm_stack_pop_int EVM_ERROR_EMPTY_STACK;
  data_pos ← or_fail evm_stack_pop_int EVM_ERROR_EMPTY_STACK;
  data_len ← or_fail evm_stack_pop_int EVM_ERROR_EMPTY_STACK;
  _ ← subgas ((data_len + 31) / 32 * G_COPY);
  let inside := data_pos <? b_len src in
  let len := if inside then Z.min (b_len src - data_pos) data_len else 0 in
  if check_size && negb inside then fail EVM_ERROR_ILLEGAL_MEMORY_ACCESS
  else
    _ ← (if len <? data_len then evm_mem_write (mem_pos + len) NULL_BYTES (data_len - len) else mret tt);
    if len =? 0 then mret tt
    else d ← defined (b_slice src data_pos len); evm_mem_write mem_pos (bytes d) len.

(** [op_header]: field [index] of the RLP encoded block header. *)
Definition op_header (index : Z) : M evm_t unit := fun e =>
  match env EVM_ENV_BLOCKHEADER (address e) [] 0 0 with
  | inl c => Err c e
  | inr b =>
      match rlp_decode_in_list (mem_of b) true (mk_slice 0 (zlen b)) index with
      | RDone r (Some s) =>
          if r =? 1 then
            match b_slice (bytes b) (s_data s) (s_len s) with Some d => evm_stack_push d e | None => Undef end
          else evm_stack_push_int 0 e
      | RDone _ None => evm_stack_push_int 0 e
      | RUndef => Undef
      | RFuel => NoFuel
      end
  end.

Definition op_pop : M evm_t unit := _ ← evm_stack_pop_ref; mret tt.

(** [op_mload]: the result is read straight into the new stack entry. *)
Definition op_mload : M evm_t unit :=
  off ← evm_stack_pop_ref;
  let tmp := right_align 32 off in
  dst ← or_fail (evm_stack_push_ref 32) EVM_ERROR_ILLEGAL_MEMORY_ACCESS;
  d ← evm_mem_read tmp 32;
  stack_poke dst d.

(** [op_mstore len]: MSTORE8 passes the popped bytes as they are, so it stores the first one. *)
Definition op_mstore (len : Z) : M evm_t unit :=
  offset ← evm_stack_pop_int;
  data ← evm_stack_pop_ref;
  if len =? 32 then evm_mem_write offset (bytes (right_align 32 data)) len
  else evm_mem_write offset (bytes data) len.

(** The positions of the JUMPDEST bytes inside push data; [jumpl] bytes of it are left. *)
Fixpoint invalid_dests (code : list Z) (i jumpl : Z) : list Z :=
  match code with
  | [] => []
  | op :: t =>
      if negb (jumpl =? 0) then
        (if op =? 0x5B then [i] else []) ++ invalid_dests t (i + 1) (jumpl - 1)
      else if (0x60 <=? op) && (op <=? 0x7F) then invalid_dests t (i + 1) (op - 0x5F)
      else invalid_dests t (i + 1) 0
  end.
(** The list is computed on the first jump and kept. *)
Definition load_invalid_jumpdest (c : bytes_t) : M evm_t (list Z) :=
  l ← gets invalid_jumpdest;
  match l return M evm_t (list Z) with
  | Some l => mret l
  | None =>
      d ← defined (b_slice c 0 (b_len c));
      let l := invalid_dests d 0 0 in
      _ ← modify (set_invalid_jumpdest (Some l)); mret l
  end.
(** The part behind the condition: the check lets [pos = code.len] through and reads the byte
    behind the code. *)
Definition jump_to (pos : Z) : M evm_t unit :=
  c ← gets code;
  if b_len c <? pos then fail EVM_ERROR_INVALID_JUMPDEST
  else
    x ← defined (b_byte c pos);
    if negb (x =? 0x5B) then fail EVM_ERROR_INVALID_JUMPDEST
    else
      l ← load_invalid_jumpdest c;
      if existsb (Z.eqb pos) l then fail EVM_ERROR_INVALID_JUMPDEST
      else modify (set_pos pos).
Definition op_jump (cond : bool) : M evm_t unit :=
  pos ← evm_stack_pop_int;
  if cond then
    c ← try evm_stack_pop_byte;
    match c return M evm_t unit with
    | inl r => if r =? EVM_ERROR_EMPTY_STACK then fail EVM_ERROR_EMPTY_STACK else jump_to pos
    | inr c => if c =? 0 then mret tt else jump_to pos
    end
  else jump_to pos.

(** [op_push]: push data behind the end of the code reads as zeros. *)
Definition op_push (len : Z) : M evm_t unit :=
  c ← gets code;
  p ← gets pos;
  if b_len c <? p + len then
    d ← defined (b_slice c p (b_len c - p));
    _ ← modify (set_pos (u32 (p + len)));
    evm_stack_push (take (Z.to_nat len) (d ++ replicate (32 - length d) 0))
  else
    d ← defined (b_slice c p len);
    _ ← or_fail (evm_stack_push d) EVM_ERROR_BUFFER_TOO_SMALL;
    modify (set_pos (u32 (p + len))).

Definition op_dup (pos : Z) : M evm_t unit := '(_, v) ← evm_stack_get_ref pos; evm_stack_push v.

(** [op_swap]: [a] is the top entry, [b] the one at [pos]; entries of different length move the
    entries between them. *)
Definition op_swap (pos : Z) : M evm_t unit :=
  '(a, va) ← evm_stack_get_ref 1;
  '(b, vb) ← evm_stack_get_ref pos;
  let l1 := zlen va in
  let l2 := zlen vb in
  if l1 =? l2 then
    _ ← stack_poke a vb;
    stack_poke b va
  else if l1 <? l2 then
    _ ← stack_poke b (va ++ [l1]);
    _ ← (if 2 <? pos then m ← stack_peek (b + l2 + 1) (a - b - l2 - 1); stack_poke (b + l1 + 1) m else mret tt);
    stack_poke (a + l1 - l2) (vb ++ [l2])
  else
    _ ← stack_poke (a + l1 - l2) (vb ++ [l2]);
    _ ← (if 2 <? pos then m ← stack_peek (b + l2 + 1) (a - b - l2 - 1); stack_poke (b + l1 + 1) m else mret tt);
    stack_poke b (va ++ [l1]).

Definition op_return (revert : bool) : M evm_t unit :=
  offset ← evm_stack_pop_int;
  len ← evm_stack_pop_int;
  if MEM_LIMIT <? len then fail EVM_ERROR_OUT_OF_GAS
  else
    _ ← modify (fun e => set_return_data (mk_bytes (Some (malloc (Z.to_nat len))) (b_len (return_data e))) e);
    d ← or_fail (evm_mem_readi offset len) EVM_ERROR_OUT_OF_GAS;
    modify (fun e => set_state (if revert then EVM_STATE_REVERTED else EVM_STATE_STOPPED) (set_return_data (mk_bytes (Some d) len) e)).
End Frame.

(** ** Instructions that touch accounts or call other frames *)
Section World.
Context `{Allocator} `{MpInt} `{Keccak} `{EvmEnv}.
(** [evm_sub_call]: address, code address, value, call data, caller, origin, gas, mode and the
    target of the result. *)
Context (evm_sub_call : list Z -> list Z -> list Z -> bytes_t -> list Z -> list Z -> Z -> Z -> Z -> Z -> M world unit).

(** The data [OP_ACCOUNT_GAS] finds in a known account. *)
Definition account_data (key : Z) (ac : account_t) : M world (option (list Z)) :=
  if key =? EVM_ENV_BALANCE then mret (Some (ac_balance ac))
  else if (key =? EVM_ENV_CODE_SIZE) && negb (b_len (ac_code ac) =? 0) then
    mret (Some (int_to_bytes (b_len (ac_code ac)) (replicate 4 0)))
  else if (key =? EVM_ENV_CODE_COPY) && negb (b_len (ac_code ac) =? 0) then
    c ← defined (b_slice (ac_code ac) 0 (b_len (ac_code ac))); mret (Some c)
  else if (key =? EVM_ENV_CODE_HASH) && negb (b_len (ac_code ac) =? 0) then
    c ← defined (b_slice (ac_code ac) 0 (b_len (ac_code ac))); mret (Some (keccak c))
  else mret None.
(** [op_account]: the lookup takes 20 bytes from where the operand starts, whatever its length. *)
Definition op_account (key : Z) : M world unit :=
  constantinople ← cur (gets (fun e => has_prop e EVM_PROP_CONSTANTINOPL));
  if negb constantinople && (key =? EVM_ENV_CODE_HASH) then fail EVM_ERROR_UNSUPPORTED_CALL_OPCODE
  else
    '(o, v) ← cur (or_fail evm_stack_pop_at EVM_ERROR_EMPTY_STACK);
    known ← (if key =? EVM_ENV_BLOCKHASH then mret None
             else adr ← cur (stack_peek o 20);
                  ac ← (evm_get_account adr false : M world _);
                  match ac return M world (option (list Z)) with Some ac => account_data key ac | None => mret None end);
    match known return M world unit with
    | Some d => cur (evm_stack_push (optimize_len d))
    | None =>
        self ← cur (gets address);
        match env key self v 0 0 return M world unit with
        | inl c => fail c
        | inr d => cur (evm_stack_push d)
        end
    end.

Definition op_extcodecopy : M world unit :=
  adr ← cur (or_fail (evm_stack_pop 20) EVM_ERROR_EMPTY_STACK);
  mem_pos ← cur (or_fail evm_stack_pop_int EVM_ERROR_EMPTY_STACK);
  code_pos ← cur (or_fail evm_stack_pop_int EVM_ERROR_EMPTY_STACK);
  data_len ← cur (or_fail evm_stack_pop_int EVM_ERROR_EMPTY_STACK);
  _ ← cur (subgas ((data_len + 31) / 32 * G_COPY));
  ac ← (evm_get_account adr false : M world _);
  let from_env : M world unit :=
    self ← cur (gets address);
    match env EVM_ENV_CODE_COPY self adr code_pos data_len return M world unit with
    | inl _ => cur (evm_mem_write mem_pos NULL_BYTES data_len)
    | inr d => cur (evm_mem_write mem_pos (bytes d) data_len)
    end in
  match ac return M world unit with
  | Some ac =>
      if b_len (ac_code ac) =? 0 then from_env
      else
        let len := if code_pos <? b_len (ac_code ac) then b_len (ac_code ac) - code_pos else 0 in
        d ← defined (b_slice (ac_code ac) code_pos len);
        cur (evm_mem_write mem_pos (bytes d) data_len)
  | None => from_env
  end.

Definition op_sload : M world unit :=
  key ← cur evm_stack_pop_ref;
  acc ← cur (gets account);
  s ← evm_get_storage acc key false;
  match s return M world unit with
  | Some s => cur (evm_stack_push (optimize_len (s_value s)))
  | None =>
      self ← cur (gets address);
      match env EVM_ENV_STORAGE self key 0 0 return M world unit with
      | inl c => fail c
      | inr d => cur (evm_stack_push d)
      end
  end.

Definition op_call (mode : call_mode) : M world unit :=
  gas_limit ← cur evm_stack_pop_ref;
  adr ← cur (or_fail (evm_stack_pop 20) EVM_ERROR_EMPTY_STACK);
  value ← match mode return M world (list Z) with
          | CALL_CALL | CALL_CODE => cur evm_stack_pop_ref
          | _ => mret []
          end;
  in_offset ← cur evm_stack_pop_int;
  in_len ← cur evm_stack_pop_int;
  out_offset ← cur evm_stack_pop_int;
  out_len ← cur evm_stack_pop_int;
  let g := bytes_to_long gas_limit (zlen gas_limit) in
  _ ← (if 0 <? out_len then cur (or_fail (mem_check (out_offset + out_len) true) EVM_ERROR_ILLEGAL_MEMORY_ACCESS) else mret tt);
  _ ← (if in_len =? 0 then mret tt else cur (or_fail (mem_check (in_offset + in_len) false) EVM_ERROR_ILLEGAL_MEMORY_ACCESS));
  data ← (if in_len =? 0 then mret [] else cur (mem_peek in_offset in_len));
  e ← cur (gets id);
  match mode with
  | CALL_CALL => evm_sub_call adr adr value (bytes data) (address e) (origin e) g EVM_CALL_MODE_CALL out_offset out_len
  | CALL_CODE => evm_sub_call (address e) adr value (bytes data) (address e) (origin e) g EVM_CALL_MODE_CALLCODE out_offset out_len
  | CALL_DELEGATE =>
      v ← defined (b_slice (call_value e) 0 (b_len (call_value e)));
      evm_sub_call (address e) adr v (bytes data) (caller e) (origin e) g EVM_CALL_MODE_DELEGATE out_offset out_len
  | CALL_STATIC => evm_sub_call adr adr [0] (bytes data) (address e) (origin e) g EVM_CALL_MODE_STATIC out_offset out_len
  end.

(** The address of a new contract, without and with salt. *)
Definition create_address (self nonce : list Z) : option (list Z) :=
  bb ← rlp_encode_item bb_new self;
  bb ← rlp_encode_item bb (if big_is_zero nonce then [] else optimize_len nonce);
  bb ← rlp_encode_to_list bb;
  c ← bb_content bb;
  Some (keccak c).
Definition create2_address (self salt in_data : list Z) : list Z :=
  keccak ([0xFF] ++ self ++ salt ++ keccak in_data).
Definition op_create (use_salt : bool) : M world unit :=
  value ← cur evm_stack_pop_ref;
  in_offset ← cur evm_stack_pop_int;
  in_len ← cur evm_stack_pop_int;
  _ ← cur (mem_check (in_offset + in_len) true);
  in_data ← cur (evm_mem_read_ref in_offset in_len);
  e ← cur (gets id);
  hash ← (if use_salt then
            if negb (has_prop e EVM_PROP_CONSTANTINOPL) then fail EVM_ERROR_INVALID_OPCODE
            else salt ← cur (evm_stack_pop 32); mret (create2_address (address e) salt (default [] in_data))
          else
            ac ← (evm_get_account (address e) true : M world _);
            ac ← defined ac;
            defined (create_address (address e) (ac_nonce ac)));
  ac ← (evm_get_account (address e) false : M world _);
  ac ← defined ac;
  let prev_nonce := rd (ac_nonce ac) 31 in
  r ← try (evm_sub_call [] (drop 12 hash) value (mk_bytes in_data (zlen (default [] in_data))) (address e) (origin e) 0 0 0 0);
  ac ← cur (gets (fun e' => find_account (address e) (accounts e')));
  ac ← defined ac;
  _ ← (if prev_nonce =? rd (ac_nonce ac) 31 then increment_nonce (address e) else mret tt);
  match r return M world unit with inl c => fail c | inr _ => mret tt end.

Definition op_selfdestruct : M world unit :=
  adr ← cur (or_fail (evm_stack_pop 20) EVM_ERROR_EMPTY_STACK);
  self ← cur (gets address);
  ac ← (evm_get_account self true : M world _);
  ac ← defined ac;
  _ ← cur (modify (fun e => set_refund (u64 (refund e + R_SELFDESTRUCT)) e));
  let p := optimize_len (ac_balance ac) in
  _ ← (if significant p then
         t ← (evm_get_account adr false : M world _);
         _ ← match t return M world unit with
             | Some _ => mret tt
             | None =>
                 no_finalize ← cur (gets (fun e => has_prop e EVM_PROP_NO_FINALIZE));
                 _ ← (if no_finalize : bool then mret tt else cur (subgas G_NEWACCOUNT));
                 _ ← (evm_get_account adr true : M world _);
                 mret tt
             end;
         transfer_value self adr (ac_balance ac) 0 false
       else mret tt);
  _ ← upd_account self (fun a => mk_account (ac_address a) (replicate 32 0) (replicate 32 0) (mk_bytes (b_data (ac_code a)) 0) []);
  cur (modify (set_state EVM_STATE_STOPPED)).

(** The topics of [op_log]: what was popped, and the error that ended the loop, if any. *)
Fixpoint log_topics_loop (n : nat) (acc : list Z) : M evm_t (list Z * option Z) :=
  match n with
  | O => mret (acc, None)
  | S n' =>
      t ← try evm_stack_pop_ref;
      match t return M evm_t (list Z * option Z) with
      | inl c => mret (acc, Some c)
      | inr t => log_topics_loop n' (acc ++ right_align 32 t)
      end
  end.
(** [op_log]: the new log is linked in front of the logs of the outermost frame. *)
Definition op_log (len : Z) : M world unit :=
  memoffset ← cur evm_stack_pop_int;
  memlen ← cur evm_stack_pop_int;
  _ ← cur (subgas (u64 (i32 (len * G_LOGTOPIC + memlen * G_LOGDATA))));
  _ ← (if memlen =? 0 then mret tt else cur (mem_check (memoffset + memlen) true));
  root_logs ← (fun fs : world => match last fs with Some r => Ok (logs r) fs | None => Undef end);
  (** a failing read leaves the allocated data as it is *)
  data ← cur (try (evm_mem_readi memoffset memlen));
  let data := match data with inr d => d | inl _ => malloc (Z.to_nat memlen) end in
  '(t, err) ← cur (log_topics_loop (Z.to_nat len) []);
  let topics := t ++ drop (length t) (malloc (Z.to_nat (len * 32))) in
  _ ← cur (modify (fun e => set_logs (mk_log topics data (address e) :: root_logs) e));
  match err return M world unit with Some c => fail c | None => mret tt end.

(** [op_sstore]; [l_current] only matters as zero or not. *)
Definition op_sstore : M world unit :=
  key ← cur evm_stack_pop_ref;
  value ← cur evm_stack_pop_ref;
  acc ← cur (gets account);
  self ← cur (gets address);
  key_data ← defined (uint256_set key (replicate 32 0));
  s0 ← evm_get_storage acc key false;
  '(s, created, current) ← match s0 return M world (storage_t * bool * bool) with
      | None => s ← evm_get_storage acc key true; s ← defined s; mret (s, true, false)
      | Some s => let nonzero := existsb (fun x => negb (x =? 0)) (s_value s) in mret (s, negb nonzero, nonzero)
      end;
  let cleared := negb (existsb (fun x => negb (x =? 0)) value) in
  e ← cur (gets id);
  _ ← (if has_prop e EVM_PROP_CONSTANTINOPL then
         let original := match env EVM_ENV_STORAGE self key 0 0 with inr d => d | inl _ => [] end in
         if big_cmp value (s_value s) =? 0 then cur (subgas GAS_CC_NET_SSTORE_NOOP_GAS)
         else if big_cmp original (s_value s) =? 0 then
           _ ← (if (length original =? 0)%nat then cur (subgas GAS_CC_NET_SSTORE_INIT_GAS) else mret tt);
           _ ← (if cleared then cur (modify (fun e => set_refund (u64 (refund e + GAS_CC_NET_SSTORE_CLEAR_REFUND)) e)) else mret tt);
           cur (subgas GAS_CC_NET_SSTORE_CLEAN_GAS)
         else
           _ ← (if (length original =? 0)%nat then mret tt
                else if negb current then cur (modify (fun e => set_gas (u64 (gas e - GAS_CC_NET_SSTORE_CLEAR_REFUND)) e))
                else cur (modify (fun e => set_refund (u64 (refund e + GAS_CC_NET_SSTORE_CLEAR_REFUND)) e)));
           _ ← (if big_cmp original value =? 0 then
                  cur (modify (fun e => set_refund (u64 (refund e + (if (length original =? 0)%nat then GAS_CC_NET_SSTORE_RESET_CLEAR_REFUND
                                                                      else GAS_CC_NET_SSTORE_RESET_REFUND))) e))
                else mret tt);
           cur (subgas GAS_CC_NET_SSTORE_DIRTY_GAS)
       else if cleared && created then cur (subgas G_SRESET)
       else if cleared then _ ← cur (subgas G_SRESET); cur (modify (fun e => set_refund (u64 (refund e + R_SCLEAR)) e))
       else if created then cur (subgas G_SSET)
       else cur (subgas G_SRESET));
  v ← defined (uint256_set value (replicate 32 0));
  upd_account acc (fun a => set_storage (update_storage key_data v (ac_storage a)) a).
End World.
