(* ===== verification/Precompiled.v ===== *)
(** * verifier/eth1/evm/precompiled.c: the contracts at addresses 1 to 9

    The hash functions, signature recovery and curve arithmetic are library code; the contracts
    pre_ec.c and pre_blake2.c build on them are parameters as well. *)
From S2P Require Import Prelude Utils Bytes Big EvmState EvmMem EvmAccounts.

Class PreCrypto := {
  sha256 : list Z -> list Z;
  ripemd160 : list Z -> list Z;
  (** [crypto_recover]: message hash and 65 byte signature to the 64 byte public key *)
  crypto_recover : list Z -> list Z -> option (list Z);
  pre_ec_add : M evm_t unit;
  pre_ec_mul : M evm_t unit;
  pre_blake2 : M evm_t unit
}.

Definition G_PRE_EC_RECOVER : Z := 3000.
Definition G_PRE_SHA256 : Z := 60.
Definition G_PRE_SHA256_WORD : Z := 12.
Definition G_PRE_RIPEMD160 : Z := 600.
Definition G_PRE_RIPEMD160_WORD : Z := 120.
Definition G_PRE_IDENTITY : Z := 15.
Definition G_PRE_IDENTITY_WORD : Z := 3.
Definition G_PRE_MODEXP_GQUAD_DIVISOR : Z := 20.

Section Pre.
Context `{Allocator} `{MpInt} `{Keccak} `{PreCrypto}.

Definition evm_is_precompiled (address : list Z) : bool :=
  let a := optimize_len address in (length a =? 1)%nat && negb (rd a 0 =? 0) && (rd a 0 <? 10).

(** The call data as a list; undefined if there is less of it than its length says. *)
Definition input : M evm_t (list Z) := cd ← gets call_data; defined (b_slice cd 0 (b_len cd)).
Definition returns (d : list Z) : M evm_t unit := modify (set_return_data (bytes d)).

Definition pre_ecrecover : M evm_t unit :=
  _ ← subgas G_PRE_EC_RECOVER;
  d ← input;
  if zlen d <? 128 then mret tt
  else
    let v := optimize_len (take 32 (drop 32 d)) in
    if (1 <? length v)%nat then mret tt
    else
      let x := rd v 0 in
      let sig := take 64 (drop 64 d) ++ [if 27 <=? x then x - 27 else x] in
      match crypto_recover (take 32 d) sig return M evm_t unit with
      | Some pubkey => returns (drop 12 (keccak pubkey))
      | None => mret tt
      end.

Definition pre_sha256 : M evm_t unit :=
  d ← input;
  _ ← subgas (G_PRE_SHA256 + (zlen d + 31) / 32 * G_PRE_SHA256_WORD);
  returns (sha256 d).
Definition pre_ripemd160 : M evm_t unit :=
  d ← input;
  _ ← subgas (G_PRE_RIPEMD160 + (zlen d + 31) / 32 * G_PRE_RIPEMD160_WORD);
  returns (ripemd160 d).
Definition pre_identity : M evm_t unit :=
  d ← input;
  _ ← subgas (G_PRE_IDENTITY + (zlen d + 31) / 32 * G_PRE_IDENTITY_WORD);
  returns d.

(** The position of the highest bit among the first 32 bytes of the exponent, in an 8 bit
    variable: [for n = 7..0: if (b_exp[i] >> n) hp = ((l_exp - i - 1) << 3) + n]. *)
Fixpoint high_bit (n : nat) (x : Z) : Z :=
  match n with
  | O => 0
  | S n' => if Z.shiftr x (Z.of_nat n') =? 0 then high_bit n' x else Z.of_nat n'
  end.
Fixpoint modexp_hp (e : list Z) (i l_exp : Z) : Z :=
  match e with
  | [] => 0
  | x :: t => if x =? 0 then modexp_hp t (i + 1) l_exp else u8 (Z.shiftl (l_exp - i - 1) 3 + high_bit 8 x)
  end.
Definition modexp_gas (l_base l_exp l_mod : Z) (e : list Z) : Z :=
  let hp := modexp_hp (take 32 e) 0 l_exp in
  let ael := if l_exp <=? 32 then hp else u32 (8 * (l_exp - 32) + hp) in
  let lm := Z.max l_mod l_base in
  let lm := if lm <=? 64 then lm * lm
            else if lm <=? 1024 then u64 (lm * lm / 4 + 96 * lm - 3072)
            else u64 (u64 (lm * lm) / 16 + 480 * lm - 199680) in
  u64 (lm * Z.max 1 ael) / G_PRE_MODEXP_GQUAD_DIVISOR.
(** [pre_modexp]: the result is collected in a buffer of 64 bytes. *)
Definition pre_modexp : M evm_t unit :=
  d ← input;
  if zlen d <? 96 then fail (-1)
  else
    let l_base := bytes_to_int (Some (take 4 (drop 28 d))) 4 in
    let l_exp := bytes_to_int (Some (take 4 (drop 60 d))) 4 in
    let l_mod := bytes_to_int (Some (take 4 (drop 92 d))) 4 in
    if zlen d <? u32 (96 + l_base + l_exp + l_mod) then fail (-1)
    else
      base ← defined (b_slice (bytes d) 96 l_base);
      e ← defined (b_slice (bytes d) (96 + l_base) l_exp);
      m ← defined (b_slice (bytes d) (96 + l_base + l_exp) l_mod);
      _ ← subgas (modexp_gas l_base l_exp l_mod e);
      let r := mp_export (mp_exptmod (be_val base) (be_val e) (be_val m)) in
      if (64 <? length r)%nat then undef else returns r.

Definition evm_run_precompiled (address : list Z) : M evm_t unit :=
  let a := rd address 19 in
  if a =? 1 then pre_ecrecover
  else if a =? 2 then pre_sha256
  else if a =? 3 then pre_ripemd160
  else if a =? 4 then pre_identity
  else if a =? 5 then pre_modexp
  else if a =? 6 then pre_ec_add
  else if a =? 7 then pre_ec_mul
  else if a =? 9 then pre_blake2
  else fail (-1).
End Pre.
