(* ===== verification/Evm.v ===== *)
(** * verifier/eth1/evm/evm.c, call.c, gas.c: executing code and calling other frames

    [evm_execute] is the instruction dispatch, [evm_run] the loop of a frame, [evm_sub_call] the
    creation, execution and merging of a nested frame.  The recursion run - instruction - sub-call -
    run and the loop are bounded by fuel; [evm_run] itself stops after 2^32 instructions. *)
From S2P Require Import Prelude Utils Bytes Big EvmState EvmStack EvmMem EvmAccounts Opcodes Precompiled.

Definition G_JUMPDEST : Z := 1.
Definition G_BASE : Z := 2.
Definition G_VERY_LOW : Z := 3.
Definition G_LOW : Z := 5.
Definition G_MID : Z := 8.
Definition G_HIGH : Z := 10.
Definition G_EXTCODE : Z := 700.
Definition G_BALANCE : Z := 400.
Definition G_SLOAD : Z := 200.
Definition FRONTIER_G_SLOAD : Z := 50.
Definition G_SELFDESTRUCT : Z := 5000.
Definition G_CREATE : Z := 32000.
Definition G_CODEDEPOSIT : Z := 200.
Definition G_CALL : Z := 700.
Definition G_CALLVALUE : Z := 9000.
Definition G_CALLSTIPEND : Z := 2300.
Definition G_EXP : Z := 10.
Definition G_LOG : Z := 375.
Definition G_SHA3 : Z := 30.
Definition G_BLOCKHASH : Z := 20.
Definition BLOCKHEADER_MINER : Z := 2.
Definition BLOCKHEADER_DIFFICULTY : Z := 7.
Definition BLOCKHEADER_NUMBER : Z := 8.
Definition BLOCKHEADER_GAS_LIMIT : Z := 9.
Definition BLOCKHEADER_TIMESTAMP : Z := 11.

Section Exec.
Context `{Allocator} `{MpInt} `{Keccak} `{EvmEnv} `{PreCrypto}.

(** [op_exec(m, gc)]. *)
Definition op_exec (gc : Z) (m : M world unit) : M world unit := _ ← cur (subgas gc); m.

(** [evm_stack_push(evm, b.data, b.len)]. *)
Definition push_bytes (f : evm_t -> bytes_t) : M evm_t unit :=
  b ← gets f; d ← defined (b_slice b 0 (b_len b)); evm_stack_push d.
Definition push_address (f : evm_t -> list Z) : M evm_t unit :=
  a ← gets f; if (length a =? 0)%nat then undef else evm_stack_push a.
Definition push_int_of (f : evm_t -> Z) : M evm_t unit := v ← gets f; evm_stack_push_int v.

Section Dispatch.
Context (evm_sub_call : list Z -> list Z -> list Z -> bytes_t -> list Z -> list Z -> Z -> Z -> Z -> Z -> M world unit).

(** The switch of [evm_execute]; [e] is the frame after fetching. *)
Definition exec_op (op : Z) (e : evm_t) : M world unit :=
  if (0x60 <=? op) && (op <=? 0x7F) then op_exec G_VERY_LOW (cur (op_push (op - 0x5F)))
  else if (0x80 <=? op) && (op <=? 0x8F) then op_exec G_VERY_LOW (cur (op_dup (op - 0x7F)))
  else if (0x90 <=? op) && (op <=? 0x9F) then op_exec G_VERY_LOW (cur (op_swap (op - 0x8E)))
  else if (0xA0 <=? op) && (op <=? 0xA4) then op_exec G_LOG (op_log (op - 0xA0))
  else match op with
  | 0x00 => cur (modify (set_state EVM_STATE_STOPPED))
  | 0x01 => op_exec G_VERY_LOW (cur (op_math MATH_ADD false))
  | 0x02 => op_exec G_LOW (cur (op_math MATH_MUL false))
  | 0x03 => op_exec G_VERY_LOW (cur (op_math MATH_SUB false))
  | 0x04 => op_exec G_LOW (cur (op_math MATH_DIV false))
  | 0x05 => op_exec G_LOW (cur (op_math MATH_SDIV false))
  | 0x06 => op_exec G_LOW (cur (op_math MATH_MOD false))
  | 0x07 => op_exec G_LOW (cur (op_math MATH_SMOD false))
  | 0x08 => op_exec G_MID (cur (op_math MATH_ADD true))
  | 0x09 => op_exec G_MID (cur (op_math MATH_MUL true))
  | 0x0A => op_exec G_EXP (cur (op_math MATH_EXP false))
  | 0x0B => op_exec G_LOW (cur op_signextend)
  | 0x10 => op_exec G_VERY_LOW (cur (op_cmp (-1) false))
  | 0x11 => op_exec G_VERY_LOW (cur (op_cmp 1 false))
  | 0x12 => op_exec G_VERY_LOW (cur (op_cmp (-1) true))
  | 0x13 => op_exec G_VERY_LOW (cur (op_cmp 1 true))
  | 0x14 => op_exec G_VERY_LOW (cur (op_cmp 0 false))
  | 0x15 => op_exec G_VERY_LOW (cur op_is_zero)
  | 0x16 => op_exec G_VERY_LOW (cur (op_bit OP_AND))
  | 0x17 => op_exec G_VERY_LOW (cur (op_bit OP_OR))
  | 0x18 => op_exec G_VERY_LOW (cur (op_bit OP_XOR))
  | 0x19 => op_exec G_VERY_LOW (cur op_not)
  | 0x1a => op_exec G_VERY_LOW (cur op_byte)
  | 0x1b => op_exec G_VERY_LOW (cur (op_shift 1))
  | 0x1c => op_exec G_VERY_LOW (cur (op_shift 0))
  | 0x1d => op_exec G_VERY_LOW (cur (op_shift 2))
  | 0x20 => op_exec G_SHA3 (cur op_sha3)
  | 0x30 => op_exec G_BASE (cur (push_address address))
  | 0x31 => op_exec G_BALANCE (op_account EVM_ENV_BALANCE)
  | 0x32 => op_exec G_BASE (cur (push_address origin))
  | 0x33 => op_exec G_BASE (cur (push_address caller))
  | 0x34 => op_exec G_BASE (cur (push_bytes call_value))
  | 0x35 => op_exec G_VERY_LOW (cur op_dataload)
  | 0x36 => op_exec G_BASE (cur (push_int_of (fun e => b_len (call_data e))))
  | 0x37 => op_exec G_VERY_LOW (cur (op_datacopy (call_data e) false))
  | 0x38 => op_exec G_BASE (cur (push_int_of (fun e => b_len (code e))))
  | 0x39 => op_exec G_VERY_LOW (cur (op_datacopy (code e) false))
  | 0x3a => op_exec G_BASE (cur (push_bytes gas_price))
  | 0x3b => op_exec G_EXTCODE (op_account EVM_ENV_CODE_SIZE)
  | 0x3c => op_exec G_EXTCODE op_extcodecopy
  | 0x3d => op_exec G_BASE (cur (push_int_of (fun e => b_len (last_returned e))))
  | 0x3e => op_exec G_VERY_LOW (cur (op_datacopy (last_returned e) true))
  | 0x3f => op_exec G_BALANCE (op_account EVM_ENV_CODE_HASH)
  | 0x40 => op_exec G_BLOCKHASH (op_account EVM_ENV_BLOCKHASH)
  | 0x41 => op_exec G_BASE (cur (op_header BLOCKHEADER_MINER))
  | 0x42 => op_exec G_BASE (cur (op_header BLOCKHEADER_TIMESTAMP))
  | 0x43 => op_exec G_BASE (cur (op_header BLOCKHEADER_NUMBER))
  | 0x44 => op_exec G_BASE (cur (op_header BLOCKHEADER_DIFFICULTY))
  | 0x45 => op_exec G_BASE (cur (op_header BLOCKHEADER_GAS_LIMIT))
  | 0x46 => op_exec G_BASE (if has_prop e EVM_PROP_ISTANBUL then cur (v ← gets chain_id; evm_stack_push_long v)
                            else fail EVM_ERROR_INVALID_OPCODE)
  | 0x50 => op_exec G_BASE (cur op_pop)
  | 0x51 => op_exec G_VERY_LOW (cur op_mload)
  | 0x52 => op_exec G_VERY_LOW (cur (op_mstore 32))
  | 0x53 => op_exec G_VERY_LOW (cur (op_mstore 1))
  | 0x54 => op_exec (if has_prop e EVM_PROP_FRONTIER then FRONTIER_G_SLOAD else G_SLOAD) op_sload
  | 0x55 => op_sstore
  | 0x56 => op_exec G_MID (cur (op_jump false))
  | 0x57 => op_exec G_HIGH (cur (op_jump true))
  | 0x58 => op_exec G_BASE (cur (push_int_of (fun e => u32 (pos e - 1))))
  | 0x59 => op_exec G_BASE (cur (push_int_of (fun e => bb_len (memory e))))
  | 0x5a => op_exec G_BASE (cur (v ← gets gas; evm_stack_push_long v))
  | 0x5b => op_exec G_JUMPDEST (mret tt)
  | 0xF0 => op_exec G_CREATE (op_create evm_sub_call false)
  | 0xF1 => op_exec G_CALL (op_call evm_sub_call CALL_CALL)
  | 0xF2 => op_exec G_CALL (op_call evm_sub_call CALL_CODE)
  | 0xF3 => cur (op_return false)
  | 0xF4 => op_exec G_CALL (op_call evm_sub_call CALL_DELEGATE)
  | 0xF5 => op_exec G_CREATE (op_create evm_sub_call true)
  | 0xFA => op_exec G_CALL (op_call evm_sub_call CALL_STATIC)
  | 0xFD => cur (op_return true)
  | 0xFF => op_exec (if has_prop e EVM_PROP_FRONTIER then 0 else G_SELFDESTRUCT) op_selfdestruct
  | _ => fail EVM_ERROR_INVALID_OPCODE
  end.

Definition evm_execute : M world unit :=
  c ← cur (gets code);
  p ← cur (gets pos);
  op ← defined (b_byte c p);
  _ ← cur (modify (set_pos (u32 (p + 1))));
  e ← cur (gets id);
  exec_op op e.
End Dispatch.

(** ** gas.c *)
Definition init_gas_ : M world unit :=
  cur (modify (fun e => let e := set_refund 0 e in if init_gas e =? 0 then set_init_gas (gas e) e else e)).
Definition finalize_and_refund_gas : M world unit := fun fs =>
  match fs with
  | [] => Undef
  | e :: ps =>
      let gas_used := u64 (init_gas e - gas e) in
      if has_prop e EVM_PROP_NO_FINALIZE then Ok tt fs
      else match ps with
           | p :: ps' =>
               if refund e =? 0 then Ok tt (set_gas (u64 (gas e + Z.min (refund e) (Z.shiftr gas_used 1))) e :: ps)
               else Ok tt (set_refund 0 (set_gas (u64 (gas e + gas_used)) e)
                           :: set_refund (u64 (refund p + refund e)) (set_gas (u64 (gas p - gas_used)) p) :: ps')
           | [] => Ok tt [set_gas (u64 (gas e + Z.min (refund e) (Z.shiftr gas_used 1))) e]
           end
  end.

(** [copy_state(parent, evm)].  When the outermost frame has logs, those of a nested frame end in
    the same list nodes, and appending the parent's list closes a cycle. *)
Definition copy_state_checked (e p : evm_t) (ps : world) : option evm_t :=
  match last (p :: ps) with
  | Some r => if negb (length (logs e) =? 0)%nat && negb (length (logs r) =? 0)%nat then None else Some (copy_state p e)
  | None => None
  end.
Definition finalize_subcall_gas (success : Z) : M world unit := fun fs =>
  match fs with
  | e :: p :: ps =>
      if (success =? 0) || (success =? EVM_ERROR_SUCCESS_CONSUME_GAS) then
        match (if decide (state e = EVM_STATE_REVERTED) then Some p else copy_state_checked e p ps) with
        | Some p =>
            let g := u64 (gas p + gas e) in
            let g := if has_prop e EVM_PROP_CALL_DEPEND_ON_REFUND then u64 (g - init_gas e) else g in
            Ok tt (e :: set_gas g p :: ps)
        | None => Undef
        end
      else if success =? EVM_ERROR_BALANCE_TOO_LOW then Ok tt (e :: set_gas (u64 (gas p + G_CALLSTIPEND)) p :: ps)
      else Ok tt fs
  | _ => Undef
  end.

(** ** The loop of a frame *)
(** The [while] loop: the value of [res] after it; the timeout leaves [evm_run] at once. *)
Fixpoint run_loop (fuel : nat) (step : M world unit) (timeout : Z) : M world (Z + unit) :=
  match fuel with
  | O => fun _ => NoFuel
  | S f =>
      e ← cur (gets id);
      if bool_decide (state e = EVM_STATE_RUNNING) && (pos e <? b_len (code e)) then
        r ← try step;
        if timeout =? 0 then fail EVM_ERROR_TIMEOUT
        else match r return M world (Z + unit) with
             | inl c => mret (inl c)
             | inr _ => run_loop f step (timeout - 1)
             end
      else mret (inr tt)
  end.

Definition evm_run_body (fuel : nat) (step : M world unit) (code_address : list Z) : M world unit :=
  _ ← init_gas_;
  if evm_is_precompiled code_address then cur (evm_run_precompiled code_address)
  else
    _ ← cur (modify (set_state EVM_STATE_RUNNING));
    r ← run_loop fuel step 0xFFFFFFFF;
    match r return M world unit with
    | inl c => fail c
    | inr _ =>
        e ← cur (gets id);
        _ ← (if has_prop e EVM_PROP_TXCREATE && bool_decide (state e = EVM_STATE_STOPPED) then
               if negb (has_prop e (Z.lor EVM_PROP_FRONTIER (Z.lor EVM_PROP_EIP150 EVM_PROP_EIP158)))
                  && (EVM_MAX_CODE_SIZE <? b_len (return_data e))
               then fail EVM_ERROR_MAX_CODE_SIZE_EXCEEDED
               else
                 _ ← cur (subgas (u32 (b_len (return_data e) * G_CODEDEPOSIT)));
                 ac ← (evm_get_account (account e) true : M world _);
                 _ ← defined ac;
                 upd_account (account e) (set_ac_code (return_data e))
             else mret tt);
        finalize_and_refund_gas
    end.

(** ** call.c *)
(** [evm_prepare_evm]: a fresh frame; the code is loaded unless this is a create. *)
Definition new_frame (address account origin caller : list Z) (mode : Z) : evm_t :=
  mk_evm (mk_bb 64 (Some (malloc 64)) 0 true) (mk_bb 32 (Some (replicate 32 0)) 0 true) 0 NULL_BYTES 0 EVM_STATE_INIT
    NULL_BYTES NULL_BYTES None EVM_PROP_CONSTANTINOPL 1 address
    (if mode =? EVM_CALL_MODE_CALLCODE then address else account) origin caller
    NULL_BYTES NULL_BYTES NULL_BYTES 0 [] [] 0 0.
Definition evm_prepare_evm (address account origin caller : list Z) (mode : Z) : Z + evm_t :=
  let e := new_frame address account origin caller mode in
  if (length address =? 0)%nat then inr e
  else match env EVM_ENV_CODE_SIZE address account 0 32 with
       | inl c => inl c
       | inr tmp =>
           match env EVM_ENV_CODE_COPY address account 0 0 with
           | inl c => inl c
           | inr d => inr (set_code (mk_bytes (Some d) (bytes_to_int (Some tmp) (zlen tmp))) e)
           end
       end.

(** Run in the parent of the running frame. *)
Definition in_parent {A} (m : M world A) : M world A := fun fs =>
  match fs with
  | e :: ps => match m ps with
               | Ok a ps' => Ok a (e :: ps')
               | Err c ps' => Err c (e :: ps')
               | Undef => Undef
               | NoFuel => NoFuel
               end
  | [] => Undef
  end.
(** A step whose code is kept in [res] instead of being returned. *)
Definition keep (m : M world unit) : M world Z := r ← try m; mret (match r with inl c => c | inr _ => 0 end).

(** [UPDATE_SUBCALL_GAS]: [res] and [c_xfer]. *)
Definition update_subcall_gas (to code_address caller value : list Z) (g mode : Z) : M world (Z * Z) :=
  let no_address := (length to =? 0)%nat in
  e ← cur (gets id);
  res ← (if no_address then
           _ ← cur (modify (set_properties (Z.lor (properties e) EVM_PROP_TXCREATE)));
           keep (evm_create_account (call_data e) code_address caller)
         else
           r ← try (in_parent (evm_get_account code_address false));
           match r return M world Z with
           | inl c => mret c
           | inr (Some ac) => _ ← cur (modify (set_code (ac_code ac))); mret 0
           | inr None => mret 0
           end);
  let xfer := (res =? 0) && negb (big_is_zero value) in
  let c_xfer := if xfer && ((mode =? EVM_CALL_MODE_CALL) || (mode =? EVM_CALL_MODE_CALLCODE)) then G_CALLVALUE else 0 in
  res ← (if negb xfer then mret res
         else if mode =? EVM_CALL_MODE_STATIC then mret EVM_ERROR_UNSUPPORTED_CALL_OPCODE
         else
           _ ← cur (modify (fun e => set_gas (if c_xfer =? 0 then gas e else u64 (gas e + G_CALLSTIPEND)) e));
           self ← cur (gets address);
           from ← in_parent (cur (gets address));
           keep (transfer_value from self value c_xfer false));
  pgas ← in_parent (cur (gets gas));
  pprice ← in_parent (cur (gets gas_price));
  let max_gas_provided := pgas - Z.shiftr pgas 6 in
  let g := if no_address then max_gas_provided else Z.min g max_gas_provided in
  _ ← cur (modify (fun e => set_gas_price pprice (set_init_gas g (set_gas (u64 (gas e + g)) e))));
  if negb (res =? 0) then mret (res, c_xfer)
  else if pgas <? g then
    if u64 (pgas + c_xfer) <? g then mret (EVM_ERROR_OUT_OF_GAS, c_xfer)
    else _ ← cur (modify (fun e => set_properties (Z.lor (properties e) EVM_PROP_CALL_DEPEND_ON_REFUND) e)); mret (0, c_xfer)
  else _ ← in_parent (cur (modify (set_gas (pgas - g)))); mret (0, c_xfer).

(** The body of [evm_sub_call], with the new frame on top of the world. *)
Definition sub_call_body (run : list Z -> M world unit) (to code_address value : list Z) (caller : list Z)
    (g mode out_offset out_len : Z) : M world Z :=
  '(res, c_xfer) ← update_subcall_gas to code_address caller value g mode;
  old_gas ← cur (gets (fun e => if has_prop e EVM_PROP_CALL_DEPEND_ON_REFUND then u32 (gas e) else 0));
  success ← (if res =? 0 then keep (run code_address) else mret res);
  e ← cur (gets id);
  success ← (if has_prop e EVM_PROP_CALL_DEPEND_ON_REFUND && (gas e <? c_xfer) then
               _ ← cur (modify (fun e => set_state EVM_STATE_REVERTED (set_gas old_gas e))); mret EVM_ERROR_OUT_OF_GAS
             else mret success);
  let ok := (success =? 0) || (success =? EVM_ERROR_SUCCESS_CONSUME_GAS) in
  e ← cur (gets id);
  res ← keep (in_parent (cur (if (length to =? 0)%nat && (success =? 0) then evm_stack_push (account e)
                              else evm_stack_push_int (if ok then 1 else 0))));
  res ← (if ok && bool_decide (b_data (return_data e) <> None) then
           res ← (if out_len =? 0 then mret res else keep (in_parent (cur (evm_mem_write out_offset (return_data e) out_len))));
           _ ← (if (length to =? 0)%nat then upd_account code_address (set_ac_code (return_data e)) else mret tt);
           _ ← (if res =? 0 then
                  _ ← in_parent (cur (modify (set_last_returned (return_data e)))); cur (modify (set_return_data NULL_BYTES))
                else mret tt);
           mret res
         else mret res);
  _ ← finalize_subcall_gas success;
  mret res.

(** Leave the nested frame; a non-zero [res] is the error of the call instruction. *)
Definition evm_sub_call_with (run : list Z -> M world unit) (to code_address value : list Z) (data : bytes_t)
    (caller origin : list Z) (g mode out_offset out_len : Z) : M world unit := fun fs =>
  match fs with
  | [] => Undef
  | p :: _ =>
      match evm_prepare_evm to code_address origin caller mode with
      | inl c => Err c fs
      | inr e =>
          let pr := properties p in
          let pr := if negb (Z.land pr EVM_PROP_CALL_DEPEND_ON_REFUND =? 0) then Z.lxor pr EVM_PROP_CALL_DEPEND_ON_REFUND else pr in
          let pr := if mode =? EVM_CALL_MODE_STATIC then Z.lor pr EVM_PROP_STATIC else pr in
          let e := set_properties pr (set_chain_id (chain_id p) (set_call_data data (set_call_value (bytes value) e))) in
          let e := if mode =? EVM_CALL_MODE_DELEGATE then set_account (account p) e else e in
          match sub_call_body run to code_address value caller g mode out_offset out_len (e :: fs) with
          | Ok res (_ :: fs') => if res =? 0 then Ok tt fs' else Err res fs'
          | Ok _ [] => Undef
          | Err c (_ :: fs') => Err c fs'
          | Err _ [] => Undef
          | Undef => Undef
          | NoFuel => NoFuel
          end
      end
  end.

Fixpoint evm_run (fuel : nat) (code_address : list Z) : M world unit :=
  match fuel with
  | O => fun _ => NoFuel
  | S f => evm_run_body f (evm_execute (evm_sub_call_with (evm_run f))) code_address
  end.
Definition evm_sub_call (fuel : nat) := evm_sub_call_with (evm_run fuel).

(** [evm_call]: the outermost frame; the return data if the call succeeded (receipts are JSON). *)
Definition evm_call (fuel : nat) (to value data caller : list Z) (g chain : Z) : res world (option (list Z)) :=
  match evm_prepare_evm to to caller caller 0 with
  | inl c => Err c []
  | inr e =>
      (r ← try (if (1 <? length (optimize_len caller))%nat then transfer_value caller to value 0 true else mret tt);
       _ ← cur (modify (fun e => set_call_data (bytes data) (set_call_value (bytes value) (set_gas g e))));
       match r return M world (option (list Z)) with
       | inl c => fail c
       | inr _ =>
           _ ← evm_run fuel to;
           ret ← cur (gets return_data);
           match b_data ret return M world (option (list Z)) with
           | None => mret None
           | Some d => d ← defined (read_at d 0 (Z.to_nat (b_len ret))); mret (Some d)
           end
       end) [set_chain_id chain e]
  end.
End Exec.
