(* ===== verification/EvmOps.v ===== *)
(** * What the instructions compute

    The instructions of Opcodes.v on a well-formed stack, in terms of the numbers the words
    stand for. *)
From S2P Require Import Prelude Utils Bytes Big EvmState EvmStack EvmMem EvmAccounts Opcodes.

(** ** Steps of the monad *)
Section Steps.
Context {S A B : Type}.
Lemma bind_err (m : M S A) (k : A -> M S B) s c s' : m s = Err c s' -> mbind k m s = Err c s'.
Proof. intros E. unfold mbind, M_bind. by rewrite E. Qed.
Lemma or_fail_ok (m : M S A) c s a s' : m s = Ok a s' -> or_fail m c s = Ok a s'.
Proof. intros E. unfold or_fail. by rewrite E. Qed.
Lemma try_ok (m : M S A) s a s' : m s = Ok a s' -> try m s = Ok (inr a) s'.
Proof. intros E. unfold try. by rewrite E. Qed.
Lemma try_err (m : M S A) s c s' : m s = Err c s' -> try m s = Ok (inl c) s'.
Proof. intros E. unfold try. by rewrite E. Qed.
End Steps.

(** Only stack and gas differ, and gas only falls. *)
Definition frame_sg (e e' : evm_t) : Prop := exists bb n g, e' = set_gas g (set_stack bb n e) /\ g <= gas e.
Lemma frame_sg_stack e e' : frame_stack e e' -> frame_sg e e'.
Proof. intros (bb & n & ->). exists bb, n, (gas e). split; [by destruct e|lia]. Qed.
Lemma frame_sg_trans e1 e2 e3 : frame_sg e1 e2 -> frame_sg e2 e3 -> frame_sg e1 e3.
Proof. intros (b1 & n1 & g1 & -> & G1) (b2 & n2 & g2 & -> & G2). exists b2, n2, g2. destruct e1. cbn in *. split; [done|lia]. Qed.
Lemma gas_set_stack bb n e : gas (set_stack bb n e) = gas e.
Proof. by destruct e. Qed.
Lemma stack_rep_set_gas g e ws : stack_rep (set_gas g e) ws <-> stack_rep e ws.
Proof. by destruct e. Qed.

Section Ops.
Context `{Allocator} `{MpInt}.

(** Pop a reference off a stack that has one, in front of [k]. *)
Lemma pop_ref_step e w ws : stack_rep e (w :: ws) ->
  exists e', stack_rep e' ws /\ frame_stack e e' /\ evm_stack_pop_ref e = Ok w e' /\
    (forall c, or_fail evm_stack_pop_ref c e = Ok w e').
Proof.
  intros Hr. destruct (evm_stack_pop_ref_spec e (w :: ws) Hr) as (e' & E & R & F).
  exists e'. split; [done|]. split; [done|]. split; [done|]. intros c. by apply or_fail_ok.
Qed.
Lemma stack_rep_words e ws : stack_rep e ws -> Forall word_ok ws.
Proof. by intros (_ & _ & _ & _ & Hf). Qed.
Lemma stack_rep_len e ws : stack_rep e ws -> zlen ws <= EVM_STACK_LIMIT.
Proof. by intros (_ & _ & _ & Hf & _). Qed.

(** A number below 2^256 fits a word once its leading zeros are gone. *)
Lemma optimize_word r : bytes_ok r -> r <> [] -> be_val r < 2 ^ 256 -> word_ok (optimize_len r) /\ optimize_len r <> [].
Proof.
  intros Hr Hne Hv. split; [|auto with in3]. split; [auto with in3|]. apply optimize_len_minimal; [done|lia|done].
Qed.
Lemma word_is_optimize r v : word_is r v -> word_ok (optimize_len r) /\ word_is (optimize_len r) v.
Proof.
  intros (W1 & W2 & W3). pose proof (optimize_len_length r). pose proof (optimize_len_ok r W1).
  split; (split; [done|]); [lia|]. split; [lia|]. by rewrite optimize_len_val.
Qed.
Lemma word_lt a : evm_word a -> 0 <= be_val a < 2 ^ 256.
Proof.
  intros (Ha & _ & Hl). split; [by apply be_val_pos|]. change (2 ^ 256) with (256 ^ Z.of_nat 32). by apply be_val_lt_pow.
Qed.

(** ** Arithmetic *)
(** The yellow paper's result, on 256 bit words. *)
Definition math_value (op : math_op) (a b : Z) : Z :=
  match op with
  | MATH_ADD => (a + b) mod 2 ^ 256
  | MATH_SUB => (a - b) mod 2 ^ 256
  | MATH_MUL => (a * b) mod 2 ^ 256
  | MATH_DIV => a / b
  | MATH_SDIV => if b =? 0 then 0 else Z.quot (to_signed a) (to_signed b) mod 2 ^ 256
  | MATH_MOD => if b =? 0 then 0 else a mod b
  | MATH_SMOD => if b =? 0 then 0 else Z.rem (to_signed a) (to_signed b) mod 2 ^ 256
  | MATH_EXP => a ^ b mod 2 ^ 256
  end.

(** The number of significant bytes. *)
Fixpoint sig_bytes (b : list Z) : Z := match b with [] => 0 | x :: t => if x =? 0 then sig_bytes t else zlen b end.
Lemma big_log256_sig n : n <> 0 -> forall b l, zlen b = l -> l <= 255 -> big_log256 (b ++ [n]) l = Some (sig_bytes b).
Proof.
  intros Hn b. induction b as [|x t IH]; intros l Hl Hb; cbn [app big_log256 sig_bytes].
  - rewrite (proj2 (Z.eqb_neq n 0)) by done. by subst l.
  - cbn [length] in Hl. destruct (x =? 0); [|by subst l]. apply IH; rewrite u8_small; unfold is_byte; lia.
Qed.
Lemma sig_bytes_range b : 0 <= sig_bytes b <= zlen b.
Proof. induction b as [|x t IH]; cbn [sig_bytes length]; [lia|]. destruct (x =? 0); lia. Qed.

Definition exp_gas (e : evm_t) (b : list Z) : Z := (if has_prop e EVM_PROP_FRONTIER then FRONTIER_G_EXPBYTE else G_EXPBYTE) * sig_bytes b.

Lemma math_value_range op a b : 0 <= a < 2 ^ 256 -> 0 <= b < 2 ^ 256 -> 0 <= math_value op a b < 2 ^ 256.
Proof.
  intros Ha Hb. destruct op; cbn [math_value]; try (apply Z.mod_pos_bound; lia);
    try (destruct (b =? 0) eqn:E; [lia|apply Z.mod_pos_bound; lia]).
  - destruct (Z.eq_dec b 0) as [->|]; [rewrite Z.div_0_r; lia|]. pose proof (div_le a b). lia.
  - destruct (b =? 0) eqn:E; [lia|]. apply Z.eqb_neq in E. pose proof (Z.mod_pos_bound a b). lia.
Qed.

(** The result bytes of each operation; for EXP the gas is charged. *)
Lemma math_result_spec op a b e : evm_word a -> evm_word b ->
  (op = MATH_SDIV \/ op = MATH_SMOD -> sign_visible a = true /\ sign_visible b = true) ->
  (op = MATH_EXP -> exp_gas e b <= gas e) ->
  exists r e', math_result op false a b e = Ok r e' /\ word_is r (math_value op (be_val a) (be_val b)) /\
    (e' = if decide (op = MATH_EXP) then set_gas (gas e - exp_gas e b) e else e).
Proof.
  intros Ha Hb Hs Hg. pose proof Ha as (A1 & A2 & A3). pose proof Hb as (B1 & B2 & B3).
  destruct op; cbn [math_result math_value]; try (destruct (decide _) as [|_]; [done|]).
  - eexists _, e. split; [done|]. split; [|done]. destruct (big_add_spec a b 32 A1 B1) as (X1 & X2 & X3); [lia|]. done.
  - eexists _, e. split; [done|]. split; [|done]. by apply big_sub_spec.
  - eexists _, e. split; [done|]. split; [|done]. destruct (big_mul_spec a b 32 A1 B1 A2 B2) as (X1 & X2 & X3); [lia|lia|]. done.
  - destruct (big_div_spec a b A1 B1 A2 B2) as (q & -> & X1 & X2 & X3). exists q, e. split; [done|]. split; [|done].
    split; [done|]. split; [lia|done].
  - destruct (Hs (or_introl eq_refl)) as [V1 V2]. destruct (big_sdiv_spec a b Ha Hb V1 V2) as (q & -> & X). by exists q, e.
  - destruct (big_mod_spec a b A1 B1 A2 B2) as (q & -> & X1 & X2 & X3). exists q, e. split; [done|]. split; [|done].
    split; [done|]. split; [lia|done].
  - destruct (Hs (or_intror eq_refl)) as [V1 V2]. destruct (big_smod_spec a b Ha Hb V1 V2) as (q & -> & X). by exists q, e.
  - destruct (decide _) as [_|]; [|done]. specialize (Hg eq_refl). unfold exp_gas in *.
    rewrite (big_log256_sig (zlen b)) by (destruct b; [done|cbn [length] in *; lia]).
    unfold mbind, M_bind, defined, mret, M_ret, gets, subgas. cbv beta iota.
    rewrite (proj2 (Z.ltb_ge _ _)) by done. eexists _, _. split; [done|]. split; [|done]. by apply big_exp_spec.
Qed.

(** The operations whose result is never the empty word, whatever the signs. *)
Definition plain_op (op : math_op) : bool :=
  match op with MATH_ADD | MATH_SUB | MATH_MUL | MATH_DIV | MATH_MOD => true | _ => false end.
Lemma math_result_nonempty op a b e r e' : plain_op op = true -> evm_word a -> evm_word b ->
  math_result op false a b e = Ok r e' -> r <> [].
Proof.
  intros Hp (A1 & A2 & A3) (B1 & B2 & B3). destruct op; cbn [plain_op math_result] in *; try done.
  - intros [= <- _]. by apply big_add_nonempty.
  - intros [= <- _]. apply big_sub_nonempty.
  - intros [= <- _]. apply big_mul_nonempty. lia.
  - destruct (big_div a b false) eqn:E; [|done]. intros [= <- _]. by apply (big_div_nonempty a b).
  - destruct (big_mod a b false) eqn:E; [|done]. intros [= <- _]. by apply (big_mod_nonempty a b).
Qed.

Lemma op_math_ok op a b ws e : stack_rep e (a :: b :: ws) -> evm_word a -> evm_word b ->
  (op = MATH_SDIV \/ op = MATH_SMOD -> sign_visible a = true /\ sign_visible b = true) ->
  (op = MATH_EXP -> exp_gas e b <= gas e) ->
  exists r e', op_math op false e = Ok tt e' /\ stack_rep e' (r :: ws) /\ word_is r (math_value op (be_val a) (be_val b)) /\
    r = optimize_len r /\ (plain_op op = true -> r <> []) /\ frame_sg e e' /\ gas e' = gas e - (if decide (op = MATH_EXP) then exp_gas e b else 0).
Proof.
  intros Hr Ha Hb Hs Hg. destruct (pop_ref_step e a _ Hr) as (e1 & R1 & F1 & _ & P1).
  destruct (pop_ref_step e1 b _ R1) as (e2 & R2 & F2 & _ & P2).
  assert (frame_stack e e2) as F by auto with in3.
  assert (gas e2 = gas e /\ exp_gas e2 b = exp_gas e b) as [G2 X2] by (destruct F as (? & ? & ->); destruct e; done).
  destruct (math_result_spec op a b e2 Ha Hb Hs) as (r & e3 & P3 & W & E3); [rewrite G2, X2; done|].
  destruct (word_is_optimize r _ W) as [Hok W'].
  assert (stack_rep e3 ws /\ frame_sg e e3 /\ gas e3 = gas e - (if decide (op = MATH_EXP) then exp_gas e b else 0)) as (R3 & F3 & G3).
  { subst e3. destruct (decide (op = MATH_EXP)).
    - rewrite stack_rep_set_gas, gas_set_gas, G2, X2. split; [done|]. split; [|done].
      destruct F as (bb & n & ->). exists bb, n, (gas e - exp_gas e b). split; [done|].
      unfold exp_gas. pose proof (sig_bytes_range b). destruct (has_prop e EVM_PROP_FRONTIER); unfold FRONTIER_G_EXPBYTE, G_EXPBYTE; lia.
    - split; [done|]. split; [by apply frame_sg_stack|]. rewrite G2. lia. }
  destruct (evm_stack_push_ok e3 ws (optimize_len r) R3 Hok) as (e4 & P4 & R4 & F4);
    [pose proof (stack_rep_len _ _ Hr); cbn [length] in *; lia|].
  exists (optimize_len r), e4. unfold op_math. rewrite (bind_ok _ _ _ _ _ (P1 _)), (bind_ok _ _ _ _ _ (P2 _)), (bind_ok _ _ _ _ _ P3).
  split; [done|]. split; [done|]. split; [done|]. split; [by rewrite optimize_len_idem|].
  split; [intros Hp; apply optimize_len_nonempty; by apply (math_result_nonempty op a b e2 r e3)|].
  split; [eapply frame_sg_trans; [done|by apply frame_sg_stack]|]. destruct F4 as (? & ? & ->). by rewrite gas_set_stack.
Qed.

(** C19. ADD, SUB, MUL, DIV, SDIV, MOD, SMOD and EXP replace the two topmost words by the result
    the EVM specifies, without leading zeros; EXP charges its price per significant byte of the
    exponent, nothing else but the stack changes.  (For the signed operations under the condition
    of [sign_visible].) *)
Theorem op_math_spec op a b ws e : stack_rep e (a :: b :: ws) -> evm_word a -> evm_word b ->
  (op = MATH_SDIV \/ op = MATH_SMOD -> sign_visible a = true /\ sign_visible b = true) ->
  (op = MATH_EXP -> exp_gas e b <= gas e) ->
  exists r e', op_math op false e = Ok tt e' /\ stack_rep e' (r :: ws) /\ word_is r (math_value op (be_val a) (be_val b)) /\
    r = optimize_len r /\ frame_sg e e' /\ gas e' = gas e - (if decide (op = MATH_EXP) then exp_gas e b else 0).
Proof.
  intros Hr Ha Hb Hs Hg. destruct (op_math_ok op a b ws e Hr Ha Hb Hs Hg) as (r & e' & E & R & W & O & _ & F & G). by exists r, e'.
Qed.

Lemma op_modmath_ok (mul : bool) a b m ws e : stack_rep e (a :: b :: m :: ws) -> evm_word a -> evm_word b -> evm_word m ->
  exists r e', op_math (if mul then MATH_MUL else MATH_ADD) true e = Ok tt e' /\ stack_rep e' (r :: ws) /\ frame_stack e e' /\ r <> [] /\
    word_is r (if be_val m =? 0 then 0 else (if mul then be_val a * be_val b else be_val a + be_val b) mod be_val m).
Proof.
  intros Hr Ha Hb Hm. destruct (pop_ref_step e a _ Hr) as (e1 & R1 & F1 & _ & P1).
  destruct (pop_ref_step e1 b _ R1) as (e2 & R2 & F2 & _ & P2). destruct (pop_ref_step e2 m _ R2) as (e3 & R3 & F3 & P3 & _).
  pose proof (word_lt a Ha) as La. pose proof (word_lt b Hb) as Lb. pose proof (word_lt m Hm) as Lm.
  destruct Ha as (A1 & A2 & A3). destruct Hb as (B1 & B2 & B3). destruct Hm as (M1 & M2 & M3).
  set (t := if mul then be_val a * be_val b else be_val a + be_val b).
  assert (exists x, math_result (if mul then MATH_MUL else MATH_ADD) true a b e2 = Ok x e2 /\ bytes_ok x /\ be_val x = t /\ x <> []) as (x & Px & X1 & X2 & X3).
  { destruct mul; cbn [math_result].
    - destruct (big_mul_spec a b 65 A1 B1 A2 B2) as (X1 & X2 & X3); [lia|lia|]. eexists. split; [done|]. split; [done|].
      rewrite X3. split; [apply Z.mod_small; change (256 ^ Z.of_nat 65) with (2 ^ 520); nia|].
      apply big_mul_nonempty. lia.
    - destruct (big_add_spec a b 64 A1 B1) as (X1 & X2 & X3); [lia|]. eexists. split; [done|]. split; [done|].
      rewrite X3. split; [apply Z.mod_small; change (256 ^ Z.of_nat 64) with (2 ^ 512); lia|].
      by apply big_add_nonempty. }
  destruct (big_mod_spec (optimize_len x) m) as (r & Pr & Y1 & Y2 & Y3); [auto with in3|done|auto with in3|done|].
  rewrite optimize_len_val, X2 in Y3.
  assert (word_is (optimize_len r) (if be_val m =? 0 then 0 else t mod be_val m)) as W.
  { split; [auto with in3|]. rewrite optimize_len_val. split; [|done]. apply optimize_len_minimal; [done|lia|].
    change (256 ^ Z.of_nat 32) with (2 ^ 256). rewrite Y3. destruct (Z.eqb_spec (be_val m) 0); [lia|].
    pose proof (Z.mod_pos_bound t (be_val m)). lia. }
  destruct (evm_stack_push_ok e3 ws (optimize_len r) R3) as (e4 & P4 & R4 & F4); [split; apply W|pose proof (stack_rep_len _ _ Hr); cbn [length] in *; lia|].
  exists (optimize_len r), e4. unfold op_math.
  rewrite (bind_ok _ _ _ _ _ (P1 _)), (bind_ok _ _ _ _ _ (P2 _)), (bind_ok _ _ _ _ _ Px), (bind_ok _ _ _ _ _ P3).
  rewrite Pr. split; [done|]. split; [done|].
  split; [eapply frame_stack_trans; [done|]; eapply frame_stack_trans; [done|]; by eapply frame_stack_trans|].
  split; [|done]. apply optimize_len_nonempty, (big_mod_nonempty (optimize_len x) m); auto with in3.
Qed.
(** ADDMOD and MULMOD compute the sum and the product of two words without losing the bits
    above 2^256 before they reduce modulo the third word, and give 0 for a zero modulus. *)
Theorem op_modmath_spec (mul : bool) a b m ws e : stack_rep e (a :: b :: m :: ws) -> evm_word a -> evm_word b -> evm_word m ->
  exists r e', op_math (if mul then MATH_MUL else MATH_ADD) true e = Ok tt e' /\ stack_rep e' (r :: ws) /\ frame_stack e e' /\
    word_is r (if be_val m =? 0 then 0 else (if mul then be_val a * be_val b else be_val a + be_val b) mod be_val m).
Proof.
  intros Hr Ha Hb Hm. destruct (op_modmath_ok mul a b m ws e Hr Ha Hb Hm) as (r & e' & E & R & F & _ & W). by exists r, e'.
Qed.
End Ops.

Section Logic.
Context `{Allocator}.

(** ** Comparison *)
(** Push the truth value after popping two words. *)
Lemma bool_word (r : bool) : word_ok [if r then 1 else 0] /\ be_val [if r then 1 else 0] = if r then 1 else 0.
Proof. split; [destruct r; decide_now|apply be_val_single]. Qed.

Lemma push_after_two e a b ws e' w : stack_rep e (a :: b :: ws) -> stack_rep e' ws -> word_ok w ->
  exists e'', evm_stack_push w e' = Ok tt e'' /\ stack_rep e'' (w :: ws) /\ frame_stack e' e''.
Proof. intros Hr Hr' Hw. apply evm_stack_push_ok; [done|done|]. pose proof (stack_rep_len _ _ Hr). cbn [length] in *. lia. Qed.

(** [big_signed] looks at the first byte of the operand as it was pushed. *)
Definition raw_sign_visible (a : list Z) : bool := (length a =? 32)%nat || (rd a 0 <? 128).
Definition word_value (sig : bool) (a : list Z) : Z := if sig then to_signed (be_val a) else be_val a.

Lemma big_signed_word a : evm_word a -> raw_sign_visible a = true ->
  exists s m, big_signed a a = (s, m) /\ bytes_ok m /\ s = (if to_signed (be_val a) <? 0 then 1 else 0) /\
    be_val m = Z.abs (to_signed (be_val a)).
Proof.
  intros (A1 & A2 & A3) Hv. destruct (big_signed_spec a 0 A1 A2 ltac:(lia)) as (s & m & E & M1 & _ & _ & M4 & M5).
  - apply orb_prop in Hv as [Hv|Hv]; [left; apply Nat.eqb_eq in Hv; lia|right; by apply Z.ltb_lt in Hv].
  - change (256 ^ Z.of_nat 0) with 1 in *. replace (be_val a * 1) with (be_val a) in M4, M5 by lia. rewrite Z.mul_1_r in M5. by exists s, m.
Qed.

(** What [op_cmp] makes of signs and absolute values. *)
Lemma cmp_sign_cases (lt : bool) x y :
  let r := if lt then Z.abs x <? Z.abs y else Z.abs y <? Z.abs x in
  (if (x <? 0) && (y <? 0) then negb r else if (x <? 0) || (y <? 0) then (if lt then x <? 0 else y <? 0) else r)
  = (if lt then x <? y else y <? x) || ((x <? 0) && (x =? y)).
Proof.
  destruct lt; cbv zeta; destruct (Z.ltb_spec x 0), (Z.ltb_spec y 0); cbn [andb orb negb]; rewrite ?orb_false_r;
    repeat match goal with |- context [?a <? ?b] => destruct (Z.ltb_spec a b) | |- context [?a =? ?b] => destruct (Z.eqb_spec a b) end;
    cbn [andb orb negb]; try lia; done.
Qed.

Lemma op_cmp_ok (lt sig : bool) a b ws e : stack_rep e (a :: b :: ws) -> evm_word a -> evm_word b ->
  (sig = true -> raw_sign_visible a = true /\ raw_sign_visible b = true) ->
  let x := word_value sig a in
  let y := word_value sig b in
  (exists e', op_cmp (if lt then -1 else 1) sig e = Ok tt e' /\ frame_stack e e' /\
     stack_rep e' ([if (if lt then x <? y else y <? x) || (sig && (x <? 0) && (x =? y)) then 1 else 0] :: ws)) /\
  (exists e', op_cmp 0 false e = Ok tt e' /\ frame_stack e e' /\
     stack_rep e' ([if be_val a =? be_val b then 1 else 0] :: ws)).
Proof.
  intros Hr Ha Hb Hs x y. destruct (pop_ref_step e a _ Hr) as (e1 & R1 & F1 & _ & P1).
  destruct (pop_ref_step e1 b _ R1) as (e2 & R2 & F2 & _ & P2). pose proof Ha as (A1 & _). pose proof Hb as (B1 & _).
  pose proof (big_cmp_spec a b A1 B1) as Cu. split.
  - set (res := _ || _).
    destruct (push_after_two e a b ws e2 [if res then 1 else 0] Hr R2) as (e3 & P3 & R3 & F3); [apply bool_word|].
    exists e3. split; [|split; [eapply frame_stack_trans; [done|]; by eapply frame_stack_trans|done]].
    unfold op_cmp. rewrite (bind_ok _ _ _ _ _ (P1 _)), (bind_ok _ _ _ _ _ (P2 _)). rewrite <- P3. subst res x y. unfold word_value.
    destruct sig.
    + destruct (Hs eq_refl) as [Va Vb]. destruct (big_signed_word a Ha Va) as (sa & ma & -> & M1 & -> & M3).
      destruct (big_signed_word b Hb Vb) as (sb & mb & -> & N1 & -> & N3).
      destruct (big_cmp_spec ma mb M1 N1) as (C1 & C2 & C3). rewrite M3, N3 in *. rewrite andb_true_l, <- cmp_sign_cases. cbv zeta.
      set (X := to_signed (be_val a)) in *. set (Y := to_signed (be_val b)) in *.
      assert ((big_cmp ma mb <? 0) = (Z.abs X <? Z.abs Y)) as E1 by (apply eq_true_iff_eq; rewrite !Z.ltb_lt; done).
      assert ((0 <? big_cmp ma mb) = (Z.abs Y <? Z.abs X)) as E2 by (apply eq_true_iff_eq; rewrite !Z.ltb_lt; done).
      destruct lt, (X <? 0), (Y <? 0); cbn [Z.eqb Pos.eqb andb negb orb Z.ltb Z.compare]; rewrite ?E1, ?E2; done.
    + cbn [andb]. rewrite orb_false_r. destruct lt; cbn [Z.eqb Pos.eqb].
      * f_equal. assert ((big_cmp a b <? 0) = (be_val a <? be_val b)) as -> by (apply eq_true_iff_eq; rewrite !Z.ltb_lt; tauto). done.
      * f_equal. assert ((0 <? big_cmp a b) = (be_val b <? be_val a)) as -> by (apply eq_true_iff_eq; rewrite !Z.ltb_lt; tauto). done.
  - destruct (push_after_two e a b ws e2 [if be_val a =? be_val b then 1 else 0] Hr R2) as (e3 & P3 & R3 & F3); [apply bool_word|].
    exists e3. split; [|split; [eapply frame_stack_trans; [done|]; by eapply frame_stack_trans|done]].
    unfold op_cmp. rewrite (bind_ok _ _ _ _ _ (P1 _)), (bind_ok _ _ _ _ _ (P2 _)). rewrite <- P3. cbn [Z.eqb Pos.eqb andb].
    assert ((big_cmp a b =? 0) = (be_val a =? be_val b)) as -> by (apply eq_true_iff_eq; rewrite !Z.eqb_eq; tauto). done.
Qed.
(** LT, GT, SLT and SGT push 1 exactly when the comparison of the (two's complement) values
    holds - or when both operands are the same negative number, for which the code, against the
    specification, finds it smaller and greater than itself; EQ compares by value. *)
Theorem op_cmp_spec (lt sig : bool) a b ws e : stack_rep e (a :: b :: ws) -> evm_word a -> evm_word b ->
  (sig = true -> raw_sign_visible a = true /\ raw_sign_visible b = true) ->
  let x := word_value sig a in
  let y := word_value sig b in
  (exists e', op_cmp (if lt then -1 else 1) sig e = Ok tt e' /\ frame_stack e e' /\
     stack_rep e' ([if (if lt then x <? y else y <? x) || (sig && (x <? 0) && (x =? y)) then 1 else 0] :: ws)) /\
  (exists e', op_cmp 0 false e = Ok tt e' /\ frame_stack e e' /\
     stack_rep e' ([if be_val a =? be_val b then 1 else 0] :: ws)).
Proof. apply op_cmp_ok. Qed.

(** ** Bitwise operations *)
Lemma bit_byte_byte op x y : is_byte x -> is_byte y -> is_byte (bit_byte op x y).
Proof.
  intros Hx Hy. unfold is_byte in *. destruct op; cbn [bit_byte]; [apply (land_bound 8)|apply (lor_bound 8)|apply (lxor_bound 8)]; lia.
Qed.
Definition bit_fun (op : bit_op) : bool -> bool -> bool := match op with OP_AND => andb | OP_OR => orb | OP_XOR => xorb end.
Lemma bit_byte_testbit op x y i : 0 <= i -> Z.testbit (bit_byte op x y) i = bit_fun op (Z.testbit x i) (Z.testbit y i).
Proof. intros. destruct op; cbn [bit_byte bit_fun]; [apply Z.land_spec|apply Z.lor_spec|apply Z.lxor_spec]. Qed.
(** The operations act on blocks of bits independently. *)
Lemma bit_byte_split op x y a b n : 0 <= n -> 0 <= a < 2 ^ n -> 0 <= b < 2 ^ n -> 0 <= bit_byte op a b < 2 ^ n ->
  bit_byte op (x * 2 ^ n + a) (y * 2 ^ n + b) = bit_byte op x y * 2 ^ n + bit_byte op a b.
Proof.
  intros Hn Ha Hb Hab. apply Z.bits_inj'. intros i Hi. rewrite bit_byte_testbit by done.
  rewrite <- !lor_mul_add, !Z.lor_spec, <- !Z.shiftl_mul_pow2, !Z.shiftl_spec by done.
  destruct (Z_lt_ge_dec i n) as [L|L].
  - rewrite !(Z.testbit_neg_r _ (i - n)) by lia. cbn [orb]. by rewrite bit_byte_testbit.
  - rewrite (testbit_small a n i), (testbit_small b n i), (testbit_small (bit_byte op a b) n i), !orb_false_r by lia.
    by rewrite bit_byte_testbit by lia.
Qed.
Lemma bit_byte_range op a b n : 0 <= n -> 0 <= a < 2 ^ n -> 0 <= b < 2 ^ n -> 0 <= bit_byte op a b < 2 ^ n.
Proof. intros. destruct op; cbn [bit_byte]; [by apply land_bound|by apply lor_bound|by apply lxor_bound]. Qed.
Lemma zip_bits_val op a : forall b, bytes_ok a -> bytes_ok b -> length a = length b ->
  be_val (zip_with (bit_byte op) a b) = bit_byte op (be_val a) (be_val b) /\ bytes_ok (zip_with (bit_byte op) a b) /\
  length (zip_with (bit_byte op) a b) = length a.
Proof.
  induction a as [|x a IH]; intros [|y b] Ha Hb Hl; cbn [length] in Hl; try lia.
  { split; [by destruct op|]. split; [constructor|done]. }
  inversion_clear Ha as [|? ? Hx Ha']. inversion_clear Hb as [|? ? Hy Hb']. destruct (IH b Ha' Hb' ltac:(lia)) as (I1 & I2 & I3).
  cbn [zip_with]. rewrite !be_val_cons, I1, I3. replace (length b) with (length a) by lia.
  pose proof (be_val_bound a Ha') as Ba. pose proof (be_val_bound b Hb') as Bb. replace (length b) with (length a) in Bb by lia.
  rewrite !pow256_pow2 in *. split; [|split; [constructor; [by apply bit_byte_byte|done]|cbn [length]; lia]].
  symmetry. apply bit_byte_split; [lia|done|done|]. by apply bit_byte_range; [lia|..].
Qed.

Lemma right_align_val n w : word_ok w -> (length w <= n)%nat ->
  bytes_ok (right_align n w) /\ length (right_align n w) = n /\ be_val (right_align n w) = be_val w.
Proof. intros Hw Hl. destruct (right_align_spec n w Hw) as (H1 & H2 & H3). auto. Qed.
Lemma right_align_zeros n w : (length w <= n)%nat -> right_align n w = replicate (n - length w) 0 ++ w.
Proof.
  intros Hl. unfold right_align. destruct (Nat.eqb_spec (length w) n) as [<-|]; [by rewrite Nat.sub_diag|].
  destruct (Nat.ltb_spec (length w) n); [done|lia].
Qed.
Lemma bit_zero_l op y : bit_byte op 0 y = match op with OP_AND => 0 | _ => y end.
Proof. destruct op; cbn [bit_byte]; [done|apply Z.lor_0_l|apply Z.lxor_0_l]. Qed.
Lemma bit_zero_r op x : bit_byte op x 0 = match op with OP_AND => 0 | _ => x end.
Proof. destruct op; cbn [bit_byte]; [apply Z.land_0_r|apply Z.lor_0_r|apply Z.lxor_0_r]. Qed.

Lemma op_bit_ok op a b ws e : stack_rep e (a :: b :: ws) ->
  exists r e', op_bit op e = Ok tt e' /\ stack_rep e' (r :: ws) /\ frame_stack e e' /\ word_is r (bit_byte op (be_val a) (be_val b)) /\ (a <> [] -> r <> []).
Proof.
  intros Hr. pose proof (stack_rep_words _ _ Hr) as Hw. inversion_clear Hw as [|? ? Wa Hw']. inversion_clear Hw' as [|? ? Wb _].
  destruct (pop_ref_step e a _ Hr) as (e1 & R1 & F1 & Q1 & P1). pose proof Wa as [A1 A2]. pose proof Wb as [B1 B2].
  destruct (pop_ref_step e1 b _ R1) as (e2 & R2 & F2 & _ & P2).
  set (l := length b). set (l1 := max (length a) l). set (res := right_align l1 a).
  destruct (right_align_val l1 a Wa ltac:(lia)) as (S1 & S2 & S3). fold res in S1, S2, S3.
  assert (length (drop (l1 - l) res) = length b) as Ld by (rewrite length_drop; lia).
  destruct (zip_bits_val op (drop (l1 - l) res) b (Forall_drop _ _ _ S1) B1 Ld) as (Z1 & Z2 & Z3).
  set (head := match op with OP_AND => replicate (l1 - l) 0 | _ => take (l1 - l) res end).
  assert (bytes_ok head /\ length head = (l1 - l)%nat /\ be_val head = bit_byte op (be_val (take (l1 - l) res)) 0) as (H1 & H2 & H3).
  { rewrite bit_zero_r. subst head. destruct op.
    - split; [by apply Forall_replicate|]. split; [apply length_replicate|apply be_val_replicate0].
    - split; [by apply Forall_take|]. split; [rewrite length_take; lia|done].
    - split; [by apply Forall_take|]. split; [rewrite length_take; lia|done]. }
  assert (word_is (head ++ zip_with (bit_byte op) (drop (l1 - l) res) b) (bit_byte op (be_val a) (be_val b))) as W.
  { split; [by apply Forall_app|]. split; [rewrite length_app; lia|]. rewrite be_val_app, Z3, Z1, H3, Ld.
    rewrite <- S3. destruct (be_val_split res (l1 - l) S1 ltac:(lia)) as (T1 & T2 & _). rewrite S2 in T1, T2.
    replace (l1 - (l1 - l))%nat with (length b) in T1, T2 by lia. rewrite T1.
    pose proof (be_val_bound b B1) as Bb. rewrite pow256_pow2 in *.
    replace (be_val b) with (0 * 2 ^ (8 * zlen b) + be_val b) at 2 by lia.
    rewrite bit_byte_split; [done|lia|done|done|]. apply bit_byte_range; [lia|done|done]. }
  destruct (word_is_optimize _ _ W) as [Ho Wo].
  destruct (push_after_two e a b ws e2 _ Hr R2 Ho) as (e3 & P3 & R3 & F3).
  eexists _, e3. unfold op_bit. rewrite (bind_ok _ _ _ _ _ Q1), (bind_ok _ _ _ _ _ (P2 _)).
  split; [exact P3|]. split; [done|]. split; [eapply frame_stack_trans; [done|]; by eapply frame_stack_trans|].
  split; [done|]. intros Na. apply optimize_len_nonempty, nonempty_length. rewrite length_app. destruct a; [done|]. cbn [length] in *. lia.
Qed.
Lemma op_not_ok a ws e : stack_rep e (a :: ws) ->
  exists r e', op_not e = Ok tt e' /\ stack_rep e' (r :: ws) /\ frame_stack e e' /\ word_is r (2 ^ 256 - 1 - be_val a) /\ r <> [].
Proof.
  intros Hr. pose proof (stack_rep_words _ _ Hr) as Hw. inversion_clear Hw as [|? ? Wa _].
  destruct (pop_ref_step e a _ Hr) as (e1 & R1 & F1 & Q1 & _). pose proof Wa as [A1 A2].
  destruct (right_align_val 32 a Wa A2) as (S1 & S2 & S3).
  assert (word_is (map (fun x => Z.lxor x 255) (right_align 32 a)) (2 ^ 256 - 1 - be_val a)) as W.
  { rewrite <- S3. replace (2 ^ 256) with (256 ^ zlen (right_align 32 a)) by by rewrite S2.
    split; [|split; [rewrite length_map; lia|]].
    - apply Forall_map. eapply Forall_impl; [exact S1|]. intros x Hx. cbn. rewrite lxor_255 by done. unfold is_byte in *. lia.
    - clear S3 S2. induction S1 as [|x t Hx Ht IH]; [done|]. cbn [map length]. rewrite !be_val_cons, IH, lxor_255, length_map, pow256_S by done. ring. }
  destruct (word_is_optimize _ _ W) as [Ho Wo].
  destruct (evm_stack_push_ok e1 ws _ R1 Ho) as (e3 & P3 & R3 & F3); [pose proof (stack_rep_len _ _ Hr); cbn [length] in *; lia|].
  eexists _, e3. unfold op_not. rewrite (bind_ok _ _ _ _ _ Q1). split; [exact P3|]. split; [done|]. split; [by eapply frame_stack_trans|].
  split; [done|]. apply optimize_len_nonempty, nonempty_length. rewrite length_map. lia.
Qed.
(** AND, OR and XOR of two words of any lengths are the bitwise operations on their values;
    NOT is the complement to 2^256 - 1. *)
Theorem op_bit_spec op a b ws e : stack_rep e (a :: b :: ws) ->
  (exists r e', op_bit op e = Ok tt e' /\ stack_rep e' (r :: ws) /\ frame_stack e e' /\ word_is r (bit_byte op (be_val a) (be_val b))) /\
  (exists r e', op_not e = Ok tt e' /\ stack_rep e' (r :: b :: ws) /\ frame_stack e e' /\ word_is r (2 ^ 256 - 1 - be_val a)).
Proof.
  intros Hr. destruct (op_bit_ok op a b ws e Hr) as (r & e' & E & R & F & W & _).
  destruct (op_not_ok a (b :: ws) e Hr) as (r' & e'' & E' & R' & F' & W' & _).
  split; [by exists r, e'|by exists r', e''].
Qed.
End Logic.

(** ** Shifts *)
Section Shifts.
Context `{Allocator}.

Lemma pop_byte_step e w ws : stack_rep e (w :: ws) -> w <> [] ->
  exists e', stack_rep e' ws /\ frame_stack e e' /\
    try evm_stack_pop_byte e = Ok (if be_val w <? 256 then inr (be_val w) else inl (-3)) e'.
Proof.
  intros Hr Hne. destruct (evm_stack_pop_byte_spec e (w :: ws) Hr) as (e' & R & F & E). exists e'. split; [done|]. split; [done|].
  unfold try. rewrite E. rewrite (proj2 (Nat.eqb_neq (length w) 0)) by (by destruct w). cbn [negb andb]. by destruct (be_val w <? 256).
Qed.

Lemma high_ones m : 0 <= m < 8 -> u8 (Z.shiftl (Z.shiftr 255 (8 - m)) (8 - m)) = (2 ^ m - 1) * 2 ^ (8 - m).
Proof.
  intros Hm. assert (m = 0 \/ m = 1 \/ m = 2 \/ m = 3 \/ m = 4 \/ m = 5 \/ m = 6 \/ m = 7) as Hc by lia.
  repeat (destruct Hc as [->|Hc]; [reflexivity|]). subst m. reflexivity.
Qed.
Lemma fill_sign_spec pos r : 0 <= pos < 256 -> bytes_ok r -> length r = 32%nat -> be_val r < 2 ^ (256 - pos) ->
  bytes_ok (fill_sign pos r) /\ length (fill_sign pos r) = 32%nat /\ be_val (fill_sign pos r) = be_val r + 2 ^ 256 - 2 ^ (256 - pos).
Proof.
  intros Hp Hr Hl Hv. unfold fill_sign. rewrite Z.shiftr_div_pow2 by lia. change (2 ^ 3) with 8.
  pose proof (Z.div_mod pos 8 ltac:(lia)) as Dm. pose proof (Z.mod_pos_bound pos 8 ltac:(lia)) as Bm.
  assert (0 <= pos / 8 < 32) as Bk by (split; [apply Z.div_pos; lia|apply Z.div_lt_upper_bound; lia]).
  rewrite high_ones by lia. set (m := pos mod 8) in *. set (k := Z.to_nat (pos / 8)).
  replace (pos / 8) with (Z.of_nat k) in Dm, Bk by (subst k; lia). clearbody k.
  destruct (lookup_lt_is_Some_2 r k) as [x Hx]; [lia|]. pose proof (take_drop_middle r k x Hx) as Er.
  set (h := take k r) in *. set (t := drop (S k) r) in *.
  assert (length h = k) as Lh by (subst h; rewrite length_take; lia). assert (length t = (31 - k)%nat) as Lt by (subst t; rewrite length_drop; lia).
  assert (drop k r = x :: t) as Dk by (subst t; by apply drop_S). rewrite Dk.
  clearbody h t. subst r. apply Forall_app in Hr as [Oh Or]. inversion_clear Or as [|? ? Ox Ot].
  rewrite be_val_app, be_val_cons in *. cbn [length] in *. rewrite Lt in *.
  pose proof (be_val_pos h Oh) as Ph. pose proof (be_val_bound t Ot) as Bt. rewrite Lt in Bt. unfold is_byte in Ox.
  pose proof (pow256_pos (31 - k)) as Pp. set (p := 256 ^ Z.of_nat (31 - k)) in *. rewrite pow256_S in *. fold p in Hv |- *.
  assert (2 ^ (256 - pos) = 2 ^ (8 - m) * p) as E2.
  { subst p. rewrite pow256_pow2, <- Z.pow_add_r by lia. f_equal. lia. }
  pose proof (Z.pow_pos_nonneg 2 (8 - m)). assert (2 ^ m * 2 ^ (8 - m) = 256) as E8 by (rewrite <- Z.pow_add_r by lia; by replace (m + (8 - m)) with 8 by lia).
  pose proof (Z.pow_pos_nonneg 2 m). assert (2 ^ (8 - m) <= 256) by nia.
  assert (be_val h = 0) as Hz by nia. assert (x < 2 ^ (8 - m)) as Hx' by nia.
  rewrite app_nth2, length_replicate, Nat.sub_diag by (rewrite length_replicate; lia). cbn [nth].
  rewrite insert_app_r_alt, length_replicate, Nat.sub_diag by (rewrite length_replicate; lia). cbn [insert list_insert].
  rewrite lor_add_mul by lia. set (y := (2 ^ m - 1) * 2 ^ (8 - m) + x).
  assert (y = 256 - 2 ^ (8 - m) + x) as Ey by (subst y; lia). clearbody y.
  split; [apply Forall_app; split; [by apply Forall_replicate|constructor; [unfold is_byte; lia|done]]|].
  split; [rewrite length_app, length_replicate; cbn [length]; lia|].
  rewrite be_val_app, be_val_replicate_ff, be_val_cons, Lt. cbn [length]. rewrite Lt, pow256_S. fold p. rewrite Hz, E2, Ey.
  assert (256 ^ Z.of_nat k * (256 * p) = 2 ^ 256) as EQ.
  { subst p. rewrite <- pow256_S, <- pow256_add. replace (k + S (31 - k))%nat with 32%nat by lia. done. }
  rewrite Z.mul_sub_distr_r, EQ. lia.
Qed.

(** The EVM's shifts. *)
Definition shift_value (left : Z) (v n : Z) : Z :=
  if left =? 1 then (v * 2 ^ n) mod 2 ^ 256
  else if left =? 0 then v / 2 ^ n
  else (to_signed v / 2 ^ n) mod 2 ^ 256.
Lemma shift_value_large left v n : 0 <= v < 2 ^ 256 -> 256 <= n ->
  shift_value left v n = if (left =? 1) || (left =? 0) || (v <? 2 ^ 255) then 0 else 2 ^ 256 - 1.
Proof.
  intros Hv Hn. pose proof (Z.pow_le_mono_r 2 256 n ltac:(lia) Hn) as Hp. unfold shift_value, to_signed.
  destruct (left =? 1); cbn [orb].
  - replace n with (n - 256 + 256) by lia. rewrite Z.pow_add_r, Z.mul_assoc, Z.mod_mul by lia. done.
  - destruct (left =? 0); cbn [orb]; [apply Z.div_small; lia|]. destruct (Z.ltb_spec v (2 ^ 255)).
    + rewrite Z.div_small by lia. done.
    + replace ((v - 2 ^ 256) / 2 ^ n) with (-1) by (apply Z.div_unique with (v - 2 ^ 256 + 2 ^ n); lia). done.
Qed.

Lemma op_shift_ok left n v ws e : left = 0 \/ left = 1 \/ left = 2 -> stack_rep e (n :: v :: ws) -> evm_word n -> evm_word v ->
  has_prop e EVM_PROP_CONSTANTINOPL = true ->
  exists r e', op_shift left e = Ok tt e' /\ stack_rep e' (r :: ws) /\ frame_stack e e' /\ word_is r (shift_value left (be_val v) (be_val n)) /\ r <> [].
Proof.
  intros Hleft Hr Hn Hv Hp. pose proof (word_lt n Hn) as Ln. pose proof (word_lt v Hv) as Lv. destruct Hn as (N1 & N2 & N3).
  pose proof Hv as (V1 & V2 & V3).
  destruct (pop_byte_step e n _ Hr N2) as (e1 & R1 & F1 & P1). destruct (pop_ref_step e1 v _ R1) as (e2 & R2 & F2 & _ & P2).
  assert (forall r, word_ok r -> exists e', evm_stack_push r e2 = Ok tt e' /\ stack_rep e' (r :: ws) /\ frame_stack e e') as Hpush.
  { intros r Ho. destruct (push_after_two e n v ws e2 r Hr R2 Ho) as (e3 & P3 & R3 & F3). exists e3. split; [done|]. split; [done|].
    eapply frame_stack_trans; [done|]. by eapply frame_stack_trans. }
  unfold op_shift. erewrite bind_ok by (unfold gets; rewrite Hp; reflexivity). cbn [negb]. rewrite (bind_ok _ _ _ _ _ P1).
  destruct (head_bound v V1 V2 V3) as [Hb1 Hb2].
  assert ((length v =? 32)%nat && negb (rd v 0 <? 128) = negb (be_val v <? 2 ^ 255)) as Hneg.
  { destruct (Nat.eqb_spec (length v) 32) as [E|E]; cbn [andb].
    - destruct (Z.ltb_spec (rd v 0) 128); symmetry; [rewrite (proj2 (Z.ltb_lt _ _)) by auto; done|].
      rewrite (proj2 (Z.ltb_ge _ _)) by auto. done.
    - symmetry. rewrite (proj2 (Z.ltb_lt _ _)); [done|]. pose proof (be_val_lt_pow v 31 V1 ltac:(lia)).
      change (256 ^ Z.of_nat 31) with (2 ^ 248) in *. lia. }
  destruct (Z.ltb_spec (be_val n) 256) as [L|L].
  - rewrite (bind_ok _ _ _ _ _ (P2 _)). rewrite land_128, <- andb_assoc, Hneg by auto with in3.
    destruct (right_align_val 32 v (conj V1 V3) V3) as (S1 & S2 & S3).
    destruct (big_shift_left_spec (right_align 32 v) (be_val n) S1 ltac:(lia)) as (SL1 & SL2 & SL3).
    destruct (big_shift_right_spec (right_align 32 v) (be_val n) S1 ltac:(lia)) as (SR1 & SR2 & SR3).
    rewrite S2, S3 in *. change (256 ^ Z.of_nat 32) with (2 ^ 256) in SL3. unfold shift_value, to_signed.
    assert (forall l : list Z, length l = 32%nat -> optimize_len l <> []) as Hnr by (intros l Hl; apply optimize_len_nonempty, nonempty_length; lia).
    pose proof (Hnr _ SL2) as NL. pose proof (Hnr _ SR2) as NR. pose proof (Z.pow_pos_nonneg 2 (be_val n)).
    destruct Hleft as [-> | [-> | -> ]]; cbn [Z.eqb Pos.eqb andb].
    + destruct (word_is_optimize (big_shift_right (right_align 32 v) (be_val n)) (be_val v / 2 ^ be_val n)) as [Ho W]; [split; [done|split; [lia|done]]|].
      destruct (Hpush _ Ho) as (e3 & P3 & R3 & F3). eexists _, e3. split; [exact P3|]. done.
    + destruct (word_is_optimize (big_shift_left (right_align 32 v) (be_val n)) ((be_val v * 2 ^ be_val n) mod 2 ^ 256)) as [Ho W]; [split; [done|split; [lia|done]]|].
      destruct (Hpush _ Ho) as (e3 & P3 & R3 & F3). eexists _, e3. split; [exact P3|]. done.
    + destruct (Z.ltb_spec (be_val v) (2 ^ 255)) as [Ls|Ls]; cbn [negb].
      * destruct (word_is_optimize (big_shift_right (right_align 32 v) (be_val n)) (be_val v / 2 ^ be_val n)) as [Ho W]; [split; [done|split; [lia|done]]|].
        destruct (Hpush _ Ho) as (e3 & P3 & R3 & F3). eexists _, e3. split; [exact P3|]. split; [done|]. split; [done|]. split; [|by apply Hnr].
        rewrite Z.mod_small; [done|]. pose proof (div_le (be_val v) (2 ^ be_val n)). lia.
      * assert (2 ^ 256 = 2 ^ (256 - be_val n) * 2 ^ be_val n) as Ep by (rewrite <- Z.pow_add_r by lia; f_equal; lia).
        pose proof (Z.pow_pos_nonneg 2 (256 - be_val n)).
        destruct (fill_sign_spec (be_val n) (big_shift_right (right_align 32 v) (be_val n))) as (X1 & X2 & X3);
          [lia|done|done|rewrite SR3; apply Z.div_lt_upper_bound; lia|].
        destruct (Hpush (fill_sign (be_val n) (big_shift_right (right_align 32 v) (be_val n)))) as (e3 & P3 & R3 & F3); [split; [done|lia]|].
        eexists _, e3. split; [exact P3|]. split; [done|]. split; [done|]. split; [|apply nonempty_length; lia]. split; [done|]. split; [lia|]. rewrite X3, SR3.
        replace (be_val v - 2 ^ 256) with (be_val v + - 2 ^ (256 - be_val n) * 2 ^ be_val n) by lia. rewrite Z.div_add by lia.
        assert (0 <= be_val v / 2 ^ be_val n < 2 ^ (256 - be_val n)) by (split; [apply Z.div_pos; lia|apply Z.div_lt_upper_bound; lia]).
        assert (2 ^ (256 - be_val n) <= 2 ^ 256) by nia.
        apply Z.mod_unique with (-1); lia.
  - cbn [Z.eqb Pos.eqb EVM_ERROR_EMPTY_STACK]. rewrite (bind_ok _ _ _ _ _ (P2 _)). rewrite land_128, <- andb_assoc, Hneg by auto with in3.
    rewrite shift_value_large by lia.
    destruct ((left =? 2) && negb (be_val v <? 2 ^ 255)) eqn:E.
    + apply andb_prop in E as [E1 E2]. apply Z.eqb_eq in E1. subst left. apply negb_true_iff in E2. rewrite E2. cbn [orb Z.eqb Pos.eqb].
      destruct (Hpush (replicate 32 255)) as (e3 & P3 & R3 & F3); [decide_now|]. eexists _, e3. split; [exact P3|]. split; [done|]. split; [done|]. split; [|done].
      split; [decide_now|]. split; [cbn; lia|reflexivity].
    + destruct (Hpush [0]) as (e3 & P3 & R3 & F3); [decide_now|]. eexists _, e3. split; [exact P3|]. split; [done|]. split; [done|].
      assert ((left =? 1) || (left =? 0) || (be_val v <? 2 ^ 255) = true) as ->.
      { destruct Hleft as [-> | [-> | -> ]]; [done|done|]. cbn [Z.eqb Pos.eqb andb orb] in *. by apply negb_false_iff in E. }
      split; [|done]. split; [decide_now|]. split; [cbn; lia|reflexivity].
Qed.
(** SHL, SHR and SAR (from Constantinople on) shift by any number of bits as the EVM specifies:
    multiplication modulo 2^256, division, and division of the two's complement value rounding
    down; distances of 256 and more give 0, or -1 for SAR of a negative word. *)
Theorem op_shift_spec left n v ws e : left = 0 \/ left = 1 \/ left = 2 -> stack_rep e (n :: v :: ws) -> evm_word n -> evm_word v ->
  has_prop e EVM_PROP_CONSTANTINOPL = true ->
  exists r e', op_shift left e = Ok tt e' /\ stack_rep e' (r :: ws) /\ frame_stack e e' /\ word_is r (shift_value left (be_val v) (be_val n)).
Proof.
  intros Hl Hr Hn Hv Hp. destruct (op_shift_ok left n v ws e Hl Hr Hn Hv Hp) as (r & e' & E & R & F & W & _). by exists r, e'.
Qed.
End Shifts.

(** ** Moving words on the stack *)
Section Moves.
Context `{Allocator}.

Lemma enc_app xs ys : enc (xs ++ ys) = enc ys ++ enc xs.
Proof. induction xs as [|x xs IH]; cbn [app enc]; [by rewrite app_nil_r|]. by rewrite IH, <- !app_assoc. Qed.

(** A write inside the content, given the parts in front of, at and behind the target. *)
Lemma stack_poke_rep e a m b x : bb_rep (stack e) (a ++ m ++ b) -> bb_data (stack e) <> None -> length x = length m ->
  exists e', stack_poke (zlen a) x e = Ok tt e' /\ bb_rep (stack e') (a ++ x ++ b) /\ bb_data (stack e') <> None /\
    stack_size e' = stack_size e /\ frame_stack e e'.
Proof.
  intros Hr Hd Hx. unfold stack_poke. destruct (bb_data (stack e)) as [d|] eqn:Ed; [|done]. cbn [mbind option_bind].
  destruct (bb_rep_write _ _ _ _ _ x Hr Ed Hx) as (d' & E' & R'). rewrite Nat2Z.id, E'. cbn [mbind option_bind].
  eexists. split; [done|]. rewrite stack_set_stack, stack_size_set_stack. split; [done|]. split; [done|]. split; [done|auto with in3].
Qed.
Lemma stack_peek_rep e a m b : bb_rep (stack e) (a ++ m ++ b) -> bb_data (stack e) <> None ->
  stack_peek (zlen a) (zlen m) e = Ok m e.
Proof.
  intros Hr Hd. unfold stack_peek. destruct (bb_data (stack e)) as [d|] eqn:Ed; [|done]. cbn [mbind option_bind].
  by rewrite !Nat2Z.id, (bb_rep_read _ _ _ _ _ Hr Ed).
Qed.
Lemma split_at (l : list Z) n : (n <= length l)%nat -> exists x y, l = x ++ y /\ length x = n /\ length y = (length l - n)%nat.
Proof. intros Hn. exists (take n l), (drop n l). rewrite take_drop, length_take, length_drop. split; [done|]. lia. Qed.

(** The [memmove] of the entries between the two. *)
Lemma swap_memmove e pos X W S Q Mid T : bb_rep (stack e) (X ++ W ++ S) -> bb_data (stack e) <> None ->
  X ++ W ++ S = Q ++ Mid ++ T -> length W = length Mid -> (Mid = [] \/ 2 < pos) ->
  exists e', (if 2 <? pos then m ← stack_peek (zlen Q) (zlen Mid); stack_poke (zlen X) m else mret tt) e = Ok tt e' /\
    bb_rep (stack e') (X ++ Mid ++ S) /\ bb_data (stack e') <> None /\ stack_size e' = stack_size e /\ frame_stack e e'.
Proof.
  intros Hr Hd Hc Hl Hm. destruct (Z.ltb_spec 2 pos) as [L|L].
  - rewrite (bind_ok _ _ _ Mid e); [by apply (stack_poke_rep e X W S)|]. apply (stack_peek_rep e Q Mid T); [by rewrite <- Hc|done].
  - destruct Hm as [->|]; [|lia]. destruct W; [|done]. exists e. split; [done|]. split; [done|]. split; [done|]. split; [done|auto with in3].
Qed.

(** The byte moves of [op_swap]: from [R B l2 Mid A l1] to [R A l1 Mid B l2]. *)
Lemma swap_up e pos R A' B' Mid : bb_rep (stack e) (R ++ B' ++ Mid ++ A') -> bb_data (stack e) <> None ->
  (Mid = [] \/ 2 < pos) -> (length A' < length B')%nat ->
  exists e', (_ ← stack_poke (zlen R) A';
    _ ← (if 2 <? pos then m ← stack_peek (zlen (R ++ B')) (zlen Mid); stack_poke (zlen (R ++ A')) m else mret tt);
    stack_poke (zlen (R ++ A' ++ Mid)) B') e = Ok tt e' /\
    bb_rep (stack e') (R ++ A' ++ Mid ++ B') /\ bb_data (stack e') <> None /\ stack_size e' = stack_size e /\ frame_stack e e'.
Proof.
  intros Hr Hd Hm Hl. destruct (split_at B' (length A')) as (X & Y & EB & LX & LY); [lia|].
  destruct (stack_poke_rep e R X (Y ++ Mid ++ A') A') as (e1 & P1 & R1 & D1 & S1 & F1); [by rewrite EB, <- !app_assoc in Hr|done|done|].
  rewrite (bind_ok _ _ _ _ _ P1).
  destruct (split_at (Y ++ Mid) (length Mid)) as (W & V & EW & LW & LV); [rewrite length_app; lia|].
  destruct (swap_memmove e1 pos (R ++ A') W (V ++ A') (R ++ A' ++ Y) Mid A') as (e2 & P2 & R2 & D2 & S2 & F2); [|done| |done|done|].
  { rewrite (app_assoc W), <- EW, <- !app_assoc. done. }
  { rewrite (app_assoc W), <- EW, <- !app_assoc. done. }
  replace (zlen (R ++ B')) with (zlen (R ++ A' ++ Y)) by (rewrite EB, !length_app; lia). rewrite (bind_ok _ _ _ _ _ P2).
  destruct (stack_poke_rep e2 (R ++ A' ++ Mid) (V ++ A') [] B') as (e3 & P3 & R3 & D3 & S3 & F3); [|done| |].
  { rewrite app_nil_r, <- !app_assoc in *. done. }
  { rewrite length_app in *. rewrite EB, length_app. lia. }
  exists e3. split; [done|]. rewrite app_nil_r, <- !app_assoc in R3. split; [done|]. split; [done|]. split; [lia|].
  eapply frame_stack_trans; [done|]. by eapply frame_stack_trans.
Qed.
Lemma swap_down e pos R A' B' Mid : bb_rep (stack e) (R ++ B' ++ Mid ++ A') -> bb_data (stack e) <> None ->
  (Mid = [] \/ 2 < pos) -> (length B' < length A')%nat ->
  exists e', (_ ← stack_poke (zlen (R ++ A' ++ Mid)) B';
    _ ← (if 2 <? pos then m ← stack_peek (zlen (R ++ B')) (zlen Mid); stack_poke (zlen (R ++ A')) m else mret tt);
    stack_poke (zlen R) A') e = Ok tt e' /\
    bb_rep (stack e') (R ++ A' ++ Mid ++ B') /\ bb_data (stack e') <> None /\ stack_size e' = stack_size e /\ frame_stack e e'.
Proof.
  intros Hr Hd Hm Hl. destruct (split_at A' (length A' - length B')) as (X & Y & EA & LX & LY); [lia|].
  destruct (stack_poke_rep e (R ++ B' ++ Mid ++ X) Y [] B') as (e1 & P1 & R1 & D1 & S1 & F1); [|done|lia|].
  { rewrite app_nil_r, <- !app_assoc, <- EA. done. }
  replace (zlen (R ++ A' ++ Mid)) with (zlen (R ++ B' ++ Mid ++ X)) by (rewrite !length_app; lia). rewrite (bind_ok _ _ _ _ _ P1).
  rewrite app_nil_r in R1.
  destruct (split_at (B' ++ Mid ++ X) (length A')) as (V & W & EW & LV & LW); [rewrite !length_app; lia|]. rewrite !length_app in LW.
  destruct (swap_memmove e1 pos (R ++ V) W B' (R ++ B') Mid (X ++ B')) as (e2 & P2 & R2 & D2 & S2 & F2); [|done| |lia|done|].
  { rewrite <- app_assoc, (app_assoc V), <- EW, <- !app_assoc in *. done. }
  { rewrite <- (app_assoc R V), (app_assoc V), <- EW, <- !app_assoc. done. }
  replace (zlen (R ++ A')) with (zlen (R ++ V)) by (rewrite !length_app; lia). rewrite (bind_ok _ _ _ _ _ P2).
  destruct (stack_poke_rep e2 R V (Mid ++ B') A') as (e3 & P3 & R3 & D3 & S3 & F3); [by rewrite <- app_assoc in R2|done|done|].
  exists e3. split; [done|]. split; [done|]. split; [done|]. split; [lia|].
  eapply frame_stack_trans; [done|]. by eapply frame_stack_trans.
Qed.

Lemma op_dup_swap_ok ws e pos : stack_rep e ws -> 1 <= pos ->
  (if zlen ws <? pos then op_dup pos e = Err EVM_ERROR_EMPTY_STACK e
   else if zlen ws =? EVM_STACK_LIMIT then op_dup pos e = Err EVM_ERROR_STACK_LIMIT e
   else exists e', op_dup pos e = Ok tt e' /\ stack_rep e' (nth (Z.to_nat pos - 1) ws [] :: ws) /\ frame_stack e e') /\
  (forall a mid b rest, ws = a :: mid ++ b :: rest -> pos = zlen mid + 2 ->
   exists e', op_swap pos e = Ok tt e' /\ stack_rep e' (b :: mid ++ a :: rest) /\ frame_stack e e').
Proof.
  intros Hr Hp. split.
  - pose proof (evm_stack_get_ref_spec e ws pos Hr ltac:(lia)) as Hg. rewrite (proj2 (Z.leb_le 1 pos)) in Hg by lia. cbn [andb] in Hg.
    unfold op_dup. destruct (Z.ltb_spec (zlen ws) pos) as [L|L].
    + rewrite (proj2 (Z.leb_gt pos (zlen ws))) in Hg by lia. by rewrite (bind_err _ _ _ _ _ Hg).
    + rewrite (proj2 (Z.leb_le pos (zlen ws))) in Hg by lia. rewrite (bind_ok _ _ _ _ _ Hg).
      destruct (Z.eqb_spec (zlen ws) EVM_STACK_LIMIT) as [E|E].
      * destruct Hr as (_ & _ & R3 & _). unfold evm_stack_push. by rewrite R3, E.
      * assert (word_ok (nth (Z.to_nat pos - 1) ws [])) as Hw.
        { destruct (lookup_lt_is_Some_2 ws (Z.to_nat pos - 1)) as [x Hx]; [lia|]. rewrite nth_lookup, Hx.
          by eapply (Forall_lookup_1 word_ok), Hx; apply (stack_rep_words e). }
        apply evm_stack_push_ok; [done|done|]. pose proof (stack_rep_len _ _ Hr). lia.
  - intros a mid b rest -> ->. pose proof Hr as (R1 & R2 & R3 & R4 & R5).
    pose proof (evm_stack_get_ref_spec e _ 1 Hr ltac:(lia)) as G1. pose proof (evm_stack_get_ref_spec e _ (zlen mid + 2) Hr ltac:(lia)) as G2.
    cbn [length] in G1, G2. rewrite length_app in G1, G2. cbn [length] in G1, G2.
    rewrite !(proj2 (Z.leb_le _ _)) in G1 by lia. rewrite !(proj2 (Z.leb_le _ _)) in G2 by lia. cbn [andb] in G1, G2.
    change (Z.to_nat 1) with 1%nat in G1. cbn [drop Nat.sub nth] in G1.
    replace (Z.to_nat (zlen mid + 2)) with (S (S (length mid))) in G2 by lia. cbn [Nat.sub drop nth] in G2.
    rewrite drop_0 in G1. replace (S (length mid)) with (length mid + 1)%nat in G2 by lia.
    rewrite <- drop_drop, drop_app_length in G2. cbn [drop] in G2. rewrite drop_0 in G2.
    replace (nth (length mid) (mid ++ b :: rest) []) with b in G2 by (rewrite app_nth2, Nat.sub_diag by lia; done).
    unfold op_swap. rewrite (bind_ok _ _ _ _ _ G1). cbn [fst snd]. rewrite (bind_ok _ _ _ _ _ G2).
    cbn [enc] in R1. rewrite enc_app in R1. cbn [enc] in R1. rewrite <- !app_assoc in R1.
    assert (enc (mid ++ b :: rest) = enc rest ++ (b ++ [zlen b]) ++ enc mid) as Em by (rewrite enc_app; cbn [enc]; by rewrite <- !app_assoc).
    rewrite Em.
    assert (Hfin : forall e', bb_rep (stack e') (enc rest ++ (a ++ [zlen a]) ++ enc mid ++ b ++ [zlen b]) -> bb_data (stack e') <> None ->
      stack_size e' = stack_size e -> stack_rep e' (b :: mid ++ a :: rest)).
    { intros e' X1 X2 X3. split; [cbn [enc]; rewrite enc_app; cbn [enc]; by rewrite <- !app_assoc in *|]. split; [done|].
      cbn [length] in *. rewrite length_app in *. cbn [length] in *. split; [lia|]. split; [lia|].
      inversion_clear R5 as [|? ? Wa Wr]. apply Forall_app in Wr as [Wm Wr]. inversion_clear Wr as [|? ? Wb Wr'].
      constructor; [done|]. apply Forall_app. split; [done|]. by constructor. }
    destruct (Z.eqb_spec (zlen a) (zlen b)) as [E|E].
    + destruct (stack_poke_rep e (enc rest ++ (b ++ [zlen b]) ++ enc mid) a [zlen a] b) as (e1 & P1 & X1 & D1 & S1 & F1);
        [by rewrite <- !app_assoc|done|lia|]. rewrite (bind_ok _ _ _ _ _ P1).
      destruct (stack_poke_rep e1 (enc rest) b ([zlen b] ++ enc mid ++ b ++ [zlen a]) a) as (e2 & P2 & X2 & D2 & S2 & F2);
        [by rewrite <- !app_assoc in X1|done|lia|]. exists e2. split; [done|]. split; [|by eapply frame_stack_trans].
      apply Hfin; [|done|lia]. rewrite E in *. rewrite <- !app_assoc in *. done.
    + assert (enc mid = [] \/ 2 < zlen mid + 2) as Hmid by (destruct mid; [by left|right; cbn [length]; lia]).
      set (A' := a ++ [zlen a]) in *. set (B' := b ++ [zlen b]) in *.
      assert (length A' = S (length a)) as LA by apply length_snoc. assert (length B' = S (length b)) as LB by apply length_snoc.
      replace (zlen (enc rest) + zlen b + 1) with (zlen (enc rest ++ B')) by (rewrite length_app; lia).
      replace (zlen (enc rest) + zlen a + 1) with (zlen (enc rest ++ A')) by (rewrite length_app; lia).
      replace (zlen (enc rest ++ B' ++ enc mid) - zlen (enc rest) - zlen b - 1) with (zlen (enc mid)) by (rewrite !length_app; lia).
      replace (zlen (enc rest ++ B' ++ enc mid) + zlen a - zlen b) with (zlen (enc rest ++ A' ++ enc mid)) by (rewrite !length_app; lia).
      rewrite (app_assoc b) in R1. fold B' A' in R1.
      destruct (Z.ltb_spec (zlen a) (zlen b)) as [L|L].
      * destruct (swap_up e (zlen mid + 2) (enc rest) A' B' (enc mid)) as (e' & P & X & D & S & F); [done|done|done|lia|].
        exists e'. split; [done|]. split; [by apply Hfin|done].
      * destruct (swap_down e (zlen mid + 2) (enc rest) A' B' (enc mid)) as (e' & P & X & D & S & F); [done|done|done|lia|].
        exists e'. split; [done|]. split; [by apply Hfin|done].
Qed.
(** DUP pushes a copy of the word at a depth; SWAP exchanges the top word with the one at a
    depth, also when their lengths differ and the words between them have to be moved; both report
    a stack that is too small. *)
Theorem op_dup_swap_spec ws e pos : stack_rep e ws -> 1 <= pos ->
  (if zlen ws <? pos then op_dup pos e = Err EVM_ERROR_EMPTY_STACK e
   else if zlen ws =? EVM_STACK_LIMIT then op_dup pos e = Err EVM_ERROR_STACK_LIMIT e
   else exists e', op_dup pos e = Ok tt e' /\ stack_rep e' (nth (Z.to_nat pos - 1) ws [] :: ws) /\ frame_stack e e') /\
  (forall a mid b rest, ws = a :: mid ++ b :: rest -> pos = zlen mid + 2 ->
   exists e', op_swap pos e = Ok tt e' /\ stack_rep e' (b :: mid ++ a :: rest) /\ frame_stack e e').
Proof. apply op_dup_swap_ok. Qed.
End Moves.

(** ** Jumps *)
(** The instructions of a program, independent of [op_jump]: one starts at 0 and one behind every
    instruction and its push data. *)
Definition push_len (op : Z) : nat := if (0x60 <=? op) && (op <=? 0x7F) then Z.to_nat (op - 0x5F) else 0.
Inductive instr_start (c : list Z) : nat -> Prop :=
  | start_0 : instr_start c 0
  | start_next i : instr_start c i -> (i < length c)%nat -> instr_start c (i + 1 + push_len (nth i c 0)).

(** The push data left in front of byte [i]. *)
Fixpoint data_left (c : list Z) (i : nat) : Z :=
  match i with
  | O => 0
  | S i' => let jl := data_left c i' in if negb (jl =? 0) then jl - 1 else Z.of_nat (push_len (nth i' c 0))
  end.
Lemma data_left_nonneg c i : 0 <= data_left c i.
Proof. induction i as [|i IH]; cbn [data_left]; [lia|]. bool_cases. Qed.

Lemma invalid_dests_spec c : forall n i p, (i + n = length c)%nat ->
  In p (invalid_dests (drop i c) (Z.of_nat i) (data_left c i)) <->
  Z.of_nat i <= p < zlen c /\ nth (Z.to_nat p) c 0 = 0x5B /\ data_left c (Z.to_nat p) <> 0.
Proof.
  intros n. induction n as [|n IH]; intros i p Hn.
  { rewrite drop_ge by lia. cbn [invalid_dests In]. lia. }
  destruct (lookup_lt_is_Some_2 c i) as [x Hx]; [lia|]. rewrite (drop_S _ _ _ Hx). cbn [invalid_dests].
  assert (nth i c 0 = x) as Nx by (by rewrite nth_lookup, Hx). specialize (IH (S i) p ltac:(lia)).
  replace (Z.of_nat (S i)) with (Z.of_nat i + 1) in IH by lia. cbn [data_left] in IH. rewrite Nx in IH. unfold push_len in IH.
  assert (Hp : Z.of_nat i <= p < zlen c <-> p = Z.of_nat i \/ Z.of_nat i + 1 <= p < zlen c) by lia.
  destruct (Z.eqb_spec (data_left c i) 0) as [E|E]; cbn [negb] in *.
  - assert (In p (if (96 <=? x) && (x <=? 127) then invalid_dests (drop (S i) c) (Z.of_nat i + 1) (x - 95)
      else invalid_dests (drop (S i) c) (Z.of_nat i + 1) 0) <-> Z.of_nat i + 1 <= p < zlen c /\ nth (Z.to_nat p) c 0 = 91 /\ data_left c (Z.to_nat p) <> 0) as ->.
    { destruct (Z.leb_spec 96 x), (Z.leb_spec x 127); cbn [andb] in *; try exact IH.
      replace (Z.of_nat (Z.to_nat (x - 95))) with (x - 95) in IH by lia. exact IH. }
    split; [intros (H1 & H2); split; [lia|done]|]. intros ([->|H1]%Hp & H2 & H3); [|done]. rewrite Nat2Z.id in H3. done.
  - rewrite in_app_iff, IH. split.
    + intros [Hi|(H1 & H2)]; [|split; [lia|done]]. destruct (Z.eqb_spec x 91) as [->|]; cbn [In] in Hi; [|done]. destruct Hi as [<-|[]].
      rewrite Nat2Z.id. split; [lia|done].
    + intros ([->|H1]%Hp & H2 & H3); [|by right]. left. rewrite Nat2Z.id, Nx in H2. rewrite H2. cbn. by left.
Qed.

(** Every position lies in an instruction that starts at or before it. *)
Lemma data_left_start c i : (i <= length c)%nat -> exists s, instr_start c s /\ (s <= i)%nat /\
  data_left c i = (if (s =? i)%nat then 0 else Z.of_nat (s + 1 + push_len (nth s c 0)) - Z.of_nat i) /\
  (s = i \/ (i < s + 1 + push_len (nth s c 0%Z))%nat).
Proof.
  induction i as [|i IH]; intros Hi; [exists 0%nat; split; [constructor|]; split; [lia|]; by split; [|left]|].
  destruct (IH ltac:(lia)) as (s & Hs & Hle & Hd & Hc). cbn [data_left]. rewrite Hd.
  destruct (Nat.eqb_spec s i) as [->|Hne].
  - cbn [Z.eqb negb]. destruct (push_len (nth i c 0)) as [|k] eqn:Ek.
    + exists (i + 1 + push_len (nth i c 0%Z))%nat. split; [constructor; [done|lia]|]. rewrite Ek.
      destruct (Nat.eqb_spec (i + 1 + 0) (S i)); [|lia]. split; [lia|]. split; [done|left; lia].
    + exists i. destruct (Nat.eqb_spec i (S i)); [lia|]. rewrite Ek. split; [done|]. split; [lia|]. split; [lia|right; lia].
  - destruct Hc as [|Hc]; [done|]. destruct (Z.eqb_spec (Z.of_nat (s + 1 + push_len (nth s c 0)) - Z.of_nat i) 0); [lia|]. cbn [negb].
    destruct (Nat.eq_dec (S i) (s + 1 + push_len (nth s c 0))) as [E|E].
    + exists (S i). rewrite Nat.eqb_refl. split; [rewrite E; constructor; [done|lia]|]. split; [lia|]. split; [lia|by left].
    + exists s. destruct (Nat.eqb_spec s (S i)); [lia|]. split; [done|]. split; [lia|]. split; [lia|right; lia].
Qed.
Lemma data_left_run c s k : data_left c s = 0 -> (k <= push_len (nth s c 0%Z))%nat ->
  data_left c (s + 1 + k) = Z.of_nat (push_len (nth s c 0)) - Z.of_nat k.
Proof.
  intros H0. induction k as [|k IH]; intros Hk.
  - replace (s + 1 + 0)%nat with (S s) by lia. cbn [data_left]. rewrite H0. cbn [Z.eqb negb]. lia.
  - replace (s + 1 + S k)%nat with (S (s + 1 + k)) by lia. cbn [data_left]. rewrite IH by lia.
    destruct (Z.eqb_spec (Z.of_nat (push_len (nth s c 0)) - Z.of_nat k) 0); [lia|]. cbn [negb]. lia.
Qed.
Lemma instr_start_data c i : instr_start c i -> data_left c i = 0.
Proof. induction 1 as [|i Hi IH Hl]; [done|]. rewrite data_left_run by (done || lia). lia. Qed.
(** The bytes that are no push data are the instruction starts. *)
Lemma data_left_0 c i : (i < length c)%nat -> data_left c i = 0 <-> instr_start c i.
Proof.
  intros Hi. split; [|apply instr_start_data]. intros H0. destruct (data_left_start c i ltac:(lia)) as (s & Hs & _ & Hd & Hc).
  destruct (Nat.eqb_spec s i) as [->|]; [done|]. rewrite H0 in Hd. lia.
Qed.

Section Jump.
Context `{Allocator}.

Lemma b_byte_in c p : 0 <= p < zlen c -> b_byte (bytes c) p = Some (nth (Z.to_nat p) c 0).
Proof.
  intros Hp. unfold b_byte, b_slice. cbn [b_data bytes Z.eqb]. rewrite (proj2 (Z.ltb_ge p 0)) by lia. cbn [orb Z.ltb Z.compare mbind option_bind].
  change (Z.to_nat 1) with 1%nat. unfold read_at. rewrite (proj2 (Nat.leb_le _ _)) by lia.
  destruct (lookup_lt_is_Some_2 c (Z.to_nat p)) as [x Hx]; [lia|]. by rewrite (drop_S _ _ _ Hx), nth_lookup, Hx.
Qed.
Lemma b_byte_past c p : zlen c <= p -> b_byte (bytes c) p = None.
Proof.
  intros Hp. unfold b_byte, b_slice. cbn [b_data bytes Z.eqb]. rewrite (proj2 (Z.ltb_ge p 0)) by lia. cbn [orb Z.ltb Z.compare mbind option_bind].
  unfold read_at. rewrite (proj2 (Nat.leb_gt _ _)) by lia. done.
Qed.
Lemma load_invalid_spec e c : code e = bytes c ->
  (invalid_jumpdest e = None \/ invalid_jumpdest e = Some (invalid_dests c 0 0)) ->
  exists e', load_invalid_jumpdest (bytes c) e = Ok (invalid_dests c 0 0) e' /\
    (e' = e \/ e' = set_invalid_jumpdest (Some (invalid_dests c 0 0)) e).
Proof.
  intros Hc Hi. unfold load_invalid_jumpdest, gets, mbind, M_bind. destruct Hi as [-> | ->]; [|exists e; auto].
  assert (b_slice (bytes c) 0 (b_len (bytes c)) = Some c) as ->.
  { unfold b_slice. cbn [b_len b_data bytes]. destruct (Z.eqb_spec (zlen c) 0) as [Ez|Ez]; [by destruct c|].
    rewrite (proj2 (Z.ltb_ge (zlen c) 0)) by lia. cbn [orb Z.ltb Z.compare mbind option_bind]. by rewrite Nat2Z.id, read_at_all. }
  eexists. split; [reflexivity|]. by right.
Qed.

(** The byte at [dest] is a JUMPDEST at which an instruction starts. *)
Definition jump_target (c : list Z) (dest : Z) : Prop :=
  dest < zlen c /\ nth (Z.to_nat dest) c 0 = 0x5B /\ instr_start c (Z.to_nat dest).
(** Only the list of invalid destinations may have been filled in. *)
Definition frame_jump (c : list Z) (e e' : evm_t) : Prop := e' = e \/ e' = set_invalid_jumpdest (Some (invalid_dests c 0 0)) e.

Lemma jump_to_ok e dest c : code e = bytes c -> 0 <= dest ->
  (invalid_jumpdest e = None \/ invalid_jumpdest e = Some (invalid_dests c 0 0)) ->
  (jump_target c dest -> exists e', jump_to dest e = Ok tt (set_pos dest e') /\ frame_jump c e e') /\
  (dest <> zlen c -> ~ jump_target c dest -> exists e', jump_to dest e = Err EVM_ERROR_INVALID_JUMPDEST e' /\ frame_jump c e e') /\
  (dest = zlen c -> jump_to dest e = Undef).
Proof.
  intros Hc Hd Hi. unfold jump_target.
  pose proof (invalid_dests_spec c (length c) 0 dest eq_refl) as Hin. rewrite drop_0 in Hin. change (Z.of_nat 0) with 0 in Hin. cbn [data_left] in Hin.
  unfold jump_to. rewrite (bind_ok _ _ _ (bytes c) e) by (unfold gets; by rewrite Hc). cbn [b_len bytes].
  destruct (Z.ltb_spec (zlen c) dest) as [L|L].
  { split; [lia|]. split; [|lia]. intros. exists e. split; [done|by left]. }
  destruct (Z.eq_dec dest (zlen c)) as [E|E].
  { split; [lia|]. split; [done|]. intros _. rewrite b_byte_past by lia. done. }
  rewrite b_byte_in by lia. rewrite (bind_ok (defined _) _ e (nth (Z.to_nat dest) c 0) e) by done.
  destruct (Z.eqb_spec (nth (Z.to_nat dest) c 0) 91) as [Ex|Ex]; cbn [negb].
  2: { split; [tauto|]. split; [|done]. intros. exists e. split; [done|by left]. }
  destruct (load_invalid_spec e c Hc Hi) as (e2 & P2 & F2). rewrite (bind_ok _ _ _ _ _ P2).
  assert (existsb (Z.eqb dest) (invalid_dests c 0 0) = true <-> data_left c (Z.to_nat dest) <> 0) as Hex.
  { rewrite existsb_exists. split.
    - intros (x & Hx & <-%Z.eqb_eq). apply Hin in Hx. tauto.
    - intros Hn. exists dest. split; [apply Hin; split; [lia|done]|apply Z.eqb_refl]. }
  pose proof (data_left_0 c (Z.to_nat dest) ltac:(lia)) as H0.
  destruct (existsb (Z.eqb dest) (invalid_dests c 0 0)).
  - split; [|split; [intros; by exists e2|done]]. intros (_ & _ & Hs). apply H0 in Hs. by apply Hex in Hs.
  - split; [intros _; by exists e2|]. split; [|done]. intros _ []. split; [lia|]. split; [done|].
    apply H0. destruct (Z.eq_dec (data_left c (Z.to_nat dest)) 0); [done|]. by apply Hex in n.
Qed.
Lemma frame_jump_keeps c e e' ws : frame_jump c e e' -> stack_rep e ws -> stack_rep e' ws /\ pos e' = pos e /\ gas e' = gas e.
Proof. intros [-> | ->]; [done|by destruct e]. Qed.

(** JUMP reaches exactly the JUMPDEST bytes at which an instruction starts, never one inside
    push data, and reports every other destination; only for a destination right behind the code
    the check is off by one and reads past its end. *)
Theorem op_jump_spec e w ws c : stack_rep e (w :: ws) -> w <> [] -> code e = bytes c ->
  (invalid_jumpdest e = None \/ invalid_jumpdest e = Some (invalid_dests c 0 0)) ->
  let dest := int_of_word w in
  (jump_target c dest ->
   exists e', op_jump false e = Ok tt e' /\ pos e' = dest /\ stack_rep e' ws) /\
  (dest <> zlen c -> ~ jump_target c dest ->
   exists e', op_jump false e = Err EVM_ERROR_INVALID_JUMPDEST e' /\ pos e' = pos e) /\
  (dest = zlen c -> op_jump false e = Undef).
Proof.
  intros Hr Hne Hc Hi dest. pose proof (stack_rep_words _ _ Hr) as Hw. inversion_clear Hw as [|? ? [W1 W2] _].
  destruct (evm_stack_pop_int_spec e (w :: ws) Hr) as (e1 & P1 & R1 & F1). fold dest in P1.
  pose proof (int_of_word_range w W1) as Hd. fold dest in Hd.
  assert (code e1 = bytes c /\ pos e1 = pos e /\ invalid_jumpdest e1 = invalid_jumpdest e) as (C1 & Q1 & I1)
    by (destruct F1 as (? & ? & ->); destruct e; done).
  destruct (jump_to_ok e1 dest c C1 ltac:(lia) ltac:(by rewrite I1)) as (J1 & J2 & J3).
  unfold op_jump. rewrite (bind_ok _ _ _ _ _ P1). split; [|split; [|done]].
  - intros Ht. destruct (J1 Ht) as (e2 & -> & F2). destruct (frame_jump_keeps c e1 e2 ws F2 R1) as (R2 & _).
    eexists. split; [done|]. by destruct e2.
  - intros Hn Ht. destruct (J2 Hn Ht) as (e2 & -> & F2). destruct (frame_jump_keeps c e1 e2 ws F2 R1) as (_ & Q2 & _).
    exists e2. split; [done|]. by rewrite Q2.
Qed.
End Jump.

(** ** Sign extension and single bytes in memory *)
Section Bytes.
Context `{Allocator}.

(** SIGNEXTEND k keeps the low k+1 bytes of the operand and copies their top bit into the rest
    of the word, provided the operand was pushed with at least k+1 bytes; for a shorter one (a
    small number pushed without leading zeros) the code reads in front of its buffer. *)
Theorem op_signextend_spec e k v ws : stack_rep e (k :: v :: ws) -> k <> [] -> be_val k < 32 ->
  let n := be_val k + 1 in
  let low := be_val v mod 256 ^ n in
  (n <= zlen v ->
   exists r e', op_signextend e = Ok tt e' /\ stack_rep e' (r :: ws) /\ frame_stack e e' /\
     word_is r (if low <? 2 ^ (8 * n - 1) then low else low + 2 ^ 256 - 256 ^ n)) /\
  (zlen v < n -> op_signextend e = Undef).
Proof.
  intros Hr Hk Hlt n low. pose proof (stack_rep_words _ _ Hr) as Hw. inversion_clear Hw as [|? ? [K1 K2] Hw']. inversion_clear Hw' as [|? ? [V1 V2] _].
  destruct (evm_stack_pop_int_spec e _ Hr) as (e1 & P1 & R1 & F1). destruct (pop_ref_step e1 v _ R1) as (e2 & R2 & F2 & P2 & _).
  pose proof (be_val_pos k K1) as Kp. assert (int_of_word k = be_val k) as Ek by (unfold int_of_word; bool_cases).
  unfold op_signextend. rewrite (bind_ok _ _ _ _ _ P1), Ek. rewrite (proj2 (Z.ltb_ge 31 (be_val k))), (bind_ok _ _ _ _ _ P2) by lia.
  replace (zlen v - be_val k - 1) with (zlen v - n) by (subst n; lia). split.
  - intros Hn. rewrite (proj2 (Z.ltb_ge (zlen v - n) 0)), (proj2 (Z.ltb_lt (be_val k) (zlen v))) by (subst n; lia). cbn [andb].
    set (m := Z.to_nat n). assert (Z.of_nat m = n) as Em by (subst m; lia). replace (Z.to_nat (zlen v - n)) with (length v - m)%nat by lia.
    replace (Z.to_nat (be_val k + 1)) with m by (subst m n; lia). replace (Z.to_nat (31 - be_val k)) with (32 - m)%nat by (subst m n; lia).
    set (t := drop (length v - m) v). assert (length t = m) as Lt by (subst t; rewrite length_drop; lia). rewrite take_ge by lia.
    assert (be_val t = low) as Et by (subst t low; rewrite <- Em; apply be_val_drop; [done|lia]).
    assert (bytes_ok t) as Ot by (subst t; by apply Forall_drop).
    assert (rd v (zlen v - n) = rd t 0) as Erd.
    { unfold rd. rewrite (proj2 (Z.ltb_ge (zlen v - n) 0)) by lia. cbn [Z.ltb Z.compare]. change (Z.to_nat 0) with 0%nat.
      replace (Z.to_nat (zlen v - n)) with (length v - m)%nat by lia. subst t. rewrite !nth_lookup, lookup_drop. do 2 f_equal. lia. }
    rewrite Erd, land_128 by auto with in3. clearbody t. assert (256 ^ n = 256 ^ zlen t) as E256 by (by rewrite Lt, Em).
    assert ((rd t 0 <? 128) = (low <? 2 ^ (8 * n - 1))) as Hbit.
    { destruct t as [|b0 t']; [cbn [length] in Lt; lia|]. change (rd (b0 :: t') 0) with b0. inversion_clear Ot as [|? ? [X1 X2] Ot'].
      rewrite <- Et, be_val_cons. pose proof (be_val_bound t' Ot') as Bt. cbn [length] in Lt.
      replace (2 ^ (8 * n - 1)) with (128 * 256 ^ zlen t')
        by (rewrite pow256_pow2; change 128 with (2 ^ 7); rewrite <- Z.pow_add_r by lia; f_equal; lia).
      destruct (Z.ltb_spec b0 128), (Z.ltb_spec (b0 * 256 ^ zlen t' + be_val t') (128 * 256 ^ zlen t')); try done; nia. }
    rewrite Hbit. set (f := if negb (low <? 2 ^ (8 * n - 1)) then 255 else 0).
    assert (word_is (replicate (32 - m) f ++ t) (if low <? 2 ^ (8 * n - 1) then low else low + 2 ^ 256 - 256 ^ n)) as W.
    { split; [apply Forall_app; split; [apply Forall_replicate; subst f; by destruct (low <? _)|done]|].
      split; [rewrite length_app, length_replicate; lia|]. subst f. destruct (low <? 2 ^ (8 * n - 1)); cbn [negb].
      - by rewrite be_val_zeros.
      - rewrite be_val_app, be_val_replicate_ff, Et, E256, Z.mul_sub_distr_r, <- pow256_add. replace (32 - m + length t)%nat with 32%nat by lia.
        change (256 ^ Z.of_nat 32) with (2 ^ 256). lia. }
    destruct (word_is_optimize _ _ W) as [Ho Wo]. destruct (push_after_two e k v ws e2 _ Hr R2 Ho) as (e3 & P3 & R3 & F3).
    eexists _, e3. split; [exact P3|]. split; [done|]. split; [|done]. eapply frame_stack_trans; [done|]. by eapply frame_stack_trans.
  - intros Hn. rewrite (proj2 (Z.ltb_lt (zlen v - n) 0)) by lia. done.
Qed.

(** MSTORE8 stores the first byte of the operand as it was pushed (0 for the empty word), which
    is the least significant one only for operands of a single byte: PUSH2 0x1234 stores 0x12. *)
Theorem op_mstore8_spec e off w ws : stack_rep e (off :: w :: ws) -> mem_ok e -> mem_oog e (int_of_word off + 1) = false ->
  exists e', op_mstore 1 e = Ok tt e' /\ stack_rep e' ws /\ mem_ok e' /\
    forall i, mget e' i = if (i =? Z.to_nat (int_of_word off))%nat then nth 0 w 0 else mget e i.
Proof.
  intros Hr Hm Hg. pose proof (stack_rep_words _ _ Hr) as Hw. inversion_clear Hw as [|? ? [K1 K2] Hw']. inversion_clear Hw' as [|? ? [V1 V2] _].
  destruct (evm_stack_pop_int_spec e _ Hr) as (e1 & P1 & R1 & F1). destruct (pop_ref_step e1 w _ R1) as (e2 & R2 & F2 & P2 & _).
  pose proof (int_of_word_range off K1) as Ho. unfold MEM_LIMIT in Ho. set (o := int_of_word off) in *.
  unfold op_mstore. rewrite (bind_ok _ _ _ _ _ P1), (bind_ok _ _ _ _ _ P2). cbn [Z.eqb].
  assert (frame_stack e e2) as F by by eapply frame_stack_trans.
  assert (mem_ok e2 /\ mem_oog e2 (o + 1) = false /\ forall i, mget e2 i = mget e i) as (M2 & G2 & N2).
  { destruct F as (? & ? & ->). destruct e. done. }
  pose proof (evm_mem_write_spec e2 o (bytes w) 1 M2) as Hwr. rewrite G2 in Hwr.
  destruct Hwr as (e3 & P3 & M3 & F3 & N3); [split; [cbn; lia|split; [cbn; lia|done]]|lia|lia|lia|].
  exists e3. split; [done|]. split; [destruct F3 as (? & ? & -> & _); destruct e2; done|]. split; [done|].
  intros i. rewrite N3, N2. unfold b_content. cbn [b_data b_len bytes]. rewrite Nat2Z.id, firstn_all.
  replace (Z.to_nat (o + 1)) with (S (Z.to_nat o)) by lia.
  destruct (Nat.leb_spec (Z.to_nat o) i), (Nat.ltb_spec i (S (Z.to_nat o))), (Nat.eqb_spec i (Z.to_nat o)); cbn [andb]; try lia; try done.
  replace (i - Z.to_nat o)%nat with 0%nat by lia. done.
Qed.
End Bytes.

(** ** Concrete stacks *)
Definition evm_with (ws : list (list Z)) : evm_t :=
  set_gas 1000000 (set_stack (mk_bb (zlen (enc ws) + 1) (Some (enc ws ++ [0])) (zlen (enc ws)) true) (zlen ws) empty_evm).
Lemma evm_with_rep ws : Forall word_ok ws -> zlen ws <= EVM_STACK_LIMIT -> stack_rep (evm_with ws) ws.
Proof.
  intros Hw Hl. pose proof (enc_length ws Hw). unfold EVM_STACK_LIMIT in Hl. unfold evm_with. rewrite stack_rep_set_gas.
  split; [rewrite stack_set_stack|rewrite stack_set_stack, stack_size_set_stack; split; [done|split; [done|split; [done|done]]]].
  split; [done|]. cbn [bb_data bb_heap bb_bsize]. split; [done|]. rewrite length_app. cbn [length]. split; [lia|]. split; [lia|]. split; [lia|].
  by rewrite take_app_length.
Qed.
#[local] Ltac concrete := first [apply evm_with_rep; [decide_now|cbn; unfold EVM_STACK_LIMIT; lia] | decide_now | discriminate | reflexivity].

Lemma op_math_spec_witness :
  exists r e', op_math MATH_EXP false (evm_with [[3]; [1; 0]; [7]]) = Ok tt e' /\ stack_rep e' [r; [7]] /\
    word_is r (3 ^ 256 mod 2 ^ 256) /\ gas e' = 999900.
Proof.
  destruct (op_math_spec MATH_EXP [3] [1; 0] [[7]] (evm_with [[3]; [1; 0]; [7]])) as (r & e' & H1 & H2 & H3 & _ & _ & H6);
    [concrete|concrete|concrete|intros [H|H]; discriminate|intros _; concrete|].
  exists r, e'. split; [exact H1|]. split; [exact H2|]. split; [exact H3|]. rewrite H6. reflexivity.
Defined.
Lemma op_modmath_spec_witness :
  exists r e', op_math MATH_MUL true (evm_with [replicate 32 255; replicate 32 255; [97]]) = Ok tt e' /\ stack_rep e' [r] /\
    word_is r (((2 ^ 256 - 1) * (2 ^ 256 - 1)) mod 97).
Proof.
  destruct (op_modmath_spec true (replicate 32 255) (replicate 32 255) [97] [] (evm_with [replicate 32 255; replicate 32 255; [97]]))
    as (r & e' & H1 & H2 & _ & H4); [concrete|concrete|concrete|concrete|].
  exists r, e'. split; [exact H1|]. split; [exact H2|exact H4].
Defined.
Lemma op_cmp_spec_witness :
  exists e', op_cmp (-1) true (evm_with [replicate 32 255; replicate 32 255]) = Ok tt e' /\ stack_rep e' [[1]].
Proof.
  destruct (op_cmp_spec true true (replicate 32 255) (replicate 32 255) [] (evm_with [replicate 32 255; replicate 32 255]))
    as [(e' & H1 & _ & H3) _]; [concrete|concrete|concrete|intros _; split; reflexivity|].
  exists e'. split; [exact H1|exact H3].
Defined.
Lemma op_bit_spec_witness :
  exists r e', op_bit OP_AND (evm_with [[255; 15]; [51]]) = Ok tt e' /\ stack_rep e' [r] /\ word_is r 3.
Proof.
  destruct (op_bit_spec OP_AND [255; 15] [51] [] (evm_with [[255; 15]; [51]])) as [(r & e' & H1 & H2 & _ & H4) _]; [concrete|].
  exists r, e'. split; [exact H1|]. split; [exact H2|exact H4].
Defined.
Lemma op_shift_spec_witness :
  exists r e', op_shift 2 (evm_with [[9]; 255 :: replicate 31 0]) = Ok tt e' /\ stack_rep e' [r] /\ word_is r ((- 2 ^ 239) mod 2 ^ 256).
Proof.
  destruct (op_shift_spec 2 [9] (255 :: replicate 31 0) [] (evm_with [[9]; 255 :: replicate 31 0])) as (r & e' & H1 & H2 & _ & H4);
    [right; right; reflexivity|concrete|concrete|concrete|reflexivity|].
  exists r, e'. split; [exact H1|]. split; [exact H2|exact H4].
Defined.
Lemma op_dup_swap_spec_witness :
  exists e', op_swap 3 (evm_with [[1]; [2; 2]; [3; 3; 3]]) = Ok tt e' /\ stack_rep e' [[3; 3; 3]; [2; 2]; [1]].
Proof.
  destruct (op_dup_swap_spec [[1]; [2; 2]; [3; 3; 3]] (evm_with [[1]; [2; 2]; [3; 3; 3]]) 3) as [_ H]; [concrete|lia|].
  destruct (H [1] [[2; 2]] [3; 3; 3] [] eq_refl eq_refl) as (e' & H1 & H2 & _). exists e'. split; [exact H1|exact H2].
Defined.
Lemma op_jump_spec_witness :
  let e := set_code (bytes [0x60; 0x5B; 0x5B]) (evm_with [[2]]) in
  (exists e', op_jump false e = Ok tt e' /\ pos e' = 2) /\
  (exists e', op_jump false (set_code (bytes [0x60; 0x5B; 0x5B]) (evm_with [[1]])) = Err EVM_ERROR_INVALID_JUMPDEST e').
Proof.
  assert (forall w, stack_rep (evm_with [[w]]) [[w]] -> stack_rep (set_code (bytes [0x60; 0x5B; 0x5B]) (evm_with [[w]])) [[w]]) as Hc by (intros w; exact id).
  intros e. split.
  - destruct (op_jump_spec e [2] [] [0x60; 0x5B; 0x5B]) as [H _]; [apply Hc; concrete|concrete|reflexivity|left; reflexivity|].
    destruct H as (e' & H1 & H2 & _).
    + split; [reflexivity|]. split; [reflexivity|]. exact (start_next [0x60; 0x5B; 0x5B] 0 (start_0 _) ltac:(cbn; lia)).
    + exists e'. split; [exact H1|exact H2].
  - destruct (op_jump_spec (set_code (bytes [0x60; 0x5B; 0x5B]) (evm_with [[1]])) [1] [] [0x60; 0x5B; 0x5B]) as [_ [H _]];
      [apply Hc; concrete|concrete|reflexivity|left; reflexivity|].
    destruct H as (e' & H1 & _); [discriminate| |exists e'; exact H1].
    intros (_ & _ & Hs). apply instr_start_data in Hs. discriminate Hs.
Defined.
Lemma op_signextend_spec_witness :
  (exists r e', op_signextend (evm_with [[0]; [1; 128]]) = Ok tt e' /\ stack_rep e' [r] /\ word_is r (2 ^ 256 - 128)) /\
  op_signextend (evm_with [[1]; [5]]) = Undef.
Proof.
  split.
  - destruct (op_signextend_spec (evm_with [[0]; [1; 128]]) [0] [1; 128] []) as [H _]; [concrete|concrete|reflexivity|].
    destruct H as (r & e' & H1 & H2 & _ & H4); [cbn; lia|]. exists r, e'. split; [exact H1|]. split; [exact H2|exact H4].
  - destruct (op_signextend_spec (evm_with [[1]; [5]]) [1] [5] []) as [_ H]; [concrete|concrete|reflexivity|]. apply H. cbn. lia.
Defined.
Lemma op_mstore8_spec_witness :
  exists e', op_mstore 1 (evm_with [[4]; [0x12; 0x34]]) = Ok tt e' /\ mget e' 4 = 0x12.
Proof.
  destruct (op_mstore8_spec (evm_with [[4]; [0x12; 0x34]]) [4] [0x12; 0x34] []) as (e' & H1 & _ & _ & H4); [concrete| |reflexivity|].
  - exists (replicate 32 0). cbn. repeat split; try lia; decide_now.
  - exists e'. split; [exact H1|]. rewrite H4. reflexivity.
Defined.
