(* ===== verification/EvmMachine.v ===== *)
(** * A frame as an abstract machine

    The instructions that compute on the stack and the jumps form a machine of its own: a program
    counter, the gas left and a stack of numbers below 2^256, with the prices and results of the
    EVM's specification.  [evm_run] on bytes, buffers and digit loops behaves as this machine
    does, for every program made of these instructions, errors included. *)
From S2P Require Import Prelude Utils Bytes Big EvmState EvmStack EvmMem EvmAccounts Opcodes Precompiled Evm EvmOps.

(** ** The machine *)
Record mach := Mach { m_pc : Z; m_gas : Z; m_stack : list Z }.
(** [Unspecified]: an instruction outside the machine, or a jump right behind the code. *)
Inductive mres := Running (s : mach) | Halted (s : mach) | Faulted (code : Z) | Unspecified.

(** What an instruction does with the stack: an error or the new stack. *)
Definition stack_fun : Type := list Z -> Z + list Z.
Definition unary (f : Z -> Z) : stack_fun := fun vs =>
  match vs with a :: vs => inr (f a :: vs) | _ => inl EVM_ERROR_EMPTY_STACK end.
Definition binary (f : Z -> Z -> Z) : stack_fun := fun vs =>
  match vs with a :: b :: vs => inr (f a b :: vs) | _ => inl EVM_ERROR_EMPTY_STACK end.
Definition ternary (f : Z -> Z -> Z -> Z) : stack_fun := fun vs =>
  match vs with a :: b :: c :: vs => inr (f a b c :: vs) | _ => inl EVM_ERROR_EMPTY_STACK end.
Definition pushed (v : Z) : stack_fun := fun vs =>
  if zlen vs =? EVM_STACK_LIMIT then inl EVM_ERROR_STACK_LIMIT else inr (v :: vs).
Definition popped : stack_fun := fun vs => match vs with _ :: vs => inr vs | [] => inl EVM_ERROR_EMPTY_STACK end.
Definition dup (n : nat) : stack_fun := fun vs =>
  match vs !! (n - 1)%nat with Some v => pushed v vs | None => inl EVM_ERROR_EMPTY_STACK end.
Definition swap (n : nat) : stack_fun := fun vs =>
  match vs with
  | a :: t => match t !! (n - 1)%nat with Some b => inr (b :: <[(n - 1)%nat := a]> t) | None => inl EVM_ERROR_EMPTY_STACK end
  | [] => inl EVM_ERROR_EMPTY_STACK
  end.
Definition truth (b : bool) : Z := if b then 1 else 0.

(** Opcode, price and effect. *)
Definition alu_table (pc : Z) : list (Z * (Z * stack_fun)) :=
  [ (0x01, (3, binary (fun a b => (a + b) mod 2 ^ 256)));
    (0x02, (5, binary (fun a b => (a * b) mod 2 ^ 256)));
    (0x03, (3, binary (fun a b => (a - b) mod 2 ^ 256)));
    (0x04, (5, binary (fun a b => if b =? 0 then 0 else a / b)));
    (0x06, (5, binary (fun a b => if b =? 0 then 0 else a mod b)));
    (0x08, (8, ternary (fun a b m => if m =? 0 then 0 else (a + b) mod m)));
    (0x09, (8, ternary (fun a b m => if m =? 0 then 0 else (a * b) mod m)));
    (0x10, (3, binary (fun a b => truth (a <? b))));
    (0x11, (3, binary (fun a b => truth (b <? a))));
    (0x14, (3, binary (fun a b => truth (a =? b))));
    (0x15, (3, unary (fun a => truth (a =? 0))));
    (0x16, (3, binary Z.land));
    (0x17, (3, binary Z.lor));
    (0x18, (3, binary Z.lxor));
    (0x19, (3, unary (fun a => 2 ^ 256 - 1 - a)));
    (0x1a, (3, binary (fun i v => if i <? 32 then v / 256 ^ (31 - i) mod 256 else 0)));
    (0x1b, (3, binary (fun n v => (v * 2 ^ n) mod 2 ^ 256)));
    (0x1c, (3, binary (fun n v => v / 2 ^ n)));
    (0x50, (2, popped));
    (0x58, (2, pushed pc));
    (0x5b, (1, inr)) ].
Fixpoint assoc {A} (k : Z) (l : list (Z * A)) : option A :=
  match l with [] => None | (k', a) :: t => if k =? k' then Some a else assoc k t end.
Definition alu (pc op : Z) : option (Z * stack_fun) :=
  if (0x80 <=? op) && (op <=? 0x8F) then Some (3, dup (Z.to_nat (op - 0x7F)))
  else if (0x90 <=? op) && (op <=? 0x9F) then Some (3, swap (Z.to_nat (op - 0x8F)))
  else assoc op (alu_table pc).

#[global] Instance jump_target_dec c dest : Decision (jump_target c dest).
Proof.
  unfold jump_target. destruct (decide (nth (Z.to_nat dest) c 0 = 0x5B)) as [E|E]; [|right; tauto].
  destruct (decide (dest < zlen c)) as [L|L]; [|right; tauto].
  destruct (decide (data_left c (Z.to_nat dest) = 0)) as [D|D]; [left|right].
  all: assert (Z.to_nat dest < length c)%nat as Hl
    by (destruct (Nat.lt_ge_cases (Z.to_nat dest) (length c)); [done|rewrite nth_overflow in E by done; discriminate]).
  - apply data_left_0 in D; [|done]. tauto.
  - intros (_ & _ & Hs). apply data_left_0 in Hs; done.
Defined.

Definition goto (c : list Z) (dest g : Z) (vs : list Z) : mres :=
  if bool_decide (jump_target c dest) then Running (Mach dest g vs)
  else if dest =? zlen c then Unspecified else Faulted EVM_ERROR_INVALID_JUMPDEST.
(** Push data behind the end of the code reads as zeros; the code of the error differs there. *)
Definition push_value (c : list Z) (p n : nat) : Z := be_val (take n (drop p c ++ replicate n 0)).

Definition mstep (c : list Z) (s : mach) : mres :=
  let pc := m_pc s in
  let g := m_gas s in
  let vs := m_stack s in
  let op := nth (Z.to_nat pc) c 0 in
  if zlen c <=? pc then Halted s
  else if op =? 0x00 then Halted (Mach (pc + 1) g vs)
  else if (0x60 <=? op) && (op <=? 0x7F) then
    let n := op - 0x5F in
    if g <? 3 then Faulted EVM_ERROR_OUT_OF_GAS
    else if zlen vs =? EVM_STACK_LIMIT then
      Faulted (if zlen c <? pc + 1 + n then EVM_ERROR_STACK_LIMIT else EVM_ERROR_BUFFER_TOO_SMALL)
    else Running (Mach (pc + 1 + n) (g - 3) (push_value c (Z.to_nat (pc + 1)) (Z.to_nat n) :: vs))
  else if op =? 0x56 then
    if g <? 8 then Faulted EVM_ERROR_OUT_OF_GAS
    else match vs with d :: vs => goto c d (g - 8) vs | [] => Faulted EVM_ERROR_EMPTY_STACK end
  else if op =? 0x57 then
    if g <? 10 then Faulted EVM_ERROR_OUT_OF_GAS
    else match vs with
         | d :: b :: vs => if b =? 0 then Running (Mach (pc + 1) (g - 10) vs) else goto c d (g - 10) vs
         | _ => Faulted EVM_ERROR_EMPTY_STACK
         end
  else match alu pc op with
       | Some (price, f) =>
           if g <? price then Faulted EVM_ERROR_OUT_OF_GAS
           else match f vs with inl err => Faulted err | inr vs => Running (Mach (pc + 1) (g - price) vs) end
       | None => Unspecified
       end.
Fixpoint mrun (n : nat) (c : list Z) (s : mach) : mres :=
  match n with O => Running s | S n' => match mstep c s with Running s' => mrun n' c s' | r => r end end.

(** ** It stops before its gas is used up *)
Lemma assoc_In {A} k (l : list (Z * A)) a : assoc k l = Some a -> In (k, a) l.
Proof.
  induction l as [|[k' a'] t IH]; cbn [assoc In]; [done|]. destruct (Z.eqb_spec k k') as [->|]; [intros [= ->]; by left|auto].
Qed.
Lemma alu_price pc op price f : alu pc op = Some (price, f) -> 1 <= price.
Proof.
  unfold alu. destruct (_ && _); [intros [= <- _]; lia|]. destruct (_ && _); [intros [= <- _]; lia|].
  intros Ha%assoc_In. cbn [In alu_table] in Ha. repeat (destruct Ha as [[= _ <- _]|Ha]; [lia|]). done.
Qed.
Lemma goto_gas c dest g vs s : goto c dest g vs = Running s -> m_gas s = g.
Proof. unfold goto. destruct (bool_decide _); [by intros [= <-]|]. by destruct (_ =? _). Qed.
Lemma mstep_gas c s s' : mstep c s = Running s' -> 0 <= m_gas s' < m_gas s.
Proof.
  destruct s as [pc g vs]. unfold mstep. cbn [m_pc m_gas m_stack]. set (op := nth _ c 0).
  destruct (_ <=? pc); [done|]. destruct (op =? 0); [done|]. destruct (_ && _).
  { destruct (Z.ltb_spec g 3); [done|]. destruct (_ =? _); [done|]. intros [= <-]. cbn [m_gas]. lia. }
  destruct (op =? 86).
  { destruct (Z.ltb_spec g 8); [done|]. destruct vs; [done|]. intros ->%goto_gas. lia. }
  destruct (op =? 87).
  { destruct (Z.ltb_spec g 10); [done|]. destruct vs as [|d [|b vs]]; [done|done|].
    destruct (b =? 0); [intros [= <-]; cbn [m_gas]; lia|]. intros ->%goto_gas. lia. }
  destruct (alu pc op) as [[price f]|] eqn:Ea; [|done]. apply alu_price in Ea. destruct (Z.ltb_spec g price); [done|].
  destruct (f vs); [done|]. intros [= <-]. cbn [m_gas]. lia.
Qed.
Lemma mrun_ends n c : forall s s', 0 <= m_gas s < Z.of_nat n -> mrun n c s <> Running s'.
Proof.
  induction n as [|n IH]; intros s s' Hn; cbn [mrun]; [lia|]. destruct (mstep c s) as [s1| | |] eqn:E; [|done|done|done].
  apply mstep_gas in E. apply IH. lia.
Qed.

(** ** Frames and machine states *)
(** The stack buffer of [e] holds the numbers [vs], each in one to 32 bytes. *)
Definition holds (e : evm_t) (vs : list Z) : Prop := exists ws, stack_rep e ws /\ Forall evm_word ws /\ map be_val ws = vs.
Lemma holds_length e vs : holds e vs -> zlen vs <= EVM_STACK_LIMIT.
Proof. intros (ws & R & _ & <-). rewrite length_map. by eapply stack_rep_len. Qed.
Lemma evm_word_ok w : evm_word w -> word_ok w.
Proof. intros (H1 & _ & H3). by split. Qed.
Lemma word_is_evm r v : word_is r v -> r <> [] -> evm_word r /\ be_val r = v.
Proof. intros (W1 & W2 & W3) Hne. done. Qed.

Section Refine.
Context `{Allocator} `{MpInt} `{Keccak} `{EvmEnv} `{PreCrypto}.

(** The operation [m], run behind the fetch of the instruction at [pc], does [f] to the stack. *)
Definition implements (pc : Z) (m : M evm_t unit) (f : stack_fun) : Prop :=
  forall e vs, holds e vs -> has_prop e EVM_PROP_CONSTANTINOPL = true -> pos e = pc + 1 -> 0 <= pc < MEM_LIMIT ->
  match f vs with
  | inr vs' => exists e', m e = Ok tt e' /\ holds e' vs' /\ frame_stack e e'
  | inl c => exists e', m e = Err c e'
  end.

Lemma or_fail_err {S A} (m : M S A) c s c' s' : m s = Err c' s' -> or_fail m c s = Err c s'.
Proof. intros E. unfold or_fail. by rewrite E. Qed.
Lemma pop_ref_empty e : stack_rep e [] -> evm_stack_pop_ref e = Err EVM_ERROR_EMPTY_STACK e.
Proof. apply (evm_stack_pop_ref_spec e []). Qed.
Lemma pop_ref_empty_or e c : stack_rep e [] -> or_fail evm_stack_pop_ref c e = Err c e.
Proof. intros Hr. by eapply or_fail_err, pop_ref_empty. Qed.

(** On a stack with fewer than two words: the two pops every binary operation starts with. *)
Lemma pop_two_short {A} (k : list Z -> list Z -> M evm_t A) e ws : stack_rep e ws -> (length ws < 2)%nat ->
  exists e', (a ← evm_stack_pop_ref; b ← or_fail evm_stack_pop_ref EVM_ERROR_EMPTY_STACK; k a b) e = Err EVM_ERROR_EMPTY_STACK e'.
Proof.
  intros Hr Hl. destruct ws as [|w [|? ?]]; cbn [length] in Hl; [| |lia].
  - exists e. by apply bind_err, pop_ref_empty.
  - destruct (pop_ref_step e w [] Hr) as (e1 & R1 & _ & P1 & _). exists e1. rewrite (bind_ok _ _ _ _ _ P1). by apply bind_err, pop_ref_empty_or.
Qed.
Lemma pop_two_short_or {A} (k : list Z -> list Z -> M evm_t A) e ws : stack_rep e ws -> (length ws < 2)%nat ->
  exists e', (a ← or_fail evm_stack_pop_ref EVM_ERROR_EMPTY_STACK; b ← or_fail evm_stack_pop_ref EVM_ERROR_EMPTY_STACK; k a b) e
    = Err EVM_ERROR_EMPTY_STACK e'.
Proof.
  intros Hr Hl. destruct (pop_two_short k e ws Hr Hl) as (e' & E). exists e'. rewrite <- E. unfold mbind, M_bind.
  destruct ws as [|w ws]; [by rewrite pop_ref_empty_or, pop_ref_empty|].
  destruct (pop_ref_step e w ws Hr) as (e1 & _ & _ & P1 & P1'). by rewrite P1, P1'.
Qed.

(** Binary operations, from their result on two words and their error on fewer. *)
Lemma implements_binary pc m f :
  (forall e a b ws, stack_rep e (a :: b :: ws) -> evm_word a -> evm_word b -> has_prop e EVM_PROP_CONSTANTINOPL = true ->
   exists r e', m e = Ok tt e' /\ stack_rep e' (r :: ws) /\ frame_stack e e' /\ evm_word r /\ be_val r = f (be_val a) (be_val b)) ->
  (forall e ws, stack_rep e ws -> Forall evm_word ws -> (length ws < 2)%nat -> has_prop e EVM_PROP_CONSTANTINOPL = true -> exists e', m e = Err EVM_ERROR_EMPTY_STACK e') ->
  implements pc m (binary f).
Proof.
  intros Hok Hshort e vs (ws & R & W & <-) Hc _ _. destruct ws as [|a [|b ws]]; cbn [map binary].
  - apply (Hshort e []); [done|done|cbn; lia|done].
  - apply (Hshort e [a]); [done|done|cbn; lia|done].
  - inversion_clear W as [|? ? Wa W']. inversion_clear W' as [|? ? Wb Ws].
    destruct (Hok e a b ws R Wa Wb Hc) as (r & e' & E & R' & F & Wr & V). exists e'. split; [done|]. split; [|done].
    exists (r :: ws). split; [done|]. split; [by constructor|]. cbn [map]. by rewrite V.
Qed.
Lemma implements_unary pc m f :
  (forall e a ws, stack_rep e (a :: ws) -> evm_word a ->
   exists r e', m e = Ok tt e' /\ stack_rep e' (r :: ws) /\ frame_stack e e' /\ evm_word r /\ be_val r = f (be_val a)) ->
  (forall e, stack_rep e [] -> exists e', m e = Err EVM_ERROR_EMPTY_STACK e') ->
  implements pc m (unary f).
Proof.
  intros Hok Hshort e vs (ws & R & W & <-) _ _ _. destruct ws as [|a ws]; cbn [map unary]; [by apply Hshort|].
  inversion_clear W as [|? ? Wa Ws]. destruct (Hok e a ws R Wa) as (r & e' & E & R' & F & Wr & V).
  exists e'. split; [done|]. split; [|done]. exists (r :: ws). split; [done|]. split; [by constructor|]. cbn [map]. by rewrite V.
Qed.

Lemma frame_sg_same_gas e e' : frame_sg e e' -> gas e' = gas e -> frame_stack e e'.
Proof. intros (bb & n & g & -> & _) E. exists bb, n. destruct e. cbn in *. by subst. Qed.

Lemma implements_math pc op f : plain_op op = true ->
  (forall a b, 0 <= a < 2 ^ 256 -> 0 <= b < 2 ^ 256 -> math_value op a b = f a b) ->
  implements pc (op_math op false) (binary f).
Proof.
  intros Hp Hf. assert (op <> MATH_SDIV /\ op <> MATH_SMOD /\ op <> MATH_EXP) as (O1 & O2 & O3) by by destruct op.
  apply implements_binary.
  - intros e a b ws R Wa Wb _.
    destruct (op_math_ok op a b ws e R Wa Wb) as (r & e' & E & R' & W & _ & Hne & F & G); [intros [?|?]; done|done|].
    destruct (word_is_evm _ _ W (Hne Hp)) as [Wr V]. rewrite decide_False in G by done.
    exists r, e'. split; [done|]. split; [done|]. split; [apply frame_sg_same_gas; [done|lia]|]. split; [done|].
    rewrite V. apply Hf; by apply word_lt.
  - intros e ws R _ L _. unfold op_math. by eapply pop_two_short_or.
Qed.
Lemma implements_cmp pc (k : Z) f :
  (k = -1 /\ f = (fun a b => truth (a <? b))) \/ (k = 1 /\ f = (fun a b => truth (b <? a))) \/ (k = 0 /\ f = (fun a b => truth (a =? b))) ->
  implements pc (op_cmp k false) (binary f).
Proof.
  intros Hk. apply implements_binary.
  - intros e a b ws R Wa Wb _. assert (forall t : bool, evm_word [truth t] /\ be_val [truth t] = truth t) as Ht
      by (intros t; split; [destruct t; decide_now|apply be_val_single]).
    destruct (op_cmp_ok true false a b ws e R Wa Wb ltac:(done)) as [(e1 & E1 & F1 & R1) (e3 & E3 & F3 & R3)].
    destruct (op_cmp_ok false false a b ws e R Wa Wb ltac:(done)) as [(e2 & E2 & F2 & R2) _].
    cbn [word_value andb] in *. rewrite orb_false_r in *.
    destruct Hk as [[-> ->]|[[-> ->]|[-> ->]]]; eexists _, _; (split; [eassumption|]); (split; [eassumption|]); (split; [done|]); apply Ht.
  - intros e ws R _ L _. unfold op_cmp. by eapply pop_two_short_or.
Qed.
Lemma implements_bit pc op : implements pc (op_bit op) (binary (bit_byte op)).
Proof.
  apply implements_binary.
  - intros e a b ws R Wa Wb _. destruct (op_bit_ok op a b ws e R) as (r & e' & E & R' & F & W & Hne).
    destruct (word_is_evm _ _ W) as [Wr V]; [apply Hne, Wa|]. by exists r, e'.
  - intros e ws R _ L _. unfold op_bit. by eapply pop_two_short.
Qed.
Lemma implements_modmath pc (mul : bool) :
  implements pc (op_math (if mul then MATH_MUL else MATH_ADD) true) (ternary (fun a b m => if m =? 0 then 0 else (if mul then a * b else a + b) mod m)).
Proof.
  intros e vs (ws & R & W & <-) _ _ _. destruct ws as [|a [|b ws]]; cbn [map ternary].
  1, 2: unfold op_math; eapply pop_two_short_or; [done|cbn; lia].
  inversion_clear W as [|? ? Wa W']. inversion_clear W' as [|? ? Wb W'']. destruct ws as [|m ws]; cbn [map].
  - destruct (pop_ref_step e a _ R) as (e1 & R1 & _ & _ & P1). destruct (pop_ref_step e1 b _ R1) as (e2 & R2 & _ & _ & P2).
    exists e2. unfold op_math. rewrite (bind_ok _ _ _ _ _ (P1 _)), (bind_ok _ _ _ _ _ (P2 _)).
    destruct mul; cbn [math_result]; (erewrite bind_ok by reflexivity); by apply bind_err, pop_ref_empty.
  - inversion_clear W'' as [|? ? Wm Ws]. destruct (op_modmath_ok mul a b m ws e R Wa Wb Wm) as (r & e' & E & R' & F & Hne & Wr).
    destruct (word_is_evm _ _ Wr Hne) as [Wr' V]. exists e'. split; [done|]. split; [|done].
    exists (r :: ws). split; [done|]. split; [by constructor|]. cbn [map]. by rewrite V.
Qed.

Lemma be_val_byte l i : bytes_ok l -> (i < length l)%nat -> be_val l / 256 ^ Z.of_nat (length l - 1 - i) mod 256 = nth i l 0.
Proof.
  intros Hl Hi. destruct (lookup_lt_is_Some_2 l i Hi) as [x Hx]. rewrite nth_lookup, Hx. cbn [default]. unfold id.
  pose proof (Forall_lookup_1 _ _ _ _ Hl Hx) as Bx. unfold is_byte in Bx. rewrite <- (take_drop_middle l i x Hx) at 1.
  rewrite be_val_app, be_val_cons. cbn [length]. rewrite length_drop. replace (length l - S i)%nat with (length l - 1 - i)%nat by lia.
  rewrite pow256_S. pose proof (be_val_bound (drop (S i) l) (Forall_drop _ _ _ Hl)) as Bd. rewrite length_drop in Bd.
  replace (length l - S i)%nat with (length l - 1 - i)%nat in Bd by lia. set (p := 256 ^ Z.of_nat (length l - 1 - i)) in *.
  replace (be_val (take i l) * (256 * p) + (x * p + be_val (drop (S i) l))) with ((be_val (take i l) * 256 + x) * p + be_val (drop (S i) l)) by ring.
  rewrite Z.div_add_l, (Z.div_small _ _ Bd), Z.add_0_r, Z.add_comm, Z.mod_add by lia. apply Z.mod_small. lia.
Qed.
Lemma land_e0 x : is_byte x -> (Z.land x 0xE0 =? 0) = (x <? 32).
Proof. intros Hx. apply Bool.eqb_prop. revert x Hx. apply byte_forall. vm_compute. done. Qed.
Lemma byte_of_word b i : word_ok b -> 0 <= i < 32 ->
  (if 32 - zlen b <=? i then rd b (i + zlen b - 32) else 0) = be_val b / 256 ^ (31 - i) mod 256.
Proof.
  intros [Hb Hl] Hi. destruct (right_align_val 32 b (conj Hb Hl) Hl) as (S1 & S2 & S3).
  pose proof (be_val_byte (right_align 32 b) (Z.to_nat i) S1 ltac:(lia)) as E. rewrite S2, S3 in E.
  replace (Z.of_nat (32 - 1 - Z.to_nat i)) with (31 - i) in E by lia. rewrite E, right_align_zeros by done.
  destruct (Z.leb_spec (32 - zlen b) i).
  - rewrite app_nth2, length_replicate by (rewrite length_replicate; lia).
    unfold rd. rewrite (proj2 (Z.ltb_ge _ _)) by lia. f_equal. lia.
  - rewrite app_nth1 by (rewrite length_replicate; lia). by rewrite nth_lookup, lookup_replicate_2 by lia.
Qed.
(** SHL, SHR and BYTE pop their first operand as a byte. *)
Lemma pop_byte_short {A} (kl : list Z -> M evm_t A) (kr : Z -> list Z -> M evm_t A) e ws : stack_rep e ws -> Forall evm_word ws -> (length ws < 2)%nat ->
  exists e', (p ← try evm_stack_pop_byte;
    match p return M evm_t A with
    | inl c => if c =? EVM_ERROR_EMPTY_STACK then fail c else b ← or_fail evm_stack_pop_ref EVM_ERROR_EMPTY_STACK; kl b
    | inr x => b ← or_fail evm_stack_pop_ref EVM_ERROR_EMPTY_STACK; kr x b
    end) e = Err EVM_ERROR_EMPTY_STACK e'.
Proof.
  intros R W L. destruct ws as [|w [|? ?]]; cbn [length] in L; [| |lia].
  - exists e. pose proof (evm_stack_pop_byte_spec e [] R) as P. by rewrite (bind_ok _ _ _ _ _ (try_err _ _ _ _ P)).
  - inversion_clear W as [|? ? (_ & Hne & _) _]. destruct (pop_byte_step e w [] R Hne) as (e1 & R1 & _ & P1). exists e1.
    rewrite (bind_ok _ _ _ _ _ P1). destruct (_ <? _); by apply bind_err, pop_ref_empty_or.
Qed.
Lemma implements_byte pc : implements pc op_byte (binary (fun i v => if i <? 32 then v / 256 ^ (31 - i) mod 256 else 0)).
Proof.
  apply implements_binary.
  - intros e a b ws R Wa Wb _. pose proof (word_lt a Wa) as La. pose proof Wa as (_ & Na & _).
    destruct (pop_byte_step e a _ R Na) as (e1 & R1 & F1 & P1). destruct (pop_ref_step e1 b _ R1) as (e2 & R2 & F2 & _ & P2).
    set (v := if be_val a <? 32 then be_val b / 256 ^ (31 - be_val a) mod 256 else 0).
    assert (is_byte v) as Bv by (subst v; destruct (be_val a <? 32); [apply mod256_byte|done]).
    assert (evm_word [v]) as Wv by (split; [by constructor|by split; [|cbn; lia]]).
    destruct (push_after_two e a b ws e2 [v] R R2 (evm_word_ok _ Wv)) as (e3 & P3 & R3 & F3).
    exists [v], e3. split; [|split; [done|split; [eapply frame_stack_trans; [done|]; by eapply frame_stack_trans|split; [done|apply be_val_single]]]].
    unfold op_byte. rewrite (bind_ok _ _ _ _ _ P1). rewrite <- P3. subst v. destruct (Z.ltb_spec (be_val a) 256) as [L|L].
    + rewrite (bind_ok _ _ _ _ _ (P2 _)), land_e0 by (unfold is_byte; lia). do 2 f_equal. destruct (Z.ltb_spec (be_val a) 32) as [L'|L']; cbn [negb]; [|done].
      apply byte_of_word; [by apply evm_word_ok|lia].
    + cbn [Z.eqb Pos.eqb EVM_ERROR_EMPTY_STACK]. rewrite (bind_ok _ _ _ _ _ (P2 _)). by rewrite (proj2 (Z.ltb_ge (be_val a) 32)) by lia.
  - intros e ws R W L _. unfold op_byte. by eapply pop_byte_short.
Qed.
Lemma implements_shift pc left f : left = 0 /\ f = (fun n v => v / 2 ^ n) \/ left = 1 /\ f = (fun n v => (v * 2 ^ n) mod 2 ^ 256) ->
  implements pc (op_shift left) (binary f).
Proof.
  intros Hf. apply implements_binary.
  - intros e a b ws R Wa Wb Hc. destruct (op_shift_ok left a b ws e) as (r & e' & E & R' & F & W & Hne); [lia|done|done|done|done|].
    destruct (word_is_evm _ _ W Hne) as [Wr V]. exists r, e'. rewrite V. by destruct Hf as [[-> ->]|[-> ->]].
  - intros e ws R W L Hc. unfold op_shift. erewrite bind_ok by (unfold gets; rewrite Hc; reflexivity). cbn [negb]. by eapply pop_byte_short.
Qed.
Lemma implements_not pc : implements pc op_not (unary (fun a => 2 ^ 256 - 1 - a)).
Proof.
  apply implements_unary.
  - intros e a ws R _. destruct (op_not_ok a ws e R) as (r & e' & E & R' & F & W & Hne). destruct (word_is_evm _ _ W Hne) as [Wr V]. by exists r, e'.
  - intros e R. exists e. by apply bind_err, pop_ref_empty.
Qed.
Lemma implements_is_zero pc : implements pc op_is_zero (unary (fun a => truth (a =? 0))).
Proof.
  apply implements_unary.
  - intros e a ws R (Wa & _). destruct (pop_ref_step e a _ R) as (e1 & R1 & F1 & P1 & _).
    destruct (evm_stack_push_ok e1 ws [truth (be_val a =? 0)] R1) as (e2 & P2 & R2 & F2);
      [by destruct (be_val a =? 0); decide_now|pose proof (stack_rep_len _ _ R); cbn [length] in *; lia|].
    exists [truth (be_val a =? 0)], e2. split; [|split; [done|split; [by eapply frame_stack_trans|split; [by destruct (be_val a =? 0); decide_now|apply be_val_single]]]].
    unfold op_is_zero. rewrite (bind_ok _ _ _ _ _ P1), <- P2, existsb_nonzero_val by done. by destruct (be_val a =? 0).
  - intros e R. exists e. by apply bind_err, pop_ref_empty.
Qed.
Lemma holds_push e ws w : stack_rep e ws -> Forall evm_word ws -> evm_word w -> zlen ws < EVM_STACK_LIMIT ->
  exists e', evm_stack_push w e = Ok tt e' /\ holds e' (be_val w :: map be_val ws) /\ frame_stack e e'.
Proof.
  intros R W Ww L. destruct (evm_stack_push_ok e ws w R (evm_word_ok _ Ww) L) as (e' & P & R' & F).
  exists e'. split; [done|]. split; [|done]. exists (w :: ws). split; [done|]. split; [by constructor|done].
Qed.
Lemma push_full e ws w : stack_rep e ws -> zlen ws = EVM_STACK_LIMIT -> evm_stack_push w e = Err EVM_ERROR_STACK_LIMIT e.
Proof. intros (_ & _ & R3 & _) E. unfold evm_stack_push. by rewrite R3, E. Qed.
(** Any operation that pushes the word [w]. *)
Lemma implements_pushed pc m v :
  (forall e, pos e = pc + 1 -> 0 <= pc < MEM_LIMIT -> exists w, m e = evm_stack_push w e /\ evm_word w /\ be_val w = v) -> implements pc m (pushed v).
Proof.
  intros Hm e vs (ws & R & W & <-) _ Hp Hpc. destruct (Hm e Hp Hpc) as (w & Em & Ww & <-). unfold pushed. rewrite length_map, Em.
  destruct (Z.eqb_spec (zlen ws) EVM_STACK_LIMIT) as [E|E].
  - exists e. by eapply push_full.
  - apply holds_push; [done|done|done|]. pose proof (stack_rep_len _ _ R). lia.
Qed.
Lemma implements_pc pc : implements pc (push_int_of (fun e => u32 (pos e - 1))) (pushed pc).
Proof.
  apply implements_pushed. intros e Hp Hpc. unfold push_int_of. rewrite (bind_ok _ _ _ pc e)
    by (unfold gets; rewrite Hp; unfold MEM_LIMIT in *; rewrite u32_small by lia; f_equal; lia).
  destruct (push_int_bytes pc) as (w & -> & [W1 W2] & W3 & W4); [unfold MEM_LIMIT in *; lia|]. by exists w.
Qed.
Lemma implements_popped pc : implements pc op_pop popped.
Proof.
  intros e vs (ws & R & W & <-) _ _ _. destruct ws as [|w ws]; cbn [map popped].
  - exists e. by apply bind_err, pop_ref_empty.
  - inversion_clear W as [|? ? Ww Ws]. destruct (pop_ref_step e w ws R) as (e1 & R1 & F1 & P1 & _). exists e1.
    unfold op_pop. rewrite (bind_ok _ _ _ _ _ P1). split; [done|]. split; [by exists ws|done].
Qed.
Lemma implements_nothing pc : implements pc (mret tt) inr.
Proof. intros e vs Hh _ _ _. exists e. split; [done|]. split; [done|auto with in3]. Qed.
Lemma implements_dup pc n : (1 <= n)%nat -> implements pc (op_dup (Z.of_nat n)) (dup n).
Proof.
  intros Hn e vs (ws & R & W & <-) _ _ _. destruct (op_dup_swap_ok ws e (Z.of_nat n) R ltac:(lia)) as [Hd _].
  unfold dup. rewrite list_lookup_fmap. destruct (Z.ltb_spec (zlen ws) (Z.of_nat n)) as [L|L].
  - rewrite lookup_ge_None_2 by lia. cbn. by exists e.
  - destruct (lookup_lt_is_Some_2 ws (n - 1)) as [w Hw]; [lia|]. rewrite Hw. cbn [fmap option_fmap option_map]. unfold pushed. rewrite length_map.
    destruct (Z.eqb_spec (zlen ws) EVM_STACK_LIMIT); [by exists e|]. destruct Hd as (e' & E & R' & F).
    rewrite nth_lookup, Nat2Z.id, Hw in R'. cbn in R'. exists e'. split; [done|]. split; [|done]. exists (w :: ws). split; [done|]. split; [|done].
    constructor; [|done]. by eapply (Forall_lookup_1 evm_word).
Qed.
Lemma op_swap_short ws e pos : stack_rep e ws -> zlen ws < pos -> op_swap pos e = Err EVM_ERROR_EMPTY_STACK e.
Proof.
  intros R L. unfold op_swap. pose proof (evm_stack_get_ref_spec e ws 1 R ltac:(lia)) as G1.
  pose proof (evm_stack_get_ref_spec e ws pos R ltac:(lia)) as G2. rewrite (proj2 (Z.leb_gt pos (zlen ws))), andb_false_r in G2 by lia.
  cbn [Z.leb Z.compare andb] in G1. destruct (_ <=? zlen ws); [rewrite (bind_ok _ _ _ _ _ G1)|]; by apply bind_err.
Qed.
Lemma implements_swap pc n : (1 <= n)%nat -> implements pc (op_swap (Z.of_nat n + 1)) (swap n).
Proof.
  intros Hn e vs (ws & R & W & <-) _ _ _. unfold swap. destruct ws as [|a t]; cbn [map].
  { exists e. apply (op_swap_short []); [done|cbn; lia]. }
  rewrite list_lookup_fmap. destruct (t !! (n - 1)%nat) as [b|] eqn:Hb; cbn [fmap option_fmap option_map].
  2: { exists e. apply (op_swap_short (a :: t)); [done|]. apply lookup_ge_None in Hb. cbn [length]. lia. }
  pose proof (lookup_lt_Some _ _ _ Hb) as Hl. pose proof (take_drop_middle t (n - 1) b Hb) as Et.
  destruct (op_dup_swap_ok (a :: t) e (Z.of_nat n + 1) R ltac:(lia)) as [_ Hs].
  destruct (Hs a (take (n - 1) t) b (drop (S (n - 1)) t)) as (e' & E & R' & F); [by rewrite Et|rewrite length_take; lia|].
  exists e'. split; [done|]. split; [|done]. exists (b :: <[(n - 1)%nat := a]> t).
  rewrite (insert_take_drop t (n - 1) a Hl). split; [done|]. rewrite <- (insert_take_drop t (n - 1) a Hl). inversion_clear W as [|? ? Wa Wt].
  split; [constructor; [by eapply (Forall_lookup_1 evm_word)|by apply Forall_insert]|]. cbn [map]. by rewrite <- (list_fmap_insert be_val).
Qed.

(** ** One instruction *)
Section Step.
Context (sub : list Z -> list Z -> list Z -> bytes_t -> list Z -> list Z -> Z -> Z -> Z -> Z -> M world unit).

(** The frame operation behind opcode [op], charged with [price]. *)
Definition runs (op price : Z) (m : M evm_t unit) : Prop :=
  forall e0 e ps, exec_op sub op e0 (e :: ps) = op_exec price (cur m) (e :: ps).

Lemma op_exec_nothing price e ps : op_exec price (mret tt) (e :: ps) = op_exec price (cur (mret tt)) (e :: ps).
Proof. unfold op_exec, mbind, M_bind, cur. by destruct (subgas price e). Qed.

Lemma alu_table_ok pc : Forall (fun '(op, (price, f)) => exists m, runs op price m /\ implements pc m f) (alu_table pc).
Proof.
  unfold alu_table. repeat (apply Forall_cons; split); [..|by apply Forall_nil].
  all: eexists; (split; [intros e0 e ps; first [reflexivity|apply op_exec_nothing]|]).
  - by apply implements_math.
  - by apply implements_math.
  - by apply implements_math.
  - apply implements_math; [done|]. intros a b _ _. cbn [math_value]. destruct (Z.eqb_spec b 0) as [->|]; [apply Z.div_0_r|done].
  - by apply implements_math.
  - apply (implements_modmath pc false).
  - apply (implements_modmath pc true).
  - apply implements_cmp. auto.
  - apply implements_cmp. auto.
  - apply implements_cmp. auto.
  - apply implements_is_zero.
  - apply (implements_bit pc OP_AND).
  - apply (implements_bit pc OP_OR).
  - apply (implements_bit pc OP_XOR).
  - apply implements_not.
  - apply implements_byte.
  - apply implements_shift. auto.
  - apply implements_shift. auto.
  - apply implements_popped.
  - apply implements_pc.
  - apply implements_nothing.
Qed.
Lemma exec_dup op e : (0x80 <=? op) && (op <=? 0x8F) = true -> exec_op sub op e = op_exec 3 (cur (op_dup (op - 0x7F))).
Proof. intros Ho. unfold exec_op. rewrite Ho. apply andb_prop in Ho as [O1%Z.leb_le O2%Z.leb_le]. rewrite (proj2 (Z.leb_gt op 127)), andb_false_r by lia. done. Qed.
Lemma exec_swap op e : (0x90 <=? op) && (op <=? 0x9F) = true -> exec_op sub op e = op_exec 3 (cur (op_swap (op - 0x8E))).
Proof.
  intros Ho. unfold exec_op. rewrite Ho. apply andb_prop in Ho as [O1%Z.leb_le O2%Z.leb_le].
  rewrite (proj2 (Z.leb_gt op 127)), (proj2 (Z.leb_gt op 143)), !andb_false_r by lia. done.
Qed.
Lemma exec_push op e : (0x60 <=? op) && (op <=? 0x7F) = true -> exec_op sub op e = op_exec 3 (cur (op_push (op - 0x5F))).
Proof. intros Ho. unfold exec_op. by rewrite Ho. Qed.

Lemma alu_ok pc op price f : alu pc op = Some (price, f) -> exists m, runs op price m /\ implements pc m f.
Proof.
  unfold alu. destruct ((0x80 <=? op) && (op <=? 0x8F)) eqn:E1.
  { intros [<- <-]%(inj Some)%pair_eq. exists (op_dup (op - 0x7F)). split; [intros e0 e ps; by rewrite exec_dup|].
    apply andb_prop in E1 as [O1%Z.leb_le O2%Z.leb_le]. pose proof (implements_dup pc (Z.to_nat (op - 0x7F)) ltac:(lia)) as Hi. by rewrite Z2Nat.id in Hi by lia. }
  destruct ((0x90 <=? op) && (op <=? 0x9F)) eqn:E2.
  { intros [<- <-]%(inj Some)%pair_eq. exists (op_swap (op - 0x8E)). split; [intros e0 e ps; by rewrite exec_swap|].
    apply andb_prop in E2 as [O1%Z.leb_le O2%Z.leb_le]. pose proof (implements_swap pc (Z.to_nat (op - 0x8F)) ltac:(lia)) as Hi.
    rewrite Z2Nat.id in Hi by lia. by replace (op - 0x8F + 1) with (op - 0x8E) in Hi by lia. }
  intros Ha%assoc_In. pose proof (alu_table_ok pc) as Ht. rewrite Forall_forall in Ht. apply (Ht (op, (price, f))). by apply list_elem_of_In.
Qed.

(** A frame without the parts the machine stands for. *)
Definition norm (e : evm_t) : evm_t := set_invalid_jumpdest None (set_pos 0 (set_gas 0 (set_stack (mk_bb 0 None 0 true) 0 e))).
Lemma norm_frame_stack e e' : frame_stack e e' -> norm e' = norm e /\ pos e' = pos e /\ gas e' = gas e /\ invalid_jumpdest e' = invalid_jumpdest e.
Proof. intros (bb & n & ->). by destruct e. Qed.
Lemma norm_set e g p : norm (set_gas g e) = norm e /\ norm (set_pos p e) = norm e.
Proof. by destruct e. Qed.
Lemma norm_keeps e e' : norm e' = norm e -> code e' = code e /\ state e' = state e /\ properties e' = properties e /\ memory e' = memory e /\
  accounts e' = accounts e /\ logs e' = logs e /\ return_data e' = return_data e /\ refund e' = refund e /\ account e' = account e.
Proof.
  intros E. assert (forall A (f : evm_t -> A), (forall e, f (norm e) = f e) -> f e' = f e) as F
    by (intros A f Hf; by rewrite <- (Hf e'), E, Hf).
  repeat split; apply F; by intros [].
Qed.

(** Frame [e] of the code [c], in a run that started with [e0], is in machine state [s]. *)
Record sim (c : list Z) (e0 : evm_t) (s : mach) (e : evm_t) : Prop := {
  sim_norm : norm e = norm e0;
  sim_ij : invalid_jumpdest e = None \/ invalid_jumpdest e = Some (invalid_dests c 0 0);
  sim_pc : 0 <= m_pc s;
  sim_pos : pos e = m_pc s;
  sim_gas : gas e = m_gas s;
  sim_stack : holds e (m_stack s)
}.

Context (c : list Z) (e0 : evm_t).
Hypothesis code_e0 : code e0 = bytes c.
Hypothesis code_ok : bytes_ok c.
Hypothesis code_short : zlen c < MEM_LIMIT.
Hypothesis constantinople : has_prop e0 EVM_PROP_CONSTANTINOPL = true.

Lemma sim_charge s e p g : 0 <= p -> sim c e0 s e -> sim c e0 (Mach p g (m_stack s)) (set_gas g (set_pos p e)).
Proof.
  intros Hp [S1 S2 _ S3 S4 S5]. destruct S5 as (ws & R & W & E). constructor; cbn [m_pc m_gas m_stack]; try (by destruct e).
  exists ws. split; [|done]. rewrite stack_rep_set_gas. by destruct e.
Qed.
Lemma sim_frame s e e' vs : sim c e0 s e -> frame_stack e e' -> holds e' vs -> sim c e0 (Mach (m_pc s) (m_gas s) vs) e'.
Proof.
  intros [S1 S2 S0 S3 S4 S5] F Hh. destruct (norm_frame_stack e e' F) as (N1 & N2 & N3 & N4).
  constructor; cbn [m_pc m_gas m_stack]; [by rewrite N1|by rewrite N4|done|by rewrite N2|by rewrite N3|done].
Qed.
Lemma sim_jump s e e' dest : 0 <= dest -> sim c e0 s e -> frame_jump c e e' -> sim c e0 (Mach dest (m_gas s) (m_stack s)) (set_pos dest e').
Proof.
  intros Hd [S1 S2 _ S3 S4 (ws & R & W & E)] F. constructor; cbn [m_pc m_gas m_stack].
  - rewrite <- S1. destruct F as [-> | ->]; by destruct e.
  - destruct F as [-> | ->]; destruct e; [done|by right].
  - done.
  - by destruct e'.
  - rewrite <- S4. destruct F as [-> | ->]; by destruct e.
  - exists ws. split; [|done]. destruct F as [-> | ->]; by destruct e.
Qed.
Lemma sim_code s e : sim c e0 s e -> code e = bytes c /\ has_prop e EVM_PROP_CONSTANTINOPL = true.
Proof. intros [S1 _ _ _ _ _]. destruct (norm_keeps _ _ S1) as (N1 & _ & N3 & _). unfold has_prop in *. by rewrite N1, N3. Qed.

(** Fetching and charging. *)
Lemma evm_execute_fetch s e ps : sim c e0 s e -> 0 <= m_pc s < zlen c ->
  let e1 := set_pos (m_pc s + 1) e in evm_execute sub (e :: ps) = exec_op sub (nth (Z.to_nat (m_pc s)) c 0) e1 (e1 :: ps).
Proof.
  intros S Hp e1. destruct (sim_code s e S) as [Ec _]. destruct S as [_ _ _ S3 _ _]. unfold evm_execute.
  rewrite (bind_ok _ _ _ (bytes c) (e :: ps)) by (unfold cur, gets; by rewrite Ec).
  rewrite (bind_ok _ _ _ (m_pc s) (e :: ps)) by (unfold cur, gets; by rewrite S3).
  rewrite b_byte_in by done. unfold MEM_LIMIT in code_short. rewrite u32_small by lia. done.
Qed.
Lemma op_exec_charge price m e ps :
  op_exec price (cur m) (e :: ps) = if gas e <? price then Err EVM_ERROR_OUT_OF_GAS (e :: ps) else cur m (set_gas (gas e - price) e :: ps).
Proof. unfold op_exec, mbind, M_bind, cur, subgas. by destruct (gas e <? price). Qed.

(** Push data. *)
Lemma b_slice_bytes p n : 0 <= p -> 0 <= n -> p + n <= zlen c -> b_slice (bytes c) p n = Some (take (Z.to_nat n) (drop (Z.to_nat p) c)).
Proof.
  intros Hp Hn Hl. unfold b_slice. destruct (Z.eqb_spec n 0) as [->|]; [done|]. rewrite !(proj2 (Z.ltb_ge _ _)) by lia.
  cbn [orb b_data bytes mbind option_bind]. unfold read_at. by rewrite (proj2 (Nat.leb_le _ _)) by lia.
Qed.
Lemma take_app_replicate {A} (d : list A) (x : A) n i j : (n <= length d + i)%nat -> (n <= length d + j)%nat ->
  take n (d ++ replicate i x) = take n (d ++ replicate j x).
Proof. intros Hi Hj. rewrite !take_app, !take_replicate. do 2 f_equal. lia. Qed.
Lemma op_push_ok s e n : sim c e0 s e -> 0 <= m_pc s <= zlen c -> (1 <= n <= 32)%nat ->
  if zlen (m_stack s) =? EVM_STACK_LIMIT then
    exists e', op_push (Z.of_nat n) e = Err (if zlen c <? m_pc s + Z.of_nat n then EVM_ERROR_STACK_LIMIT else EVM_ERROR_BUFFER_TOO_SMALL) e'
  else exists e', op_push (Z.of_nat n) e = Ok tt e' /\
    sim c e0 (Mach (m_pc s + Z.of_nat n) (m_gas s) (push_value c (Z.to_nat (m_pc s)) n :: m_stack s)) e'.
Proof.
  intros S Hp Hn. destruct (sim_code s e S) as [Ec _]. pose proof (sim_pos _ _ _ _ S) as Ep. pose proof (sim_stack _ _ _ _ S) as (ws & R & W & E).
  assert (zlen (m_stack s) = zlen ws) as -> by (by rewrite <- E, length_map). unfold MEM_LIMIT in code_short.
  unfold op_push. rewrite (bind_ok _ _ _ (bytes c) e), (bind_ok _ _ _ (m_pc s) e) by (unfold gets; congruence). cbn [b_len bytes].
  rewrite u32_small by lia. set (p := Z.to_nat (m_pc s)). set (d := drop p c). set (w := take n (d ++ replicate n 0)).
  assert (evm_word w) as Ww.
  { assert (length w = n) as Lw by (subst w; rewrite length_take, length_app, length_replicate; lia).
    split; [subst w; apply Forall_take, Forall_app; split; [by apply Forall_drop|by apply Forall_replicate]|]. split; [intros Ew; rewrite Ew in Lw; cbn in Lw; lia|lia]. }
  assert (push_value c p n = be_val w) as -> by done.
  pose proof (sim_charge s e (m_pc s + Z.of_nat n) (m_gas s) ltac:(lia) S) as S'.
  replace (set_gas (m_gas s) (set_pos (m_pc s + Z.of_nat n) e)) with (set_pos (m_pc s + Z.of_nat n) e) in S' by (rewrite <- (sim_gas _ _ _ _ S); by destruct e).
  assert (zlen ws <> EVM_STACK_LIMIT -> zlen ws < EVM_STACK_LIMIT) as Hlim by (pose proof (stack_rep_len _ _ R); lia).
  destruct (Z.ltb_spec (zlen c) (m_pc s + Z.of_nat n)) as [L|L].
  - rewrite b_slice_bytes by lia. rewrite take_ge by (rewrite length_drop; lia). fold p d.
    erewrite bind_ok by reflexivity. erewrite (bind_ok (modify _)) by reflexivity. rewrite Nat2Z.id.
    assert (length d = length c - p)%nat as Ld by apply length_drop. rewrite (take_app_replicate d 0 n _ n) by lia. fold w.
    destruct (sim_stack _ _ _ _ S') as (ws' & R' & W' & E'). cbn [m_stack] in E'.
    assert (zlen ws = zlen ws') as El by (apply (f_equal length) in E, E'; rewrite length_map in E, E'; lia). rewrite El in *.
    destruct (Z.eqb_spec (zlen ws') EVM_STACK_LIMIT) as [Ef|Ef]; [eexists; by eapply push_full|].
    destruct (holds_push _ ws' w R' W' Ww (Hlim Ef)) as (e2 & P2 & H2' & F2). exists e2. split; [done|]. rewrite E' in H2'. exact (sim_frame _ _ _ _ S' F2 H2').
  - rewrite b_slice_bytes by lia. rewrite Nat2Z.id. fold p d. erewrite (bind_ok (defined _)) by reflexivity.
    replace (take n d) with w by (subst w; rewrite take_app_le; [done|subst d; rewrite length_drop; lia]).
    destruct (Z.eqb_spec (zlen ws) EVM_STACK_LIMIT) as [Ef|Ef]; [eexists; eapply bind_err, or_fail_err; by eapply push_full|].
    destruct (holds_push e ws w R W Ww (Hlim Ef)) as (e2 & P2 & H2' & F2). rewrite (bind_ok _ _ _ _ _ (or_fail_ok _ _ _ _ _ P2)).
    rewrite E in H2'. eexists. split; [reflexivity|]. pose proof (sim_jump _ _ e2 (m_pc s + Z.of_nat n) ltac:(lia) (sim_frame _ _ _ _ S F2 H2') (or_introl eq_refl)) as S2. exact S2.
Qed.

(** Jumps. *)
Lemma jump_word s e w : sim c e0 s e -> evm_word w ->
  match goto c (be_val w) (m_gas s) (m_stack s) with
  | Running s' => exists e', jump_to (int_of_word w) e = Ok tt e' /\ sim c e0 s' e'
  | Faulted k => exists e', jump_to (int_of_word w) e = Err k e'
  | _ => True
  end.
Proof.
  intros S (W1 & _). destruct (sim_code s e S) as [Ec _]. pose proof (int_of_word_range w W1) as Hi. pose proof (be_val_pos w W1) as Hv.
  destruct (jump_to_ok e (int_of_word w) c Ec ltac:(lia) (sim_ij _ _ _ _ S)) as (J1 & J2 & _).
  assert (int_of_word w = be_val w \/ zlen c < int_of_word w /\ zlen c < be_val w) as Hd
    by (unfold int_of_word in *; unfold MEM_LIMIT in *; destruct (Z.ltb_spec (be_val w) (2 ^ 28)); lia).
  unfold goto. case_bool_decide as Ht.
  - destruct Hd as [Hd|[_ Hd]]; [|destruct Ht; lia]. rewrite Hd in *. destruct (J1 Ht) as (e' & -> & F). eexists. split; [done|]. by eapply sim_jump.
  - destruct (Z.eqb_spec (be_val w) (zlen c)); [done|]. destruct J2 as (e' & E & _); [lia| |by exists e'].
    destruct Hd as [->|[Hd _]]; [done|]. intros [? _]. lia.
Qed.

(** What the frame does where the machine does [r]. *)
Definition steps_to (e : evm_t) (ps : world) (r : mres) : Prop :=
  match r with
  | Running s' => exists e', evm_execute sub (e :: ps) = Ok tt (e' :: ps) /\ sim c e0 s' e'
  | Halted s' => exists e', evm_execute sub (e :: ps) = Ok tt (set_state EVM_STATE_STOPPED e' :: ps) /\ sim c e0 s' e'
  | Faulted k => exists fs, evm_execute sub (e :: ps) = Err k fs
  | Unspecified => True
  end.

Section Instruction.
Context (s : mach) (e : evm_t) (ps : world).
Hypothesis e_sim : sim c e0 s e.
Hypothesis pc_in : 0 <= m_pc s < zlen c.
Let op := nth (Z.to_nat (m_pc s)) c 0.
Let e1 := set_pos (m_pc s + 1) e.

(** Charge [price], then run the frame operation [m]. *)
Lemma charged_step price m : runs op price m ->
  evm_execute sub (e :: ps) = if m_gas s <? price then Err EVM_ERROR_OUT_OF_GAS (e1 :: ps) else cur m (set_gas (m_gas s - price) e1 :: ps).
Proof.
  intros Hr. rewrite (evm_execute_fetch s e ps e_sim pc_in), Hr, op_exec_charge. fold e1.
  assert (gas e1 = m_gas s) as -> by (rewrite <- (sim_gas _ _ _ _ e_sim); subst e1; by destruct e). done.
Qed.
Lemma charged_sim price : sim c e0 (Mach (m_pc s + 1) (m_gas s - price) (m_stack s)) (set_gas (m_gas s - price) e1).
Proof. apply sim_charge; [lia|done]. Qed.

Lemma alu_step price f : alu (m_pc s) op = Some (price, f) ->
  steps_to e ps (if m_gas s <? price then Faulted EVM_ERROR_OUT_OF_GAS
    else match f (m_stack s) with inl k => Faulted k | inr vs => Running (Mach (m_pc s + 1) (m_gas s - price) vs) end).
Proof.
  intros Ha. destruct (alu_ok _ _ _ _ Ha) as (m & Hr & Hi). pose proof (charged_step price m Hr) as E.
  destruct (m_gas s <? price); [by eexists|]. pose proof (charged_sim price) as S1. destruct (sim_code _ _ S1) as [_ Hc].
  specialize (Hi _ _ (sim_stack _ _ _ _ S1) Hc (sim_pos _ _ _ _ S1) ltac:(cbn; lia)). cbn [m_stack] in Hi. unfold cur in E.
  destruct (f (m_stack s)) as [k|vs].
  - destruct Hi as (e' & Em). rewrite Em in E. by eexists.
  - destruct Hi as (e' & Em & Hh & F). rewrite Em in E. exists e'. split; [done|]. exact (sim_frame _ _ _ _ S1 F Hh).
Qed.
Lemma push_step : (0x60 <=? op) && (op <=? 0x7F) = true ->
  steps_to e ps (if m_gas s <? 3 then Faulted EVM_ERROR_OUT_OF_GAS
    else if zlen (m_stack s) =? EVM_STACK_LIMIT then
      Faulted (if zlen c <? m_pc s + 1 + (op - 0x5F) then EVM_ERROR_STACK_LIMIT else EVM_ERROR_BUFFER_TOO_SMALL)
    else Running (Mach (m_pc s + 1 + (op - 0x5F)) (m_gas s - 3) (push_value c (Z.to_nat (m_pc s + 1)) (Z.to_nat (op - 0x5F)) :: m_stack s))).
Proof.
  intros Ho. pose proof (charged_step 3 (op_push (op - 0x5F)) ltac:(intros ???; by rewrite exec_push)) as E.
  apply andb_prop in Ho as [O1%Z.leb_le O2%Z.leb_le].
  destruct (m_gas s <? 3); [by eexists|]. pose proof (charged_sim 3) as S1.
  pose proof (op_push_ok _ _ (Z.to_nat (op - 0x5F)) S1 ltac:(cbn; lia) ltac:(lia)) as Hp. cbn [m_pc m_gas m_stack] in Hp.
  rewrite Z2Nat.id in Hp by lia. unfold cur in E.
  destruct (_ =? EVM_STACK_LIMIT); [destruct Hp as (e' & Em)|destruct Hp as (e' & Em & S')]; rewrite Em in E; [by eexists|by exists e'].
Qed.
Lemma goto_steps e' w g vs :
  evm_execute sub (e :: ps) = cur (jump_to (int_of_word w)) (e' :: ps) ->
  match goto c (be_val w) g vs with
  | Running s' => exists e'', jump_to (int_of_word w) e' = Ok tt e'' /\ sim c e0 s' e''
  | Faulted k => exists e'', jump_to (int_of_word w) e' = Err k e''
  | _ => True
  end -> steps_to e ps (goto c (be_val w) g vs).
Proof.
  intros E J. unfold cur in E. assert (forall s', goto c (be_val w) g vs <> Halted s') as Hh.
  { intros s'. unfold goto. destruct (bool_decide _); [done|]. by destruct (_ =? _). }
  destruct (goto c (be_val w) g vs) as [s'|s'|k|]; [destruct J as (e'' & J & S)|by destruct (Hh s')|destruct J as (e'' & J)|done];
    rewrite J in E; [by exists e''|by eexists].
Qed.
Lemma jump_step : op = 0x56 ->
  steps_to e ps (if m_gas s <? 8 then Faulted EVM_ERROR_OUT_OF_GAS
    else match m_stack s with d :: vs => goto c d (m_gas s - 8) vs | [] => Faulted EVM_ERROR_EMPTY_STACK end).
Proof.
  intros Ho. pose proof (charged_step 8 (op_jump false) ltac:(intros ???; by rewrite Ho)) as E.
  destruct (m_gas s <? 8); [by eexists|]. pose proof (charged_sim 8) as S1. set (e2 := set_gas _ e1) in *.
  destruct (sim_stack _ _ _ _ S1) as (ws & R & W & Ev). cbn [m_stack] in Ev. rewrite <- Ev. pose proof (evm_stack_pop_int_spec e2 ws R) as P.
  unfold cur, op_jump in E. destruct ws as [|w ws]; cbn [map].
  { rewrite (bind_err _ _ _ _ _ P) in E. by eexists. }
  destruct P as (e3 & P & R3 & F3). rewrite (bind_ok _ _ _ _ _ P) in E. inversion_clear W as [|? ? Ww Ws].
  pose proof (jump_word _ e3 w (sim_frame _ _ _ (map be_val ws) S1 F3 ltac:(by exists ws)) Ww) as J. cbn [m_gas m_stack] in J.
  eapply goto_steps; [exact E|exact J].
Qed.
Lemma jumpi_step : op = 0x57 ->
  steps_to e ps (if m_gas s <? 10 then Faulted EVM_ERROR_OUT_OF_GAS
    else match m_stack s with
         | d :: b :: vs => if b =? 0 then Running (Mach (m_pc s + 1) (m_gas s - 10) vs) else goto c d (m_gas s - 10) vs
         | _ => Faulted EVM_ERROR_EMPTY_STACK
         end).
Proof.
  intros Ho. pose proof (charged_step 10 (op_jump true) ltac:(intros ???; by rewrite Ho)) as E.
  destruct (m_gas s <? 10); [by eexists|]. pose proof (charged_sim 10) as S1. set (e2 := set_gas _ e1) in *.
  destruct (sim_stack _ _ _ _ S1) as (ws & R & W & Ev). cbn [m_stack] in Ev. rewrite <- Ev. pose proof (evm_stack_pop_int_spec e2 ws R) as P.
  unfold cur, op_jump in E. destruct ws as [|w ws]; cbn [map].
  { rewrite (bind_err _ _ _ _ _ P) in E. by eexists. }
  destruct P as (e3 & P & R3 & F3). rewrite (bind_ok _ _ _ _ _ P) in E. inversion_clear W as [|? ? Ww Ws].
  destruct ws as [|b ws]; cbn [map].
  { pose proof (evm_stack_pop_byte_spec e3 [] R3) as P3. rewrite (bind_ok _ _ _ _ _ (try_err _ _ _ _ P3)) in E. eexists. exact E. }
  inversion_clear Ws as [|? ? Wb Ws']. pose proof Wb as (B1 & B2 & _). destruct (pop_byte_step e3 b ws R3 B2) as (e4 & R4 & F4 & P4).
  rewrite (bind_ok _ _ _ _ _ P4) in E.
  pose proof (sim_frame _ _ _ (map be_val ws) S1 (frame_stack_trans _ _ _ F3 F4) ltac:(by exists ws)) as S4. cbn [m_pc m_gas] in S4.
  pose proof (jump_word _ e4 w S4 Ww) as J. cbn [m_gas m_stack] in J.
  destruct (Z.ltb_spec (be_val b) 256); cbn [Z.eqb Pos.eqb EVM_ERROR_EMPTY_STACK] in E.
  - destruct (be_val b =? 0); [by exists e4|]. by eapply goto_steps.
  - rewrite (proj2 (Z.eqb_neq (be_val b) 0)) by lia. by eapply goto_steps.
Qed.
End Instruction.

Lemma step_ok s e ps : sim c e0 s e -> 0 <= m_pc s < zlen c -> steps_to e ps (mstep c s).
Proof.
  intros S Hp. unfold mstep. rewrite (proj2 (Z.leb_gt (zlen c) (m_pc s))) by lia.
  set (op := nth (Z.to_nat (m_pc s)) c 0). destruct (Z.eqb_spec op 0) as [E0|E0].
  { pose proof (evm_execute_fetch s e ps S Hp) as E. fold op in E. rewrite E0 in E. exists (set_pos (m_pc s + 1) e). split; [exact E|].
    apply (sim_jump s e e); [lia|done|by left]. }
  destruct (_ && _) eqn:Epush; [exact (push_step s e ps S Hp Epush)|].
  destruct (Z.eqb_spec op 0x56) as [Ej|_]; [exact (jump_step s e ps S Hp Ej)|].
  destruct (Z.eqb_spec op 0x57) as [Ej|_]; [exact (jumpi_step s e ps S Hp Ej)|]. destruct (alu (m_pc s) op) as [[price f]|] eqn:Ea; [|done]. exact (alu_step s e ps S Hp price f Ea).
Qed.

(** ** The loop *)
Lemma loop_ok n : forall timeout fuel s e ps, state e0 = EVM_STATE_RUNNING -> sim c e0 s e -> (n < fuel)%nat -> Z.of_nat n <= timeout ->
  match mrun n c s with
  | Halted s' => exists e' e'', run_loop fuel (evm_execute sub) timeout (e :: ps) = Ok (inr tt) (e' :: ps) /\
      sim c e0 s' e'' /\ (e' = e'' \/ e' = set_state EVM_STATE_STOPPED e'')
  | Faulted k => exists fs, run_loop fuel (evm_execute sub) timeout (e :: ps) = Ok (inl k) fs
  | _ => True
  end.
Proof.
  induction n as [|n IH]; intros timeout fuel s e ps Hst S Hf Ht; cbn [mrun]; [done|].
  destruct fuel as [|fuel]; [lia|]. cbn [run_loop]. rewrite (bind_ok _ _ _ e (e :: ps)) by done.
  destruct (norm_keeps _ _ (sim_norm _ _ _ _ S)) as (Ec & Es & _). rewrite Hst in Es. rewrite Es, Ec, code_e0, (sim_pos _ _ _ _ S). cbn [b_len bytes].
  rewrite bool_decide_true by done. cbn [andb].
  destruct (Z.ltb_spec (m_pc s) (zlen c)) as [L|L].
  2: { unfold mstep. rewrite (proj2 (Z.leb_le _ _)) by lia. exists e, e. split; [done|]. split; [done|by left]. }
  pose proof (step_ok s e ps S (conj (sim_pc _ _ _ _ S) L)) as Hs. unfold steps_to in Hs.
  destruct (mstep c s) as [s'|s'|k|]; [|destruct Hs as (e' & E & S')|destruct Hs as (fs & E)|done].
  - destruct Hs as (e' & E & S'). rewrite (bind_ok _ _ _ _ _ (try_ok _ _ _ _ E)), (proj2 (Z.eqb_neq timeout 0)) by lia. apply IH; [done|done|lia|lia].
  - rewrite (bind_ok _ _ _ _ _ (try_ok _ _ _ _ E)), (proj2 (Z.eqb_neq timeout 0)) by lia. destruct fuel as [|fuel]; [lia|].
    exists (set_state EVM_STATE_STOPPED e'), e'. split; [|split; [done|by right]]. cbn [run_loop].
    erewrite (bind_ok (cur (gets id))) by reflexivity. unfold id. rewrite bool_decide_false by (by destruct e'). done.
  - rewrite (bind_ok _ _ _ _ _ (try_err _ _ _ _ E)), (proj2 (Z.eqb_neq timeout 0)) by lia. by exists fs.
Qed.
End Step.

(** ** Running a frame *)
Lemma mrun_gas n c : forall s s', 0 <= m_gas s -> mrun n c s = Halted s' -> 0 <= m_gas s' <= m_gas s.
Proof.
  induction n as [|n IH]; intros s s' Hg; cbn [mrun]; [done|]. destruct (mstep c s) as [s1|s1|k|] eqn:E; [| |done|done].
  - apply mstep_gas in E. intros Hr. apply IH in Hr; lia.
  - intros [= <-]. revert E. unfold mstep, goto. repeat case_match; try done; intros [= <-]; cbn; lia.
Qed.
Lemma holds_ext e e' vs : stack e' = stack e -> stack_size e' = stack_size e -> holds e vs -> holds e' vs.
Proof. intros E1 E2 (ws & R & W). exists ws. split; [|done]. unfold stack_rep in *. by rewrite E1, E2. Qed.

(** A frame that used no refunds is left with the gas the loop left. *)
Lemma finalize_no_refund e ps : refund e = 0 -> 0 <= gas e < 2 ^ 64 -> finalize_and_refund_gas (e :: ps) = Ok tt (e :: ps).
Proof.
  intros Hr Hg. unfold finalize_and_refund_gas. rewrite Hr. destruct (has_prop e _); [done|].
  assert (0 <= Z.shiftr (u64 (init_gas e - gas e)) 1) as Hs by (apply Z.shiftr_nonneg; unfold u64; apply Z.mod_pos_bound; lia).
  rewrite Z.min_l, Z.add_0_r, u64_small by lia. destruct ps; destruct e; done.
Qed.
(** [init_gas_] and the start of the loop. *)
Definition started (e : evm_t) : evm_t :=
  set_state EVM_STATE_RUNNING (let e := set_refund 0 e in if init_gas e =? 0 then set_init_gas (gas e) e else e).
Lemma started_keeps e vs : holds e vs -> holds (started e) vs /\ code (started e) = code e /\ pos (started e) = pos e /\ gas (started e) = gas e /\
  properties (started e) = properties e /\ invalid_jumpdest (started e) = invalid_jumpdest e /\ memory (started e) = memory e /\
  accounts (started e) = accounts e /\ logs (started e) = logs e /\ return_data (started e) = return_data e /\ refund (started e) = 0 /\
  state (started e) = EVM_STATE_RUNNING.
Proof.
  intros Hh. unfold started. cbv zeta. destruct (init_gas (set_refund 0 e) =? 0); destruct e;
    (split; [eapply holds_ext; [| |exact Hh]; done|]); repeat split.
Qed.
Lemma evm_run_loop f addr e ps : evm_is_precompiled addr = false -> has_prop e EVM_PROP_TXCREATE = false ->
  let step := evm_execute (evm_sub_call_with (evm_run f)) in
  (forall e' s, run_loop f step 0xFFFFFFFF (started e :: ps) = Ok (inr tt) (e' :: ps) ->
    properties e' = properties e -> refund e' = 0 -> gas e' = s -> 0 <= s < 2 ^ 64 -> evm_run (S f) addr (e :: ps) = Ok tt (e' :: ps)) /\
  (forall k fs, run_loop f step 0xFFFFFFFF (started e :: ps) = Ok (inl k) fs -> evm_run (S f) addr (e :: ps) = Err k fs).
Proof.
  intros Ha Hx step. assert (evm_run (S f) addr (e :: ps) =
    (r ← run_loop f step 0xFFFFFFFF;
     match r return M world unit with
     | inl k => fail k
     | inr _ =>
         e ← cur (gets id);
         _ ← (if has_prop e EVM_PROP_TXCREATE && bool_decide (state e = EVM_STATE_STOPPED) then
                if negb (has_prop e (Z.lor EVM_PROP_FRONTIER (Z.lor EVM_PROP_EIP150 EVM_PROP_EIP158)))
                   && (EVM_MAX_CODE_SIZE <? b_len (return_data e))
                then fail EVM_ERROR_MAX_CODE_SIZE_EXCEEDED
                else _ ← cur (subgas (u32 (b_len (return_data e) * G_CODEDEPOSIT)));
                     ac ← (evm_get_account (account e) true : M world _); _ ← defined ac;
                     upd_account (account e) (set_ac_code (return_data e))
              else mret tt);
         finalize_and_refund_gas
     end) (started e :: ps)) as ->.
  { cbn [evm_run]. unfold evm_run_body. rewrite Ha. reflexivity. }
  split.
  - intros e' s E Hp Hr Hg Hs. rewrite (bind_ok _ _ _ _ _ E), (bind_ok _ _ _ e' (e' :: ps)) by done.
    assert (has_prop e' EVM_PROP_TXCREATE = false) as -> by (unfold has_prop in *; by rewrite Hp). cbn [andb].
    rewrite (bind_ok _ _ _ tt (e' :: ps)) by done. apply finalize_no_refund; [done|lia].
  - intros k fs E. by rewrite (bind_ok _ _ _ _ _ E).
Qed.

(** C15. Running a frame whose code uses STOP, ADD, MUL, SUB, DIV, MOD, ADDMOD, MULMOD, LT, GT, EQ,
    ISZERO, AND, OR, XOR, NOT, BYTE, SHL, SHR, POP, PC, PUSH, DUP, SWAP, JUMP, JUMPI and JUMPDEST is
    running the abstract machine: [evm_run] returns (the gas bounds the
    number of steps, so the loop's limit of 2^32 instructions is never met), with the machine's
    stack of numbers and its remaining gas when it halts and with its error code when it faults,
    and memory, accounts, logs and return data stay as they were.  The machine leaves open
    ([Unspecified], where nothing is claimed) what happens from another instruction on, SDIV, SMOD,
    EXP, SIGNEXTEND, SLT, SGT and SAR among them, and from a jump to the position right behind the
    code on.  The frame has the rules of Constantinople, creates no contract, is not precompiled, has
    code of less than [MEM_LIMIT] bytes, no jump table yet and gas for less than 2^32 - 1 steps. *)
Theorem evm_run_refines_machine e ps c vs addr fuel :
  holds e vs -> code e = bytes c -> bytes_ok c -> zlen c < MEM_LIMIT -> 0 <= pos e -> invalid_jumpdest e = None ->
  has_prop e EVM_PROP_CONSTANTINOPL = true -> has_prop e EVM_PROP_TXCREATE = false -> evm_is_precompiled addr = false ->
  0 <= gas e < 2 ^ 32 - 1 -> (Z.to_nat (gas e) + 2 < fuel)%nat ->
  match mrun (Z.to_nat (gas e) + 1) c (Mach (pos e) (gas e) vs) with
  | Halted s => exists e', evm_run fuel addr (e :: ps) = Ok tt (e' :: ps) /\ holds e' (m_stack s) /\ gas e' = m_gas s /\
      memory e' = memory e /\ accounts e' = accounts e /\ logs e' = logs e /\ return_data e' = return_data e
  | Faulted k => exists fs, evm_run fuel addr (e :: ps) = Err k fs
  | Unspecified => True
  | Running _ => False
  end.
Proof.
  intros Hh Hc Hok Hlen Hpos Hij Hcon Hx Ha Hg Hf. destruct fuel as [|f]; [lia|].
  destruct (started_keeps e vs Hh) as (K1 & K2 & K3 & K4 & K5 & K6 & K7 & K8 & K9 & K10 & K11 & K12).
  set (n := (Z.to_nat (gas e) + 1)%nat) in *. set (s0 := Mach (pos e) (gas e) vs).
  assert (sim c (started e) s0 (started e)) as S0 by (constructor; subst s0; cbn; [done|left; congruence|done|done|done|done]).
  pose proof (loop_ok (evm_sub_call_with (evm_run f)) c (started e) ltac:(congruence) Hok Hlen ltac:(unfold has_prop in *; congruence)
    n 0xFFFFFFFF f s0 (started e) ps K12 S0 ltac:(lia) ltac:(lia)) as HL.
  destruct (evm_run_loop f addr e ps Ha Hx) as [Rok Rerr].
  pose proof (mrun_ends n c s0) as Hend. pose proof (mrun_gas n c s0) as Hgas. destruct (mrun n c s0) as [s1|s1|k|]; [|destruct HL as (e' & e'' & E & S & F)|destruct HL as (fs & E)|done].
  - by destruct (Hend s1 ltac:(subst s0; cbn; lia)).
  - specialize (Hgas s1 ltac:(subst s0; cbn; lia) eq_refl). subst s0. cbn [m_gas] in Hgas.
    destruct (norm_keeps _ _ (sim_norm _ _ _ _ S)) as (_ & _ & N3 & N4 & N5 & N6 & N7 & N8 & _).
    assert (properties e' = properties e /\ refund e' = 0 /\ gas e' = m_gas s1 /\ holds e' (m_stack s1) /\ memory e' = memory e /\
      accounts e' = accounts e /\ logs e' = logs e /\ return_data e' = return_data e) as (F1 & F2 & F3 & F4 & F5).
    { rewrite <- K5, <- K7, <- K8, <- K9, <- K10, <- K11, <- (sim_gas _ _ _ _ S), <- N3, <- N4, <- N5, <- N6, <- N7, <- N8.
      pose proof (sim_stack _ _ _ _ S). destruct F as [-> | ->]; [done|]. destruct e''. repeat split. eapply holds_ext; [| |done]; done. }
    exists e'. split; [eapply Rok; [exact E|done|done|done|lia]|done].
  - exists fs. by apply Rerr.
Qed.
End Refine.

(** ** A program: 5! by a loop *)
#[local] Instance zero_hash : Keccak.
Proof. refine {| keccak := fun _ => replicate 32 0 |}; [intros; apply length_replicate|intros; by apply Forall_replicate]. Defined.
#[local] Instance no_env : EvmEnv := fun _ _ _ _ _ => inl (-1).
#[local] Instance no_pre : PreCrypto := Build_PreCrypto (fun _ => []) (fun _ => []) (fun _ _ => None) undef undef undef.
Definition factorial_code : list Z :=
  [0x60; 5; 0x60; 1; 0x5b; 0x81; 0x02; 0x90; 0x60; 1; 0x90; 0x03; 0x90; 0x81; 0x60; 4; 0x57; 0x00].
Definition factorial_evm : evm_t := set_gas 500 (set_code (bytes factorial_code) (evm_with [])).
Lemma evm_run_refines_machine_witness :
  exists e', evm_run 503 [] [factorial_evm] = Ok tt [e'] /\ holds e' [120; 0] /\ gas e' = 294.
Proof.
  assert (holds factorial_evm []) as Hh.
  { exists []. split; [|split; [constructor|reflexivity]]. assert (stack_rep (evm_with []) []) as R by (apply evm_with_rep; [constructor|cbn; unfold EVM_STACK_LIMIT; lia]). exact R. }
  pose proof (evm_run_refines_machine factorial_evm [] factorial_code [] [] 503 Hh eq_refl ltac:(decide_now) ltac:(reflexivity) ltac:(cbn; lia) eq_refl
    eq_refl eq_refl eq_refl ltac:(cbn; lia) ltac:(cbn; lia)) as T.
  assert (mrun (Z.to_nat (gas factorial_evm) + 1) factorial_code (Mach (pos factorial_evm) (gas factorial_evm) []) = Halted (Mach 18 294 [120; 0])) as E
    by (vm_compute; reflexivity).
  rewrite E in T. destruct T as (e' & H1 & H2 & H3 & _). exists e'. split; [exact H1|]. split; [exact H2|exact H3].
Defined.
